(* ===== verification/_CoqProject ===== *)
-Q . S2P
Prelude.v
PMem.v
PMemInv.v
PMemOps.v
PMemThms.v
PageAlloc.v
PMemInit.v
PMemProps.v
Ipc.v
IpcQueue.v
IpcRun.v
IpcProps.v
Crc32.v
Sha256.v
Sha256Props.v
Rng.v
RbTree.v
RbRep.v
RbInsert.v
RbQueue.v
RbDelete.v
RbErase.v
Eevdf.v
Sched.v
SchedQueue.v
SchedTerm.v
SchedSafe.v
SchedKernel.v
SchedTick.v
SchedProps.v
Vfrfs.v
VfrfsInv.v
VfrfsCreate.v
VfrfsFind.v
VfrfsRemove.v
VfrfsOps.v
VfrfsRun.v
VfrfsPath.v
VfrfsProps.v
StringOps.v
StringProps.v
Cerberus.v
CerberusProps.v
BlockDev.v
Fat1x.v
FatFile.v
FatTable.v
FatDir.v
FatWrite.v
FatRound.v
FatIso.v
FatProps.v
Format.v
FormatProps.v
BlockTable.v
BlockProps.v
Vfs.v
VfsRange.v
VfsStore.v
VfsRam.v
VfsCopy.v
VfsProps.v
ExecLoad.v
ExecImage.v
ExecProps.v
FsRegistry.v
PseudoFs.v
Iso9660.v
IsoTree.v
IsoProps.v
ByteMem.v
Magazine.v
MagInv.v
MagOps.v
MagSteps.v
MagRefill.v
MagFree.v
HeapRun.v
HeapLeak.v
HeapProps.v
