(* ===== verification/Prelude.v ===== *)
(** * VoidFrame: a verification library for the kernel

    VoidFrame ([src/]) is an x86-64 kernel in C.  This library models its core logic at the level
    of the C code (machine integers at their width, arrays and pools by index, pointers that may
    be NULL) and proves what makes each part correct.  This file is the root: the notation,
    tactics and lemmas on machine words, bits and arrays that the components share.

    ** The parts and how they interact

    The page allocator ([src/mm/PMem.c]) hands out physical pages to every other subsystem; the
    kernel heap ([src/mm/dynamic/c/Magazine.c], [src/mm/KernelHeap.h]) hands out blocks carved from
    regions of the virtual memory manager, through a magazine of free blocks per CPU and size.  The
    EEVDF scheduler ([src/kernel/sched/EEVDF.c]) owns the process table; its run queue is a
    red-black tree in a node pool; its integrity seals (SIS) are CRC-32 checksums
    ([src/crypto/CRC32.c]) under keys drawn from the random generator ([src/crypto/RNG.c]).
    Message passing ([src/kernel/ipc/Ipc.c]) reads and writes mailboxes and states inside the
    scheduler's process table.  The virtual file system layer ([src/fs/VFS.c]) finds the mount of
    a path and passes the operation on: to the in-memory file system ([src/fs/VFRFS.c]), a tree of
    nodes with open handles, or to a driver, such as FAT ([src/fs/FAT/FAT1x.c]) over a block
    device, DevFS over the character devices, or ProcFS over the process table.  Files of an ISO 9660
    disc ([src/fs/Iso9660.c]) are read, and copied through the layer.  Programs
    ([src/kernel/execf]) are read through the layer, laid out in guarded pages and made processes.  Devices and the
    partitions of their boot records are in a table ([src/fs/BlockDevice.c], [src/fs/MBR.c]);
    start-up mounts what the registered drivers detect ([src/fs/FileSystem.c]).  All of them use
    the string functions ([src/kernel/etc/StringOps.c]) and formatted output
    ([src/kernel/etc/Format.c]).  The integrity monitor ([src/mm/security/Cerberus.c]) watches
    allocations and stack canaries of registered processes.  SHA-256 ([src/crypto/SHA256.c]) is
    self-contained.

    ** Conventions

    A w-bit unsigned integer is a [Z] in its range, wrap-around written out with [u8], [u32],
    [u64].  An access outside an array, a NULL dereference or a division by zero is a fault:
    [None] in the [option]-valued models and in the state monad [STM] of this file, [Fault] in the
    scheduler's monad, which has two more outcomes: [Panic] is the kernel's own PANIC, [Hang] waits for
    ever for a lock that its CPU holds.  Freedom from faults is therefore always a theorem.  Locks bracket the operations they protect, so an operation is
    one atomic step and interleavings are sequences of operations; where the code takes no lock (the
    fast path of the heap) the operation is also split, and what an interruption does is proved.
    For its clients the heap is the list of the outcomes of its coming calls, so every failure is
    covered, and a [realloc] function with a contract that the heap's model is proved to keep.
    Console output is left out.

    ** The files

    - Page allocator: [PMem] (state [pmm], all operations), [PMemInv] (invariant [pmm_inv],
      abstraction to the set of used pages), [PMemOps], [PMemThms] (refinement of each
      operation), [PMemInit] ([MemoryInit] from the Multiboot2 map, and the statistics),
      [PMemProps] (C1 to C3, C5, C10).  [PageAlloc] is the interface (class [PageAllocator]) against which clients are proved.
    - Kernel heap: [ByteMem] (byte memory, and the class [Backend] of the virtual memory manager and
      the Rust allocator with its laws), [Magazine] (state [heap], every function), [MagInv] (the
      invariant, with a ghost record of which list or CPU owns each magazine and which magazine,
      slab or client holds each block), [MagOps], [MagSteps], [MagRefill],
      [MagFree] (every operation keeps it), [HeapRun] (clients' calls, their specification, the
      refinement step, and a concrete back end), [HeapLeak] (a workload that leaks
      magazines), [HeapProps] (C4, C16, C19; [preempted_allocation]; and [large_write_panics], the file
      system on this heap).
    - Message passing: [Ipc] (mailbox ring and operations over the class [IpcProc]), [IpcQueue]
      (the ring refines a list), [IpcRun] (many processes, step relation), [IpcProps] (C12 to C14).
    - Cryptography: [Crc32] (C20), [Sha256] and [Sha256Props] (C22), [Rng].
    - Run queue: [RbTree] (the pool and pointer operations), [RbRep] (the trees a pool represents),
      [RbInsert], [RbDelete], [RbErase] (the fix-ups), [RbQueue] (the pool's bitmap and the
      tree as a sorted sequence).
    - Scheduler: [Eevdf] (data, arithmetic, seals, the monad), [Sched] (every operation, and
      [Scheduler.c]'s wrappers in the module [Scheduler]), [SchedQueue] (the queue refines a sorted
      sequence), [SchedTerm] (seals and termination), [SchedSafe] (weakest preconditions and the invariant),
      [SchedKernel] (start-up, and scheduler and messages on one process table), [SchedTick] (the
      scheduling tick), [SchedProps] (C24, C25, C27 to C30).
    - In-memory file system: [Vfrfs] (state [fs], every function), [VfrfsInv] (the tree
      invariant), [VfrfsCreate], [VfrfsFind], [VfrfsRemove] (creation, path resolution, removal),
      [VfrfsOps] (every operation runs), [VfrfsRun] (deletion by path, start-up, call sequences),
      [VfrfsPath], [VfrfsProps] (C34, C35, C37, C38).
    - FAT: [BlockDev] (the interface of a block device, classes [BlockDevice] and
      [ReliableDevice], and a RAM disk), [Fat1x] and [FatFile] (state [fat1x], every function, the
      registry of volumes), [FatTable] (the packed table is an array), [FatDir] (directories),
      [FatWrite], [FatRound], [FatIso] (writing, reading back, other files), [FatProps] (C6, C7,
      C18, C23, C33).
    - Virtual file system layer: [Vfs] (mount table and dispatch over the class [Drivers]),
      [VfsRange] (whole files and byte ranges), [VfsStore] (the interface [FileStore] and every
      range operation proved against it), [VfsRam] (the in-memory file system implements it),
      [VfsCopy] (copies, and the mount table), [VfsProps] (C11, C31), [FsRegistry] (driver registry and
      auto-mounting over the class [Detectors]).
    - ISO 9660: [Iso9660] (every function, over the class [CdRom] and the layer's state), [IsoTree]
      (the class [Disc], what it means that a disc holds a tree, and runs that only the heap can make
      fail), [IsoProps] (C8, C15, C17).
    - Devices: [BlockTable] (table of block devices and master boot records over the class
      [RawDisk]), [BlockProps] (C36), [PseudoFs] (character devices, DevFS, ProcFS).
    - Executable loaders: [ExecLoad] (every function of [src/kernel/execf], over the virtual file
      system layer, the outcomes of page allocation and the class [Processes] of the scheduler),
      [ExecImage] (images made of pieces of a file, the common course of a loader over a file
      store), [ExecProps] (C26 ELF, C32 a.out, C40 PE; also Mach-O and the choice of the loader).
    - Integrity monitor: [Cerberus] (state [cerberus], every operation), [CerberusProps] (C9).
    - Text: [StringOps] (the functions on a flat byte memory), [StringProps] (C39), [Format]
      (formatted output and character classes), [FormatProps] (C21).

    Definitions carry the names of the C functions; a loop of a function [f] is a definition of
    its own next to [f].

    ** What the theorems show

    The allocator refines a set of used pages, never hands a page out twice and counts exactly;
    start-up reserves exactly what it must, and two flaws of it are proved.  The heap refines a
    finite map from pointers to contents under any calls of its clients on any CPU: blocks keep
    what was written to them and never overlap.  It stops the kernel in two ways: a reallocation
    above 1024 bytes, and a pool of magazines that runs out because every refill drops a magazine;
    and its allocation is shown to be unsafe when it is preempted.  A mailbox refines a
    list, receives in order of priority and age, and stays well formed under interleaving.  The
    hash and checksum equal their definitions.  The scheduler with message passing never faults
    in any sequence of calls, though a tick can wait for ever for the lock it holds (when the next task
    fails its check); its run queue refines a sorted sequence with logarithmic search; a
    tick switches to the task with the least virtual runtime; seals detect tampering; protected
    processes cannot be terminated; and the flaws found (blocked processes are killed, pids leak,
    slices wrap, weights are ignored) are theorems.  The in-memory file system never faults in any
    sequence of calls whose paths fit and whose reads start inside a file; path lookup equals a
    reference; making, writing, reading and deleting do what they should and nothing else.  On a
    healthy FAT volume a file of one cluster reads back as written, other files are untouched,
    deletion frees exactly a chain; files of two clusters are shown to be damaged, and files with
    names of more than eleven bytes to be stored but never found.  The layer
    above picks the deepest mount; its range operations do on contents what their names say over
    any file store, with the flaws (truncation that does not shorten, appending to an empty file,
    copying onto a longer one, unmounting by any path) as theorems.  Auto-mounting is shown to
    call through NULL when a disk is not recognised; boot records register exactly their
    partitions.  Reading a path of an ISO 9660 disc gives the bytes of the file that the disc's tree
    has there, and copying it stores them in any file store; large directories overrun an array.  Formatted output
    equals the cut expansion of the format, and numbers read back.  The loaders give the process exactly
    the image that the file's segments describe and the entry point in it, or refuse the file, and
    never leave their blocks; for ELF, PE and Mach-O this needs what they do not check (such as
    that a segment is not longer in the file than in memory), and a file without it is shown to make
    the copy leave the block.
    The integrity monitor's counters are exact, the runs that leave its tables are exactly those with
    a process identifier it does not check, and bad frees and overwritten canaries are detected.
    The string functions compute on byte lists what their names say.

    ** Bounds and fuel

    Loops over pointers run on fuel, and the theorems show it is enough: [rb_fuel] is 65, above
    the height of a tree of 64 pool nodes; a sibling list has at most 128 nodes, so [sib_fuel] is
    129; recursive deletion descends at most 128 levels; path lookup uses the path's length plus
    one, since every round consumes a byte, and so does [format_loop]; [huge_fuel] exceeds the
    number of 2 MB blocks; string loops use the memory's size plus one; [itoa] writes at most 20
    digits and [digits_loop] 23; [chain_fuel] is 4096, more than the clusters of a FAT12 volume;
    the heap's search of its slabs has one more step than there are slabs ([slab_fuel]), and its
    loops that fill a magazine and thread a slab have their bounds in the code (32 and
    [total_blocks]); a directory of an ISO disc is walked by sectors ([extent_fuel]), of at most
    2048 records each ([sector_fuel]); the depth of [Iso9660Copy] is a parameter; a partition's
    parent comes before it, so a read passes through at most 16 devices; a search
    tries each offset once; the loaders' loops are bounded by the counts in the headers.  The walk over the Multiboot2 tags has no bound in the code (a tag of
    size 0 loops for ever): its theorems hold for any fuel that lets the walk end.

    ** Not modelled

    The build modelled has EEVDF as its scheduler, without the hooks that call Cerberus; the
    monitor is modelled on its own, over parameters for address translation and writable memory.
    The virtual memory manager, which is C++ code over page tables, and the Rust allocator are the
    class [Backend] of the heap.  The laws of the class say that regions are page-aligned and apart
    in the lower half of the address space, which is where the manager's heap lies.  The
    unsynchronised accesses of several CPUs to one local magazine are not modelled, since the code
    gives each CPU its own.  The file systems and the layer above them are not run on one memory
    with the heap: their contents are byte lists, and [reallocation_contract] (C16) is what connects
    them.  Of FAT only FAT12 tables exist in the code; long names are
    not supported by it.  MLFQ (the alternative scheduler), Ext2 and NTFS
    are not modelled.  A loaded process is known by its image and entry point; the table of
    processes behind [CreateProcess] is a parameter of the loaders.  Drivers, interrupt entry, graphics, the shell,
    Rust and C++ components, assembly and vendored build code are outside the scope: they are
    device access, other languages or glue. *)
From Stdlib Require Import ZArith Lia.
From stdpp Require Import base tactics list gmap sets numbers.

#[global] Open Scope Z_scope.

(** ** Machine integers: a w-bit unsigned integer is a [Z] kept in [0, 2^w). *)
Definition u8 (z : Z) : Z := z mod 2 ^ 8.
Definition u16 (z : Z) : Z := z mod 2 ^ 16.
Definition u32 (z : Z) : Z := z mod 2 ^ 32.
Definition u64 (z : Z) : Z := z mod 2 ^ 64.
(** Conversions to [int] and [int64_t]. *)
Definition i32 (z : Z) : Z := let w := u32 z in if w <? 2 ^ 31 then w else w - 2 ^ 32.
Definition i64 (z : Z) : Z := let w := u64 z in if w <? 2 ^ 63 then w else w - 2 ^ 64.

Declare Scope cword_scope.
Delimit Scope cword_scope with cword.
Notation "a +! b" := (u64 (a + b)) (at level 50, left associativity) : cword_scope.
Notation "a -! b" := (u64 (a - b)) (at level 50, left associativity) : cword_scope.
Notation "a *! b" := (u64 (a * b)) (at level 40, left associativity) : cword_scope.
#[global] Open Scope cword_scope.

(** All ones, bitwise complement and left shift at 64 bits. *)
Definition ones64 : Z := 2 ^ 64 - 1.
Definition not64 (w : Z) : Z := Z.lxor w ones64.
Definition shl64 (w k : Z) : Z := u64 (Z.shiftl w k).

Lemma u8_small z : 0 <= z < 2 ^ 8 -> u8 z = z.
Proof. apply Z.mod_small. Qed.
Lemma u32_small z : 0 <= z < 2 ^ 32 -> u32 z = z.
Proof. apply Z.mod_small. Qed.
Lemma u64_small z : 0 <= z < 2 ^ 64 -> u64 z = z.
Proof. apply Z.mod_small. Qed.
Lemma u8_range z : 0 <= u8 z < 2 ^ 8.
Proof. apply Z.mod_pos_bound. lia. Qed.
Lemma u32_range z : 0 <= u32 z < 2 ^ 32.
Proof. apply Z.mod_pos_bound. lia. Qed.
Lemma u64_range z : 0 <= u64 z < 2 ^ 64.
Proof. apply Z.mod_pos_bound. lia. Qed.
Lemma u64_wrap_add z : 2 ^ 64 <= z < 2 * 2 ^ 64 -> u64 z = z - 2 ^ 64.
Proof.
  intros H. unfold u64. replace z with ((z - 2 ^ 64) + 1 * 2 ^ 64) at 1 by lia.
  rewrite Z.mod_add by lia. apply Z.mod_small. lia.
Qed.
Lemma u64_idemp z : u64 (u64 z) = u64 z.
Proof. apply u64_small, u64_range. Qed.

(** [wsimp] removes every wrap-around whose argument [lia] bounds. *)
Ltac wsimp :=
  repeat match goal with
  | |- context [u64 ?z] => rewrite (u64_small z) by lia
  | |- context [u32 ?z] => rewrite (u32_small z) by lia
  | |- context [u8 ?z] => rewrite (u8_small z) by lia
  end.
Ltac wsimp_in H :=
  repeat match type of H with
  | context [u64 ?z] => rewrite (u64_small z) in H by lia
  | context [u32 ?z] => rewrite (u32_small z) in H by lia
  | context [u8 ?z] => rewrite (u8_small z) in H by lia
  end.

(** [zbool] turns every Boolean comparison of the context into its proposition. *)
Ltac zbool :=
  repeat match goal with
  | H : (_ =? _) = true |- _ => apply Z.eqb_eq in H
  | H : (_ =? _) = false |- _ => apply Z.eqb_neq in H
  | H : (_ <? _) = true |- _ => apply Z.ltb_lt in H
  | H : (_ <? _) = false |- _ => apply Z.ltb_ge in H
  | H : (_ <=? _) = true |- _ => apply Z.leb_le in H
  | H : (_ <=? _) = false |- _ => apply Z.leb_gt in H
  | H : (_ || _) = true |- _ => apply orb_true_iff in H
  | H : (_ || _) = false |- _ => apply orb_false_iff in H; destruct H
  | H : (_ && _) = true |- _ => apply andb_true_iff in H; destruct H
  | H : (_ && _) = false |- _ => apply andb_false_iff in H
  | H : negb _ = true |- _ => apply negb_true_iff in H
  | H : negb _ = false |- _ => apply negb_false_iff in H
  end.

(** [lia] with division and modulo by constants. *)
Ltac dlia := Z.to_euclidean_division_equations; lia.

(** [case_if] splits on the first [if] of the goal whose test is a [bool]. *)
Ltac case_if E :=
  match goal with
  | |- context [if ?b then _ else _] =>
      lazymatch type of b with bool => destruct b eqn:E end
  end.

Ltac case_if_in H E :=
  match type of H with
  | context [if ?b then _ else _] =>
      lazymatch type of b with bool => destruct b eqn:E end
  end.
Ltac case_ifs := repeat (let E := fresh "E" in case_if E).

(** ** Bits *)
Create Rewrite HintDb bits.
#[export] Hint Rewrite Z.lor_spec Z.land_spec Z.lxor_spec Z.ldiff_spec Z.bits_0 : bits.

Lemma testbit_ge w i k : 0 <= w < 2 ^ k -> k <= i -> Z.testbit w i = false.
Proof.
  intros Hw Hi. destruct (decide (k < 0)).
  { rewrite Z.pow_neg_r in Hw by lia. lia. }
  rewrite Z.testbit_eqb by lia. rewrite Z.div_small; [done|].
  split; [lia|]. apply Z.lt_le_trans with (2 ^ k); [lia|].
  apply Z.pow_le_mono_r; lia.
Qed.

Lemma testbit_u64 z i : 0 <= i < 64 -> Z.testbit (u64 z) i = Z.testbit z i.
Proof. intros. apply Z.mod_pow2_bits_low. lia. Qed.

Lemma testbit_u64_ge z i : 64 <= i -> Z.testbit (u64 z) i = false.
Proof. intros. eapply testbit_ge; [apply u64_range | lia]. Qed.

Lemma testbit_ones64 i : 0 <= i -> Z.testbit ones64 i = (i <? 64).
Proof.
  intros. change ones64 with (Z.ones 64). destruct (Z.ltb_spec i 64).
  - apply Z.ones_spec_low. lia.
  - apply Z.ones_spec_high. lia.
Qed.

Lemma testbit_not64 w i :
  0 <= i -> 0 <= w < 2 ^ 64 -> Z.testbit (not64 w) i = (i <? 64) && negb (Z.testbit w i).
Proof.
  intros Hi Hw. unfold not64. rewrite Z.lxor_spec, testbit_ones64 by lia.
  destruct (Z.ltb_spec i 64); simpl.
  - by destruct (Z.testbit w i).
  - by rewrite (testbit_ge w i 64) by lia.
Qed.

(** Two non-negative words that agree on every bit are equal. *)
Lemma bits_ext a b : (forall i, 0 <= i -> Z.testbit a i = Z.testbit b i) -> a = b.
Proof.
  intros H. apply Z.bits_inj. intros i. destruct (decide (0 <= i)); [by apply H|].
  rewrite !Z.testbit_neg_r by lia. done.
Qed.

(** A word is below [2^k] when it is non-negative and its bits from [k] on are clear. *)
Lemma bits_bound a k :
  0 <= k -> 0 <= a -> (forall i, k <= i -> Z.testbit a i = false) -> a < 2 ^ k.
Proof.
  intros Hk Ha Hb. replace a with (a mod 2 ^ k); [apply Z.mod_pos_bound; lia|].
  apply bits_ext. intros i Hi. destruct (decide (i < k)).
  - apply Z.mod_pow2_bits_low. lia.
  - rewrite Z.mod_pow2_bits_high by lia. by rewrite Hb by lia.
Qed.

Lemma lor_bound k a b : 0 <= k -> 0 <= a < 2 ^ k -> 0 <= b < 2 ^ k -> 0 <= Z.lor a b < 2 ^ k.
Proof.
  intros Hk Ha Hb. assert (0 <= Z.lor a b) by (apply Z.lor_nonneg; lia).
  split; [done|]. apply bits_bound; try lia. intros i Hi.
  rewrite Z.lor_spec, (testbit_ge a i k), (testbit_ge b i k) by lia. done.
Qed.

Lemma land_bound k a b : 0 <= k -> 0 <= a < 2 ^ k -> 0 <= Z.land a b < 2 ^ k.
Proof.
  intros Hk Ha. assert (0 <= Z.land a b) by (apply Z.land_nonneg; lia).
  split; [done|]. apply bits_bound; try lia. intros i Hi.
  rewrite Z.land_spec, (testbit_ge a i k) by lia. done.
Qed.

Lemma lxor_bound k a b : 0 <= k -> 0 <= a < 2 ^ k -> 0 <= b < 2 ^ k -> 0 <= Z.lxor a b < 2 ^ k.
Proof.
  intros Hk Ha Hb. assert (0 <= Z.lxor a b) by (apply Z.lxor_nonneg; lia).
  split; [done|]. apply bits_bound; try lia. intros i Hi.
  rewrite Z.lxor_spec, (testbit_ge a i k), (testbit_ge b i k) by lia. done.
Qed.

Lemma lxor_cancel_r a b c : Z.lxor a c = Z.lxor b c -> a = b.
Proof.
  intros E. apply (f_equal (fun z => Z.lxor z c)) in E.
  by rewrite !Z.lxor_assoc, Z.lxor_nilpotent, !Z.lxor_0_r in E.
Qed.

Lemma lor_shl_add a b n : 0 <= n -> 0 <= b < 2 ^ n -> Z.lor (Z.shiftl a n) b = a * 2 ^ n + b.
Proof.
  intros Hn Hb. rewrite <-Z.shiftl_mul_pow2 by lia.
  assert (HD : Z.land (Z.shiftl a n) b = 0).
  { apply bits_ext. intros i Hi. rewrite Z.land_spec, Z.bits_0, Z.shiftl_spec by lia.
    destruct (decide (i < n)); [by rewrite Z.testbit_neg_r by lia|].
    by rewrite (testbit_ge b i n), andb_false_r by lia. }
  rewrite Z.add_nocarry_lxor by done. symmetry. by apply Z.lxor_lor.
Qed.

(** [(w & (1 << b)) == 0] tests bit [b]. *)
Lemma land_bit_eqb w b : 0 <= b -> (Z.land w (Z.shiftl 1 b) =? 0) = negb (Z.testbit w b).
Proof.
  intros Hb. destruct (Z.testbit w b) eqn:E; simpl.
  - apply Z.eqb_neq. intros H. apply (f_equal (fun z => Z.testbit z b)) in H.
    rewrite Z.land_spec, E, Z.shiftl_spec, Z.sub_diag, Z.bits_0 in H by lia. done.
  - apply Z.eqb_eq. apply bits_ext. intros i Hi.
    rewrite Z.land_spec, Z.bits_0, Z.shiftl_spec by lia.
    destruct (decide (i = b)) as [->|]; [by rewrite E|].
    rewrite andb_false_iff. right. destruct (decide (i < b)).
    + by rewrite Z.testbit_neg_r by lia.
    + apply (testbit_ge 1 (i - b) 1); lia.
Qed.

Lemma testbit_shl1 b i : 0 <= b -> 0 <= i -> Z.testbit (Z.shiftl 1 b) i = (i =? b).
Proof.
  intros Hb Hi. rewrite Z.shiftl_spec by lia. destruct (Z.eqb_spec i b) as [->|].
  - by rewrite Z.sub_diag.
  - destruct (decide (i < b)); [by rewrite Z.testbit_neg_r by lia|].
    apply (testbit_ge 1 (i - b) 1); lia.
Qed.

Lemma shl1_bound b k : 0 <= b < k -> 0 <= Z.shiftl 1 b < 2 ^ k.
Proof.
  intros. rewrite Z.shiftl_mul_pow2, Z.mul_1_l by lia. split; [lia|].
  apply Z.pow_lt_mono_r; lia.
Qed.

Lemma shl64_bit b : 0 <= b < 64 -> shl64 1 b = Z.shiftl 1 b.
Proof. intros. apply u64_small. apply shl1_bound. lia. Qed.

(** Clearing and setting one bit of a word. *)
Lemma testbit_clear w b i :
  0 <= b < 64 -> 0 <= i < 64 -> Z.testbit (Z.land w (not64 (shl64 1 b))) i = Z.testbit w i && negb (i =? b).
Proof.
  intros Hb Hi. rewrite shl64_bit, Z.land_spec, testbit_not64, testbit_shl1 by (lia || by apply shl1_bound).
  by rewrite (proj2 (Z.ltb_lt i 64)) by lia.
Qed.
Lemma testbit_set w b i : 0 <= b < 64 -> 0 <= i -> Z.testbit (Z.lor w (shl64 1 b)) i = Z.testbit w i || (i =? b).
Proof. intros Hb Hi. by rewrite shl64_bit, Z.lor_spec, testbit_shl1 by lia. Qed.

(** [__builtin_ctz*]: position of the lowest set bit among the first [n]; [n] when there is none. *)
Fixpoint ctz_from (n : nat) (i w : Z) : Z :=
  match n with
  | O => i
  | S n' => if Z.testbit w i then i else ctz_from n' (i + 1) w
  end.
Definition ctz64 (w : Z) : Z := ctz_from 64 0 w.
Definition ctz32 (w : Z) : Z := ctz_from 32 0 w.

Lemma ctz_from_spec n i w :
  let c := ctz_from n i w in
  i <= c <= i + Z.of_nat n /\ (forall j, i <= j < c -> Z.testbit w j = false) /\
  (c < i + Z.of_nat n -> Z.testbit w c = true).
Proof.
  revert i. induction n as [|n IH]; intros i; cbn [ctz_from].
  { split; [lia|split; intros; lia]. }
  destruct (Z.testbit w i) eqn:E.
  { split; [lia|split; [intros; lia|done]]. }
  specialize (IH (i + 1)). cbv zeta in IH. destruct IH as (H1 & H2 & H3).
  split; [lia|]. split.
  - intros j Hj. destruct (decide (j = i)) as [->|]; [done|]. apply H2. lia.
  - intros Hc. apply H3. lia.
Qed.

(** The lowest set bit of a non-zero word below [2^n] exists. *)
Lemma ctz_from_hit n w :
  0 < w < 2 ^ Z.of_nat n ->
  let c := ctz_from n 0 w in
  0 <= c < Z.of_nat n /\ Z.testbit w c = true /\ (forall j, 0 <= j < c -> Z.testbit w j = false).
Proof.
  intros Hw c. subst c. pose proof (ctz_from_spec n 0 w) as H. cbv zeta in H.
  destruct H as (H1 & H2 & H3).
  destruct (decide (ctz_from n 0 w < Z.of_nat n)) as [|Hge].
  { split_and!; [lia|lia|by apply H3; lia|apply H2]. }
  exfalso. assert (w = 0); [|lia]. apply bits_ext. intros i Hi. rewrite Z.bits_0.
  destruct (decide (i < Z.of_nat n)); [apply H2; lia|]. apply (testbit_ge w i (Z.of_nat n)); lia.
Qed.

(** [__builtin_popcount*]: number of set bits among the first [n]. *)
Fixpoint popcount_n (n : nat) (w : Z) : Z :=
  match n with
  | O => 0
  | S n' => popcount_n n' w + Z.b2z (Z.testbit w (Z.of_nat n'))
  end.
Definition popcount64 (w : Z) : Z := popcount_n 64 w.

Lemma popcount_n_range n w : 0 <= popcount_n n w <= Z.of_nat n.
Proof.
  induction n as [|n IH]; cbn [popcount_n]; [lia|].
  destruct (Z.testbit w (Z.of_nat n)); simpl Z.b2z; lia.
Qed.

Lemma popcount_n_ext n a b :
  (forall i, 0 <= i < Z.of_nat n -> Z.testbit a i = Z.testbit b i) -> popcount_n n a = popcount_n n b.
Proof.
  induction n as [|n IH]; intros H; cbn [popcount_n]; [done|].
  rewrite H by lia. rewrite IH; [done|]. intros. apply H. lia.
Qed.

Lemma popcount_n_mono n a b :
  (forall i, 0 <= i < Z.of_nat n -> Z.testbit a i = true -> Z.testbit b i = true) ->
  popcount_n n a <= popcount_n n b.
Proof.
  induction n as [|n IH]; intros H; cbn [popcount_n]; [lia|].
  assert (popcount_n n a <= popcount_n n b) by (apply IH; intros; apply H; [lia|done]).
  pose proof (H (Z.of_nat n) ltac:(lia)) as Hn.
  destruct (Z.testbit a (Z.of_nat n)); [rewrite Hn by done|]; simpl Z.b2z; [lia|].
  destruct (Z.testbit b (Z.of_nat n)); simpl Z.b2z; lia.
Qed.

(** Changing one clear bit to set adds one to the population count. *)
Lemma popcount_n_set n w v b :
  0 <= b < Z.of_nat n -> Z.testbit w b = false -> Z.testbit v b = true ->
  (forall i, 0 <= i -> i <> b -> Z.testbit v i = Z.testbit w i) ->
  popcount_n n v = popcount_n n w + 1.
Proof.
  intros Hb H0 H1 Hd. induction n as [|n IH]; [lia|]. cbn [popcount_n].
  destruct (decide (b = Z.of_nat n)) as [->|].
  - rewrite H0, H1. rewrite (popcount_n_ext n v w); [simpl Z.b2z; lia|].
    intros. apply Hd; lia.
  - rewrite IH by lia. rewrite (Hd (Z.of_nat n)) by lia. lia.
Qed.

(** ** Arrays: C arrays as lists indexed by a non-negative [Z]; an index outside the
    array is a fault ([None]), never a silent no-op. *)
Definition arr_get {A} (l : list A) (i : Z) : option A :=
  if 0 <=? i then l !! Z.to_nat i else None.
Definition arr_set {A} (l : list A) (i : Z) (x : A) : option (list A) :=
  if (0 <=? i) && (i <? Z.of_nat (length l)) then Some (<[Z.to_nat i := x]> l) else None.

Lemma arr_get_some {A} (l : list A) i :
  0 <= i < Z.of_nat (length l) -> exists x, arr_get l i = Some x.
Proof.
  intros H. unfold arr_get. rewrite (proj2 (Z.leb_le 0 i)) by lia.
  destruct (lookup_lt_is_Some_2 l (Z.to_nat i)) as [x Hx]; [lia|]. by exists x.
Qed.

Lemma arr_get_range {A} (l : list A) i x : arr_get l i = Some x -> 0 <= i < Z.of_nat (length l).
Proof.
  unfold arr_get. destruct (Z.leb_spec 0 i); [|done]. intros Hx%lookup_lt_Some. lia.
Qed.

Lemma arr_set_some {A} (l : list A) i x :
  0 <= i < Z.of_nat (length l) -> arr_set l i x = Some (<[Z.to_nat i := x]> l).
Proof.
  intros H. unfold arr_set. rewrite (proj2 (Z.leb_le 0 i)) by lia.
  by rewrite (proj2 (Z.ltb_lt i _)) by lia.
Qed.

Lemma arr_set_inv {A} (l l' : list A) i x :
  arr_set l i x = Some l' -> 0 <= i < Z.of_nat (length l) /\ l' = <[Z.to_nat i := x]> l.
Proof.
  unfold arr_set. destruct ((0 <=? i) && (i <? Z.of_nat (length l))) eqn:E; [|done].
  intros [= <-]. zbool. split; [lia|done].
Qed.

Lemma arr_get_insert_eq {A} (l : list A) i x :
  0 <= i < Z.of_nat (length l) -> arr_get (<[Z.to_nat i := x]> l) i = Some x.
Proof.
  intros H. unfold arr_get. rewrite (proj2 (Z.leb_le 0 i)) by lia.
  apply list_lookup_insert_eq. lia.
Qed.

Lemma arr_get_insert_ne {A} (l : list A) i j x :
  0 <= i -> i <> j -> arr_get (<[Z.to_nat i := x]> l) j = arr_get l j.
Proof.
  intros H Hne. unfold arr_get. destruct (Z.leb_spec 0 j); [|done].
  apply list_lookup_insert_ne. lia.
Qed.

Lemma option_bind_Some {A B} (x : A) (f : A -> option B) : (Some x ≫= f) = f x.
Proof. done. Qed.

(** ** Bytes *)
Notation bytes := (list Z).
Definition byte_at (i : nat) (l : bytes) : Z := nth i l 0.
(** [l] with [bs] written at offset [i]. *)
Definition splice (i : nat) (bs l : bytes) : bytes := take i l ++ bs ++ drop (i + length bs) l.
Lemma splice_length i bs l : (i + length bs <= length l)%nat -> length (splice i bs l) = length l.
Proof. intros H. unfold splice. rewrite !length_app, length_take, length_drop. lia. Qed.
Lemma splice_in i bs l k : (i + length bs <= length l)%nat -> (k < length bs)%nat -> splice i bs l !! (i + k)%nat = bs !! k.
Proof.
  intros H Hk. unfold splice. rewrite lookup_app_r, length_take, Nat.min_l by (rewrite ?length_take; lia).
  replace (i + k - i)%nat with k by lia. by rewrite lookup_app_l.
Qed.
Lemma splice_out i bs l k : (i + length bs <= length l)%nat -> (k < i \/ i + length bs <= k)%nat -> splice i bs l !! k = l !! k.
Proof.
  intros H Hk. unfold splice. destruct (decide (k < i)%nat).
  - rewrite lookup_app_l by (rewrite length_take; lia). by apply lookup_take_lt.
  - rewrite lookup_app_r, length_take, Nat.min_l by (rewrite ?length_take; lia). rewrite lookup_app_r by lia. rewrite lookup_drop. f_equal. lia.
Qed.

(** Little-endian numbers. *)
Definition get16 (i : nat) (l : bytes) : Z := Z.lor (byte_at i l) (Z.shiftl (byte_at (S i) l) 8).
Definition get32 (i : nat) (l : bytes) : Z := Z.lor (get16 i l) (Z.shiftl (get16 (i + 2) l) 16).
(** [FastMemcpy] out of, and into, an object. *)
Definition mem_read (d : list Z) (off n : Z) : option (list Z) :=
  if (0 <=? off) && (off + n <=? Z.of_nat (length d)) then Some (take (Z.to_nat n) (drop (Z.to_nat off) d)) else None.
Definition mem_write (d : list Z) (off : Z) (b : list Z) : option (list Z) :=
  if (0 <=? off) && (off + Z.of_nat (length b) <=? Z.of_nat (length d))
  then Some (take (Z.to_nat off) d ++ b ++ drop (Z.to_nat off + length b) d) else None.
(** [FastStrCopy dst src max] keeps [max - 1] bytes. *)
Definition str_copy (src : list Z) (max : Z) : list Z := take (Z.to_nat (max - 1)) src.
(** [KernelMemoryAlloc] on the outcomes of its coming calls: NULL, or a block of [n] bytes with
    its old contents; a request of no bytes gives NULL ([MagazineAlloc]). *)
Definition heap_alloc (n : Z) (h : list (option bytes)) : option bytes * list (option bytes) :=
  if n =? 0 then (None, h) else
  match h with
  | [] => (Some (replicate (Z.to_nat n) 0), h)
  | None :: h' => (None, h')
  | Some g :: h' => (Some (resize (Z.to_nat n) 0 g), h')
  end.

(** ** Lists *)
Lemma fold_left_cons {A B} (f : A -> B -> A) b l a : fold_left f (b :: l) a = fold_left f l (f a b).
Proof. reflexivity. Qed.
Lemma filter_none {A} (P : A -> Prop) `{!forall x, Decision (P x)} (l : list A) :
  Forall (fun x => ~ P x) l -> filter P l = [].
Proof.
  induction 1 as [|x l Hx _ IH]; [done|]. by rewrite filter_cons_False.
Qed.

Lemma find_app {A} (f : A -> bool) l1 l2 : List.find f (l1 ++ l2) = match List.find f l1 with Some x => Some x | None => List.find f l2 end.
Proof. induction l1 as [|x l1 IH]; cbn; [done|]. by destruct (f x). Qed.
Lemma find_ext {A} (f g : A -> bool) l : (forall x, x ∈ l -> f x = g x) -> List.find f l = List.find g l.
Proof.
  induction l as [|x l IH]; intros H; cbn; [done|]. rewrite (H x) by (apply elem_of_cons; auto). destruct (g x); [done|].
  apply IH. intros y Hy. apply H, elem_of_cons. auto.
Qed.

(** ** State transformers that may fault *)
Definition STM (S A : Type) : Type := S -> option (A * S).
#[export] Instance STM_ret {S} : MRet (STM S) := fun A a s => Some (a, s).
#[export] Instance STM_bind {S} : MBind (STM S) := fun A B f m s => match m s with Some (a, s1) => f a s1 | None => None end.
Definition fault {S A} : STM S A := fun _ => None.
Definition asks {S A} (f : S -> A) : STM S A := fun s => Some (f s, s).
Definition lift {S A} (o : option A) : STM S A := fun s => a ← o; Some (a, s).
Lemma run_bind {S A B} (m : STM S A) (f : A -> STM S B) s a s1 : m s = Some (a, s1) -> (m ≫= f) s = f a s1.
Proof. intros E. unfold mbind, STM_bind. by rewrite E. Qed.
Lemma asks_run {S A} (f : S -> A) s : asks f s = Some (f s, s).
Proof. done. Qed.
