(* ===== verification/PMem.v ===== *)
(** The physical page allocator, [src/mm/PMem.c].

    State: the file's static variables, as one record.  [page_bitmap] is the
    pointer (0 is NULL) and [bitmap] the 64-bit words it points to.  A read or
    write of a word outside the array is a fault, [None]; every operation below
    returns [option], so "never faults" is a theorem and not a convention.
    The spinlock brackets every operation, so one operation is one atomic step;
    console output is not modelled. *)
From Stdlib Require Import ZArith Lia.
From stdpp Require Import base tactics list gmap sets numbers.
From S2P Require Import Prelude.

Definition PAGE_SIZE : Z := 4096.
Definition HUGE_PAGE_SIZE : Z := 2 * 1024 * 1024.
Definition HUGE_PAGE_MASK : Z := HUGE_PAGE_SIZE - 1.
Definition HUGE_PAGE_ALIGN_UP (addr : Z) : Z :=
  Z.land (u64 (addr + HUGE_PAGE_MASK)) (not64 HUGE_PAGE_MASK).
Definition MAX_SUPPORTED_MEMORY : Z := 128 * 1024 * 1024 * 1024.
Definition MAX_PAGES : Z := MAX_SUPPORTED_MEMORY / PAGE_SIZE.
Definition lowmem_pages : Z := 0x100000 / PAGE_SIZE.

Record pmm := mk_pmm {
  page_bitmap : Z;
  bitmap : list Z;
  bitmap_words : Z;
  total_pages : Z;
  used_pages : Z;
  next_free_hint : Z;
  low_memory_watermark : Z;
  allocation_count : Z;
  free_count : Z;
  allocation_failures : Z;
  huge_pages_allocated : Z
}.

Definition set_words (bm : list Z) (used : Z) (st : pmm) : pmm :=
  mk_pmm (page_bitmap st) bm (bitmap_words st) (total_pages st) used (next_free_hint st)
    (low_memory_watermark st) (allocation_count st) (free_count st) (allocation_failures st)
    (huge_pages_allocated st).
Definition set_hint (h : Z) (st : pmm) : pmm :=
  mk_pmm (page_bitmap st) (bitmap st) (bitmap_words st) (total_pages st) (used_pages st) h
    (low_memory_watermark st) (allocation_count st) (free_count st) (allocation_failures st)
    (huge_pages_allocated st).
Definition set_watermark (w : Z) (st : pmm) : pmm :=
  mk_pmm (page_bitmap st) (bitmap st) (bitmap_words st) (total_pages st) (used_pages st)
    (next_free_hint st) w (allocation_count st) (free_count st) (allocation_failures st)
    (huge_pages_allocated st).
Definition set_counts (allocs frees fails huge : Z) (st : pmm) : pmm :=
  mk_pmm (page_bitmap st) (bitmap st) (bitmap_words st) (total_pages st) (used_pages st)
    (next_free_hint st) (low_memory_watermark st) allocs frees fails huge.
Definition count_alloc (st : pmm) : pmm :=
  set_counts (allocation_count st +! 1) (free_count st) (allocation_failures st)
    (huge_pages_allocated st) st.
Definition count_free (st : pmm) : pmm :=
  set_counts (allocation_count st) (free_count st +! 1) (allocation_failures st)
    (huge_pages_allocated st) st.
Definition count_failure (st : pmm) : pmm :=
  set_counts (allocation_count st) (free_count st) (allocation_failures st +! 1)
    (huge_pages_allocated st) st.
Definition count_huge (st : pmm) : pmm :=
  set_counts (allocation_count st) (free_count st) (allocation_failures st)
    (huge_pages_allocated st +! 1) st.

(** ** Single pages *)
Definition MarkPageUsed (page_idx : Z) (st : pmm) : option pmm :=
  if (total_pages st <=? page_idx) || (page_bitmap st =? 0) then Some st else
  let word_idx := page_idx / 64 in
  let mask := shl64 1 (page_idx mod 64) in
  if bitmap_words st <=? word_idx then Some st else
  word ← arr_get (bitmap st) word_idx;
  if Z.land word mask =? 0 then
    bm ← arr_set (bitmap st) word_idx (Z.lor word mask);
    Some (set_words bm (used_pages st +! 1) st)
  else Some st.

Definition MarkPageFree (page_idx : Z) (st : pmm) : option pmm :=
  if (total_pages st <=? page_idx) || (page_bitmap st =? 0) then Some st else
  let word_idx := page_idx / 64 in
  let mask := shl64 1 (page_idx mod 64) in
  if bitmap_words st <=? word_idx then Some st else
  word ← arr_get (bitmap st) word_idx;
  if negb (Z.land word mask =? 0) then
    bm ← arr_set (bitmap st) word_idx (Z.land word (not64 mask));
    Some (set_words bm (used_pages st -! 1) st)
  else Some st.

Definition IsPageFree (page_idx : Z) (st : pmm) : option bool :=
  if (total_pages st <=? page_idx) || (page_bitmap st =? 0) then Some false else
  let word_idx := page_idx / 64 in
  let bit_idx := page_idx mod 64 in
  if bitmap_words st <=? word_idx then Some false else
  word ← arr_get (bitmap st) word_idx;
  Some (Z.land word (shl64 1 bit_idx) =? 0).

Definition FindFirstFreeBit (word : Z) : Z :=
  if word =? ones64 then -1 else ctz64 (not64 word).

(** ** AllocPage *)

(** The two search loops end in a hit (a page to hand out) or a miss. *)
Inductive scan :=
| ScanHit (page_idx : Z) (st : pmm)
| ScanMiss (st : pmm).

(** [for (word_idx = start_word; word_idx < bitmap_words; word_idx++)]; [n] is the
    number of iterations left. *)
Fixpoint scan_up (n : nat) (word_idx : Z) (st : pmm) : option scan :=
  match n with
  | O => Some (ScanMiss st)
  | S n' =>
      word ← arr_get (bitmap st) word_idx;
      if negb (word =? ones64) then
        let bit_pos := FindFirstFreeBit word in
        if 0 <=? bit_pos then
          let page_idx := u64 (word_idx * 64 + bit_pos) in
          if total_pages st <=? page_idx then Some (ScanMiss st) else
          if page_idx <? lowmem_pages then
            scan_up n' (word_idx + 1) (set_hint (u64 ((word_idx + 1) * 64)) st)
          else Some (ScanHit page_idx st)
        else scan_up n' (word_idx + 1) st
      else scan_up n' (word_idx + 1) st
  end.

(** [for (word_idx = min_word; word_idx < start_word; word_idx++)]. *)
Fixpoint scan_wrap (n : nat) (word_idx : Z) (st : pmm) : option scan :=
  match n with
  | O => Some (ScanMiss st)
  | S n' =>
      word ← arr_get (bitmap st) word_idx;
      if negb (word =? ones64) then
        let bit_pos := FindFirstFreeBit word in
        if 0 <=? bit_pos then
          let page_idx := u64 (word_idx * 64 + bit_pos) in
          if page_idx <? lowmem_pages then scan_wrap n' (word_idx + 1) st
          else Some (ScanHit page_idx st)
        else scan_wrap n' (word_idx + 1) st
      else scan_wrap n' (word_idx + 1) st
  end.

(** What both loops do with the page they found; the result is its address. *)
Definition alloc_take (page_idx : Z) (st : pmm) : option (Z * pmm) :=
  st1 ← MarkPageUsed page_idx st;
  let st2 := set_hint (page_idx +! 1) (count_alloc st1) in
  let st3 := if total_pages st2 <=? next_free_hint st2 then set_hint lowmem_pages st2 else st2 in
  Some (page_idx *! PAGE_SIZE, st3).

Definition AllocPage (st : pmm) : option (Z * pmm) :=
  if page_bitmap st =? 0 then Some (0, st) else
  if (total_pages st -! 1) <=? used_pages st then Some (0, count_failure st) else
  let st1 :=
    if (total_pages st *! 9) / 10 <? used_pages st then
      if low_memory_watermark st =? 0 then set_watermark (used_pages st) st else st
    else st in
  let st2 := if next_free_hint st1 <? lowmem_pages then set_hint lowmem_pages st1 else st1 in
  let st3 := if total_pages st2 <=? next_free_hint st2 then set_hint lowmem_pages st2 else st2 in
  let start_word := next_free_hint st3 / 64 in
  up ← scan_up (Z.to_nat (bitmap_words st3 - start_word)) start_word st3;
  match up with
  | ScanHit page_idx st4 => alloc_take page_idx st4
  | ScanMiss st4 =>
      let min_word := lowmem_pages / 64 in
      wrap ← scan_wrap (Z.to_nat (start_word - min_word)) min_word st4;
      match wrap with
      | ScanHit page_idx st5 => alloc_take page_idx st5
      | ScanMiss st5 => Some (0, count_failure st5)
      end
  end.

Definition FreePage (page : Z) (st : pmm) : option pmm :=
  if page =? 0 then Some st else
  if negb (page mod PAGE_SIZE =? 0) then Some st else
  let page_idx := page / PAGE_SIZE in
  if total_pages st <=? page_idx then Some st else
  free ← IsPageFree page_idx st;
  if (free : bool) then Some st else
  st1 ← MarkPageFree page_idx st;
  let st2 := count_free st1 in
  Some (if page_idx <? next_free_hint st2 then set_hint page_idx st2 else st2).

(** ** Ranges *)
Definition mask_from (start_offset : Z) : Z := shl64 ones64 start_offset.
Definition mask_to (end_offset : Z) : Z := Z.shiftr ones64 (63 - end_offset).

Fixpoint words_free (n : nat) (w : Z) (st : pmm) : option bool :=
  match n with
  | O => Some true
  | S n' =>
      word ← arr_get (bitmap st) w;
      if negb (word =? 0) then Some false else words_free n' (w + 1) st
  end.

Definition RangeIsFree (start_page page_count : Z) (st : pmm) : option bool :=
  if total_pages st <? start_page +! page_count then Some false else
  let start_bit := start_page in
  let end_bit := start_page +! page_count -! 1 in
  let start_word := start_bit / 64 in
  let end_word := end_bit / 64 in
  let start_offset := start_bit mod 64 in
  let end_offset := end_bit mod 64 in
  if start_word =? end_word then
    let mask := Z.land (mask_to end_offset) (mask_from start_offset) in
    word ← arr_get (bitmap st) start_word;
    Some (Z.land word mask =? 0)
  else
    first ← arr_get (bitmap st) start_word;
    if negb (Z.land first (mask_from start_offset) =? 0) then Some false else
    mid ← words_free (Z.to_nat (end_word - (start_word + 1))) (start_word + 1) st;
    if negb mid then Some false else
    last ← arr_get (bitmap st) end_word;
    Some (Z.land last (mask_to end_offset) =? 0).

(** [before = page_bitmap[w]; after = before | mask; used_pages += popcount ...]. *)
Definition word_set (w mask : Z) (st : pmm) : option pmm :=
  before ← arr_get (bitmap st) w;
  let after := Z.lor before mask in
  bm ← arr_set (bitmap st) w after;
  Some (set_words bm (used_pages st +! (popcount64 after -! popcount64 before)) st).

Fixpoint words_set (n : nat) (w : Z) (st : pmm) : option pmm :=
  match n with
  | O => Some st
  | S n' =>
      before ← arr_get (bitmap st) w;
      if negb (before =? ones64) then
        bm ← arr_set (bitmap st) w ones64;
        words_set n' (w + 1) (set_words bm (used_pages st +! (64 -! popcount64 before)) st)
      else words_set n' (w + 1) st
  end.

Definition RangeSetUsed (start_page page_count : Z) (st : pmm) : option pmm :=
  let start_bit := start_page in
  let end_bit := start_page +! page_count -! 1 in
  let start_word := start_bit / 64 in
  let end_word := end_bit / 64 in
  let start_offset := start_bit mod 64 in
  let end_offset := end_bit mod 64 in
  if start_word =? end_word then
    word_set start_word (Z.land (mask_to end_offset) (mask_from start_offset)) st
  else
    st1 ← word_set start_word (mask_from start_offset) st;
    st2 ← words_set (Z.to_nat (end_word - (start_word + 1))) (start_word + 1) st1;
    word_set end_word (mask_to end_offset) st2.

Definition word_clear (w mask : Z) (st : pmm) : option pmm :=
  before ← arr_get (bitmap st) w;
  let after := Z.land before (not64 mask) in
  bm ← arr_set (bitmap st) w after;
  Some (set_words bm (used_pages st -! (popcount64 before -! popcount64 after)) st).

Fixpoint words_clear (n : nat) (w : Z) (st : pmm) : option pmm :=
  match n with
  | O => Some st
  | S n' =>
      before ← arr_get (bitmap st) w;
      if negb (before =? 0) then
        bm ← arr_set (bitmap st) w 0;
        words_clear n' (w + 1) (set_words bm (used_pages st -! popcount64 before) st)
      else words_clear n' (w + 1) st
  end.

Definition RangeSetFree (start_page page_count : Z) (st : pmm) : option pmm :=
  let start_bit := start_page in
  let end_bit := start_page +! page_count -! 1 in
  let start_word := start_bit / 64 in
  let end_word := end_bit / 64 in
  let start_offset := start_bit mod 64 in
  let end_offset := end_bit mod 64 in
  if start_word =? end_word then
    word_clear start_word (Z.land (mask_to end_offset) (mask_from start_offset)) st
  else
    st1 ← word_clear start_word (mask_from start_offset) st;
    st2 ← words_clear (Z.to_nat (end_word - (start_word + 1))) (start_word + 1) st1;
    word_clear end_word (mask_to end_offset) st2.

(** ** Huge pages *)
Definition pages_per_huge : Z := HUGE_PAGE_SIZE / PAGE_SIZE.

(** [for (start = start_page; start + total_needed <= total_pages; start += 512)]:
    the fuel is the caller's; [None] as inner result means it ran out. *)
Fixpoint huge_scan (fuel : nat) (start total_needed : Z) (st : pmm) : option (option Z) :=
  match fuel with
  | O => None
  | S f =>
      if start +! total_needed <=? total_pages st then
        free ← RangeIsFree start total_needed st;
        if (free : bool) then Some (Some start)
        else huge_scan f (start +! pages_per_huge) total_needed st
      else Some None
  end.

(** Enough for every start at most [total_pages]; see [AllocHugePages_spec]. *)
Definition huge_fuel (st : pmm) : nat := Z.to_nat (total_pages st / pages_per_huge + 2).

Definition AllocHugePages (num_pages : Z) (st : pmm) : option (Z * pmm) :=
  let total_needed := num_pages *! pages_per_huge in
  let start_page := HUGE_PAGE_ALIGN_UP 0x100000 / PAGE_SIZE in
  hit ← huge_scan (huge_fuel st) start_page total_needed st;
  match hit with
  | Some start =>
      st1 ← RangeSetUsed start total_needed st;
      let st2 := set_hint (start +! total_needed) st1 in
      let st3 := if total_pages st2 <=? next_free_hint st2 then set_hint lowmem_pages st2 else st2 in
      Some (start *! PAGE_SIZE, count_huge st3)
  | None => Some (0, count_failure st)
  end.

Definition FreeHugePages (pages num_pages : Z) (st : pmm) : option pmm :=
  if (pages =? 0) || (num_pages =? 0) then Some st else
  if negb (pages mod HUGE_PAGE_SIZE =? 0) then Some st else
  let start_page := pages / PAGE_SIZE in
  let total_to_free := num_pages *! pages_per_huge in
  if total_pages st <? start_page +! total_to_free then Some st else
  st1 ← RangeSetFree start_page total_to_free st;
  Some (if start_page <? next_free_hint st1 then set_hint start_page st1 else st1).

(** ** Statistics *)
Definition GetFreeMemory (st : pmm) : Z := (total_pages st -! used_pages st) *! PAGE_SIZE.

Record MemoryStats := mk_stats {
  total_physical_bytes : Z;
  used_physical_bytes : Z;
  free_physical_bytes : Z;
  stat_allocation_count : Z;
  stat_free_count : Z;
  stat_allocation_failures : Z;
  stat_huge_pages_allocated : Z;
  fragmentation_score : Z;
  largest_free_block : Z
}.

(** The fragment loop's three counters. *)
Record frag := mk_frag { free_fragments : Z; current_fragment : Z; largest_fragment : Z }.

Definition frag_close (f : frag) : frag :=
  if 0 <? current_fragment f then
    mk_frag (free_fragments f +! 1) 0
      (if largest_fragment f <? current_fragment f then current_fragment f else largest_fragment f)
  else f.

Definition frag_step (free : bool) (f : frag) : frag :=
  if free then mk_frag (free_fragments f) (current_fragment f +! 1) (largest_fragment f)
  else frag_close f.

Fixpoint frag_loop (n : nat) (i : Z) (st : pmm) (f : frag) : option frag :=
  match n with
  | O => Some f
  | S n' =>
      free ← IsPageFree i st;
      frag_loop n' (i + 1) st (frag_step free f)
  end.

Definition GetDetailedMemoryStats (st : pmm) : option MemoryStats :=
  f0 ← frag_loop (Z.to_nat (total_pages st - lowmem_pages)) lowmem_pages st (mk_frag 0 0 0);
  let f := frag_close f0 in
  let total_free_pages := total_pages st -! used_pages st in
  let score :=
    if 0 <? total_free_pages then
      let s := (free_fragments f *! 100) / (total_free_pages / 10 + 1) in
      if 100 <? s then 100 else s
    else 0 in
  Some (mk_stats (total_pages st *! PAGE_SIZE) (used_pages st *! PAGE_SIZE)
          ((total_pages st -! used_pages st) *! PAGE_SIZE)
          (allocation_count st) (free_count st) (allocation_failures st)
          (huge_pages_allocated st) score (largest_fragment f *! PAGE_SIZE)).
