(* ===== verification/PMemInv.v ===== *)
(** The allocator's invariant, its abstraction to a set of used pages, and the
    effect of every primitive of [src/mm/PMem.c] on both. *)
From Stdlib Require Import ZArith Lia.
From stdpp Require Import base tactics list gmap sets numbers.
From S2P Require Import Prelude PMem.

(** Bit [p] of the bitmap: page [p] is in use. *)
Definition bm_bit (bm : list Z) (p : Z) : bool :=
  match arr_get bm (p / 64) with
  | Some w => Z.testbit w (p mod 64)
  | None => false
  end.
Definition page_used (st : pmm) (p : Z) : bool := bm_bit (bitmap st) p.

Definition bits_total (bm : list Z) : Z := foldr (fun w acc => popcount64 w + acc) 0 bm.

(** Well-formedness of the allocator state once [MemoryInit] has succeeded. *)
Record pmm_inv (st : pmm) : Prop := {
  inv_ptr : page_bitmap st <> 0;
  inv_total : 0 <= total_pages st <= MAX_PAGES;
  inv_words : bitmap_words st = (total_pages st + 63) / 64;
  inv_length : Z.of_nat (length (bitmap st)) = bitmap_words st;
  inv_range : Forall (fun w => 0 <= w < 2 ^ 64) (bitmap st);
  inv_used : used_pages st = bits_total (bitmap st);
  inv_tail : Forall (fun p => bm_bit (bitmap st) p = false)
               (seqZ (total_pages st) (64 * bitmap_words st - total_pages st));
  inv_hint : 0 <= next_free_hint st < 2 ^ 64
}.

(** The same as a test, for concrete states. *)
Definition pmm_check (st : pmm) : bool :=
  negb (page_bitmap st =? 0) && (0 <=? total_pages st) && (total_pages st <=? MAX_PAGES) &&
  (bitmap_words st =? (total_pages st + 63) / 64) &&
  (Z.of_nat (length (bitmap st)) =? bitmap_words st) &&
  forallb (fun w => (0 <=? w) && (w <? 2 ^ 64)) (bitmap st) &&
  (used_pages st =? bits_total (bitmap st)) &&
  forallb (fun p => negb (bm_bit (bitmap st) p))
    (seqZ (total_pages st) (64 * bitmap_words st - total_pages st)) &&
  (0 <=? next_free_hint st) && (next_free_hint st <? 2 ^ 64).

Lemma pmm_check_sound st : pmm_check st = true -> pmm_inv st.
Proof.
  unfold pmm_check. intros H. zbool.
  repeat match goal with H : forallb _ _ = true |- _ => rewrite forallb_forall in H end.
  constructor; try done; try lia.
  - apply list.Forall_forall. intros w Hw%list_elem_of_In.
    match goal with H : forall x, In x (bitmap st) -> _ |- _ => apply H in Hw end. zbool. lia.
  - apply list.Forall_forall. intros p Hp%list_elem_of_In.
    match goal with H : forall x, In x (seqZ _ _) -> _ |- _ => apply H in Hp end. by zbool.
Qed.

(** ** Bitmap facts *)
Lemma bm_bit_insert bm i v p :
  0 <= i < Z.of_nat (length bm) ->
  bm_bit (<[Z.to_nat i := v]> bm) p = if p / 64 =? i then Z.testbit v (p mod 64) else bm_bit bm p.
Proof.
  intros Hi. unfold bm_bit. destruct (Z.eqb_spec (p / 64) i) as [->|].
  - by rewrite arr_get_insert_eq.
  - by rewrite arr_get_insert_ne by lia.
Qed.

Lemma bm_bit_at bm i w b :
  arr_get bm i = Some w -> 0 <= b < 64 -> bm_bit bm (64 * i + b) = Z.testbit w b.
Proof.
  intros Hw Hb. unfold bm_bit. replace ((64 * i + b) / 64) with i by dlia.
  rewrite Hw. by replace ((64 * i + b) mod 64) with b by dlia.
Qed.

Lemma bm_bit_neg bm p : p < 0 -> bm_bit bm p = false.
Proof. intros. unfold bm_bit, arr_get. by rewrite (proj2 (Z.leb_gt 0 (p / 64))) by dlia. Qed.

Lemma bm_bit_high bm p : 64 * Z.of_nat (length bm) <= p -> bm_bit bm p = false.
Proof.
  intros. unfold bm_bit, arr_get. destruct (Z.leb_spec 0 (p / 64)); [|done].
  rewrite lookup_ge_None_2; [done|dlia].
Qed.

Lemma popcount64_range w : 0 <= popcount64 w <= 64.
Proof. apply (popcount_n_range 64). Qed.

Lemma bits_total_range bm : 0 <= bits_total bm <= 64 * Z.of_nat (length bm).
Proof.
  induction bm as [|w bm IH]; simpl; [lia|]. pose proof (popcount64_range w). lia.
Qed.

Lemma bits_total_insert bm i old v :
  bm !! i = Some old ->
  bits_total (<[i := v]> bm) = bits_total bm - popcount64 old + popcount64 v.
Proof.
  revert i. induction bm as [|w bm IH]; intros [|i] H; simplify_eq/=; [lia|].
  rewrite (IH _ H). lia.
Qed.

(** ** Consequences of the invariant *)
Section inv.
Context (st : pmm) (I : pmm_inv st).

Lemma inv_words_bound :
  64 * bitmap_words st <= total_pages st + 63 /\ total_pages st <= 64 * bitmap_words st.
Proof using I. rewrite (inv_words st I). pose proof (inv_total st I). dlia. Qed.

Lemma inv_used_range : 0 <= used_pages st <= MAX_PAGES + 63.
Proof using I.
  pose proof (bits_total_range (bitmap st)). pose proof inv_words_bound.
  rewrite (inv_used st I). pose proof (inv_length st I). pose proof (inv_total st I). lia.
Qed.

Lemma inv_get i :
  0 <= i < bitmap_words st -> exists w, arr_get (bitmap st) i = Some w /\ 0 <= w < 2 ^ 64.
Proof using I.
  intros Hi. destruct (arr_get_some (bitmap st) i) as [w Hw].
  { rewrite (inv_length st I). lia. }
  exists w. split; [done|]. pose proof (inv_range st I) as HF.
  rewrite list.Forall_forall in HF. apply HF. unfold arr_get in Hw.
  destruct (0 <=? i); [|done]. by eapply list_elem_of_lookup_2.
Qed.

Lemma inv_high p : total_pages st <= p -> page_used st p = false.
Proof using I.
  intros Hp. unfold page_used. destruct (decide (p < 64 * bitmap_words st)).
  - pose proof (inv_tail st I) as HF. rewrite list.Forall_forall in HF. apply HF.
    apply elem_of_seqZ. lia.
  - apply bm_bit_high. rewrite (inv_length st I). lia.
Qed.

Lemma page_word p w :
  0 <= p -> arr_get (bitmap st) (p / 64) = Some w -> page_used st p = Z.testbit w (p mod 64).
Proof using Type. intros Hp Hw. unfold page_used, bm_bit. by rewrite Hw. Qed.

(** Replacing one word by one that only uses existing pages keeps the invariant. *)
Lemma inv_update i old v :
  arr_get (bitmap st) i = Some old -> 0 <= v < 2 ^ 64 ->
  (forall b, 0 <= b < 64 -> total_pages st <= 64 * i + b -> Z.testbit v b = false) ->
  pmm_inv (set_words (<[Z.to_nat i := v]> (bitmap st))
             (used_pages st - popcount64 old + popcount64 v) st).
Proof using I.
  intros Hg Hv Hb. pose proof (arr_get_range _ _ _ Hg) as Hi.
  constructor; simpl; try apply I.
  - rewrite length_insert. apply I.
  - apply Forall_insert; [apply I|done].
  - unfold arr_get in Hg. rewrite (proj2 (Z.leb_le 0 i)) in Hg by lia.
    rewrite (bits_total_insert _ _ _ _ Hg), (inv_used st I). lia.
  - apply list.Forall_forall. intros p Hp%elem_of_seqZ. rewrite bm_bit_insert by lia.
    destruct (Z.eqb_spec (p / 64) i) as [<-|].
    + apply Hb; dlia.
    + apply (inv_high p). lia.
Qed.
End inv.

(** Only the bitmap and the used-page counter differ. *)
Definition words_only (st st' : pmm) : Prop := st' = set_words (bitmap st') (used_pages st') st.

Lemma words_only_refl st : words_only st st.
Proof. by destruct st. Qed.
Lemma words_only_trans a b c : words_only a b -> words_only b c -> words_only a c.
Proof. unfold words_only. intros Hb Hc. rewrite Hb in Hc. by destruct c. Qed.
Lemma words_only_total a b : words_only a b -> total_pages b = total_pages a.
Proof. intros ->. done. Qed.
Lemma words_only_words a b : words_only a b -> bitmap_words b = bitmap_words a.
Proof. intros ->. done. Qed.

(** ** The abstraction: the set of pages in use *)
Definition used_set (st : pmm) : gset Z :=
  list_to_set (filter (fun p => page_used st p = true) (seqZ 0 (total_pages st))).

Lemma elem_of_used_set st p :
  pmm_inv st -> p ∈ used_set st <-> page_used st p = true.
Proof.
  intros I. unfold used_set. rewrite elem_of_list_to_set, list_elem_of_filter, elem_of_seqZ.
  split; [by intros []|]. intros Hp. split; [done|].
  destruct (decide (p < 0)). { unfold page_used in Hp. by rewrite bm_bit_neg in Hp by lia. }
  destruct (decide (total_pages st <= p)). { by rewrite inv_high in Hp. } lia.
Qed.

Lemma popcount_n_filter bm k w n :
  arr_get bm k = Some w -> (n <= 64)%nat ->
  Z.of_nat (length (filter (fun p => bm_bit bm p = true) (seqZ (64 * k) (Z.of_nat n)))) =
  popcount_n n w.
Proof.
  intros Hw. induction n as [|n IH]; intros Hn; [done|].
  rewrite seqZ_S, list.filter_app, length_app, Nat2Z.inj_add, IH by lia. cbn [popcount_n].
  rewrite filter_cons, (bm_bit_at _ _ _ _ Hw) by lia. rewrite filter_nil.
  destruct (Z.testbit w (Z.of_nat n)); simpl; lia.
Qed.

Lemma bits_total_take bm k :
  (k <= length bm)%nat ->
  bits_total (take k bm) =
  Z.of_nat (length (filter (fun p => bm_bit bm p = true) (seqZ 0 (64 * Z.of_nat k)))).
Proof.
  induction k as [|k IH]; intros Hk; [done|].
  destruct (lookup_lt_is_Some_2 bm k) as [w Hw]; [lia|].
  rewrite (take_S_r _ _ _ Hw). unfold bits_total. rewrite foldr_snoc.
  assert (Hs : forall l x, foldr (fun w acc => popcount64 w + acc) x l = bits_total l + x).
  { induction l as [|a l IHl]; intros x; simpl; [lia|]. rewrite IHl. lia. }
  rewrite Hs, IH by lia.
  replace (64 * Z.of_nat (S k)) with (64 * Z.of_nat k + Z.of_nat 64) by lia.
  rewrite seqZ_app by lia. rewrite list.filter_app, length_app, Nat2Z.inj_add, Z.add_0_l.
  rewrite (popcount_n_filter bm (Z.of_nat k) w 64); [unfold popcount64; lia| |lia].
  unfold arr_get. rewrite (proj2 (Z.leb_le 0 _)) by lia. by rewrite Nat2Z.id.
Qed.

(** The counter [used_pages] is the number of pages in use. *)
Lemma used_set_size st : pmm_inv st -> Z.of_nat (size (used_set st)) = used_pages st.
Proof.
  intros I. unfold used_set.
  rewrite size_list_to_set by (apply list.NoDup_filter, NoDup_seqZ).
  pose proof (inv_words_bound st I). pose proof (inv_total st I).
  pose proof (bits_total_take (bitmap st) (length (bitmap st))) as HT.
  rewrite take_ge, (inv_length st I) in HT by lia. rewrite (inv_used st I), HT by lia.
  replace (64 * bitmap_words st)
    with (total_pages st + (64 * bitmap_words st - total_pages st)) by lia.
  rewrite seqZ_app, list.filter_app, length_app by lia. rewrite Z.add_0_l.
  assert (HN : filter (fun p => bm_bit (bitmap st) p = true)
            (seqZ (total_pages st) (64 * bitmap_words st - total_pages st)) = []).
  { apply filter_none. eapply list.Forall_impl; [apply (inv_tail st I)|]. intros p Hp. by rewrite Hp. }
  rewrite HN. simpl. rewrite Nat.add_0_r. done.
Qed.
