(* ===== verification/PMemOps.v ===== *)
(** Effect of the bitmap primitives of [src/mm/PMem.c] under the invariant: each
    runs without a fault, keeps the invariant and changes exactly the pages it
    names. *)
From Stdlib Require Import ZArith Lia.
From stdpp Require Import base tactics list gmap sets numbers.
From S2P Require Import Prelude PMem PMemInv.

(** [st'] is a well-formed state that differs from [st] only in its bitmap (and
    its counter), where page [q] has become [f q (page_used st q)]. *)
Definition updates (st st' : pmm) (f : Z -> bool -> bool) : Prop :=
  pmm_inv st' /\ words_only st st' /\ forall q, page_used st' q = f q (page_used st q).

Lemma updates_total st st' f : updates st st' f -> total_pages st' = total_pages st.
Proof. intros (_ & H & _). by apply words_only_total. Qed.
Lemma updates_words st st' f : updates st st' f -> bitmap_words st' = bitmap_words st.
Proof. intros (_ & H & _). by apply words_only_words. Qed.

Lemma updates_trans a b c f g :
  updates a b f -> updates b c g -> updates a c (fun q u => g q (f q u)).
Proof.
  intros (_ & W1 & P1) (I2 & W2 & P2). split_and!; [done|by eapply words_only_trans|].
  intros q. by rewrite P2, P1.
Qed.

Lemma updates_ext a b f g :
  updates a b f -> (forall q u, u = page_used a q -> f q u = g q u) -> updates a b g.
Proof. intros (I & W & P) H. split_and!; [done..|]. intros q. rewrite P. by apply H. Qed.

Lemma updates_refl st f :
  pmm_inv st -> (forall q, f q (page_used st q) = page_used st q) -> updates st st f.
Proof. intros I H. split_and!; [done|apply words_only_refl|]. intros q. by rewrite H. Qed.

Create HintDb pmem discriminated.
#[export] Hint Resolve updates_refl inv_update words_only_refl : pmem.

(** The allocator's constants as numbers. *)
Ltac pmem_bounds :=
  change MAX_PAGES with 33554432 in *; change MAX_SUPPORTED_MEMORY with 137438953472 in *;
  change pages_per_huge with 512 in *; change HUGE_PAGE_SIZE with 2097152 in *;
  change lowmem_pages with 256 in *; change PAGE_SIZE with 4096 in *.

(** One bit written in one word of the bitmap. *)
Lemma word_update st i old v :
  pmm_inv st -> arr_get (bitmap st) i = Some old -> 0 <= v < 2 ^ 64 ->
  (forall b, 0 <= b < 64 -> total_pages st <= 64 * i + b -> Z.testbit v b = false) ->
  updates st (set_words (<[Z.to_nat i := v]> (bitmap st))
                (used_pages st - popcount64 old + popcount64 v) st)
    (fun q u => if q / 64 =? i then Z.testbit v (q mod 64) else u).
Proof.
  intros I Hg Hv Hb. split_and!; [by apply inv_update|done|].
  intros q. unfold page_used. simpl. rewrite bm_bit_insert; [done|].
  by eapply arr_get_range.
Qed.

(** The bits of a word at and above [total_pages] are clear. *)
Lemma word_tail st i w b :
  pmm_inv st -> arr_get (bitmap st) i = Some w -> 0 <= b < 64 -> total_pages st <= 64 * i + b ->
  Z.testbit w b = false.
Proof.
  intros I Hw Hb Ht. rewrite <-(bm_bit_at _ _ _ _ Hw Hb). by apply inv_high.
Qed.

(** A word's set bits are counted in [used_pages]. *)
Lemma word_pop_le st w v :
  pmm_inv st -> arr_get (bitmap st) w = Some v -> popcount64 v <= used_pages st.
Proof.
  intros I Hv. rewrite (inv_used st I). unfold arr_get in Hv.
  destruct (0 <=? w); [|done]. pose proof (bits_total_insert _ _ _ 0 Hv).
  pose proof (bits_total_range (<[Z.to_nat w:=0]> (bitmap st))).
  assert (popcount64 0 = 0) by reflexivity. lia.
Qed.

(** Splitting the first word off a run of whole words. *)
Lemma words_cut n w q :
  (64 * w <=? q) && (q <? 64 * (w + Z.of_nat (S n))) =
  (q / 64 =? w) || ((64 * (w + 1) <=? q) && (q <? 64 * (w + 1 + Z.of_nat n))).
Proof.
  apply eq_bool_prop_intro.
  rewrite !orb_True, !andb_True, !Is_true_true, !Z.leb_le, !Z.ltb_lt, Z.eqb_eq. dlia.
Qed.

Section page.
Context (st : pmm) (I : pmm_inv st) (p : Z) (Hp : 0 <= p < total_pages st).

Lemma page_in_words : 0 <= p / 64 < bitmap_words st.
Proof using I Hp. pose proof (inv_words_bound st I). dlia. Qed.

(** The common guards of the three page primitives pass for an existing page. *)
Lemma page_guards :
  (total_pages st <=? p) || (page_bitmap st =? 0) = false /\ (bitmap_words st <=? p / 64) = false.
Proof using I Hp.
  pose proof (inv_ptr st I). pose proof page_in_words. split; [|by apply Z.leb_gt; lia].
  rewrite orb_false_iff. split; [apply Z.leb_gt; lia|by apply Z.eqb_neq].
Qed.

Lemma page_split q : 0 <= q -> (q / 64 =? p / 64) = true -> (q mod 64 =? p mod 64) = (q =? p).
Proof using Hp. intros Hq H%Z.eqb_eq. destruct (Z.eqb_spec q p) as [->|]; [apply Z.eqb_refl|].
  apply Z.eqb_neq. dlia. Qed.

Lemma IsPageFree_ok : IsPageFree p st = Some (negb (page_used st p)).
Proof using I Hp.
  unfold IsPageFree. destruct page_guards as [-> ->].
  destruct (inv_get st I (p / 64) page_in_words) as (w & Hw & Hr). rewrite Hw. simpl.
  rewrite shl64_bit, land_bit_eqb by dlia. by rewrite (page_word st p w) by (done || lia).
Qed.

Lemma MarkPageUsed_ok :
  exists st', MarkPageUsed p st = Some st' /\ updates st st' (fun q u => (q =? p) || u).
Proof using I Hp.
  unfold MarkPageUsed. destruct page_guards as [-> ->].
  destruct (inv_get st I (p / 64) page_in_words) as (w & Hw & Hr). rewrite Hw. simpl.
  pose proof (page_word st p w ltac:(lia) Hw) as Hu.
  rewrite shl64_bit, land_bit_eqb by dlia. rewrite <-Hu.
  destruct (page_used st p) eqn:E; simpl.
  { exists st. split; [done|]. apply updates_refl; [done|]. intros q.
    destruct (Z.eqb_spec q p) as [->|]; [by rewrite E|done]. }
  rewrite arr_set_some by (by eapply arr_get_range). simpl. eexists. split; [reflexivity|].
  pose proof (inv_used_range st I).
  assert (Hb : forall i, 0 <= i -> Z.testbit (Z.lor w (Z.shiftl 1 (p mod 64))) i =
            Z.testbit w i || (i =? p mod 64)).
  { intros i Hi. rewrite Z.lor_spec, testbit_shl1 by dlia. done. }
  assert (HP : popcount64 (Z.lor w (Z.shiftl 1 (p mod 64))) = popcount64 w + 1).
  { apply (popcount_n_set 64 _ _ (p mod 64)).
    - dlia.
    - by rewrite <-Hu.
    - rewrite Hb by dlia. by rewrite Z.eqb_refl, orb_true_r.
    - intros i Hi Hne. rewrite Hb by done. rewrite (proj2 (Z.eqb_neq _ _)) by done.
      by rewrite orb_false_r. }
  replace (used_pages st +! 1) with (used_pages st - popcount64 w +
    popcount64 (Z.lor w (Z.shiftl 1 (p mod 64)))) by (pmem_bounds; rewrite u64_small; lia).
  eapply updates_ext.
  { apply word_update; [done|done| |].
    - apply lor_bound; [lia|done|]. apply shl1_bound. dlia.
    - intros b Hb1 Hb2. rewrite Hb by lia. rewrite (word_tail st (p / 64)) by done.
      apply Z.eqb_neq. dlia. }
  intros q u ->. simpl. destruct (Z.eqb_spec (q / 64) (p / 64)) as [Hq|Hq].
  - assert (0 <= q) by dlia. rewrite Hb by dlia. rewrite page_split by (done || by apply Z.eqb_eq).
    rewrite orb_comm. f_equal. symmetry. apply page_word; [done|by rewrite Hq].
  - destruct (Z.eqb_spec q p) as [->|]; [done|done].
Qed.

Lemma MarkPageFree_ok :
  exists st', MarkPageFree p st = Some st' /\ updates st st' (fun q u => negb (q =? p) && u).
Proof using I Hp.
  unfold MarkPageFree. destruct page_guards as [-> ->].
  destruct (inv_get st I (p / 64) page_in_words) as (w & Hw & Hr). rewrite Hw. simpl.
  pose proof (page_word st p w ltac:(lia) Hw) as Hu.
  rewrite shl64_bit, land_bit_eqb by dlia. rewrite <-Hu.
  destruct (page_used st p) eqn:E; simpl.
  2: { exists st. split; [done|]. apply updates_refl; [done|]. intros q.
    destruct (Z.eqb_spec q p) as [->|]; [by rewrite E|done]. }
  rewrite arr_set_some by (by eapply arr_get_range). simpl. eexists. split; [reflexivity|].
  pose proof (inv_used_range st I).
  assert (Hm : 0 <= Z.shiftl 1 (p mod 64) < 2 ^ 64) by (apply shl1_bound; dlia).
  assert (Hb : forall i, 0 <= i -> Z.testbit (Z.land w (not64 (Z.shiftl 1 (p mod 64)))) i =
            Z.testbit w i && negb (i =? p mod 64)).
  { intros i Hi. rewrite Z.land_spec, testbit_not64, testbit_shl1 by (done || dlia).
    destruct (Z.ltb_spec i 64); [done|]. by rewrite (testbit_ge w i 64). }
  assert (HP : popcount64 w = popcount64 (Z.land w (not64 (Z.shiftl 1 (p mod 64)))) + 1).
  { unfold popcount64. apply (popcount_n_set 64 _ _ (p mod 64)).
    - dlia.
    - rewrite Hb by dlia. by rewrite Z.eqb_refl, andb_false_r.
    - by rewrite <-Hu.
    - intros i Hi Hne. rewrite Hb by done. rewrite (proj2 (Z.eqb_neq _ _)) by done.
      by rewrite andb_true_r. }
  pose proof (word_pop_le st (p / 64) w I Hw).
  pose proof (popcount64_range (Z.land w (not64 (Z.shiftl 1 (p mod 64))))).
  replace (used_pages st -! 1) with (used_pages st - popcount64 w +
    popcount64 (Z.land w (not64 (Z.shiftl 1 (p mod 64))))) by (pmem_bounds; rewrite u64_small; lia).
  eapply updates_ext.
  { apply word_update; [done|done| |].
    - by apply land_bound.
    - intros b Hb1 Hb2. rewrite Hb by lia. by rewrite (word_tail st (p / 64)). }
  intros q u ->. simpl. destruct (Z.eqb_spec (q / 64) (p / 64)) as [Hq|Hq].
  - assert (0 <= q) by dlia. rewrite Hb by dlia. rewrite page_split by (done || by apply Z.eqb_eq).
    rewrite andb_comm. f_equal. symmetry. apply page_word; [done|by rewrite Hq].
  - destruct (Z.eqb_spec q p) as [->|]; [done|done].
Qed.
End page.

(** ** Range primitives *)
Lemma testbit_mask_from o i :
  0 <= o < 64 -> 0 <= i -> Z.testbit (mask_from o) i = (o <=? i) && (i <? 64).
Proof.
  intros Ho Hi. unfold mask_from, shl64. destruct (Z.ltb_spec i 64).
  - rewrite testbit_u64, Z.shiftl_spec by lia. rewrite andb_true_r.
    destruct (Z.leb_spec o i).
    + rewrite testbit_ones64 by lia. by apply Z.ltb_lt; lia.
    + by rewrite Z.testbit_neg_r by lia.
  - rewrite testbit_u64_ge by lia. by rewrite andb_false_r.
Qed.

Lemma testbit_mask_to e i : 0 <= e < 64 -> 0 <= i -> Z.testbit (mask_to e) i = (i <=? e).
Proof.
  intros He Hi. unfold mask_to. rewrite Z.shiftr_spec, testbit_ones64 by lia.
  destruct (Z.leb_spec i e); [by apply Z.ltb_lt; lia|by apply Z.ltb_ge; lia].
Qed.

Lemma mask_from_range o : 0 <= mask_from o < 2 ^ 64.
Proof. apply u64_range. Qed.
Lemma mask_to_range e : 0 <= e < 64 -> 0 <= mask_to e < 2 ^ 64.
Proof.
  intros. assert (0 <= mask_to e) by (apply Z.shiftr_nonneg; done). split; [done|].
  apply bits_bound; [lia|done|]. intros i Hi. rewrite testbit_mask_to by lia. by apply Z.leb_gt; lia.
Qed.
Lemma mask_mid_range a b : 0 <= b < 64 -> 0 <= Z.land (mask_to b) (mask_from a) < 2 ^ 64.
Proof. intros. apply land_bound; [lia|]. by apply mask_to_range. Qed.

(** A word has no bit in common with a mask exactly when the pages it names are free. *)
Lemma land_mask_eqb w m :
  0 <= m < 2 ^ 64 ->
  (Z.land w m =? 0) = true <-> (forall b, 0 <= b < 64 -> Z.testbit m b = true -> Z.testbit w b = false).
Proof.
  intros Hm. rewrite Z.eqb_eq. split.
  - intros H b Hb Hmb. apply (f_equal (fun z => Z.testbit z b)) in H.
    rewrite Z.land_spec, Hmb, andb_true_r, Z.bits_0 in H. done.
  - intros H. apply bits_ext. intros i Hi. rewrite Z.land_spec, Z.bits_0.
    destruct (decide (i < 64)); [|by rewrite (testbit_ge m i 64), andb_false_r by lia].
    destruct (Z.testbit m i) eqn:E; [|by rewrite andb_false_r]. by rewrite H.
Qed.

Section words.
Context (st : pmm) (I : pmm_inv st).

Lemma word_set_ok w mask :
  0 <= w < bitmap_words st -> 0 <= mask < 2 ^ 64 ->
  (forall b, 0 <= b < 64 -> total_pages st <= 64 * w + b -> Z.testbit mask b = false) ->
  exists st', word_set w mask st = Some st' /\
    updates st st' (fun q u => u || ((q / 64 =? w) && Z.testbit mask (q mod 64))).
Proof using I.
  intros Hw Hm Hb. destruct (inv_get st I w Hw) as (v & Hv & Hr).
  unfold word_set. rewrite Hv. simpl. rewrite arr_set_some by (by eapply arr_get_range). simpl.
  eexists. split; [reflexivity|].
  assert (popcount64 v <= popcount64 (Z.lor v mask)).
  { apply popcount_n_mono. intros i Hi Ht. by rewrite Z.lor_spec, Ht. }
  pose proof (popcount64_range v). pose proof (popcount64_range (Z.lor v mask)).
  pose proof (inv_used_range st I). pmem_bounds.
  rewrite (u64_small (popcount64 _ - popcount64 _)) by lia. rewrite u64_small by lia.
  rewrite Z.add_sub_assoc, Z.add_sub_swap.
  eapply updates_ext.
  { apply word_update; [done|done|by apply lor_bound|].
    intros b Hb1 Hb2. rewrite Z.lor_spec, Hb by done. by rewrite (word_tail st w). }
  intros q u ->. simpl. destruct (Z.eqb_spec (q / 64) w) as [Hq|Hq]; simpl;
    [|by rewrite orb_false_r].
  rewrite Z.lor_spec. rewrite <-(page_word st q v); [done|dlia|by rewrite Hq].
Qed.

Lemma word_clear_ok w mask :
  0 <= w < bitmap_words st -> 0 <= mask < 2 ^ 64 ->
  exists st', word_clear w mask st = Some st' /\
    updates st st' (fun q u => u && negb ((q / 64 =? w) && Z.testbit mask (q mod 64))).
Proof using I.
  intros Hw Hm. destruct (inv_get st I w Hw) as (v & Hv & Hr).
  unfold word_clear. rewrite Hv. simpl. rewrite arr_set_some by (by eapply arr_get_range). simpl.
  eexists. split; [reflexivity|].
  assert (popcount64 (Z.land v (not64 mask)) <= popcount64 v).
  { apply popcount_n_mono. intros i Hi Ht. rewrite Z.land_spec in Ht. by apply andb_true_iff in Ht as []. }
  pose proof (word_pop_le st w v I Hv).
  pose proof (popcount64_range (Z.land v (not64 mask))). pose proof (inv_used_range st I).
  pmem_bounds.
  rewrite (u64_small (popcount64 _ - popcount64 _)) by (pose proof (popcount64_range v); lia).
  rewrite u64_small by lia.
  rewrite Z.sub_sub_distr.
  eapply updates_ext.
  { apply word_update; [done|done|by apply land_bound|].
    intros b Hb1 Hb2. rewrite Z.land_spec. by rewrite (word_tail st w). }
  intros q u ->. simpl. destruct (Z.eqb_spec (q / 64) w) as [Hq|Hq]; simpl;
    [|by rewrite andb_true_r].
  rewrite Z.land_spec, testbit_not64 by (done || dlia).
  rewrite (proj2 (Z.ltb_lt _ _)) by dlia.
  rewrite <-(page_word st q v); [done|dlia|by rewrite Hq].
Qed.

Lemma words_free_ok n w :
  0 <= w -> w + Z.of_nat n <= bitmap_words st ->
  exists b, words_free n w st = Some b /\
    (b = true <-> forall q, 64 * w <= q < 64 * (w + Z.of_nat n) -> page_used st q = false).
Proof using I.
  revert w. induction n as [|n IH]; intros w Hw Hn; cbn [words_free].
  { exists true. split; [done|]. split; [intros _ q Hq; lia|done]. }
  destruct (inv_get st I w) as (v & Hv & Hr); [lia|]. rewrite Hv. simpl.
  destruct (Z.eqb_spec v 0) as [->|Hne]; simpl.
  - destruct (IH (w + 1)) as (b & Hb & HP); [lia|lia|]. exists b. split; [done|].
    rewrite HP. split; intros H q Hq; [|apply H; lia].
    destruct (decide (64 * (w + 1) <= q)); [apply H; lia|].
    rewrite (page_word st q 0); [apply Z.bits_0|lia|].
    by replace (q / 64) with w by dlia.
  - exists false. split; [done|]. split; [done|]. intros H. exfalso. apply Hne.
    apply bits_ext. intros i Hi. rewrite Z.bits_0.
    destruct (decide (i < 64)); [|apply (testbit_ge v i 64); lia].
    rewrite <-(bm_bit_at _ _ _ i Hv) by lia. apply H. lia.
Qed.
End words.

Lemma words_set_ok n w st :
  pmm_inv st -> 0 <= w -> 64 * (w + Z.of_nat n) <= total_pages st ->
  exists st', words_set n w st = Some st' /\
    updates st st' (fun q u => u || ((64 * w <=? q) && (q <? 64 * (w + Z.of_nat n)))).
Proof.
  revert w st. induction n as [|n IH]; intros w st I Hw Hn; cbn [words_set].
  { exists st. split; [done|]. apply updates_refl; [done|]. intros q.
    destruct (Z.leb_spec (64 * w) q); simpl; [|by rewrite orb_false_r].
    rewrite (proj2 (Z.ltb_ge _ _)) by lia. by rewrite orb_false_r. }
  destruct (inv_get st I w) as (v & Hv & Hr); [pose proof (inv_words_bound st I); lia|].
  rewrite Hv. simpl.
  assert (Hfull : forall q u, (q / 64 =? w) = true -> Z.testbit ones64 (q mod 64) || u = true).
  { intros q u Hq. rewrite testbit_ones64 by dlia. rewrite (proj2 (Z.ltb_lt _ _)) by dlia. done. }
  destruct (Z.eqb_spec v ones64) as [->|Hne]; simpl.
  - destruct (IH (w + 1) st I) as (st' & Hst & HU); [lia|lia|]. exists st'. split; [done|].
    eapply updates_ext; [exact HU|]. intros q u ->. simpl. rewrite words_cut.
    destruct (q / 64 =? w) eqn:E; [|done]. simpl. rewrite orb_true_r.
    apply Z.eqb_eq in E. rewrite (page_word st q ones64); [|dlia|by rewrite E].
    apply Hfull. by apply Z.eqb_eq.
  - rewrite arr_set_some by (by eapply arr_get_range). simpl.
    pose proof (popcount64_range v). pose proof (inv_used_range st I). pmem_bounds.
    rewrite (u64_small (64 - _)) by lia. rewrite u64_small by lia.
    assert (HU1 : updates st (set_words (<[Z.to_nat w := ones64]> (bitmap st))
                     (used_pages st + (64 - popcount64 v)) st)
                    (fun q u => if q / 64 =? w then Z.testbit ones64 (q mod 64) else u)).
    { replace (used_pages st + (64 - popcount64 v))
        with (used_pages st - popcount64 v + popcount64 ones64)
        by (change (popcount64 ones64) with 64; lia).
      apply word_update; [done|done|done|]. intros b Hb Ht. lia. }
    edestruct (IH (w + 1)) as (st' & Hst & HU2); [apply HU1|lia|simpl; lia|].
    exists st'. split; [exact Hst|]. eapply updates_ext; [eapply updates_trans; [exact HU1|exact HU2]|].
    intros q u _. simpl. rewrite words_cut. destruct (q / 64 =? w) eqn:E; simpl; [|done].
    rewrite (Hfull q _ E). by rewrite orb_true_r.
Qed.

Lemma words_clear_ok n w st :
  pmm_inv st -> 0 <= w -> w + Z.of_nat n <= bitmap_words st ->
  exists st', words_clear n w st = Some st' /\
    updates st st' (fun q u => u && negb ((64 * w <=? q) && (q <? 64 * (w + Z.of_nat n)))).
Proof.
  revert w st. induction n as [|n IH]; intros w st I Hw Hn; cbn [words_clear].
  { exists st. split; [done|]. apply updates_refl; [done|]. intros q.
    destruct (Z.leb_spec (64 * w) q); simpl; [|by rewrite andb_true_r].
    rewrite (proj2 (Z.ltb_ge _ _)) by lia. by rewrite andb_true_r. }
  destruct (inv_get st I w) as (v & Hv & Hr); [lia|]. rewrite Hv. simpl.
  destruct (Z.eqb_spec v 0) as [->|Hne]; simpl.
  - destruct (IH (w + 1) st I) as (st' & Hst & HU); [lia|lia|]. exists st'. split; [done|].
    eapply updates_ext; [exact HU|]. intros q u ->. simpl. rewrite words_cut.
    destruct (q / 64 =? w) eqn:E; [|done]. simpl. rewrite andb_false_r.
    apply Z.eqb_eq in E. rewrite (page_word st q 0); [by rewrite Z.bits_0|dlia|by rewrite E].
  - rewrite arr_set_some by (by eapply arr_get_range). simpl.
    pose proof (word_pop_le st w v I Hv).
    pose proof (popcount64_range v). pose proof (inv_used_range st I). pmem_bounds.
    rewrite u64_small by lia.
    assert (HU1 : updates st (set_words (<[Z.to_nat w := 0]> (bitmap st))
                     (used_pages st - popcount64 v) st)
                    (fun q u => if q / 64 =? w then Z.testbit 0 (q mod 64) else u)).
    { replace (used_pages st - popcount64 v)
        with (used_pages st - popcount64 v + popcount64 0)
        by (change (popcount64 0) with 0; lia).
      apply word_update; [done|done|done|]. intros b Hb Ht. apply Z.bits_0. }
    edestruct (IH (w + 1)) as (st' & Hst & HU2); [apply HU1|lia|simpl; lia|].
    exists st'. split; [exact Hst|]. eapply updates_ext; [eapply updates_trans; [exact HU1|exact HU2]|].
    intros q u _. simpl. rewrite words_cut. destruct (q / 64 =? w) eqn:E; simpl; [|done].
    rewrite Z.bits_0. by rewrite andb_false_r.
Qed.

(** A word shares no bit with a mask exactly when the masked pages are free. *)
Lemma mask_free st x w m :
  arr_get (bitmap st) x = Some w -> 0 <= m < 2 ^ 64 ->
  (Z.land w m =? 0) = true <->
  (forall q, (q / 64 =? x) && Z.testbit m (q mod 64) = true -> page_used st q = false).
Proof.
  intros Hx Hm. rewrite land_mask_eqb by done. pose proof (arr_get_range _ _ _ Hx). split.
  - intros H0 q Hq. zbool. rewrite (page_word st q w); [|dlia|congruence]. apply H0; [dlia|done].
  - intros Hall b Hb Hmb. rewrite <-(bm_bit_at _ _ _ b Hx) by done. apply Hall.
    replace ((64 * x + b) / 64) with x by dlia.
    replace ((64 * x + b) mod 64) with b by dlia. by rewrite Z.eqb_refl, Hmb.
Qed.

(** ** Whole ranges *)
Definition in_range (s c q : Z) : bool := (s <=? q) && (q <? s + c).

Section range.
Context (st : pmm) (I : pmm_inv st) (s c : Z) (Hs : 0 <= s) (Hc : 0 < c)
  (Hsc : s + c <= total_pages st).

Lemma range_words :
  0 <= s / 64 <= (s + c - 1) / 64 /\ (s + c - 1) / 64 < bitmap_words st /\
  64 * ((s + c - 1) / 64) < total_pages st.
Proof using I Hs Hc Hsc. pose proof (inv_words_bound st I). split_and!; dlia. Qed.

Lemma range_end : s +! c -! 1 = s + c - 1.
Proof using I Hs Hc Hsc. pose proof (inv_total st I). pmem_bounds. wsimp. lia. Qed.

(** The pages of the range, word by word. *)
Lemma in_range_word q :
  s / 64 = (s + c - 1) / 64 ->
  in_range s c q = (q / 64 =? s / 64) &&
    Z.testbit (Z.land (mask_to ((s + c - 1) mod 64)) (mask_from (s mod 64))) (q mod 64).
Proof using Hs Hc.
  intros He. rewrite Z.land_spec, testbit_mask_to, testbit_mask_from by dlia.
  unfold in_range. apply eq_bool_prop_intro.
  rewrite !andb_True, !Is_true_true, !Z.leb_le, !Z.ltb_lt, Z.eqb_eq. dlia.
Qed.

Lemma in_range_words q :
  s / 64 <> (s + c - 1) / 64 ->
  let sw := s / 64 in let ew := (s + c - 1) / 64 in
  in_range s c q =
    ((q / 64 =? sw) && Z.testbit (mask_from (s mod 64)) (q mod 64)) ||
    ((64 * (sw + 1) <=? q) && (q <? 64 * (sw + 1 + Z.of_nat (Z.to_nat (ew - (sw + 1)))))) ||
    ((q / 64 =? ew) && Z.testbit (mask_to ((s + c - 1) mod 64)) (q mod 64)).
Proof using Hs Hc.
  intros He sw ew. subst sw ew. rewrite testbit_mask_to, testbit_mask_from by dlia.
  unfold in_range. apply eq_bool_prop_intro.
  rewrite !orb_True, !andb_True, !Is_true_true, !Z.leb_le, !Z.ltb_lt, !Z.eqb_eq. dlia.
Qed.

Lemma RangeSetUsed_ok :
  exists st', RangeSetUsed s c st = Some st' /\ updates st st' (fun q u => u || in_range s c q).
Proof using I Hs Hc Hsc.
  unfold RangeSetUsed. rewrite range_end. destruct range_words as (H1 & H2 & H3).
  destruct (Z.eqb_spec (s / 64) ((s + c - 1) / 64)) as [He|He].
  - destruct (word_set_ok st I (s / 64) (Z.land (mask_to ((s + c - 1) mod 64)) (mask_from (s mod 64))))
      as (st' & Hst & HU); [lia|apply mask_mid_range; dlia| |].
    { intros b Hb Ht. rewrite Z.land_spec, testbit_mask_to, testbit_mask_from by dlia.
      rewrite (proj2 (Z.leb_gt _ _)) by dlia. done. }
    exists st'. split; [done|]. eapply updates_ext; [exact HU|]. intros q u _. simpl.
    by rewrite in_range_word.
  - destruct (word_set_ok st I (s / 64) (mask_from (s mod 64))) as (st1 & Hst1 & HU1);
      [lia|apply mask_from_range|intros b Hb Ht; dlia|]. rewrite Hst1. simpl.
    destruct (words_set_ok (Z.to_nat ((s + c - 1) / 64 - (s / 64 + 1))) (s / 64 + 1) st1)
      as (st2 & Hst2 & HU2); [apply HU1|lia|rewrite (updates_total _ _ _ HU1); lia|].
    rewrite Hst2. simpl.
    destruct (word_set_ok st2 (proj1 HU2) ((s + c - 1) / 64) (mask_to ((s + c - 1) mod 64)))
      as (st3 & Hst3 & HU3).
    { rewrite (updates_words _ _ _ HU2), (updates_words _ _ _ HU1). lia. }
    { apply mask_to_range. dlia. }
    { intros b Hb Ht. rewrite (updates_total _ _ _ HU2), (updates_total _ _ _ HU1) in Ht.
      rewrite testbit_mask_to by dlia. apply Z.leb_gt. dlia. }
    exists st3. split; [done|].
    eapply updates_ext; [eapply updates_trans; [eapply updates_trans; [exact HU1|exact HU2]|exact HU3]|].
    intros q u _. simpl. rewrite (in_range_words q He). by rewrite !orb_assoc.
Qed.

Lemma RangeSetFree_ok :
  exists st', RangeSetFree s c st = Some st' /\
    updates st st' (fun q u => u && negb (in_range s c q)).
Proof using I Hs Hc Hsc.
  unfold RangeSetFree. rewrite range_end. destruct range_words as (H1 & H2 & H3).
  destruct (Z.eqb_spec (s / 64) ((s + c - 1) / 64)) as [He|He].
  - destruct (word_clear_ok st I (s / 64) (Z.land (mask_to ((s + c - 1) mod 64)) (mask_from (s mod 64))))
      as (st' & Hst & HU); [lia|apply mask_mid_range; dlia|].
    exists st'. split; [done|]. eapply updates_ext; [exact HU|]. intros q u _. simpl.
    by rewrite in_range_word.
  - destruct (word_clear_ok st I (s / 64) (mask_from (s mod 64))) as (st1 & Hst1 & HU1);
      [lia|apply mask_from_range|]. rewrite Hst1. simpl.
    destruct (words_clear_ok (Z.to_nat ((s + c - 1) / 64 - (s / 64 + 1))) (s / 64 + 1) st1)
      as (st2 & Hst2 & HU2); [apply HU1|lia|rewrite (updates_words _ _ _ HU1); lia|].
    rewrite Hst2. simpl.
    destruct (word_clear_ok st2 (proj1 HU2) ((s + c - 1) / 64) (mask_to ((s + c - 1) mod 64)))
      as (st3 & Hst3 & HU3).
    { rewrite (updates_words _ _ _ HU2), (updates_words _ _ _ HU1). lia. }
    { apply mask_to_range. dlia. }
    exists st3. split; [done|].
    eapply updates_ext; [eapply updates_trans; [eapply updates_trans; [exact HU1|exact HU2]|exact HU3]|].
    intros q u _. simpl. rewrite (in_range_words q He). rewrite !negb_orb. by rewrite !andb_assoc.
Qed.

Lemma RangeIsFree_ok :
  exists b, RangeIsFree s c st = Some b /\
    (b = true <-> forall q, in_range s c q = true -> page_used st q = false).
Proof using I Hs Hc Hsc.
  pose proof (inv_total st I) as HT. unfold RangeIsFree. rewrite range_end.
  rewrite (proj2 (Z.ltb_ge _ _)) by (pmem_bounds; wsimp; lia).
  destruct range_words as (H1 & H2 & H3).
  destruct (Z.eqb_spec (s / 64) ((s + c - 1) / 64)) as [He|He].
  - destruct (inv_get st I (s / 64)) as (v & Hv & Hr); [lia|]. rewrite Hv. simpl.
    eexists. split; [done|]. rewrite (mask_free st (s / 64)) by (done || apply mask_mid_range; dlia).
    split; intros H q Hq; apply H; [by rewrite <-in_range_word|by rewrite in_range_word].
  - pose proof (fun q => in_range_words q He) as Hin. cbv zeta in Hin.
    set (sw := s / 64) in *. set (ew := (s + c - 1) / 64) in *.
    destruct (inv_get st I sw) as (v & Hv & Hr); [lia|]. rewrite Hv. simpl.
    destruct (inv_get st I ew) as (v2 & Hv2 & Hr2); [lia|].
    pose proof (mask_free st sw v _ Hv (mask_from_range (s mod 64))) as HF.
    pose proof (mask_free st ew v2 _ Hv2 (mask_to_range ((s + c - 1) mod 64) ltac:(dlia))) as HL.
    destruct (words_free_ok st I (Z.to_nat (ew - (sw + 1))) (sw + 1)) as (b & Hb & HB);
      [lia|lia|]. rewrite Hb. simpl.
    assert (HM : b = true <-> forall q, (64 * (sw + 1) <=? q) &&
              (q <? 64 * (sw + 1 + Z.of_nat (Z.to_nat (ew - (sw + 1))))) = true ->
              page_used st q = false).
    { rewrite HB. split; intros H q Hq; apply H; [zbool; lia|].
      by rewrite (proj2 (Z.leb_le _ _)), (proj2 (Z.ltb_lt _ _)) by lia. }
    rewrite Hv2. simpl. clear Hb HB.
    assert (Hall : (forall q, in_range s c q = true -> page_used st q = false) <->
              (Z.land v (mask_from (s mod 64)) =? 0) = true /\ b = true /\
              (Z.land v2 (mask_to ((s + c - 1) mod 64)) =? 0) = true).
    { rewrite HF, HM, HL. split.
      - intros H. split_and!; intros q Hq; apply H; rewrite Hin, Hq; by rewrite ?orb_true_r.
      - intros (HA & HB & HC) q Hq. rewrite Hin in Hq.
        apply orb_true_iff in Hq as [[Hq|Hq]%orb_true_iff|Hq]; auto. }
    destruct (Z.land v (mask_from (s mod 64)) =? 0); simpl; [|exists false; rewrite Hall; intuition discriminate].
    destruct b; simpl; [|exists false; rewrite Hall; intuition discriminate].
    eexists. split; [done|]. rewrite Hall. tauto.
Qed.
End range.
