(* ===== verification/PMemThms.v ===== *)
(** What the page allocator of [src/mm/PMem.c] promises: the public operations refine an abstract
    set of used pages, error branches included. *)
From Stdlib Require Import ZArith Lia.
From stdpp Require Import base tactics list gmap sets numbers.
From S2P Require Import Prelude PMem PMemInv PMemOps.

(** ** Searching for a free page *)
Lemma FindFirstFreeBit_ok w :
  0 <= w < 2 ^ 64 -> w <> ones64 ->
  let b := FindFirstFreeBit w in
  0 <= b < 64 /\ Z.testbit w b = false /\ forall j, 0 <= j < b -> Z.testbit w j = true.
Proof.
  intros Hw Hne. unfold FindFirstFreeBit. rewrite (proj2 (Z.eqb_neq _ _)) by done.
  assert (Hn : 0 < not64 w < 2 ^ Z.of_nat 64).
  { assert (0 <= not64 w < 2 ^ 64) by (apply lxor_bound; done).
    assert (not64 w <> 0); [|lia]. intros Hx%Z.lxor_eq. done. }
  destruct (ctz_from_hit 64 _ Hn) as (H1 & H2 & H3). fold (ctz64 (not64 w)) in *.
  cbv zeta. rewrite testbit_not64 in H2 by lia. split_and!; [lia|lia| |].
  - apply andb_true_iff in H2 as [_ H2]. by apply negb_true_iff in H2.
  - intros j Hj. specialize (H3 j Hj). rewrite testbit_not64 in H3 by lia.
    rewrite (proj2 (Z.ltb_lt j 64)) in H3 by lia. simpl in H3. by apply negb_false_iff in H3.
Qed.

Section scan.
Context (st : pmm) (I : pmm_inv st).

(** The pages of a full word are all in use. *)
Lemma full_word w q :
  arr_get (bitmap st) w = Some ones64 -> q / 64 = w -> 0 <= q -> page_used st q = true.
Proof using Type.
  intros Hw <- Hq. rewrite (page_word st q ones64) by done.
  rewrite testbit_ones64 by dlia. apply Z.ltb_lt. dlia.
Qed.

(** The first free bit of a word that is not full. *)
Lemma first_free_page w v :
  arr_get (bitmap st) w = Some v -> 0 <= v < 2 ^ 64 -> v <> ones64 -> 0 <= w < bitmap_words st ->
  exists p, u64 (w * 64 + FindFirstFreeBit v) = p /\ 0 <= FindFirstFreeBit v /\
    64 * w <= p < 64 * w + 64 /\ page_used st p = false /\
    forall q, 64 * w <= q < p -> page_used st q = true.
Proof using I.
  intros Hv Hr Hne Hw. destruct (FindFirstFreeBit_ok v Hr Hne) as (H1 & H2 & H3).
  pose proof (inv_words_bound st I). pose proof (inv_total st I). pmem_bounds.
  exists (64 * w + FindFirstFreeBit v). split; [rewrite u64_small; lia|]. split_and!; [lia..| |].
  - unfold page_used. by rewrite (bm_bit_at _ _ _ _ Hv).
  - intros q Hq. unfold page_used. replace q with (64 * w + (q - 64 * w)) by lia.
    rewrite (bm_bit_at _ _ _ _ Hv) by lia. apply H3. lia.
Qed.

Lemma scan_up_ok n w :
  4 <= w -> w + Z.of_nat n = bitmap_words st ->
  exists r, scan_up n w st = Some r /\
    match r with
    | ScanHit p st' => st' = st /\ 64 * w <= p < total_pages st /\ page_used st p = false
    | ScanMiss st' => st' = st /\ forall p, 64 * w <= p < total_pages st -> page_used st p = true
    end.
Proof using I.
  revert w. induction n as [|n IH]; intros w Hw Hn; cbn [scan_up].
  { eexists. split; [done|]. simpl. split; [done|]. intros p Hp.
    pose proof (inv_words_bound st I). lia. }
  destruct (inv_get st I w) as (v & Hv & Hr); [lia|]. rewrite Hv. simpl.
  destruct (Z.eqb_spec v ones64) as [->|Hne]; simpl.
  - destruct (IH (w + 1)) as (r & -> & HR); [lia|lia|]. exists r. split; [done|].
    destruct r as [p st'|st'].
    + destruct HR as (? & ? & ?). split_and!; [done|lia|lia|done].
    + destruct HR as [-> HR]. split; [done|]. intros p Hp.
      destruct (decide (64 * (w + 1) <= p)); [apply HR; lia|].
      apply (full_word w); [done|dlia|lia].
  - destruct (first_free_page w v Hv Hr Hne) as (p & -> & Hb & Hp & Hfree & Hlow); [lia|].
    rewrite (proj2 (Z.leb_le 0 _)) by done.
    destruct (Z.leb_spec (total_pages st) p).
    + eexists. split; [done|]. simpl. split; [done|]. intros q Hq. apply Hlow. lia.
    + pmem_bounds. rewrite (proj2 (Z.ltb_ge p 256)) by lia. eexists. split; [done|].
      simpl. split_and!; [done|lia|lia|done].
Qed.

Lemma scan_wrap_ok n w :
  4 <= w -> (64 * (w + Z.of_nat n) <= total_pages st \/ n = 0%nat) ->
  exists r, scan_wrap n w st = Some r /\
    match r with
    | ScanHit p st' =>
        st' = st /\ 64 * w <= p < 64 * (w + Z.of_nat n) /\ page_used st p = false
    | ScanMiss st' =>
        st' = st /\ forall p, 64 * w <= p < 64 * (w + Z.of_nat n) -> page_used st p = true
    end.
Proof using I.
  revert w. induction n as [|n IH]; intros w Hw Hn; cbn [scan_wrap].
  { eexists. split; [done|]. simpl. split; [done|]. intros p Hp. lia. }
  pose proof (inv_words_bound st I).
  destruct (inv_get st I w) as (v & Hv & Hr); [lia|]. rewrite Hv. simpl.
  destruct (Z.eqb_spec v ones64) as [->|Hne]; simpl.
  - destruct (IH (w + 1)) as (r & -> & HR); [lia|lia|]. exists r. split; [done|].
    destruct r as [p st'|st'].
    + destruct HR as (? & ? & ?). split_and!; [done|lia|lia|done].
    + destruct HR as [-> HR]. split; [done|]. intros p Hp.
      destruct (decide (64 * (w + 1) <= p)); [apply HR; lia|].
      apply (full_word w); [done|dlia|lia].
  - destruct (first_free_page w v Hv Hr Hne) as (p & -> & Hb & Hp & Hfree & Hlow); [lia|].
    rewrite (proj2 (Z.leb_le 0 _)) by done. pmem_bounds.
    rewrite (proj2 (Z.ltb_ge p 256)) by lia. eexists. split; [done|].
    simpl. split_and!; [done|lia|lia|done].
Qed.
End scan.

(** Changing the hint, the watermark or a counter keeps the invariant and the pages. *)
Lemma inv_set_hint st h : pmm_inv st -> 0 <= h < 2 ^ 64 -> pmm_inv (set_hint h st).
Proof. intros [] ?. by constructor. Qed.
Lemma inv_set_watermark st w : pmm_inv st -> pmm_inv (set_watermark w st).
Proof. intros []. by constructor. Qed.
Lemma inv_set_counts st a b c d : pmm_inv st -> pmm_inv (set_counts a b c d st).
Proof. intros []. by constructor. Qed.
#[export] Hint Resolve inv_set_hint inv_set_watermark inv_set_counts : pmem.

(** [st'] has the bitmap, the size and the used counter of [st]. *)
Definition same_pages (st st' : pmm) : Prop :=
  bitmap st' = bitmap st /\ total_pages st' = total_pages st /\ used_pages st' = used_pages st.

Lemma same_pages_set st st' : same_pages st st' -> used_set st' = used_set st.
Proof. intros (HB & HT & _). unfold used_set, page_used. by rewrite HB, HT. Qed.

(** ** Marking and clearing pages, on sets *)
Lemma updates_set_add st st' p :
  pmm_inv st -> updates st st' (fun q u => (q =? p) || u) -> used_set st' = {[p]} ∪ used_set st.
Proof.
  intros I (I' & _ & HP). apply set_eq. intros q.
  rewrite elem_of_union, elem_of_singleton, !elem_of_used_set by done.
  rewrite HP, orb_true_iff, Z.eqb_eq. done.
Qed.

Lemma updates_set_remove st st' p :
  pmm_inv st -> updates st st' (fun q u => negb (q =? p) && u) -> used_set st' = used_set st ∖ {[p]}.
Proof.
  intros I (I' & _ & HP). apply set_eq. intros q.
  rewrite elem_of_difference, elem_of_singleton, !elem_of_used_set by done.
  rewrite HP, andb_true_iff, negb_true_iff, Z.eqb_neq. tauto.
Qed.

(** The page numbers [s .. s+c-1] as a set. *)
Definition range_set (s c : Z) : gset Z := list_to_set (seqZ s c).

Lemma elem_of_range_set s c q : q ∈ range_set s c <-> in_range s c q = true.
Proof.
  unfold range_set, in_range. rewrite elem_of_list_to_set, elem_of_seqZ.
  rewrite andb_true_iff, Z.leb_le, Z.ltb_lt. done.
Qed.

Lemma updates_set_range st st' s c :
  pmm_inv st -> updates st st' (fun q u => u || in_range s c q) ->
  used_set st' = used_set st ∪ range_set s c.
Proof.
  intros I (I' & _ & HP). apply set_eq. intros q.
  rewrite elem_of_union, elem_of_range_set, !elem_of_used_set by done.
  by rewrite HP, orb_true_iff.
Qed.

Lemma updates_clear_range st st' s c :
  pmm_inv st -> updates st st' (fun q u => u && negb (in_range s c q)) ->
  used_set st' = used_set st ∖ range_set s c.
Proof.
  intros I (I' & _ & HP). apply set_eq. intros q.
  rewrite elem_of_difference, elem_of_range_set, !elem_of_used_set by done.
  by rewrite HP, andb_true_iff, negb_true_iff, not_true_iff_false.
Qed.

(** ** AllocPage *)
Lemma alloc_take_ok st p :
  pmm_inv st -> lowmem_pages <= p < total_pages st -> page_used st p = false ->
  exists st', alloc_take p st = Some (p * PAGE_SIZE, st') /\ pmm_inv st' /\
    used_set st' = {[p]} ∪ used_set st /\
    allocation_count st' = allocation_count st +! 1 /\
    next_free_hint st' = if p + 1 =? total_pages st then lowmem_pages else p + 1.
Proof.
  intros I Hp Hfree. destruct (MarkPageUsed_ok st I p) as (st1 & Hst & HU); [pmem_bounds; lia|].
  unfold alloc_take. rewrite Hst. simpl.
  pose proof (updates_set_add _ _ _ I HU) as HS. pose proof HU as (I1 & W & _).
  pose proof (inv_total st I). rewrite (updates_total _ _ _ HU).
  assert (E : p +! 1 = p + 1) by (pmem_bounds; wsimp; lia). rewrite E.
  replace (p *! PAGE_SIZE) with (p * PAGE_SIZE) by (pmem_bounds; wsimp; lia).
  eexists. split; [reflexivity|]. split_and!.
  - case_if Hc; repeat (apply inv_set_hint || apply inv_set_counts); (done || pmem_bounds; lia).
  - rewrite <-HS. apply same_pages_set. case_if Hc; done.
  - rewrite W. by case_if Hc.
  - destruct (Z.leb_spec (total_pages st) (p + 1)); simpl;
      [rewrite (proj2 (Z.eqb_eq _ _)) by lia|rewrite (proj2 (Z.eqb_neq _ _)) by lia]; done.
Qed.

(** The hint after the clamps of [AllocPage]. *)
Lemma AllocPage_search st3 :
  pmm_inv st3 -> lowmem_pages <= next_free_hint st3 ->
  (next_free_hint st3 < total_pages st3 \/ next_free_hint st3 = lowmem_pages) ->
  let start_word := next_free_hint st3 / 64 in
  exists r, (up ← scan_up (Z.to_nat (bitmap_words st3 - start_word)) start_word st3;
    match up with
    | ScanHit page_idx st4 => alloc_take page_idx st4
    | ScanMiss st4 =>
        wrap ← scan_wrap (Z.to_nat (start_word - lowmem_pages / 64)) (lowmem_pages / 64) st4;
        match wrap with
        | ScanHit page_idx st5 => alloc_take page_idx st5
        | ScanMiss st5 => Some (0, count_failure st5)
        end
    end) = Some r /\
    ((exists p, lowmem_pages <= p < total_pages st3 /\ page_used st3 p = false /\
        alloc_take p st3 = Some r) \/
     ((forall p, lowmem_pages <= p < total_pages st3 -> page_used st3 p = true) /\
      r = (0, count_failure st3))).
Proof.
  intros I Hlow Hhint start_word. pose proof (inv_words_bound st3 I).
  change (lowmem_pages / 64) with 4.
  assert (Hsw : 4 <= start_word) by (subst start_word; pmem_bounds; dlia).
  assert (Hup : exists r, scan_up (Z.to_nat (bitmap_words st3 - start_word)) start_word st3 = Some r /\
      match r with
      | ScanHit p st' => st' = st3 /\ 64 * start_word <= p < total_pages st3 /\ page_used st3 p = false
      | ScanMiss st' => st' = st3 /\
          forall p, 64 * start_word <= p < total_pages st3 -> page_used st3 p = true
      end).
  { destruct (decide (start_word <= bitmap_words st3)); [apply scan_up_ok; (done || lia)|].
    replace (Z.to_nat _) with 0%nat by lia. eexists. split; [done|]. simpl. split; [done|]. intros. lia. }
  destruct Hup as (r & -> & HR). simpl. destruct r as [p st'|st'].
  { destruct HR as (-> & Hp & Hf). destruct (alloc_take_ok st3 p I) as (st' & HA & _);
      [pmem_bounds; lia|done|]. rewrite HA. eexists. split; [done|]. left. exists p.
    split_and!; [pmem_bounds; lia|lia|done|done]. }
  destruct HR as (-> & Hall).
  destruct (scan_wrap_ok st3 I (Z.to_nat (start_word - 4)) 4) as (r & -> & HR); [lia| |].
  { subst start_word. pmem_bounds. destruct Hhint as [|Heq]; [left; dlia|right].
    rewrite Heq. done. }
  simpl. destruct r as [p st'|st'].
  { destruct HR as (-> & Hp & Hf). assert (p < total_pages st3).
    { subst start_word. pmem_bounds. destruct Hhint; dlia. }
    destruct (alloc_take_ok st3 p I) as (st' & HA & _); [pmem_bounds; lia|done|].
    rewrite HA. eexists. split; [done|]. left. exists p. split_and!; [pmem_bounds; lia|lia|done|done]. }
  destruct HR as (-> & Hall2). eexists. split; [done|]. right. split; [|done].
  intros p Hp. pmem_bounds. destruct (decide (64 * start_word <= p)); [apply Hall; lia|apply Hall2; lia].
Qed.

(** * The page allocator's theorems: refinement of every public operation of [src/mm/PMem.c] to sets of pages, error branches included. *)
(** The state [AllocPage] searches from: watermark and hint updated. *)
Lemma AllocPage_prepare st :
  pmm_inv st ->
  let st1 :=
    if (total_pages st *! 9) / 10 <? used_pages st then
      if low_memory_watermark st =? 0 then set_watermark (used_pages st) st else st
    else st in
  let st2 := if next_free_hint st1 <? lowmem_pages then set_hint lowmem_pages st1 else st1 in
  let st3 := if total_pages st2 <=? next_free_hint st2 then set_hint lowmem_pages st2 else st2 in
  pmm_inv st3 /\ same_pages st st3 /\ lowmem_pages <= next_free_hint st3 /\
  (next_free_hint st3 < total_pages st3 \/ next_free_hint st3 = lowmem_pages) /\
  allocation_count st3 = allocation_count st /\ allocation_failures st3 = allocation_failures st.
Proof.
  intros I st1 st2 st3.
  assert (H1 : pmm_inv st1 /\ same_pages st st1 /\ allocation_count st1 = allocation_count st /\
                allocation_failures st1 = allocation_failures st).
  { clear st2 st3. subst st1. case_ifs; split_and!; try done; by apply inv_set_watermark. }
  destruct H1 as (I1 & S1 & A1 & F1). clearbody st1.
  assert (I2 : pmm_inv st2) by (subst st2; case_if E; [by apply inv_set_hint|done]).
  assert (S2 : same_pages st st2) by (subst st2; by case_if E).
  assert (H2 : lowmem_pages <= next_free_hint st2).
  { subst st2. case_if E; simpl; [lia|]. by zbool. }
  assert (A2 : allocation_count st2 = allocation_count st /\
               allocation_failures st2 = allocation_failures st) by (subst st2; by case_if E).
  clearbody st2. subst st3. case_if E; zbool; simpl.
  - split_and!; try apply A2; try done; [by apply inv_set_hint|by right].
  - split_and!; try apply A2; try done; by left.
Qed.

(** AllocPage, on every branch. *)
Lemma AllocPage_cases st :
  pmm_inv st ->
  exists addr st', AllocPage st = Some (addr, st') /\ pmm_inv st' /\
    ((addr = 0 /\ used_set st' = used_set st /\
      allocation_failures st' = allocation_failures st +! 1 /\
      (total_pages st - 1 <= used_pages st \/
       forall p, lowmem_pages <= p < total_pages st -> p ∈ used_set st)) \/
     (exists p, addr = p * PAGE_SIZE /\ lowmem_pages <= p < total_pages st /\ (p ∉ used_set st) /\
        used_set st' = {[p]} ∪ used_set st /\ allocation_count st' = allocation_count st +! 1)).
Proof.
  intros I. unfold AllocPage. rewrite (proj2 (Z.eqb_neq _ _)) by apply I.
  pose proof (inv_total st I). pose proof (inv_used_range st I).
  destruct (Z.leb_spec (total_pages st -! 1) (used_pages st)) as [Hg|Hg].
  { exists 0, (count_failure st). split; [done|]. split; [by apply inv_set_counts|]. left.
    split_and!; [done..|]. left. destruct (decide (total_pages st = 0)); [lia|].
    pmem_bounds. wsimp_in Hg. lia. }
  pose proof (AllocPage_prepare st I) as HP. cbv zeta in HP. cbv zeta.
  match type of HP with pmm_inv ?x /\ _ => set (st3 := x) in * end.
  destruct HP as (I3 & S3 & Hl & Hh & A3 & F3). clearbody st3.
  destruct (AllocPage_search st3 I3 Hl Hh) as (r & HR & HC). cbv zeta in HR. rewrite HR.
  pose proof (same_pages_set _ _ S3) as HS. destruct S3 as (SB & ST & SU).
  destruct HC as [(p & Hp & Hf & HA)|(Hall & ->)].
  - destruct (alloc_take_ok st3 p I3 Hp Hf) as (st' & HA' & I' & HS' & HC' & _).
    rewrite HA in HA'. simplify_eq. exists (p * PAGE_SIZE), st'. split; [done|]. split; [done|].
    right. exists p. rewrite <-HS, <-ST, <-A3. split_and!; try done; try lia.
    rewrite elem_of_used_set by done. by rewrite Hf.
  - exists 0, (count_failure st3). split; [done|]. split; [by apply inv_set_counts|]. left.
    split_and!; [done|done|by rewrite <-F3|]. right. intros p Hp. rewrite <-HS.
    rewrite elem_of_used_set by done. apply Hall. by rewrite ST.
Qed.

(** ** FreePage *)
Definition freeable (addr : Z) (st : pmm) : bool :=
  negb (addr =? 0) && (addr mod PAGE_SIZE =? 0) && (addr / PAGE_SIZE <? total_pages st) &&
  page_used st (addr / PAGE_SIZE).

Lemma FreePage_cases st addr :
  pmm_inv st -> 0 <= addr < 2 ^ 64 ->
  exists st', FreePage addr st = Some st' /\ pmm_inv st' /\
    if freeable addr st
    then used_set st' = used_set st ∖ {[addr / PAGE_SIZE]} /\ free_count st' = free_count st +! 1 /\
         next_free_hint st' <= addr / PAGE_SIZE
    else st' = st.
Proof.
  intros I Ha. unfold FreePage, freeable.
  destruct (Z.eqb_spec addr 0); simpl; [by exists st|].
  destruct (Z.eqb_spec (addr mod PAGE_SIZE) 0); simpl; [|by exists st].
  rewrite Z.ltb_antisym. destruct (Z.leb_spec (total_pages st) (addr / PAGE_SIZE)) as [|Hlt];
    simpl; [by exists st|].
  assert (Hp : 0 <= addr / PAGE_SIZE < total_pages st) by (pmem_bounds; dlia).
  rewrite (IsPageFree_ok st I _ Hp). simpl.
  destruct (page_used st (addr / PAGE_SIZE)) eqn:E; simpl; [|by exists st].
  destruct (MarkPageFree_ok st I _ Hp) as (st1 & -> & HU). simpl.
  pose proof (updates_set_remove _ _ _ I HU) as HS. pose proof HU as (I1 & W & _).
  pose proof (inv_total st I).
  eexists. split; [reflexivity|]. case_if Hh; zbool; simpl in Hh.
  - split; [apply inv_set_hint; [by apply inv_set_counts|pmem_bounds; lia]|]. split_and!.
    + by rewrite <-HS.
    + simpl. by rewrite W.
    + simpl. lia.
  - split; [by apply inv_set_counts|]. split_and!; [by rewrite <-HS|simpl; by rewrite W|simpl; lia].
Qed.

(** ** Huge pages *)
Lemma huge_scan_ok fuel start c st :
  pmm_inv st -> 0 <= start -> 0 < c < 2 ^ 63 -> (1 <= fuel)%nat -> start <= total_pages st + 512 ->
  total_pages st < start + 512 * (Z.of_nat fuel - 1) + c ->
  exists r, huge_scan fuel start c st = Some r /\
    match r with
    | Some s => exists k, 0 <= k /\ s = start + 512 * k /\ s + c <= total_pages st /\
        (forall q, in_range s c q = true -> page_used st q = false)
    | None => forall k, 0 <= k -> start + 512 * k + c <= total_pages st ->
        exists q, in_range (start + 512 * k) c q = true /\ page_used st q = true
    end.
Proof.
  intros I. revert start. induction fuel as [|fuel IH]; intros start Hs Hc Hf Hub Hm; [lia|].
  cbn [huge_scan]. pose proof (inv_total st I).
  rewrite (u64_small (start + c)) by (pmem_bounds; lia).
  destruct (Z.leb_spec (start + c) (total_pages st)) as [Hle|Hgt].
  2: { eexists. split; [done|]. intros k Hk Hkc. lia. }
  destruct (RangeIsFree_ok st I start c) as (b & -> & HB); [lia..|]. simpl.
  destruct b.
  { eexists. split; [done|]. simpl. exists 0. split_and!; [lia|lia|lia|by apply HB]. }
  change pages_per_huge with 512. rewrite (u64_small (start + 512)) by (pmem_bounds; lia).
  destruct (IH (start + 512)) as (r & -> & HR); [lia..|]. exists r. split; [done|].
  destruct r as [s|].
  - destruct HR as (k & Hk & -> & Hr). exists (k + 1). split_and!; [lia|lia|apply Hr..].
  - intros k Hk Hkc. destruct (decide (k = 0)) as [->|].
    + rewrite Z.mul_0_r, Z.add_0_r.
      destruct (decide (Exists (fun q => page_used st q = true) (seqZ start c))) as [He|Hne].
      * apply Exists_exists in He as (q & Hq & Hu). exists q. split; [|done].
        apply list_elem_of_In, elem_of_seqZ in Hq. unfold in_range.
        by rewrite (proj2 (Z.leb_le _ _)), (proj2 (Z.ltb_lt _ _)) by lia.
      * exfalso. assert (false = true); [|done]. apply HB. intros q Hq.
        destruct (page_used st q) eqn:E; [|done]. exfalso. apply Hne, Exists_exists.
        exists q. split; [|done]. apply list_elem_of_In, elem_of_seqZ. unfold in_range in Hq.
        zbool. lia.
    + destruct (HR (k - 1)) as (q & Hq & Hu); [lia..|]. exists q.
      by replace (start + 512 * k) with (start + 512 + 512 * (k - 1)) by lia.
Qed.

Lemma disjoint_range st s c :
  pmm_inv st -> (forall q, in_range s c q = true -> page_used st q = false) ->
  used_set st ## range_set s c.
Proof.
  intros I Hf q. rewrite elem_of_range_set, elem_of_used_set by done. intros H1 H2.
  rewrite Hf in H1; done.
Qed.

Lemma AllocHugePages_cases st num :
  pmm_inv st -> 0 < num <= 2 ^ 53 ->
  let c := num * 512 in
  exists addr st', AllocHugePages num st = Some (addr, st') /\ pmm_inv st' /\
    ((addr = 0 /\ used_set st' = used_set st /\
      allocation_failures st' = allocation_failures st +! 1 /\
      forall k, 1 <= k -> 512 * k + c <= total_pages st -> ~ used_set st ## range_set (512 * k) c) \/
     (exists k, 1 <= k /\ addr = k * HUGE_PAGE_SIZE /\ 512 * k + c <= total_pages st /\
        used_set st ## range_set (512 * k) c /\
        used_set st' = used_set st ∪ range_set (512 * k) c /\
        huge_pages_allocated st' = huge_pages_allocated st +! 1)).
Proof.
  intros I Hn c. unfold AllocHugePages.
  change (HUGE_PAGE_ALIGN_UP 0x100000 / PAGE_SIZE) with 512. change pages_per_huge with 512.
  assert (E : num *! 512 = c) by (subst c; wsimp; lia). rewrite E.
  pose proof (inv_total st I) as HT.
  destruct (huge_scan_ok (huge_fuel st) 512 c st I) as (r & -> & HR); [lia|subst c; lia| | |
    |]; [unfold huge_fuel; pmem_bounds; dlia|lia|unfold huge_fuel; pmem_bounds; dlia|].
  simpl. destruct r as [s|].
  - destruct HR as (k & Hk & -> & Hle & Hfree).
    destruct (RangeSetUsed_ok st I (512 + 512 * k) c) as (st1 & -> & HU); [lia|subst c; lia|lia|].
    simpl. pose proof (updates_set_range _ _ _ _ I HU) as HS. pose proof HU as (I1 & W & _).
    pose proof (inv_total st1 I1) as HT1. rewrite (updates_total _ _ _ HU) in HT1.
    eexists _, _. split; [reflexivity|]. split.
    { apply inv_set_counts. case_if E2; repeat apply inv_set_hint; try done; try (pmem_bounds; lia).
      all: apply u64_range. }
    right. exists (k + 1). replace (512 * (k + 1)) with (512 + 512 * k) by lia.
    split_and!; [lia|pmem_bounds; wsimp; lia|lia|by apply disjoint_range| |].
    + rewrite <-HS. apply same_pages_set. by case_if E2.
    + rewrite W. by case_if E2.
  - eexists _, _. split; [reflexivity|]. split; [by apply inv_set_counts|]. left.
    split_and!; [done..|]. intros k Hk Hkc Hd.
    destruct (HR (k - 1)) as (q & Hq & Hu); [lia..|].
    replace (512 + 512 * (k - 1)) with (512 * k) in Hq by lia.
    apply (Hd q); [by apply elem_of_used_set|by apply elem_of_range_set].
Qed.

Definition huge_freeable (addr num : Z) (st : pmm) : bool :=
  negb (addr =? 0) && negb (num =? 0) && (addr mod HUGE_PAGE_SIZE =? 0) &&
  (addr / PAGE_SIZE + num * 512 <=? total_pages st).

Lemma FreeHugePages_cases st addr num :
  pmm_inv st -> 0 <= addr < 2 ^ 64 -> 0 <= num <= 2 ^ 53 ->
  exists st', FreeHugePages addr num st = Some st' /\ pmm_inv st' /\
    if huge_freeable addr num st
    then used_set st' = used_set st ∖ range_set (addr / PAGE_SIZE) (num * 512)
    else st' = st.
Proof.
  intros I Ha Hn. unfold FreeHugePages, huge_freeable.
  destruct (Z.eqb_spec addr 0); simpl; [by exists st|].
  destruct (Z.eqb_spec num 0); simpl; [by exists st|].
  destruct (Z.eqb_spec (addr mod HUGE_PAGE_SIZE) 0); simpl; [|by exists st].
  pose proof (inv_total st I). pmem_bounds.
  assert (0 <= addr / 4096 < 2 ^ 52) by dlia.
  rewrite (u64_small (num * 512)) by lia. rewrite u64_small by lia.
  rewrite Z.leb_antisym. destruct (Z.ltb_spec (total_pages st) (addr / 4096 + num * 512));
    simpl; [by exists st|].
  destruct (RangeSetFree_ok st I (addr / 4096) (num * 512)) as (st1 & -> & HU); [lia..|]. simpl.
  pose proof (updates_clear_range _ _ _ _ I HU) as HS. pose proof HU as (I1 & _ & _).
  eexists. split; [reflexivity|]. split.
  - case_if E; [apply inv_set_hint; [done|lia]|done].
  - rewrite <-HS. apply same_pages_set. by case_if E.
Qed.
