(* ===== verification/PageAlloc.v ===== *)
(** The interface the kernel's other subsystems have to the page allocator, and
    what follows from it for any client: blocks held at the same time never
    overlap.  [src/mm/PMem.c] implements the interface. *)
From Stdlib Require Import ZArith Lia.
From stdpp Require Import base tactics list gmap sets numbers.
From S2P Require Import Prelude PMem PMemInv PMemOps PMemThms.

(** ** Interface *)
Class PageAllocator (S : Type) := {
  pa_ok : S -> Prop;
  pa_used : S -> gset Z;
  pa_alloc : S -> option (Z * S);
  pa_alloc_huge : Z -> S -> option (Z * S);
  pa_free : Z -> S -> option S;
  pa_free_huge : Z -> Z -> S -> option S;
  pa_alloc_spec s : pa_ok s -> exists a s', pa_alloc s = Some (a, s') /\ pa_ok s' /\
    ((a = 0 /\ pa_used s' = pa_used s) \/
     exists p, 0 < p /\ a = p * 4096 /\ pa_used s ## range_set p 1 /\
       pa_used s' = pa_used s ∪ range_set p 1);
  pa_alloc_huge_spec s n : pa_ok s -> 0 < n <= 2 ^ 53 ->
    exists a s', pa_alloc_huge n s = Some (a, s') /\ pa_ok s' /\
    ((a = 0 /\ pa_used s' = pa_used s) \/
     exists k, 0 < k /\ a = k * 512 * 4096 /\ pa_used s ## range_set (k * 512) (n * 512) /\
       pa_used s' = pa_used s ∪ range_set (k * 512) (n * 512));
  pa_free_spec s p : pa_ok s -> 0 < p -> range_set p 1 ⊆ pa_used s ->
    exists s', pa_free (p * 4096) s = Some s' /\ pa_ok s' /\ pa_used s' = pa_used s ∖ range_set p 1;
  pa_free_huge_spec s k n : pa_ok s -> 0 < k -> 0 < n <= 2 ^ 53 ->
    range_set (k * 512) (n * 512) ⊆ pa_used s ->
    exists s', pa_free_huge (k * 512 * 4096) n s = Some s' /\ pa_ok s' /\
      pa_used s' = pa_used s ∖ range_set (k * 512) (n * 512)
}.

(** ** Clients *)

(** A block a client holds: one page, or [n] 2 MB pages from huge page [k]. *)
Inductive block :=
| Small (p : Z)
| Huge (k n : Z).

Definition blk_pages (b : block) : gset Z :=
  match b with
  | Small p => range_set p 1
  | Huge k n => range_set (k * 512) (n * 512)
  end.
Definition blk_valid (b : block) : Prop :=
  match b with
  | Small p => 0 < p
  | Huge k n => 0 < k /\ 0 < n <= 2 ^ 53
  end.

(** One call of a client that frees only blocks it holds. *)
Inductive client_step {S} `{!PageAllocator S} : S * list block -> S * list block -> Prop :=
| cs_alloc s own p s' :
    pa_alloc s = Some (p * 4096, s') -> p <> 0 -> client_step (s, own) (s', Small p :: own)
| cs_alloc_fail s own s' :
    pa_alloc s = Some (0, s') -> client_step (s, own) (s', own)
| cs_alloc_huge s own n k s' :
    0 < n <= 2 ^ 53 -> pa_alloc_huge n s = Some (k * 512 * 4096, s') -> k <> 0 ->
    client_step (s, own) (s', Huge k n :: own)
| cs_alloc_huge_fail s own n s' :
    0 < n <= 2 ^ 53 -> pa_alloc_huge n s = Some (0, s') -> client_step (s, own) (s', own)
| cs_free s own1 own2 p s' :
    pa_free (p * 4096) s = Some s' -> client_step (s, own1 ++ Small p :: own2) (s', own1 ++ own2)
| cs_free_huge s own1 own2 k n s' :
    pa_free_huge (k * 512 * 4096) n s = Some s' ->
    client_step (s, own1 ++ Huge k n :: own2) (s', own1 ++ own2).

(** The blocks held are valid, in use and pairwise disjoint. *)
Definition held_ok {S} `{!PageAllocator S} (c : S * list block) : Prop :=
  pa_ok c.1 /\ Forall blk_valid c.2 /\ Forall (fun b => blk_pages b ⊆ pa_used c.1) c.2 /\
  forall i j b1 b2, c.2 !! i = Some b1 -> c.2 !! j = Some b2 -> i <> j -> blk_pages b1 ## blk_pages b2.

Section client.
Context {S : Type} `{!PageAllocator S}.

(** A block disjoint from everything in use can be taken. *)
Lemma held_take s s' own b :
  held_ok (s, own) -> pa_ok s' -> blk_valid b -> pa_used s ## blk_pages b ->
  pa_used s' = pa_used s ∪ blk_pages b -> held_ok (s', b :: own).
Proof.
  intros (_ & HV & HU & HD) Hok Hb Hdis Hs'. simpl in *.
  rewrite list.Forall_forall in HU. split_and!; simpl; [done|by constructor| |].
  - constructor; [set_solver|]. apply list.Forall_forall. intros c Hc. specialize (HU c Hc). set_solver.
  - intros [|i] [|j] b1 b2 H1 H2 Hne; simpl in *; simplify_eq; try done.
    + apply list_elem_of_lookup_2, HU in H2. set_solver.
    + apply list_elem_of_lookup_2, HU in H1. set_solver.
    + eapply HD; [done..|]. lia.
Qed.

Lemma held_same s s' own :
  held_ok (s, own) -> pa_ok s' -> pa_used s' = pa_used s -> held_ok (s', own).
Proof. intros (_ & HV & HU & HD) Hok Hs'. split_and!; simpl in *; try done. by rewrite Hs'. Qed.

(** Giving back a held block leaves the others alone. *)
Lemma held_drop s s' own1 own2 b :
  held_ok (s, own1 ++ b :: own2) -> pa_ok s' -> pa_used s' = pa_used s ∖ blk_pages b ->
  held_ok (s', own1 ++ own2).
Proof.
  intros (_ & HV & HU & HD) Hok Hs'. simpl in *.
  assert (Hsub : forall i x, (own1 ++ own2) !! i = Some x ->
    exists i', (own1 ++ b :: own2) !! i' = Some x /\ i' <> length own1 /\
      i' = if decide (i < length own1)%nat then i else Datatypes.S i).
  { intros i x Hi. destruct (decide (i < length own1)%nat).
    - exists i. rewrite lookup_app_l in Hi by lia. rewrite lookup_app_l by lia. split_and!; [done|lia|done].
    - exists (Datatypes.S i). rewrite lookup_app_r in Hi by lia. rewrite lookup_app_r by lia.
      rewrite Nat.sub_succ_l by lia. split_and!; [done|lia|done]. }
  assert (Hb : (own1 ++ b :: own2) !! length own1 = Some b) by (by apply list_lookup_middle).
  split_and!; simpl; [done| | |].
  - rewrite Forall_app, Forall_cons_iff in HV. rewrite Forall_app. tauto.
  - apply Forall_lookup. intros i x Hi. destruct (Hsub i x Hi) as (i' & Hi' & Hne & _).
    rewrite Forall_lookup in HU. specialize (HU i' x Hi').
    pose proof (HD _ _ _ _ Hi' Hb Hne). set_solver.
  - intros i j b1 b2 H1 H2 Hne. destruct (Hsub i b1 H1) as (i' & Hi' & _ & Ei).
    destruct (Hsub j b2 H2) as (j' & Hj' & _ & Ej). eapply HD; [done..|].
    repeat case_decide; lia.
Qed.

Lemma held_block s own1 own2 b :
  held_ok (s, own1 ++ b :: own2) -> pa_ok s /\ blk_valid b /\ blk_pages b ⊆ pa_used s.
Proof.
  intros (H & HV & HU & _). simpl in *. rewrite Forall_app, Forall_cons_iff in HV, HU. tauto.
Qed.

Lemma client_step_ok c c' : held_ok c -> client_step c c' -> held_ok c'.
Proof.
  intros Hh Hs. destruct Hs as [s own p s' E Hp|s own s' E|s own n k s' Hn E Hk|s own n s' Hn E
    |s own1 own2 p s' E|s own1 own2 k n s' E].
  - destruct (pa_alloc_spec s) as (a & s2 & E2 & Hok & HC); [apply Hh|].
    rewrite E in E2. simplify_eq. destruct HC as [[? _]|(p' & Hp' & ? & Hd & HU)]; [lia|].
    assert (p' = p) as -> by lia. by apply (held_take s).
  - destruct (pa_alloc_spec s) as (a & s2 & E2 & Hok & HC); [apply Hh|].
    rewrite E in E2. simplify_eq. destruct HC as [[_ ?]|(p' & Hp' & ? & _)]; [|lia].
    by apply (held_same s).
  - destruct (pa_alloc_huge_spec s n) as (a & s2 & E2 & Hok & HC); [apply Hh|done|].
    rewrite E in E2. simplify_eq. destruct HC as [[? _]|(k' & Hk' & ? & Hd & HU)]; [lia|].
    assert (k' = k) as -> by lia. by apply (held_take s).
  - destruct (pa_alloc_huge_spec s n) as (a & s2 & E2 & Hok & HC); [apply Hh|done|].
    rewrite E in E2. simplify_eq. destruct HC as [[_ ?]|(k' & Hk' & ? & _)]; [|lia].
    by apply (held_same s).
  - destruct (held_block _ _ _ _ Hh) as (Hok & Hv & Hu).
    destruct (pa_free_spec s p) as (s2 & E2 & Hok2 & HU); [done..|].
    rewrite E in E2. simplify_eq. by eapply held_drop.
  - destruct (held_block _ _ _ _ Hh) as (Hok & Hv & Hu). destruct Hv.
    destruct (pa_free_huge_spec s k n) as (s2 & E2 & Hok2 & HU); [done..|].
    rewrite E in E2. simplify_eq. by eapply held_drop.
Qed.

Lemma client_steps_ok c c' : held_ok c -> rtc client_step c c' -> held_ok c'.
Proof. intros Hc Hr. induction Hr; [done|]. eauto using client_step_ok. Qed.
End client.

(** ** PMem.c implements the interface *)
Lemma range_set_1 p : range_set p 1 = {[p]}.
Proof.
  apply set_eq. intros q. rewrite elem_of_range_set, elem_of_singleton. unfold in_range.
  rewrite andb_true_iff, Z.leb_le, Z.ltb_lt. lia.
Qed.

Lemma used_set_bound st p : pmm_inv st -> p ∈ used_set st -> 0 <= p < total_pages st.
Proof.
  intros I. unfold used_set. rewrite elem_of_list_to_set, list_elem_of_filter, elem_of_seqZ. lia.
Qed.

#[export, program] Instance pmm_allocator : PageAllocator pmm := {
  pa_ok := pmm_inv;
  pa_used := used_set;
  pa_alloc := AllocPage;
  pa_alloc_huge := AllocHugePages;
  pa_free := FreePage;
  pa_free_huge := FreeHugePages
}.
Next Obligation.
  intros st I. destruct (AllocPage_cases st I) as (a & st' & E & I' & HC).
  exists a, st'. split_and!; [done..|]. destruct HC as [(-> & HS & _)|(p & -> & Hp & Hn & HS & _)].
  - by left.
  - right. exists p. rewrite range_set_1. split_and!; [pmem_bounds; lia|done|set_solver|].
    rewrite HS. set_solver.
Qed.
Next Obligation.
  intros st n I Hn. destruct (AllocHugePages_cases st n I Hn) as (a & st' & E & I' & HC).
  exists a, st'. split_and!; [done..|]. destruct HC as [(-> & HS & _)|(k & Hk & -> & _ & Hd & HS & _)].
  - by left.
  - right. exists k. replace (k * 512) with (512 * k) by lia.
    split_and!; [lia|pmem_bounds; lia|done|done].
Qed.
Next Obligation.
  intros st p I Hp Hsub. rewrite range_set_1 in *.
  assert (Hu : p ∈ used_set st) by set_solver. pose proof (used_set_bound st p I Hu).
  pose proof (inv_total st I). pmem_bounds.
  destruct (FreePage_cases st (p * 4096) I) as (st' & E & I' & HC); [lia|].
  exists st'. split_and!; [done..|]. unfold freeable in HC. pmem_bounds.
  rewrite Z.div_mul, Z.mod_mul in HC by lia.
  rewrite (proj2 (Z.eqb_neq _ _)), (proj2 (Z.ltb_lt _ _)) in HC by lia. simpl in HC.
  rewrite (proj1 (elem_of_used_set st p I)) in HC by done. apply HC.
Qed.
Next Obligation.
  intros st k n I Hk Hn Hsub.
  assert (Hu : forall q, k * 512 <= q < k * 512 + n * 512 -> 0 <= q < total_pages st).
  { intros q Hq. apply (used_set_bound st q I), Hsub, elem_of_range_set. unfold in_range.
    by rewrite (proj2 (Z.leb_le _ _)), (proj2 (Z.ltb_lt _ _)) by lia. }
  pose proof (Hu (k * 512) ltac:(lia)). pose proof (Hu (k * 512 + n * 512 - 1) ltac:(lia)).
  pose proof (inv_total st I). pmem_bounds.
  destruct (FreeHugePages_cases st (k * 512 * 4096) n I) as (st' & E & I' & HC); [lia..|].
  exists st'. split_and!; [done..|]. unfold huge_freeable in HC. pmem_bounds.
  replace (k * 512 * 4096) with (k * 2097152) in HC by lia.
  rewrite Z.mod_mul in HC by lia. replace (k * 2097152 / 4096) with (k * 512) in HC by dlia.
  rewrite !(proj2 (Z.eqb_neq _ _)), (proj2 (Z.leb_le _ _)) in HC by lia. apply HC.
Qed.
