(* ===== verification/PMemInit.v ===== *)
(** [MemoryInit] of [src/mm/PMem.c]: sizing and filling the page bitmap from the
    Multiboot2 memory map.

    [mem] is the read-only view of physical memory the boot loader left (one byte
    per address); the boot information is taken to lie outside the 16 MB region
    the bitmap is written to.  [while (tag->type != END)] runs on fuel: a tag of
    size 0 makes it run for ever, so no bound holds for every input; the theorems
    quantify over any fuel that lets the walk end.  Console output and the
    creation of the lock are not modelled. *)
From Stdlib Require Import ZArith Lia.
From stdpp Require Import base tactics list gmap sets numbers.
From S2P Require Import Prelude PMem PMemInv PMemOps PMemThms.

Definition MULTIBOOT2_TAG_TYPE_END : Z := 0.
Definition MULTIBOOT2_TAG_TYPE_MMAP : Z := 6.
Definition MULTIBOOT2_MEMORY_AVAILABLE : Z := 1.
Definition SIZEOF_MultibootTagMmap : Z := 16.

(** struct MultibootMmapEntry *)
Record mmap_entry := mk_entry { e_addr : Z; e_len : Z; e_type : Z }.

Section init.
Context (mem : Z -> Z).

(** Little-endian loads. *)
Fixpoint load (n : nat) (a : Z) : Z :=
  match n with
  | O => 0
  | S n' => u8 (mem a) + 256 * load n' (a + 1)
  end.
Definition load32 (a : Z) : Z := load 4 a.
Definition load64 (a : Z) : Z := load 8 a.

Definition read_entry (p : Z) : mmap_entry := mk_entry (load64 p) (load64 (p + 8)) (load32 (p + 16)).

Section walk.
Context {S : Type} (body : mmap_entry -> S -> option S).

(** [for (uint32_t i = 0; i < n_entries; i++)] over the entries of one tag. *)
Fixpoint entries_loop (n : nat) (i tag entry_size : Z) (s : S) : option S :=
  match n with
  | O => Some s
  | Datatypes.S n' =>
      let p := tag + SIZEOF_MultibootTagMmap + u32 (i * entry_size) in
      s' ← body (read_entry p) s;
      entries_loop n' (i + 1) tag entry_size s'
  end.

(** One memory-map tag.  A zero entry size divides by zero; a count of 2^32 or more
    (a tag shorter than its header) never ends the 32-bit counter's loop. *)
Definition mmap_tag (tag : Z) (s : S) : option S :=
  let entry_size := load32 (tag + 8) in
  if entry_size =? 0 then None else
  let n := (load32 (tag + 4) -! SIZEOF_MultibootTagMmap) / entry_size in
  if 2 ^ 32 <=? n then None else entries_loop (Z.to_nat n) 0 tag entry_size s.

(** [while (tag->type != MULTIBOOT2_TAG_TYPE_END)]. *)
Fixpoint tag_walk (fuel : nat) (tag : Z) (s : S) : option S :=
  match fuel with
  | O => None
  | Datatypes.S f =>
      if load32 tag =? MULTIBOOT2_TAG_TYPE_END then Some s else
      s' ← (if load32 tag =? MULTIBOOT2_TAG_TYPE_MMAP then mmap_tag tag s else Some s);
      let next := Z.land (u32 (load32 (tag + 4) + 7)) (u32 (Z.lnot 7)) in
      tag_walk f (tag + next) s'
  end.
End walk.

(** First pass: the highest end address of available memory. *)
Definition max_body (e : mmap_entry) (max_physical_address : Z) : option Z :=
  if e_type e =? MULTIBOOT2_MEMORY_AVAILABLE then
    let end_addr := e_addr e +! e_len e in
    Some (if max_physical_address <? end_addr then end_addr else max_physical_address)
  else Some max_physical_address.

(** [for (current_addr = addr; current_addr < addr + len; current_addr += PAGE_SIZE)]. *)
Fixpoint reserve_loop (fuel : nat) (current_addr end_addr : Z) (st : pmm) : option pmm :=
  match fuel with
  | O => None
  | Datatypes.S f =>
      if current_addr <? end_addr then
        let page_idx := current_addr / PAGE_SIZE in
        st' ← (if page_idx <? total_pages st then MarkPageUsed page_idx st else Some st);
        reserve_loop f (current_addr +! PAGE_SIZE) end_addr st'
      else Some st
  end.

(** Second pass: mark what is not available. *)
Definition reserve_body (e : mmap_entry) (st : pmm) : option pmm :=
  if e_type e =? MULTIBOOT2_MEMORY_AVAILABLE then Some st
  else reserve_loop (Z.to_nat (e_len e / PAGE_SIZE + 2)) (e_addr e) (e_addr e +! e_len e) st.

(** [for (i = from; i < to; i++) MarkPageUsed(i)], [n] iterations. *)
Fixpoint mark_loop (n : nat) (i : Z) (st : pmm) : option pmm :=
  match n with
  | O => Some st
  | Datatypes.S n' => st' ← MarkPageUsed i st; mark_loop n' (i + 1) st'
  end.
Definition mark_pages (from to : Z) (st : pmm) : option pmm := mark_loop (Z.to_nat (to - from)) from st.

Definition BITMAP_START : Z := Z.land (0x1000000 +! PAGE_SIZE -! 1) (not64 (PAGE_SIZE - 1)).

(** The bitmap's size in words for [max_physical_address]; both are capped. *)
Definition init_total (max_physical_address : Z) : Z :=
  let t := (max_physical_address +! PAGE_SIZE -! 1) / PAGE_SIZE in
  if MAX_PAGES <? t then MAX_PAGES else t.
Definition init_words (total : Z) : Z := (total +! 63) / 64.
Definition init_fits (total : Z) : bool :=
  let limit := total *! PAGE_SIZE in
  let identity_limit := if MAX_SUPPORTED_MEMORY <? limit then MAX_SUPPORTED_MEMORY else limit in
  negb (identity_limit <? BITMAP_START +! (init_words total *! 8)).

(** The reservations that do not come from the map: the first megabyte, the bitmap,
    the kernel image and the boot information. *)
Definition reserve_fixed (words multiboot_info_addr total_multiboot_size kernel_phys_start
    kernel_phys_end : Z) (st : pmm) : option pmm :=
  let bitmap_start_page := BITMAP_START / PAGE_SIZE in
  let bitmap_end_page := (BITMAP_START +! words *! 8 +! PAGE_SIZE -! 1) / PAGE_SIZE in
  st3 ← mark_pages 0 lowmem_pages st;
  st4 ← mark_pages bitmap_start_page bitmap_end_page st3;
  st5 ← mark_pages (kernel_phys_start / PAGE_SIZE) ((kernel_phys_end +! PAGE_SIZE -! 1) / PAGE_SIZE) st4;
  mark_pages (multiboot_info_addr / PAGE_SIZE)
    (u32 (multiboot_info_addr + total_multiboot_size + PAGE_SIZE - 1) / PAGE_SIZE) st5.

Definition MemoryInit (fuel : nat) (multiboot_info_addr kernel_phys_start kernel_phys_end : Z)
    (st : pmm) : option (Z * pmm) :=
  let total_multiboot_size := load32 multiboot_info_addr in
  let tag := u32 (multiboot_info_addr + 8) in
  max_physical_address ← tag_walk max_body fuel tag 0;
  let total := init_total max_physical_address in
  let words := init_words total in
  let st0 := mk_pmm (page_bitmap st) (bitmap st) words total 0 (next_free_hint st)
    (low_memory_watermark st) (allocation_count st) (free_count st) 0 (huge_pages_allocated st) in
  if negb (init_fits total) then Some (-1, st0) else
  let st1 := mk_pmm BITMAP_START (replicate (Z.to_nat words) 0) words total 0 (next_free_hint st)
    (low_memory_watermark st) (allocation_count st) (free_count st) 0 (huge_pages_allocated st) in
  st2 ← tag_walk reserve_body fuel tag st1;
  st6 ← reserve_fixed words multiboot_info_addr total_multiboot_size kernel_phys_start
          kernel_phys_end st2;
  Some (0, st6).

(** ** Reference view: the list of entries the walk visits *)
Definition collect (e : mmap_entry) (es : list mmap_entry) : option (list mmap_entry) := Some (es ++ [e]).
Definition mb_entries (fuel : nat) (multiboot_info_addr : Z) : option (list mmap_entry) :=
  tag_walk collect fuel (u32 (multiboot_info_addr + 8)) [].

Definition run_entries {S} (body : mmap_entry -> S -> option S) (es : list mmap_entry) (s : S) : option S :=
  foldl (fun os e => s ← os; body e s) (Some s) es.

Lemma run_entries_none {S} (body : mmap_entry -> S -> option S) es :
  foldl (fun os e => s ← os; body e s) None es = None.
Proof. by induction es. Qed.

Lemma run_entries_app {S} (body : mmap_entry -> S -> option S) es es' s :
  run_entries body (es ++ es') s = (s' ← run_entries body es s; run_entries body es' s').
Proof.
  unfold run_entries. rewrite foldl_app. destruct (foldl _ (Some s) es); [done|].
  apply run_entries_none.
Qed.

Lemma run_entries_snoc {S} (body : mmap_entry -> S -> option S) es e s0 s :
  run_entries body es s0 = Some s -> run_entries body (es ++ [e]) s0 = body e s.
Proof. intros H. by rewrite run_entries_app, H. Qed.

(** Once the body fails the whole run fails. *)
Lemma entries_loop_stuck {S} (body : mmap_entry -> S -> option S) n i tag sz es0 es s0 :
  run_entries body es0 s0 = None -> entries_loop collect n i tag sz es0 = Some es ->
  run_entries body es s0 = None.
Proof.
  revert i es0. induction n as [|n IH]; intros i es0 HN HC; cbn [entries_loop] in HC.
  - by simplify_eq.
  - eapply IH; [|exact HC]. by rewrite run_entries_app, HN.
Qed.

Lemma entries_loop_run {S} (body : mmap_entry -> S -> option S) n i tag sz es0 es s0 s :
  run_entries body es0 s0 = Some s -> entries_loop collect n i tag sz es0 = Some es ->
  run_entries body es s0 = entries_loop body n i tag sz s.
Proof.
  revert i es0 s. induction n as [|n IH]; intros i es0 s HR HC; cbn [entries_loop] in *.
  { by simplify_eq. }
  pose proof (run_entries_snoc body es0
    (read_entry (tag + SIZEOF_MultibootTagMmap + u32 (i * sz))) s0 s HR) as HS.
  destruct (body _ s) as [s'|] eqn:E; cbn [mbind option_bind].
  - eapply IH; [exact HS|exact HC].
  - eapply entries_loop_stuck; [exact HS|exact HC].
Qed.

Lemma tag_walk_stuck {S} (body : mmap_entry -> S -> option S) fuel tag es0 es s0 :
  run_entries body es0 s0 = None -> tag_walk collect fuel tag es0 = Some es ->
  run_entries body es s0 = None.
Proof.
  revert tag es0. induction fuel as [|f IH]; intros tag es0 HN HC; cbn [tag_walk] in HC; [done|].
  destruct (load32 tag =? MULTIBOOT2_TAG_TYPE_END); [by simplify_eq|].
  destruct (load32 tag =? MULTIBOOT2_TAG_TYPE_MMAP); [|by eapply IH].
  unfold mmap_tag in HC. case_match; [done|]. case_match; [done|].
  destruct (entries_loop collect _ _ _ _ es0) as [es1|] eqn:E; [|done].
  eapply IH; [|exact HC]. by eapply entries_loop_stuck.
Qed.

(** Both passes visit the same entries, in order. *)
Lemma tag_walk_run {S} (body : mmap_entry -> S -> option S) fuel tag es0 es s0 s :
  run_entries body es0 s0 = Some s -> tag_walk collect fuel tag es0 = Some es ->
  tag_walk body fuel tag s = run_entries body es s0.
Proof.
  revert tag es0 s. induction fuel as [|f IH]; intros tag es0 s HR HC; cbn [tag_walk] in *; [done|].
  destruct (load32 tag =? MULTIBOOT2_TAG_TYPE_END); [by simplify_eq|].
  destruct (load32 tag =? MULTIBOOT2_TAG_TYPE_MMAP); [|by eapply IH].
  unfold mmap_tag in *. case_match; [done|]. case_match; [done|].
  destruct (entries_loop collect _ _ _ _ es0) as [es1|] eqn:E; [|done].
  pose proof (entries_loop_run body _ _ _ _ _ _ _ _ HR E) as HE. rewrite <-HE.
  destruct (run_entries body es1 s0) as [s1|] eqn:E1; cbn [mbind option_bind].
  - eapply IH; [exact E1|exact HC].
  - symmetry. eapply tag_walk_stuck; [exact E1|exact HC].
Qed.

Lemma walk_entries {S} (body : mmap_entry -> S -> option S) fuel a es s :
  mb_entries fuel a = Some es -> tag_walk body fuel (u32 (a + 8)) s = run_entries body es s.
Proof. intros H. by apply (tag_walk_run body fuel (u32 (a + 8)) [] es s s). Qed.
End init.

(** ** What the passes compute *)

(** The highest end of an available region. *)
Definition max_end (es : list mmap_entry) : Z :=
  foldl (fun m e => if e_type e =? MULTIBOOT2_MEMORY_AVAILABLE
                    then Z.max m (e_addr e +! e_len e) else m) 0 es.

Lemma max_body_run es m :
  run_entries max_body es m =
  Some (foldl (fun m e => if e_type e =? MULTIBOOT2_MEMORY_AVAILABLE
                          then Z.max m (e_addr e +! e_len e) else m) m es).
Proof.
  revert m. induction es as [|e es IH]; intros m; [done|].
  unfold run_entries in *. cbn [foldl]. rewrite <-IH. f_equal. cbn [mbind option_bind].
  unfold max_body. destruct (e_type e =? MULTIBOOT2_MEMORY_AVAILABLE); [|done].
  f_equal. destruct (Z.ltb_spec m (e_addr e +! e_len e)); lia.
Qed.

(** The pages the second pass marks for a reserved entry: those of the addresses
    [addr], [addr + 4096], ... below the end. *)
Definition reserved_by (e : mmap_entry) (p : Z) : Prop :=
  e_type e <> MULTIBOOT2_MEMORY_AVAILABLE /\
  exists k, 0 <= k /\ e_addr e + k * PAGE_SIZE < e_addr e + e_len e /\
    p = (e_addr e + k * PAGE_SIZE) / PAGE_SIZE.

(** [MarkPageUsed] with its own bound check, for any index. *)
Lemma MarkPageUsed_any st p :
  pmm_inv st -> 0 <= p ->
  exists st', MarkPageUsed p st = Some st' /\
    updates st st' (fun q u => ((q =? p) && (q <? total_pages st)) || u).
Proof.
  intros I Hp. destruct (decide (p < total_pages st)).
  - destruct (MarkPageUsed_ok st I p) as (st' & H & HU); [lia|]. exists st'. split; [done|].
    eapply updates_ext; [exact HU|]. intros q u _. simpl. destruct (Z.eqb_spec q p) as [->|]; [|done].
    by rewrite (proj2 (Z.ltb_lt _ _)) by lia.
  - exists st. unfold MarkPageUsed. rewrite (proj2 (Z.leb_le _ _)) by lia. split; [done|].
    apply updates_refl; [done|]. intros q. destruct (Z.eqb_spec q p) as [->|]; [|done].
    by rewrite (proj2 (Z.ltb_ge _ _)) by lia.
Qed.

Lemma mark_loop_ok n i st :
  pmm_inv st -> 0 <= i ->
  exists st', mark_loop n i st = Some st' /\
    updates st st' (fun q u => (in_range i (Z.of_nat n) q && (q <? total_pages st)) || u).
Proof.
  revert i st. induction n as [|n IH]; intros i st I Hi; cbn [mark_loop].
  { exists st. split; [done|]. apply updates_refl; [done|]. intros q. unfold in_range.
    destruct (Z.leb_spec i q); simpl; [|done]. by rewrite (proj2 (Z.ltb_ge _ _)) by lia. }
  destruct (MarkPageUsed_any st i I Hi) as (st1 & -> & HU1). cbn [mbind option_bind].
  destruct (IH (i + 1) st1) as (st2 & -> & HU2); [apply HU1|lia|]. exists st2. split; [done|].
  eapply updates_ext; [eapply updates_trans; [exact HU1|exact HU2]|]. intros q u _. simpl.
  rewrite (updates_total _ _ _ HU1). unfold in_range.
  destruct (q <? total_pages st); [|by rewrite !andb_false_r]. rewrite !andb_true_r, orb_assoc. f_equal.
  apply eq_bool_prop_intro.
  rewrite !orb_True, !andb_True, !Is_true_true, !Z.leb_le, !Z.ltb_lt, Z.eqb_eq. lia.
Qed.

Lemma mark_pages_ok from to st :
  pmm_inv st -> 0 <= from ->
  exists st', mark_pages from to st = Some st' /\
    updates st st' (fun q u => (in_range from (to - from) q && (q <? total_pages st)) || u).
Proof.
  intros I Hf. destruct (mark_loop_ok (Z.to_nat (to - from)) from st I Hf) as (st' & H & HU).
  exists st'. split; [done|]. eapply updates_ext; [exact HU|]. intros q u _. simpl.
  f_equal. f_equal. unfold in_range. destruct (decide (from <= to)); [by rewrite Z2Nat.id by lia|].
  destruct (Z.leb_spec from q); [|done]. simpl.
  rewrite !(proj2 (Z.ltb_ge _ _)) by lia. done.
Qed.

(** ** The reserved regions *)
Definition entry_ok (e : mmap_entry) : Prop :=
  0 <= e_addr e /\ 0 <= e_len e /\ e_addr e + e_len e + PAGE_SIZE < 2 ^ 64.

Lemma reserve_loop_ok fuel cur stop st :
  pmm_inv st -> 0 <= cur -> stop + PAGE_SIZE < 2 ^ 64 ->
  stop <= cur + PAGE_SIZE * (Z.of_nat fuel - 1) -> (1 <= fuel)%nat ->
  exists st', reserve_loop fuel cur stop st = Some st' /\ pmm_inv st' /\ words_only st st' /\
    forall q, page_used st' q = true <->
      page_used st q = true \/
      (q < total_pages st /\ exists k, 0 <= k /\ cur + k * PAGE_SIZE < stop /\
         q = (cur + k * PAGE_SIZE) / PAGE_SIZE).
Proof.
  revert cur st. induction fuel as [|f IH]; intros cur st I Hc Hs Hf Hf1; [lia|]. cbn [reserve_loop].
  destruct (Z.ltb_spec cur stop) as [Hlt|Hge].
  2: { exists st. split_and!; [done|done|apply words_only_refl|]. intros q. split; [by left|].
       intros [|(_ & k & Hk & Hk2 & _)]; [done|]. pmem_bounds. lia. }
  assert (H1 : exists st1, (if cur / PAGE_SIZE <? total_pages st then MarkPageUsed (cur / PAGE_SIZE) st
             else Some st) = Some st1 /\
             updates st st1 (fun q u => ((q =? cur / PAGE_SIZE) && (q <? total_pages st)) || u)).
  { assert (0 <= cur / PAGE_SIZE) by (pmem_bounds; dlia). case_if E; [by apply MarkPageUsed_any|].
    zbool. exists st. split; [done|]. apply updates_refl; [done|]. intros q.
    destruct (Z.eqb_spec q (cur / PAGE_SIZE)) as [->|]; [|done]. by rewrite (proj2 (Z.ltb_ge _ _)) by lia. }
  destruct H1 as (st1 & -> & HU). cbn [mbind option_bind].
  rewrite u64_small by (pmem_bounds; lia).
  pose proof HU as (I1 & W1 & P1).
  destruct (IH (cur + PAGE_SIZE) st1) as (st2 & -> & I2 & W2 & P2);
    [done|pmem_bounds; lia|lia|pmem_bounds; lia|pmem_bounds; lia|].
  exists st2. split_and!; [done|done|by eapply words_only_trans|]. intros q.
  rewrite P2, P1, (updates_total _ _ _ HU), orb_true_iff, andb_true_iff, Z.eqb_eq, Z.ltb_lt.
  split.
  - intros [[[-> Hq]|Hq]|(Hq & k & Hk & Hk2 & ->)]; [right; split; [done|]|by left|right; split; [done|]].
    + exists 0. split_and!; [lia|lia|]. by rewrite Z.mul_0_l, Z.add_0_r.
    + exists (k + 1). split_and!; [lia|lia|]. f_equal. lia.
  - intros [Hq|(Hq & k & Hk & Hk2 & ->)]; [left; by right|].
    destruct (decide (k = 0)) as [->|].
    + left. left. split; [f_equal; lia|done].
    + right. split; [done|]. exists (k - 1). split_and!; [lia|lia|f_equal; lia].
Qed.

Lemma reserve_run es st :
  pmm_inv st -> Forall entry_ok es ->
  exists st', run_entries reserve_body es st = Some st' /\ pmm_inv st' /\ words_only st st' /\
    forall q, page_used st' q = true <->
      page_used st q = true \/ (q < total_pages st /\ Exists (fun e => reserved_by e q) es).
Proof.
  intros I HF. revert st I. induction HF as [|e es He _ IH]; intros st I.
  { exists st. split_and!; [done|done|apply words_only_refl|]. intros q. rewrite Exists_nil. tauto. }
  change (run_entries reserve_body (e :: es) st) with
    (foldl (fun os e => s ← os; reserve_body e s) (reserve_body e st) es).
  assert (H1 : exists st1, reserve_body e st = Some st1 /\ pmm_inv st1 /\ words_only st st1 /\
     forall q, page_used st1 q = true <->
       page_used st q = true \/ (q < total_pages st /\ reserved_by e q)).
  { unfold reserve_body, reserved_by. destruct (Z.eqb_spec (e_type e) MULTIBOOT2_MEMORY_AVAILABLE).
    - exists st. split_and!; [done|done|apply words_only_refl|]. intros q. tauto.
    - destruct He as (H1 & H2 & H3). rewrite u64_small by (pmem_bounds; lia).
      destruct (reserve_loop_ok (Z.to_nat (e_len e / PAGE_SIZE + 2)) (e_addr e) (e_addr e + e_len e) st)
        as (st1 & E & I1 & W1 & P1); [done|done|done|pmem_bounds; dlia|pmem_bounds; dlia|].
      exists st1. split_and!; [done..|]. intros q. rewrite P1. tauto. }
  destruct H1 as (st1 & -> & I1 & W1 & P1). destruct (IH st1 I1) as (st2 & E2 & I2 & W2 & P2).
  exists st2. split_and!; [done|done|by eapply words_only_trans|]. intros q.
  rewrite P2, P1, (words_only_total _ _ W1), Exists_cons. tauto.
Qed.

(** The zeroed bitmap is well formed. *)
Lemma init_inv ptr total hint wm a f h :
  ptr <> 0 -> 0 <= total <= MAX_PAGES -> 0 <= hint < 2 ^ 64 ->
  let st := mk_pmm ptr (replicate (Z.to_nat (init_words total)) 0) (init_words total) total 0 hint wm a f 0 h in
  pmm_inv st /\ forall q, page_used st q = false.
Proof.
  intros Hp Ht Hh st.
  assert (Hw : init_words total = (total + 63) / 64).
  { unfold init_words. rewrite u64_small; [done|pmem_bounds; lia]. }
  assert (HB : forall q, bm_bit (bitmap st) q = false).
  { intros q. unfold bm_bit, arr_get. destruct (0 <=? q / 64); [|done].
    destruct (bitmap st !! Z.to_nat (q / 64)) eqn:E; [|done].
    apply lookup_replicate in E as [-> _]. apply Z.bits_0. }
  split; [|done]. constructor; simpl; try done.
  - rewrite length_replicate. rewrite Z2Nat.id; [done|]. rewrite Hw. dlia.
  - apply Forall_replicate. lia.
  - clear. induction (Z.to_nat (init_words total)) as [|n IH]; [done|]. simpl. rewrite <-IH. done.
  - apply list.Forall_forall. intros q _. apply HB.
Qed.

(** * The fragmentation statistics of [GetDetailedMemoryStats] ([src/mm/PMem.c]) against a definition of free runs that does not mention the loop. *)
(** Pages [s .. s+c-1] above the first megabyte and below [top] are all free. *)
Definition free_run (st : pmm) (top s c : Z) : Prop :=
  0 < c /\ lowmem_pages <= s /\ s + c <= top /\ forall q, s <= q < s + c -> page_used st q = false.

(** Page [i] starts a maximal free run. *)
Definition run_start (st : pmm) (i : Z) : bool :=
  negb (page_used st i) && ((i =? lowmem_pages) || page_used st (i - 1)).
Definition n_runs (st : pmm) (top : Z) : Z :=
  Z.of_nat (length (filter (fun i => run_start st i = true) (seqZ lowmem_pages (top - lowmem_pages)))).

Lemma n_runs_step st i :
  lowmem_pages <= i -> n_runs st (i + 1) = n_runs st i + Z.b2z (run_start st i).
Proof.
  intros Hi. unfold n_runs. replace (i + 1 - lowmem_pages) with ((i - lowmem_pages) + 1) by lia.
  rewrite seqZ_app by lia. rewrite list.filter_app, length_app, Nat2Z.inj_add. f_equal.
  replace (lowmem_pages + (i - lowmem_pages)) with i by lia.
  change (seqZ i 1) with [Z.of_nat 0 + i]. rewrite Z.add_0_l, filter_cons, filter_nil.
  by destruct (run_start st i).
Qed.

Lemma n_runs_range st i : lowmem_pages <= i -> 0 <= n_runs st i <= i - lowmem_pages.
Proof.
  intros Hi. unfold n_runs. split; [lia|].
  pose proof (length_filter (fun j => run_start st j = true) (seqZ lowmem_pages (i - lowmem_pages))).
  rewrite length_seqZ in *. lia.
Qed.

(** What the loop's counters mean before page [i] is looked at. *)
Record frag_ok (st : pmm) (i : Z) (f : frag) : Prop := {
  fo_cur : 0 <= current_fragment f <= i - lowmem_pages;
  fo_tail : forall q, i - current_fragment f <= q < i -> page_used st q = false;
  fo_edge : i - current_fragment f = lowmem_pages \/ page_used st (i - current_fragment f - 1) = true;
  fo_large : 0 <= largest_fragment f <= i - lowmem_pages;
  fo_attained : largest_fragment f = 0 \/ exists s, free_run st i s (largest_fragment f);
  fo_bound : forall s c, free_run st i s c -> c <= Z.max (largest_fragment f) (current_fragment f);
  fo_count : free_fragments f = n_runs st i - (if 0 <? current_fragment f then 1 else 0)
}.

Section frag.
Context (st : pmm) (I : pmm_inv st) (i : Z) (Hi : lowmem_pages <= i <= MAX_PAGES).

Lemma free_run_grow s c : free_run st i s c -> free_run st (i + 1) s c.
Proof using Type. intros (H1 & H2 & H3 & H4). split_and!; (done || lia). Qed.

Lemma frag_ok_free f :
  frag_ok st i f -> page_used st i = false -> frag_ok st (i + 1) (frag_step true f).
Proof using Hi.
  intros [C1 C2 C3 C4 C5 C6 C7] Hf. unfold frag_step. pmem_bounds.
  rewrite (u64_small (current_fragment f + 1)) by lia.
  constructor; simpl; pmem_bounds; try lia.
  - intros q Hq. destruct (decide (q = i)) as [->|]; [done|]. apply C2. lia.
  - replace (i + 1 - (current_fragment f + 1)) with (i - current_fragment f) by lia. done.
  - destruct C5 as [|[s Hs]]; [by left|]. right. exists s. by apply free_run_grow.
  - intros s c (H1 & H2 & H3 & H4). destruct (decide (s + c <= i)).
    + assert (c <= Z.max (largest_fragment f) (current_fragment f)); [|lia].
      apply (C6 s c). split_and!; (done || lia).
    + destruct (decide (c <= current_fragment f + 1)); [lia|]. exfalso.
      pmem_bounds. destruct C3 as [|C3]; [lia|]. rewrite H4 in C3; [done|lia].
  - rewrite n_runs_step by (pmem_bounds; lia). rewrite (proj2 (Z.ltb_lt 0 _)) by lia.
    unfold run_start. rewrite Hf. simpl. pmem_bounds.
    destruct (Z.ltb_spec 0 (current_fragment f)).
    + rewrite (proj2 (Z.eqb_neq i 256)) by lia. rewrite (C2 (i - 1)) by lia. simpl. lia.
    + replace (i - current_fragment f) with i in C3 by lia.
      destruct C3 as [->|C3]; [simpl; lia|]. rewrite C3, orb_true_r. simpl. lia.
Qed.

(** Closing a run: what it contributes to the largest run and the count. *)
Lemma frag_close_ok f :
  frag_ok st i f ->
  let g := frag_close f in
  current_fragment g = 0 /\ free_fragments g = n_runs st i /\
  largest_fragment g = Z.max (largest_fragment f) (current_fragment f) /\
  (largest_fragment g = 0 \/ exists s, free_run st i s (largest_fragment g)).
Proof using Hi.
  intros [C1 C2 C3 C4 C5 C6 C7]. pose proof (n_runs_range st i ltac:(lia)). pmem_bounds.
  unfold frag_close. destruct (Z.ltb_spec 0 (current_fragment f)); simpl.
  - rewrite C7. split_and!; [done|wsimp; lia|case_if E; zbool; lia|].
    case_if E; zbool; [right|done]. exists (i - current_fragment f). split_and!; pmem_bounds; try lia.
    intros q Hq. apply C2. lia.
  - split_and!; [lia|lia|lia|done].
Qed.

Lemma frag_ok_used f :
  frag_ok st i f -> page_used st i = true -> frag_ok st (i + 1) (frag_step false f).
Proof using Hi.
  intros Hok Hu. destruct (frag_close_ok f Hok) as (G1 & G2 & G3 & G4).
  destruct Hok as [C1 C2 C3 C4 C5 C6 C7]. unfold frag_step.
  constructor; rewrite ?G1; pmem_bounds; try lia.
  - right. by replace (i + 1 - 0 - 1) with i by lia.
  - destruct G4 as [|[s Hs]]; [by left|]. right. exists s. by apply free_run_grow.
  - intros s c (H1 & H2 & H3 & H4). rewrite G3.
    assert (s + c <= i).
    { destruct (decide (s + c <= i)); [done|]. rewrite H4 in Hu; [done|]. lia. }
    assert (c <= Z.max (largest_fragment f) (current_fragment f)); [|lia].
    apply (C6 s c). split_and!; (done || lia).
  - rewrite n_runs_step by (pmem_bounds; lia). unfold run_start. rewrite Hu. simpl. lia.
Qed.
End frag.

Lemma frag_loop_ok n i st f :
  pmm_inv st -> lowmem_pages <= i -> i + Z.of_nat n <= total_pages st -> frag_ok st i f ->
  exists g, frag_loop n i st f = Some g /\ frag_ok st (i + Z.of_nat n) g.
Proof.
  intros I. pose proof (inv_total st I). revert i f.
  induction n as [|n IH]; intros i f Hi Hn Hf; cbn [frag_loop].
  { exists f. split; [done|]. by rewrite Z.add_0_r. }
  rewrite (IsPageFree_ok st I i) by (pmem_bounds; lia). cbn [mbind option_bind].
  destruct (IH (i + 1) (frag_step (negb (page_used st i)) f)) as (g & -> & Hg); [lia|lia| |].
  { destruct (page_used st i) eqn:E; simpl;
      [apply frag_ok_used|apply frag_ok_free]; (done || lia). }
  exists g. split; [done|]. by replace (i + Z.of_nat (S n)) with (i + 1 + Z.of_nat n) by lia.
Qed.

(** The loop over all pages above the first megabyte. *)
Lemma frag_scan_ok st :
  pmm_inv st ->
  let top := Z.max lowmem_pages (total_pages st) in
  exists f, frag_loop (Z.to_nat (total_pages st - lowmem_pages)) lowmem_pages st (mk_frag 0 0 0) = Some f /\
    frag_ok st top f.
Proof.
  intros I top.
  assert (H0 : frag_ok st lowmem_pages (mk_frag 0 0 0)).
  { constructor; simpl;
      [pmem_bounds; lia|intros; lia|left; lia|pmem_bounds; lia|by left| |].
    - intros s c (H1 & H2 & H3 & _). lia.
    - unfold n_runs. by rewrite Z.sub_diag. }
  destruct (decide (lowmem_pages <= total_pages st)).
  - destruct (frag_loop_ok (Z.to_nat (total_pages st - lowmem_pages)) lowmem_pages st _ I ltac:(lia)
      ltac:(lia) H0) as (g & Hg & HG). exists g. split; [done|].
    by replace top with (lowmem_pages + Z.of_nat (Z.to_nat (total_pages st - lowmem_pages))) by lia.
  - replace (Z.to_nat _) with 0%nat by lia. exists (mk_frag 0 0 0). split; [done|].
    by replace top with lowmem_pages by lia.
Qed.
