(* ===== verification/PMemProps.v ===== *)
(** Properties of the page allocator ([src/mm/PMem.c]), with witnesses on a
    machine of 1088 pages whose first megabyte is reserved. *)
From Stdlib Require Import ZArith Lia.
From stdpp Require Import base tactics list gmap sets numbers.
From S2P Require Import Prelude PMem PMemInv PMemOps PMemThms PageAlloc PMemInit.

(** A small machine: pages 0..255 in use, 256..1087 free. *)
Definition small_machine : pmm :=
  mk_pmm 0x1000000 (replicate 4 ones64 ++ replicate 13 0) 17 1088 256 256 0 0 0 0 0.
Lemma small_machine_ok : pmm_inv small_machine.
Proof. apply pmm_check_sound. vm_compute. reflexivity. Qed.

(** C1. AllocPage never faults and keeps the allocator well formed.  It returns the
    address of a page above the first megabyte that was free and is now the only page
    added to the used set, or NULL with the used set unchanged; NULL means that all
    but one page are in use or that no page above the first megabyte is free. *)
Theorem AllocPage_correct st :
  pmm_inv st ->
  exists addr st', AllocPage st = Some (addr, st') /\ pmm_inv st' /\
    ((addr = 0 /\ used_set st' = used_set st /\
      allocation_failures st' = allocation_failures st +! 1 /\
      (total_pages st - 1 <= used_pages st \/
       forall p, lowmem_pages <= p < total_pages st -> p ∈ used_set st)) \/
     (exists p, addr = p * PAGE_SIZE /\ lowmem_pages <= p < total_pages st /\ (p ∉ used_set st) /\
        used_set st' = {[p]} ∪ used_set st /\ allocation_count st' = allocation_count st +! 1)).
Proof. apply AllocPage_cases. Qed.
Lemma AllocPage_correct_witness :
  pmm_inv small_machine /\
  exists addr st', AllocPage small_machine = Some (addr, st') /\ pmm_inv st'.
Proof.
  split; [exact small_machine_ok|].
  destruct (AllocPage_correct small_machine small_machine_ok) as (a & s & H & I & _).
  exists a, s. split; [exact H|exact I].
Defined.

(** C2. FreePage never faults and keeps the allocator well formed.  It removes exactly
    the page from the used set when the address is non-NULL, page aligned, in range and
    in use, counting the free and moving the search hint down to it; on NULL, an
    unaligned address, an address out of range or a double free it changes nothing. *)
Theorem FreePage_correct st addr :
  pmm_inv st -> 0 <= addr < 2 ^ 64 ->
  exists st', FreePage addr st = Some st' /\ pmm_inv st' /\
    if freeable addr st
    then used_set st' = used_set st ∖ {[addr / PAGE_SIZE]} /\ free_count st' = free_count st +! 1 /\
         next_free_hint st' <= addr / PAGE_SIZE
    else st' = st.
Proof. apply FreePage_cases. Qed.
Lemma FreePage_correct_witness :
  exists st', FreePage (100 * 4096) small_machine = Some st' /\ pmm_inv st' /\
    used_set st' = used_set small_machine ∖ {[100]}.
Proof.
  destruct (FreePage_correct small_machine (100 * 4096) small_machine_ok) as (s & H & I & HC); [lia|].
  exists s. split; [exact H|]. split; [exact I|]. apply (proj1 HC).
Defined.

(** C3. AllocHugePages (for a request of 1 to 2^53 huge pages) never faults, its
    search ends, and it keeps the allocator well formed: it returns the 2 MB aligned
    address of a run of free pages, now all in use and disjoint from what was in use,
    or NULL when no 2 MB aligned run of that length above the first megabyte is free. *)
Theorem AllocHugePages_correct st num :
  pmm_inv st -> 0 < num <= 2 ^ 53 ->
  exists addr st', AllocHugePages num st = Some (addr, st') /\ pmm_inv st' /\
    ((addr = 0 /\ used_set st' = used_set st /\
      allocation_failures st' = allocation_failures st +! 1 /\
      forall k, 1 <= k -> 512 * k + num * 512 <= total_pages st ->
        ~ used_set st ## range_set (512 * k) (num * 512)) \/
     (exists k, 1 <= k /\ addr = k * HUGE_PAGE_SIZE /\ 512 * k + num * 512 <= total_pages st /\
        used_set st ## range_set (512 * k) (num * 512) /\
        used_set st' = used_set st ∪ range_set (512 * k) (num * 512) /\
        huge_pages_allocated st' = huge_pages_allocated st +! 1)).
Proof. apply AllocHugePages_cases. Qed.
Lemma AllocHugePages_correct_witness :
  exists addr st', AllocHugePages 1 small_machine = Some (addr, st') /\ pmm_inv st'.
Proof.
  destruct (AllocHugePages_correct small_machine 1 small_machine_ok) as (a & s & H & I & _); [lia|].
  exists a, s. split; [exact H|exact I].
Defined.

(** FreeHugePages never faults and keeps the allocator well formed: exactly the
    pages of the 2 MB aligned run leave the used set when the run lies inside memory;
    NULL, a count of zero, an unaligned address and a run out of range change nothing. *)
Theorem FreeHugePages_correct st addr num :
  pmm_inv st -> 0 <= addr < 2 ^ 64 -> 0 <= num <= 2 ^ 53 ->
  exists st', FreeHugePages addr num st = Some st' /\ pmm_inv st' /\
    if huge_freeable addr num st
    then used_set st' = used_set st ∖ range_set (addr / PAGE_SIZE) (num * 512)
    else st' = st.
Proof. apply FreeHugePages_cases. Qed.
Lemma FreeHugePages_correct_witness :
  exists st', FreeHugePages (512 * 4096) 1 small_machine = Some st' /\ pmm_inv st' /\
    used_set st' = used_set small_machine ∖ range_set 512 512.
Proof.
  destruct (FreeHugePages_correct small_machine (512 * 4096) 1 small_machine_ok) as (s & H & I & HC);
    [lia|lia|]. exists s. split; [exact H|]. split; [exact I|exact HC].
Defined.

(** C5. Whatever sequence of page and huge-page allocations and frees a client makes,
    provided it frees only blocks it holds, no call faults the allocator's invariant and
    the blocks it holds are in use and pairwise disjoint: no page is handed out twice. *)
Theorem allocator_no_overlap (st : pmm) (c : pmm * list block) :
  pmm_inv st -> rtc client_step (st, []) c ->
  pmm_inv c.1 /\ Forall (fun b => blk_pages b ⊆ used_set c.1) c.2 /\
  forall i j b1 b2, c.2 !! i = Some b1 -> c.2 !! j = Some b2 -> i <> j -> blk_pages b1 ## blk_pages b2.
Proof.
  intros I Hr. assert (H0 : held_ok (st, [])) by (split_and!; simpl; [exact I|constructor..|done]).
  destruct (client_steps_ok _ _ H0 Hr) as (H1 & _ & H3 & H4). split_and!; [exact H1|exact H3|exact H4].
Qed.
Lemma allocator_no_overlap_witness :
  exists c, rtc client_step (small_machine, []) c /\ c.2 <> [] /\ pmm_inv c.1.
Proof.
  assert (E : exists s, AllocPage small_machine = Some (256 * 4096, s)) by (eexists; vm_compute; reflexivity).
  destruct E as [s E].
  assert (Hr : rtc client_step (small_machine, []) (s, [Small 256])).
  { apply rtc_once. apply cs_alloc; [exact E|lia]. }
  exists (s, [Small 256]). split; [exact Hr|]. split; [discriminate|].
  exact (proj1 (allocator_no_overlap small_machine _ small_machine_ok Hr)).
Defined.

(** The used-page counter is exact: GetFreeMemory returns 4096 times the number of
    pages whose bit is clear. *)
Theorem GetFreeMemory_exact st :
  pmm_inv st ->
  GetFreeMemory st =
  4096 * Z.of_nat (length (filter (fun p => page_used st p = false) (seqZ 0 (total_pages st)))).
Proof.
  intros I. unfold GetFreeMemory. pose proof (used_set_size st I) as HS. unfold used_set in HS.
  rewrite size_list_to_set in HS by (apply list.NoDup_filter, NoDup_seqZ).
  pose proof (inv_total st I).
  assert (HL : (length (filter (fun p => page_used st p = true) (seqZ 0 (total_pages st))) +
     length (filter (fun p => page_used st p = false) (seqZ 0 (total_pages st))) =
     length (seqZ 0 (total_pages st)))%nat).
  { generalize (seqZ 0 (total_pages st)). induction l as [|p l IH]; [done|].
    rewrite !filter_cons. destruct (page_used st p); simpl in *; lia. }
  rewrite length_seqZ in HL. pmem_bounds. wsimp. lia.
Qed.
Lemma GetFreeMemory_exact_witness : GetFreeMemory small_machine = 832 * 4096.
Proof.
  rewrite (GetFreeMemory_exact small_machine small_machine_ok). vm_compute. reflexivity.
Defined.

(** The word-wise range test agrees with the page-wise one: for a non-empty range
    inside memory, RangeIsFree answers true exactly when IsPageFree does for every page. *)
Theorem RangeIsFree_equiv st s c :
  pmm_inv st -> 0 <= s -> 0 < c -> s + c <= total_pages st ->
  RangeIsFree s c st = Some (forallb (fun q => bool_decide (IsPageFree q st = Some true)) (seqZ s c)).
Proof.
  intros I Hs Hc Ht. destruct (RangeIsFree_ok st I s c Hs Hc Ht) as (b & -> & HB). f_equal.
  apply eq_true_iff_eq. rewrite HB, forallb_forall. split.
  - intros H q Hq%list_elem_of_In%elem_of_seqZ. apply bool_decide_eq_true.
    rewrite IsPageFree_ok by (done || lia). rewrite H; [done|]. unfold in_range.
    by rewrite (proj2 (Z.leb_le _ _)), (proj2 (Z.ltb_lt _ _)) by lia.
  - intros H q Hq. unfold in_range in Hq. zbool. specialize (H q).
    rewrite IsPageFree_ok in H by (done || lia). destruct (page_used st q); [|done].
    exfalso. assert (HF : bool_decide (Some (negb true) = Some true) = true).
    { apply H, list_elem_of_In, elem_of_seqZ. lia. }
    by apply bool_decide_eq_true in HF.
Qed.
Lemma RangeIsFree_equiv_witness : RangeIsFree 300 200 small_machine = Some true.
Proof.
  rewrite (RangeIsFree_equiv small_machine 300 200 small_machine_ok) by (vm_compute; congruence).
  vm_compute. reflexivity.
Defined.

(** GetDetailedMemoryStats never faults and reports exact figures: the largest free
    block is the longest run of free pages above the first megabyte (zero when there is
    none), and the fragmentation score is 100 times the number of maximal free runs over
    a tenth of the free pages plus one, capped at 100, and 0 when no page is free. *)
Theorem GetDetailedMemoryStats_correct st :
  pmm_inv st ->
  exists stats L, GetDetailedMemoryStats st = Some stats /\
    largest_free_block stats = L * PAGE_SIZE /\ 0 <= L /\
    (L = 0 \/ exists s, free_run st (total_pages st) s L) /\
    (forall s c, free_run st (total_pages st) s c -> c <= L) /\
    0 <= fragmentation_score stats <= 100 /\
    (used_pages st < total_pages st ->
     fragmentation_score stats =
       Z.min 100 (n_runs st (Z.max lowmem_pages (total_pages st)) * 100 /
                  ((total_pages st - used_pages st) / 10 + 1))) /\
    used_physical_bytes stats = used_pages st * PAGE_SIZE.
Proof.
  intros I. destruct (frag_scan_ok st I) as (f & Hf & Hok). unfold GetDetailedMemoryStats.
  rewrite Hf. cbn [mbind option_bind]. set (top := Z.max lowmem_pages (total_pages st)) in *.
  pose proof (inv_total st I) as HT. pose proof (inv_used_range st I) as HU.
  assert (Ht : lowmem_pages <= top <= MAX_PAGES) by (subst top; pmem_bounds; lia).
  destruct (frag_close_ok st top Ht f Hok) as (_ & G2 & G3 & G4).
  pose proof (n_runs_range st top ltac:(lia)) as HN. destruct Hok as [C1 _ _ C4 _ C6 _].
  set (g := frag_close f) in *. clearbody g.
  assert (Hrun : forall s c, free_run st (total_pages st) s c -> free_run st top s c).
  { intros s c (H1 & H2 & H3 & H4). split_and!; (done || lia). }
  eexists _, (largest_fragment g). split; [reflexivity|]. simpl.
  assert (Hle : largest_fragment g <= 33554432) by (pmem_bounds; lia).
  assert (0 <= largest_fragment g) by (pmem_bounds; lia).
  split_and!; try done.
  - pmem_bounds. wsimp. done.
  - destruct G4 as [|[s (H1 & H2 & H3 & H4)]]; [by left|]. right. exists s.
    split_and!; try done. subst top. pmem_bounds. lia.
  - intros s c Hr. rewrite G3. by apply (C6 s c), Hrun.
  - case_if E; [|lia]. case_if E2; zbool; [lia|]. apply Z.div_pos; [apply u64_range|].
    pose proof (Z.div_pos (total_pages st -! used_pages st) 10 ltac:(lia) ltac:(lia)). lia.
  - case_if E; [|lia]. case_if E2; zbool; lia.
  - intros Hlt. rewrite (u64_small (total_pages st - used_pages st)) by (pmem_bounds; lia).
    rewrite (proj2 (Z.ltb_lt _ _)) by lia. rewrite G2.
    rewrite (u64_small (n_runs st top * 100)) by (pmem_bounds; lia).
    case_if E2; zbool; lia.
  - pmem_bounds. wsimp. done.
Qed.
Lemma GetDetailedMemoryStats_correct_witness :
  exists stats, GetDetailedMemoryStats small_machine = Some stats /\ 0 <= fragmentation_score stats <= 100.
Proof.
  destruct (GetDetailedMemoryStats_correct small_machine small_machine_ok)
    as (s & L & H & _ & _ & _ & _ & HS & _). exists s. split; [exact H|exact HS].
Defined.

(** With length 0 the last bit is 511, before the first bit 512. *)
Lemma RangeIsFree_zero st :
  512 <= total_pages st -> (forall w, 7 <= w <= 8 -> arr_get (bitmap st) w = Some 0) ->
  RangeIsFree 512 0 st = Some true.
Proof.
  intros Ht HZ. unfold RangeIsFree. cbv zeta. change (512 +! 0) with 512.
  rewrite (proj2 (Z.ltb_ge _ _)) by lia. change (512 -! 1) with 511.
  change (512 / 64) with 8. change (511 / 64) with 7. change (8 =? 7) with false.
  change (Z.to_nat (7 - (8 + 1))) with 0%nat. rewrite (HZ 8), (HZ 7) by lia. reflexivity.
Qed.

Lemma RangeSetUsed_zero st :
  pmm_inv st -> 576 <= total_pages st ->
  exists st', RangeSetUsed 512 0 st = Some st' /\ updates st st' (fun q u => u || in_range 448 128 q).
Proof.
  intros I Ht. pose proof (inv_words_bound st I) as HW.
  unfold RangeSetUsed. cbv zeta. change (512 +! 0 -! 1) with 511.
  change (512 / 64) with 8. change (511 / 64) with 7. change (8 =? 7) with false.
  change (512 mod 64) with 0. change (511 mod 64) with 63. change (Z.to_nat (7 - (8 + 1))) with 0%nat.
  cbn iota.
  destruct (word_set_ok st I 8 (mask_from 0)) as (st1 & -> & HU1);
    [lia|apply mask_from_range|intros b Hb Hb2; lia|]. cbn [mbind option_bind words_set].
  destruct (word_set_ok st1 (proj1 HU1) 7 (mask_to 63)) as (st2 & -> & HU2).
  { rewrite (updates_words _ _ _ HU1). lia. }
  { by apply mask_to_range. }
  { rewrite (updates_total _ _ _ HU1). intros b Hb Hb2. lia. }
  exists st2. split; [reflexivity|].
  eapply updates_ext; [eapply updates_trans; [exact HU1|exact HU2]|]. intros q u _. simpl.
  rewrite <-orb_assoc. f_equal. rewrite testbit_mask_from, testbit_mask_to by dlia.
  unfold in_range. apply eq_bool_prop_intro.
  rewrite !orb_True, !andb_True, !Is_true_true, !Z.leb_le, !Z.ltb_lt, !Z.eqb_eq. dlia.
Qed.

(** A request for zero huge pages is not a no-op: on a machine whose pages 448..575
    are free, AllocHugePages(0) returns the address of page 512 and marks those 128 pages
    used (the length 0 wraps to a range that ends before it starts). *)
Theorem AllocHugePages_zero st :
  pmm_inv st -> 576 <= total_pages st ->
  (forall q, 448 <= q < 576 -> page_used st q = false) ->
  exists st', AllocHugePages 0 st = Some (512 * PAGE_SIZE, st') /\
    used_set st' = used_set st ∪ range_set 448 128.
Proof.
  intros I Ht Hfree. pose proof (inv_words_bound st I) as HW. pose proof (inv_total st I) as HT.
  assert (HZ : forall w, 7 <= w <= 8 -> arr_get (bitmap st) w = Some 0).
  { intros w Hw. destruct (inv_get st I w) as (v & Hv & Hr); [lia|]. rewrite Hv. f_equal.
    apply bits_ext. intros i Hi. rewrite Z.bits_0.
    destruct (decide (i < 64)); [|apply (testbit_ge v i 64); lia].
    rewrite <-(bm_bit_at _ _ _ i Hv) by lia. apply Hfree. lia. }
  unfold AllocHugePages. change (HUGE_PAGE_ALIGN_UP 0x100000 / PAGE_SIZE) with 512.
  change (0 *! pages_per_huge) with 0.
  assert (HF : huge_fuel st = S (Nat.pred (huge_fuel st))) by (unfold huge_fuel; pmem_bounds; dlia).
  rewrite HF. cbn [huge_scan]. change (512 +! 0) with 512. rewrite (proj2 (Z.leb_le _ _)) by lia.
  rewrite RangeIsFree_zero by (done || lia). cbn [mbind option_bind].
  destruct (RangeSetUsed_zero st I Ht) as (st2 & -> & HU). cbn [mbind option_bind].
  eexists. split; [reflexivity|]. rewrite <-(updates_set_range st st2 448 128 I HU).
  apply same_pages_set. split_and!; by case_if E.
Qed.
Lemma AllocHugePages_zero_witness :
  exists st', AllocHugePages 0 small_machine = Some (512 * PAGE_SIZE, st') /\
    used_set st' = used_set small_machine ∪ range_set 448 128.
Proof.
  apply (AllocHugePages_zero small_machine small_machine_ok); [vm_compute; congruence|].
  assert (H : forallb (fun q => negb (page_used small_machine q)) (seqZ 448 128) = true)
    by (vm_compute; reflexivity).
  rewrite forallb_forall in H. intros q Hq. apply negb_true_iff, H, list_elem_of_In, elem_of_seqZ. lia.
Defined.

(** ** Initialisation *)

(** The pages [MemoryInit] reserves on a machine with memory map [es]. *)
Definition init_reserved (es : list mmap_entry) (mb mb_size ks ke q : Z) : Prop :=
  0 <= q < lowmem_pages \/
  BITMAP_START <= q * PAGE_SIZE < BITMAP_START + 8 * init_words (init_total (max_end es)) \/
  ks / PAGE_SIZE <= q < (ke + PAGE_SIZE - 1) / PAGE_SIZE \/
  mb / PAGE_SIZE <= q < u32 (mb + mb_size + PAGE_SIZE - 1) / PAGE_SIZE \/
  Exists (fun e => reserved_by e q) es.

Lemma init_total_range m : 0 <= init_total m <= MAX_PAGES.
Proof.
  unfold init_total. pose proof (u64_range (u64 (m + PAGE_SIZE) - 1)). pmem_bounds.
  case_if E; zbool; [lia|]. split; [|lia]. apply Z.div_pos; lia.
Qed.

Lemma bitmap_pages total q :
  0 <= total <= MAX_PAGES ->
  in_range (BITMAP_START / PAGE_SIZE)
    ((BITMAP_START +! init_words total *! 8 +! PAGE_SIZE -! 1) / PAGE_SIZE - BITMAP_START / PAGE_SIZE) q = true
  <-> BITMAP_START <= q * PAGE_SIZE < BITMAP_START + 8 * init_words total.
Proof.
  intros Ht. unfold in_range, init_words. rewrite andb_true_iff, Z.leb_le, Z.ltb_lt.
  change BITMAP_START with 16777216. pmem_bounds.
  rewrite (u64_small (total + 63)) by lia.
  assert (0 <= (total + 63) / 64 <= 524288) by dlia.
  set (w := (total + 63) / 64) in *. wsimp. dlia.
Qed.

(** The reservations after the map: low memory, the bitmap, the kernel, the boot information. *)
Lemma init_marks st mb mb_size ks ke :
  pmm_inv st -> 0 <= ks -> 0 <= ke -> ke + PAGE_SIZE < 2 ^ 64 -> 0 <= mb ->
  exists st', reserve_fixed (init_words (total_pages st)) mb mb_size ks ke st = Some st' /\
    pmm_inv st' /\ total_pages st' = total_pages st /\
    forall q, page_used st' q = true <-> page_used st q = true \/ (q < total_pages st /\
      (0 <= q < lowmem_pages \/
       BITMAP_START <= q * PAGE_SIZE < BITMAP_START + 8 * init_words (total_pages st) \/
       ks / PAGE_SIZE <= q < (ke + PAGE_SIZE - 1) / PAGE_SIZE \/
       mb / PAGE_SIZE <= q < u32 (mb + mb_size + PAGE_SIZE - 1) / PAGE_SIZE)).
Proof.
  intros I Hks Hke Hke2 Hmb. pose proof (inv_total st I) as HT. unfold reserve_fixed. cbv zeta.
  destruct (mark_pages_ok 0 lowmem_pages st I ltac:(lia)) as (st3 & -> & HU3). cbn [mbind option_bind].
  destruct (mark_pages_ok (BITMAP_START / PAGE_SIZE)
    ((BITMAP_START +! init_words (total_pages st) *! 8 +! PAGE_SIZE -! 1) / PAGE_SIZE) st3 (proj1 HU3))
    as (st4 & -> & HU4); [by vm_compute|]. cbn [mbind option_bind].
  destruct (mark_pages_ok (ks / PAGE_SIZE) ((ke +! PAGE_SIZE -! 1) / PAGE_SIZE) st4 (proj1 HU4))
    as (st5 & -> & HU5); [pmem_bounds; dlia|]. cbn [mbind option_bind].
  destruct (mark_pages_ok (mb / PAGE_SIZE) (u32 (mb + mb_size + PAGE_SIZE - 1) / PAGE_SIZE) st5 (proj1 HU5))
    as (st6 & -> & HU6); [pmem_bounds; dlia|].
  pose proof (updates_total _ _ _ HU3) as T3. pose proof (updates_total _ _ _ HU4) as T4.
  pose proof (updates_total _ _ _ HU5) as T5. pose proof (updates_total _ _ _ HU6) as T6.
  exists st6. split_and!; [done|apply HU6|congruence|]. intros q.
  destruct HU6 as (_ & _ & ->). destruct HU5 as (_ & _ & ->). destruct HU4 as (_ & _ & ->).
  destruct HU3 as (_ & _ & ->). rewrite T5, T4, T3.
  rewrite !orb_true_iff, !andb_true_iff, !Z.ltb_lt, (bitmap_pages _ _ HT).
  unfold in_range. rewrite !andb_true_iff, !Z.leb_le, !Z.ltb_lt.
  replace (ke +! PAGE_SIZE -! 1) with (ke + PAGE_SIZE - 1) by (pmem_bounds; wsimp; lia).
  rewrite !Zplus_minus. tauto.
Qed.

(** C10. MemoryInit on a well-formed Multiboot2 map: it sizes memory by the highest end
    of an available region (capped), fails with -1 exactly when the bitmap does not fit
    below that limit, and otherwise returns 0 in a well-formed allocator state in which a
    page is in use exactly when it lies in the first megabyte, the bitmap, the kernel
    image, the boot information or is marked for a reserved entry of the map. *)
Theorem MemoryInit_correct mem fuel mb ks ke st es :
  mb_entries mem fuel mb = Some es -> Forall entry_ok es -> 0 <= next_free_hint st < 2 ^ 64 ->
  0 <= mb -> 0 <= ks -> 0 <= ke -> ke + PAGE_SIZE < 2 ^ 64 ->
  let total := init_total (max_end es) in
  exists r st', MemoryInit mem fuel mb ks ke st = Some (r, st') /\ total_pages st' = total /\
    if init_fits total
    then r = 0 /\ pmm_inv st' /\
         forall q, page_used st' q = true <->
           q < total /\ init_reserved es mb (load32 mem mb) ks ke q
    else r = -1.
Proof.
  intros Hes HF Hh Hmb Hks Hke Hke2 total. unfold MemoryInit, init_reserved.
  rewrite (walk_entries mem max_body fuel mb es 0 Hes), max_body_run. cbn [mbind option_bind].
  fold (max_end es). fold total. pose proof (init_total_range (max_end es)) as HT. fold total in HT.
  clearbody total.
  destruct (init_fits total) eqn:Hfit; cbn [negb].
  2: { eexists _, _. split; [reflexivity|]. done. }
  destruct (init_inv BITMAP_START total (next_free_hint st) (low_memory_watermark st)
    (allocation_count st) (free_count st) (huge_pages_allocated st)) as (I1 & HZ);
    [by vm_compute|done|done|].
  rewrite (walk_entries mem reserve_body fuel mb es _ Hes).
  destruct (reserve_run es _ I1 HF) as (st2 & -> & I2 & W2 & P2). cbn [mbind option_bind].
  pose proof (words_only_total _ _ W2) as T2. cbn [total_pages] in T2.
  destruct (init_marks st2 mb (load32 mem mb) ks ke I2 Hks Hke Hke2 Hmb) as (st6 & HM & I6 & T6 & P6).
  rewrite T2 in HM. rewrite HM. cbn [mbind option_bind]. exists 0, st6. split; [reflexivity|].
  split; [congruence|]. split_and!; [done|done|]. intros q.
  rewrite P6, P2, T2. cbn [total_pages].
  rewrite HZ. split; [intros [[|]|]; [done|tauto|tauto]|tauto].
Qed.

(** A boot map for the witnesses: available memory up to 1 MB and from 1 MB + 64 KB to
    17 MB, and a reserved region of 4 KB at 1 MB + 3 KB; 1 MB + 7 KB to 1 MB + 64 KB is in
    no entry. *)
Definition boot_bytes : list Z :=
  [112; 0; 0; 0; 0; 0; 0; 0;
   6; 0; 0; 0; 88; 0; 0; 0; 24; 0; 0; 0; 0; 0; 0; 0;
   0; 0; 0; 0; 0; 0; 0; 0;  0; 0; 0x10; 0; 0; 0; 0; 0;  1; 0; 0; 0; 0; 0; 0; 0;
   0; 0xC; 0x10; 0; 0; 0; 0; 0;  0; 0x10; 0; 0; 0; 0; 0; 0;  2; 0; 0; 0; 0; 0; 0; 0;
   0; 0; 0x11; 0; 0; 0; 0; 0;  0; 0; 0xFF; 0; 0; 0; 0; 0;  1; 0; 0; 0; 0; 0; 0; 0;
   0; 0; 0; 0; 8; 0; 0; 0].
Definition boot_mem (a : Z) : Z := default 0 (arr_get boot_bytes (a - 0x10000)).
Definition boot_entries : list mmap_entry :=
  [mk_entry 0 0x100000 1; mk_entry 0x100C00 0x1000 2; mk_entry 0x110000 0xFF0000 1].
Definition boot_state : pmm := mk_pmm 0 [] 0 0 0 256 0 0 0 0 0.

Lemma boot_entries_ok : mb_entries boot_mem 4 0x10000 = Some boot_entries.
Proof. vm_compute. reflexivity. Qed.
Lemma boot_entries_wf : Forall entry_ok boot_entries.
Proof. repeat constructor; vm_compute; congruence. Qed.

Lemma MemoryInit_correct_witness :
  exists st', MemoryInit boot_mem 4 0x10000 0x200000 0x300000 boot_state = Some (0, st') /\ pmm_inv st'.
Proof.
  destruct (MemoryInit_correct boot_mem 4 0x10000 0x200000 0x300000 boot_state boot_entries
    boot_entries_ok boot_entries_wf) as (r & st' & H & _ & HC); try (vm_compute; split; congruence);
    try (vm_compute; congruence).
  assert (E : init_fits (init_total (max_end boot_entries)) = true) by (vm_compute; reflexivity).
  rewrite E in HC. destruct HC as (-> & I & _). exists st'. split; [exact H|exact I].
Defined.

(** The states after [MemoryInit] on that map and after one more [AllocPage]. *)
Definition boot_done : pmm :=
  match MemoryInit boot_mem 4 0x10000 0x200000 0x300000 boot_state with
  | Some (_, st) => st
  | None => boot_state
  end.
Definition page_after (st : pmm) : pmm :=
  match AllocPage st with
  | Some (_, st') => st'
  | None => st
  end.

(** Page [q] and region [e] have an address in common. *)
Definition overlaps (e : mmap_entry) (q : Z) : bool :=
  (q * PAGE_SIZE <? e_addr e + e_len e) && (e_addr e <? (q + 1) * PAGE_SIZE).

(** MemoryInit leaves two kinds of unusable pages free.  On the boot map above the
    first AllocPage returns page 257, whose first 3 KB belong to the reserved region (the
    reservation loop steps from the region's unaligned start and misses its last page), and
    the second returns page 258, which no entry of the map describes (pages start out free
    and only reserved entries are marked). *)
Theorem MemoryInit_unusable_pages :
  exists st0 st1 st2,
    MemoryInit boot_mem 4 0x10000 0x200000 0x300000 boot_state = Some (0, st0) /\
    AllocPage st0 = Some (257 * PAGE_SIZE, st1) /\ AllocPage st1 = Some (258 * PAGE_SIZE, st2) /\
    existsb (fun e => negb (e_type e =? MULTIBOOT2_MEMORY_AVAILABLE) && overlaps e 257) boot_entries = true /\
    existsb (fun e => overlaps e 258) boot_entries = false.
Proof.
  exists boot_done, (page_after boot_done), (page_after (page_after boot_done)).
  split_and!; vm_compute; reflexivity.
Qed.
