(* ===== verification/Ipc.v ===== *)
(** Inter-process messages, [src/kernel/ipc/Ipc.c] and [Ipc.h].

    A process's mailbox is a ring of 32 messages; sending writes the target's
    ring, receiving takes the most urgent message of the caller's.  The process
    table belongs to the scheduler: it is reached through the class [IpcProc],
    the fields of a process control block the IPC code reads and writes.  Both
    receive functions loop for ever until a message arrives, with the queue's
    lock released between passes; one pass is one operation here, and the passes
    of a process interleave with the operations of the others in [IpcRun].
    An access outside the ring is a fault ([None]). *)
From Stdlib Require Import ZArith Lia.
From stdpp Require Import base tactics list gmap sets numbers.
From S2P Require Import Prelude.

Definition MAX_MESSAGES : Z := 32.
Definition IPC_MAX_PAYLOAD : Z := 512.

Inductive IpcMessageType :=
| IPC_TYPE_DATA | IPC_TYPE_NOTIFICATION | IPC_TYPE_REQUEST | IPC_TYPE_RESPONSE
| IPC_TYPE_SIGNAL | IPC_TYPE_BROADCAST | IPC_TYPE_URGENT.
#[export] Instance IpcMessageType_eq_dec : EqDecision IpcMessageType.
Proof. solve_decision. Defined.

Inductive IpcPriority :=
| IPC_PRIORITY_LOW | IPC_PRIORITY_NORMAL | IPC_PRIORITY_HIGH | IPC_PRIORITY_URGENT.
#[export] Instance IpcPriority_eq_dec : EqDecision IpcPriority.
Proof. solve_decision. Defined.

(** The enumerators' values, on which the code compares and shifts. *)
Definition prio_val (p : IpcPriority) : Z :=
  match p with
  | IPC_PRIORITY_LOW => 0 | IPC_PRIORITY_NORMAL => 1 | IPC_PRIORITY_HIGH => 2 | IPC_PRIORITY_URGENT => 3
  end.

Record IpcMessage := mk_msg {
  sender_pid : Z;
  sequence_id : Z;
  mtype : IpcMessageType;
  priority : IpcPriority;
  timestamp : Z;
  msize : Z;
  payload : list Z
}.
#[export] Instance IpcMessage_inhabited : Inhabited IpcMessage :=
  populate (mk_msg 0 0 IPC_TYPE_DATA IPC_PRIORITY_LOW 0 0 []).

Record MessageQueue := mk_queue {
  messages : list IpcMessage;
  head : Z;
  tail : Z;
  count : Z;
  dropped_count : Z;
  priority_bitmap : Z
}.

Inductive IpcResult :=
| IPC_SUCCESS | IPC_ERROR_QUEUE_FULL | IPC_ERROR_NO_PROCESS | IPC_ERROR_INVALID_MSG
| IPC_ERROR_TIMEOUT | IPC_ERROR_INTERRUPTED.

Inductive ProcessState :=
| PROC_TERMINATED | PROC_READY | PROC_RUNNING | PROC_BLOCKED | PROC_ZOMBIE | PROC_DYING.
#[export] Instance ProcessState_eq_dec : EqDecision ProcessState.
Proof. solve_decision. Defined.

(** ** The queue *)
Definition update_priority_bitmap (bm : Z) (p : IpcPriority) : Z := Z.lor bm (Z.shiftl 1 (prio_val p)).

(** [__builtin_clz(b) ^ 31] is the position of the highest set bit. *)
Definition get_highest_priority (bm : Z) : Z := if bm =? 0 then prio_val IPC_PRIORITY_NORMAL else Z.log2 bm.

Definition slot_of (q : MessageQueue) (i : Z) : Z := u32 (head q + i) mod MAX_MESSAGES.

(** The bitmap is recomputed over the queued messages: [for (i = 0; i < count; i++)]. *)
Fixpoint bitmap_loop (n : nat) (i : Z) (q : MessageQueue) (bm : Z) : option Z :=
  match n with
  | O => Some bm
  | S n' =>
      m ← arr_get (messages q) (slot_of q i);
      bitmap_loop n' (i + 1) q (update_priority_bitmap bm (priority m))
  end.
Definition set_bitmap (bm : Z) (q : MessageQueue) : MessageQueue :=
  mk_queue (messages q) (head q) (tail q) (count q) (dropped_count q) bm.
Definition recompute_bitmap (q : MessageQueue) : option MessageQueue :=
  bm ← bitmap_loop (Z.to_nat (count q)) 0 q 0; Some (set_bitmap bm q).

(** The loop of [find_priority_message]: best index, priority and age so far. *)
Fixpoint find_loop (n : nat) (i : Z) (q : MessageQueue) (min_priority : IpcPriority)
    (best_idx : Z) (best_priority : IpcPriority) (oldest_time : Z) : option Z :=
  match n with
  | O => Some best_idx
  | S n' =>
      let idx := slot_of q i in
      msg ← arr_get (messages q) idx;
      if (prio_val min_priority <=? prio_val (priority msg)) &&
         ((prio_val best_priority <? prio_val (priority msg)) ||
          ((prio_val (priority msg) =? prio_val best_priority) && (timestamp msg <? oldest_time)))
      then find_loop n' (i + 1) q min_priority idx (priority msg) (timestamp msg)
      else find_loop n' (i + 1) q min_priority best_idx best_priority oldest_time
  end.
Definition find_priority_message (q : MessageQueue) (min_priority : IpcPriority) : option Z :=
  find_loop (Z.to_nat (count q)) 0 q min_priority (head q) IPC_PRIORITY_LOW ones64.

(** The search for the message to drop when the ring is full. *)
Fixpoint drop_loop (n : nat) (i : Z) (q : MessageQueue) (drop_idx : Z) (lowest : IpcPriority)
    : option (Z * IpcPriority) :=
  match n with
  | O => Some (drop_idx, lowest)
  | S n' =>
      let idx := slot_of q i in
      msg ← arr_get (messages q) idx;
      if prio_val (priority msg) <? prio_val lowest then drop_loop n' (i + 1) q idx (priority msg)
      else drop_loop n' (i + 1) q drop_idx lowest
  end.

(** Where [IpcSendMessage] puts the message: an index of the ring and the queue with
    its counters moved, or the error. *)
Definition send_slot (msg : IpcMessage) (q : MessageQueue) : option (IpcResult + Z * MessageQueue) :=
  if MAX_MESSAGES <=? count q then
    if prio_val IPC_PRIORITY_LOW <? prio_val (priority msg) then
      r ← drop_loop (Z.to_nat (count q)) 0 q (head q) IPC_PRIORITY_URGENT;
      let '(drop_idx, lowest) := r in
      if prio_val lowest <? prio_val (priority msg) then
        Some (inr (drop_idx, mk_queue (messages q) (head q) (tail q) (count q)
                               (u32 (dropped_count q + 1)) (priority_bitmap q)))
      else Some (inl IPC_ERROR_QUEUE_FULL)
    else Some (inl IPC_ERROR_QUEUE_FULL)
  else
    Some (inr (tail q, mk_queue (messages q) (head q) (u32 (tail q + 1) mod MAX_MESSAGES)
                         (u32 (count q + 1)) (dropped_count q) (priority_bitmap q))).

Definition stamp (msg : IpcMessage) (ticks seq : Z) : IpcMessage :=
  mk_msg (sender_pid msg) seq (mtype msg) (priority msg) ticks (msize msg) (payload msg).

Definition set_messages (ms : list IpcMessage) (q : MessageQueue) : MessageQueue :=
  mk_queue ms (head q) (tail q) (count q) (dropped_count q) (priority_bitmap q).

(** The queue's part of [IpcSendMessage]. *)
Definition queue_send (msg : IpcMessage) (ticks seq : Z) (q : MessageQueue)
    : option (IpcResult * MessageQueue) :=
  r ← send_slot msg q;
  match r with
  | inl e => Some (e, q)
  | inr (dest, q1) =>
      ms ← arr_set (messages q1) dest (stamp msg ticks seq);
      q2 ← recompute_bitmap (set_messages ms q1);
      Some (IPC_SUCCESS, q2)
  end.

(** [for (i = msg_idx; i != head; ) { prev = (i - 1 + 32) % 32; m[i] = m[prev]; i = prev; }];
    at most 31 passes, so 32 units of fuel are enough (see [shift_back_ok]). *)
Fixpoint shift_back (fuel : nat) (i hd : Z) (ms : list IpcMessage) : option (list IpcMessage) :=
  match fuel with
  | O => None
  | S f =>
      if i =? hd then Some ms else
      let prev := u32 (i - 1 + MAX_MESSAGES) mod MAX_MESSAGES in
      m ← arr_get ms prev;
      ms' ← arr_set ms i m;
      shift_back f prev hd ms'
  end.

(** [for (j = i; j > 0; j--)] in [IpcReceiveMessageType]. *)
Fixpoint shift_type (j : nat) (hd : Z) (ms : list IpcMessage) : option (list IpcMessage) :=
  match j with
  | O => Some ms
  | S j' =>
      let curr := u32 (hd + Z.of_nat j) mod MAX_MESSAGES in
      let prev := u32 (hd + Z.of_nat j - 1) mod MAX_MESSAGES in
      m ← arr_get ms prev;
      ms' ← arr_set ms curr m;
      shift_type j' hd ms'
  end.

(** [head = (head + 1) % 32; count--], then the bitmap. *)
Definition pop_head (ms : list IpcMessage) (q : MessageQueue) : option MessageQueue :=
  let q1 := mk_queue ms (u32 (head q + 1) mod MAX_MESSAGES) (tail q) (u32 (count q - 1))
              (dropped_count q) (priority_bitmap q) in
  if count q1 =? 0 then Some (set_bitmap 0 q1) else recompute_bitmap q1.

(** One pass of [IpcReceiveMessage] over the queue: the message taken, if any. *)
Definition queue_receive (q : MessageQueue) : option (option IpcMessage * MessageQueue) :=
  if 0 <? count q then
    msg_idx ← find_priority_message q IPC_PRIORITY_LOW;
    m ← arr_get (messages q) msg_idx;
    ms ← (if negb (msg_idx =? head q) then shift_back 32 msg_idx (head q) (messages q)
          else Some (messages q));
    q' ← pop_head ms q;
    Some (Some m, q')
  else Some (None, q).

(** One pass of [IpcReceiveMessageType]. *)
Fixpoint type_loop (n : nat) (i : Z) (ty : IpcMessageType) (q : MessageQueue)
    : option (option IpcMessage * MessageQueue) :=
  match n with
  | O => Some (None, q)
  | S n' =>
      m ← arr_get (messages q) (slot_of q i);
      if decide (mtype m = ty) then
        ms ← shift_type (Z.to_nat i) (head q) (messages q);
        q' ← recompute_bitmap (mk_queue ms (u32 (head q + 1) mod MAX_MESSAGES) (tail q)
               (u32 (count q - 1)) (dropped_count q) (priority_bitmap q));
        Some (Some m, q')
      else type_loop n' (i + 1) ty q
  end.
Definition queue_receive_type (ty : IpcMessageType) (q : MessageQueue)
    : option (option IpcMessage * MessageQueue) := type_loop (Z.to_nat (count q)) 0 ty q.

Fixpoint has_type_loop (n : nat) (i : Z) (ty : IpcMessageType) (q : MessageQueue) : option bool :=
  match n with
  | O => Some false
  | S n' =>
      m ← arr_get (messages q) (slot_of q i);
      if decide (mtype m = ty) then Some true else has_type_loop n' (i + 1) ty q
  end.

Definition queue_flush (q : MessageQueue) : MessageQueue :=
  mk_queue (messages q) 0 0 0 (dropped_count q) 0.

(** ** Processes *)

(** What IPC needs of a process control block. *)
Class IpcProc (P : Type) := {
  proc_pid : P -> Z;
  proc_state : P -> ProcessState;
  proc_queue : P -> MessageQueue;
  set_proc_state : ProcessState -> P -> P;
  set_proc_queue : MessageQueue -> P -> P;
  proc_state_set s p : proc_state (set_proc_state s p) = s;
  proc_queue_set q p : proc_queue (set_proc_queue q p) = q;
  proc_state_set_queue q p : proc_state (set_proc_queue q p) = proc_state p;
  proc_queue_set_state s p : proc_queue (set_proc_state s p) = proc_queue p;
  proc_pid_set_state s p : proc_pid (set_proc_state s p) = proc_pid p;
  proc_pid_set_queue q p : proc_pid (set_proc_queue q p) = proc_pid p
}.

Record ipc_sys (P : Type) := mk_sys {
  procs : list P;
  current : Z;
  next_sequence_id : Z;
  ticks : Z
}.
Arguments mk_sys {P} _ _ _ _.
Arguments procs {P} _.
Arguments current {P} _.
Arguments next_sequence_id {P} _.
Arguments ticks {P} _.

Section ipc.
Context {P : Type} `{!IpcProc P}.

Definition set_procs (ps : list P) (s : ipc_sys P) : ipc_sys P :=
  mk_sys ps (current s) (next_sequence_id s) (ticks s).
Definition bump_seq (s : ipc_sys P) : ipc_sys P :=
  mk_sys (procs s) (current s) (u32 (next_sequence_id s + 1)) (ticks s).

(** [GetCurrentProcessByPID]: the first slot with the pid that is not terminated. *)
Fixpoint find_pid (ps : list P) (slot pid : Z) : option Z :=
  match ps with
  | [] => None
  | p :: ps' =>
      if (proc_pid p =? pid) && negb (bool_decide (proc_state p = PROC_TERMINATED)) then Some slot
      else find_pid ps' (slot + 1) pid
  end.
Definition GetCurrentProcessByPID (pid : Z) (s : ipc_sys P) : option Z := find_pid (procs s) 0 pid.

Definition GetCurrentProcess (s : ipc_sys P) : option P := arr_get (procs s) (current s).

Definition IpcSendMessage (target_pid : Z) (msg : option IpcMessage) (s : ipc_sys P)
    : option (IpcResult * ipc_sys P) :=
  match msg with
  | None => Some (IPC_ERROR_INVALID_MSG, s)
  | Some m =>
      match GetCurrentProcessByPID target_pid s with
      | None => Some (IPC_ERROR_NO_PROCESS, s)
      | Some slot =>
          target ← arr_get (procs s) slot;
          r ← queue_send m (ticks s) (next_sequence_id s) (proc_queue target);
          match r with
          | (IPC_SUCCESS, q) =>
              let t1 := set_proc_queue q target in
              let t2 := if bool_decide (proc_state t1 = PROC_BLOCKED)
                        then set_proc_state PROC_READY t1 else t1 in
              ps ← arr_set (procs s) slot t2;
              Some (IPC_SUCCESS, set_procs ps (bump_seq s))
          | (e, _) => Some (e, s)
          end
      end
  end.

(** One pass of a receive loop by the current process: a message, or the process is
    marked blocked and the loop goes round again. *)
Definition receive_pass (recv : MessageQueue -> option (option IpcMessage * MessageQueue))
    (s : ipc_sys P) : option (option IpcMessage * ipc_sys P) :=
  cur ← GetCurrentProcess s;
  r ← recv (proc_queue cur);
  let '(m, q) := r in
  let c1 := set_proc_queue q cur in
  let c2 := match m with Some _ => c1 | None => set_proc_state PROC_BLOCKED c1 end in
  ps ← arr_set (procs s) (current s) c2;
  Some (m, set_procs ps s).

Definition IpcReceiveMessage_pass (s : ipc_sys P) : option (option IpcMessage * ipc_sys P) :=
  receive_pass queue_receive s.
Definition IpcReceiveMessageType_pass (ty : IpcMessageType) (s : ipc_sys P)
    : option (option IpcMessage * ipc_sys P) := receive_pass (queue_receive_type ty) s.

(** Little-endian encoding of the two 32-bit words in front of request and response data. *)
Definition le32 (z : Z) : list Z :=
  [u8 z; u8 (Z.shiftr z 8); u8 (Z.shiftr z 16); u8 (Z.shiftr z 24)].

(** The 512-byte payload with [bytes] at its start, the rest zero (the initialiser zeroes it). *)
Definition payload_of (bytes : list Z) : list Z :=
  take (Z.to_nat IPC_MAX_PAYLOAD) (bytes ++ replicate (Z.to_nat IPC_MAX_PAYLOAD) 0).

(** [request_data] is [None] for NULL, else the bytes at it; the result carries *request_id. *)
Definition IpcSendRequest (target_pid : Z) (request_data : option (list Z)) (size : Z)
    (request_id_ptr : bool) (s : ipc_sys P) : option (IpcResult * option Z * ipc_sys P) :=
  match request_data with
  | None => Some (IPC_ERROR_INVALID_MSG, None, s)
  | Some data =>
      if (IPC_MAX_PAYLOAD - 8 <? size) || negb request_id_ptr then Some (IPC_ERROR_INVALID_MSG, None, s) else
      cur ← GetCurrentProcess s;
      let id := next_sequence_id s in
      let msg := mk_msg (proc_pid cur) 0 IPC_TYPE_REQUEST IPC_PRIORITY_NORMAL 0 (size + 8)
                   (payload_of (le32 id ++ le32 0 ++ take (Z.to_nat size) data)) in
      r ← IpcSendMessage target_pid (Some msg) (bump_seq s);
      let '(e, s') := r in Some (e, Some id, s')
  end.

Definition IpcSendResponse (target_pid request_id : Z) (response_data : option (list Z)) (size status : Z)
    (s : ipc_sys P) : option (IpcResult * ipc_sys P) :=
  if IPC_MAX_PAYLOAD - 8 <? size then Some (IPC_ERROR_INVALID_MSG, s) else
  cur ← GetCurrentProcess s;
  let data := match response_data with
              | Some d => if 0 <? size then take (Z.to_nat size) d else []
              | None => []
              end in
  let msg := mk_msg (proc_pid cur) 0 IPC_TYPE_RESPONSE IPC_PRIORITY_HIGH 0 (size + 8)
               (payload_of (le32 request_id ++ le32 status ++ data)) in
  IpcSendMessage target_pid (Some msg) s.

Definition IpcGetQueueCount (s : ipc_sys P) : option Z :=
  cur ← GetCurrentProcess s; Some (count (proc_queue cur)).
Definition IpcHasMessages (s : ipc_sys P) : option bool :=
  n ← IpcGetQueueCount s; Some (0 <? n).
Definition IpcHasMessageType (ty : IpcMessageType) (s : ipc_sys P) : option bool :=
  cur ← GetCurrentProcess s;
  has_type_loop (Z.to_nat (count (proc_queue cur))) 0 ty (proc_queue cur).
Definition IpcFlushQueue (s : ipc_sys P) : option (ipc_sys P) :=
  cur ← GetCurrentProcess s;
  ps ← arr_set (procs s) (current s) (set_proc_queue (queue_flush (proc_queue cur)) cur);
  Some (set_procs ps s).
End ipc.

(** [ToData] of [Ipc.h]: copies the string without its terminator, with no bound check. *)
Fixpoint ToData_loop (i : Z) (bytes : list Z) (pl : list Z) : option (list Z) :=
  match bytes with
  | [] => Some pl
  | b :: bytes' => pl' ← arr_set pl i b; ToData_loop (i + 1) bytes' pl'
  end.
Definition ToData (data : IpcMessage) (msg : list Z) : option IpcMessage :=
  pl ← ToData_loop 0 msg (payload data);
  Some (mk_msg (sender_pid data) (sequence_id data) (mtype data) (priority data) (timestamp data)
          (msize data) pl).
