(* ===== verification/IpcQueue.v ===== *)
(** The mailbox ring of [src/kernel/ipc/Ipc.c] refines a list of messages. *)
From Stdlib Require Import ZArith Lia.
From stdpp Require Import base tactics list gmap sets numbers.
From S2P Require Import Prelude Ipc.

(** Cell [i] of a ring of 32, indices taken modulo 32. *)
Definition cell (ms : list IpcMessage) (i : Z) : IpcMessage := ms !!! Z.to_nat (i mod 32).
Definition ring (ms : list IpcMessage) (h : Z) (n : nat) : list IpcMessage :=
  map (fun i => cell ms (h + Z.of_nat i)) (seq 0 n).

(** The queued messages, oldest slot first. *)
Definition qlist (q : MessageQueue) : list IpcMessage := ring (messages q) (head q) (Z.to_nat (count q)).

(** Bitmap of the priorities present. *)
Definition prio_bits (l : list IpcMessage) : Z := foldl (fun bm m => update_priority_bitmap bm (priority m)) 0 l.

Record queue_ok (q : MessageQueue) : Prop := {
  qo_len : length (messages q) = 32%nat;
  qo_head : 0 <= head q < 32;
  qo_count : 0 <= count q <= 32;
  qo_tail : tail q = (head q + count q) mod 32;
  qo_bits : priority_bitmap q = prio_bits (qlist q);
  qo_time : Forall (fun m => 0 <= timestamp m < 2 ^ 64) (qlist q)
}.

(** ** Rings *)
Lemma cell_ring ms i j : i mod 32 = j mod 32 -> cell ms i = cell ms j.
Proof. intros H. unfold cell. by rewrite H. Qed.

Lemma ring_lookup ms h n i :
  ring ms h n !! i = if decide (i < n)%nat then Some (cell ms (h + Z.of_nat i)) else None.
Proof.
  unfold ring. rewrite list_lookup_fmap. case_decide.
  - by rewrite lookup_seq_lt by done.
  - by rewrite lookup_seq_ge by lia.
Qed.

Lemma ring_length ms h n : length (ring ms h n) = n.
Proof. unfold ring. by rewrite length_map, length_seq. Qed.

Lemma qlist_length q : queue_ok q -> Z.of_nat (length (qlist q)) = count q.
Proof. intros Q. unfold qlist. rewrite ring_length. pose proof (qo_count q Q). lia. Qed.

Lemma cell_get ms i :
  length ms = 32%nat -> 0 <= i -> arr_get ms (i mod 32) = Some (cell ms i).
Proof.
  intros Hl Hi. unfold arr_get, cell. rewrite (proj2 (Z.leb_le 0 _)) by dlia.
  apply list_lookup_lookup_total_lt. dlia.
Qed.

Lemma cell_set ms i m j :
  length ms = 32%nat -> 0 <= i -> 0 <= j ->
  cell (<[Z.to_nat (i mod 32) := m]> ms) j = if j mod 32 =? i mod 32 then m else cell ms j.
Proof.
  intros Hl Hi Hj. unfold cell. destruct (Z.eqb_spec (j mod 32) (i mod 32)) as [->|].
  - apply list_lookup_total_insert_eq. dlia.
  - apply list_lookup_total_insert_ne. dlia.
Qed.

Lemma ring_ext ms ms' h h' n :
  (forall i, (i < n)%nat -> cell ms (h + Z.of_nat i) = cell ms' (h' + Z.of_nat i)) ->
  ring ms h n = ring ms' h' n.
Proof.
  intros H. apply list_eq. intros i. rewrite !ring_lookup. case_decide; [|done]. by rewrite H.
Qed.

Section queue.
Context (q : MessageQueue) (Q : queue_ok q).

Lemma slot_mod i : 0 <= i <= 64 -> slot_of q i = (head q + i) mod 32.
Proof using Q.
  intros. unfold slot_of. pose proof (qo_head q Q). rewrite u32_small by lia. done.
Qed.

Lemma slot_get i : 0 <= i <= 64 -> arr_get (messages q) (slot_of q i) = Some (cell (messages q) (head q + i)).
Proof using Q.
  intros. rewrite slot_mod by done. pose proof (qo_head q Q). apply cell_get; [apply Q|lia].
Qed.

Lemma qlist_lookup i :
  qlist q !! i = if decide (Z.of_nat i < count q) then Some (cell (messages q) (head q + Z.of_nat i)) else None.
Proof using Q.
  unfold qlist. rewrite ring_lookup. pose proof (qo_count q Q). repeat case_decide; (done || lia).
Qed.
End queue.

(** ** The bitmap loop *)
Lemma bitmap_loop_run n i q bm :
  length (messages q) = 32%nat -> 0 <= head q < 32 -> 0 <= i -> i + Z.of_nat n <= 32 ->
  bitmap_loop n i q bm =
  Some (foldl (fun bm m => update_priority_bitmap bm (priority m)) bm (ring (messages q) (head q + i) n)).
Proof.
  intros Hl Hh. revert i bm. induction n as [|n IH]; intros i bm Hi Hn; cbn [bitmap_loop]; [done|].
  unfold slot_of. rewrite u32_small by lia. change MAX_MESSAGES with 32.
  rewrite cell_get by (done || lia). cbn [mbind option_bind]. rewrite IH by lia.
  unfold ring. cbn [seq map foldl]. rewrite Z.add_0_r. do 2 f_equal.
  rewrite <-(seq_shift n 0), map_map. apply map_ext. intros j. f_equal. lia.
Qed.

(** Recomputing the bitmap turns a ring with sound indices into a well-formed queue. *)
Lemma recompute_ok ms h t c d b :
  length ms = 32%nat -> 0 <= h < 32 -> 0 <= c <= 32 -> t = (h + c) mod 32 ->
  Forall (fun m => 0 <= timestamp m < 2 ^ 64) (ring ms h (Z.to_nat c)) ->
  exists q, recompute_bitmap (mk_queue ms h t c d b) = Some q /\ queue_ok q /\
    qlist q = ring ms h (Z.to_nat c) /\ dropped_count q = d /\ count q = c.
Proof.
  intros Hl Hh Hc Ht HF. unfold recompute_bitmap. simpl count.
  rewrite bitmap_loop_run by (simpl; lia). cbn [mbind option_bind messages head].
  rewrite Z.add_0_r. eexists. split; [reflexivity|]. by split_and!; [constructor|..].
Qed.

(** ** Choosing a message *)

(** [a] is served before [b]. *)
Definition better (a b : IpcMessage) : bool :=
  (prio_val (priority b) <? prio_val (priority a)) ||
  ((prio_val (priority a) =? prio_val (priority b)) && (timestamp a <? timestamp b)).

(** [k] is the first message no other is served before. *)
Definition is_best (l : list IpcMessage) (k : nat) : Prop :=
  exists m, l !! k = Some m /\
    forall j m', l !! j = Some m' -> better m' m = false /\ ((j < k)%nat -> better m m' = true).

Lemma prio_range p : 0 <= prio_val p <= 3.
Proof. destruct p; simpl; lia. Qed.

Lemma better_spec a b :
  better a b = true <->
  prio_val (priority b) < prio_val (priority a) \/
  (prio_val (priority a) = prio_val (priority b) /\ timestamp a < timestamp b).
Proof. unfold better. rewrite orb_true_iff, andb_true_iff, !Z.ltb_lt, Z.eqb_eq. done. Qed.

Lemma is_best_unique l j k : is_best l j -> is_best l k -> j = k.
Proof.
  intros (a & Ha & HA) (b & Hb & HB). destruct (lt_eq_lt_dec j k) as [[Hlt| ->]|Hlt]; [|done|].
  - pose proof (proj2 (HB _ _ Ha) Hlt) as H1. pose proof (proj1 (HA _ _ Hb)) as H2. congruence.
  - pose proof (proj2 (HA _ _ Hb) Hlt) as H1. pose proof (proj1 (HB _ _ Ha)) as H2. congruence.
Qed.

Lemma better_not_lt a b c : better a b = true -> better a c = false -> better c b = false -> False.
Proof.
  rewrite <-!not_true_iff_false, !better_spec. pose proof (prio_range (priority a)). lia.
Qed.

(** Adding a message at the end keeps the best one or makes the new one best. *)
Lemma is_best_snoc l k m x :
  is_best l k -> l !! k = Some m ->
  if better x m then is_best (l ++ [x]) (length l) else is_best (l ++ [x]) k.
Proof.
  intros (m0 & Hm & HB) Hm'. assert (m0 = m) as -> by congruence. destruct (better x m) eqn:E.
  - exists x. split; [by rewrite lookup_app_r, Nat.sub_diag by lia|]. intros j m' Hj.
    apply lookup_app_Some in Hj as [Hj|[Hge Hj]].
    + destruct (HB j m' Hj) as [H1 _]. split.
      * apply not_true_iff_false. rewrite better_spec. apply not_true_iff_false in H1.
        rewrite better_spec in H1. rewrite better_spec in E. lia.
      * intros _. rewrite better_spec. apply not_true_iff_false in H1.
        rewrite better_spec in H1. rewrite better_spec in E. lia.
    + apply list_lookup_singleton_Some in Hj as [Hj <-]. split; [|lia].
      apply not_true_iff_false. rewrite better_spec. lia.
  - exists m. split; [by rewrite lookup_app_l by (by eapply lookup_lt_Some)|]. intros j m' Hj.
    apply lookup_app_Some in Hj as [Hj|[Hge Hj]]; [by apply HB|].
    apply list_lookup_singleton_Some in Hj as [Hj <-]. split; [done|].
    apply lookup_lt_Some in Hm. lia.
Qed.

Lemma better_code a p t :
  (prio_val IPC_PRIORITY_LOW <=? prio_val (priority a)) &&
  ((prio_val p <? prio_val (priority a)) || ((prio_val (priority a) =? prio_val p) && (timestamp a <? t))) =
  better a (mk_msg 0 0 IPC_TYPE_DATA p t 0 []).
Proof.
  unfold better. simpl. pose proof (prio_range (priority a)).
  by rewrite (proj2 (Z.leb_le _ _)) by lia.
Qed.

Lemma better_key a b c :
  priority b = priority c -> timestamp b = timestamp c -> better a b = better a c.
Proof. unfold better. by intros -> ->. Qed.

Section choose.
Context (q : MessageQueue) (Q : queue_ok q).

Lemma find_loop_ok n i k m :
  Z.of_nat (i + n) = count q -> is_best (take i (qlist q)) k -> qlist q !! k = Some m ->
  exists k', find_loop n (Z.of_nat i) q IPC_PRIORITY_LOW (slot_of q (Z.of_nat k)) (priority m) (timestamp m) =
    Some (slot_of q (Z.of_nat k')) /\ is_best (qlist q) k'.
Proof using Q.
  pose proof (qo_count q Q) as HC. pose proof (qlist_length q Q) as HL.
  revert i k m. induction n as [|n IH]; intros i k m Hi Hb Hm; cbn [find_loop].
  { exists k. split; [done|]. by rewrite take_ge in Hb by lia. }
  rewrite slot_get by (done || lia). cbn [mbind option_bind].
  set (x := cell (messages q) (head q + Z.of_nat i)).
  assert (Hx : qlist q !! i = Some x) by (rewrite qlist_lookup by done; by rewrite decide_True by lia).
  rewrite better_code, (better_key x _ m) by done.
  assert (Hmk : take i (qlist q) !! k = Some m).
  { destruct Hb as (m0 & Hm0 & _). pose proof (lookup_lt_Some _ _ _ Hm0) as Hlt.
    rewrite length_take in Hlt. rewrite lookup_take_lt by lia. done. }
  pose proof (is_best_snoc _ _ _ x Hb Hmk) as Hsn. rewrite <-(take_S_r _ _ _ Hx) in Hsn.
  rewrite length_take, Nat.min_l in Hsn by (pose proof (lookup_lt_Some _ _ _ Hx); lia).
  replace (Z.of_nat i + 1) with (Z.of_nat (S i)) by lia.
  destruct (better x m).
  - apply IH; [lia|done|done].
  - apply IH; [lia|done|done].
Qed.

Lemma find_priority_message_ok :
  0 < count q ->
  exists k, find_priority_message q IPC_PRIORITY_LOW = Some (slot_of q (Z.of_nat k)) /\ is_best (qlist q) k.
Proof using Q.
  intros Hc. pose proof (qo_count q Q) as HC. pose proof (qo_head q Q) as HH. unfold find_priority_message.
  destruct (Z.to_nat (count q)) as [|n] eqn:En; [lia|]. cbn [find_loop].
  rewrite slot_get by (done || lia). cbn [mbind option_bind]. rewrite Z.add_0_r.
  set (x := cell (messages q) (head q)).
  assert (Hx : qlist q !! 0%nat = Some x).
  { rewrite qlist_lookup by done. rewrite decide_True by lia. by rewrite Z.add_0_r. }
  assert (H0 : slot_of q 0 = head q) by (rewrite slot_mod by (done || lia); dlia).
  assert (Ht : 0 <= timestamp x < 2 ^ 64).
  { pose proof (qo_time q Q) as HF. rewrite Forall_lookup in HF. by apply (HF 0%nat). }
  assert (Hbest : is_best (take 1 (qlist q)) 0).
  { exists x. destruct (qlist q) as [|y l]; [done|]. simpl in Hx. simplify_eq. split; [done|].
    intros j m' Hj. destruct j; [|done]. simplify_eq/=. split; [|lia].
    apply not_true_iff_false. rewrite better_spec. lia. }
  destruct (find_loop_ok n 1 0 x) as (k & Hk & HB); [lia|done|done|].
  exists k. split; [|done]. change (Z.of_nat 1) with (0 + 1) in Hk. change (Z.of_nat 0) with 0 in Hk.
  rewrite better_code. destruct (better x _) eqn:E; [done|].
  apply not_true_iff_false in E. rewrite better_spec in E. simpl in E.
  assert (Hp : priority x = IPC_PRIORITY_LOW) by (destruct (priority x); simpl in E; (done || lia)).
  unfold ones64 in *. rewrite Hp in Hk, E. simpl in E. replace (timestamp x) with (2 ^ 64 - 1) in Hk by lia.
  by rewrite H0 in Hk.
Qed.

(** The message dropped from a full ring: the first of the lowest priority. *)
Definition is_lowest (l : list IpcMessage) (k : nat) : Prop :=
  exists m, l !! k = Some m /\
    forall j m', l !! j = Some m' ->
      prio_val (priority m) <= prio_val (priority m') /\
      ((j < k)%nat -> prio_val (priority m) < prio_val (priority m')).

Lemma drop_loop_ok n i k lowest :
  Z.of_nat (i + n) = count q -> (k < i)%nat \/ (k = 0%nat /\ i = 0%nat) ->
  (forall j m', (j < i)%nat -> qlist q !! j = Some m' ->
     prio_val lowest <= prio_val (priority m') /\ ((j < k)%nat -> prio_val lowest < prio_val (priority m'))) ->
  (lowest = IPC_PRIORITY_URGENT /\ k = 0%nat \/ exists m, qlist q !! k = Some m /\ priority m = lowest) ->
  exists k' low', drop_loop n (Z.of_nat i) q (slot_of q (Z.of_nat k)) lowest =
      Some (slot_of q (Z.of_nat k'), low') /\
    (forall j m', qlist q !! j = Some m' ->
      prio_val low' <= prio_val (priority m') /\ ((j < k')%nat -> prio_val low' < prio_val (priority m'))) /\
    (low' = IPC_PRIORITY_URGENT /\ k' = 0%nat \/ exists m, qlist q !! k' = Some m /\ priority m = low').
Proof using Q.
  pose proof (qo_count q Q) as HC. pose proof (qlist_length q Q) as HL.
  revert i k lowest. induction n as [|n IH]; intros i k lowest Hi Hk Hall Hat; cbn [drop_loop].
  { exists k, lowest. split_and!; [done| |done]. intros j m' Hj. apply Hall; [|done].
    pose proof (lookup_lt_Some _ _ _ Hj). lia. }
  rewrite slot_get by (done || lia). cbn [mbind option_bind].
  set (x := cell (messages q) (head q + Z.of_nat i)).
  assert (Hx : qlist q !! i = Some x) by (rewrite qlist_lookup by done; by rewrite decide_True by lia).
  replace (Z.of_nat i + 1) with (Z.of_nat (S i)) by lia.
  destruct (Z.ltb_spec (prio_val (priority x)) (prio_val lowest)).
  - apply IH; [lia|left; lia| |right; by exists x]. intros j m' Hj Hm.
    destruct (decide (j = i)) as [->|]; [simplify_eq; lia|].
    destruct (Hall j m') as [H1 _]; [lia|done|]. lia.
  - apply IH; [lia|left; lia| |done]. intros j m' Hj Hm.
    destruct (decide (j = i)) as [->|]; [simplify_eq; lia|]. apply Hall; [lia|done].
Qed.
End choose.

(** ** Closing the gap *)

(** [ms'] is [ms] with the messages at positions [0 .. k-1] from [h] moved up by one. *)
Definition shifted (h : Z) (k : nat) (ms ms' : list IpcMessage) : Prop :=
  length ms' = 32%nat /\
  forall j, 0 <= j < 32 ->
    cell ms' (h + j) = cell ms (h + (if (0 <? j) && (j <=? Z.of_nat k) then j - 1 else j)).

Lemma shifted_refl h ms : length ms = 32%nat -> shifted h 0 ms ms.
Proof.
  intros Hl. split; [done|]. intros j Hj. destruct (Z.ltb_spec 0 j); simpl; [|done].
  by rewrite (proj2 (Z.leb_gt _ _)) by lia.
Qed.

(** One copy from position [k] to [k+1], then the rest. *)
Lemma shifted_step h k ms ms' :
  0 <= h < 32 -> (S k < 32)%nat -> length ms = 32%nat ->
  shifted h k (<[Z.to_nat ((h + Z.of_nat (S k)) mod 32) := cell ms (h + Z.of_nat k)]> ms) ms' ->
  shifted h (S k) ms ms'.
Proof.
  intros Hh Hk Hl [Hl' HS]. split; [done|]. intros j Hj. rewrite HS by done.
  rewrite cell_set; [|done|lia|case_if E; zbool; lia].
  destruct (Z.ltb_spec 0 j); simpl.
  2: { rewrite (proj2 (Z.eqb_neq _ _)) by dlia. done. }
  destruct (Z.leb_spec j (Z.of_nat k)).
  - rewrite (proj2 (Z.eqb_neq _ _)) by dlia. by rewrite (proj2 (Z.leb_le _ _)) by lia.
  - destruct (decide (j = Z.of_nat (S k))) as [->|].
    + rewrite Z.eqb_refl, (proj2 (Z.leb_le _ _)) by lia. f_equal. lia.
    + rewrite (proj2 (Z.eqb_neq _ _)) by dlia. by rewrite (proj2 (Z.leb_gt j _)) by lia.
Qed.

Lemma shift_back_ok fuel k h ms :
  0 <= h < 32 -> (k < 32)%nat -> (k < fuel)%nat -> length ms = 32%nat ->
  exists ms', shift_back fuel ((h + Z.of_nat k) mod 32) h ms = Some ms' /\ shifted h k ms ms'.
Proof.
  revert k ms. induction fuel as [|f IH]; intros k ms Hh Hk Hf Hl; [lia|]. cbn [shift_back].
  destruct k as [|k].
  { rewrite Z.add_0_r, Z.mod_small, Z.eqb_refl by lia. exists ms. split; [done|]. by apply shifted_refl. }
  rewrite (proj2 (Z.eqb_neq _ _)) by dlia. change MAX_MESSAGES with 32.
  replace (u32 ((h + Z.of_nat (S k)) mod 32 - 1 + 32) mod 32) with ((h + Z.of_nat k) mod 32)
    by (rewrite u32_small by dlia; dlia).
  rewrite cell_get by (done || lia). cbn [mbind option_bind].
  rewrite arr_set_some by dlia. cbn [mbind option_bind].
  destruct (IH k (<[Z.to_nat ((h + Z.of_nat (S k)) mod 32):=cell ms (h + Z.of_nat k)]> ms))
    as (ms' & -> & HS); [done|lia|lia|by rewrite length_insert|].
  exists ms'. split; [done|]. by apply shifted_step.
Qed.

Lemma shift_type_ok k h ms :
  0 <= h < 32 -> (k < 32)%nat -> length ms = 32%nat ->
  exists ms', shift_type k h ms = Some ms' /\ shifted h k ms ms'.
Proof.
  revert ms. induction k as [|k IH]; intros ms Hh Hk Hl; cbn [shift_type].
  { exists ms. split; [done|]. by apply shifted_refl. }
  change MAX_MESSAGES with 32. rewrite !u32_small by lia.
  replace (h + Z.of_nat (S k) - 1) with (h + Z.of_nat k) by lia.
  rewrite cell_get by (done || lia). cbn [mbind option_bind].
  rewrite arr_set_some by dlia. cbn [mbind option_bind].
  destruct (IH (<[Z.to_nat ((h + Z.of_nat (S k)) mod 32):=cell ms (h + Z.of_nat k)]> ms))
    as (ms' & -> & HS); [done|lia|by rewrite length_insert|].
  exists ms'. split; [done|]. by apply shifted_step.
Qed.

(** After the shift, dropping the head slot removes message [k]. *)
Lemma shifted_delete h k n ms ms' :
  0 <= h < 32 -> (k < n)%nat -> (n <= 32)%nat -> shifted h k ms ms' ->
  ring ms' ((h + 1) mod 32) (n - 1) = delete k (ring ms h n).
Proof.
  intros Hh Hk Hn [_ HS]. apply list_eq. intros i. rewrite ring_lookup.
  case_decide as Hi.
  - rewrite (cell_ring _ _ (h + Z.of_nat (S i))) by dlia. rewrite HS by lia.
    rewrite (proj2 (Z.ltb_lt 0 _)) by lia. cbn [andb].
    destruct (decide (i < k)%nat).
    + rewrite list_lookup_delete_lt, ring_lookup, decide_True by lia.
      rewrite (proj2 (Z.leb_le _ _)) by lia. do 2 f_equal. lia.
    + rewrite list_lookup_delete_ge, ring_lookup, decide_True by lia.
      by rewrite (proj2 (Z.leb_gt _ _)) by lia.
  - symmetry. apply lookup_ge_None. rewrite length_delete, ring_length; [lia|].
    rewrite ring_lookup, decide_True by lia. by eexists.
Qed.

(** ** The operations on lists *)
Section ops.
Context (q : MessageQueue) (Q : queue_ok q).

(** Removing message [k] by a shift, then the head. *)
Lemma take_out k ms :
  (k < Z.to_nat (count q))%nat -> shifted (head q) k (messages q) ms ->
  exists q', recompute_bitmap (mk_queue ms (u32 (head q + 1) mod MAX_MESSAGES) (tail q)
               (u32 (count q - 1)) (dropped_count q) (priority_bitmap q)) = Some q' /\
    queue_ok q' /\ qlist q' = delete k (qlist q) /\ dropped_count q' = dropped_count q.
Proof using Q.
  intros Hk HS. pose proof (qo_count q Q) as HC. pose proof (qo_head q Q) as HH.
  change MAX_MESSAGES with 32. rewrite !u32_small by lia.
  pose proof (shifted_delete (head q) k (Z.to_nat (count q)) _ _ HH Hk ltac:(lia) HS) as HD.
  replace (Z.to_nat (count q) - 1)%nat with (Z.to_nat (count q - 1)) in HD by lia.
  destruct (recompute_ok ms ((head q + 1) mod 32) (tail q) (count q - 1) (dropped_count q)
    (priority_bitmap q)) as (q' & Hq & HO & HL & HDr & _).
  - apply HS.
  - dlia.
  - lia.
  - rewrite (qo_tail q Q). dlia.
  - rewrite HD. apply Forall_delete. apply (qo_time q Q).
  - exists q'. split_and!; [done|done| |done]. by rewrite HL, HD.
Qed.

Lemma pop_head_eq ms :
  0 < count q -> length ms = 32%nat ->
  pop_head ms q = recompute_bitmap (mk_queue ms (u32 (head q + 1) mod MAX_MESSAGES) (tail q)
               (u32 (count q - 1)) (dropped_count q) (priority_bitmap q)).
Proof using Q.
  intros Hc Hl. pose proof (qo_count q Q). unfold pop_head. simpl.
  destruct (Z.eqb_spec (u32 (count q - 1)) 0) as [E|]; [|done].
  unfold recompute_bitmap. simpl. by rewrite E.
Qed.

Lemma queue_receive_ok :
  exists r q', queue_receive q = Some (r, q') /\ queue_ok q' /\ dropped_count q' = dropped_count q /\
    match r with
    | None => qlist q = [] /\ q' = q
    | Some m => exists k, is_best (qlist q) k /\ qlist q !! k = Some m /\ qlist q' = delete k (qlist q)
    end.
Proof using Q.
  pose proof (qo_count q Q) as HC. pose proof (qo_head q Q) as HH. pose proof (qlist_length q Q) as HL.
  unfold queue_receive. destruct (Z.ltb_spec 0 (count q)) as [Hc|Hc].
  2: { exists None, q. split_and!; [done|done|done| |done]. apply nil_length_inv. lia. }
  destruct (find_priority_message_ok q Q Hc) as (k & -> & HB). cbn [mbind option_bind].
  pose proof HB as (m & Hm & _). pose proof (lookup_lt_Some _ _ _ Hm) as Hk.
  rewrite slot_get by (done || lia). cbn [mbind option_bind].
  assert (Hcell : cell (messages q) (head q + Z.of_nat k) = m).
  { rewrite qlist_lookup in Hm by done. by rewrite decide_True in Hm by lia; simplify_eq. }
  assert (HS : exists ms, (if negb (slot_of q (Z.of_nat k) =? head q)
      then shift_back 32 (slot_of q (Z.of_nat k)) (head q) (messages q) else Some (messages q)) = Some ms /\
      shifted (head q) k (messages q) ms).
  { rewrite slot_mod by (done || lia).
    destruct (Z.eqb_spec ((head q + Z.of_nat k) mod 32) (head q)); cbn [negb].
    - exists (messages q). split; [done|]. replace k with 0%nat by dlia. apply shifted_refl, Q.
    - apply shift_back_ok; [done|lia|lia|apply Q]. }
  destruct HS as (ms & -> & HS). cbn [mbind option_bind].
  rewrite pop_head_eq by (done || apply HS).
  destruct (take_out k ms) as (q' & -> & HO & HD & Hdr); [lia|done|]. cbn [mbind option_bind].
  eexists _, q'. split_and!; [reflexivity|done|done|]. exists k. split_and!; [done| |done].
  by rewrite Hcell.
Qed.

Lemma queue_receive_type_ok ty :
  exists r q', queue_receive_type ty q = Some (r, q') /\ queue_ok q' /\ dropped_count q' = dropped_count q /\
    match r with
    | None => Forall (fun m => mtype m <> ty) (qlist q) /\ q' = q
    | Some m => exists k, qlist q !! k = Some m /\ mtype m = ty /\
        Forall (fun m => mtype m <> ty) (take k (qlist q)) /\ qlist q' = delete k (qlist q)
    end.
Proof using Q.
  pose proof (qo_count q Q) as HC. pose proof (qo_head q Q) as HH. pose proof (qlist_length q Q) as HL.
  assert (HI : forall n i, Z.of_nat (i + n) = count q -> Forall (fun m => mtype m <> ty) (take i (qlist q)) ->
    exists r q', type_loop n (Z.of_nat i) ty q = Some (r, q') /\ queue_ok q' /\
      dropped_count q' = dropped_count q /\
      match r with
      | None => Forall (fun m => mtype m <> ty) (qlist q) /\ q' = q
      | Some m => exists k, qlist q !! k = Some m /\ mtype m = ty /\
          Forall (fun m => mtype m <> ty) (take k (qlist q)) /\ qlist q' = delete k (qlist q)
      end).
  { induction n as [|n IH]; intros i Hi HF; cbn [type_loop].
    { exists None, q. split_and!; try done. by rewrite take_ge in HF by lia. }
    rewrite slot_get by (done || lia). cbn [mbind option_bind].
    set (x := cell (messages q) (head q + Z.of_nat i)).
    assert (Hx : qlist q !! i = Some x) by (rewrite qlist_lookup by done; by rewrite decide_True by lia).
    case_decide as Hty.
    - rewrite Nat2Z.id.
      destruct (shift_type_ok i (head q) (messages q)) as (ms & -> & HS); [done|lia|apply Q|].
      cbn [mbind option_bind].
      destruct (take_out i ms) as (q' & -> & HO & HD & Hdr); [lia|done|]. cbn [mbind option_bind].
      eexists _, q'. split_and!; [reflexivity|done|done|]. by exists i.
    - replace (Z.of_nat i + 1) with (Z.of_nat (S i)) by lia. apply IH; [lia|].
      rewrite (take_S_r _ _ _ Hx). apply Forall_app. by split; [|constructor]. }
  unfold queue_receive_type. apply (HI _ 0%nat); [lia|constructor].
Qed.
End ops.

(** ** Sending *)
Lemma ring_insert ms h n k m :
  0 <= h < 32 -> (k < n)%nat -> (n <= 32)%nat -> length ms = 32%nat ->
  ring (<[Z.to_nat ((h + Z.of_nat k) mod 32) := m]> ms) h n = <[k := m]> (ring ms h n).
Proof.
  intros Hh Hk Hn Hl. apply list_eq. intros i. rewrite ring_lookup.
  destruct (decide (i = k)) as [->|Hne].
  - rewrite decide_True by done. rewrite list_lookup_insert_eq by (by rewrite ring_length).
    by rewrite cell_set, Z.eqb_refl by (done || lia).
  - rewrite list_lookup_insert_ne by done. rewrite ring_lookup. case_decide; [|done].
    rewrite cell_set by (done || lia). by rewrite (proj2 (Z.eqb_neq _ _)) by dlia.
Qed.

Lemma ring_snoc ms h n m :
  0 <= h < 32 -> (n < 32)%nat -> length ms = 32%nat ->
  ring (<[Z.to_nat ((h + Z.of_nat n) mod 32) := m]> ms) h (S n) = ring ms h n ++ [m].
Proof.
  intros Hh Hn Hl. rewrite ring_insert by lia. unfold ring. rewrite seq_S, map_app. simpl.
  rewrite insert_app_r_alt by (by rewrite length_map, length_seq).
  by rewrite length_map, length_seq, Nat.sub_diag.
Qed.

Section send.
Context (q : MessageQueue) (Q : queue_ok q) (msg : IpcMessage) (t s : Z) (Ht : 0 <= t < 2 ^ 64).

Lemma queue_send_room :
  count q < 32 ->
  exists q', queue_send msg t s q = Some (IPC_SUCCESS, q') /\ queue_ok q' /\
    qlist q' = qlist q ++ [stamp msg t s] /\ dropped_count q' = dropped_count q.
Proof using Q Ht.
  intros Hc. pose proof (qo_count q Q) as HC. pose proof (qo_head q Q) as HH.
  unfold queue_send, send_slot. change MAX_MESSAGES with 32.
  rewrite (proj2 (Z.leb_gt _ _)) by lia. cbn [mbind option_bind messages].
  assert (Hn : head q + count q = head q + Z.of_nat (Z.to_nat (count q))) by lia.
  rewrite arr_set_some by (rewrite (qo_tail q Q), (qo_len q Q); dlia). cbn [mbind option_bind].
  pose proof (ring_snoc (messages q) (head q) (Z.to_nat (count q)) (stamp msg t s) HH ltac:(lia) (qo_len q Q)) as HR.
  rewrite <-Hn, <-(qo_tail q Q) in HR. change (ring (messages q) _ _) with (qlist q) in HR.
  destruct (recompute_ok (<[Z.to_nat (tail q):=stamp msg t s]> (messages q)) (head q)
    ((tail q + 1) mod 32) (count q + 1) (dropped_count q) (priority_bitmap q))
    as (q' & Hq & HO & HL & HD & _).
  - rewrite length_insert. apply Q.
  - done.
  - lia.
  - rewrite (qo_tail q Q). dlia.
  - replace (Z.to_nat (count q + 1)) with (S (Z.to_nat (count q))) by lia. rewrite HR.
    apply Forall_app. split; [apply Q|]. by constructor.
  - unfold set_messages. simpl. rewrite !u32_small by (rewrite ?(qo_tail q Q); dlia).
    rewrite Hq. cbn [mbind option_bind]. exists q'. split_and!; [done|done| |done].
    rewrite HL. by replace (Z.to_nat (count q + 1)) with (S (Z.to_nat (count q))) by lia.
Qed.

(** The lowest message of a full ring, as the drop loop finds it. *)
Lemma drop_loop_full :
  count q = 32 ->
  exists k m, drop_loop (Z.to_nat (count q)) 0 q (head q) IPC_PRIORITY_URGENT =
      Some (slot_of q (Z.of_nat k), priority m) /\ qlist q !! k = Some m /\ is_lowest (qlist q) k.
Proof using Q.
  clear Ht. intros Hc. pose proof (qo_head q Q) as HH. pose proof (qlist_length q Q) as HL.
  destruct (drop_loop_ok q Q (Z.to_nat (count q)) 0 0 IPC_PRIORITY_URGENT) as (k & low & HD & Hall & Hat).
  { lia. } { by right. } { intros j m' Hj. lia. } { by left. }
  change (Z.of_nat 0) with 0 in HD.
  replace (slot_of q 0) with (head q) in HD by (rewrite slot_mod by (done || lia); dlia).
  destruct Hat as [[-> ->]|(m & Hm & <-)].
  - destruct (lookup_lt_is_Some_2 (qlist q) 0) as [m Hm]; [lia|].
    destruct (Hall _ _ Hm) as [Hp _]. pose proof (prio_range (priority m)). simpl in Hp.
    assert (priority m = IPC_PRIORITY_URGENT) as Hu by (destruct (priority m); simpl in *; (done || lia)).
    exists 0%nat, m. rewrite Hu. split_and!; [done|done|]. exists m. split; [done|].
    intros j m' Hj. rewrite Hu. by apply Hall.
  - exists k, m. split_and!; [done|done|]. by exists m.
Qed.

Lemma queue_send_full :
  count q = 32 ->
  exists k m, qlist q !! k = Some m /\ is_lowest (qlist q) k /\
    if prio_val (priority m) <? prio_val (priority msg)
    then exists q', queue_send msg t s q = Some (IPC_SUCCESS, q') /\ queue_ok q' /\
           qlist q' = <[k := stamp msg t s]> (qlist q) /\ dropped_count q' = u32 (dropped_count q + 1)
    else queue_send msg t s q = Some (IPC_ERROR_QUEUE_FULL, q).
Proof using Q Ht.
  intros Hc. pose proof (qo_head q Q) as HH. pose proof (qlist_length q Q) as HL.
  destruct (drop_loop_full Hc) as (k & m & HD & Hm & Hlow). exists k, m. split_and!; [done|done|].
  pose proof (lookup_lt_Some _ _ _ Hm) as Hk. pose proof (prio_range (priority m)) as Hpm.
  unfold queue_send, send_slot. change MAX_MESSAGES with 32.
  rewrite (proj2 (Z.leb_le _ _)) by lia. rewrite HD.
  destruct (Z.ltb_spec (prio_val (priority m)) (prio_val (priority msg))) as [Hlt|Hge].
  - rewrite (proj2 (Z.ltb_lt _ _)) by (simpl; lia). cbn [mbind option_bind].
    rewrite (proj2 (Z.ltb_lt _ _)) by done. cbn [mbind option_bind messages].
    rewrite slot_mod by (done || lia).
    rewrite arr_set_some by (rewrite (qo_len q Q); dlia). cbn [mbind option_bind].
    pose proof (ring_insert (messages q) (head q) (Z.to_nat (count q)) k (stamp msg t s) HH
      ltac:(lia) ltac:(lia) (qo_len q Q)) as HR. change (ring (messages q) _ _) with (qlist q) in HR.
    edestruct (recompute_ok (<[Z.to_nat ((head q + Z.of_nat k) mod 32):=stamp msg t s]> (messages q)) (head q)
      (tail q) (count q) (u32 (dropped_count q + 1)) (priority_bitmap q)) as (q' & Hq & HO & HL' & HD' & _).
    + rewrite length_insert. apply Q.
    + done.
    + lia.
    + apply (qo_tail q Q).
    + rewrite HR. by apply Forall_insert; [apply Q|].
    + unfold set_messages. simpl. rewrite Hq. cbn [mbind option_bind]. exists q'.
      split_and!; [done|done| |done]. by rewrite HL', HR.
  - destruct (Z.ltb_spec (prio_val IPC_PRIORITY_LOW) (prio_val (priority msg))); [|done].
    cbn [mbind option_bind]. by rewrite (proj2 (Z.ltb_ge _ _)) by lia.
Qed.
End send.

Lemma has_type_loop_ok q ty :
  queue_ok q ->
  has_type_loop (Z.to_nat (count q)) 0 ty q = Some (existsb (fun m => bool_decide (mtype m = ty)) (qlist q)).
Proof.
  intros Q. pose proof (qo_count q Q) as HC. pose proof (qlist_length q Q) as HL.
  assert (HI : forall n i, Z.of_nat (i + n) = count q ->
    has_type_loop n (Z.of_nat i) ty q =
    Some (existsb (fun m => bool_decide (mtype m = ty)) (drop i (qlist q)))).
  { induction n as [|n IH]; intros i Hi; cbn [has_type_loop]; [by rewrite drop_ge by lia|].
    rewrite slot_get by (done || lia). cbn [mbind option_bind].
    rewrite (drop_S (qlist q) (cell (messages q) (head q + Z.of_nat i)) i)
      by (rewrite qlist_lookup by done; by rewrite decide_True by lia).
    cbn [existsb]. case_decide; [by rewrite bool_decide_true|]. rewrite bool_decide_false by done.
    replace (Z.of_nat i + 1) with (Z.of_nat (S i)) by lia. apply IH. lia. }
  rewrite <-(drop_0 (qlist q)). apply (HI _ 0%nat). lia.
Qed.

Lemma queue_flush_ok q : queue_ok q -> queue_ok (queue_flush q) /\ qlist (queue_flush q) = [].
Proof. intros Q. split; [|done]. constructor; simpl; try done; apply Q. Qed.
