(* ===== verification/IpcRun.v ===== *)
(** Processes exchanging messages: the operations of [src/kernel/ipc/Ipc.c] on the
    whole system, their interleavings, and their properties. *)
From Stdlib Require Import ZArith Lia Sorting.Sorted.
From stdpp Require Import base tactics list gmap sets numbers.
From S2P Require Import Prelude Ipc IpcQueue.

Section sys.
Context {P : Type} `{!IpcProc P}.
Implicit Types (s : ipc_sys P) (p : P).

Record sys_ok s : Prop := {
  so_queues : Forall (fun p => queue_ok (proc_queue p)) (procs s);
  so_current : 0 <= current s < Z.of_nat (length (procs s));
  so_ticks : 0 <= ticks s < 2 ^ 64
}.

(** The mailbox of a slot. *)
Definition mailbox s (slot : Z) : option (list IpcMessage) := qlist ∘ proc_queue <$> arr_get (procs s) slot.

Lemma sys_proc s slot p : sys_ok s -> arr_get (procs s) slot = Some p -> queue_ok (proc_queue p).
Proof.
  intros [HF _ _] Hp. rewrite Forall_lookup in HF. unfold arr_get in Hp.
  destruct (0 <=? slot); [|done]. by eapply HF.
Qed.

Lemma sys_update s slot p ps n t :
  sys_ok s -> arr_set (procs s) slot p = Some ps -> queue_ok (proc_queue p) -> t = ticks s ->
  sys_ok (mk_sys ps (current s) n t).
Proof.
  intros [HF HC HT] Hs Hq ->. apply arr_set_inv in Hs as [Hr ->]. constructor; simpl.
  - by apply Forall_insert.
  - by rewrite length_insert.
  - done.
Qed.

Lemma mailbox_update s slot slot' p ps n t :
  arr_set (procs s) slot p = Some ps ->
  mailbox (mk_sys ps (current s) n t) slot' =
  if slot' =? slot then Some (qlist (proc_queue p)) else mailbox s slot'.
Proof.
  intros Hs. apply arr_set_inv in Hs as [Hr ->]. unfold mailbox. simpl.
  destruct (Z.eqb_spec slot' slot) as [->|]; [by rewrite arr_get_insert_eq|].
  by rewrite arr_get_insert_ne by lia.
Qed.

Lemma find_pid_range ps i pid slot :
  find_pid ps i pid = Some slot -> i <= slot < i + Z.of_nat (length ps).
Proof.
  revert i. induction ps as [|p ps IH]; intros i; simpl; [done|].
  case_if E; [intros [= <-]; lia|]. intros H%IH. lia.
Qed.

Lemma by_pid_get s pid slot :
  GetCurrentProcessByPID pid s = Some slot -> exists p, arr_get (procs s) slot = Some p.
Proof. intros H%find_pid_range. apply arr_get_some. lia. Qed.

(** What a send does to the target's mailbox [l]. *)
Definition sent (l l' : list IpcMessage) (m : IpcMessage) (r : IpcResult) : Prop :=
  ((length l < 32)%nat /\ r = IPC_SUCCESS /\ l' = l ++ [m]) \/
  (length l = 32%nat /\ exists k old, l !! k = Some old /\ is_lowest l k /\
     ((prio_val (priority old) < prio_val (priority m) /\ r = IPC_SUCCESS /\ l' = <[k := m]> l) \/
      (prio_val (priority m) <= prio_val (priority old) /\ r = IPC_ERROR_QUEUE_FULL /\ l' = l))).

Lemma queue_send_ok q m t n :
  queue_ok q -> 0 <= t < 2 ^ 64 ->
  exists r q', queue_send m t n q = Some (r, q') /\ queue_ok q' /\ sent (qlist q) (qlist q') (stamp m t n) r /\
    (r = IPC_SUCCESS \/ (r = IPC_ERROR_QUEUE_FULL /\ q' = q)).
Proof.
  intros Q Ht. pose proof (qo_count q Q). pose proof (qlist_length q Q).
  destruct (decide (count q < 32)).
  - destruct (queue_send_room q Q m t n Ht) as (q' & HE & HO & HL & _); [done|].
    exists IPC_SUCCESS, q'. split_and!; [done|done| |by left]. left. split_and!; [lia|done|done].
  - destruct (queue_send_full q Q m t n Ht) as (k & old & Hk & Hlow & HC); [lia|].
    destruct (Z.ltb_spec (prio_val (priority old)) (prio_val (priority m))).
    + destruct HC as (q' & HE & HO & HL & _). exists IPC_SUCCESS, q'. split_and!; [done|done| |by left].
      right. split; [lia|]. exists k, old. split_and!; [done|done|]. left. by split_and!.
    + exists IPC_ERROR_QUEUE_FULL, q. split_and!; [done|done| |by right]. right. split; [lia|].
      exists k, old. split_and!; [done|done|]. right. by split_and!.
Qed.

Lemma IpcSendMessage_ok s pid m :
  sys_ok s ->
  exists r s', IpcSendMessage pid (Some m) s = Some (r, s') /\ sys_ok s' /\
    match GetCurrentProcessByPID pid s with
    | None => r = IPC_ERROR_NO_PROCESS /\ s' = s
    | Some slot =>
        exists l l', mailbox s slot = Some l /\ mailbox s' slot = Some l' /\
          sent l l' (stamp m (ticks s) (next_sequence_id s)) r /\
          (forall other, other <> slot -> mailbox s' other = mailbox s other) /\
          (r = IPC_SUCCESS -> forall p', arr_get (procs s') slot = Some p' -> proc_state p' <> PROC_BLOCKED) /\
          current s' = current s
    end.
Proof.
  intros HS. unfold IpcSendMessage. destruct (GetCurrentProcessByPID pid s) as [slot|] eqn:Ep.
  2: { eexists _, _. split_and!; [reflexivity|done|done|done]. }
  destruct (by_pid_get s pid slot Ep) as (p & Hp). rewrite Hp. cbn [mbind option_bind].
  destruct (queue_send_ok (proc_queue p) m (ticks s) (next_sequence_id s)) as (r & q' & HE & HO & Hsent & Hr);
    [by eapply sys_proc|apply HS|]. rewrite HE. cbn [mbind option_bind].
  destruct Hr as [-> | [-> ->]].
  2: { eexists _, _. split_and!; [reflexivity|done|]. exists (qlist (proc_queue p)), (qlist (proc_queue p)).
       unfold mailbox. rewrite Hp. split_and!; [done|done|exact Hsent|done|intros [=]|done]. }
  set (t2 := if bool_decide _ then _ else _).
  assert (Ht2 : proc_queue t2 = q' /\ proc_state t2 <> PROC_BLOCKED).
  { subst t2. case_bool_decide; [|by rewrite proc_queue_set].
    by rewrite proc_queue_set_state, proc_queue_set, proc_state_set. }
  destruct Ht2 as [Hq2 Hs2]. clearbody t2.
  pose proof (arr_get_range _ _ _ Hp) as Hrange.
  pose proof (arr_set_some (procs s) slot t2 Hrange) as Hset. rewrite Hset. cbn [mbind option_bind].
  eexists _, _. split; [reflexivity|]. split.
  { apply (sys_update s slot t2 _ _ _ HS Hset); [by rewrite Hq2|done]. }
  exists (qlist (proc_queue p)), (qlist q'). split_and!.
  - unfold mailbox. by rewrite Hp.
  - unfold set_procs, bump_seq. simpl.
    rewrite (mailbox_update s _ _ _ _ _ _ Hset). by rewrite Z.eqb_refl, Hq2.
  - done.
  - intros other Hne. unfold set_procs, bump_seq. simpl. rewrite (mailbox_update s _ _ _ _ _ _ Hset).
    by rewrite (proj2 (Z.eqb_neq _ _)).
  - intros _ p' Hp'. simpl in Hp'. rewrite arr_get_insert_eq in Hp' by done. by simplify_eq.
  - done.
Qed.

(** A receive pass of either kind: [take] says what a successful pass takes. *)
Lemma receive_pass_ok s recv (take : list IpcMessage -> list IpcMessage -> IpcMessage -> Prop)
    (none : list IpcMessage -> Prop) :
  sys_ok s ->
  (forall q, queue_ok q -> exists r q', recv q = Some (r, q') /\ queue_ok q' /\
     match r with Some m => take (qlist q) (qlist q') m | None => none (qlist q) /\ q' = q end) ->
  exists r s', receive_pass recv s = Some (r, s') /\ sys_ok s' /\ current s' = current s /\
    (forall other, other <> current s -> mailbox s' other = mailbox s other) /\
    exists l l', mailbox s (current s) = Some l /\ mailbox s' (current s) = Some l' /\
      match r with
      | Some m => take l l' m
      | None => none l /\ l' = l /\
          forall p', arr_get (procs s') (current s) = Some p' -> proc_state p' = PROC_BLOCKED
      end.
Proof.
  intros HS Hrecv. pose proof (so_current s HS) as Hcur. unfold receive_pass, GetCurrentProcess.
  destruct (arr_get_some (procs s) (current s) Hcur) as (p & Hp). rewrite Hp. cbn [mbind option_bind].
  destruct (Hrecv (proc_queue p)) as (r & q' & -> & HO & HR); [by eapply sys_proc|].
  cbn [mbind option_bind]. set (c2 := match r with Some _ => _ | None => _ end).
  assert (Hc2 : proc_queue c2 = q').
  { subst c2. destruct r; by rewrite ?proc_queue_set_state, proc_queue_set. }
  assert (Hst : r = None -> proc_state c2 = PROC_BLOCKED).
  { intros ->. apply proc_state_set. }
  clearbody c2. pose proof (arr_set_some (procs s) (current s) c2 Hcur) as Hset. rewrite Hset.
  cbn [mbind option_bind]. eexists _, _. split; [reflexivity|]. unfold set_procs.
  split; [apply (sys_update s (current s) c2 _ _ _ HS Hset); [by rewrite Hc2|done]|]. split; [done|]. split.
  { intros other Hne. rewrite (mailbox_update s _ _ _ _ _ _ Hset). by rewrite (proj2 (Z.eqb_neq _ _)). }
  exists (qlist (proc_queue p)), (qlist q'). split; [unfold mailbox; by rewrite Hp|].
  split; [rewrite (mailbox_update s _ _ _ _ _ _ Hset); by rewrite Z.eqb_refl, Hc2|].
  destruct r; [done|]. destruct HR as [HR ->]. split_and!; [done|done|]. intros p' Hp'. simpl in Hp'.
  rewrite arr_get_insert_eq in Hp' by done. simplify_eq. by apply Hst.
Qed.

(** Taking the best message, and taking the first one of a type. *)
Definition takes_best (l l' : list IpcMessage) (m : IpcMessage) : Prop :=
  exists k, is_best l k /\ l !! k = Some m /\ l' = delete k l.
Definition takes_type (ty : IpcMessageType) (l l' : list IpcMessage) (m : IpcMessage) : Prop :=
  exists k, l !! k = Some m /\ mtype m = ty /\ Forall (fun m => mtype m <> ty) (take k l) /\ l' = delete k l.

Lemma IpcReceive_ok s :
  sys_ok s ->
  exists r s', IpcReceiveMessage_pass s = Some (r, s') /\ sys_ok s' /\ current s' = current s /\
    (forall other, other <> current s -> mailbox s' other = mailbox s other) /\
    exists l l', mailbox s (current s) = Some l /\ mailbox s' (current s) = Some l' /\
      match r with
      | Some m => takes_best l l' m
      | None => l = [] /\ l' = l /\
          forall p', arr_get (procs s') (current s) = Some p' -> proc_state p' = PROC_BLOCKED
      end.
Proof.
  intros HS. apply (receive_pass_ok s queue_receive takes_best (fun l => l = [])); [done|].
  intros q Q. destruct (queue_receive_ok q Q) as (r & q' & H1 & H2 & _ & H4). by exists r, q'.
Qed.

Lemma IpcReceiveType_ok s ty :
  sys_ok s ->
  exists r s', IpcReceiveMessageType_pass ty s = Some (r, s') /\ sys_ok s' /\ current s' = current s /\
    (forall other, other <> current s -> mailbox s' other = mailbox s other) /\
    exists l l', mailbox s (current s) = Some l /\ mailbox s' (current s) = Some l' /\
      match r with
      | Some m => takes_type ty l l' m
      | None => Forall (fun m => mtype m <> ty) l /\ l' = l /\
          forall p', arr_get (procs s') (current s) = Some p' -> proc_state p' = PROC_BLOCKED
      end.
Proof.
  intros HS.
  apply (receive_pass_ok s (queue_receive_type ty) (takes_type ty) (Forall (fun m => mtype m <> ty))); [done|].
  intros q Q. destruct (queue_receive_type_ok q Q ty) as (r & q' & H1 & H2 & _ & H4). by exists r, q'.
Qed.

Lemma IpcFlush_ok s :
  sys_ok s ->
  exists s', IpcFlushQueue s = Some s' /\ sys_ok s' /\ current s' = current s /\
    mailbox s' (current s) = Some [] /\
    (forall other, other <> current s -> mailbox s' other = mailbox s other).
Proof.
  intros HS. pose proof (so_current s HS) as Hcur. unfold IpcFlushQueue, GetCurrentProcess.
  destruct (arr_get_some (procs s) (current s) Hcur) as (p & Hp). rewrite Hp. cbn [mbind option_bind].
  destruct (queue_flush_ok (proc_queue p)) as [HO HL]; [by eapply sys_proc|].
  pose proof (arr_set_some (procs s) (current s) (set_proc_queue (queue_flush (proc_queue p)) p) Hcur) as Hset.
  rewrite Hset. cbn [mbind option_bind]. eexists. split; [reflexivity|]. unfold set_procs. split_and!.
  - apply (sys_update s (current s) _ _ _ _ HS Hset); [by rewrite proc_queue_set|done].
  - done.
  - rewrite (mailbox_update s _ _ _ _ _ _ Hset). by rewrite Z.eqb_refl, proc_queue_set, HL.
  - intros other Hne. rewrite (mailbox_update s _ _ _ _ _ _ Hset). by rewrite (proj2 (Z.eqb_neq _ _)).
Qed.

(** ** Interleavings *)

(** One atomic step of the system: an IPC call of the current process, a context switch
    or a timer tick. *)
Inductive ipc_step : ipc_sys P -> ipc_sys P -> Prop :=
| step_send s pid m r s' : IpcSendMessage pid m s = Some (r, s') -> ipc_step s s'
| step_request s pid d n ptr r id s' :
    IpcSendRequest pid d n ptr s = Some (r, id, s') -> ipc_step s s'
| step_response s pid id d n st r s' :
    IpcSendResponse pid id d n st s = Some (r, s') -> ipc_step s s'
| step_receive s r s' : IpcReceiveMessage_pass s = Some (r, s') -> ipc_step s s'
| step_receive_type s ty r s' : IpcReceiveMessageType_pass ty s = Some (r, s') -> ipc_step s s'
| step_flush s s' : IpcFlushQueue s = Some s' -> ipc_step s s'
| step_switch s c : 0 <= c < Z.of_nat (length (procs s)) ->
    ipc_step s (mk_sys (procs s) c (next_sequence_id s) (ticks s))
| step_tick s t : 0 <= t < 2 ^ 64 ->
    ipc_step s (mk_sys (procs s) (current s) (next_sequence_id s) t).

Lemma send_any_ok s pid m :
  sys_ok s -> exists r s', IpcSendMessage pid m s = Some (r, s') /\ sys_ok s'.
Proof.
  intros HS. destruct m as [m|]; [|by exists IPC_ERROR_INVALID_MSG, s].
  destruct (IpcSendMessage_ok s pid m HS) as (r & s' & H1 & H2 & _). by exists r, s'.
Qed.

Lemma bump_ok s : sys_ok s -> sys_ok (bump_seq s).
Proof. intros []. by constructor. Qed.

Lemma ipc_step_ok s s' : sys_ok s -> ipc_step s s' -> sys_ok s'.
Proof.
  intros HS Hst. destruct Hst as [s pid m r s' H|s pid d n ptr r id s' H|s pid id d n st r s' H
    |s r s' H|s ty r s' H|s s' H|s c Hc|s t Ht].
  - destruct (send_any_ok s pid m HS) as (? & ? & ? & ?). congruence.
  - unfold IpcSendRequest in H. destruct d as [d|]; [|by simplify_eq].
    case_if_in H E; [by simplify_eq|]. destruct (GetCurrentProcess s); [|done]. cbn [mbind option_bind] in H.
    match type of H with context [IpcSendMessage ?a ?b ?c] =>
      destruct (send_any_ok c a b (bump_ok s HS)) as (r2 & s2 & H2 & HS2) end.
    rewrite H2 in H. by simplify_eq/=.
  - unfold IpcSendResponse in H. case_if_in H E; [by simplify_eq|].
    destruct (GetCurrentProcess s); [|done]. cbn [mbind option_bind] in H.
    match type of H with context [IpcSendMessage ?a ?b ?c] =>
      destruct (send_any_ok c a b HS) as (r2 & s2 & H2 & HS2) end.
    rewrite H2 in H. by simplify_eq.
  - destruct (IpcReceive_ok s HS) as (? & ? & ? & ? & _). congruence.
  - destruct (IpcReceiveType_ok s ty HS) as (? & ? & ? & ? & _). congruence.
  - destruct (IpcFlush_ok s HS) as (? & ? & ? & _). congruence.
  - destruct HS. by constructor.
  - destruct HS. by constructor.
Qed.

Lemma ipc_steps_ok s s' : sys_ok s -> rtc ipc_step s s' -> sys_ok s'.
Proof. intros HS Hr. induction Hr; eauto using ipc_step_ok. Qed.
End sys.

(** ** Draining a mailbox *)
Fixpoint drain (n : nat) (q : MessageQueue) : option (list IpcMessage) :=
  match n with
  | O => Some []
  | S n' =>
      r ← queue_receive q;
      match r with
      | (Some m, q') => ms ← drain n' q'; Some (m :: ms)
      | (None, _) => Some []
      end
  end.

(** [b] is not served before [a]. *)
Definition served (a b : IpcMessage) : Prop := better b a = false.

Lemma drain_ok n q :
  queue_ok q -> length (qlist q) = n ->
  exists ms, drain n q = Some ms /\ Permutation ms (qlist q) /\ StronglySorted served ms.
Proof.
  revert q. induction n as [|n IH]; intros q Q Hn; cbn [drain].
  { apply nil_length_inv in Hn as ->. exists []. split_and!; [done|done|constructor]. }
  destruct (queue_receive_ok q Q) as (r & q' & -> & HO & _ & HR). cbn [mbind option_bind].
  destruct r as [m|]; [|by destruct HR as [HR _]; rewrite HR in Hn].
  destruct HR as (k & HB & Hm & HD).
  destruct (IH q' HO) as (ms & -> & HP & HS).
  { rewrite HD, length_delete by (by eexists). lia. }
  cbn [mbind option_bind]. exists (m :: ms).
  pose proof (delete_Permutation _ _ _ Hm) as Hperm. rewrite HD in HP.
  split_and!; [done|by rewrite HP|]. constructor; [done|].
  apply list.Forall_forall. intros x Hx. rewrite HP in Hx.
  destruct HB as (m0 & Hm0 & HB). simplify_eq.
  assert (Hin : x ∈ qlist q) by (rewrite Hperm; by right).
  apply list_elem_of_lookup in Hin as [j Hj]. by apply (HB j x).
Qed.
