(* ===== verification/IpcProps.v ===== *)
(** Properties of the message system ([src/kernel/ipc/Ipc.c]); the witnesses use a
    two-process system with the smallest process record the interface allows. *)
From Stdlib Require Import ZArith Lia Sorting.Sorted.
From stdpp Require Import base tactics list gmap sets numbers.
From S2P Require Import Prelude Ipc IpcQueue IpcRun.

(** ** A minimal process *)
Record mini := mk_mini { mini_pid : Z; mini_state : ProcessState; mini_queue : MessageQueue }.
#[export] Instance mini_proc : IpcProc mini := {
  proc_pid := mini_pid;
  proc_state := mini_state;
  proc_queue := mini_queue;
  set_proc_state st p := mk_mini (mini_pid p) st (mini_queue p);
  set_proc_queue q p := mk_mini (mini_pid p) (mini_state p) q;
  proc_state_set s p := eq_refl;
  proc_queue_set q p := eq_refl;
  proc_state_set_queue q p := eq_refl;
  proc_queue_set_state s p := eq_refl;
  proc_pid_set_state s p := eq_refl;
  proc_pid_set_queue q p := eq_refl
}.

Definition empty_msg : IpcMessage := mk_msg 0 0 IPC_TYPE_DATA IPC_PRIORITY_LOW 0 0 [].
Definition empty_queue : MessageQueue := mk_queue (replicate 32 empty_msg) 0 0 0 0 0.
Definition two_procs : ipc_sys mini :=
  mk_sys [mk_mini 1 PROC_RUNNING empty_queue; mk_mini 2 PROC_BLOCKED empty_queue] 0 1 7.

Lemma two_procs_ok : sys_ok two_procs.
Proof. constructor; [|vm_compute; split; congruence..].
  repeat constructor; vm_compute; congruence. Qed.

Section props.
Context {P : Type} `{!IpcProc P}.
Implicit Types s : ipc_sys P.

(** C12. Whatever interleaving of sends, requests, responses, receive passes, flushes,
    context switches and timer ticks runs, every mailbox stays a well-formed ring: indices
    in range, tail at head + count, and the priority bitmap exactly the priorities queued. *)
Theorem ipc_invariant s s' :
  sys_ok s -> rtc ipc_step s s' ->
  Forall (fun p => let q := proc_queue p in
    length (messages q) = 32%nat /\ 0 <= head q < 32 /\ 0 <= count q <= 32 /\
    tail q = (head q + count q) mod 32 /\ priority_bitmap q = prio_bits (qlist q)) (procs s').
Proof.
  intros HS Hr. eapply list.Forall_impl; [apply (so_queues _ (ipc_steps_ok s s' HS Hr))|].
  intros p Q. by destruct Q.
Qed.

(** C13. IpcSendMessage never faults.  A pid without a live process gives NO_PROCESS and
    changes nothing.  Otherwise only the target's mailbox changes: with room the stamped
    message is appended; a full mailbox replaces the first message of the lowest priority
    when the new one is more urgent and refuses it otherwise; after a success the target is
    not left blocked. *)
Theorem IpcSendMessage_correct s pid m :
  sys_ok s ->
  exists r s', IpcSendMessage pid (Some m) s = Some (r, s') /\ sys_ok s' /\
    match GetCurrentProcessByPID pid s with
    | None => r = IPC_ERROR_NO_PROCESS /\ s' = s
    | Some slot =>
        exists l l', mailbox s slot = Some l /\ mailbox s' slot = Some l' /\
          sent l l' (stamp m (ticks s) (next_sequence_id s)) r /\
          (forall other, other <> slot -> mailbox s' other = mailbox s other) /\
          (r = IPC_SUCCESS -> forall p', arr_get (procs s') slot = Some p' -> proc_state p' <> PROC_BLOCKED) /\
          current s' = current s
    end.
Proof. apply IpcSendMessage_ok. Qed.

(** C14. One pass of IpcReceiveMessage never faults and touches only the caller's mailbox.
    It takes the message of the highest priority, the oldest of those and the first of
    equally old ones, keeping the others in order; on an empty mailbox it takes nothing and
    leaves the caller blocked. *)
Theorem IpcReceiveMessage_correct s :
  sys_ok s ->
  exists r s', IpcReceiveMessage_pass s = Some (r, s') /\ sys_ok s' /\ current s' = current s /\
    (forall other, other <> current s -> mailbox s' other = mailbox s other) /\
    exists l l', mailbox s (current s) = Some l /\ mailbox s' (current s) = Some l' /\
      match r with
      | Some m => exists k, is_best l k /\ (forall k', is_best l k' -> k' = k) /\
          l !! k = Some m /\ l' = delete k l
      | None => l = [] /\ l' = l /\
          forall p', arr_get (procs s') (current s) = Some p' -> proc_state p' = PROC_BLOCKED
      end.
Proof.
  intros HS. destruct (IpcReceive_ok s HS) as (r & s' & H1 & H2 & H3 & H4 & l & l' & H5 & H6 & H7).
  exists r, s'. split_and!; try done. exists l, l'. split_and!; try done. destruct r; [|done].
  destruct H7 as (k & HB & Hk & HD). exists k. split_and!; try done.
  intros k' HB'. by eapply is_best_unique.
Qed.

(** One pass of IpcReceiveMessageType never faults and touches only the caller's
    mailbox: it takes the first message of the type, keeping the others in order, or, when
    there is none, takes nothing and leaves the caller blocked. *)
Theorem IpcReceiveMessageType_correct s ty :
  sys_ok s ->
  exists r s', IpcReceiveMessageType_pass ty s = Some (r, s') /\ sys_ok s' /\ current s' = current s /\
    (forall other, other <> current s -> mailbox s' other = mailbox s other) /\
    exists l l', mailbox s (current s) = Some l /\ mailbox s' (current s) = Some l' /\
      match r with
      | Some m => exists k, l !! k = Some m /\ mtype m = ty /\
          Forall (fun m => mtype m <> ty) (take k l) /\ l' = delete k l
      | None => Forall (fun m => mtype m <> ty) l /\ l' = l /\
          forall p', arr_get (procs s') (current s) = Some p' -> proc_state p' = PROC_BLOCKED
      end.
Proof. apply IpcReceiveType_ok. Qed.
End props.

Lemma ipc_invariant_witness :
  exists s', rtc ipc_step two_procs s' /\ s' <> two_procs /\ Forall (fun p => length (messages (proc_queue p)) = 32%nat) (procs s').
Proof.
  assert (Hr : rtc ipc_step two_procs (mk_sys (procs two_procs) 1 1 7)).
  { apply rtc_once. apply (step_switch two_procs 1). vm_compute. split; congruence. }
  exists (mk_sys (procs two_procs) 1 1 7). split; [exact Hr|]. split; [vm_compute; congruence|].
  eapply list.Forall_impl; [exact (ipc_invariant two_procs _ two_procs_ok Hr)|].
  intros p Hp. exact (proj1 Hp).
Defined.
Lemma IpcSendMessage_correct_witness :
  exists r s', IpcSendMessage 2 (Some empty_msg) two_procs = Some (r, s') /\ sys_ok s'.
Proof.
  destruct (IpcSendMessage_correct two_procs 2 empty_msg two_procs_ok) as (r & s' & H1 & H2 & _).
  exists r, s'. split; [exact H1|exact H2].
Defined.
Lemma IpcReceiveMessage_correct_witness :
  exists r s', IpcReceiveMessage_pass two_procs = Some (r, s') /\ sys_ok s'.
Proof.
  destruct (IpcReceiveMessage_correct two_procs two_procs_ok) as (r & s' & H1 & H2 & _).
  exists r, s'. split; [exact H1|exact H2].
Defined.
Lemma IpcReceiveMessageType_correct_witness :
  exists r s', IpcReceiveMessageType_pass IPC_TYPE_SIGNAL two_procs = Some (r, s') /\ sys_ok s'.
Proof.
  destruct (IpcReceiveMessageType_correct two_procs IPC_TYPE_SIGNAL two_procs_ok) as (r & s' & H1 & H2 & _).
  exists r, s'. split; [exact H1|exact H2].
Defined.

(** Receiving until the mailbox is empty returns every queued message exactly once, in
    service order: no message is returned after one that is less urgent or, at the same
    priority, newer. *)
Theorem drain_sorted q :
  queue_ok q ->
  exists ms, drain (length (qlist q)) q = Some ms /\ Permutation ms (qlist q) /\
    StronglySorted (fun a b => prio_val (priority b) <= prio_val (priority a) /\
      (prio_val (priority a) = prio_val (priority b) -> timestamp a <= timestamp b)) ms.
Proof.
  intros Q. destruct (drain_ok _ q Q eq_refl) as (ms & H1 & H2 & H3). exists ms. split_and!; [done|done|].
  clear -H3. induction H3 as [|m ms _ IH HF]; constructor; [done|].
  eapply list.Forall_impl; [exact HF|]. intros x Hx. unfold served in Hx.
  apply not_true_iff_false in Hx. rewrite better_spec in Hx. lia.
Qed.
Definition busy_queue : MessageQueue :=
  mk_queue ([mk_msg 1 1 IPC_TYPE_DATA IPC_PRIORITY_LOW 5 0 []; mk_msg 1 2 IPC_TYPE_DATA IPC_PRIORITY_HIGH 6 0 [];
             mk_msg 1 3 IPC_TYPE_DATA IPC_PRIORITY_HIGH 6 0 []] ++ replicate 29 empty_msg) 0 3 3 0 5.
Lemma drain_sorted_witness :
  queue_ok busy_queue /\ exists ms, drain 3 busy_queue = Some ms /\ Permutation ms (qlist busy_queue).
Proof.
  assert (Q : queue_ok busy_queue).
  { assert (E : qlist busy_queue = take 3 (messages busy_queue)) by (vm_compute; reflexivity).
    constructor; [reflexivity|cbn; lia|cbn; lia|reflexivity|by rewrite E|].
    rewrite E. repeat constructor; cbn; lia. }
  split; [exact Q|]. destruct (drain_sorted busy_queue Q) as (ms & H1 & H2 & _). exists ms. split; [exact H1|exact H2].
Defined.

(** A message sent to a live process with an empty mailbox is delivered: when that
    process is current, its next receive pass returns exactly the message, stamped with the
    send time and a fresh sequence number, and the mailbox is empty again. *)
Theorem send_then_receive {P : Type} `{!IpcProc P} (s : ipc_sys P) pid slot m :
  sys_ok s -> GetCurrentProcessByPID pid s = Some slot -> mailbox s slot = Some [] ->
  exists s1 s2, IpcSendMessage pid (Some m) s = Some (IPC_SUCCESS, s1) /\
    IpcReceiveMessage_pass (mk_sys (procs s1) slot (next_sequence_id s1) (ticks s1)) =
      Some (Some (stamp m (ticks s) (next_sequence_id s)), s2) /\
    mailbox s2 slot = Some [].
Proof.
  intros HS Hpid Hempty.
  destruct (IpcSendMessage_ok s pid m HS) as (r & s1 & H1 & HS1 & HC). rewrite Hpid in HC.
  destruct HC as (l & l' & Hl & Hl' & Hsent & _). rewrite Hempty in Hl. simplify_eq.
  destruct Hsent as [(_ & -> & ->)|(Hlen & _)]; [|done]. simpl in Hl'.
  assert (Hrange : 0 <= slot < Z.of_nat (length (procs s1))).
  { unfold mailbox in Hl'. destruct (arr_get (procs s1) slot) eqn:E; [|done]. by eapply arr_get_range. }
  set (sw := mk_sys (procs s1) slot (next_sequence_id s1) (ticks s1)).
  assert (HSw : sys_ok sw) by (destruct HS1; by constructor).
  destruct (IpcReceive_ok sw HSw) as (r2 & s2 & H2 & _ & _ & _ & l2 & l2' & Hl2 & Hl2' & HR).
  change (mailbox sw (current sw)) with (mailbox s1 slot) in Hl2. rewrite Hl' in Hl2. simplify_eq.
  destruct r2 as [m2|]; [|by destruct HR]. destruct HR as (k & _ & Hk & ->).
  destruct k as [|k]; simplify_eq/=. by exists s1, s2.
Qed.
Lemma send_then_receive_witness :
  exists s1 s2, IpcSendMessage 2 (Some empty_msg) two_procs = Some (IPC_SUCCESS, s1) /\
    IpcReceiveMessage_pass (mk_sys (procs s1) 1 (next_sequence_id s1) (ticks s1)) =
      Some (Some (stamp empty_msg 7 1), s2) /\ mailbox s2 1 = Some [].
Proof.
  apply (send_then_receive two_procs 2 1 empty_msg two_procs_ok); vm_compute; reflexivity.
Defined.

(** Little-endian 32-bit word at offset [o] of a payload. *)
Definition word_at (bs : list Z) (o : nat) : Z :=
  bs !!! o + 256 * (bs !!! (o + 1)%nat) + 65536 * (bs !!! (o + 2)%nat) + 16777216 * (bs !!! (o + 3)%nat).

Lemma le32_word z rest : 0 <= z < 2 ^ 32 -> word_at (le32 z ++ rest) 0 = z.
Proof.
  intros Hz. unfold word_at, le32, u8. simpl. rewrite !Z.shiftr_div_pow2 by lia.
  change (2 ^ 8) with 256. change (2 ^ 16) with 65536. change (2 ^ 24) with 16777216. dlia.
Qed.

Lemma payload_of_small bytes :
  (length bytes <= 512)%nat -> payload_of bytes = bytes ++ replicate (512 - length bytes) 0.
Proof.
  intros H. unfold payload_of. change (Z.to_nat IPC_MAX_PAYLOAD) with 512%nat.
  rewrite take_app_ge by done. f_equal. rewrite take_replicate. f_equal. lia.
Qed.

(** A request of at most 504 bytes to a live process with room is queued intact: the
    caller gets the request id, the message's 512-byte payload starts with that id and
    carries the data at offset 8, its size is the data size plus 8 and its sequence number
    is the next one; larger requests and NULL data are refused without any change. *)
Theorem IpcSendRequest_correct {P : Type} `{!IpcProc P} (s : ipc_sys P) pid slot l data size :
  sys_ok s -> 0 <= next_sequence_id s < 2 ^ 32 -> GetCurrentProcessByPID pid s = Some slot ->
  mailbox s slot = Some l -> (length l < 32)%nat -> 0 <= size <= Z.of_nat (length data) ->
  let id := next_sequence_id s in
  IpcSendRequest pid None size true s = Some (IPC_ERROR_INVALID_MSG, None, s) /\
  if 504 <? size then IpcSendRequest pid (Some data) size true s = Some (IPC_ERROR_INVALID_MSG, None, s)
  else exists s' m, IpcSendRequest pid (Some data) size true s = Some (IPC_SUCCESS, Some id, s') /\
    mailbox s' slot = Some (l ++ [m]) /\ mtype m = IPC_TYPE_REQUEST /\ msize m = size + 8 /\
    length (payload m) = 512%nat /\ word_at (payload m) 0 = id /\
    take (Z.to_nat size) (drop 8 (payload m)) = take (Z.to_nat size) data /\
    sequence_id m = u32 (id + 1).
Proof.
  intros HS Hid Hpid Hmail Hlen Hsize id. split; [done|]. unfold IpcSendRequest.
  change (IPC_MAX_PAYLOAD - 8) with 504. destruct (Z.ltb_spec 504 size); [done|]. cbn [orb negb].
  destruct (arr_get_some (procs s) (current s) (so_current s HS)) as (p & Hp).
  unfold GetCurrentProcess. rewrite Hp. cbn [mbind option_bind].
  set (msg := mk_msg _ _ _ _ _ _ _).
  destruct (IpcSendMessage_ok (bump_seq s) pid msg (bump_ok s HS)) as (r & s' & H1 & _ & HC).
  change (GetCurrentProcessByPID pid (bump_seq s)) with (GetCurrentProcessByPID pid s) in HC.
  rewrite Hpid in HC. destruct HC as (l0 & l' & Hl & Hl' & Hsent & _).
  change (mailbox (bump_seq s) slot) with (mailbox s slot) in Hl. rewrite Hmail in Hl. simplify_eq.
  destruct Hsent as [(_ & -> & ->)|(Hl32 & _)]; [|lia]. rewrite H1. cbn [mbind option_bind].
  eexists s', _. split; [reflexivity|]. split; [exact Hl'|].
  assert (Hd : length (take (Z.to_nat size) data) = Z.to_nat size) by (rewrite length_take; lia).
  assert (Hpl : payload msg = le32 id ++ (le32 0 ++ take (Z.to_nat size) data) ++
                  replicate (512 - (8 + Z.to_nat size)) 0).
  { subst msg. cbn [payload]. rewrite payload_of_small by (rewrite !length_app, Hd; simpl; lia).
    rewrite !length_app, Hd. rewrite <-!app_assoc. done. }
  unfold stamp. cbn [mtype msize payload sequence_id]. rewrite Hpl. split_and!; try done.
  - rewrite !length_app, length_replicate, Hd. simpl. lia.
  - by apply le32_word.
  - change (drop 8 _) with (take (Z.to_nat size) data ++ replicate (512 - (8 + Z.to_nat size)) 0).
    by rewrite take_app_le, take_take, Nat.min_id by lia.
Qed.
Lemma IpcSendRequest_correct_witness :
  exists s' m, IpcSendRequest 2 (Some [10; 20; 30]) 3 true two_procs = Some (IPC_SUCCESS, Some 1, s') /\
    mailbox s' 1 = Some [m] /\ word_at (payload m) 0 = 1 /\ take 3 (drop 8 (payload m)) = [10; 20; 30].
Proof.
  destruct (IpcSendRequest_correct two_procs 2 1 [] [10; 20; 30] 3 two_procs_ok)
    as (_ & s' & m & H1 & H2 & _ & _ & _ & H6 & H7 & _);
    [vm_compute; split; congruence|vm_compute; reflexivity|vm_compute; reflexivity|vm_compute; lia|vm_compute; split; congruence|].
  exists s', m. split; [exact H1|]. split; [exact H2|]. split; [exact H6|exact H7].
Defined.

Lemma ToData_loop_ok i bytes pl :
  0 <= i <= Z.of_nat (length pl) ->
  (exists pl', ToData_loop i bytes pl = Some pl') <-> i + Z.of_nat (length bytes) <= Z.of_nat (length pl).
Proof.
  revert i pl. induction bytes as [|b bytes IH]; intros i pl Hi; cbn [ToData_loop length].
  { split; [lia|]. intros _. by exists pl. }
  destruct (decide (i < Z.of_nat (length pl))).
  - rewrite arr_set_some by lia. cbn [mbind option_bind]. rewrite IH by (rewrite length_insert; lia).
    rewrite length_insert. lia.
  - split; [|lia]. intros [pl' H]. unfold arr_set in H.
    rewrite (proj2 (Z.ltb_ge _ _)), andb_false_r in H by lia. done.
Qed.

(** ToData stays inside the 512-byte payload exactly for strings of at most 512
    bytes: the copy has no bound check and a longer string writes past the payload. *)
Theorem ToData_bound data str :
  length (payload data) = 512%nat ->
  (exists data', ToData data str = Some data') <-> (length str <= 512)%nat.
Proof.
  intros Hl. pose proof (ToData_loop_ok 0 str (payload data) ltac:(lia)) as HI. rewrite Hl in HI.
  unfold ToData. split.
  - intros [d H]. destruct (ToData_loop 0 str (payload data)) as [pl|]; [|done].
    assert (0 + Z.of_nat (length str) <= Z.of_nat 512) by (apply HI; by exists pl). lia.
  - intros H. destruct (proj2 HI) as [pl ->]; [lia|]. by eexists.
Qed.
Lemma ToData_bound_witness :
  exists data', ToData (mk_msg 0 0 IPC_TYPE_DATA IPC_PRIORITY_LOW 0 0 (replicate 512 0)) [104; 105] = Some data'.
Proof.
  apply (ToData_bound (mk_msg 0 0 IPC_TYPE_DATA IPC_PRIORITY_LOW 0 0 (replicate 512 0)) [104; 105]);
    [vm_compute; reflexivity|simpl; lia].
Defined.
