(* ===== verification/Crc32.v ===== *)
(** The table-driven CRC-32 of [src/crypto/CRC32.c], which seals the scheduler's process
    control blocks, and its equivalence with the bit-serial definition of the code. *)
From Stdlib Require Import ZArith Lia.
From stdpp Require Import base tactics list numbers.
From S2P Require Import Prelude.

(** ** The code *)
Definition polynomial : Z := 0xEDB88320.

Fixpoint crc_entry (j : nat) (c : Z) : Z :=
  match j with
  | O => c
  | S j' =>
      crc_entry j' (if negb (Z.land c 1 =? 0) then Z.lxor polynomial (Z.shiftr c 1) else Z.shiftr c 1)
  end.

(** The table and the function-static flag. *)
Record crc_state := mk_crc { crc32_table : list Z; table_generated : bool }.

Fixpoint init_loop (n : nat) (i : Z) (tbl : list Z) : option (list Z) :=
  match n with
  | O => Some tbl
  | S n' => tbl' ← arr_set tbl i (crc_entry 8 i); init_loop n' (i + 1) tbl'
  end.
Definition CRC32Init (st : crc_state) : option crc_state :=
  tbl ← init_loop 256 0 (crc32_table st); Some (mk_crc tbl (table_generated st)).

Fixpoint crc_loop (tbl : list Z) (data : list Z) (crc : Z) : option Z :=
  match data with
  | [] => Some crc
  | b :: data' =>
      t ← arr_get tbl (Z.land (Z.lxor crc b) 0xFF);
      crc_loop tbl data' (Z.lxor t (Z.shiftr crc 8))
  end.
Definition CRC32 (data : list Z) (st : crc_state) : option (Z * crc_state) :=
  st1 ← (if negb (table_generated st)
         then s ← CRC32Init st; Some (mk_crc (crc32_table s) true)
         else Some st);
  crc ← crc_loop (crc32_table st1) data 0xFFFFFFFF;
  Some (Z.lxor crc 0xFFFFFFFF, st1).

(** ** The reference: a shift register fed with the message bits, low bit first *)
Definition crc_bit (reg : Z) (b : bool) : Z :=
  Z.lxor (if xorb (Z.testbit reg 0) b then polynomial else 0) (Z.shiftr reg 1).
Definition byte_bits (b : Z) : list bool := (fun i => Z.testbit b (Z.of_nat i)) <$> seq 0 8.
Definition crc_ref (data : list Z) : Z :=
  Z.lxor (fold_left crc_bit (data ≫= byte_bits) 0xFFFFFFFF) 0xFFFFFFFF.

Definition is_byte (b : Z) : Prop := 0 <= b < 2 ^ 8.
Definition crc_ok (st : crc_state) : Prop :=
  length (crc32_table st) = 256%nat /\
  (table_generated st = true -> crc32_table st = (fun i => crc_entry 8 (Z.of_nat i)) <$> seq 0 256).

(** ** The step of the register is linear and injective *)
Definition step (c : Z) : Z := Z.lxor (if Z.testbit c 0 then polynomial else 0) (Z.shiftr c 1).
Definition steps (n : nat) (c : Z) : Z := Nat.iter n step c.

Lemma crc_entry_steps n c : crc_entry n c = steps n c.
Proof.
  revert c. induction n as [|n IH]; intros c; cbn [crc_entry]; [done|].
  rewrite IH. unfold steps. rewrite Nat.iter_succ_r. f_equal. unfold step.
  change 1 with (Z.shiftl 1 0) at 1. rewrite land_bit_eqb, negb_involutive by lia.
  by destruct (Z.testbit c 0).
Qed.

Lemma step_lxor a b : step (Z.lxor a b) = Z.lxor (step a) (step b).
Proof.
  unfold step. rewrite Z.lxor_spec, Z.shiftr_lxor.
  destruct (Z.testbit a 0), (Z.testbit b 0); apply Z.bits_inj; intros i;
    rewrite ?Z.lxor_spec, ?Z.bits_0; cbn [xorb]; rewrite ?Z.bits_0;
    by destruct (Z.testbit polynomial i), (Z.testbit (Z.shiftr a 1) i), (Z.testbit (Z.shiftr b 1) i).
Qed.
Lemma steps_S n c : steps (S n) c = step (steps n c).
Proof. done. Qed.
Lemma steps_lxor n a b : steps n (Z.lxor a b) = Z.lxor (steps n a) (steps n b).
Proof. induction n as [|n IH]; [done|]. by rewrite !steps_S, IH, step_lxor. Qed.

Lemma step_shl y : step (Z.shiftl y 1) = y.
Proof.
  unfold step. rewrite Z.shiftl_spec, Z.testbit_neg_r, Z.lxor_0_l by lia.
  by rewrite Z.shiftr_shiftl_l, Z.shiftl_0_r by lia.
Qed.
Lemma steps_shl n y : steps n (Z.shiftl y (Z.of_nat n)) = y.
Proof.
  induction n as [|n IH]; [apply Z.shiftl_0_r|]. unfold steps. rewrite Nat.iter_succ_r.
  replace (Z.of_nat (S n)) with (Z.of_nat n + 1) by lia.
  rewrite <-Z.shiftl_shiftl by lia. rewrite step_shl. exact IH.
Qed.
Lemma steps8_shl y : steps 8 (Z.shiftl y 8) = y.
Proof. change 8 with (Z.of_nat 8). by rewrite steps_shl. Qed.
Lemma steps_add m n c : steps (m + n) c = steps m (steps n c).
Proof. apply Nat.iter_add. Qed.

#[local] Opaque steps.
Lemma step_range c : 0 <= c < 2 ^ 32 -> 0 <= step c < 2 ^ 32.
Proof.
  intros H. unfold step. apply lxor_bound; [lia| |].
  - destruct (Z.testbit c 0); unfold polynomial; lia.
  - rewrite Z.shiftr_div_pow2 by lia. change (2 ^ 1) with 2. dlia.
Qed.
Lemma steps_range n c : 0 <= c < 2 ^ 32 -> 0 <= steps n c < 2 ^ 32.
Proof. intros H. induction n; [done|]. rewrite steps_S. by apply step_range. Qed.

Lemma step_zero c : 0 <= c < 2 ^ 32 -> step c = 0 -> c = 0.
Proof.
  unfold step. intros H E. destruct (Z.testbit c 0) eqn:E0.
  - apply (f_equal (fun z => Z.testbit z 31)) in E.
    rewrite Z.lxor_spec, Z.shiftr_spec, Z.bits_0 in E by lia. change (31 + 1) with 32 in E.
    rewrite (testbit_ge c 32 32) in E by lia. done.
  - rewrite Z.lxor_0_l, Z.shiftr_div_pow2 in E by lia. change (2 ^ 1) with 2 in E.
    rewrite Z.bit0_odd, <-Z.negb_even in E0. apply negb_false_iff, Z.even_spec in E0 as [k ->]. dlia.
Qed.
Lemma steps_inj n a b : 0 <= a < 2 ^ 32 -> 0 <= b < 2 ^ 32 -> steps n a = steps n b -> a = b.
Proof.
  intros Ha Hb E. apply Z.lxor_eq.
  assert (Hx : 0 <= Z.lxor a b < 2 ^ 32) by (apply lxor_bound; lia).
  assert (H0 : steps n (Z.lxor a b) = 0) by (by rewrite steps_lxor, E, Z.lxor_nilpotent).
  revert Hx H0. generalize (Z.lxor a b). clear. intros d. induction n as [|n IH]; [done|].
  intros Hd H0. apply IH; [done|]. rewrite steps_S in H0. by apply step_zero; [apply steps_range|].
Qed.

(** ** Table and bit-serial steps agree *)
Lemma split_low x n : 0 <= n -> 0 <= x -> x = Z.lxor (Z.land x (Z.ones n)) (Z.shiftl (Z.shiftr x n) n).
Proof.
  intros Hn Hx. apply bits_ext. intros i Hi. rewrite Z.lxor_spec, Z.land_spec, Z.shiftl_spec by lia.
  destruct (decide (i < n)).
  - rewrite Z.ones_spec_low, (Z.testbit_neg_r _ (i - n)) by lia. by rewrite andb_true_r, xorb_false_r.
  - rewrite Z.ones_spec_high, Z.shiftr_spec by lia. rewrite andb_false_r, xorb_false_l. f_equal. lia.
Qed.
Lemma table_step x : 0 <= x -> steps 8 x = Z.lxor (steps 8 (Z.land x 0xFF)) (Z.shiftr x 8).
Proof.
  intros Hx. rewrite (split_low x 8) at 1 by lia. rewrite steps_lxor.
  by rewrite steps8_shl.
Qed.

(** Feeding [n] message bits one by one or xoring them in first is the same. *)
Lemma serial_steps n z reg :
  0 <= z < 2 ^ Z.of_nat n ->
  fold_left crc_bit ((fun i => Z.testbit z (Z.of_nat i)) <$> seq 0 n) reg = steps n (Z.lxor reg z).
Proof.
  revert z reg. induction n as [|n IH]; intros z reg Hz.
  { assert (z = 0) as -> by (simpl in Hz; lia). by rewrite Z.lxor_0_r. }
  cbn [seq fmap list_fmap fold_left]. rewrite <-seq_shift, <-list_fmap_compose.
  rewrite (list_fmap_ext _ (fun i => Z.testbit (Z.shiftr z 1) (Z.of_nat i))); [|].
  2:{ intros i x _. cbn. rewrite Z.shiftr_spec by lia. f_equal. lia. }
  rewrite IH.
  2:{ rewrite Z.shiftr_div_pow2 by lia. rewrite Nat2Z.inj_succ, Z.pow_succ_r in Hz by lia.
      change (2 ^ 1) with 2. dlia. }
  replace (S n) with (n + 1)%nat by lia. rewrite steps_add. f_equal.
  change (steps 1 ?c) with (step c). unfold crc_bit, step. rewrite Z.lxor_spec, Z.shiftr_lxor. by rewrite Z.lxor_assoc.
Qed.

Definition crc_byte (reg b : Z) : Z := steps 8 (Z.lxor reg b).
Lemma crc_byte_bits b reg : is_byte b -> fold_left crc_bit (byte_bits b) reg = crc_byte reg b.
Proof. intros Hb. unfold crc_byte, byte_bits. rewrite serial_steps; [reflexivity|exact Hb]. Qed.
Lemma crc_ref_bytes data reg :
  Forall is_byte data -> fold_left crc_bit (data ≫= byte_bits) reg = fold_left crc_byte data reg.
Proof.
  intros H. revert reg. induction H as [|b data Hb _ IH]; intros reg; [done|].
  cbn [mbind list_bind]. by rewrite fold_left_app, IH, crc_byte_bits, fold_left_cons.
Qed.

Lemma crc_byte_range reg b : 0 <= reg < 2 ^ 32 -> is_byte b -> 0 <= crc_byte reg b < 2 ^ 32.
Proof. unfold is_byte, crc_byte. intros. apply steps_range, lxor_bound; lia. Qed.
Lemma crc_bytes_range data reg :
  Forall is_byte data -> 0 <= reg < 2 ^ 32 -> 0 <= fold_left crc_byte data reg < 2 ^ 32.
Proof.
  intros H. revert reg. induction H as [|b data Hb _ IH]; intros reg Hr; [done|].
  rewrite fold_left_cons. apply IH. by apply crc_byte_range.
Qed.

Lemma init_loop_ok n i tbl :
  0 <= i -> Z.of_nat (length tbl) = i + Z.of_nat n ->
  init_loop n i tbl = Some (take (Z.to_nat i) tbl ++ ((fun j => crc_entry 8 (Z.of_nat j)) <$> seq (Z.to_nat i) n)).
Proof.
  revert i tbl. induction n as [|n IH]; intros i tbl Hi Hl; cbn [init_loop].
  { cbn. rewrite app_nil_r, take_ge by lia. done. }
  rewrite arr_set_some by lia. cbn [mbind option_bind].
  rewrite IH by (rewrite ?length_insert; lia). f_equal.
  replace (Z.to_nat (i + 1)) with (S (Z.to_nat i)) by lia.
  erewrite take_S_r by (apply list_lookup_insert_eq; lia).
  rewrite take_insert_ge, <-app_assoc by lia. cbn [seq fmap list_fmap app]. by rewrite Z2Nat.id by lia.
Qed.

Lemma crc_loop_ok tbl data reg :
  tbl = (fun i => crc_entry 8 (Z.of_nat i)) <$> seq 0 256 ->
  Forall is_byte data -> 0 <= reg < 2 ^ 32 -> crc_loop tbl data reg = Some (fold_left crc_byte data reg).
Proof.
  intros -> H. revert reg. induction H as [|b data Hb _ IH]; intros reg Hr; [done|]. rewrite fold_left_cons. cbn [crc_loop].
  assert (Hx : 0 <= Z.lxor reg b < 2 ^ 32) by (unfold is_byte in Hb; apply lxor_bound; lia).
  assert (Hi : 0 <= Z.land (Z.lxor reg b) 0xFF < 2 ^ 8)
    by (rewrite Z.land_comm; apply land_bound; lia).
  unfold arr_get. rewrite (proj2 (Z.leb_le 0 _)) by lia.
  rewrite list_lookup_fmap, lookup_seq_lt by lia. cbn [fmap option_fmap option_map mbind option_bind].
  rewrite crc_entry_steps, Nat.add_0_l, Z2Nat.id by lia.
  assert (E : Z.lxor (steps 8 (Z.land (Z.lxor reg b) 0xFF)) (Z.shiftr reg 8) = crc_byte reg b).
  { unfold crc_byte. rewrite (table_step (Z.lxor reg b)), Z.shiftr_lxor by lia. f_equal.
    rewrite (Z.shiftr_div_pow2 b), Z.div_small, Z.lxor_0_r by (unfold is_byte in Hb; lia). done. }
  rewrite E. apply IH. by apply crc_byte_range.
Qed.

Lemma CRC32_ok data st :
  crc_ok st -> Forall is_byte data ->
  exists st', CRC32 data st = Some (crc_ref data, st') /\ crc_ok st' /\ table_generated st' = true.
Proof.
  intros [Hl Ht] Hd. unfold CRC32, crc_ref. rewrite crc_ref_bytes by done.
  destruct (table_generated st) eqn:E; cbn [negb mbind option_bind].
  - rewrite crc_loop_ok by (auto; lia). exists st. split_and!; try done. split; [done|]. auto.
  - unfold CRC32Init. rewrite init_loop_ok by lia. cbn [mbind option_bind crc32_table].
    rewrite crc_loop_ok by (done || lia). eexists. split; [reflexivity|]. split; [|done]. by split.
Qed.

(** ** Detection *)
Fixpoint le_num (w : list Z) : Z :=
  match w with [] => 0 | b :: w' => Z.lxor b (Z.shiftl (le_num w') 8) end.
Lemma crc_bytes_steps w reg :
  fold_left crc_byte w reg = steps (8 * length w) (Z.lxor reg (le_num w)).
Proof.
  revert reg. induction w as [|b w IH]; intros reg; cbn [le_num length].
  { by rewrite Z.lxor_0_r. }
  rewrite fold_left_cons.
  rewrite IH. replace (8 * S (length w))%nat with (8 * length w + 8)%nat by lia. rewrite steps_add.
  f_equal. unfold crc_byte. by rewrite <-Z.lxor_assoc, (steps_lxor 8 (Z.lxor reg b)), steps8_shl.
Qed.
Lemma le_num_range w : Forall is_byte w -> 0 <= le_num w < 2 ^ (8 * Z.of_nat (length w)).
Proof.
  induction 1 as [|b w Hb _ IH]; cbn [le_num length]; [lia|]. unfold is_byte in Hb.
  replace (8 * Z.of_nat (S (length w))) with (8 + 8 * Z.of_nat (length w)) by lia.
  apply lxor_bound; [lia| |].
  - split; [lia|]. apply Z.lt_le_trans with (2 ^ 8); [lia|]. apply Z.pow_le_mono_r; lia.
  - rewrite Z.shiftl_mul_pow2, Z.pow_add_r by lia. nia.
Qed.
Lemma le_num_inj w w' :
  Forall is_byte w -> Forall is_byte w' -> length w = length w' -> le_num w = le_num w' -> w = w'.
Proof.
  assert (Hlow : forall b z, is_byte b -> Z.lxor b (Z.shiftl z 8) mod 2 ^ 8 = b).
  { intros b z Hb. rewrite <-Z.land_ones by lia. apply bits_ext. intros i Hi.
    rewrite Z.land_spec, Z.lxor_spec, Z.shiftl_spec by lia. destruct (decide (i < 8)).
    - rewrite (Z.testbit_neg_r z), Z.ones_spec_low by lia. by rewrite xorb_false_r, andb_true_r.
    - rewrite Z.ones_spec_high, (testbit_ge b i 8) by (unfold is_byte in Hb; lia). by rewrite andb_false_r. }
  assert (Hhigh : forall b z, is_byte b -> Z.shiftr (Z.lxor b (Z.shiftl z 8)) 8 = z).
  { intros b z Hb. rewrite Z.shiftr_lxor, Z.shiftr_shiftl_l, Z.shiftl_0_r by lia.
    rewrite Z.shiftr_div_pow2, Z.div_small, Z.lxor_0_l by (unfold is_byte in Hb; lia). done. }
  intros H. revert w'. induction H as [|b w Hb _ IH]; intros [|b' w'] H' Hl E; try done.
  apply Forall_cons_iff in H' as [Hb' H']. cbn [le_num] in E. f_equal.
  - rewrite <-(Hlow b (le_num w) Hb), E. by apply Hlow.
  - apply IH; [done|by simplify_eq/=|]. rewrite <-(Hhigh b (le_num w) Hb), E. by apply Hhigh.
Qed.
Lemma crc_bytes_inj data a b :
  Forall is_byte data -> 0 <= a < 2 ^ 32 -> 0 <= b < 2 ^ 32 ->
  fold_left crc_byte data a = fold_left crc_byte data b -> a = b.
Proof.
  intros H. revert a b. induction H as [|x data Hx _ IH]; intros a b Ha Hb E; [done|].
  unfold is_byte in Hx. rewrite !fold_left_cons in E. apply IH in E; [|by apply crc_byte_range..].
  unfold crc_byte in E. apply steps_inj in E; [|apply lxor_bound; lia..].
  by apply lxor_cancel_r in E.
Qed.

(** The checksum of two inputs that differ inside a window of four bytes. *)
Lemma crc_ref_window pre w w' post :
  Forall is_byte pre -> Forall is_byte w -> Forall is_byte w' -> Forall is_byte post ->
  length w = length w' -> (length w <= 4)%nat -> w <> w' -> crc_ref (pre ++ w ++ post) <> crc_ref (pre ++ w' ++ post).
Proof.
  intros Hpre Hw Hw' Hpost Hl H4 Hne E. apply Hne.
  assert (HR : forall v, Forall is_byte v -> length v = length w -> 0 <= le_num v < 2 ^ 32).
  { intros v Hv Hlv. pose proof (le_num_range v Hv). split; [lia|].
    apply Z.lt_le_trans with (2 ^ (8 * Z.of_nat (length v))); [lia|]. apply Z.pow_le_mono_r; lia. }
  unfold crc_ref in E. apply lxor_cancel_r in E.
  rewrite !crc_ref_bytes in E by (by rewrite !Forall_app). rewrite !fold_left_app in E.
  set (c := fold_left crc_byte pre _) in E.
  assert (Hc : 0 <= c < 2 ^ 32) by (apply crc_bytes_range; [done|lia]).
  apply crc_bytes_inj in E; [|done|by apply crc_bytes_range..].
  rewrite !crc_bytes_steps, Hl in E. apply steps_inj in E; [|apply lxor_bound; auto; lia..].
  apply le_num_inj; try done. rewrite !(Z.lxor_comm c) in E. by apply lxor_cancel_r in E.
Qed.

(** Once the table exists a checksum changes nothing. *)
Lemma CRC32_pure data st :
  crc_ok st -> table_generated st = true -> Forall is_byte data -> CRC32 data st = Some (crc_ref data, st).
Proof.
  intros [Hl Ht] E Hd. unfold CRC32, crc_ref. rewrite E, crc_ref_bytes by done. cbn [negb mbind option_bind].
  by rewrite crc_loop_ok by (auto; lia).
Qed.

(** C20. CRC32 never faults and computes the CRC-32 of its input: the table-driven byte
    loop gives the value of the bit-serial shift register with the reversed polynomial
    0xEDB88320, whether or not the table was generated before. *)
Theorem CRC32_correct data st :
  crc_ok st -> Forall is_byte data ->
  exists st', CRC32 data st = Some (crc_ref data, st') /\ crc_ok st' /\ table_generated st' = true.
Proof. apply CRC32_ok. Qed.
Definition crc_boot : crc_state := mk_crc (replicate 256 0) false.
Lemma CRC32_correct_witness :
  crc_ref [49; 50; 51; 52; 53; 54; 55; 56; 57] = 0xCBF43926 /\
  exists st', CRC32 [49; 50; 51; 52; 53; 54; 55; 56; 57] crc_boot = Some (0xCBF43926, st').
Proof.
  split; [vm_compute; reflexivity|].
  destruct (CRC32_correct [49; 50; 51; 52; 53; 54; 55; 56; 57] crc_boot) as (st' & H & _).
  - split; [vm_compute; reflexivity|]. intros [=].
  - repeat constructor; unfold is_byte; lia.
  - exists st'. exact H.
Defined.

(** A CRC32 seal detects every change confined to four consecutive bytes: two inputs of
    equal length that differ only inside such a window have different checksums. *)
Theorem CRC32_detects pre w w' post st :
  crc_ok st -> Forall is_byte pre -> Forall is_byte w -> Forall is_byte w' -> Forall is_byte post ->
  length w = length w' -> (length w <= 4)%nat -> w <> w' ->
  exists r r' st1 st2, CRC32 (pre ++ w ++ post) st = Some (r, st1) /\
    CRC32 (pre ++ w' ++ post) st = Some (r', st2) /\ r <> r'.
Proof.
  intros Hst Hpre Hw Hw' Hpost Hl H4 Hne.
  destruct (CRC32_ok (pre ++ w ++ post) st Hst) as (st1 & E1 & _); [by rewrite !Forall_app|].
  destruct (CRC32_ok (pre ++ w' ++ post) st Hst) as (st2 & E2 & _); [by rewrite !Forall_app|].
  eexists _, _, st1, st2. split_and!; [exact E1|exact E2|]. by apply crc_ref_window.
Qed.
Lemma CRC32_detects_witness :
  exists r r' st1 st2, CRC32 [1; 2; 3; 4] crc_boot = Some (r, st1) /\
    CRC32 [1; 7; 3; 4] crc_boot = Some (r', st2) /\ r <> r'.
Proof.
  apply (CRC32_detects [1] [2] [7] [3; 4] crc_boot).
  - split; [vm_compute; reflexivity|]. intros [=].
  - repeat constructor; unfold is_byte; lia.
  - repeat constructor; unfold is_byte; lia.
  - repeat constructor; unfold is_byte; lia.
  - repeat constructor; unfold is_byte; lia.
  - reflexivity.
  - simpl; lia.
  - intros [=].
Defined.
