(* ===== verification/Sha256.v ===== *)
(** The streaming SHA-256 of [src/crypto/SHA256.c] and its correctness against the block
    definition of the hash (FIPS 180-4): the message padded, cut into 64-byte blocks and
    folded through the compression function. *)
From Stdlib Require Import ZArith Lia.
From stdpp Require Import base tactics list numbers.
From S2P Require Import Prelude.

(** ** The code *)
Definition not32 (x : Z) : Z := Z.lxor x (2 ^ 32 - 1).
Definition ROTR (x n : Z) : Z := Z.lor (Z.shiftr x n) (u32 (Z.shiftl x (32 - n))).
Definition CH (x y z : Z) : Z := Z.lxor (Z.land x y) (Z.land (not32 x) z).
Definition MAJ (x y z : Z) : Z := Z.lxor (Z.lxor (Z.land x y) (Z.land x z)) (Z.land y z).
Definition EP0 (x : Z) : Z := Z.lxor (Z.lxor (ROTR x 2) (ROTR x 13)) (ROTR x 22).
Definition EP1 (x : Z) : Z := Z.lxor (Z.lxor (ROTR x 6) (ROTR x 11)) (ROTR x 25).
Definition SIG0 (x : Z) : Z := Z.lxor (Z.lxor (ROTR x 7) (ROTR x 18)) (Z.shiftr x 3).
Definition SIG1 (x : Z) : Z := Z.lxor (Z.lxor (ROTR x 17) (ROTR x 19)) (Z.shiftr x 10).

(** The round constants, four to a row. *)
Definition k : list Z :=
  [0x428a2f98; 0x71374491; 0xb5c0fbcf; 0xe9b5dba5] ++ [0x3956c25b; 0x59f111f1; 0x923f82a4; 0xab1c5ed5] ++
  [0xd807aa98; 0x12835b01; 0x243185be; 0x550c7dc3] ++ [0x72be5d74; 0x80deb1fe; 0x9bdc06a7; 0xc19bf174] ++
  [0xe49b69c1; 0xefbe4786; 0x0fc19dc6; 0x240ca1cc] ++ [0x2de92c6f; 0x4a7484aa; 0x5cb0a9dc; 0x76f988da] ++
  [0x983e5152; 0xa831c66d; 0xb00327c8; 0xbf597fc7] ++ [0xc6e00bf3; 0xd5a79147; 0x06ca6351; 0x14292967] ++
  [0x27b70a85; 0x2e1b2138; 0x4d2c6dfc; 0x53380d13] ++ [0x650a7354; 0x766a0abb; 0x81c2c92e; 0x92722c85] ++
  [0xa2bfe8a1; 0xa81a664b; 0xc24b8b70; 0xc76c51a3] ++ [0xd192e819; 0xd6990624; 0xf40e3585; 0x106aa070] ++
  [0x19a4c116; 0x1e376c08; 0x2748774c; 0x34b0bcb5] ++ [0x391c0cb3; 0x4ed8aa4a; 0x5b9cca4f; 0x682e6ff3] ++
  [0x748f82ee; 0x78a5636f; 0x84c87814; 0x8cc70208] ++ [0x90befffa; 0xa4506ceb; 0xbef9a3f7; 0xc67178f2].

(** The eight working variables, and [ctx->state]. *)
Record regs := mk_regs { ra : Z; rb : Z; rc : Z; rd : Z; re : Z; rf : Z; rg : Z; rh : Z }.
Record SHA256_CTX := mk_sha { data : list Z; datalen : Z; bitlen : Z; state : regs }.

(** [m[i] = data[j] << 24 | ...] for the first sixteen words. *)
Fixpoint load_loop (n : nat) (i j : Z) (data m : list Z) : option (list Z) :=
  match n with
  | O => Some m
  | S n' =>
      b0 ← arr_get data j; b1 ← arr_get data (j + 1);
      b2 ← arr_get data (j + 2); b3 ← arr_get data (j + 3);
      m' ← arr_set m i (Z.lor (Z.lor (Z.lor (Z.shiftl b0 24) (Z.shiftl b1 16)) (Z.shiftl b2 8)) b3);
      load_loop n' (i + 1) (j + 4) data m'
  end.
Fixpoint extend_loop (n : nat) (i : Z) (m : list Z) : option (list Z) :=
  match n with
  | O => Some m
  | S n' =>
      w2 ← arr_get m (i - 2); w7 ← arr_get m (i - 7);
      w15 ← arr_get m (i - 15); w16 ← arr_get m (i - 16);
      m' ← arr_set m i (u32 (SIG1 w2 + w7 + SIG0 w15 + w16));
      extend_loop n' (i + 1) m'
  end.
Definition round (ki mi : Z) (r : regs) : regs :=
  let t1 := u32 (rh r + EP1 (re r) + CH (re r) (rf r) (rg r) + ki + mi) in
  let t2 := u32 (EP0 (ra r) + MAJ (ra r) (rb r) (rc r)) in
  mk_regs (u32 (t1 + t2)) (ra r) (rb r) (rc r) (u32 (rd r + t1)) (re r) (rf r) (rg r).
Fixpoint round_loop (n : nat) (i : Z) (m : list Z) (r : regs) : option regs :=
  match n with
  | O => Some r
  | S n' =>
      ki ← arr_get k i; mi ← arr_get m i;
      round_loop n' (i + 1) m (round ki mi r)
  end.
Definition add_regs (s r : regs) : regs :=
  mk_regs (u32 (ra s + ra r)) (u32 (rb s + rb r)) (u32 (rc s + rc r)) (u32 (rd s + rd r))
    (u32 (re s + re r)) (u32 (rf s + rf r)) (u32 (rg s + rg r)) (u32 (rh s + rh r)).

(** The local array [m] starts with the stack's contents [junk]. *)
Definition SHA256Transform (junk : list Z) (ctx : SHA256_CTX) (block : list Z) : option SHA256_CTX :=
  m1 ← load_loop 16 0 0 block junk;
  m2 ← extend_loop 48 16 m1;
  r ← round_loop 64 0 m2 (state ctx);
  Some (mk_sha (data ctx) (datalen ctx) (bitlen ctx) (add_regs (state ctx) r)).

Definition H0 : regs :=
  mk_regs 0x6a09e667 0xbb67ae85 0x3c6ef372 0xa54ff53a 0x510e527f 0x9b05688c 0x1f83d9ab 0x5be0cd19.
Definition SHA256Init (ctx : SHA256_CTX) : SHA256_CTX := mk_sha (data ctx) 0 0 H0.

Definition put_byte (junk : list Z) (b : Z) (ctx : SHA256_CTX) : option SHA256_CTX :=
  d ← arr_set (data ctx) (datalen ctx) b;
  let c1 := mk_sha d (u32 (datalen ctx + 1)) (bitlen ctx) (state ctx) in
  if datalen c1 =? 64 then
    c2 ← SHA256Transform junk c1 (data c1);
    Some (mk_sha (data c2) 0 (u64 (bitlen c2 + 512)) (state c2))
  else Some c1.
Fixpoint SHA256Update (junk : list Z) (bytes : list Z) (ctx : SHA256_CTX) : option SHA256_CTX :=
  match bytes with
  | [] => Some ctx
  | b :: bytes' => c ← put_byte junk b ctx; SHA256Update junk bytes' c
  end.

(** [FastMemset(d + i, v, n)]. *)
Fixpoint memset (n : nat) (i v : Z) (d : list Z) : option (list Z) :=
  match n with
  | O => Some d
  | S n' => d' ← arr_set d i v; memset n' (i + 1) v d'
  end.

(** [ctx->data[63 - j] = bitlen >> (8 * j)] for j = 0 .. 7. *)
Fixpoint put_bitlen (n : nat) (j bits : Z) (d : list Z) : option (list Z) :=
  match n with
  | O => Some d
  | S n' => d' ← arr_set d (63 - j) (u8 (Z.shiftr bits (8 * j))); put_bitlen n' (j + 1) bits d'
  end.

(** [hash[i + 4 * w] = (state[w] >> (24 - i * 8)) & 0xff]. *)
Fixpoint put_words (ws : list Z) (i w : Z) (hash : list Z) : option (list Z) :=
  match ws with
  | [] => Some hash
  | x :: ws' => h' ← arr_set hash (i + 4 * w) (Z.land (Z.shiftr x (24 - i * 8)) 0xff); put_words ws' i (w + 1) h'
  end.
Definition regs_list (r : regs) : list Z := [ra r; rb r; rc r; rd r; re r; rf r; rg r; rh r].
Fixpoint put_hash (n : nat) (i : Z) (r : regs) (hash : list Z) : option (list Z) :=
  match n with
  | O => Some hash
  | S n' => h' ← put_words (regs_list r) i 0 hash; put_hash n' (i + 1) r h'
  end.

Definition SHA256Final (junk : list Z) (ctx : SHA256_CTX) (hash : list Z)
    : option (SHA256_CTX * list Z) :=
  d1 ← arr_set (data ctx) (datalen ctx) 0x80;
  let i := u32 (datalen ctx + 1) in
  c1 ← (if datalen ctx <? 56 then
          d2 ← memset (Z.to_nat (56 - i)) i 0 d1;
          Some (mk_sha d2 (datalen ctx) (bitlen ctx) (state ctx))
        else
          d2 ← memset (Z.to_nat (64 - i)) i 0 d1;
          c ← SHA256Transform junk (mk_sha d2 (datalen ctx) (bitlen ctx) (state ctx)) d2;
          d3 ← memset 56 0 0 (data c);
          Some (mk_sha d3 (datalen c) (bitlen c) (state c)));
  let bits := u64 (bitlen c1 + u32 (datalen c1 * 8)) in
  d4 ← put_bitlen 8 0 bits (data c1);
  c2 ← SHA256Transform junk (mk_sha d4 (datalen c1) bits (state c1)) d4;
  h ← put_hash 4 0 (state c2) hash;
  Some (c2, h).

(** ** The definition of the hash *)
Fixpoint words_of (bs : list Z) : list Z :=
  match bs with
  | b0 :: b1 :: b2 :: b3 :: bs' => (b0 * 2 ^ 24 + b1 * 2 ^ 16 + b2 * 2 ^ 8 + b3) :: words_of bs'
  | _ => []
  end.
Fixpoint schedule (n : nat) (ws : list Z) : list Z :=
  match n with
  | O => ws
  | S n' =>
      let t := length ws in
      schedule n' (ws ++ [u32 (SIG1 (ws !!! (t - 2)%nat) + ws !!! (t - 7)%nat +
                               SIG0 (ws !!! (t - 15)%nat) + ws !!! (t - 16)%nat)])
  end.
Definition compress (h : regs) (block : list Z) : regs :=
  add_regs h (fold_left (fun r kw => round kw.1 kw.2 r) (zip k (schedule 48 (words_of block))) h).

Fixpoint be_bytes (n : nat) (z : Z) : list Z :=
  match n with O => [] | S n' => be_bytes n' (z / 256) ++ [z mod 256] end.
Definition pad (msg : list Z) : list Z :=
  msg ++ [0x80] ++ replicate (Z.to_nat ((55 - Z.of_nat (length msg)) mod 64)) 0 ++
  be_bytes 8 (8 * Z.of_nat (length msg)).
Fixpoint chunks (n : nat) (l : list Z) : list (list Z) :=
  match n with O => [] | S n' => take 64 l :: chunks n' (drop 64 l) end.
Definition sha256 (msg : list Z) : list Z :=
  regs_list (fold_left compress (chunks (length (pad msg) / 64) (pad msg)) H0) ≫= be_bytes 4.
