(* ===== verification/Sha256Props.v ===== *)
(** Correctness of the streaming SHA-256: every way of splitting a message over calls of
    SHA256Update gives the hash of the message. *)
From Stdlib Require Import ZArith Lia.
From stdpp Require Import base tactics list numbers.
From S2P Require Import Prelude Sha256.

(** ** Arrays written in order *)
Lemma arr_set_mid {A} (pre : list A) x post y i :
  i = Z.of_nat (length pre) -> arr_set (pre ++ x :: post) i y = Some (pre ++ y :: post).
Proof.
  intros ->. rewrite arr_set_some by (rewrite length_app; cbn; lia).
  by rewrite Nat2Z.id, insert_app_r_alt, Nat.sub_diag by lia.
Qed.
Lemma arr_get_nat {A} (l : list A) i x : l !! i = Some x -> arr_get l (Z.of_nat i) = Some x.
Proof. intros H. unfold arr_get. by rewrite (proj2 (Z.leb_le 0 _)), Nat2Z.id by lia. Qed.
Lemma arr_get_app {A} `{!Inhabited A} (ws junk : list A) i :
  0 <= i < Z.of_nat (length ws) -> arr_get (ws ++ junk) i = Some (ws !!! Z.to_nat i).
Proof.
  intros Hi. unfold arr_get. rewrite (proj2 (Z.leb_le 0 _)) by lia.
  rewrite lookup_app_l by lia. apply list_lookup_lookup_total_lt. lia.
Qed.

Lemma memset_ok n i v pre mid post :
  length mid = n -> i = Z.of_nat (length pre) ->
  memset n i v (pre ++ mid ++ post) = Some (pre ++ replicate n v ++ post).
Proof.
  revert i pre mid. induction n as [|n IH]; intros i pre mid Hn Hi; cbn [memset].
  { by destruct mid. }
  destruct mid as [|x mid]; [done|]. cbn [app]. rewrite arr_set_mid by done. cbn [mbind option_bind].
  rewrite (cons_middle v pre (mid ++ post)), app_assoc. rewrite IH; [|by simplify_eq/=|rewrite length_app; cbn; lia].
  by rewrite <-app_assoc.
Qed.

Lemma put_bitlen_ok n j bits pre mid post :
  length mid = n -> 0 <= j -> 63 - j = Z.of_nat (length pre) + Z.of_nat n - 1 ->
  put_bitlen n j bits (pre ++ mid ++ post) = Some (pre ++ be_bytes n (Z.shiftr bits (8 * j)) ++ post).
Proof.
  revert j mid post. induction n as [|n IH]; intros j mid post Hn Hj0 Hj; cbn [put_bitlen be_bytes].
  { by destruct mid. }
  destruct mid as [|x mid _] using rev_ind; [done|]. rewrite length_app in Hn. cbn in Hn.
  rewrite <-(app_assoc mid), (app_assoc pre). cbn [app].
  rewrite arr_set_mid by (rewrite length_app; lia). cbn [mbind option_bind].
  rewrite <-app_assoc. rewrite IH by lia. rewrite <-app_assoc. do 3 f_equal.
  rewrite Z.mul_add_distr_l, <-Z.shiftr_shiftr by lia. by rewrite (Z.shiftr_div_pow2 _ (8 * 1)) by lia.
Qed.

(** ** The compression function *)
Lemma word_bytes b0 b1 b2 b3 :
  0 <= b1 < 2 ^ 8 -> 0 <= b2 < 2 ^ 8 -> 0 <= b3 < 2 ^ 8 ->
  Z.lor (Z.lor (Z.lor (Z.shiftl b0 24) (Z.shiftl b1 16)) (Z.shiftl b2 8)) b3 =
  b0 * 2 ^ 24 + b1 * 2 ^ 16 + b2 * 2 ^ 8 + b3.
Proof.
  intros H1 H2 H3.
  replace (Z.lor (Z.shiftl b0 24) (Z.shiftl b1 16)) with (Z.shiftl (b0 * 2 ^ 8 + b1) 16).
  2:{ change 24 with (8 + 16). by rewrite <-Z.shiftl_shiftl, <-Z.shiftl_lor, lor_shl_add by lia. }
  replace (Z.lor _ (Z.shiftl b2 8)) with (Z.shiftl ((b0 * 2 ^ 8 + b1) * 2 ^ 8 + b2) 8).
  2:{ change 16 with (8 + 8). by rewrite <-Z.shiftl_shiftl, <-Z.shiftl_lor, lor_shl_add by lia. }
  rewrite lor_shl_add by lia. lia.
Qed.

Definition byte (b : Z) : Prop := 0 <= b < 2 ^ 8.

Lemma load_loop_ok n pre bs ws junk :
  length bs = (4 * n)%nat -> (n <= length junk)%nat -> Forall byte bs ->
  length pre = (4 * length ws)%nat ->
  load_loop n (Z.of_nat (length ws)) (Z.of_nat (length pre)) (pre ++ bs) (ws ++ junk) =
    Some (ws ++ words_of bs ++ drop n junk).
Proof.
  revert pre bs ws junk. induction n as [|n IH]; intros pre bs ws junk Hb Hj HF Hp; cbn [load_loop].
  { by destruct bs. }
  destruct bs as [|b0 [|b1 [|b2 [|b3 bs]]]]; cbn in Hb; try lia.
  destruct junk as [|x junk]; cbn in Hj; [lia|].
  assert (HG : forall t b, [b0; b1; b2; b3] !! t = Some b ->
    arr_get (pre ++ b0 :: b1 :: b2 :: b3 :: bs) (Z.of_nat (length pre) + Z.of_nat t) = Some b).
  { intros t b Ht. rewrite <-Nat2Z.inj_add. apply arr_get_nat. rewrite lookup_app_r by lia.
    replace (length pre + t - length pre)%nat with t by lia.
    pose proof (lookup_lt_Some _ _ _ Ht). by do 4 (destruct t; [done|]); cbn in *; lia. }
  pose proof (HG 0%nat b0 eq_refl) as G0. rewrite Z.add_0_r in G0. rewrite G0.
  rewrite (HG 1%nat b1 eq_refl : arr_get _ (_ + 1) = _), (HG 2%nat b2 eq_refl : arr_get _ (_ + 2) = _),
    (HG 3%nat b3 eq_refl : arr_get _ (_ + 3) = _). cbn [mbind option_bind].
  apply Forall_cons_iff in HF as [H0 HF]. apply Forall_cons_iff in HF as [H1 HF].
  apply Forall_cons_iff in HF as [H2 HF]. apply Forall_cons_iff in HF as [H3 HF].
  rewrite word_bytes by done. rewrite arr_set_mid by done. cbn [mbind option_bind words_of drop].
  pose proof (IH (pre ++ [b0; b1; b2; b3]) bs
    (ws ++ [b0 * 2 ^ 24 + b1 * 2 ^ 16 + b2 * 2 ^ 8 + b3]) junk) as E.
  rewrite !length_app, <-!app_assoc in E. cbn [length app] in E.
  replace (Z.of_nat (length ws) + 1) with (Z.of_nat (length ws + 1)) by lia.
  replace (Z.of_nat (length pre) + 4) with (Z.of_nat (length pre + 4)) by lia.
  apply E; try lia. done.
Qed.

Lemma extend_loop_ok n ws junk :
  (16 <= length ws)%nat -> (n <= length junk)%nat ->
  extend_loop n (Z.of_nat (length ws)) (ws ++ junk) = Some (schedule n ws ++ drop n junk).
Proof.
  revert ws junk. induction n as [|n IH]; intros ws junk Hw Hj; cbn [extend_loop schedule]; [done|].
  destruct junk as [|x junk]; cbn in Hj; [lia|].
  rewrite !arr_get_app by lia. cbn [mbind option_bind]. rewrite arr_set_mid by done. cbn [mbind option_bind drop].
  replace (Z.to_nat (Z.of_nat (length ws) - 2)) with (length ws - 2)%nat by lia.
  replace (Z.to_nat (Z.of_nat (length ws) - 7)) with (length ws - 7)%nat by lia.
  replace (Z.to_nat (Z.of_nat (length ws) - 15)) with (length ws - 15)%nat by lia.
  replace (Z.to_nat (Z.of_nat (length ws) - 16)) with (length ws - 16)%nat by lia.
  set (w := u32 _). rewrite (cons_middle w ws junk), app_assoc.
  replace (Z.of_nat (length ws) + 1) with (Z.of_nat (length (ws ++ [w]))) by (rewrite length_app; cbn; lia).
  apply IH; [rewrite length_app|]; lia.
Qed.

Lemma length_words bs n : length bs = (4 * n)%nat -> length (words_of bs) = n.
Proof.
  revert bs. induction n as [|n IH]; intros bs H.
  { by destruct bs. }
  destruct bs as [|b0 [|b1 [|b2 [|b3 bs]]]]; cbn in H; try lia. cbn. f_equal. apply IH. lia.
Qed.
Lemma length_schedule n ws : length (schedule n ws) = (length ws + n)%nat.
Proof.
  revert ws. induction n as [|n IH]; intros ws; cbn [schedule]; [lia|].
  rewrite IH, length_app. cbn. lia.
Qed.

#[local] Opaque round add_regs.
Lemma round_loop_ok n i m r :
  length m = 64%nat -> (i + n = 64)%nat ->
  round_loop n (Z.of_nat i) m r = Some (fold_left (fun r kw => round kw.1 kw.2 r) (drop i (zip k m)) r).
Proof.
  intros Hm. revert i r. induction n as [|n IH]; intros i r Hi; cbn [round_loop].
  { by rewrite drop_ge by (rewrite length_zip_with, Hm; cbn; lia). }
  destruct (lookup_lt_is_Some_2 k i) as [ki Hk]; [cbn; lia|].
  destruct (lookup_lt_is_Some_2 m i) as [mi Hmi]; [lia|].
  rewrite (arr_get_nat _ _ _ Hk), (arr_get_nat _ _ _ Hmi). cbn [mbind option_bind].
  assert (HZ : zip k m !! i = Some (ki, mi)) by (apply lookup_zip_with_Some; by eexists _, _).
  rewrite (drop_S _ _ _ HZ), fold_left_cons. cbn [fst snd].
  replace (Z.of_nat i + 1) with (Z.of_nat (S i)) by lia. apply IH. lia.
Qed.

#[local] Opaque schedule words_of load_loop extend_loop round_loop k.
Lemma load_block junk block :
  length junk = 64%nat -> length block = 64%nat -> Forall byte block ->
  load_loop 16 0 0 block junk = Some (words_of block ++ drop 16 junk).
Proof. intros Hj Hb HF. apply (load_loop_ok 16 [] block [] junk); try done; cbn [length]; lia. Qed.
Lemma extend_block ws junk :
  length ws = 16%nat -> length junk = 48%nat -> extend_loop 48 16 (ws ++ junk) = Some (schedule 48 ws).
Proof.
  intros Hw Hj. replace 16 with (Z.of_nat (length ws)) by (by rewrite Hw).
  rewrite extend_loop_ok by lia. by rewrite drop_ge, app_nil_r by lia.
Qed.
Lemma rounds m r :
  length m = 64%nat ->
  round_loop 64 0 m r = Some (fold_left (fun r kw => round kw.1 kw.2 r) (zip k m) r).
Proof. intros Hm. by apply (round_loop_ok 64 0 m r). Qed.
Lemma SHA256Transform_ok junk ctx block :
  length junk = 64%nat -> length block = 64%nat -> Forall byte block ->
  SHA256Transform junk ctx block =
    Some (mk_sha (data ctx) (datalen ctx) (bitlen ctx) (compress (state ctx) block)).
Proof.
  intros Hj Hb HF. unfold SHA256Transform, compress. rewrite load_block by done.
  assert (Hw : length (words_of block) = 16%nat) by (apply length_words; lia).
  rewrite option_bind_Some. rewrite extend_block by (rewrite ?length_drop; lia).
  rewrite option_bind_Some. rewrite rounds by (rewrite length_schedule; lia). by rewrite option_bind_Some.
Qed.
#[local] Opaque compress.

(** ** The streaming state: whole blocks already folded in, the rest buffered *)
Record hashing (ctx : SHA256_CTX) (blks : list (list Z)) (rest : list Z) : Prop := {
  hg_data : length (data ctx) = 64%nat;
  hg_len : datalen ctx = Z.of_nat (length rest);
  hg_lt : (length rest < 64)%nat;
  hg_rest : take (length rest) (data ctx) = rest;
  hg_state : state ctx = fold_left compress blks H0;
  hg_bits : bitlen ctx = u64 (512 * Z.of_nat (length blks));
  hg_blks : Forall (fun b => length b = 64%nat) blks;
  hg_bytes : Forall byte rest
}.

Section stream.
Context (junk : list Z) (Hjunk : length junk = 64%nat).

Lemma put_byte_ok ctx blks rest b :
  hashing ctx blks rest -> byte b ->
  exists ctx' blks' rest', put_byte junk b ctx = Some ctx' /\ hashing ctx' blks' rest' /\
    concat blks' ++ rest' = concat blks ++ rest ++ [b].
Proof using Hjunk.
  intros [H1 H2 H3 H4 H5 H6 H7 H8] Hb. unfold put_byte.
  rewrite arr_set_some by lia. cbn [mbind option_bind datalen data].
  set (d := <[_:=b]> (data ctx)).
  assert (Hd : take (length rest + 1) d = rest ++ [b]).
  { subst d. rewrite H2, Nat2Z.id, Nat.add_1_r. erewrite take_S_r by (apply list_lookup_insert_eq; lia).
    by rewrite take_insert_ge, H4 by lia. }
  assert (Hdl : length d = 64%nat) by (subst d; by rewrite length_insert).
  assert (HB : Forall byte (rest ++ [b])) by (by rewrite Forall_app, Forall_singleton).
  rewrite H2. wsimp. destruct (Z.eqb_spec (Z.of_nat (length rest) + 1) 64) as [E|E].
  - assert (Hdd : d = rest ++ [b]) by (rewrite <-Hd; symmetry; apply take_ge; lia).
    rewrite SHA256Transform_ok by (done || by rewrite Hdd). cbn [mbind option_bind data bitlen state].
    eexists _, (blks ++ [rest ++ [b]]), []. split; [reflexivity|]. split.
    + constructor; cbn [data datalen bitlen state length]; try done; try lia.
      * by rewrite fold_left_app, <-H5, Hdd.
      * rewrite H6. unfold u64. rewrite Zplus_mod_idemp_l, length_app. f_equal. cbn. lia.
      * rewrite Forall_app, Forall_singleton. by rewrite <-Hdd.
    + rewrite concat_app, app_nil_r. cbn. by rewrite app_nil_r.
  - eexists _, blks, (rest ++ [b]). split; [reflexivity|]. split; [|done].
    constructor; cbn [data datalen bitlen state]; rewrite ?length_app; cbn [length]; try done; lia.
Qed.

Lemma SHA256Update_ok bytes ctx blks rest :
  hashing ctx blks rest -> Forall byte bytes ->
  exists ctx' blks' rest', SHA256Update junk bytes ctx = Some ctx' /\ hashing ctx' blks' rest' /\
    concat blks' ++ rest' = concat blks ++ rest ++ bytes.
Proof using Hjunk.
  intros HG HB. revert ctx blks rest HG. induction HB as [|b bytes Hb _ IH]; intros ctx blks rest HG.
  { exists ctx, blks, rest. by rewrite app_nil_r. }
  cbn [SHA256Update]. destruct (put_byte_ok ctx blks rest b HG Hb) as (c1 & bl1 & r1 & -> & HG1 & E1).
  cbn [mbind option_bind]. destruct (IH c1 bl1 r1 HG1) as (c2 & bl2 & r2 & -> & HG2 & E2).
  exists c2, bl2, r2. split_and!; try done. rewrite E2, app_assoc, E1, <-!app_assoc. done.
Qed.
End stream.

(** ** Padding and output *)
Lemma length_be_bytes n z : length (be_bytes n z) = n.
Proof. revert z. induction n as [|n IH]; intros z; cbn [be_bytes]; [done|]. rewrite length_app, IH. cbn. lia. Qed.
Lemma be_bytes_byte n z : Forall byte (be_bytes n z).
Proof.
  revert z. induction n as [|n IH]; intros z; cbn [be_bytes]; [done|].
  rewrite Forall_app, Forall_singleton. split; [done|]. apply Z.mod_pos_bound. lia.
Qed.
Lemma zeros_byte n : Forall byte (replicate n 0).
Proof. apply Forall_replicate. unfold byte. lia. Qed.

Lemma length_blocks (blks : list (list Z)) :
  Forall (fun b => length b = 64%nat) blks -> length (concat blks) = (64 * length blks)%nat.
Proof. induction 1 as [|b blks Hb _ IH]; [done|]. cbn. rewrite length_app, Hb, IH. lia. Qed.
Lemma chunks_blocks blks :
  Forall (fun b => length b = 64%nat) blks -> chunks (length blks) (concat blks) = blks.
Proof.
  induction 1 as [|b blks Hb _ IH]; [done|]. cbn [chunks length concat]. rewrite take_app_length', drop_app_length' by done.
  by rewrite IH.
Qed.
Lemma sha256_blocks msg blks :
  Forall (fun b => length b = 64%nat) blks -> pad msg = concat blks ->
  sha256 msg = regs_list (fold_left compress blks H0) ≫= be_bytes 4.
Proof.
  intros HB E. unfold sha256. rewrite E, (length_blocks blks HB), Nat.mul_comm, Nat.div_mul by lia.
  by rewrite chunks_blocks.
Qed.

Lemma byte_of_word x i : 0 <= i -> Z.land (Z.shiftr x i) 0xff = (x / 2 ^ i) mod 256.
Proof. intros Hi. change 0xff with (Z.ones 8). by rewrite Z.land_ones, Z.shiftr_div_pow2 by lia. Qed.
Lemma put_hash_ok r hash :
  length hash = 32%nat -> put_hash 4 0 r hash = Some (regs_list r ≫= be_bytes 4).
Proof.
  intros H. do 32 (destruct hash as [|? hash]; [done|]). destruct hash; [|done].
  assert (E : forall x, [Z.land (Z.shiftr x 24) 0xff; Z.land (Z.shiftr x 16) 0xff;
    Z.land (Z.shiftr x 8) 0xff; Z.land (Z.shiftr x 0) 0xff] = be_bytes 4 x).
  { intros x. rewrite !byte_of_word by lia. cbn [be_bytes app]. rewrite !Z.div_div by lia.
    rewrite Z.div_1_r. done. }
  destruct r as [a b c d e f g h]. cbn [regs_list mbind list_bind ra rb rc rd re rf rg rh].
  rewrite <-!E. reflexivity.
Qed.

Section final.
Context (junk : list Z) (Hjunk : length junk = 64%nat).

(** The block that ends the message: [blk] up to offset 56, then the bit count. *)
Lemma last_block ctx d dl bits hash blks pre :
  length hash = 32%nat -> length d = 64%nat -> take 56 d = pre -> Forall byte pre ->
  state ctx = fold_left compress blks H0 ->
  (d4 ← put_bitlen 8 0 bits d;
   c2 ← SHA256Transform junk (mk_sha d4 dl bits (state ctx)) d4;
   h ← put_hash 4 0 (state c2) hash;
   Some (c2, h)) =
  Some (mk_sha (pre ++ be_bytes 8 bits) dl bits (fold_left compress (blks ++ [pre ++ be_bytes 8 bits]) H0),
        regs_list (fold_left compress (blks ++ [pre ++ be_bytes 8 bits]) H0) ≫= be_bytes 4).
Proof using Hjunk.
  intros Hh Hd Hpre HB HS.
  assert (Hl : length pre = 56%nat) by (rewrite <-Hpre, length_take; lia).
  rewrite <-(take_drop 56 d), Hpre, <-(app_nil_r (drop 56 d)).
  rewrite (put_bitlen_ok 8 0 bits pre (drop 56 d) []) by (rewrite ?length_drop; lia).
  rewrite Z.mul_0_r, Z.shiftr_0_r, app_nil_r, option_bind_Some.
  rewrite SHA256Transform_ok; [|done|rewrite length_app, length_be_bytes; lia|].
  2:{ rewrite Forall_app. split; [done|]. apply be_bytes_byte. }
  rewrite option_bind_Some. cbn [state data datalen bitlen].
  rewrite HS, fold_left_app. cbn [fold_left]. by rewrite put_hash_ok.
Qed.

Lemma padded ctx blks rest :
  hashing ctx blks rest ->
  pad (concat blks ++ rest) = concat blks ++ rest ++ [0x80] ++
    replicate (Z.to_nat ((55 - Z.of_nat (length rest)) mod 64)) 0 ++
    be_bytes 8 (512 * Z.of_nat (length blks) + 8 * Z.of_nat (length rest)).
Proof.
  intros HG. unfold pad. rewrite !length_app, (length_blocks blks (hg_blks _ _ _ HG)), <-!app_assoc.
  do 4 f_equal.
  - f_equal. f_equal. rewrite <-(Z.mod_add (55 - Z.of_nat (length rest)) (- Z.of_nat (length blks)) 64) by lia.
    f_equal. lia.
  - f_equal. lia.
Qed.

Definition digest (blks : list (list Z)) : list Z := regs_list (fold_left compress blks H0) ≫= be_bytes 4.
Definition total_bits (blks : list (list Z)) (rest : list Z) : Z :=
  512 * Z.of_nat (length blks) + 8 * Z.of_nat (length rest).

(** With at most 55 bytes buffered the padding fits the last block ... *)
Lemma pad_short ctx blks rest :
  hashing ctx blks rest -> (length rest < 56)%nat ->
  sha256 (concat blks ++ rest) =
  digest (blks ++ [((rest ++ [0x80]) ++ replicate (55 - length rest) 0) ++ be_bytes 8 (total_bits blks rest)]).
Proof.
  intros HG Hr. pose proof (padded ctx blks rest HG) as HP. apply sha256_blocks.
  - rewrite Forall_app, Forall_singleton. split; [apply HG|].
    rewrite !length_app, length_replicate, length_be_bytes. cbn. lia.
  - rewrite HP, concat_app. cbn [concat]. rewrite app_nil_r, <-!app_assoc.
    replace (Z.to_nat _) with (55 - length rest)%nat; [done|]. rewrite Z.mod_small by lia. lia.
Qed.

(** ... otherwise it takes a further block. *)
Lemma pad_long ctx blks rest :
  hashing ctx blks rest -> (56 <= length rest)%nat ->
  sha256 (concat blks ++ rest) =
  digest ((blks ++ [(rest ++ [0x80]) ++ replicate (63 - length rest) 0]) ++
          [replicate 56 0 ++ be_bytes 8 (total_bits blks rest)]).
Proof.
  intros HG Hr. pose proof (padded ctx blks rest HG) as HP. destruct HG as [_ _ H3 _ _ _ H7 _].
  apply sha256_blocks.
  - rewrite !Forall_app, !Forall_singleton. split_and!; [done| |done].
    rewrite !length_app, length_replicate. cbn. lia.
  - rewrite HP, !concat_app. cbn [concat]. rewrite !app_nil_r, <-!app_assoc.
    do 3 f_equal. rewrite (app_assoc (replicate _ 0)), <-replicate_add. do 2 f_equal.
    replace (55 - Z.of_nat (length rest)) with ((119 - Z.of_nat (length rest)) + (-1) * 64) by lia.
    rewrite Z.mod_add, Z.mod_small by lia. lia.
Qed.

(** The buffer is the pending bytes and a cell for the 0x80 mark. *)
Lemma buffer_split ctx blks rest :
  hashing ctx blks rest -> exists x tl, data ctx = rest ++ x :: tl /\ length tl = (63 - length rest)%nat.
Proof.
  intros [H1 H2 H3 H4 _ _ _ _]. destruct (drop (length rest) (data ctx)) as [|x tl] eqn:E;
    pose proof (f_equal length E) as El; rewrite length_drop in El; cbn in El; [lia|].
  exists x, tl. split; [|lia]. rewrite <-E. rewrite <-H4 at 1. by rewrite take_drop.
Qed.

Lemma SHA256Final_ok ctx blks rest hash :
  hashing ctx blks rest -> length hash = 32%nat ->
  Z.of_nat (length (concat blks ++ rest)) < 2 ^ 61 ->
  exists ctx', SHA256Final junk ctx hash = Some (ctx', sha256 (concat blks ++ rest)).
Proof using Hjunk.
  intros HG Hh Hmsg. destruct (buffer_split ctx blks rest HG) as (x & tl & Hd & Htl).
  pose proof HG as [H1 H2 H3 H4 H5 H6 H7 H8]. rewrite length_app, (length_blocks blks H7) in Hmsg.
  assert (Hbits : u64 (bitlen ctx + u32 (datalen ctx * 8)) = total_bits blks rest).
  { rewrite H6, H2. unfold total_bits. wsimp. lia. }
  unfold SHA256Final. rewrite H2. wsimp. rewrite Hd, arr_set_mid, option_bind_Some by done.
  rewrite (cons_middle 0x80), app_assoc.
  assert (Hr1 : Z.of_nat (length rest) + 1 = Z.of_nat (length (rest ++ [0x80])))
    by (rewrite length_app; cbn; lia).
  assert (Hby : Forall byte (rest ++ [0x80])) by (rewrite Forall_app, Forall_singleton; unfold byte at 2; split; [done|lia]).
  assert (Hzby : forall n, Forall byte ((rest ++ [0x80]) ++ replicate n 0))
    by (intros n; rewrite Forall_app; split; [done|apply zeros_byte]).
  case_if E; zbool.
  - rewrite (pad_short ctx) by (done || lia). set (n := (55 - length rest)%nat).
    replace (Z.to_nat (56 - (Z.of_nat (length rest) + 1))) with n by lia.
    rewrite <-(take_drop n tl), memset_ok, option_bind_Some; [|rewrite length_take; lia|done].
    rewrite option_bind_Some. cbn [bitlen datalen data state]. rewrite H2 in Hbits. rewrite Hbits.
    rewrite app_assoc. rewrite (last_block ctx _ _ _ _ blks ((rest ++ [0x80]) ++ replicate n 0)); [by eexists|done| | |done..].
    + rewrite !length_app, length_replicate, length_drop. cbn. lia.
    + rewrite take_app_length'; [reflexivity|]. rewrite !length_app, length_replicate. cbn. lia.
  - rewrite (pad_long ctx) by (done || lia). set (n := (63 - length rest)%nat).
    replace (Z.to_nat (64 - (Z.of_nat (length rest) + 1))) with n by lia.
    rewrite <-(app_nil_r tl), memset_ok, option_bind_Some, app_nil_r; [|done..].
    set (blk := (rest ++ [0x80]) ++ replicate n 0).
    assert (Hblk : length blk = 64%nat) by (subst blk; rewrite !length_app, length_replicate; cbn; lia).
    rewrite SHA256Transform_ok, option_bind_Some by (done || apply Hzby). cbn [bitlen datalen data state].
    assert (HM : memset 56 0 0 blk = Some (replicate 56 0 ++ drop 56 blk)).
    { rewrite <-(take_drop 56 blk) at 1. apply (memset_ok 56 0 0 [] (take 56 blk)); [rewrite length_take; lia|done]. }
    rewrite HM, !option_bind_Some. cbn [bitlen datalen data state app]. rewrite H2 in Hbits. rewrite Hbits.
    rewrite (last_block (mk_sha blk 0 0 (compress (state ctx) blk)) _ _ _ _ (blks ++ [blk]) (replicate 56 0));
      [by eexists|done| | |apply zeros_byte|by rewrite fold_left_app, <-H5].
    + rewrite length_app, length_replicate, length_drop. lia.
    + by rewrite take_app_length' by (by rewrite length_replicate).
Qed.
End final.

(** Successive calls of SHA256Update. *)
Fixpoint update_all (junk : list Z) (parts : list (list Z)) (ctx : SHA256_CTX) : option SHA256_CTX :=
  match parts with
  | [] => Some ctx
  | p :: parts' => c ← SHA256Update junk p ctx; update_all junk parts' c
  end.
Lemma update_all_ok junk parts ctx blks rest :
  length junk = 64%nat -> hashing ctx blks rest -> Forall (Forall byte) parts ->
  exists ctx' blks' rest', update_all junk parts ctx = Some ctx' /\ hashing ctx' blks' rest' /\
    concat blks' ++ rest' = concat blks ++ rest ++ concat parts.
Proof.
  intros Hj HG HB. revert ctx blks rest HG. induction HB as [|p parts Hp _ IH]; intros ctx blks rest HG.
  { exists ctx, blks, rest. cbn. by rewrite app_nil_r. }
  cbn [update_all]. destruct (SHA256Update_ok junk Hj p ctx blks rest HG Hp) as (c1 & bl1 & r1 & -> & HG1 & E1).
  rewrite option_bind_Some. destruct (IH c1 bl1 r1 HG1) as (c2 & bl2 & r2 & -> & HG2 & E2).
  exists c2, bl2, r2. split_and!; try done. rewrite E2, app_assoc, E1. cbn [concat]. by rewrite <-!app_assoc.
Qed.

(** C22. From any context with its 64-byte buffer, SHA256Init, any sequence of SHA256Update
    calls and SHA256Final never fault and write the SHA-256 of the concatenated input: the
    result depends neither on how the message is split over the calls nor on what the
    buffer and the stack held before. *)
Theorem SHA256_streaming junk parts ctx hash :
  length junk = 64%nat -> length (data ctx) = 64%nat -> length hash = 32%nat ->
  Forall (Forall byte) parts -> Z.of_nat (length (concat parts)) < 2 ^ 61 ->
  exists c1 c2, update_all junk parts (SHA256Init ctx) = Some c1 /\
    SHA256Final junk c1 hash = Some (c2, sha256 (concat parts)).
Proof.
  intros Hj Hd Hh HB Hlen.
  assert (HG : hashing (SHA256Init ctx) [] []) by (constructor; cbn; try done; lia).
  destruct (update_all_ok junk parts _ [] [] Hj HG HB) as (c1 & bl & r & E1 & HG1 & E).
  cbn [concat app] in E. rewrite <-E in *.
  destruct (SHA256Final_ok junk Hj c1 bl r hash HG1 Hh Hlen) as (c2 & E2). by exists c1, c2.
Qed.
Definition sha_boot : SHA256_CTX := mk_sha (replicate 64 0xAA) 77 1 (mk_regs 0 0 0 0 0 0 0 0).
Lemma SHA256_streaming_witness :
  sha256 [97; 98; 99] = [0xba; 0x78; 0x16; 0xbf; 0x8f; 0x01; 0xcf; 0xea; 0x41; 0x41; 0x40; 0xde;
    0x5d; 0xae; 0x22; 0x23; 0xb0; 0x03; 0x61; 0xa3; 0x96; 0x17; 0x7a; 0x9c; 0xb4; 0x10; 0xff; 0x61;
    0xf2; 0x00; 0x15; 0xad] /\
  exists c1 c2, update_all (replicate 64 5) [[97]; []; [98; 99]] (SHA256Init sha_boot) = Some c1 /\
    SHA256Final (replicate 64 5) c1 (replicate 32 0) = Some (c2, sha256 [97; 98; 99]).
Proof.
  split; [vm_compute; reflexivity|].
  apply (SHA256_streaming (replicate 64 5) [[97]; []; [98; 99]] sha_boot (replicate 32 0));
    try reflexivity. repeat constructor; unfold byte; lia.
Defined.
