(* ===== verification/Rng.v ===== *)
(** The software random number generator of [src/crypto/RNG.c]: xoroshiro128+ seeded by
    splitmix64.  The [rdrand] wrappers are single instructions and are left out. *)
From Stdlib Require Import ZArith Lia.
From stdpp Require Import base tactics list numbers.
From S2P Require Import Prelude.

(** ** The code *)
Record rng := mk_rng { s0 : Z; s1 : Z }.

Definition rotl (x k : Z) : Z := Z.lor (shl64 x k) (Z.shiftr x (64 - k)).

Definition xoroshiro128plus (s : rng) : Z * rng :=
  let result := u64 (s0 s + s1 s) in
  let x := Z.lxor (s1 s) (s0 s) in
  (result, mk_rng (Z.lxor (Z.lxor (rotl (s0 s) 55) x) (shl64 x 14)) (rotl x 36)).

(** Returns the output and the advanced [*x]. *)
Definition splitmix64 (x : Z) : Z * Z :=
  let x' := u64 (x + 0x9e3779b97f4a7c15) in
  let z1 := u64 (Z.lxor x' (Z.shiftr x' 30) * 0xbf58476d1ce4e5b9) in
  let z2 := u64 (Z.lxor z1 (Z.shiftr z1 27) * 0x94d049bb133111eb) in
  (Z.lxor z2 (Z.shiftr z2 31), x').

Definition rng_seed (seed_lo seed_hi : Z) (s : rng) : rng :=
  let seed := Z.lxor seed_lo (u64 (seed_hi + 0x9e3779b97f4a7c15)) in
  let '(a, seed1) := splitmix64 seed in
  let '(b, _) := splitmix64 seed1 in
  let n0 := Z.lxor (s0 s) a in
  let n1 := Z.lxor (s1 s) b in
  if Z.lor n0 n1 =? 0 then mk_rng 0x8a5cd789635d2dff n1 else mk_rng n0 n1.

(** ** Words and rotations *)
Definition word (z : Z) : Prop := 0 <= z < 2 ^ 64.
Definition words (s : rng) : Prop := word (s0 s) /\ word (s1 s).
Definition zero (s : rng) : Prop := s0 s = 0 /\ s1 s = 0.

Lemma shiftr_word x k : word x -> 0 <= k -> word (Z.shiftr x k).
Proof.
  unfold word. intros Hx Hk. rewrite Z.shiftr_div_pow2 by lia. split; [apply Z.div_pos; lia|].
  apply Z.div_lt_upper_bound; [lia|]. nia.
Qed.
Lemma rotl_word x k : word x -> 0 <= k <= 64 -> word (rotl x k).
Proof. intros Hx Hk. apply lor_bound; [lia|apply u64_range|]. apply shiftr_word; [done|lia]. Qed.
Lemma shl_word x k : word (shl64 x k).
Proof. apply u64_range. Qed.
Lemma lxor_word x y : word x -> word y -> word (Z.lxor x y).
Proof. intros. by apply lxor_bound. Qed.
#[local] Hint Resolve rotl_word shl_word lxor_word shiftr_word : core.

Lemma testbit_rotl x k i :
  word x -> 0 < k < 64 -> 0 <= i < 64 -> Z.testbit (rotl x k) i = Z.testbit x ((i - k) mod 64).
Proof.
  intros Hx Hk Hi. unfold rotl, shl64. rewrite Z.lor_spec, testbit_u64, Z.shiftl_spec, Z.shiftr_spec by lia.
  destruct (decide (i < k)).
  - rewrite Z.testbit_neg_r by lia. cbn [orb]. f_equal.
    replace (i - k) with ((i + (64 - k)) + (-1) * 64) by lia. by rewrite Z.mod_add, Z.mod_small by lia.
  - rewrite (testbit_ge x (i + (64 - k)) 64), orb_false_r, Z.mod_small by (unfold word in Hx; lia). done.
Qed.
Lemma rotl_inj x y k : word x -> word y -> 0 < k < 64 -> rotl x k = rotl y k -> x = y.
Proof.
  intros Hx Hy Hk E. apply bits_ext. intros i Hi. destruct (decide (i < 64)).
  2:{ by rewrite !(testbit_ge _ i 64) by (unfold word in *; lia). }
  pose proof (Z.mod_pos_bound (i + k) 64 ltac:(lia)) as Hm.
  apply (f_equal (fun z => Z.testbit z ((i + k) mod 64))) in E. rewrite !testbit_rotl in E by done.
  assert (Hr : ((i + k) mod 64 - k) mod 64 = i) by dlia. by rewrite Hr in E.
Qed.

(** The step of the generator is injective, so it permutes the states. *)
Definition next (s : rng) : rng := (xoroshiro128plus s).2.
Lemma next_words s : words s -> words (next s).
Proof. intros [H0 H1]. split; cbn; repeat apply lxor_word; try apply rotl_word; auto; lia. Qed.
Lemma next_inj s t : words s -> words t -> next s = next t -> s = t.
Proof.
  intros [Hs0 Hs1] [Ht0 Ht1] [= E0 E1].
  apply rotl_inj in E1; [|auto..|lia]. rewrite E1 in E0.
  apply lxor_cancel_r, lxor_cancel_r, rotl_inj in E0; [|auto..|lia].
  rewrite E0 in E1. apply lxor_cancel_r in E1.
  destruct s, t. cbn in *. by subst.
Qed.
Lemma next_nonzero s : words s -> ~ zero s -> ~ zero (next s).
Proof.
  intros Hw Hnz [E0 E1]. apply Hnz. assert (s = mk_rng 0 0) as ->; [|done].
  apply next_inj; [done|split; cbn; unfold word; lia|]. destruct (next s). cbn in *. by subst.
Qed.

Lemma splitmix_word x : word (splitmix64 x).1.
Proof. cbn. apply lxor_word; [apply u64_range|]. apply shiftr_word; [apply u64_range|lia]. Qed.
Lemma rng_seed_ok lo hi s : words s -> words (rng_seed lo hi s) /\ ~ zero (rng_seed lo hi s).
Proof.
  intros [H0 H1]. unfold rng_seed. set (seed := Z.lxor lo _).
  pose proof (splitmix_word seed) as W0. destruct (splitmix64 seed) as [a sd]. cbn in W0.
  pose proof (splitmix_word sd) as W1. destruct (splitmix64 sd) as [b sd']. cbn in W1.
  case_if E; zbool.
  - split; [split; cbn; [unfold word; lia|auto]|]. by intros [].
  - split; [split; cbn; auto|]. intros [E0 E1]. cbn in *. by rewrite E0, E1 in E.
Qed.

(** The states and the outputs of [n] draws. *)
Fixpoint draws (n : nat) (s : rng) : list Z * rng :=
  match n with
  | O => ([], s)
  | S n' => let '(z, t) := xoroshiro128plus s in let '(zs, u) := draws n' t in (z :: zs, u)
  end.
Lemma draws_ok n s : words s -> ~ zero s -> Forall word (draws n s).1 /\ words (draws n s).2 /\ ~ zero (draws n s).2.
Proof.
  revert s. induction n as [|n IH]; intros s Hw Hz; [by split_and!|].
  destruct (IH (next s) (next_words s Hw) (next_nonzero s Hw Hz)) as (H1 & H2 & H3).
  change (draws (S n) s) with (let '(zs, u) := draws n (next s) in (u64 (s0 s + s1 s) :: zs, u)).
  destruct (draws n (next s)) as [zs u]. cbn [fst snd] in *. split_and!; try done.
  constructor; [apply u64_range|done].
Qed.

(** However it is seeded, the generator never enters the all-zero state from which it
    would return zeros for ever: after rng_seed and any number of draws the state is a
    non-zero pair of 64-bit words and every output is a 64-bit word; and distinct states
    have distinct successors, so no two seeded streams merge. *)
Theorem rng_never_stuck s lo hi n :
  words s ->
  Forall word (draws n (rng_seed lo hi s)).1 /\
  words (draws n (rng_seed lo hi s)).2 /\ ~ zero (draws n (rng_seed lo hi s)).2 /\
  forall t t', words t -> words t' -> t <> t' -> (xoroshiro128plus t).2 <> (xoroshiro128plus t').2.
Proof.
  intros Hs. destruct (rng_seed_ok lo hi s Hs) as [Hw Hz].
  destruct (draws_ok n _ Hw Hz) as (H1 & H2 & H3). split_and!; try done.
  intros t t' Ht Ht' Hne E. apply Hne. by apply next_inj.
Qed.
Lemma rng_never_stuck_witness : ~ zero (draws 3 (rng_seed 1 2 (mk_rng 0 0))).2.
Proof.
  assert (H : words (mk_rng 0 0)) by (split; cbn; unfold word; lia).
  destruct (rng_never_stuck (mk_rng 0 0) 1 2 3 H) as (_ & _ & H3 & _). exact H3.
Defined.
