(* ===== verification/RbTree.v ===== *)
(** The red-black run queue of [src/kernel/sched/EEVDF.c], at the level of the node pool:
    nodes are pool indices, their fields are pointers to other nodes, a dereference of NULL
    or of an index outside the pool is a fault ([None]).

    [EEVDFRBRotateLeft]/[EEVDFRBRotateRight] and the two arms of both fixup loops are mirror
    images in the source; each pair is one definition over the side [d] it works on. *)
From Stdlib Require Import ZArith Lia.
From stdpp Require Import base tactics list gmap numbers option.
From S2P Require Import Prelude.

Definition EEVDF_MAX_PROCESSES : Z := 64.

(** Fuel for the walks along the tree: no path visits more than the 64 pool nodes. *)
Definition rb_fuel : nat := 65.

(** [color] is 0 for black and 1 for red. *)
Record EEVDFRBNode := mk_node {
  left : option nat;
  right : option nat;
  parent : option nat;
  color : Z;
  slot : Z
}.

(** The tree's part of the run queue, with [rb_node_pool] and [rb_node_pool_bitmap]. *)
Record rbt := mk_rbt {
  rb_node_pool : gmap nat EEVDFRBNode;
  rb_node_pool_bitmap : list Z;
  rb_root : option nat;
  rb_leftmost : option nat
}.
Definition set_pool (h : gmap nat EEVDFRBNode) (T : rbt) : rbt :=
  mk_rbt h (rb_node_pool_bitmap T) (rb_root T) (rb_leftmost T).
Definition set_bits (bm : list Z) (T : rbt) : rbt :=
  mk_rbt (rb_node_pool T) bm (rb_root T) (rb_leftmost T).
Definition set_root (r : option nat) (T : rbt) : rbt :=
  mk_rbt (rb_node_pool T) (rb_node_pool_bitmap T) r (rb_leftmost T).
Definition set_leftmost (l : option nat) (T : rbt) : rbt :=
  mk_rbt (rb_node_pool T) (rb_node_pool_bitmap T) (rb_root T) l.

(** Sides. *)
Inductive dir := L | R.
#[export] Instance dir_eq_dec : EqDecision dir.
Proof. solve_decision. Defined.
Definition opp (d : dir) : dir := match d with L => R | R => L end.
Definition child (d : dir) (n : EEVDFRBNode) : option nat := match d with L => left n | R => right n end.
Definition set_child (d : dir) (v : option nat) (n : EEVDFRBNode) : EEVDFRBNode :=
  match d with
  | L => mk_node v (right n) (parent n) (color n) (slot n)
  | R => mk_node (left n) v (parent n) (color n) (slot n)
  end.
Definition set_parent (v : option nat) (n : EEVDFRBNode) : EEVDFRBNode :=
  mk_node (left n) (right n) v (color n) (slot n).
Definition set_color (c : Z) (n : EEVDFRBNode) : EEVDFRBNode :=
  mk_node (left n) (right n) (parent n) c (slot n).

(** [node->field] and [node->field = v]. *)
Definition deref (i : nat) (T : rbt) : option EEVDFRBNode := rb_node_pool T !! i.
Definition upd (i : nat) (f : EEVDFRBNode -> EEVDFRBNode) (T : rbt) : option rbt :=
  n ← deref i T; Some (set_pool (<[i := f n]> (rb_node_pool T)) T).
(** [if (p) p->field = v] *)
Definition upd_opt (p : option nat) (f : EEVDFRBNode -> EEVDFRBNode) (T : rbt) : option rbt :=
  match p with Some i => upd i f T | None => Some T end.
(** [p && p->color == 1] and [!p || p->color == 0] *)
Definition is_red (p : option nat) (T : rbt) : option bool :=
  match p with None => Some false | Some i => n ← deref i T; Some (color n =? 1) end.
Definition is_black (p : option nat) (T : rbt) : option bool :=
  match p with None => Some true | Some i => n ← deref i T; Some (color n =? 0) end.

(** ** The node pool *)
Definition EEVDFRBNodeInit (i : nat) (s : Z) (T : rbt) : option rbt :=
  upd i (fun _ => mk_node None None None 1 s) T.
Fixpoint alloc_loop (fuel : nat) (word : Z) (s : Z) (T : rbt) : option (option nat * rbt) :=
  match fuel with
  | O => Some (None, T)
  | S f =>
      w ← arr_get (rb_node_pool_bitmap T) word;
      let available := Z.lxor w (2 ^ 32 - 1) in
      if negb (available =? 0) then
        let bit := ctz32 available in
        let index := u32 (word * 32 + bit) in
        if index <? EEVDF_MAX_PROCESSES then
          bm ← arr_set (rb_node_pool_bitmap T) word (Z.lor w (u32 (Z.shiftl 1 bit)));
          T' ← EEVDFRBNodeInit (Z.to_nat index) s (set_bits bm T);
          Some (Some (Z.to_nat index), T')
        else alloc_loop f (word + 1) s T
      else alloc_loop f (word + 1) s T
  end.
Definition EEVDFAllocRBNode (s : Z) (T : rbt) : option (option nat * rbt) := alloc_loop 2 0 s T.

Definition EEVDFFreeRBNode (node : option nat) (T : rbt) : option rbt :=
  match node with
  | None => Some T
  | Some i =>
      let index := Z.of_nat i in
      if EEVDF_MAX_PROCESSES <=? index then Some T else
      let word_idx := index / 32 in
      let bit_idx := index mod 32 in
      w ← arr_get (rb_node_pool_bitmap T) word_idx;
      bm ← arr_set (rb_node_pool_bitmap T) word_idx
             (Z.land w (Z.lxor (u32 (Z.shiftl 1 bit_idx)) (2 ^ 32 - 1)));
      upd i (fun _ => mk_node None None None 0 0) (set_bits bm T)
  end.

(** ** Rotations: [rotate L] is EEVDFRBRotateLeft, [rotate R] is EEVDFRBRotateRight *)
Definition replace_child (d : dir) (old new p : nat) (T : rbt) : option rbt :=
  np ← deref p T;
  if decide (child d np = Some old) then upd p (set_child d (Some new)) T
  else upd p (set_child (opp d) (Some new)) T.
Definition rotate (d : dir) (x : nat) (T : rbt) : option rbt :=
  nx ← deref x T;
  y ← child (opp d) nx;
  ny ← deref y T;
  T1 ← upd x (set_child (opp d) (child d ny)) T;
  T2 ← upd_opt (child d ny) (set_parent (Some x)) T1;
  nx2 ← deref x T2;
  T3 ← upd y (set_parent (parent nx2)) T2;
  T4 ← match parent nx2 with
       | None => Some (set_root (Some y) T3)
       | Some p => replace_child d x y p T3
       end;
  T5 ← upd y (set_child d (Some x)) T4;
  upd x (set_parent (Some y)) T5.
Definition EEVDFRBRotateLeft : nat -> rbt -> option rbt := rotate L.
Definition EEVDFRBRotateRight : nat -> rbt -> option rbt := rotate R.

(** ** Insertion *)

(** One pass of the loop; [p] and [g] are [z->parent] and [z->parent->parent], [d] is the
    side of [p] under [g].  Returns the new [z]. *)
Definition insert_fixup_body (d : dir) (z p g : nat) (T : rbt) : option (nat * rbt) :=
  ng ← deref g T;
  let y := child (opp d) ng in
  red ← is_red y T;
  if (red : bool) then
    T1 ← upd p (set_color 0) T;
    T2 ← upd_opt y (set_color 0) T1;
    T3 ← upd g (set_color 1) T2;
    Some (g, T3)
  else
    np ← deref p T;
    r ← (if decide (child (opp d) np = Some z)
         then T1 ← rotate d p T; Some (p, T1)
         else Some (z, T));
    let '(z1, T1) := (r : nat * rbt) in
    nz1 ← deref z1 T1;
    p1 ← parent nz1;
    T2 ← upd p1 (set_color 0) T1;
    np1 ← deref p1 T2;
    g1 ← parent np1;
    T3 ← upd g1 (set_color 1) T2;
    T4 ← rotate (opp d) g1 T3;
    Some (z1, T4).

(** [rq->rb_root->color = 0] *)
Definition blacken_root (T : rbt) : option rbt := r ← rb_root T; upd r (set_color 0) T.

Fixpoint EEVDFRBInsertFixup (fuel : nat) (z : nat) (T : rbt) : option rbt :=
  match fuel with
  | O => None
  | S f =>
      nz ← deref z T;
      match parent nz with
      | None => blacken_root T
      | Some p =>
          np ← deref p T;
          if color np =? 1 then
            g ← parent np;
            ng ← deref g T;
            let d := if decide (left ng = Some p) then L else R in
            r ← insert_fixup_body d z p g T;
            let '(z', T') := (r : nat * rbt) in EEVDFRBInsertFixup f z' T'
          else blacken_root T
      end
  end.

Section keys.
(** [processes[s].vruntime]; [None] outside the array. *)
Context (vruntime : Z -> option Z).

(** [link] is [&rq->rb_root] ([None]) or a field of the node [parent]. *)
Fixpoint find_link (fuel : nat) (key : Z) (cur : option nat) (link : option (nat * dir))
    (leftmost : bool) (T : rbt) : option (option (nat * dir) * bool) :=
  match fuel with
  | O => None
  | S f =>
      match cur with
      | None => Some (link, leftmost)
      | Some i =>
          n ← deref i T;
          k ← vruntime (slot n);
          if key <? k then find_link f key (left n) (Some (i, L)) leftmost T
          else find_link f key (right n) (Some (i, R)) false T
      end
  end.

(** [EEVDFRBInsert] from the allocation of the node on; NULL when the pool is exhausted. *)
Definition rb_insert (s key : Z) (T : rbt) : option (option nat * rbt) :=
  a ← EEVDFAllocRBNode s T;
  match a with
  | (None, T1) => Some (None, T1)
  | (Some node, T1) =>
      r ← find_link rb_fuel key (rb_root T1) None true T1;
      let '(link, leftmost) := (r : option (nat * dir) * bool) in
      let T2 := if leftmost then set_leftmost (Some node) T1 else T1 in
      T3 ← upd node (set_parent (fst <$> link)) T2;
      T4 ← match link with
           | None => Some (set_root (Some node) T3)
           | Some (p, d) => upd p (set_child d (Some node)) T3
           end;
      T5 ← EEVDFRBInsertFixup rb_fuel node T4;
      Some (Some node, T5)
  end.
End keys.

(** ** Deletion *)

(** [while (root->left) root = root->left] *)
Fixpoint leftmost_of (fuel : nat) (i : nat) (T : rbt) : option nat :=
  match fuel with
  | O => None
  | S f => n ← deref i T; match left n with None => Some i | Some l => leftmost_of f l T end
  end.
Definition EEVDFRBFirst (r : option nat) (T : rbt) : option (option nat) :=
  match r with None => Some None | Some i => m ← leftmost_of rb_fuel i T; Some (Some m) end.

(** Walk up while [current] is a right child; the result is the next node in order. *)
Fixpoint climb (fuel : nat) (current : nat) (par : option nat) (T : rbt) : option (option nat) :=
  match fuel with
  | O => None
  | S f =>
      match par with
      | None => Some None
      | Some p =>
          np ← deref p T;
          if decide (right np = Some current) then climb f p (parent np) T else Some (Some p)
      end
  end.

(** One pass of the loop of [EEVDFRBDeleteFixup] for [x] on side [d] of [par]: the new [x]
    and [parent]. *)
Definition delete_fixup_body (d : dir) (x : option nat) (par : nat) (T : rbt)
    : option (option nat * option nat * rbt) :=
  np ← deref par T;
  let w := child (opp d) np in
  red ← is_red w T;
  r1 ← (if (red : bool) then
          T1 ← upd_opt w (set_color 0) T;
          T2 ← upd par (set_color 1) T1;
          T3 ← rotate d par T2;
          np3 ← deref par T3;
          Some (child (opp d) np3, T3)
        else Some (w, T));
  let '(w1, T1) := (r1 : option nat * rbt) in
  both_black ← match w1 with
               | None => Some false
               | Some w => nw ← deref w T1;
                   b1 ← is_black (child d nw) T1; b2 ← is_black (child (opp d) nw) T1;
                   Some (b1 && b2)
               end;
  if (both_black : bool) then
    T2 ← upd_opt w1 (set_color 1) T1;
    np2 ← deref par T2;
    Some (Some par, parent np2, T2)
  else
    far_black ← match w1 with
                | None => Some false
                | Some w => nw ← deref w T1; is_black (child (opp d) nw) T1
                end;
    r2 ← (if (far_black : bool) then
            w ← w1;
            nw ← deref w T1;
            T2 ← upd_opt (child d nw) (set_color 0) T1;
            T3 ← upd w (set_color 1) T2;
            T4 ← rotate (opp d) w T3;
            np4 ← deref par T4;
            Some (child (opp d) np4, T4)
          else Some (w1, T1));
    let '(w2, T2) := (r2 : option nat * rbt) in
    T3 ← match w2 with
         | None => Some T2
         | Some w =>
             np2 ← deref par T2;
             Ta ← upd w (set_color (color np2)) T2;
             Tb ← upd par (set_color 0) Ta;
             nw ← deref w Tb;
             upd_opt (child (opp d) nw) (set_color 0) Tb
         end;
    T4 ← rotate d par T3;
    Some (rb_root T4, Some par, T4).

(** After the last arm [x] is the root, so the loop ends whatever [parent] is. *)
Fixpoint EEVDFRBDeleteFixup (fuel : nat) (x par : option nat) (T : rbt) : option rbt :=
  match fuel with
  | O => None
  | S f =>
      b ← is_black x T;
      if negb (bool_decide (x = rb_root T)) && (b : bool) then
        p ← par;
        np ← deref p T;
        let d := if decide (x = left np) then L else R in
        r ← delete_fixup_body d x p T;
        let '(x', par', T') := (r : option nat * option nat * rbt) in
        EEVDFRBDeleteFixup f x' par' T'
      else upd_opt x (set_color 0) T
  end.

(** [node->parent]'s link to [node], or the root, becomes [v]. *)
Definition relink (node : nat) (v : option nat) (T : rbt) : option rbt :=
  n ← deref node T;
  match parent n with
  | None => Some (set_root v T)
  | Some p =>
      np ← deref p T;
      if decide (left np = Some node) then upd p (set_child L v) T else upd p (set_child R v) T
  end.

(** The two-children case: the successor [y] takes the node's place.  Returns [x],
    [x_parent] and the successor's colour. *)
Definition splice_successor (node : nat) (T : rbt) : option (option nat * option nat * Z * rbt) :=
  n ← deref node T;
  r ← right n;
  y ← leftmost_of rb_fuel r T;
  ny ← deref y T;
  let x := right ny in
  s ← (if decide (parent ny = Some node) then Some (Some y, T)
       else
         T1 ← upd_opt x (set_parent (parent ny)) T;
         py ← parent ny;
         T2 ← upd py (set_child L x) T1;
         n2 ← deref node T2;
         T3 ← upd y (set_child R (right n2)) T2;
         T4 ← (r3 ← right n2; upd r3 (set_parent (Some y)) T3);
         ny4 ← deref y T4;
         Some (parent ny4, T4));
  let '(x_parent, T1) := (s : option nat * rbt) in
  T2 ← relink node (Some y) T1;
  n2 ← deref node T2;
  T3 ← upd y (fun m => mk_node (left n2) (right m) (parent n2) (color n2) (slot m)) T2;
  T4 ← (l ← left n2; upd l (set_parent (Some y)) T3);
  Some (x, x_parent, color ny, T4).

(** The node is unlinked: [x], [x_parent] and the colour that left the tree. *)
Definition unlink (node : nat) (T : rbt) : option (option nat * option nat * Z * rbt) :=
  n ← deref node T;
  match left n, right n with
  | None, x =>
      T1 ← relink node x T;
      T2 ← upd_opt x (set_parent (parent n)) T1;
      Some (x, parent n, color n, T2)
  | Some l, None =>
      T1 ← relink node (Some l) T;
      T2 ← upd l (set_parent (parent n)) T1;
      Some (Some l, parent n, color n, T2)
  | Some _, Some _ => splice_successor node T
  end.

(** The new leftmost node when [node] was the leftmost one. *)
Definition update_leftmost (node : nat) (T : rbt) : option rbt :=
  if decide (rb_leftmost T = Some node) then
    n ← deref node T;
    match right n with
    | Some r => m ← EEVDFRBFirst (Some r) T; Some (set_leftmost m T)
    | None => m ← climb rb_fuel node (parent n) T; Some (set_leftmost m T)
    end
  else Some T.

(** [EEVDFRBDelete] for a process whose [rb_node] is [node]. *)
Definition rb_delete (node : nat) (T : rbt) : option rbt :=
  T1 ← update_leftmost node T;
  u ← unlink node T1;
  let '(x, x_parent, y_original_color, T2) := (u : option nat * option nat * Z * rbt) in
  T3 ← (if y_original_color =? 0 then EEVDFRBDeleteFixup rb_fuel x x_parent T2 else Some T2);
  EEVDFFreeRBNode (Some node) T3.
