(* ===== verification/RbRep.v ===== *)
(** Trees and contexts that a node pool represents, and the effect of the pointer operations
    on them.  [focus T t z]: the pool of [T] holds the tree [t] in the context [z] (the path
    from [t]'s parent to the root), with consistent child, parent and root pointers and
    without sharing. *)
From Stdlib Require Import ZArith Lia.
From stdpp Require Import base tactics list gmap sets numbers option.
From S2P Require Import Prelude RbTree.

Inductive colour := Red | Black.
#[export] Instance colour_eq_dec : EqDecision colour.
Proof. solve_decision. Defined.
Definition cval (c : colour) : Z := match c with Red => 1 | Black => 0 end.

(** A node carries its pool index and its process slot. *)
Inductive tree := E | N (c : colour) (l : tree) (i : nat) (s : Z) (r : tree).
Inductive frame := F (d : dir) (c : colour) (i : nat) (s : Z) (sib : tree).

(** A node seen from side [d]: [near] is its child on side [d]. *)
Definition node (d : dir) (c : colour) (near : tree) (i : nat) (s : Z) (far : tree) : tree :=
  match d with L => N c near i s far | R => N c far i s near end.
Definition mkn (d : dir) (near far par : option nat) (c : colour) (s : Z) : EEVDFRBNode :=
  match d with L => mk_node near far par (cval c) s | R => mk_node far near par (cval c) s end.

Definition troot (t : tree) : option nat := match t with E => None | N _ _ i _ _ => Some i end.
Definition zpar (z : list frame) : option nat := match z with [] => None | F _ _ i _ _ :: _ => Some i end.
Fixpoint zroot (z : list frame) (cur : option nat) : option nat :=
  match z with [] => cur | F _ _ i _ _ :: z' => zroot z' (Some i) end.
Fixpoint ids (t : tree) : list nat := match t with E => [] | N _ l i _ r => ids l ++ i :: ids r end.
Fixpoint zids (z : list frame) : list nat :=
  match z with [] => [] | F _ _ i _ sib :: z' => i :: ids sib ++ zids z' end.
(** The process slots in tree order. *)
Fixpoint slots (t : tree) : list (nat * Z) :=
  match t with E => [] | N _ l i s r => slots l ++ (i, s) :: slots r end.
Fixpoint plug (t : tree) (z : list frame) : tree :=
  match z with [] => t | F d c i s sib :: z' => plug (node d c t i s sib) z' end.

Fixpoint rep (h : gmap nat EEVDFRBNode) (t : tree) (par : option nat) : Prop :=
  match t with
  | E => True
  | N c l i s r =>
      h !! i = Some (mk_node (troot l) (troot r) par (cval c) s) /\
      rep h l (Some i) /\ rep h r (Some i)
  end.
Fixpoint repc (h : gmap nat EEVDFRBNode) (z : list frame) (cur : option nat) : Prop :=
  match z with
  | [] => True
  | F d c i s sib :: z' =>
      h !! i = Some (mkn d cur (troot sib) (zpar z') c s) /\
      rep h sib (Some i) /\ repc h z' (Some i)
  end.

Record focus (T : rbt) (t : tree) (z : list frame) : Prop := {
  fc_rep : rep (rb_node_pool T) t (zpar z);
  fc_ctx : repc (rb_node_pool T) z (troot t);
  fc_nodup : NoDup (ids t ++ zids z);
  fc_root : rb_root T = zroot z (troot t)
}.

(** ** Sides *)
Lemma opp_opp d : opp (opp d) = d.
Proof. by destruct d. Qed.
Lemma opp_ne d : opp d <> d.
Proof. by destruct d. Qed.
Lemma child_near d a b p c s : child d (mkn d a b p c s) = a.
Proof. by destruct d. Qed.
Lemma child_far d a b p c s : child (opp d) (mkn d a b p c s) = b.
Proof. by destruct d. Qed.
Lemma set_child_near d v a b p c s : set_child d v (mkn d a b p c s) = mkn d v b p c s.
Proof. by destruct d. Qed.
Lemma set_child_far d v a b p c s : set_child (opp d) v (mkn d a b p c s) = mkn d a v p c s.
Proof. by destruct d. Qed.
Lemma parent_mkn d a b p c s : parent (mkn d a b p c s) = p.
Proof. by destruct d. Qed.
Lemma color_mkn d a b p c s : color (mkn d a b p c s) = cval c.
Proof. by destruct d. Qed.
Lemma slot_mkn d a b p c s : slot (mkn d a b p c s) = s.
Proof. by destruct d. Qed.
Lemma set_parent_mkn d v a b p c s : set_parent v (mkn d a b p c s) = mkn d a b v c s.
Proof. by destruct d. Qed.
Lemma set_color_mkn d a b p c c' s k : k = cval c' -> set_color k (mkn d a b p c s) = mkn d a b p c' s.
Proof. intros ->. by destruct d. Qed.
Lemma node_opp d c a i s b : node (opp d) c a i s b = node d c b i s a.
Proof. by destruct d. Qed.
Lemma mkn_opp d a b p c s : mkn (opp d) a b p c s = mkn d b a p c s.
Proof. by destruct d. Qed.
Lemma troot_node d c a i s b : troot (node d c a i s b) = Some i.
Proof. by destruct d. Qed.
Create Rewrite HintDb side.
#[export] Hint Rewrite opp_opp child_near child_far set_child_near set_child_far parent_mkn color_mkn
  slot_mkn set_parent_mkn troot_node : side.

Lemma rep_node h d c a i s b par :
  rep h (node d c a i s b) par <->
  h !! i = Some (mkn d (troot a) (troot b) par c s) /\ rep h a (Some i) /\ rep h b (Some i).
Proof. destruct d; cbn; naive_solver. Qed.
Lemma ids_node d c a i s b : ids (node d c a i s b) ≡ₚ i :: ids a ++ ids b.
Proof. destruct d; cbn; solve_Permutation. Qed.
Lemma elem_ids_node d c a i s b j : j ∈ ids (node d c a i s b) <-> j = i \/ j ∈ ids a \/ j ∈ ids b.
Proof. rewrite ids_node, elem_of_cons, elem_of_app. done. Qed.
Lemma slots_node d c a i s b :
  slots (node d c a i s b) = match d with L => slots a ++ (i, s) :: slots b | R => slots b ++ (i, s) :: slots a end.
Proof. by destruct d. Qed.
Lemma ids_slots t : ids t = fst <$> slots t.
Proof. induction t as [|c l IHl i s r IHr]; [done|]. cbn. by rewrite fmap_app, <-IHl, fmap_cons, <-IHr. Qed.

(** ** Frame properties: writes outside a tree or context keep it *)
Lemma rep_insert h i n t par : i ∉ ids t -> rep h t par -> rep (<[i := n]> h) t par.
Proof.
  revert par. induction t as [|c l IHl j s r IHr]; intros par Hi; [done|]. cbn in *.
  rewrite elem_of_app, elem_of_cons in Hi. intros (H1 & H2 & H3). split_and!.
  - rewrite lookup_insert_ne; [done|]. intros ->. tauto.
  - apply IHl; [tauto|done].
  - apply IHr; [tauto|done].
Qed.
Lemma repc_insert h i n z cur : i ∉ zids z -> repc h z cur -> repc (<[i := n]> h) z cur.
Proof.
  revert cur. induction z as [|[d c j s sib] z IH]; intros cur Hi; [done|]. cbn in *.
  rewrite elem_of_cons, elem_of_app in Hi. intros (H1 & H2 & H3). split_and!.
  - rewrite lookup_insert_ne; [done|]. intros ->. tauto.
  - apply rep_insert; [tauto|done].
  - apply IH; [tauto|done].
Qed.

(** Moving the focus to the parent and back. *)
Lemma focus_up T t d c i s sib z :
  focus T t (F d c i s sib :: z) <-> focus T (node d c t i s sib) z.
Proof.
  split.
  - intros [H1 (H2 & H3 & H4) H5 H6]. constructor; rewrite ?troot_node; try done.
    + rewrite rep_node. done.
    + cbn in H5. rewrite ids_node. by rewrite <-Permutation_middle, app_assoc in H5.
  - intros [H1 H2 H3 H4]. rewrite troot_node in *. apply rep_node in H1 as (H1 & H1' & H1'').
    constructor; cbn; try done. rewrite ids_node in H3. by rewrite <-Permutation_middle, app_assoc.
Qed.

Lemma focus_out T t d c i s sib z : focus T t (F d c i s sib :: z) -> focus T (node d c t i s sib) z.
Proof. apply focus_up. Qed.
Lemma focus_in T t d c i s sib z : focus T (node d c t i s sib) z -> focus T t (F d c i s sib :: z).
Proof. apply focus_up. Qed.

Lemma focus_deref T c l i s r z :
  focus T (N c l i s r) z -> deref i T = Some (mk_node (troot l) (troot r) (zpar z) (cval c) s).
Proof. intros [(H & _) _ _ _]. done. Qed.
Lemma focus_deref_node T d c a i s b z :
  focus T (node d c a i s b) z -> deref i T = Some (mkn d (troot a) (troot b) (zpar z) c s).
Proof. intros [H _ _ _]. by apply rep_node in H as (H & _). Qed.
Lemma focus_deref_par T t d c i s sib z :
  focus T t (F d c i s sib :: z) -> deref i T = Some (mkn d (troot t) (troot sib) (zpar z) c s).
Proof. intros [_ (H & _) _ _]. done. Qed.

Lemma upd_deref T i n f : deref i T = Some n -> upd i f T = Some (set_pool (<[i := f n]> (rb_node_pool T)) T).
Proof. intros H. unfold upd. by rewrite H. Qed.

(** What the pointer operations below leave alone. *)
Record keeps (T T' : rbt) : Prop := {
  kp_left : rb_leftmost T' = rb_leftmost T;
  kp_bits : rb_node_pool_bitmap T' = rb_node_pool_bitmap T;
  kp_dom : dom (rb_node_pool T') = dom (rb_node_pool T)
}.
#[export] Instance keeps_preorder : PreOrder keeps.
Proof.
  split; [by intros T|]. intros T1 T2 T3 [A1 A2 A3] [B1 B2 B3].
  constructor; congruence.
Qed.
Lemma keeps_insert T i n n' r :
  deref i T = Some n -> keeps T (set_root r (set_pool (<[i := n']> (rb_node_pool T)) T)).
Proof. intros H. constructor; cbn; [done..|]. by rewrite dom_insert_lookup_L by (by exists n). Qed.
Lemma keeps_upd T i f T' : upd i f T = Some T' -> keeps T T'.
Proof.
  unfold upd. destruct (deref i T) as [n|] eqn:E; [|done]. cbn. intros [= <-].
  by apply (keeps_insert T i n _ (rb_root T)).
Qed.
Lemma keeps_upd_opt T p f T' : upd_opt p f T = Some T' -> keeps T T'.
Proof. destruct p; cbn; [apply keeps_upd|by intros [= <-]]. Qed.
Lemma keeps_set_root T r : keeps T (set_root r T).
Proof. done. Qed.

(** Recolouring the root of the focus. *)
Lemma focus_recolor T d c a i s b z c' k :
  k = cval c' -> focus T (node d c a i s b) z ->
  exists T', upd i (set_color k) T = Some T' /\ focus T' (node d c' a i s b) z /\ keeps T T'.
Proof.
  intros -> HF. assert (HU := upd_deref _ _ _ (set_color (cval c')) (focus_deref_node _ _ _ _ _ _ _ _ HF)).
  eexists. split; [exact HU|]. split; [|by eapply keeps_upd].
  destruct HF as [H1 H2 H3 H4]. rewrite (set_color_mkn _ _ _ _ _ c') by done.
  apply rep_node in H1 as (H1 & Ha & Hb). rewrite !ids_node in H3. rewrite troot_node in *.
  assert (Hia : (i ∉ ids a) /\ (i ∉ ids b) /\ (i ∉ zids z)).
  { cbn in H3. apply list.NoDup_cons in H3 as [H3 _]. rewrite !elem_of_app in H3. tauto. }
  constructor; cbn; rewrite ?troot_node, ?ids_node; try done.
  - apply rep_node. split_and!; [apply lookup_insert_eq|apply rep_insert; tauto..].
  - apply repc_insert; tauto.
Qed.

(** A write of the parent pointer at the root of a (possibly empty) tree. *)
Lemma rep_set_parent T t par par' :
  rep (rb_node_pool T) t par -> NoDup (ids t) ->
  exists T', upd_opt (troot t) (set_parent par') T = Some T' /\ rep (rb_node_pool T') t par' /\
    rb_root T' = rb_root T /\ keeps T T' /\
    (forall j, troot t <> Some j -> rb_node_pool T' !! j = rb_node_pool T !! j).
Proof.
  destruct t as [|c l i s r]; cbn.
  { intros _ _. exists T. split_and!; done. }
  intros (H1 & H2 & H3) HN. assert (HU : upd i (set_parent par') T = Some _) by (by apply upd_deref).
  eexists. split; [exact HU|]. cbn.
  assert (Hi : (i ∉ ids l) /\ (i ∉ ids r)).
  { apply list.NoDup_app in HN as (_ & HN & HN'). apply list.NoDup_cons in HN' as [HN' _].
    split; [|done]. intros Hl. apply (HN i Hl). apply elem_of_cons. by left. }
  split_and!; [apply lookup_insert_eq|apply rep_insert; tauto..|done|by eapply keeps_upd|].
  intros j Hj. apply lookup_insert_ne. congruence.
Qed.

(** Trees and contexts only depend on their own cells. *)
Lemma rep_agree h h' t par : (forall j, j ∈ ids t -> h' !! j = h !! j) -> rep h t par -> rep h' t par.
Proof.
  revert par. induction t as [|c l IHl i s r IHr]; intros par Hag; [done|]. cbn in *.
  intros (H1 & H2 & H3). split_and!.
  - rewrite Hag; [done|]. set_solver.
  - apply IHl; [|done]. set_solver.
  - apply IHr; [|done]. set_solver.
Qed.
Lemma repc_agree h h' z cur : (forall j, j ∈ zids z -> h' !! j = h !! j) -> repc h z cur -> repc h' z cur.
Proof.
  revert cur. induction z as [|[d c i s sib] z IH]; intros cur Hag; [done|]. cbn in *.
  intros (H1 & H2 & H3). split_and!.
  - rewrite Hag; [done|]. set_solver.
  - eapply rep_agree; [|done]. set_solver.
  - apply IH; [|done]. set_solver.
Qed.

(** Redirecting the context's link to the focus: the top frame, or the root. *)
Lemma replace_child_ok T z old new d0 :
  repc (rb_node_pool T) z (Some old) -> NoDup (old :: zids z) ->
  exists T', match zpar z with
             | None => Some (set_root (Some new) T)
             | Some p => replace_child d0 old new p T
             end = Some T' /\
    repc (rb_node_pool T') z (Some new) /\ keeps T T' /\
    (zroot z (Some old) = rb_root T -> zroot z (Some new) = rb_root T') /\
    (forall j, j ∉ zids z -> rb_node_pool T' !! j = rb_node_pool T !! j).
Proof.
  intros HC HN. destruct z as [|[d c p s sib] z]; cbn in *.
  { exists (set_root (Some new) T). split_and!; done. }
  destruct HC as (H1 & H2 & H3). unfold replace_child. unfold deref at 1. rewrite H1. cbn [mbind option_bind].
  apply list.NoDup_cons in HN as [Ho HN]. apply list.NoDup_cons in HN as [Hp HN].
  assert (HD : exists T', upd p (set_child d (Some new)) T = Some T' /\
    repc (rb_node_pool T') (F d c p s sib :: z) (Some new) /\ keeps T T' /\ rb_root T' = rb_root T /\
    (forall j, j ∉ p :: ids sib ++ zids z -> rb_node_pool T' !! j = rb_node_pool T !! j)).
  { assert (HU : upd p (set_child d (Some new)) T = Some _) by (by apply upd_deref).
    rewrite set_child_near in HU. eexists. split; [exact HU|]. cbn. split_and!.
    - apply lookup_insert_eq.
    - apply rep_insert; [set_solver|done].
    - apply repc_insert; [set_solver|done].
    - by eapply keeps_upd.
    - done.
    - intros j Hj. apply lookup_insert_ne. set_solver. }
  destruct HD as (T' & HU & HC & HK & HR & HO). exists T'. split; [|split; [exact HC|split; [exact HK|split; [|exact HO]]]].
  2:{ intros E0. by rewrite HR. }
  destruct (decide (d0 = d)) as [->|Hd].
  { rewrite child_near. by rewrite decide_True. }
  assert (d0 = opp d) as -> by (by destruct d0, d). rewrite child_far, opp_opp.
  destruct (decide _) as [E0|]; [|done]. exfalso.
  destruct sib; cbn in *; simplify_eq; set_solver.
Qed.

(** ** Rotation *)
Lemma rotated_ids d cx a x sx cy b y sy c (l : list nat) :
  ids (node d cx a x sx (node d cy b y sy c)) ++ l ≡ₚ x :: y :: ids a ++ ids b ++ ids c ++ l.
Proof. rewrite !ids_node. solve_Permutation. Qed.
Lemma rotated_ids' d cx a x sx cy b y sy c (l : list nat) :
  ids (node d cy (node d cx a x sx b) y sy c) ++ l ≡ₚ x :: y :: ids a ++ ids b ++ ids c ++ l.
Proof. rewrite !ids_node. solve_Permutation. Qed.
Lemma rotate_ok T d cx a x sx cy b y sy c z :
  focus T (node d cx a x sx (node d cy b y sy c)) z ->
  exists T', rotate d x T = Some T' /\
    focus T' (node d cy (node d cx a x sx b) y sy c) z /\ keeps T T'.
Proof.
  intros [H1 H2 H3 H4]. rewrite !troot_node in *. rewrite rotated_ids in H3.
  apply rep_node in H1 as (Hx & Ha & Hy). rewrite troot_node in Hx.
  apply rep_node in Hy as (Hy & Hb & Hc).
  assert (HNxy : x <> y /\ (x ∉ ids a ++ ids b ++ ids c ++ zids z) /\ (y ∉ ids a ++ ids b ++ ids c ++ zids z)).
  { rewrite !list.NoDup_cons in H3. set_solver. }
  assert (HNabc : NoDup (ids a ++ ids b ++ ids c ++ zids z)).
  { rewrite !list.NoDup_cons in H3. naive_solver. }
  destruct HNxy as (Hxy & Nx & Ny). rewrite !elem_of_app in Nx, Ny.
  assert (HNb : NoDup (ids b)).
  { apply list.NoDup_app in HNabc as (_ & _ & HN). by apply list.NoDup_app in HN as (HN & _). }
  assert (Hdis : forall j, j ∈ ids b -> (j ∉ ids a) /\ (j ∉ ids c) /\ (j ∉ zids z)).
  { apply list.NoDup_app in HNabc as (_ & D1 & HN). apply list.NoDup_app in HN as (_ & D2 & HN).
    intros j Hj. specialize (D2 j Hj). specialize (D1 j). set_solver. }
  assert (Hdis2 : forall j, j ∈ zids z -> (j ∉ ids a) /\ (j ∉ ids b) /\ (j ∉ ids c)).
  { apply list.NoDup_app in HNabc as (_ & D1 & HN). apply list.NoDup_app in HN as (_ & D2 & HN).
    apply list.NoDup_app in HN as (_ & D3 & _). intros j Hj.
    split_and!; intros Hj'; [eapply (D1 j Hj')|eapply (D2 j Hj')|eapply (D3 j Hj')]; set_solver. }
  unfold rotate, deref. rewrite Hx. cbn [mbind option_bind]. rewrite child_far. cbn [mbind option_bind].
  rewrite Hy. cbn [mbind option_bind]. rewrite child_near.
  rewrite (upd_deref T x _ _ Hx). cbn [mbind option_bind]. rewrite set_child_far.
  set (T1 := set_pool _ T).
  assert (KT1 : keeps T T1) by (by apply (keeps_insert T x _ _ (rb_root T) Hx)).
  destruct (rep_set_parent T1 b (Some y) (Some x)) as (T2 & -> & Hb2 & R2 & K2 & O2);
    [by apply rep_insert; [tauto|]|done|]. cbn [mbind option_bind].
  assert (Hbx : forall j, j ∉ ids b -> rb_node_pool T2 !! j = rb_node_pool T1 !! j).
  { intros j Hj. apply O2. intros E0. apply Hj. destruct b; cbn in *; [done|]. simplify_eq. set_solver. }
  assert (Hx2 : rb_node_pool T2 !! x = Some (mkn d (troot a) (troot b) (zpar z) cx sx)).
  { rewrite Hbx by tauto. apply lookup_insert_eq. }
  rewrite Hx2. cbn [mbind option_bind]. rewrite parent_mkn.
  assert (Hy2 : deref y T2 = Some (mkn d (troot b) (troot c) (Some x) cy sy)).
  { unfold deref. rewrite Hbx by tauto. cbn. by rewrite lookup_insert_ne. }
  rewrite (upd_deref T2 y _ _ Hy2). cbn [mbind option_bind]. rewrite set_parent_mkn.
  set (T3 := set_pool _ T2).
  assert (K3 : keeps T2 T3) by (by apply (keeps_insert T2 y _ _ (rb_root T2) Hy2)).
  destruct (replace_child_ok T3 z x y d) as (T4 & -> & C4 & K4 & R4 & O4).
  { cbn. apply repc_insert; [tauto|]. eapply (repc_agree (rb_node_pool T1)); [|cbn; apply repc_insert; tauto].
    intros j Hj. apply Hbx. by apply Hdis2. }
  { apply list.NoDup_cons. split; [tauto|]. apply list.NoDup_app in HNabc as (_ & _ & HN).
    apply list.NoDup_app in HN as (_ & _ & HN). by apply list.NoDup_app in HN as (_ & _ & HN). }
  cbn [mbind option_bind].
  assert (Hy4 : deref y T4 = Some (mkn d (troot b) (troot c) (zpar z) cy sy)).
  { unfold deref. rewrite O4 by tauto. apply lookup_insert_eq. }
  rewrite (upd_deref T4 y _ _ Hy4). cbn [mbind option_bind]. rewrite set_child_near.
  set (T5 := set_pool _ T4).
  assert (K5 : keeps T4 T5) by (by apply (keeps_insert T4 y _ _ (rb_root T4) Hy4)).
  assert (Hx5 : deref x T5 = Some (mkn d (troot a) (troot b) (zpar z) cx sx)).
  { unfold deref. cbn. rewrite lookup_insert_ne by done. rewrite O4 by tauto. cbn. by rewrite lookup_insert_ne. }
  rewrite (upd_deref T5 x _ _ Hx5), set_parent_mkn. set (T6 := set_pool _ T5).
  assert (K6 : keeps T5 T6) by (by apply (keeps_insert T5 x _ _ (rb_root T5) Hx5)).
  exists T6. split; [done|]. split; [|by rewrite KT1, K2, K3, K4, K5].
  assert (A6 : forall j, j <> x -> j <> y -> j ∉ zids z -> rb_node_pool T6 !! j = rb_node_pool T2 !! j).
  { intros j Jx Jy Jz. cbn. rewrite !lookup_insert_ne, O4 by done. cbn. by rewrite lookup_insert_ne. }
  assert (A1 : forall j, j <> x -> j ∉ ids b -> rb_node_pool T2 !! j = rb_node_pool T !! j).
  { intros j Jx Jb. rewrite Hbx by done. cbn. by rewrite lookup_insert_ne. }
  constructor; rewrite ?troot_node.
  - apply rep_node. rewrite troot_node. split_and!.
    + cbn. rewrite lookup_insert_ne by done. apply lookup_insert_eq.
    + apply rep_node. split_and!; [apply lookup_insert_eq| |].
      * eapply rep_agree; [|exact Ha]. intros j Hj.
        assert (j ∉ ids b) by (intros Hj'; by destruct (Hdis j Hj') as (? & ? & ?)).
        rewrite A6, A1; set_solver.
      * eapply rep_agree; [|exact Hb2]. intros j Hj. pose proof (Hdis j Hj). rewrite A6; set_solver.
    + eapply rep_agree; [|exact Hc]. intros j Hj.
      assert (j ∉ ids b) by (intros Hj'; by destruct (Hdis j Hj') as (? & ? & ?)). rewrite A6, A1; set_solver.
  - eapply repc_agree; [|exact C4]. intros j Hj. cbn. rewrite !lookup_insert_ne; set_solver.
  - by rewrite rotated_ids'.
  - cbn. symmetry. apply R4. cbn. rewrite R2. done.
Qed.
