(* ===== verification/RbInsert.v ===== *)
(** Balance of the run queue's tree, and insertion: the fixup loop of [EEVDFRBInsertFixup]
    terminates within its fuel, restores the red-black properties and keeps the order. *)
From Stdlib Require Import ZArith Lia.
From stdpp Require Import base tactics list gmap sets numbers option.
From S2P Require Import Prelude RbTree RbRep.

(** ** Red-black trees with their root colour and black height, and the contexts that
    complete a tree of the given colour and height to one *)
Inductive rb : tree -> colour -> nat -> Prop :=
| rb_E : rb E Black 0
| rb_R l i s r n : rb l Black n -> rb r Black n -> rb (N Red l i s r) Red n
| rb_B l i s r cl cr n : rb l cl n -> rb r cr n -> rb (N Black l i s r) Black (S n).
Inductive zrb : list frame -> colour -> nat -> Prop :=
| zrb_nil n : zrb [] Black n
| zrb_B d i s sib cs z c n : rb sib cs n -> zrb z Black (S n) -> zrb (F d Black i s sib :: z) c n
| zrb_R d i s sib z n : rb sib Black n -> zrb z Red n -> zrb (F d Red i s sib :: z) Black n.
#[export] Hint Constructors rb zrb : rb.

Lemma rb_node_R d a i s b n : rb a Black n -> rb b Black n -> rb (node d Red a i s b) Red n.
Proof. destruct d; cbn; eauto with rb. Qed.
Lemma rb_node_B d a i s b ca cb n : rb a ca n -> rb b cb n -> rb (node d Black a i s b) Black (S n).
Proof. destruct d; cbn; eauto with rb. Qed.
#[export] Hint Resolve rb_node_R rb_node_B : rb.
Lemma zrb_weaken z n c : zrb z c n -> zrb z Black n.
Proof. inversion 1; subst; eauto with rb. Qed.
Lemma rb_plug t z c n : rb t c n -> zrb z c n -> exists m, rb (plug t z) Black m.
Proof.
  intros Ht Hz. revert t Ht. induction Hz; intros t Ht; cbn; eauto with rb.
Qed.
Lemma rb_root_black c l i s r n : rb (N c l i s r) Black n -> c = Black.
Proof. by inversion 1. Qed.

(** ** Order *)
Lemma slots_plug t t' z : slots t = slots t' -> slots (plug t z) = slots (plug t' z).
Proof.
  revert t t'. induction z as [|[d c i s sib] z IH]; intros t t' Ht; cbn; [done|].
  apply IH. rewrite !slots_node. by rewrite Ht.
Qed.
Ltac slots_eq d := rewrite ?slots_node; destruct d; cbn; repeat (rewrite <-app_assoc; cbn); reflexivity.
Lemma slots_rotate d cx a x sx cy b y sy c :
  slots (node d cx a x sx (node d cy b y sy c)) = slots (node d cy (node d cx a x sx b) y sy c).
Proof. slots_eq d. Qed.
Lemma slots_recolor d c c' a i s b : slots (node d c a i s b) = slots (node d c' a i s b).
Proof. by rewrite !slots_node. Qed.

Lemma focus_plug T t z : focus T t z <-> focus T (plug t z) [].
Proof.
  revert t. induction z as [|[d c i s sib] z IH]; intros t; cbn; [done|]. by rewrite focus_up, IH.
Qed.

(** [rq->rb_root->color = 0] on a tree whose root is already black, or red. *)
Lemma blacken_root_ok T c l i s r :
  focus T (N c l i s r) [] ->
  exists T', blacken_root T = Some T' /\ focus T' (N Black l i s r) [] /\ keeps T T'.
Proof.
  intros HF. unfold blacken_root. rewrite (fc_root _ _ _ HF). cbn [zroot troot mbind option_bind].
  by apply (focus_recolor T L c l i s r [] Black 0).
Qed.

(** The sibling's index differs from the focus. *)
Lemma focus_sib_ne T t d c i s sib z : focus T t (F d c i s sib :: z) -> t <> E -> troot sib <> troot t.
Proof.
  intros [_ _ HN _] Ht E0. destruct t as [|ct lt it st rt]; [done|]. destruct sib as [|cs ls js ss rs]; [done|].
  cbn in *. simplify_eq. apply list.NoDup_app in HN as (_ & HN & _). apply (HN it); set_solver.
Qed.
(** Which side of its parent the focus is on, as the code tests it. *)
Lemma focus_side T t d c p s sib z d' :
  focus T t (F d c p s sib :: z) -> t <> E ->
  child d' (mkn d (troot t) (troot sib) (zpar z) c s) = troot t <-> d' = d.
Proof.
  intros HF Ht. pose proof (focus_sib_ne _ _ _ _ _ _ _ _ HF Ht) as Hne.
  destruct d, d'; cbn; naive_solver.
Qed.

(** The end of the rotating arm: [z1] red under [p1] red on the same side as [p1] under [g]. *)
Lemma insert_rotate_tail T d X p1 sp1 sib1 g sg unc z' :
  focus T X (F d Red p1 sp1 sib1 :: F d Black g sg unc :: z') ->
  exists T', (T2 ← upd p1 (set_color 0) T;
              np1 ← deref p1 T2;
              g1 ← parent np1;
              T3 ← upd g1 (set_color 1) T2;
              rotate (opp d) g1 T3) = Some T' /\
    focus T' X (F d Black p1 sp1 (node (opp d) Red unc g sg sib1) :: z') /\ keeps T T'.
Proof.
  intros HF. apply focus_out in HF.
  destruct (focus_recolor _ _ _ _ _ _ _ _ Black 0 eq_refl HF) as (T2 & -> & F2 & K2). cbn [mbind option_bind].
  rewrite (focus_deref_node _ _ _ _ _ _ _ _ F2). cbn [mbind option_bind]. rewrite parent_mkn. cbn [zpar mbind option_bind].
  apply focus_out in F2.
  destruct (focus_recolor _ _ _ _ _ _ _ _ Red 1 eq_refl F2) as (T3 & -> & F3 & K3). cbn [mbind option_bind].
  rewrite <-(node_opp d Red), <-(node_opp d Black) in F3.
  destruct (rotate_ok _ _ _ _ _ _ _ _ _ _ _ _ F3) as (T4 & -> & F4 & K4).
  exists T4. split; [done|]. split; [|by rewrite K2, K3].
  apply focus_up. by rewrite node_opp in F4.
Qed.

Lemma is_red_ok T t z : focus T t z -> is_red (troot t) T = Some (match t with N Red _ _ _ _ => true | _ => false end).
Proof.
  intros HF. destruct t as [|c l i s r]; [done|]. cbn. rewrite (focus_deref _ _ _ _ _ _ _ HF). by destruct c.
Qed.
Lemma focus_sib T t d c i s sib z :
  focus T t (F d c i s sib :: z) <-> focus T sib (F (opp d) c i s t :: z).
Proof. rewrite !focus_up. by rewrite node_opp. Qed.

Definition fixed (T : rbt) (t0 : tree) (T' : rbt) : Prop :=
  exists t' m, focus T' t' [] /\ rb t' Black m /\ slots t' = slots t0 /\ keeps T T'.

(** ** The fixup loop *)
Lemma plug_nonempty t z : t <> E -> plug t z <> E.
Proof.
  revert t. induction z as [|[d c i s sib] z IH]; intros t Ht; cbn; [done|]. apply IH. by destruct d.
Qed.
(** Leaving the loop with a balanced tree. *)
Lemma blacken_exit T t z c n :
  focus T t z -> t <> E -> rb t c n -> zrb z c n ->
  exists T', blacken_root T = Some T' /\ fixed T (plug t z) T'.
Proof.
  intros HF Ht Hrb Hz. destruct (rb_plug t z c n Hrb Hz) as (m & Hm). apply focus_plug in HF.
  pose proof (plug_nonempty t z Ht). destruct (plug t z) as [|c' l i s r]; [done|].
  destruct (blacken_root_ok T c' l i s r HF) as (T' & -> & F' & K'). exists T'. split; [done|].
  pose proof (rb_root_black _ _ _ _ _ _ Hm). subst. by exists (N Black l i s r), m.
Qed.
Lemma fixed_step T T1 t0 t1 T' : keeps T T1 -> slots t1 = slots t0 -> fixed T1 t1 T' -> fixed T t0 T'.
Proof.
  intros HK Hs (t' & m & HF & Hm & Hs' & HK'). exists t', m. split_and!; try done; [congruence|by rewrite HK].
Qed.

(** The red-uncle arm: recolour and move up to the grandparent. *)
Lemma insert_recolor T t dp p sp sib dg g sg ul u su ur z :
  focus T t (F dp Red p sp sib :: F dg Black g sg (N Red ul u su ur) :: z) ->
  exists T', (T1 ← upd p (set_color 0) T;
              T2 ← upd_opt (Some u) (set_color 0) T1;
              T3 ← upd g (set_color 1) T2;
              Some (g, T3)) = Some (g, T') /\
    focus T' (node dg Red (node dp Black t p sp sib) g sg (N Black ul u su ur)) z /\ keeps T T'.
Proof.
  intros HF. apply focus_out in HF.
  destruct (focus_recolor _ _ _ _ _ _ _ _ Black 0 eq_refl HF) as (T1 & -> & F1 & K1). cbn [mbind option_bind upd_opt].
  apply focus_sib in F1.
  destruct (focus_recolor T1 L _ _ _ _ _ _ Black 0 eq_refl F1) as (T2 & -> & F2 & K2). cbn [mbind option_bind].
  apply focus_out in F2. rewrite node_opp in F2.
  destruct (focus_recolor _ _ _ _ _ _ _ _ Red 1 eq_refl F2) as (T3 & -> & F3 & K3). cbn [mbind option_bind].
  exists T3. split; [done|]. split; [exact F3|by rewrite K1, K2].
Qed.

(** The black-uncle arm: one or two rotations; the new [z] is red under a black parent. *)
Lemma insert_rotate T d dp a zi s b dz p sp sib g sg unc z n cu :
  focus T (node dz Red a zi s b) (F dp Red p sp sib :: F d Black g sg unc :: z) ->
  rb a Black n -> rb b Black n -> rb sib Black n -> rb unc Black n -> zrb z cu (S n) ->
  exists T' z1 a1 i1 s1 b1 d1 p1 sp1 sib1,
    (np ← deref p T;
     r ← (if decide (child (opp d) np = Some zi) then T1 ← rotate d p T; Some (p, T1) else Some (zi, T));
     let '(z1, T1) := (r : nat * rbt) in
     nz1 ← deref z1 T1;
     p1 ← parent nz1;
     T2 ← upd p1 (set_color 0) T1;
     np1 ← deref p1 T2;
     g1 ← parent np1;
     T3 ← upd g1 (set_color 1) T2;
     T4 ← rotate (opp d) g1 T3;
     Some (z1, T4)) = Some (z1, T') /\ z1 = i1 /\
    focus T' (node d1 Red a1 i1 s1 b1) (F d Black p1 sp1 sib1 :: z) /\ keeps T T' /\
    rb a1 Black n /\ rb b1 Black n /\ rb sib1 Red n /\
    slots (plug (node d1 Red a1 i1 s1 b1) (F d Black p1 sp1 sib1 :: z)) =
      slots (plug (node dz Red a zi s b) (F dp Red p sp sib :: F d Black g sg unc :: z)).
Proof.
  intros HF Ha Hb Hs Hu Hz. set (t := node dz Red a zi s b) in *.
  assert (HtE : t <> E) by (by destruct dz). assert (Htr : troot t = Some zi) by apply troot_node.
  rewrite (focus_deref_par _ _ _ _ _ _ _ _ HF). cbn [mbind option_bind].
  pose proof (focus_side _ _ _ _ _ _ _ _ (opp d) HF HtE) as Hside. rewrite Htr in Hside.
  destruct (decide _) as [Ho|Ho]; rewrite Htr in Ho; rewrite Hside in Ho.
  - subst dp. apply focus_out in HF. rewrite node_opp in HF.
    assert (Hdz : exists a' b', t = node d Red a' zi s b' /\ rb a' Black n /\ rb b' Black n).
    { subst t. destruct (decide (dz = d)) as [->|Hdz]; [by exists a, b|].
      exists b, a. split; [|done]. rewrite <-node_opp. f_equal. by destruct dz, d. }
    destruct Hdz as (a' & b' & Et & Ha' & Hb'). rewrite Et in HF.
    destruct (rotate_ok _ _ _ _ _ _ _ _ _ _ _ _ HF) as (T1 & -> & F1 & K1). cbn [mbind option_bind].
    apply focus_in in F1. rewrite (focus_deref_node _ _ _ _ _ _ _ _ F1). cbn [mbind option_bind].
    rewrite parent_mkn. cbn [zpar mbind option_bind].
    destruct (insert_rotate_tail _ _ _ _ _ _ _ _ _ _ F1) as (T' & E' & F' & K').
    exists T', p, sib, p, sp, a', d, zi, s, (node (opp d) Red unc g sg b').
    split_and!; try done; [|by rewrite K1|by apply rb_node_R|].
    + revert E'. repeat (match goal with |- context [?m ≫= _] => destruct m; cbn [mbind option_bind]; [|done] end).
      by intros [= ->].
    + cbn [plug]. apply slots_plug. rewrite Et, node_opp. slots_eq d.
  - assert (dp = d) as -> by (destruct dp, d; (done || by destruct Ho)).
    cbn [mbind option_bind]. rewrite (focus_deref_node _ _ _ _ _ _ _ _ HF). cbn [mbind option_bind].
    rewrite parent_mkn. cbn [zpar mbind option_bind].
    destruct (insert_rotate_tail _ _ _ _ _ _ _ _ _ _ HF) as (T' & E' & F' & K').
    exists T', zi, a, zi, s, b, dz, p, sp, (node (opp d) Red unc g sg sib).
    split_and!; try done; [|by apply rb_node_R|].
    + revert E'. repeat (match goal with |- context [?m ≫= _] => destruct m; cbn [mbind option_bind]; [|done] end).
      by intros [= ->].
    + cbn [plug]. apply slots_plug. rewrite node_opp. subst t. slots_eq d.
Qed.

Lemma insert_fixup_ok fuel zc T d a zi s b n :
  (length zc < fuel)%nat -> focus T (node d Red a zi s b) zc ->
  rb a Black n -> rb b Black n -> zrb zc Black n ->
  exists T', EEVDFRBInsertFixup fuel zi T = Some T' /\ fixed T (plug (node d Red a zi s b) zc) T'.
Proof.
  revert zc T d a zi s b n. induction fuel as [|f IH]; intros zc T d a zi s b n Hfuel HF Ha Hb Hz; [lia|].
  cbn [EEVDFRBInsertFixup]. rewrite (focus_deref_node _ _ _ _ _ _ _ _ HF). cbn [mbind option_bind].
  rewrite parent_mkn. set (t := node d Red a zi s b) in *.
  assert (Ht : rb t Red n) by (by apply rb_node_R). assert (HtE : t <> E) by (by destruct d).
  assert (Htr : troot t = Some zi) by apply troot_node.
  destruct zc as [|[dp cp p sp sib] zc]; cbn [zpar].
  { destruct t as [|c l i s' r] eqn:Et; [done|].
    destruct (blacken_root_ok T c l i s' r HF) as (T' & -> & F' & K'). exists T'. split; [done|].
    inversion Ht; subst. eexists _, _. split_and!; [exact F'|eauto with rb|done|done]. }
  rewrite (focus_deref_par _ _ _ _ _ _ _ _ HF). cbn [mbind option_bind]. rewrite color_mkn.
  destruct cp; cbn [cval Z.eqb Pos.eqb].
  2:{ inversion Hz; subst. eapply blacken_exit; eauto with rb. }
  rewrite parent_mkn. inversion Hz as [| |? ? ? ? ? ? Hsib Hz']; subst.
  inversion Hz' as [|dg g sg unc cu z' ? ? Hunc Hz''|]; subst. cbn [zpar mbind option_bind].
  pose proof (proj1 (focus_up _ _ _ _ _ _ _ _) HF) as HFp.
  rewrite (focus_deref_par _ _ _ _ _ _ _ _ HFp). cbn [mbind option_bind].
  assert (Hd : (if decide (left (mkn dg (troot (node dp Red t p sp sib)) (troot unc) (zpar z') Black sg) = Some p)
                then L else R) = dg).
  { pose proof (focus_side _ _ _ _ _ _ _ _ L HFp ltac:(by destruct dp)) as Hs. rewrite troot_node in *.
    change (left ?n) with (child L n). destruct (decide _) as [E0|E0]; rewrite Hs in E0; by destruct dg. }
  rewrite Hd. unfold insert_fixup_body. rewrite (focus_deref_par _ _ _ _ _ _ _ _ HFp). cbn [mbind option_bind].
  rewrite child_far. pose proof (proj1 (focus_sib _ _ _ _ _ _ _ _) HFp) as HFu.
  rewrite (is_red_ok _ _ _ HFu). cbn [mbind option_bind].
  destruct unc as [|[] ul u su ur].
  2:{ destruct (insert_recolor _ _ _ _ _ _ _ _ _ _ _ _ _ _ HF) as (T1 & E1 & F1 & K1).
      cbn [troot]. rewrite E1. cbn [mbind option_bind]. inversion Hunc; subst. cbn [length] in Hfuel.
      destruct (IH z' T1 dg _ g sg _ (S n) ltac:(lia) F1) as (T' & -> & HX); [eauto with rb..|done|].
      exists T'. split; [done|]. eapply fixed_step; [exact K1| |exact HX]. cbn [plug]. apply slots_plug.
      rewrite !slots_node. done. }
  all: destruct (insert_rotate T dg dp a zi s b d p sp sib g sg _ z' n Black HF)
         as (T1 & z1 & a1 & i1 & s1 & b1 & d1 & p1 & sp1 & sib1 & E1 & -> & F1 & K1 & H1 & H2 & H3 & H4);
         [done|done|done|by inversion Hunc; subst; eauto with rb|exact Hz''|].
  all: rewrite E1; cbn [mbind option_bind length] in *.
  all: destruct (IH (F dg Black p1 sp1 sib1 :: z') T1 d1 a1 i1 s1 b1 n) as (T' & -> & HX);
         [cbn; lia|exact F1|done|done|eauto with rb|].
  all: exists T'; split; [done|]; eapply fixed_step; [exact K1|exact H4|exact HX].
Qed.
