(* ===== verification/RbQueue.v ===== *)
(** The run queue: its node pool, whose bitmap marks exactly the nodes of the tree, and insertion
    into the tree as an operation on a sorted sequence (the entry goes behind every entry whose
    virtual runtime is not larger). *)
From Stdlib Require Import ZArith Lia Sorting.Sorted.
From stdpp Require Import base tactics list gmap sets numbers option sorting.
From S2P Require Import Prelude RbTree RbRep RbInsert.

Definition word32 (w : Z) : Prop := 0 <= w < 2 ^ 32.

(** The bitmap's two words say which nodes are in [S]. *)
Definition bits_ok (bm : list Z) (S : list nat) : Prop :=
  exists w0 w1, bm = [w0; w1] /\ word32 w0 /\ word32 w1 /\
    (forall b, (b < 32)%nat -> Z.testbit w0 (Z.of_nat b) = bool_decide (b ∈ S)) /\
    (forall b, (b < 32)%nat -> Z.testbit w1 (Z.of_nat b) = bool_decide ((32 + b)%nat ∈ S)).

Lemma bits_ok_perm bm S S' : S ≡ₚ S' -> bits_ok bm S -> bits_ok bm S'.
Proof.
  intros HP (w0 & w1 & -> & H0 & H1 & B0 & B1). exists w0, w1. split_and!; try done.
  - intros b Hb. rewrite B0 by done. apply bool_decide_ext. by rewrite HP.
  - intros b Hb. rewrite B1 by done. apply bool_decide_ext. by rewrite HP.
Qed.

Lemma ones32_bit i : 0 <= i -> Z.testbit (2 ^ 32 - 1) i = (i <? 32).
Proof.
  intros. change (2 ^ 32 - 1) with (Z.ones 32). destruct (Z.ltb_spec i 32).
  - by apply Z.ones_spec_low.
  - by apply Z.ones_spec_high.
Qed.
Lemma avail_zero w : word32 w -> Z.lxor w (2 ^ 32 - 1) = 0 -> forall b, (b < 32)%nat -> Z.testbit w (Z.of_nat b) = true.
Proof.
  intros Hw E0 b Hb. apply (f_equal (fun z => Z.testbit z (Z.of_nat b))) in E0.
  rewrite Z.lxor_spec, ones32_bit, Z.bits_0, (proj2 (Z.ltb_lt _ _)) in E0 by lia. by destruct (Z.testbit w _).
Qed.
Lemma avail_bit w :
  word32 w -> Z.lxor w (2 ^ 32 - 1) <> 0 ->
  let b := ctz32 (Z.lxor w (2 ^ 32 - 1)) in 0 <= b < 32 /\ Z.testbit w b = false.
Proof.
  intros Hw Hne b. assert (Hr : 0 <= Z.lxor w (2 ^ 32 - 1) < 2 ^ 32) by (apply lxor_bound; unfold word32 in *; lia).
  destruct (ctz_from_hit 32 (Z.lxor w (2 ^ 32 - 1))) as (H1 & H2 & _); [lia|].
  fold (ctz32 (Z.lxor w (2 ^ 32 - 1))) in *. fold b in H1, H2. split; [lia|].
  rewrite Z.lxor_spec, ones32_bit, (proj2 (Z.ltb_lt _ _)) in H2 by lia. by destruct (Z.testbit w b).
Qed.
Lemma testbit_setbit w b i :
  word32 w -> 0 <= b < 32 -> 0 <= i -> Z.testbit (Z.lor w (u32 (Z.shiftl 1 b))) i = (i =? b) || Z.testbit w i.
Proof.
  intros Hw Hb Hi. rewrite u32_small by (apply shl1_bound; lia).
  rewrite Z.lor_spec, testbit_shl1 by lia. apply orb_comm.
Qed.
Lemma setbit_word w b : word32 w -> word32 (Z.lor w (u32 (Z.shiftl 1 b))).
Proof. intros Hw. apply lor_bound; [lia|done|apply u32_range]. Qed.
Lemma testbit_clearbit w b i :
  word32 w -> 0 <= b < 32 -> 0 <= i ->
  Z.testbit (Z.land w (Z.lxor (u32 (Z.shiftl 1 b)) (2 ^ 32 - 1))) i = negb (i =? b) && Z.testbit w i.
Proof.
  intros Hw Hb Hi. rewrite u32_small by (apply shl1_bound; lia).
  rewrite Z.land_spec, Z.lxor_spec, testbit_shl1, ones32_bit by lia.
  destruct (Z.ltb_spec i 32).
  - by destruct (i =? b), (Z.testbit w i).
  - rewrite (testbit_ge w i 32) by (unfold word32 in *; lia). by rewrite andb_false_l, andb_false_r.
Qed.

(** Marking node [i] used, or free again. *)
Lemma bits_ok_add w0 w1 S i :
  bits_ok [w0; w1] S -> (i < 64)%nat ->
  bits_ok (if (i <? 32)%nat then [Z.lor w0 (u32 (Z.shiftl 1 (Z.of_nat i))); w1]
           else [w0; Z.lor w1 (u32 (Z.shiftl 1 (Z.of_nat i - 32)))]) (i :: S).
Proof.
  intros (? & ? & [= <- <-] & H0 & H1 & B0 & B1) Hi. destruct (Nat.ltb_spec i 32).
  - eexists _, _. split_and!; [done|by apply setbit_word|done| |]; intros b Hb.
    + rewrite testbit_setbit, B0 by (done || lia). destruct (Z.eqb_spec (Z.of_nat b) (Z.of_nat i)) as [E0|E0].
      * apply Nat2Z.inj in E0 as ->. symmetry. apply bool_decide_eq_true_2. set_solver.
      * apply bool_decide_ext. rewrite elem_of_cons. assert (b <> i) by lia. naive_solver.
    + rewrite B1 by done. apply bool_decide_ext. rewrite elem_of_cons. assert (32 + b <> i)%nat by lia. naive_solver.
  - eexists _, _. split_and!; [done|done|by apply setbit_word| |]; intros b Hb.
    + rewrite B0 by done. apply bool_decide_ext. rewrite elem_of_cons. assert (b <> i)%nat by lia. naive_solver.
    + rewrite testbit_setbit, B1 by (done || lia). destruct (Z.eqb_spec (Z.of_nat b) (Z.of_nat i - 32)) as [E0|E0].
      * assert (i = 32 + b)%nat as -> by lia. symmetry. apply bool_decide_eq_true_2. set_solver.
      * apply bool_decide_ext. rewrite elem_of_cons. assert (32 + b <> i)%nat by lia. naive_solver.
Qed.
Lemma bits_ok_del w0 w1 S i :
  bits_ok [w0; w1] (i :: S) -> (i < 64)%nat -> i ∉ S ->
  bits_ok (if (i <? 32)%nat then [Z.land w0 (Z.lxor (u32 (Z.shiftl 1 (Z.of_nat i))) (2 ^ 32 - 1)); w1]
           else [w0; Z.land w1 (Z.lxor (u32 (Z.shiftl 1 (Z.of_nat i - 32))) (2 ^ 32 - 1))]) S.
Proof.
  intros (? & ? & [= <- <-] & H0 & H1 & B0 & B1) Hi HiS.
  assert (Hne : forall j, j <> i -> bool_decide (j ∈ i :: S) = bool_decide (j ∈ S)).
  { intros j Hj. apply bool_decide_ext. rewrite elem_of_cons. naive_solver. }
  destruct (Nat.ltb_spec i 32).
  - eexists _, _. split_and!; [done|by apply land_bound|done| |]; intros b Hb.
    + rewrite testbit_clearbit, B0 by (done || lia). destruct (Z.eqb_spec (Z.of_nat b) (Z.of_nat i)) as [E0|E0].
      * apply Nat2Z.inj in E0 as ->. symmetry. by apply bool_decide_eq_false_2.
      * apply Hne. lia.
    + rewrite B1 by done. apply Hne. lia.
  - eexists _, _. split_and!; [done|done|by apply land_bound| |]; intros b Hb.
    + rewrite B0 by done. apply Hne. lia.
    + rewrite testbit_clearbit, B1 by (done || lia). destruct (Z.eqb_spec (Z.of_nat b) (Z.of_nat i - 32)) as [E0|E0].
      * assert (i = 32 + b)%nat as -> by lia. symmetry. by apply bool_decide_eq_false_2.
      * apply Hne. lia.
Qed.

(** ** Allocation and release *)
Definition pool_dom (T : rbt) : Prop := forall i, (i < 64)%nat -> is_Some (rb_node_pool T !! i).

Lemma EEVDFAllocRBNode_ok s T S :
  bits_ok (rb_node_pool_bitmap T) S -> pool_dom T ->
  (exists i bm, EEVDFAllocRBNode s T =
     Some (Some i, mk_rbt (<[i := mk_node None None None 1 s]> (rb_node_pool T)) bm (rb_root T) (rb_leftmost T)) /\
     (i < 64)%nat /\ i ∉ S /\ bits_ok bm (i :: S)) \/
  (EEVDFAllocRBNode s T = Some (None, T) /\ forall i, (i < 64)%nat -> i ∈ S).
Proof.
  intros HB HD. pose proof HB as (w0 & w1 & Ebm & H0 & H1 & B0 & B1). unfold EEVDFAllocRBNode.
  cbn [alloc_loop]. rewrite Ebm in *. cbn [arr_get]. change (arr_get [w0; w1] 0) with (Some w0).
  change (arr_get [w0; w1] (0 + 1)) with (Some w1). cbn [mbind option_bind].
  destruct (Z.eqb_spec (Z.lxor w0 (2 ^ 32 - 1)) 0) as [E0|E0]; cbn [negb].
  2:{ left. destruct (avail_bit w0 H0 E0) as [Hb Hf]. set (b := ctz32 _) in *.
      unfold EEVDF_MAX_PROCESSES. replace (u32 (0 * 32 + b)) with b by (rewrite u32_small; lia).
      rewrite (proj2 (Z.ltb_lt b 64)) by lia. rewrite arr_set_some by (cbn; lia). cbn [mbind option_bind].
      unfold EEVDFRBNodeInit. destruct (HD (Z.to_nat b)) as [n Hn]; [lia|].
      erewrite upd_deref by exact Hn. cbn [mbind option_bind].
      eexists _, _. split; [reflexivity|]. split_and!; [lia| |].
      - intros Hin. specialize (B0 (Z.to_nat b) ltac:(lia)). rewrite Z2Nat.id, Hf, bool_decide_true in B0 by (done || lia). done.
      - pose proof (bits_ok_add w0 w1 S (Z.to_nat b) HB ltac:(lia)) as HA.
        rewrite (proj2 (Nat.ltb_lt _ _)), Z2Nat.id in HA by lia. exact HA. }
  destruct (Z.eqb_spec (Z.lxor w1 (2 ^ 32 - 1)) 0) as [E1|E1]; cbn [negb].
  2:{ left. destruct (avail_bit w1 H1 E1) as [Hb Hf]. set (b := ctz32 _) in *. change (0 + 1) with 1.
      unfold EEVDF_MAX_PROCESSES. replace (u32 (1 * 32 + b)) with (32 + b) by (rewrite u32_small; lia).
      rewrite (proj2 (Z.ltb_lt (32 + b) 64)) by lia. rewrite arr_set_some by (cbn; lia). cbn [mbind option_bind].
      unfold EEVDFRBNodeInit. destruct (HD (Z.to_nat (32 + b))) as [n Hn]; [lia|].
      erewrite upd_deref by exact Hn. cbn [mbind option_bind].
      eexists _, _. split; [reflexivity|]. split_and!; [lia| |].
      - intros Hin. specialize (B1 (Z.to_nat b) ltac:(lia)). rewrite Z2Nat.id, Hf in B1 by lia.
        rewrite bool_decide_true in B1; [done|]. by replace (32 + Z.to_nat b)%nat with (Z.to_nat (32 + b)) by lia.
      - pose proof (bits_ok_add w0 w1 S (Z.to_nat (32 + b)) HB ltac:(lia)) as HA.
        rewrite (proj2 (Nat.ltb_ge _ _)), Z2Nat.id in HA by lia. by replace (32 + b - 32) with b in HA by lia. }
  right. split; [done|]. intros i Hi. destruct (decide (i < 32)%nat).
  - specialize (B0 i ltac:(lia)). rewrite (avail_zero w0 H0 E0) in B0 by lia. symmetry in B0. by apply bool_decide_eq_true in B0.
  - specialize (B1 (i - 32)%nat ltac:(lia)). rewrite (avail_zero w1 H1 E1) in B1 by lia. symmetry in B1.
    apply bool_decide_eq_true in B1. by replace (32 + (i - 32))%nat with i in B1 by lia.
Qed.

Lemma EEVDFFreeRBNode_ok i T S :
  bits_ok (rb_node_pool_bitmap T) (i :: S) -> pool_dom T -> (i < 64)%nat -> i ∉ S ->
  exists bm, EEVDFFreeRBNode (Some i) T =
    Some (mk_rbt (<[i := mk_node None None None 0 0]> (rb_node_pool T)) bm (rb_root T) (rb_leftmost T)) /\
    bits_ok bm S.
Proof.
  intros HB HD Hi HS. pose proof HB as (w0 & w1 & Ebm & _). rewrite Ebm in HB. unfold EEVDFFreeRBNode.
  unfold EEVDF_MAX_PROCESSES. rewrite (proj2 (Z.leb_gt 64 _)) by lia. rewrite Ebm.
  pose proof (bits_ok_del w0 w1 S i HB Hi HS) as HDel. destruct (HD i Hi) as [n Hn].
  assert (Hw : Z.of_nat i / 32 = 0 /\ Z.of_nat i mod 32 = Z.of_nat i /\ (i < 32)%nat \/
               Z.of_nat i / 32 = 1 /\ Z.of_nat i mod 32 = Z.of_nat i - 32 /\ (32 <= i)%nat).
  { destruct (decide (i < 32)%nat); [left|right]; split_and!; try lia; dlia. }
  destruct Hw as [(-> & -> & Hlt)|(-> & -> & Hge)].
  - rewrite (proj2 (Nat.ltb_lt _ _)) in HDel by lia. eexists. split; [|exact HDel].
    change (arr_get [w0; w1] 0) with (Some w0). cbn [mbind option_bind].
    rewrite arr_set_some by (cbn; lia). cbn [mbind option_bind]. by erewrite upd_deref by exact Hn.
  - rewrite (proj2 (Nat.ltb_ge _ _)) in HDel by lia. eexists. split; [|exact HDel].
    change (arr_get [w0; w1] 1) with (Some w1). cbn [mbind option_bind].
    rewrite arr_set_some by (cbn; lia). cbn [mbind option_bind]. by erewrite upd_deref by exact Hn.
Qed.

(** * Insertion into the run queue's tree as an operation on a sorted sequence: the entry goes behind every entry whose virtual runtime is not larger. *)
(** ** What is left and right of a context's hole *)
Fixpoint zl (z : list frame) : list (nat * Z) :=
  match z with [] => [] | F L _ _ _ _ :: z' => zl z' | F R _ i s sib :: z' => zl z' ++ slots sib ++ [(i, s)] end.
Fixpoint zr (z : list frame) : list (nat * Z) :=
  match z with [] => [] | F L _ i s sib :: z' => (i, s) :: slots sib ++ zr z' | F R _ _ _ _ :: z' => zr z' end.
Lemma slots_split t z : slots (plug t z) = zl z ++ slots t ++ zr z.
Proof.
  revert t. induction z as [|[d c i s sib] z IH]; intros t; cbn; [by rewrite app_nil_r|].
  rewrite IH, slots_node. destruct d; cbn; by rewrite <-!app_assoc.
Qed.
Lemma ids_plug t z : ids (plug t z) ≡ₚ ids t ++ zids z.
Proof.
  revert t. induction z as [|[d c i s sib] z IH]; intros t; cbn; [by rewrite app_nil_r|].
  rewrite IH, ids_node. solve_Permutation.
Qed.
Lemma plug_app t z1 z2 : plug t (z1 ++ z2) = plug (plug t z1) z2.
Proof. revert t. induction z1 as [|[d c i s sib] z1 IH]; intros t; cbn; [done|apply IH]. Qed.
Lemma zl_app z1 z2 : zl (z1 ++ z2) = zl z2 ++ zl z1.
Proof.
  induction z1 as [|[[] c i s sib] z1 IH]; cbn; [by rewrite app_nil_r|done|]. by rewrite IH, <-app_assoc.
Qed.
Lemma zr_app z1 z2 : zr (z1 ++ z2) = zr z1 ++ zr z2.
Proof. induction z1 as [|[[] c i s sib] z1 IH]; cbn; [done| |done]. by rewrite IH, <-app_assoc. Qed.
Definition zlink (z : list frame) : option (nat * dir) :=
  match z with [] => None | F d _ i _ _ :: _ => Some (i, d) end.
Definition all_left (z : list frame) : bool := forallb (fun f => match f with F d _ _ _ _ => bool_decide (d = L) end) z.
Lemma all_left_zl z : all_left z = bool_decide (zl z = []).
Proof.
  induction z as [|[[] c i s sib] z IH]; cbn; [done|done|]. symmetry. apply bool_decide_eq_false_2.
  intros E0. apply app_eq_nil in E0 as [_ E0]. by apply app_eq_nil in E0 as [_ E0].
Qed.
Lemma zids_length z : (length z <= length (zids z))%nat.
Proof. induction z as [|[d c i s sib] z IH]; cbn; [lia|]. rewrite length_app. lia. Qed.
Fixpoint height (t : tree) : nat := match t with E => 0 | N _ l _ _ r => S (height l `max` height r) end.
Lemma height_ids t : (height t <= length (ids t))%nat.
Proof. induction t as [|c l IHl i s r IHr]; cbn; [lia|]. rewrite length_app. cbn. lia. Qed.

Lemma ids_dom h t par : rep h t par -> forall i, i ∈ ids t -> i ∈ dom h.
Proof.
  revert par. induction t as [|c l IHl i s r IHr]; intros par; cbn; [set_solver|].
  intros (H1 & H2 & H3) j. rewrite elem_of_app, elem_of_cons. intros [Hj|[->|Hj]]; [by eapply IHl| |by eapply IHr].
  apply elem_of_dom. by eexists.
Qed.

Lemma focus_ext T T' t z :
  rb_node_pool T' = rb_node_pool T -> rb_root T' = rb_root T -> focus T t z -> focus T' t z.
Proof. intros E1 E2 [H1 H2 H3 H4]. constructor; by rewrite ?E1, ?E2. Qed.

(** A balanced tree comes apart at any hole. *)
Lemma rb_unplug t z m : rb (plug t z) Black m -> exists c n, rb t c n /\ zrb z c n.
Proof.
  revert t. induction z as [|[d c i s sib] z IH]; intros t; cbn; [by eauto with rb|].
  intros (c' & n & Hn & Hz)%IH. destruct d; cbn in Hn; inversion Hn; subst; eauto with rb.
Qed.

(** Hanging a fresh red node into the hole found by the descent. *)
Lemma attach_ok T z i s :
  focus T E z -> deref i T = Some (mk_node None None None 1 s) -> i ∉ zids z ->
  exists T', (T3 ← upd i (set_parent (fst <$> zlink z)) T;
              match zlink z with
              | None => Some (set_root (Some i) T3)
              | Some (p, d) => upd p (set_child d (Some i)) T3
              end) = Some T' /\ focus T' (N Red E i s E) z /\ keeps T T'.
Proof.
  intros HF Hi Hz. assert (HU := upd_deref _ _ _ (set_parent (fst <$> zlink z)) Hi). rewrite HU. cbn [mbind option_bind].
  pose proof (keeps_upd _ _ _ _ HU) as K1. set (T3 := set_pool _ T) in *.
  destruct HF as [_ H2 H3 H4]. destruct z as [|[d c p sp sib] z]; cbn [zlink fst fmap option_fmap option_map] in *.
  - exists (set_root (Some i) T3). split; [done|]. split; [|by rewrite K1; apply keeps_set_root].
    constructor; cbn; [|done| |done]; [|repeat constructor; set_solver]. split_and!; [apply lookup_insert_eq|done|done].
  - cbn in H2, H3, Hz. destruct H2 as (Hp & Hs & Hc). apply list.NoDup_cons in H3 as [Np H3].
    rewrite elem_of_cons, elem_of_app in Hz.
    assert (Hp3 : deref p T3 = Some (mkn d None (troot sib) (zpar z) c sp)).
    { unfold deref. cbn. rewrite lookup_insert_ne; [done|]. intros ->. tauto. }
    assert (HU3 := upd_deref _ _ _ (set_child d (Some i)) Hp3). rewrite HU3.
    eexists. split; [reflexivity|]. split; [|by rewrite K1; eapply keeps_upd].
    rewrite set_child_near. rewrite elem_of_app in Np. constructor; cbn.
    + split_and!; [|done|done]. rewrite lookup_insert_ne by (intros ->; tauto). apply lookup_insert_eq.
    + split_and!; [apply lookup_insert_eq|do 2 (apply rep_insert; [tauto|]); done|do 2 (apply repc_insert; [tauto|]); done].
    + apply list.NoDup_cons. rewrite elem_of_cons, elem_of_app. split; [tauto|].
      apply list.NoDup_cons. by rewrite elem_of_app.
    + done.
Qed.

Definition pool_idx : gset nat := set_seq 0 64.
Lemma elem_pool_idx i : i ∈ pool_idx <-> (i < 64)%nat.
Proof. unfold pool_idx. rewrite elem_of_set_seq. lia. Qed.
#[global] Opaque pool_idx.
Lemma rb_fuel_ge n : (n <= 64)%nat -> (n < rb_fuel)%nat.
Proof. unfold rb_fuel. lia. Qed.
#[global] Opaque rb_fuel.
Lemma pool_dom_insert (h : gmap nat EEVDFRBNode) i n :
  dom h = pool_idx -> (i < 64)%nat -> dom (<[i := n]> h) = pool_idx.
Proof.
  intros HD Hi. rewrite dom_insert_L, HD. apply set_eq. intros x.
  rewrite elem_of_union, elem_of_singleton, elem_pool_idx. split; [intros [->|?]; lia|intros; by right].
Qed.

Section queue.
Context (vruntime : Z -> option Z).
Definition key (e : nat * Z) : Z := default 0 (vruntime e.2).

(** The run queue's tree: linked, balanced, ordered, with the leftmost pointer at its first
    node and the pool's bitmap at exactly its nodes. *)
Record tree_ok (T : rbt) (t : tree) : Prop := {
  to_focus : focus T t [];
  to_rb : exists m, rb t Black m;
  to_dom : dom (rb_node_pool T) = pool_idx;
  to_bits : bits_ok (rb_node_pool_bitmap T) (ids t);
  to_left : rb_leftmost T = fst <$> head (slots t);
  to_keys : Forall (fun e => is_Some (vruntime e.2)) (slots t);
  to_sorted : StronglySorted (fun a b => key a <= key b) (slots t)
}.

Lemma to_pool_dom T t : tree_ok T t -> pool_dom T.
Proof. intros HT i Hi. apply elem_of_dom. by rewrite (to_dom _ _ HT), elem_pool_idx. Qed.
Lemma to_ids_lt T t i : tree_ok T t -> i ∈ ids t -> (i < 64)%nat.
Proof.
  intros HT Hi. eapply ids_dom in Hi; [|apply (fc_rep _ _ _ (to_focus _ _ HT))].
  by rewrite (to_dom _ _ HT), elem_pool_idx in Hi.
Qed.
Lemma ids_bound (l : list nat) : NoDup l -> (forall i, i ∈ l -> (i < 64)%nat) -> (length l <= 64)%nat.
Proof.
  intros HN Hl. replace 64%nat with (length (seq 0 64)) by apply length_seq.
  apply submseteq_length, NoDup_submseteq; [done|]. intros i Hi. apply elem_of_seq. specialize (Hl i Hi). lia.
Qed.
Lemma to_size T t : tree_ok T t -> (length (ids t) <= 64)%nat.
Proof.
  intros HT. apply ids_bound; [|by intros; eapply to_ids_lt].
  pose proof (fc_nodup _ _ _ (to_focus _ _ HT)) as HN. cbn in HN. by rewrite app_nil_r in HN.
Qed.

(** ** The descent *)
Lemma find_link_ok fuel k t z T :
  (height t < fuel)%nat -> focus T t z ->
  Forall (fun e => is_Some (vruntime e.2)) (slots t) ->
  StronglySorted (fun a b => key a <= key b) (slots t) ->
  exists zd, find_link vruntime fuel k (troot t) (zlink z) (all_left z) T =
    Some (zlink (zd ++ z), all_left (zd ++ z)) /\
    focus T E (zd ++ z) /\ plug E zd = t /\
    Forall (fun e => key e <= k) (zl zd) /\ Forall (fun e => k < key e) (zr zd).
Proof.
  revert t z. induction fuel as [|f IH]; intros t z Hf HF HK HS; [lia|].
  destruct t as [|c l i s r]; cbn [find_link troot].
  { exists []. cbn. split_and!; [done|done|done|constructor|constructor]. }
  rewrite (focus_deref _ _ _ _ _ _ _ HF). cbn [mbind option_bind slot left right].
  cbn in HK, HS, Hf. apply Forall_app in HK as [HKl HK]. apply Forall_cons_iff in HK as [[ki Hki] HKr]. cbn in Hki.
  rewrite Hki. cbn [mbind option_bind].
  assert (Hkey : key (i, s) = ki) by (unfold key; cbn; by rewrite Hki).
  apply StronglySorted_app in HS as (HLR & HSl & HS). apply StronglySorted_inv in HS as [HSr HSi].
  case_if Ek; zbool.
  - apply (focus_in T l L c i s r z) in HF.
    destruct (IH l _ ltac:(lia) HF HKl HSl) as (zd & E1 & F1 & P1 & A1 & B1).
    exists (zd ++ [F L c i s r]). rewrite <-app_assoc. cbn [app].
    split_and!; [exact E1|exact F1|..]; rewrite ?plug_app, ?zl_app, ?zr_app, ?P1; cbn; [done|done|].
    rewrite app_nil_r, Forall_app, Forall_cons_iff. split_and!; [done|lia|].
    eapply list.Forall_impl; [exact HSi|]. intros x Hx. cbn in Hx. lia.
  - apply (focus_in T r R c i s l z) in HF.
    destruct (IH r _ ltac:(lia) HF HKr HSr) as (zd & E1 & F1 & P1 & A1 & B1).
    exists (zd ++ [F R c i s l]). rewrite <-app_assoc. cbn [app].
    split_and!; [exact E1|exact F1|..]; rewrite ?plug_app, ?zl_app, ?zr_app, ?P1; cbn; rewrite ?app_nil_r; [done| |done].
    rewrite !Forall_app, Forall_singleton. split_and!; [|lia|done].
    apply list.Forall_forall. intros x Hx. assert (key x <= key (i, s)); [|lia].
    apply HLR; [done|by left].
Qed.

Lemma tree_ok_pool_ext T t i n bm :
  tree_ok T t -> i ∉ ids t ->
  focus (mk_rbt (<[i := n]> (rb_node_pool T)) bm (rb_root T) (rb_leftmost T)) t [].
Proof.
  intros HT Hi. destruct (to_focus _ _ HT) as [H1 H2 H3 H4]. constructor; cbn; try done. by apply rep_insert.
Qed.

Lemma pool_full T t : tree_ok T t -> (forall i, (i < 64)%nat -> i ∈ ids t) -> length (slots t) = 64%nat.
Proof.
  intros HT Hfull. pose proof (to_size _ _ HT) as Hsz. rewrite ids_slots, length_fmap in Hsz.
  assert (HP : (length (seq 0 64) <= length (ids t))%nat).
  { apply submseteq_length, NoDup_submseteq; [apply NoDup_seq|]. intros j [_ Hj]%elem_of_seq. apply Hfull. lia. }
  rewrite length_seq, ids_slots, length_fmap in HP. lia.
Qed.

(** [EEVDFRBInsert]: the new entry goes behind every entry with a key not above its own;
    with all 64 nodes in use nothing changes. *)
Lemma rb_insert_ok T t s k :
  tree_ok T t -> vruntime s = Some k ->
  (exists i T' t' l1 l2, rb_insert vruntime s k T = Some (Some i, T') /\ tree_ok T' t' /\
     slots t = l1 ++ l2 /\ slots t' = l1 ++ (i, s) :: l2 /\ i ∉ ids t /\
     Forall (fun e => key e <= k) l1 /\ Forall (fun e => k < key e) l2) \/
  (rb_insert vruntime s k T = Some (None, T) /\ length (slots t) = 64%nat).
Proof.
  intros HT Hk. unfold rb_insert.
  destruct (EEVDFAllocRBNode_ok s T (ids t) (to_bits _ _ HT) (to_pool_dom _ _ HT))
    as [(i & bm & -> & Hi & Hni & Hbm)|[-> Hfull]]; rewrite option_bind_Some.
  2:{ right. split; [done|]. by eapply pool_full. }
  left. set (T1 := mk_rbt _ bm _ _). pose proof (tree_ok_pool_ext T t i (mk_node None None None 1 s) bm HT Hni) as F1.
  pose proof (to_size _ _ HT) as Hsz. pose proof (height_ids t) as Hh.
  destruct (find_link_ok rb_fuel k t [] T1 ltac:(apply rb_fuel_ge; lia) F1 (to_keys _ _ HT) (to_sorted _ _ HT)) as (z & E1 & Fz & Pz & A1 & B1).
  rewrite app_nil_r in *. change (rb_root T1) with (rb_root T). rewrite (fc_root _ _ _ (to_focus _ _ HT)).
  cbn [zroot zlink all_left forallb] in *. rewrite E1, option_bind_Some.
  set (T2 := if all_left z then set_leftmost (Some i) T1 else T1).
  assert (Hzi : i ∉ zids z).
  { intros Hin. apply Hni. rewrite <-Pz, ids_plug. cbn. done. }
  assert (Hsl : slots t = zl z ++ zr z) by (by rewrite <-Pz, slots_split).
  assert (P2 : rb_node_pool T2 = rb_node_pool T1) by (subst T2; by destruct (all_left z)).
  assert (R2 : rb_root T2 = rb_root T1) by (subst T2; by destruct (all_left z)).
  assert (M2 : rb_node_pool_bitmap T2 = bm) by (subst T2; by destruct (all_left z)).
  destruct (attach_ok T2 z i s) as (T4 & E4 & F4 & K4); [by apply (focus_ext T1)|unfold deref; rewrite P2; apply lookup_insert_eq|done|].
  destruct (upd i _ T2) as [T3|]; [|done]. cbn [mbind option_bind] in E4. rewrite option_bind_Some, E4, option_bind_Some.
  destruct (to_rb _ _ HT) as (m & Hm). rewrite <-Pz in Hm. apply rb_unplug in Hm as (c0 & n0 & HE & Hz0).
  inversion HE; subst c0 n0. pose proof (zids_length z) as Hzl.
  assert (Hlen : (length z < rb_fuel)%nat).
  { apply rb_fuel_ge. assert (HP := ids_plug E z). rewrite Pz in HP. apply Permutation_length in HP. cbn in HP. lia. }
  destruct (insert_fixup_ok rb_fuel z T4 L E i s E 0 Hlen F4 rb_E rb_E Hz0) as (T5 & -> & t' & m' & F5 & Hm' & Hs' & K5).
  rewrite option_bind_Some. rewrite slots_split in Hs'. cbn in Hs'.
  exists i, T5, t', (zl z), (zr z). split_and!; try done.
  assert (Hlm : rb_leftmost T5 = fst <$> head (zl z ++ (i, s) :: zr z)).
  { rewrite (kp_left _ _ K5), (kp_left _ _ K4). subst T2. rewrite all_left_zl. case_bool_decide as Hnil.
    - by rewrite Hnil.
    - cbn. rewrite (to_left _ _ HT), Hsl. by destruct (zl z). }
  constructor; rewrite ?Hs'; try done.
  - by exists m'.
  - rewrite (kp_dom _ _ K5), (kp_dom _ _ K4), P2. apply pool_dom_insert; [apply HT|done].
  - rewrite (kp_bits _ _ K5), (kp_bits _ _ K4), M2. eapply bits_ok_perm; [|exact Hbm].
    rewrite !ids_slots, Hs', Hsl, !fmap_app, fmap_cons. cbn. by rewrite Permutation_middle.
  - pose proof (to_keys _ _ HT) as HK. rewrite Hsl in HK. rewrite Forall_app in *. rewrite Forall_cons_iff.
    split_and!; [tauto|by eexists|tauto].
  - pose proof (to_sorted _ _ HT) as HS. rewrite Hsl in HS. apply StronglySorted_app in HS as (HS1 & HS2 & HS3).
    assert (Hki : key (i, s) = k) by (unfold key; cbn; by rewrite Hk).
    rewrite list.Forall_forall in A1, B1. apply StronglySorted_app. split_and!; [|done|].
    + intros x y Hx [->|Hy]%elem_of_cons; [rewrite Hki; by apply A1|by apply HS1].
    + constructor; [done|]. apply list.Forall_forall. intros y Hy. specialize (B1 y Hy). cbn in B1. lia.
Qed.
End queue.
