(* ===== verification/RbDelete.v ===== *)
(** Deletion's fixup loop: [EEVDFRBDeleteFixup] terminates within its fuel, gives the missing
    black node back and keeps the order. *)
From Stdlib Require Import ZArith Lia.
From stdpp Require Import base tactics list gmap sets numbers option.
From S2P Require Import Prelude RbTree RbRep RbInsert.

Ltac bind := rewrite option_bind_Some; cbv beta match.

(** [x] is one black node short of height [S n], or red and complete once blackened. *)
Definition short (x : tree) (n : nat) : Prop :=
  rb x Black n \/ exists l i s r, x = N Red l i s r /\ rb (N Black l i s r) Black (S n).

Definition is_red_tree (t : tree) : bool := match t with N Red _ _ _ _ => true | _ => false end.
Lemma is_black_ok T t z : focus T t z -> is_black (troot t) T = Some (negb (is_red_tree t)).
Proof.
  intros HF. destruct t as [|c l i s r]; [done|]. cbn. rewrite (focus_deref _ _ _ _ _ _ _ HF). by destruct c.
Qed.
Lemma rb_red t c n : rb t c n -> is_red_tree t = match c with Red => true | Black => false end.
Proof. by inversion 1. Qed.
(** Every node can be seen from either side. *)
Lemma N_node d c l i s r : exists a b, N c l i s r = node d c a i s b.
Proof. destruct d; [by exists l, r|by exists r, l]. Qed.
Lemma rb_node_inv_R d a i s b c n : rb (node d Red a i s b) c n -> c = Red /\ rb a Black n /\ rb b Black n.
Proof. destruct d; inversion 1; subst; done. Qed.
Lemma rb_node_inv_B d a i s b c n :
  rb (node d Black a i s b) c n -> exists n' ca cb, c = Black /\ n = S n' /\ rb a ca n' /\ rb b cb n'.
Proof. destruct d; inversion 1; subst; by eexists _, _, _. Qed.
(** A tree of positive height with a black root. *)
Lemma rb_black_S d t n :
  rb t Black (S n) -> exists a i s b ca cb, t = node d Black a i s b /\ rb a ca n /\ rb b cb n.
Proof.
  inversion 1; subst. destruct d.
  - by eexists _, _, _, _, _, _.
  - by eexists r, _, _, l, _, _.
Qed.
Lemma rb_red_node d t n : rb t Red n -> exists a i s b, t = node d Red a i s b /\ rb a Black n /\ rb b Black n.
Proof. inversion 1; subst. destruct d; [by eexists _, _, _, _|by eexists r, _, _, l]. Qed.

(** Recolouring the sibling of the focus. *)
Lemma focus_recolor_sib T x d c p s dw cw a i sw b z cw' k :
  k = cval cw' -> focus T x (F d c p s (node dw cw a i sw b) :: z) ->
  exists T', upd i (set_color k) T = Some T' /\
    focus T' x (F d c p s (node dw cw' a i sw b) :: z) /\ keeps T T'.
Proof.
  intros Hk HF. apply focus_sib in HF.
  destruct (focus_recolor _ _ _ _ _ _ _ _ cw' k Hk HF) as (T' & E' & F' & K').
  exists T'. split; [done|]. split; [|done]. apply focus_sib. done.
Qed.
(** ... and the parent. *)
Lemma focus_recolor_par T x d c p s w z c' k :
  k = cval c' -> focus T x (F d c p s w :: z) ->
  exists T', upd p (set_color k) T = Some T' /\ focus T' x (F d c' p s w :: z) /\ keeps T T'.
Proof.
  intros Hk HF. apply focus_out in HF.
  destruct (focus_recolor _ _ _ _ _ _ _ _ c' k Hk HF) as (T' & E' & F' & K').
  exists T'. split; [done|]. split; [|done]. by apply focus_in.
Qed.
(** ... and a child of the sibling. *)
Lemma focus_sib_child T x d c p s dw cw a i sw b z :
  focus T x (F d c p s (node dw cw a i sw b) :: z) <->
  focus T a (F dw cw i sw b :: F (opp d) c p s x :: z).
Proof. rewrite focus_sib, <-focus_up. done. Qed.

(** ** The arms of the loop *)

(** A red sibling: afterwards the sibling is black and the parent red. *)
Lemma delete_red_sibling T x d p sp wn wi ws wf z :
  focus T x (F d Black p sp (node d Red wn wi ws wf) :: z) ->
  exists T', (T1 ← upd_opt (Some wi) (set_color 0) T;
              T2 ← upd p (set_color 1) T1;
              T3 ← rotate d p T2;
              np3 ← deref p T3;
              Some (child (opp d) np3, T3)) = Some (troot wn, T') /\
    focus T' x (F d Red p sp wn :: F d Black wi ws wf :: z) /\ keeps T T'.
Proof.
  intros HF. cbn [upd_opt].
  destruct (focus_recolor_sib _ _ _ _ _ _ _ _ _ _ _ _ _ Black 0 eq_refl HF) as (T1 & -> & F1 & K1). bind.
  destruct (focus_recolor_par _ _ _ _ _ _ _ _ Red 1 eq_refl F1) as (T2 & -> & F2 & K2). bind.
  apply focus_out in F2. destruct (rotate_ok _ _ _ _ _ _ _ _ _ _ _ _ F2) as (T3 & -> & F3 & K3). bind.
  apply focus_in in F3. rewrite (focus_deref_node _ _ _ _ _ _ _ _ F3). bind. rewrite child_far.
  exists T3. split; [done|]. split; [by apply focus_in|]. by rewrite K1, K2.
Qed.

(** A black sibling with a red near child: rotate that child up. *)
Lemma delete_near_red T x d c p sp a ni ns b wi ws wf z :
  focus T x (F d c p sp (node d Black (node d Red a ni ns b) wi ws wf) :: z) ->
  exists T', (nw ← deref wi T;
              T2 ← upd_opt (child d nw) (set_color 0) T;
              T3 ← upd wi (set_color 1) T2;
              T4 ← rotate (opp d) wi T3;
              np4 ← deref p T4;
              Some (child (opp d) np4, T4)) = Some (Some ni, T') /\
    focus T' x (F d c p sp (node d Black a ni ns (node d Red b wi ws wf)) :: z) /\ keeps T T'.
Proof.
  intros HF. pose proof (proj1 (focus_sib _ _ _ _ _ _ _ _) HF) as HW.
  rewrite (focus_deref_node _ _ _ _ _ _ _ _ HW). bind. rewrite child_near, troot_node. cbn [upd_opt].
  apply focus_sib_child in HF.
  destruct (focus_recolor _ _ _ _ _ _ _ _ Black 0 eq_refl HF) as (T2 & -> & F2 & K2). bind.
  destruct (focus_recolor_par _ _ _ _ _ _ _ _ Red 1 eq_refl F2) as (T3 & -> & F3 & K3). bind.
  apply focus_out in F3. rewrite <-(node_opp d Red), <-(node_opp d Black) in F3.
  destruct (rotate_ok _ _ _ _ _ _ _ _ _ _ _ _ F3) as (T4 & -> & F4 & K4). bind.
  apply focus_sib in F4. rewrite !node_opp, ?opp_opp in F4.
  rewrite (focus_deref_par _ _ _ _ _ _ _ _ F4). bind. rewrite child_far, troot_node.
  exists T4. split; [done|]. split; [done|]. by rewrite K2, K3.
Qed.

(** A black sibling with a red far child: rotate the sibling up; the tree is complete. *)
Lemma delete_far_red T x d c p sp wn wi ws fl fi fs fr z :
  focus T x (F d c p sp (node d Black wn wi ws (N Red fl fi fs fr)) :: z) ->
  exists T', (T3 ← (np2 ← deref p T;
                    Ta ← upd wi (set_color (color np2)) T;
                    Tb ← upd p (set_color 0) Ta;
                    nw ← deref wi Tb;
                    upd_opt (child (opp d) nw) (set_color 0) Tb);
              T4 ← rotate d p T3;
              Some (rb_root T4, Some p, T4)) = Some (rb_root T', Some p, T') /\
    focus T' (node d c (node d Black x p sp wn) wi ws (N Black fl fi fs fr)) z /\ keeps T T'.
Proof.
  intros HF. rewrite (focus_deref_par _ _ _ _ _ _ _ _ HF). bind. rewrite color_mkn.
  destruct (focus_recolor_sib _ _ _ _ _ _ _ _ _ _ _ _ _ c _ eq_refl HF) as (Ta & -> & Fa & Ka). bind.
  destruct (focus_recolor_par _ _ _ _ _ _ _ _ Black 0 eq_refl Fa) as (Tb & -> & Fb & Kb). bind.
  pose proof (proj1 (focus_sib _ _ _ _ _ _ _ _) Fb) as HW.
  rewrite (focus_deref_node _ _ _ _ _ _ _ _ HW). bind. rewrite child_far. cbn [troot upd_opt].
  rewrite <-node_opp in Fb. apply focus_sib_child in Fb.
  destruct (focus_recolor Tb L Red fl fi fs fr _ Black 0 eq_refl Fb) as (Tc & -> & Fc & Kc). bind.
  apply focus_sib_child, focus_out in Fc. rewrite node_opp in Fc.
  destruct (rotate_ok _ _ _ _ _ _ _ _ _ _ _ _ Fc) as (T4 & -> & F4 & K4). bind.
  exists T4. split; [done|]. split; [done|]. by rewrite Ka, Kb, Kc.
Qed.

(** The state after a pass: moved up to the parent, or complete. *)
Definition moved_up (T T' : rbt) (t0 : tree) (k : nat) (x' par' : option nat) : Prop :=
  exists X zx n', x' = troot X /\ par' = zpar zx /\ focus T' X zx /\ short X n' /\ zrb zx Black (S n') /\
    slots (plug X zx) = slots t0 /\ ((length zx <= k)%nat \/ is_red_tree X = true).
Definition completed (T T' : rbt) (t0 : tree) (x' : option nat) : Prop :=
  exists t' m, x' = troot t' /\ focus T' t' [] /\ rb t' Black m /\ slots t' = slots t0.

(** The pass from the point where the sibling is black. *)
Lemma delete_black_sibling T x d c p sp w z n k :
  focus T x (F d c p sp w :: z) -> rb x Black n -> rb w Black (S n) ->
  zrb (F d c p sp w :: z) Black (S n) -> ((length z <= k)%nat \/ c = Red) ->
  exists x' par' T',
    (both_black ← match troot w with
                  | None => Some false
                  | Some w => nw ← deref w T;
                      b1 ← is_black (child d nw) T; b2 ← is_black (child (opp d) nw) T;
                      Some (b1 && b2)
                  end;
     if (both_black : bool) then
       T2 ← upd_opt (troot w) (set_color 1) T;
       np2 ← deref p T2;
       Some (Some p, parent np2, T2)
     else
       far_black ← match troot w with
                   | None => Some false
                   | Some w => nw ← deref w T; is_black (child (opp d) nw) T
                   end;
       r2 ← (if (far_black : bool) then
               w ← troot w;
               nw ← deref w T;
               T2 ← upd_opt (child d nw) (set_color 0) T;
               T3 ← upd w (set_color 1) T2;
               T4 ← rotate (opp d) w T3;
               np4 ← deref p T4;
               Some (child (opp d) np4, T4)
             else Some (troot w, T));
       let '(w2, T2) := (r2 : option nat * rbt) in
       T3 ← match w2 with
            | None => Some T2
            | Some w =>
                np2 ← deref p T2;
                Ta ← upd w (set_color (color np2)) T2;
                Tb ← upd p (set_color 0) Ta;
                nw ← deref w Tb;
                upd_opt (child (opp d) nw) (set_color 0) Tb
            end;
       T4 ← rotate d p T3;
       Some (rb_root T4, Some p, T4)) = Some (x', par', T') /\ keeps T T' /\
    (moved_up T T' (plug x (F d c p sp w :: z)) k x' par' \/ completed T T' (plug x (F d c p sp w :: z)) x').
Proof.
  intros HF Hx Hw Hz Hk. destruct (rb_black_S d w n Hw) as (wn & wi & ws & wf & cn & cf & -> & Hwn & Hwf).
  pose proof (proj1 (focus_sib _ _ _ _ _ _ _ _) HF) as HW. rewrite troot_node.
  rewrite !(focus_deref_node _ _ _ _ _ _ _ _ HW). rewrite !option_bind_Some, child_near, child_far.
  rewrite (is_black_ok _ _ _ (focus_in _ _ _ _ _ _ _ _ HW)).
  rewrite <-node_opp in HW. rewrite !(is_black_ok _ _ _ (focus_in _ _ _ _ _ _ _ _ HW)).
  rewrite !option_bind_Some. rewrite (rb_red _ _ _ Hwn), (rb_red _ _ _ Hwf).
  assert (Hfin : forall T2 wn' wi' ws' cn' fl fi fs fr, keeps T T2 ->
    focus T2 x (F d c p sp (node d Black wn' wi' ws' (N Red fl fi fs fr)) :: z) ->
    rb wn' cn' n -> rb fl Black n -> rb fr Black n ->
    slots (plug x (F d c p sp (node d Black wn' wi' ws' (N Red fl fi fs fr)) :: z)) =
      slots (plug x (F d c p sp (node d Black wn wi ws wf) :: z)) ->
    exists x' par' T',
      (T3 ← (np2 ← deref p T2;
             Ta ← upd wi' (set_color (color np2)) T2;
             Tb ← upd p (set_color 0) Ta;
             nw ← deref wi' Tb;
             upd_opt (child (opp d) nw) (set_color 0) Tb);
       T4 ← rotate d p T3;
       Some (rb_root T4, Some p, T4)) = Some (x', par', T') /\ keeps T T' /\
      completed T T' (plug x (F d c p sp (node d Black wn wi ws wf) :: z)) x').
  { intros T2 wn' wi' ws' cn' fl fi fs fr HK2 F2 Hn' Hfl Hfr Hs.
    destruct (delete_far_red _ _ _ _ _ _ _ _ _ _ _ _ _ _ F2) as (T' & -> & F' & K').
    eexists _, _, T'. split; [done|]. split; [by rewrite HK2|].
    assert (Hm : exists m, rb (plug (node d c (node d Black x p sp wn') wi' ws' (N Black fl fi fs fr)) z) Black m).
    { inversion Hz; subst; eapply rb_plug; eauto with rb. }
    destruct Hm as (m & Hm). pose proof (proj1 (focus_plug _ _ _) F') as Fp. eexists _, m.
    split; [by rewrite (fc_root _ _ _ Fp)|]. split; [done|]. split; [done|].
    rewrite <-Hs. cbn [plug]. apply slots_plug. rewrite <-slots_rotate. rewrite !slots_node. by destruct d. }
  destruct cf; [|destruct cn]; cbn [negb andb].
  - (* the far child is red *)
    rewrite andb_false_r. bind. destruct (rb_red_node L wf n Hwf) as (fl & fi & fs & fr & -> & Hfl & Hfr).
    destruct (Hfin T wn wi ws cn fl fi fs fr) as (x' & par' & T' & HE & HK & HC); [done..|].
    exists x', par', T'. split; [exact HE|]. split; [done|]. by right.
  - (* the near child is red, the far one black *)
    destruct (rb_red_node d wn n Hwn) as (a & ni & ns & b & -> & Ha & Hb).
    destruct (delete_near_red _ _ _ _ _ _ _ _ _ _ _ _ _ _ HF) as (T2 & HE2 & F2 & K2).
    rewrite HE2. bind.
    assert (HN : node d Red b wi ws wf = N Red (match d with L => b | R => wf end) wi ws (match d with L => wf | R => b end))
      by (by destruct d).
    rewrite HN in F2.
    destruct (Hfin T2 a ni ns Black _ wi ws _ K2 F2) as (x' & par' & T' & HE & HK & HC); [done|by destruct d|by destruct d| |].
    { rewrite <-HN. cbn [plug]. apply slots_plug. slots_eq d. }
    exists x', par', T'. split; [exact HE|]. split; [done|]. by right.
  - (* both children black: the sibling turns red and the parent is examined next *)
    cbn [upd_opt].
    destruct (focus_recolor_sib _ _ _ _ _ _ _ _ _ _ _ _ _ Red 1 eq_refl HF) as (T2 & -> & F2 & K2). bind.
    rewrite (focus_deref_par _ _ _ _ _ _ _ _ F2). bind. rewrite parent_mkn.
    eexists _, _, T2. split; [done|]. split; [done|]. left.
    apply focus_out in F2.
    assert (Hsh : exists n', short (node d c x p sp (node d Red wn wi ws wf)) n' /\ zrb z Black (S n')).
    { inversion Hz; subst.
      - exists (S n). split; [|done]. left. eauto with rb.
      - exists n. split; [|by eapply zrb_weaken]. right.
        destruct d; eexists _, _, _, _; (split; [reflexivity|]); cbn in *; eauto with rb. }
    destruct Hsh as (n' & Hsh & Hz').
    eexists _, z, n'. split; [symmetry; apply troot_node|]. split_and!; [done|exact F2|done|done| |].
    + cbn [plug]. apply slots_plug. rewrite !slots_node. by destruct d.
    + destruct Hk as [Hk| ->]; [by left|]. right. by destruct d.
Qed.

Lemma zrb_top d c p sp w z m :
  zrb (F d c p sp w :: z) Black m ->
  (c = Black /\ exists cs, rb w cs m /\ zrb z Black (S m)) \/ (c = Red /\ rb w Black m /\ zrb z Red m).
Proof. inversion 1; subst; eauto 6. Qed.

Lemma delete_body_ok T x d c p sp w z n :
  focus T x (F d c p sp w :: z) -> rb x Black n -> zrb (F d c p sp w :: z) Black (S n) ->
  exists x' par' T', delete_fixup_body d (troot x) p T = Some (x', par', T') /\ keeps T T' /\
    (moved_up T T' (plug x (F d c p sp w :: z)) (length z) x' par' \/
     completed T T' (plug x (F d c p sp w :: z)) x').
Proof.
  intros HF Hx Hz. unfold delete_fixup_body. rewrite (focus_deref_par _ _ _ _ _ _ _ _ HF). bind. rewrite child_far.
  rewrite (is_red_ok _ _ _ (proj1 (focus_sib _ _ _ _ _ _ _ _) HF)). bind.
  fold (is_red_tree w). destruct (is_red_tree w) eqn:Hred.
  - assert (Hc : c = Black /\ rb w Red (S n)).
    { destruct (zrb_top _ _ _ _ _ _ _ Hz) as [(-> & [] & Hw & _)|(-> & Hw & _)]; [done|..];
        by rewrite (rb_red _ _ _ Hw) in Hred. }
    destruct Hc as [-> Hw]. destruct (rb_red_node d w _ Hw) as (wn & wi & ws & wf & -> & Hwn & Hwf).
    destruct (delete_red_sibling _ _ _ _ _ _ _ _ _ _ HF) as (T1 & HE1 & F1 & K1).
    rewrite troot_node, HE1. bind. inversion Hz; subst.
    destruct (delete_black_sibling T1 x d Red p sp wn (F d Black wi ws wf :: z) n (length z) F1 Hx Hwn)
      as (x' & par' & T' & HE & HK & HR); [eauto with rb|by right|].
    exists x', par', T'. split; [exact HE|]. split; [by rewrite K1|].
    assert (Hs : slots (plug x (F d Red p sp wn :: F d Black wi ws wf :: z)) =
                 slots (plug x (F d Black p sp (node d Red wn wi ws wf) :: z))).
    { cbn [plug]. apply slots_plug. slots_eq d. }
    unfold moved_up, completed in *. by rewrite Hs in HR.
  - destruct (delete_black_sibling T x d c p sp w z n (length z) HF Hx) as (x' & par' & T' & HE & HK & HR);
      [|done|by left|by exists x', par', T'].
    destruct (zrb_top _ _ _ _ _ _ _ Hz) as [(-> & [] & Hw & _)|(-> & Hw & _)]; [|done..].
    by rewrite (rb_red _ _ _ Hw) in Hred.
Qed.

(** Leaving the loop. *)
Lemma delete_exit T x z n :
  focus T x z -> short x n -> zrb z Black (S n) -> z = [] \/ is_red_tree x = true ->
  exists T', upd_opt (troot x) (set_color 0) T = Some T' /\ fixed T (plug x z) T'.
Proof.
  intros HF Hs Hz Hex. destruct x as [|c l i s r].
  { destruct Hex as [-> |]; [|done]. exists T. split; [done|]. exists E, 0%nat. split_and!; try done. constructor. }
  destruct (focus_recolor T L c l i s r z Black 0 eq_refl HF) as (T' & HE & F' & K').
  exists T'. split; [exact HE|].
  assert (Hm : exists m, rb (plug (N Black l i s r) z) Black m).
  { destruct Hs as [Hs|(? & ? & ? & ? & [= -> -> -> -> ->] & Hs)]; [|by eapply rb_plug].
    inversion Hs; subst. destruct Hex as [-> |]; [|done]. cbn. eauto with rb. }
  destruct Hm as (m & Hm). pose proof (proj1 (focus_plug _ _ _) F') as Fp.
  exists (plug (N Black l i s r) z), m. split_and!; try done. by apply slots_plug.
Qed.

Lemma delete_fixup_ok fuel T x z n par :
  (length z + 1 < fuel)%nat -> focus T x z -> short x n -> zrb z Black (S n) ->
  (z <> [] -> par = zpar z) ->
  exists T', EEVDFRBDeleteFixup fuel (troot x) par T = Some T' /\ fixed T (plug x z) T'.
Proof.
  revert T x z n par. induction fuel as [|f IH]; intros T x z n par Hf HF Hs Hz Hpar; [lia|].
  cbn [EEVDFRBDeleteFixup]. rewrite (is_black_ok _ _ _ HF). bind.
  destruct z as [|[d c p sp w] z].
  { rewrite bool_decide_true by (symmetry; apply (fc_root _ _ _ HF)). cbn [negb andb].
    eapply delete_exit; eauto. }
  destruct (is_red_tree x) eqn:Hred; cbn [negb].
  { rewrite andb_false_r. eapply delete_exit; eauto. }
  assert (Hx : rb x Black n).
  { destruct Hs as [Hs|(? & ? & ? & ? & -> & _)]; [done|done]. }
  rewrite bool_decide_false; cbn [negb andb].
  2:{ rewrite (fc_root _ _ _ HF). intros E0. pose proof (fc_nodup _ _ _ HF) as HN. cbn in E0, HN.
      assert (Hr : forall z' i, zroot z' (Some i) = Some i \/ exists j, zroot z' (Some i) = Some j /\ j ∈ zids z').
      { clear. induction z' as [|[d' c' i' s' sib'] z' IHz]; intros i; [by left|]. right. cbn.
        destruct (IHz i') as [-> |(j & -> & Hj)]; eexists; (split; [reflexivity|]); set_solver. }
      destruct x as [|cx lx ix sx rx]; cbn in E0.
      - destruct (Hr z p) as [E1|(j & E1 & _)]; congruence.
      - cbn in HN. apply list.NoDup_app in HN as (_ & HN & _). apply (HN ix); [set_solver|].
        destruct (Hr z p) as [E1|(j & E1 & Hj)]; rewrite E1 in E0; simplify_eq; set_solver. }
  rewrite (Hpar ltac:(done)). cbn [zpar]. bind.
  rewrite (focus_deref_par _ _ _ _ _ _ _ _ HF). bind.
  assert (Hw : w <> E) by (intros ->; inversion Hz; subst; match goal with H : rb E _ (S _) |- _ => inversion H end).
  assert (Hd : (if decide (troot x = left (mkn d (troot x) (troot w) (zpar z) c sp)) then L else R) = d).
  { pose proof (focus_sib_ne _ _ _ _ _ _ _ _ (proj1 (focus_sib _ _ _ _ _ _ _ _) HF) Hw) as Hne.
    destruct d; cbn; [by rewrite decide_True|by rewrite decide_False]. }
  rewrite Hd. destruct (delete_body_ok T x d c p sp w z n HF Hx Hz) as (x' & par' & T1 & -> & K1 & HR). bind.
  cbn [length] in Hf. destruct f as [|f']; [lia|].
  destruct HR as [(X & zx & n' & -> & -> & FX & HsX & HzX & Hsl & Hlen)|(t' & m & -> & F' & Hm & Hsl)].
  - destruct Hlen as [Hlen|HredX].
    + destruct (IH T1 X zx n' (zpar zx) ltac:(lia) FX HsX HzX ltac:(done)) as (T' & -> & HT').
      exists T'. split; [done|]. by eapply fixed_step.
    + cbn [EEVDFRBDeleteFixup]. rewrite (is_black_ok _ _ _ FX). bind. rewrite HredX. cbn [negb]. rewrite andb_false_r.
      destruct (delete_exit T1 X zx n' FX HsX HzX (or_intror HredX)) as (T' & -> & HT').
      exists T'. split; [done|]. by eapply fixed_step.
  - destruct (IH T1 t' [] m par' ltac:(cbn; lia) F') as (T' & -> & HT'); [by left|constructor|done|].
    exists T'. split; [done|]. by eapply fixed_step.
Qed.
