(* ===== verification/RbErase.v ===== *)
(** Deletion from the run queue's tree: unlinking a node, the leftmost pointer, and
    [EEVDFRBDelete] as the removal of one entry from the sorted sequence. *)
From Stdlib Require Import ZArith Lia Sorting.Sorted.
From stdpp Require Import base tactics list gmap sets numbers option sorting.
From S2P Require Import Prelude RbTree RbRep RbInsert RbQueue RbDelete.

(** Redirecting the link from above. *)
Lemma relink_ok T z i v n :
  deref i T = Some n -> parent n = zpar z ->
  repc (rb_node_pool T) z (Some i) -> NoDup (i :: zids z) ->
  exists T', relink i v T = Some T' /\ repc (rb_node_pool T') z v /\ keeps T T' /\
    (zroot z (Some i) = rb_root T -> zroot z v = rb_root T') /\
    (forall j, j ∉ zids z -> rb_node_pool T' !! j = rb_node_pool T !! j).
Proof.
  intros Hi Hpar HC HN. unfold relink. rewrite Hi. bind. rewrite Hpar.
  destruct z as [|[d c p s sib] z]; cbn [zpar] in *.
  { exists (set_root v T). split_and!; try done. }
  cbn in HC. destruct HC as (Hp & Hs & Hc). unfold deref. rewrite Hp. bind.
  cbn [zids] in HN. apply list.NoDup_cons in HN as [Ni HN]. apply list.NoDup_cons in HN as [Np HN].
  rewrite elem_of_app in Np.
  assert (HU := upd_deref T p _ (set_child d v) Hp). rewrite set_child_near in HU.
  assert (HD : (if decide (left (mkn d (Some i) (troot sib) (zpar z) c s) = Some i)
                then upd p (set_child L v) T else upd p (set_child R v) T) = upd p (set_child d v) T).
  { destruct d; cbn; [by rewrite decide_True|]. rewrite decide_False; [done|].
    intros E0. apply Ni. destruct sib; cbn in *; simplify_eq. set_solver. }
  rewrite HD, HU. eexists. split; [done|]. cbn. split; [split_and!|split; [by eapply keeps_upd|split; [done|]]].
  - apply lookup_insert_eq.
  - apply rep_insert; [tauto|done].
  - apply repc_insert; [tauto|done].
  - intros j Hj. apply lookup_insert_ne. set_solver.
Qed.

(** A node with at most one child is replaced by that child. *)
Lemma splice_ok T d c x i s z :
  focus T (node d c x i s E) z ->
  exists T', (T1 ← relink i (troot x) T; upd_opt (troot x) (set_parent (zpar z)) T1) = Some T' /\
    focus T' x z /\ keeps T T'.
Proof.
  intros HF. pose proof (focus_deref_node _ _ _ _ _ _ _ _ HF) as Hi. destruct HF as [H1 H2 H3 H4].
  rewrite troot_node in *. apply rep_node in H1 as (_ & Hx & _). rewrite ids_node in H3. cbn in H3.
  rewrite app_nil_r in H3. apply list.NoDup_cons in H3 as [Ni HN]. rewrite elem_of_app in Ni.
  pose proof HN as (HNx & Hdis & HNz)%list.NoDup_app.
  destruct (relink_ok T z i (troot x) _ Hi (parent_mkn _ _ _ _ _ _) H2) as (T1 & -> & C1 & K1 & R1 & O1).
  { apply list.NoDup_cons. tauto. }
  bind. destruct (rep_set_parent T1 x (Some i) (zpar z)) as (T2 & -> & X2 & R2 & K2 & O2).
  { eapply rep_agree; [|exact Hx]. intros j Hj. apply O1. by apply Hdis. }
  { done. }
  exists T2. split; [done|]. split; [|by rewrite K1]. constructor; [done| |done|].
  - eapply repc_agree; [|exact C1]. intros j Hj. apply O2. intros E0.
    apply (Hdis j); [|done]. destruct x; cbn in *; simplify_eq. set_solver.
  - rewrite R2. symmetry. by apply R1.
Qed.

(** The detached node [y] takes the place of [i]; [r] already hangs below [y]. *)
Lemma take_place T c l i s0 z y ny r n :
  deref i T = Some n -> left n = troot l -> parent n = zpar z -> color n = cval c ->
  l <> E -> rep (rb_node_pool T) l (Some i) -> repc (rb_node_pool T) z (Some i) ->
  deref y T = Some ny -> right ny = troot r -> slot ny = s0 -> rep (rb_node_pool T) r (Some y) ->
  NoDup (i :: y :: ids l ++ ids r ++ zids z) -> rb_root T = zroot z (Some i) ->
  exists T', (T2 ← relink i (Some y) T;
              n2 ← deref i T2;
              T3 ← upd y (fun m => mk_node (left n2) (right m) (parent n2) (color n2) (slot m)) T2;
              (l ← left n2; upd l (set_parent (Some y)) T3)) = Some T' /\
    focus T' (N c l y s0 r) z /\ keeps T T'.
Proof.
  intros Hi Hl Hp Hc HlE HL HZ Hy Hr Hs HR HN Hroot.
  apply list.NoDup_cons in HN as [Ni HN]. apply list.NoDup_cons in HN as [Ny HN].
  rewrite elem_of_cons, !elem_of_app in Ni. rewrite !elem_of_app in Ny.
  pose proof HN as (HNl & Dl & HN')%list.NoDup_app. pose proof HN' as (HNr & Dr & HNz)%list.NoDup_app.
  destruct (relink_ok T z i (Some y) n Hi Hp HZ) as (T2 & -> & C2 & K2 & R2 & O2).
  { apply list.NoDup_cons. tauto. }
  bind. assert (Hi2 : deref i T2 = Some n) by (unfold deref; rewrite O2 by tauto; done). rewrite Hi2. bind.
  assert (Hy2 : deref y T2 = Some ny) by (unfold deref; rewrite O2 by tauto; done).
  assert (HU := upd_deref _ _ _ (fun m => mk_node (left n) (right m) (parent n) (color n) (slot m)) Hy2).
  rewrite HU. bind. pose proof (keeps_upd _ _ _ _ HU) as K3. rewrite Hl, Hr, Hp, Hc, Hs in *.
  set (T3 := set_pool _ T2) in *.
  assert (A3 : forall j, j <> y -> j ∉ zids z -> rb_node_pool T3 !! j = rb_node_pool T !! j).
  { intros j Jy Jz. cbn. rewrite lookup_insert_ne by done. by apply O2. }
  destruct (rep_set_parent T3 l (Some i) (Some y)) as (T4 & HE4 & L4 & R4 & K4 & O4).
  { eapply rep_agree; [|exact HL]. intros j Hj. specialize (Dl j Hj). apply A3; set_solver. }
  { done. }
  assert (HE4' : (l0 ← troot l; upd l0 (set_parent (Some y)) T3) = Some T4) by (destruct l; [done|exact HE4]).
  rewrite HE4'. exists T4. split; [done|]. split; [|by rewrite K2, K3].
  assert (B4 : forall j, j ∉ ids l -> rb_node_pool T4 !! j = rb_node_pool T3 !! j).
  { intros j Hj. apply O4. intros E0. destruct l; cbn in *; simplify_eq. set_solver. }
  constructor.
  - cbn. split_and!; [|done|].
    + rewrite B4 by tauto. apply lookup_insert_eq.
    + eapply rep_agree; [|exact HR]. intros j Hj. rewrite B4; [apply A3|]; [set_solver|by apply Dr|].
      intros Hjl. apply (Dl j Hjl). set_solver.
  - eapply repc_agree; [|exact C2]. intros j Hj. rewrite B4.
    + cbn. apply lookup_insert_ne. set_solver.
    + intros Hjl. apply (Dl j Hjl). set_solver.
  - cbn. rewrite <-app_assoc. cbn. rewrite <-Permutation_middle. apply list.NoDup_cons. rewrite !elem_of_app. tauto.
  - rewrite R4. symmetry. by apply R2.
Qed.

(** ** The first node of a subtree *)
Lemma focus_app T t z1 z2 : focus T t (z1 ++ z2) <-> focus T (plug t z1) z2.
Proof. by rewrite (focus_plug T (plug t z1)), <-plug_app, <-focus_plug. Qed.

Lemma leftmost_of_ok fuel c l i s r z T :
  (height (N c l i s r) <= fuel)%nat -> focus T (N c l i s r) z ->
  exists zy cy y sy yr, leftmost_of fuel i T = Some y /\
    N c l i s r = plug (N cy E y sy yr) zy /\ all_left zy = true.
Proof.
  revert c l i s r z. induction fuel as [|f IH]; intros c l i s r z Hf HF; [cbn in Hf; lia|].
  cbn [leftmost_of]. rewrite (focus_deref _ _ _ _ _ _ _ HF). bind. cbn [left].
  destruct l as [|cl ll il sl rl]; cbn [troot].
  { by exists [], c, i, s, r. }
  apply (focus_in T (N cl ll il sl rl) L c i s r z) in HF.
  destruct (IH cl ll il sl rl _ ltac:(cbn in *; lia) HF) as (zy & cy & y & sy & yr & E1 & E2 & E3).
  exists (zy ++ [F L c i s r]), cy, y, sy, yr. split; [done|]. split.
  - by rewrite plug_app, <-E2.
  - unfold all_left in *. rewrite forallb_app, E3. done.
Qed.
Lemma all_left_zl_nil z : all_left z = true -> zl z = [].
Proof. rewrite all_left_zl. by intros ?%bool_decide_eq_true. Qed.

(** ** The successor takes the node's place *)

(** The successor leaves its position: its right child moves up. *)
Lemma splice_left T cy y sy yr cp p sp sib z :
  focus T (N cy E y sy yr) (F L cp p sp sib :: z) ->
  exists T', (T1 ← upd_opt (troot yr) (set_parent (Some p)) T; upd p (set_child L (troot yr)) T1) = Some T' /\
    focus T' yr (F L cp p sp sib :: z) /\ keeps T T' /\ rb_node_pool T' !! y = rb_node_pool T !! y.
Proof.
  intros [(Hy & _ & HR) (Hp & Hs & Hc) HN Hroot]. cbn in HN. apply list.NoDup_cons in HN as [Ny HN].
  rewrite elem_of_app, elem_of_cons, elem_of_app in Ny.
  pose proof HN as (HNr & Dr & HN')%list.NoDup_app. apply list.NoDup_cons in HN' as [Np HN'].
  rewrite elem_of_app in Np.
  destruct (rep_set_parent T yr (Some y) (Some p) HR HNr) as (T1 & -> & X1 & R1 & K1 & O1). bind.
  assert (B1 : forall j, j ∉ ids yr -> rb_node_pool T1 !! j = rb_node_pool T !! j).
  { intros j Hj. apply O1. intros E0. destruct yr; cbn in *; simplify_eq. set_solver. }
  assert (Hpr : p ∉ ids yr) by (intros Hin; apply (Dr p Hin); set_solver).
  assert (Hp1 : deref p T1 = Some (mkn L (Some y) (troot sib) (zpar z) cp sp)) by (unfold deref; by rewrite B1).
  assert (HU := upd_deref _ _ _ (set_child L (troot yr)) Hp1). rewrite HU. eexists. split; [done|].
  split; [|split; [by rewrite K1; eapply keeps_upd|]].
  - constructor; cbn.
    + by apply rep_insert.
    + split_and!; [apply lookup_insert_eq| |].
      * apply rep_insert; [tauto|]. eapply rep_agree; [|exact Hs]. intros j Hj. apply B1. intros Hin. apply (Dr j Hin). set_solver.
      * apply repc_insert; [tauto|]. eapply repc_agree; [|exact Hc]. intros j Hj. apply B1. intros Hin. apply (Dr j Hin). set_solver.
    + done.
    + rewrite R1. exact Hroot.
  - cbn. rewrite lookup_insert_ne by (intros ->; tauto). apply B1. tauto.
Qed.

(** [y->right = node->right; y->right->parent = y] once [y] is detached. *)
Lemma adopt_right T r c i s l z y ny :
  focus T (N c l i s r) z -> r <> E -> deref y T = Some ny -> y ∉ i :: ids l ++ ids r ++ zids z ->
  exists T' n, (n2 ← deref i T;
                T3 ← upd y (set_child R (right n2)) T;
                T4 ← (r3 ← right n2; upd r3 (set_parent (Some y)) T3);
                ny4 ← deref y T4;
                Some (parent ny4, T4)) = Some (parent ny, T') /\ keeps T T' /\ rb_root T' = rb_root T /\
    deref i T' = Some n /\ left n = troot l /\ parent n = zpar z /\ color n = cval c /\
    rep (rb_node_pool T') l (Some i) /\ repc (rb_node_pool T') z (Some i) /\
    rep (rb_node_pool T') r (Some y) /\ deref y T' = Some (set_child R (troot r) ny).
Proof.
  intros HF HrE Hy Hny. rewrite (focus_deref _ _ _ _ _ _ _ HF). bind. cbn [right].
  destruct HF as [(Hi & HL & HR) HZ HN Hroot]. cbn in HN. rewrite elem_of_cons, !elem_of_app in Hny.
  rewrite <-app_assoc in HN. pose proof HN as (HNl & Dl & HN')%list.NoDup_app.
  cbn in HN'. apply list.NoDup_cons in HN' as [Ni HN']. rewrite elem_of_app in Ni.
  pose proof HN' as (HNr & Dr & HNz)%list.NoDup_app.
  assert (HU := upd_deref _ _ _ (set_child R (troot r)) Hy). rewrite HU. bind. pose proof (keeps_upd _ _ _ _ HU) as K3.
  set (T3 := set_pool _ T) in *.
  destruct (rep_set_parent T3 r (Some i) (Some y)) as (T4 & HE4 & R4 & Rt4 & K4 & O4); [by apply rep_insert; [tauto|]|done|].
  assert (HE4' : (r3 ← troot r; upd r3 (set_parent (Some y)) T3) = Some T4) by (destruct r; [done|exact HE4]).
  rewrite HE4'. bind.
  assert (B4 : forall j, j ∉ ids r -> rb_node_pool T4 !! j = rb_node_pool T3 !! j).
  { intros j Hj. apply O4. intros E0. destruct r; cbn in *; simplify_eq. set_solver. }
  assert (A4 : forall j, j ∉ ids r -> j <> y -> rb_node_pool T4 !! j = rb_node_pool T !! j).
  { intros j Hj Hjy. rewrite B4 by done. cbn. by rewrite lookup_insert_ne. }
  assert (Hy4 : deref y T4 = Some (set_child R (troot r) ny)).
  { unfold deref. rewrite B4 by tauto. apply lookup_insert_eq. }
  rewrite Hy4. bind. exists T4, (mk_node (troot l) (troot r) (zpar z) (cval c) s).
  split; [done|]. split; [by rewrite K3|]. split; [by rewrite Rt4|].
  split; [unfold deref; rewrite A4; [done|tauto|]; intros ->; tauto|]. split_and!; try done.
  - eapply rep_agree; [|exact HL]. intros j Hj. apply A4; [|set_solver]. intros Hin. apply (Dl j Hj). set_solver.
  - eapply repc_agree; [|exact HZ]. intros j Hj. apply A4; [|set_solver]. intros Hin. by apply (Dr j Hin).
Qed.

Lemma splice_successor_ok T c l i s r z :
  focus T (N c l i s r) z -> l <> E -> r <> E -> (height r <= rb_fuel)%nat ->
  exists T' zy cy y sy yr, splice_successor i T =
      Some (troot yr, zpar (zy ++ F R c y sy l :: z), cval cy, T') /\
    focus T' yr (zy ++ F R c y sy l :: z) /\ keeps T T' /\
    r = plug (N cy E y sy yr) zy /\ all_left zy = true.
Proof.
  intros HF HlE HrE Hh. unfold splice_successor. rewrite (focus_deref _ _ _ _ _ _ _ HF). bind. cbn [right].
  pose proof (focus_in T r R c i s l z HF) as Fr.
  destruct r as [|cr lr ir sr rr] eqn:Er; [done|]. rewrite <-Er in *. cbn [troot].
  assert (Hroot : troot r = Some ir) by (by rewrite Er). rewrite Hroot. bind.
  rewrite Er in Fr, Hh. destruct (leftmost_of_ok rb_fuel cr lr ir sr rr _ T Hh Fr) as (zy & cy & y & sy & yr & -> & Ey & Hall).
  rewrite <-Er in *. bind. rewrite Ey in Fr. apply focus_app in Fr.
  rewrite (focus_deref _ _ _ _ _ _ _ Fr). bind. cbn [right parent color].
  pose proof (fc_nodup _ _ _ Fr) as HNy. cbn in HNy. apply list.NoDup_cons in HNy as [Ny HNy].
  assert (HP : ids (plug yr zy) ++ i :: ids l ++ zids z ≡ₚ ids yr ++ zids (zy ++ F R c i s l :: z)).
  { rewrite <-(ids_plug yr (zy ++ F R c i s l :: z)), plug_app. cbn [plug node].
    rewrite (ids_plug _ z). cbn. solve_Permutation. }
  rewrite <-HP in Ny, HNy. rewrite elem_of_app, elem_of_cons, elem_of_app in Ny.
  assert (HNN : NoDup (i :: y :: ids l ++ ids (plug yr zy) ++ zids z)).
  { assert (HP2 : i :: y :: ids l ++ ids (plug yr zy) ++ zids z ≡ₚ y :: ids (plug yr zy) ++ i :: ids l ++ zids z)
      by solve_Permutation.
    rewrite HP2. apply list.NoDup_cons. by rewrite elem_of_app, elem_of_cons, elem_of_app. }
  destruct zy as [|[dy cp p sp sib] zy]; cbn [app zpar].
  - rewrite decide_True by done. bind. cbn in Fr, HNN.
    destruct (take_place T c l i sy z y (mk_node None (troot yr) (Some i) (cval cy) sy) yr
                (mk_node (troot l) (troot r) (zpar z) (cval c) s)) as (T' & HE & F' & K'); try done.
    + apply (focus_deref _ _ _ _ _ _ _ HF).
    + destruct HF as [(_ & HL & _) _ _ _]. done.
    + apply (fc_ctx _ _ _ HF).
    + apply (focus_deref _ _ _ _ _ _ _ Fr).
    + destruct Fr as [(_ & _ & HR) _ _ _]. done.
    + apply (fc_root _ _ _ HF).
    + exists T', [], cy, y, sy, yr. cbn [app zpar]. split; [|split; [by apply focus_in|done]].
      revert HE. destruct (relink i (Some y) T) as [T2|]; [|done]. rewrite !option_bind_Some.
      destruct (deref i T2) as [n2|]; [|done]. rewrite !option_bind_Some.
      destruct (upd y _ T2) as [T3|]; [|done]. rewrite !option_bind_Some. by intros ->.
  - assert (dy = L) as -> by (cbn in Hall; by case_bool_decide). cbn [plug] in *.
    rewrite decide_False.
    2:{ intros [= ->]. apply list.NoDup_cons in HNN as [Ni _]. apply Ni. rewrite elem_of_cons, !elem_of_app, ids_plug.
        right. right. left. rewrite elem_of_app. left. cbn. set_solver. }
    rewrite <-app_comm_cons in Fr. destruct (splice_left _ _ _ _ _ _ _ _ _ _ Fr) as (T2 & HE2 & F2 & K2 & Y2). cbn [zpar] in HE2 |- *.
    destruct (upd_opt (troot yr) _ T) as [T1|]; [|done]. rewrite option_bind_Some in HE2. rewrite !option_bind_Some, HE2. bind.
    change (F L cp p sp sib :: zy ++ F R c i s l :: z) with ((F L cp p sp sib :: zy) ++ F R c i s l :: z) in F2.
    apply focus_app, focus_out in F2. cbn [plug] in F2.
    assert (Hy2 : deref y T2 = Some (mk_node None (troot yr) (Some p) (cval cy) sy)).
    { unfold deref. rewrite Y2. apply (focus_deref _ _ _ _ _ _ _ Fr). }
    set (r' := plug (node L cp yr p sp sib) zy) in *.
    destruct (adopt_right T2 r' c i s l z y (mk_node None (troot yr) (Some p) (cval cy) sy) F2) as (T4 & n & HE4 & K4 & R4 & Hi & Hl & Hp & Hc & HL & HZ & HR & HY4);
      [by apply plug_nonempty|exact Hy2|by rewrite elem_of_cons, !elem_of_app; tauto|].
    cbn [parent] in HE4. rewrite HE4. bind.
    destruct (take_place T4 c l i sy z y _ r' n Hi Hl Hp Hc HlE HL HZ HY4) as (T' & HE & F' & K'); try done.
    { rewrite R4. apply (fc_root _ _ _ F2). }
    exists T', (F L cp p sp sib :: zy), cy, y, sy, yr. split_and!; try done.
    + revert HE. destruct (relink i (Some y) T4) as [Ta|]; [|done]. rewrite !option_bind_Some.
      destruct (deref i Ta) as [n2|]; [|done]. rewrite !option_bind_Some.
      destruct (upd y _ Ta) as [Tb|]; [|done]. rewrite !option_bind_Some. by intros ->.
    + apply focus_app. by apply focus_in.
    + by rewrite K2, K4.
Qed.

(** ** Unlinking *)
Lemma removed d cy x y sy z c' n :
  rb (node d cy x y sy E) c' n -> zrb z c' n ->
  (cy = Red -> exists m, rb (plug x z) Black m) /\ (cy = Black -> short x 0 /\ zrb z Black 1).
Proof.
  intros Hrb Hz. split; intros ->.
  - apply rb_node_inv_R in Hrb as (-> & Hx & HE). inversion HE; subst.
    eapply rb_plug; [exact Hx|]. by eapply zrb_weaken.
  - apply rb_node_inv_B in Hrb as (n' & ca & cb & -> & -> & Hx & HE). inversion HE; subst. split; [|done].
    destruct ca; [|by left]. right. inversion Hx; subst. eexists _, _, _, _. split; [done|]. eauto with rb.
Qed.
Lemma zrb_rename z1 d c i s i' s' sib z2 k n :
  zrb (z1 ++ F d c i s sib :: z2) k n -> zrb (z1 ++ F d c i' s' sib :: z2) k n.
Proof.
  revert k n. induction z1 as [|[d1 c1 i1 s1 sib1] z1 IH]; intros k n; cbn; inversion 1; subst; eauto with rb.
Qed.

Lemma unlink_ok T c l i s r z m :
  focus T (N c l i s r) z -> rb (plug (N c l i s r) z) Black m -> (height r <= rb_fuel)%nat ->
  exists T' x zx cy, unlink i T = Some (troot x, zpar zx, cval cy, T') /\ focus T' x zx /\ keeps T T' /\
    slots (plug x zx) = zl z ++ slots l ++ slots r ++ zr z /\
    (cy = Red -> exists m', rb (plug x zx) Black m') /\ (cy = Black -> short x 0 /\ zrb zx Black 1).
Proof.
  intros HF Hm Hh. apply rb_unplug in Hm as (c' & n & Hrb & Hz). unfold unlink.
  rewrite (focus_deref _ _ _ _ _ _ _ HF). bind. cbn [left right parent color].
  assert (Hone : forall d x, node d c x i s E = N c l i s r ->
    exists T', (T1 ← relink i (troot x) T; T2 ← upd_opt (troot x) (set_parent (zpar z)) T1;
                Some (troot x, zpar z, cval c, T2)) = Some (troot x, zpar z, cval c, T') /\ focus T' x z /\ keeps T T' /\
      slots (plug x z) = zl z ++ slots l ++ slots r ++ zr z /\
      (c = Red -> exists m', rb (plug x z) Black m') /\ (c = Black -> short x 0 /\ zrb z Black 1)).
  { intros d x Ed. rewrite <-Ed in HF, Hrb. destruct (splice_ok _ _ _ _ _ _ _ HF) as (T' & HE & F' & K').
    destruct (relink i (troot x) T) as [T1|]; [|done]. rewrite option_bind_Some in HE. rewrite option_bind_Some, HE. bind.
    exists T'. split; [done|]. split; [done|]. split; [done|]. split; [|by eapply removed].
    rewrite slots_split. f_equal. rewrite app_assoc. f_equal. destruct d; cbn in Ed; simplify_eq; cbn; by rewrite ?app_nil_r. }
  destruct l as [|cl ll il sl rl]; [|destruct r as [|cr lr ir sr rr]]; cbn [troot].
  - destruct (Hone R r eq_refl) as (T' & HE & HR). by exists T', r, z, c.
  - destruct (Hone L _ eq_refl) as (T' & HE & HR). by exists T', (N cl ll il sl rl), z, c.
  - clear Hone. set (l := N cl ll il sl rl) in *. set (r := N cr lr ir sr rr) in *.
    destruct (splice_successor_ok T c l i s r z HF) as (T' & zy & cy & y & sy & yr & HE & F' & K' & Er & Hall); [done..|].
    exists T', yr, (zy ++ F R c y sy l :: z), cy. split; [exact HE|]. split; [done|]. split; [done|]. split.
    + rewrite slots_split, zl_app, zr_app, Er, slots_split, (all_left_zl_nil zy Hall). cbn [zl zr slots app].
      repeat (rewrite <-app_assoc; cbn [app]). done.
    + assert (HzR : exists c2 n2, rb (N cy E y sy yr) c2 n2 /\ zrb (zy ++ F R c i s l :: z) c2 n2).
      { destruct (rb_plug _ _ _ _ Hrb Hz) as (m2 & Hm2). apply (rb_unplug (N cy E y sy yr) (zy ++ F R c i s l :: z) m2).
        rewrite plug_app, <-Er. exact Hm2. }
      destruct HzR as (c2 & n2 & H2 & Hz2). apply (removed R cy yr y sy _ c2 n2); [exact H2|]. by eapply zrb_rename.
Qed.

(** ** The leftmost pointer *)
Lemma update_leftmost_ok T c l i s r z :
  focus T (N c l i s r) z -> (height r <= rb_fuel)%nat -> rb_leftmost T = fst <$> head (zl z ++ slots l ++ (i, s) :: slots r ++ zr z) ->
  exists T', update_leftmost i T = Some T' /\ rb_node_pool T' = rb_node_pool T /\ rb_root T' = rb_root T /\
    rb_node_pool_bitmap T' = rb_node_pool_bitmap T /\
    rb_leftmost T' = fst <$> head (zl z ++ slots l ++ slots r ++ zr z).
Proof.
  intros HF Hh Hlm. unfold update_leftmost.
  assert (Hni : Forall (fun e => e.1 <> i) (zl z ++ slots l)).
  { apply list.Forall_forall. intros e He He1. subst i. pose proof (proj1 (focus_plug _ _ _) HF) as HFp.
    pose proof (fc_nodup _ _ _ HFp) as HN. cbn in HN. rewrite app_nil_r, ids_slots, slots_split in HN. cbn [slots] in HN.
    rewrite <-(app_assoc (slots l)), (app_assoc (zl z)), fmap_app in HN. apply list.NoDup_app in HN as (_ & HN & _).
    apply (HN e.1); [by apply list_elem_of_fmap_2|]. set_solver. }
  destruct (zl z ++ slots l) as [|e0 rest] eqn:Eh.
  2:{ apply Forall_cons_iff in Hni as [Hne _]. rewrite app_assoc, Eh in Hlm. cbn in Hlm.
      rewrite decide_False by (rewrite Hlm; congruence). exists T. split_and!; try done.
      by rewrite Hlm, app_assoc, Eh. }
  apply app_eq_nil in Eh as [Ezl Esl]. rewrite Ezl, Esl in *. cbn in Hlm. rewrite decide_True by done.
  rewrite (focus_deref _ _ _ _ _ _ _ HF). bind. cbn [right parent].
  destruct r as [|cr lr ir sr rr]; cbn [troot app].
  - destruct z as [|[d cp p sp sib] z].
    + change (climb rb_fuel i (zpar []) T) with (Some (@None nat)). bind. by eexists.
    + assert (d = L) as -> by (destruct d; [done|]; cbn in Ezl; by destruct (zl z), (slots sib)).
      change (climb rb_fuel i (zpar (F L cp p sp sib :: z)) T) with
        (np ← deref p T; if decide (right np = Some i) then climb 64 p (parent np) T else Some (Some p)).
      rewrite (focus_deref_par _ _ _ _ _ _ _ _ HF). bind. cbn [mkn right].
      rewrite decide_False by (apply (focus_sib_ne _ _ _ _ _ _ _ _ HF); done). bind. by eexists.
  - pose proof (focus_in T (N cr lr ir sr rr) R c i s l z HF) as Fr.
    destruct (leftmost_of_ok rb_fuel cr lr ir sr rr _ T Hh Fr) as (zy & cy & y & sy & yr & Hlo & Ey & Hall).
    unfold EEVDFRBFirst. rewrite Hlo. do 2 bind. eexists. split_and!; try done.
    cbn [rb_leftmost set_leftmost]. rewrite Ey, slots_split, (all_left_zl_nil zy Hall). done.
Qed.

(** ** [EEVDFRBDelete] *)
Lemma find_node t i s : (i, s) ∈ slots t -> exists c l r z, t = plug (N c l i s r) z.
Proof.
  induction t as [|c l IHl j sj r IHr]; cbn; [set_solver|]. rewrite elem_of_app, elem_of_cons.
  intros [Hin|[[= -> ->]|Hin]].
  - destruct (IHl Hin) as (c' & l' & r' & z' & ->). exists c', l', r', (z' ++ [F L c j sj r]). by rewrite plug_app.
  - by exists c, l, r, [].
  - destruct (IHr Hin) as (c' & l' & r' & z' & ->). exists c', l', r', (z' ++ [F R c j sj l]). by rewrite plug_app.
Qed.

Section erase.
Context (vruntime : Z -> option Z).
Notation tree_ok := (tree_ok vruntime).

(** Unlinking, with the fixup when a black node left the tree. *)
Lemma rb_remove_ok T c l i s r z m :
  focus T (N c l i s r) z -> rb (plug (N c l i s r) z) Black m ->
  (length (ids (plug (N c l i s r) z)) <= 64)%nat ->
  exists T' t' m', (u ← unlink i T;
                    let '(x, x_parent, y_original_color, T2) := (u : option nat * option nat * Z * rbt) in
                    if y_original_color =? 0 then EEVDFRBDeleteFixup rb_fuel x x_parent T2 else Some T2) = Some T' /\
    focus T' t' [] /\ rb t' Black m' /\ keeps T T' /\ slots t' = zl z ++ slots l ++ slots r ++ zr z.
Proof.
  intros HF Hm Hsz.
  assert (Hh : (height r <= rb_fuel)%nat).
  { apply Nat.lt_le_incl, rb_fuel_ge. pose proof (height_ids r).
    rewrite ids_plug in Hsz. cbn in Hsz. rewrite !length_app in Hsz. cbn in Hsz. lia. }
  destruct (unlink_ok T c l i s r z m HF Hm Hh) as (T2 & x & zx & cy & -> & F2 & K2 & Hs & HR & HB).
  rewrite option_bind_Some. cbv beta match. destruct cy; cbn [cval Z.eqb].
  - destruct (HR eq_refl) as (m' & Hm'). exists T2, (plug x zx), m'. split_and!; try done. by apply (proj1 (focus_plug _ _ _)).
  - destruct (HB eq_refl) as (Hsh & Hzx).
    assert (Hlen : (length zx + 1 < rb_fuel)%nat).
    { apply rb_fuel_ge. pose proof (zids_length zx) as Hz. pose proof (ids_plug x zx) as HP.
      apply Permutation_length in HP. rewrite ids_slots, Hs, length_fmap, length_app in HP.
      rewrite ids_slots, slots_split, length_fmap in Hsz. cbn in Hsz. rewrite !length_app in *. cbn in Hsz. lia. }
    destruct (delete_fixup_ok rb_fuel T2 x zx 0 (zpar zx) Hlen F2 Hsh Hzx) as (T' & -> & t' & m' & F' & Hm' & Hs' & K'); [done|].
    exists T', t', m'. split_and!; try done; [by rewrite K2|congruence].
Qed.

Lemma rb_delete_ok T t i s :
  tree_ok T t -> (i, s) ∈ slots t ->
  exists T' t' l1 l2, rb_delete i T = Some T' /\ tree_ok T' t' /\
    slots t = l1 ++ (i, s) :: l2 /\ slots t' = l1 ++ l2.
Proof.
  intros HT Hin. destruct (find_node t i s Hin) as (c & l & r & z & Et).
  pose proof (to_focus _ _ _ HT) as HF. rewrite Et in HF. apply focus_plug in HF.
  pose proof (to_size _ _ _ HT) as Hsz. destruct (to_rb _ _ _ HT) as (m & Hm).
  assert (Hs : slots t = (zl z ++ slots l) ++ (i, s) :: (slots r ++ zr z)).
  { rewrite Et, slots_split. cbn. by rewrite <-!app_assoc. }
  assert (Hh : (height r <= rb_fuel)%nat).
  { apply Nat.lt_le_incl, rb_fuel_ge. pose proof (height_ids r).
    rewrite Et, ids_plug in Hsz. cbn in Hsz. rewrite !length_app in Hsz. cbn in Hsz. lia. }
  unfold rb_delete. destruct (update_leftmost_ok T c l i s r z HF Hh) as (T1 & -> & P1 & R1 & B1 & L1).
  { rewrite (to_left _ _ _ HT), Hs. by rewrite <-app_assoc. }
  rewrite option_bind_Some. rewrite Et in Hm, Hsz.
  destruct (rb_remove_ok T1 c l i s r z m) as (T3 & t' & m' & HE & F3 & Hm' & K3 & Hs'); [by apply (focus_ext T)|done|done|].
  destruct (unlink i T1) as [[[[x xp] yc] T2]|]; [|done]. rewrite option_bind_Some in HE |- *. cbv beta match in HE |- *.
  rewrite HE, option_bind_Some.
  assert (Hids : ids t ≡ₚ i :: ids t').
  { rewrite !ids_slots, Hs, Hs', (app_assoc (zl z)), (fmap_app fst (zl z ++ slots l)), fmap_cons.
    rewrite (fmap_app fst (zl z ++ slots l)). symmetry. apply Permutation_middle. }
  pose proof (fc_nodup _ _ _ (to_focus _ _ _ HT)) as HN. cbn in HN. rewrite app_nil_r, Hids in HN.
  apply list.NoDup_cons in HN as [Ni HN].
  assert (Hi64 : (i < 64)%nat) by (eapply to_ids_lt; [exact HT|]; rewrite Hids; set_solver).
  assert (HD3 : dom (rb_node_pool T3) = pool_idx) by (rewrite (kp_dom _ _ K3), P1; apply HT).
  destruct (EEVDFFreeRBNode_ok i T3 (ids t')) as (bm & -> & Hbm); [|intros j Hj; apply elem_of_dom; by rewrite HD3, elem_pool_idx|done|done|].
  { rewrite (kp_bits _ _ K3), B1. eapply bits_ok_perm; [exact Hids|apply HT]. }
  eexists _, t', (zl z ++ slots l), (slots r ++ zr z). split; [done|]. split; [|split; [done|by rewrite Hs', <-app_assoc]].
  pose proof (to_keys _ _ _ HT) as HK. pose proof (to_sorted _ _ _ HT) as HS. rewrite Hs in HK, HS.
  apply Forall_app in HK as [HK1 HK2]. apply Forall_cons_iff in HK2 as [_ HK2].
  apply StronglySorted_app in HS as (HS1 & HS2 & HS3). apply StronglySorted_inv in HS3 as [HS3 _].
  assert (Hs'' : slots t' = (zl z ++ slots l) ++ slots r ++ zr z) by (by rewrite Hs', <-app_assoc).
  constructor; cbn [rb_node_pool rb_node_pool_bitmap rb_root rb_leftmost]; rewrite ?Hs''.
  - destruct F3 as [F3a F3b F3c F3d]. constructor; cbn; try done. by apply rep_insert.
  - by exists m'.
  - by apply pool_dom_insert.
  - exact Hbm.
  - rewrite (kp_left _ _ K3), L1. by rewrite <-app_assoc.
  - rewrite Forall_app. done.
  - apply StronglySorted_app. split_and!; [|done|done]. intros a b Ha Hb. apply HS1; set_solver.
Qed.
End erase.
