(* ===== verification/Eevdf.v ===== *)
(** The EEVDF scheduler's data ([src/kernel/sched/EEVDF.h] and the static state of
    [EEVDF.c]) and its arithmetic: nice levels, virtual time, time slices and the integrity
    seal.  Operations live in a small state monad whose outcomes are a result, a kernel
    PANIC, or a fault (an access outside an array, a NULL dereference, a division by zero).

    Left out of the process control block: the name and path strings, the lock pointers and
    the counters no function reads.  Calls into other components (stack release, the process
    file system) are recorded in [calls]. *)
From Stdlib Require Import ZArith Lia.
From stdpp Require Import base tactics list gmap numbers option.
From S2P Require Import Prelude Crc32 RbTree Ipc.

(** ** Constants *)
Definition EEVDF_MIN_GRANULARITY : Z := 750000.
Definition EEVDF_TARGET_LATENCY : Z := 6000000.
Definition EEVDF_WAKEUP_GRANULARITY : Z := 1000000.
Definition EEVDF_NICE_0_LOAD : Z := 1024.
Definition EEVDF_MIN_NICE : Z := -20.
Definition EEVDF_MAX_NICE : Z := 19.
Definition EEVDF_TIME_SLICE_NS : Z := 4 * 1000000.
Definition EEVDF_MAX_TIME_SLICE_NS : Z := 100 * 1000000.
Definition EEVDF_CLEANUP_MAX_PER_CALL : nat := 3.
Definition EEVDF_STACK_SIZE : Z := 4096.
Definition SIS_MAX_VIOLATIONS : Z := 3.
Definition EEVDF_PROC_PRIV_SYSTEM : Z := 0.
Definition EEVDF_PROC_PRIV_NORM : Z := 1.
Definition EEVDF_CAP_NONE : Z := 0.
Definition EEVDF_CAP_IMMUNE : Z := Z.shiftl 1 12.
Definition EEVDF_CAP_CRITICAL : Z := Z.shiftl 1 13.
Definition EEVDF_CAP_SUPERVISOR : Z := Z.shiftl 1 14.
Definition EEVDF_CAP_CORE : Z := Z.lor (Z.lor EEVDF_CAP_IMMUNE EEVDF_CAP_SUPERVISOR) EEVDF_CAP_CRITICAL.
Definition SIS_MAGIC : Z := 0x5EC0DE4D41474943.
Definition SIS_SALT_BASE : Z := 0xDEADBEEFCAFEBABE.

Definition eevdf_nice_to_weight : list Z := [
  88761; 71755; 56483; 46273; 36291; 29154; 23254; 18705; 14949; 11916;
  9548; 7620; 6100; 4904; 3906; 3121; 2501; 1991; 1586; 1277;
  1024; 820; 655; 526; 423; 335; 272; 215; 172; 137;
  110; 87; 70; 56; 45; 36; 29; 23; 18; 15 ].
Definition eevdf_nice_to_wmult : list Z := [
  48388; 59856; 76040; 92818; 118348; 147320; 184698; 229616; 287308; 360437;
  449829; 563644; 704093; 875809; 1099582; 1376151; 1717300; 2157191; 2708050; 3363326;
  4194304; 5237765; 6557202; 8165337; 10153587; 12820798; 15790321; 19976592; 24970740; 31350126;
  39045157; 49367440; 61356676; 76695844; 95443717; 119304647; 148102320; 186737708; 238609294; 286331153 ].

(** ** Data *)
Inductive TerminationReason := TERM_NORMAL | TERM_KILLED | TERM_CRASHED | TERM_SECURITY | TERM_RESOURCE.
#[export] Instance TerminationReason_eq_dec : EqDecision TerminationReason.
Proof. solve_decision. Defined.
(** The value of a [ProcessState] in the 32-bit field. *)
Definition state_val (s : ProcessState) : Z :=
  match s with
  | PROC_TERMINATED => 0 | PROC_READY => 1 | PROC_RUNNING => 2
  | PROC_BLOCKED => 3 | PROC_ZOMBIE => 4 | PROC_DYING => 5
  end.

Record EEVDFSecurityToken := mk_token {
  magic : Z; creator_pid : Z; privilege : Z; capabilities : Z; creation_tick : Z; checksum : Z; pcb_hash : Z
}.
(** The registers the scheduler itself reads or sets, and the rest. *)
Record Registers := mk_regs { rip : Z; rsp : Z; rflags : Z; cs : Z; ss : Z; other_regs : list Z }.
Inductive ext_call :=
| VMemFreeStack (stack size : Z) | ProcFSRegisterProcess (pid stack : Z) | ProcFSUnregisterProcess (pid : Z).

Record EEVDFProcessControlBlock := mk_pcb {
  p_pid : Z;
  p_state : ProcessState;
  p_stack : Z;
  p_nice : Z;
  p_weight : Z;
  p_inv_weight : Z;
  p_vruntime : Z;
  p_deadline : Z;
  p_slice_ns : Z;
  p_exec_start : Z;
  p_sum_exec_runtime : Z;
  p_wait_sum : Z;
  p_last_wakeup : Z;
  p_rb_node : option nat;
  p_privilege_level : Z;
  p_initial_entry_point : Z;
  p_io_operations : Z;
  p_preemption_count : Z;
  p_cpu_time_accumulated : Z;
  p_creation_time : Z;
  p_term_reason : TerminationReason;
  p_exit_code : Z;
  p_termination_time : Z;
  p_token : EEVDFSecurityToken;
  p_sis_seal : Z;
  p_ipc_queue : MessageQueue;
  p_context : Registers
}.
Definition set_p_pid (v : Z) (x : EEVDFProcessControlBlock) : EEVDFProcessControlBlock :=
  mk_pcb v (p_state x) (p_stack x) (p_nice x) (p_weight x) (p_inv_weight x) (p_vruntime x) (p_deadline x)
    (p_slice_ns x) (p_exec_start x) (p_sum_exec_runtime x) (p_wait_sum x) (p_last_wakeup x) (p_rb_node x)
    (p_privilege_level x) (p_initial_entry_point x) (p_io_operations x) (p_preemption_count x)
    (p_cpu_time_accumulated x) (p_creation_time x) (p_term_reason x) (p_exit_code x) (p_termination_time x)
    (p_token x) (p_sis_seal x) (p_ipc_queue x) (p_context x).
Definition set_p_state (v : ProcessState) (x : EEVDFProcessControlBlock) : EEVDFProcessControlBlock :=
  mk_pcb (p_pid x) v (p_stack x) (p_nice x) (p_weight x) (p_inv_weight x) (p_vruntime x) (p_deadline x)
    (p_slice_ns x) (p_exec_start x) (p_sum_exec_runtime x) (p_wait_sum x) (p_last_wakeup x) (p_rb_node x)
    (p_privilege_level x) (p_initial_entry_point x) (p_io_operations x) (p_preemption_count x)
    (p_cpu_time_accumulated x) (p_creation_time x) (p_term_reason x) (p_exit_code x) (p_termination_time x)
    (p_token x) (p_sis_seal x) (p_ipc_queue x) (p_context x).
Definition set_p_stack (v : Z) (x : EEVDFProcessControlBlock) : EEVDFProcessControlBlock :=
  mk_pcb (p_pid x) (p_state x) v (p_nice x) (p_weight x) (p_inv_weight x) (p_vruntime x) (p_deadline x)
    (p_slice_ns x) (p_exec_start x) (p_sum_exec_runtime x) (p_wait_sum x) (p_last_wakeup x) (p_rb_node x)
    (p_privilege_level x) (p_initial_entry_point x) (p_io_operations x) (p_preemption_count x)
    (p_cpu_time_accumulated x) (p_creation_time x) (p_term_reason x) (p_exit_code x) (p_termination_time x)
    (p_token x) (p_sis_seal x) (p_ipc_queue x) (p_context x).
Definition set_p_nice (v : Z) (x : EEVDFProcessControlBlock) : EEVDFProcessControlBlock :=
  mk_pcb (p_pid x) (p_state x) (p_stack x) v (p_weight x) (p_inv_weight x) (p_vruntime x) (p_deadline x)
    (p_slice_ns x) (p_exec_start x) (p_sum_exec_runtime x) (p_wait_sum x) (p_last_wakeup x) (p_rb_node x)
    (p_privilege_level x) (p_initial_entry_point x) (p_io_operations x) (p_preemption_count x)
    (p_cpu_time_accumulated x) (p_creation_time x) (p_term_reason x) (p_exit_code x) (p_termination_time x)
    (p_token x) (p_sis_seal x) (p_ipc_queue x) (p_context x).
Definition set_p_weight (v : Z) (x : EEVDFProcessControlBlock) : EEVDFProcessControlBlock :=
  mk_pcb (p_pid x) (p_state x) (p_stack x) (p_nice x) v (p_inv_weight x) (p_vruntime x) (p_deadline x)
    (p_slice_ns x) (p_exec_start x) (p_sum_exec_runtime x) (p_wait_sum x) (p_last_wakeup x) (p_rb_node x)
    (p_privilege_level x) (p_initial_entry_point x) (p_io_operations x) (p_preemption_count x)
    (p_cpu_time_accumulated x) (p_creation_time x) (p_term_reason x) (p_exit_code x) (p_termination_time x)
    (p_token x) (p_sis_seal x) (p_ipc_queue x) (p_context x).
Definition set_p_inv_weight (v : Z) (x : EEVDFProcessControlBlock) : EEVDFProcessControlBlock :=
  mk_pcb (p_pid x) (p_state x) (p_stack x) (p_nice x) (p_weight x) v (p_vruntime x) (p_deadline x)
    (p_slice_ns x) (p_exec_start x) (p_sum_exec_runtime x) (p_wait_sum x) (p_last_wakeup x) (p_rb_node x)
    (p_privilege_level x) (p_initial_entry_point x) (p_io_operations x) (p_preemption_count x)
    (p_cpu_time_accumulated x) (p_creation_time x) (p_term_reason x) (p_exit_code x) (p_termination_time x)
    (p_token x) (p_sis_seal x) (p_ipc_queue x) (p_context x).
Definition set_p_vruntime (v : Z) (x : EEVDFProcessControlBlock) : EEVDFProcessControlBlock :=
  mk_pcb (p_pid x) (p_state x) (p_stack x) (p_nice x) (p_weight x) (p_inv_weight x) v (p_deadline x)
    (p_slice_ns x) (p_exec_start x) (p_sum_exec_runtime x) (p_wait_sum x) (p_last_wakeup x) (p_rb_node x)
    (p_privilege_level x) (p_initial_entry_point x) (p_io_operations x) (p_preemption_count x)
    (p_cpu_time_accumulated x) (p_creation_time x) (p_term_reason x) (p_exit_code x) (p_termination_time x)
    (p_token x) (p_sis_seal x) (p_ipc_queue x) (p_context x).
Definition set_p_deadline (v : Z) (x : EEVDFProcessControlBlock) : EEVDFProcessControlBlock :=
  mk_pcb (p_pid x) (p_state x) (p_stack x) (p_nice x) (p_weight x) (p_inv_weight x) (p_vruntime x) v
    (p_slice_ns x) (p_exec_start x) (p_sum_exec_runtime x) (p_wait_sum x) (p_last_wakeup x) (p_rb_node x)
    (p_privilege_level x) (p_initial_entry_point x) (p_io_operations x) (p_preemption_count x)
    (p_cpu_time_accumulated x) (p_creation_time x) (p_term_reason x) (p_exit_code x) (p_termination_time x)
    (p_token x) (p_sis_seal x) (p_ipc_queue x) (p_context x).
Definition set_p_slice_ns (v : Z) (x : EEVDFProcessControlBlock) : EEVDFProcessControlBlock :=
  mk_pcb (p_pid x) (p_state x) (p_stack x) (p_nice x) (p_weight x) (p_inv_weight x) (p_vruntime x)
    (p_deadline x) v (p_exec_start x) (p_sum_exec_runtime x) (p_wait_sum x) (p_last_wakeup x) (p_rb_node x)
    (p_privilege_level x) (p_initial_entry_point x) (p_io_operations x) (p_preemption_count x)
    (p_cpu_time_accumulated x) (p_creation_time x) (p_term_reason x) (p_exit_code x) (p_termination_time x)
    (p_token x) (p_sis_seal x) (p_ipc_queue x) (p_context x).
Definition set_p_exec_start (v : Z) (x : EEVDFProcessControlBlock) : EEVDFProcessControlBlock :=
  mk_pcb (p_pid x) (p_state x) (p_stack x) (p_nice x) (p_weight x) (p_inv_weight x) (p_vruntime x)
    (p_deadline x) (p_slice_ns x) v (p_sum_exec_runtime x) (p_wait_sum x) (p_last_wakeup x) (p_rb_node x)
    (p_privilege_level x) (p_initial_entry_point x) (p_io_operations x) (p_preemption_count x)
    (p_cpu_time_accumulated x) (p_creation_time x) (p_term_reason x) (p_exit_code x) (p_termination_time x)
    (p_token x) (p_sis_seal x) (p_ipc_queue x) (p_context x).
Definition set_p_sum_exec_runtime (v : Z) (x : EEVDFProcessControlBlock) : EEVDFProcessControlBlock :=
  mk_pcb (p_pid x) (p_state x) (p_stack x) (p_nice x) (p_weight x) (p_inv_weight x) (p_vruntime x)
    (p_deadline x) (p_slice_ns x) (p_exec_start x) v (p_wait_sum x) (p_last_wakeup x) (p_rb_node x)
    (p_privilege_level x) (p_initial_entry_point x) (p_io_operations x) (p_preemption_count x)
    (p_cpu_time_accumulated x) (p_creation_time x) (p_term_reason x) (p_exit_code x) (p_termination_time x)
    (p_token x) (p_sis_seal x) (p_ipc_queue x) (p_context x).
Definition set_p_wait_sum (v : Z) (x : EEVDFProcessControlBlock) : EEVDFProcessControlBlock :=
  mk_pcb (p_pid x) (p_state x) (p_stack x) (p_nice x) (p_weight x) (p_inv_weight x) (p_vruntime x)
    (p_deadline x) (p_slice_ns x) (p_exec_start x) (p_sum_exec_runtime x) v (p_last_wakeup x) (p_rb_node x)
    (p_privilege_level x) (p_initial_entry_point x) (p_io_operations x) (p_preemption_count x)
    (p_cpu_time_accumulated x) (p_creation_time x) (p_term_reason x) (p_exit_code x) (p_termination_time x)
    (p_token x) (p_sis_seal x) (p_ipc_queue x) (p_context x).
Definition set_p_last_wakeup (v : Z) (x : EEVDFProcessControlBlock) : EEVDFProcessControlBlock :=
  mk_pcb (p_pid x) (p_state x) (p_stack x) (p_nice x) (p_weight x) (p_inv_weight x) (p_vruntime x)
    (p_deadline x) (p_slice_ns x) (p_exec_start x) (p_sum_exec_runtime x) (p_wait_sum x) v (p_rb_node x)
    (p_privilege_level x) (p_initial_entry_point x) (p_io_operations x) (p_preemption_count x)
    (p_cpu_time_accumulated x) (p_creation_time x) (p_term_reason x) (p_exit_code x) (p_termination_time x)
    (p_token x) (p_sis_seal x) (p_ipc_queue x) (p_context x).
Definition set_p_rb_node (v : option nat) (x : EEVDFProcessControlBlock) : EEVDFProcessControlBlock :=
  mk_pcb (p_pid x) (p_state x) (p_stack x) (p_nice x) (p_weight x) (p_inv_weight x) (p_vruntime x)
    (p_deadline x) (p_slice_ns x) (p_exec_start x) (p_sum_exec_runtime x) (p_wait_sum x) (p_last_wakeup x) v
    (p_privilege_level x) (p_initial_entry_point x) (p_io_operations x) (p_preemption_count x)
    (p_cpu_time_accumulated x) (p_creation_time x) (p_term_reason x) (p_exit_code x) (p_termination_time x)
    (p_token x) (p_sis_seal x) (p_ipc_queue x) (p_context x).
Definition set_p_privilege_level (v : Z) (x : EEVDFProcessControlBlock) : EEVDFProcessControlBlock :=
  mk_pcb (p_pid x) (p_state x) (p_stack x) (p_nice x) (p_weight x) (p_inv_weight x) (p_vruntime x)
    (p_deadline x) (p_slice_ns x) (p_exec_start x) (p_sum_exec_runtime x) (p_wait_sum x) (p_last_wakeup x)
    (p_rb_node x) v (p_initial_entry_point x) (p_io_operations x) (p_preemption_count x)
    (p_cpu_time_accumulated x) (p_creation_time x) (p_term_reason x) (p_exit_code x) (p_termination_time x)
    (p_token x) (p_sis_seal x) (p_ipc_queue x) (p_context x).
Definition set_p_initial_entry_point (v : Z) (x : EEVDFProcessControlBlock) : EEVDFProcessControlBlock :=
  mk_pcb (p_pid x) (p_state x) (p_stack x) (p_nice x) (p_weight x) (p_inv_weight x) (p_vruntime x)
    (p_deadline x) (p_slice_ns x) (p_exec_start x) (p_sum_exec_runtime x) (p_wait_sum x) (p_last_wakeup x)
    (p_rb_node x) (p_privilege_level x) v (p_io_operations x) (p_preemption_count x)
    (p_cpu_time_accumulated x) (p_creation_time x) (p_term_reason x) (p_exit_code x) (p_termination_time x)
    (p_token x) (p_sis_seal x) (p_ipc_queue x) (p_context x).
Definition set_p_io_operations (v : Z) (x : EEVDFProcessControlBlock) : EEVDFProcessControlBlock :=
  mk_pcb (p_pid x) (p_state x) (p_stack x) (p_nice x) (p_weight x) (p_inv_weight x) (p_vruntime x)
    (p_deadline x) (p_slice_ns x) (p_exec_start x) (p_sum_exec_runtime x) (p_wait_sum x) (p_last_wakeup x)
    (p_rb_node x) (p_privilege_level x) (p_initial_entry_point x) v (p_preemption_count x)
    (p_cpu_time_accumulated x) (p_creation_time x) (p_term_reason x) (p_exit_code x) (p_termination_time x)
    (p_token x) (p_sis_seal x) (p_ipc_queue x) (p_context x).
Definition set_p_preemption_count (v : Z) (x : EEVDFProcessControlBlock) : EEVDFProcessControlBlock :=
  mk_pcb (p_pid x) (p_state x) (p_stack x) (p_nice x) (p_weight x) (p_inv_weight x) (p_vruntime x)
    (p_deadline x) (p_slice_ns x) (p_exec_start x) (p_sum_exec_runtime x) (p_wait_sum x) (p_last_wakeup x)
    (p_rb_node x) (p_privilege_level x) (p_initial_entry_point x) (p_io_operations x) v
    (p_cpu_time_accumulated x) (p_creation_time x) (p_term_reason x) (p_exit_code x) (p_termination_time x)
    (p_token x) (p_sis_seal x) (p_ipc_queue x) (p_context x).
Definition set_p_cpu_time_accumulated (v : Z) (x : EEVDFProcessControlBlock) : EEVDFProcessControlBlock :=
  mk_pcb (p_pid x) (p_state x) (p_stack x) (p_nice x) (p_weight x) (p_inv_weight x) (p_vruntime x)
    (p_deadline x) (p_slice_ns x) (p_exec_start x) (p_sum_exec_runtime x) (p_wait_sum x) (p_last_wakeup x)
    (p_rb_node x) (p_privilege_level x) (p_initial_entry_point x) (p_io_operations x) (p_preemption_count x)
    v (p_creation_time x) (p_term_reason x) (p_exit_code x) (p_termination_time x) (p_token x)
    (p_sis_seal x) (p_ipc_queue x) (p_context x).
Definition set_p_creation_time (v : Z) (x : EEVDFProcessControlBlock) : EEVDFProcessControlBlock :=
  mk_pcb (p_pid x) (p_state x) (p_stack x) (p_nice x) (p_weight x) (p_inv_weight x) (p_vruntime x)
    (p_deadline x) (p_slice_ns x) (p_exec_start x) (p_sum_exec_runtime x) (p_wait_sum x) (p_last_wakeup x)
    (p_rb_node x) (p_privilege_level x) (p_initial_entry_point x) (p_io_operations x) (p_preemption_count x)
    (p_cpu_time_accumulated x) v (p_term_reason x) (p_exit_code x) (p_termination_time x) (p_token x)
    (p_sis_seal x) (p_ipc_queue x) (p_context x).
Definition set_p_term_reason (v : TerminationReason) (x : EEVDFProcessControlBlock) : EEVDFProcessControlBlock :=
  mk_pcb (p_pid x) (p_state x) (p_stack x) (p_nice x) (p_weight x) (p_inv_weight x) (p_vruntime x)
    (p_deadline x) (p_slice_ns x) (p_exec_start x) (p_sum_exec_runtime x) (p_wait_sum x) (p_last_wakeup x)
    (p_rb_node x) (p_privilege_level x) (p_initial_entry_point x) (p_io_operations x) (p_preemption_count x)
    (p_cpu_time_accumulated x) (p_creation_time x) v (p_exit_code x) (p_termination_time x) (p_token x)
    (p_sis_seal x) (p_ipc_queue x) (p_context x).
Definition set_p_exit_code (v : Z) (x : EEVDFProcessControlBlock) : EEVDFProcessControlBlock :=
  mk_pcb (p_pid x) (p_state x) (p_stack x) (p_nice x) (p_weight x) (p_inv_weight x) (p_vruntime x)
    (p_deadline x) (p_slice_ns x) (p_exec_start x) (p_sum_exec_runtime x) (p_wait_sum x) (p_last_wakeup x)
    (p_rb_node x) (p_privilege_level x) (p_initial_entry_point x) (p_io_operations x) (p_preemption_count x)
    (p_cpu_time_accumulated x) (p_creation_time x) (p_term_reason x) v (p_termination_time x) (p_token x)
    (p_sis_seal x) (p_ipc_queue x) (p_context x).
Definition set_p_termination_time (v : Z) (x : EEVDFProcessControlBlock) : EEVDFProcessControlBlock :=
  mk_pcb (p_pid x) (p_state x) (p_stack x) (p_nice x) (p_weight x) (p_inv_weight x) (p_vruntime x)
    (p_deadline x) (p_slice_ns x) (p_exec_start x) (p_sum_exec_runtime x) (p_wait_sum x) (p_last_wakeup x)
    (p_rb_node x) (p_privilege_level x) (p_initial_entry_point x) (p_io_operations x) (p_preemption_count x)
    (p_cpu_time_accumulated x) (p_creation_time x) (p_term_reason x) (p_exit_code x) v (p_token x)
    (p_sis_seal x) (p_ipc_queue x) (p_context x).
Definition set_p_token (v : EEVDFSecurityToken) (x : EEVDFProcessControlBlock) : EEVDFProcessControlBlock :=
  mk_pcb (p_pid x) (p_state x) (p_stack x) (p_nice x) (p_weight x) (p_inv_weight x) (p_vruntime x)
    (p_deadline x) (p_slice_ns x) (p_exec_start x) (p_sum_exec_runtime x) (p_wait_sum x) (p_last_wakeup x)
    (p_rb_node x) (p_privilege_level x) (p_initial_entry_point x) (p_io_operations x) (p_preemption_count x)
    (p_cpu_time_accumulated x) (p_creation_time x) (p_term_reason x) (p_exit_code x) (p_termination_time x)
    v (p_sis_seal x) (p_ipc_queue x) (p_context x).
Definition set_p_sis_seal (v : Z) (x : EEVDFProcessControlBlock) : EEVDFProcessControlBlock :=
  mk_pcb (p_pid x) (p_state x) (p_stack x) (p_nice x) (p_weight x) (p_inv_weight x) (p_vruntime x)
    (p_deadline x) (p_slice_ns x) (p_exec_start x) (p_sum_exec_runtime x) (p_wait_sum x) (p_last_wakeup x)
    (p_rb_node x) (p_privilege_level x) (p_initial_entry_point x) (p_io_operations x) (p_preemption_count x)
    (p_cpu_time_accumulated x) (p_creation_time x) (p_term_reason x) (p_exit_code x) (p_termination_time x)
    (p_token x) v (p_ipc_queue x) (p_context x).
Definition set_p_ipc_queue (v : MessageQueue) (x : EEVDFProcessControlBlock) : EEVDFProcessControlBlock :=
  mk_pcb (p_pid x) (p_state x) (p_stack x) (p_nice x) (p_weight x) (p_inv_weight x) (p_vruntime x)
    (p_deadline x) (p_slice_ns x) (p_exec_start x) (p_sum_exec_runtime x) (p_wait_sum x) (p_last_wakeup x)
    (p_rb_node x) (p_privilege_level x) (p_initial_entry_point x) (p_io_operations x) (p_preemption_count x)
    (p_cpu_time_accumulated x) (p_creation_time x) (p_term_reason x) (p_exit_code x) (p_termination_time x)
    (p_token x) (p_sis_seal x) v (p_context x).
Definition set_p_context (v : Registers) (x : EEVDFProcessControlBlock) : EEVDFProcessControlBlock :=
  mk_pcb (p_pid x) (p_state x) (p_stack x) (p_nice x) (p_weight x) (p_inv_weight x) (p_vruntime x)
    (p_deadline x) (p_slice_ns x) (p_exec_start x) (p_sum_exec_runtime x) (p_wait_sum x) (p_last_wakeup x)
    (p_rb_node x) (p_privilege_level x) (p_initial_entry_point x) (p_io_operations x) (p_preemption_count x)
    (p_cpu_time_accumulated x) (p_creation_time x) (p_term_reason x) (p_exit_code x) (p_termination_time x)
    (p_token x) (p_sis_seal x) (p_ipc_queue x) v.

(** The run queue; [rq_tree] is its red-black tree with the node pool. *)
Record EEVDFRunqueue := mk_rq {
  rq_tree : rbt;
  min_vruntime : Z;
  clock : Z;
  exec_clock : Z;
  load_weight : Z;
  nr_running : Z;
  current_slot : Z
}.
Definition set_rq_tree (v : rbt) (x : EEVDFRunqueue) : EEVDFRunqueue :=
  mk_rq v (min_vruntime x) (clock x) (exec_clock x) (load_weight x) (nr_running x) (current_slot x).
Definition set_min_vruntime (v : Z) (x : EEVDFRunqueue) : EEVDFRunqueue :=
  mk_rq (rq_tree x) v (clock x) (exec_clock x) (load_weight x) (nr_running x) (current_slot x).
Definition set_clock (v : Z) (x : EEVDFRunqueue) : EEVDFRunqueue :=
  mk_rq (rq_tree x) (min_vruntime x) v (exec_clock x) (load_weight x) (nr_running x) (current_slot x).
Definition set_exec_clock (v : Z) (x : EEVDFRunqueue) : EEVDFRunqueue :=
  mk_rq (rq_tree x) (min_vruntime x) (clock x) v (load_weight x) (nr_running x) (current_slot x).
Definition set_load_weight (v : Z) (x : EEVDFRunqueue) : EEVDFRunqueue :=
  mk_rq (rq_tree x) (min_vruntime x) (clock x) (exec_clock x) v (nr_running x) (current_slot x).
Definition set_nr_running (v : Z) (x : EEVDFRunqueue) : EEVDFRunqueue :=
  mk_rq (rq_tree x) (min_vruntime x) (clock x) (exec_clock x) (load_weight x) v (current_slot x).
Definition set_current_slot (v : Z) (x : EEVDFRunqueue) : EEVDFRunqueue :=
  mk_rq (rq_tree x) (min_vruntime x) (clock x) (exec_clock x) (load_weight x) (nr_running x) v.

(** The scheduler's static state. *)
Record sched := mk_sched {
  processes : list EEVDFProcessControlBlock;
  rq : EEVDFRunqueue;
  pid_bitmap : list Z;
  current_process : Z;
  process_count : Z;
  need_schedule : bool;
  active_process_bitmap : Z;
  ready_process_bitmap : Z;
  sis_global_nonce : Z;
  sis_process_keys : list Z;
  crc : crc_state;
  termination_queue : list Z;
  term_queue_head : Z;
  term_queue_tail : Z;
  term_queue_count : Z;
  total_processes : Z;
  tick_counter : Z;
  switch_count : Z;
  scheduler_calls : Z;
  context_switches : Z;
  security_violation_count : Z;
  APICticks : Z;
  APIC_HZ : Z;
  calls : list ext_call
}.
Definition set_processes (v : list EEVDFProcessControlBlock) (x : sched) : sched :=
  mk_sched v (rq x) (pid_bitmap x) (current_process x) (process_count x) (need_schedule x)
    (active_process_bitmap x) (ready_process_bitmap x) (sis_global_nonce x) (sis_process_keys x) (crc x)
    (termination_queue x) (term_queue_head x) (term_queue_tail x) (term_queue_count x) (total_processes x)
    (tick_counter x) (switch_count x) (scheduler_calls x) (context_switches x) (security_violation_count x)
    (APICticks x) (APIC_HZ x) (calls x).
Definition set_rq (v : EEVDFRunqueue) (x : sched) : sched :=
  mk_sched (processes x) v (pid_bitmap x) (current_process x) (process_count x) (need_schedule x)
    (active_process_bitmap x) (ready_process_bitmap x) (sis_global_nonce x) (sis_process_keys x) (crc x)
    (termination_queue x) (term_queue_head x) (term_queue_tail x) (term_queue_count x) (total_processes x)
    (tick_counter x) (switch_count x) (scheduler_calls x) (context_switches x) (security_violation_count x)
    (APICticks x) (APIC_HZ x) (calls x).
Definition set_pid_bitmap (v : list Z) (x : sched) : sched :=
  mk_sched (processes x) (rq x) v (current_process x) (process_count x) (need_schedule x)
    (active_process_bitmap x) (ready_process_bitmap x) (sis_global_nonce x) (sis_process_keys x) (crc x)
    (termination_queue x) (term_queue_head x) (term_queue_tail x) (term_queue_count x) (total_processes x)
    (tick_counter x) (switch_count x) (scheduler_calls x) (context_switches x) (security_violation_count x)
    (APICticks x) (APIC_HZ x) (calls x).
Definition set_current_process (v : Z) (x : sched) : sched :=
  mk_sched (processes x) (rq x) (pid_bitmap x) v (process_count x) (need_schedule x)
    (active_process_bitmap x) (ready_process_bitmap x) (sis_global_nonce x) (sis_process_keys x) (crc x)
    (termination_queue x) (term_queue_head x) (term_queue_tail x) (term_queue_count x) (total_processes x)
    (tick_counter x) (switch_count x) (scheduler_calls x) (context_switches x) (security_violation_count x)
    (APICticks x) (APIC_HZ x) (calls x).
Definition set_process_count (v : Z) (x : sched) : sched :=
  mk_sched (processes x) (rq x) (pid_bitmap x) (current_process x) v (need_schedule x)
    (active_process_bitmap x) (ready_process_bitmap x) (sis_global_nonce x) (sis_process_keys x) (crc x)
    (termination_queue x) (term_queue_head x) (term_queue_tail x) (term_queue_count x) (total_processes x)
    (tick_counter x) (switch_count x) (scheduler_calls x) (context_switches x) (security_violation_count x)
    (APICticks x) (APIC_HZ x) (calls x).
Definition set_need_schedule (v : bool) (x : sched) : sched :=
  mk_sched (processes x) (rq x) (pid_bitmap x) (current_process x) (process_count x) v
    (active_process_bitmap x) (ready_process_bitmap x) (sis_global_nonce x) (sis_process_keys x) (crc x)
    (termination_queue x) (term_queue_head x) (term_queue_tail x) (term_queue_count x) (total_processes x)
    (tick_counter x) (switch_count x) (scheduler_calls x) (context_switches x) (security_violation_count x)
    (APICticks x) (APIC_HZ x) (calls x).
Definition set_active_process_bitmap (v : Z) (x : sched) : sched :=
  mk_sched (processes x) (rq x) (pid_bitmap x) (current_process x) (process_count x) (need_schedule x) v
    (ready_process_bitmap x) (sis_global_nonce x) (sis_process_keys x) (crc x) (termination_queue x)
    (term_queue_head x) (term_queue_tail x) (term_queue_count x) (total_processes x) (tick_counter x)
    (switch_count x) (scheduler_calls x) (context_switches x) (security_violation_count x) (APICticks x)
    (APIC_HZ x) (calls x).
Definition set_ready_process_bitmap (v : Z) (x : sched) : sched :=
  mk_sched (processes x) (rq x) (pid_bitmap x) (current_process x) (process_count x) (need_schedule x)
    (active_process_bitmap x) v (sis_global_nonce x) (sis_process_keys x) (crc x) (termination_queue x)
    (term_queue_head x) (term_queue_tail x) (term_queue_count x) (total_processes x) (tick_counter x)
    (switch_count x) (scheduler_calls x) (context_switches x) (security_violation_count x) (APICticks x)
    (APIC_HZ x) (calls x).
Definition set_sis_global_nonce (v : Z) (x : sched) : sched :=
  mk_sched (processes x) (rq x) (pid_bitmap x) (current_process x) (process_count x) (need_schedule x)
    (active_process_bitmap x) (ready_process_bitmap x) v (sis_process_keys x) (crc x) (termination_queue x)
    (term_queue_head x) (term_queue_tail x) (term_queue_count x) (total_processes x) (tick_counter x)
    (switch_count x) (scheduler_calls x) (context_switches x) (security_violation_count x) (APICticks x)
    (APIC_HZ x) (calls x).
Definition set_sis_process_keys (v : list Z) (x : sched) : sched :=
  mk_sched (processes x) (rq x) (pid_bitmap x) (current_process x) (process_count x) (need_schedule x)
    (active_process_bitmap x) (ready_process_bitmap x) (sis_global_nonce x) v (crc x) (termination_queue x)
    (term_queue_head x) (term_queue_tail x) (term_queue_count x) (total_processes x) (tick_counter x)
    (switch_count x) (scheduler_calls x) (context_switches x) (security_violation_count x) (APICticks x)
    (APIC_HZ x) (calls x).
Definition set_crc (v : crc_state) (x : sched) : sched :=
  mk_sched (processes x) (rq x) (pid_bitmap x) (current_process x) (process_count x) (need_schedule x)
    (active_process_bitmap x) (ready_process_bitmap x) (sis_global_nonce x) (sis_process_keys x) v
    (termination_queue x) (term_queue_head x) (term_queue_tail x) (term_queue_count x) (total_processes x)
    (tick_counter x) (switch_count x) (scheduler_calls x) (context_switches x) (security_violation_count x)
    (APICticks x) (APIC_HZ x) (calls x).
Definition set_termination_queue (v : list Z) (x : sched) : sched :=
  mk_sched (processes x) (rq x) (pid_bitmap x) (current_process x) (process_count x) (need_schedule x)
    (active_process_bitmap x) (ready_process_bitmap x) (sis_global_nonce x) (sis_process_keys x) (crc x) v
    (term_queue_head x) (term_queue_tail x) (term_queue_count x) (total_processes x) (tick_counter x)
    (switch_count x) (scheduler_calls x) (context_switches x) (security_violation_count x) (APICticks x)
    (APIC_HZ x) (calls x).
Definition set_term_queue_head (v : Z) (x : sched) : sched :=
  mk_sched (processes x) (rq x) (pid_bitmap x) (current_process x) (process_count x) (need_schedule x)
    (active_process_bitmap x) (ready_process_bitmap x) (sis_global_nonce x) (sis_process_keys x) (crc x)
    (termination_queue x) v (term_queue_tail x) (term_queue_count x) (total_processes x) (tick_counter x)
    (switch_count x) (scheduler_calls x) (context_switches x) (security_violation_count x) (APICticks x)
    (APIC_HZ x) (calls x).
Definition set_term_queue_tail (v : Z) (x : sched) : sched :=
  mk_sched (processes x) (rq x) (pid_bitmap x) (current_process x) (process_count x) (need_schedule x)
    (active_process_bitmap x) (ready_process_bitmap x) (sis_global_nonce x) (sis_process_keys x) (crc x)
    (termination_queue x) (term_queue_head x) v (term_queue_count x) (total_processes x) (tick_counter x)
    (switch_count x) (scheduler_calls x) (context_switches x) (security_violation_count x) (APICticks x)
    (APIC_HZ x) (calls x).
Definition set_term_queue_count (v : Z) (x : sched) : sched :=
  mk_sched (processes x) (rq x) (pid_bitmap x) (current_process x) (process_count x) (need_schedule x)
    (active_process_bitmap x) (ready_process_bitmap x) (sis_global_nonce x) (sis_process_keys x) (crc x)
    (termination_queue x) (term_queue_head x) (term_queue_tail x) v (total_processes x) (tick_counter x)
    (switch_count x) (scheduler_calls x) (context_switches x) (security_violation_count x) (APICticks x)
    (APIC_HZ x) (calls x).
Definition set_total_processes (v : Z) (x : sched) : sched :=
  mk_sched (processes x) (rq x) (pid_bitmap x) (current_process x) (process_count x) (need_schedule x)
    (active_process_bitmap x) (ready_process_bitmap x) (sis_global_nonce x) (sis_process_keys x) (crc x)
    (termination_queue x) (term_queue_head x) (term_queue_tail x) (term_queue_count x) v (tick_counter x)
    (switch_count x) (scheduler_calls x) (context_switches x) (security_violation_count x) (APICticks x)
    (APIC_HZ x) (calls x).
Definition set_tick_counter (v : Z) (x : sched) : sched :=
  mk_sched (processes x) (rq x) (pid_bitmap x) (current_process x) (process_count x) (need_schedule x)
    (active_process_bitmap x) (ready_process_bitmap x) (sis_global_nonce x) (sis_process_keys x) (crc x)
    (termination_queue x) (term_queue_head x) (term_queue_tail x) (term_queue_count x) (total_processes x) v
    (switch_count x) (scheduler_calls x) (context_switches x) (security_violation_count x) (APICticks x)
    (APIC_HZ x) (calls x).
Definition set_switch_count (v : Z) (x : sched) : sched :=
  mk_sched (processes x) (rq x) (pid_bitmap x) (current_process x) (process_count x) (need_schedule x)
    (active_process_bitmap x) (ready_process_bitmap x) (sis_global_nonce x) (sis_process_keys x) (crc x)
    (termination_queue x) (term_queue_head x) (term_queue_tail x) (term_queue_count x) (total_processes x)
    (tick_counter x) v (scheduler_calls x) (context_switches x) (security_violation_count x) (APICticks x)
    (APIC_HZ x) (calls x).
Definition set_scheduler_calls (v : Z) (x : sched) : sched :=
  mk_sched (processes x) (rq x) (pid_bitmap x) (current_process x) (process_count x) (need_schedule x)
    (active_process_bitmap x) (ready_process_bitmap x) (sis_global_nonce x) (sis_process_keys x) (crc x)
    (termination_queue x) (term_queue_head x) (term_queue_tail x) (term_queue_count x) (total_processes x)
    (tick_counter x) (switch_count x) v (context_switches x) (security_violation_count x) (APICticks x)
    (APIC_HZ x) (calls x).
Definition set_context_switches (v : Z) (x : sched) : sched :=
  mk_sched (processes x) (rq x) (pid_bitmap x) (current_process x) (process_count x) (need_schedule x)
    (active_process_bitmap x) (ready_process_bitmap x) (sis_global_nonce x) (sis_process_keys x) (crc x)
    (termination_queue x) (term_queue_head x) (term_queue_tail x) (term_queue_count x) (total_processes x)
    (tick_counter x) (switch_count x) (scheduler_calls x) v (security_violation_count x) (APICticks x)
    (APIC_HZ x) (calls x).
Definition set_security_violation_count (v : Z) (x : sched) : sched :=
  mk_sched (processes x) (rq x) (pid_bitmap x) (current_process x) (process_count x) (need_schedule x)
    (active_process_bitmap x) (ready_process_bitmap x) (sis_global_nonce x) (sis_process_keys x) (crc x)
    (termination_queue x) (term_queue_head x) (term_queue_tail x) (term_queue_count x) (total_processes x)
    (tick_counter x) (switch_count x) (scheduler_calls x) (context_switches x) v (APICticks x) (APIC_HZ x)
    (calls x).
Definition set_APICticks (v : Z) (x : sched) : sched :=
  mk_sched (processes x) (rq x) (pid_bitmap x) (current_process x) (process_count x) (need_schedule x)
    (active_process_bitmap x) (ready_process_bitmap x) (sis_global_nonce x) (sis_process_keys x) (crc x)
    (termination_queue x) (term_queue_head x) (term_queue_tail x) (term_queue_count x) (total_processes x)
    (tick_counter x) (switch_count x) (scheduler_calls x) (context_switches x) (security_violation_count x)
    v (APIC_HZ x) (calls x).
Definition set_APIC_HZ (v : Z) (x : sched) : sched :=
  mk_sched (processes x) (rq x) (pid_bitmap x) (current_process x) (process_count x) (need_schedule x)
    (active_process_bitmap x) (ready_process_bitmap x) (sis_global_nonce x) (sis_process_keys x) (crc x)
    (termination_queue x) (term_queue_head x) (term_queue_tail x) (term_queue_count x) (total_processes x)
    (tick_counter x) (switch_count x) (scheduler_calls x) (context_switches x) (security_violation_count x)
    (APICticks x) v (calls x).
Definition set_calls (v : list ext_call) (x : sched) : sched :=
  mk_sched (processes x) (rq x) (pid_bitmap x) (current_process x) (process_count x) (need_schedule x)
    (active_process_bitmap x) (ready_process_bitmap x) (sis_global_nonce x) (sis_process_keys x) (crc x)
    (termination_queue x) (term_queue_head x) (term_queue_tail x) (term_queue_count x) (total_processes x)
    (tick_counter x) (switch_count x) (scheduler_calls x) (context_switches x) (security_violation_count x)
    (APICticks x) (APIC_HZ x) v.

(** ** The monad *)
(** [Hang] is a processor that waits for ever for a spinlock it holds itself. *)
Inductive outcome (A : Type) := Ok (a : A) | Panic | Hang | Fault.
Arguments Ok {A} _.
Arguments Panic {A}.
Arguments Hang {A}.
Arguments Fault {A}.
Definition M (A : Type) : Type := sched -> outcome (A * sched).
Definition ret {A} (a : A) : M A := fun s => Ok (a, s).
Definition bind {A B} (m : M A) (k : A -> M B) : M B :=
  fun s => match m s with Ok (a, s') => k a s' | Panic => Panic | Hang => Hang | Fault => Fault end.
Declare Scope sched_scope.
Delimit Scope sched_scope with sched.
Notation "x <-- m ;; k" := (bind m (fun x => k)) (at level 100, m at next level, right associativity) : sched_scope.
Notation "m ;;; k" := (bind m (fun _ => k)) (at level 100, right associativity) : sched_scope.
#[global] Open Scope sched_scope.

Definition panic {A} : M A := fun _ => Panic.
Definition hang {A} : M A := fun _ => Hang.
Definition lift {A} (o : option A) : M A := fun s => match o with Some a => Ok (a, s) | None => Fault end.
Definition gets {A} (f : sched -> A) : M A := fun s => Ok (f s, s).
Definition modify (f : sched -> sched) : M unit := fun s => Ok (tt, f s).
Definition get_proc (i : Z) : M EEVDFProcessControlBlock := fun s => lift (arr_get (processes s) i) s.
Definition upd_proc (i : Z) (f : EEVDFProcessControlBlock -> EEVDFProcessControlBlock) : M unit :=
  p <-- get_proc i ;;
  ps <-- (fun s => lift (arr_set (processes s) i (f p)) s) ;;
  modify (set_processes ps).
Definition upd_rq (f : EEVDFRunqueue -> EEVDFRunqueue) : M unit := modify (fun s => set_rq (f (rq s)) s).
Definition get_rq : M EEVDFRunqueue := gets rq.
Definition on_tree {A} (f : rbt -> option (A * rbt)) : M A :=
  q <-- get_rq ;;
  r <-- lift (f (rq_tree q)) ;;
  upd_rq (set_rq_tree r.2) ;;;
  ret r.1.

(** IPC sees a process control block through its pid, state and queue. *)
#[export] Instance eevdf_proc : IpcProc EEVDFProcessControlBlock := {
  proc_pid := p_pid;
  proc_state := p_state;
  proc_queue := p_ipc_queue;
  set_proc_state := set_p_state;
  set_proc_queue := set_p_ipc_queue;
  proc_state_set s p := eq_refl;
  proc_queue_set q p := eq_refl;
  proc_state_set_queue q p := eq_refl;
  proc_queue_set_state s p := eq_refl;
  proc_pid_set_state s p := eq_refl;
  proc_pid_set_queue q p := eq_refl
}.

(** ** Time *)
Definition GetNS : M Z :=
  fun s => if APIC_HZ s =? 0 then Fault else Ok (u64 (APICticks s * 1000000000) / APIC_HZ s, s).
Definition EEVDFGetSystemTicks : M Z := gets APICticks.

(** ** Nice levels *)
Definition clamp_nice (nice : Z) : Z :=
  let nice := if nice <? EEVDF_MIN_NICE then EEVDF_MIN_NICE else nice in
  if EEVDF_MAX_NICE <? nice then EEVDF_MAX_NICE else nice.
Definition EEVDFNiceToWeight (nice : Z) : option Z :=
  arr_get eevdf_nice_to_weight (clamp_nice nice - EEVDF_MIN_NICE).
Definition EEVDFNiceToWmult (nice : Z) : option Z :=
  arr_get eevdf_nice_to_wmult (clamp_nice nice - EEVDF_MIN_NICE).
Definition EEVDFSetTaskNice (nice : Z) (p : EEVDFProcessControlBlock) : option EEVDFProcessControlBlock :=
  let nice := clamp_nice nice in
  w ← EEVDFNiceToWeight nice;
  m ← EEVDFNiceToWmult nice;
  Some (set_p_inv_weight m (set_p_weight w (set_p_nice nice p))).

(** ** Virtual time *)
Definition EEVDFCalcDelta (delta_exec weight lw : Z) : Z :=
  let lw := if lw =? 0 then EEVDF_NICE_0_LOAD else lw in
  let fact := u32 (Z.shiftl weight 16) / lw in
  Z.shiftr (u64 (delta_exec * fact)) 16.

(** [EEVDF_TARGET_LATENCY * se->weight] is an [int] times a [uint32_t]: a 32-bit product.
    [None] is the division by a zero load. *)
Definition EEVDFCalcSlice (nr_running load_weight weight : Z) : option Z :=
  if nr_running =? 0 then Some EEVDF_TIME_SLICE_NS else
  if load_weight =? 0 then None else
  let slice := u32 (EEVDF_TARGET_LATENCY * weight) / load_weight in
  let slice := if slice <? EEVDF_MIN_GRANULARITY then EEVDF_MIN_GRANULARITY else slice in
  let slice := if EEVDF_MAX_TIME_SLICE_NS <? slice then EEVDF_MAX_TIME_SLICE_NS else slice in
  Some slice.
Definition calc_slice (p : EEVDFProcessControlBlock) : M Z :=
  q <-- get_rq ;; lift (EEVDFCalcSlice (nr_running q) (load_weight q) (p_weight p)).

(** [curr] is the process in slot [i]. *)
Definition EEVDFUpdateCurr (i : Z) : M unit :=
  now <-- GetNS ;;
  curr <-- get_proc i ;;
  let delta_exec := u64 (now - p_exec_start curr) in
  if delta_exec =? 0 then ret tt else
  q <-- get_rq ;;
  let delta_fair := EEVDFCalcDelta delta_exec EEVDF_NICE_0_LOAD (load_weight q) in
  upd_proc i (fun p => set_p_vruntime (u64 (p_vruntime p + delta_fair))
    (set_p_cpu_time_accumulated (u64 (p_cpu_time_accumulated p + delta_exec))
    (set_p_sum_exec_runtime (u64 (p_sum_exec_runtime p + delta_exec))
    (set_p_exec_start now p)))) ;;;
  match rb_leftmost (rq_tree q) with
  | Some n =>
      nd <-- lift (deref n (rq_tree q)) ;;
      leftmost <-- get_proc (slot nd) ;;
      upd_rq (set_min_vruntime (p_vruntime leftmost))
  | None =>
      c <-- get_proc i ;;
      upd_rq (set_min_vruntime (p_vruntime c))
  end.

(** ** The integrity seal *)
Fixpoint le_bytes (n : nat) (z : Z) : list Z :=
  match n with O => [] | S n' => u8 z :: le_bytes n' (Z.shiftr z 8) end.
Definition SISFastHash (a b : Z) : M Z :=
  c <-- gets crc ;;
  r <-- lift (CRC32 (le_bytes 8 a ++ le_bytes 8 b) c) ;;
  modify (set_crc r.2) ;;;
  ret r.1.
Definition SISGenerateProcessKey (i pid : Z) : M Z :=
  modify (fun s => set_sis_global_nonce (u64 (sis_global_nonce s + 1)) s) ;;;
  entropy <-- gets sis_global_nonce ;;
  key <-- SISFastHash (Z.lxor SIS_SALT_BASE entropy) (Z.lor (u64 (Z.shiftl pid 32)) i) ;;
  ks <-- (fun s => lift (arr_set (sis_process_keys s) i key) s) ;;
  modify (set_sis_process_keys ks) ;;;
  ret key.
(** The sealed word: pid, privilege and state. *)
Definition critical (p : EEVDFProcessControlBlock) : Z :=
  Z.lor (Z.lor (u64 (Z.shiftl (p_pid p) 32)) (Z.shiftl (p_privilege_level p) 16)) (state_val (p_state p)).
Definition SISSealPCB (p : EEVDFProcessControlBlock) (i : Z) : M Z :=
  k <-- (fun s => lift (arr_get (sis_process_keys s) i) s) ;;
  SISFastHash (critical p) k.
Definition SISVerifyPCB (p : EEVDFProcessControlBlock) (i : Z) : M bool :=
  if EEVDF_MAX_PROCESSES <=? i then ret false else
  expected <-- SISSealPCB p i ;;
  ret (p_sis_seal p =? expected).
Definition SISUpdateSeal (i : Z) : M unit :=
  p <-- get_proc i ;;
  seal <-- SISSealPCB p i ;;
  upd_proc i (set_p_sis_seal seal).
Definition SISValidateProcess (p : EEVDFProcessControlBlock) (i : Z) : M bool :=
  if EEVDF_MAX_PROCESSES <=? i then ret false else
  if negb (magic (p_token p) =? SIS_MAGIC) then ret false else SISVerifyPCB p i.
Definition EEVDFCalculateTokenChecksum (t : EEVDFSecurityToken) : M Z := SISFastHash (magic t) (capabilities t).
