(* ===== verification/Sched.v ===== *)
(** The operations of the EEVDF scheduler ([src/kernel/sched/EEVDF.c]): the run queue, process
    slots and the termination queue, the security checks, process creation, termination and
    clean-up, and the scheduling tick.  Locks bracket the operations they protect, so each
    operation is one atomic step; the one lock that the code takes while it holds it,
    [runqueue_lock] in a tick, is modelled.  Console output is left out. *)
From Stdlib Require Import ZArith Lia.
From stdpp Require Import base tactics list gmap numbers option.
From S2P Require Import Prelude Crc32 RbTree Ipc Eevdf.

(** ** Task queue management *)

(** [processes[s].vruntime] *)
Definition vruntime_of (ps : list EEVDFProcessControlBlock) (s : Z) : option Z := p_vruntime <$> arr_get ps s.

Definition EEVDFRBInsert (i : Z) : M unit :=
  p <-- get_proc i ;;
  match p_rb_node p with
  | Some _ => panic
  | None =>
      ps <-- gets processes ;;
      node <-- on_tree (rb_insert (vruntime_of ps) i (p_vruntime p)) ;;
      match node with
      | None => ret tt
      | Some n => upd_proc i (set_p_rb_node (Some n))
      end
  end.
Definition EEVDFRBDelete (i : Z) : M unit :=
  p <-- get_proc i ;;
  match p_rb_node p with
  | None => ret tt
  | Some n =>
      on_tree (fun T => T' ← rb_delete n T; Some (tt, T')) ;;;
      upd_proc i (set_p_rb_node None)
  end.

Definition EEVDFEnqueueTask (i : Z) : M unit :=
  p <-- get_proc i ;;
  if negb (bool_decide (p_state p = PROC_READY)) then ret tt else
  q <-- get_rq ;;
  (if p_vruntime p <? min_vruntime q then upd_proc i (set_p_vruntime (min_vruntime q)) else ret tt) ;;;
  p <-- get_proc i ;;
  slice <-- calc_slice p ;;
  upd_proc i (set_p_deadline (u64 (p_vruntime p + slice))) ;;;
  upd_rq (fun q => set_nr_running (u32 (nr_running q + 1)) (set_load_weight (u32 (load_weight q + p_weight p)) q)) ;;;
  EEVDFRBInsert i.

Definition EEVDFDequeueTask (i : Z) : M unit :=
  p <-- get_proc i ;;
  match p_rb_node p with
  | None => ret tt
  | Some _ =>
      upd_rq (fun q =>
        let q := set_load_weight (if p_weight p <=? load_weight q then load_weight q - p_weight p else 0) q in
        if 0 <? nr_running q then set_nr_running (nr_running q - 1) q else q) ;;;
      EEVDFRBDelete i
  end.

(** The slot of the leftmost task. *)
Definition EEVDFPickNext : M (option Z) :=
  q <-- get_rq ;;
  match rb_leftmost (rq_tree q) with
  | None => ret None
  | Some n => nd <-- lift (deref n (rq_tree q)) ;; get_proc (slot nd) ;;; ret (Some (slot nd))
  end.

(** ** Slots and the termination queue *)

(** The compare-and-swap succeeds when nothing intervenes, which the atomic step is. *)
Definition FindFreeSlotFast : M Z :=
  current <-- gets active_process_bitmap ;;
  if current =? not64 1 then ret (-1) else
  let available := Z.land (not64 current) (not64 1) in
  if available =? 0 then ret (-1) else
  let i := ctz64 available in
  modify (set_active_process_bitmap (Z.lor current (shl64 1 i))) ;;;
  ret i.
Definition FreeSlotFast (i : Z) : M unit :=
  if (0 <? i) && (i <? 64)
  then modify (fun s => set_active_process_bitmap (Z.land (active_process_bitmap s) (not64 (shl64 1 i))) s)
  else ret tt.

Definition AddToTerminationQueueAtomic (i : Z) : M unit :=
  tail <-- gets term_queue_tail ;;
  let new_tail := u32 (tail + 1) mod EEVDF_MAX_PROCESSES in
  n <-- gets term_queue_count ;;
  if EEVDF_MAX_PROCESSES <=? n then panic else
  q <-- (fun s => lift (arr_set (termination_queue s) tail i) s) ;;
  modify (fun s => set_term_queue_count (u32 (term_queue_count s + 1))
                     (set_term_queue_tail new_tail (set_termination_queue q s))).
Definition RemoveFromTerminationQueueAtomic : M Z :=
  n <-- gets term_queue_count ;;
  if n =? 0 then ret EEVDF_MAX_PROCESSES else
  head <-- gets term_queue_head ;;
  i <-- (fun s => lift (arr_get (termination_queue s) head) s) ;;
  modify (fun s => set_term_queue_count (u32 (term_queue_count s - 1))
                     (set_term_queue_head (u32 (head + 1) mod EEVDF_MAX_PROCESSES) s)) ;;;
  ret i.

(** ** Processes *)
Definition EEVDFGetCurrentProcess : M Z :=
  i <-- gets current_process ;;
  if EEVDF_MAX_PROCESSES <=? i then panic else ret i.
Definition EEVDFGetCurrentProcessByPID (pid : Z) : M (option Z) :=
  ps <-- gets processes ;; ret (find_pid ps 0 pid).
Definition EEVDFYield : M unit := modify (set_need_schedule true).

Definition ended (st : ProcessState) : bool :=
  bool_decide (st = PROC_DYING) || bool_decide (st = PROC_ZOMBIE) || bool_decide (st = PROC_TERMINATED).
Definition clear_ready (i : Z) : M unit :=
  modify (fun s => set_ready_process_bitmap (Z.land (ready_process_bitmap s) (not64 (shl64 1 i))) s).
Definition set_ready (i : Z) : M unit :=
  modify (fun s => set_ready_process_bitmap (Z.lor (ready_process_bitmap s) (shl64 1 i)) s).
Definition call (c : ext_call) : M unit := modify (fun s => set_calls (calls s ++ [c]) s).

(** [rust_spinlock_lock_irqsave(runqueue_lock)]; [held] says that this processor has the lock:
    then it spins, and its check for a deadlock returns to the spinning. *)
Definition lock_runqueue (held : bool) : M unit := if held then hang else ret tt.

(** The part both terminations share: the process is marked, sealed as a zombie, taken off
    the run queue under its lock and queued for clean-up. *)
Definition mark_ended (held : bool) (i : Z) (reason : TerminationReason) (code : Z) : M unit :=
  t <-- EEVDFGetSystemTicks ;;
  upd_proc i (fun p => set_p_termination_time t (set_p_exit_code code (set_p_term_reason reason (set_p_state PROC_DYING p)))) ;;;
  clear_ready i ;;;
  q <-- get_rq ;;
  (if i =? current_slot q then modify (set_need_schedule true) else ret tt) ;;;
  upd_proc i (set_p_state PROC_ZOMBIE) ;;;
  SISUpdateSeal i ;;;
  lock_runqueue held ;;;
  EEVDFDequeueTask i ;;;
  AddToTerminationQueueAtomic i.

Definition EEVDFASTerminate_holding (held : bool) (pid : Z) : M unit :=
  r <-- EEVDFGetCurrentProcessByPID pid ;;
  match r with
  | None => ret tt
  | Some i =>
      if EEVDF_MAX_PROCESSES <=? i then ret tt else
      p <-- get_proc i ;;
      if bool_decide (p_state p = PROC_TERMINATED) then ret tt else
      mark_ended held i TERM_SECURITY 666 ;;;
      modify (fun s => set_total_processes (u32 (total_processes s - 1)) s) ;;;
      call (ProcFSUnregisterProcess pid)
  end.
(** Everywhere but under a tick the lock is free. *)
Definition EEVDFASTerminate : Z -> M unit := EEVDFASTerminate_holding false.

(** Whether the caller may end the process; the error arm ends the caller instead. *)
Definition may_terminate (caller proc : EEVDFProcessControlBlock) : bool :=
  (p_pid caller =? p_pid proc) ||
  (negb ((p_privilege_level proc =? EEVDF_PROC_PRIV_SYSTEM) && negb (p_privilege_level caller =? EEVDF_PROC_PRIV_SYSTEM)) &&
   (Z.land (capabilities (p_token proc)) EEVDF_CAP_IMMUNE =? 0) &&
   (Z.land (capabilities (p_token proc)) EEVDF_CAP_CRITICAL =? 0)).
Definition free_pid (pid : Z) : M unit :=
  w <-- (fun s => lift (arr_get (pid_bitmap s) (pid / 64)) s) ;;
  bm <-- (fun s => lift (arr_set (pid_bitmap s) (pid / 64) (Z.land w (not64 (shl64 1 (pid mod 64))))) s) ;;
  modify (set_pid_bitmap bm).

Definition EEVDFTerminateProcess (pid : Z) (reason : TerminationReason) (exit_code : Z) : M unit :=
  r <-- EEVDFGetCurrentProcessByPID pid ;;
  match r with
  | None => ret tt
  | Some i =>
      if EEVDF_MAX_PROCESSES <=? i then ret tt else
      proc <-- get_proc i ;;
      if ended (p_state proc) then ret tt else
      c <-- EEVDFGetCurrentProcess ;;
      caller <-- get_proc c ;;
      allowed <-- (if bool_decide (reason = TERM_SECURITY) then ret true else
                   if negb (may_terminate caller proc) then EEVDFASTerminate (p_pid caller) ;;; ret false else
                   v <-- SISValidateProcess caller c ;;
                   if negb v then EEVDFASTerminate (p_pid caller) ;;; ret false else ret true) ;;
      if negb (allowed : bool) then ret tt else
      mark_ended false i reason exit_code ;;;
      proc <-- get_proc i ;;
      free_pid (p_pid proc) ;;;
      modify (fun s => set_total_processes (u32 (total_processes s - 1)) s) ;;;
      call (ProcFSUnregisterProcess pid)
  end.
Definition EEVDFKillProcess (pid : Z) : M unit := EEVDFTerminateProcess pid TERM_KILLED 1.
Fixpoint kill_loop (n : nat) (i : Z) : M unit :=
  match n with
  | O => ret tt
  | S n' =>
      p <-- get_proc i ;;
      (if negb (bool_decide (p_state p = PROC_TERMINATED)) && negb (p_pid p =? 0)
       then EEVDFASTerminate (p_pid p) else ret tt) ;;;
      kill_loop n' (i + 1)
  end.
Definition EEVDFKillAllProcesses : M unit := kill_loop 64 0.
Definition EEVDFKillCurrentProcess : M unit :=
  i <-- EEVDFGetCurrentProcess ;; p <-- get_proc i ;; EEVDFASTerminate (p_pid p).
Definition ProcessExitStubEEVDF : M unit :=
  i <-- EEVDFGetCurrentProcess ;; p <-- get_proc i ;; EEVDFTerminateProcess (p_pid p) TERM_NORMAL 0.
Definition EEVDFSecurityViolationHandler (violator_pid : Z) : M unit :=
  modify (fun s => set_security_violation_count (u32 (security_violation_count s + 1)) s) ;;;
  violations <-- gets security_violation_count ;;
  if SIS_MAX_VIOLATIONS <=? violations then panic else EEVDFASTerminate violator_pid.

(** ** Checks around a context switch *)
Definition EEVDFPreflightCheck (held : bool) (i : Z) : M bool :=
  if i =? 0 then ret true else
  proc <-- get_proc i ;;
  ok <-- SISVerifyPCB proc i ;;
  if negb ok then EEVDFASTerminate_holding held (p_pid proc) ;;; ret false else
  if (p_privilege_level proc =? EEVDF_PROC_PRIV_SYSTEM) &&
     (Z.land (capabilities (p_token proc))
        (Z.lor (Z.lor EEVDF_CAP_SUPERVISOR EEVDF_CAP_CRITICAL) EEVDF_CAP_IMMUNE) =? 0)
  then EEVDFASTerminate_holding held (p_pid proc) ;;; ret false else
  ret true.
Definition EEVDFPostflightCheck (i : Z) : M bool :=
  if i =? 0 then ret true else
  proc <-- get_proc i ;;
  ok <-- SISVerifyPCB proc i ;;
  if negb ok then EEVDFASTerminate (p_pid proc) ;;; ret false else ret true.

(** ** Clean-up *)
Definition zero_queue : MessageQueue :=
  mk_queue (replicate 32 (mk_msg 0 0 IPC_TYPE_DATA IPC_PRIORITY_LOW 0 0 (replicate 512 0))) 0 0 0 0 0.
Definition zero_regs : Registers := mk_regs 0 0 0 0 0 [].
Definition zero_token : EEVDFSecurityToken := mk_token 0 0 0 0 0 0 0.
(** All fields zero; the zero state is PROC_TERMINATED. *)
Definition zero_pcb : EEVDFProcessControlBlock :=
  mk_pcb 0 PROC_TERMINATED 0 0 0 0 0 0 0 0 0 0 0 None 0 0 0 0 0 0 TERM_NORMAL 0 0 zero_token 0 zero_queue zero_regs.

Fixpoint cleanup_loop (fuel : nat) (cleanup_count : nat) : M unit :=
  match fuel with
  | O => fun _ => Fault
  | S f =>
      n <-- gets term_queue_count ;;
      if (0 <? n) && (cleanup_count <? EEVDF_CLEANUP_MAX_PER_CALL)%nat then
        i <-- RemoveFromTerminationQueueAtomic ;;
        if EEVDF_MAX_PROCESSES <=? i then ret tt else
        proc <-- get_proc i ;;
        if negb (bool_decide (p_state proc = PROC_ZOMBIE)) then cleanup_loop f cleanup_count else
        (if negb (p_stack proc =? 0) then call (VMemFreeStack (p_stack proc) EEVDF_STACK_SIZE) else ret tt) ;;;
        upd_proc i (fun _ => zero_pcb) ;;;
        FreeSlotFast i ;;;
        modify (fun s => set_process_count (u32 (process_count s - 1)) s) ;;;
        cleanup_loop f (S cleanup_count)
      else ret tt
  end.
(** Each pass takes one entry off a queue of at most 64. *)
Definition EEVDFCleanupTerminatedProcess : M unit := cleanup_loop 65 0.

(** ** The scheduling tick *)
Definition EEVDFUpdateClock : M unit :=
  t <-- GetNS ;; upd_rq (fun q => set_exec_clock t (set_clock t q)).

(** [AtomicInc] on a 64-bit counter through a 32-bit pointer: only its low half counts. *)
Definition inc_low32 (z : Z) : Z := z - u32 z + u32 (u32 z + 1).

(** What happens to the task that was running; [regs] are its registers. *)
Definition schedule_prev (old_slot : Z) (regs : Registers) : M unit :=
  prev <-- get_proc old_slot ;;
  if ended (p_state prev) then ret tt else
  ok <-- EEVDFPostflightCheck old_slot ;;
  if negb ok then ret tt else
  upd_proc old_slot (set_p_context regs) ;;;
  EEVDFUpdateCurr old_slot ;;;
  prev <-- get_proc old_slot ;;
  if bool_decide (p_state prev = PROC_RUNNING) then
    upd_proc old_slot (set_p_state PROC_READY) ;;;
    SISUpdateSeal old_slot ;;;
    set_ready old_slot
  else ret tt.

(** The slot to run next; 0 is the idle process.  [held]: [runqueue_lock] is taken, as it is
    unless the idle process was running. *)
Definition schedule_pick (held : bool) : M Z :=
  next <-- EEVDFPickNext ;;
  match next with
  | None => ret 0
  | Some i =>
      ok <-- EEVDFPreflightCheck held i ;;
      next <-- (if negb ok then EEVDFDequeueTask i ;;; EEVDFPickNext else ret (Some i)) ;;
      match next with
      | None => ret 0
      | Some j =>
          p <-- get_proc j ;;
          if (j <? EEVDF_MAX_PROCESSES) && bool_decide (p_state p = PROC_READY)
          then EEVDFDequeueTask j ;;; ret j
          else ret 0
      end
  end.

(** The switch to [next_slot]; without one the registers stay as they are. *)
Definition schedule_switch (next_slot : Z) (regs : Registers) : M Registers :=
  if next_slot =? 0 then ret regs else
  new_proc <-- get_proc next_slot ;;
  if (p_stack new_proc =? 0) || (rip (p_context new_proc) =? 0) then ret regs else
  upd_proc next_slot (set_p_state PROC_RUNNING) ;;;
  SISUpdateSeal next_slot ;;;
  clear_ready next_slot ;;;
  t <-- GetNS ;;
  slice <-- calc_slice new_proc ;;
  upd_proc next_slot (fun p => set_p_slice_ns slice (set_p_exec_start t p)) ;;;
  modify (fun s => set_switch_count (inc_low32 (switch_count s)) (set_context_switches (u64 (context_switches s + 1)) s)) ;;;
  ret (p_context new_proc).

Definition EEVDFSchedule (regs : Registers) : M Registers :=
  now <-- GetNS ;;
  q <-- get_rq ;;
  let old_slot := current_slot q in
  modify (fun s => set_tick_counter (inc_low32 (tick_counter s)) (set_scheduler_calls (u64 (scheduler_calls s + 1)) s)) ;;;
  upd_rq (fun q => set_exec_clock now (set_clock now q)) ;;;
  let has_prev := negb (old_slot =? 0) && (old_slot <? EEVDF_MAX_PROCESSES) in
  (if has_prev then
     schedule_prev old_slot regs ;;;
     prev <-- get_proc old_slot ;;
     if bool_decide (p_state prev = PROC_READY) then EEVDFEnqueueTask old_slot else ret tt
   else ret tt) ;;;
  next_slot <-- schedule_pick has_prev ;;
  upd_rq (set_current_slot next_slot) ;;;
  modify (set_current_process next_slot) ;;;
  regs' <-- schedule_switch next_slot regs ;;
  n <-- gets scheduler_calls ;;
  (if n mod 100 =? 0 then EEVDFCleanupTerminatedProcess else ret tt) ;;;
  ret regs'.

(** ** Process creation *)
Definition KERNEL_CODE_SELECTOR : Z := 0x08.
Definition KERNEL_DATA_SELECTOR : Z := 0x10.

(** The first free pid from [i] on, marked used; 0 when there is none. *)
Fixpoint pid_loop (n : nat) (i : Z) : M Z :=
  match n with
  | O => ret 0
  | S n' =>
      w <-- (fun s => lift (arr_get (pid_bitmap s) (i / 64)) s) ;;
      if Z.land w (shl64 1 (i mod 64)) =? 0 then
        bm <-- (fun s => lift (arr_set (pid_bitmap s) (i / 64) (Z.lor w (shl64 1 (i mod 64)))) s) ;;
        modify (set_pid_bitmap bm) ;;;
        ret i
      else pid_loop n' (i + 1)
  end.

(** The fields set on the zeroed control block. *)
Definition init_pcb (pid stack priv ticks entry_point vrt now : Z) : option EEVDFProcessControlBlock :=
  p ← EEVDFSetTaskNice 0 zero_pcb;
  Some (set_p_exec_start now (set_p_vruntime vrt (set_p_initial_entry_point entry_point
    (set_p_creation_time ticks (set_p_privilege_level priv (set_p_stack stack
    (set_p_state PROC_READY (set_p_pid pid p)))))))).
Definition init_context (stack entry_point : Z) : Registers :=
  mk_regs entry_point (u64 (Z.land stack (not64 0xF) - 8)) 0x202 KERNEL_CODE_SELECTOR KERNEL_DATA_SELECTOR [].

(** [stack] is what VMemAllocStack returns (0 for NULL), [entry_point] 0 for NULL. *)
Definition EEVDFCreateSecureProcess (entry_point priv caps stack : Z) : M Z :=
  if entry_point =? 0 then panic else
  n <-- gets process_count ;;
  if EEVDF_MAX_PROCESSES <=? n then panic else
  i <-- FindFreeSlotFast ;;
  if i =? -1 then panic else
  new_pid <-- pid_loop 63 1 ;;
  if new_pid =? 0 then FreeSlotFast i ;;; panic else
  upd_proc i (fun _ => zero_pcb) ;;;
  if stack =? 0 then FreeSlotFast i ;;; free_pid new_pid ;;; panic else
  c <-- EEVDFGetCurrentProcess ;;
  creator <-- get_proc c ;;
  ticks <-- EEVDFGetSystemTicks ;;
  q <-- get_rq ;;
  now <-- GetNS ;;
  p <-- lift (init_pcb new_pid stack priv ticks entry_point (min_vruntime q) now) ;;
  upd_proc i (fun _ => p) ;;;
  SISGenerateProcessKey i new_pid ;;;
  let token := mk_token SIS_MAGIC (p_pid creator) priv caps ticks 0 0 in
  sum <-- EEVDFCalculateTokenChecksum token ;;
  upd_proc i (fun p => set_p_context (init_context stack entry_point)
                (set_p_token (mk_token SIS_MAGIC (p_pid creator) priv caps ticks sum 0) p)) ;;;
  SISUpdateSeal i ;;;
  upd_proc i (fun p => set_p_token (mk_token SIS_MAGIC (p_pid creator) priv caps ticks sum (p_sis_seal p)) p) ;;;
  call (ProcFSRegisterProcess new_pid stack) ;;;
  modify (fun s => set_process_count (u32 (process_count s + 1)) s) ;;;
  set_ready i ;;;
  modify (fun s => set_total_processes (u32 (total_processes s + 1)) s) ;;;
  EEVDFEnqueueTask i ;;;
  ret new_pid.
Definition EEVDFCreateProcess (entry_point stack : Z) : M Z :=
  EEVDFCreateSecureProcess entry_point EEVDF_PROC_PRIV_NORM EEVDF_CAP_NONE stack.

(** ** Initialisation *)
Definition zero_node : EEVDFRBNode := mk_node None None None 0 0.
Definition zero_tree : rbt := mk_rbt (list_to_map ((fun i => (i, zero_node)) <$> seq 0 64)) [0; 0] None None.
Definition zero_rq : EEVDFRunqueue := mk_rq zero_tree 0 0 0 0 0 0.

(** The arrays and the scheduler structure are cleared; the shell process that a build
    option adds is a call of [EEVDFCreateSecureProcess] afterwards. *)
Definition EEVDFSchedInit : M unit :=
  modify (fun s => set_tick_counter 1 (set_total_processes 0 (set_switch_count 0
    (set_rq zero_rq (set_processes (replicate 64 zero_pcb) s))))) ;;;
  ticks <-- EEVDFGetSystemTicks ;;
  now <-- GetNS ;;
  idle <-- lift (EEVDFSetTaskNice 0 zero_pcb) ;;
  upd_proc 0 (fun _ => set_p_exec_start now (set_p_creation_time ticks
    (set_p_privilege_level EEVDF_PROC_PRIV_SYSTEM (set_p_state PROC_RUNNING idle)))) ;;;
  SISGenerateProcessKey 0 0 ;;;
  sum <-- EEVDFCalculateTokenChecksum (mk_token SIS_MAGIC 0 EEVDF_PROC_PRIV_SYSTEM EEVDF_CAP_CORE ticks 0 0) ;;
  upd_proc 0 (set_p_token (mk_token SIS_MAGIC 0 EEVDF_PROC_PRIV_SYSTEM EEVDF_CAP_CORE ticks sum 0)) ;;;
  SISUpdateSeal 0 ;;;
  call (ProcFSRegisterProcess 0 0) ;;;
  modify (fun s => set_active_process_bitmap (Z.lor (active_process_bitmap s) 1) (set_process_count 1 s)).

(** ** Blocking, waking, yielding and statistics *)
Definition EEVDFProcessBlocked (i : Z) : M unit :=
  if EEVDF_MAX_PROCESSES <=? i then ret tt else
  upd_proc i (fun p => set_p_io_operations (u32 (p_io_operations p + 1)) p) ;;;
  q <-- get_rq ;;
  if i =? current_slot q then modify (set_need_schedule true) else ret tt.
Definition EEVDFWakeupTask (i : Z) : M unit :=
  p <-- get_proc i ;;
  if negb (bool_decide (p_state p = PROC_BLOCKED)) then ret tt else
  t <-- GetNS ;;
  upd_proc i (fun p => set_p_last_wakeup t (set_p_state PROC_READY p)) ;;;
  EEVDFEnqueueTask i.
Definition EEVDFCheckPreempt (i : Z) : M bool :=
  q <-- get_rq ;;
  if current_slot q =? 0 then ret true else
  p <-- get_proc i ;;
  curr <-- get_proc (current_slot q) ;;
  ret ((p_deadline p <? p_deadline curr) ||
       (u64 (p_vruntime p + EEVDF_WAKEUP_GRANULARITY) <? p_vruntime curr)).
Definition EEVDFYieldTask : M unit :=
  q <-- get_rq ;;
  if current_slot q =? 0 then ret tt else
  EEVDFUpdateCurr (current_slot q) ;;;
  upd_proc (current_slot q) (set_p_state PROC_READY) ;;;
  EEVDFEnqueueTask (current_slot q) ;;;
  modify (set_need_schedule true).
(** cpu time, wait time and preemptions, each cut to 32 bits. *)
Definition EEVDFGetProcessStats (pid : Z) : M (Z * Z * Z) :=
  r <-- EEVDFGetCurrentProcessByPID pid ;;
  match r with
  | None => ret (0, 0, 0)
  | Some i =>
      p <-- get_proc i ;;
      ret (u32 (p_cpu_time_accumulated p), u32 (p_wait_sum p), p_preemption_count p)
  end.

(** ** The scheduler interface of [src/kernel/sched/Scheduler.c], in the EEVDF build *)
Module Scheduler.
Definition SchedulerInit : M unit := EEVDFSchedInit.
Definition CreateProcess (entry_point stack : Z) : M Z := EEVDFCreateProcess entry_point stack.
(** [priv] and [flag] are bytes. *)
Definition CreateSecureProcess (entry_point priv flag stack : Z) : M Z :=
  EEVDFCreateSecureProcess entry_point (u8 priv) (u8 flag) stack.
Definition GetCurrentProcess : M Z := EEVDFGetCurrentProcess.
Definition GetCurrentProcessByPID (pid : Z) : M (option Z) := EEVDFGetCurrentProcessByPID pid.
Definition Yield : M unit := EEVDFYield.
Definition Schedule (regs : Registers) : M Registers := EEVDFSchedule regs.
Definition KillProcess (pid : Z) : M unit := EEVDFKillProcess pid.
Definition KillAllProcess : M unit := EEVDFKillAllProcesses.
Definition KillCurrentProcess : M unit := EEVDFKillCurrentProcess.
Definition GetSystemTicks : M Z := EEVDFGetSystemTicks.

(** The core capabilities do not fit the byte: a process asked for with them has none. *)
Lemma core_capabilities_lost entry_point stack :
  CreateSecureProcess entry_point EEVDF_PROC_PRIV_SYSTEM EEVDF_CAP_CORE stack =
  EEVDFCreateSecureProcess entry_point EEVDF_PROC_PRIV_SYSTEM EEVDF_CAP_NONE stack.
Proof. reflexivity. Qed.
End Scheduler.
