(* ===== verification/SchedQueue.v ===== *)
(** The run queue of the scheduler as an abstract queue: a sequence of process slots sorted
    by virtual runtime, first come first served among equals.  [rq_ok s t] ties the state of
    the scheduler to the red-black tree [t]; enqueue, dequeue and pick refine insertion,
    removal and the head of that sequence. *)
From Stdlib Require Import ZArith Lia Sorting.Sorted.
From stdpp Require Import base tactics list gmap numbers option sorting.
From S2P Require Import Prelude Crc32 RbTree RbRep RbInsert RbQueue RbDelete RbErase Ipc Eevdf Sched.

(** ** Running monadic code *)
Lemma bind_Ok {A B} (m : M A) (k : A -> M B) s a s' : m s = Ok (a, s') -> bind m k s = k a s'.
Proof. intros H. unfold bind. by rewrite H. Qed.
Ltac step H := rewrite (bind_Ok _ _ _ _ _ H).

Lemma get_proc_ok s i p : arr_get (processes s) i = Some p -> get_proc i s = Ok (p, s).
Proof. intros H. unfold get_proc. by rewrite H. Qed.
Lemma upd_proc_ok s i f p :
  arr_get (processes s) i = Some p ->
  upd_proc i f s = Ok (tt, set_processes (<[Z.to_nat i := f p]> (processes s)) s).
Proof.
  intros H. unfold upd_proc. step (get_proc_ok s i p H).
  erewrite bind_Ok; [reflexivity|]. by rewrite arr_set_some by (by eapply arr_get_range).
Qed.
Lemma set_processes_eta s : set_processes (processes s) s = s.
Proof. by destruct s. Qed.
Lemma set_vruntime_eta p : set_p_vruntime (p_vruntime p) p = p.
Proof. by destruct p. Qed.
Lemma insert_self {A} (l : list A) i x : arr_get l i = Some x -> <[Z.to_nat i := x]> l = l.
Proof.
  intros H. apply list_insert_id. unfold arr_get in H. by destruct (0 <=? i).
Qed.

(** ** The invariant *)
Definition weight_of (s : sched) (e : nat * Z) : Z :=
  match arr_get (processes s) e.2 with Some p => p_weight p | None => 0 end.
Definition sumZ (l : list Z) : Z := foldr Z.add 0 l.
(** Weights as the nice table gives them. *)
Definition weight_ok (p : EEVDFProcessControlBlock) : Prop := 1 <= p_weight p <= 88761.

Record rq_ok (s : sched) (t : tree) : Prop := {
  rk_len : length (processes s) = 64%nat;
  rk_tree : tree_ok (vruntime_of (processes s)) (rq_tree (rq s)) t;
  rk_node : forall i p n, arr_get (processes s) i = Some p -> p_rb_node p = Some n <-> (n, i) ∈ slots t;
  rk_weight : forall i p n, arr_get (processes s) i = Some p -> (n, i) ∈ slots t -> weight_ok p;
  rk_nr : nr_running (rq s) = Z.of_nat (length (slots t));
  rk_load : load_weight (rq s) = sumZ (weight_of s <$> slots t)
}.
(** The queued slots, in order. *)
Definition queue (t : tree) : list Z := (slots t).*2.

Lemma sumZ_app l1 l2 : sumZ (l1 ++ l2) = sumZ l1 + sumZ l2.
Proof. unfold sumZ. induction l1 as [|x l1 IH]; cbn [foldr app]; lia. Qed.

(** Only the keys of queued slots matter. *)
Lemma tree_ok_ext (f g : Z -> option Z) T t :
  (forall e, e ∈ slots t -> f e.2 = g e.2) -> tree_ok f T t -> tree_ok g T t.
Proof.
  intros Hfg [H1 H2 H3 H4 H5 H6 H7]. constructor; try done.
  - rewrite list.Forall_forall in *. intros e He. rewrite <-Hfg by done. by apply H6.
  - clear -Hfg H7. induction H7 as [|e l HS IH HF]; constructor.
    + apply IH. intros e' He'. apply Hfg. set_solver.
    + rewrite list.Forall_forall in *. intros e' He'. unfold key. rewrite <-!Hfg by set_solver. by apply HF.
Qed.

Section queue.
Context (s : sched) (t : tree) (HQ : rq_ok s t).

Lemma rk_slot_lt e : e ∈ slots t -> exists p, arr_get (processes s) e.2 = Some p.
Proof.
  intros He. pose proof (to_keys _ _ _ (rk_tree _ _ HQ)) as HK. rewrite list.Forall_forall in HK.
  destruct (HK e He) as [k Hk]. unfold vruntime_of in Hk.
  destruct (arr_get (processes s) e.2) as [p|]; [by exists p|done].
Qed.
Lemma rk_nodup : NoDup (queue t).
Proof.
  assert (HN : NoDup (slots t)).
  { apply (NoDup_fmap_1 fst). rewrite <-ids_slots.
    pose proof (fc_nodup _ _ _ (to_focus _ _ _ (rk_tree _ _ HQ))) as HN. cbn in HN. by rewrite app_nil_r in HN. }
  apply NoDup_fmap_2_strong; [|done]. intros [n1 i1] [n2 i2] H1 H2 E0. cbn in E0. subst i2.
  destruct (rk_slot_lt _ H1) as [p Hp]. cbn in Hp.
  apply (rk_node _ _ HQ _ _ _ Hp) in H1, H2. congruence.
Qed.
Lemma rk_queue_lt i : i ∈ queue t -> 0 <= i < 64.
Proof.
  intros Hi. apply list_elem_of_fmap in Hi as (e & -> & He). destruct (rk_slot_lt e He) as [p Hp].
  pose proof (arr_get_range _ _ _ Hp). rewrite (rk_len _ _ HQ) in *. lia.
Qed.
(** A process off the queue finds a free node: at most 63 others are queued. *)
Lemma rk_room i p : arr_get (processes s) i = Some p -> p_rb_node p = None -> (length (slots t) < 64)%nat.
Proof.
  intros Hp Hn. pose proof (arr_get_range _ _ _ Hp) as Hr. rewrite (rk_len _ _ HQ) in Hr.
  assert (Hni : i ∉ queue t).
  { intros ([n j] & -> & He)%list_elem_of_fmap. apply (rk_node _ _ HQ _ _ _ Hp) in He. congruence. }
  assert (HS : i :: queue t ⊆+ seqZ 0 64).
  { apply NoDup_submseteq; [apply list.NoDup_cons; split; [done|apply rk_nodup]|].
    intros j Hj. apply elem_of_seqZ. apply elem_of_cons in Hj as [-> |Hj%rk_queue_lt]; lia. }
  apply submseteq_length in HS. rewrite length_seqZ in HS. cbn in HS. unfold queue in HS. rewrite length_fmap in HS. lia.
Qed.
Lemma rk_load_range :
  Z.of_nat (length (slots t)) <= load_weight (rq s) <= 88761 * Z.of_nat (length (slots t)).
Proof.
  rewrite (rk_load _ _ HQ). assert (HW : forall e, e ∈ slots t -> 1 <= weight_of s e <= 88761).
  { intros [n i] He. destruct (rk_slot_lt _ He) as [p Hp]. unfold weight_of. rewrite Hp.
    by apply (rk_weight _ _ HQ _ _ _ Hp He). }
  clear HQ. induction (slots t) as [|e l IH]; cbn [fmap list_fmap sumZ foldr length]; [lia|].
  pose proof (HW e ltac:(set_solver)). assert (forall e, e ∈ l -> 1 <= weight_of s e <= 88761) by (intros; apply HW; set_solver).
  specialize (IH H0). fold (sumZ (weight_of s <$> l)). lia.
Qed.
End queue.

(** Pick: the first entry, which has the least virtual runtime. *)
Lemma EEVDFPickNext_ok s t : rq_ok s t -> EEVDFPickNext s = Ok (hd_error (queue t), s).
Proof.
  intros HQ. unfold EEVDFPickNext. step (eq_refl : get_rq s = Ok (rq s, s)).
  pose proof (rk_tree _ _ HQ) as HT. rewrite (to_left _ _ _ HT). unfold queue.
  destruct (slots t) as [|[n i] l] eqn:Es; cbn [hd_error fmap option_fmap option_map fst list_fmap]; [done|].
  assert (He : (n, i) ∈ slots t) by (rewrite Es; set_solver).
  destruct (find_node t n i He) as (c & lt & rt & z & Et).
  pose proof (to_focus _ _ _ HT) as HF. rewrite Et in HF. apply focus_plug in HF.
  unfold lift. rewrite (focus_deref _ _ _ _ _ _ _ HF). unfold bind at 1. cbn [slot].
  destruct (rk_slot_lt s t HQ _ He) as [p Hp]. cbn in Hp. step (get_proc_ok s i p Hp). done.
Qed.

Lemma gets_ok {A} (f : sched -> A) s : gets f s = Ok (f s, s).
Proof. done. Qed.
Lemma on_tree_ok {A} (f : rbt -> option (A * rbt)) s a T' :
  f (rq_tree (rq s)) = Some (a, T') -> on_tree f s = Ok (a, set_rq (set_rq_tree T' (rq s)) s).
Proof. intros H. unfold on_tree. step (eq_refl : get_rq s = Ok (rq s, s)). unfold bind at 1, lift. rewrite H. done. Qed.

(** The time slice is defined: a non-empty queue has a positive load. *)
Lemma calc_slice_ok s t p : rq_ok s t -> exists sl, calc_slice p s = Ok (sl, s) /\
  EEVDFCalcSlice (nr_running (rq s)) (load_weight (rq s)) (p_weight p) = Some sl.
Proof.
  intros HQ. unfold calc_slice. step (eq_refl : get_rq s = Ok (rq s, s)).
  pose proof (rk_load_range s t HQ) as Hl. pose proof (rk_nr _ _ HQ) as Hn. unfold EEVDFCalcSlice.
  case_if E0; [by eexists|]. zbool. case_if E1; zbool; [lia|]. by eexists.
Qed.

(** The process as it enters the queue. *)
Definition enqueued (n : nat) (v d : Z) (p : EEVDFProcessControlBlock) : EEVDFProcessControlBlock :=
  set_p_rb_node (Some n) (set_p_deadline d (set_p_vruntime v p)).
Definition counted (w : Z) (q : EEVDFRunqueue) : EEVDFRunqueue :=
  set_nr_running (nr_running q + 1) (set_load_weight (load_weight q + w) q).

Lemma weight_of_insert s s' i p p' (l : list (nat * Z)) :
  arr_get (processes s) i = Some p -> processes s' = <[Z.to_nat i := p']> (processes s) ->
  p_weight p' = p_weight p -> weight_of s' <$> l = weight_of s <$> l.
Proof.
  intros Hp HE HW. apply list_fmap_ext. intros j [n k] _. unfold weight_of. rewrite HE. cbn [snd].
  pose proof (arr_get_range _ _ _ Hp). destruct (decide (k = i)) as [-> |Hk].
  - by rewrite arr_get_insert_eq, Hp.
  - by rewrite arr_get_insert_ne by lia.
Qed.

Lemma vruntime_of_insert ps i p j : 0 <= i -> j <> i -> vruntime_of (<[Z.to_nat i := p]> ps) j = vruntime_of ps j.
Proof. intros Hi Hj. unfold vruntime_of. by rewrite arr_get_insert_ne by lia. Qed.

Lemma EEVDFEnqueueTask_ok s t i p :
  rq_ok s t -> arr_get (processes s) i = Some p -> p_state p = PROC_READY -> p_rb_node p = None -> weight_ok p ->
  let v := Z.max (p_vruntime p) (min_vruntime (rq s)) in
  exists sl n T' t' l1 l2,
    EEVDFCalcSlice (nr_running (rq s)) (load_weight (rq s)) (p_weight p) = Some sl /\
    EEVDFEnqueueTask i s =
      Ok (tt, set_rq (set_rq_tree T' (counted (p_weight p) (rq s)))
                (set_processes (<[Z.to_nat i := enqueued n v (u64 (v + sl)) p]> (processes s)) s)) /\
    rq_ok (set_rq (set_rq_tree T' (counted (p_weight p) (rq s)))
             (set_processes (<[Z.to_nat i := enqueued n v (u64 (v + sl)) p]> (processes s)) s)) t' /\
    slots t = l1 ++ l2 /\ slots t' = l1 ++ (n, i) :: l2 /\
    Forall (fun e => key (vruntime_of (processes s)) e <= v) l1 /\
    Forall (fun e => v < key (vruntime_of (processes s)) e) l2.
Proof.
  intros HQ Hp Hst Hnode Hw v. pose proof (arr_get_range _ _ _ Hp) as Hi.
  destruct (calc_slice_ok s t p HQ) as (sl & Hsl & Hsl'). exists sl.
  set (p1 := set_p_vruntime v p). set (s1 := set_processes (<[Z.to_nat i := p1]> (processes s)) s).
  unfold EEVDFEnqueueTask. step (get_proc_ok s i p Hp). rewrite Hst, bool_decide_true by done. cbn [negb].
  step (eq_refl : get_rq s = Ok (rq s, s)).
  assert (H1 : (if p_vruntime p <? min_vruntime (rq s) then upd_proc i (set_p_vruntime (min_vruntime (rq s))) else ret tt) s
               = Ok (tt, s1)).
  { subst s1 p1 v. case_if E0; zbool.
    - rewrite (upd_proc_ok s i _ p Hp). by rewrite Z.max_r by lia.
    - rewrite Z.max_l, set_vruntime_eta, (insert_self _ _ _ Hp), set_processes_eta by lia. done. }
  step H1. assert (Hp1 : arr_get (processes s1) i = Some p1) by (by apply arr_get_insert_eq).
  step (get_proc_ok s1 i p1 Hp1).
  assert (Hsl1 : calc_slice p1 s1 = Ok (sl, s1)) by (unfold calc_slice, bind, get_rq, gets, lift; cbn; by rewrite Hsl').
  step Hsl1. step (upd_proc_ok s1 i (set_p_deadline (u64 (p_vruntime p1 + sl))) p1 Hp1).
  set (p2 := set_p_deadline _ p1). set (s2 := set_processes _ s1).
  assert (Hp2 : arr_get (processes s2) i = Some p2) by (apply arr_get_insert_eq; cbn; rewrite length_insert; lia).
  pose proof (rk_load_range s t HQ) as Hl. pose proof (rk_nr _ _ HQ) as Hnr. pose proof (rk_room s t HQ i p Hp Hnode) as Hroom.
  unfold upd_rq at 1. set (s3 := set_rq (counted (p_weight p) (rq s)) s2).
  assert (H3 : modify (fun s => set_rq (set_nr_running (u32 (nr_running (rq s) + 1))
     (set_load_weight (u32 (load_weight (rq s) + p_weight p1)) (rq s))) s) s2 = Ok (tt, s3)).
  { unfold modify. cbn [rq set_processes s2 s1]. unfold s3, counted. cbn [p_weight p1 set_p_vruntime] in *.
    unfold weight_ok in Hw. by rewrite !u32_small by lia. }
  step H3. unfold EEVDFRBInsert. assert (Hp3 : arr_get (processes s3) i = Some p2) by exact Hp2.
  step (get_proc_ok s3 i p2 Hp3). change (p_rb_node p2) with (p_rb_node p). rewrite Hnode.
  step (gets_ok processes s3).
  assert (Hps : processes s3 = <[Z.to_nat i := p2]> (processes s)) by (cbn; by rewrite list_insert_insert_eq).
  assert (Hni : forall e, e ∈ slots t -> e.2 <> i).
  { intros [n' j] He E0. cbn in E0. subst j. apply (rk_node _ _ HQ _ _ _ Hp) in He. congruence. }
  assert (HT3 : tree_ok (vruntime_of (processes s3)) (rq_tree (rq s)) t).
  { eapply tree_ok_ext; [|apply (rk_tree _ _ HQ)]. intros e He. rewrite Hps, vruntime_of_insert; [done|lia|by apply Hni]. }
  assert (Hk : vruntime_of (processes s3) i = Some v).
  { unfold vruntime_of. by rewrite Hp3. }
  destruct (rb_insert_ok _ _ _ i v HT3 Hk) as [(n & T' & t' & l1 & l2 & HE & HT' & Hs & Hs' & Hnn & HA & HB)|[_ Hfull]]; [|lia].
  exists n, T', t', l1, l2. split; [exact Hsl'|].
  step (on_tree_ok (rb_insert (vruntime_of (processes s3)) i (p_vruntime p2)) s3 (Some n) T' HE).
  set (s4 := set_rq (set_rq_tree T' (rq s3)) s3).
  rewrite (upd_proc_ok s4 i _ p2) by exact Hp3.
  set (p3 := enqueued n v (u64 (v + sl)) p).
  assert (Hfin : set_processes (<[Z.to_nat i := set_p_rb_node (Some n) p2]> (processes s4)) s4 =
    set_rq (set_rq_tree T' (counted (p_weight p) (rq s))) (set_processes (<[Z.to_nat i := p3]> (processes s)) s)).
  { change (processes s4) with (processes s3). rewrite Hps, list_insert_insert_eq. reflexivity. }
  rewrite Hfin. clear Hfin.
  set (s5 := set_rq (set_rq_tree T' (counted (p_weight p) (rq s))) (set_processes (<[Z.to_nat i := p3]> (processes s)) s)).
  assert (Hkeys : forall e, e ∈ slots t -> key (vruntime_of (processes s3)) e = key (vruntime_of (processes s)) e).
  { intros e He. unfold key. rewrite Hps, vruntime_of_insert; [done|lia|by apply Hni]. }
  assert (Hps5 : processes s5 = <[Z.to_nat i := p3]> (processes s)) by reflexivity.
  split; [done|]. split; [|split; [done|split; [done|]]].
  2:{ rewrite Hs in Hkeys. rewrite list.Forall_forall in HA, HB.
      split; apply list.Forall_forall; intros e He; rewrite <-Hkeys by set_solver; auto. }
  constructor.
  - rewrite Hps5, length_insert. apply HQ.
  - eapply tree_ok_ext; [|exact HT']. intros e He. rewrite Hps5, Hps. unfold vruntime_of.
    destruct (decide (e.2 = i)) as [-> |Hne]; [by rewrite !arr_get_insert_eq by lia|by rewrite !arr_get_insert_ne by lia].
  - intros j pj m. rewrite Hps5, Hs'. destruct (decide (j = i)) as [-> |Hne].
    + rewrite arr_get_insert_eq by lia. intros [= <-]. cbn. split.
      * intros [= <-]. set_solver.
      * rewrite elem_of_app, elem_of_cons. intros [He|[[= ->]|He]]; [|done|];
          (exfalso; apply (Hni (m, i)); [rewrite Hs; set_solver|done]).
    + rewrite arr_get_insert_ne by lia. intros Hj. rewrite (rk_node _ _ HQ _ _ _ Hj), Hs.
      rewrite !elem_of_app, elem_of_cons. naive_solver.
  - intros j pj m. rewrite Hps5, Hs'. destruct (decide (j = i)) as [-> |Hne].
    + rewrite arr_get_insert_eq by lia. by intros [= <-] _.
    + rewrite arr_get_insert_ne by lia. intros Hj He. apply (rk_weight _ _ HQ _ _ m Hj).
      rewrite Hs. rewrite elem_of_app, elem_of_cons in *. naive_solver.
  - cbn. rewrite Hnr, Hs, Hs', !length_app. cbn. lia.
  - change (load_weight (rq s5)) with (load_weight (rq s) + p_weight p).
    rewrite (weight_of_insert s s5 i p p3) by done. rewrite (rk_load _ _ HQ), Hs, Hs', !fmap_app, !sumZ_app, fmap_cons.
    unfold sumZ at 4. cbn [foldr]. fold (sumZ (weight_of s <$> l2)). unfold weight_of at 4. cbn [snd]. rewrite Hp. lia.
Qed.

Definition uncounted (w : Z) (q : EEVDFRunqueue) : EEVDFRunqueue :=
  set_nr_running (nr_running q - 1) (set_load_weight (load_weight q - w) q).
Lemma set_rq_eta s : set_rq (rq s) s = s.
Proof. by destruct s. Qed.

(** A tree's removal carried over to the scheduler's invariant. *)
Lemma rq_ok_remove s t i p n T' t' l1 l2 :
  rq_ok s t -> arr_get (processes s) i = Some p -> slots t = l1 ++ (n, i) :: l2 -> slots t' = l1 ++ l2 ->
  tree_ok (vruntime_of (processes s)) T' t' ->
  rq_ok (set_rq (set_rq_tree T' (uncounted (p_weight p) (rq s)))
           (set_processes (<[Z.to_nat i := set_p_rb_node None p]> (processes s)) s)) t'.
Proof.
  intros HQ Hp Hs Hs' HT'. pose proof (arr_get_range _ _ _ Hp) as Hi.
  assert (Hni : i ∉ (l1 ++ l2).*2).
  { pose proof (rk_nodup s t HQ) as HN. unfold queue in HN. rewrite Hs, fmap_app, fmap_cons in HN. cbn in HN.
    rewrite <-Permutation_middle in HN. apply list.NoDup_cons in HN as [HN _]. by rewrite fmap_app. }
  set (s' := set_rq _ _). assert (Hps : processes s' = <[Z.to_nat i := set_p_rb_node None p]> (processes s)) by reflexivity.
  assert (Hne : forall e, e ∈ slots t' -> e.2 <> i).
  { intros e He <-. apply Hni. rewrite <-Hs'. by apply list_elem_of_fmap_2. }
  constructor.
  - rewrite Hps, length_insert. apply HQ.
  - eapply tree_ok_ext; [|exact HT']. intros e He. rewrite Hps, vruntime_of_insert; [done|lia|by apply Hne].
  - intros j pj m. rewrite Hps. destruct (decide (j = i)) as [-> |Hj].
    + rewrite arr_get_insert_eq by lia. intros [= <-]. cbn. split; [done|]. intros He. by apply Hne in He.
    + rewrite arr_get_insert_ne by lia. intros Hpj. rewrite (rk_node _ _ HQ _ _ _ Hpj), Hs, Hs'.
      rewrite !elem_of_app, elem_of_cons. naive_solver.
  - intros j pj m. rewrite Hps. intros Hpj He. assert (j <> i) by (by apply Hne in He).
    rewrite arr_get_insert_ne in Hpj by lia. apply (rk_weight _ _ HQ _ _ m Hpj). rewrite Hs. rewrite Hs' in He. set_solver.
  - cbn. rewrite (rk_nr _ _ HQ), Hs, Hs', !length_app. cbn. lia.
  - change (load_weight (rq s')) with (load_weight (rq s) - p_weight p).
    rewrite (weight_of_insert s s' i p (set_p_rb_node None p)) by done.
    rewrite (rk_load _ _ HQ), Hs, Hs', !fmap_app, !sumZ_app, fmap_cons.
    unfold sumZ at 2. cbn [foldr]. fold (sumZ (weight_of s <$> l2)). unfold weight_of at 2. cbn [snd]. rewrite Hp. lia.
Qed.

Lemma EEVDFDequeueTask_ok s t i p n :
  rq_ok s t -> arr_get (processes s) i = Some p -> p_rb_node p = Some n ->
  exists T' t' l1 l2,
    EEVDFDequeueTask i s =
      Ok (tt, set_rq (set_rq_tree T' (uncounted (p_weight p) (rq s)))
                (set_processes (<[Z.to_nat i := set_p_rb_node None p]> (processes s)) s)) /\
    rq_ok (set_rq (set_rq_tree T' (uncounted (p_weight p) (rq s)))
             (set_processes (<[Z.to_nat i := set_p_rb_node None p]> (processes s)) s)) t' /\
    slots t = l1 ++ (n, i) :: l2 /\ slots t' = l1 ++ l2.
Proof.
  intros HQ Hp Hn. assert (He : (n, i) ∈ slots t) by (by apply (rk_node _ _ HQ _ _ _ Hp)).
  destruct (rb_delete_ok _ _ _ _ _ (rk_tree _ _ HQ) He) as (T' & t' & l1 & l2 & HE & HT' & Hs & Hs').
  pose proof (rk_nr _ _ HQ) as Hnr. pose proof (rk_load _ _ HQ) as Hld.
  assert (Hw : p_weight p <= load_weight (rq s)).
  { rewrite Hld, Hs, fmap_app, fmap_cons, sumZ_app. unfold sumZ at 2. cbn [foldr]. fold (sumZ (weight_of s <$> l2)).
    unfold weight_of at 2. cbn [snd]. rewrite Hp.
    assert (HP : forall l, (forall e, e ∈ l -> e ∈ slots t) -> 0 <= sumZ (weight_of s <$> l)).
    { clear -HQ. induction l as [|[m j] l IH]; intros Hin; [cbn; lia|]. rewrite fmap_cons. unfold sumZ. cbn [foldr].
      fold (sumZ (weight_of s <$> l)). assert (Hm : (m, j) ∈ slots t) by (apply Hin; set_solver).
      destruct (rk_slot_lt s t HQ _ Hm) as [pj Hpj]. pose proof (rk_weight _ _ HQ _ _ _ Hpj Hm) as Hwj.
      unfold weight_of at 1. rewrite Hpj. unfold weight_ok in Hwj. specialize (IH ltac:(set_solver)). lia. }
    rewrite Hs in HP. pose proof (HP l1 ltac:(set_solver)). pose proof (HP l2 ltac:(set_solver)). lia. }
  exists T', t', l1, l2. split; [|split; [by eapply rq_ok_remove|done]].
  unfold EEVDFDequeueTask. step (get_proc_ok s i p Hp). rewrite Hn. unfold upd_rq.
  set (s1 := set_rq (uncounted (p_weight p) (rq s)) s).
  assert (H1 : modify (fun s => set_rq (let q := set_load_weight (if p_weight p <=? load_weight (rq s) then load_weight (rq s) - p_weight p else 0) (rq s) in
     if 0 <? nr_running q then set_nr_running (nr_running q - 1) q else q) s) s = Ok (tt, s1)).
  { unfold modify. rewrite (proj2 (Z.leb_le _ _)) by lia. cbn [nr_running set_load_weight].
    rewrite (proj2 (Z.ltb_lt 0 (nr_running (rq s)))); [done|]. rewrite Hnr, Hs, length_app. cbn. lia. }
  step H1. unfold EEVDFRBDelete. step (get_proc_ok s1 i p Hp). rewrite Hn.
  step (on_tree_ok (fun T => T'0 ← rb_delete n T; Some (tt, T'0)) s1 tt T' ltac:(cbn; by rewrite HE)).
  rewrite (upd_proc_ok _ i _ p) by exact Hp. done.
Qed.

(** Tasks that are not queued are left alone. *)
Lemma EEVDFDequeueTask_none s i p :
  arr_get (processes s) i = Some p -> p_rb_node p = None -> EEVDFDequeueTask i s = Ok (tt, s).
Proof. intros Hp Hn. unfold EEVDFDequeueTask. step (get_proc_ok s i p Hp). by rewrite Hn. Qed.
