(* ===== verification/SchedTerm.v ===== *)
(** The scheduler's integrity seals (what [SISSealPCB] computes, and which changes of a process control
    block [SISVerifyPCB] notices) and termination: what ending a process does to the state, and who may do it. *)
From Stdlib Require Import ZArith Lia Sorting.Sorted.
From stdpp Require Import base tactics list gmap numbers option sorting.
From S2P Require Import Prelude Crc32 RbTree Ipc Eevdf Sched SchedQueue RbRep RbInsert RbQueue RbErase.

(** The checksum table exists (the first seal generates it) and every slot has a key. *)
Record sis_ready (s : sched) : Prop := {
  sr_crc : crc_ok (crc s);
  sr_table : table_generated (crc s) = true;
  sr_keys : length (sis_process_keys s) = 64%nat
}.
(** A control block with its fields inside their C types. *)
Definition fields_ok (p : EEVDFProcessControlBlock) : Prop :=
  0 <= p_pid p < 2 ^ 32 /\ 0 <= p_privilege_level p < 2 ^ 8.

Lemma le_bytes_byte n z : Forall is_byte (le_bytes n z).
Proof.
  revert z. induction n as [|n IH]; intros z; cbn [le_bytes]; constructor; [|done]. apply u8_range.
Qed.
Lemma set_crc_eta s : set_crc (crc s) s = s.
Proof. by destruct s. Qed.
Lemma SISFastHash_ok s a b :
  sis_ready s -> SISFastHash a b s = Ok (crc_ref (le_bytes 8 a ++ le_bytes 8 b), s).
Proof.
  intros [H1 H2 _]. unfold SISFastHash. step (gets_ok crc s). unfold bind at 1, lift.
  rewrite CRC32_pure by (done || rewrite Forall_app; split; apply le_bytes_byte).
  unfold bind, modify, ret. cbn [fst snd]. by rewrite set_crc_eta.
Qed.

Definition key_of (s : sched) (i : Z) : Z := default 0 (arr_get (sis_process_keys s) i).
Definition seal_of (s : sched) (p : EEVDFProcessControlBlock) (i : Z) : Z :=
  crc_ref (le_bytes 8 (critical p) ++ le_bytes 8 (key_of s i)).
Definition sealed (s : sched) (i : Z) (p : EEVDFProcessControlBlock) : Prop := p_sis_seal p = seal_of s p i.

Lemma SISSealPCB_ok s p i : sis_ready s -> 0 <= i < 64 -> SISSealPCB p i s = Ok (seal_of s p i, s).
Proof.
  intros HS Hi. unfold SISSealPCB, seal_of, key_of.
  destruct (arr_get_some (sis_process_keys s) i) as [k Hk]; [rewrite (sr_keys _ HS); lia|].
  unfold bind at 1. rewrite Hk. cbn [lift default]. by apply SISFastHash_ok.
Qed.
Lemma SISVerifyPCB_ok s p i :
  sis_ready s -> 0 <= i < 64 -> SISVerifyPCB p i s = Ok (p_sis_seal p =? seal_of s p i, s).
Proof.
  intros HS Hi. unfold SISVerifyPCB, EEVDF_MAX_PROCESSES. rewrite (proj2 (Z.leb_gt 64 i)) by lia.
  by step (SISSealPCB_ok s p i HS Hi).
Qed.
Lemma SISUpdateSeal_ok s i p :
  sis_ready s -> 0 <= i < 64 -> arr_get (processes s) i = Some p ->
  SISUpdateSeal i s = Ok (tt, set_processes (<[Z.to_nat i := set_p_sis_seal (seal_of s p i) p]> (processes s)) s).
Proof.
  intros HS Hi Hp. unfold SISUpdateSeal. step (get_proc_ok s i p Hp). step (SISSealPCB_ok s p i HS Hi).
  by apply upd_proc_ok.
Qed.

(** Only state, privilege and pid are sealed. *)
Lemma seal_of_same s i p p' :
  p_state p = p_state p' -> p_privilege_level p = p_privilege_level p' -> p_pid p = p_pid p' ->
  seal_of s p i = seal_of s p' i.
Proof. intros E1 E2 E3. unfold seal_of, critical. by rewrite E1, E2, E3. Qed.

(** The sealed word in memory: state, 0, privilege, 0, then the pid. *)
Lemma state_val_range st : 0 <= state_val st < 8.
Proof. by destruct st. Qed.
Lemma state_val_inj a b : state_val a = state_val b -> a = b.
Proof. by destruct a, b. Qed.
Lemma critical_sum p :
  fields_ok p -> critical p = p_pid p * 2 ^ 32 + p_privilege_level p * 2 ^ 16 + state_val (p_state p).
Proof.
  intros [Hpid Hpriv]. unfold critical. pose proof (state_val_range (p_state p)) as Hst.
  rewrite u64_small by (rewrite Z.shiftl_mul_pow2; lia).
  change (Z.shiftl (p_pid p) 32) with (Z.shiftl (p_pid p) (16 + 16)). rewrite <-Z.shiftl_shiftl, <-Z.shiftl_lor by lia.
  rewrite (lor_shl_add (p_pid p)) by lia. rewrite lor_shl_add by lia. lia.
Qed.
Lemma le_bytes_app m n z : le_bytes (m + n) z = le_bytes m z ++ le_bytes n (Z.shiftr z (8 * Z.of_nat m)).
Proof.
  revert z. induction m as [|m IH]; intros z; cbn [Nat.add le_bytes app]; [by rewrite Z.shiftr_0_r|].
  rewrite IH, Z.shiftr_shiftr by lia. do 4 f_equal. lia.
Qed.
Lemma critical_bytes p :
  fields_ok p -> le_bytes 8 (critical p) = [state_val (p_state p); 0; p_privilege_level p; 0] ++ le_bytes 4 (p_pid p).
Proof.
  intros HF. rewrite critical_sum by done. destruct HF as [Hpid Hpriv].
  pose proof (state_val_range (p_state p)) as Hst. set (st := state_val (p_state p)) in *.
  set (w := p_pid p) in *. set (v := p_privilege_level p) in *. clearbody st w v.
  rewrite (le_bytes_app 4 4). f_equal.
  - cbn [le_bytes]. unfold u8. rewrite !Z.shiftr_shiftr by lia. rewrite !Z.shiftr_div_pow2 by lia.
    change (2 ^ (8 + 8 + 8)) with 16777216. change (2 ^ (8 + 8)) with 65536. change (2 ^ 8) with 256.
    change (2 ^ 16) with 65536. change (2 ^ 32) with 4294967296.
    f_equal; [dlia|f_equal; [dlia|f_equal; [dlia|f_equal; dlia]]].
  - f_equal. rewrite Z.shiftr_div_pow2 by lia. change (2 ^ (8 * Z.of_nat 4)) with (2 ^ 32). dlia.
Qed.

(** A change of state or privilege, or of the pid alone, changes the seal. *)
Lemma seal_of_low s i p p' :
  fields_ok p -> fields_ok p' -> p_pid p = p_pid p' ->
  (p_state p <> p_state p' \/ p_privilege_level p <> p_privilege_level p') -> seal_of s p i <> seal_of s p' i.
Proof.
  intros HF HF' Epid Hd. unfold seal_of. rewrite !critical_bytes, <-Epid, <-!app_assoc by done.
  pose proof (state_val_range (p_state p)). pose proof (state_val_range (p_state p')).
  destruct HF as [_ Hv], HF' as [_ Hv'].
  apply (crc_ref_window [] [state_val (p_state p); 0; p_privilege_level p; 0]
           [state_val (p_state p'); 0; p_privilege_level p'; 0]); try done.
  - repeat constructor; unfold is_byte; lia.
  - repeat constructor; unfold is_byte; lia.
  - rewrite Forall_app. split; apply le_bytes_byte.
  - intros [= E1 E2]. destruct Hd as [Hd|Hd]; [|done]. apply Hd. by apply state_val_inj.
Qed.
Lemma le_bytes4_inj a b : 0 <= a < 2 ^ 32 -> 0 <= b < 2 ^ 32 -> le_bytes 4 a = le_bytes 4 b -> a = b.
Proof.
  intros Ha Hb. cbn [le_bytes]. rewrite !Z.shiftr_shiftr by lia. unfold u8.
  rewrite !Z.shiftr_div_pow2 by lia. cbn [Z.add Pos.add Pos.succ].
  intros [= E0 E1 E2 E3]. change (2 ^ 16) with 65536 in *. change (2 ^ 24) with 16777216 in *. dlia.
Qed.
Lemma seal_of_pid s i p p' :
  fields_ok p -> fields_ok p' -> p_pid p <> p_pid p' ->
  p_state p = p_state p' -> p_privilege_level p = p_privilege_level p' -> seal_of s p i <> seal_of s p' i.
Proof.
  intros HF HF' Epid E1 E2. unfold seal_of. rewrite !critical_bytes, <-E1, <-E2, <-!app_assoc by done.
  pose proof (state_val_range (p_state p)). destruct HF as [Hpid Hv], HF' as [Hpid' Hv'].
  apply crc_ref_window; try (cbn; lia); try apply le_bytes_byte; try done.
  - repeat constructor; unfold is_byte; lia.
  - intros E0. apply Epid. by apply le_bytes4_inj.
Qed.
Lemma seal_of_keys s s' p i : sis_process_keys s' = sis_process_keys s -> seal_of s' p i = seal_of s p i.
Proof. intros E1. unfold seal_of, key_of. by rewrite E1. Qed.
Lemma sealed_same s s' i p p' :
  sis_process_keys s' = sis_process_keys s -> p_state p' = p_state p -> p_privilege_level p' = p_privilege_level p ->
  p_pid p' = p_pid p -> p_sis_seal p' = p_sis_seal p -> sealed s i p -> sealed s' i p'.
Proof.
  intros Ek E1 E2 E3 E4 H. unfold sealed in *. rewrite E4, (seal_of_keys s s' p' i Ek), H. by apply seal_of_same.
Qed.
(** A seal is never computed by conversion. *)
#[global] Opaque seal_of.

(** * Termination: what ending a process does to the scheduler's state, and who may do it. *)
(** ** Frame lemmas for the run-queue invariant *)
Lemma rq_ok_ext s s' t :
  processes s' = processes s -> rq_tree (rq s') = rq_tree (rq s) -> nr_running (rq s') = nr_running (rq s) ->
  load_weight (rq s') = load_weight (rq s) -> rq_ok s t -> rq_ok s' t.
Proof.
  intros E1 E2 E3 E4 [H1 H2 H3 H4 H5 H6]. constructor; rewrite ?E1, ?E2, ?E3, ?E4; try done.
  rewrite H6. f_equal. apply list_fmap_ext. intros ? e _. unfold weight_of. by rewrite E1.
Qed.
(** A write to a control block that keeps its node and weight, and its key if it is queued. *)
Lemma rq_ok_upd s t i p p' :
  rq_ok s t -> arr_get (processes s) i = Some p -> p_rb_node p' = p_rb_node p -> p_weight p' = p_weight p ->
  (p_vruntime p' = p_vruntime p \/ p_rb_node p = None) ->
  rq_ok (set_processes (<[Z.to_nat i := p']> (processes s)) s) t.
Proof.
  intros HQ Hp En Ew Ev. pose proof (arr_get_range _ _ _ Hp) as Hi. set (s' := set_processes _ s).
  assert (Hps : processes s' = <[Z.to_nat i := p']> (processes s)) by reflexivity.
  assert (Hcase : forall j pj, arr_get (processes s') j = Some pj ->
    exists qj, arr_get (processes s) j = Some qj /\ p_rb_node pj = p_rb_node qj /\ p_weight pj = p_weight qj).
  { intros j pj. rewrite Hps. destruct (decide (j = i)) as [-> |Hne].
    - rewrite arr_get_insert_eq by lia. intros [= <-]. by exists p.
    - rewrite arr_get_insert_ne by lia. intros. by exists pj. }
  constructor.
  - rewrite Hps, length_insert. apply HQ.
  - eapply tree_ok_ext; [|apply (rk_tree _ _ HQ)]. intros [n j] He. cbn [snd]. rewrite Hps.
    destruct (decide (j = i)) as [-> |Hne]; [|by rewrite vruntime_of_insert by lia].
    unfold vruntime_of. rewrite Hp, arr_get_insert_eq by lia. cbn. destruct Ev as [-> |Ev]; [done|].
    apply (rk_node _ _ HQ _ _ _ Hp) in He. congruence.
  - intros j pj n Hj. destruct (Hcase j pj Hj) as (qj & Hq & -> & _). by apply (rk_node _ _ HQ).
  - intros j pj n Hj He. destruct (Hcase j pj Hj) as (qj & Hq & _ & Ewj). unfold weight_ok. rewrite Ewj.
    by apply (rk_weight _ _ HQ _ _ n Hq).
  - apply (rk_nr _ _ HQ).
  - rewrite (weight_of_insert s s' i p p') by done. apply (rk_load _ _ HQ).
Qed.
Lemma set_rb_node_eta p : p_rb_node p = None -> set_p_rb_node None p = p.
Proof. destruct p. cbn. by intros ->. Qed.

(** Taking a process off the queue, whether or not it was on it. *)
Lemma dequeue_any s t i p :
  rq_ok s t -> arr_get (processes s) i = Some p ->
  exists q' t', EEVDFDequeueTask i s =
      Ok (tt, set_rq q' (set_processes (<[Z.to_nat i := set_p_rb_node None p]> (processes s)) s)) /\
    rq_ok (set_rq q' (set_processes (<[Z.to_nat i := set_p_rb_node None p]> (processes s)) s)) t' /\
    (forall e, e ∈ slots t' <-> e ∈ slots t /\ e.2 <> i) /\
    min_vruntime q' = min_vruntime (rq s) /\ current_slot q' = current_slot (rq s).
Proof.
  intros HQ Hp. destruct (p_rb_node p) as [n|] eqn:Hn.
  - destruct (EEVDFDequeueTask_ok s t i p n HQ Hp Hn) as (T' & t' & l1 & l2 & HE & HQ' & Hs & Hs').
    eexists _, t'. split; [exact HE|]. split; [exact HQ'|]. split; [|done].
    pose proof (rk_nodup s t HQ) as HN. unfold queue in HN. rewrite Hs, fmap_app, fmap_cons in HN. cbn in HN.
    rewrite <-Permutation_middle in HN. apply list.NoDup_cons in HN as [HN _]. rewrite <-fmap_app in HN.
    intros e. rewrite Hs, Hs', !elem_of_app, elem_of_cons. split.
    + intros He. split; [tauto|]. intros <-. apply HN. apply list_elem_of_fmap_2. by rewrite elem_of_app.
    + intros [[He|[-> |He]] Hne]; [by left|done|by right].
  - exists (rq s), t. rewrite (set_rb_node_eta p Hn), (insert_self _ _ _ Hp), set_processes_eta, set_rq_eta.
    split; [by apply (EEVDFDequeueTask_none s i p)|]. split; [done|]. split; [|done].
    intros [m j]. split; [|tauto]. intros He. split; [done|]. cbn. intros ->.
    apply (rk_node _ _ HQ _ _ _ Hp) in He. congruence.
Qed.

(** ** The termination queue *)
Record term_ok (s : sched) : Prop := {
  tk_len : length (termination_queue s) = 64%nat;
  tk_tail : 0 <= term_queue_tail s < 64;
  tk_count : 0 <= term_queue_count s < 64
}.
Lemma AddToTerminationQueueAtomic_ok s i :
  term_ok s -> exists q, AddToTerminationQueueAtomic i s =
    Ok (tt, set_term_queue_count (term_queue_count s + 1)
              (set_term_queue_tail ((term_queue_tail s + 1) mod 64) (set_termination_queue q s))) /\
    q = <[Z.to_nat (term_queue_tail s) := i]> (termination_queue s).
Proof.
  intros [H1 H2 H3]. unfold AddToTerminationQueueAtomic, EEVDF_MAX_PROCESSES. step (gets_ok term_queue_tail s).
  step (gets_ok term_queue_count s). rewrite (proj2 (Z.leb_gt 64 _)) by lia.
  eexists. split; [|reflexivity]. unfold bind, modify. rewrite arr_set_some by (rewrite H1; lia). cbn [lift].
  by rewrite !u32_small by (cbn; lia).
Qed.

(** ** Ending a process *)
Definition zombie (t : Z) (reason : TerminationReason) (code seal : Z) (p : EEVDFProcessControlBlock)
    : EEVDFProcessControlBlock :=
  set_p_rb_node None (set_p_sis_seal seal (set_p_state PROC_ZOMBIE
    (set_p_termination_time t (set_p_exit_code code (set_p_term_reason reason (set_p_state PROC_DYING p)))))).

(** The slots, keys and time that termination leaves alone. *)
Definition same_env (s s' : sched) : Prop :=
  sis_process_keys s' = sis_process_keys s /\ crc s' = crc s /\ APICticks s' = APICticks s /\ APIC_HZ s' = APIC_HZ s /\
  pid_bitmap s' = pid_bitmap s /\ active_process_bitmap s' = active_process_bitmap s /\
  current_process s' = current_process s /\ process_count s' = process_count s /\
  scheduler_calls s' = scheduler_calls s /\ current_slot (rq s') = current_slot (rq s).
Lemma sis_ready_env s s' : same_env s s' -> sis_ready s -> sis_ready s'.
Proof. intros (E1 & E2 & _) [H1 H2 H3]. constructor; by rewrite ?E1, ?E2. Qed.
Lemma seal_of_env s s' p i : same_env s s' -> seal_of s' p i = seal_of s p i.
Proof. intros (E1 & _). by apply seal_of_keys. Qed.
#[export] Instance same_env_preorder : PreOrder same_env.
Proof. unfold same_env. split; [by intros s|]. intros a b c H1 H2. intuition congruence. Qed.

Lemma set_need_schedule_eta s : set_need_schedule (need_schedule s) s = s.
Proof. by destruct s. Qed.
Lemma same_env_set_processes s l : same_env s (set_processes l s).
Proof. by repeat split. Qed.
(** Sealing writes only the seal, and the process is sealed afterwards. *)
Lemma reseal_ok s t i p :
  rq_ok s t -> sis_ready s -> arr_get (processes s) i = Some p ->
  exists p', SISUpdateSeal i s = Ok (tt, set_processes (<[Z.to_nat i := p']> (processes s)) s) /\
    p' = set_p_sis_seal (p_sis_seal p') p /\
    rq_ok (set_processes (<[Z.to_nat i := p']> (processes s)) s) t /\
    sealed (set_processes (<[Z.to_nat i := p']> (processes s)) s) i p'.
Proof.
  intros HQ HS Hp. pose proof (arr_get_range _ _ _ Hp) as Hi. rewrite (rk_len _ _ HQ) in Hi.
  exists (set_p_sis_seal (seal_of s p i) p). split; [by apply SISUpdateSeal_ok|]. split; [done|].
  split; [by eapply rq_ok_upd; [exact HQ|exact Hp|done|done|left]|].
  unfold sealed. symmetry. etrans; [apply (seal_of_env s), same_env_set_processes|].
  transitivity (seal_of s p i); [by apply seal_of_same|reflexivity].
Qed.

(** The dying process as it is marked and sealed, still on the queue. *)
Definition marked (t : Z) (reason : TerminationReason) (code seal : Z) (p : EEVDFProcessControlBlock)
    : EEVDFProcessControlBlock :=
  set_p_sis_seal seal (set_p_state PROC_ZOMBIE
    (set_p_termination_time t (set_p_exit_code code (set_p_term_reason reason (set_p_state PROC_DYING p))))).
Definition same_term (s s' : sched) : Prop :=
  termination_queue s' = termination_queue s /\ term_queue_tail s' = term_queue_tail s /\
  term_queue_count s' = term_queue_count s /\ total_processes s' = total_processes s /\
  term_queue_head s' = term_queue_head s /\ calls s' = calls s.
Lemma mark_sealed held s t i p reason code :
  rq_ok s t -> sis_ready s -> arr_get (processes s) i = Some p ->
  exists s' p', mark_ended held i reason code s = (lock_runqueue held ;;; EEVDFDequeueTask i ;;; AddToTerminationQueueAtomic i) s' /\
    rq_ok s' t /\ same_env s s' /\ same_term s s' /\
    processes s' = <[Z.to_nat i := p']> (processes s) /\
    p' = marked (APICticks s) reason code (p_sis_seal p') p /\ sealed s' i p'.
Proof.
  intros HQ HS Hp. pose proof (arr_get_range _ _ _ Hp) as Hi. pose proof (rk_len _ _ HQ) as Hlen.
  unfold mark_ended. step (gets_ok APICticks s).
  set (f1 := fun p => set_p_termination_time _ _). step (upd_proc_ok s i f1 p Hp). set (s1 := set_processes _ s).
  assert (HQ1 : rq_ok s1 t) by (eapply rq_ok_upd; [exact HQ|exact Hp|done|done|by left]).
  assert (Hp1 : arr_get (processes s1) i = Some (f1 p)) by (by apply arr_get_insert_eq).
  unfold clear_ready. erewrite bind_Ok by reflexivity. set (s2 := set_ready_process_bitmap _ s1).
  step (eq_refl : get_rq s2 = Ok (rq s2, s2)).
  assert (H3 : exists b, (if i =? current_slot (rq s2) then modify (set_need_schedule true) else ret tt) s2 =
    Ok (tt, set_need_schedule b s2)).
  { case_if E0; [by exists true|]. exists (need_schedule s2). by rewrite set_need_schedule_eta. }
  destruct H3 as [b H3]. step H3. set (s3 := set_need_schedule b s2).
  step (upd_proc_ok s3 i (set_p_state PROC_ZOMBIE) (f1 p) Hp1).
  set (p4 := set_p_state PROC_ZOMBIE (f1 p)). set (s4 := set_processes _ s3).
  assert (Hps4 : processes s4 = <[Z.to_nat i := p4]> (processes s)) by (cbn; by rewrite list_insert_insert_eq).
  assert (Hp4 : arr_get (processes s4) i = Some p4) by (rewrite Hps4; by apply arr_get_insert_eq).
  assert (HQ4 : rq_ok s4 t).
  { eapply (rq_ok_upd s3 t i (f1 p) p4); [|exact Hp1|done|done|by left]. by eapply (rq_ok_ext s1). }
  assert (HS4 : sis_ready s4) by (by destruct HS; constructor).
  assert (HE4 : same_env s s4) by (by repeat split).
  assert (HT4 : same_term s s4) by (by repeat split).
  destruct (reseal_ok s4 t i p4 HQ4 HS4 Hp4) as (p5 & HE & Hp5 & HQ5 & Hseal). step HE.
  eexists _, p5. split; [reflexivity|]. split; [exact HQ5|].
  split; [etrans; [exact HE4|apply same_env_set_processes]|]. split; [exact HT4|].
  split; [cbn [processes set_processes]; rewrite Hps4; apply list_insert_insert_eq|].
  split; [exact Hp5|exact Hseal].
Qed.

Lemma mark_ended_ok s t i p reason code :
  rq_ok s t -> sis_ready s -> term_ok s -> arr_get (processes s) i = Some p ->
  exists s' t' seal, mark_ended false i reason code s = Ok (tt, s') /\ rq_ok s' t' /\ same_env s s' /\
    processes s' = <[Z.to_nat i := zombie (APICticks s) reason code seal p]> (processes s) /\
    sealed s' i (zombie (APICticks s) reason code seal p) /\
    (forall e, e ∈ slots t' <-> e ∈ slots t /\ e.2 <> i) /\
    term_queue_count s' = term_queue_count s + 1 /\ term_queue_head s' = term_queue_head s /\
    termination_queue s' = <[Z.to_nat (term_queue_tail s) := i]> (termination_queue s) /\
    term_queue_tail s' = (term_queue_tail s + 1) mod 64 /\
    total_processes s' = total_processes s /\ calls s' = calls s.
Proof.
  intros HQ HS HT Hp. pose proof (arr_get_range _ _ _ Hp) as Hi. pose proof (rk_len _ _ HQ) as Hlen.
  destruct (mark_sealed false s t i p reason code HQ HS Hp) as (s5 & p5 & -> & HQ5 & HE5 & HT5 & Hps5 & Hp5e & Hseal).
  assert (Hp5 : arr_get (processes s5) i = Some p5) by (rewrite Hps5; by apply arr_get_insert_eq).
  destruct (dequeue_any s5 t i p5 HQ5 Hp5) as (q' & t' & HE6 & HQ6 & Hsl & Hmin & Hcur).
  step (eq_refl : lock_runqueue false s5 = Ok (tt, s5)). step HE6. set (s6 := set_rq q' _) in *.
  assert (HE : same_env s5 s6) by (repeat split; exact Hcur). assert (HT' : same_term s5 s6) by (by repeat split).
  assert (Hps6 : processes s6 = <[Z.to_nat i := set_p_rb_node None p5]> (processes s)).
  { unfold s6. cbn [processes set_rq set_processes]. rewrite Hps5. apply list_insert_insert_eq. }
  clearbody s6. destruct HT as [HT1 HT2 HT3], HT5 as (T1 & T2 & T3 & T4 & T5 & T6), HT' as (U1 & U2 & U3 & U4 & U5 & U6).
  assert (HT6 : term_ok s6) by (constructor; congruence).
  destruct (AddToTerminationQueueAtomic_ok s6 i HT6) as (tq & HE7 & Htq). rewrite HE7.
  assert (Hz : set_p_rb_node None p5 = zombie (APICticks s) reason code (p_sis_seal p5) p)
    by (rewrite Hp5e at 1; reflexivity).
  eexists _, t', (p_sis_seal p5). split; [reflexivity|].
  split; [by eapply (rq_ok_ext s6)|].
  assert (HF : same_env s6 (set_term_queue_count (term_queue_count s6 + 1)
              (set_term_queue_tail ((term_queue_tail s6 + 1) mod 64) (set_termination_queue tq s6)))) by (by repeat split).
  split; [by repeat (etrans; [eassumption|])|]. rewrite <-Hz.
  split; [exact Hps6|]. split.
  { apply (sealed_same s5 _ i p5); [|reflexivity..|exact Hseal]. etrans; [apply HF|apply HE]. }
  split; [exact Hsl|]. cbn [term_queue_count term_queue_head termination_queue term_queue_tail total_processes calls
    set_term_queue_count set_term_queue_tail set_termination_queue].
  rewrite Htq. repeat split; congruence.
Qed.

(** ** Finding a process *)
Lemma arr_get_cons {A} (x : A) l i : 0 < i -> arr_get (x :: l) i = arr_get l (i - 1).
Proof.
  intros Hi. unfold arr_get. rewrite !(proj2 (Z.leb_le 0 _)) by lia.
  by replace (Z.to_nat i) with (S (Z.to_nat (i - 1))) by lia.
Qed.
Lemma find_pid_spec (ps : list EEVDFProcessControlBlock) k pid i :
  find_pid ps k pid = Some i ->
  exists p, arr_get ps (i - k) = Some p /\ p_pid p = pid /\ p_state p <> PROC_TERMINATED.
Proof.
  revert k. induction ps as [|q ps IH]; intros k; cbn [find_pid]; [done|].
  case_if E0.
  - intros [= <-]. exists q. rewrite Z.sub_diag. apply andb_true_iff in E0 as [E1 E2].
    split; [done|]. split; [by apply Z.eqb_eq|]. apply negb_true_iff, bool_decide_eq_false in E2. done.
  - intros H. destruct (IH (k + 1) H) as (p & Hp & Hrest). exists p. split; [|done].
    pose proof (arr_get_range _ _ _ Hp) as Hr. rewrite arr_get_cons by lia. by rewrite <-Z.sub_add_distr.
Qed.
Lemma find_pid_none (ps : list EEVDFProcessControlBlock) k pid i p :
  find_pid ps k pid = None -> arr_get ps i = Some p -> p_pid p = pid -> p_state p = PROC_TERMINATED.
Proof.
  revert k i. induction ps as [|q ps IH]; intros k i; cbn [find_pid].
  - intros _ Hp. apply arr_get_range in Hp. cbn in Hp. lia.
  - case_if E0; [done|]. intros H Hp Hpid. pose proof (arr_get_range _ _ _ Hp) as Hr.
    destruct (decide (i = 0)) as [-> |Hi].
    + cbn in Hp. injection Hp as ->. apply andb_false_iff in E0 as [E0|E0].
      * apply Z.eqb_neq in E0. done.
      * by apply negb_false_iff, bool_decide_eq_true in E0.
    + apply (IH (k + 1) (i - 1) H); [|done]. by rewrite arr_get_cons in Hp by lia.
Qed.
(** Live processes have different pids. *)
Definition pids_unique (ps : list EEVDFProcessControlBlock) : Prop :=
  forall i j p q, arr_get ps i = Some p -> arr_get ps j = Some q -> p_pid p = p_pid q ->
    p_state p <> PROC_TERMINATED -> p_state q <> PROC_TERMINATED -> i = j.
Lemma find_pid_slot ps i p :
  pids_unique ps -> arr_get ps i = Some p -> p_state p <> PROC_TERMINATED -> find_pid ps 0 (p_pid p) = Some i.
Proof.
  intros HU Hp Hst. destruct (find_pid ps 0 (p_pid p)) as [j|] eqn:E0.
  - destruct (find_pid_spec _ _ _ _ E0) as (q & Hq & Hpid & Hstq). rewrite Z.sub_0_r in Hq.
    f_equal. by apply (HU j i q p).
  - destruct Hst. by eapply (find_pid_none ps 0 (p_pid p) i).
Qed.

(** ** The deadly termination *)
Lemma EEVDFASTerminate_ok s t pid i p :
  rq_ok s t -> sis_ready s -> term_ok s -> find_pid (processes s) 0 pid = Some i -> arr_get (processes s) i = Some p ->
  exists s' t' seal, EEVDFASTerminate pid s = Ok (tt, s') /\ rq_ok s' t' /\ same_env s s' /\
    processes s' = <[Z.to_nat i := zombie (APICticks s) TERM_SECURITY 666 seal p]> (processes s) /\
    sealed s' i (zombie (APICticks s) TERM_SECURITY 666 seal p) /\
    (forall e, e ∈ slots t' <-> e ∈ slots t /\ e.2 <> i) /\
    term_queue_count s' = term_queue_count s + 1 /\ term_queue_head s' = term_queue_head s /\
    termination_queue s' = <[Z.to_nat (term_queue_tail s) := i]> (termination_queue s) /\
    calls s' = calls s ++ [ProcFSUnregisterProcess pid].
Proof.
  intros HQ HS HT Hf Hp. pose proof (arr_get_range _ _ _ Hp) as Hi. rewrite (rk_len _ _ HQ) in Hi.
  destruct (mark_ended_ok s t i p TERM_SECURITY 666 HQ HS HT Hp)
    as (s1 & t' & seal & HE & HQ1 & HE1 & Hps & Hseal & Hsl & Hc & Hh & Htq & _ & _ & Hcalls).
  unfold EEVDFASTerminate, EEVDFASTerminate_holding, EEVDFGetCurrentProcessByPID.
  assert (H0 : (ps <-- gets processes ;; ret (find_pid ps 0 pid)) s = Ok (Some i, s)) by (by unfold bind, gets, ret; rewrite Hf).
  step H0. unfold EEVDF_MAX_PROCESSES. rewrite (proj2 (Z.leb_gt 64 i)) by lia. step (get_proc_ok s i p Hp).
  destruct (find_pid_spec _ _ _ _ Hf) as (q & Hq & _ & Hst). rewrite Z.sub_0_r, Hp in Hq. injection Hq as <-.
  rewrite bool_decide_false by done. step HE.
  eexists _, t', seal. split; [reflexivity|]. split; [by eapply (rq_ok_ext s1)|].
  split; [etrans; [exact HE1|by repeat split]|]. split; [exact Hps|].
  split; [by apply (sealed_same s1 _ i (zombie (APICticks s) TERM_SECURITY 666 seal p)); [reflexivity..|exact Hseal]|].
  split; [exact Hsl|]. split; [exact Hc|]. split; [exact Hh|]. split; [exact Htq|].
  cbn [calls set_calls set_total_processes]. by rewrite Hcalls.
Qed.
