(* ===== verification/SchedSafe.v ===== *)
(** Memory safety of the scheduler: a small weakest-precondition calculus for the scheduler's
    monad, the invariant of the process table, and that every operation either keeps it or
    ends in a kernel PANIC.  An access outside an array, a NULL dereference, a division by
    zero or an exhausted loop bound is a [Fault], which no operation reaches; only a tick can
    [Hang]. *)
From Stdlib Require Import ZArith Lia Sorting.Sorted.
From stdpp Require Import base tactics list gmap numbers option sorting.
From S2P Require Import Prelude Crc32 RbTree RbRep RbInsert RbQueue RbErase Ipc IpcQueue Eevdf Sched SchedQueue SchedTerm.

(** ** Running without a fault *)
(** [H]: whether the command may hang. *)
Definition runs_or {A} (H : Prop) (s : sched) (m : M A) (Q : A -> sched -> Prop) : Prop :=
  match m s with Ok (a, s') => Q a s' | Panic => True | Hang => H | Fault => False end.
Notation runs := (runs_or False).

Lemma runs_bind [A B H] s (m : M A) (k : A -> M B) Q :
  runs_or H s m (fun a s' => runs_or H s' (k a) Q) -> runs_or H s (bind m k) Q.
Proof. unfold runs_or, bind. by destruct (m s) as [[a s']| | |]. Qed.
Lemma runs_Ok [A H] s (m : M A) a s' Q : m s = Ok (a, s') -> Q a s' -> runs_or H s m Q.
Proof. unfold runs_or. by intros ->. Qed.
Lemma runs_lift [A] [H0 H : Prop] s (m : M A) (Q Q' : A -> sched -> Prop) :
  runs_or H0 s m Q -> (H0 -> H) -> (forall a s', Q a s' -> Q' a s') -> runs_or H s m Q'.
Proof. unfold runs_or. destruct (m s) as [[a s']| | |]; auto. Qed.
Lemma runs_mono [A] [H : Prop] s (m : M A) (Q Q' : A -> sched -> Prop) :
  runs_or H s m Q -> (forall a s', Q a s' -> Q' a s') -> runs_or H s m Q'.
Proof. intros HR. by apply (runs_lift s m Q Q' HR). Qed.
Lemma runs_weak [A] [H : Prop] s (m : M A) (Q Q' : A -> sched -> Prop) :
  runs s m Q -> (forall a s', Q a s' -> Q' a s') -> runs_or H s m Q'.
Proof. intros HR. by apply (runs_lift s m Q Q' HR). Qed.
Lemma runs_ret [A H] s (a : A) (Q : A -> sched -> Prop) : Q a s -> runs_or H s (ret a) Q.
Proof. done. Qed.
Lemma runs_panic [A H] s (Q : A -> sched -> Prop) : runs_or H s panic Q.
Proof. done. Qed.
Lemma runs_get_proc [H] s i p (Q : _ -> sched -> Prop) : arr_get (processes s) i = Some p -> Q p s -> runs_or H s (get_proc i) Q.
Proof. intros Hp HQ. eapply runs_Ok; [by apply get_proc_ok|done]. Qed.
Lemma runs_upd_proc s i f p (Q : unit -> sched -> Prop) :
  arr_get (processes s) i = Some p -> Q tt (set_processes (<[Z.to_nat i := f p]> (processes s)) s) ->
  runs s (upd_proc i f) Q.
Proof. intros H HQ. eapply runs_Ok; [by apply upd_proc_ok|done]. Qed.
(** [rstep H]: run the first command by the equation or the [runs] lemma [H]. *)
Ltac rstep H := apply runs_bind; first [eapply H | eapply (runs_Ok _ _ _ _ _ H)].

(** ** The invariant *)
Record proc_ok (s : sched) (i : Z) (p : EEVDFProcessControlBlock) : Prop := {
  po_weight : 0 < i -> p_state p <> PROC_TERMINATED -> weight_ok p;
  po_pid : 0 <= p_pid p < 64;
  po_node : p_rb_node p <> None -> p_state p <> PROC_ZOMBIE /\ p_state p <> PROC_TERMINATED /\ i <> 0;
  po_free : 0 < i -> Z.testbit (active_process_bitmap s) i = false -> p_state p = PROC_TERMINATED;
  po_queue : queue_ok (p_ipc_queue p)
}.
Record env_ok (s : sched) : Prop := {
  eo_sis : sis_ready s;
  eo_tq : length (termination_queue s) = 64%nat;
  eo_entries : Forall (fun i => 0 <= i < 64) (termination_queue s);
  eo_head : 0 <= term_queue_head s < 64;
  eo_tail : 0 <= term_queue_tail s < 64;
  eo_count : 0 <= term_queue_count s <= 64;
  eo_pids : length (pid_bitmap s) = 2%nat;
  eo_hz : 0 < APIC_HZ s;
  eo_ticks : 0 <= APICticks s < 2 ^ 32;
  eo_active : 0 <= active_process_bitmap s < 2 ^ 64;
  eo_idle : Z.testbit (active_process_bitmap s) 0 = true;
  eo_cur : 0 <= current_process s < 64;
  eo_slot : 0 <= current_slot (rq s) < 64;
  eo_same : current_process s = current_slot (rq s)
}.
Record inv0 (s : sched) : Prop := {
  i_rq : exists t, rq_ok s t;
  i_env : env_ok s;
  i_proc : forall i p, arr_get (processes s) i = Some p -> proc_ok s i p
}.
(** The running process is off the queue, its slot is taken, and only the idle slot can be empty. *)
Record cur_free (s : sched) (c : Z) : Prop := {
  cf_live : forall p, arr_get (processes s) c = Some p -> 0 < c -> p_state p <> PROC_TERMINATED;
  cf_node : forall p, arr_get (processes s) c = Some p -> p_rb_node p = None;
  cf_bit : Z.testbit (active_process_bitmap s) c = true
}.
Definition inv (s : sched) : Prop := inv0 s /\ cur_free s (current_slot (rq s)).

Lemma i_get s i : inv0 s -> 0 <= i < 64 -> exists p, arr_get (processes s) i = Some p.
Proof. intros [[t HQ] _ _] Hi. apply arr_get_some. rewrite (rk_len _ _ HQ). lia. Qed.
Lemma i_range s i p : inv0 s -> arr_get (processes s) i = Some p -> 0 <= i < 64.
Proof. intros [[t HQ] _ _] Hp%arr_get_range. rewrite (rk_len _ _ HQ) in Hp. lia. Qed.

(** What an operation leaves alone for everybody: the running slot, who is off the queue, who lives. *)
Definition leaves (s s' : sched) : Prop :=
  current_slot (rq s') = current_slot (rq s) /\ current_process s' = current_process s /\
  active_process_bitmap s' = active_process_bitmap s /\
  forall j p', arr_get (processes s') j = Some p' ->
    exists p, arr_get (processes s) j = Some p /\ (p_rb_node p = None -> p_rb_node p' = None) /\
      (p_state p <> PROC_TERMINATED -> p_state p' <> PROC_TERMINATED).
#[export] Instance leaves_preorder : PreOrder leaves.
Proof.
  split; [intros s; repeat split; eauto|]. intros a b c (A1 & A2 & A3 & A4) (B1 & B2 & B3 & B4).
  split; [congruence|split; [congruence|split; [congruence|]]]. intros j p' H.
  destruct (B4 j p' H) as (q & Hq & Hn & Hs). destruct (A4 j q Hq) as (p & Hp & Hm & Hr). exists p. auto.
Qed.
Lemma cur_free_leaves s s' c : leaves s s' -> cur_free s c -> cur_free s' c.
Proof.
  intros (_ & _ & E & HP) [H0 H1 H2]. split; [| |by rewrite E]; intros p' Hp'.
  - destruct (HP c p' Hp') as (p & Hp & Hn & Hs). eauto.
  - destruct (HP c p' Hp') as (p & Hp & Hn & _). eauto.
Qed.
Lemma inv_leaves s s' : leaves s s' -> inv0 s' -> inv s -> inv s'.
Proof. intros HK H [_ HC]. split; [done|]. rewrite (proj1 HK). by eapply cur_free_leaves. Qed.

(** One control block is written. *)
Lemma inv0_write s s' i p p' :
  inv0 s -> arr_get (processes s) i = Some p -> processes s' = <[Z.to_nat i := p']> (processes s) ->
  active_process_bitmap s' = active_process_bitmap s ->
  (exists t, rq_ok s' t) -> env_ok s' -> proc_ok s i p' -> inv0 s'.
Proof.
  intros [_ _ HP] Hp Hps Ha HQ HE Hok. pose proof (arr_get_range _ _ _ Hp) as Hi. constructor; [done|done|].
  intros j q. rewrite Hps. destruct (decide (j = i)) as [-> |Hne].
  - rewrite arr_get_insert_eq by lia. intros [= <-]. destruct Hok. constructor; auto. by rewrite Ha.
  - rewrite arr_get_insert_ne by lia. intros Hq. destruct (HP j q Hq). constructor; auto. by rewrite Ha.
Qed.
Lemma leaves_write s s' i p p' :
  arr_get (processes s) i = Some p -> processes s' = <[Z.to_nat i := p']> (processes s) ->
  current_slot (rq s') = current_slot (rq s) -> current_process s' = current_process s ->
  active_process_bitmap s' = active_process_bitmap s -> (p_rb_node p = None -> p_rb_node p' = None) ->
  (p_state p <> PROC_TERMINATED -> p_state p' <> PROC_TERMINATED) -> leaves s s'.
Proof.
  intros Hp Hps E1 E2 E3 Hn Hs. pose proof (arr_get_range _ _ _ Hp) as Hi. repeat split; [done..|].
  intros j q. rewrite Hps. destruct (decide (j = i)) as [-> |Hne].
  - rewrite arr_get_insert_eq by lia. intros [= <-]. eauto.
  - rewrite arr_get_insert_ne by lia. eauto.
Qed.

(** A write to a process off the queue is free. *)
Lemma rq_ok_upd_free s t i p p' :
  rq_ok s t -> arr_get (processes s) i = Some p -> p_rb_node p = None -> p_rb_node p' = None ->
  rq_ok (set_processes (<[Z.to_nat i := p']> (processes s)) s) t.
Proof.
  intros HQ Hp En En'. pose proof (arr_get_range _ _ _ Hp) as Hi.
  assert (Hni : forall e, e ∈ slots t -> e.2 <> i).
  { intros [n j] He E0. cbn in E0. subst j. apply (rk_node _ _ HQ _ _ _ Hp) in He. congruence. }
  constructor; cbn [processes set_processes rq].
  - rewrite length_insert. apply HQ.
  - eapply tree_ok_ext; [|apply (rk_tree _ _ HQ)]. intros e He. by rewrite vruntime_of_insert by (lia || by apply Hni).
  - intros j q n. destruct (decide (j = i)) as [-> |Hne].
    + rewrite arr_get_insert_eq by lia. intros [= <-]. rewrite En'. split; [done|]. intros He. by apply Hni in He.
    + rewrite arr_get_insert_ne by lia. apply HQ.
  - intros j q n Hj He. assert (j <> i) by (by apply Hni in He). rewrite arr_get_insert_ne in Hj by lia.
    by apply (rk_weight _ _ HQ _ _ n Hj).
  - apply HQ.
  - rewrite (rk_load _ _ HQ). f_equal. apply list_fmap_ext. intros k e He. unfold weight_of. cbn [processes set_processes].
    rewrite arr_get_insert_ne; [done|lia|]. intros E0. apply (Hni e); [by eapply list_elem_of_lookup_2|done].
Qed.

(** ** Writes and environment *)
Lemma env_ok_same s s' : 
  sis_process_keys s' = sis_process_keys s -> crc s' = crc s -> termination_queue s' = termination_queue s ->
  term_queue_head s' = term_queue_head s -> term_queue_tail s' = term_queue_tail s ->
  term_queue_count s' = term_queue_count s -> pid_bitmap s' = pid_bitmap s -> APIC_HZ s' = APIC_HZ s ->
  APICticks s' = APICticks s -> active_process_bitmap s' = active_process_bitmap s ->
  current_process s' = current_process s -> current_slot (rq s') = current_slot (rq s) -> env_ok s -> env_ok s'.
Proof.
  intros E1 E2 E3 E4 E5 E6 E7 E8 E9 E10 E11 E12 [[]]. constructor; [constructor|..]; congruence.
Qed.
Ltac same_env_ok := match goal with H : env_ok ?s |- _ => apply (env_ok_same s); [reflexivity..|exact H] end.

Lemma inv0_upd s i p p' :
  inv0 s -> arr_get (processes s) i = Some p -> p_rb_node p' = p_rb_node p ->
  (p_rb_node p = None \/ (p_weight p' = p_weight p /\ p_vruntime p' = p_vruntime p)) -> proc_ok s i p' ->
  inv0 (set_processes (<[Z.to_nat i := p']> (processes s)) s).
Proof.
  intros HI Hp En Hor Hok. destruct (i_rq s HI) as [t HQ]. pose proof (i_env s HI) as HE.
  eapply inv0_write; [exact HI|exact Hp|reflexivity|reflexivity| |by same_env_ok|exact Hok]. exists t.
  destruct Hor as [Hn|[Hw Hv]]; [by eapply rq_ok_upd_free; [..|by rewrite En]|by eapply rq_ok_upd; [..|left]].
Qed.
Lemma leaves_upd s i p p' :
  arr_get (processes s) i = Some p -> p_rb_node p' = p_rb_node p ->
  (p_state p <> PROC_TERMINATED -> p_state p' <> PROC_TERMINATED) ->
  leaves s (set_processes (<[Z.to_nat i := p']> (processes s)) s).
Proof. intros Hp En Hs. eapply leaves_write; [exact Hp|reflexivity..|congruence|exact Hs]. Qed.
(** Fields the invariant does not mention. *)
Lemma proc_ok_same s i p p' :
  p_state p' = p_state p -> p_weight p' = p_weight p -> p_pid p' = p_pid p -> p_rb_node p' = p_rb_node p ->
  p_ipc_queue p' = p_ipc_queue p -> proc_ok s i p -> proc_ok s i p'.
Proof.
  intros E1 E2 E3 E4 E5 [H1 H2 H3 H4 H5]. unfold weight_ok in *.
  constructor; unfold weight_ok; rewrite ?E1, ?E2, ?E3, ?E4, ?E5; auto.
Qed.
(** A state other than ZOMBIE and TERMINATED may be set on a live process. *)
Lemma proc_ok_state s i p st :
  proc_ok s i p -> (0 < i -> p_state p <> PROC_TERMINATED) -> st <> PROC_TERMINATED -> st <> PROC_ZOMBIE ->
  proc_ok s i (set_p_state st p).
Proof.
  intros [H1 H2 H3 H4 H5] Hst Hs1 Hs2. constructor; [by auto|done| |intros Hi Hb; by destruct (Hst Hi); apply H4|done].
  intros Hn. destruct (H3 Hn) as (_ & _ & Hi). done.
Qed.
Lemma runs_upd s i p f Q :
  inv0 s -> arr_get (processes s) i = Some p -> p_rb_node (f p) = p_rb_node p ->
  (p_rb_node p = None \/ (p_weight (f p) = p_weight p /\ p_vruntime (f p) = p_vruntime p)) -> proc_ok s i (f p) ->
  (p_state p <> PROC_TERMINATED -> p_state (f p) <> PROC_TERMINATED) ->
  (forall s', s' = set_processes (<[Z.to_nat i := f p]> (processes s)) s -> inv0 s' -> leaves s s' ->
     arr_get (processes s') i = Some (f p) -> Q tt s') ->
  runs s (upd_proc i f) Q.
Proof.
  intros HI Hp En Hor Hok Hs HQ. eapply runs_upd_proc; [exact Hp|]. apply HQ; [reflexivity|by eapply inv0_upd|by eapply leaves_upd|].
  apply arr_get_insert_eq. by eapply arr_get_range.
Qed.
Lemma runs_seal s i p (Q : unit -> sched -> Prop) :
  inv0 s -> arr_get (processes s) i = Some p ->
  (forall s' p', inv0 s' -> leaves s s' -> arr_get (processes s') i = Some p' -> p' = set_p_sis_seal (p_sis_seal p') p ->
     rq s' = rq s -> Q tt s') ->
  runs s (SISUpdateSeal i) Q.
Proof.
  intros HI Hp HQ. destruct (i_rq s HI) as [t Hrq].
  destruct (reseal_ok s t i p Hrq (eo_sis _ (i_env s HI)) Hp) as (p' & HE & Hp' & HQ' & _).
  eapply runs_Ok; [exact HE|].
  assert (En : p_rb_node p' = p_rb_node p) by (by rewrite Hp').
  apply (HQ _ p'); [|eapply leaves_upd; [exact Hp|exact En|by rewrite Hp']|apply arr_get_insert_eq; by eapply arr_get_range|exact Hp'|reflexivity].
  eapply inv0_upd; [exact HI|exact Hp|exact En|right; by rewrite Hp'|].
  eapply proc_ok_same; [..|by apply (i_proc s HI)]; by rewrite Hp'.
Qed.

(** ** Termination *)
Lemma runs_mark_ended held s i p reason code :
  inv0 s -> arr_get (processes s) i = Some p -> p_state p <> PROC_TERMINATED ->
  runs_or (held = true) s (mark_ended held i reason code) (fun _ s' => inv0 s' /\ leaves s s').
Proof.
  intros HI Hp Hst. destruct (i_rq s HI) as [t HQ]. pose proof (i_env s HI) as HE. pose proof (i_proc s HI i p Hp) as HP.
  pose proof (i_range s i p HI Hp) as Hi. pose proof (rk_len _ _ HQ) as Hlen.
  destruct held.
  { destruct (mark_sealed true s t i p reason code HQ (eo_sis _ HE) Hp) as (s5 & p5 & HR & _). unfold runs_or. by rewrite HR. }
  destruct (decide (term_queue_count s < 64)) as [Hc|Hc].
  - assert (HT : term_ok s) by (destruct HE; constructor; lia).
    destruct (mark_ended_ok s t i p reason code HQ (eo_sis _ HE) HT Hp)
      as (s' & t' & seal & HR & HQ' & Henv & Hps & _ & _ & Hcnt & Hhd & Htq & Htl & _).
    destruct Henv as (E1 & E2 & E3 & E4 & E5 & E6 & E7 & E8 & E9 & E10).
    eapply runs_Ok; [exact HR|]. split; [|by eapply leaves_write].
    eapply inv0_write; [exact HI|exact Hp|exact Hps|done|by exists t'| |].
    + destruct HE as [[] ? ? ? ? ? ? ? ? ? ? ? ? ?]. constructor; [constructor|..]; try congruence; try (rewrite ?E3, ?E4, ?E6, ?E7, ?E10; lia).
      * by rewrite Htq, length_insert.
      * rewrite Htq. apply Forall_insert; [done|lia].
      * rewrite Htl. apply Z.mod_pos_bound. lia.
    + destruct HP as [H1 H2 H3 H4 H5]. constructor; [intros Hi0 _; by apply H1|done|done| |done].
      intros Hi0 Hb. exfalso. by apply Hst, H4.
  - destruct (mark_sealed false s t i p reason code HQ (eo_sis _ HE) Hp) as (s5 & p5 & HR & HQ5 & _ & HT5 & Hps5 & Hp5e & _).
    unfold runs_or. rewrite HR.
    assert (Hp5 : arr_get (processes s5) i = Some p5) by (rewrite Hps5; apply arr_get_insert_eq; lia).
    destruct (dequeue_any s5 t i p5 HQ5 Hp5) as (q' & t' & HE6 & _). step (eq_refl : lock_runqueue false s5 = Ok (tt, s5)). step HE6.
    unfold AddToTerminationQueueAtomic, bind, gets. cbn [term_queue_count set_rq set_processes].
    destruct HT5 as (_ & _ & -> & _). by rewrite (proj2 (Z.leb_le EEVDF_MAX_PROCESSES _)) by (unfold EEVDF_MAX_PROCESSES; lia).
Qed.

(** Writes to fields the process table does not depend on. *)
Lemma runs_aux [H] s f (Q : unit -> sched -> Prop) :
  inv0 s -> processes (f s) = processes s -> rq_tree (rq (f s)) = rq_tree (rq s) ->
  nr_running (rq (f s)) = nr_running (rq s) -> load_weight (rq (f s)) = load_weight (rq s) ->
  current_slot (rq (f s)) = current_slot (rq s) -> active_process_bitmap (f s) = active_process_bitmap s ->
  current_process (f s) = current_process s -> env_ok (f s) ->
  (forall s', s' = f s -> inv0 s' -> leaves s s' -> processes s' = processes s -> Q tt s') ->
  runs_or H s (modify f) Q.
Proof.
  intros [[t HQ] _ HP] E1 E2 E2' E2'' E5 E3 E4 HE Hk. eapply runs_Ok; [reflexivity|]. apply Hk; [done| |repeat split|done].
  - constructor; [exists t; by eapply rq_ok_ext|done|].
    intros i p Hp. rewrite E1 in Hp. destruct (HP i p Hp). constructor; auto. by rewrite E3.
  - done.
  - done.
  - done.
  - intros j p'. rewrite E1. eauto.
Qed.
Ltac aux_step HI s' HI' HL Eps Erq :=
  apply runs_bind; apply runs_aux; [exact HI|reflexivity..| |intros s' Erq HI' HL Eps];
  [pose proof (i_env _ HI); same_env_ok|].
Ltac aux_last HI :=
  apply runs_aux; [exact HI|reflexivity..| |];
  [pose proof (i_env _ HI); same_env_ok|].

Lemma runs_AST_holding held s pid :
  inv0 s -> runs_or (held = true) s (EEVDFASTerminate_holding held pid) (fun _ s' => inv0 s' /\ leaves s s').
Proof.
  intros HI. unfold EEVDFASTerminate_holding. apply runs_bind. eapply runs_Ok; [reflexivity|].
  destruct (find_pid (processes s) 0 pid) as [i|] eqn:Ef; [|by apply runs_ret].
  destruct (find_pid_spec _ _ _ _ Ef) as (p & Hp & _ & Hst). rewrite Z.sub_0_r in Hp.
  case_if E0; [by apply runs_ret|]. rstep runs_get_proc; [exact Hp|]. rewrite bool_decide_false by done.
  apply runs_bind. eapply runs_mono; [by eapply runs_mark_ended|]. intros _ s1 [HI1 HL1].
  aux_step HI1 s2 HI2 HL2 E2 E2'. unfold call. aux_last HI2. intros s3 _ HI3 HL3 _.
  split; [done|]. etrans; [exact HL1|]. by etrans.
Qed.
Lemma runs_AST s pid : inv0 s -> runs s (EEVDFASTerminate pid) (fun _ s' => inv0 s' /\ leaves s s').
Proof. intros HI. by eapply runs_lift; [by apply runs_AST_holding|..]. Qed.
Lemma runs_free_pid s pid :
  inv0 s -> 0 <= pid < 64 -> runs s (free_pid pid) (fun _ s' => inv0 s' /\ leaves s s').
Proof.
  intros HI Hpid. unfold free_pid. pose proof (i_env s HI) as HE. replace (pid / 64) with 0 by dlia.
  destruct (arr_get_some (pid_bitmap s) 0) as [w Hw]; [rewrite (eo_pids s HE); lia|].
  apply runs_bind. eapply (runs_Ok _ _ w s); [by rewrite Hw|]. apply runs_bind.
  eapply runs_Ok; [by rewrite arr_set_some by (rewrite (eo_pids s HE); lia)|].
  apply runs_aux; [exact HI|reflexivity..| |done].
  destruct HE as [[] ? ? ? ? ? ? ? ? ? ? ? ? ?]. constructor; [constructor|..]; auto.
  cbn [pid_bitmap set_pid_bitmap]. by rewrite length_insert.
Qed.
Lemma runs_verify [H] s p i (Q : bool -> sched -> Prop) :
  inv0 s -> 0 <= i < 64 -> (forall b, Q b s) -> runs_or H s (SISVerifyPCB p i) Q.
Proof.
  intros HI Hi HQ. eapply runs_Ok; [apply SISVerifyPCB_ok; [apply (i_env s HI)|done]|done].
Qed.

Lemma runs_Terminate s pid reason code :
  inv0 s -> runs s (EEVDFTerminateProcess pid reason code) (fun _ s' => inv0 s' /\ leaves s s').
Proof.
  intros HI. unfold EEVDFTerminateProcess. apply runs_bind. eapply runs_Ok; [reflexivity|].
  destruct (find_pid (processes s) 0 pid) as [i|] eqn:Ef; [|by apply runs_ret].
  destruct (find_pid_spec _ _ _ _ Ef) as (p & Hp & _ & Hst). rewrite Z.sub_0_r in Hp.
  case_if E0; [by apply runs_ret|]. rstep runs_get_proc; [exact Hp|]. case_if E1; [by apply runs_ret|].
  pose proof (eo_cur s (i_env s HI)) as Hc. destruct (i_get s _ HI Hc) as [caller Hcaller].
  apply runs_bind. eapply (runs_Ok _ _ (current_process s) s).
  { unfold EEVDFGetCurrentProcess, bind, gets, ret, EEVDF_MAX_PROCESSES. by rewrite (proj2 (Z.leb_gt 64 _)) by lia. }
  rstep runs_get_proc; [exact Hcaller|]. apply runs_bind.
  apply (runs_mono _ _ (fun b s' => inv0 s' /\ leaves s s' /\ (b = true -> s' = s))).
  { case_if E2; [by apply runs_ret|]. case_if E3.
    - apply runs_bind. eapply runs_mono; [by apply runs_AST|]. intros _ s' [H1 H2]. by apply runs_ret.
    - apply runs_bind. unfold SISValidateProcess. case_if E4; [|case_if E5; [|apply runs_verify; [done|done|]]].
      3: intros []; cbn [negb].
      all: try (apply runs_ret; done).
      all: try apply runs_ret; cbn [negb]; apply runs_bind; (eapply runs_mono; [by apply runs_AST|]);
        intros _ s' [H1 H2]; by apply runs_ret. }
  intros b s1 (HI1 & HL1 & Hb). destruct b; cbn [negb]; [|by apply runs_ret].
  rewrite (Hb eq_refl). apply runs_bind. eapply runs_lift; [by eapply runs_mark_ended|done|]. intros _ s2 [HI2 HL2].
  pose proof (i_range s i p HI Hp) as Hi. destruct (i_get s2 i HI2 Hi) as [p2 Hp2]. rstep runs_get_proc; [exact Hp2|].
  apply runs_bind. eapply runs_mono; [apply runs_free_pid; [exact HI2|apply (i_proc s2 HI2 i p2 Hp2)]|].
  intros _ s3 [HI3 HL3]. aux_step HI3 s4 HI4 HL4 E4 E4'. unfold call. aux_last HI4. intros s5 _ HI5 HL5 _.
  split; [done|]. repeat (etrans; [eassumption|]). done.
Qed.

Lemma runs_kill_loop n : forall s i, inv0 s -> 0 <= i -> i + Z.of_nat n <= 64 ->
  runs s (kill_loop n i) (fun _ s' => inv0 s' /\ leaves s s').
Proof.
  induction n as [|n IH]; intros s i HI Hi Hn; cbn [kill_loop]; [by apply runs_ret|].
  destruct (i_get s i HI ltac:(lia)) as [p Hp]. rstep runs_get_proc; [exact Hp|].
  apply runs_bind. apply (runs_mono _ _ (fun _ s' => inv0 s' /\ leaves s s')).
  { case_if E0; [by apply runs_AST|by apply runs_ret]. }
  intros _ s1 [HI1 HL1]. eapply runs_mono; [apply IH; [done|lia|lia]|]. intros _ s2 [HI2 HL2]. split; [done|]. by etrans.
Qed.
Lemma runs_current s (Q : Z -> sched -> Prop) : inv0 s -> Q (current_process s) s -> runs s EEVDFGetCurrentProcess Q.
Proof.
  intros HI HQ. pose proof (eo_cur s (i_env s HI)) as Hc. eapply runs_Ok; [|exact HQ].
  unfold EEVDFGetCurrentProcess, bind, gets, ret, EEVDF_MAX_PROCESSES. by rewrite (proj2 (Z.leb_gt 64 _)) by lia.
Qed.
Lemma runs_KillCurrent s : inv0 s -> runs s EEVDFKillCurrentProcess (fun _ s' => inv0 s' /\ leaves s s').
Proof.
  intros HI. unfold EEVDFKillCurrentProcess. rstep runs_current; [done|].
  destruct (i_get s _ HI (eo_cur s (i_env s HI))) as [p Hp]. rstep runs_get_proc; [exact Hp|]. by apply runs_AST.
Qed.
Lemma runs_Exit s : inv0 s -> runs s ProcessExitStubEEVDF (fun _ s' => inv0 s' /\ leaves s s').
Proof.
  intros HI. unfold ProcessExitStubEEVDF. rstep runs_current; [done|].
  destruct (i_get s _ HI (eo_cur s (i_env s HI))) as [p Hp]. rstep runs_get_proc; [exact Hp|]. by apply runs_Terminate.
Qed.

(** ** The run queue *)
Lemma Enqueue_queued_panics s t i p n :
  rq_ok s t -> arr_get (processes s) i = Some p -> p_state p = PROC_READY -> p_rb_node p = Some n ->
  EEVDFEnqueueTask i s = Panic.
Proof.
  intros HQ Hp Hst Hn. pose proof (arr_get_range _ _ _ Hp) as Hi. unfold EEVDFEnqueueTask.
  step (get_proc_ok s i p Hp). rewrite Hst, bool_decide_true by done. cbn [negb].
  step (eq_refl : get_rq s = Ok (rq s, s)).
  assert (H1 : exists p1, (if p_vruntime p <? min_vruntime (rq s) then upd_proc i (set_p_vruntime (min_vruntime (rq s))) else ret tt) s
    = Ok (tt, set_processes (<[Z.to_nat i := p1]> (processes s)) s) /\ p_rb_node p1 = Some n /\ p_weight p1 = p_weight p).
  { case_if E0; [eexists; split; [by apply upd_proc_ok|done]|]. exists p.
    by rewrite (insert_self _ _ _ Hp), set_processes_eta. }
  destruct H1 as (p1 & H1 & Hn1 & Hw1). step H1. set (s1 := set_processes _ s).
  assert (Hp1 : arr_get (processes s1) i = Some p1) by (by apply arr_get_insert_eq).
  step (get_proc_ok s1 i p1 Hp1). destruct (calc_slice_ok s t p HQ) as (sl & _ & Hsl).
  assert (Hs1 : calc_slice p1 s1 = Ok (sl, s1)) by (unfold calc_slice, bind, get_rq, gets, lift; cbn; by rewrite Hw1, Hsl).
  step Hs1. step (upd_proc_ok s1 i (set_p_deadline (u64 (p_vruntime p1 + sl))) p1 Hp1). set (s2 := set_processes _ s1).
  assert (Hp2 : arr_get (processes s2) i = Some (set_p_deadline (u64 (p_vruntime p1 + sl)) p1)).
  { apply arr_get_insert_eq. cbn. rewrite length_insert. lia. }
  erewrite bind_Ok by reflexivity. unfold EEVDFRBInsert. erewrite bind_Ok; [|by apply get_proc_ok].
  cbn [p_rb_node set_p_deadline]. by rewrite Hn1.
Qed.

(** A task that becomes runnable; only its own place in the queue changes. *)
Definition queued_only (i : Z) (s s' : sched) : Prop :=
  current_slot (rq s') = current_slot (rq s) /\ current_process s' = current_process s /\
  active_process_bitmap s' = active_process_bitmap s /\
  (forall c, c <> i -> cur_free s c -> cur_free s' c).
Lemma runs_Enqueue s i :
  inv0 s -> 0 < i < 64 -> runs s (EEVDFEnqueueTask i) (fun _ s' => inv0 s' /\ queued_only i s s').
Proof.
  intros HI Hi. destruct (i_get s i HI ltac:(lia)) as [p Hp]. destruct (i_rq s HI) as [t HQ].
  pose proof (i_proc s HI i p Hp) as HP. pose proof (i_env s HI) as HE.
  destruct (decide (p_state p = PROC_READY)) as [Hst|Hst].
  2:{ unfold EEVDFEnqueueTask. rstep runs_get_proc; [exact Hp|]. rewrite bool_decide_false by done. by apply runs_ret. }
  destruct (p_rb_node p) as [n|] eqn:Hn.
  { unfold runs_or. by rewrite (Enqueue_queued_panics s t i p n). }
  destruct HP as [H1 H2 H3 H4 H5]. assert (Hw : weight_ok p) by (apply H1; [lia|congruence]).
  destruct (EEVDFEnqueueTask_ok s t i p HQ Hp Hst Hn Hw) as (sl & n & T' & t' & l1 & l2 & _ & HR & HQ' & _).
  eapply runs_Ok; [exact HR|]. split.
  - eapply inv0_write; [exact HI|exact Hp|reflexivity|reflexivity|by exists t'|by same_env_ok|].
    constructor; [done|done|cbn; rewrite Hst; split; [done|split; [done|lia]]|done|done].
  - repeat split; [| |by destruct H0]; intros q; cbn [processes set_rq set_processes];
      rewrite arr_get_insert_ne by lia; apply H0.
Qed.
Lemma runs_Dequeue s i :
  inv0 s -> 0 <= i < 64 -> runs s (EEVDFDequeueTask i) (fun _ s' => inv0 s' /\ leaves s s' /\
    exists p, arr_get (processes s) i = Some p /\ processes s' = <[Z.to_nat i := set_p_rb_node None p]> (processes s)).
Proof.
  intros HI Hi. destruct (i_get s i HI Hi) as [p Hp]. destruct (i_rq s HI) as [t HQ].
  pose proof (i_env s HI) as HE. destruct (i_proc s HI i p Hp) as [H1 H2 H3 H4 H5].
  destruct (dequeue_any s t i p HQ Hp) as (q' & t' & HR & HQ' & _ & _ & Hcur). eapply runs_Ok; [exact HR|].
  split; [|split; [by eapply leaves_write|by exists p]].
  eapply inv0_write; [exact HI|exact Hp|reflexivity|reflexivity|by exists t'| |by constructor].
  eapply (env_ok_same s); [reflexivity..|exact Hcur|exact HE].
Qed.
(** The leftmost task is a live one. *)
Lemma runs_Pick [H] s (Q : option Z -> sched -> Prop) :
  inv0 s -> (forall r, (forall i, r = Some i -> 0 < i < 64) -> Q r s) -> runs_or H s EEVDFPickNext Q.
Proof.
  intros HI HQ. destruct (i_rq s HI) as [t Ht]. eapply runs_Ok; [by eapply EEVDFPickNext_ok|].
  apply HQ. intros i Hi. assert (Hin : i ∈ queue t) by (by apply head_Some_elem_of; destruct (queue t)).
  pose proof (rk_queue_lt s t Ht i Hin) as Hr. apply list_elem_of_fmap in Hin as ([n j] & -> & He). cbn in *.
  destruct (rk_slot_lt s t Ht _ He) as [p Hp]. cbn in Hp. apply (rk_node _ _ Ht _ _ _ Hp) in He.
  assert (j <> 0); [|lia]. apply (i_proc s HI j p Hp). congruence.
Qed.


(** ** The tick *)
Lemma runs_GetNS [H] s (Q : Z -> sched -> Prop) : inv0 s -> (forall t, Q t s) -> runs_or H s GetNS Q.
Proof.
  intros HI HQ. unfold runs_or, GetNS. pose proof (eo_hz s (i_env s HI)). by rewrite (proj2 (Z.eqb_neq _ _)) by lia.
Qed.
Lemma leftmost_deref s t n : rq_ok s t -> rb_leftmost (rq_tree (rq s)) = Some n ->
  exists nd p, deref n (rq_tree (rq s)) = Some nd /\ arr_get (processes s) (slot nd) = Some p.
Proof.
  intros HQ Hl. pose proof (rk_tree _ _ HQ) as HT. rewrite (to_left _ _ _ HT) in Hl.
  destruct (slots t) as [|[m i] l] eqn:Es; [done|]. cbn in Hl. injection Hl as ->.
  assert (He : (n, i) ∈ slots t) by (rewrite Es; set_solver).
  destruct (find_node t n i He) as (c & lt & rt & z & Et).
  pose proof (to_focus _ _ _ HT) as HF. rewrite Et in HF. apply focus_plug in HF.
  destruct (rk_slot_lt s t HQ _ He) as [p Hp]. eexists _, p. split; [exact (focus_deref _ _ _ _ _ _ _ HF)|exact Hp].
Qed.
Lemma runs_min_vruntime s v (Q : unit -> sched -> Prop) :
  inv0 s -> (forall s', inv0 s' -> leaves s s' -> processes s' = processes s -> Q tt s') ->
  runs s (upd_rq (set_min_vruntime v)) Q.
Proof. intros HI HQ. unfold upd_rq. aux_last HI. intros s' _. apply HQ. Qed.
Lemma runs_UpdateCurr s i p :
  inv0 s -> arr_get (processes s) i = Some p -> p_rb_node p = None ->
  runs s (EEVDFUpdateCurr i) (fun _ s' => inv0 s' /\ leaves s s' /\
    exists p', arr_get (processes s') i = Some p' /\ p_state p' = p_state p /\ p_rb_node p' = None).
Proof.
  intros HI Hp Hn. unfold EEVDFUpdateCurr. rstep runs_GetNS; [done|]. intros now. rstep runs_get_proc; [exact Hp|].
  case_if E0; [apply runs_ret; split; [done|split; [done|by exists p]]|].
  apply runs_bind. eapply runs_Ok; [reflexivity|]. apply runs_bind. eapply runs_upd; [exact HI|exact Hp|done|by left| |done|].
  { eapply proc_ok_same; [..|by apply (i_proc s HI)]; done. }
  intros s1 E1 HI1 HL1 Hp1. set (p1 := set_p_vruntime _ _) in Hp1.
  assert (Hfin : forall v, runs s1 (upd_rq (set_min_vruntime v)) (fun _ s' => inv0 s' /\ leaves s s' /\
    exists p', arr_get (processes s') i = Some p' /\ p_state p' = p_state p /\ p_rb_node p' = None)).
  { intros v. apply runs_min_vruntime; [done|]. intros s2 HI2 HL2 E2. split; [done|].
    split; [by etrans|]. exists p1. by rewrite E2. }
  replace (rq s) with (rq s1) by (by rewrite E1).
  destruct (rb_leftmost (rq_tree (rq s1))) as [n|] eqn:El.
  - destruct (i_rq s1 HI1) as [t HQ]. destruct (leftmost_deref s1 t n HQ El) as (nd & q & Hd & Hq).
    apply runs_bind. eapply runs_Ok; [by rewrite Hd|]. rstep runs_get_proc; [exact Hq|]. apply Hfin.
  - rstep runs_get_proc; [exact Hp1|]. apply Hfin.
Qed.
Lemma runs_Postflight s i :
  inv0 s -> 0 <= i < 64 -> runs s (EEVDFPostflightCheck i) (fun b s' => inv0 s' /\ leaves s s' /\ (b = true -> s' = s)).
Proof.
  intros HI Hi. unfold EEVDFPostflightCheck. case_if E0; [by apply runs_ret|].
  destruct (i_get s i HI Hi) as [p Hp]. rstep runs_get_proc; [exact Hp|]. rstep runs_verify; [done|done|].
  intros []; cbn [negb]; [by apply runs_ret|]. apply runs_bind. eapply runs_mono; [by apply runs_AST|].
  intros _ s' [H1 H2]. by apply runs_ret.
Qed.
Lemma runs_Preflight held s i :
  inv0 s -> 0 <= i < 64 -> runs_or (held = true) s (EEVDFPreflightCheck held i) (fun b s' => inv0 s' /\ leaves s s' /\ (b = true -> s' = s)).
Proof.
  intros HI Hi. unfold EEVDFPreflightCheck. case_if E0; [by apply runs_ret|].
  destruct (i_get s i HI Hi) as [p Hp]. rstep runs_get_proc; [exact Hp|]. rstep runs_verify; [done|done|].
  intros []; cbn [negb]; [case_if E1; [|by apply runs_ret]|]; apply runs_bind; (eapply runs_mono; [by apply runs_AST_holding|]);
    intros _ s' [H1 H2]; by apply runs_ret.
Qed.
Lemma runs_set_ready s i :
  inv0 s -> runs s (set_ready i) (fun _ s' => inv0 s' /\ leaves s s' /\ processes s' = processes s).
Proof. intros HI. unfold set_ready. aux_last HI. by intros s' _ H1 H2 H3. Qed.
Lemma runs_clear_ready s i :
  inv0 s -> runs s (clear_ready i) (fun _ s' => inv0 s' /\ leaves s s' /\ processes s' = processes s).
Proof. intros HI. unfold clear_ready. aux_last HI. by intros s' _ H1 H2 H3. Qed.

Lemma runs_schedule_prev s c regs :
  inv0 s -> 0 <= c < 64 -> cur_free s c -> runs s (schedule_prev c regs) (fun _ s' => inv0 s' /\ leaves s s').
Proof.
  intros HI Hc HF. destruct (i_get s c HI Hc) as [p Hp]. pose proof (cf_node s c HF p Hp) as Hn.
  unfold schedule_prev. rstep runs_get_proc; [exact Hp|]. case_if E0; [by apply runs_ret|].
  apply runs_bind. eapply runs_mono; [by apply runs_Postflight|]. intros b s1 (HI1 & HL1 & Hb).
  destruct b; cbn [negb]; [|by apply runs_ret]. rewrite (Hb eq_refl) in *. clear Hb HI1 HL1.
  apply runs_bind. eapply runs_upd; [exact HI|exact Hp|done|by left| |done|].
  { eapply proc_ok_same; [..|by apply (i_proc s HI)]; done. }
  intros s2 _ HI2 HL2 Hp2. apply runs_bind. eapply runs_mono; [by eapply runs_UpdateCurr|].
  intros _ s3 (HI3 & HL3 & p3 & Hp3 & Hst3 & Hn3). rstep runs_get_proc; [exact Hp3|].
  case_bool_decide as E1; [|apply runs_ret; split; [done|by etrans]]. apply runs_bind.
  eapply runs_upd; [exact HI3|exact Hp3|done|by left| |done|].
  { apply proc_ok_state; [by apply (i_proc s3 HI3)|congruence|done|done]. }
  intros s4 _ HI4 HL4 Hp4. apply runs_bind. eapply runs_seal; [exact HI4|exact Hp4|].
  intros s5 p5 HI5 HL5 _ _ _. eapply runs_mono; [by apply runs_set_ready|]. intros _ s6 (HI6 & HL6 & _).
  split; [done|]. repeat (etrans; [eassumption|]). done.
Qed.

(** The slot to run: idle, or a ready task that has left the queue. *)
Definition picked (s : sched) (i : Z) : Prop :=
  i = 0 \/ (0 < i < 64 /\ exists p, arr_get (processes s) i = Some p /\ p_state p = PROC_READY /\ p_rb_node p = None).
Lemma runs_schedule_pick held s :
  inv0 s -> runs_or (held = true) s (schedule_pick held) (fun i s' => inv0 s' /\ leaves s s' /\ picked s' i).
Proof.
  intros HI. unfold schedule_pick. rstep runs_Pick; [done|]. intros [i|] Hr; [|by apply runs_ret; split; [|split; [|left]]].
  specialize (Hr i eq_refl). apply runs_bind. eapply runs_mono; [by apply runs_Preflight; [|lia]|].
  intros b s1 (HI1 & HL1 & _). apply runs_bind.
  apply (runs_mono _ _ (fun r s' => inv0 s' /\ leaves s s' /\ forall j, r = Some j -> 0 < j < 64)).
  { destruct b; cbn [negb]; [apply runs_ret; split; [done|split; [done|by intros j [= <-]]]|].
    apply runs_bind. eapply runs_weak; [by apply runs_Dequeue; [|lia]|]. intros _ s2 (HI2 & HL2 & _).
    apply runs_Pick; [done|]. intros r Hr2. split; [done|]. split; [by etrans|done]. }
  intros [j|] s2 (HI2 & HL2 & Hj); [|by apply runs_ret; split; [|split; [|left]]].
  specialize (Hj j eq_refl). destruct (i_get s2 j HI2 ltac:(lia)) as [p Hp]. rstep runs_get_proc; [exact Hp|].
  case_if E0; [|by apply runs_ret; split; [|split; [|left]]]. apply andb_true_iff in E0 as [_ E0%bool_decide_eq_true].
  apply runs_bind. eapply runs_weak; [by apply runs_Dequeue; [|lia]|]. intros _ s3 (HI3 & HL3 & q & Hq & Hps).
  apply runs_ret. split; [done|]. split; [by etrans|]. right. split; [done|]. rewrite Hp in Hq. injection Hq as <-.
  eexists. rewrite Hps, arr_get_insert_eq by (by eapply arr_get_range). done.
Qed.

(** The new current slot. *)
Lemma inv0_set_current s i :
  inv0 s -> 0 <= i < 64 ->
  inv0 (set_current_process i (set_rq (set_current_slot i (rq s)) s)).
Proof.
  intros [[t HQ] HE HP] Hi. constructor.
  - exists t. by eapply (rq_ok_ext s).
  - destruct HE as [[] ? ? ? ? ? ? ? ? ? ? ? ? ?]. by constructor.
  - intros j p Hp. destruct (HP j p Hp). by constructor.
Qed.
(** After the switch the running process is off the queue, and only the idle slot can be dead. *)
Definition running_ok (s : sched) (c : Z) : Prop :=
  cur_free s c /\ (c = 0 \/ forall p, arr_get (processes s) c = Some p -> p_state p <> PROC_ZOMBIE).

Lemma runs_schedule_switch s i regs :
  inv0 s -> picked s i -> cur_free s i ->
  runs s (schedule_switch i regs) (fun _ s' => inv0 s' /\ leaves s s' /\ running_ok s' i).
Proof.
  intros HI Hpick HF. unfold schedule_switch. case_if E0; [apply Z.eqb_eq in E0 as ->; apply runs_ret; split; [done|split; [done|split; [done|by left]]]|].
  destruct Hpick as [-> |(Hi & p & Hp & Hst & Hn)]; [done|]. rstep runs_get_proc; [exact Hp|].
  assert (Hrun : forall s' p', leaves s s' -> arr_get (processes s') i = Some p' -> p_state p' <> PROC_ZOMBIE -> running_ok s' i).
  { intros s' p' HL Hp' Hs'. split; [by eapply cur_free_leaves|right; congruence]. }
  case_if E1; [apply runs_ret; split; [done|split; [done|]]; eapply Hrun; [done|exact Hp|congruence]|].
  apply runs_bind. eapply runs_upd; [exact HI|exact Hp|done|by left| |done|].
  { apply proc_ok_state; [by apply (i_proc s HI)|congruence|done|done]. }
  intros s1 _ HI1 HL1 Hp1. apply runs_bind. eapply runs_seal; [exact HI1|exact Hp1|].
  intros s2 p2 HI2 HL2 Hp2 E2 _. apply runs_bind. eapply runs_mono; [by apply runs_clear_ready|].
  intros _ s3 (HI3 & HL3 & E3). rstep runs_GetNS; [done|]. intros t. apply runs_bind.
  destruct (i_rq s3 HI3) as [tr HQ]. destruct (calc_slice_ok s3 tr p HQ) as (sl & Hsl & _).
  eapply runs_Ok; [exact Hsl|]. rewrite <-E3 in Hp2. apply runs_bind.
  eapply runs_upd; [exact HI3|exact Hp2|done|right; done| |done|].
  { eapply proc_ok_same; [..|by apply (i_proc s3 HI3)]; done. }
  intros s4 _ HI4 HL4 Hp4. aux_step HI4 s5 HI5 HL5 E5 E5'. apply runs_ret.
  assert (HL : leaves s s5) by (by repeat (etrans; [eassumption|])).
  split; [done|]. split; [done|]. eapply Hrun; [done|by rewrite E5|]. cbn. by rewrite E2.
Qed.

(** ** Clean-up *)
Lemma zero_queue_ok : queue_ok zero_queue.
Proof. by constructor; [reflexivity|cbn; lia|cbn; lia|reflexivity|reflexivity|apply Forall_nil_2]. Qed.
Lemma zero_pcb_ok s i : proc_ok s i zero_pcb.
Proof. constructor; [done|done|done|done|apply zero_queue_ok]. Qed.

(** Writing the bitmap of slots. *)
Lemma inv0_active s a :
  inv0 s -> 0 <= a < 2 ^ 64 -> Z.testbit a 0 = true ->
  (forall i p, arr_get (processes s) i = Some p -> 0 < i -> Z.testbit a i = false -> p_state p = PROC_TERMINATED) ->
  inv0 (set_active_process_bitmap a s).
Proof.
  intros [[t HQ] HE HP] Ha H0 Hb. constructor.
  - exists t. by eapply (rq_ok_ext s).
  - destruct HE as [[] ? ? ? ? ? ? ? ? ? ? ? ? ?]. by constructor.
  - intros i p Hp. destruct (HP i p Hp). constructor; auto. intros Hi Hbit. by eapply Hb.
Qed.
Lemma runs_FreeSlot s i c p :
  inv0 s -> arr_get (processes s) i = Some p -> p_state p = PROC_TERMINATED -> c <> i \/ c = 0 -> 0 <= c < 64 ->
  cur_free s c -> runs s (FreeSlotFast i) (fun _ s' => inv0 s' /\ cur_free s' c /\ processes s' = processes s /\
    rq s' = rq s /\ current_process s' = current_process s /\ term_queue_count s' = term_queue_count s).
Proof.
  intros HI Hp Hst Hci Hc [H0 H1 H2]. pose proof (i_range s i p HI Hp) as Hi. unfold FreeSlotFast.
  case_if E0; [|by apply runs_ret]. apply andb_true_iff in E0 as [E0%Z.ltb_lt _].
  eapply runs_Ok; [reflexivity|]. split; [|split; [split|done]].
  - apply inv0_active; [done|apply land_bound; [lia|apply (i_env s HI)]| |].
    { rewrite testbit_clear, (eo_idle s (i_env s HI)) by lia. apply negb_true_iff, Z.eqb_neq. lia. }
    intros j q Hq Hj. pose proof (i_range s j q HI Hq) as Hjr. rewrite testbit_clear by lia.
    destruct (Z.eqb_spec j i) as [-> |]; [by rewrite Hp in Hq; injection Hq as <-|].
    rewrite andb_true_r. by apply (i_proc s HI j q Hq).
  - done.
  - done.
  - cbn [active_process_bitmap set_active_process_bitmap]. rewrite testbit_clear, H2 by lia.
    apply negb_true_iff, Z.eqb_neq. lia.
Qed.
Lemma runs_RemoveTerm s (Q : Z -> sched -> Prop) :
  inv0 s -> 0 < term_queue_count s ->
  (forall i s', 0 <= i < 64 -> inv0 s' -> leaves s s' -> processes s' = processes s ->
     term_queue_count s' = term_queue_count s - 1 -> Q i s') ->
  runs s RemoveFromTerminationQueueAtomic Q.
Proof.
  intros HI Hn HQ. pose proof (i_env s HI) as HE. unfold RemoveFromTerminationQueueAtomic.
  apply runs_bind. eapply runs_Ok; [reflexivity|]. rewrite (proj2 (Z.eqb_neq _ 0)) by lia.
  apply runs_bind. eapply runs_Ok; [reflexivity|].
  destruct (arr_get_some (termination_queue s) (term_queue_head s)) as [i Hi].
  { rewrite (eo_tq s HE). apply (eo_head s HE). }
  assert (Hir : 0 <= i < 64).
  { pose proof (eo_entries s HE) as HF. rewrite Forall_lookup in HF. unfold arr_get in Hi.
    destruct (0 <=? term_queue_head s); [|done]. by eapply HF. }
  apply runs_bind. eapply (runs_Ok _ _ i s); [by rewrite Hi|]. apply runs_bind.
  pose proof (eo_count s HE) as Hc. pose proof (eo_head s HE) as Hh.
  apply runs_aux; [exact HI|reflexivity..| |].
  - destruct HE as [[] ? ? ? ? ? ? ? ? ? ? ? ? ?].
    constructor; [constructor|..]; cbn [sis_process_keys crc termination_queue term_queue_head term_queue_tail term_queue_count
      pid_bitmap APIC_HZ APICticks active_process_bitmap current_process rq set_term_queue_count set_term_queue_head]; auto.
    + apply Z.mod_pos_bound. unfold EEVDF_MAX_PROCESSES. lia.
    + rewrite u32_small by lia. lia.
  - intros s' Es HI' HL Eps. apply runs_ret. apply HQ; [done..|]. rewrite Es.
    cbn [term_queue_count set_term_queue_count]. apply u32_small. lia.
Qed.

Lemma runs_cleanup fuel : forall s n c, inv0 s -> 0 <= c < 64 -> c = current_slot (rq s) -> running_ok s c ->
  term_queue_count s < Z.of_nat fuel ->
  runs s (cleanup_loop fuel n) (fun _ s' => inv0 s' /\ cur_free s' c /\ current_slot (rq s') = c).
Proof.
  induction fuel as [|fuel IH]; intros s n c HI Hc Ec HR Hf; [pose proof (eo_count s (i_env s HI)); lia|].
  cbn [cleanup_loop]. apply runs_bind. eapply runs_Ok; [reflexivity|].
  case_if E0; [|apply runs_ret; by destruct HR]. apply andb_true_iff in E0 as [E0%Z.ltb_lt _].
  apply runs_bind. apply runs_RemoveTerm; [done|done|]. intros i s1 Hi HI1 HL1 Eps Ecnt.
  rewrite (proj2 (Z.leb_gt EEVDF_MAX_PROCESSES i)) by (unfold EEVDF_MAX_PROCESSES; lia).
  destruct HR as [HF Hz]. assert (HF1 : cur_free s1 c) by (by eapply cur_free_leaves).
  assert (Ec1 : c = current_slot (rq s1)) by (destruct HL1; congruence).
  destruct (i_get s1 i HI1 Hi) as [p Hp]. rstep runs_get_proc; [exact Hp|].
  case_bool_decide as Hst; cbn [negb].
  2:{ apply IH; [done|done|done| |lia]. split; [done|]. by rewrite Eps. }
  assert (Hn : p_rb_node p = None).
  { destruct (p_rb_node p) eqn:En; [|done]. destruct (i_proc s1 HI1 i p Hp) as [_ _ H3 _ _]. destruct H3; [congruence|done]. }
  assert (Hci : c <> i \/ c = 0).
  { destruct Hz as [-> |Hz]; [by right|left; intros ->]. rewrite <-Eps in Hz. by apply (Hz p). }
  apply runs_bind. apply (runs_mono _ _ (fun _ s' => inv0 s' /\ leaves s1 s' /\ processes s' = processes s1 /\ term_queue_count s' = term_queue_count s1)).
  { case_if E2; [|by apply runs_ret]. unfold call. aux_last HI1. intros s' Es H1 H2 H3. split_and!; [done|done|done|by rewrite Es]. }
  intros _ s2 (HI2 & HL2 & E2 & Ecnt2). rewrite <-E2 in Hp. apply runs_bind.
  eapply runs_upd_proc; [exact Hp|]. pose proof (inv0_upd s2 i p zero_pcb HI2 Hp ltac:(by rewrite Hn) ltac:(by left) (zero_pcb_ok s2 i)) as HI3.
  remember (set_processes _ s2) as s3 eqn:E3.
  assert (Hp3 : arr_get (processes s3) i = Some zero_pcb) by (rewrite E3; apply arr_get_insert_eq; by eapply arr_get_range).
  assert (HF3 : cur_free s3 c).
  { assert (HF2 : cur_free s2 c) by (by eapply cur_free_leaves). destruct HF2 as [F1 F2 F3]. rewrite E3.
    split; [| |exact F3]; intros q; cbn [processes set_processes]; (destruct (decide (c = i)) as [<-|Hne];
      [rewrite arr_get_insert_eq by (by eapply arr_get_range)|rewrite arr_get_insert_ne by lia; auto]).
    - intros [= <-]. destruct Hci; [done|lia].
    - by intros [= <-]. }
  apply runs_bind. eapply runs_mono; [apply (runs_FreeSlot s3 i c _ HI3 Hp3); [done|done|done|done]|].
  intros _ s4 (HI4 & HF4 & E4 & Erq4 & Ecp4 & Ecnt4). apply runs_bind. apply runs_aux; [exact HI4|reflexivity..| |].
  { pose proof (i_env _ HI4). same_env_ok. }
  intros s5 E5 HI5 HL5 Eps5. apply IH; [done|done| | |].
  - destruct HL5 as (-> & _). rewrite Erq4, E3. cbn [rq set_processes]. destruct HL2 as (-> & _). done.
  - split; [by eapply cur_free_leaves|]. destruct Hz as [-> |Hz]; [by left|]. right. intros q. rewrite Eps5, E4, E3, E2, Eps.
    cbn [processes set_processes]. destruct (decide (c = i)) as [-> |Hne].
    + destruct Hci as [?|?]; [done|]. subst. rewrite arr_get_insert_eq; [by intros [= <-]|]. rewrite <-Eps, <-E2. by eapply arr_get_range.
    + rewrite arr_get_insert_ne by lia. apply Hz.
  - rewrite E5. cbn [term_queue_count set_process_count]. rewrite Ecnt4, E3. cbn [term_queue_count set_processes]. lia.
Qed.

(** Only a tick can hang. *)
Lemma runs_Schedule s regs : inv s -> runs_or True s (EEVDFSchedule regs) (fun _ s' => inv s').
Proof.
  intros [HI HF]. pose proof (eo_slot s (i_env s HI)) as Hold. unfold EEVDFSchedule. rstep runs_GetNS; [done|]. intros now.
  apply runs_bind. eapply runs_Ok; [reflexivity|]. cbv zeta. set (old := current_slot (rq s)) in *.
  aux_step HI s1 HI1 HL1 E1 E1'. unfold upd_rq. aux_step HI1 s2 HI2 HL2 E2 E2'.
  assert (HF2 : cur_free s2 old) by (eapply cur_free_leaves; [exact HL2|]; by eapply cur_free_leaves).
  clear HF. apply runs_bind. apply (runs_mono _ _ (fun _ s' => inv0 s')).
  { case_if E3; [|by apply runs_ret]. apply andb_true_iff in E3 as [E3%negb_true_iff%Z.eqb_neq _].
    apply runs_bind. eapply runs_weak; [by apply runs_schedule_prev|]. intros _ s3 [HI3 HL3].
    destruct (i_get s3 old HI3 Hold) as [p Hp]. rstep runs_get_proc; [exact Hp|].
    case_bool_decide; [|by apply runs_ret]. eapply runs_weak; [apply runs_Enqueue; [done|lia]|]. by intros _ s4 [H4 _]. }
  intros _ s3 HI3. apply runs_bind. eapply runs_lift; [by apply runs_schedule_pick|done|]. intros next s4 (HI4 & _ & Hpick).
  assert (Hn : 0 <= next < 64) by (destruct Hpick as [-> |[? _]]; lia).
  apply runs_bind. eapply runs_Ok; [reflexivity|]. apply runs_bind. eapply runs_Ok; [reflexivity|].
  pose proof (inv0_set_current s4 next HI4 Hn) as HI5. set (s5 := set_current_process _ _) in *.
  assert (HF5 : cur_free s5 next).
  { destruct (i_get s4 next HI4 Hn) as [p Hp]. split.
    - intros q Hq Hr. change (processes s5) with (processes s4) in Hq. destruct Hpick as [-> |(_ & p' & Hp' & Hst & _)]; [lia|congruence].
    - intros q Hq. change (processes s5) with (processes s4) in Hq. destruct Hpick as [-> |(_ & p' & Hp' & _ & Hn')]; [|congruence].
      destruct (p_rb_node q) eqn:En; [|done]. by destruct (po_node _ _ _ (i_proc s4 HI4 0 q Hq)) as (_ & _ & ?); [congruence|].
    - change (active_process_bitmap s5) with (active_process_bitmap s4). apply not_false_iff_true. intros Hb.
      destruct Hpick as [-> |(Hr & p' & Hp' & Hst & _)].
      + by rewrite (eo_idle s4 (i_env s4 HI4)) in Hb.
      + rewrite (po_free _ _ _ (i_proc s4 HI4 next p' Hp')) in Hst; [done|lia|done]. }
  assert (Hpick5 : picked s5 next) by exact Hpick.
  apply runs_bind. eapply runs_weak; [by apply runs_schedule_switch|]. intros regs' s6 (HI6 & HL6 & HR6).
  assert (Ec6 : current_slot (rq s6) = next) by (by destruct HL6 as (-> & _)).
  apply runs_bind. eapply runs_Ok; [reflexivity|]. apply runs_bind.
  apply (runs_mono _ _ (fun _ s' => inv s')); [|intros _ s' H'; by apply runs_ret].
  case_if E6; [|apply runs_ret; split; [done|]; rewrite Ec6; by destruct HR6].
  eapply runs_weak; [apply (runs_cleanup 65 s6 0 next); [done|done|done|done|]|].
  - pose proof (eo_count s6 (i_env s6 HI6)). lia.
  - intros _ s7 (H1 & H2 & H3). split; [done|]. by rewrite H3.
Qed.
