(* ===== verification/SchedKernel.v ===== *)
(** Process creation, start-up, and the kernel as a whole: the scheduler and message passing
    share the process table, and any sequence of their operations is free of faults. *)
From Stdlib Require Import ZArith Lia Sorting.Sorted.
From stdpp Require Import base tactics list gmap numbers option sorting.
From S2P Require Import Prelude Crc32 RbTree RbRep RbInsert RbQueue Ipc IpcQueue IpcRun Eevdf Sched SchedQueue SchedTerm SchedSafe.

(** ** Creation *)
Lemma runs_FindFreeSlot s (Q : Z -> sched -> Prop) :
  inv0 s ->
  (forall i s', 0 < i < 64 -> Z.testbit (active_process_bitmap s) i = false -> inv0 s' -> processes s' = processes s ->
     rq s' = rq s -> active_process_bitmap s' = Z.lor (active_process_bitmap s) (shl64 1 i) -> Q i s') ->
  Q (-1) s -> runs s FindFreeSlotFast Q.
Proof.
  intros HI HQ Hno. unfold FindFreeSlotFast. apply runs_bind. eapply runs_Ok; [reflexivity|].
  case_if E0; [by apply runs_ret|]. case_if E1; [by apply runs_ret|]. apply Z.eqb_neq in E1.
  pose proof (eo_active s (i_env s HI)) as Ha. set (a := active_process_bitmap s) in *.
  set (av := Z.land (not64 a) (not64 1)) in *.
  assert (Hav : 0 <= av < 2 ^ 64) by (apply land_bound; [lia|apply lxor_bound; done]).
  destruct (ctz_from_hit 64 av ltac:(change (2 ^ Z.of_nat 64) with (2 ^ 64); lia)) as (Hr & Hb & _). fold (ctz64 av) in *.
  set (i := ctz64 av) in *. clearbody i. change (Z.of_nat 64) with 64 in Hr.
  subst av. rewrite Z.land_spec, !testbit_not64 in Hb by (done || lia).
  rewrite (proj2 (Z.ltb_lt i 64)) in Hb by lia. cbn [andb] in Hb.
  apply andb_true_iff in Hb as [Hb1%negb_true_iff Hb2%negb_true_iff].
  assert (Hi0 : i <> 0) by (intros ->; done).
  apply runs_bind. eapply runs_Ok; [reflexivity|]. apply runs_ret. apply HQ; [lia|done| |done..].
  apply inv0_active; [done| | |].
  - apply lor_bound; [lia|done|]. rewrite shl64_bit by lia. apply shl1_bound. lia.
  - rewrite testbit_set by lia. unfold a. by rewrite (eo_idle s (i_env s HI)).
  - intros j p Hp Hj. pose proof (i_range s j p HI Hp). rewrite testbit_set by lia. intros [Hbj _]%orb_false_iff.
    by apply (i_proc s HI j p Hp).
Qed.
Lemma runs_pid_loop n : forall s i (Q : Z -> sched -> Prop), inv0 s -> 0 < i -> i + Z.of_nat n <= 64 ->
  (forall r s', 0 <= r < 64 -> inv0 s' -> leaves s s' -> processes s' = processes s -> Q r s') -> runs s (pid_loop n i) Q.
Proof.
  induction n as [|n IH]; intros s i Q HI Hi Hn HQ; cbn [pid_loop]; [by apply runs_ret, HQ|].
  pose proof (i_env s HI) as HE. replace (i / 64) with 0 by dlia.
  destruct (arr_get_some (pid_bitmap s) 0) as [w Hw]; [rewrite (eo_pids s HE); lia|].
  apply runs_bind. eapply (runs_Ok _ _ w s); [by rewrite Hw|]. case_if E0; [|apply IH; [done|lia|lia|done]].
  apply runs_bind. eapply runs_Ok; [by rewrite arr_set_some by (rewrite (eo_pids s HE); lia)|]. apply runs_bind.
  apply runs_aux; [exact HI|reflexivity..| |].
  - destruct HE as [[] ? ? ? ? ? ? ? ? ? ? ? ? ?]. constructor; [constructor|..]; auto.
    cbn [pid_bitmap set_pid_bitmap]. by rewrite length_insert.
  - intros s' _ HI' HL Eps. apply runs_ret, HQ; [lia|done..].
Qed.
Lemma runs_hash s a b (Q : Z -> sched -> Prop) : inv0 s -> (forall h, Q h s) -> runs s (SISFastHash a b) Q.
Proof. intros HI HQ. eapply runs_Ok; [apply SISFastHash_ok, (i_env s HI)|done]. Qed.
Lemma runs_key s i pid (Q : Z -> sched -> Prop) :
  inv0 s -> 0 <= i < 64 -> (forall r s', inv0 s' -> leaves s s' -> processes s' = processes s -> Q r s') ->
  runs s (SISGenerateProcessKey i pid) Q.
Proof.
  intros HI Hi HQ. unfold SISGenerateProcessKey. aux_step HI s1 HI1 HL1 E1 E1'. apply runs_bind. eapply runs_Ok; [reflexivity|].
  rstep runs_hash; [done|]. intros h. apply runs_bind. pose proof (i_env s1 HI1) as HE.
  eapply runs_Ok; [by rewrite arr_set_some by (rewrite (sr_keys _ (eo_sis s1 HE)); lia)|]. apply runs_bind.
  apply runs_aux; [exact HI1|reflexivity..| |].
  - destruct HE as [[] ? ? ? ? ? ? ? ? ? ? ? ? ?]. constructor; [constructor|..]; auto.
    cbn [sis_process_keys set_sis_process_keys]. by rewrite length_insert.
  - intros s2 _ HI2 HL2 E2. apply runs_ret. apply HQ; [done|by etrans|congruence].
Qed.

Lemma init_pcb_some pid stack priv ticks entry vrt now :
  exists p, init_pcb pid stack priv ticks entry vrt now = Some p /\ p_pid p = pid /\ p_state p = PROC_READY /\
    p_weight p = 1024 /\ p_rb_node p = None /\ p_ipc_queue p = zero_queue /\ p_vruntime p = vrt /\
    p_stack p = stack /\ p_privilege_level p = priv.
Proof. eexists. split; [reflexivity|]. done. Qed.

Lemma runs_Create s entry priv caps stack :
  inv s -> runs s (EEVDFCreateSecureProcess entry priv caps stack) (fun _ s' => inv s').
Proof.
  intros [HI HF]. unfold EEVDFCreateSecureProcess. case_if E0; [by apply runs_panic|].
  apply runs_bind. eapply runs_Ok; [reflexivity|]. case_if E1; [by apply runs_panic|].
  apply runs_bind. apply runs_FindFreeSlot; [done| |by rewrite Z.eqb_refl; apply runs_panic].
  intros i s1 Hi Hfree HI1 Eps1 Erq1 Eact. rewrite (proj2 (Z.eqb_neq i (-1))) by lia.
  remember (current_slot (rq s)) as c eqn:Ec.
  assert (Hci : c <> i) by (intros <-; destruct HF; congruence).
  pose proof (eo_slot s (i_env s HI)) as Hc. rewrite <-Ec in Hc.
  assert (HF1 : cur_free s1 c).
  { destruct HF as [H0 H1 H2]. split; [by rewrite Eps1|by rewrite Eps1|]. rewrite Eact, testbit_set, H2 by lia. done. }
  assert (Hbit : Z.testbit (active_process_bitmap s1) i = true).
  { rewrite Eact, testbit_set, Z.eqb_refl by lia. apply orb_true_r. }
  assert (Hold : exists p, arr_get (processes s1) i = Some p /\ p_state p = PROC_TERMINATED /\ p_rb_node p = None).
  { destruct (i_get s i HI ltac:(lia)) as [p Hp]. exists p. rewrite Eps1. split; [done|].
    destruct (i_proc s HI i p Hp) as [_ _ H3 H4 _]. assert (Hst : p_state p = PROC_TERMINATED) by (apply H4; [lia|done]).
    split; [done|]. destruct (p_rb_node p); [|done]. destruct H3 as (_ & H3 & _); done. }
  clear HF Hfree HI E0 E1. destruct Hold as (p0 & Hp0 & Hst0 & Hn0).
  apply runs_bind. apply runs_pid_loop; [done|lia|lia|]. intros pid s2 Hpid HI2 HL2 Eps2. rewrite <-Eps2 in Hp0.
  assert (HF2 : cur_free s2 c) by (by eapply cur_free_leaves).
  case_if E2.
  { apply runs_bind. unfold FreeSlotFast. by case_if E3. }
  apply runs_bind. eapply runs_upd; [exact HI2|exact Hp0|by rewrite Hn0|by left|apply zero_pcb_ok|by rewrite Hst0|].
  intros s3 _ HI3 HL3 Hp3. assert (HF3 : cur_free s3 c) by (by eapply cur_free_leaves).
  case_if E3.
  { apply runs_bind. eapply runs_mono; [apply (runs_FreeSlot s3 i c _ HI3 Hp3); [done|by left|done|done]|].
    intros _ s4 (HI4 & _). apply runs_bind. eapply runs_mono; [by apply runs_free_pid|]. by intros. }
  apply runs_bind. apply runs_current; [done|]. destruct (i_get s3 _ HI3 (eo_cur s3 (i_env s3 HI3))) as [creator Hcr].
  rstep runs_get_proc; [exact Hcr|]. do 2 (apply runs_bind; eapply runs_Ok; [reflexivity|]).
  rstep runs_GetNS; [done|]. intros now. apply runs_bind.
  destruct (init_pcb_some pid stack priv (APICticks s3) entry (min_vruntime (rq s3)) now)
    as (p & Hinit & Epid & Est & Ew & En & Eq & _). eapply runs_Ok; [by rewrite Hinit|]. clear Hinit.
  assert (HL13 : leaves s1 s3) by (by etrans).
  assert (HPnew : forall sx q, active_process_bitmap sx = active_process_bitmap s1 -> p_pid q = pid -> p_state q = PROC_READY ->
    p_weight q = 1024 -> p_rb_node q = None -> p_ipc_queue q = zero_queue -> proc_ok sx i q).
  { intros sx q H1 H2 H3 H4 H5 H6. constructor; [unfold weight_ok; lia|lia|by rewrite H5| |rewrite H6; apply zero_queue_ok].
    rewrite H1, Hbit. done. }
  apply runs_bind. eapply runs_upd; [exact HI3|exact Hp3|done|by left|by apply HPnew; [apply HL13|..]|by rewrite Est|].
  intros s4 _ HI4 HL4 Hp4. apply runs_bind. apply runs_key; [done|lia|]. intros r s5 HI5 HL5 E5. rewrite <-E5 in Hp4.
  assert (HL15 : leaves s1 s5) by (by repeat (etrans; [eassumption|])).
  apply runs_bind. unfold EEVDFCalculateTokenChecksum. apply runs_hash; [done|]. intros sum. apply runs_bind.
  eapply runs_upd; [exact HI5|exact Hp4|done|by left|by apply HPnew; [apply HL15|..]|done|]. intros s6 _ HI6 HL6 Hp6.
  apply runs_bind. eapply runs_seal; [exact HI6|exact Hp6|]. intros s7 p7 HI7 HL7 Hp7 E7 _.
  assert (HL17 : leaves s1 s7) by (by repeat (etrans; [eassumption|])).
  apply runs_bind. eapply runs_upd; [exact HI7|exact Hp7|done|left; by rewrite E7| |done|].
  { apply HPnew; [apply HL17|by rewrite E7..]. }
  intros s8 _ HI8 HL8 Hp8. unfold call. aux_step HI8 s9 HI9 HL9 E9 E9'. aux_step HI9 s10 HI10 HL10 E10 E10'.
  apply runs_bind. eapply runs_mono; [by apply runs_set_ready|]. intros _ s11 (HI11 & HL11 & E11).
  aux_step HI11 s12 HI12 HL12 E12 E12'.
  assert (HL : leaves s1 s12) by (by repeat (etrans; [eassumption|])).
  apply runs_bind. eapply runs_mono; [apply runs_Enqueue; [exact HI12|lia]|]. intros _ s13 (HI13 & Hsl & _ & _ & HK).
  apply runs_ret. split; [done|]. rewrite Hsl. destruct HL as (HLs & HLrest). rewrite HLs, Erq1, <-Ec.
  assert (HF12 : cur_free s12 c).
  { eapply cur_free_leaves; [|exact HF1]. by repeat (etrans; [eassumption|]). }
  by apply HK.
Qed.

(** ** Start-up *)

(** The static initialisers, with the timer's rate and count. *)
Definition boot (ticks hz : Z) : sched :=
  mk_sched (replicate 64 zero_pcb) zero_rq [0; 0] 0 0 false 0 0 0x1337C0DEDEADBEEF (replicate 64 0) crc_boot
    (replicate 64 0) 0 0 0 0 0 0 0 0 0 ticks hz [].

Lemma zero_rq_ok s : processes s = replicate 64 zero_pcb -> rq s = zero_rq -> rq_ok s E.
Proof.
  intros Eps Erq. constructor; rewrite ?Eps, ?Erq; cbn [zero_rq rq_tree nr_running load_weight slots]; [done| | | |done|done].
  - constructor; [|exists 0%nat; constructor| | |done|constructor|constructor].
    + constructor; [done|done|constructor|done].
    + cbn [zero_tree rb_node_pool]. rewrite dom_list_to_map_L, <-list_fmap_compose.
      rewrite (list_fmap_ext _ (fun i => i)) by done. by rewrite list_fmap_id.
    + exists 0, 0. split; [done|]. split; [done|]. split; [done|].
      split; intros b _; rewrite Z.bits_0; symmetry; apply bool_decide_eq_false, not_elem_of_nil.
  - intros i p n Hp. unfold arr_get in Hp. destruct (0 <=? i); [|done]. apply lookup_replicate in Hp as [-> _].
    cbn. split; [done|]. intros H. by apply not_elem_of_nil in H.
  - intros i p n _ H. by apply not_elem_of_nil in H.
Qed.

(** The first hash also builds the checksum table. *)
Lemma SISFastHash_first s a b :
  crc_ok (crc s) -> exists h c', SISFastHash a b s = Ok (h, set_crc c' s) /\ crc_ok c' /\ table_generated c' = true.
Proof.
  intros Hc. unfold SISFastHash. step (gets_ok crc s).
  destruct (CRC32_ok (le_bytes 8 a ++ le_bytes 8 b) (crc s) Hc) as (c' & HE & Hc' & Hg).
  { rewrite Forall_app. split; apply le_bytes_byte. }
  eexists _, c'. split; [|done]. unfold bind at 1, lift. rewrite HE. reflexivity.
Qed.
Lemma key_first s i pid :
  crc_ok (crc s) -> length (sis_process_keys s) = 64%nat -> 0 <= i < 64 ->
  exists k c' ks n, SISGenerateProcessKey i pid s = Ok (k, set_sis_process_keys ks (set_crc c' (set_sis_global_nonce n s))) /\
    crc_ok c' /\ table_generated c' = true /\ length ks = 64%nat.
Proof.
  intros Hc Hk Hi. unfold SISGenerateProcessKey. erewrite bind_Ok by reflexivity. set (s1 := set_sis_global_nonce _ s).
  erewrite bind_Ok by reflexivity.
  destruct (SISFastHash_first s1 (Z.lxor SIS_SALT_BASE (sis_global_nonce s1)) (Z.lor (u64 (Z.shiftl pid 32)) i) Hc)
    as (h & c' & HE & Hc' & Hg). step HE.
  erewrite bind_Ok; [|by rewrite arr_set_some by (cbn; lia)]. erewrite bind_Ok by reflexivity.
  eexists _, c', _, _. split; [reflexivity|]. split; [done|]. split; [done|]. cbn. by rewrite length_insert.
Qed.

Lemma GetNS_ok s : 0 < APIC_HZ s -> GetNS s = Ok (u64 (APICticks s * 1000000000) / APIC_HZ s, s).
Proof. intros H. unfold GetNS. by rewrite (proj2 (Z.eqb_neq _ _)) by lia. Qed.

(** The idle process fills slot 0 of an empty table. *)
Lemma idle_inv s pf :
  processes s = <[0%nat := pf]> (replicate 64 zero_pcb) -> rq s = zero_rq -> sis_ready s ->
  p_weight pf = 1024 -> p_rb_node pf = None -> p_pid pf = 0 -> p_ipc_queue pf = zero_queue ->
  termination_queue s = replicate 64 0 -> term_queue_head s = 0 -> term_queue_tail s = 0 -> term_queue_count s = 0 ->
  pid_bitmap s = [0; 0] -> 0 < APIC_HZ s -> 0 <= APICticks s < 2 ^ 32 -> active_process_bitmap s = 1 ->
  current_process s = 0 -> inv s.
Proof.
  intros Eps Erq HS Hw Hn Hpid Hq Etq Eh Et Ec Ebm Hhz Htk Ea Ecp.
  assert (Hget : forall i p, arr_get (processes s) i = Some p -> (i = 0 /\ p = pf) \/ p = zero_pcb).
  { intros i p Hp. rewrite Eps in Hp. unfold arr_get in Hp. destruct (Z.leb_spec 0 i); [|discriminate].
    apply list_lookup_insert_Some in Hp as [(E0 & <- & _)|(_ & Hp)]; [left; split; [lia|reflexivity]|].
    right. by apply lookup_replicate in Hp as [-> _]. }
  split; [constructor|split].
  - exists E. set (sz := set_processes (replicate 64 zero_pcb) s).
    assert (Hz : arr_get (processes sz) 0 = Some zero_pcb) by reflexivity.
    eapply (rq_ok_ext (set_processes (<[Z.to_nat 0 := pf]> (processes sz)) sz)); [exact Eps|reflexivity..|].
    eapply (rq_ok_upd_free sz E 0 zero_pcb pf); [apply zero_rq_ok; [reflexivity|exact Erq]|exact Hz|reflexivity|exact Hn].
  - constructor; rewrite ?Etq, ?Eh, ?Et, ?Ec, ?Ebm, ?Ea, ?Ecp, ?Erq; cbn [current_slot zero_rq]; try lia; try assumption; try reflexivity.
    apply Forall_replicate. lia.
  - intros i p Hp. destruct (Hget i p Hp) as [[-> ->] | ->]; [|apply zero_pcb_ok].
    constructor; [unfold weight_ok; lia|lia|by rewrite Hn|lia|rewrite Hq; apply zero_queue_ok].
  - rewrite Erq. cbn. lia.
  - rewrite Erq. intros p Hp. destruct (Hget _ p Hp) as [[_ ->] | ->]; [exact Hn|reflexivity].
  - rewrite Erq, Ea. reflexivity.
Qed.
Lemma idle_fields : exists idle, EEVDFSetTaskNice 0 zero_pcb = Some idle /\ p_weight idle = 1024 /\ p_rb_node idle = None /\
  p_pid idle = 0 /\ p_ipc_queue idle = zero_queue.
Proof. eexists. split; [reflexivity|]. split; [reflexivity|]. repeat split. Qed.
Lemma sched_init_inv ticks hz :
  0 <= ticks < 2 ^ 32 -> 0 < hz -> exists s, EEVDFSchedInit (boot ticks hz) = Ok (tt, s) /\ inv s.
Proof.
  intros Ht Hh. unfold EEVDFSchedInit. erewrite bind_Ok by reflexivity. set (s0 := set_tick_counter _ _).
  erewrite bind_Ok by reflexivity. step (GetNS_ok s0 Hh).
  destruct idle_fields as (idle & HS & Hw & Hn & Hpid & Hq). erewrite bind_Ok; [|by rewrite HS]. clear HS.
  assert (Hp0 : arr_get (processes s0) 0 = Some zero_pcb) by reflexivity.
  set (now := u64 _ / _). set (f1 := fun _ : EEVDFProcessControlBlock => set_p_exec_start now _).
  step (upd_proc_ok s0 0 f1 zero_pcb Hp0). set (s1 := set_processes _ s0).
  assert (Hcrc : crc_ok (crc s1)) by (split; [reflexivity|discriminate]).
  destruct (key_first s1 0 0 Hcrc ltac:(reflexivity) ltac:(lia)) as (k & c' & ks & n & HE & Hc' & Hg & Hks). step HE.
  set (s2 := set_sis_process_keys ks _).
  assert (HS2 : sis_ready s2) by (constructor; [exact Hc'|exact Hg|exact Hks]).
  unfold EEVDFCalculateTokenChecksum. erewrite bind_Ok; [|by apply (SISFastHash_ok s2)].
  set (sum := crc_ref _). clearbody sum. set (tok := set_p_token _).
  assert (Hp2 : arr_get (processes s2) 0 = Some (f1 zero_pcb)) by reflexivity.
  step (upd_proc_ok s2 0 tok _ Hp2). set (s3 := set_processes _ s2).
  assert (Hp3 : arr_get (processes s3) 0 = Some (tok (f1 zero_pcb))) by reflexivity.
  assert (HS3 : sis_ready s3) by (constructor; [exact Hc'|exact Hg|exact Hks]).
  step (SISUpdateSeal_ok s3 0 _ HS3 ltac:(lia) Hp3). set (seal := seal_of _ _ _). clearbody seal.
  unfold call. erewrite bind_Ok by reflexivity. eexists. split; [reflexivity|].
  apply (idle_inv _ (set_p_sis_seal seal (tok (f1 zero_pcb)))); try reflexivity; try assumption.
  constructor; [exact Hc'|exact Hg|exact Hks].
Qed.

(** ** The kernel *)

(** Scheduler and message passing work on the same process table. *)
Record kernel := mk_kernel { ks : sched; kseq : Z }.
Definition ipc_view (k : kernel) : ipc_sys EEVDFProcessControlBlock :=
  mk_sys (processes (ks k)) (current_process (ks k)) (kseq k) (APICticks (ks k)).
Definition ipc_back (y : ipc_sys EEVDFProcessControlBlock) (k : kernel) : kernel :=
  mk_kernel (set_processes (procs y) (ks k)) (next_sequence_id y).

(** The calls processes and the timer interrupt make. *)
Inductive kcall :=
| KSchedule (regs : Registers)
| KCreate (entry_point priv caps stack : Z)
| KKill (pid : Z)
| KKillAll
| KKillCurrent
| KExit
| KYield
| KTimer (ticks : Z)
| KSend (pid : Z) (msg : option IpcMessage)
| KReceive
| KReceiveType (ty : IpcMessageType)
| KFlush.

Definition on_sched {A} (m : M A) (k : kernel) : outcome kernel :=
  match m (ks k) with Ok (_, s') => Ok (mk_kernel s' (kseq k)) | Panic => Panic | Hang => Hang | Fault => Fault end.
Definition on_ipc {A} (r : option (A * ipc_sys EEVDFProcessControlBlock)) (k : kernel) : outcome kernel :=
  match r with Some (_, y) => Ok (ipc_back y k) | None => Fault end.

Definition exec (c : kcall) (k : kernel) : outcome kernel :=
  match c with
  | KSchedule regs => on_sched (Scheduler.Schedule regs) k
  | KCreate e p cp st => on_sched (EEVDFCreateSecureProcess e p cp st) k
  | KKill pid => on_sched (Scheduler.KillProcess pid) k
  | KKillAll => on_sched Scheduler.KillAllProcess k
  | KKillCurrent => on_sched Scheduler.KillCurrentProcess k
  | KExit => on_sched ProcessExitStubEEVDF k
  | KYield => on_sched Scheduler.Yield k
  | KTimer t => on_sched (modify (set_APICticks (u32 t))) k
  | KSend pid msg => on_ipc (IpcSendMessage pid msg (ipc_view k)) k
  | KReceive => on_ipc (IpcReceiveMessage_pass (ipc_view k)) k
  | KReceiveType ty => on_ipc (IpcReceiveMessageType_pass ty (ipc_view k)) k
  | KFlush => on_ipc ((fun y => (tt, y)) <$> IpcFlushQueue (ipc_view k)) k
  end.
Fixpoint exec_all (cs : list kcall) (k : kernel) : outcome kernel :=
  match cs with
  | [] => Ok k
  | c :: cs' => match exec c k with Ok k' => exec_all cs' k' | Panic => Panic | Hang => Hang | Fault => Fault end
  end.
(** [H]: whether the kernel may hang. *)
Definition safe_or (H : Prop) (r : outcome kernel) : Prop :=
  match r with Ok k => inv (ks k) | Panic => True | Hang => H | Fault => False end.
Notation safe := (safe_or False).

Lemma on_sched_safe [H A] (m : M A) k : runs_or H (ks k) m (fun _ s' => inv s') -> safe_or H (on_sched m k).
Proof. unfold runs_or, on_sched. by destruct (m (ks k)) as [[a s']| | |]. Qed.
Lemma safe_weak [H] r : safe r -> safe_or H r.
Proof. by destruct r. Qed.
Definition is_tick (c : kcall) : Prop := exists regs, c = KSchedule regs.

Lemma ipc_view_ok k : inv (ks k) -> sys_ok (ipc_view k).
Proof.
  intros [HI _]. constructor; cbn [procs current ticks ipc_view].
  - apply Forall_lookup. intros i p Hp. apply (po_queue (ks k) (Z.of_nat i)), (i_proc (ks k) HI). 
    unfold arr_get. by rewrite (proj2 (Z.leb_le 0 _)), Nat2Z.id by lia.
  - destruct (i_rq (ks k) HI) as [t HQ]. rewrite (rk_len _ _ HQ). apply (eo_cur _ (i_env _ HI)).
  - pose proof (eo_ticks _ (i_env _ HI)). lia.
Qed.
(** A message operation writes one process: its mailbox, and its state between blocked and ready. *)
Lemma ipc_back_safe k i p p' y :
  inv (ks k) -> arr_get (processes (ks k)) i = Some p -> procs y = <[Z.to_nat i := p']> (processes (ks k)) ->
  queue_ok (p_ipc_queue p') ->
  (exists q, p' = set_p_ipc_queue q p \/
     (p' = set_p_state PROC_READY (set_p_ipc_queue q p) /\ p_state p = PROC_BLOCKED) \/
     (p' = set_p_state PROC_BLOCKED (set_p_ipc_queue q p) /\ (0 < i -> p_state p <> PROC_TERMINATED))) ->
  safe (Ok (ipc_back y k)).
Proof.
  intros [HI HF] Hp Hps Hq (q & Hcase). unfold safe_or, ipc_back. cbn [ks]. rewrite Hps.
  assert (HP : proc_ok (ks k) i (set_p_ipc_queue (p_ipc_queue p') p)).
  { destruct (i_proc _ HI i p Hp). by constructor. }
  assert (Hq' : p_ipc_queue p' = q) by (by destruct Hcase as [-> |[[-> _]|[-> _]]]). rewrite Hq' in HP.
  assert (HP' : proc_ok (ks k) i p').
  { destruct Hcase as [-> |[[-> Hst]|[-> Hst]]]; [done|apply proc_ok_state; [done|cbn; by rewrite Hst|done|done]|by apply proc_ok_state]. }
  assert (En : p_rb_node p' = p_rb_node p) by (by destruct Hcase as [-> |[[-> _]|[-> _]]]).
  assert (Ew : p_weight p' = p_weight p /\ p_vruntime p' = p_vruntime p) by (by destruct Hcase as [-> |[[-> _]|[-> _]]]).
  eapply inv_leaves; [|by eapply inv0_upd; [..|right|]|by split]. eapply leaves_upd; [exact Hp|exact En|].
  by destruct Hcase as [-> |[[-> _]|[-> _]]].
Qed.

Lemma send_safe k pid msg : inv (ks k) -> safe (on_ipc (IpcSendMessage pid msg (ipc_view k)) k).
Proof.
  intros HI. pose proof (ipc_view_ok k HI) as HV. destruct (send_any_ok _ pid msg HV) as (r & y & HE & HO).
  rewrite HE. cbn [on_ipc]. revert HE. unfold IpcSendMessage.
  assert (Hid : safe (Ok (ipc_back (ipc_view k) k))).
  { unfold safe_or, ipc_back, ipc_view. cbn [ks procs]. by rewrite set_processes_eta. }
  destruct msg as [m|]; [|by intros [= _ <-]].
  destruct (GetCurrentProcessByPID pid (ipc_view k)) as [i|] eqn:Ep; [|by intros [= _ <-]].
  destruct (by_pid_get _ pid i Ep) as [p Hp]. rewrite Hp, option_bind_Some.
  destruct (queue_send _ _ _ _) as [[e q]|] eqn:Eq; [|done]. rewrite option_bind_Some.
  destruct e; try (by intros [= _ <-]). rewrite arr_set_some by (by eapply arr_get_range). rewrite option_bind_Some.
  intros [= _ <-]. cbn [procs set_procs bump_seq] in HO.
  set (p' := if bool_decide _ then _ else _) in *.
  apply (ipc_back_safe k i p p'); [done|exact Hp|reflexivity| |].
  - apply (sys_proc _ i p' HO). cbn [procs]. apply arr_get_insert_eq. by eapply arr_get_range.
  - exists q. subst p'. case_bool_decide as Hb; [right; left|left]; done.
Qed.
Lemma receive_safe k recv :
  inv (ks k) -> (exists r y, receive_pass recv (ipc_view k) = Some (r, y) /\ sys_ok y) ->
  safe (on_ipc (receive_pass recv (ipc_view k)) k).
Proof.
  intros HI (r & y & HE & HO). rewrite HE. cbn [on_ipc]. revert HE. unfold receive_pass.
  destruct (GetCurrentProcess (ipc_view k)) as [p|] eqn:Hp; [|done]. rewrite option_bind_Some.
  destruct (recv (proc_queue p)) as [[m q]|] eqn:Er; [|done]. rewrite option_bind_Some.
  unfold GetCurrentProcess in Hp. rewrite arr_set_some by (by eapply arr_get_range). rewrite option_bind_Some.
  intros [= _ <-]. cbn [current ipc_view procs set_procs] in *. set (c := current_process (ks k)) in *.
  set (p' := match m with Some _ => _ | None => _ end) in *.
  apply (ipc_back_safe k c p p'); [done|exact Hp|reflexivity| |].
  - apply (sys_proc _ c p' HO). cbn [procs]. apply arr_get_insert_eq. by eapply arr_get_range.
  - exists q. subst p'. destruct m; [by left|]. right. right. split; [done|].
    destruct HI as [HI HF]. subst c. rewrite (eo_same _ (i_env _ HI)) in Hp |- *. by apply (cf_live _ _ HF).
Qed.
Lemma exec_safe c k : inv (ks k) -> safe_or (is_tick c) (exec c k).
Proof.
  intros HI. pose proof (ipc_view_ok k HI) as HV.
  assert (Hl : forall A (m : M A), runs (ks k) m (fun _ s' => inv0 s' /\ leaves (ks k) s') -> safe_or (is_tick c) (on_sched m k)).
  { intros A m H. apply safe_weak, on_sched_safe. eapply runs_mono; [exact H|]. intros _ s' [H1 H2]. by eapply inv_leaves. }
  destruct c as [regs|e p cp st|pid| | | | |t|pid msg| |ty|]; cbn [exec].
  - apply on_sched_safe. eapply runs_lift; [by apply runs_Schedule|intros _; by exists regs|done].
  - by apply safe_weak, on_sched_safe, runs_Create.
  - by apply Hl, runs_Terminate, HI.
  - apply Hl, runs_kill_loop; [apply HI|lia|lia].
  - by apply Hl, runs_KillCurrent, HI.
  - by apply Hl, runs_Exit, HI.
  - destruct HI as [HI HF]. apply Hl. unfold Scheduler.Yield, EEVDFYield. aux_last HI. by intros s' _ H1 H2 _.
  - destruct HI as [HI HF]. apply Hl. apply runs_aux; [exact HI|reflexivity..| |by intros s' _ H1 H2 _].
    destruct (i_env _ HI) as [[] ? ? ? ? ? ? ? ? ? ? ? ? ?]. constructor; [constructor|..]; auto. apply u32_range.
  - by apply safe_weak, send_safe.
  - apply safe_weak, receive_safe; [done|]. destruct (IpcReceive_ok _ HV) as (r & y & H1 & H2 & _). by exists r, y.
  - apply safe_weak, receive_safe; [done|]. destruct (IpcReceiveType_ok _ ty HV) as (r & y & H1 & H2 & _). by exists r, y.
  - destruct (IpcFlush_ok _ HV) as (y & HE & HO & _). rewrite HE. cbn [fmap option_fmap option_map on_ipc]. revert HE. unfold IpcFlushQueue.
    destruct (GetCurrentProcess (ipc_view k)) as [p|] eqn:Hp; [|done]. rewrite option_bind_Some. unfold GetCurrentProcess in Hp.
    rewrite arr_set_some by (by eapply arr_get_range). rewrite option_bind_Some. intros [= <-].
    apply safe_weak. eapply (ipc_back_safe k _ p); [done|exact Hp|reflexivity| |by eexists; left].
    eapply (sys_proc _ _ _ HO). cbn [procs set_procs current]. apply arr_get_insert_eq. by eapply arr_get_range.
Qed.
Lemma exec_all_safe cs : forall k, inv (ks k) -> safe_or (Exists is_tick cs) (exec_all cs k).
Proof.
  induction cs as [|c cs IH]; intros k HI; cbn [exec_all]; [done|].
  pose proof (exec_safe c k HI) as HS. destruct (exec c k) as [k'| | |]; [|done|by left|done].
  specialize (IH k' HS). destruct (exec_all cs k'); [done|done|by right|done].
Qed.
