(* ===== verification/SchedTick.v ===== *)
(** The scheduling tick, step by step: what the running task is charged, how it goes back to
    the queue, which task is picked and what the switch does. *)
From Stdlib Require Import ZArith Lia Sorting.Sorted.
From stdpp Require Import base tactics list gmap numbers option sorting.
From S2P Require Import Prelude Crc32 RbTree RbRep RbInsert RbQueue Ipc Eevdf Sched SchedQueue SchedTerm SchedSafe SchedKernel.

Definition now_ns (s : sched) : Z := u64 (APICticks s * 1000000000) / APIC_HZ s.

(** ** Charging the running task *)
Definition charge (now lw : Z) (p : EEVDFProcessControlBlock) : EEVDFProcessControlBlock :=
  let d := u64 (now - p_exec_start p) in
  if d =? 0 then p else
  set_p_vruntime (u64 (p_vruntime p + EEVDFCalcDelta d EEVDF_NICE_0_LOAD lw))
    (set_p_cpu_time_accumulated (u64 (p_cpu_time_accumulated p + d))
    (set_p_sum_exec_runtime (u64 (p_sum_exec_runtime p + d)) (set_p_exec_start now p))).
Lemma charge_same now lw p :
  p_state (charge now lw p) = p_state p /\ p_pid (charge now lw p) = p_pid p /\
  p_privilege_level (charge now lw p) = p_privilege_level p /\ p_sis_seal (charge now lw p) = p_sis_seal p /\
  p_rb_node (charge now lw p) = p_rb_node p /\ p_weight (charge now lw p) = p_weight p /\
  p_context (charge now lw p) = p_context p /\ p_stack (charge now lw p) = p_stack p /\
  p_token (charge now lw p) = p_token p.
Proof. unfold charge. by case_if E0. Qed.

Lemma set_min_vruntime_eta q : set_min_vruntime (min_vruntime q) q = q.
Proof. by destruct q. Qed.
Lemma EEVDFUpdateCurr_ok s t i p :
  rq_ok s t -> 0 < APIC_HZ s -> arr_get (processes s) i = Some p -> p_rb_node p = None ->
  exists m, EEVDFUpdateCurr i s =
    Ok (tt, set_rq (set_min_vruntime m (rq s))
              (set_processes (<[Z.to_nat i := charge (now_ns s) (load_weight (rq s)) p]> (processes s)) s)) /\
    rq_ok (set_rq (set_min_vruntime m (rq s))
             (set_processes (<[Z.to_nat i := charge (now_ns s) (load_weight (rq s)) p]> (processes s)) s)) t.
Proof.
  intros HQ Hh Hp Hn. pose proof (arr_get_range _ _ _ Hp) as Hi. destruct (charge_same (now_ns s) (load_weight (rq s)) p) as (_ & _ & _ & _ & En & _).
  assert (HR : forall m, rq_ok (set_rq (set_min_vruntime m (rq s))
             (set_processes (<[Z.to_nat i := charge (now_ns s) (load_weight (rq s)) p]> (processes s)) s)) t).
  { intros m. eapply (rq_ok_ext (set_processes (<[Z.to_nat i := charge (now_ns s) (load_weight (rq s)) p]> (processes s)) s)); [done..|].
    eapply rq_ok_upd_free; [done|done|done|by rewrite En]. }
  unfold EEVDFUpdateCurr. step (GetNS_ok s Hh). fold (now_ns s). step (get_proc_ok s i p Hp).
  destruct (u64 (now_ns s - p_exec_start p) =? 0) eqn:Ed.
  { exists (min_vruntime (rq s)). split; [|apply HR]. unfold charge. rewrite Ed.
    by rewrite (insert_self _ _ _ Hp), set_processes_eta, set_min_vruntime_eta, set_rq_eta. }
  step (eq_refl : get_rq s = Ok (rq s, s)). erewrite bind_Ok; [|by apply upd_proc_ok]. cbv beta zeta.
  set (p1 := set_p_vruntime _ _).
  assert (Ec : charge (now_ns s) (load_weight (rq s)) p = p1) by (unfold charge; by rewrite Ed).
  rewrite Ec in *. set (s1 := set_processes _ s) in *.
  assert (HQ1 : rq_ok s1 t) by (eapply rq_ok_upd_free; done).
  assert (Hp1 : arr_get (processes s1) i = Some p1) by (by apply arr_get_insert_eq).
  assert (Ert : rq_tree (rq s) = rq_tree (rq s1)) by reflexivity.
  destruct (rb_leftmost (rq_tree (rq s))) as [n|] eqn:El.
  - rewrite Ert in El |- *. destruct (leftmost_deref s1 t n HQ1 El) as (nd & q & Hd & Hq). exists (p_vruntime q).
    split; [|apply HR]. erewrite bind_Ok; [|by rewrite Hd]. step (get_proc_ok s1 _ q Hq). done.
  - exists (p_vruntime p1). split; [|apply HR]. step (get_proc_ok s1 i p1 Hp1). done.
Qed.

(** ** The task that was running *)
Lemma Postflight_ok s i p :
  sis_ready s -> 0 < i < 64 -> arr_get (processes s) i = Some p -> sealed s i p -> EEVDFPostflightCheck i s = Ok (true, s).
Proof.
  intros HS Hi Hp Hs. unfold EEVDFPostflightCheck. rewrite (proj2 (Z.eqb_neq i 0)) by lia. step (get_proc_ok s i p Hp).
  step (SISVerifyPCB_ok s p i HS ltac:(lia)). rewrite Hs, Z.eqb_refl. done.
Qed.
(** The privileges a switch asks for. *)
Definition rights_ok (p : EEVDFProcessControlBlock) : Prop :=
  p_privilege_level p <> EEVDF_PROC_PRIV_SYSTEM \/
  Z.land (capabilities (p_token p)) (Z.lor (Z.lor EEVDF_CAP_SUPERVISOR EEVDF_CAP_CRITICAL) EEVDF_CAP_IMMUNE) <> 0.
Lemma Preflight_ok held s i p :
  sis_ready s -> 0 <= i < 64 -> arr_get (processes s) i = Some p -> sealed s i p -> rights_ok p ->
  EEVDFPreflightCheck held i s = Ok (true, s).
Proof.
  intros HS Hi Hp Hs Hr. unfold EEVDFPreflightCheck. case_if E0; [done|]. step (get_proc_ok s i p Hp).
  step (SISVerifyPCB_ok s p i HS Hi). rewrite Hs, Z.eqb_refl. cbn [negb].
  destruct Hr as [Hr|Hr]; [by rewrite (proj2 (Z.eqb_neq _ _) Hr)|by rewrite (proj2 (Z.eqb_neq _ _) Hr), andb_false_r].
Qed.

Lemma same_env_min s m : same_env s (set_rq (set_min_vruntime m (rq s)) s).
Proof. by repeat split. Qed.
Lemma schedule_prev_ok s t c p regs :
  rq_ok s t -> sis_ready s -> 0 < APIC_HZ s -> 0 < c < 64 -> arr_get (processes s) c = Some p ->
  p_state p = PROC_RUNNING -> p_rb_node p = None -> sealed s c p ->
  exists s' p' m, schedule_prev c regs s = Ok (tt, s') /\ rq_ok s' t /\ same_env s s' /\ same_term s s' /\
    processes s' = <[Z.to_nat c := p']> (processes s) /\ sealed s' c p' /\
    rq s' = set_min_vruntime m (rq s) /\
    p' = set_p_sis_seal (p_sis_seal p') (set_p_state PROC_READY
           (charge (now_ns s) (load_weight (rq s)) (set_p_context regs p))).
Proof.
  intros HQ HS Hh Hc Hp Hst Hn Hseal. pose proof (arr_get_range _ _ _ Hp) as Hi.
  unfold schedule_prev. step (get_proc_ok s c p Hp). 
  assert (Ee : ended (p_state p) = false) by (by rewrite Hst). rewrite Ee. step (Postflight_ok s c p HS Hc Hp Hseal). cbn [negb].
  step (upd_proc_ok s c (set_p_context regs) p Hp).
  assert (H1 : exists s1, s1 = set_processes (<[Z.to_nat c := set_p_context regs p]> (processes s)) s) by (by eexists).
  destruct H1 as (s1 & E1). rewrite <-E1. set (p1 := set_p_context regs p) in *.
  assert (HQ1 : rq_ok s1 t) by (rewrite E1; by eapply rq_ok_upd_free).
  assert (Hp1 : arr_get (processes s1) c = Some p1) by (rewrite E1; by apply arr_get_insert_eq).
  assert (Henv1 : same_env s s1) by (rewrite E1; apply same_env_set_processes).
  destruct (EEVDFUpdateCurr_ok s1 t c p1 HQ1 ltac:(rewrite E1; exact Hh) Hp1 Hn) as (m & HE2 & HQ2). step HE2.
  set (ch := charge (now_ns s1) (load_weight (rq s1)) p1) in *.
  assert (Ech : ch = charge (now_ns s) (load_weight (rq s)) (set_p_context regs p)) by (subst ch; by rewrite E1).
  assert (Hch : p_state ch = PROC_RUNNING /\ p_rb_node ch = None /\ p_weight ch = p_weight p).
  { subst ch. destruct (charge_same (now_ns s1) (load_weight (rq s1)) p1) as (-> & _ & _ & _ & -> & -> & _). done. }
  destruct Hch as (Hch1 & Hch2 & Hch3). clearbody ch. remember (set_rq _ _) as s2 eqn:E2.
  assert (Eps2 : processes s2 = <[Z.to_nat c := ch]> (processes s)).
  { rewrite E2. cbn [processes set_rq set_processes]. rewrite E1. cbn [processes set_processes]. apply list_insert_insert_eq. }
  assert (Hp2 : arr_get (processes s2) c = Some ch) by (rewrite Eps2; by apply arr_get_insert_eq).
  assert (Henv2 : same_env s s2) by (etrans; [exact Henv1|]; rewrite E2; by repeat split).
  assert (Hterm2 : same_term s s2) by (rewrite E2, E1; by repeat split).
  assert (Erq2 : rq s2 = set_min_vruntime m (rq s)) by (rewrite E2, E1; done). clear E2.
  step (get_proc_ok s2 c ch Hp2). rewrite Hch1, bool_decide_true by done.
  step (upd_proc_ok s2 c (set_p_state PROC_READY) ch Hp2). remember (set_processes _ s2) as s3 eqn:E3.
  assert (HQ3 : rq_ok s3 t) by (rewrite E3; by eapply rq_ok_upd_free).
  assert (Hp3 : arr_get (processes s3) c = Some (set_p_state PROC_READY ch)).
  { rewrite E3. apply arr_get_insert_eq. rewrite Eps2, length_insert. lia. }
  assert (Henv3 : same_env s s3) by (etrans; [exact Henv2|]; rewrite E3; apply same_env_set_processes).
  assert (Hterm3 : same_term s s3) by (rewrite E3; exact Hterm2).
  destruct (reseal_ok s3 t c _ HQ3 (sis_ready_env _ _ Henv3 HS) Hp3) as (p4 & HE4 & Hp4 & HQ4 & Hs4). step HE4.
  eexists _, p4, m. split; [reflexivity|]. split; [by eapply (rq_ok_ext _ _ t); [..|exact HQ4]|].
  split; [etrans; [exact Henv3|by repeat split]|]. split; [exact Hterm3|]. split.
  { cbn [processes set_ready_process_bitmap set_processes]. rewrite E3. cbn [processes set_processes].
    by rewrite Eps2, !list_insert_insert_eq. }
  split; [by eapply (sealed_same _ _ c p4 p4); [..|exact Hs4]|]. split; [cbn; rewrite E3; exact Erq2|]. rewrite Ech in Hp4. exact Hp4.
Qed.

(** ** The next task *)

(** A task that can be switched to when it passes the check before a switch: its seal is valid
    and it has the privileges it claims. *)
Record runnable (p : EEVDFProcessControlBlock) : Prop := {
  rn_state : p_state p = PROC_READY;
  rn_stack : p_stack p <> 0;
  rn_rip : rip (p_context p) <> 0
}.
Definition passes (s : sched) (i : Z) (p : EEVDFProcessControlBlock) : Prop := sealed s i p /\ rights_ok p.
#[export] Instance passes_dec s i p : Decision (passes s i p).
Proof. unfold passes, sealed, rights_ok. apply _. Defined.
(** The check of a live task that does not pass never returns while the run queue is locked. *)
Lemma Preflight_hangs s t i p :
  rq_ok s t -> sis_ready s -> 0 < i < 64 -> arr_get (processes s) i = Some p -> p_state p <> PROC_TERMINATED -> ~ passes s i p ->
  EEVDFPreflightCheck true i s = Hang.
Proof.
  intros HQ HS Hi Hp Hst Hno.
  assert (HT : EEVDFASTerminate_holding true (p_pid p) s = Hang).
  { unfold EEVDFASTerminate_holding. erewrite bind_Ok; [|by unfold EEVDFGetCurrentProcessByPID, bind, gets, ret].
    destruct (find_pid (processes s) 0 (p_pid p)) as [k|] eqn:Ef; [|by destruct Hst; eapply (find_pid_none _ 0 _ i)].
    destruct (find_pid_spec _ _ _ _ Ef) as (q & Hq & _ & Hstq). rewrite Z.sub_0_r in Hq.
    pose proof (arr_get_range _ _ _ Hq) as Hk. rewrite (rk_len _ _ HQ) in Hk. unfold EEVDF_MAX_PROCESSES.
    rewrite (proj2 (Z.leb_gt 64 k)) by lia. step (get_proc_ok s k q Hq). rewrite bool_decide_false by done.
    destruct (mark_sealed true s t k q TERM_SECURITY 666 HQ HS Hq) as (s' & q' & HE & _). unfold bind at 1. by rewrite HE. }
  unfold EEVDFPreflightCheck. rewrite (proj2 (Z.eqb_neq i 0)) by lia. step (get_proc_ok s i p Hp).
  step (SISVerifyPCB_ok s p i HS ltac:(lia)). destruct (Z.eqb_spec (p_sis_seal p) (seal_of s p i)) as [Hs|Hs]; cbn [negb].
  - case_if E0; [unfold bind; by rewrite HT|]. destruct Hno. split; [exact Hs|]. unfold rights_ok.
    apply andb_false_iff in E0 as [E0|E0]; apply Z.eqb_neq in E0; [by left|by right].
  - unfold bind. by rewrite HT.
Qed.
Lemma schedule_pick_ok held s t j n rest p :
  rq_ok s t -> sis_ready s -> slots t = (n, j) :: rest -> arr_get (processes s) j = Some p -> runnable p -> passes s j p ->
  exists q' t', schedule_pick held s =
      Ok (j, set_rq q' (set_processes (<[Z.to_nat j := set_p_rb_node None p]> (processes s)) s)) /\
    rq_ok (set_rq q' (set_processes (<[Z.to_nat j := set_p_rb_node None p]> (processes s)) s)) t' /\
    queue t' = rest.*2 /\ current_slot q' = current_slot (rq s).
Proof.
  intros HQ HS Es Hp [F1 F4 F5] [F2 F3]. pose proof (arr_get_range _ _ _ Hp) as Hi. rewrite (rk_len _ _ HQ) in Hi.
  assert (Hnode : p_rb_node p = Some n) by (apply (rk_node _ _ HQ _ _ _ Hp); rewrite Es; set_solver).
  unfold schedule_pick. step (EEVDFPickNext_ok s t HQ). unfold queue at 1. rewrite Es. cbn [fmap list_fmap snd hd_error].
  step (Preflight_ok held s j p HS ltac:(lia) Hp F2 F3). cbn [negb]. step (eq_refl : ret (Some j) s = Ok (Some j, s)). cbv beta iota.
  step (get_proc_ok s j p Hp). rewrite F1, (proj2 (Z.ltb_lt j EEVDF_MAX_PROCESSES)) by (unfold EEVDF_MAX_PROCESSES; lia).
  rewrite bool_decide_true by done. cbn [andb].
  destruct (EEVDFDequeueTask_ok s t j p n HQ Hp Hnode) as (T' & t' & l1 & l2 & HE & HQ' & Hs & Hs'). step HE.
  eexists _, t'. split; [reflexivity|]. split; [exact HQ'|]. split; [|done].
  assert (Hl1 : l1 = []).
  { rewrite Es in Hs. destruct l1 as [|x l1]; [done|]. injection Hs as <- Hrest. exfalso.
    pose proof (rk_nodup s t HQ) as HN. unfold queue in HN. rewrite Es, Hrest in HN. cbn in HN.
    apply list.NoDup_cons in HN as [HN _]. apply HN. rewrite fmap_app, fmap_cons. set_solver. }
  subst l1. rewrite Es in Hs. injection Hs as ->. unfold queue. by rewrite Hs'.
Qed.
Lemma schedule_pick_hangs s t j n rest p :
  rq_ok s t -> sis_ready s -> 0 < j -> slots t = (n, j) :: rest -> arr_get (processes s) j = Some p -> runnable p -> ~ passes s j p ->
  schedule_pick true s = Hang.
Proof.
  intros HQ HS Hj Es Hp [Hst _ _] Hno. pose proof (arr_get_range _ _ _ Hp) as Hi. rewrite (rk_len _ _ HQ) in Hi.
  unfold schedule_pick. step (EEVDFPickNext_ok s t HQ). unfold queue. rewrite Es. cbn [fmap list_fmap snd hd_error].
  unfold bind at 1. rewrite (Preflight_hangs s t j p HQ HS ltac:(lia) Hp); [done|congruence|done].
Qed.

Lemma schedule_switch_ok s t j p regs :
  rq_ok s t -> sis_ready s -> 0 < APIC_HZ s -> 0 < j < 64 -> arr_get (processes s) j = Some p ->
  p_rb_node p = None -> p_stack p <> 0 -> rip (p_context p) <> 0 ->
  exists s' p', schedule_switch j regs s = Ok (p_context p, s') /\ rq_ok s' t /\
    processes s' = <[Z.to_nat j := p']> (processes s) /\ sealed s' j p' /\ rq s' = rq s /\
    current_process s' = current_process s /\ scheduler_calls s' = scheduler_calls s /\
    sis_process_keys s' = sis_process_keys s /\ same_term s s' /\ p_state p' = PROC_RUNNING /\ p_rb_node p' = None /\ p_vruntime p' = p_vruntime p /\ p_pid p' = p_pid p /\
    p_exec_start p' = now_ns s /\
    EEVDFCalcSlice (nr_running (rq s)) (load_weight (rq s)) (p_weight p) = Some (p_slice_ns p').
Proof.
  intros HQ HS Hh Hj Hp Hn Hst Hrip. pose proof (arr_get_range _ _ _ Hp) as Hi.
  unfold schedule_switch. rewrite (proj2 (Z.eqb_neq j 0)) by lia. step (get_proc_ok s j p Hp).
  rewrite (proj2 (Z.eqb_neq _ _) Hst), (proj2 (Z.eqb_neq _ _) Hrip). cbn [orb].
  step (upd_proc_ok s j (set_p_state PROC_RUNNING) p Hp). remember (set_processes _ s) as s1 eqn:E1.
  assert (HQ1 : rq_ok s1 t) by (rewrite E1; by eapply rq_ok_upd_free).
  assert (Hp1 : arr_get (processes s1) j = Some (set_p_state PROC_RUNNING p)) by (rewrite E1; by apply arr_get_insert_eq).
  assert (HS1 : sis_ready s1) by (rewrite E1; by destruct HS; constructor).
  destruct (reseal_ok s1 t j _ HQ1 HS1 Hp1) as (p2 & HE2 & Hp2e & HQ2 & Hs2). step HE2.
  remember (set_processes _ s1) as s2 eqn:E2. unfold clear_ready. erewrite bind_Ok by reflexivity.
  remember (set_ready_process_bitmap _ s2) as s3 eqn:E3.
  assert (Eps3 : processes s3 = <[Z.to_nat j := p2]> (processes s)).
  { rewrite E3, E2. cbn [processes set_ready_process_bitmap set_processes]. rewrite E1. cbn [processes set_processes]. apply list_insert_insert_eq. }
  assert (Erq3 : rq s3 = rq s) by (by rewrite E3, E2, E1).
  assert (HQ3 : rq_ok s3 t) by (rewrite E3; by eapply (rq_ok_ext s2)).
  assert (Hs3 : sealed s3 j p2) by (rewrite E3; by eapply (sealed_same s2 _ j p2)).
  assert (Hp3 : arr_get (processes s3) j = Some p2) by (rewrite Eps3; by apply arr_get_insert_eq).
  assert (Hn2 : p_rb_node p2 = None) by (by rewrite Hp2e).
  assert (Hns : now_ns s3 = now_ns s) by (by rewrite E3, E2, E1).
  assert (Hrest : 0 < APIC_HZ s3 /\ current_process s3 = current_process s /\ scheduler_calls s3 = scheduler_calls s /\
    sis_process_keys s3 = sis_process_keys s /\ same_term s s3) by (rewrite E3, E2, E1; by repeat split).
  destruct Hrest as (Hh3 & Hcp & Hsc & Hks & Htm). clear E1 E2 E3 HQ1 HQ2 Hs2 Hp1 HS1.
  step (GetNS_ok s3 Hh3). fold (now_ns s3). rewrite Hns.
  destruct (calc_slice_ok s3 t p HQ3) as (sl & Hsl & Hsl'). step Hsl. rewrite Erq3 in Hsl'.
  erewrite bind_Ok; [|by apply upd_proc_ok]. cbv beta. set (p4 := set_p_slice_ns sl _).
  erewrite bind_Ok by reflexivity. eexists _, p4. split; [reflexivity|].
  split; [|split; [|split; [|split; [|split; [|split; [|split; [|split; [|]]]]]]]].
  - eapply (rq_ok_ext (set_processes (<[Z.to_nat j := p4]> (processes s3)) s3)); [reflexivity..|].
    by eapply rq_ok_upd_free.
  - cbn [processes set_switch_count set_context_switches set_processes]. rewrite Eps3. apply list_insert_insert_eq.
  - by eapply (sealed_same s3 _ j p2).
  - exact Erq3.
  - exact Hcp.
  - exact Hsc.
  - exact Hks.
  - exact Htm.
  - unfold p4. rewrite Hp2e. split; [done|]. split; [exact Hn|]. repeat split. exact Hsl'.
Qed.

(** ** Clean-up *)

(** The termination queue holds slots of the table. *)
Record entries_ok (s : sched) : Prop := {
  en_len : length (termination_queue s) = 64%nat;
  en_slots : Forall (fun i => 0 <= i < 64) (termination_queue s);
  en_head : 0 <= term_queue_head s < 64;
  en_count : 0 <= term_queue_count s <= 64
}.
Lemma entries_ok_same s s' : same_term s s' -> entries_ok s -> entries_ok s'.
Proof. intros (E1 & E2 & E3 & _ & E5 & _) []. constructor; congruence. Qed.
(** What a clean-up changes: zombies may be cleared. *)
Record cleaned (s s' : sched) : Prop := {
  cl_rq : rq s' = rq s;
  cl_current : current_process s' = current_process s;
  cl_keys : sis_process_keys s' = sis_process_keys s;
  cl_calls : forall c, c ∈ calls s -> c ∈ calls s';
  cl_proc : forall i p, arr_get (processes s) i = Some p ->
    arr_get (processes s') i = Some p \/ (p_state p = PROC_ZOMBIE /\ arr_get (processes s') i = Some zero_pcb)
}.
#[export] Instance cleaned_preorder : PreOrder cleaned.
Proof.
  split; [by intros s; constructor; auto|]. intros a b c [A1 A2 A3 A4 A5] [B1 B2 B3 B4 B5]. constructor; [congruence..|by auto|].
  intros i p Hp. destruct (A5 i p Hp) as [H|[Hz H]].
  - exact (B5 i p H).
  - right. split; [done|]. destruct (B5 i _ H) as [H'|[H0 _]]; [exact H'|discriminate].
Qed.
Lemma cleaned_keeps s s' i p : cleaned s s' -> arr_get (processes s) i = Some p -> p_state p <> PROC_ZOMBIE -> arr_get (processes s') i = Some p.
Proof. intros HC Hp Hz. by destruct (cl_proc _ _ HC i p Hp) as [H|[H _]]. Qed.

(** One round clears the zombie [i] of the head of the termination queue. *)
Definition clear_one (i : Z) (proc : EEVDFProcessControlBlock) : M unit :=
  (if negb (p_stack proc =? 0) then call (VMemFreeStack (p_stack proc) EEVDF_STACK_SIZE) else ret tt) ;;;
  upd_proc i (fun _ => zero_pcb) ;;;
  FreeSlotFast i ;;;
  modify (fun s => set_process_count (u32 (process_count s - 1)) s).
Lemma clear_one_ok s t i p :
  rq_ok s t -> arr_get (processes s) i = Some p -> p_state p = PROC_ZOMBIE -> (forall q, i ∈ queue t -> arr_get (processes s) i = Some q -> p_state q <> PROC_ZOMBIE) ->
  exists s', clear_one i p s = Ok (tt, s') /\ rq_ok s' t /\ cleaned s s' /\
    (forall j q, arr_get (processes s') j = Some q -> p_state q <> PROC_ZOMBIE \/ arr_get (processes s) j = Some q) /\
    termination_queue s' = termination_queue s /\ term_queue_head s' = term_queue_head s /\ term_queue_count s' = term_queue_count s.
Proof.
  intros HQ Hp Hz Hq. pose proof (arr_get_range _ _ _ Hp) as Hi.
  assert (Hn : p_rb_node p = None).
  { destruct (p_rb_node p) as [n|] eqn:En; [|done]. apply (rk_node _ _ HQ _ _ _ Hp) in En.
    by destruct (Hq p); [apply list_elem_of_fmap; by exists (n, i)|..]. }
  assert (Hcall : exists l, (if negb (p_stack p =? 0) then call (VMemFreeStack (p_stack p) EEVDF_STACK_SIZE) else ret tt) s =
    Ok (tt, set_calls l s) /\ forall c, c ∈ calls s -> c ∈ l).
  { case_if E0; [eexists; split; [reflexivity|set_solver]|]. exists (calls s). split; [by destruct s|done]. }
  destruct Hcall as (l & Hcall & Hl). unfold clear_one. step Hcall. set (s1 := set_calls l s).
  step (upd_proc_ok s1 i (fun _ => zero_pcb) p Hp). set (s2 := set_processes _ s1).
  assert (HQ2 : rq_ok s2 t).
  { apply (rq_ok_upd_free s1 t i p zero_pcb); [by eapply (rq_ok_ext s)|done..]. }
  assert (Hfree : exists a, FreeSlotFast i s2 = Ok (tt, set_active_process_bitmap a s2)).
  { unfold FreeSlotFast. case_if E0; [by eexists|]. exists (active_process_bitmap s2). by destruct s. }
  destruct Hfree as (a & Hfree). step Hfree. unfold modify.
  assert (Hps : forall j q, arr_get (<[Z.to_nat i := zero_pcb]> (processes s)) j = Some q ->
    (j = i /\ q = zero_pcb) \/ (j <> i /\ arr_get (processes s) j = Some q)).
  { intros j q. destruct (decide (j = i)) as [-> |Hne]; [rewrite arr_get_insert_eq by lia|rewrite arr_get_insert_ne by lia]; [intros [= <-]; by left|by right]. }
  eexists. split; [reflexivity|]. split; [by eapply (rq_ok_ext s2)|]. split; [|split; [|done]].
  - constructor; [done..|exact Hl|]. intros j q Hj. change (processes _) with (<[Z.to_nat i := zero_pcb]> (processes s)).
    destruct (decide (j = i)) as [-> |Hne]; [rewrite arr_get_insert_eq by lia|rewrite arr_get_insert_ne by lia; by left]. right. split; [congruence|done].
  - intros j q Hj. destruct (Hps j q Hj) as [[-> ->]|[_ H]]; [by left|by right].
Qed.
Lemma remove_term_ok s :
  entries_ok s -> 0 < term_queue_count s ->
  exists i s', RemoveFromTerminationQueueAtomic s = Ok (i, s') /\ 0 <= i < 64 /\ entries_ok s' /\
    s' = set_term_queue_count (term_queue_count s - 1) (set_term_queue_head (term_queue_head s') s).
Proof.
  intros [H1 H2 H3 H4] Hn. destruct (arr_get_some (termination_queue s) (term_queue_head s)) as [i Hi]; [rewrite H1; lia|].
  assert (Hir : 0 <= i < 64).
  { rewrite Forall_lookup in H2. unfold arr_get in Hi. destruct (0 <=? term_queue_head s); [|done]. by eapply H2. }
  unfold RemoveFromTerminationQueueAtomic. step (gets_ok term_queue_count s). rewrite (proj2 (Z.eqb_neq _ 0)) by lia.
  step (gets_ok term_queue_head s). erewrite bind_Ok; [|by rewrite Hi]. erewrite bind_Ok by reflexivity.
  eexists i, _. split; [reflexivity|]. split; [done|]. rewrite u32_small by lia. split; [|done].
  constructor; cbn [termination_queue term_queue_head term_queue_count set_term_queue_count set_term_queue_head]; [done|done| |lia].
  unfold EEVDF_MAX_PROCESSES. apply Z.mod_pos_bound. lia.
Qed.
Definition live_queue (s : sched) (t : tree) : Prop := forall j q, j ∈ queue t -> arr_get (processes s) j = Some q -> p_state q <> PROC_ZOMBIE.
Lemma cleanup_run fuel : forall s n t, rq_ok s t -> entries_ok s -> live_queue s t -> term_queue_count s < Z.of_nat fuel ->
  exists s', cleanup_loop fuel n s = Ok (tt, s') /\ rq_ok s' t /\ cleaned s s'.
Proof.
  induction fuel as [|fuel IH]; intros s n t HQ HE HL Hf; [destruct HE; lia|]. cbn [cleanup_loop]. step (gets_ok term_queue_count s).
  case_if E0; [|exists s; done]. apply andb_true_iff in E0 as [E0%Z.ltb_lt _].
  destruct (remove_term_ok s HE E0) as (i & s1 & HR & Hi & HE1 & Es1). step HR.
  rewrite (proj2 (Z.leb_gt EEVDF_MAX_PROCESSES i)) by (unfold EEVDF_MAX_PROCESSES; lia).
  assert (HQ1 : rq_ok s1 t) by (rewrite Es1; by eapply (rq_ok_ext s)). assert (HC1 : cleaned s s1) by (rewrite Es1; constructor; auto).
  assert (HL1 : live_queue s1 t) by (rewrite Es1; exact HL). assert (Hc1 : term_queue_count s1 < Z.of_nat fuel) by (rewrite Es1; cbn [term_queue_count set_term_queue_count]; lia).
  destruct (arr_get_some (processes s1) i) as [p Hp]; [rewrite (rk_len _ _ HQ1); lia|]. step (get_proc_ok s1 i p Hp).
  case_bool_decide as Hz; cbn [negb].
  - destruct (clear_one_ok s1 t i p HQ1 Hp Hz) as (s2 & H2 & HQ2 & HC2 & HL2 & T1 & T2 & T3); [intros q Hq; by apply HL1|].
    assert (Hrun : (clear_one i p ;;; cleanup_loop fuel (S n)) s1 = cleanup_loop fuel (S n) s2) by (by step H2).
    destruct (IH s2 (S n) t HQ2) as (s3 & H3 & HQ3 & HC3); [by destruct HE1; constructor; congruence| |by rewrite T3|].
    { intros j q Hj Hq. destruct (HL2 j q Hq) as [H|H]; [done|by apply (HL1 j)]. }
    exists s3. split; [|split; [done|by etrans; [|etrans]]]. rewrite <-H3, <-Hrun. unfold clear_one, bind.
    repeat match goal with |- context [match ?x with Ok _ => _ | Panic => _ | Hang => _ | Fault => _ end] => destruct x as [[? ?]| | |]; try done end.
  - destruct (IH s1 n t HQ1 HE1 HL1 Hc1) as (s2 & H2 & HQ2 & HC2). exists s2. split; [done|]. split; [done|]. by etrans.
Qed.

(** ** A whole tick *)

(** [s] runs slot [c], whose task is healthy: sealed, with the privileges it claims.  The tasks
    on the queue are ready, with a stack and a place to go on; their seals may be broken. *)
Record tick_ready (s : sched) (t : tree) (c : Z) (p : EEVDFProcessControlBlock) : Prop := {
  tr_rq : rq_ok s t;
  tr_sis : sis_ready s;
  tr_hz : 0 < APIC_HZ s;
  tr_cur : current_slot (rq s) = c;
  tr_range : 0 < c < 64;
  tr_proc : arr_get (processes s) c = Some p;
  tr_state : p_state p = PROC_RUNNING;
  tr_node : p_rb_node p = None;
  tr_seal : sealed s c p;
  tr_weight : weight_ok p;
  tr_rights : rights_ok p;
  tr_stack : p_stack p <> 0;
  tr_queue : forall j q, j ∈ queue t -> arr_get (processes s) j = Some q -> 0 < j /\ runnable q;
  tr_entries : entries_ok s
}.
(** The rest of a tick, after the task that ran is dealt with. *)
Definition tick_rest (held : bool) (regs : Registers) : M Registers :=
  next_slot <-- schedule_pick held ;;
  upd_rq (set_current_slot next_slot) ;;;
  modify (set_current_process next_slot) ;;;
  regs' <-- schedule_switch next_slot regs ;;
  k <-- gets scheduler_calls ;;
  (if k mod 100 =? 0 then EEVDFCleanupTerminatedProcess else ret tt) ;;; ret regs'.
(** The task of slot [j] as the tick ends. *)
Definition vrt (s : sched) (j : Z) : Z := default 0 (vruntime_of (processes s) j).

Lemma tick_start s t c p regs :
  tick_ready s t c p -> rip regs <> 0 ->
  exists s2 t2 p2 n v l1 l2,
    EEVDFSchedule regs s = tick_rest true regs s2 /\
    rq_ok s2 t2 /\ same_env (set_scheduler_calls (u64 (scheduler_calls s + 1)) s) s2 /\ same_term s s2 /\
    processes s2 = <[Z.to_nat c := p2]> (processes s) /\ runnable p2 /\ passes s2 c p2 /\ p_context p2 = regs /\ p_pid p2 = p_pid p /\
    v = p_vruntime p2 /\ p_vruntime (charge (now_ns s) (load_weight (rq s)) p) <= v /\
    slots t = l1 ++ l2 /\ slots t2 = l1 ++ (n, c) :: l2.
Proof.
  intros [HQ HS Hh Ec Hc Hp Hst Hn Hseal Hw Hr Hstk Hq _] Hrip. pose proof (arr_get_range _ _ _ Hp) as Hi.
  unfold EEVDFSchedule. step (GetNS_ok s Hh). step (eq_refl : get_rq s = Ok (rq s, s)). cbv zeta. rewrite Ec.
  erewrite bind_Ok by reflexivity. unfold upd_rq at 1. erewrite bind_Ok by reflexivity.
  match goal with |- context [bind _ _ ?x] => remember x as s1 eqn:E1 end.
  assert (HQ1 : rq_ok s1 t) by (rewrite E1; by eapply (rq_ok_ext s)).
  assert (Henv1 : same_env (set_scheduler_calls (u64 (scheduler_calls s + 1)) s) s1) by (rewrite E1; by repeat split).
  assert (Eps1 : processes s1 = processes s) by (by rewrite E1).
  assert (Htm1 : same_term s s1) by (rewrite E1; by repeat split).
  assert (Hs1 : sealed s1 c p) by (rewrite E1; by eapply (sealed_same s _ c p)).
  assert (HS1 : sis_ready s1) by (rewrite E1; by destruct HS; constructor).
  assert (Hns : now_ns s1 = now_ns s /\ load_weight (rq s1) = load_weight (rq s) /\ 0 < APIC_HZ s1) by (by rewrite E1).
  destruct Hns as (Hns & Hlw & Hh1). clear E1.
  rewrite (proj2 (Z.eqb_neq c 0)), (proj2 (Z.ltb_lt c EEVDF_MAX_PROCESSES)) by (unfold EEVDF_MAX_PROCESSES; lia). cbn [negb andb].
  fold (tick_rest true regs). rewrite <-Eps1 in Hp.
  destruct (schedule_prev_ok s1 t c p regs HQ1 HS1 Hh1 Hc Hp Hst Hn Hs1) as (s2 & p2 & m & HE2 & HQ2 & Henv2 & Htm2 & Eps2 & Hs2 & Erq2 & Ep2).
  rewrite Hns, Hlw in Ep2. set (ch := charge (now_ns s) (load_weight (rq s)) (set_p_context regs p)) in *.
  destruct (charge_same (now_ns s) (load_weight (rq s)) (set_p_context regs p)) as (_ & C2 & C3 & _ & C5 & C6 & C7 & C8 & C9). fold ch in C2, C3, C5, C6, C7, C8, C9.
  assert (Hp2 : arr_get (processes s2) c = Some p2) by (rewrite Eps2, Eps1; by apply arr_get_insert_eq).
  assert (F2 : p_state p2 = PROC_READY /\ p_rb_node p2 = None /\ p_weight p2 = p_weight p /\ p_context p2 = regs /\ p_pid p2 = p_pid p /\
    p_stack p2 = p_stack p /\ p_token p2 = p_token p /\ p_privilege_level p2 = p_privilege_level p /\
    p_vruntime p2 = p_vruntime (charge (now_ns s) (load_weight (rq s)) p)).
  { rewrite Ep2. cbn. rewrite C2, C3, C5, C6, C7, C8, C9. repeat split; [exact Hn|]. subst ch. unfold charge. cbn.
    by destruct (u64 (now_ns s - p_exec_start p) =? 0). }
  clearbody ch. clear Ep2 C2 C3 C5 C6 C7 C8 C9. destruct F2 as (Fst & Fn & Fw & Fc & Fp & Fs & Ft & Fl & Fv).
  assert (Hprev : (schedule_prev c regs ;;; (prev <-- get_proc c ;; if bool_decide (p_state prev = PROC_READY) then EEVDFEnqueueTask c else ret tt)) s1
    = EEVDFEnqueueTask c s2).
  { step HE2. step (get_proc_ok s2 c p2 Hp2). by rewrite Fst, bool_decide_true by done. }
  destruct (EEVDFEnqueueTask_ok s2 t c p2 HQ2 Hp2 Fst Fn) as (sl & n & T' & t' & l1 & l2 & _ & HE3 & HQ3 & Hl & Hl' & _).
  { unfold weight_ok in *. by rewrite Fw. }
  set (v := Z.max _ _) in *. set (p3 := enqueued n v _ p2) in *. rewrite HE3 in Hprev. step Hprev.
  match goal with |- context [tick_rest _ _ ?x] => remember x as s3 eqn:E3 end.
  assert (Henv3 : same_env s2 s3) by (rewrite E3; by repeat split).
  assert (Htm3 : same_term s2 s3) by (rewrite E3; by repeat split).
  eexists s3, t', p3, n, v, l1, l2. split; [reflexivity|]. split; [exact HQ3|].
  split; [etrans; [exact Henv1|]; by etrans|]. split; [unfold same_term in *; intuition congruence|]. split.
  { rewrite E3. cbn [processes set_rq set_processes]. rewrite Eps2, Eps1. apply list_insert_insert_eq. }
  split; [constructor; [exact Fst|cbn; by rewrite Fs|cbn; by rewrite Fc]|].
  split; [|split; [exact Fc|split; [exact Fp|split; [done|split; [subst v; lia|done]]]]].
  split; [|unfold rights_ok in *; cbn; by rewrite Fl, Ft].
  apply (sealed_same s2 _ c p2); [apply Henv3|done..|exact Hs2].
Qed.

Lemma passes_env s s' i p : sis_process_keys s' = sis_process_keys s -> passes s i p -> passes s' i p.
Proof. intros E [H1 H2]. split; [|done]. by eapply (sealed_same s). Qed.
Lemma head_least s t n j rest :
  rq_ok s t -> slots t = (n, j) :: rest -> forall k, k ∈ queue t -> vrt s j <= vrt s k.
Proof.
  intros HQ Es k Hk. pose proof (to_sorted _ _ _ (rk_tree _ _ HQ)) as HS. unfold queue in Hk. rewrite Es in *.
  apply StronglySorted_inv in HS as [_ HF]. rewrite list.Forall_forall in HF. cbn [fmap list_fmap snd] in Hk.
  apply elem_of_cons in Hk as [-> |([m i] & -> & He)%list_elem_of_fmap]; [unfold vrt; lia|].
  exact (HF _ He).
Qed.
(** Writes that keep the virtual runtime. *)
Lemma vrt_write s s' i p p' :
  arr_get (processes s) i = Some p -> processes s' = <[Z.to_nat i := p']> (processes s) -> p_vruntime p' = p_vruntime p ->
  forall k, vrt s' k = vrt s k.
Proof.
  intros Hp E Ev k. pose proof (arr_get_range _ _ _ Hp). unfold vrt, vruntime_of. rewrite E. destruct (decide (k = i)) as [-> |Hk].
  - rewrite arr_get_insert_eq, Hp by lia. cbn. by rewrite Ev.
  - by rewrite arr_get_insert_ne by lia.
Qed.

(** The end of a tick: every hundredth cleans up. *)
Lemma tick_cleanup s t (regs : Registers) :
  rq_ok s t -> entries_ok s -> live_queue s t ->
  exists s', (k <-- gets scheduler_calls ;; (if k mod 100 =? 0 then EEVDFCleanupTerminatedProcess else ret tt) ;;; ret regs) s = Ok (regs, s') /\
    rq_ok s' t /\ cleaned s s' /\ (scheduler_calls s mod 100 <> 0 -> s' = s).
Proof.
  intros HQ HE HL. step (gets_ok scheduler_calls s). case_if E0; [|by exists s].
  destruct (cleanup_run 65 s 0 t HQ HE HL) as (s' & H & HQ' & HC); [destruct HE; lia|]. exists s'.
  split; [unfold EEVDFCleanupTerminatedProcess; by step H|]. do 2 (split; [done|]). by apply Z.eqb_eq in E0.
Qed.
(** From the picked task to the end of the tick. *)
Lemma tick_end held s t n j rest p regs :
  rq_ok s t -> sis_ready s -> 0 < APIC_HZ s -> 0 < j < 64 -> slots t = (n, j) :: rest -> arr_get (processes s) j = Some p ->
  runnable p -> passes s j p -> entries_ok s -> live_queue s t ->
  exists s1 s' t' pj, tick_rest held regs s = Ok (p_context p, s') /\ cleaned s1 s' /\
    rq_ok s' t' /\ queue t' = rest.*2 /\ current_slot (rq s') = j /\ current_process s' = j /\
    processes s1 = <[Z.to_nat j := pj]> (processes s) /\ arr_get (processes s') j = Some pj /\
    p_state pj = PROC_RUNNING /\ p_rb_node pj = None /\ p_vruntime pj = p_vruntime p /\ p_pid pj = p_pid p /\ sealed s' j pj /\
    sis_process_keys s' = sis_process_keys s /\ (scheduler_calls s mod 100 <> 0 -> s' = s1) /\ (forall c, c ∈ calls s -> c ∈ calls s').
Proof.
  intros HQ HS Hh Hj Es Hp HR HF HE HL. pose proof (arr_get_range _ _ _ Hp) as Hi. unfold tick_rest.
  destruct (schedule_pick_ok held s t j n rest p HQ HS Es Hp HR HF) as (q' & t' & HE1 & HQ1 & Hq1 & Hcur1). step HE1.
  remember (set_rq q' _) as s1 eqn:E1. unfold upd_rq. erewrite bind_Ok by reflexivity. erewrite bind_Ok by reflexivity.
  match goal with |- context [bind (schedule_switch _ _) _ ?x] => remember x as s2 eqn:E2 end.
  assert (HQ2 : rq_ok s2 t') by (rewrite E2; by eapply (rq_ok_ext s1)).
  assert (Eps2 : processes s2 = <[Z.to_nat j := set_p_rb_node None p]> (processes s)) by (by rewrite E2, E1).
  assert (Hp2 : arr_get (processes s2) j = Some (set_p_rb_node None p)) by (rewrite Eps2; by apply arr_get_insert_eq).
  assert (HS2 : sis_ready s2) by (rewrite E2, E1; by destruct HS; constructor).
  assert (Hmisc : 0 < APIC_HZ s2 /\ current_slot (rq s2) = j /\ current_process s2 = j /\
    sis_process_keys s2 = sis_process_keys s /\ scheduler_calls s2 = scheduler_calls s /\ same_term s s2) by (rewrite E2, E1; by repeat split).
  destruct Hmisc as (Hh2 & Hc2 & Hcp2 & Hk2 & Hsc2 & Htm2). clear E1 E2.
  destruct (schedule_switch_ok s2 t' j _ regs HQ2 HS2 Hh2 Hj Hp2 eq_refl (rn_stack _ HR) (rn_rip _ HR))
    as (s3 & pj & HE3 & HQ3 & Eps3 & Hs3 & Erq3 & Ecp3 & Esc3 & Eks3 & Htm3 & P1 & P2 & P3 & P4 & _). step HE3.
  assert (Eps : processes s3 = <[Z.to_nat j := pj]> (processes s)) by (rewrite Eps3, Eps2; apply list_insert_insert_eq).
  assert (Htm : same_term s s3) by (unfold same_term in *; intuition congruence).
  destruct (tick_cleanup s3 t' (p_context p) HQ3) as (s4 & HE4 & HQ4 & HC & Hkeep).
  { by apply (entries_ok_same s). }
  { intros k q Hk. rewrite Eps. destruct (decide (k = j)) as [-> |Hne]; [rewrite arr_get_insert_eq by lia; intros [= <-]; congruence|].
    rewrite arr_get_insert_ne by lia. apply HL. rewrite Hq1 in Hk. unfold queue. rewrite Es. cbn. by right. }
  assert (Hpj : arr_get (processes s4) j = Some pj) by (apply (cleaned_keeps s3); [done|rewrite Eps; by apply arr_get_insert_eq|congruence]).
  exists s3, s4, t', pj. split; [exact HE4|]. rewrite (cl_rq _ _ HC), (cl_current _ _ HC), (cl_keys _ _ HC).
  do 2 (split; [done|]). split; [exact Hq1|]. split; [congruence|]. split; [congruence|]. do 6 (split; [done|]).
  split; [by apply (sealed_same s3 _ j pj); [apply HC|..]|]. split; [congruence|].
  split; [intros Hm; apply Hkeep; congruence|]. intros e He. apply (cl_calls _ _ HC).
  destruct Htm as (_ & _ & _ & _ & _ & ->). exact He.
Qed.
(** The task next in the queue does not pass its check. *)
Definition rejected (s : sched) (t : tree) : Prop :=
  exists j q, j ∈ queue t /\ arr_get (processes s) j = Some q /\ (forall k, k ∈ queue t -> vrt s j <= vrt s k) /\ ~ passes s j q.

Lemma tick_hangs s t n j rest p regs :
  rq_ok s t -> sis_ready s -> 0 < j -> slots t = (n, j) :: rest -> arr_get (processes s) j = Some p ->
  runnable p -> ~ passes s j p -> tick_rest true regs s = Hang.
Proof. intros HQ HS Hj Es Hp HR HF. unfold tick_rest, bind. by rewrite (schedule_pick_hangs s t j n rest p). Qed.
Lemma vrt_same s s' k : arr_get (processes s') k = arr_get (processes s) k -> vrt s' k = vrt s k.
Proof. unfold vrt, vruntime_of. by intros ->. Qed.
Lemma tick_ok s t c p regs :
  tick_ready s t c p -> rip regs <> 0 ->
  (exists s' t' j pj regs', EEVDFSchedule regs s = Ok (regs', s') /\ rq_ok s' t' /\
    current_slot (rq s') = j /\ current_process s' = j /\
    arr_get (processes s') j = Some pj /\ p_state pj = PROC_RUNNING /\ sealed s' j pj /\ p_rb_node pj = None /\
    j :: queue t' ≡ₚ c :: queue t /\
    (forall k, k ∈ c :: queue t -> vrt s' j <= vrt s' k) /\
    (j = c -> regs' = regs) /\
    (j <> c -> (exists q, arr_get (processes s) j = Some q /\ passes s j q /\ regs' = p_context q) /\
       exists pc, arr_get (processes s') c = Some pc /\ p_state pc = PROC_READY /\ p_context pc = regs /\ sealed s' c pc)) \/
  (EEVDFSchedule regs s = Hang /\ rejected s t).
Proof.
  intros HT Hrip. destruct (tick_start s t c p regs HT Hrip)
    as (s2 & t2 & p2 & n & v & l1 & l2 & HE & HQ2 & Henv & Htm & Eps2 & Hrun & Hpass & Hctx & Hpid & Hv & _ & Hsl & Hsl2). rewrite HE.
  pose proof (tr_proc _ _ _ _ HT) as Hp. pose proof (arr_get_range _ _ _ Hp) as Hi. pose proof (tr_range _ _ _ _ HT) as Hc.
  destruct Henv as (K1 & K2 & K3 & K4 & _).
  cbn [sis_process_keys crc APIC_HZ set_scheduler_calls] in K1, K2, K4.
  assert (HS2 : sis_ready s2) by (destruct (tr_sis _ _ _ _ HT); constructor; congruence).
  assert (Hperm : queue t2 ≡ₚ c :: queue t).
  { unfold queue. rewrite Hsl, Hsl2, !fmap_app, fmap_cons. cbn [snd]. by rewrite Permutation_middle. }
  assert (Hget : forall k, k ∈ c :: queue t -> exists q, arr_get (processes s2) k = Some q /\ runnable q /\ 0 < k < 64 /\
     (k = c -> q = p2) /\ (k <> c -> k ∈ queue t /\ arr_get (processes s) k = Some q /\ vrt s2 k = vrt s k)).
  { intros k Hk. destruct (decide (k = c)) as [-> |Hne].
    - exists p2. rewrite Eps2, arr_get_insert_eq by lia. done.
    - apply elem_of_cons in Hk as [?|Hkq]; [done|]. pose proof (rk_queue_lt s t (tr_rq _ _ _ _ HT) k Hkq) as Hr.
      destruct (arr_get_some (processes s) k) as [q Hq]; [rewrite (rk_len _ _ (tr_rq _ _ _ _ HT)); lia|].
      destruct (tr_queue _ _ _ _ HT k q Hkq Hq) as [Hk0 Hr']. assert (E : arr_get (processes s2) k = arr_get (processes s) k) by (by rewrite Eps2, arr_get_insert_ne by lia).
      exists q. rewrite E. do 2 (split; [done|]). split; [lia|]. split; [done|]. intros _. do 2 (split; [done|]). by apply vrt_same. }
  destruct (slots t2) as [|[nj j] rest] eqn:Es; [by destruct l1|].
  assert (Hleast : forall k, k ∈ c :: queue t -> vrt s2 j <= vrt s2 k).
  { intros k Hk. apply (head_least s2 t2 nj j rest HQ2 Es). by rewrite Hperm. }
  assert (Hjin : j ∈ c :: queue t) by (rewrite <-Hperm; unfold queue; rewrite Es; set_solver).
  destruct (Hget j Hjin) as (q & Hq & Hrq & Hj & Hjc & Hjn). destruct (decide (passes s2 j q)) as [Hok|Hbad].
  2:{ right. split; [exact (tick_hangs s2 t2 nj j rest q regs HQ2 HS2 (proj1 Hj) Es Hq Hrq Hbad)|]. assert (Hne : j <> c) by (intros ->; by rewrite (Hjc eq_refl) in Hbad).
      destruct (Hjn Hne) as (Hjq & Hqs & Hvj). exists j, q. split; [done|]. split; [done|]. split; [|intros H; apply Hbad; by apply (passes_env s)].
      intros k Hk. pose proof (Hleast k ltac:(by right)) as Hl. destruct (decide (k = c)) as [-> |Hkc].
      - exfalso. apply list_elem_of_fmap in Hk as ([m i] & E & Hin). cbn in E. subst i. apply (rk_node _ _ (tr_rq _ _ _ _ HT) _ _ _ Hp) in Hin.
        by rewrite (tr_node _ _ _ _ HT) in Hin.
      - destruct (Hget k ltac:(by right)) as (qk & _ & _ & _ & _ & Hkn). destruct (Hkn Hkc) as (_ & _ & Hvk). congruence. }
  left. destruct (tick_end true s2 t2 nj j rest q regs HQ2 HS2 ltac:(rewrite K4; apply HT) Hj Es Hq Hrq Hok)
    as (s3 & s4 & t4 & pj & HE4 & HC & HQ4 & Hq4 & Hcs & Hcp & Eps3 & Hpj & P1 & P2 & P3 & P4 & P5 & Ek4 & _ & _).
  { apply (entries_ok_same s); [done|apply HT]. }
  { intros k q' Hk Hq'. rewrite Hperm in Hk. destruct (Hget k Hk) as (q'' & Hq'' & [Hst _ _] & _). congruence. }
  assert (Hvrt : forall k, k ∈ c :: queue t -> vrt s4 k = vrt s2 k).
  { intros k Hk. rewrite <-(vrt_write s2 s3 j q pj Hq Eps3 P3 k). apply vrt_same. destruct (Hget k Hk) as (qk & Hqk & [Hst _ _] & _).
    destruct (decide (k = j)) as [-> |Hne]; [rewrite Eps3, arr_get_insert_eq by (by eapply arr_get_range); done|].
    assert (E3 : arr_get (processes s3) k = Some qk) by (rewrite Eps3, arr_get_insert_ne by (apply arr_get_range in Hqk, Hq; lia); done).
    rewrite E3. apply (cleaned_keeps s3 s4 k qk HC E3). congruence. }
  exists s4, t4, j, pj, (p_context q). split; [exact HE4|]. do 7 (split; [done|]).
  split; [rewrite <-Hperm, Hq4; unfold queue; by rewrite Es|].
  split; [intros k Hk; rewrite !Hvrt by done; by apply Hleast|]. split; [by intros ->; rewrite (Hjc eq_refl)|].
  intros Hne. destruct (Hjn Hne) as (_ & Hqs & _). split; [exists q; split; [done|]; split; [by apply (passes_env s2)|done]|]. exists p2.
  assert (Hc3 : arr_get (processes s3) c = Some p2) by (rewrite Eps3, Eps2, arr_get_insert_ne by lia; by apply arr_get_insert_eq).
  split; [apply (cleaned_keeps s3 s4 c p2 HC Hc3); rewrite (rn_state _ Hrun); done|]. split; [apply Hrun|]. split; [done|].
  by eapply (sealed_same s2 _ c p2); [..|apply Hpass].
Qed.

(** ** A state change without a new seal *)
Lemma unsealed_verify s i p st :
  sis_ready s -> 0 <= i < 64 -> fields_ok p -> sealed s i (set_p_state st p) -> st <> p_state p ->
  SISVerifyPCB p i s = Ok (false, s).
Proof.
  intros HS Hi HF Hs Hne. rewrite SISVerifyPCB_ok by done. do 2 f_equal. f_equal. apply Z.eqb_neq.
  unfold sealed in Hs. cbn [p_sis_seal set_p_state] in Hs. rewrite Hs.
  apply seal_of_low; [done|done|done|by left].
Qed.
(** A process ended as a security violation. *)
Definition condemned (p pz : EEVDFProcessControlBlock) : Prop :=
  p_state pz = PROC_ZOMBIE /\ p_term_reason pz = TERM_SECURITY /\ p_exit_code pz = 666 /\ p_pid pz = p_pid p.
Lemma schedule_prev_unsealed s t c p st regs :
  rq_ok s t -> sis_ready s -> term_ok s -> entries_ok s -> 0 < c < 64 -> arr_get (processes s) c = Some p -> ended (p_state p) = false ->
  fields_ok p -> pids_unique (processes s) -> sealed s c (set_p_state st p) -> st <> p_state p ->
  exists s' t' pz, schedule_prev c regs s = Ok (tt, s') /\ rq_ok s' t' /\ same_env s s' /\
    processes s' = <[Z.to_nat c := pz]> (processes s) /\ condemned p pz /\ (forall e, e ∈ slots t' <-> e ∈ slots t /\ e.2 <> c) /\
    entries_ok s' /\ ProcFSUnregisterProcess (p_pid p) ∈ calls s'.
Proof.
  intros HQ HS HT HE0 Hc Hp He HF HU Hs Hne. unfold schedule_prev. step (get_proc_ok s c p Hp). rewrite He.
  assert (Hlive : p_state p <> PROC_TERMINATED) by (intros E0; by rewrite E0 in He).
  destruct (EEVDFASTerminate_ok s t (p_pid p) c p HQ HS HT (find_pid_slot _ _ _ HU Hp Hlive) Hp)
    as (s' & t' & seal & HE & HQ' & Henv & Hps & _ & Hsl & Hcnt & Hhd & Htq & Hcalls).
  assert (Hpost : EEVDFPostflightCheck c s = Ok (false, s')).
  { unfold EEVDFPostflightCheck. rewrite (proj2 (Z.eqb_neq c 0)) by lia. step (get_proc_ok s c p Hp).
    step (unsealed_verify s c p st HS ltac:(lia) HF Hs Hne). cbn [negb]. step HE. done. }
  step Hpost. cbn [negb]. eexists s', t', _. split; [reflexivity|]. split; [done|]. split; [done|]. split; [exact Hps|].
  split; [done|]. split; [exact Hsl|]. split; [|rewrite Hcalls; set_solver].
  destruct HE0 as [E1 E2 E3 E4], HT. constructor; [by rewrite Htq, length_insert|rewrite Htq; apply Forall_insert; [done|lia]|congruence|lia].
Qed.
(** The end of a tick with nothing to run. *)
Lemma tick_idle held s t regs :
  rq_ok s t -> slots t = [] -> entries_ok s ->
  exists s', tick_rest held regs s = Ok (regs, s') /\ cleaned (set_current_process 0 (set_rq (set_current_slot 0 (rq s)) s)) s' /\
    (scheduler_calls s mod 100 <> 0 -> processes s' = processes s).
Proof.
  intros HQ Es HE. assert (Hpick : schedule_pick held s = Ok (0, s)).
  { unfold schedule_pick. step (EEVDFPickNext_ok s t HQ). unfold queue. by rewrite Es. }
  unfold tick_rest. step Hpick. unfold upd_rq. erewrite bind_Ok by reflexivity. erewrite bind_Ok by reflexivity.
  set (s1 := set_current_process 0 _). unfold schedule_switch. cbn [Z.eqb]. erewrite bind_Ok by reflexivity.
  destruct (tick_cleanup s1 t regs) as (s' & H & _ & HC & Hk); [by eapply (rq_ok_ext s)|by destruct HE|by intros j q Hj; unfold queue in Hj; rewrite Es in Hj; inversion Hj|].
  exists s'. split; [exact H|]. split; [exact HC|]. intros Hm. by rewrite (Hk Hm).
Qed.
(** What is left of a condemned process when the tick ends: its control block, or on a tick that
    cleans up possibly an empty one. *)
Definition gone (cleans : bool) (s : sched) (c : Z) (p : EEVDFProcessControlBlock) : Prop :=
  (exists pz, arr_get (processes s) c = Some pz /\ condemned p pz) \/ (cleans = true /\ arr_get (processes s) c = Some zero_pcb).
Lemma gone_cleaned s s' c p pz (k : Z) :
  arr_get (processes s) c = Some pz -> condemned p pz -> cleaned s s' -> (k mod 100 <> 0 -> processes s' = processes s) -> gone (k mod 100 =? 0) s' c p.
Proof.
  intros Hp Hz HC Hk. destruct (Z.eqb_spec (k mod 100) 0) as [_|Hne]; [|left; exists pz; by rewrite (Hk Hne)].
  destruct (cl_proc _ _ HC c pz Hp) as [H|[_ H]]; [left; by exists pz|by right].
Qed.

(** The start of the tick: the process is terminated as a security violation. *)
Lemma tick_condemns s t c p st regs :
  rq_ok s t -> sis_ready s -> term_ok s -> entries_ok s -> 0 < APIC_HZ s -> current_slot (rq s) = c -> 0 < c < 64 ->
  arr_get (processes s) c = Some p -> ended (p_state p) = false ->
  fields_ok p -> pids_unique (processes s) -> sealed s c (set_p_state st p) -> st <> p_state p ->
  exists s2 t2 pz, EEVDFSchedule regs s = tick_rest true regs s2 /\ rq_ok s2 t2 /\ sis_ready s2 /\ entries_ok s2 /\ 0 < APIC_HZ s2 /\
    sis_process_keys s2 = sis_process_keys s /\ scheduler_calls s2 = u64 (scheduler_calls s + 1) /\
    processes s2 = <[Z.to_nat c := pz]> (processes s) /\ condemned p pz /\ (forall e, e ∈ slots t2 <-> e ∈ slots t /\ e.2 <> c) /\
    ProcFSUnregisterProcess (p_pid p) ∈ calls s2.
Proof.
  intros HQ HS HT HE Hh Ec Hc Hp He HF HU Hs Hne. pose proof (arr_get_range _ _ _ Hp) as Hi.
  unfold EEVDFSchedule. step (GetNS_ok s Hh). step (eq_refl : get_rq s = Ok (rq s, s)). cbv zeta. rewrite Ec.
  erewrite bind_Ok by reflexivity. unfold upd_rq at 1. erewrite bind_Ok by reflexivity.
  match goal with |- context [bind _ _ ?x] => remember x as s1 eqn:E1 end.
  assert (HQ1 : rq_ok s1 t) by (rewrite E1; by eapply (rq_ok_ext s)).
  assert (Eps1 : processes s1 = processes s) by (by rewrite E1).
  assert (Hs1 : sealed s1 c (set_p_state st p)) by (rewrite E1; by eapply (sealed_same s _ c (set_p_state st p))).
  assert (HS1 : sis_ready s1) by (rewrite E1; by destruct HS; constructor).
  assert (HT1 : term_ok s1 /\ entries_ok s1) by (rewrite E1; split; [destruct HT|destruct HE]; by constructor). destruct HT1 as [HT1 HE1].
  assert (Hm1 : 0 < APIC_HZ s1 /\ sis_process_keys s1 = sis_process_keys s /\ scheduler_calls s1 = u64 (scheduler_calls s + 1)) by (by rewrite E1).
  destruct Hm1 as (Hh1 & Hk1 & Hsc1). clear E1.
  rewrite (proj2 (Z.eqb_neq c 0)), (proj2 (Z.ltb_lt c EEVDF_MAX_PROCESSES)) by (unfold EEVDF_MAX_PROCESSES; lia). cbn [negb andb].
  fold (tick_rest true regs). rewrite <-Eps1 in Hp, HU |- *.
  destruct (schedule_prev_unsealed s1 t c p st regs HQ1 HS1 HT1 HE1 Hc Hp He HF HU Hs1 Hne)
    as (s2 & t2 & pz & HE2 & HQ2 & (K1 & K2 & K3 & K4 & _ & _ & _ & _ & K9 & _) & Eps2 & Hz & Hsl & Hen2 & Hcalls).
  assert (Hp2 : arr_get (processes s2) c = Some pz) by (rewrite Eps2, Eps1; by apply arr_get_insert_eq).
  assert (Hprev : (schedule_prev c regs ;;; (prev <-- get_proc c ;; if bool_decide (p_state prev = PROC_READY) then EEVDFEnqueueTask c else ret tt)) s1
    = Ok (tt, s2)).
  { step HE2. step (get_proc_ok s2 c pz Hp2). destruct Hz as (-> & _). done. }
  step Hprev. exists s2, t2, pz. split; [done|]. split; [done|]. split; [destruct HS1; constructor; congruence|].
  split; [done|]. split; [by rewrite K4|]. split; [congruence|]. split; [congruence|]. done.
Qed.
(** The whole tick. *)
Lemma tick_unsealed s t c p st regs :
  rq_ok s t -> sis_ready s -> term_ok s -> entries_ok s -> 0 < APIC_HZ s -> current_slot (rq s) = c -> 0 < c < 64 ->
  arr_get (processes s) c = Some p -> ended (p_state p) = false -> p_rb_node p = None ->
  fields_ok p -> pids_unique (processes s) -> sealed s c (set_p_state st p) -> st <> p_state p ->
  (forall j q, j ∈ queue t -> arr_get (processes s) j = Some q -> 0 < j /\ runnable q) ->
  (exists s' regs', EEVDFSchedule regs s = Ok (regs', s') /\ gone (u64 (scheduler_calls s + 1) mod 100 =? 0) s' c p /\
    current_process s' <> c /\ ProcFSUnregisterProcess (p_pid p) ∈ calls s') \/
  (EEVDFSchedule regs s = Hang /\ rejected s t).
Proof.
  intros HQ HS HT HE Hh Ec Hc Hp He Hn HF HU Hs Hne Hfit. pose proof (arr_get_range _ _ _ Hp) as Hi.
  destruct (tick_condemns s t c p st regs HQ HS HT HE Hh Ec Hc Hp He HF HU Hs Hne)
    as (s2 & t2 & pz & -> & HQ2 & HS2 & Hen2 & Hh2 & Hk2 & Hsc2 & Eps2 & Hz & Hsl & Hcalls). rewrite <-Hsc2.
  assert (Hp2 : arr_get (processes s2) c = Some pz) by (rewrite Eps2; by apply arr_get_insert_eq).
  assert (Hget : forall k, k ∈ queue t2 -> k <> c /\ k ∈ queue t /\ exists q, arr_get (processes s) k = Some q /\ arr_get (processes s2) k = Some q /\ 0 < k < 64 /\ runnable q).
  { intros k ([n i] & -> & He2)%list_elem_of_fmap. apply Hsl in He2 as [Hin Hkc]. cbn in *.
    assert (Hkq : i ∈ queue t) by (apply list_elem_of_fmap; by exists (n, i)). pose proof (rk_queue_lt s t HQ i Hkq) as Hr.
    destruct (arr_get_some (processes s) i) as [q Hq]; [rewrite (rk_len _ _ HQ); lia|]. destruct (Hfit i q Hkq Hq) as [Hj0 Hf].
    do 2 (split; [done|]). exists q. split; [done|]. split; [|split; [lia|done]]. rewrite Eps2, arr_get_insert_ne by lia. done. }
  assert (HL2 : live_queue s2 t2).
  { intros k q' Hk Hq'. destruct (Hget k Hk) as (_ & _ & q & _ & Hq & _ & [Hst _ _]). congruence. }
  destruct (slots t2) as [|[n j] rest] eqn:Es.
  - left. destruct (tick_idle true s2 t2 regs HQ2 Es Hen2) as (s3 & H3 & HC3 & Hk3). exists s3, regs. split; [exact H3|].
    split; [apply (gone_cleaned (set_current_process 0 (set_rq (set_current_slot 0 (rq s2)) s2)) s3 c p pz); [exact Hp2|done|exact HC3|exact Hk3]|].
    split; [rewrite (cl_current _ _ HC3); cbn; lia|]. by apply (cl_calls _ _ HC3).
  - assert (Hjq : j ∈ queue t2) by (unfold queue; rewrite Es; set_solver).
    destruct (Hget j Hjq) as (Hjc & Hjt & q & Hqs & Hq & Hj & Hrq). destruct (decide (passes s2 j q)) as [Hok|Hbad].
    + left. destruct (tick_end true s2 t2 n j rest q regs HQ2 HS2 Hh2 Hj Es Hq Hrq Hok Hen2 HL2)
        as (s3 & s4 & t4 & pj & HE4 & HC & _ & _ & _ & Hcp & Eps3 & _ & _ & _ & _ & _ & _ & _ & Hk4 & Hc4).
      exists s4, (p_context q). split; [exact HE4|].
      assert (Hp3 : arr_get (processes s3) c = Some pz) by (rewrite Eps3, arr_get_insert_ne by lia; done).
      split; [apply (gone_cleaned s3 s4 c p pz); [done..|]; intros Hm; by rewrite (Hk4 Hm)|].
      split; [congruence|]. by apply Hc4.
    + right. split; [exact (tick_hangs s2 t2 n j rest q regs HQ2 HS2 (proj1 Hj) Es Hq Hrq Hbad)|]. exists j, q. do 2 (split; [done|]).
      split; [|intros H; apply Hbad; by apply (passes_env s)]. intros k Hk.
      assert (Hkc : k <> c).
      { intros ->. apply list_elem_of_fmap in Hk as ([m i] & E & Hin). cbn in E. subst i. apply (rk_node _ _ HQ _ _ _ Hp) in Hin. congruence. }
      assert (Hk2' : k ∈ queue t2).
      { apply list_elem_of_fmap in Hk as ([m i] & -> & Hin). apply list_elem_of_fmap. exists (m, i). split; [done|]. rewrite Es. by apply Hsl. }
      pose proof (head_least s2 t2 n j rest HQ2 Es k Hk2') as Hl. destruct (Hget k Hk2') as (_ & _ & qk & Hqk & Hqk2 & _).
      rewrite (vrt_same s s2 j), (vrt_same s s2 k) in Hl by congruence. exact Hl.
Qed.
