(* ===== verification/SchedProps.v ===== *)
(** Properties of the EEVDF scheduler ([src/kernel/sched/EEVDF.c]) and of the kernel it forms
    with message passing. *)
From Stdlib Require Import ZArith Lia Sorting.Sorted.
From stdpp Require Import base tactics list gmap numbers option sorting.
From S2P Require Import Prelude Crc32 RbTree RbRep RbInsert RbQueue Ipc IpcQueue IpcRun Eevdf Sched SchedQueue SchedTerm SchedSafe SchedKernel SchedTick.

(** ** Memory safety *)

(** C24. After start-up, whatever sequence of timer interrupts, process creations, kills,
    exits, yields, message sends, receive passes and flushes runs, the kernel never leaves
    an array, follows a NULL pointer, divides by zero or exhausts a loop bound: it halts in
    a deliberate PANIC, or it is in a state whose run queue is a linked, balanced, ordered
    red-black tree of exactly the queued processes.  The one other outcome needs a timer
    interrupt among the calls: that operation can wait for ever for the run queue's lock, which it
    holds itself. *)
Theorem kernel_memory_safe ticks hz :
  0 <= ticks < 2 ^ 32 -> 0 < hz ->
  exists s0, EEVDFSchedInit (boot ticks hz) = Ok (tt, s0) /\
    forall seq calls,
      match exec_all calls (mk_kernel s0 seq) with
      | Ok k => exists t, rq_ok (ks k) t /\ current_process (ks k) = current_slot (rq (ks k)) /\
          forall p, arr_get (processes (ks k)) (current_process (ks k)) = Some p -> p_rb_node p = None
      | Panic => True
      | Hang => Exists is_tick calls
      | Fault => False
      end.
Proof.
  intros Ht Hh. destruct (sched_init_inv ticks hz Ht Hh) as (s0 & HE & HI). exists s0. split; [done|]. intros seq calls.
  pose proof (exec_all_safe calls (mk_kernel s0 seq) HI) as HS. destruct (exec_all calls _) as [k| | |]; [|done|exact HS|done].
  destruct HS as [[[t HQ] HE' _] [_ HF _]]. exists t. split; [done|]. rewrite (eo_same _ HE'). done.
Qed.
Lemma kernel_memory_safe_witness :
  exists s0, EEVDFSchedInit (boot 5 1000) = Ok (tt, s0) /\
    forall seq calls,
      match exec_all calls (mk_kernel s0 seq) with
      | Ok k => exists t, rq_ok (ks k) t /\ current_process (ks k) = current_slot (rq (ks k)) /\
          forall p, arr_get (processes (ks k)) (current_process (ks k)) = Some p -> p_rb_node p = None
      | Panic => True
      | Hang => Exists is_tick calls
      | Fault => False
      end.
Proof. apply (kernel_memory_safe 5 1000); lia. Defined.

(** ** The run queue as a priority queue *)

(** C25. The run queue refines a sequence of slots sorted by virtual runtime.  Picking gives
    its head, which has the least virtual runtime.  Enqueueing a ready process raises its
    virtual runtime to the queue's minimum if it lags behind, and inserts it behind every
    task that is not later; the count and the load grow with it.  Dequeueing removes
    exactly that process, and does nothing to one that is not queued. *)
Theorem runqueue_refines s t :
  rq_ok s t ->
  (EEVDFPickNext s = Ok (hd_error (queue t), s) /\
   forall i k, hd_error (queue t) = Some i -> k ∈ queue t -> vrt s i <= vrt s k) /\
  (forall i p, arr_get (processes s) i = Some p -> p_state p = PROC_READY -> p_rb_node p = None -> weight_ok p ->
     let v := Z.max (p_vruntime p) (min_vruntime (rq s)) in
     exists s' t' l1 l2, EEVDFEnqueueTask i s = Ok (tt, s') /\ rq_ok s' t' /\
       queue t = l1 ++ l2 /\ queue t' = l1 ++ i :: l2 /\ vrt s' i = v /\
       (forall k, k ∈ l1 -> vrt s k <= v) /\ (forall k, k ∈ l2 -> v < vrt s k) /\
       nr_running (rq s') = nr_running (rq s) + 1 /\ load_weight (rq s') = load_weight (rq s) + p_weight p /\
       (forall j, j <> i -> arr_get (processes s') j = arr_get (processes s) j)) /\
  (forall i p, arr_get (processes s) i = Some p ->
     exists s' t', EEVDFDequeueTask i s = Ok (tt, s') /\ rq_ok s' t' /\
       processes s' = <[Z.to_nat i := set_p_rb_node None p]> (processes s) /\
       match p_rb_node p with
       | None => s' = s
       | Some _ => exists l1 l2, queue t = l1 ++ i :: l2 /\ queue t' = l1 ++ l2 /\
           load_weight (rq s') = load_weight (rq s) - p_weight p /\ nr_running (rq s') = nr_running (rq s) - 1
       end).
Proof.
  intros HQ. split; [split; [by apply EEVDFPickNext_ok|]|split].
  - intros i k Hi. unfold queue in Hi |- *. destruct (slots t) as [|[n j] rest] eqn:Es; [done|]. injection Hi as <-.
    intros Hk. apply (head_least s t n j rest HQ Es). unfold queue. by rewrite Es.
  - intros i p Hp Hst Hn Hw v. pose proof (arr_get_range _ _ _ Hp) as Hi.
    destruct (EEVDFEnqueueTask_ok s t i p HQ Hp Hst Hn Hw) as (sl & n & T' & t' & l1 & l2 & _ & HE & HQ' & Hs & Hs' & HA & HB).
    eexists _, t', l1.*2, l2.*2. split; [exact HE|]. split; [exact HQ'|]. unfold queue. rewrite Hs, Hs', !fmap_app, fmap_cons.
    rewrite list.Forall_forall in HA, HB. split; [done|]. split; [done|].
    split; [unfold vrt, vruntime_of; cbn [processes set_rq set_processes]; by rewrite arr_get_insert_eq by lia|].
    split; [intros k ([m j] & -> & He)%list_elem_of_fmap; by apply (HA _ He)|].
    split; [intros k ([m j] & -> & He)%list_elem_of_fmap; by apply (HB _ He)|].
    split; [done|]. split; [done|]. intros j Hj. cbn [processes set_rq set_processes]. by rewrite arr_get_insert_ne by lia.
  - intros i p Hp. destruct (p_rb_node p) as [n|] eqn:Hn.
    + destruct (EEVDFDequeueTask_ok s t i p n HQ Hp Hn) as (T' & t' & l1 & l2 & HE & HQ' & Hs & Hs').
      eexists _, t'. split; [exact HE|]. split; [exact HQ'|]. split; [done|]. exists l1.*2, l2.*2.
      unfold queue. by rewrite Hs, Hs', !fmap_app, fmap_cons.
    + exists s, t. split; [by eapply EEVDFDequeueTask_none|]. split; [done|]. split; [|done].
      by rewrite (set_rb_node_eta p Hn), (insert_self _ _ _ Hp).
Qed.
Lemma runqueue_refines_witness :
  EEVDFPickNext (boot 5 1000) = Ok (None, boot 5 1000).
Proof.
  apply (runqueue_refines (boot 5 1000) E). apply zero_rq_ok; reflexivity.
Defined.

(** ** Depth *)
Lemma rb_height t c n :
  rb t c n -> (height t <= 2 * n + match c with Red => 1 | Black => 0 end)%nat /\ (2 ^ n <= S (length (slots t)))%nat.
Proof.
  induction 1 as [|l i s r n Hl [IHl1 IHl2] Hr [IHr1 IHr2]|l i s r cl cr n Hl [IHl1 IHl2] Hr [IHr1 IHr2]];
    cbn [height slots]; rewrite ?length_app; cbn [length Nat.pow]; [lia|lia|]. split; [destruct cl, cr; lia|lia].
Qed.

(** The search for an insertion point is logarithmic: on a run queue of [n] tasks it
    looks at no more than 2 log2 (n + 1) nodes, so that many rounds of the loop and one for
    the empty link are always enough. *)
Theorem insertion_search_logarithmic s t key fuel :
  rq_ok s t -> 2 * Z.log2 (nr_running (rq s) + 1) < Z.of_nat fuel ->
  exists link leftmost, find_link (vruntime_of (processes s)) fuel key (rb_root (rq_tree (rq s))) None true (rq_tree (rq s)) =
    Some (link, leftmost).
Proof.
  intros HQ Hf. pose proof (rk_tree _ _ HQ) as HT. destruct (to_rb _ _ _ HT) as [m Hm].
  destruct (rb_height t Black m Hm) as [H1 H2]. rewrite (rk_nr _ _ HQ) in Hf.
  assert (Hlog : Z.of_nat m <= Z.log2 (Z.of_nat (length (slots t)) + 1)).
  { apply Z.log2_le_pow2; [lia|]. change 2 with (Z.of_nat 2). rewrite <-Nat2Z.inj_pow. lia. }
  pose proof (to_focus _ _ _ HT) as HF. rewrite (fc_root _ _ _ HF).
  destruct (find_link_ok (vruntime_of (processes s)) fuel key t [] _ ltac:(lia) HF (to_keys _ _ _ HT) (to_sorted _ _ _ HT)) as (zd & HE & _).
  eexists _, _. exact HE.
Qed.
Lemma insertion_search_logarithmic_witness :
  exists link leftmost, find_link (vruntime_of (processes (boot 5 1000))) 1 7 (rb_root (rq_tree (rq (boot 5 1000)))) None true
    (rq_tree (rq (boot 5 1000))) = Some (link, leftmost).
Proof.
  apply (insertion_search_logarithmic (boot 5 1000) E); [apply zero_rq_ok; reflexivity|reflexivity].
Defined.

(** ** The tick *)


(** A kernel that runs one task in slot 1, with nothing queued. *)
Definition demo_base : sched :=
  set_current_process 1 (set_rq (set_current_slot 1 zero_rq)
    (set_crc (mk_crc ((fun i => crc_entry 8 (Z.of_nat i)) <$> seq 0 256) true) (boot 5 1000))).
Definition demo_regs : Registers := mk_regs 4096 8184 0x202 8 16 [].
Definition demo_raw : EEVDFProcessControlBlock :=
  set_p_context demo_regs (set_p_privilege_level 1 (set_p_stack 8192 (set_p_weight 1024
    (set_p_state PROC_RUNNING (set_p_pid 1 zero_pcb))))).
Definition demo_seal : Z := Eval vm_compute in seal_of demo_base demo_raw 1.
Definition demo_task : EEVDFProcessControlBlock := set_p_sis_seal demo_seal demo_raw.
Definition demo : sched := set_processes (<[1%nat := demo_task]> (processes demo_base)) demo_base.

Lemma demo_sis : sis_ready demo.
Proof. constructor; [|reflexivity..]. split; reflexivity. Qed.
Lemma demo_sealed : sealed demo 1 demo_task.
Proof. unfold sealed. vm_compute. reflexivity. Qed.
Lemma demo_rq : rq_ok demo E.
Proof.
  eapply (rq_ok_upd_free demo_base E 1 zero_pcb demo_task); [|reflexivity..].
  eapply (rq_ok_ext (boot 5 1000)); [reflexivity..|]. apply zero_rq_ok; reflexivity.
Qed.
Lemma demo_entries s : termination_queue s = replicate 64 0 -> term_queue_head s = 0 -> term_queue_count s = 0 -> entries_ok s.
Proof. intros E1 E2 E3. constructor; rewrite ?E1, ?E2, ?E3; [reflexivity|apply Forall_replicate; lia|lia|lia]. Qed.
Lemma demo_ready : tick_ready demo E 1 demo_task.
Proof.
  constructor; [apply demo_rq|apply demo_sis|reflexivity|reflexivity|lia|reflexivity|reflexivity|reflexivity
    |apply demo_sealed|split; [done|done]|left; done|done| |by apply demo_entries]. intros j q Hj. by apply not_elem_of_nil in Hj.
Qed.
(** The demonstration has nobody in the queue to reject. *)
Lemma demo_no_reject s : ~ rejected s E.
Proof. intros (j & q & Hj & _). by apply not_elem_of_nil in Hj. Qed.

(** ** Seals *)

(** C28. The integrity check accepts a process sealed as it is, and rejects it after its
    state or privilege level changed behind the seal, or after its pid alone changed. *)
Theorem SISVerifyPCB_detects s i p p' :
  sis_ready s -> 0 <= i < 64 -> fields_ok p -> fields_ok p' -> sealed s i p -> p_sis_seal p' = p_sis_seal p ->
  (p_pid p' = p_pid p /\ (p_state p' <> p_state p \/ p_privilege_level p' <> p_privilege_level p)) \/
  (p_pid p' <> p_pid p /\ p_state p' = p_state p /\ p_privilege_level p' = p_privilege_level p) ->
  SISVerifyPCB p i s = Ok (true, s) /\ SISVerifyPCB p' i s = Ok (false, s).
Proof.
  intros HS Hi HF HF' Hs Es Hd. rewrite !SISVerifyPCB_ok by done. unfold sealed in Hs. rewrite Es, Hs, Z.eqb_refl. split; [done|].
  do 2 f_equal. f_equal. apply Z.eqb_neq. intros E0. symmetry in E0. revert E0.
  destruct Hd as [[H1 H2]|(H1 & H2 & H3)]; [by apply seal_of_low|by apply seal_of_pid].
Qed.
Lemma demo_fields : fields_ok demo_task.
Proof. by vm_compute. Qed.
Lemma demo_fields0 : fields_ok (set_p_privilege_level 0 demo_task).
Proof. by vm_compute. Qed.
Lemma demo_priv : p_privilege_level (set_p_privilege_level 0 demo_task) <> p_privilege_level demo_task.
Proof. by vm_compute. Qed.
Lemma SISVerifyPCB_detects_witness :
  SISVerifyPCB demo_task 1 demo = Ok (true, demo) /\
  SISVerifyPCB (set_p_privilege_level 0 demo_task) 1 demo = Ok (false, demo).
Proof.
  exact (SISVerifyPCB_detects demo 1 demo_task (set_p_privilege_level 0 demo_task) demo_sis ltac:(lia) demo_fields
    demo_fields0 demo_sealed eq_refl (or_introl (conj eq_refl (or_intror demo_priv)))).
Defined.

(** ** Termination *)


(** A second task, critical and asleep in slot 2. *)
Definition demo_critical : EEVDFProcessControlBlock :=
  set_p_token (mk_token SIS_MAGIC 0 1 EEVDF_CAP_CRITICAL 0 0 0) (set_p_state PROC_BLOCKED (set_p_pid 2 zero_pcb)).
Definition demo2 : sched := set_processes (<[2%nat := demo_critical]> (processes demo)) demo.
Lemma demo2_get i p : arr_get (processes demo2) i = Some p ->
  (i = 1 /\ p = demo_task) \/ (i = 2 /\ p = demo_critical) \/ p = zero_pcb.
Proof.
  unfold arr_get. destruct (Z.leb_spec 0 i); [|discriminate]. change (processes demo2) with
    (<[2%nat := demo_critical]> (<[1%nat := demo_task]> (replicate 64 zero_pcb))).
  intros [(E0 & <- & _)|(_ & [(E0 & <- & _)|(_ & Hp)]%list_lookup_insert_Some)]%list_lookup_insert_Some.
  - right. left. split; [lia|reflexivity].
  - left. split; [lia|reflexivity].
  - right. right. by apply lookup_replicate in Hp as [-> _].
Qed.
Lemma demo2_unique : pids_unique (processes demo2).
Proof.
  intros i j p q Hi Hj Ep Hp Hq. destruct (demo2_get i p Hi) as [[-> ->]|[[-> ->]| ->]]; [| |by destruct Hp];
    (destruct (demo2_get j q Hj) as [[-> ->]|[[-> ->]| ->]]; [| |by destruct Hq]); (reflexivity || discriminate Ep).
Qed.
Lemma demo_sealed2 : sealed demo2 1 demo_task.
Proof. unfold sealed. vm_compute. reflexivity. Qed.
Lemma demo2_rq : rq_ok demo2 E.
Proof. eapply (rq_ok_upd_free demo E 2 zero_pcb demo_critical); [apply demo_rq|reflexivity..]. Qed.
Lemma demo_term s : termination_queue s = replicate 64 0 -> term_queue_tail s = 0 -> term_queue_count s = 0 -> term_ok s.
Proof. intros E1 E2 E3. constructor; rewrite ?E1, ?E2, ?E3; (reflexivity || lia). Qed.

(** ** Blocking on a message *)
Lemma pids_unique_write ps i p p' :
  pids_unique ps -> arr_get ps i = Some p -> p_state p <> PROC_TERMINATED -> p_pid p' = p_pid p ->
  pids_unique (<[Z.to_nat i := p']> ps).
Proof.
  intros HU Hp Hst Hpid. pose proof (arr_get_range _ _ _ Hp) as Hi. 
  assert (Hcase : forall j q, arr_get (<[Z.to_nat i := p']> ps) j = Some q -> p_state q <> PROC_TERMINATED ->
    exists q0, arr_get ps j = Some q0 /\ p_pid q0 = p_pid q /\ p_state q0 <> PROC_TERMINATED).
  { intros j q. destruct (decide (j = i)) as [-> |Hne].
    - rewrite arr_get_insert_eq by lia. intros [= <-] _. by exists p.
    - rewrite arr_get_insert_ne by lia. eauto. }
  intros a b q r Ha Hb E0 Hq Hr. destruct (Hcase a q Ha Hq) as (q0 & Hq0 & E1 & S1). destruct (Hcase b r Hb Hr) as (r0 & Hr0 & E2 & S2).
  apply (HU a b q0 r0); congruence.
Qed.

(** C30. A process that waits for a message does not live to see it: when a healthy running
    process (as in C27, its fields in their C types, the pids of live processes distinct, room in
    the termination queue) calls receive on an empty mailbox, it is marked blocked behind its seal.
    The next timer interrupt takes that for corruption: it terminates the process as a security
    violation and unregisters it, and something else is current.  Its control block then says so,
    or, when that tick was a hundredth and cleaned up, may be cleared already.  The tick ends
    thus, unless the next queued task fails its check: then it waits for ever for the run queue's
    lock. *)
Theorem receive_on_empty_is_fatal s t c p regs seq :
  tick_ready s t c p -> term_ok s -> pids_unique (processes s) -> fields_ok p -> current_process s = c ->
  count (p_ipc_queue p) = 0 ->
  (exists k, exec_all [KReceive; KSchedule regs] (mk_kernel s seq) = Ok k /\
    gone (u64 (scheduler_calls s + 1) mod 100 =? 0) (ks k) c p /\
    current_process (ks k) <> c /\ ProcFSUnregisterProcess (p_pid p) ∈ calls (ks k)) \/
  (exec_all [KReceive; KSchedule regs] (mk_kernel s seq) = Hang /\ rejected s t).
Proof.
  intros [HQ HS Hh Ec Hc Hp Hst Hn Hseal Hw Hr Hstk Hq HE] HT HU HF Hcp Hcnt. pose proof (arr_get_range _ _ _ Hp) as Hi.
  set (p1 := set_p_state PROC_BLOCKED (set_p_ipc_queue (p_ipc_queue p) p)).
  set (s1 := set_processes (<[Z.to_nat c := p1]> (processes s)) s).
  assert (Hrecv : exec KReceive (mk_kernel s seq) = Ok (mk_kernel s1 seq)).
  { cbn [exec]. unfold IpcReceiveMessage_pass, receive_pass, GetCurrentProcess, ipc_view. cbn [procs current ks]. rewrite Hcp, Hp, option_bind_Some.
    unfold queue_receive. cbn [proc_queue eevdf_proc]. rewrite Hcnt. cbn [Z.ltb Z.compare]. rewrite option_bind_Some.
    rewrite arr_set_some by lia. rewrite option_bind_Some. reflexivity. }
  cbn [exec_all]. rewrite Hrecv. cbn [exec]. unfold on_sched, Scheduler.Schedule. cbn [ks kseq].
  assert (Hs1 : sealed s1 c (set_p_state PROC_RUNNING p1)).
  { apply (sealed_same s _ c p); [done|cbn; by rewrite Hst|done..|exact Hseal]. }
  assert (Hqc : forall j, j ∈ queue t -> arr_get (processes s1) j = arr_get (processes s) j).
  { intros j Hj. change (processes s1) with (<[Z.to_nat c := p1]> (processes s)). apply arr_get_insert_ne; [lia|]. intros <-.
    apply list_elem_of_fmap in Hj as ([n j] & -> & Hin). apply (rk_node _ _ HQ _ _ _ Hp) in Hin. congruence. }
  destruct (tick_unsealed s1 t c p1 PROC_RUNNING regs) as [(s' & regs' & HR & Hg & Hcur & Hcalls)|[HR (j & q & Hj & Hjq & Hle & Hno)]]; try done.
  - by eapply rq_ok_upd_free.
  - by destruct HS; constructor.
  - by destruct HT; constructor.
  - by destruct HE; constructor.
  - by apply arr_get_insert_eq.
  - eapply pids_unique_write; [exact HU|exact Hp|by rewrite Hst|done].
  - intros j q Hj. rewrite Hqc by done. by apply Hq.
  - left. rewrite HR. by exists (mk_kernel s' seq).
  - right. rewrite HR. split; [done|]. exists j, q. rewrite <-Hqc by done. do 2 (split; [done|]).
    split; [|intros H; apply Hno; by apply (passes_env s)]. intros k Hk. rewrite <-(vrt_same s s1 j), <-(vrt_same s s1 k) by (by apply Hqc). by apply Hle.
Qed.

Lemma receive_on_empty_is_fatal_witness :
  exists k z, exec_all [KReceive; KSchedule demo_regs] (mk_kernel demo2 1) = Ok k /\
    arr_get (processes (ks k)) 1 = Some z /\ p_state z = PROC_ZOMBIE.
Proof.
  destruct (receive_on_empty_is_fatal demo2 E 1 demo_task demo_regs 1) as [(k & H1 & [(z & H2 & H3 & _)|[Hcl _]] & _)|[_ Hno]];
    [|apply demo_term; reflexivity|apply demo2_unique|apply demo_fields|reflexivity|reflexivity| |discriminate|by apply demo_no_reject in Hno].
  - constructor; [apply demo2_rq|constructor; [apply demo_sis|reflexivity..]|reflexivity|reflexivity|lia|reflexivity|reflexivity|reflexivity
    |apply demo_sealed2|apply demo_ready|apply demo_ready|apply demo_ready| |by apply demo_entries]. intros j q Hj. by apply not_elem_of_nil in Hj.
  - exists k, z. exact (conj H1 (conj H2 H3)).
Defined.

(** ** Process identifiers *)

(** Create a process, let it run, and have it killed as a fault handler does. *)
Definition crash_cycle : list kcall := [KCreate 4096 1 0 8192; KSchedule demo_regs; KKillCurrent].
Fixpoint times {A} (n : nat) (l : list A) : list A := match n with O => [] | S n' => l ++ times n' l end.
(** Sixty-three of them, then idle ticks until everything is cleaned up. *)
Definition crash_history : list kcall := times 63 crash_cycle ++ times 2300 [KSchedule demo_regs].
Definition started : sched := match EEVDFSchedInit (boot 5 1000) with Ok (_, s) => s | _ => boot 5 1000 end.

Definition leaked (r : outcome kernel) : bool :=
  match r with
  | Ok k =>
      (process_count (ks k) =? 1) && (active_process_bitmap (ks k) =? 1) && (term_queue_count (ks k) =? 0) &&
      (match exec (KCreate 4096 1 0 8192) k with Panic => true | _ => false end)
  | _ => false
  end.

(** Killed processes leak their identifiers: after 63 processes have been created and
    killed through the security path, and the table is empty again (only the idle process
    is counted and every other slot is free), creating a process halts the kernel for want
    of a pid. *)
Theorem killed_pids_leak :
  exists k, exec_all crash_history (mk_kernel started 1) = Ok k /\
    process_count (ks k) = 1 /\ active_process_bitmap (ks k) = 1 /\ term_queue_count (ks k) = 0 /\
    exec (KCreate 4096 1 0 8192) k = Panic.
Proof.
  assert (H : leaked (exec_all crash_history (mk_kernel started 1)) = true) by (vm_compute; reflexivity).
  destruct (exec_all crash_history (mk_kernel started 1)) as [k| | |]; [|discriminate..]. exists k. split; [reflexivity|].
  unfold leaked in H.
  destruct (exec _ k); rewrite ?andb_false_r in H; try discriminate. rewrite andb_true_r in H.
  apply andb_true_iff in H as [[H1 H2]%andb_true_iff H3]. zbool. done.
Qed.

(** ** A queued task whose control block was changed *)
Definition tamper (i : Z) (r : outcome kernel) : outcome kernel :=
  match r with Ok k => on_sched (upd_proc i (set_p_privilege_level 0)) k | r => r end.
Definition then_exec (c : kcall) (r : outcome kernel) : outcome kernel := match r with Ok k => exec c k | r => r end.
(** Of two tasks the first runs; the privilege level of the second, which waits in the queue, is
    changed behind its seal.  The next tick that picks it locks up the kernel. *)
Theorem tampered_task_hangs :
  then_exec (KSchedule demo_regs) (then_exec (KTimer 50) (tamper 2
    (exec_all [KCreate 4096 1 0 8192; KCreate 4096 1 0 8192; KSchedule demo_regs] (mk_kernel started 1)))) = Hang.
Proof. vm_compute. reflexivity. Qed.

(** ** Time slices and virtual time *)

(** With tasks on the queue the time slice lies between 0.75 ms and 100 ms.  For light
    tasks it is the task's share of the 6 ms target latency; but the product is 32 bits
    wide, and from weight 716 on it wraps: a lone task of the default weight gets 1.8 ms
    instead of 6 ms. *)
Theorem EEVDFCalcSlice_range nr load w :
  0 < nr -> 0 < load -> 0 <= w ->
  (exists sl, EEVDFCalcSlice nr load w = Some sl /\ EEVDF_MIN_GRANULARITY <= sl <= EEVDF_MAX_TIME_SLICE_NS /\
    (w <= 715 -> sl = Z.min EEVDF_MAX_TIME_SLICE_NS (Z.max EEVDF_MIN_GRANULARITY (EEVDF_TARGET_LATENCY * w / load)))) /\
  EEVDFCalcSlice 1 EEVDF_NICE_0_LOAD EEVDF_NICE_0_LOAD = Some 1805696.
Proof.
  intros Hn Hl Hw. split; [|reflexivity]. unfold EEVDFCalcSlice, EEVDF_MIN_GRANULARITY, EEVDF_MAX_TIME_SLICE_NS, EEVDF_TARGET_LATENCY.
  rewrite (proj2 (Z.eqb_neq nr 0)), (proj2 (Z.eqb_neq load 0)) by lia. eexists. split; [reflexivity|]. split.
  - set (x := _ / load). clearbody x. destruct (Z.ltb_spec x 750000); case_if E1; zbool; lia.
  - intros Hs. rewrite u32_small by lia. set (x := _ / load). clearbody x.
    destruct (Z.ltb_spec x 750000); case_if E1; zbool; lia.
Qed.
Lemma EEVDFCalcSlice_range_witness :
  (exists sl, EEVDFCalcSlice 2 830 410 = Some sl /\ EEVDF_MIN_GRANULARITY <= sl <= EEVDF_MAX_TIME_SLICE_NS /\
    (410 <= 715 -> sl = Z.min EEVDF_MAX_TIME_SLICE_NS (Z.max EEVDF_MIN_GRANULARITY (EEVDF_TARGET_LATENCY * 410 / 830)))) /\
  EEVDFCalcSlice 1 EEVDF_NICE_0_LOAD EEVDF_NICE_0_LOAD = Some 1805696.
Proof. apply (EEVDFCalcSlice_range 2 830 410); lia. Defined.

(** Charging a task for its run: its virtual runtime grows by the elapsed time scaled by
    1024 over the load of the tasks that wait (1024 when none does), in fixed point; the
    queue keeps its order, and no other process changes.  The task's own weight plays no
    part, so its nice level does not slow or speed its virtual clock. *)
Theorem EEVDFUpdateCurr_charges s t i p :
  rq_ok s t -> 0 < APIC_HZ s -> arr_get (processes s) i = Some p -> p_rb_node p = None ->
  let d := u64 (now_ns s - p_exec_start p) in
  let load := if load_weight (rq s) =? 0 then 1024 else load_weight (rq s) in
  exists s' p', EEVDFUpdateCurr i s = Ok (tt, s') /\ rq_ok s' t /\ processes s' = <[Z.to_nat i := p']> (processes s) /\
    p_vruntime p' = (if d =? 0 then p_vruntime p else u64 (p_vruntime p + Z.shiftr (u64 (d * (67108864 / load))) 16)) /\
    p_exec_start p' = (if d =? 0 then p_exec_start p else now_ns s) /\
    p_sum_exec_runtime p' = (if d =? 0 then p_sum_exec_runtime p else u64 (p_sum_exec_runtime p + d)) /\
    (forall w, p_vruntime (charge (now_ns s) (load_weight (rq s)) (set_p_weight w p)) = p_vruntime p').
Proof.
  intros HQ Hh Hp Hn d load. destruct (EEVDFUpdateCurr_ok s t i p HQ Hh Hp Hn) as (m & HE & HQ').
  eexists _, _. split; [exact HE|]. split; [exact HQ'|]. split; [reflexivity|]. unfold charge. fold d.
  change (p_exec_start (set_p_weight _ p)) with (p_exec_start p). fold d.
  destruct (d =? 0); [done|]. split; [|done]. cbn [p_vruntime set_p_vruntime]. by unfold EEVDFCalcDelta, load; destruct (load_weight (rq s) =? 0).
Qed.
Lemma EEVDFUpdateCurr_charges_witness :
  exists s' p', EEVDFUpdateCurr 1 demo = Ok (tt, s') /\ processes s' = <[1%nat := p']> (processes demo) /\
    p_vruntime p' = 5000000.
Proof.
  destruct (EEVDFUpdateCurr_charges demo E 1 demo_task demo_rq ltac:(reflexivity) ltac:(reflexivity) ltac:(reflexivity))
    as (s' & p' & H1 & _ & H2 & H3 & _).
  exists s', p'. split; [exact H1|]. split; [exact H2|]. rewrite H3. vm_compute. reflexivity.
Defined.
