(* ===== verification/Vfrfs.v ===== *)
(** The in-memory file system of [src/fs/VFRFS.c]: a pool of nodes linked into a tree by
    parent, child and sibling pointers, and a table of open file handles.

    A node pointer is the node's index in [fs_nodes]; NULL is [None].  A C string is the list
    of its bytes without the terminator.  An operation returns [None] when the C code would
    access memory outside an object or follow NULL.  [GetCurrentTime] is the constant 0, so
    the time stamps are left out. *)
From Stdlib Require Import ZArith Lia.
From stdpp Require Import base tactics list numbers option.
From S2P Require Import Prelude.

(** ** Data *)
Definition MAX_FILENAME : Z := 64.
Definition MAX_PATH : Z := 256.
Definition MAX_OPEN_FILES : nat := 32.
Definition MAX_FS_NODES : nat := 128.
Inductive FsNodeType := FS_FILE | FS_DIRECTORY.
#[export] Instance FsNodeType_eq_dec : EqDecision FsNodeType.
Proof. solve_decision. Defined.
Definition FS_READ : Z := 1.
Definition FS_WRITE : Z := 2.
Definition FS_APPEND : Z := 4.
Definition SEEK_SET : Z := 0.
Definition SEEK_CUR : Z := 1.
Definition SEEK_END : Z := 2.

Record FsNode := mk_fsnode {
  name : list Z;
  ntype : FsNodeType;
  size : Z;
  data : option (list Z);
  parent : option nat;
  children : option nat;
  last_child : option nat;
  next_sibling : option nat;
  prev_sibling : option nat;
  node_id : Z
}.
Definition zero_fsnode : FsNode := mk_fsnode [] FS_FILE 0 None None None None None None 0.
Definition set_nname v n := mk_fsnode v (ntype n) (size n) (data n) (parent n) (children n) (last_child n) (next_sibling n) (prev_sibling n) (node_id n).
Definition set_ntype v n := mk_fsnode (name n) v (size n) (data n) (parent n) (children n) (last_child n) (next_sibling n) (prev_sibling n) (node_id n).
Definition set_content d sz n := mk_fsnode (name n) (ntype n) sz d (parent n) (children n) (last_child n) (next_sibling n) (prev_sibling n) (node_id n).
Definition set_nparent v n := mk_fsnode (name n) (ntype n) (size n) (data n) v (children n) (last_child n) (next_sibling n) (prev_sibling n) (node_id n).
Definition set_children v n := mk_fsnode (name n) (ntype n) (size n) (data n) (parent n) v (last_child n) (next_sibling n) (prev_sibling n) (node_id n).
Definition set_last_child v n := mk_fsnode (name n) (ntype n) (size n) (data n) (parent n) (children n) v (next_sibling n) (prev_sibling n) (node_id n).
Definition set_next v n := mk_fsnode (name n) (ntype n) (size n) (data n) (parent n) (children n) (last_child n) v (prev_sibling n) (node_id n).
Definition set_prev v n := mk_fsnode (name n) (ntype n) (size n) (data n) (parent n) (children n) (last_child n) (next_sibling n) v (node_id n).
Definition set_node_id v n := mk_fsnode (name n) (ntype n) (size n) (data n) (parent n) (children n) (last_child n) (next_sibling n) (prev_sibling n) v.

Record FileHandle := mk_handle { hnode : option nat; position : Z; hflags : Z; fd : Z; owner_pid : Z }.
Definition zero_handle : FileHandle := mk_handle None 0 0 0 0.
Record fs := mk_fs {
  root_node : option nat;
  file_handles : list FileHandle;
  fs_nodes : list FsNode;
  next_node_idx_hint : Z;
  next_handle_idx_hint : Z;
  next_node_id : Z;
  next_fd : Z
}.
Definition set_fs_nodes v s := mk_fs (root_node s) (file_handles s) v (next_node_idx_hint s) (next_handle_idx_hint s) (next_node_id s) (next_fd s).
Definition set_file_handles v s := mk_fs (root_node s) v (fs_nodes s) (next_node_idx_hint s) (next_handle_idx_hint s) (next_node_id s) (next_fd s).
Definition set_root_node v s := mk_fs v (file_handles s) (fs_nodes s) (next_node_idx_hint s) (next_handle_idx_hint s) (next_node_id s) (next_fd s).

Definition get_node (i : nat) (s : fs) : option FsNode := fs_nodes s !! i.
Definition upd_node (i : nat) (f : FsNode -> FsNode) (s : fs) : option fs :=
  n ← get_node i s; Some (set_fs_nodes (<[i := f n]> (fs_nodes s)) s).

(** ** Nodes and handles *)
Fixpoint alloc_node_loop (n : nat) (i : Z) (s : fs) : option (option nat * fs) :=
  match n with
  | O => Some (None, s)
  | S n' =>
      let idx := Z.to_nat (u32 (next_node_idx_hint s + i) mod Z.of_nat MAX_FS_NODES) in
      nd ← get_node idx s;
      if node_id nd =? 0 then
        let s1 := set_fs_nodes (<[idx := set_node_id (next_node_id s) nd]> (fs_nodes s)) s in
        Some (Some idx, mk_fs (root_node s1) (file_handles s1) (fs_nodes s1) (Z.of_nat idx + 1)
                          (next_handle_idx_hint s1) (u32 (next_node_id s1 + 1)) (next_fd s1))
      else alloc_node_loop n' (i + 1) s
  end.
Definition AllocNode (s : fs) : option (option nat * fs) := alloc_node_loop MAX_FS_NODES 0 s.
(** The content goes back to the heap; the node is cleared. *)
Definition FreeNode (i : nat) (s : fs) : option fs :=
  if (i <? MAX_FS_NODES)%nat then upd_node i (fun _ => zero_fsnode) s else Some s.

Fixpoint alloc_handle_loop (n : nat) (i : Z) (s : fs) : option (option nat * fs) :=
  match n with
  | O => Some (None, s)
  | S n' =>
      let idx := Z.to_nat (u32 (next_handle_idx_hint s + i) mod Z.of_nat MAX_OPEN_FILES) in
      h ← file_handles s !! idx;
      if fd h =? 0 then
        let h' := mk_handle (hnode h) (position h) (hflags h) (next_fd s) (owner_pid h) in
        let nf := u32 (next_fd s + 1) in
        Some (Some idx, mk_fs (root_node s) (<[idx := h']> (file_handles s)) (fs_nodes s) (next_node_idx_hint s)
                          (Z.of_nat idx + 1) (next_node_id s) (if nf =? 0 then 1 else nf))
      else alloc_handle_loop n' (i + 1) s
  end.
Definition AllocHandle (s : fs) : option (option nat * fs) := alloc_handle_loop MAX_OPEN_FILES 0 s.
Fixpoint get_handle_loop (n : nat) (i : nat) (f : Z) (s : fs) : option (option nat) :=
  match n with
  | O => Some None
  | S n' => h ← file_handles s !! i; if fd h =? u32 f then Some (Some i) else get_handle_loop n' (S i) f s
  end.
Definition GetHandle (f : Z) (s : fs) : option (option nat) :=
  if f <=? 0 then Some None else get_handle_loop MAX_OPEN_FILES 0 f s.

(** ** The tree *)
Definition slash : Z := 47.
Definition FsInit (s : fs) : option (Z * fs) :=
  let s0 := mk_fs (root_node s) (replicate MAX_OPEN_FILES zero_handle) (replicate MAX_FS_NODES zero_fsnode)
              (next_node_idx_hint s) (next_handle_idx_hint s) (next_node_id s) (next_fd s) in
  r ← AllocNode s0;
  match r with
  | (None, s1) => Some (-1, set_root_node None s1)
  | (Some i, s1) =>
      s2 ← upd_node i (fun n => set_ntype FS_DIRECTORY (set_nname [slash] n)) s1;
      Some (0, set_root_node (Some i) s2)
  end.

(** The child called [nm] from [c] along the sibling list; a list is no longer than the pool. *)
Definition sib_fuel : nat := 129.
Fixpoint find_child (fuel : nat) (c : option nat) (nm : list Z) (s : fs) : option (option nat) :=
  match fuel with
  | O => None
  | S f =>
      match c with
      | None => Some None
      | Some i =>
          n ← get_node i s;
          if bool_decide (name n = nm) then Some (Some i) else find_child f (next_sibling n) nm s
      end
  end.

Definition FsCreateNode (nm : list Z) (ty : FsNodeType) (par : nat) (s : fs) : option (option nat * fs) :=
  p ← get_node par s;
  if negb (bool_decide (ntype p = FS_DIRECTORY)) || bool_decide (nm = []) then Some (None, s) else
  c ← find_child sib_fuel (children p) nm s;
  match c with
  | Some _ => Some (None, s)
  | None =>
      a ← AllocNode s;
      match a with
      | (None, s1) => Some (None, s1)
      | (Some i, s1) =>
          s2 ← upd_node i (fun n => set_nparent (Some par) (set_ntype ty (set_nname (str_copy nm (MAX_FILENAME - 1)) n))) s1;
          p2 ← get_node par s2;
          s3 ← match last_child p2 with
               | None => upd_node par (fun n => set_last_child (Some i) (set_children (Some i) n)) s2
               | Some l =>
                   s3 ← upd_node i (set_prev (Some l)) s2;
                   s4 ← upd_node l (set_next (Some i)) s3;
                   upd_node par (set_last_child (Some i)) s4
               end;
          Some (Some i, s3)
      end
  end.

(** ** Paths *)
Fixpoint skip_slashes (p : list Z) : list Z :=
  match p with
  | [] => []
  | c :: p' => if c =? slash then skip_slashes p' else p
  end.
(** The next component, at most 63 bytes, and the rest. *)
Fixpoint component (i : nat) (p : list Z) : list Z * list Z :=
  match p with
  | [] => ([], [])
  | c :: p' =>
      if (c =? slash) || (63 <=? i)%nat then ([], p)
      else let '(nm, rest) := component (S i) p' in (c :: nm, rest)
  end.
Definition dot : list Z := [46].
Definition dotdot : list Z := [46; 46].
Fixpoint walk_loop (fuel : nat) (cur : nat) (p : list Z) (s : fs) : option (option nat) :=
  match fuel with
  | O => None
  | S f =>
      match p with
      | [] => Some (Some cur)
      | _ =>
          match skip_slashes p with
          | [] => Some (Some cur)
          | q =>
              let '(nm, rest) := component 0 q in
              if bool_decide (nm = dot) then walk_loop f cur rest s else
              n ← get_node cur s;
              if bool_decide (nm = dotdot) then walk_loop f (default cur (parent n)) rest s else
              c ← find_child sib_fuel (children n) nm s;
              match c with
              | None => Some None
              | Some i => walk_loop f i rest s
              end
          end
      end
  end.
Definition FsFind (path : list Z) (s : fs) : option (option nat) :=
  match root_node s with
  | None => Some None
  | Some r => if bool_decide (path = [slash]) then Some (Some r) else walk_loop (S (length path)) r path s
  end.

(** The position of the last slash, -1 when there is none. *)
Fixpoint last_slash_loop (p : list Z) (i last : Z) : Z :=
  match p with
  | [] => last
  | c :: p' => last_slash_loop p' (i + 1) (if c =? slash then i else last)
  end.
(** The parent's path is built in a buffer of 256 bytes. *)
Definition FsFindParent (path : list Z) (s : fs) : option (option (nat * list Z)) :=
  if negb (bool_decide (hd_error path = Some slash)) then Some None else
  let last := last_slash_loop path 0 (-1) in
  let start := drop (Z.to_nat (last + 1)) path in
  if bool_decide (start = []) then Some None else
  let child := str_copy start (MAX_FILENAME - 1) in
  if MAX_PATH <=? last then None else
  let parent_path := if last =? 0 then [slash] else take (Z.to_nat last) path in
  r ← FsFind parent_path s;
  Some (match r with Some i => Some (i, child) | None => None end).

(** ** Files *)
Definition has (flags bit : Z) : bool := negb (Z.land flags bit =? 0).
Definition FsOpen (path : list Z) (flags pid : Z) (s : fs) : option (Z * fs) :=
  r ← FsFind path s;
  x ← match r with
      | Some i => Some (Some i, s)
      | None =>
          if has flags FS_WRITE then
            pr ← FsFindParent path s;
            match pr with
            | None => Some (None, s)
            | Some (par, filename) => FsCreateNode filename FS_FILE par s
            end
          else Some (None, s)
      end;
  match x with
  | (None, s1) => Some (-1, s1)
  | (Some i, s1) =>
      n ← get_node i s1;
      if negb (bool_decide (ntype n = FS_FILE)) then Some (-1, s1) else
      a ← AllocHandle s1;
      match a with
      | (None, s2) => Some (-1, s2)
      | (Some h, s2) =>
          hd ← file_handles s2 !! h;
          let hd' := mk_handle (Some i) (if has flags FS_APPEND then size n else 0) flags (fd hd) pid in
          Some (i32 (fd hd), set_file_handles (<[h := hd']> (file_handles s2)) s2)
      end
  end.
Definition FsClose (f : Z) (s : fs) : option (Z * fs) :=
  r ← GetHandle f s;
  match r with
  | None => Some (-1, s)
  | Some h => Some (0, set_file_handles (<[h := zero_handle]> (file_handles s)) s)
  end.
Definition set_position (h : nat) (pos : Z) (s : fs) : option fs :=
  x ← file_handles s !! h;
  Some (set_file_handles (<[h := mk_handle (hnode x) pos (hflags x) (fd x) (owner_pid x)]> (file_handles s)) s).

(** The bytes read, with the result; [size] is the room in a non-NULL buffer. *)
Definition FsRead (f : Z) (sz : Z) (s : fs) : option (Z * list Z * fs) :=
  r ← GetHandle f s;
  match r with
  | None => Some (-1, [], s)
  | Some h =>
      x ← file_handles s !! h;
      if negb (has (hflags x) FS_READ) then Some (-1, [], s) else
      match hnode x with
      | None => Some (0, [], s)
      | Some i =>
          n ← get_node i s;
          match data n with
          | None => Some (0, [], s)
          | Some d =>
              let readable_size := u64 (size n - position x) in
              let bytes_to_read := if readable_size <? sz then readable_size else sz in
              if 0 <? bytes_to_read then
                b ← mem_read d (position x) bytes_to_read;
                s' ← set_position h (u64 (position x + bytes_to_read)) s;
                Some (i32 bytes_to_read, b, s')
              else Some (i32 bytes_to_read, [], s)
          end
      end
  end.

Section heap.
(** [KernelReallocate]: it stops the kernel ([None]), returns NULL ([Some None]) or the block grown
    to a size. *)
Context (realloc : list Z -> Z -> option (option (list Z))).

Definition FsWrite (f : Z) (buf : list Z) (s : fs) : option (Z * fs) :=
  let sz := Z.of_nat (length buf) in
  r ← GetHandle f s;
  match r with
  | None => Some (-1, s)
  | Some h =>
      x ← file_handles s !! h;
      if negb (has (hflags x) FS_WRITE) then Some (-1, s) else
      if sz =? 0 then Some (0, s) else
      match hnode x with
      | None => Some (-1, s)
      | Some i =>
          n ← get_node i s;
          let new_size := u64 (position x + sz) in
          g ← (if size n <? new_size then
                 o ← realloc (default [] (data n)) new_size; Some ((fun d : list Z => (d, new_size)) <$> (o : option (list Z)))
               else d ← data n; Some (Some (d, size n)));
          match g with
          | None => Some (-1, s)
          | Some (d, ns) =>
              d' ← mem_write d (position x) buf;
              s1 ← upd_node i (set_content (Some d') ns) s;
              s2 ← set_position h (u64 (position x + sz)) s1;
              Some (i32 sz, s2)
          end
      end
  end.

Definition FsSeek (f offset whence : Z) (s : fs) : option (Z * fs) :=
  r ← GetHandle f s;
  match r with
  | None => Some (-1, s)
  | Some h =>
      x ← file_handles s !! h;
      match hnode x with
      | None => Some (-1, s)
      | Some i =>
          n ← get_node i s;
          let new_pos := if whence =? SEEK_SET then Some offset
                         else if whence =? SEEK_CUR then Some (i64 (i64 (position x) + offset))
                         else if whence =? SEEK_END then Some (i64 (i64 (size n) + offset))
                         else None in
          match new_pos with
          | None => Some (-1, s)
          | Some p =>
              if p <? 0 then Some (-1, s) else
              s' ← set_position h (u64 p) s;
              Some (p, s')
          end
      end
  end.

(** ** Directories and deletion *)
Definition FsMkdir (path : list Z) (s : fs) : option (Z * fs) :=
  pr ← FsFindParent path s;
  match pr with
  | None => Some (-1, s)
  | Some (par, dirname) =>
      r ← FsCreateNode dirname FS_DIRECTORY par s;
      match r with (Some _, s') => Some (0, s') | (None, s') => Some (-1, s') end
  end.
Definition UnlinkNode (i : nat) (s : fs) : option fs :=
  n ← get_node i s;
  match parent n with
  | None => Some s
  | Some par =>
      s1 ← match prev_sibling n with
           | Some q => upd_node q (set_next (next_sibling n)) s
           | None => upd_node par (set_children (next_sibling n)) s
           end;
      match next_sibling n with
      | Some q => upd_node q (set_prev (prev_sibling n)) s1
      | None => upd_node par (set_last_child (prev_sibling n)) s1
      end
  end.
Definition FsDelete (path : list Z) (s : fs) : option (Z * fs) :=
  r ← FsFind path s;
  match r with
  | None => Some (-1, s)
  | Some i =>
      n ← get_node i s;
      match parent n with
      | None => Some (-1, s)
      | Some _ =>
          if bool_decide (ntype n = FS_DIRECTORY) && bool_decide (children n <> None) then Some (-1, s) else
          s1 ← UnlinkNode i s;
          s2 ← FreeNode i s1;
          Some (0, s2)
      end
  end.
Definition FsRmdir (path : list Z) (s : fs) : option (Z * fs) :=
  r ← FsFind path s;
  match r with
  | None => Some (-1, s)
  | Some i =>
      n ← get_node i s;
      if negb (bool_decide (ntype n = FS_DIRECTORY)) then Some (-1, s) else FsDelete path s
  end.

(** The loop over the children, and the recursion into each; the next sibling is read before
    the child is freed. *)
Fixpoint delete_children (del : nat -> fs -> option fs) (g : nat) (c : option nat) (s : fs) : option fs :=
  match g with
  | O => None
  | S g' =>
      match c with
      | None => Some s
      | Some k =>
          kn ← get_node k s;
          let next := next_sibling kn in
          s1 ← del k s;
          delete_children del g' next s1
      end
  end.
Fixpoint FsDeleteRecursiveI (fuel : nat) (i : nat) (s : fs) : option fs :=
  match fuel with
  | O => None
  | S f =>
      n ← get_node i s;
      s' ← (if bool_decide (ntype n = FS_DIRECTORY)
            then delete_children (FsDeleteRecursiveI f) sib_fuel (children n) s
            else Some s);
      FreeNode i s'
  end.
Definition FsDeleteRecursive (path : list Z) (s : fs) : option (Z * fs) :=
  r ← FsFind path s;
  match r with
  | None => Some (-1, s)
  | Some i =>
      n ← get_node i s;
      match parent n with
      | None => Some (-1, s)
      | Some _ =>
          s1 ← UnlinkNode i s;
          s2 ← FsDeleteRecursiveI (S MAX_FS_NODES) i s1;
          Some (0, s2)
      end
  end.
Definition FsReaddir (path : list Z) (s : fs) : option (option nat) :=
  r ← FsFind path s;
  match r with
  | None => Some None
  | Some i => n ← get_node i s; Some (if bool_decide (ntype n = FS_DIRECTORY) then children n else None)
  end.

(** The nodes of a sibling list, in its order. *)
Fixpoint list_children (fuel : nat) (c : option nat) (s : fs) : option (list nat) :=
  match fuel with
  | O => None
  | S f =>
      match c with
      | None => Some []
      | Some i => n ← get_node i s; l ← list_children f (next_sibling n) s; Some (i :: l)
      end
  end.
(** The result and the lines printed: the type and the name of every child. *)
Definition FsListDir (path : list Z) (s : fs) : option (Z * list (FsNodeType * list Z)) :=
  r ← FsFind path s;
  match r with
  | None => Some (-1, [])
  | Some i =>
      n ← get_node i s;
      if negb (bool_decide (ntype n = FS_DIRECTORY)) then Some (-1, []) else
      l ← list_children sib_fuel (children n) s;
      lines ← mapM (fun k => c ← get_node k s; Some (ntype c, name c)) l;
      Some (0, lines)
  end.

(** ** Wrappers *)
Definition FsCreateFile (path : list Z) (pid : Z) (s : fs) : option (Z * fs) :=
  r ← FsOpen path FS_WRITE pid s;
  let '(f, s1) := (r : Z * fs) in
  if f <? 0 then Some (-1, s1) else
  c ← FsClose f s1;
  let '(_, s2) := (c : Z * fs) in Some (0, s2).
Definition FsWriteFile (path buf : list Z) (pid : Z) (s : fs) : option (Z * fs) :=
  r ← FsOpen path (Z.lor FS_WRITE FS_APPEND) pid s;
  let '(f, s1) := (r : Z * fs) in
  if f <? 0 then Some (-1, s1) else
  w ← FsWrite f buf s1;
  let '(result, s2) := (w : Z * fs) in
  c ← FsClose f s2;
  let '(_, s3) := (c : Z * fs) in Some (result, s3).
End heap.
