(* ===== verification/VfrfsInv.v ===== *)
(** The invariant of the file tree of [Vfrfs]: a function [K] gives every node its children in
    order, and the pointers of the pool spell it out; [dep] is the distance to the root. *)
From Stdlib Require Import ZArith Lia.
From stdpp Require Import base tactics sets list numbers option functions.
From S2P Require Import Prelude Vfrfs.

Record node_ok (K : nat -> list nat) (r i : nat) (n : FsNode) : Prop := {
  nk_children : children n = hd_error (K i);
  nk_last : last_child n = list.last (K i);
  nk_free : node_id n = 0 -> K i = [] /\ parent n = None;
  nk_dir : K i <> [] -> ntype n = FS_DIRECTORY;
  nk_parent : forall p, parent n = Some p -> i ∈ K p;
  nk_top : parent n = None -> next_sibling n = None /\ prev_sibling n = None;
  nk_root : node_id n <> 0 -> parent n = None -> i = r
}.
Record kid_ok (s : fs) (dep : nat -> nat) (i j : nat) (before after : option nat) : Prop := {
  kk_depth : dep j = S (dep i);
  kk_node : exists n, get_node j s = Some n /\ node_id n <> 0 /\ parent n = Some i /\
              prev_sibling n = before /\ next_sibling n = after
}.
Record tree_ok (s : fs) (K : nat -> list nat) (dep : nat -> nat) (r : nat) : Prop := {
  tk_len : length (fs_nodes s) = MAX_FS_NODES;
  tk_root : root_node s = Some r;
  tk_rootn : exists n, get_node r s = Some n /\ node_id n <> 0 /\ ntype n = FS_DIRECTORY /\ parent n = None;
  tk_node : forall i n, get_node i s = Some n -> node_ok K r i n;
  tk_kid : forall i l1 j l2, K i = l1 ++ j :: l2 -> kid_ok s dep i j (list.last l1) (hd_error l2);
  tk_nodup : forall i, NoDup (K i);
  tk_out : forall i, K i <> [] -> (i < MAX_FS_NODES)%nat;
  tk_dep : dep r = 0%nat;
  tk_names : forall i j1 j2 n1 n2, j1 ∈ K i -> j2 ∈ K i -> get_node j1 s = Some n1 -> get_node j2 s = Some n2 ->
               name n1 = name n2 -> j1 = j2
}.

(** ** Nodes *)
Lemma get_lt s K dep r i : tree_ok s K dep r -> (i < MAX_FS_NODES)%nat -> exists n, get_node i s = Some n.
Proof. intros H Hi. apply lookup_lt_is_Some. rewrite (tk_len _ _ _ _ H). done. Qed.
Lemma get_lt_inv s K dep r i n : tree_ok s K dep r -> get_node i s = Some n -> (i < MAX_FS_NODES)%nat.
Proof. intros H Hi. rewrite <- (tk_len _ _ _ _ H). by eapply lookup_lt_Some. Qed.
Lemma kid_in s K dep r i j : tree_ok s K dep r -> j ∈ K i ->
  dep j = S (dep i) /\ exists n, get_node j s = Some n /\ node_id n <> 0 /\ parent n = Some i.
Proof.
  intros H (l1 & l2 & E)%list_elem_of_split. destruct (tk_kid _ _ _ _ H _ _ _ _ E) as [? (n & ? & ? & ? & _)]. eauto.
Qed.
Lemma kid_parent s K dep r i j n : tree_ok s K dep r -> get_node j s = Some n -> j ∈ K i <-> parent n = Some i.
Proof.
  intros H Hn. split; [|apply (tk_node _ _ _ _ H _ _ Hn)].
  intros (_ & n' & Hn' & _ & ?)%(kid_in _ _ _ _ _ _ H). congruence.
Qed.
(** A node with a child exists and is a directory. *)
Lemma kid_dir s K dep r i j : tree_ok s K dep r -> j ∈ K i ->
  exists n, get_node i s = Some n /\ node_id n <> 0 /\ ntype n = FS_DIRECTORY.
Proof.
  intros H Hj. assert (K i <> []) as Hne by (intros E; rewrite E in Hj; inversion Hj).
  destruct (get_lt _ _ _ _ i H (tk_out _ _ _ _ H _ Hne)) as (n & Hn). exists n.
  pose proof (tk_node _ _ _ _ H _ _ Hn) as HO. split_and!; [done| |by apply HO].
  intros [? _]%(nk_free _ _ _ _ HO). done.
Qed.

(** ** Updates *)
Lemma upd_node_ok i f s n : get_node i s = Some n ->
  upd_node i f s = Some (set_fs_nodes (<[i := f n]> (fs_nodes s)) s).
Proof. intros H. unfold upd_node. by rewrite H. Qed.
Lemma get_set_eq i v s n : get_node i s = Some n -> get_node i (set_fs_nodes (<[i := v]> (fs_nodes s)) s) = Some v.
Proof. intros H. apply list_lookup_insert_eq. by eapply lookup_lt_Some. Qed.
Lemma get_set_ne i k v s : k <> i -> get_node k (set_fs_nodes (<[i := v]> (fs_nodes s)) s) = get_node k s.
Proof. intros H. by apply list_lookup_insert_ne. Qed.
Lemma get_set i k v s n : get_node i s = Some n ->
  get_node k (set_fs_nodes (<[i := v]> (fs_nodes s)) s) = if decide (k = i) then Some v else get_node k s.
Proof. intros H. destruct (decide (k = i)) as [->|]; [by eapply get_set_eq | by apply get_set_ne]. Qed.
(** The whole effect of an update, for a relation between two states. *)
Record same_but_nodes (s s' : fs) : Prop := {
  sb_root : root_node s' = root_node s;
  sb_handles : file_handles s' = file_handles s;
  sb_len : length (fs_nodes s') = length (fs_nodes s);
  sb_nhint : next_node_idx_hint s' = next_node_idx_hint s;
  sb_hhint : next_handle_idx_hint s' = next_handle_idx_hint s;
  sb_nid : next_node_id s' = next_node_id s
}.
#[export] Instance same_but_nodes_po : PreOrder same_but_nodes.
Proof. split; [by intros s | intros a b c [] []; split; congruence]. Qed.
Lemma same_set i v s : same_but_nodes s (set_fs_nodes (<[i := v]> (fs_nodes s)) s).
Proof. split; cbn; auto using length_insert. Qed.

(** ** The sibling list *)
Lemma hd_split (l : list nat) c : hd_error l = Some c -> exists l', l = c :: l'.
Proof. destruct l; [done|]. intros [= ->]. eauto. Qed.
Lemma NoDup_length_bound (l : list nat) n : NoDup l -> (forall x, x ∈ l -> (x < n)%nat) -> (length l <= n)%nat.
Proof.
  intros H1 H2. rewrite <- (length_seq n 0). apply submseteq_length, NoDup_submseteq; [done|].
  intros x Hx%H2. apply elem_of_seq. lia.
Qed.
Lemma kids_length s K dep r i : tree_ok s K dep r -> (length (K i) <= MAX_FS_NODES)%nat.
Proof.
  intros H. apply NoDup_length_bound; [apply H|]. intros j (_ & n & Hn & _)%(kid_in _ _ _ _ _ _ H).
  by eapply get_lt_inv.
Qed.
Lemma list_children_suffix s K dep r i f l1 l2 : tree_ok s K dep r -> K i = l1 ++ l2 -> (length l2 < f)%nat ->
  list_children f (hd_error l2) s = Some l2.
Proof.
  intros H. revert l1 f. induction l2 as [|j l2 IH]; intros l1 f E Hf; destruct f as [|f]; cbn in Hf; try lia; [done|].
  destruct (tk_kid _ _ _ _ H _ _ _ _ E) as [_ (n & Hn & _ & _ & _ & Hx)]. cbn [list_children hd_error].
  rewrite Hn, option_bind_Some, Hx. rewrite (IH (l1 ++ [j])), option_bind_Some; [done| |lia]. by rewrite <- app_assoc.
Qed.
Lemma list_children_ok s K dep r i n : tree_ok s K dep r -> get_node i s = Some n ->
  list_children sib_fuel (children n) s = Some (K i).
Proof.
  intros H Hn. rewrite (nk_children _ _ _ _ (tk_node _ _ _ _ H _ _ Hn)). apply (list_children_suffix _ K dep r i _ []); [done..|].
  pose proof (kids_length _ _ _ _ i H). unfold sib_fuel, MAX_FS_NODES in *. lia.
Qed.
(** The first child with a name. *)
Definition named (s : fs) (nm : list Z) (k : nat) : bool :=
  match get_node k s with Some n => bool_decide (name n = nm) | None => false end.
Lemma find_child_suffix s K dep r i f nm l1 l2 : tree_ok s K dep r -> K i = l1 ++ l2 -> (length l2 < f)%nat ->
  find_child f (hd_error l2) nm s = Some (List.find (named s nm) l2).
Proof.
  intros H. revert l1 f. induction l2 as [|j l2 IH]; intros l1 f E Hf; destruct f as [|f]; cbn in Hf; try lia; [done|].
  destruct (tk_kid _ _ _ _ H _ _ _ _ E) as [_ (n & Hn & _ & _ & _ & Hx)]. cbn [find_child hd_error List.find].
  unfold named at 1. rewrite Hn, option_bind_Some, Hx. destruct (bool_decide _); [done|].
  apply (IH (l1 ++ [j])); [|lia]. by rewrite <- app_assoc.
Qed.
Lemma find_child_ok s K dep r i n nm : tree_ok s K dep r -> get_node i s = Some n ->
  find_child sib_fuel (children n) nm s = Some (List.find (named s nm) (K i)).
Proof.
  intros H Hn. rewrite (nk_children _ _ _ _ (tk_node _ _ _ _ H _ _ Hn)). apply (find_child_suffix _ K dep r i _ _ []); [done..|].
  pose proof (kids_length _ _ _ _ i H). unfold sib_fuel, MAX_FS_NODES in *. lia.
Qed.

(** ** Depth *)
Lemma depth_chain s K dep r : tree_ok s K dep r -> forall d i n, dep i = d -> get_node i s = Some n -> node_id n <> 0 ->
  exists l, (d <= dep r + length l)%nat /\ NoDup l /\ (forall x, x ∈ l -> (dep x <= d)%nat /\ (x < MAX_FS_NODES)%nat) .
Proof.
  intros H. induction d as [|d IH]; intros i n Hd Hn Hid.
  { exists []. split_and!; [lia|constructor|]. intros x Hx. inversion Hx. }
  destruct (parent n) as [p|] eqn:Hp.
  - pose proof (proj2 (kid_parent _ _ _ _ p _ _ H Hn) Hp) as Hi. destruct (kid_in _ _ _ _ _ _ H Hi) as (Hdp & _).
    destruct (kid_dir _ _ _ _ _ _ H Hi) as (pn & Hpn & Hpid & _).
    destruct (IH p pn) as (l & Hl & Hnd & Hx); [lia|done|done|]. exists (i :: l). split_and!.
    + cbn. lia.
    + constructor; [|done]. intros HX%Hx. lia.
    + intros x [->|HX]%elem_of_cons; [|apply Hx in HX; lia]. split; [lia|]. by eapply get_lt_inv.
  - pose proof (nk_root _ _ _ _ (tk_node _ _ _ _ H _ _ Hn) Hid Hp) as ->. exists []. cbn.
    split_and!; [lia|constructor|]. intros x Hx. inversion Hx.
Qed.
Lemma depth_bound s K dep r i n : tree_ok s K dep r -> get_node i s = Some n -> node_id n <> 0 ->
  (dep i <= dep r + MAX_FS_NODES)%nat.
Proof.
  intros H Hn Hid. destruct (depth_chain _ _ _ _ H _ _ _ eq_refl Hn Hid) as (l & Hl & Hnd & Hx).
  pose proof (NoDup_length_bound l MAX_FS_NODES Hnd (fun x Hx' => proj2 (Hx x Hx'))). lia.
Qed.
