(* ===== verification/VfrfsCreate.v ===== *)
(** Creation of a node: [AllocNode] and [FsCreateNode], and the invariant they preserve. *)
From Stdlib Require Import ZArith Lia.
From stdpp Require Import base tactics sets list numbers option functions.
From S2P Require Import Prelude Vfrfs VfrfsInv.

(** ** The part of the invariant that is not the tree *)
Definition content_ok (n : FsNode) : Prop :=
  size n = match data n with Some d => Z.of_nat (length d) | None => 0 end /\ size n < 2 ^ 63.
Record handle_ok (x : FileHandle) : Prop := {
  hk_node : forall i, hnode x = Some i -> (i < MAX_FS_NODES)%nat;
  hk_pos : 0 <= position x < 2 ^ 63
}.
Record aux_ok (s : fs) : Prop := {
  ak_content : forall i n, get_node i s = Some n -> content_ok n;
  ak_hlen : length (file_handles s) = MAX_OPEN_FILES;
  ak_handle : forall h x, file_handles s !! h = Some x -> handle_ok x;
  ak_nhint : 0 <= next_node_idx_hint s <= Z.of_nat MAX_FS_NODES;
  ak_hhint : 0 <= next_handle_idx_hint s <= Z.of_nat MAX_OPEN_FILES;
  ak_nid : 0 < next_node_id s < 2 ^ 32
}.

(** ** AllocNode *)
Definition allocated (i : nat) (nd : FsNode) (s : fs) : fs :=
  mk_fs (root_node s) (file_handles s) (<[i := set_node_id (next_node_id s) nd]> (fs_nodes s)) (Z.of_nat i + 1)
    (next_handle_idx_hint s) (u32 (next_node_id s + 1)) (next_fd s).
(** The slot at a distance from the hint. *)
Definition slot_from (s : fs) (j : Z) : nat := Z.to_nat ((next_node_idx_hint s + j) mod Z.of_nat MAX_FS_NODES).
Lemma alloc_node_loop_ok s n i : length (fs_nodes s) = MAX_FS_NODES -> aux_ok s -> 0 <= i -> i + Z.of_nat n = Z.of_nat MAX_FS_NODES ->
  (alloc_node_loop n i s = Some (None, s) /\
     forall j, i <= j < Z.of_nat MAX_FS_NODES -> exists nd, get_node (slot_from s j) s = Some nd /\ node_id nd <> 0) \/
  (exists k nd, alloc_node_loop n i s = Some (Some k, allocated k nd s) /\ get_node k s = Some nd /\ node_id nd = 0).
Proof.
  intros HL HA. revert i. induction n as [|n IH]; intros i Hi E.
  { left. split; [done|]. lia. }
  destruct HA as [_ _ _ Hh _ _]. cbn [alloc_node_loop]. unfold MAX_FS_NODES in *. wsimp. fold (slot_from s i).
  assert (Hlt : (slot_from s i < 128)%nat) by (unfold slot_from, MAX_FS_NODES; pose proof (Z.mod_pos_bound (next_node_idx_hint s + i) 128); lia).
  destruct (lookup_lt_is_Some_2 (fs_nodes s) (slot_from s i)) as (nd & Hn); [lia|]. change (get_node (slot_from s i) s = Some nd) in Hn.
  change (next_node_idx_hint s + i) with (next_node_idx_hint s + i). fold (slot_from s i) in *.
  change (Z.to_nat ((next_node_idx_hint s + i) mod Z.of_nat 128)) with (slot_from s i). rewrite Hn, option_bind_Some. cbv beta.
  destruct (Z.eqb_spec (node_id nd) 0) as [H0|H0].
  - right. exists (slot_from s i), nd. done.
  - destruct (IH (i + 1)) as [[E1 H1]|H1]; [lia..| |]; [left | by right]. split; [done|].
    intros j Hj. destruct (decide (j = i)) as [->|]; [eauto|]. apply H1. lia.
Qed.
Lemma AllocNode_ok s : length (fs_nodes s) = MAX_FS_NODES -> aux_ok s ->
  (AllocNode s = Some (None, s) /\ forall k, (k < MAX_FS_NODES)%nat -> exists nd, get_node k s = Some nd /\ node_id nd <> 0) \/
  (exists k nd, AllocNode s = Some (Some k, allocated k nd s) /\ get_node k s = Some nd /\ node_id nd = 0).
Proof.
  intros HL HA. destruct (alloc_node_loop_ok s MAX_FS_NODES 0 HL HA) as [[E H]|H]; [lia..| |]; [left | by right].
  split; [done|]. intros k Hk. specialize (H ((Z.of_nat k - next_node_idx_hint s) mod Z.of_nat MAX_FS_NODES)).
  unfold slot_from in H. rewrite Zplus_mod_idemp_r in H.
  replace (next_node_idx_hint s + (Z.of_nat k - next_node_idx_hint s)) with (Z.of_nat k) in H by lia.
  rewrite (Z.mod_small (Z.of_nat k)), Nat2Z.id in H by lia. apply H. apply Z.mod_pos_bound. unfold MAX_FS_NODES. lia.
Qed.

(** ** FsCreateNode *)
Definition new_node (nm : list Z) (ty : FsNodeType) (par : nat) (l : option nat) (id : Z) (nd : FsNode) : FsNode :=
  set_prev l (set_nparent (Some par) (set_ntype ty (set_nname nm (set_node_id id nd)))).
Definition grown_parent (i : nat) (l : option nat) (p : FsNode) : FsNode :=
  set_last_child (Some i) (match l with None => set_children (Some i) p | Some _ => p end).
Record created (s s' : fs) (nm : list Z) (ty : FsNodeType) (par i : nat) (l : option nat) : Prop := {
  cr_same : exists nd, get_node i s = Some nd /\ node_id nd = 0 /\ same_but_nodes (allocated i nd s) s' /\
              get_node i s' = Some (new_node nm ty par l (next_node_id s) nd);
  cr_par : exists p, get_node par s = Some p /\ get_node par s' = Some (grown_parent i l p);
  cr_last : forall q, l = Some q -> exists n, get_node q s = Some n /\ get_node q s' = Some (set_next (Some i) n);
  cr_other : forall k, k <> i -> k <> par -> l <> Some k -> get_node k s' = get_node k s
}.
Lemma last_kid s K dep r i q : tree_ok s K dep r -> list.last (K i) = Some q -> q ∈ K i /\ q <> i.
Proof.
  intros H E. assert (q ∈ K i) as Hq by (apply last_Some in E as (l & ->); set_solver). split; [done|].
  intros ->. destruct (kid_in _ _ _ _ _ _ H Hq). lia.
Qed.
Lemma append_ok s k q par nk nq np : get_node k s = Some nk -> get_node q s = Some nq -> get_node par s = Some np ->
  q <> k -> par <> k -> q <> par ->
  exists s', (s3 ← upd_node k (set_prev (Some q)) s; s4 ← upd_node q (set_next (Some k)) s3; upd_node par (set_last_child (Some k)) s4) = Some s' /\
    same_but_nodes s s' /\
    forall j, get_node j s' = if decide (j = par) then Some (set_last_child (Some k) np)
                              else if decide (j = q) then Some (set_next (Some k) nq)
                              else if decide (j = k) then Some (set_prev (Some q) nk) else get_node j s.
Proof.
  intros Hk Hq Hp Hqk Hpk Hqp. rewrite (upd_node_ok _ _ _ _ Hk), option_bind_Some.
  pose proof (same_set k (set_prev (Some q) nk) s) as S3. pose proof (fun j => get_set k j (set_prev (Some q) nk) s _ Hk) as G3.
  set (s3 := set_fs_nodes _ s) in *. clearbody s3.
  assert (Hq3 : get_node q s3 = Some nq) by (rewrite G3, decide_False; done).
  rewrite (upd_node_ok _ _ _ _ Hq3), option_bind_Some. pose proof (same_set q (set_next (Some k) nq) s3) as S4.
  pose proof (fun j => get_set q j (set_next (Some k) nq) s3 _ Hq3) as G4. set (s4 := set_fs_nodes _ s3) in *. clearbody s4.
  assert (Hp4 : get_node par s4 = Some np) by (rewrite G4, G3, !decide_False; done).
  rewrite (upd_node_ok _ _ _ _ Hp4). eexists. split; [reflexivity|]. split.
  { etransitivity; [exact S3|]. etransitivity; [exact S4|apply same_set]. }
  intros j. rewrite (get_set _ _ _ _ _ Hp4), G4, G3. done.
Qed.
Lemma link_ok s K dep r nm ty par p k nd : tree_ok s K dep r -> get_node par s = Some p -> get_node k s = Some nd ->
  node_id nd = 0 -> node_id p <> 0 ->
  exists s', (s2 ← upd_node k (fun n => set_nparent (Some par) (set_ntype ty (set_nname nm n))) (allocated k nd s);
              p2 ← get_node par s2;
              match last_child p2 with
              | None => upd_node par (fun n => set_last_child (Some k) (set_children (Some k) n)) s2
              | Some l =>
                  s3 ← upd_node k (set_prev (Some l)) s2;
                  s4 ← upd_node l (set_next (Some k)) s3;
                  upd_node par (set_last_child (Some k)) s4
              end) = Some s' /\ created s s' nm ty par k (list.last (K par)).
Proof.
  intros HT Hp Hk Hz Hpz. assert (Hpk : par <> k) by congruence.
  pose proof (fun j => get_set k j (set_node_id (next_node_id s) nd) s nd Hk : get_node j (allocated k nd s) = _) as G1.
  remember (allocated k nd s) as s1 eqn:E1. pose proof (G1 k) as Hk1. rewrite decide_True in Hk1 by done.
  rewrite (upd_node_ok _ _ _ _ Hk1), option_bind_Some.
  set (nk := set_nparent _ _). pose proof (fun j => get_set k j nk s1 _ Hk1) as G2. pose proof (same_set k nk s1) as S2.
  set (s2 := set_fs_nodes _ s1) in *. clearbody s2.
  assert (Hp2 : get_node par s2 = Some p) by (rewrite G2, G1, !decide_False by done; done).
  rewrite Hp2, option_bind_Some, (nk_last _ _ _ _ (tk_node _ _ _ _ HT _ _ Hp)).
  destruct (list.last (K par)) as [q|] eqn:El.
  - destruct (last_kid _ _ _ _ _ _ HT El) as [Hq Hqp]. destruct (kid_in _ _ _ _ _ _ HT Hq) as (_ & qn & Hqn & Hqid & _).
    assert (Hqk : q <> k) by congruence. pose proof (G2 k) as Hk2. rewrite decide_True in Hk2 by done.
    assert (Hq2 : get_node q s2 = Some qn) by (rewrite G2, G1, !decide_False by done; done).
    destruct (append_ok s2 k q par _ _ _ Hk2 Hq2 Hp2) as (s' & -> & S & G); [done..|]. exists s'. split; [done|]. split.
    + exists nd. rewrite <- E1. split_and!; [done..|by etransitivity|]. rewrite G, !decide_False, decide_True by done. done.
    + exists p. split; [done|]. rewrite G, decide_True by done. done.
    + intros ? [= <-]. exists qn. split; [done|]. rewrite G, decide_False, decide_True by done. done.
    + intros j ? ? Hj. rewrite G, !decide_False, G2, decide_False, G1, decide_False by congruence. done.
  - rewrite (upd_node_ok _ _ _ _ Hp2). eexists. split; [reflexivity|].
    pose proof (fun j => get_set par j (set_last_child (Some k) (set_children (Some k) p)) s2 _ Hp2) as G.
    pose proof (tk_node _ _ _ _ HT _ _ Hk) as HNk. destruct (nk_top _ _ _ _ HNk (proj2 (nk_free _ _ _ _ HNk Hz))) as [_ Hprev].
    split; [| |done|].
    + exists nd. rewrite <- E1. split_and!; [done..|etransitivity; [exact S2|apply same_set]|].
      rewrite G, decide_False, G2, decide_True by done. destruct nd; cbn in *. by subst.
    + exists p. split; [done|]. rewrite G, decide_True by done. done.
    + intros j ? ? Hj. rewrite G, decide_False, G2, decide_False, G1, decide_False by congruence. done.
Qed.

(** What becomes of a node that is not the new one. *)
Record same_node (n n' : FsNode) : Prop := {
  sn_name : name n' = name n; sn_type : ntype n' = ntype n; sn_size : size n' = size n; sn_data : data n' = data n;
  sn_parent : parent n' = parent n; sn_id : node_id n' = node_id n
}.
Definition add_kid (K : nat -> list nat) (par i : nat) : nat -> list nat := <[par := K par ++ [i]]> K.
Lemma add_kid_eq K par i : add_kid K par i par = K par ++ [i].
Proof. apply fn_lookup_insert. Qed.
Lemma add_kid_ne K par i a : a <> par -> add_kid K par i a = K a.
Proof. intros H. by apply fn_lookup_insert_ne. Qed.
Record kept (K : nat -> list nat) (par i j : nat) (n n' : FsNode) : Prop := {
  kp_same : same_node n n';
  kp_prev : prev_sibling n' = prev_sibling n;
  kp_next : next_sibling n' = if decide (list.last (K par) = Some j) then Some i else next_sibling n;
  kp_children : children n' = hd_error (add_kid K par i j);
  kp_last : last_child n' = list.last (add_kid K par i j)
}.
Lemma created_kept s s' K dep r nm ty par i j n : tree_ok s K dep r -> created s s' nm ty par i (list.last (K par)) ->
  j <> i -> get_node j s = Some n -> exists n', get_node j s' = Some n' /\ kept K par i j n n'.
Proof.
  intros HT HC Hji Hn. pose proof (tk_node _ _ _ _ HT _ _ Hn) as HO.
  destruct (decide (j = par)) as [->|Hjp].
  - destruct (cr_par _ _ _ _ _ _ _ HC) as (p & Hp & ->). rewrite Hp in Hn. injection Hn as ->. eexists. split; [done|].
    unfold grown_parent. split.
    + by destruct (list.last (K par)).
    + by destruct (list.last (K par)).
    + rewrite decide_False by (intros E; by apply (last_kid _ _ _ _ _ _ HT) in E as [_ []]). by destruct (list.last (K par)).
    + rewrite add_kid_eq. destruct (list.last (K par)) eqn:El; cbn.
      * rewrite (nk_children _ _ _ _ HO). apply last_Some in El as (l & ->). by destruct l.
      * by rewrite (proj1 (last_None _) El).
    + by rewrite add_kid_eq, last_snoc.
  - destruct (decide (list.last (K par) = Some j)) as [El|El].
    + destruct (cr_last _ _ _ _ _ _ _ HC j El) as (n' & Hn' & ->). rewrite Hn' in Hn. injection Hn as ->. eexists. split; [done|].
      split; cbn; [done..| | |]; [by rewrite decide_True|rewrite add_kid_ne by done; apply HO..].
    + rewrite (cr_other _ _ _ _ _ _ _ HC j) by done. exists n. split; [done|]. split; [done..| | |]; [by rewrite decide_False|rewrite add_kid_ne by done; apply HO..].
Qed.
Lemma created_get s s' nm ty par i l k n : created s s' nm ty par i l -> get_node k s' = Some n -> exists n0, get_node k s = Some n0.
Proof.
  intros HC Hk. destruct (cr_same _ _ _ _ _ _ _ HC) as (nd & _ & _ & S & _). apply lookup_lt_is_Some.
  apply lookup_lt_Some in Hk. rewrite (sb_len _ _ S) in Hk. cbn in Hk. by rewrite length_insert in Hk.
Qed.
Lemma created_kid s s' K dep r nm ty par i a l1 j l2 : tree_ok s K dep r -> created s s' nm ty par i (list.last (K par)) ->
  next_node_id s <> 0 -> add_kid K par i a = l1 ++ j :: l2 ->
  kid_ok s' (<[i := S (dep par)]> dep) a j (list.last l1) (hd_error l2).
Proof.
  intros HT HC Hid E. destruct (cr_same _ _ _ _ _ _ _ HC) as (nd & Hi & Hz & _ & Hi').
  assert (HKi : K i = []) by apply (nk_free _ _ _ _ (tk_node _ _ _ _ HT _ _ Hi) Hz).
  assert (Hpi : par <> i).
  { intros ->. destruct (cr_par _ _ _ _ _ _ _ HC) as (p & Hp & Hp'). rewrite Hi' in Hp'.
    apply (f_equal (fmap node_id)) in Hp'. rewrite Hi in Hp. injection Hp as <-. unfold grown_parent in Hp'. destruct (list.last (K i)); cbn in Hp'; congruence. }
  assert (old : forall l2', K a = l1 ++ j :: l2' -> (a = par -> hd_error l2 = default (Some i) (Some <$> hd_error l2')) ->
     (a <> par -> hd_error l2 = hd_error l2') -> kid_ok s' (<[i := S (dep par)]> dep) a j (list.last l1) (hd_error l2)).
  { intros l2' E' H1 H2. destruct (tk_kid _ _ _ _ HT _ _ _ _ E') as [Hd (n & Hn & Hnid & Hpar & Hprev & Hnext)].
    assert (Hji : j <> i) by congruence. destruct (created_kept _ _ _ _ _ _ _ _ _ _ _ HT HC Hji Hn) as (n' & Hn' & [[] HP HN _ _]).
    assert (a <> i) by (intros ->; rewrite HKi in E'; by destruct l1).
    split; [by rewrite !fn_lookup_insert_ne|]. exists n'. split_and!; [done|congruence..|]. rewrite HN.
    destruct (decide (a = par)) as [->|Hap].
    - rewrite H1 by done. rewrite E', last_app, last_cons. destruct l2' as [|x l2']; cbn; [by rewrite decide_True|].
      rewrite decide_False; [done|]. intros Ex. pose proof (tk_nodup _ _ _ _ HT par) as HND. rewrite E' in HND.
      apply list.NoDup_app in HND as (_ & _ & [HND _]%list.NoDup_cons). apply HND.
      destruct (list.last (x :: l2')) eqn:EL; [|by apply last_None in EL]. injection Ex as ->. by apply list.last_Some_elem_of.
    - rewrite H2 by done. rewrite decide_False; [done|]. intros Ex. apply (last_kid _ _ _ _ _ _ HT) in Ex as [Ex _].
      apply (kid_parent _ _ _ _ _ _ _ HT Hn) in Ex. congruence. }
  destruct (decide (a = par)) as [->|Hap].
  - rewrite add_kid_eq in E. destruct (decide (l2 = [])) as [->|Hne].
    + apply app_inj_tail in E as [<- <-]. split; [by rewrite fn_lookup_insert, fn_lookup_insert_ne|].
      eexists. split; [exact Hi'|]. cbn. split_and!; try done.
      pose proof (tk_node _ _ _ _ HT _ _ Hi) as HNk. by destruct (nk_top _ _ _ _ HNk (proj2 (nk_free _ _ _ _ HNk Hz))).
    + destruct (exists_last Hne) as (l2' & x & ->). rewrite app_comm_cons, app_assoc in E. apply app_inj_tail in E as [E <-].
      apply (old l2'); [done| |done]. intros _. by destruct l2'.
  - rewrite add_kid_ne in E by done. by apply (old l2).
Qed.
Lemma created_fresh s s' K dep r nm ty par i : tree_ok s K dep r -> created s s' nm ty par i (list.last (K par)) ->
  K i = [] /\ (forall a, i ∉ K a) /\ (i < MAX_FS_NODES)%nat.
Proof.
  intros HT HC. destruct (cr_same _ _ _ _ _ _ _ HC) as (nd & Hi & Hz & _). split_and!.
  - apply (nk_free _ _ _ _ (tk_node _ _ _ _ HT _ _ Hi) Hz).
  - intros a (_ & n & Hn & ? & _)%(kid_in _ _ _ _ _ _ HT). congruence.
  - by eapply get_lt_inv.
Qed.
Lemma elem_of_add_kid K par i a j : j ∈ add_kid K par i a <-> j ∈ K a \/ (a = par /\ j = i).
Proof.
  destruct (decide (a = par)) as [->|]; [rewrite add_kid_eq | rewrite add_kid_ne by done]; set_solver.
Qed.
Lemma created_tree s s' K dep r nm ty par i p : tree_ok s K dep r -> created s s' nm ty par i (list.last (K par)) ->
  next_node_id s <> 0 -> get_node par s = Some p -> node_id p <> 0 -> ntype p = FS_DIRECTORY ->
  (forall j n, j ∈ K par -> get_node j s = Some n -> name n <> nm) ->
  tree_ok s' (add_kid K par i) (<[i := S (dep par)]> dep) r.
Proof.
  intros HT HC Hid Hp Hpid Hpty Hnm. destruct (created_fresh _ _ _ _ _ _ _ _ _ HT HC) as (HKi & Hfresh & Hilt).
  destruct (cr_same _ _ _ _ _ _ _ HC) as (nd & Hi & Hz & S & Hi'). assert (Hpi : par <> i) by congruence.
  pose proof (fun j n => created_kept _ _ _ _ _ _ _ _ _ j n HT HC) as HK.
  split.
  - rewrite (sb_len _ _ S). cbn. rewrite length_insert. apply HT.
  - rewrite (sb_root _ _ S). apply HT.
  - destruct (tk_rootn _ _ _ _ HT) as (rn & Hr & ? & ? & ?). destruct (HK r rn) as (n' & ? & [[] _ _ _ _]); [congruence|done|].
    exists n'. split_and!; congruence.
  - intros j n Hn. destruct (decide (j = i)) as [->|Hji].
    + rewrite Hi' in Hn. injection Hn as <-. pose proof (tk_node _ _ _ _ HT _ _ Hi) as HO.
      split; try done; rewrite ?add_kid_ne by done; try apply HO.
      * by rewrite HKi.
      * intros q [= <-]. apply elem_of_add_kid. auto.
    + destruct (created_get _ _ _ _ _ _ _ _ _ HC Hn) as (n0 & Hn0). destruct (HK j n0 Hji Hn0) as (n' & Hn' & [[] HP HN HC' HL]).
      rewrite Hn' in Hn. injection Hn as <-. pose proof (tk_node _ _ _ _ HT _ _ Hn0) as HO. split; try done.
      * intros H0. rewrite sn_id0 in H0. destruct (nk_free _ _ _ _ HO H0). split; [|congruence]. rewrite add_kid_ne by congruence. done.
      * intros HX. rewrite sn_type0. destruct (decide (j = par)) as [->|]; [congruence|]. rewrite add_kid_ne in HX by done. by apply HO.
      * intros q Hq. rewrite sn_parent0 in Hq. apply elem_of_add_kid. left. by apply HO.
      * intros HX. rewrite sn_parent0 in HX. destruct (nk_top _ _ _ _ HO HX). rewrite HN, HP. split; [|done].
        rewrite decide_False; [done|]. intros (EL & _)%(last_kid _ _ _ _ _ _ HT). apply (kid_parent _ _ _ _ _ _ _ HT Hn0) in EL. congruence.
      * rewrite sn_id0, sn_parent0. apply HO.
  - intros a l1 j l2 E. by eapply created_kid.
  - intros a. destruct (decide (a = par)) as [->|]; [rewrite add_kid_eq | rewrite add_kid_ne by done; apply HT].
    apply list.NoDup_app. split_and!; [apply HT|set_solver|apply NoDup_singleton].
  - intros a HX. destruct (decide (a = par)) as [->|]; [by eapply get_lt_inv | rewrite add_kid_ne in HX by done; by apply HT].
  - rewrite fn_lookup_insert_ne; [apply HT|]. intros ->. destruct (tk_rootn _ _ _ _ HT) as (? & ? & ? & _). congruence.
  - intros a j1 j2 n1 n2 H1 H2 G1 G2 En.
    assert (old : forall j n, get_node j s' = Some n -> j ∈ K a -> exists n0, get_node j s = Some n0 /\ name n0 = name n).
    { intros j n G Hj. destruct (created_get _ _ _ _ _ _ _ _ _ HC G) as (n0 & Hn0). destruct (HK j n0) as (n' & Hn' & [[] _ _ _ _]); [|done|].
      { intros ->. by apply (Hfresh a). } exists n0. split; congruence. }
    assert (new : forall n, get_node i s' = Some n -> name n = nm) by (intros n G; rewrite Hi' in G; by injection G as <-).
    apply elem_of_add_kid in H1, H2. destruct H1 as [H1|[-> ->]], H2 as [H2|[? ->]]; subst; try done.
    + destruct (old _ _ G1 H1) as (? & ? & ?), (old _ _ G2 H2) as (? & ? & ?). eapply (tk_names _ _ _ _ HT a); eauto; congruence.
    + destruct (old _ _ G1 H1) as (? & ? & ?). apply new in G2. edestruct Hnm; eauto. congruence.
    + destruct (old _ _ G2 H2) as (? & ? & ?). apply new in G1. edestruct Hnm; eauto. congruence.
Qed.
Lemma created_aux s s' K dep r nm ty par i : tree_ok s K dep r -> created s s' nm ty par i (list.last (K par)) ->
  aux_ok s -> next_node_id s + 1 < 2 ^ 32 -> aux_ok s' /\ next_node_id s' = next_node_id s + 1.
Proof.
  intros HT HC HA Hid. destruct (created_fresh _ _ _ _ _ _ _ _ _ HT HC) as (_ & _ & Hilt).
  destruct (cr_same _ _ _ _ _ _ _ HC) as (nd & Hi & Hz & S & Hi'). destruct S as [_ Sh _ Sn Shh Si]. cbn in Sn, Shh, Si.
  pose proof (ak_nid _ HA). assert (Hn : next_node_id s' = next_node_id s + 1) by (rewrite Si; wsimp; done). split; [|done].
  split; rewrite ?Sh, ?Shh, ?Sn; try apply HA; try lia.
  intros j n Hj. destruct (created_get _ _ _ _ _ _ _ _ _ HC Hj) as (n0 & Hn0). pose proof (ak_content _ HA _ _ Hn0) as HCo.
  destruct (decide (j = i)) as [->|Hji].
  - rewrite Hi' in Hj. injection Hj as <-. rewrite Hi in Hn0. by injection Hn0 as <-.
  - destruct (created_kept _ _ _ _ _ _ _ _ _ _ _ HT HC Hji Hn0) as (n' & Hn' & [[] _ _ _ _]). rewrite Hn' in Hj. injection Hj as <-.
    unfold content_ok in *. by rewrite sn_size0, sn_data0.
Qed.

(** The operation: it refuses, finds the pool full, or creates the node. *)
Definition valid_name (nm : list Z) : Prop := nm <> [] /\ (length nm <= 62)%nat.
Lemma str_copy_id nm : valid_name nm -> str_copy nm (MAX_FILENAME - 1) = nm.
Proof. intros [_ H]. apply take_ge. unfold MAX_FILENAME. lia. Qed.
Lemma FsCreateNode_cases s K dep r nm ty par p : tree_ok s K dep r -> aux_ok s -> next_node_id s + 1 < 2 ^ 32 ->
  get_node par s = Some p -> node_id p <> 0 -> (length nm <= 62)%nat ->
  (FsCreateNode nm ty par s = Some (None, s) /\
    (ntype p <> FS_DIRECTORY \/ nm = [] \/ (exists j, List.find (named s nm) (K par) = Some j) \/
     (forall k, (k < MAX_FS_NODES)%nat -> exists nd, get_node k s = Some nd /\ node_id nd <> 0))) \/
  (exists i s', FsCreateNode nm ty par s = Some (Some i, s') /\ created s s' nm ty par i (list.last (K par)) /\
     tree_ok s' (add_kid K par i) (<[i := S (dep par)]> dep) r /\ aux_ok s' /\ next_node_id s' = next_node_id s + 1 /\
     ntype p = FS_DIRECTORY /\ nm <> [] /\ List.find (named s nm) (K par) = None).
Proof.
  intros HT HA Hid Hp Hpid Hlen. unfold FsCreateNode. rewrite Hp, option_bind_Some.
  destruct (decide (ntype p = FS_DIRECTORY)) as [Hd|Hd]; [rewrite (bool_decide_true _ Hd) | rewrite (bool_decide_false _ Hd); auto].
  destruct (decide (nm = [])) as [En|En]; [rewrite (bool_decide_true _ En); left; split; auto | rewrite (bool_decide_false _ En)]. cbn [negb orb].
  rewrite (find_child_ok _ _ _ _ _ _ _ HT Hp), option_bind_Some. destruct (List.find _ _) as [j|] eqn:EF; [left; eauto 6|].
  destruct (AllocNode_ok s (tk_len _ _ _ _ HT) HA) as [[-> Hfull]|(k & nd & -> & Hk & Hz)]; rewrite option_bind_Some; [left; auto 6|].
  right. rewrite str_copy_id by done.
  destruct (link_ok _ _ _ _ nm ty _ _ _ _ HT Hp Hk Hz Hpid) as (s' & E & HC). exists k, s'. split.
  { destruct (upd_node k _ _) as [s2|]; [|done]. rewrite option_bind_Some in E. cbn [mbind option_bind] in E |- *.
    destruct (get_node par s2) as [p2|]; [|done]. cbn [mbind option_bind] in E |- *. destruct (last_child p2); by rewrite E. }
  destruct (created_aux _ _ _ _ _ _ _ _ _ HT HC HA Hid) as [HA' Hn']. split_and!; try done.
  eapply created_tree; try done; [pose proof (ak_nid _ HA); lia|]. intros j n Hj Hn EN.
  apply list_elem_of_In, (List.find_none _ _ EF) in Hj. unfold named in Hj. rewrite Hn in Hj. by apply bool_decide_eq_false in Hj.
Qed.
