(* ===== verification/VfrfsFind.v ===== *)
(** Path resolution: [FsFind] against a reference that splits the path first and then walks
    the listings of the directories. *)
From Stdlib Require Import ZArith Lia.
From stdpp Require Import base tactics sets list numbers option functions.
From S2P Require Import Prelude Vfrfs VfrfsInv VfrfsCreate.

Record fs_inv (s : fs) (K : nat -> list nat) (dep : nat -> nat) (r : nat) : Prop := {
  fi_tree : tree_ok s K dep r;
  fi_aux : aux_ok s
}.
(** The states in which the file system is well formed. *)
Definition fs_ok (s : fs) : Prop := exists K dep r, fs_inv s K dep r.

(** ** The reference *)
(** A path cut at the slashes, empty names dropped, and after every 63 bytes. *)
Fixpoint components (acc p : list Z) : list (list Z) :=
  let emit := match acc with [] => [] | _ => [acc] end in
  match p with
  | [] => emit
  | c :: p' =>
      if c =? slash then emit ++ components [] p'
      else if (63 <=? length acc)%nat then acc :: components [c] p'
      else components (acc ++ [c]) p'
  end.
(** The children of a node, by its links. *)
Definition kids (s : fs) (i : nat) : list nat :=
  default [] (n ← get_node i s; list_children sib_fuel (children n) s).
Definition step_name (s : fs) (cur : nat) (nm : list Z) : option nat :=
  if decide (nm = dot) then Some cur
  else if decide (nm = dotdot) then (n ← get_node cur s; Some (default cur (parent n)))
  else List.find (named s nm) (kids s cur).
Fixpoint resolve (s : fs) (cur : nat) (names : list (list Z)) : option nat :=
  match names with
  | [] => Some cur
  | nm :: rest => c ← step_name s cur nm; resolve s c rest
  end.

Lemma kids_ok s K dep r i n : tree_ok s K dep r -> get_node i s = Some n -> kids s i = K i.
Proof. intros H Hn. unfold kids. by rewrite Hn, option_bind_Some, (list_children_ok _ _ _ _ _ _ H Hn). Qed.
Lemma resolve_app s cur l1 l2 : resolve s cur (l1 ++ l2) = c ← resolve s cur l1; resolve s c l2.
Proof. revert cur. induction l1 as [|nm l1 IH]; intros cur; cbn; [done|]. by destruct (step_name s cur nm); cbn. Qed.

(** ** Splitting *)
Lemma components_skip p : components [] (skip_slashes p) = components [] p.
Proof. induction p as [|c p IH]; [done|]. cbn. destruct (c =? slash) eqn:E; [done|]. cbn. by rewrite E. Qed.
Lemma components_next p : forall acc nm rest, component (length acc) p = (nm, rest) -> (length acc <= 63)%nat -> acc ++ nm <> [] ->
  components acc p = (acc ++ nm) :: components [] rest.
Proof.
  induction p as [|c p IH]; intros acc nm rest H Ha Hne; cbn [component] in H.
  { injection H as <- <-. rewrite app_nil_r in *. by destruct acc. }
  cbn [components]. destruct (c =? slash) eqn:Ec; cbn [orb] in H.
  { injection H as <- <-. rewrite app_nil_r in *. destruct acc; [done|]. cbn. by rewrite Ec. }
  destruct (63 <=? length acc)%nat eqn:El.
  { injection H as <- <-. rewrite app_nil_r in *. cbn [components length app]. by rewrite Ec. }
  destruct (component (S (length acc)) p) as [nm' rest'] eqn:E. injection H as <- <-.
  rewrite (IH (acc ++ [c]) nm' rest'); rewrite ?length_app, <- ?app_assoc; cbn; try done.
  - by replace (length acc + 1)%nat with (S (length acc)) by lia.
  - apply Nat.leb_gt in El. lia.
Qed.
Lemma component_shorter p : forall i nm rest, component i p = (nm, rest) -> (length nm + length rest)%nat = length p.
Proof.
  induction p as [|c p IH]; intros i nm rest H; cbn in H; [by injection H as <- <-|].
  destruct (_ || _); [by injection H as <- <-|]. destruct (component (S i) p) as [nm' rest'] eqn:E. injection H as <- <-.
  cbn. by rewrite (IH _ _ _ E).
Qed.
Lemma skip_slashes_length p : (length (skip_slashes p) <= length p)%nat.
Proof. induction p as [|c p IH]; cbn; [done|]. destruct (c =? slash); cbn; lia. Qed.
Lemma skip_slashes_head p c q : skip_slashes p = c :: q -> (c =? slash) = false.
Proof. induction p as [|x p IH]; cbn; [done|]. destruct (x =? slash) eqn:E; [done|]. by intros [= -> ->]. Qed.
Lemma components_app p t : forall acc, components acc (p ++ slash :: t) = components acc p ++ components [] t.
Proof.
  induction p as [|c p IH]; intros acc; cbn [app components].
  { by rewrite Z.eqb_refl. }
  destruct (c =? slash); [by rewrite IH, app_assoc|]. destruct (63 <=? length acc)%nat; by rewrite IH.
Qed.
Lemma components_single nm : forall acc, Forall (fun c => c <> slash) nm -> (length acc + length nm <= 63)%nat -> acc ++ nm <> [] ->
  components acc nm = [acc ++ nm].
Proof.
  induction nm as [|c nm IH]; intros acc HF HL Hne; cbn [components].
  { rewrite app_nil_r in *. by destruct acc. }
  apply Forall_cons_iff in HF as [Hc HF]. cbn in HL. rewrite (proj2 (Z.eqb_neq c slash) Hc), (proj2 (Nat.leb_gt 63 (length acc))) by lia.
  rewrite IH, <- app_assoc; [done|done| |].
  - rewrite length_app. cbn. lia.
  - by destruct acc.
Qed.

(** ** FsFind *)
Definition live (s : fs) (i : nat) : Prop := exists n, get_node i s = Some n /\ node_id n <> 0.
Lemma step_live s K dep r cur nm c : tree_ok s K dep r -> live s cur -> step_name s cur nm = Some c -> live s c.
Proof.
  intros HT (n & Hn & Hid). unfold step_name. destruct (decide _); [intros [= <-]; by exists n|]. destruct (decide _).
  - rewrite Hn, option_bind_Some. intros [= <-]. destruct (parent n) as [p|] eqn:Hp; [|by exists n].
    apply (kid_parent _ _ _ _ _ _ _ HT Hn) in Hp. destruct (kid_dir _ _ _ _ _ _ HT Hp) as (m & ? & ? & _). by exists m.
  - rewrite (kids_ok _ _ _ _ _ _ HT Hn). intros [Hc _]%List.find_some. apply list_elem_of_In in Hc.
    destruct (kid_in _ _ _ _ _ _ HT Hc) as (_ & m & ? & ? & _). by exists m.
Qed.
Lemma resolve_live s K dep r l : tree_ok s K dep r -> forall cur c, live s cur -> resolve s cur l = Some c -> live s c.
Proof.
  intros HT. induction l as [|nm l IH]; cbn; intros cur c HL H; [by injection H as <-|].
  destruct (step_name s cur nm) as [x|] eqn:E; [|done]. eapply IH; [|exact H]. by eapply step_live.
Qed.
Lemma walk_loop_ok s K dep r : tree_ok s K dep r -> forall f cur p, live s cur -> (length p < f)%nat ->
  walk_loop f cur p s = Some (resolve s cur (components [] p)).
Proof.
  intros HT. induction f as [|f IH]; intros cur p HL Hf; [lia|]. cbn [walk_loop].
  assert (go : forall q, skip_slashes p = q -> p <> [] ->
    match q with
    | [] => Some (Some cur)
    | _ :: _ => let '(nm, rest) := component 0 q in
        if bool_decide (nm = dot) then walk_loop f cur rest s else
        n ← get_node cur s;
        if bool_decide (nm = dotdot) then walk_loop f (default cur (parent n)) rest s else
        c ← find_child sib_fuel (children n) nm s;
        match c with None => Some None | Some i => walk_loop f i rest s end
    end = Some (resolve s cur (components [] p))).
  { intros q Eq Hp. rewrite <- components_skip, Eq. destruct q as [|x q]; [done|].
    destruct (component 0 (x :: q)) as [nm rest] eqn:EC. assert (Hnm : nm <> []).
    { intros ->. cbn in EC. rewrite (skip_slashes_head _ _ _ Eq) in EC. cbn in EC. by destruct (component 1 q). }
    rewrite (components_next _ [] nm rest EC); [|cbn; lia|done]. cbn [app resolve].
    pose proof (component_shorter _ _ _ _ EC). pose proof (skip_slashes_length p). rewrite Eq in *.
    assert (length nm <> 0%nat) by (by destruct nm). assert (Hr : (length rest < f)%nat) by lia.
    destruct HL as (n & Hn & Hid). unfold step_name at 1. rewrite Hn, option_bind_Some, (kids_ok _ _ _ _ _ _ HT Hn).
    destruct (decide (nm = dot)) as [Ed|Ed]; [rewrite (bool_decide_true _ Ed) | rewrite (bool_decide_false _ Ed)].
    { rewrite option_bind_Some. apply IH; [by exists n|done]. }
    destruct (decide (nm = dotdot)) as [Ed'|Ed']; [rewrite (bool_decide_true _ Ed') | rewrite (bool_decide_false _ Ed')].
    { rewrite !option_bind_Some. apply IH; [|done]. eapply (step_live _ _ _ _ cur nm); [exact HT|by exists n|].
      unfold step_name. by rewrite decide_False, decide_True, Hn by done. }
    rewrite (find_child_ok _ _ _ _ _ _ _ HT Hn), option_bind_Some.
    destruct (List.find (named s nm) (K cur)) as [c|] eqn:EF; [|done]. rewrite option_bind_Some. apply IH; [|done].
    eapply (step_live _ _ _ _ cur nm); [exact HT|by exists n|]. unfold step_name.
    rewrite !decide_False by done. by rewrite (kids_ok _ _ _ _ _ _ HT Hn). }
  destruct p as [|y p]; [done|]. specialize (go _ eq_refl). destruct (skip_slashes (y :: p)) eqn:ES; apply go; done.
Qed.
Lemma root_live s K dep r : tree_ok s K dep r -> live s r.
Proof. intros HT. destruct (tk_rootn _ _ _ _ HT) as (n & ? & ? & _). by exists n. Qed.
Lemma FsFind_ok s K dep r path : tree_ok s K dep r -> FsFind path s = Some (resolve s r (components [] path)).
Proof.
  intros HT. unfold FsFind. rewrite (tk_root _ _ _ _ HT). destruct (decide (path = [slash])) as [->|Hp]; [done|].
  rewrite bool_decide_false by done. apply (walk_loop_ok _ _ _ _ HT); [by eapply root_live | lia].
Qed.
Lemma FsFind_live s K dep r path i : tree_ok s K dep r -> FsFind path s = Some (Some i) -> live s i.
Proof.
  intros HT. rewrite (FsFind_ok _ _ _ _ _ HT). intros [= H]. eapply resolve_live; [exact HT|by eapply root_live|exact H].
Qed.
