(* ===== verification/VfrfsRemove.v ===== *)
(** Removal: [UnlinkNode], [FreeNode] and the recursive deletion of a subtree, and the
    invariant they preserve. *)
From Stdlib Require Import ZArith Lia.
From stdpp Require Import base tactics sets list numbers option functions.
From S2P Require Import Prelude Vfrfs VfrfsInv VfrfsCreate.

(** ** UnlinkNode *)
Lemma upd_node_all i f s n0 : get_node i s = Some n0 -> exists s', upd_node i f s = Some s' /\ same_but_nodes s s' /\
  forall j n, get_node j s = Some n -> get_node j s' = Some (if decide (j = i) then f n else n).
Proof.
  intros H. rewrite (upd_node_ok _ _ _ _ H). eexists. split; [reflexivity|]. split; [apply same_set|].
  intros j n Hn. rewrite (get_set _ _ _ _ _ H). destruct (decide (j = i)) as [->|]; [congruence|done].
Qed.
(** What is left of a node when [i] is cut out of the list [l1 ++ i :: l2] of [p]. *)
Record cut (p : nat) (l1 l2 : list nat) (j : nat) (n n' : FsNode) : Prop := {
  ct_same : same_node n n';
  ct_next : next_sibling n' = if decide (list.last l1 = Some j) then hd_error l2 else next_sibling n;
  ct_prev : prev_sibling n' = if decide (hd_error l2 = Some j) then list.last l1 else prev_sibling n;
  ct_children : children n' = if decide (j = p) then hd_error (l1 ++ l2) else children n;
  ct_last : last_child n' = if decide (j = p) then list.last (l1 ++ l2) else last_child n
}.
Definition cut_next (p : nat) (l1 : list nat) (w : option nat) (j : nat) (n : FsNode) : FsNode :=
  match list.last l1 with
  | Some q => if decide (j = q) then set_next w n else n
  | None => if decide (j = p) then set_children w n else n
  end.
Definition cut_prev (p : nat) (l2 : list nat) (q : option nat) (j : nat) (n : FsNode) : FsNode :=
  match hd_error l2 with
  | Some w => if decide (j = w) then set_prev q n else n
  | None => if decide (j = p) then set_last_child q n else n
  end.
Lemma cut_cut s K dep r p l1 i l2 j n : tree_ok s K dep r -> K p = l1 ++ i :: l2 -> get_node j s = Some n ->
  cut p l1 l2 j n (cut_prev p l2 (list.last l1) j (cut_next p l1 (hd_error l2) j n)).
Proof.
  intros HT E Hn. pose proof (tk_node _ _ _ _ HT _ _ Hn) as HO.
  assert (HL : j = p -> last_child n = list.last (l1 ++ i :: l2) /\ children n = hd_error (l1 ++ i :: l2))
    by (intros ->; rewrite (nk_last _ _ _ _ HO), (nk_children _ _ _ _ HO), E; done).
  rewrite last_app, last_cons in HL. split; unfold cut_prev, cut_next.
  - destruct (hd_error l2), (list.last l1); repeat case_decide; done.
  - destruct (hd_error l2), (list.last l1); repeat case_decide; simplify_eq; done.
  - destruct (hd_error l2), (list.last l1); repeat case_decide; simplify_eq; done.
  - destruct l1 as [|x l1]; cbn [app hd_error list.last].
    + cbn [app] in HL. destruct l2; cbn; repeat case_decide; done.
    + cbn in HL. destruct (list.last (x :: l1)) eqn:EL; [|by apply last_None in EL].
      destruct (hd_error l2); repeat case_decide; cbn; try done; try apply HL; try done.
  - rewrite last_app. destruct l2 as [|x l2]; cbn [hd_error].
    + cbn. destruct (list.last l1); repeat case_decide; done.
    + destruct (list.last (x :: l2)) eqn:EL; [|by apply last_None in EL].
      destruct (list.last l1); repeat case_decide; cbn; try done; try apply HL; try done.
Qed.
Lemma UnlinkNode_ok s K dep r p l1 i l2 : tree_ok s K dep r -> K p = l1 ++ i :: l2 ->
  exists s1, UnlinkNode i s = Some s1 /\ same_but_nodes s s1 /\
    forall j n, get_node j s = Some n -> exists n', get_node j s1 = Some n' /\ cut p l1 l2 j n n'.
Proof.
  intros HT E. destruct (tk_kid _ _ _ _ HT _ _ _ _ E) as [_ (n & Hn & _ & Hp & Hprev & Hnext)]. unfold UnlinkNode.
  rewrite Hn, option_bind_Some, Hp, Hprev, Hnext.
  assert (Hpn : exists pn, get_node p s = Some pn).
  { destruct (kid_dir _ _ _ _ p i HT) as (pn & ? & _); [rewrite E; set_solver|eauto]. } destruct Hpn as (pn & Hpn).
  assert (Hkid : forall j, j ∈ l1 ++ l2 -> exists jn, get_node j s = Some jn).
  { intros j Hj. destruct (kid_in _ _ _ _ p j HT) as (_ & jn & ? & _); [rewrite E; set_solver|eauto]. }
  assert (A1 : exists s1, match list.last l1 with
                          | Some q => upd_node q (set_next (hd_error l2)) s
                          | None => upd_node p (set_children (hd_error l2)) s end = Some s1 /\ same_but_nodes s s1 /\
            forall j n, get_node j s = Some n -> get_node j s1 = Some (cut_next p l1 (hd_error l2) j n)).
  { unfold cut_next. destruct (list.last l1) as [q|] eqn:El; [|by eapply upd_node_all].
    destruct (Hkid q) as (qn & Hq); [apply list.last_Some_elem_of in El; set_solver|]. by eapply upd_node_all. }
  destruct A1 as (s1 & -> & S1 & G1). rewrite option_bind_Some.
  assert (A2 : exists s2, match hd_error l2 with
                          | Some q => upd_node q (set_prev (list.last l1)) s1
                          | None => upd_node p (set_last_child (list.last l1)) s1 end = Some s2 /\ same_but_nodes s1 s2 /\
            forall j n, get_node j s1 = Some n -> get_node j s2 = Some (cut_prev p l2 (list.last l1) j n)).
  { unfold cut_prev. destruct (hd_error l2) as [q|] eqn:El; [|eapply upd_node_all; by apply G1].
    destruct (Hkid q) as (qn & Hq); [destruct l2; [done|]; injection El as ->; set_solver|]. eapply upd_node_all. by apply G1. }
  destruct A2 as (s2 & -> & S2 & G2). exists s2. split; [done|]. split; [by etransitivity|].
  intros j m Hm. eexists. split; [by apply G2, G1|]. by eapply cut_cut.
Qed.

(** ** Ancestors *)
Fixpoint up (s : fs) (k : nat) (x : nat) : option nat :=
  match k with
  | O => Some x
  | S k' => y ← up s k' x; n ← get_node y s; parent n
  end.
Definition descends (s : fs) (i x : nat) : Prop := exists k, up s k x = Some i.
Lemma up_parent s k x n y : get_node x s = Some n -> parent n = Some y -> up s (S k) x = up s k y.
Proof.
  intros Hn Hp. induction k as [|k IH]; [cbn; by rewrite Hn, option_bind_Some|].
  change (up s (S (S k)) x) with (y ← up s (S k) x; n ← get_node y s; parent n). by rewrite IH.
Qed.
(** The nodes of a subtree, to a depth. *)
Fixpoint subtree (K : nat -> list nat) (f : nat) (i : nat) : list nat :=
  match f with
  | O => []
  | S f' => i :: flat_map (subtree K f') (K i)
  end.
Lemma elem_of_flat_map (g : nat -> list nat) l x : x ∈ flat_map g l <-> exists c, c ∈ l /\ x ∈ g c.
Proof.
  rewrite list_elem_of_In, in_flat_map. split; intros (c & H1 & H2); exists c; by rewrite ?list_elem_of_In in *.
Qed.
Section subtree.
Context (s : fs) (K : nat -> list nat) (dep : nat -> nat) (r : nat) (HT : tree_ok s K dep r).

Lemma subtree_up f : forall i x, x ∈ subtree K f i -> (dep i <= dep x)%nat /\ up s (dep x - dep i) x = Some i.
Proof.
  induction f as [|f IH]; intros i x; cbn [subtree]; [by rewrite elem_of_nil|].
  intros [->|(c & Hc & Hx)%elem_of_flat_map]%elem_of_cons; [by rewrite Nat.sub_diag|].
  destruct (IH _ _ Hx) as [Hd Hu]. destruct (kid_in _ _ _ _ _ _ HT Hc) as (Hdc & n & Hn & _ & Hp). split; [lia|].
  replace (dep x - dep i)%nat with (S (dep x - dep c)) by lia. cbn. by rewrite Hu, option_bind_Some, Hn, option_bind_Some.
Qed.
Lemma subtree_disjoint f i a b x : a ∈ K i -> b ∈ K i -> x ∈ subtree K f a -> x ∈ subtree K f b -> a = b.
Proof.
  intros [Ha _]%(kid_in _ _ _ _ _ _ HT) [Hb _]%(kid_in _ _ _ _ _ _ HT) [_ H1]%subtree_up [_ H2]%subtree_up.
  rewrite Ha in H1. rewrite Hb in H2. congruence.
Qed.
Lemma subtree_not_parent f i c : c ∈ K i -> i ∉ subtree K f c.
Proof. intros [Hd _]%(kid_in _ _ _ _ _ _ HT) [H _]%subtree_up. lia. Qed.
Definition alive (i : nat) : Prop := exists n, get_node i s = Some n /\ node_id n <> 0.
Lemma subtree_alive f : forall i x, alive i -> x ∈ subtree K f i -> alive x.
Proof.
  induction f as [|f IH]; intros i x HA; cbn [subtree]; [by rewrite elem_of_nil|].
  intros [->|(c & Hc & Hx)%elem_of_flat_map]%elem_of_cons; [done|]. apply (IH c x); [|done].
  destruct (kid_in _ _ _ _ _ _ HT Hc) as (_ & n & ? & ? & _). by exists n.
Qed.
(** With enough depth the subtree is all the descendants. *)
Lemma subtree_child f : forall i x n p, (dep r + MAX_FS_NODES < dep i + f)%nat -> p ∈ subtree K f i ->
  get_node x s = Some n -> parent n = Some p -> x ∈ subtree K f i.
Proof.
  induction f as [|f IH]; intros i x n p Hf; cbn [subtree]; [by rewrite elem_of_nil|]. intros Hp Hx Hpar. apply elem_of_cons. right.
  pose proof (proj2 (kid_parent _ _ _ _ _ _ _ HT Hx) Hpar) as Hk. destruct (kid_in _ _ _ _ _ _ HT Hk) as (Hd & m & Hm & Hmid & _).
  apply elem_of_flat_map. apply elem_of_cons in Hp as [->|(c & Hc & Hpc)%elem_of_flat_map].
  - exists x. split; [done|]. destruct f as [|f]; [|apply elem_of_cons; auto].
    pose proof (depth_bound _ _ _ _ _ _ HT Hm Hmid). lia.
  - exists c. split; [done|]. eapply IH; [|exact Hpc|exact Hx|exact Hpar]. destruct (kid_in _ _ _ _ _ _ HT Hc) as (Hdc & _). lia.
Qed.
Lemma subtree_descends f i x : alive i -> (dep r + MAX_FS_NODES < dep i + f)%nat -> x ∈ subtree K f i <-> descends s i x.
Proof.
  intros (ni & Hni & Hid) Hf. split; [intros [_ H]%subtree_up; by eexists|]. intros (k & Hk). revert x Hk. induction k as [|k IH]; intros x Hk.
  - injection Hk as ->. destruct f as [|f]; [|apply elem_of_cons; auto]. pose proof (depth_bound _ _ _ _ _ _ HT Hni Hid). lia.
  - assert (Hx : exists n y, get_node x s = Some n /\ parent n = Some y).
    { clear IH. revert Hk. generalize i at 1. induction k as [|k IH]; intros j Hk.
      - cbn in Hk. destruct (get_node x s) as [n|] eqn:E; [|done]. cbn in Hk. eauto.
      - change (up s (S (S k)) x) with (y ← up s (S k) x; n ← get_node y s; parent n) in Hk.
        destruct (up s (S k) x) as [y|] eqn:E; [|done]. by apply (IH y). }
    destruct Hx as (n & y & Hn & Hy). eapply subtree_child; [done| |exact Hn|exact Hy]. apply IH. by rewrite <- (up_parent _ _ _ _ _ Hn Hy).
Qed.
End subtree.

(** ** FreeNode *)
Definition clear_nodes (X : list nat) (s : fs) : fs :=
  set_fs_nodes (imap (fun k n => if decide (k ∈ X) then zero_fsnode else n) (fs_nodes s)) s.
Lemma get_clear X s k : get_node k (clear_nodes X s) = (fun n => if decide (k ∈ X) then zero_fsnode else n) <$> get_node k s.
Proof. unfold get_node. cbn. by rewrite list_lookup_imap. Qed.
Lemma clear_same X s : same_but_nodes s (clear_nodes X s).
Proof. split; cbn; auto using length_imap. Qed.
Lemma clear_ext X Y s : (forall x, x ∈ X <-> x ∈ Y) -> clear_nodes X s = clear_nodes Y s.
Proof.
  intros H. unfold clear_nodes. f_equal. apply imap_ext. intros k n _. specialize (H k). repeat case_decide; tauto.
Qed.
Lemma clear_nil s : clear_nodes [] s = s.
Proof.
  destruct s. unfold clear_nodes, set_fs_nodes. cbn. f_equal. rewrite <- (list_fmap_id fs_nodes) at 2. rewrite <- imap_const.
  apply imap_ext. intros k n _. case_decide as Hk; [by apply elem_of_nil in Hk|done].
Qed.
Lemma FreeNode_clear i X s n : length (fs_nodes s) = MAX_FS_NODES -> get_node i s = Some n ->
  FreeNode i (clear_nodes X s) = Some (clear_nodes (i :: X) s).
Proof.
  intros HL Hi. unfold FreeNode. assert (i < MAX_FS_NODES)%nat as Hlt by (rewrite <- HL; by eapply lookup_lt_Some).
  rewrite (proj2 (Nat.ltb_lt _ _) Hlt). unfold upd_node. rewrite get_clear, Hi. cbn. f_equal. unfold clear_nodes, set_fs_nodes. cbn. f_equal.
  apply list_eq. intros k. rewrite !list_lookup_imap. destruct (decide (k = i)) as [->|Hk].
  - rewrite list_lookup_insert_eq by (rewrite length_imap; lia). unfold get_node in Hi. rewrite Hi. cbn. rewrite decide_True; [done|]. set_solver.
  - rewrite list_lookup_insert_ne by done. rewrite list_lookup_imap. destruct (fs_nodes s !! k); [|done]. cbn. f_equal.
    repeat case_decide; set_solver.
Qed.

(** ** FsDeleteRecursiveI *)
Section delete.
Context (s0 s : fs) (K : nat -> list nat) (dep : nat -> nat) (r : nat) (HT : tree_ok s0 K dep r).
Context (HL : length (fs_nodes s) = MAX_FS_NODES).

Lemma delete_children_ok del f i g l2 : forall l1 X,
  (forall c X, c ∈ K i -> (forall x, x ∈ subtree K f c -> x ∉ X) -> (forall x, x ∈ subtree K f c -> get_node x s = get_node x s0) ->
     del c (clear_nodes X s) = Some (clear_nodes (subtree K f c ++ X) s)) ->
  K i = l1 ++ l2 -> (length l2 < g)%nat -> (0 < f)%nat ->
  (forall c x, c ∈ l2 -> x ∈ subtree K f c -> x ∉ X /\ get_node x s = get_node x s0) ->
  delete_children del g (hd_error l2) (clear_nodes X s) = Some (clear_nodes (flat_map (subtree K f) l2 ++ X) s).
Proof.
  revert g. induction l2 as [|k l2 IH]; intros g l1 X Hdel E Hg Hf Hx; destruct g as [|g]; cbn in Hg; try lia; [done|].
  destruct (tk_kid _ _ _ _ HT _ _ _ _ E) as [_ (n & Hn & _ & _ & _ & Hnx)].
  assert (Hself : k ∈ subtree K f k) by (destruct f; [lia|]; apply elem_of_cons; auto).
  destruct (Hx k k) as [HkX Hks]; [set_solver|done|]. cbn [delete_children hd_error].
  rewrite get_clear, Hks, Hn. cbn [fmap option_fmap option_map]. rewrite decide_False by done. rewrite option_bind_Some, Hnx.
  rewrite Hdel, option_bind_Some; [|rewrite E; set_solver|intros x Hxk; apply (Hx k x); [set_solver|done]..].
  rewrite (IH g (l1 ++ [k])); [| |by rewrite <- app_assoc|lia|done|].
  - f_equal. apply clear_ext. intros x. cbn [flat_map]. set_solver.
  - intros c Y Hc. by apply Hdel.
  - intros c x Hc Hxc. destruct (Hx c x) as [H1 H2]; [set_solver|done|]. split; [|done]. intros [H3|H3]%elem_of_app; [|done].
    assert (c = k) as -> by (eapply (subtree_disjoint _ _ _ _ HT f i c k x); [rewrite E; set_solver|rewrite E; set_solver|done|done]).
    pose proof (tk_nodup _ _ _ _ HT i) as HND. rewrite E in HND. apply list.NoDup_app in HND as (_ & _ & [HND _]%list.NoDup_cons). done.
Qed.
Lemma FsDeleteRecursiveI_ok f : forall i X, alive s0 i -> (dep r + MAX_FS_NODES < dep i + f)%nat ->
  (forall x, x ∈ subtree K f i -> x ∉ X) -> (forall x, x ∈ subtree K f i -> get_node x s = get_node x s0) ->
  FsDeleteRecursiveI f i (clear_nodes X s) = Some (clear_nodes (subtree K f i ++ X) s).
Proof.
  induction f as [|f IH]; intros i X (n & Hn & Hid) Hf HX HS.
  { pose proof (depth_bound _ _ _ _ _ _ HT Hn Hid). lia. }
  assert (Hi : i ∈ subtree K (S f) i) by (apply elem_of_cons; auto).
  assert (Hc0 : forall c, c ∈ K i -> (0 < f)%nat).
  { intros c (Hd & m & Hm & Hmid & _)%(kid_in _ _ _ _ _ _ HT). pose proof (depth_bound _ _ _ _ _ _ HT Hm Hmid). lia. }
  cbn [FsDeleteRecursiveI]. rewrite get_clear, HS, Hn by done. cbn [fmap option_fmap option_map]. rewrite decide_False by auto.
  rewrite option_bind_Some. pose proof (tk_node _ _ _ _ HT _ _ Hn) as HO.
  assert (A : (if bool_decide (ntype n = FS_DIRECTORY) then delete_children (FsDeleteRecursiveI f) sib_fuel (children n) (clear_nodes X s)
               else Some (clear_nodes X s)) = Some (clear_nodes (flat_map (subtree K f) (K i) ++ X) s)).
  { rewrite (nk_children _ _ _ _ HO). destruct (decide (K i = [])) as [E|E].
    { rewrite E. cbn. by case_bool_decide. }
    rewrite bool_decide_true by (by apply HO). apply (delete_children_ok _ f i _ _ []).
    - intros c Y Hc H1 H2. destruct (kid_in _ _ _ _ _ _ HT Hc) as (Hd & m & ? & ? & _). apply IH; [by exists m|lia|done|done].
    - done.
    - pose proof (kids_length _ _ _ _ i HT). unfold sib_fuel, MAX_FS_NODES in *. lia.
    - destruct (K i) as [|c l]; [done|]. apply (Hc0 c). set_solver.
    - intros c x Hc Hxc. assert (x ∈ subtree K (S f) i) by (apply elem_of_cons; right; apply elem_of_flat_map; eauto). auto. }
  rewrite A, option_bind_Some. erewrite FreeNode_clear; [|done|rewrite HS by done; exact Hn]. done.
Qed.
End delete.

(** ** The tree after a removal *)
Lemma subtree_parent s K dep r f : tree_ok s K dep r -> forall i x n, x ∈ subtree K f i -> x <> i -> get_node x s = Some n ->
  exists y, parent n = Some y /\ y ∈ subtree K f i.
Proof.
  intros HT. induction f as [|f IH]; intros i x n; cbn [subtree]; [by rewrite elem_of_nil|].
  intros [->|(c & Hc & Hx)%elem_of_flat_map]%elem_of_cons Hne Hn; [done|]. destruct (decide (x = c)) as [->|Hxc].
  - exists i. split; [by apply (kid_parent _ _ _ _ _ _ _ HT Hn)|apply elem_of_cons; auto].
  - destruct (IH _ _ _ Hx Hxc Hn) as (y & ? & ?). exists y. split; [done|]. apply elem_of_cons. right. apply elem_of_flat_map. eauto.
Qed.
Definition drop_kids (K : nat -> list nat) (p : nat) (l : list nat) (X : list nat) (a : nat) : list nat :=
  if decide (a ∈ X) then [] else if decide (a = p) then l else K a.
Section removal.
Context (s s1 : fs) (K : nat -> list nat) (dep : nat -> nat) (r p i : nat) (l1 l2 X : list nat).
Context (HT : tree_ok s K dep r) (HE : K p = l1 ++ i :: l2) (HS : same_but_nodes s s1).
Context (HG : forall j n, get_node j s = Some n -> exists n', get_node j s1 = Some n' /\ cut p l1 l2 j n n').
Context (HiX : i ∈ X) (HrX : r ∉ X) (HpX : p ∉ X).
Context (Hdown : forall x n y, get_node x s = Some n -> parent n = Some y -> y ∈ X -> x ∈ X).
Context (Hup : forall x n, x ∈ X -> x <> i -> get_node x s = Some n -> exists y, parent n = Some y /\ y ∈ X).

Lemma removed_get k n' : get_node k (clear_nodes X s1) = Some n' -> exists n, get_node k s = Some n /\
  (k ∈ X -> n' = zero_fsnode) /\ (k ∉ X -> cut p l1 l2 k n n').
Proof.
  intros Hk. assert (exists n, get_node k s = Some n) as (n & Hn).
  { apply lookup_lt_is_Some. apply lookup_lt_Some in Hk. rewrite (sb_len _ _ (clear_same X s1)), (sb_len _ _ HS) in Hk. done. }
  destruct (HG _ _ Hn) as (n1 & Hn1 & HC). rewrite get_clear, Hn1 in Hk. injection Hk as <-. exists n. repeat case_decide; done.
Qed.
Lemma removed_keep k n : k ∉ X -> get_node k s = Some n -> exists n', get_node k (clear_nodes X s1) = Some n' /\ cut p l1 l2 k n n'.
Proof.
  intros Hk Hn. destruct (HG _ _ Hn) as (n1 & Hn1 & HC). exists n1. split; [|done]. rewrite get_clear, Hn1. cbn. by rewrite decide_False.
Qed.
Lemma nodup_list : NoDup (l1 ++ i :: l2).
Proof. rewrite <- HE. apply HT. Qed.
Lemma dropped_in a j : j ∈ drop_kids K p (l1 ++ l2) X a -> j ∈ K a /\ a ∉ X /\ j ∉ X.
Proof.
  unfold drop_kids. case_decide as Ha; [by rewrite elem_of_nil|]. intros Hj.
  assert (Hja : j ∈ K a /\ j <> i).
  { case_decide as Hp; [|split; [done|]].
    - subst a. rewrite HE. split; [set_solver|]. intros ->. pose proof nodup_list as HN. apply list.NoDup_app in HN as (_ & H1 & [H2 _]%list.NoDup_cons). set_solver.
    - intros ->. destruct (kid_in _ _ _ _ p i HT) as (_ & n & Hn & _ & E); [rewrite HE; set_solver|].
      apply (kid_parent _ _ _ _ _ _ _ HT Hn) in Hj. congruence. }
  destruct Hja as [Hja Hji]. split_and!; [done..|]. intros HjX. destruct (kid_in _ _ _ _ _ _ HT Hja) as (_ & n & Hn & _ & E).
  destruct (Hup _ _ HjX Hji Hn) as (y & ? & ?). congruence.
Qed.
Lemma removed_kid a m1 j m2 : drop_kids K p (l1 ++ l2) X a = m1 ++ j :: m2 -> kid_ok (clear_nodes X s1) dep a j (list.last m1) (hd_error m2).
Proof.
  intros E. destruct (dropped_in a j) as (HjK & Ha & Hj); [rewrite E; set_solver|]. unfold drop_kids in E. rewrite decide_False in E by done.
  assert (go : forall k1 k2, K a = k1 ++ j :: k2 ->
    (if decide (list.last l1 = Some j) then hd_error l2 else hd_error k2) = hd_error m2 ->
    (if decide (hd_error l2 = Some j) then list.last l1 else list.last k1) = list.last m1 ->
    kid_ok (clear_nodes X s1) dep a j (list.last m1) (hd_error m2)).
  { intros k1 k2 Ek H1 H2. destruct (tk_kid _ _ _ _ HT _ _ _ _ Ek) as [Hd (n & Hn & Hid & Hpar & Hprev & Hnext)]. split; [done|].
    destruct (removed_keep j n Hj Hn) as (n' & Hn' & [[] HN HP _ _]). exists n'. split_and!; [done|congruence|congruence|by rewrite HP, Hprev|by rewrite HN, Hnext]. }
  pose proof nodup_list as HN. destruct (decide (a = p)) as [->|Hp].
  - destruct (app_eq_inv _ _ _ _ E) as [(k & E1 & E2)|(k & E1 & E2)]; [destruct k as [|x k]; [cbn in E2; rewrite app_nil_r in E1|]|].
    + subst m1. apply (go (l1 ++ [i]) m2); rewrite <- ?E2; [by rewrite HE, <- E2, <- app_assoc| |].
      * rewrite decide_False; [done|]. rewrite <- E2 in HN. intros HX%list.last_Some_elem_of. apply list.NoDup_app in HN as (_ & HN & _). set_solver.
      * by rewrite decide_True.
    + injection E2 as <- ->. rewrite E1 in HN. apply (go m1 (k ++ i :: l2)); [by rewrite HE, E1, <- app_assoc| |].
      * rewrite E1, last_app, last_cons. destruct k as [|y k]; [by rewrite decide_True|]. rewrite decide_False; [done|].
        destruct (list.last (y :: k)) eqn:EL; [|by apply last_None in EL]. intros [= ->]. apply list.last_Some_elem_of in EL.
        rewrite <- app_assoc in HN. apply list.NoDup_app in HN as (_ & _ & [HN _]%list.NoDup_cons). set_solver.
      * rewrite decide_False; [done|]. intros HX. destruct l2 as [|y l2']; [done|]. injection HX as ->.
        apply list.NoDup_app in HN as (_ & HN & _). apply (HN j); set_solver.
    + rewrite E2 in HN. apply (go (l1 ++ i :: k) m2); [rewrite HE, E2, <- app_assoc; done| |].
      * rewrite decide_False; [done|]. intros HX%list.last_Some_elem_of. apply list.NoDup_app in HN as (_ & HN & _). set_solver.
      * rewrite E2, E1. destruct k as [|y k]; [rewrite app_nil_r; by rewrite decide_True|]. rewrite decide_False.
        { rewrite !last_app, (last_cons i). destruct (list.last (y :: k)) eqn:EL; [done|by apply last_None in EL]. }
        intros [= ->]. apply list.NoDup_app in HN as (_ & _ & [_ HN]%list.NoDup_cons). cbn in HN. apply list.NoDup_cons in HN as [HN _]. set_solver.
  - destruct (kid_in _ _ _ _ _ _ HT HjK) as (_ & n & Hn & _ & Hpar).
    assert (Hnp : j ∉ K p) by (intros HX; apply (kid_parent _ _ _ _ _ _ _ HT Hn) in HX; congruence). rewrite HE in Hnp.
    apply (go m1 m2); [done|..]; (rewrite decide_False; [done|]).
    + intros HX%list.last_Some_elem_of. set_solver.
    + destruct l2; [done|]. intros [= ->]. set_solver.
Qed.
Lemma removed_tree : tree_ok (clear_nodes X s1) (drop_kids K p (l1 ++ l2) X) dep r.
Proof.
  assert (Hsub : forall a, drop_kids K p (l1 ++ l2) X a <> [] -> K a <> []).
  { intros a. unfold drop_kids. repeat case_decide; subst; try done. rewrite HE. by destruct l1. }
  split; try apply HT.
  - rewrite (sb_len _ _ (clear_same X s1)), (sb_len _ _ HS). apply HT.
  - rewrite (sb_root _ _ (clear_same X s1)), (sb_root _ _ HS). apply HT.
  - destruct (tk_rootn _ _ _ _ HT) as (rn & Hr & ? & ? & ?). destruct (removed_keep r rn HrX Hr) as (n' & ? & [[] _ _ _ _]).
    exists n'. split_and!; congruence.
  - intros k n' Hn'. destruct (removed_get _ _ Hn') as (n & Hn & H1 & H2). destruct (decide (k ∈ X)) as [Hk|Hk].
    + rewrite H1 by done. unfold drop_kids. split; rewrite ?decide_True by done; done.
    + destruct (H2 Hk) as [[En Ety Esz Eda Epa Eid] HN HP HC HL]. pose proof (tk_node _ _ _ _ HT _ _ Hn) as HO. split.
      * rewrite HC. unfold drop_kids. rewrite (decide_False (P := k ∈ X)) by done. case_decide; [done|]. apply HO.
      * rewrite HL. unfold drop_kids. rewrite (decide_False (P := k ∈ X)) by done. case_decide; [done|]. apply HO.
      * rewrite Eid, Epa. intros H0. destruct (nk_free _ _ _ _ HO H0) as [HK ?]. split; [|done].
        destruct (drop_kids K p (l1 ++ l2) X k) eqn:ED; [done|]. edestruct (Hsub k); [by rewrite ED|done].
      * intros HX. rewrite Ety. by apply HO, Hsub.
      * rewrite Epa. intros q Hq. pose proof (nk_parent _ _ _ _ HO q Hq) as Hkq. assert (q ∉ X) by (intros HX; by apply Hk, (Hdown _ _ _ Hn Hq)).
        unfold drop_kids. rewrite decide_False by done. destruct (decide (q = p)) as [->|]; [|done]. rewrite HE in Hkq. assert (k <> i) by congruence. set_solver.
      * rewrite Epa. intros Hp0. destruct (nk_top _ _ _ _ HO Hp0). rewrite HN, HP.
        assert (Hnp : k ∉ K p) by (intros HX; apply (kid_parent _ _ _ _ _ _ _ HT Hn) in HX; congruence). rewrite HE in Hnp.
        split; (rewrite decide_False; [done|]); [intros HX%list.last_Some_elem_of; set_solver|].
        destruct l2; [done|]. intros [= ->]. set_solver.
      * rewrite Eid, Epa. apply HO.
  - intros a m1 j m2. apply removed_kid.
  - intros a. unfold drop_kids. repeat case_decide; [constructor| |apply HT]. pose proof nodup_list as HN.
    apply list.NoDup_app in HN as (H1 & H2 & [_ H3]%list.NoDup_cons). apply list.NoDup_app. set_solver.
  - intros a HX%Hsub. by apply HT.
  - intros a j1 j2 n1 n2 (Hj1 & _ & Hx1)%dropped_in (Hj2 & _ & Hx2)%dropped_in G1 G2 En.
    destruct (removed_get _ _ G1) as (m1 & Hm1 & _ & [[] _ _ _ _]); [done|]. destruct (removed_get _ _ G2) as (m2 & Hm2 & _ & [[] _ _ _ _]); [done|].
    eapply (tk_names _ _ _ _ HT a); eauto. congruence.
Qed.
Lemma removed_aux : aux_ok s -> aux_ok (clear_nodes X s1).
Proof.
  intros HA. split; cbn; rewrite ?(sb_handles _ _ HS), ?(sb_nhint _ _ HS), ?(sb_hhint _ _ HS), ?(sb_nid _ _ HS); try apply HA.
  intros k n' Hn'. destruct (removed_get _ _ Hn') as (n & Hn & H1 & H2). destruct (decide (k ∈ X)) as [Hk|Hk].
  - rewrite H1 by done. done.
  - destruct (H2 Hk) as [[En Ety Esz Eda Epa Eid] _ _ _ _]. pose proof (ak_content _ HA _ _ Hn). unfold content_ok in *. by rewrite Esz, Eda.
Qed.
End removal.
