(* ===== verification/VfrfsOps.v ===== *)
(** The operations of the file system keep it well formed and stay inside its objects. *)
From Stdlib Require Import ZArith Lia.
From stdpp Require Import base tactics sets list numbers option functions.
From S2P Require Import Prelude Vfrfs VfrfsInv VfrfsCreate VfrfsFind VfrfsRemove.

(** ** States that differ in contents and handles *)
Record same_links (n n' : FsNode) : Prop := {
  sl_name : name n' = name n; sl_type : ntype n' = ntype n; sl_parent : parent n' = parent n; sl_children : children n' = children n;
  sl_last : last_child n' = last_child n; sl_next : next_sibling n' = next_sibling n; sl_prev : prev_sibling n' = prev_sibling n;
  sl_id : node_id n' = node_id n
}.
Record same_tree (s s' : fs) : Prop := {
  st_root : root_node s' = root_node s;
  st_len : length (fs_nodes s') = length (fs_nodes s);
  st_node : forall k n', get_node k s' = Some n' -> exists n, get_node k s = Some n /\ same_links n n'
}.
Lemma same_tree_ok s s' K dep r : same_tree s s' -> tree_ok s K dep r -> tree_ok s' K dep r.
Proof.
  intros [HR HL HN] HT.
  assert (HG : forall k n, get_node k s = Some n -> exists n', get_node k s' = Some n' /\ same_links n n').
  { intros k n Hn. destruct (lookup_lt_is_Some_2 (fs_nodes s') k) as (n' & Hn'); [rewrite HL; by eapply lookup_lt_Some|].
    destruct (HN k n' Hn') as (m & Hm & ?). exists n'. split; [done|]. congruence. }
  split; try apply HT.
  - rewrite HL. apply HT.
  - rewrite HR. apply HT.
  - destruct (tk_rootn _ _ _ _ HT) as (n & Hn & ? & ? & ?). destruct (HG _ _ Hn) as (n' & ? & []). exists n'. split_and!; congruence.
  - intros i n' Hn'. destruct (HN _ _ Hn') as (n & Hn & [E1 E2 E3 E4 E5 E6 E7 E8]). destruct (tk_node _ _ _ _ HT _ _ Hn). split; rewrite ?E1, ?E2, ?E3, ?E4, ?E5, ?E6, ?E7, ?E8; done.
  - intros i l1 j l2 E. destruct (tk_kid _ _ _ _ HT _ _ _ _ E) as [Hd (n & Hn & ? & ? & ? & ?)]. split; [done|].
    destruct (HG _ _ Hn) as (n' & ? & []). exists n'. split_and!; congruence.
  - intros i j1 j2 n1 n2 H1 H2 G1 G2 En. destruct (HN _ _ G1) as (m1 & ? & []), (HN _ _ G2) as (m2 & ? & []).
    eapply (tk_names _ _ _ _ HT i); eauto. congruence.
Qed.
Lemma same_tree_nodes s s' : root_node s' = root_node s -> fs_nodes s' = fs_nodes s -> same_tree s s'.
Proof. intros H1 H2. split; [done|by rewrite H2|]. intros k n'. unfold get_node. rewrite H2. intros ->. exists n'. by split. Qed.
Lemma same_tree_handles v s : same_tree s (set_file_handles v s).
Proof. by apply same_tree_nodes. Qed.

(** An operation runs when it returns, well-formed, having used up at most one node identifier. *)
Definition runs {A} (s : fs) (o : option (A * fs)) : Prop :=
  exists a s', o = Some (a, s') /\ fs_ok s' /\ next_node_id s' <= next_node_id s + 1.
Lemma fs_runs_ret {A} s (a : A) : fs_ok s -> runs s (Some (a, s)).
Proof. intros H. exists a, s. split_and!; [done..|lia]. Qed.
Lemma runs_inv {A} s s' (a : A) K dep r : fs_inv s' K dep r -> next_node_id s' <= next_node_id s + 1 -> runs s (Some (a, s')).
Proof. intros H Hn. exists a, s'. split; [done|]. split; [by do 3 eexists|done]. Qed.

(** ** Handles *)
Lemma get_handle_loop_ok f s n i : length (file_handles s) = MAX_OPEN_FILES -> (i + n = MAX_OPEN_FILES)%nat ->
  exists o, get_handle_loop n i f s = Some o /\
    forall h, o = Some h -> exists x, file_handles s !! h = Some x /\ fd x = u32 f.
Proof.
  intros HL. revert i. induction n as [|n IH]; intros i E; cbn; [by exists None|].
  destruct (lookup_lt_is_Some_2 (file_handles s) i) as (x & Hx); [lia|]. rewrite Hx, option_bind_Some.
  destruct (Z.eqb_spec (fd x) (u32 f)); [|apply IH; lia]. exists (Some i). split; [done|]. intros h [= <-]. eauto.
Qed.
Lemma GetHandle_ok f s : aux_ok s -> exists o, GetHandle f s = Some o /\
  forall h, o = Some h -> exists x, file_handles s !! h = Some x /\ fd x = u32 f /\ 0 < f.
Proof.
  intros HA. unfold GetHandle. destruct (Z.leb_spec f 0); [by exists None|].
  destruct (get_handle_loop_ok f s MAX_OPEN_FILES 0 (ak_hlen _ HA) eq_refl) as (o & ? & HO). exists o. split; [done|].
  intros h Hh. destruct (HO h Hh) as (x & ? & ?). eauto.
Qed.
Lemma aux_handles s h x' : aux_ok s -> handle_ok x' -> aux_ok (set_file_handles (<[h := x']> (file_handles s)) s).
Proof.
  intros HA HX. split; cbn; try apply HA.
  - rewrite length_insert. apply HA.
  - intros k x. rewrite list_lookup_insert_Some. intros [(<- & <- & _)|[_ ?]]; [done|]. by eapply ak_handle.
Qed.
Lemma inv_handles s h x' K dep r : fs_inv s K dep r -> handle_ok x' -> fs_inv (set_file_handles (<[h := x']> (file_handles s)) s) K dep r.
Proof.
  intros [HT HA] HX. split; [|by apply aux_handles]. eapply same_tree_ok; [apply same_tree_handles|done].
Qed.
Lemma zero_handle_ok : handle_ok zero_handle.
Proof. split; [done|]. cbn. lia. Qed.

(** AllocHandle gives a handle its descriptor. *)
Lemma alloc_handle_loop_ok s n i K dep r : fs_inv s K dep r -> 0 <= i -> i + Z.of_nat n = Z.of_nat MAX_OPEN_FILES ->
  exists o s', alloc_handle_loop n i s = Some (o, s') /\ fs_inv s' K dep r /\ fs_nodes s' = fs_nodes s /\ next_node_id s' = next_node_id s /\
    root_node s' = root_node s /\ forall h, o = Some h -> exists x, file_handles s' !! h = Some x.
Proof.
  intros HI. revert i. induction n as [|n IH]; intros i Hi E.
  { exists None, s. split_and!; done. }
  destruct HI as [HT HA]. pose proof (ak_hhint _ HA) as Hh. pose proof (ak_hlen _ HA) as HL.
  cbn [alloc_handle_loop]. unfold MAX_OPEN_FILES in *. wsimp.
  set (idx := Z.to_nat ((next_handle_idx_hint s + i) mod Z.of_nat 32)).
  assert (Hlt : (idx < 32)%nat) by (pose proof (Z.mod_pos_bound (next_handle_idx_hint s + i) 32); lia).
  destruct (lookup_lt_is_Some_2 (file_handles s) idx) as (x & Hx); [lia|]. rewrite Hx, option_bind_Some. cbv beta.
  destruct (fd x =? 0); [|apply IH; lia].
  set (x' := mk_handle _ _ _ _ _). set (nf := if _ =? 0 then _ else _). do 2 eexists. split; [reflexivity|].
  assert (HX : handle_ok x') by (split; apply (ak_handle _ HA _ _ Hx)). split_and!; try done.
  - split; [eapply same_tree_ok; [|exact HT]; by apply same_tree_nodes|].
    destruct (aux_handles s idx x' HA HX). split; cbn in *; try done. unfold MAX_OPEN_FILES. lia.
  - intros h [= <-]. cbn. exists x'. apply list_lookup_insert_eq. lia.
Qed.
Lemma AllocHandle_ok s K dep r : fs_inv s K dep r ->
  exists o s', AllocHandle s = Some (o, s') /\ fs_inv s' K dep r /\ fs_nodes s' = fs_nodes s /\ next_node_id s' = next_node_id s /\
    root_node s' = root_node s /\ forall h, o = Some h -> exists x, file_handles s' !! h = Some x.
Proof. intros HI. apply alloc_handle_loop_ok; [done|lia..]. Qed.

(** ** Paths *)
Definition path_fits (path : list Z) : bool := last_slash_loop path 0 (-1) <? MAX_PATH.
Lemma FsFindParent_ok s K dep r path : fs_inv s K dep r -> path_fits path = true ->
  exists o, FsFindParent path s = Some o /\ forall par nm, o = Some (par, nm) -> live s par /\ nm <> [] /\ (length nm <= 62)%nat.
Proof.
  intros [HT HA] HF. unfold FsFindParent, path_fits in *. set (last := last_slash_loop path 0 (-1)) in *.
  destruct (bool_decide (hd_error path = Some slash)); [|by exists None]. cbn [negb].
  destruct (decide (drop (Z.to_nat (last + 1)) path = [])) as [E|E]; [rewrite (bool_decide_true _ E); by exists None | rewrite (bool_decide_false _ E)].
  apply Z.ltb_lt in HF. rewrite (proj2 (Z.leb_gt _ _) HF). set (pp := if last =? 0 then _ else _).
  pose proof (fun i => FsFind_live _ _ _ _ pp i HT) as HL. destruct (FsFind pp s) as [q|] eqn:EF; [|by rewrite (FsFind_ok _ _ _ _ _ HT) in EF].
  rewrite option_bind_Some. eexists. split; [reflexivity|]. destruct q as [i|]; [|done]. intros par nm [= <- <-]. split; [by apply HL|].
  unfold str_copy, MAX_FILENAME. split; [|rewrite length_take; lia]. by destruct (drop _ path).
Qed.

(** ** Creation *)
Lemma FsCreateNode_runs s K dep r nm ty par : fs_inv s K dep r -> next_node_id s + 1 < 2 ^ 32 -> live s par -> (length nm <= 62)%nat ->
  exists o s', FsCreateNode nm ty par s = Some (o, s') /\ fs_ok s' /\ next_node_id s' <= next_node_id s + 1 /\ forall i, o = Some i -> live s' i.
Proof.
  intros [HT HA] Hid (p & Hp & Hpid) Hlen.
  destruct (FsCreateNode_cases _ _ _ _ nm ty _ _ HT HA Hid Hp Hpid Hlen) as [[-> _]|(i & s' & -> & HC & HT' & HA' & Hn & _)].
  - exists None, s. split_and!; [done|by do 3 eexists|lia|done].
  - exists (Some i), s'. split_and!; [done|by do 3 eexists|lia|]. intros ? [= <-].
    destruct (cr_same _ _ _ _ _ _ _ HC) as (nd & _ & _ & _ & Hi). eexists. split; [exact Hi|]. cbn. pose proof (ak_nid _ HA). lia.
Qed.
Lemma FsMkdir_runs s path : fs_ok s -> next_node_id s + 1 < 2 ^ 32 -> path_fits path = true -> runs s (FsMkdir path s).
Proof.
  intros (K & dep & r & HI) Hid HF. unfold FsMkdir. destruct (FsFindParent_ok _ _ _ _ _ HI HF) as (o & -> & HO). rewrite option_bind_Some.
  destruct o as [[par nm]|]; [|apply fs_runs_ret; by do 3 eexists]. destruct (HO _ _ eq_refl) as (HL & _ & Hlen).
  destruct (FsCreateNode_runs _ _ _ _ nm FS_DIRECTORY par HI Hid HL Hlen) as (q & s' & -> & HI' & Hn & _). rewrite option_bind_Some.
  destruct q; by eexists _, s'.
Qed.
Lemma FsOpen_runs s path flags pid : fs_ok s -> next_node_id s + 1 < 2 ^ 32 -> path_fits path = true -> runs s (FsOpen path flags pid s).
Proof.
  intros (K & dep & r & HI) Hid HF. pose proof HI as [HT HA]. unfold FsOpen.
  pose proof (fun i => FsFind_live _ _ _ _ path i HT) as HFL. rewrite (FsFind_ok _ _ _ _ _ HT) in HFL |- *. rewrite option_bind_Some.
  set (q := resolve s r (components [] path)) in *. clearbody q.
  assert (A : exists o s1, match q with
      | Some i => Some (Some i, s)
      | None => if has flags FS_WRITE then
            pr ← FsFindParent path s;
            match pr with None => Some (None, s) | Some (par, filename) => FsCreateNode filename FS_FILE par s end
          else Some (None, s) end = Some (o, s1) /\ fs_ok s1 /\ next_node_id s1 <= next_node_id s + 1 /\ forall i, o = Some i -> live s1 i).
  { assert (fs_ok s) by (by do 3 eexists). destruct q as [i|].
    { exists (Some i), s. split_and!; [done..|lia|]. intros ? [= <-]. by apply HFL. }
    destruct (has flags FS_WRITE); [|exists None, s; split_and!; [done..|lia|done]].
    destruct (FsFindParent_ok _ _ _ _ _ HI HF) as (o & -> & HO). rewrite option_bind_Some.
    destruct o as [[par nm]|]; [|exists None, s; split_and!; [done..|lia|done]]. destruct (HO _ _ eq_refl) as (HL & _ & Hlen).
    by apply (FsCreateNode_runs _ _ _ _ nm FS_FILE par HI Hid HL Hlen). }
  destruct A as (o & s1 & -> & (K1 & dep1 & r1 & HI1) & Hn1 & HL). rewrite option_bind_Some.
  destruct o as [i|]; [|by eapply runs_inv]. destruct (HL i eq_refl) as (n & Hi & Hnid). rewrite Hi, option_bind_Some.
  destruct (bool_decide (ntype n = FS_FILE)); [|by eapply runs_inv]. cbn [negb].
  destruct (AllocHandle_ok _ _ _ _ HI1) as (o & s2 & -> & HI2 & Hfn & Hn2 & _ & HH). rewrite option_bind_Some.
  destruct o as [h|]; [|eapply runs_inv; [done|lia]]. destruct (HH h eq_refl) as (x & Hx). rewrite Hx, option_bind_Some.
  eapply runs_inv; [apply inv_handles; [exact HI2|]|cbn; lia].
  pose proof (ak_content _ (fi_aux _ _ _ _ HI1) _ _ Hi) as [Hsz Hsz']. split; cbn.
  - intros ? [= <-]. by eapply (get_lt_inv _ _ _ _ _ _ (fi_tree _ _ _ _ HI1)).
  - destruct (has flags FS_APPEND); [|lia]. split; [|done]. rewrite Hsz. destruct (data n); lia.
Qed.

(** ** Closing, seeking and reading *)
Lemma FsClose_runs s f : fs_ok s -> runs s (FsClose f s).
Proof.
  intros (K & dep & r & HI). unfold FsClose. destruct (GetHandle_ok f s (fi_aux _ _ _ _ HI)) as (o & -> & _). rewrite option_bind_Some.
  destruct o as [h|]; [|apply fs_runs_ret; by do 3 eexists]. eapply runs_inv; [apply inv_handles; [exact HI|apply zero_handle_ok]|cbn; lia].
Qed.
Lemma handle_node s K dep r h x i : fs_inv s K dep r -> file_handles s !! h = Some x -> hnode x = Some i -> exists n, get_node i s = Some n.
Proof. intros [HT HA] Hx Hi. eapply get_lt; [done|]. by eapply hk_node, Hi; eapply ak_handle. Qed.
Lemma inv_position s K dep r h x p : fs_inv s K dep r -> file_handles s !! h = Some x -> 0 <= p < 2 ^ 63 ->
  exists s', set_position h p s = Some s' /\ fs_inv s' K dep r /\ next_node_id s' = next_node_id s.
Proof.
  intros HI Hx Hp. unfold set_position. rewrite Hx, option_bind_Some. eexists. split; [reflexivity|]. split; [|done].
  apply inv_handles; [done|]. split; [|done]. cbn. apply (ak_handle _ (fi_aux _ _ _ _ HI) _ _ Hx).
Qed.
Lemma i64_range z : - 2 ^ 63 <= i64 z < 2 ^ 63.
Proof. unfold i64. pose proof (u64_range z). case_if E; zbool; lia. Qed.
Lemma FsSeek_runs s f off whence : fs_ok s -> off < 2 ^ 63 -> runs s (FsSeek f off whence s).
Proof.
  intros (K & dep & r & HI) Hoff. assert (HOK : fs_ok s) by (by do 3 eexists). unfold FsSeek.
  destruct (GetHandle_ok f s (fi_aux _ _ _ _ HI)) as (o & -> & HO). rewrite option_bind_Some.
  destruct o as [h|]; [|by apply fs_runs_ret]. destruct (HO h eq_refl) as (x & Hx & _). rewrite Hx, option_bind_Some.
  destruct (hnode x) as [i|] eqn:Ei; [|by apply fs_runs_ret]. destruct (handle_node _ _ _ _ _ _ _ HI Hx Ei) as (n & Hn). rewrite Hn, option_bind_Some.
  set (np := if whence =? SEEK_SET then _ else _). assert (Hnp : forall p, np = Some p -> p < 2 ^ 63).
  { intros p. unfold np. repeat case_match; intros [= <-]; try apply i64_range; done. }
  clearbody np. destruct np as [p|]; [|by apply fs_runs_ret]. specialize (Hnp p eq_refl).
  destruct (Z.ltb_spec p 0); [by apply fs_runs_ret|]. wsimp.
  destruct (inv_position _ _ _ _ _ _ p HI Hx) as (s' & -> & HI' & Hn'); [lia|]. rewrite option_bind_Some. eapply runs_inv; [done|lia].
Qed.
(** The reads the code expects: not from beyond the end of the file. *)
Definition reads_inside (f : Z) (s : fs) : bool :=
  match GetHandle f s with
  | Some (Some h) =>
      match (x ← file_handles s !! h; i ← hnode x; n ← get_node i s; Some (position x, n)) with
      | Some (pos, n) => match data n with Some _ => pos <=? size n | None => true end
      | None => true
      end
  | _ => true
  end.
Lemma mem_read_ok d off n : 0 <= off -> 0 <= n -> off + n <= Z.of_nat (length d) -> mem_read d off n = Some (take (Z.to_nat n) (drop (Z.to_nat off) d)).
Proof. intros. unfold mem_read. rewrite (proj2 (Z.leb_le 0 off)), (proj2 (Z.leb_le (off + n) _)) by lia. done. Qed.
Lemma FsRead_runs s f sz : fs_ok s -> 0 <= sz -> reads_inside f s = true -> runs s (FsRead f sz s).
Proof.
  intros (K & dep & r & HI) Hsz HR. assert (HOK : fs_ok s) by (by do 3 eexists). unfold FsRead, reads_inside in *.
  destruct (GetHandle_ok f s (fi_aux _ _ _ _ HI)) as (o & E & HO). rewrite E in HR |- *. rewrite option_bind_Some.
  destruct o as [h|]; [|by apply fs_runs_ret]. cbv beta iota in HR. destruct (HO h eq_refl) as (x & Hx & _). rewrite Hx in HR |- *. rewrite option_bind_Some in HR. rewrite option_bind_Some.
  destruct (has (hflags x) FS_READ); [|by apply fs_runs_ret]. cbn [negb].
  destruct (hnode x) as [i|] eqn:Ei; [|by apply fs_runs_ret]. rewrite option_bind_Some in HR.
  destruct (handle_node _ _ _ _ _ _ _ HI Hx Ei) as (n & Hn). rewrite Hn in HR |- *. rewrite option_bind_Some in HR. rewrite option_bind_Some. cbv beta iota in HR.
  destruct (ak_content _ (fi_aux _ _ _ _ HI) _ _ Hn) as [Hs Hs']. pose proof (hk_pos _ (ak_handle _ (fi_aux _ _ _ _ HI) _ _ Hx)).
  destruct (data n) as [d|]; [|by apply fs_runs_ret]. zbool. wsimp. set (b := if _ <? sz then _ else _).
  assert (Hb : 0 <= b <= size n - position x) by (unfold b; case_if E1; zbool; lia). clearbody b.
  destruct (Z.ltb_spec 0 b); [|by apply fs_runs_ret]. rewrite mem_read_ok by lia. rewrite option_bind_Some. wsimp.
  destruct (inv_position _ _ _ _ _ _ (position x + b) HI Hx) as (s' & -> & HI' & Hn'); [lia|]. rewrite option_bind_Some. eapply runs_inv; [done|lia].
Qed.

(** ** Writing *)
(** What the heap promises of [KernelReallocate] when it returns: the size was at most 1024 bytes
    (a larger one stops the kernel), and a block that is not NULL has the size asked for and starts
    with the old contents. *)
Definition realloc_max : Z := 1024.
Definition realloc_meets (d : list Z) (n : Z) (r : option (list Z)) : Prop :=
  n <= realloc_max /\ forall d', r = Some d' -> Z.of_nat (length d') = n /\ (Z.of_nat (length d) <= n -> take (length d) d' = d).
Definition realloc_ok (realloc : list Z -> Z -> option (option (list Z))) : Prop :=
  forall d n r, 0 <= n -> realloc d n = Some r -> realloc_meets d n r.
(** The heap is not exhausted: every reallocation it can serve returns. *)
Definition realloc_steady (realloc : list Z -> Z -> option (option (list Z))) : Prop :=
  forall d n, 0 <= n <= realloc_max -> realloc d n <> None.
Lemma mem_write_ok d off b : 0 <= off -> off + Z.of_nat (length b) <= Z.of_nat (length d) ->
  exists d', mem_write d off b = Some d' /\ d' = take (Z.to_nat off) d ++ b ++ drop (Z.to_nat off + length b) d /\ length d' = length d.
Proof.
  intros H1 H2. unfold mem_write. rewrite (proj2 (Z.leb_le 0 off)), (proj2 (Z.leb_le (off + _) _)) by lia.
  eexists. split; [done|]. split; [done|]. rewrite !length_app, length_take, length_drop. lia.
Qed.
Lemma inv_content s K dep r i n d : fs_inv s K dep r -> get_node i s = Some n -> Z.of_nat (length d) < 2 ^ 63 ->
  exists s', upd_node i (set_content (Some d) (Z.of_nat (length d))) s = Some s' /\ fs_inv s' K dep r /\ next_node_id s' = next_node_id s /\
    file_handles s' = file_handles s /\ get_node i s' = Some (set_content (Some d) (Z.of_nat (length d)) n) /\
    forall k, k <> i -> get_node k s' = get_node k s.
Proof.
  intros [HT HA] Hn Hd. rewrite (upd_node_ok _ _ _ _ Hn). eexists. split; [reflexivity|].
  assert (G : forall k, get_node k (set_fs_nodes (<[i:=set_content (Some d) (Z.of_nat (length d)) n]> (fs_nodes s)) s)
     = if decide (k = i) then Some (set_content (Some d) (Z.of_nat (length d)) n) else get_node k s) by (intros k; by eapply get_set).
  split_and!; try done; [split|..].
  - eapply same_tree_ok; [|exact HT]. split; [done|apply length_insert|]. intros k n'. rewrite G. case_decide; [intros [= <-]; subst; eauto|].
    + exists n. by split.
    + intros Hk. exists n'. by split.
  - split; try apply HA. intros k n'. rewrite G. case_decide; [intros [= <-]; done|apply HA].
  - by rewrite G, decide_True.
  - intros k Hk. by rewrite G, decide_False.
Qed.
Lemma splice_self (a b c : list Z) k : length a = k -> a ++ b ++ c = take k (a ++ b ++ c) ++ b ++ drop (k + length b) (a ++ b ++ c).
Proof. intros <-. by rewrite take_app_length, <- drop_drop, !drop_app_length. Qed.
Section write.
Context (realloc : list Z -> Z -> option (option (list Z))) (HR : realloc_ok realloc).

(** The heap returns from the reallocation that a write needs, if it needs one. *)
Definition heap_serves (f : Z) (buf : list Z) (s : fs) : bool :=
  match GetHandle f s with
  | Some (Some h) =>
      match file_handles s !! h with
      | Some x =>
          match hnode x ≫= fun i => get_node i s with
          | Some n =>
              let new_size := u64 (position x + Z.of_nat (length buf)) in
              if size n <? new_size then match realloc (default [] (data n)) new_size with Some _ => true | None => false end else true
          | None => true
          end
      | None => true
      end
  | _ => true
  end.
(** The contents a write of [buf] at [pos] leaves, when memory allows. *)
Definition write_at (pos : Z) (buf old new : list Z) : Prop :=
  new = take (Z.to_nat pos) new ++ buf ++ drop (Z.to_nat pos + length buf) new /\
  take (Z.to_nat pos) (take (length old) new) = take (Z.to_nat pos) old /\
  drop (Z.to_nat pos + length buf) (take (length old) new) = drop (Z.to_nat pos + length buf) old /\
  Z.of_nat (length new) = Z.max (Z.of_nat (length old)) (pos + Z.of_nat (length buf)).
Lemma write_cases s K dep r f h x i n buf : fs_inv s K dep r -> GetHandle f s = Some (Some h) -> file_handles s !! h = Some x ->
  has (hflags x) FS_WRITE = true -> hnode x = Some i -> get_node i s = Some n -> buf <> [] -> Z.of_nat (length buf) < 2 ^ 63 ->
  (FsWrite realloc f buf s = Some (-1, s) /\ size n < position x + Z.of_nat (length buf) /\
   realloc (default [] (data n)) (position x + Z.of_nat (length buf)) = Some None) \/
  (FsWrite realloc f buf s = None /\ size n < position x + Z.of_nat (length buf) /\ heap_serves f buf s = false /\
   realloc (default [] (data n)) (position x + Z.of_nat (length buf)) = None) \/
  exists d s1 s2, FsWrite realloc f buf s = Some (i32 (Z.of_nat (length buf)), s2) /\
    write_at (position x) buf (default [] (data n)) d /\ fs_inv s1 K dep r /\
    get_node i s1 = Some (set_content (Some d) (Z.of_nat (length d)) n) /\ (forall k, k <> i -> get_node k s1 = get_node k s) /\
    file_handles s1 = file_handles s /\ next_node_id s1 = next_node_id s /\
    set_position h (position x + Z.of_nat (length buf)) s1 = Some s2 /\ fs_inv s2 K dep r /\ next_node_id s2 = next_node_id s.
Proof.
  intros HI HG Hx HW Hi Hn Hb Hl. unfold FsWrite. rewrite HG, option_bind_Some, Hx, option_bind_Some, HW. cbn [negb].
  assert (Hlb : length buf <> 0%nat) by (by destruct buf). rewrite (proj2 (Z.eqb_neq (Z.of_nat (length buf)) 0)) by lia.
  rewrite Hi, Hn, option_bind_Some. pose proof (hk_pos _ (ak_handle _ (fi_aux _ _ _ _ HI) _ _ Hx)) as Hpos.
  destruct (ak_content _ (fi_aux _ _ _ _ HI) _ _ Hn) as [Hs Hs']. wsimp.
  assert (Hold : size n = Z.of_nat (length (default [] (data n)))) by (rewrite Hs; by destruct (data n)).
  set (old := default [] (data n)) in *.
  assert (go : forall d0 ns, Z.of_nat (length d0) = ns -> ns < 2 ^ 63 -> ns = Z.max (size n) (position x + Z.of_nat (length buf)) -> take (length old) d0 = old ->
    exists d s1 s2, (d' ← mem_write d0 (position x) buf; s1 ← upd_node i (set_content (Some d') ns) s;
       s2 ← set_position h (position x + Z.of_nat (length buf)) s1; Some (i32 (Z.of_nat (length buf)), s2)) = Some (i32 (Z.of_nat (length buf)), s2) /\
    write_at (position x) buf old d /\ fs_inv s1 K dep r /\
    get_node i s1 = Some (set_content (Some d) (Z.of_nat (length d)) n) /\ (forall k, k <> i -> get_node k s1 = get_node k s) /\
    file_handles s1 = file_handles s /\ next_node_id s1 = next_node_id s /\
    set_position h (position x + Z.of_nat (length buf)) s1 = Some s2 /\ fs_inv s2 K dep r /\ next_node_id s2 = next_node_id s).
  { intros d0 ns Hd0 Hns Emax Epre. destruct (mem_write_ok d0 (position x) buf) as (d & -> & Ed & Eld); [lia..|]. rewrite option_bind_Some.
    destruct (inv_content s K dep r i n d HI Hn) as (s1 & E1 & HI1 & Hn1 & Hf1 & Hg1 & Ho1); [lia|].
    rewrite Eld, Hd0 in E1. rewrite E1, option_bind_Some. rewrite <- Hf1 in Hx.
    destruct (inv_position _ _ _ _ _ _ (position x + Z.of_nat (length buf)) HI1 Hx) as (s2 & E2 & HI2 & Hn2); [lia|].
    rewrite E2, option_bind_Some. exists d, s1, s2. split_and!; try done; [|congruence]. unfold write_at. rewrite Eld. split_and!; [|..|lia].
    - assert (Hlt : length (take (Z.to_nat (position x)) d0) = Z.to_nat (position x)) by (rewrite length_take; lia).
      rewrite Ed. by apply splice_self.
    - rewrite <- Epre at 2. rewrite Ed, !take_take, take_app_le by (rewrite length_take; lia). rewrite take_take. f_equal. lia.
    - rewrite <- Epre at 2. set (k := (Z.to_nat (position x) + length buf)%nat). rewrite !skipn_firstn_comm. f_equal. rewrite Ed.
      rewrite (app_assoc (take _ _)). apply drop_app_length'. rewrite length_app, length_take. lia. }
  destruct (Z.ltb_spec (size n) (position x + Z.of_nat (length buf))) as [Hg|Hg].
  - assert (H0 : 0 <= position x + Z.of_nat (length buf)) by lia.
    destruct (realloc old _) as [[d0|]|] eqn:ER; [right; right|by left|right; left; split_and!; [done|done| |done]].
    2: { unfold heap_serves. rewrite HG, Hx, Hi. cbn [mbind option_bind]. rewrite Hn. cbv zeta. rewrite u64_small by lia. rewrite (proj2 (Z.ltb_lt _ _) Hg). fold old. by rewrite ER. }
    destruct (HR _ _ _ H0 ER) as (H1 & H4). destruct (H4 d0 eq_refl) as (H2 & H3). unfold realloc_max in H1. rewrite option_bind_Some. cbn [fmap option_fmap option_map]. rewrite option_bind_Some.
    apply go; [done|lia|lia|]. apply H3. lia.
  - right; right. destruct (data n) as [d0|] eqn:ED; [|lia]. rewrite !option_bind_Some. apply go; [done|done|lia|]. unfold old. cbn. by rewrite firstn_all.
Qed.
Definition runs_keep {A} (s : fs) (o : option (A * fs)) : Prop :=
  exists a s', o = Some (a, s') /\ fs_ok s' /\ next_node_id s' = next_node_id s.
Lemma FsWrite_ok s f buf : fs_ok s -> Z.of_nat (length buf) < 2 ^ 63 -> heap_serves f buf s = true -> runs_keep s (FsWrite realloc f buf s).
Proof.
  intros (K & dep & r & HI) Hl HS. assert (HOK : fs_ok s) by (by do 3 eexists).
  assert (ret : forall z : Z, runs_keep s (Some (z, s))) by (intros z; by exists z, s).
  destruct (GetHandle_ok f s (fi_aux _ _ _ _ HI)) as (o & E & HO).
  destruct o as [h|]; [|unfold FsWrite; rewrite E; apply ret]. destruct (HO h eq_refl) as (x & Hx & _).
  destruct (has (hflags x) FS_WRITE) eqn:EW; [|unfold FsWrite; rewrite E, option_bind_Some, Hx, option_bind_Some, EW; apply ret].
  destruct (decide (buf = [])) as [->|Hb]; [unfold FsWrite; rewrite E, option_bind_Some, Hx, option_bind_Some, EW; apply ret|].
  destruct (hnode x) as [i|] eqn:Ei.
  - destruct (handle_node _ _ _ _ _ _ _ HI Hx Ei) as (n & Hn).
    destruct (write_cases _ _ _ _ _ _ _ _ _ _ HI E Hx EW Ei Hn Hb Hl) as [[-> _]|[(_ & _ & HS' & _)|(d & s1 & s2 & -> & _ & _ & _ & _ & _ & _ & _ & HI2 & Hn2)]];
      [apply ret|congruence|]. eexists _, s2. split; [done|]. split; [by do 3 eexists|done].
  - unfold FsWrite. rewrite E, option_bind_Some, Hx, option_bind_Some, EW, Ei. cbn [negb]. case_if E0; apply ret.
Qed.
Lemma FsWrite_runs s f buf : fs_ok s -> Z.of_nat (length buf) < 2 ^ 63 -> heap_serves f buf s = true -> runs s (FsWrite realloc f buf s).
Proof. intros H1 H2 H3. destruct (FsWrite_ok s f buf H1 H2 H3) as (z & s' & ? & ? & ?). exists z, s'. split_and!; [done..|lia]. Qed.
End write.
