(* ===== verification/VfrfsRun.v ===== *)
(** Deletion at the level of paths, initialisation, and whole sequences of calls. *)
From Stdlib Require Import ZArith Lia.
From stdpp Require Import base tactics sets list numbers option functions.
From S2P Require Import Prelude Vfrfs VfrfsInv VfrfsCreate VfrfsFind VfrfsRemove VfrfsOps.

(** ** Deletion *)
Lemma cut_away p l1 l2 j n n' : cut p l1 l2 j n n' -> j <> p -> j ∉ l1 -> j ∉ l2 -> n' = n.
Proof.
  intros [[] HN HP HC HL] H1 H2 H3. rewrite decide_False in HC, HL by done.
  rewrite decide_False in HN by (intros E%list.last_Some_elem_of; done).
  rewrite decide_False in HP by (destruct l2; [done|]; intros [= ->]; set_solver). destruct n, n'; cbn in *; congruence.
Qed.
Definition del_fuel : nat := S MAX_FS_NODES.
Record removal (s s' : fs) (K : nat -> list nat) (dep : nat -> nat) (r p i : nat) (l1 l2 : list nat) : Prop := {
  rm_split : K p = l1 ++ i :: l2;
  rm_inv : fs_inv s' (drop_kids K p (l1 ++ l2) (subtree K del_fuel i)) dep r;
  rm_gone : forall x, x ∈ subtree K del_fuel i -> get_node x s' = Some zero_fsnode;
  rm_kept : forall x n, x ∉ subtree K del_fuel i -> get_node x s = Some n -> exists n', get_node x s' = Some n' /\ same_node n n';
  rm_handles : file_handles s' = file_handles s;
  rm_nid : next_node_id s' = next_node_id s;
  rm_parent : p ∉ subtree K del_fuel i
}.
Lemma removal_ok s K dep r i n p : fs_inv s K dep r -> get_node i s = Some n -> parent n = Some p ->
  exists s1 s' l1 l2, UnlinkNode i s = Some s1 /\ FsDeleteRecursiveI del_fuel i s1 = Some s' /\
    s' = clear_nodes (subtree K del_fuel i) s1 /\ length (fs_nodes s1) = MAX_FS_NODES /\ is_Some (get_node i s1) /\
    removal s s' K dep r p i l1 l2.
Proof.
  intros [HT HA] Hn Hp. pose proof (proj2 (kid_parent _ _ _ _ _ _ _ HT Hn) Hp) as Hk.
  destruct (kid_in _ _ _ _ _ _ HT Hk) as (Hd & m & Hm & Hid & _). rewrite Hn in Hm. injection Hm as <-.
  destruct (list_elem_of_split _ _ Hk) as (l1 & l2 & E). destruct (UnlinkNode_ok _ _ _ _ _ _ _ _ HT E) as (s1 & EU & HSm & G).
  assert (HL1 : length (fs_nodes s1) = MAX_FS_NODES) by (rewrite (sb_len _ _ HSm); apply HT).
  set (X := subtree K del_fuel i). pose proof (tk_dep _ _ _ _ HT) as Hr0.
  assert (Hf : (dep r + MAX_FS_NODES < dep i + del_fuel)%nat) by (unfold del_fuel; lia).
  assert (HpX : p ∉ X) by (by eapply subtree_not_parent).
  assert (HiX : i ∈ X) by (apply elem_of_cons; auto).
  assert (HrX : r ∉ X) by (intros [Hle _]%(subtree_up _ _ _ _ HT); lia).
  assert (Hup : forall x n, x ∈ X -> x <> i -> get_node x s = Some n -> exists y, parent n = Some y /\ y ∈ X) by (intros x m; by eapply subtree_parent).
  assert (Hgone : forall x, x ∈ X -> get_node x s1 = get_node x s).
  { intros x Hx. destruct (subtree_alive _ _ _ _ HT del_fuel i x) as (xn & Hxn & Hxid); [by exists n|done|]. rewrite Hxn.
    destruct (G _ _ Hxn) as (x' & -> & HC). f_equal. assert (x ∉ l1 /\ x ∉ l2) as [? ?].
    { destruct (decide (x = i)) as [->|Hxi].
      - pose proof (tk_nodup _ _ _ _ HT p) as HN. rewrite E in HN. apply list.NoDup_app in HN as (_ & HN1 & [HN2 _]%list.NoDup_cons). split; [|done].
        intros HX. apply (HN1 i HX), elem_of_cons. auto.
      - destruct (Hup _ _ Hx Hxi Hxn) as (y & Hy & HyX). assert (x ∉ K p) as Hxp; [|by rewrite E, elem_of_app, elem_of_cons in Hxp; split; intros HX; apply Hxp; auto].
        intros HX. apply (kid_parent _ _ _ _ _ _ _ HT Hxn) in HX. congruence. }
    eapply cut_away; try done. congruence. }
  exists s1, (clear_nodes X s1), l1, l2. split; [done|]. split.
  { rewrite <- (clear_nil s1) at 1. unfold del_fuel at 1. rewrite (FsDeleteRecursiveI_ok s s1 K dep r HT HL1 (S MAX_FS_NODES)); [|by exists n|done| |done].
    - by rewrite app_nil_r.
    - intros x _. apply not_elem_of_nil. }
  split; [done|]. split; [done|]. split; [rewrite Hgone by done; eauto|].
  assert (Hdown : forall x m y, get_node x s = Some m -> parent m = Some y -> y ∈ X -> x ∈ X) by (intros x m y ? ? ?; by eapply subtree_child).
  split; try done.
  - split; [by eapply removed_tree|]. eapply removed_aux; try done.
  - intros x Hx. rewrite get_clear, Hgone by done. destruct (subtree_alive _ _ _ _ HT del_fuel i x) as (xn & Hxn & _); [by exists n|done|].
    rewrite Hxn. cbn. by rewrite decide_True.
  - intros x xn Hx Hxn. destruct (G _ _ Hxn) as (n' & Hn' & [HS _ _ _ _]). exists n'. split; [|done]. rewrite get_clear, Hn'. cbn. by rewrite decide_False.
  - apply HSm.
  - apply HSm.
Qed.
Lemma leaf_kids s K dep r i n : fs_inv s K dep r -> get_node i s = Some n -> ~ (ntype n = FS_DIRECTORY /\ children n <> None) -> K i = [].
Proof.
  intros [HT _] Hn H. pose proof (tk_node _ _ _ _ HT _ _ Hn) as HO. destruct (K i) eqn:E; [done|]. destruct H. split.
  - apply HO. by rewrite E.
  - by rewrite (nk_children _ _ _ _ HO), E.
Qed.
(** [FsDelete] of a leaf and the recursive deletion agree. *)
Lemma FsDelete_leaf s K dep r i n p s1 s' : fs_inv s K dep r -> K i = [] -> UnlinkNode i s = Some s1 -> get_node i s = Some n -> parent n = Some p ->
  s' = clear_nodes (subtree K del_fuel i) s1 -> length (fs_nodes s1) = MAX_FS_NODES -> is_Some (get_node i s1) -> FreeNode i s1 = Some s'.
Proof.
  intros HI HK HU Hn Hp -> HL (n1 & Hn1). rewrite <- (clear_nil s1) at 1. erewrite FreeNode_clear; [|done|exact Hn1].
  unfold del_fuel. cbn [subtree]. by rewrite HK.
Qed.
Lemma FsDelete_runs s path : fs_ok s -> runs s (FsDelete path s).
Proof.
  intros (K & dep & r & HI). assert (HOK : fs_ok s) by (by do 3 eexists). unfold FsDelete.
  pose proof (fun i => FsFind_live _ _ _ _ path i (fi_tree _ _ _ _ HI)) as HFL. rewrite (FsFind_ok _ _ _ _ _ (fi_tree _ _ _ _ HI)) in HFL |- *.
  rewrite option_bind_Some. destruct (resolve _ _ _) as [i|]; [|by apply fs_runs_ret]. destruct (HFL i eq_refl) as (n & Hn & _). rewrite Hn, option_bind_Some.
  destruct (parent n) as [p|] eqn:Hp; [|by apply fs_runs_ret].
  destruct (bool_decide (ntype n = FS_DIRECTORY) && bool_decide (children n <> None)) eqn:EB; [by apply fs_runs_ret|].
  assert (HK : K i = []) by (eapply leaf_kids; [done..|]; intros [H1 H2]; rewrite !bool_decide_true in EB by done; done).
  destruct (removal_ok _ _ _ _ _ _ _ HI Hn Hp) as (s1 & s' & l1 & l2 & EU & _ & Es & HL & HS & HR). rewrite EU, option_bind_Some.
  rewrite (FsDelete_leaf s K dep r i n p s1 s'), option_bind_Some by done. eapply runs_inv; [apply (rm_inv _ _ _ _ _ _ _ _ _ HR)|].
  rewrite (rm_nid _ _ _ _ _ _ _ _ _ HR). lia.
Qed.
Lemma FsRmdir_runs s path : fs_ok s -> runs s (FsRmdir path s).
Proof.
  intros HOK. pose proof HOK as (K & dep & r & HI). unfold FsRmdir.
  pose proof (fun i => FsFind_live _ _ _ _ path i (fi_tree _ _ _ _ HI)) as HFL. rewrite (FsFind_ok _ _ _ _ _ (fi_tree _ _ _ _ HI)) in HFL |- *.
  rewrite option_bind_Some. destruct (resolve _ _ _) as [i|]; [|by apply fs_runs_ret]. destruct (HFL i eq_refl) as (n & Hn & _). rewrite Hn, option_bind_Some.
  destruct (bool_decide _); [|by apply fs_runs_ret]. by apply FsDelete_runs.
Qed.
Lemma FsDeleteRecursive_runs s path : fs_ok s -> runs s (FsDeleteRecursive path s).
Proof.
  intros HOK. pose proof HOK as (K & dep & r & HI). unfold FsDeleteRecursive.
  pose proof (fun i => FsFind_live _ _ _ _ path i (fi_tree _ _ _ _ HI)) as HFL. rewrite (FsFind_ok _ _ _ _ _ (fi_tree _ _ _ _ HI)) in HFL |- *.
  rewrite option_bind_Some. destruct (resolve _ _ _) as [i|]; [|by apply fs_runs_ret]. destruct (HFL i eq_refl) as (n & Hn & _). rewrite Hn, option_bind_Some.
  destruct (parent n) as [p|] eqn:Hp; [|by apply fs_runs_ret].
  destruct (removal_ok _ _ _ _ _ _ _ HI Hn Hp) as (s1 & s' & l1 & l2 & EU & ED & _ & _ & _ & HR). rewrite EU, option_bind_Some.
  unfold del_fuel in ED. rewrite ED, option_bind_Some. eapply runs_inv; [apply (rm_inv _ _ _ _ _ _ _ _ _ HR)|].
  rewrite (rm_nid _ _ _ _ _ _ _ _ _ HR). lia.
Qed.

(** ** Initialisation *)
(** The static variables before [FsInit]. *)
Definition boot_fs : fs := mk_fs None (replicate MAX_OPEN_FILES zero_handle) (replicate MAX_FS_NODES zero_fsnode) 0 0 1 1.
Definition first_root : FsNode := set_ntype FS_DIRECTORY (set_nname [slash] (set_node_id 1 zero_fsnode)).
Definition first_fs : fs :=
  mk_fs (Some 0%nat) (replicate MAX_OPEN_FILES zero_handle) (<[0%nat := first_root]> (replicate MAX_FS_NODES zero_fsnode)) 1 0 2 1.
Lemma FsInit_boot : FsInit boot_fs = Some (0, first_fs).
Proof. vm_compute. reflexivity. Qed.
Lemma first_get i n : get_node i first_fs = Some n -> (i = 0%nat /\ n = first_root) \/ (i <> 0%nat /\ n = zero_fsnode).
Proof.
  unfold get_node. cbn [fs_nodes first_fs]. rewrite list_lookup_insert_Some. intros [(-> & <- & _)|[Hi HR]]; [by left|right].
  apply lookup_replicate in HR as [-> _]. auto.
Qed.
Lemma first_tree : tree_ok first_fs (fun _ => []) (fun _ => 0%nat) 0%nat.
Proof.
  split; try done.
  - exists first_root. done.
  - intros i n [[-> ->]|[Hi ->]]%first_get; by split.
  - intros i l1 j l2 E. by destruct l1.
  - intros i. constructor.
  - intros i j1 j2 n1 n2 H. inversion H.
Qed.
Lemma first_ok : fs_ok first_fs.
Proof.
  exists (fun _ => []), (fun _ => 0%nat), 0%nat. split; [apply first_tree|]. split; [|done| |split; [done|by compute]..|done].
  - intros i n [[-> ->]|[Hi ->]]%first_get; done.
  - intros h x [-> _]%lookup_replicate. apply zero_handle_ok.
Qed.

(** ** Sequences of calls *)
Inductive fs_call :=
| COpen (path : list Z) (flags pid : Z)
| CClose (f : Z)
| CRead (f sz : Z)
| CWrite (f : Z) (buf : list Z)
| CSeek (f off whence : Z)
| CMkdir (path : list Z)
| CDelete (path : list Z)
| CRmdir (path : list Z)
| CDeleteRecursive (path : list Z)
| CReaddir (path : list Z)
| CListDir (path : list Z)
| CCreateFile (path : list Z) (pid : Z)
| CWriteFile (path buf : list Z) (pid : Z).

Section run.
Context (realloc : list Z -> Z -> option (option (list Z))).

(** The state after a call; its result is dropped. *)
Definition fs_exec (c : fs_call) (s : fs) : option fs :=
  match c with
  | COpen path flags pid => snd <$> FsOpen path flags pid s
  | CClose f => snd <$> FsClose f s
  | CRead f sz => snd <$> FsRead f sz s
  | CWrite f buf => snd <$> FsWrite realloc f buf s
  | CSeek f off whence => snd <$> FsSeek f off whence s
  | CMkdir path => snd <$> FsMkdir path s
  | CDelete path => snd <$> FsDelete path s
  | CRmdir path => snd <$> FsRmdir path s
  | CDeleteRecursive path => snd <$> FsDeleteRecursive path s
  | CReaddir path => (fun _ => s) <$> FsReaddir path s
  | CListDir path => (fun _ => s) <$> FsListDir path s
  | CCreateFile path pid => snd <$> FsCreateFile path pid s
  | CWriteFile path buf pid => snd <$> FsWriteFile realloc path buf pid s
  end.
(** What a caller must respect: a new path's directory part fits the code's buffer, sizes and
    offsets are those of objects, a read does not start beyond the end of the file, and the heap
    returns from the reallocation a write needs. *)
Definition file_serves (path buf : list Z) (pid : Z) (s : fs) : bool :=
  match FsOpen path (Z.lor FS_WRITE FS_APPEND) pid s with Some (f, s1) => (f <? 0) || heap_serves realloc f buf s1 | None => true end.
Definition call_ok (c : fs_call) (s : fs) : bool :=
  match c with
  | COpen path _ _ | CMkdir path | CCreateFile path _ => path_fits path
  | CRead f sz => (0 <=? sz) && reads_inside f s
  | CWrite f buf => (Z.of_nat (length buf) <? 2 ^ 63) && heap_serves realloc f buf s
  | CSeek _ off _ => off <? 2 ^ 63
  | CWriteFile path buf pid => path_fits path && (Z.of_nat (length buf) <? 2 ^ 63) && file_serves path buf pid s
  | _ => true
  end.
Fixpoint fs_exec_all (cs : list fs_call) (s : fs) : option fs :=
  match cs with
  | [] => Some s
  | c :: cs' => s' ← fs_exec c s; fs_exec_all cs' s'
  end.
Fixpoint calls_ok (cs : list fs_call) (s : fs) : bool :=
  match cs with
  | [] => true
  | c :: cs' => call_ok c s && match fs_exec c s with Some s' => calls_ok cs' s' | None => true end
  end.

Context (HR : realloc_ok realloc).
Lemma runs_snd {A} s (o : option (A * fs)) : runs s o -> exists s', snd <$> o = Some s' /\ fs_ok s' /\ next_node_id s' <= next_node_id s + 1.
Proof. intros (a & s' & -> & ? & ?). by exists s'. Qed.
Lemma FsClose_keeps_ids f s z s' : FsClose f s = Some (z, s') -> next_node_id s' = next_node_id s.
Proof. unfold FsClose. destruct (GetHandle f s) as [[h|]|]; cbn; [by intros [= _ <-]|by intros [= _ <-]|done]. Qed.
Lemma FsCreateFile_runs s path pid : fs_ok s -> next_node_id s + 1 < 2 ^ 32 -> path_fits path = true -> runs s (FsCreateFile path pid s).
Proof.
  intros HOK Hid HF. unfold FsCreateFile. destruct (FsOpen_runs s path FS_WRITE pid HOK Hid HF) as (f & s1 & -> & HOK1 & Hn1).
  rewrite option_bind_Some. destruct (f <? 0); [by eexists _, s1|]. destruct (FsClose_runs s1 f HOK1) as (z & s2 & E & HOK2 & _).
  rewrite E, option_bind_Some. apply FsClose_keeps_ids in E. eexists _, s2. split_and!; [done..|lia].
Qed.
Lemma FsWriteFile_runs s path buf pid : fs_ok s -> next_node_id s + 1 < 2 ^ 32 -> path_fits path = true -> Z.of_nat (length buf) < 2 ^ 63 ->
  file_serves path buf pid s = true -> runs s (FsWriteFile realloc path buf pid s).
Proof.
  intros HOK Hid HF Hl. unfold FsWriteFile, file_serves. destruct (FsOpen_runs s path (Z.lor FS_WRITE FS_APPEND) pid HOK Hid HF) as (f & s1 & -> & HOK1 & Hn1).
  rewrite option_bind_Some. destruct (f <? 0); [by eexists _, s1|]. intros HS.
  destruct (FsWrite_ok realloc HR s1 f buf HOK1 Hl HS) as (z & s2 & -> & HOK2 & Hn2). rewrite option_bind_Some.
  destruct (FsClose_runs s2 f HOK2) as (z' & s3 & E' & HOK3 & _). rewrite E', option_bind_Some. apply FsClose_keeps_ids in E'.
  eexists _, s3. split_and!; [done..|lia].
Qed.
Lemma FsReaddir_ok s path : fs_ok s -> exists o, FsReaddir path s = Some o.
Proof.
  intros (K & dep & r & HT & _). unfold FsReaddir. pose proof (fun i => FsFind_live _ _ _ _ path i HT) as HFL.
  rewrite (FsFind_ok _ _ _ _ _ HT) in HFL |- *. rewrite option_bind_Some. destruct (resolve _ _ _) as [i|]; [|eauto].
  destruct (HFL i eq_refl) as (n & -> & _). rewrite option_bind_Some. eauto.
Qed.
Lemma FsListDir_ok s path : fs_ok s -> exists o, FsListDir path s = Some o.
Proof.
  intros (K & dep & r & HT & _). unfold FsListDir. pose proof (fun i => FsFind_live _ _ _ _ path i HT) as HFL.
  rewrite (FsFind_ok _ _ _ _ _ HT) in HFL |- *. rewrite option_bind_Some. destruct (resolve _ _ _) as [i|]; [|eauto].
  destruct (HFL i eq_refl) as (n & Hn & _). rewrite Hn, option_bind_Some. destruct (bool_decide _); [|cbn; eauto]. cbn [negb].
  rewrite (list_children_ok _ _ _ _ _ _ HT Hn), option_bind_Some.
  assert (A : is_Some (mapM (fun k => c ← get_node k s; Some (ntype c, name c)) (K i))).
  { apply mapM_is_Some. apply list.Forall_forall. intros j (_ & m & Hm & _)%(kid_in _ _ _ _ _ _ HT). unfold compose. eexists. by rewrite Hm. }
  destruct A as (l & ->). rewrite option_bind_Some. eauto.
Qed.
Lemma fs_exec_ok c s : fs_ok s -> next_node_id s + 1 < 2 ^ 32 -> call_ok c s = true ->
  exists s', fs_exec c s = Some s' /\ fs_ok s' /\ next_node_id s' <= next_node_id s + 1.
Proof.
  intros HOK Hid HC. destruct c; cbn [fs_exec call_ok] in *; zbool;
    eauto 6 using runs_snd, FsOpen_runs, FsClose_runs, FsRead_runs, FsWrite_runs, FsSeek_runs, FsMkdir_runs, FsDelete_runs, FsRmdir_runs,
      FsDeleteRecursive_runs, FsCreateFile_runs, FsWriteFile_runs.
  - destruct (FsReaddir_ok s path HOK) as (o & ->). exists s. split_and!; [done..|lia].
  - destruct (FsListDir_ok s path HOK) as (o & ->). exists s. split_and!; [done..|lia].
Qed.
Lemma fs_exec_all_ok cs : forall s, fs_ok s -> next_node_id s + Z.of_nat (length cs) < 2 ^ 32 -> calls_ok cs s = true ->
  exists s', fs_exec_all cs s = Some s' /\ fs_ok s'.
Proof.
  induction cs as [|c cs IH]; intros s HOK Hid HC; cbn [fs_exec_all calls_ok length] in *; [by exists s|]. zbool.
  destruct (fs_exec_ok c s HOK) as (s' & E & HOK' & Hn); [lia|done|]. rewrite E in *. rewrite option_bind_Some. apply IH; [done|lia|done].
Qed.
End run.
