(* ===== verification/VfrfsPath.v ===== *)
(** Lemmas behind the end-to-end properties of the file system: what a creation does to
    path resolution, what a position change does to a handle, what a removal does to listings. *)
From Stdlib Require Import ZArith Lia.
From stdpp Require Import base tactics sets list numbers option functions.
From S2P Require Import Prelude Vfrfs VfrfsInv VfrfsCreate VfrfsFind VfrfsRemove VfrfsOps VfrfsRun.

(** ** The directory part and the last name of a path *)
Definition no_slash (nm : list Z) : Prop := Forall (fun c => c <> slash) nm.
Lemma last_slash_none nm : forall i last, no_slash nm -> last_slash_loop nm i last = last.
Proof.
  induction nm as [|c nm IH]; intros i last H; [done|]. apply Forall_cons_iff in H as [Hc H]. cbn [last_slash_loop].
  rewrite (proj2 (Z.eqb_neq _ _) Hc). by apply IH.
Qed.
Lemma last_slash_split d nm : no_slash nm -> forall i last, last_slash_loop (d ++ slash :: nm) i last = i + Z.of_nat (length d).
Proof.
  intros H. induction d as [|c d IH]; intros i last; cbn [app last_slash_loop].
  - rewrite Z.eqb_refl, last_slash_none by done. cbn. lia.
  - rewrite IH. cbn [length]. lia.
Qed.
Definition dir_part (d : list Z) : list Z := match d with [] => [slash] | _ => d end.
Lemma components_dir d : components [] (dir_part d) = components [] d.
Proof. by destruct d. Qed.
Lemma FsFindParent_split s K dep r d nm : tree_ok s K dep r -> no_slash nm -> valid_name nm -> (length d < 256)%nat ->
  hd_error (d ++ [slash]) = Some slash ->
  FsFindParent (d ++ slash :: nm) s = Some ((fun i => (i, nm)) <$> resolve s r (components [] d)).
Proof.
  intros HT Hs Hv Hl Hd. unfold FsFindParent.
  rewrite bool_decide_true by (by destruct d). cbn [negb]. rewrite last_slash_split, Z.add_0_l by done.
  replace (drop (Z.to_nat (Z.of_nat (length d) + 1)) (d ++ slash :: nm)) with nm
    by (rewrite Z2Nat.inj_add, Nat2Z.id, <- drop_drop, drop_app_length by lia; done).
  rewrite bool_decide_false by apply Hv. rewrite str_copy_id by done. unfold MAX_PATH. rewrite (proj2 (Z.leb_gt 256 _)) by lia.
  replace (if Z.of_nat (length d) =? 0 then [slash] else take (Z.to_nat (Z.of_nat (length d))) (d ++ slash :: nm)) with (dir_part d)
    by (destruct d; [done|rewrite Nat2Z.id, take_app_length; done]).
  rewrite (FsFind_ok _ _ _ _ _ HT), option_bind_Some, components_dir. by destruct (resolve _ _ _).
Qed.
Lemma find_split s r d nm : no_slash nm -> valid_name nm ->
  resolve s r (components [] (d ++ slash :: nm)) = p ← resolve s r (components [] d); step_name s p nm.
Proof.
  intros Hs [Hne Hl]. rewrite components_app, (components_single nm []), resolve_app by (cbn; first [done|lia]).
  destruct (resolve s r (components [] d)) as [p|]; [|done]. cbn. by destruct (step_name s p nm).
Qed.

(** ** Creation *)
Section create.
Context (s s' : fs) (K : nat -> list nat) (dep : nat -> nat) (r : nat) (nm : list Z) (ty : FsNodeType) (par i : nat).
Context (HT : tree_ok s K dep r) (HC : created s s' nm ty par i (list.last (K par))).
Context (HT' : tree_ok s' (add_kid K par i) (<[i := S (dep par)]> dep) r).

Lemma created_named m j n : j <> i -> get_node j s = Some n -> named s' m j = named s m j.
Proof.
  intros Hj Hn. unfold named. destruct (created_kept _ _ _ _ _ _ _ _ _ _ _ HT HC Hj Hn) as (n' & -> & [[E _ _ _ _ _] _ _ _ _]).
  by rewrite Hn, E.
Qed.
Lemma created_named_kids m a : List.find (named s' m) (K a) = List.find (named s m) (K a).
Proof.
  apply find_ext. intros j Hj. destruct (kid_in _ _ _ _ _ _ HT Hj) as (_ & n & Hn & _). eapply created_named; [|done].
  intros ->. by apply (proj1 (proj2 (created_fresh _ _ _ _ _ _ _ _ _ HT HC)) a).
Qed.
Lemma created_live j : live s j -> live s' j /\ j <> i.
Proof.
  intros (n & Hn & Hid). destruct (cr_same _ _ _ _ _ _ _ HC) as (nd & Hi & Hz & _). assert (Hji : j <> i) by congruence.
  destruct (created_kept _ _ _ _ _ _ _ _ _ _ _ HT HC Hji Hn) as (n' & Hn' & [[_ _ _ _ _ E] _ _ _ _]). split; [|done]. exists n'. split; congruence.
Qed.
Lemma created_step cur m c : live s cur -> step_name s cur m = Some c -> step_name s' cur m = Some c.
Proof.
  intros HL. pose proof (created_live _ HL) as [(n' & Hn' & _) Hci]. destruct HL as (n & Hn & Hid). unfold step_name.
  repeat case_decide; [done| |].
  - destruct (created_kept _ _ _ _ _ _ _ _ _ _ _ HT HC Hci Hn) as (m' & Hm' & [[_ _ _ _ E _] _ _ _ _]).
    by rewrite Hn, Hm', !option_bind_Some, E.
  - rewrite (kids_ok _ _ _ _ _ _ HT Hn), (kids_ok _ _ _ _ _ _ HT' Hn'). intros E. destruct (decide (cur = par)) as [->|Hp].
    + by rewrite add_kid_eq, find_app, created_named_kids, E.
    + by rewrite add_kid_ne, created_named_kids by done.
Qed.
Lemma created_resolve l : forall cur c, live s cur -> resolve s cur l = Some c -> resolve s' cur l = Some c.
Proof.
  induction l as [|m l IH]; intros cur c HL H; cbn [resolve] in *; [done|].
  destruct (step_name s cur m) as [x|] eqn:E; [|done]. rewrite option_bind_Some in H. rewrite (created_step _ _ _ HL E), option_bind_Some.
  apply IH; [|done]. by eapply step_live.
Qed.
Lemma created_found : live s par -> nm <> dot -> nm <> dotdot -> List.find (named s nm) (K par) = None -> step_name s' par nm = Some i.
Proof.
  intros HL H1 H2 EF. pose proof (created_live _ HL) as [(n' & Hn' & _) _]. unfold step_name. rewrite !decide_False by done.
  rewrite (kids_ok _ _ _ _ _ _ HT' Hn'), add_kid_eq, find_app, created_named_kids, EF. cbn [List.find].
  destruct (cr_same _ _ _ _ _ _ _ HC) as (nd & _ & _ & _ & Hi). unfold named. rewrite Hi. cbn. by rewrite bool_decide_true.
Qed.
End create.

(** A new entry [nm] in the directory that [d] names. *)
Record new_entry (s s' : fs) (d nm : list Z) (ty : FsNodeType) (p i : nat) : Prop := {
  ne_ok : fs_ok s';
  ne_find : FsFind (d ++ slash :: nm) s' = Some (Some i);
  ne_node : exists nd l, get_node i s = Some nd /\ node_id nd = 0 /\ get_node i s' = Some (new_node nm ty p l (next_node_id s) nd);
  ne_kept : forall j n, get_node j s = Some n -> j <> i -> exists n', get_node j s' = Some n' /\ same_node n n';
  ne_parent : kids s' p = kids s p ++ [i];
  ne_kids : kids s' i = [];
  ne_paths : forall q j, FsFind q s = Some (Some j) -> FsFind q s' = Some (Some j);
  ne_id : next_node_id s' = next_node_id s + 1
}.
Lemma FsCreateNode_new s d nm ty p pn k kn : fs_ok s -> next_node_id s + 1 < 2 ^ 32 ->
  no_slash nm -> valid_name nm -> nm <> dot -> nm <> dotdot -> (length d < 256)%nat -> hd_error (d ++ [slash]) = Some slash ->
  FsFind (dir_part d) s = Some (Some p) -> get_node p s = Some pn -> ntype pn = FS_DIRECTORY ->
  FsFind (d ++ slash :: nm) s = Some None -> get_node k s = Some kn -> node_id kn = 0 ->
  FsFindParent (d ++ slash :: nm) s = Some (Some (p, nm)) /\
  exists i s', FsCreateNode nm ty p s = Some (Some i, s') /\ new_entry s s' d nm ty p i.
Proof.
  intros (K & dep & r & HT & HA) Hid Hs Hv H1 H2 Hl Hd Hp Hpn Hty Hnone Hk Hz.
  pose proof (FsFind_live _ _ _ _ _ _ HT Hp) as HL. rewrite (FsFind_ok _ _ _ _ _ HT), components_dir in Hp. injection Hp as Hp.
  rewrite (FsFind_ok _ _ _ _ _ HT), find_split, Hp, option_bind_Some in Hnone by done. injection Hnone as Hnone.
  unfold step_name in Hnone. rewrite !decide_False, (kids_ok _ _ _ _ _ _ HT Hpn) in Hnone by done.
  split; [by rewrite (FsFindParent_split _ _ _ _ _ _ HT Hs Hv Hl Hd), Hp|].
  assert (Hpid : node_id pn <> 0) by (destruct HL as (m & ? & ?); congruence).
  destruct (FsCreateNode_cases _ _ _ _ nm ty _ _ HT HA Hid Hpn Hpid (proj2 Hv)) as [[_ HX]|(i & s' & E & HC & HT' & HA' & Hn & _)].
  { exfalso. destruct HX as [?|[?|[(j & ?)|HX]]]; [done|by apply Hv|congruence|].
    destruct (HX k) as (kn' & ? & ?); [by eapply get_lt_inv|congruence]. }
  exists i, s'. split; [done|]. destruct (cr_same _ _ _ _ _ _ _ HC) as (nd & Hnd & Hz0 & _ & Hi). split.
  - by do 3 eexists.
  - rewrite (FsFind_ok _ _ _ _ _ HT'), find_split by done.
    rewrite (created_resolve _ _ _ _ _ _ _ _ _ HT HC HT' _ _ _ (root_live _ _ _ _ HT) Hp), option_bind_Some.
    by rewrite (created_found _ _ _ _ _ _ _ _ _ HT HC HT').
  - by exists nd, (list.last (K p)).
  - intros j n Hn' Hj. destruct (created_kept _ _ _ _ _ _ _ _ _ j n HT HC Hj Hn') as (n' & ? & HK). exists n'. split; [done|apply HK].
  - destruct (created_kept _ _ _ _ _ _ _ _ _ p pn HT HC) as (n' & Hn' & _); [|done|].
    { by apply (created_live _ _ _ _ _ _ _ _ _ HT HC). }
    by rewrite (kids_ok _ _ _ _ _ _ HT' Hn'), (kids_ok _ _ _ _ _ _ HT Hpn), add_kid_eq.
  - rewrite (kids_ok _ _ _ _ _ _ HT' Hi), add_kid_ne.
    + apply (created_fresh _ _ _ _ _ _ _ _ _ HT HC).
    + intros <-. by apply (created_live _ _ _ _ _ _ _ _ _ HT HC) in HL as [_ []].
  - intros q j. rewrite (FsFind_ok _ _ _ _ _ HT), (FsFind_ok _ _ _ _ _ HT'). intros [= Hq]. f_equal.
    by apply (created_resolve _ _ _ _ _ _ _ _ _ HT HC HT' _ _ _ (root_live _ _ _ _ HT)).
  - done.
Qed.

(** ** Handles *)
Lemma get_handle_loop_ext f s s' n : (forall k, fd <$> file_handles s' !! k = fd <$> file_handles s !! k) ->
  forall i, get_handle_loop n i f s' = get_handle_loop n i f s.
Proof.
  intros H. induction n as [|n IH]; intros i; cbn [get_handle_loop]; [done|]. specialize (H i).
  destruct (file_handles s' !! i), (file_handles s !! i); cbn in *; try done. injection H as ->. by rewrite IH.
Qed.
Lemma GetHandle_ext f s s' : (forall k, fd <$> file_handles s' !! k = fd <$> file_handles s !! k) -> GetHandle f s' = GetHandle f s.
Proof. intros H. unfold GetHandle. case_if E; [done|]. by apply get_handle_loop_ext. Qed.
Lemma set_position_keeps h p s s' x : file_handles s !! h = Some x -> set_position h p s = Some s' ->
  file_handles s' !! h = Some (mk_handle (hnode x) p (hflags x) (fd x) (owner_pid x)) /\ fs_nodes s' = fs_nodes s /\
  forall f, GetHandle f s' = GetHandle f s.
Proof.
  intros Hx. unfold set_position. rewrite Hx, option_bind_Some. intros [= <-]. cbn. pose proof (lookup_lt_Some _ _ _ Hx).
  split_and!; [by apply list_lookup_insert_eq|done|]. intros f. apply GetHandle_ext. intros k. cbn.
  destruct (decide (k = h)) as [->|]; [rewrite list_lookup_insert_eq by done; by rewrite Hx|by rewrite list_lookup_insert_ne].
Qed.

(** ** Removal *)
Lemma removal_kids s s' K dep r p i l1 l2 x n : fs_inv s K dep r -> removal s s' K dep r p i l1 l2 ->
  x ∉ subtree K del_fuel i -> get_node x s = Some n -> kids s' x = if decide (x = p) then l1 ++ l2 else kids s x.
Proof.
  intros HI HR Hx Hn. destruct (rm_kept _ _ _ _ _ _ _ _ _ HR x n Hx Hn) as (n' & Hn' & _).
  rewrite (kids_ok _ _ _ _ _ _ (fi_tree _ _ _ _ (rm_inv _ _ _ _ _ _ _ _ _ HR)) Hn'), (kids_ok _ _ _ _ _ _ (fi_tree _ _ _ _ HI) Hn).
  unfold drop_kids. by rewrite decide_False.
Qed.
Lemma filter_cut i (l1 l2 : list nat) : NoDup (l1 ++ i :: l2) -> filter (fun j => j <> i) (l1 ++ i :: l2) = l1 ++ l2.
Proof.
  intros (_ & H1 & [H2 _]%list.NoDup_cons)%list.NoDup_app.
  assert (E : forall l : list nat, i ∉ l -> filter (fun j => j <> i) l = l).
  { intros l. induction l as [|y l IH]; intros Hl; [done|]. apply not_elem_of_cons in Hl as [? ?]. rewrite filter_cons_True by congruence. by rewrite IH. }
  rewrite list.filter_app, filter_cons_False by (intros HX; by apply HX). rewrite !E; [done|done|]. intros HX. apply (H1 i HX), elem_of_cons. auto.
Qed.
