(* ===== verification/VfrfsProps.v ===== *)
(** The properties of the in-memory file system. *)
From Stdlib Require Import ZArith Lia.
From stdpp Require Import base tactics sets list numbers option functions.
From S2P Require Import Prelude Vfrfs VfrfsInv VfrfsCreate VfrfsFind VfrfsRemove VfrfsOps VfrfsRun VfrfsPath.

(** ** A heap and a file system for the witnesses *)
Definition demo_realloc (d : list Z) (n : Z) : option (option (list Z)) :=
  if n <=? realloc_max then Some (Some (take (Z.to_nat n) (d ++ replicate (Z.to_nat n) 204))) else None.
Lemma demo_realloc_ok : realloc_ok demo_realloc.
Proof.
  intros d n r H0. unfold demo_realloc. destruct (Z.leb_spec n realloc_max) as [Hn|]; [|done]. intros [= <-]. split; [done|]. intros d' [= <-]. split.
  - rewrite length_take, length_app, length_replicate. lia.
  - intros Hd. rewrite take_take, Nat.min_l by lia. by rewrite take_app_length.
Qed.
(** [/a], [/a/b], [/a/c]: a directory with a file and a directory. *)
Definition path_a : list Z := [47; 97].
Definition path_b : list Z := [47; 97; 47; 98].
Definition path_c : list Z := [47; 97; 47; 99].
Definition demo_calls : list fs_call :=
  [CMkdir path_a; COpen path_b (Z.lor FS_READ FS_WRITE) 7; CMkdir path_c; CWrite 1 [10; 20; 30]].
Definition demo_fs : fs := default boot_fs (fs_exec_all demo_realloc demo_calls first_fs).
Lemma demo_ok : fs_ok demo_fs.
Proof.
  destruct (fs_exec_all_ok demo_realloc demo_realloc_ok demo_calls first_fs first_ok) as (s' & E & HOK); [by vm_compute..|].
  unfold demo_fs. by rewrite E.
Qed.

(** C34. The file system is memory safe and its tree stays well formed.  [FsInit] succeeds on the
    static variables, and then every sequence of calls to open, close, read, write, seek, mkdir,
    delete, rmdir, recursive delete, readdir, list, create and write files runs to its end without
    leaving an object or following NULL, and leaves a well-formed tree: parent, first-child,
    last-child and sibling pointers agree, no node is shared, names are unique in a directory, and
    every content is as long as its size.  The callers respect [call_ok]: the directory part of a
    new path fits 255 bytes, no read starts beyond the end of its file, and the heap returns from
    the reallocation a write needs (it stops the kernel above 1024 bytes).  The node identifiers
    wrap to the free mark after 2^32 creations, hence the bound on the length. *)
Theorem vfrfs_safe realloc calls : realloc_ok realloc -> 2 + Z.of_nat (length calls) < 2 ^ 32 ->
  exists s0, FsInit boot_fs = Some (0, s0) /\
    (calls_ok realloc calls s0 = true -> exists s', fs_exec_all realloc calls s0 = Some s' /\ fs_ok s').
Proof.
  intros HR Hn. exists first_fs. split; [apply FsInit_boot|]. intros HC. by apply (fs_exec_all_ok realloc HR calls first_fs first_ok).
Qed.
Lemma vfrfs_safe_witness :
  exists s0, FsInit boot_fs = Some (0, s0) /\ exists s', fs_exec_all demo_realloc (demo_calls ++ [CSeek 1 0 SEEK_SET; CRead 1 3; CDeleteRecursive path_a; CRead 1 3; CListDir [slash]]) s0 = Some s' /\ fs_ok s'.
Proof.
  destruct (vfrfs_safe demo_realloc (demo_calls ++ [CSeek 1 0 SEEK_SET; CRead 1 3; CDeleteRecursive path_a; CRead 1 3; CListDir [slash]])
    demo_realloc_ok) as (s0 & E & H); [by vm_compute|].
  exists s0. split; [exact E|]. apply H. rewrite FsInit_boot in E. injection E as <-. vm_compute. reflexivity.
Defined.

(** C35. [FsFind] is path resolution: it returns for every path, and what it returns is the result
    of cutting the path at its slashes (and after 63 bytes) and then walking from the root, where
    a dot stays, two dots go to the parent (the root's being itself) and any other name goes to
    the child of that name in the directory's listing. *)
Theorem FsFind_resolves s path : fs_ok s -> FsFind path s = Some (r ← root_node s; resolve s r (components [] path)).
Proof. intros (K & dep & r & HT & _). rewrite (FsFind_ok _ _ _ _ _ HT), (tk_root _ _ _ _ HT). done. Qed.
Lemma FsFind_resolves_witness : FsFind path_b demo_fs = Some (Some 2%nat) /\
  (r ← root_node demo_fs; resolve demo_fs r (components [] path_b)) = Some 2%nat.
Proof.
  assert (E : FsFind path_b demo_fs = Some (Some 2%nat)) by (vm_compute; reflexivity). split; [exact E|].
  pose proof (FsFind_resolves demo_fs path_b demo_ok) as H. rewrite E in H. symmetry. exact (inj Some _ _ H).
Defined.

(** A directory that is made can be found.  With a name of at most 62 bytes other than the
    two dot names, a parent directory that resolves, no entry of that name yet and a free node,
    [FsMkdir] succeeds; the new path then resolves to an empty directory, the parent's listing
    grows by it at the end, and every path that resolved before resolves to the same node. *)
Theorem FsMkdir_then_find s d nm p pn k kn : fs_ok s -> next_node_id s + 1 < 2 ^ 32 ->
  no_slash nm -> valid_name nm -> nm <> dot -> nm <> dotdot -> (length d < 256)%nat -> hd_error (d ++ [slash]) = Some slash ->
  FsFind (dir_part d) s = Some (Some p) -> get_node p s = Some pn -> ntype pn = FS_DIRECTORY ->
  FsFind (d ++ slash :: nm) s = Some None -> get_node k s = Some kn -> node_id kn = 0 ->
  exists i s', FsMkdir (d ++ slash :: nm) s = Some (0, s') /\ fs_ok s' /\ FsFind (d ++ slash :: nm) s' = Some (Some i) /\
    (exists n, get_node i s' = Some n /\ ntype n = FS_DIRECTORY /\ name n = nm /\ parent n = Some p) /\
    kids s' p = kids s p ++ [i] /\ kids s' i = [] /\
    forall q j, FsFind q s = Some (Some j) -> FsFind q s' = Some (Some j).
Proof.
  intros HOK Hid Hs Hv H1 H2 Hl Hd Hp Hpn Hty Hnone Hk Hz.
  destruct (FsCreateNode_new s d nm FS_DIRECTORY p pn k kn) as (EP & i & s' & EC & [Hok Hf (nd & l & _ & _ & Hi) _ Hkp Hki Hq _]); [done..|].
  exists i, s'. unfold FsMkdir. rewrite EP, option_bind_Some, EC, option_bind_Some. split_and!; try done. by eexists.
Qed.
(** A directory [d] in [/a]. *)
Lemma FsMkdir_then_find_witness : exists i s', FsMkdir (path_a ++ [47; 100]) demo_fs = Some (0, s') /\
  FsFind (path_a ++ [47; 100]) s' = Some (Some i) /\ FsFind path_b s' = Some (Some 2%nat).
Proof.
  assert (G : exists pn kn, get_node 1 demo_fs = Some pn /\ ntype pn = FS_DIRECTORY /\ get_node 100 demo_fs = Some kn /\ node_id kn = 0)
    by (vm_compute; do 2 eexists; split_and!; reflexivity).
  destruct G as (pn & kn & G1 & G2 & G3 & G4).
  destruct (FsMkdir_then_find demo_fs path_a [100] 1 pn 100 kn demo_ok) as (i & s' & H1 & _ & H2 & _ & _ & _ & H3);
    [by vm_compute|by repeat constructor|by split; [|cbn; lia]|done|done|cbn; lia|done|by vm_compute|done|done|by vm_compute|done|done|].
  exists i, s'. split_and!; [exact H1|exact H2|]. apply H3. vm_compute. reflexivity.
Defined.

(** C37. What is written is read back.  When [FsWrite] through a handle open for both succeeds, it
    returns the number of bytes; the file's contents are the old ones with the buffer at the
    handle's position, grown if needed, and no other node changes.  Seeking back to the old
    position and reading that many bytes then yields the buffer. *)
Theorem write_seek_read realloc s f h x i n buf z s1 : realloc_ok realloc -> fs_ok s ->
  GetHandle f s = Some (Some h) -> file_handles s !! h = Some x -> has (hflags x) FS_WRITE = true -> has (hflags x) FS_READ = true ->
  hnode x = Some i -> get_node i s = Some n -> buf <> [] -> Z.of_nat (length buf) < 2 ^ 31 ->
  FsWrite realloc f buf s = Some (z, s1) -> z <> -1 ->
  z = Z.of_nat (length buf) /\
  (exists d, write_at (position x) buf (default [] (data n)) d /\ get_node i s1 = Some (set_content (Some d) (Z.of_nat (length d)) n)) /\
  (forall k, k <> i -> get_node k s1 = get_node k s) /\
  exists s2 s3, FsSeek f (position x) SEEK_SET s1 = Some (position x, s2) /\ FsRead f (Z.of_nat (length buf)) s2 = Some (z, buf, s3).
Proof.
  intros HR (K & dep & r & HI) HG Hx HW HRd Hi Hn Hb Hl EW Hz. assert (Hlb : length buf <> 0%nat) by (by destruct buf).
  assert (Hi32 : i32 (Z.of_nat (length buf)) = Z.of_nat (length buf)) by (unfold i32; wsimp; by rewrite (proj2 (Z.ltb_lt _ _) Hl)).
  destruct (write_cases realloc HR _ _ _ _ _ _ _ _ _ _ HI HG Hx HW Hi Hn Hb) as [[E _]|[[E _]|(d & t1 & t2 & E & Hd & _ & Hi1 & Ho1 & Hf1 & _ & EP & HI2 & _)]]; [lia|congruence|congruence|].
  rewrite E in EW. injection EW as <- <-. rewrite Hi32. rewrite <- Hf1 in Hx. destruct (set_position_keeps _ _ _ _ _ Hx EP) as (Hx2 & Hns & HG2).
  pose proof (hk_pos _ (ak_handle _ (fi_aux _ _ _ _ HI) _ _ ltac:(by rewrite Hf1 in Hx; exact Hx))) as Hpos.
  assert (Hi2 : get_node i t2 = Some (set_content (Some d) (Z.of_nat (length d)) n)) by (unfold get_node; rewrite Hns; exact Hi1).
  assert (Hsz : size (set_content (Some d) (Z.of_nat (length d)) n) < 2 ^ 63) by apply (ak_content _ (fi_aux _ _ _ _ HI2) _ _ Hi2). cbn in Hsz.
  assert (HGt : GetHandle f t2 = Some (Some h)).
  { rewrite HG2, <- HG. apply GetHandle_ext. intros k. by rewrite Hf1. }
  split; [done|]. split; [eauto|]. split; [intros k Hk; unfold get_node; rewrite Hns; by apply Ho1|].
  destruct (inv_position _ _ _ _ _ _ (position x) HI2 Hx2 Hpos) as (s2 & E2 & _). destruct (set_position_keeps _ _ _ _ _ Hx2 E2) as (Hx3 & Hns3 & HG3).
  destruct Hd as (Hd1 & _ & _ & Hd3). unfold FsSeek, FsRead. rewrite HGt, option_bind_Some, Hx2, option_bind_Some. cbn [hnode]. rewrite Hi, Hi2, option_bind_Some.
  cbn [Z.eqb SEEK_SET]. rewrite (proj2 (Z.ltb_ge _ _) (proj1 Hpos)), (u64_small (position x)), E2, option_bind_Some by lia. exists s2.
  rewrite HG3, HGt, option_bind_Some, Hx3, option_bind_Some. cbn [hflags hnode position]. rewrite HRd, Hi. cbn [negb].
  assert (Hi3 : get_node i s2 = get_node i t2) by (unfold get_node; by rewrite Hns3). rewrite Hi3, Hi2, option_bind_Some. cbn [data size set_content].
  rewrite (u64_small (Z.of_nat (length d) - position x)) by lia.
  rewrite (proj2 (Z.ltb_ge (Z.of_nat (length d) - position x) _)) by lia. rewrite (proj2 (Z.ltb_lt 0 _)) by lia.
  rewrite mem_read_ok by lia. rewrite option_bind_Some. unfold set_position. rewrite Hx3, !option_bind_Some, Hi32.
  eexists. split; [done|]. rewrite Hd1, Nat2Z.id. do 3 f_equal. rewrite drop_app_length' by (rewrite length_take; lia). by rewrite take_app_length.
Qed.
(** Two bytes written at position 3 of [/a/b], through the handle left by its opening. *)
Lemma write_seek_read_witness : exists s1 s2 s3, FsWrite demo_realloc 1 [40; 50] demo_fs = Some (2, s1) /\
  FsSeek 1 3 SEEK_SET s1 = Some (3, s2) /\ FsRead 1 2 s2 = Some (2, [40; 50], s3).
Proof.
  assert (G : exists x n s1, file_handles demo_fs !! 0%nat = Some x /\ has (hflags x) FS_WRITE = true /\ has (hflags x) FS_READ = true /\
      hnode x = Some 2%nat /\ position x = 3 /\ get_node 2 demo_fs = Some n /\ FsWrite demo_realloc 1 [40; 50] demo_fs = Some (2, s1))
    by (vm_compute; do 3 eexists; split_and!; reflexivity).
  destruct G as (x & n & s1 & G1 & G2 & G3 & G4 & G5 & G6 & G7).
  destruct (write_seek_read demo_realloc demo_fs 1 0 x 2 n [40; 50] 2 s1 demo_realloc_ok demo_ok) as (_ & _ & _ & s2 & s3 & H1 & H2);
    [by vm_compute|exact G1|exact G2|exact G3|exact G4|exact G6|done|by vm_compute|exact G7|done|].
  exists s1, s2, s3. rewrite G5 in H1. split_and!; [exact G7|exact H1|exact H2].
Defined.

(** C38. Recursive deletion removes a subtree and nothing else.  For a path that resolves to a node
    other than the root, [FsDeleteRecursive] terminates with success; every descendant of the node
    (itself included) is cleared, every other node keeps its name, type, contents, parent and
    identifier, the parent's listing loses exactly the node, every other listing is unchanged, and
    the tree is well formed.  [FsDelete] does the same to a node without children and refuses
    every other one without a change. *)
Theorem FsDeleteRecursive_correct s path i n p : fs_ok s -> FsFind path s = Some (Some i) -> get_node i s = Some n -> parent n = Some p ->
  exists s', FsDeleteRecursive path s = Some (0, s') /\ fs_ok s' /\
    (forall x, descends s i x -> get_node x s' = Some zero_fsnode) /\
    (forall x xn, get_node x s = Some xn -> ~ descends s i x -> (exists xn', get_node x s' = Some xn' /\ same_node xn xn') /\
       kids s' x = if decide (x = p) then filter (fun j => j <> i) (kids s p) else kids s x) /\
    ~ descends s i p /\
    FsDelete path s = if decide (kids s i = []) then Some (0, s') else Some (-1, s).
Proof.
  intros (K & dep & r & HI) HF Hn Hp. pose proof (fi_tree _ _ _ _ HI) as HT.
  destruct (FsFind_live _ _ _ _ _ _ HT HF) as (n' & Hn' & Hid). rewrite Hn in Hn'. injection Hn' as <-.
  destruct (removal_ok _ _ _ _ _ _ _ HI Hn Hp) as (s1 & s' & l1 & l2 & EU & ED & Es & HL & HS & HR). exists s'.
  pose proof (proj2 (kid_parent _ _ _ _ _ _ _ HT Hn) Hp) as Hk. destruct (kid_in _ _ _ _ _ _ HT Hk) as (Hdi & _).
  destruct (kid_dir _ _ _ _ _ _ HT Hk) as (pn & Hpn & _).
  assert (HD : forall x, x ∈ subtree K del_fuel i <-> descends s i x).
  { intros x. apply (subtree_descends _ _ _ _ HT); [by exists n|]. rewrite (tk_dep _ _ _ _ HT). unfold del_fuel. lia. }
  split_and!.
  - unfold FsDeleteRecursive. rewrite HF, option_bind_Some, Hn, option_bind_Some, Hp, EU, option_bind_Some. unfold del_fuel in ED. by rewrite ED.
  - do 3 eexists. apply (rm_inv _ _ _ _ _ _ _ _ _ HR).
  - intros x Hx%HD. by apply (rm_gone _ _ _ _ _ _ _ _ _ HR).
  - intros x xn Hxn Hx. rewrite <- HD in Hx. split; [by apply (rm_kept _ _ _ _ _ _ _ _ _ HR)|].
    rewrite (removal_kids _ _ _ _ _ _ _ _ _ _ _ HI HR Hx Hxn). case_decide; [|done].
    rewrite (kids_ok _ _ _ _ _ _ HT Hpn), (rm_split _ _ _ _ _ _ _ _ _ HR). symmetry. apply filter_cut.
    rewrite <- (rm_split _ _ _ _ _ _ _ _ _ HR). apply HT.
  - rewrite <- HD. apply (rm_parent _ _ _ _ _ _ _ _ _ HR).
  - unfold FsDelete. rewrite HF, option_bind_Some, Hn, option_bind_Some, Hp, (kids_ok _ _ _ _ _ _ HT Hn). pose proof (tk_node _ _ _ _ HT _ _ Hn) as HO.
    rewrite (nk_children _ _ _ _ HO). destruct (decide (K i = [])) as [E|E].
    + rewrite E. rewrite (bool_decide_false (hd_error [] <> None)) by (intros HX; by apply HX). rewrite andb_false_r.
      by rewrite EU, option_bind_Some, (FsDelete_leaf s K dep r i n p s1 s').
    + rewrite !bool_decide_true; [done|by destruct (K i)|by apply HO].
Qed.
(** [/a] with its two children. *)
Lemma FsDeleteRecursive_correct_witness : exists s', FsDeleteRecursive path_a demo_fs = Some (0, s') /\
  get_node 2 s' = Some zero_fsnode /\ kids s' 0 = [] /\ FsDelete path_a demo_fs = Some (-1, demo_fs).
Proof.
  assert (G : exists n, get_node 1 demo_fs = Some n /\ parent n = Some 0%nat) by (vm_compute; eexists; split; reflexivity). destruct G as (n & G1 & G2).
  assert (G0 : exists n, get_node 0 demo_fs = Some n) by (vm_compute; eexists; reflexivity). destruct G0 as (n0 & G0).
  destruct (FsDeleteRecursive_correct demo_fs path_a 1 n 0 demo_ok) as (s' & H1 & _ & H2 & H3 & H4 & H5); [by vm_compute|exact G1|exact G2|].
  exists s'. split; [exact H1|]. split; [apply H2; exists 1%nat; vm_compute; reflexivity|]. split.
  - destruct (H3 0%nat n0 G0 H4) as [_ E]. rewrite E. vm_compute. reflexivity.
  - rewrite H5. rewrite decide_False; [reflexivity|]. vm_compute. discriminate.
Defined.
