(* ===== verification/StringOps.v ===== *)
(** The string functions of [src/kernel/etc/StringOps.c], on a flat memory of bytes.

    An address is an index of the memory and a pointer is an optional address, [None] being NULL.
    An access outside the memory makes a function return [None].  A loop over a string runs on
    fuel one above the memory's size, which it cannot outlast without leaving the memory.
    The block that [strtok] allocates is an object of its own. *)
From Stdlib Require Import ZArith Lia.
From stdpp Require Import base tactics list numbers option.
From S2P Require Import Prelude.

Definition store (a : nat) (v : Z) (m : bytes) : option bytes :=
  if (a <? length m)%nat then Some (<[a := u8 v]> m) else None.
Definition mem_fuel (m : bytes) : nat := S (length m).
(** A string up to the first [c]: what is left of it when a NUL is stored there. *)
Fixpoint before (c : Z) (s : bytes) : bytes := match s with [] => [] | x :: s' => if x =? c then [] else x :: before c s' end.

(** ** Length and comparison *)
Fixpoint strlen_loop (fuel : nat) (m : bytes) (a : nat) (len : Z) : option Z :=
  match fuel with
  | O => None
  | S f => c ← m !! a; if c =? 0 then Some len else strlen_loop f m (S a) (len + 1)
  end.
(** The counter is a C [int]: this is the function for strings shorter than 2^31 bytes. *)
Definition StringLength (str : option nat) (m : bytes) : option Z :=
  match str with None => Some 0 | Some a => strlen_loop (mem_fuel m) m a 0 end.
Fixpoint strnlen_loop (fuel : nat) (m : bytes) (a : nat) (i max : Z) : option Z :=
  match fuel with
  | O => None
  | S f =>
      if i <? max then (c ← m !! a; if c =? 0 then Some i else strnlen_loop f m (S a) (i + 1) max) else Some i
  end.
Definition FastStrlen (s : option nat) (max : Z) (m : bytes) : option Z :=
  match s with None => Some 0 | Some a => strnlen_loop (mem_fuel m) m a 0 max end.

(** The result for NULL arguments. *)
Definition null_cmp (a b : option nat) : Z :=
  match a, b with None, None => 0 | None, _ => -1 | Some _, None => 1 | Some x, Some y => if (x =? y)%nat then 0 else 1 end.
Fixpoint strncmp_loop (fuel : nat) (m : bytes) (a b : nat) (n : Z) : option Z :=
  match fuel with
  | O => None
  | S f =>
      if n =? 0 then Some 0 else
      x ← m !! a;
      if x =? 0 then (y ← m !! b; Some (x - y)) else
      y ← m !! b;
      if x =? y then strncmp_loop f m (S a) (S b) (n - 1) else Some (x - y)
  end.
Definition FastStrnCmp (str1 str2 : option nat) (n : Z) (m : bytes) : option Z :=
  match str1, str2 with
  | Some a, Some b => if n =? 0 then Some 0 else strncmp_loop (mem_fuel m) m a b n
  | _, _ => Some (null_cmp str1 str2)
  end.
Fixpoint strcmp_loop (fuel : nat) (m : bytes) (a b : nat) : option Z :=
  match fuel with
  | O => None
  | S f =>
      x ← m !! a;
      if x =? 0 then (y ← m !! b; Some (x - y)) else
      y ← m !! b;
      if x =? y then strcmp_loop f m (S a) (S b) else Some (x - y)
  end.
Definition FastStrCmp (str1 str2 : option nat) (m : bytes) : option Z :=
  match str1, str2 with
  | Some a, Some b => strcmp_loop (mem_fuel m) m a b
  | _, _ => Some (null_cmp str1 str2)
  end.
Fixpoint strchr_loop (fuel : nat) (m : bytes) (a : nat) (target : Z) : option (option nat) :=
  match fuel with
  | O => None
  | S f =>
      c ← m !! a;
      if c =? 0 then Some (if target =? 0 then Some a else None)
      else if c =? target then Some (Some a) else strchr_loop f m (S a) target
  end.
Definition FastStrChr (str : nat) (c : Z) (m : bytes) : option (option nat) := strchr_loop (mem_fuel m) m str (u8 c).

(** ** Copying *)
Fixpoint strncpy_loop (fuel : nat) (d s : nat) (i max : Z) (m : bytes) : option bytes :=
  match fuel with
  | O => None
  | S f =>
      if i + 1 <? max then
        c ← m !! s;
        if c =? 0 then store d 0 m else (m' ← store d c m; strncpy_loop f (S d) (S s) (i + 1) max m')
      else store d 0 m
  end.
Definition strncpy (dest src : option nat) (max_len : Z) (m : bytes) : option bytes :=
  match dest, src with
  | Some d, Some s => strncpy_loop (mem_fuel m) d s 0 max_len m
  | _, _ => Some m
  end.
Definition FastStrCopy (dst src : option nat) (max_len : Z) (m : bytes) : option bytes := strncpy dst src max_len m.

(** The loop that copies bytes up to and including the terminator. *)
Fixpoint copy_bytes (fuel : nat) (d s : nat) (m : bytes) : option bytes :=
  match fuel with
  | O => None
  | S f => c ← m !! s; m' ← store d c m; if c =? 0 then Some m' else copy_bytes f (S d) (S s) m'
  end.
(** Little-endian 64-bit accesses. *)
Fixpoint load_le (n : nat) (a : nat) (m : bytes) : option Z :=
  match n with
  | O => Some 0
  | S n' => b ← m !! a; r ← load_le n' (S a) m; Some (b + 2 ^ 8 * r)
  end.
Definition load64 : nat -> bytes -> option Z := load_le 8.
Fixpoint store_le (n : nat) (a : nat) (v : Z) (m : bytes) : option bytes :=
  match n with
  | O => Some m
  | S n' => m' ← store a v m; store_le n' (S a) (Z.shiftr v 8) m'
  end.
Definition store64 : nat -> Z -> bytes -> option bytes := store_le 8.
Definition has_zero_byte (val : Z) : bool :=
  (Z.land val 0xFF00000000000000 =? 0) || (Z.land val 0x00FF000000000000 =? 0) ||
  (Z.land val 0x0000FF0000000000 =? 0) || (Z.land val 0x000000FF00000000 =? 0) ||
  (Z.land val 0x00000000FF000000 =? 0) || (Z.land val 0x0000000000FF0000 =? 0) ||
  (Z.land val 0x000000000000FF00 =? 0) || (Z.land val 0x00000000000000FF =? 0).
Fixpoint copy_words (fuel : nat) (d s : nat) (m : bytes) : option bytes :=
  match fuel with
  | O => None
  | S f =>
      val ← load64 s m;
      if val =? 0 then store d 0 m
      else if has_zero_byte val then copy_bytes (mem_fuel m) d s m
      else (m' ← store64 d val m; copy_words f (8 + d)%nat (8 + s)%nat m')
  end.
Definition strcpy (dest src : option nat) (m : bytes) : option bytes :=
  match dest, src with
  | Some d, Some s =>
      if (Z.land (Z.of_nat d) 7 =? 0) && (Z.land (Z.of_nat s) 7 =? 0) then copy_words (mem_fuel m) d s m
      else copy_bytes (mem_fuel m) d s m
  | _, _ => Some m
  end.
Fixpoint string_end (fuel : nat) (a : nat) (m : bytes) : option nat :=
  match fuel with
  | O => None
  | S f => c ← m !! a; if c =? 0 then Some a else string_end f (S a) m
  end.
Definition strcat (dest src : option nat) (m : bytes) : option bytes :=
  match dest, src with
  | Some d, Some _ => e ← string_end (mem_fuel m) d m; strcpy (Some e) src m
  | _, _ => Some m
  end.

(** ** Numbers *)
Definition hex_char (k : Z) : Z := if k <? 10 then 48 + k else 55 + k.
Fixpoint store_all (a : nat) (l : list Z) (m : bytes) : option bytes :=
  match l with
  | [] => Some m
  | c :: l' => m' ← store a c m; store_all (S a) l' m'
  end.
Definition hex_digits (n : Z) : list Z :=
  (fun k => hex_char (Z.land (Z.shiftr n k) 15)) <$> [60; 56; 52; 48; 44; 40; 36; 32; 28; 24; 20; 16; 12; 8; 4; 0].
Definition htoa (n : Z) (buffer : option nat) (m : bytes) : option bytes :=
  match buffer with
  | None => Some m
  | Some a => store_all a ([48; 120] ++ hex_digits n ++ [0]) m
  end.
(** The digits are stored downwards from [p]; the result is the address of the first. *)
Fixpoint itoa_loop (fuel : nat) (n : Z) (p : nat) (m : bytes) : option (nat * bytes) :=
  match fuel with
  | O => None
  | S f =>
      if 10 <=? n then
        let q := n / 10 in
        m' ← store (p - 1) (48 + (n - q * 10)) m; itoa_loop f q (p - 1) m'
      else m' ← store (p - 1) (48 + n) m; Some ((p - 1)%nat, m')
  end.
(** [temp_buffer] is the address of the 21-byte array on the stack; a word has at most 20 digits. *)
Definition itoa (temp_buffer : nat) (n : Z) (buffer : nat) (m : bytes) : option bytes :=
  if n =? 0 then (m1 ← store buffer 48 m; store (S buffer) 0 m1)
  else
    m1 ← store (temp_buffer + 20) 0 m;
    r ← itoa_loop 20 n (temp_buffer + 20) m1;
    let '(p, m2) := (r : nat * bytes) in strcpy (Some buffer) (Some p) m2.

(** ** Tokens *)
Fixpoint member_loop (fuel : nat) (m : bytes) (c : Z) (a : nat) : option bool :=
  match fuel with
  | O => None
  | S f => x ← m !! a; if x =? 0 then Some false else if c =? x then Some true else member_loop f m c (S a)
  end.
Fixpoint strspn_loop (fuel : nat) (m : bytes) (p accept : nat) (count : Z) : option Z :=
  match fuel with
  | O => None
  | S f =>
      c ← m !! p;
      if c =? 0 then Some count else
      b ← member_loop (mem_fuel m) m c accept;
      if (b : bool) then strspn_loop f m (S p) accept (count + 1) else Some count
  end.
Definition strspn (s accept : nat) (m : bytes) : option Z := strspn_loop (mem_fuel m) m s accept 0.
Fixpoint strpbrk_loop (fuel : nat) (m : bytes) (p ct : nat) : option (option nat) :=
  match fuel with
  | O => None
  | S f =>
      c ← m !! p;
      if c =? 0 then Some None else
      b ← member_loop (mem_fuel m) m c ct;
      if (b : bool) then Some (Some p) else strpbrk_loop f m (S p) ct
  end.
Definition strpbrk (cs ct : nat) (m : bytes) : option (option nat) := strpbrk_loop (mem_fuel m) m cs ct.
(** The token, the new value of [*s], and the memory. *)
Definition strsep (s : option nat) (ct : nat) (m : bytes) : option (option nat * option nat * bytes) :=
  match s with
  | None => Some (None, None, m)
  | Some sbegin =>
      e ← strpbrk sbegin ct m;
      match e with
      | Some e => m' ← store e 0 m; Some (Some sbegin, Some (S e), m')
      | None => Some (Some sbegin, None, m)
      end
  end.

(** The loop of [strtok]: the block with the token and its terminator, and the new [input]. *)
Fixpoint strtok_loop (fuel : nat) (m : bytes) (input i : nat) (d : Z) (result : bytes) : option (bytes * option nat) :=
  match fuel with
  | O => None
  | S f =>
      c ← m !! (input + i)%nat;
      if c =? 0 then result' ← store i 0 result; Some (result', None) else
      if negb (c =? u8 d) then result' ← store i c result; strtok_loop f m input (S i) d result'
      else result' ← store i 0 result; Some (result', Some (input + i + 1)%nat)
  end.
(** [input] is the static variable, [heap] the outcomes of the coming allocations.  The result
    block, or NULL, the new [input] and the heap; a store through a NULL result is a fault. *)
Definition strtok (s : option nat) (d : Z) (input : option nat) (heap : list (option bytes)) (m : bytes) : option (option bytes * option nat * list (option bytes)) :=
  match (match s with Some _ => s | None => input end) with
  | None => Some (None, None, heap)
  | Some a =>
      n ← StringLength (Some a) m;
      let r := heap_alloc (n + 1) heap in
      result ← r.1;
      t ← strtok_loop (mem_fuel m) m a 0 d result;
      Some (Some t.1, t.2, r.2)
  end.
