(* ===== verification/StringProps.v ===== *)
(** The string functions against strings as lists of bytes. *)
From Stdlib Require Import ZArith Lia.
From stdpp Require Import base tactics list numbers option.
From S2P Require Import Prelude Vfrfs StringOps.

(** ** Strings in memory *)
(** [s] lies at [a], followed by its terminator. *)
Definition str_at (m : bytes) (a : nat) (s : list Z) : Prop := forall k, (k <= length s)%nat -> m !! (a + k)%nat = (s ++ [0]) !! k.
Definition chars (s : list Z) : Prop := Forall (fun c => 0 < c < 256) s.
(** The memory after writing a string at [d]: nothing else changes. *)
Record copied (m m' : bytes) (d : nat) (s : list Z) : Prop := {
  cp_len : length m' = length m;
  cp_str : str_at m' d s;
  cp_rest : forall a, (a < d \/ d + length s < a)%nat -> m' !! a = m !! a
}.
Lemma str_at_nil m a : str_at m a [] <-> m !! a = Some 0.
Proof.
  split; [intros H; specialize (H 0%nat); rewrite Nat.add_0_r in H; by apply H|].
  intros H k Hk. cbn in Hk. assert (k = 0%nat) as -> by lia. by rewrite Nat.add_0_r.
Qed.
Lemma str_at_cons m a c s : str_at m a (c :: s) <-> m !! a = Some c /\ str_at m (S a) s.
Proof.
  split.
  - intros H. split; [specialize (H 0%nat); rewrite Nat.add_0_r in H; apply H; cbn; lia|]. intros k Hk.
    specialize (H (S k)). rewrite Nat.add_succ_r in H. apply H. cbn. lia.
  - intros [H1 H2] [|k] Hk; [by rewrite Nat.add_0_r|]. rewrite Nat.add_succ_r. apply (H2 k). cbn in Hk. lia.
Qed.
Lemma str_at_bound m a s : str_at m a s -> (a + length s < length m)%nat.
Proof.
  intros H. specialize (H (length s) (le_n _)). rewrite list_lookup_middle in H by done. by apply lookup_lt_Some in H.
Qed.
Lemma str_at_ext m m' a s : (forall k, (k <= length s)%nat -> m' !! (a + k)%nat = m !! (a + k)%nat) -> str_at m a s -> str_at m' a s.
Proof. intros E H k Hk. rewrite E by done. by apply H. Qed.
Lemma store_ok a v m : (a < length m)%nat -> 0 <= v < 256 -> store a v m = Some (<[a := v]> m).
Proof. intros H Hv. unfold store. rewrite (proj2 (Nat.ltb_lt _ _) H). by rewrite u8_small by lia. Qed.
(** Two stretches of memory, from [a] to [a + n] and from [b] to [b + k], do not meet. *)
Definition apart (a n b k : nat) : Prop := (a + n < b \/ b + k < a)%nat.

(** ** Length and comparison *)
Lemma strlen_loop_ok s : forall m a f len, str_at m a s -> chars s -> (length s < f)%nat -> strlen_loop f m a len = Some (len + Z.of_nat (length s)).
Proof.
  induction s as [|c s IH]; intros m a f len HA HC Hf; (destruct f as [|f]; [lia|]); cbn [strlen_loop length] in *.
  - apply str_at_nil in HA. rewrite HA, option_bind_Some. cbn. f_equal. lia.
  - apply str_at_cons in HA as [Hc HA]. apply Forall_cons_iff in HC as [Hr HC]. rewrite Hc, option_bind_Some, (proj2 (Z.eqb_neq c 0)) by lia.
    rewrite IH by (try done; lia). f_equal. lia.
Qed.
Lemma StringLength_ok m a s : str_at m a s -> chars s -> StringLength (Some a) m = Some (Z.of_nat (length s)).
Proof. intros HA HC. pose proof (str_at_bound _ _ _ HA). unfold StringLength. rewrite (strlen_loop_ok s) by (try done; unfold mem_fuel; lia). done. Qed.
Lemma strcmp_loop_ok s : forall t m a b f, str_at m a s -> chars s -> str_at m b t -> chars t -> (length s < f)%nat ->
  exists z, strcmp_loop f m a b = Some z /\ (z = 0 <-> s = t).
Proof.
  induction s as [|c s IH]; intros t m a b f HA HC HB HD Hf; (destruct f as [|f]; [cbn in Hf; lia|]); cbn [strcmp_loop length] in *.
  - apply str_at_nil in HA. rewrite HA, option_bind_Some. cbn [Z.eqb]. destruct t as [|x t].
    + apply str_at_nil in HB. rewrite HB. by exists 0.
    + apply str_at_cons in HB as [Hx _]. apply Forall_cons_iff in HD as [? _]. rewrite Hx. exists (0 - x). split; [done|]. split; [lia|done].
  - apply str_at_cons in HA as [Hc HA]. apply Forall_cons_iff in HC as [Hr HC]. rewrite Hc, option_bind_Some, (proj2 (Z.eqb_neq c 0)) by lia.
    destruct t as [|x t].
    + apply str_at_nil in HB. rewrite HB, option_bind_Some, (proj2 (Z.eqb_neq c 0)) by lia. exists (c - 0). split; [done|]. split; [lia|done].
    + apply str_at_cons in HB as [Hx HB]. apply Forall_cons_iff in HD as [? HD]. rewrite Hx, option_bind_Some. destruct (Z.eqb_spec c x) as [->|Hn].
      * destruct (IH t m (S a) (S b) f) as (z & -> & Hz); try done; [lia|]. exists z. split; [done|]. rewrite Hz. split; congruence.
      * exists (c - x). split; [done|]. split; [lia|congruence].
Qed.

(** ** Byte-wise copies *)
Lemma copied_nil m d : (d < length m)%nat -> copied m (<[d := 0]> m) d [].
Proof.
  intros H. split; [apply length_insert|by apply str_at_nil, list_lookup_insert_eq|]. intros a Ha. apply list_lookup_insert_ne. cbn in Ha. lia.
Qed.
Lemma copied_cons m m' d c s : (d < length m)%nat -> copied (<[d := c]> m) m' (S d) s -> copied m m' d (c :: s).
Proof.
  intros Hd [HL HS HR]. rewrite length_insert in HL. split; [done| |].
  - apply str_at_cons. split; [|done]. rewrite HR by lia. by apply list_lookup_insert_eq.
  - intros a Ha. cbn [length] in Ha. rewrite HR by lia. apply list_lookup_insert_ne. lia.
Qed.
Lemma str_at_insert m d v a s : apart d 0 a (length s) -> str_at m a s -> str_at (<[d := v]> m) a s.
Proof. intros H. apply str_at_ext. intros k Hk. apply list_lookup_insert_ne. unfold apart in H. lia. Qed.
Lemma strncpy_loop_ok s : forall m d a f i max, str_at m a s -> chars s -> i < max -> (length s < f)%nat ->
  (d + length (take (Z.to_nat (max - i - 1)) s) < length m)%nat -> apart d (length (take (Z.to_nat (max - i - 1)) s)) a (length s) ->
  exists m', strncpy_loop f d a i max m = Some m' /\ copied m m' d (take (Z.to_nat (max - i - 1)) s).
Proof.
  induction s as [|c s IH]; intros m d a f i max HA HC Hi Hf Hd HP; (destruct f as [|f]; [cbn in Hf; lia|]); cbn [strncpy_loop length] in *.
  - apply str_at_nil in HA. rewrite take_nil in *. cbn [length] in *.
    exists (<[d := 0]> m). split; [|by apply copied_nil; lia]. rewrite store_ok by lia. destruct (i + 1 <? max); [|done]. by rewrite HA.
  - destruct (Z.ltb_spec (i + 1) max) as [Hm|Hm].
    + apply str_at_cons in HA as [Hc HA]. apply Forall_cons_iff in HC as [Hr HC]. rewrite Hc, option_bind_Some, (proj2 (Z.eqb_neq c 0)) by lia.
      replace (Z.to_nat (max - i - 1)) with (S (Z.to_nat (max - (i + 1) - 1))) in * by lia. cbn [take length] in *. unfold apart in *.
      rewrite (store_ok d c), option_bind_Some by lia. destruct (IH (<[d := c]> m) (S d) (S a) f (i + 1) max) as (m' & E & HC'); try done; try lia.
      * apply str_at_insert; [unfold apart; lia|done].
      * rewrite length_insert. lia.
      * exists m'. split; [exact E|]. apply copied_cons; [lia|done].
    + replace (Z.to_nat (max - i - 1)) with 0%nat in * by lia. cbn [take length] in *. exists (<[d := 0]> m). rewrite store_ok by lia.
      split; [done|]. apply copied_nil. lia.
Qed.
Lemma copy_bytes_ok s : forall m d a f, str_at m a s -> chars s -> (length s < f)%nat -> (d + length s < length m)%nat -> apart d (length s) a (length s) ->
  exists m', copy_bytes f d a m = Some m' /\ copied m m' d s.
Proof.
  induction s as [|c s IH]; intros m d a f HA HC Hf Hd HP; (destruct f as [|f]; [cbn in Hf; lia|]); cbn [copy_bytes length] in *; unfold apart in *.
  - apply str_at_nil in HA. rewrite HA, option_bind_Some, store_ok, option_bind_Some by lia. eexists. split; [done|]. apply copied_nil. lia.
  - apply str_at_cons in HA as [Hc HA]. apply Forall_cons_iff in HC as [Hr HC]. rewrite Hc, option_bind_Some, store_ok, option_bind_Some by lia.
    rewrite (proj2 (Z.eqb_neq c 0)) by lia. destruct (IH (<[d := c]> m) (S d) (S a) f) as (m' & E & HC'); try done; try lia.
    + apply str_at_insert; [unfold apart; lia|done].
    + rewrite length_insert. lia.
    + exists m'. split; [exact E|]. apply copied_cons; [lia|done].
Qed.

(** ** Words *)
Definition byte_ok (b : Z) : Prop := 0 <= b < 256.
Fixpoint le_val (bs : list Z) : Z := match bs with [] => 0 | b :: r => b + 2 ^ 8 * le_val r end.
Lemma le_val_range bs : Forall byte_ok bs -> 0 <= le_val bs < 2 ^ (8 * Z.of_nat (length bs)).
Proof.
  induction 1 as [|b bs Hb _ IH]; cbn [le_val length]; [done|]. unfold byte_ok in Hb.
  replace (8 * Z.of_nat (S (length bs))) with (8 + 8 * Z.of_nat (length bs)) by lia. rewrite Z.pow_add_r by lia. nia.
Qed.
Lemma le_val_shift b r : byte_ok b -> u8 (b + 2 ^ 8 * r) = b /\ Z.shiftr (b + 2 ^ 8 * r) 8 = r.
Proof. intros Hb. unfold byte_ok, u8 in *. rewrite Z.shiftr_div_pow2 by lia. split; dlia. Qed.
Lemma load_le_ok n : forall a m, (a + n <= length m)%nat -> load_le n a m = Some (le_val (take n (drop a m))).
Proof.
  induction n as [|n IH]; intros a m H; cbn [load_le]; [done|].
  destruct (lookup_lt_is_Some_2 m a) as (b & Hb); [lia|]. rewrite Hb, option_bind_Some, IH, option_bind_Some by lia.
  by rewrite (drop_S _ _ _ Hb).
Qed.
Lemma store_le_ok bs : forall a m, Forall byte_ok bs -> (a + length bs <= length m)%nat ->
  exists m', store_le (length bs) a (le_val bs) m = Some m' /\ length m' = length m /\
    (forall k, (k < length bs)%nat -> m' !! (a + k)%nat = bs !! k) /\ (forall x, (x < a \/ a + length bs <= x)%nat -> m' !! x = m !! x).
Proof.
  induction bs as [|b bs IH]; intros a m HB HL; cbn [store_le length le_val] in *.
  { exists m. split_and!; try done. lia. }
  apply Forall_cons_iff in HB as [Hb HB]. destruct (le_val_shift b (le_val bs) Hb) as [E1 E2]. unfold store at 1.
  rewrite (proj2 (Nat.ltb_lt _ _)), option_bind_Some, E1, E2 by lia.
  destruct (IH (S a) (<[a := b]> m) HB) as (m' & -> & HL' & HK & HX); [rewrite length_insert; lia|]. rewrite length_insert in HL'.
  exists m'. split_and!; [done..| |].
  - intros [|k] Hk; [rewrite Nat.add_0_r, HX by lia; apply list_lookup_insert_eq; lia|].
    rewrite Nat.add_succ_r. apply (HK k). lia.
  - intros x Hx. rewrite HX by lia. apply list_lookup_insert_ne. lia.
Qed.
(** The eight masks test the eight bytes. *)
Lemma land_byte v k : 0 <= k -> (Z.land v (Z.shiftl 255 k) =? 0) = (u8 (Z.shiftr v k) =? 0).
Proof.
  intros Hk. assert (E : Z.land v (Z.shiftl 255 k) = Z.shiftl (u8 (Z.shiftr v k)) k).
  { apply Z.bits_inj'. intros j Hj. rewrite Z.land_spec, !Z.shiftl_spec by lia. unfold u8. change (2 ^ 8) with (2 ^ Z.of_nat 8).
    destruct (Z.ltb_spec j k).
    - rewrite !(Z.testbit_neg_r _ (j - k)) by lia. by rewrite andb_false_r.
    - change 255 with (Z.ones 8). destruct (Z.ltb_spec (j - k) 8).
      + rewrite Z.ones_spec_low, Z.mod_pow2_bits_low, Z.shiftr_spec, andb_true_r by lia. f_equal. lia.
      + rewrite Z.ones_spec_high, Z.mod_pow2_bits_high, andb_false_r by lia. done. }
  rewrite E. pose proof (u8_range (Z.shiftr v k)). rewrite Z.shiftl_mul_pow2 by lia.
  destruct (Z.eqb_spec (u8 (Z.shiftr v k)) 0) as [->|Hne]; [done|]. apply Z.eqb_neq. assert (0 < 2 ^ k) by (apply Z.pow_pos_nonneg; lia). nia.
Qed.
Lemma le_val_byte bs : forall j b, Forall byte_ok bs -> bs !! j = Some b -> u8 (Z.shiftr (le_val bs) (8 * Z.of_nat j)) = b.
Proof.
  induction bs as [|x bs IH]; intros [|j] b HB H; try done; cbn [le_val]; apply Forall_cons_iff in HB as [Hx HB].
  - injection H as ->. cbn. by apply le_val_shift.
  - replace (8 * Z.of_nat (S j)) with (8 + 8 * Z.of_nat j) by lia. rewrite <- Z.shiftr_shiftr by lia.
    rewrite (proj2 (le_val_shift x _ Hx)). by apply IH.
Qed.
Lemma has_zero_byte_ok bs : length bs = 8%nat -> Forall byte_ok bs -> has_zero_byte (le_val bs) = existsb (fun b => b =? 0) bs.
Proof.
  intros HL HB. destruct bs as [|b0 [|b1 [|b2 [|b3 [|b4 [|b5 [|b6 [|b7 [|]]]]]]]]]; try done. unfold has_zero_byte.
  change 0xFF00000000000000 with (Z.shiftl 255 (8 * Z.of_nat 7)). change 0x00FF000000000000 with (Z.shiftl 255 (8 * Z.of_nat 6)).
  change 0x0000FF0000000000 with (Z.shiftl 255 (8 * Z.of_nat 5)). change 0x000000FF00000000 with (Z.shiftl 255 (8 * Z.of_nat 4)).
  change 0x00000000FF000000 with (Z.shiftl 255 (8 * Z.of_nat 3)). change 0x0000000000FF0000 with (Z.shiftl 255 (8 * Z.of_nat 2)).
  change 0x000000000000FF00 with (Z.shiftl 255 (8 * Z.of_nat 1)). change 0x00000000000000FF with (Z.shiftl 255 (8 * Z.of_nat 0)).
  rewrite !land_byte by lia. rewrite (le_val_byte _ 7 b7), (le_val_byte _ 6 b6), (le_val_byte _ 5 b5), (le_val_byte _ 4 b4),
    (le_val_byte _ 3 b3), (le_val_byte _ 2 b2), (le_val_byte _ 1 b1), (le_val_byte _ 0 b0) by done.
  cbn [existsb]. by destruct (b0 =? 0), (b1 =? 0), (b2 =? 0), (b3 =? 0), (b4 =? 0), (b5 =? 0), (b6 =? 0), (b7 =? 0).
Qed.
Lemma le_val_zero bs : Forall byte_ok bs -> le_val bs = 0 -> Forall (fun b => b = 0) bs.
Proof.
  induction 1 as [|b bs Hb HB IH]; cbn [le_val]; [done|]. intros E. pose proof (le_val_range _ HB). unfold byte_ok in Hb.
  constructor; [lia|]. apply IH. lia.
Qed.

(** ** The word-wise copy *)
Lemma str_at_drop m a s : str_at m a s -> (8 <= length s)%nat -> take 8 (drop a m) = take 8 s /\ str_at m (8 + a) (drop 8 s).
Proof.
  intros H Hl. pose proof (str_at_bound _ _ _ H). split.
  - apply list_eq. intros k. destruct (decide (k < 8)%nat); [|rewrite !lookup_take_ge by lia; done].
    rewrite !lookup_take_lt, lookup_drop, H, lookup_app_l by lia. done.
  - intros k Hk. rewrite length_drop in Hk. replace (8 + a + k)%nat with (a + (8 + k))%nat by lia. rewrite H by lia.
    rewrite <- (take_drop 8 s) at 1. rewrite <- app_assoc, lookup_app_r by (rewrite length_take; lia). f_equal. rewrite length_take. lia.
Qed.
Lemma copied_word m m1 m' d s : (8 <= length s)%nat -> length m1 = length m ->
  (forall k, (k < 8)%nat -> m1 !! (d + k)%nat = take 8 s !! k) -> (forall x, (x < d \/ d + 8 <= x)%nat -> m1 !! x = m !! x) ->
  copied m1 m' (8 + d) (drop 8 s) -> copied m m' d s.
Proof.
  intros Hl HL HK HX [HL' HS HR]. rewrite length_drop in HR. split; [congruence| |].
  - intros k Hk. destruct (decide (k < 8)%nat) as [H8|H8].
    + rewrite HR, HK, lookup_take_lt, lookup_app_l by lia. done.
    + replace (d + k)%nat with (8 + d + (k - 8))%nat by lia. rewrite HS by (rewrite length_drop; lia).
      rewrite <- (take_drop 8 s) at 2. rewrite <- app_assoc, (lookup_app_r (take 8 s)) by (rewrite length_take; lia). f_equal. rewrite length_take. lia.
  - intros a Ha. rewrite HR by lia. apply HX. lia.
Qed.
Lemma copy_words_ok f : forall s m d a, str_at m a s -> chars s -> Forall byte_ok m -> (length s < f)%nat ->
  (a + 8 * (length s / 8 + 1) <= length m)%nat -> (d + length s < length m)%nat -> apart d (length s) a (length s) ->
  exists m', copy_words f d a m = Some m' /\ copied m m' d s.
Proof.
  induction f as [|f IH]; intros s m d a HA HC HM Hf Hcov Hd HP; [lia|]. cbn [copy_words]. unfold load64.
  assert (H8 : (a + 8 <= length m)%nat) by lia. rewrite load_le_ok, option_bind_Some by done.
  assert (HB : Forall byte_ok (take 8 (drop a m))) by (by apply Forall_take, Forall_drop).
  assert (HL8 : length (take 8 (drop a m)) = 8%nat) by (rewrite length_take, length_drop; lia). rewrite has_zero_byte_ok by done.
  assert (HA0 := HA). destruct (Z.eqb_spec (le_val (take 8 (drop a m))) 0) as [E0|E0].
  - assert (s = []) as ->.
    { destruct s as [|c s]; [done|]. apply str_at_cons in HA as [Hc _]. apply Forall_cons_iff in HC as [? _].
      pose proof (le_val_zero _ HB E0) as HZ. rewrite (drop_S _ _ _ Hc) in HZ. cbn in HZ. apply Forall_cons_iff in HZ as [? _]. lia. }
    cbn in Hd. exists (<[d := 0]> m). rewrite store_ok by lia. split; [done|]. apply copied_nil. lia.
  - destruct (existsb _ _) eqn:EX.
    + apply (copy_bytes_ok s); try done. pose proof (str_at_bound _ _ _ HA0). unfold mem_fuel. lia.
    + assert (Hl : (8 <= length s)%nat).
      { destruct (decide (8 <= length s)%nat); [done|]. exfalso. rewrite <- not_true_iff_false in EX. apply EX. apply existsb_exists. exists 0. split; [|done].
        apply list_elem_of_In, list_elem_of_lookup. exists (length s). rewrite lookup_take_lt, lookup_drop, HA0 by lia. by apply list_lookup_middle. }
      destruct (str_at_drop _ _ _ HA0 Hl) as [ET HA']. rewrite ET in *. unfold store64.
      pose proof (store_le_ok (take 8 s) d m HB) as HSt. rewrite HL8 in HSt.
      destruct HSt as (m1 & -> & HL1 & HK & HX); [lia|]. rewrite option_bind_Some.
      unfold apart in *. assert (Hdiv : (length s / 8 = S (length (drop 8 s) / 8))%nat).
      { rewrite length_drop. replace (length s) with (length s - 8 + 1 * 8)%nat at 1 by lia. rewrite Nat.div_add by lia. lia. }
      rewrite length_drop in Hdiv.
      assert (HM1 : Forall byte_ok m1).
      { apply Forall_lookup. intros k b Hb. destruct (decide (d <= k < d + 8)%nat) as [Hk|Hk].
        - replace k with (d + (k - d))%nat in Hb by lia. rewrite HK in Hb by lia. by eapply (Forall_lookup_1 _ _ _ _ HB).
        - rewrite HX in Hb by lia. by eapply (Forall_lookup_1 _ _ _ _ HM). }
      destruct (IH (drop 8 s) m1 (8 + d)%nat (8 + a)%nat) as (m' & E & HC'); rewrite ?length_drop, ?HL1; try lia; try done.
      * eapply str_at_ext; [|exact HA']. intros k Hk. apply HX. rewrite length_drop in Hk. lia.
      * by apply Forall_drop.
      * exists m'. split; [exact E|]. by eapply copied_word.
Qed.
Lemma strcpy_ok s m d a : str_at m a s -> chars s -> Forall byte_ok m -> (a + 8 * (length s / 8 + 1) <= length m)%nat ->
  (d + length s < length m)%nat -> apart d (length s) a (length s) -> exists m', strcpy (Some d) (Some a) m = Some m' /\ copied m m' d s.
Proof.
  intros HA HC HM H1 H2 H3. pose proof (str_at_bound _ _ _ HA). unfold strcpy. case_if E.
  - apply copy_words_ok; try done. unfold mem_fuel. lia.
  - apply copy_bytes_ok; try done. unfold mem_fuel. lia.
Qed.

(** ** Concatenation *)
Lemma string_end_ok s : forall m a f, str_at m a s -> chars s -> (length s < f)%nat -> string_end f a m = Some (a + length s)%nat.
Proof.
  induction s as [|c s IH]; intros m a f HA HC Hf; (destruct f as [|f]; [cbn in Hf; lia|]); cbn [string_end length] in *.
  - apply str_at_nil in HA. rewrite HA, Nat.add_0_r. done.
  - apply str_at_cons in HA as [Hc HA]. apply Forall_cons_iff in HC as [Hr HC]. rewrite Hc, option_bind_Some, (proj2 (Z.eqb_neq c 0)) by lia.
    rewrite IH by (try done; lia). f_equal. lia.
Qed.
Lemma str_at_app m a s t : str_at m a s -> (forall m', copied m m' (a + length s) t -> str_at m' a (s ++ t)).
Proof.
  intros HA m' [HL HS HR] k Hk. rewrite length_app in Hk. rewrite <- app_assoc. destruct (decide (k < length s)%nat) as [Hlt|Hge].
  - rewrite HR, HA, !lookup_app_l by lia. done.
  - rewrite (lookup_app_r s) by lia. rewrite <- HS by lia. f_equal. lia.
Qed.

(** ** Decimal digits *)
Definition dec_value (ds : list Z) : Z := foldl (fun acc c => acc * 10 + (c - 48)) 0 ds.
(** The decimal numeral of [n]: digits only, and no leading zero but that of zero itself. *)
Record decimal (ds : list Z) (n : Z) : Prop := {
  de_digits : Forall (fun c => 48 <= c <= 57) ds;
  de_value : dec_value ds = n;
  de_lead : hd_error ds <> Some 48 \/ ds = [48]
}.
Lemma itoa_loop_ok f : forall n p m, 0 < n < 10 ^ Z.of_nat f -> (f <= p)%nat -> (p <= length m)%nat ->
  exists ds m', itoa_loop f n p m = Some ((p - length ds)%nat, m') /\ (1 <= length ds <= f)%nat /\ length m' = length m /\
    (forall k, (k < length ds)%nat -> m' !! (p - length ds + k)%nat = ds !! k) /\
    (forall x, (x < p - length ds \/ p <= x)%nat -> m' !! x = m !! x) /\
    Forall (fun c => 48 <= c <= 57) ds /\ dec_value ds = n /\ hd_error ds <> Some 48.
Proof.
  induction f as [|f IH]; intros n p m Hn Hf Hp; [cbn in Hn; lia|]. cbn [itoa_loop].
  destruct (Z.leb_spec 10 n) as [H10|H10].
  - rewrite Nat2Z.inj_succ, Z.pow_succ_r in Hn by lia. assert (Hd : 0 <= n - n / 10 * 10 < 10) by dlia.
    rewrite store_ok, option_bind_Some by lia.
    destruct (IH (n / 10) (p - 1)%nat (<[(p - 1)%nat := 48 + (n - n / 10 * 10)]> m)) as (ds & m' & E & Hl & HL & HK & HX & HF & HV & HH);
      [dlia|lia|rewrite length_insert; lia|]. rewrite length_insert in HL.
    exists (ds ++ [48 + (n - n / 10 * 10)]), m'. rewrite length_app. cbn [length]. split_and!; try lia.
    + rewrite E. do 2 f_equal. lia.
    + intros k Hk. replace (p - (length ds + 1) + k)%nat with (p - 1 - length ds + k)%nat by lia.
      destruct (decide (k < length ds)%nat) as [Hlt|Hge]; [rewrite HK, lookup_app_l by lia; done|].
      assert (k = length ds) as -> by lia. rewrite list_lookup_middle by done.
      replace (p - 1 - length ds + length ds)%nat with (p - 1)%nat by lia. rewrite HX by lia. apply list_lookup_insert_eq. lia.
    + intros x Hx. rewrite HX by lia. apply list_lookup_insert_ne. lia.
    + apply Forall_app. split; [done|]. constructor; [lia|constructor].
    + unfold dec_value in *. rewrite foldl_app, HV. cbn. lia.
    + destruct ds; [cbn in Hl; lia|done].
  - rewrite store_ok, option_bind_Some by lia. exists [48 + n], (<[(p - 1)%nat := 48 + n]> m). cbn [length]. split_and!; try lia; try done.
    + apply length_insert.
    + intros k Hk. assert (k = 0%nat) as -> by lia. rewrite Nat.add_0_r. apply list_lookup_insert_eq. lia.
    + intros x Hx. apply list_lookup_insert_ne. lia.
    + constructor; [lia|constructor].
    + cbn. lia.
    + cbn. intros [= E]. lia.
Qed.
Lemma digits_chars ds : Forall (fun c => 48 <= c <= 57) ds -> chars ds.
Proof. apply Forall_impl. intros c Hc. lia. Qed.
(** Only the buffer and the temporary array change. *)
Lemma itoa_ok n tmp buf m : 0 <= n < 2 ^ 64 -> Forall byte_ok m -> (tmp + 28 <= length m)%nat -> (buf + 21 <= length m)%nat -> apart buf 20 tmp 20 ->
  exists ds m', itoa tmp n buf m = Some m' /\ str_at m' buf ds /\ decimal ds n /\ (length ds <= 20)%nat /\
    forall x, (x < buf \/ buf + 20 < x)%nat -> (x < tmp \/ tmp + 20 < x)%nat -> m' !! x = m !! x.
Proof.
  intros Hn HM Ht Hb HP. unfold itoa. destruct (Z.eqb_spec n 0) as [->|Hn0].
  - rewrite !store_ok, option_bind_Some, store_ok by (rewrite ?length_insert; lia). exists [48], (<[S buf := 0]> (<[buf := 48]> m)). split_and!; try done.
    + apply str_at_cons. split; [|apply str_at_nil; apply list_lookup_insert_eq; rewrite length_insert; lia].
      rewrite list_lookup_insert_ne by lia. apply list_lookup_insert_eq. lia.
    + split; [by repeat constructor|done|by right].
    + cbn. lia.
    + intros x H1 _. rewrite !list_lookup_insert_ne by lia. done.
  - rewrite store_ok, option_bind_Some by lia. set (m1 := <[(tmp + 20)%nat := 0]> m).
    destruct (itoa_loop_ok 20 n (tmp + 20) m1) as (ds & m2 & -> & Hl & HL & HK & HX & HF & HV & HH); [cbn; lia|lia|unfold m1; rewrite length_insert; lia|].
    rewrite option_bind_Some. unfold m1 in HL. rewrite length_insert in HL.
    assert (HA : str_at m2 (tmp + 20 - length ds) ds).
    { intros k Hk. destruct (decide (k < length ds)%nat) as [Hlt|Hge]; [rewrite HK, lookup_app_l by lia; done|].
      assert (k = length ds) as -> by lia. rewrite list_lookup_middle by done. rewrite HX by lia.
      replace (tmp + 20 - length ds + length ds)%nat with (tmp + 20)%nat by lia. apply list_lookup_insert_eq. lia. }
    assert (HM2 : Forall byte_ok m2).
    { apply Forall_lookup. intros x b Hx. destruct (decide (tmp + 20 - length ds <= x < tmp + 20)%nat) as [Hin|Hout].
      - replace x with (tmp + 20 - length ds + (x - (tmp + 20 - length ds)))%nat in Hx by lia. rewrite HK in Hx by lia.
        pose proof (Forall_lookup_1 _ _ _ _ HF Hx). unfold byte_ok. cbn in *. lia.
      - rewrite HX in Hx by lia. unfold m1 in Hx. apply list_lookup_insert_Some in Hx as [(_ & <- & _)|[_ Hx]]; [unfold byte_ok; lia|].
        by eapply (Forall_lookup_1 _ _ _ _ HM). }
    destruct (strcpy_ok ds m2 buf (tmp + 20 - length ds)) as (m' & E & [HL' HS HR]); try done; try (by apply digits_chars).
    { pose proof (Nat.div_mod (length ds) 8). lia. } { lia. } { unfold apart in *. lia. }
    exists ds, m'. split_and!; try done; [by split; [..|left]|lia|]. intros x H1 H2. rewrite HR, HX by lia. apply list_lookup_insert_ne. lia.
Qed.

(** ** Hexadecimal digits *)
Definition hex_val (c : Z) : Z := if c <? 58 then c - 48 else c - 55.
Definition hex_value (ds : list Z) : Z := foldl (fun acc c => acc * 16 + hex_val c) 0 ds.
Lemma hex_val_char k : 0 <= k < 16 -> hex_val (hex_char k) = k /\ 0 < hex_char k < 256.
Proof. intros H. unfold hex_val, hex_char. destruct (Z.ltb_spec k 10); case_if E; zbool; lia. Qed.
Lemma nibble_range n k : 0 <= Z.land (Z.shiftr n k) 15 < 16.
Proof. change 15 with (Z.ones 4). rewrite Z.land_ones by lia. apply Z.mod_pos_bound. lia. Qed.
Lemma nibble_step n k : 0 <= k -> Z.shiftr n (k + 4) * 16 + Z.land (Z.shiftr n k) 15 = Z.shiftr n k.
Proof.
  intros Hk. rewrite <- Z.shiftr_shiftr by lia. change 15 with (Z.ones 4). rewrite Z.land_ones, (Z.shiftr_div_pow2 _ 4) by lia.
  change (2 ^ 4) with 16. pose proof (Z.div_mod (Z.shiftr n k) 16). lia.
Qed.
Fixpoint nibbles (n : Z) (j : nat) : list Z :=
  match j with
  | O => []
  | S j' => hex_char (Z.land (Z.shiftr n (4 * Z.of_nat j')) 15) :: nibbles n j'
  end.
Lemma nibbles_value n j : foldl (fun acc c => acc * 16 + hex_val c) (Z.shiftr n (4 * Z.of_nat j)) (nibbles n j) = n.
Proof.
  induction j as [|j IH]; cbn [nibbles foldl]; [apply Z.shiftr_0_r|]. rewrite (proj1 (hex_val_char _ (nibble_range _ _))).
  replace (4 * Z.of_nat (S j)) with (4 * Z.of_nat j + 4) by lia. rewrite nibble_step by lia. exact IH.
Qed.
Lemma hex_digits_value n : 0 <= n < 2 ^ 64 -> hex_value (hex_digits n) = n /\ chars (hex_digits n).
Proof.
  intros Hn. split.
  - pose proof (nibbles_value n 16) as H. rewrite Z.shiftr_div_pow2, Z.div_small in H by lia. exact H.
  - unfold hex_digits. apply Forall_fmap, list.Forall_forall. intros k _. apply hex_val_char, nibble_range.
Qed.
Lemma store_all_ok s : forall a m, chars s -> (a + length s < length m)%nat -> exists m', store_all a (s ++ [0]) m = Some m' /\ copied m m' a s.
Proof.
  induction s as [|c s IH]; intros a m HC Hl; cbn [store_all app length] in *.
  - rewrite store_ok, option_bind_Some by lia. eexists. split; [done|]. apply copied_nil. lia.
  - apply Forall_cons_iff in HC as [Hc HC]. rewrite store_ok, option_bind_Some by lia.
    destruct (IH (S a) (<[a := c]> m) HC) as (m' & E & HC'); [rewrite length_insert; lia|]. exists m'. split; [exact E|]. apply copied_cons; [lia|done].
Qed.

(** ** Claims *)
(** C39. The string functions see strings as lists of bytes, the view the file system's model
    takes.  On terminated strings [StringLength] is the length, [FastStrCmp] is zero exactly on
    equal strings, [FastStrCopy] writes the first [max - 1] bytes and a terminator (and nothing
    else), and [strcat], whose copy runs word by word when both addresses are aligned, leaves the
    concatenation.  The destinations have room and lie apart from the source; the word copy may
    read to the end of the word that holds the terminator. *)
Theorem strings_as_lists m a b d s t max : Forall byte_ok m -> str_at m a s -> chars s -> str_at m b t -> chars t -> 1 <= max ->
  (d + length (str_copy s max) < length m)%nat -> apart d (length (str_copy s max)) a (length s) ->
  (b + 8 * (length t / 8 + 1) <= length m)%nat -> (a + length s + length t < length m)%nat -> apart (a + length s) (length t) b (length t) ->
  StringLength (Some a) m = Some (Z.of_nat (length s)) /\
  (exists z, FastStrCmp (Some a) (Some b) m = Some z /\ (z = 0 <-> s = t)) /\
  (exists m', FastStrCopy (Some d) (Some a) max m = Some m' /\ copied m m' d (str_copy s max)) /\
  (exists m', strcat (Some a) (Some b) m = Some m' /\ str_at m' a (s ++ t) /\
     forall x, (x < a + length s \/ a + length s + length t < x)%nat -> m' !! x = m !! x).
Proof.
  intros HM HA HC HB HD Hmax Hd HP Hcov Hroom HP2. pose proof (str_at_bound _ _ _ HA). split_and!.
  - by apply StringLength_ok.
  - apply strcmp_loop_ok; try done. unfold mem_fuel. lia.
  - unfold str_copy in *. replace (max - 1) with (max - 0 - 1) in * by lia. apply strncpy_loop_ok; try done; [lia|unfold mem_fuel; lia].
  - unfold strcat. rewrite (string_end_ok s), option_bind_Some by (try done; unfold mem_fuel; lia).
    destruct (strcpy_ok t m (a + length s) b) as (m' & E & HCp); try done; try lia. exists m'. split_and!; [exact E|by eapply str_at_app|apply HCp].
Qed.
Ltac all_bytes := unfold chars, byte_ok; cbn; repeat (apply Forall_cons_iff; split; [lia|]); apply Forall_nil; exact I.
(** "ab" at 0 in a buffer, "cd" at 16, a copy of one byte at 24. *)
Definition demo_mem : bytes := [97; 98; 0; 9; 9; 9; 9; 9] ++ replicate 8 9 ++ [99; 100; 0; 9; 9; 9; 9; 9] ++ replicate 8 9.
Lemma strings_as_lists_witness : exists m', strcat (Some 0%nat) (Some 16%nat) demo_mem = Some m' /\ str_at m' 0 [97; 98; 99; 100].
Proof.
  destruct (strings_as_lists demo_mem 0 16 24 [97; 98] [99; 100] 2) as (_ & _ & _ & m' & E & H & _);
    [all_bytes|by intros [|[|[|k]]] ?; [reflexivity..|cbn in *; lia]|all_bytes|by intros [|[|[|k]]] ?; [reflexivity..|cbn in *; lia]
    |all_bytes|lia|vm_compute; lia|right; vm_compute; lia|vm_compute; lia|vm_compute; lia|left; vm_compute; lia|].
  exists m'. split; [exact E|exact H].
Defined.

(** Numbers are printed correctly.  For every 64-bit number [itoa] leaves at the buffer its
    decimal numeral, without leading zeros and of at most 20 digits, and changes nothing outside
    the buffer and its temporary array; [htoa] leaves 0x and 16 hexadecimal digits that read back
    as the number. *)
Theorem numbers_printed n tmp buf m : 0 <= n < 2 ^ 64 -> Forall byte_ok m -> (tmp + 28 <= length m)%nat -> (buf + 21 <= length m)%nat -> apart buf 20 tmp 20 ->
  (exists ds m', itoa tmp n buf m = Some m' /\ str_at m' buf ds /\ decimal ds n /\ (length ds <= 20)%nat /\
     forall x, (x < buf \/ buf + 20 < x)%nat -> (x < tmp \/ tmp + 20 < x)%nat -> m' !! x = m !! x) /\
  (exists ds m', htoa n (Some buf) m = Some m' /\ copied m m' buf ([48; 120] ++ ds) /\ length ds = 16%nat /\ hex_value ds = n).
Proof.
  intros Hn HM Ht Hb HP. split; [by apply itoa_ok|]. destruct (hex_digits_value n Hn) as [HV HC]. unfold htoa.
  rewrite (app_assoc [48; 120]). destruct (store_all_ok ([48; 120] ++ hex_digits n) buf m) as (m' & E & HCp).
  - repeat (constructor; [lia|]). exact HC.
  - cbn. lia.
  - exists (hex_digits n), m'. split_and!; done.
Qed.
Lemma numbers_printed_witness : exists m', itoa 32 18446744073709551615 0 (replicate 64 7) = Some m' /\
  str_at m' 0 [49; 56; 52; 52; 54; 55; 52; 52; 48; 55; 51; 55; 48; 57; 53; 53; 49; 54; 49; 53].
Proof.
  assert (HB : Forall byte_ok (replicate 64 7)) by (apply Forall_replicate; split; lia).
  destruct (numbers_printed 18446744073709551615 32 0 (replicate 64 7)) as ((ds & m' & E & H & [_ HV _] & Hl & _) & _);
    [lia|exact HB|rewrite length_replicate; lia|rewrite length_replicate; lia|left; lia|].
  exists m'. split; [exact E|]. vm_compute in E. injection E as <-. intros k Hk. do 21 (destruct k as [|k]; [reflexivity|]). cbn in Hk. lia.
Defined.

(** ** Tokens *)
Lemma strtok_loop_ok d : 0 < d < 256 -> forall w m a i fuel t r, str_at m (a + i) w -> chars w -> (length w < fuel)%nat -> (i + length w < length r)%nat ->
  length t = i -> take i r = t -> Forall (fun c => 0 <= c < 256) t ->
  exists r', strtok_loop fuel m a i d r = Some (r', if (length (before d w) <? length w)%nat then Some (a + i + length (before d w) + 1)%nat else None) /\
    take (i + length (before d w)) r' = t ++ before d w /\ r' !! (i + length (before d w))%nat = Some 0 /\ length r' = length r.
Proof.
  intros Hd. induction w as [|c w IH]; intros m a i [|fuel] t r Hs Hc Hf Hr Ht Htk Hb; cbn [length] in Hf, Hr; [lia..| |lia|]; cbn [strtok_loop].
  - apply str_at_nil in Hs. rewrite Hs, option_bind_Some, Z.eqb_refl, store_ok by lia. eexists. split; [done|]. cbn [before length]. rewrite Nat.add_0_r, app_nil_r.
    split_and!; [by rewrite take_insert_ge by lia|by apply list_lookup_insert_eq; lia|apply length_insert].
  - apply str_at_cons in Hs as [Hc0 Hs]. apply Forall_cons_iff in Hc as [Hcr Hc]. rewrite Hc0, option_bind_Some, (proj2 (Z.eqb_neq c 0)), u8_small by lia. cbn [before].
    destruct (Z.eqb_spec c d) as [->|Hne]; cbn [negb length].
    + rewrite store_ok by lia. eexists. split; [by rewrite Nat.add_0_r|]. rewrite Nat.add_0_r, app_nil_r.
      split_and!; [by rewrite take_insert_ge by lia|by apply list_lookup_insert_eq; lia|apply length_insert].
    + rewrite store_ok, option_bind_Some by lia. rewrite <- Nat.add_succ_r in Hs.
      destruct (IH m a (S i) fuel (t ++ [c]) (<[i := c]> r) Hs Hc ltac:(lia)) as (r' & E & H1 & H2 & H3); [rewrite length_insert; lia|rewrite length_app; cbn; lia|
        |apply Forall_app; split; [done|by repeat constructor; lia]|].
      { rewrite (take_S_r _ _ c) by (by apply list_lookup_insert_eq; lia). by rewrite take_insert_ge, Htk by lia. }
      exists r'. rewrite length_insert in H3. rewrite E. rewrite <- app_assoc in H1. replace (i + S (length (before d w)))%nat with (S i + length (before d w))%nat by lia.
      split_and!; [|done..]. change (S (length (before d w)) <? S (length w))%nat with (length (before d w) <? length w)%nat. case_if E'; [do 3 f_equal; lia|done].
Qed.
(** [strtok] with a new string, or with what is left of the last: the result block holds the token
    up to the delimiter, and the rest of the string, when the delimiter is there, is left. *)
Lemma strtok_ok s input a d h m w : 0 < d < 256 -> (match s with Some _ => s | None => input end) = Some a -> str_at m a w -> chars w ->
  Z.of_nat (length w) + 1 < 2 ^ 31 -> hd_error h <> Some None ->
  exists r h', strtok s d input h m = Some (Some r, if (length (before d w) <? length w)%nat then Some (a + length (before d w) + 1)%nat else None, h') /\
    take (length (before d w)) r = before d w /\ r !! length (before d w) = Some 0 /\ length r = S (length w).
Proof.
  intros Hd Hs Hw Hc Hl Hh. unfold strtok. rewrite Hs. pose proof (str_at_bound _ _ _ Hw) as Hb. unfold StringLength.
  rewrite (strlen_loop_ok w m a _ 0 Hw Hc) by (unfold mem_fuel; lia). rewrite option_bind_Some, Z.add_0_l.
  assert (exists g h', heap_alloc (Z.of_nat (length w) + 1) h = (Some g, h') /\ length g = S (length w)) as (g & h' & -> & Hg).
  { unfold heap_alloc. rewrite (proj2 (Z.eqb_neq _ 0)) by lia. destruct h as [|[g|] h]; [| |done]; eexists _, _; (split; [done|]);
      rewrite ?length_replicate, ?length_resize; lia. }
  cbn [fst snd]. rewrite option_bind_Some. destruct (strtok_loop_ok d Hd w m a 0 (mem_fuel m) [] g) as (r & -> & H1 & H2 & H3); [by rewrite Nat.add_0_r|done|unfold mem_fuel; lia|lia|done|done|constructor|].
  rewrite option_bind_Some. cbn [fst snd]. rewrite Nat.add_0_r. exists r, h'. split_and!; [done|exact H1|exact H2|lia].
Qed.
