(* ===== verification/Cerberus.v ===== *)
(** The memory-integrity monitor of [src/mm/security/Cerberus.c]: watched allocations, per-process
    violation counts and stack canaries.

    The state is the static [g_cerberus_state], the tick counter and the 64-bit words of memory
    the canaries live in.  [phys] stands for [VMemGetPhysAddr] (0 means unmapped), [writable] says
    which words keep what is written to them, and [stack_protection] is the build option of that
    name.  The lock makes each operation one step; [CheckResourceLeaks] and the printing change
    nothing of this state.  An access outside a table is [None]. *)
From Stdlib Require Import ZArith Lia.
From stdpp Require Import base tactics sets list numbers option functions.
From S2P Require Import Prelude.

(** ** Data *)
Definition CERBERUS_MAX_WATCH_REGIONS : nat := 64.
Definition CERBERUS_MAX_PROCESSES : nat := 128.
Definition CERBERUS_VIOLATION_THRESHOLD : Z := 3.
Definition CERBERUS_CHECK_INTERVAL : Z := 50.
Definition STACK_CANARY_VALUE : Z := 0xDEADBEEFCAFEBABE.
Inductive MemorySecurityViolation :=
| MEM_VIOLATION_NONE | MEM_VIOLATION_BUFFER_OVERFLOW | MEM_VIOLATION_STACK_CORRUPTION | MEM_VIOLATION_USE_AFTER_FREE
| MEM_VIOLATION_DOUBLE_FREE | MEM_VIOLATION_BOUNDS_CHECK | MEM_VIOLATION_CANARY_CORRUPT | MEM_VIOLATION_HEAP_CORRUPT.
#[export] Instance MemorySecurityViolation_eq_dec : EqDecision MemorySecurityViolation.
Proof. solve_decision. Defined.
Record CerberusWatchRegion := mk_region {
  base_addr : Z; rsize : Z; region_pid : Z; alloc_time : Z; is_active : bool; is_stack_region : bool
}.
Record CerberusProcessInfo := mk_info {
  info_pid : Z; violation_count : Z; last_violation : Z; stack_canary_addr : Z; is_monitored : bool; is_compromised : bool
}.
Record cerberus := mk_cerberus {
  watch_regions : list CerberusWatchRegion;
  process_info : list CerberusProcessInfo;
  active_regions : Z;
  monitored_processes : Z;
  total_violations : Z;
  is_initialized : bool;
  system_ticks : Z;
  words : Z -> Z
}.
Definition set_regions v s := mk_cerberus v (process_info s) (active_regions s) (monitored_processes s) (total_violations s) (is_initialized s) (system_ticks s) (words s).
Definition set_infos v s := mk_cerberus (watch_regions s) v (active_regions s) (monitored_processes s) (total_violations s) (is_initialized s) (system_ticks s) (words s).
Definition set_active v s := mk_cerberus (watch_regions s) (process_info s) v (monitored_processes s) (total_violations s) (is_initialized s) (system_ticks s) (words s).
Definition set_monitored v s := mk_cerberus (watch_regions s) (process_info s) (active_regions s) v (total_violations s) (is_initialized s) (system_ticks s) (words s).
Definition set_total v s := mk_cerberus (watch_regions s) (process_info s) (active_regions s) (monitored_processes s) v (is_initialized s) (system_ticks s) (words s).
Definition set_init v s := mk_cerberus (watch_regions s) (process_info s) (active_regions s) (monitored_processes s) (total_violations s) v (system_ticks s) (words s).
Definition set_ticks v s := mk_cerberus (watch_regions s) (process_info s) (active_regions s) (monitored_processes s) (total_violations s) (is_initialized s) v (words s).
Definition set_words v s := mk_cerberus (watch_regions s) (process_info s) (active_regions s) (monitored_processes s) (total_violations s) (is_initialized s) (system_ticks s) v.
Definition set_inactive r := mk_region (base_addr r) (rsize r) (region_pid r) (alloc_time r) false (is_stack_region r).
Definition set_monitoring b p := mk_info (info_pid p) (violation_count p) (last_violation p) (stack_canary_addr p) b (is_compromised p).
Definition set_compromised b p := mk_info (info_pid p) (violation_count p) (last_violation p) (stack_canary_addr p) (is_monitored p) b.
Definition set_canary a p := mk_info (info_pid p) (violation_count p) (last_violation p) a (is_monitored p) (is_compromised p).

(** The static storage at start, all zero. *)
Definition zero_region : CerberusWatchRegion := mk_region 0 0 0 0 false false.
Definition zero_info : CerberusProcessInfo := mk_info 0 0 0 0 false false.
Definition boot_cerberus (w : Z -> Z) : cerberus :=
  mk_cerberus (replicate CERBERUS_MAX_WATCH_REGIONS zero_region) (replicate CERBERUS_MAX_PROCESSES zero_info) 0 0 0 false 0 w.

Definition upd_info (pid : Z) (f : CerberusProcessInfo -> CerberusProcessInfo) (s : cerberus) : option cerberus :=
  p ← arr_get (process_info s) pid;
  l ← arr_set (process_info s) pid (f p);
  Some (set_infos l s).

(** ** Violations *)
Definition CerberusLogViolation (pid : Z) (s : cerberus) : option cerberus :=
  if negb (is_initialized s) then Some s else
  let s1 := set_total (u32 (total_violations s + 1)) s in
  upd_info pid (fun p => mk_info (info_pid p) (u32 (violation_count p + 1)) (system_ticks s1) (stack_canary_addr p) (is_monitored p) (is_compromised p)) s1.

Section monitor.
Context (phys : Z -> Z) (writable : Z -> bool) (stack_protection : bool).

(** [lock] says whether [rust_spinlock_new] returned a lock. *)
Definition CerberusInit (lock : bool) (s : cerberus) : cerberus :=
  if negb lock then s else
  mk_cerberus (set_inactive <$> watch_regions s)
    ((fun p => mk_info (info_pid p) 0 (last_violation p) (stack_canary_addr p) false false) <$> process_info s)
    0 0 0 true (system_ticks s) (words s).

(** ** Canaries *)
(** A write to a word that does not keep it is lost. *)
Definition poke (a v : Z) (s : cerberus) : cerberus := if writable a then set_words (<[a := u64 v]> (words s)) s else s.
Definition CerberusInstallStackCanary (pid stack_top stack_size : Z) (s : cerberus) : option (Z * cerberus) :=
  if negb (is_initialized s) || (Z.of_nat CERBERUS_MAX_PROCESSES <=? pid) then Some (-1, s) else
  if stack_size <? 0x2000 then Some (-1, s) else
  let canary_addr := u64 (stack_top - 0x100) in
  if phys canary_addr =? 0 then Some (-1, s) else
  let s1 := poke canary_addr 0x1234567890ABCDEF s in
  if negb (words s1 canary_addr =? 0x1234567890ABCDEF) then Some (-1, s1) else
  let s2 := poke canary_addr STACK_CANARY_VALUE s1 in
  s3 ← upd_info pid (set_canary canary_addr) s2;
  Some (0, s3).
Definition CerberusCheckStackCanary (pid : Z) (s : cerberus) : option (Z * cerberus) :=
  if negb (is_initialized s) || (Z.of_nat CERBERUS_MAX_PROCESSES <=? pid) then Some (-1, s) else
  p ← arr_get (process_info s) pid;
  if negb (is_monitored p) || (stack_canary_addr p =? 0) then Some (0, s) else
  if phys (stack_canary_addr p) =? 0 then Some (-1, s) else
  if negb (words s (stack_canary_addr p) =? STACK_CANARY_VALUE) then
    s1 ← CerberusLogViolation pid s;
    s2 ← upd_info pid (set_compromised true) s1;
    Some (1, s2)
  else Some (0, s).

(** ** Processes *)
Definition CerberusRegisterProcess (pid stack_base stack_size : Z) (s : cerberus) : option (Z * cerberus) :=
  if negb (is_initialized s) || (Z.of_nat CERBERUS_MAX_PROCESSES <=? pid) then Some (-1, s) else
  p ← arr_get (process_info s) pid;
  if is_monitored p then Some (0, s) else
  s1 ← upd_info pid (fun p => mk_info pid 0 0 (stack_canary_addr p) true false) s;
  s2 ← (if stack_protection && negb (stack_base =? 0) && (16 <? stack_size)
        then r ← CerberusInstallStackCanary pid stack_base stack_size s1; Some (snd r)
        else Some s1);
  Some (0, set_monitored (u32 (monitored_processes s2 + 1)) s2).
Fixpoint drop_regions (n : nat) (i : nat) (pid : Z) (s : cerberus) : option cerberus :=
  match n with
  | O => Some s
  | S n' =>
      r ← watch_regions s !! i;
      let s' := if is_active r && (region_pid r =? pid)
                then set_active (u32 (active_regions s - 1)) (set_regions (<[i := set_inactive r]> (watch_regions s)) s) else s in
      drop_regions n' (S i) pid s'
  end.
Definition CerberusUnregisterProcess (pid : Z) (s : cerberus) : option cerberus :=
  if negb (is_initialized s) || (Z.of_nat CERBERUS_MAX_PROCESSES <=? pid) then Some s else
  p ← arr_get (process_info s) pid;
  if is_monitored p then
    s1 ← upd_info pid (set_monitoring false) s;
    drop_regions CERBERUS_MAX_WATCH_REGIONS 0 pid (set_monitored (u32 (monitored_processes s1 - 1)) s1)
  else Some s.
(** The code prints that a compromised process is blocked, and returns. *)
Definition CerberusPreScheduleCheck (pid : Z) (s : cerberus) : option cerberus :=
  if negb (is_initialized s) then Some s else
  p ← arr_get (process_info s) pid;
  if negb (is_monitored p) then Some s else
  if is_compromised p then Some s else
  r ← CerberusCheckStackCanary pid s; Some (snd r).
Definition judge (p : CerberusProcessInfo) : CerberusProcessInfo :=
  if is_monitored p && (CERBERUS_VIOLATION_THRESHOLD <? violation_count p) && negb (is_compromised p) then set_compromised true p else p.
Definition CerberusTick (s : cerberus) : cerberus :=
  if negb (is_initialized s) then s else
  let s1 := set_ticks (u64 (system_ticks s + 1)) s in
  if system_ticks s1 mod CERBERUS_CHECK_INTERVAL =? 0 then set_infos (judge <$> process_info s1) s1 else s1.

(** ** Faults and allocations *)
Definition fault_kind (fault_addr error_code : Z) : MemorySecurityViolation :=
  if (fault_addr =? 0) || (fault_addr <? 0x1000) then MEM_VIOLATION_USE_AFTER_FREE
  else if negb (Z.land error_code 0x2 =? 0) && (Z.land error_code 0x1 =? 0) then MEM_VIOLATION_BUFFER_OVERFLOW
  else if negb (Z.land error_code 0x10 =? 0) then MEM_VIOLATION_STACK_CORRUPTION
  else if 0xFFFF800000000000 <=? fault_addr then MEM_VIOLATION_BOUNDS_CHECK
  else MEM_VIOLATION_NONE.
Definition CerberusAnalyzeFault (fault_addr error_code pid : Z) (s : cerberus) : option (Z * cerberus) :=
  if negb (is_initialized s) then Some (0, s) else
  if bool_decide (fault_kind fault_addr error_code = MEM_VIOLATION_NONE) then Some (0, s) else
  s' ← CerberusLogViolation pid s; Some (1, s').
Fixpoint track_loop (n : nat) (i : nat) (new : CerberusWatchRegion) (s : cerberus) : option (Z * cerberus) :=
  match n with
  | O => Some (-1, s)
  | S n' =>
      r ← watch_regions s !! i;
      if is_active r then track_loop n' (S i) new s
      else Some (0, set_active (u32 (active_regions s + 1)) (set_regions (<[i := new]> (watch_regions s)) s))
  end.
Definition CerberusTrackAlloc (addr size pid : Z) (s : cerberus) : option (Z * cerberus) :=
  if negb (is_initialized s) then Some (-1, s) else
  track_loop CERBERUS_MAX_WATCH_REGIONS 0 (mk_region addr size pid (system_ticks s) true false) s.
Fixpoint untrack_loop (n : nat) (i : nat) (addr pid : Z) (s : cerberus) : option (option cerberus) :=
  match n with
  | O => Some None
  | S n' =>
      r ← watch_regions s !! i;
      if is_active r && (base_addr r =? addr) && (region_pid r =? pid)
      then Some (Some (set_active (u32 (active_regions s - 1)) (set_regions (<[i := set_inactive r]> (watch_regions s)) s)))
      else untrack_loop n' (S i) addr pid s
  end.
Definition CerberusTrackFree (addr pid : Z) (s : cerberus) : option (Z * cerberus) :=
  if negb (is_initialized s) then Some (-1, s) else
  f ← untrack_loop CERBERUS_MAX_WATCH_REGIONS 0 addr pid s;
  match f with
  | Some s' => Some (0, s')
  | None => s' ← CerberusLogViolation pid s; Some (1, s')
  end.
End monitor.
