(* ===== verification/CerberusProps.v ===== *)
(** The memory-integrity monitor: its tables and counters agree in every run, tracked
    allocations behave as a bounded multiset, and canaries detect what overwrites them. *)
From Stdlib Require Import ZArith Lia.
From stdpp Require Import base tactics sets list numbers option functions.
From S2P Require Import Prelude Cerberus.

(** ** Counting *)
Definition countb {A} (f : A -> bool) (l : list A) : Z := Z.of_nat (length (List.filter f l)).
Lemma countb_cons {A} (f : A -> bool) x l : countb f (x :: l) = Z.b2z (f x) + countb f l.
Proof. unfold countb. cbn. destruct (f x); cbn; lia. Qed.
Lemma countb_insert {A} (f : A -> bool) (l : list A) i x y : l !! i = Some x -> countb f (<[i := y]> l) = countb f l - Z.b2z (f x) + Z.b2z (f y).
Proof.
  revert i. induction l as [|z l IH]; intros [|i] H; try done.
  - injection H as ->. change (<[0%nat := y]> (x :: l)) with (y :: l). rewrite !countb_cons. lia.
  - change (<[S i := y]> (z :: l)) with (z :: <[i := y]> l). rewrite !countb_cons, (IH _ H). lia.
Qed.
Lemma countb_bound {A} (f : A -> bool) l : 0 <= countb f l <= Z.of_nat (length l).
Proof. induction l as [|x l IH]; [done|]. rewrite countb_cons. cbn [length]. destruct (f x); cbn; lia. Qed.
Lemma countb_none {A} (f : A -> bool) l : (forall x, x ∈ l -> f x = false) -> countb f l = 0.
Proof.
  induction l as [|x l IH]; intros H; [done|]. rewrite countb_cons, (H x), IH; [done| |apply elem_of_cons; auto].
  intros y Hy. apply H, elem_of_cons. auto.
Qed.
Lemma countb_fmap {A} (f : A -> bool) (g : A -> A) l : (forall x, f (g x) = f x) -> countb f (g <$> l) = countb f l.
Proof. intros H. induction l as [|x l IH]; [done|]. rewrite fmap_cons, !countb_cons, H, IH. done. Qed.

(** ** The invariant *)
Record cerberus_ok (s : cerberus) : Prop := {
  ck_regions : length (watch_regions s) = CERBERUS_MAX_WATCH_REGIONS;
  ck_infos : length (process_info s) = CERBERUS_MAX_PROCESSES;
  ck_active : active_regions s = countb is_active (watch_regions s);
  ck_monitored : monitored_processes s = countb is_monitored (process_info s)
}.
Definition pid_ok (pid : Z) : Prop := 0 <= pid < Z.of_nat CERBERUS_MAX_PROCESSES.
(** A step that touches neither the regions nor which processes are monitored. *)
Record same_monitor (s s' : cerberus) : Prop := {
  sm_regions : watch_regions s' = watch_regions s;
  sm_active : active_regions s' = active_regions s;
  sm_init : is_initialized s' = is_initialized s;
  sm_ticks : system_ticks s' = system_ticks s;
  sm_monitored : monitored_processes s' = monitored_processes s;
  sm_len : length (process_info s') = length (process_info s);
  sm_count : countb is_monitored (process_info s') = countb is_monitored (process_info s)
}.
#[export] Instance same_monitor_po : PreOrder same_monitor.
Proof. split; [by intros s | intros a b c [] []; split; congruence]. Qed.
Lemma same_monitor_ok s s' : same_monitor s s' -> cerberus_ok s -> cerberus_ok s'.
Proof. intros [] []. split; congruence. Qed.
Definition infos_full (s : cerberus) : Prop := length (process_info s) = CERBERUS_MAX_PROCESSES.
Lemma info_get s pid : infos_full s -> pid_ok pid -> exists p, arr_get (process_info s) pid = Some p.
Proof. intros HL Hp. apply arr_get_some. rewrite HL. exact Hp. Qed.
Lemma upd_info_ok s pid f p : infos_full s -> pid_ok pid -> arr_get (process_info s) pid = Some p ->
  exists s', upd_info pid f s = Some s' /\ s' = set_infos (process_info s') s /\ arr_get (process_info s') pid = Some (f p) /\
    length (process_info s') = length (process_info s) /\
    countb is_monitored (process_info s') = countb is_monitored (process_info s) - Z.b2z (is_monitored p) + Z.b2z (is_monitored (f p)).
Proof.
  intros HL Hp Hg. unfold upd_info, pid_ok, infos_full in *. rewrite Hg, option_bind_Some, arr_set_some by (rewrite HL; done).
  rewrite option_bind_Some. eexists. split; [reflexivity|]. split_and!; try done; cbn.
  - apply arr_get_insert_eq. by rewrite HL.
  - apply length_insert.
  - apply countb_insert. unfold arr_get in Hg. by rewrite (proj2 (Z.leb_le 0 pid)) in Hg by lia.
Qed.
Lemma upd_info_keeps s pid f p : infos_full s -> pid_ok pid -> (forall p, is_monitored (f p) = is_monitored p) -> arr_get (process_info s) pid = Some p ->
  exists s', upd_info pid f s = Some s' /\ same_monitor s s' /\ words s' = words s /\ arr_get (process_info s') pid = Some (f p).
Proof.
  intros HL Hp Hf Hg. destruct (upd_info_ok s pid f p HL Hp Hg) as (s' & -> & E & Hg' & Hl & Hc). exists s'. split; [done|].
  rewrite Hf in Hc. split; [|split; [by rewrite E|done]]. split; try done; try (by rewrite E). lia.
Qed.
Lemma CerberusLogViolation_ok s pid p : infos_full s -> pid_ok pid -> is_initialized s = true -> arr_get (process_info s) pid = Some p ->
  exists s', CerberusLogViolation pid s = Some s' /\ same_monitor s s' /\ words s' = words s /\
    arr_get (process_info s') pid = Some (mk_info (info_pid p) (u32 (violation_count p + 1)) (system_ticks s) (stack_canary_addr p) (is_monitored p) (is_compromised p)).
Proof.
  intros HL Hp Hi Hg. unfold CerberusLogViolation. rewrite Hi. cbn [negb]. cbv zeta. set (s1 := set_total _ s). set (f := fun p => mk_info _ _ _ _ _ _).
  destruct (upd_info_keeps s1 pid f p) as (s' & E' & HS & Hw & Hg'); try done. exists s'. split; [exact E'|]. split; [|done].
  destruct HS. by split.
Qed.

(** ** Tracked allocations *)
Definition tracked (s : cerberus) : list (Z * Z) :=
  omap (fun r => if is_active r then Some (base_addr r, region_pid r) else None) (watch_regions s).
Lemma tracked_length s : cerberus_ok s -> Z.of_nat (length (tracked s)) = active_regions s.
Proof.
  intros HK. rewrite (ck_active _ HK). unfold tracked. clear HK. induction (watch_regions s) as [|r l IH]; [done|].
  rewrite countb_cons. cbn. destruct (is_active r); cbn; lia.
Qed.
Lemma tracked_split (l1 l2 : list CerberusWatchRegion) r (f : CerberusWatchRegion -> option (Z * Z)) :
  omap f (l1 ++ r :: l2) = omap f l1 ++ option_list (f r) ++ omap f l2.
Proof. rewrite omap_app. cbn. by destruct (f r). Qed.
Lemma insert_split (l1 l2 : list CerberusWatchRegion) r r' : <[length l1 := r']> (l1 ++ r :: l2) = l1 ++ r' :: l2.
Proof. by rewrite insert_app_r_alt, Nat.sub_diag by done. Qed.
Lemma track_loop_ok new s l2 : forall l1, watch_regions s = l1 ++ l2 -> (forall r, r ∈ l1 -> is_active r = true) -> is_active new = true ->
  (track_loop (length l2) (length l1) new s = Some (-1, s) /\ forall r, r ∈ watch_regions s -> is_active r = true) \/
  (exists k1 r k2, watch_regions s = k1 ++ r :: k2 /\ is_active r = false /\
     track_loop (length l2) (length l1) new s = Some (0, set_active (u32 (active_regions s + 1)) (set_regions (k1 ++ new :: k2) s))).
Proof.
  induction l2 as [|r l2 IH]; intros l1 E HA Hnew; cbn [track_loop length].
  { left. split; [done|]. rewrite E, app_nil_r. done. }
  rewrite E, list_lookup_middle, option_bind_Some by done. destruct (is_active r) eqn:Er.
  - specialize (IH (l1 ++ [r])). rewrite length_app, Nat.add_1_r in IH. rewrite <- E. apply IH; [by rewrite <- app_assoc| |done].
    intros x [?| ->%list_elem_of_singleton]%elem_of_app; auto.
  - right. exists l1, r, l2. split_and!; [done..|]. by rewrite insert_split.
Qed.
Lemma untrack_loop_ok addr pid s l2 : forall l1, watch_regions s = l1 ++ l2 ->
  (untrack_loop (length l2) (length l1) addr pid s = Some None /\ forall r, r ∈ l2 -> is_active r = true -> (base_addr r, region_pid r) <> (addr, pid)) \/
  (exists k1 r k2, watch_regions s = k1 ++ r :: k2 /\ is_active r = true /\ base_addr r = addr /\ region_pid r = pid /\
     untrack_loop (length l2) (length l1) addr pid s =
       Some (Some (set_active (u32 (active_regions s - 1)) (set_regions (k1 ++ set_inactive r :: k2) s)))).
Proof.
  induction l2 as [|r l2 IH]; intros l1 E; cbn [untrack_loop length].
  { left. split; [done|]. intros r Hr. inversion Hr. }
  rewrite E, list_lookup_middle, option_bind_Some by done. destruct (is_active r && (base_addr r =? addr) && (region_pid r =? pid)) eqn:Er.
  - right. exists l1, r, l2. zbool. split_and!; [done..|]. by rewrite insert_split.
  - specialize (IH (l1 ++ [r])). rewrite length_app, Nat.add_1_r in IH. rewrite <- E.
    destruct IH as [[E1 H1]|H1]; [by rewrite <- app_assoc| |by right]. left. split; [exact E1|].
    intros x [->|Hx]%elem_of_cons Ha; [|by apply H1]. intros [= E2 E3]. rewrite Ha, E2, E3, !Z.eqb_refl in Er. done.
Qed.
Lemma TrackAlloc_ok addr sz pid s : cerberus_ok s -> is_initialized s = true ->
  exists z s', CerberusTrackAlloc addr sz pid s = Some (z, s') /\ cerberus_ok s' /\
    if decide (length (tracked s) < CERBERUS_MAX_WATCH_REGIONS)%nat then z = 0 /\ tracked s' ≡ₚ (addr, pid) :: tracked s else z = -1 /\ s' = s.
Proof.
  intros HK Hi. pose proof (tracked_length _ HK) as HL. rewrite (ck_active _ HK) in HL. unfold CerberusTrackAlloc. rewrite Hi. cbn [negb].
  rewrite <- (ck_regions _ HK). set (new := mk_region _ _ _ _ _ _).
  destruct (track_loop_ok new s (watch_regions s) []) as [[E H]|(k1 & r & k2 & E & Hr & E1)]; [done|by intros r Hr; inversion Hr|done| |].
  - exists (-1), s. split_and!; [exact E|done|]. rewrite decide_False; [done|].
    assert (countb is_active (watch_regions s) = Z.of_nat (length (watch_regions s))); [|lia].
    clear E HL HK. induction (watch_regions s) as [|r l IH]; [done|]. rewrite countb_cons, (H r), IH by (try apply elem_of_cons; auto; intros; apply H, elem_of_cons; auto).
    cbn [length Z.b2z]. lia.
  - eexists 0, _. split; [exact E1|].
    assert (Hcnt : countb is_active (k1 ++ new :: k2) = countb is_active (watch_regions s) + 1).
    { rewrite <- (insert_split k1 k2 r new), (countb_insert _ _ _ r), E, Hr; [cbn; lia|]. by apply list_lookup_middle. }
    pose proof (countb_bound is_active (k1 ++ new :: k2)) as Hb. rewrite length_app in Hb. cbn [length] in Hb.
    pose proof (ck_regions _ HK) as HR. rewrite E, length_app in HR. cbn [length] in HR. unfold CERBERUS_MAX_WATCH_REGIONS in HR.
    pose proof (countb_bound is_active (watch_regions s)). split; [split; cbn; try apply HK|].
    + rewrite length_app. cbn. unfold CERBERUS_MAX_WATCH_REGIONS. lia.
    + rewrite Hcnt, (ck_active _ HK). wsimp. done.
    + rewrite decide_True by (rewrite (ck_regions _ HK); unfold CERBERUS_MAX_WATCH_REGIONS; lia). split; [done|]. unfold tracked. cbn [watch_regions set_active set_regions].
      rewrite E, !tracked_split, Hr. cbn. by rewrite Permutation_middle.
Qed.
Lemma deactivate_ok s k1 r k2 : cerberus_ok s -> watch_regions s = k1 ++ r :: k2 -> is_active r = true ->
  cerberus_ok (set_active (u32 (active_regions s - 1)) (set_regions (k1 ++ set_inactive r :: k2) s)).
Proof.
  intros HK E Hr. pose proof (ck_regions _ HK) as HR. rewrite E in HR.
  assert (Hcnt : countb is_active (k1 ++ set_inactive r :: k2) = countb is_active (watch_regions s) - 1).
  { rewrite <- (insert_split k1 k2 r (set_inactive r)), (countb_insert _ _ _ r), E, Hr; [cbn; lia|]. by apply list_lookup_middle. }
  pose proof (countb_bound is_active (k1 ++ set_inactive r :: k2)) as Hb. pose proof (countb_bound is_active (watch_regions s)) as Hb'.
  rewrite (ck_regions _ HK) in Hb'. unfold CERBERUS_MAX_WATCH_REGIONS in *. split; cbn; try apply HK.
  - rewrite length_app in HR |- *. exact HR.
  - rewrite Hcnt, (ck_active _ HK). wsimp. done.
Qed.
Lemma tracked_spec s addr pid : (addr, pid) ∈ tracked s <-> exists r, r ∈ watch_regions s /\ is_active r = true /\ base_addr r = addr /\ region_pid r = pid.
Proof.
  unfold tracked. rewrite list_elem_of_omap. split.
  - intros (r & Hr & E). destruct (is_active r) eqn:Ea; [|done]. injection E as <- <-. eauto.
  - intros (r & Hr & Ea & <- & <-). exists r. by rewrite Ea.
Qed.
(** A free either removes a record or logs a violation; only the log needs the identifier's entry. *)
Lemma TrackFree_cases addr pid s : cerberus_ok s -> is_initialized s = true ->
  ((addr, pid) ∈ tracked s /\ exists s', CerberusTrackFree addr pid s = Some (0, s') /\ cerberus_ok s' /\ tracked s ≡ₚ (addr, pid) :: tracked s') \/
  ((addr, pid) ∉ tracked s /\ CerberusTrackFree addr pid s = (s' ← CerberusLogViolation pid s; Some (1, s'))).
Proof.
  intros HK Hi. unfold CerberusTrackFree. rewrite Hi. cbn [negb]. rewrite <- (ck_regions _ HK).
  destruct (untrack_loop_ok addr pid s (watch_regions s) []) as [[E H]|(k1 & r & k2 & E & Hr & Ha & Hpid & E1)]; [done| |].
  - right. cbn [length] in E. rewrite E, option_bind_Some. split; [|done]. rewrite tracked_spec. intros (r & Hr & Hact & <- & <-). by apply (H r).
  - left. cbn [length] in E1. rewrite E1, option_bind_Some. split; [apply tracked_spec; exists r; split; [rewrite E; set_solver|done]|].
    eexists. split; [reflexivity|]. split; [by apply deactivate_ok|].
    unfold tracked. cbn [watch_regions set_active set_regions]. rewrite E, !tracked_split, Hr. cbn. rewrite Ha, Hpid. by rewrite Permutation_middle.
Qed.
Lemma TrackFree_ok addr pid s : cerberus_ok s -> is_initialized s = true -> pid_ok pid ->
  exists z s', CerberusTrackFree addr pid s = Some (z, s') /\ cerberus_ok s' /\
    if decide ((addr, pid) ∈ tracked s) then z = 0 /\ tracked s ≡ₚ (addr, pid) :: tracked s'
    else z = 1 /\ tracked s' = tracked s /\ CerberusLogViolation pid s = Some s'.
Proof.
  intros HK Hi Hp. destruct (TrackFree_cases addr pid s HK Hi) as [(HT & s' & E & HK' & HP)|(HT & E)].
  - exists 0, s'. rewrite decide_True by done. done.
  - destruct (info_get _ _ (ck_infos _ HK) Hp) as (p & Hg).
    destruct (CerberusLogViolation_ok _ _ _ (ck_infos _ HK) Hp Hi Hg) as (s' & E' & HS & _). rewrite E', option_bind_Some in E.
    exists 1, s'. rewrite decide_False by done. split_and!; [done|by eapply same_monitor_ok|done| |done]. unfold tracked. by rewrite (sm_regions _ _ HS).
Qed.
Lemma drop_regions_ok pid l2 : forall s l1, cerberus_ok s -> watch_regions s = l1 ++ l2 ->
  exists s', drop_regions (length l2) (length l1) pid s = Some s' /\ cerberus_ok s' /\ is_initialized s' = is_initialized s /\ words s' = words s /\
    process_info s' = process_info s /\
    watch_regions s' = l1 ++ ((fun r => if is_active r && (region_pid r =? pid) then set_inactive r else r) <$> l2).
Proof.
  induction l2 as [|r l2 IH]; intros s l1 HK E; cbn [drop_regions length].
  { exists s. by rewrite E. }
  rewrite E, list_lookup_middle, option_bind_Some by done. cbv zeta.
  set (s1 := if is_active r && (region_pid r =? pid) then _ else s).
  assert (H1 : cerberus_ok s1 /\ is_initialized s1 = is_initialized s /\ words s1 = words s /\ process_info s1 = process_info s /\
    watch_regions s1 = (l1 ++ [if is_active r && (region_pid r =? pid) then set_inactive r else r]) ++ l2).
  { unfold s1. destruct (is_active r && (region_pid r =? pid)) eqn:Er; [|split_and!; try done; by rewrite <- app_assoc].
    zbool. rewrite insert_split. split_and!; try done; [by apply deactivate_ok|]. cbn. by rewrite <- app_assoc. }
  destruct H1 as (HK1 & Hi1 & Hw1 & Hp1 & Hr1). clearbody s1.
  destruct (IH _ _ HK1 Hr1) as (s' & E' & HK' & Hi & Hw & Hp & Hr). rewrite length_app, Nat.add_1_r in E'. exists s'.
  split_and!; [exact E'|done|congruence..|]. rewrite Hr, <- app_assoc. done.
Qed.

(** ** Every operation keeps the invariant *)
Section ops.
Context (phys : Z -> Z) (writable : Z -> bool) (prot : bool).

Lemma poke_same a v s : same_monitor s (poke writable a v s) /\ process_info (poke writable a v s) = process_info s.
Proof. unfold poke. destruct (writable a); by repeat split. Qed.
Lemma guard_pid s pid : 0 <= pid -> negb (is_initialized s) || (Z.of_nat CERBERUS_MAX_PROCESSES <=? pid) = false -> is_initialized s = true /\ pid_ok pid.
Proof. intros H0 H. zbool. unfold pid_ok. split; [done|lia]. Qed.
Lemma Install_ok pid top sz s : infos_full s -> 0 <= pid ->
  exists z s', CerberusInstallStackCanary phys writable pid top sz s = Some (z, s') /\ same_monitor s s'.
Proof.
  intros HL Hp. assert (HR : same_monitor s s) by done. unfold CerberusInstallStackCanary.
  destruct (_ || _) eqn:EG; [eauto|]. destruct (guard_pid _ _ Hp EG) as [Hi HP].
  destruct (sz <? 0x2000); [eauto|]. cbv zeta. set (a := u64 (top - 256)). destruct (phys a =? 0); [eauto|].
  destruct (poke_same a 0x1234567890ABCDEF s) as [S1 P1]. set (s1 := poke writable a 0x1234567890ABCDEF s) in *. clearbody s1.
  destruct (negb (words s1 a =? _)); [eauto|]. destruct (poke_same a STACK_CANARY_VALUE s1) as [S2 P2]. set (s2 := poke _ _ _ s1) in *. clearbody s2.
  assert (HL2 : infos_full s2) by (unfold infos_full; by rewrite P2, P1). destruct (info_get _ _ HL2 HP) as (p & Hg).
  destruct (upd_info_keeps s2 pid (set_canary a) p HL2 HP) as (s3 & -> & S3 & _); [done..|]. rewrite option_bind_Some.
  exists 0, s3. split; [done|]. transitivity s1; [done|]. by transitivity s2.
Qed.
Lemma Check_ok pid s : infos_full s -> 0 <= pid -> exists z s', CerberusCheckStackCanary phys pid s = Some (z, s') /\ same_monitor s s'.
Proof.
  intros HL Hp. assert (HR : same_monitor s s) by done. unfold CerberusCheckStackCanary.
  destruct (_ || _) eqn:EG; [eauto|]. destruct (guard_pid _ _ Hp EG) as [Hi HP].
  destruct (info_get _ _ HL HP) as (p & Hg). rewrite Hg, option_bind_Some. destruct (negb (is_monitored p) || _); [eauto|]. destruct (phys _ =? 0); [eauto|].
  destruct (negb (words s _ =? _)); [|eauto]. destruct (CerberusLogViolation_ok _ _ _ HL HP Hi Hg) as (s1 & -> & S1 & _ & Hg1). rewrite option_bind_Some.
  assert (HL1 : infos_full s1) by (unfold infos_full; by rewrite (sm_len _ _ S1)).
  destruct (upd_info_keeps s1 pid (set_compromised true) _ HL1 HP (fun _ => eq_refl) Hg1) as (s2 & -> & S2 & _). rewrite option_bind_Some.
  exists 1, s2. split; [done|]. by etransitivity.
Qed.
Lemma monitored_bound s : cerberus_ok s -> 0 <= monitored_processes s <= 128.
Proof. intros HK. rewrite (ck_monitored _ HK). pose proof (countb_bound is_monitored (process_info s)). rewrite (ck_infos _ HK) in *. done. Qed.
Lemma Register_ok pid base sz s : cerberus_ok s -> 0 <= pid -> exists z s', CerberusRegisterProcess phys writable prot pid base sz s = Some (z, s') /\ cerberus_ok s'.
Proof.
  intros HK Hp. unfold CerberusRegisterProcess. destruct (_ || _) eqn:EG; [eauto|]. destruct (guard_pid _ _ Hp EG) as [Hi HP].
  destruct (info_get _ _ (ck_infos _ HK) HP) as (p & Hg). rewrite Hg, option_bind_Some. destruct (is_monitored p) eqn:Em; [eauto|].
  set (f := fun p => mk_info pid 0 0 _ true false). destruct (upd_info_ok s pid f p (ck_infos _ HK) HP Hg) as (s1 & -> & E1 & _ & Hl & Hc).
  rewrite Em in Hc. cbn in Hc. rewrite option_bind_Some. assert (HL1 : infos_full s1) by (unfold infos_full; rewrite Hl; apply HK).
  assert (Hinst : exists s2, (if prot && negb (base =? 0) && (16 <? sz)
      then r ← CerberusInstallStackCanary phys writable pid base sz s1; Some (snd r) else Some s1) = Some s2 /\ same_monitor s1 s2).
  { destruct (prot && _ && _); [|by exists s1]. destruct (Install_ok pid base sz s1 HL1 Hp) as (z & s2 & -> & S2). exists s2. done. }
  destruct Hinst as (s2 & -> & S2). rewrite option_bind_Some. exists 0. eexists. split; [reflexivity|]. pose proof (monitored_bound _ HK) as Hb.
  rewrite (sm_monitored _ _ S2), E1. cbn. wsimp. destruct S2 as [R2 A2 _ _ M2 L2 C2]. rewrite E1 in R2, A2. cbn in R2, A2.
  split; cbn; rewrite ?R2, ?A2, ?L2, ?Hl, ?C2, ?Hc; try apply HK. rewrite (ck_monitored _ HK). lia.
Qed.
Lemma Unregister_ok pid s : cerberus_ok s -> 0 <= pid -> exists s', CerberusUnregisterProcess pid s = Some s' /\ cerberus_ok s'.
Proof.
  intros HK Hp. unfold CerberusUnregisterProcess. destruct (_ || _) eqn:EG; [eauto|]. destruct (guard_pid _ _ Hp EG) as [Hi HP].
  destruct (info_get _ _ (ck_infos _ HK) HP) as (p & Hg). rewrite Hg, option_bind_Some. destruct (is_monitored p) eqn:Em; [|eauto].
  destruct (upd_info_ok s pid (set_monitoring false) p (ck_infos _ HK) HP Hg) as (s1 & -> & E1 & _ & Hl & Hc). rewrite option_bind_Some.
  rewrite Em in Hc. cbn [Z.b2z is_monitored set_monitoring] in Hc. pose proof (monitored_bound _ HK) as Hb. pose proof (countb_bound is_monitored (process_info s1)) as Hb1.
  assert (H1 : watch_regions s1 = watch_regions s /\ active_regions s1 = active_regions s /\ monitored_processes s1 = monitored_processes s) by (by rewrite E1).
  clear E1. destruct H1 as (R1 & A1 & M1). rewrite M1, (ck_monitored _ HK). rewrite (ck_monitored _ HK) in Hb. rewrite u32_small by lia.
  set (s2 := set_monitored _ s1). assert (HK2 : cerberus_ok s2) by (split; cbn; rewrite ?Hl, ?R1, ?A1; try apply HK; lia).
  assert (E2 : watch_regions s2 = [] ++ watch_regions s) by exact R1. clearbody s2.
  rewrite <- (ck_regions _ HK). destruct (drop_regions_ok pid (watch_regions s) s2 [] HK2 E2) as (s' & E & HK' & _). eauto.
Qed.
Lemma PreSchedule_ok pid s : cerberus_ok s -> pid_ok pid -> exists s', CerberusPreScheduleCheck phys pid s = Some s' /\ cerberus_ok s'.
Proof.
  intros HK Hp. unfold CerberusPreScheduleCheck. destruct (negb (is_initialized s)); [eauto|].
  destruct (info_get _ _ (ck_infos _ HK) Hp) as (p & ->). rewrite option_bind_Some. destruct (negb (is_monitored p)); [eauto|]. destruct (is_compromised p); [eauto|].
  destruct (Check_ok pid s (ck_infos _ HK) (proj1 Hp)) as (z & s' & -> & HS). rewrite option_bind_Some. eexists. split; [done|]. by eapply same_monitor_ok.
Qed.
Lemma Tick_ok s : cerberus_ok s -> cerberus_ok (CerberusTick s).
Proof.
  intros HK. unfold CerberusTick. destruct (negb (is_initialized s)); [done|]. cbv zeta. set (s1 := set_ticks _ s).
  assert (HK1 : cerberus_ok s1) by (destruct HK; by split). clearbody s1. destruct (_ =? 0); [|done].
  split; cbn; rewrite ?length_fmap; try apply HK1. rewrite countb_fmap; [apply HK1|]. intros x. unfold judge. by destruct (_ && _).
Qed.
Lemma Init_ok lock s : cerberus_ok s -> cerberus_ok (CerberusInit lock s).
Proof.
  intros HK. unfold CerberusInit. destruct lock; [|done]. split; cbn; rewrite ?length_fmap; try apply HK; symmetry; apply countb_none;
    intros x (y & -> & _)%list_elem_of_fmap; done.
Qed.
Lemma Analyze_ok addr err pid s : cerberus_ok s -> pid_ok pid -> exists z s', CerberusAnalyzeFault addr err pid s = Some (z, s') /\ cerberus_ok s'.
Proof.
  intros HK Hp. unfold CerberusAnalyzeFault. destruct (is_initialized s) eqn:Hi; cbn [negb]; [|eauto]. destruct (bool_decide _); [eauto|].
  destruct (info_get _ _ (ck_infos _ HK) Hp) as (p & Hg). destruct (CerberusLogViolation_ok _ _ _ (ck_infos _ HK) Hp Hi Hg) as (s' & -> & HS & _).
  rewrite option_bind_Some. eexists _, _. split; [done|]. by eapply same_monitor_ok.
Qed.
End ops.

(** ** Canaries *)
Section canary.
Context (phys : Z -> Z) (writable : Z -> bool).

Lemma poke_word a v s : writable a = true -> words (poke writable a v s) a = u64 v.
Proof. intros H. unfold poke. rewrite H. cbn. apply fn_lookup_insert. Qed.
(** What a successful installation leaves. *)
Lemma Install_success pid top size s s1 p : infos_full s -> pid_ok pid -> is_initialized s = true -> arr_get (process_info s) pid = Some p ->
  writable (u64 (top - 256)) = true -> CerberusInstallStackCanary phys writable pid top size s = Some (0, s1) ->
  is_initialized s1 = true /\ infos_full s1 /\ arr_get (process_info s1) pid = Some (set_canary (u64 (top - 256)) p) /\
  words s1 (u64 (top - 256)) = STACK_CANARY_VALUE /\ (phys (u64 (top - 256)) =? 0) = false.
Proof.
  intros HL Hp Hi Hg Hw. unfold CerberusInstallStackCanary. set (a := u64 (top - 256)) in *.
  rewrite Hi, (proj2 (Z.leb_gt (Z.of_nat CERBERUS_MAX_PROCESSES) pid)) by apply Hp. cbn [negb orb].
  destruct (size <? 0x2000); [done|]. cbv zeta. destruct (phys a =? 0); [done|].
  destruct (poke_same writable a 0x1234567890ABCDEF s) as [S1 P1]. set (t1 := poke writable a _ s) in *. clearbody t1.
  destruct (negb (words t1 a =? _)); [done|]. destruct (poke_same writable a STACK_CANARY_VALUE t1) as [S2 P2].
  pose proof (poke_word a STACK_CANARY_VALUE t1 Hw) as W2. set (t2 := poke writable a _ t1) in *. clearbody t2.
  assert (HL2 : infos_full t2) by (unfold infos_full; by rewrite P2, P1). assert (Hg2 : arr_get (process_info t2) pid = Some p) by (by rewrite P2, P1).
  destruct (upd_info_keeps t2 pid (set_canary a) p HL2 Hp (fun _ => eq_refl) Hg2) as (t3 & -> & S3 & W3 & G3). rewrite option_bind_Some. intros [= <-].
  split_and!; [by rewrite (sm_init _ _ S3), (sm_init _ _ S2), (sm_init _ _ S1)|unfold infos_full; by rewrite (sm_len _ _ S3)|done| |done].
  rewrite W3, W2. done.
Qed.
(** The two outcomes of a check of a monitored process with a canary. *)
Lemma Check_outcome pid s p : infos_full s -> pid_ok pid -> is_initialized s = true -> arr_get (process_info s) pid = Some p ->
  is_monitored p = true -> stack_canary_addr p <> 0 -> (phys (stack_canary_addr p) =? 0) = false ->
  if decide (words s (stack_canary_addr p) = STACK_CANARY_VALUE) then CerberusCheckStackCanary phys pid s = Some (0, s)
  else exists s2 p2, CerberusCheckStackCanary phys pid s = Some (1, s2) /\ arr_get (process_info s2) pid = Some p2 /\
    is_compromised p2 = true /\ violation_count p2 = u32 (violation_count p + 1).
Proof.
  intros HL Hp Hi Hg Hm Ha Hph. unfold CerberusCheckStackCanary.
  rewrite Hi, (proj2 (Z.leb_gt (Z.of_nat CERBERUS_MAX_PROCESSES) pid)) by apply Hp. cbn [negb orb].
  rewrite Hg, option_bind_Some, Hm, (proj2 (Z.eqb_neq _ 0) Ha), Hph. cbn [negb orb].
  destruct (decide (words s (stack_canary_addr p) = STACK_CANARY_VALUE)) as [E|E]; [by rewrite (proj2 (Z.eqb_eq _ _) E)|].
  rewrite (proj2 (Z.eqb_neq _ _) E). cbn [negb]. destruct (CerberusLogViolation_ok _ _ _ HL Hp Hi Hg) as (s1 & -> & S1 & _ & Hg1). rewrite option_bind_Some.
  assert (HL1 : infos_full s1) by (unfold infos_full; by rewrite (sm_len _ _ S1)).
  destruct (upd_info_keeps s1 pid (set_compromised true) _ HL1 Hp (fun _ => eq_refl) Hg1) as (s2 & -> & _ & _ & G2). rewrite option_bind_Some.
  eexists s2, _. split; [done|]. split; [exact G2|]. done.
Qed.
End canary.

(** ** Runs *)
Inductive cerberus_call :=
| KInit (lock : bool)
| KRegister (pid stack_base stack_size : Z)
| KUnregister (pid : Z)
| KInstall (pid stack_top stack_size : Z)
| KCheck (pid : Z)
| KPreSchedule (pid : Z)
| KTick
| KFault (fault_addr error_code pid : Z)
| KAlloc (addr size pid : Z)
| KFree (addr pid : Z)
| KStore (addr val : Z).
Section run.
Context (phys : Z -> Z) (writable : Z -> bool) (prot : bool).

(** A call to the monitor, or a store by any other code. *)
Definition cerberus_exec (c : cerberus_call) (s : cerberus) : option cerberus :=
  match c with
  | KInit lock => Some (CerberusInit lock s)
  | KRegister pid base sz => snd <$> CerberusRegisterProcess phys writable prot pid base sz s
  | KUnregister pid => CerberusUnregisterProcess pid s
  | KInstall pid top sz => snd <$> CerberusInstallStackCanary phys writable pid top sz s
  | KCheck pid => snd <$> CerberusCheckStackCanary phys pid s
  | KPreSchedule pid => CerberusPreScheduleCheck phys pid s
  | KTick => Some (CerberusTick s)
  | KFault a e pid => snd <$> CerberusAnalyzeFault a e pid s
  | KAlloc a sz pid => snd <$> CerberusTrackAlloc a sz pid s
  | KFree a pid => snd <$> CerberusTrackFree a pid s
  | KStore a v => Some (poke writable a v s)
  end.
(** The arguments that are process identifiers are of type [uint32_t]. *)
Definition call_typed (c : cerberus_call) : Prop :=
  match c with
  | KRegister pid _ _ | KUnregister pid | KInstall pid _ _ | KCheck pid | KAlloc _ _ pid | KPreSchedule pid | KFault _ _ pid | KFree _ pid =>
      0 <= pid < 2 ^ 32
  | _ => True
  end.
(** The calls that index [process_info] past its end: the check before a switch, a fault that is
    judged a violation, and a free of what is not recorded, for an identifier of 128 or more. *)
Definition leaves_table (c : cerberus_call) (s : cerberus) : bool :=
  is_initialized s &&
  match c with
  | KPreSchedule pid => Z.of_nat CERBERUS_MAX_PROCESSES <=? pid
  | KFault a e pid => bool_decide (fault_kind a e <> MEM_VIOLATION_NONE) && (Z.of_nat CERBERUS_MAX_PROCESSES <=? pid)
  | KFree a pid => bool_decide ((a, pid) ∉ tracked s) && (Z.of_nat CERBERUS_MAX_PROCESSES <=? pid)
  | _ => false
  end.
Fixpoint cerberus_exec_all (cs : list cerberus_call) (s : cerberus) : option cerberus :=
  match cs with
  | [] => Some s
  | c :: cs' => s' ← cerberus_exec c s; cerberus_exec_all cs' s'
  end.
Lemma boot_cerberus_ok w : cerberus_ok (boot_cerberus w).
Proof. split; reflexivity. Qed.
Lemma info_none s pid : infos_full s -> ~ pid_ok pid -> arr_get (process_info s) pid = None.
Proof. intros HL Hp. destruct (arr_get (process_info s) pid) eqn:E; [|done]. apply arr_get_range in E. rewrite HL in E. done. Qed.
Lemma LogViolation_none pid s : infos_full s -> is_initialized s = true -> ~ pid_ok pid -> CerberusLogViolation pid s = None.
Proof. intros HL Hi Hp. unfold CerberusLogViolation, upd_info. rewrite Hi. cbn [negb]. rewrite info_none by done. done. Qed.
(** A call leaves the table, or runs and keeps the invariant. *)
Definition exec_spec (c : cerberus_call) (s : cerberus) : Prop :=
  match cerberus_exec c s with Some s' => leaves_table c s = false /\ cerberus_ok s' | None => leaves_table c s = true end.
Lemma exec_runs c s s' : cerberus_exec c s = Some s' -> leaves_table c s = false -> cerberus_ok s' -> exec_spec c s.
Proof. unfold exec_spec. by intros ->. Qed.
Lemma exec_leaves c s : cerberus_exec c s = None -> leaves_table c s = true -> exec_spec c s.
Proof. unfold exec_spec. by intros ->. Qed.
Lemma pid_cases pid : 0 <= pid < 2 ^ 32 -> pid_ok pid /\ (Z.of_nat CERBERUS_MAX_PROCESSES <=? pid) = false \/
  ~ pid_ok pid /\ (Z.of_nat CERBERUS_MAX_PROCESSES <=? pid) = true.
Proof. intros H. unfold pid_ok. destruct (Z.leb_spec (Z.of_nat CERBERUS_MAX_PROCESSES) pid); [right|left]; (split; [lia|done]). Qed.
Lemma PreSchedule_spec pid s : cerberus_ok s -> 0 <= pid < 2 ^ 32 -> exec_spec (KPreSchedule pid) s.
Proof.
  intros HK H0. destruct (pid_cases pid H0) as [[Hp EL]|[Hp EL]].
  - destruct (PreSchedule_ok phys pid s HK Hp) as (s' & E & HK'). eapply exec_runs; [exact E| |done]. unfold leaves_table. by rewrite EL, andb_false_r.
  - destruct (is_initialized s) eqn:Hi.
    + apply exec_leaves; cbn [cerberus_exec]; [|unfold leaves_table; by rewrite Hi, EL].
      unfold CerberusPreScheduleCheck. rewrite Hi. cbn [negb]. by rewrite info_none by (try done; apply HK).
    + apply (exec_runs _ _ s); [|unfold leaves_table; by rewrite Hi|done]. cbn [cerberus_exec]. unfold CerberusPreScheduleCheck. by rewrite Hi.
Qed.
Lemma Fault_spec a e pid s : cerberus_ok s -> 0 <= pid < 2 ^ 32 -> exec_spec (KFault a e pid) s.
Proof.
  intros HK H0. destruct (pid_cases pid H0) as [[Hp EL]|[Hp EL]].
  - destruct (Analyze_ok a e pid s HK Hp) as (z & s' & E & HK'). apply (exec_runs _ _ s'); [cbn [cerberus_exec]; by rewrite E| |done].
    unfold leaves_table. by rewrite EL, !andb_false_r.
  - unfold exec_spec. cbn [cerberus_exec]. unfold leaves_table, CerberusAnalyzeFault. rewrite EL. destruct (is_initialized s) eqn:Hi; cbn [negb]; [|done].
    rewrite bool_decide_not. destruct (bool_decide (fault_kind a e = MEM_VIOLATION_NONE)); [done|].
    by rewrite LogViolation_none by (try done; apply HK).
Qed.
Lemma Free_spec a pid s : cerberus_ok s -> 0 <= pid < 2 ^ 32 -> exec_spec (KFree a pid) s.
Proof.
  intros HK H0. destruct (is_initialized s) eqn:Hi; [|apply (exec_runs _ _ s);
    [cbn [cerberus_exec]; unfold CerberusTrackFree; by rewrite Hi|unfold leaves_table; by rewrite Hi|done]].
  destruct (TrackFree_cases a pid s HK Hi) as [(HT & s' & E & HK' & _)|(HT & E)].
  - apply (exec_runs _ _ s'); [cbn [cerberus_exec]; by rewrite E| |done]. unfold leaves_table. by rewrite bool_decide_false, andb_false_r by auto.
  - destruct (pid_cases pid H0) as [[Hp EL]|[Hp EL]].
    + destruct (TrackFree_ok a pid s HK Hi Hp) as (z & s' & E' & HK' & _). apply (exec_runs _ _ s'); [cbn [cerberus_exec]; by rewrite E'| |done].
      unfold leaves_table. by rewrite EL, !andb_false_r.
    + apply exec_leaves; [cbn [cerberus_exec]; rewrite E; by rewrite LogViolation_none by (try done; apply HK)|].
      unfold leaves_table. by rewrite Hi, EL, bool_decide_true by done.
Qed.
Lemma cerberus_exec_ok c s : cerberus_ok s -> call_typed c -> exec_spec c s.
Proof.
  intros HK Hc. pose proof (andb_false_r (is_initialized s)) as HL.
  destruct c as [lock|pid base sz|pid|pid top sz|pid|pid| |a e pid|a sz pid|a pid|a v]; cbn [call_typed] in Hc;
    try (by apply PreSchedule_spec); try (by apply Fault_spec); try (by apply Free_spec).
  - eapply exec_runs; [done..|]. by apply Init_ok.
  - destruct (Register_ok phys writable prot pid base sz s HK (proj1 Hc)) as (z & s' & E & ?). apply (exec_runs _ _ s'); [cbn [cerberus_exec]; by rewrite E|done..].
  - destruct (Unregister_ok pid s HK (proj1 Hc)) as (s' & E & ?). by apply (exec_runs _ _ s').
  - destruct (Install_ok phys writable pid top sz s (ck_infos _ HK) (proj1 Hc)) as (z & s' & E & ?).
    apply (exec_runs _ _ s'); [cbn [cerberus_exec]; by rewrite E|done|by eapply same_monitor_ok].
  - destruct (Check_ok phys pid s (ck_infos _ HK) (proj1 Hc)) as (z & s' & E & ?).
    apply (exec_runs _ _ s'); [cbn [cerberus_exec]; by rewrite E|done|by eapply same_monitor_ok].
  - eapply exec_runs; [done..|]. by apply Tick_ok.
  - destruct (is_initialized s) eqn:Hi; [|apply (exec_runs _ _ s); [cbn [cerberus_exec]; unfold CerberusTrackAlloc; by rewrite Hi|unfold leaves_table; by rewrite Hi|done]].
    destruct (TrackAlloc_ok a sz pid s HK Hi) as (z & s' & E & ? & _).
    apply (exec_runs _ _ s'); [cbn [cerberus_exec]; by rewrite E|unfold leaves_table; by rewrite andb_false_r|done].
  - eapply exec_runs; [done..|]. eapply same_monitor_ok; [apply poke_same|done].
Qed.
Lemma cerberus_exec_all_app l1 l2 : forall s, cerberus_exec_all (l1 ++ l2) s = s' ← cerberus_exec_all l1 s; cerberus_exec_all l2 s'.
Proof. induction l1 as [|c l1 IH]; intros s; cbn [app cerberus_exec_all]; [done|]. destruct (cerberus_exec c s); cbn; [apply IH|done]. Qed.
Lemma cerberus_exec_all_some cs : forall s s', cerberus_ok s -> Forall call_typed cs -> cerberus_exec_all cs s = Some s' -> cerberus_ok s'.
Proof.
  induction cs as [|c cs IH]; intros s s' HK HC; cbn [cerberus_exec_all]; [by intros [= <-]|]. apply Forall_cons_iff in HC as [Hc HC].
  pose proof (cerberus_exec_ok c s HK Hc) as H. unfold exec_spec in H. destruct (cerberus_exec c s) as [s1|]; [|done]. rewrite option_bind_Some. apply IH; [apply H|done].
Qed.
Lemma cerberus_exec_all_none cs : forall s, cerberus_ok s -> Forall call_typed cs -> cerberus_exec_all cs s = None ->
  exists l c l' s', cs = l ++ c :: l' /\ cerberus_exec_all l s = Some s' /\ leaves_table c s' = true.
Proof.
  induction cs as [|c cs IH]; intros s HK HC; cbn [cerberus_exec_all]; [done|]. apply Forall_cons_iff in HC as [Hc HC].
  pose proof (cerberus_exec_ok c s HK Hc) as H. unfold exec_spec in H. destruct (cerberus_exec c s) as [s1|] eqn:Ec.
  - rewrite option_bind_Some. intros E. destruct (IH s1 (proj2 H) HC E) as (l & d & l' & s' & -> & E' & HL).
    exists (c :: l), d, l', s'. split; [done|]. cbn [cerberus_exec_all]. by rewrite Ec, option_bind_Some.
  - intros _. exists [], c, cs, s. done.
Qed.
End run.

(** ** Claims *)
(** C9. The monitor's counters are exact, and the runs that leave its tables are exactly these.
    From the zeroed static state, a sequence of initialisations, registrations, unregistrations,
    canary installations and checks, ticks, faults, tracked allocations and frees, and foreign
    stores, with any process identifiers, leaves a table exactly when it comes to a call
    with an identifier of 128 or more that is a check before a switch, a fault judged a violation, or
    a free of an allocation that is not recorded, and the monitor is initialised (the three calls do
    not check the identifier).  In every other sequence [active_regions] is at the end the number of
    tracked allocations, at most 64, and [monitored_processes] the number of monitored processes,
    at most 128. *)
Theorem cerberus_counts phys writable prot w calls : Forall call_typed calls ->
  (cerberus_exec_all phys writable prot calls (boot_cerberus w) = None <->
     exists l c l' s, calls = l ++ c :: l' /\ cerberus_exec_all phys writable prot l (boot_cerberus w) = Some s /\ leaves_table c s = true) /\
  (forall s, cerberus_exec_all phys writable prot calls (boot_cerberus w) = Some s ->
     active_regions s = Z.of_nat (length (tracked s)) /\ active_regions s <= 64 /\
     monitored_processes s = countb is_monitored (process_info s) /\ monitored_processes s <= 128).
Proof.
  intros HC. pose proof (boot_cerberus_ok w) as HB. split; [split; [by apply cerberus_exec_all_none|]|].
  - intros (l & c & l' & s & -> & El & HL). rewrite cerberus_exec_all_app, El, option_bind_Some. cbn [cerberus_exec_all].
    apply Forall_app in HC as [HC1 [HC2 _]%Forall_cons_iff].
    pose proof (cerberus_exec_ok phys writable prot c s (cerberus_exec_all_some _ _ _ _ _ _ HB HC1 El) HC2) as H. unfold exec_spec in H.
    destruct (cerberus_exec _ _ _ c s); [|done]. destruct H as [H _]; congruence.
  - intros s E. pose proof (cerberus_exec_all_some phys writable prot calls _ _ HB HC E) as HK. split_and!.
    + symmetry. by apply tracked_length.
    + rewrite (ck_active _ HK). pose proof (countb_bound is_active (watch_regions s)) as Hb. rewrite (ck_regions _ HK) in Hb. apply Hb.
    + apply HK.
    + by apply monitored_bound.
Qed.
Definition demo_monitor_calls : list cerberus_call := [KInit true; KRegister 5 0x9000 0x4000; KAlloc 0x2000 64 5; KAlloc 0x3000 64 200; KFree 0x2000 5; KFree 0x3000 200; KUnregister 5].
(** Process 200 may free what it allocated, but not twice. *)
Lemma cerberus_counts_witness :
  (exists s, cerberus_exec_all (fun a => a) (fun _ => true) true demo_monitor_calls (boot_cerberus (fun _ => 0)) = Some s /\
     active_regions s = Z.of_nat (length (tracked s))) /\
  cerberus_exec_all (fun a => a) (fun _ => true) true (demo_monitor_calls ++ [KFree 0x3000 200]) (boot_cerberus (fun _ => 0)) = None.
Proof.
  assert (HC : Forall call_typed (demo_monitor_calls ++ [KFree 0x3000 200])).
  { unfold demo_monitor_calls, call_typed. cbn [app]. repeat (apply Forall_cons_iff; split; [lia|]). by apply Forall_nil. }
  destruct (cerberus_exec_all (fun a => a) (fun _ => true) true demo_monitor_calls (boot_cerberus (fun _ => 0))) as [s|] eqn:E; [|vm_compute in E; discriminate].
  split.
  - exists s. split; [reflexivity|]. apply Forall_app in HC as [HC _].
    destruct (cerberus_counts (fun a => a) (fun _ => true) true (fun _ => 0) demo_monitor_calls HC) as [_ H]. apply (H s E).
  - apply (cerberus_counts (fun a => a) (fun _ => true) true (fun _ => 0) _ HC). eexists _, _, [], s. split; [reflexivity|]. split; [exact E|].
    assert (HL : option_map (leaves_table (KFree 0x3000 200)) (cerberus_exec_all (fun a => a) (fun _ => true) true demo_monitor_calls (boot_cerberus (fun _ => 0))) = Some true)
      by (vm_compute; reflexivity). rewrite E in HL. by injection HL.
Defined.

(** The monitor detects bad frees and overwritten canaries.  While it runs, an allocation is
    recorded when one of the 64 slots is free and refused otherwise; a free of a recorded
    (address, process) removes one record and returns 0, and any other free changes no record,
    returns 1 and counts a violation of that process.  After a successful
    [CerberusInstallStackCanary] of a monitored process with a non-zero canary address the check
    passes, and after a store of anything else over the canary it returns 1, marks the process
    compromised and counts the violation. *)
Theorem cerberus_detects phys writable s pid p addr sz : cerberus_ok s -> is_initialized s = true -> pid_ok pid -> arr_get (process_info s) pid = Some p ->
  (exists z s', CerberusTrackAlloc addr sz pid s = Some (z, s') /\
     if decide (length (tracked s) < CERBERUS_MAX_WATCH_REGIONS)%nat then z = 0 /\ tracked s' ≡ₚ (addr, pid) :: tracked s else z = -1 /\ s' = s) /\
  (exists z s', CerberusTrackFree addr pid s = Some (z, s') /\
     if decide ((addr, pid) ∈ tracked s) then z = 0 /\ tracked s ≡ₚ (addr, pid) :: tracked s'
     else z = 1 /\ tracked s' = tracked s /\ exists p', arr_get (process_info s') pid = Some p' /\ violation_count p' = u32 (violation_count p + 1)) /\
  (forall top size s1, is_monitored p = true -> u64 (top - 256) <> 0 -> writable (u64 (top - 256)) = true -> CerberusInstallStackCanary phys writable pid top size s = Some (0, s1) ->
     CerberusCheckStackCanary phys pid s1 = Some (0, s1) /\
     forall v, u64 v <> STACK_CANARY_VALUE -> exists s2 p2, CerberusCheckStackCanary phys pid (poke writable (u64 (top - 256)) v s1) = Some (1, s2) /\
       arr_get (process_info s2) pid = Some p2 /\ is_compromised p2 = true /\ violation_count p2 = u32 (violation_count p + 1)).
Proof.
  intros HK Hi Hp Hg. split; [|split].
  - destruct (TrackAlloc_ok addr sz pid s HK Hi) as (z & s' & E & _ & H). eauto.
  - destruct (TrackFree_ok addr pid s HK Hi Hp) as (z & s' & E & _ & H). exists z, s'. split; [done|]. destruct (decide _); [done|].
    destruct H as (-> & HT & HL). destruct (CerberusLogViolation_ok _ _ _ (ck_infos _ HK) Hp Hi Hg) as (s2 & E2 & _ & _ & Hg2).
    rewrite HL in E2. injection E2 as <-. split_and!; [done..|]. by eexists.
  - intros top size s1 Hm Ha Hw E. destruct (Install_success _ _ _ _ _ _ _ _ (ck_infos _ HK) Hp Hi Hg Hw E) as (I1 & L1 & G1 & W1 & P1). split.
    + pose proof (Check_outcome phys pid s1 _ L1 Hp I1 G1 Hm Ha P1) as H. cbn [stack_canary_addr set_canary] in H. by rewrite decide_True in H.
    + intros v Hv. destruct (poke_same writable (u64 (top - 256)) v s1) as [S2 P2]. pose proof (poke_word writable (u64 (top - 256)) v s1 Hw) as W2.
      set (t := poke _ _ _ s1) in *. clearbody t.
      assert (L2 : infos_full t) by (unfold infos_full; by rewrite P2). assert (I2 : is_initialized t = true) by (by rewrite (sm_init _ _ S2)).
      rewrite <- P2 in G1. pose proof (Check_outcome phys pid t _ L2 Hp I2 G1 Hm Ha P1) as H. cbn [stack_canary_addr set_canary] in H.
      rewrite decide_False in H by (rewrite W2; done). exact H.
Qed.
(** Process 5 with a stack at 0x9000, and a free of a block it never had. *)
Definition demo_monitor : cerberus := default (boot_cerberus (fun _ => 0)) (cerberus_exec_all (fun a => a) (fun _ => true) true [KInit true; KRegister 5 0x9000 0x4000] (boot_cerberus (fun _ => 0))).
Lemma cerberus_detects_witness : exists z s', CerberusTrackFree 0x7000 5 demo_monitor = Some (z, s') /\ z = 1.
Proof.
  assert (HK : cerberus_ok demo_monitor).
  { apply (cerberus_exec_all_some (fun a => a) (fun _ => true) true [KInit true; KRegister 5 0x9000 0x4000] (boot_cerberus (fun _ => 0))).
    - apply boot_cerberus_ok.
    - apply Forall_cons_iff; split; [exact I|]. apply Forall_cons_iff; split; [cbn; lia|]. by apply Forall_nil.
    - vm_compute. reflexivity. }
  assert (Hi : is_initialized demo_monitor = true) by (vm_compute; reflexivity).
  assert (HP : pid_ok 5) by (unfold pid_ok, CERBERUS_MAX_PROCESSES; lia).
  destruct (info_get _ _ (ck_infos _ HK) HP) as (p & Hg).
  destruct (cerberus_detects (fun a => a) (fun _ => true) demo_monitor 5 p 0x7000 64 HK Hi HP Hg) as (_ & (z & s' & E & H) & _).
  exists z, s'. split; [exact E|]. rewrite decide_False in H; [apply H|].
  assert (ET : tracked demo_monitor = []) by (vm_compute; reflexivity). rewrite ET. apply not_elem_of_nil.
Defined.
