(* ===== verification/BlockDev.v ===== *)
(** Block devices as the file systems see them ([src/fs/BlockDevice.h]): numbered sectors of
    512 bytes, read and written in runs.

    The drivers behind [BlockDeviceRead] and [BlockDeviceWrite] are hardware access; the class
    states what they promise, and the file-system model is proved against it.  A read or a write
    may fail; a failed write may leave anything in the sectors it named.  [ReliableDevice] adds
    that accesses inside the device succeed.  The RAM disk implements both. *)
From Stdlib Require Import ZArith Lia.
From stdpp Require Import base tactics list numbers option.
From S2P Require Import Prelude.

Definition SECTOR : nat := 512.
(** [n] consecutive sectors from [lba]. *)
Fixpoint run_of (sec : Z -> list Z) (lba : Z) (n : nat) : list Z :=
  match n with
  | O => []
  | S n' => sec lba ++ run_of sec (lba + 1) n'
  end.
(** The [k]-th sector of a buffer. *)
Definition chunk (k : nat) (bs : list Z) : list Z := take SECTOR (drop (SECTOR * k) bs).

Class BlockDevice (D : Type) := {
  capacity : D -> Z;
  sector : D -> Z -> list Z;
  BlockDeviceRead : D -> Z -> nat -> option (list Z);
  BlockDeviceWrite : D -> Z -> nat -> list Z -> bool * D;
  sector_length : forall d i, length (sector d i) = SECTOR;
  read_spec : forall d lba n bs, BlockDeviceRead d lba n = Some bs -> bs = run_of (sector d) lba n;
  write_capacity : forall d lba n bs ok d', BlockDeviceWrite d lba n bs = (ok, d') -> capacity d' = capacity d;
  write_other : forall d lba n bs ok d' i, BlockDeviceWrite d lba n bs = (ok, d') -> i < lba \/ lba + Z.of_nat n <= i -> sector d' i = sector d i;
  write_same : forall d lba n bs d' k, BlockDeviceWrite d lba n bs = (true, d') -> length bs = (SECTOR * n)%nat -> (k < n)%nat ->
    sector d' (lba + Z.of_nat k) = chunk k bs
}.
Class ReliableDevice (D : Type) `{!BlockDevice D} := {
  read_ok : forall d lba n, 0 <= lba -> lba + Z.of_nat n <= capacity d -> is_Some (BlockDeviceRead d lba n);
  write_ok : forall d lba n bs, 0 <= lba -> lba + Z.of_nat n <= capacity d -> fst (BlockDeviceWrite d lba n bs) = true
}.

Lemma run_of_length sec lba n : (forall i, length (sec i) = SECTOR) -> length (run_of sec lba n) = (SECTOR * n)%nat.
Proof. intros H. revert lba. induction n as [|n IH]; intros lba; cbn [run_of]; [by rewrite Nat.mul_0_r|]. rewrite length_app, H, IH. lia. Qed.
Lemma run_of_ext sec sec' lba n : (forall i, lba <= i < lba + Z.of_nat n -> sec i = sec' i) -> run_of sec lba n = run_of sec' lba n.
Proof.
  revert lba. induction n as [|n IH]; intros lba H; cbn [run_of]; [done|]. rewrite (H lba), (IH (lba + 1)) by (intros; try apply H; lia). done.
Qed.
Lemma chunk_run sec lba n k : (forall i, length (sec i) = SECTOR) -> (k < n)%nat -> chunk k (run_of sec lba n) = sec (lba + Z.of_nat k).
Proof.
  intros HL. revert lba k. induction n as [|n IH]; intros lba k Hk; [lia|]. cbn [run_of]. unfold chunk in *. destruct k as [|k].
  - rewrite Nat.mul_0_r, drop_0, take_app_length' by done. by rewrite Z.add_0_r.
  - replace (SECTOR * S k)%nat with (length (sec lba) + SECTOR * k)%nat by (rewrite HL; lia). rewrite <- drop_drop, drop_app_length, IH by lia.
    f_equal. lia.
Qed.
Lemma chunk_length n k bs : length bs = (SECTOR * n)%nat -> (k < n)%nat -> length (chunk k bs) = SECTOR.
Proof.
  intros Hl Hk. unfold chunk. rewrite length_take, length_drop, Hl. assert (SECTOR * S k <= SECTOR * n)%nat by (apply Nat.mul_le_mono_l; lia).
  rewrite Nat.mul_succ_r in *. lia.
Qed.
(** A run whose chunks are those of a buffer is the buffer. *)
Lemma run_of_chunks sec lba n bs : length bs = (SECTOR * n)%nat -> (forall k, (k < n)%nat -> sec (lba + Z.of_nat k) = chunk k bs) -> run_of sec lba n = bs.
Proof.
  revert lba bs. induction n as [|n IH]; intros lba bs HL H; cbn [run_of].
  - rewrite Nat.mul_0_r in HL. by destruct bs.
  - pose proof (H 0%nat ltac:(lia)) as H0. rewrite Z.add_0_r in H0. rewrite H0, (IH (lba + 1) (drop SECTOR bs)).
    + unfold chunk. by rewrite Nat.mul_0_r, drop_0, take_drop.
    + rewrite length_drop. lia.
    + intros k Hk. replace (lba + 1 + Z.of_nat k) with (lba + Z.of_nat (S k)) by lia. rewrite H by lia. unfold chunk. rewrite drop_drop. do 2 f_equal. lia.
Qed.

(** ** A RAM disk *)
Record ram_disk := mk_ram { ram_sectors : list (list Z) }.
Definition pad512 (l : list Z) : list Z := resize SECTOR 0 l.
Definition ram_sector (d : ram_disk) (i : Z) : list Z := pad512 (default [] (arr_get (ram_sectors d) i)).
Definition ram_capacity (d : ram_disk) : Z := Z.of_nat (length (ram_sectors d)).
Definition ram_in (d : ram_disk) (lba : Z) (n : nat) : bool := (0 <=? lba) && (lba + Z.of_nat n <=? ram_capacity d).
Definition ram_read (d : ram_disk) (lba : Z) (n : nat) : option (list Z) :=
  if ram_in d lba n then Some (run_of (ram_sector d) lba n) else None.
Fixpoint ram_store (l : list (list Z)) (i : nat) (n : nat) (bs : list Z) : list (list Z) :=
  match n with
  | O => l
  | S n' => ram_store (<[i := take SECTOR bs]> l) (S i) n' (drop SECTOR bs)
  end.
Definition ram_write (d : ram_disk) (lba : Z) (n : nat) (bs : list Z) : bool * ram_disk :=
  if ram_in d lba n then (true, mk_ram (ram_store (ram_sectors d) (Z.to_nat lba) n bs)) else (false, d).
Lemma ram_store_length l i n bs : length (ram_store l i n bs) = length l.
Proof. revert l i bs. induction n as [|n IH]; intros l i bs; cbn [ram_store]; [done|]. by rewrite IH, length_insert. Qed.
Lemma ram_store_other l i n bs k : (k < i \/ i + n <= k)%nat -> ram_store l i n bs !! k = l !! k.
Proof.
  revert l i bs. induction n as [|n IH]; intros l i bs Hk; cbn [ram_store]; [done|]. rewrite IH by lia. apply list_lookup_insert_ne. lia.
Qed.
Lemma ram_store_same l i n bs k : (i + n <= length l)%nat -> (k < n)%nat -> ram_store l i n bs !! (i + k)%nat = Some (chunk k bs).
Proof.
  revert l i bs k. induction n as [|n IH]; intros l i bs k Hl Hk; [lia|]. cbn [ram_store]. unfold chunk in *. destruct k as [|k].
  - rewrite Nat.add_0_r, ram_store_other, list_lookup_insert_eq by lia. by rewrite Nat.mul_0_r, drop_0.
  - replace (i + S k)%nat with (S i + k)%nat by lia. rewrite IH by (rewrite ?length_insert; lia). rewrite drop_drop. do 3 f_equal. lia.
Qed.
#[export] Program Instance ram_block_device : BlockDevice ram_disk := {
  capacity := ram_capacity;
  sector := ram_sector;
  BlockDeviceRead := ram_read;
  BlockDeviceWrite := ram_write
}.
Next Obligation. intros d i. apply length_resize. Qed.
Next Obligation. intros d lba n bs. unfold ram_read. destruct (ram_in d lba n); [by intros [= <-]|done]. Qed.
Next Obligation.
  intros d lba n bs ok d'. unfold ram_write, ram_capacity. destruct (ram_in d lba n); intros [= <- <-]; [|done]. cbn. by rewrite ram_store_length.
Qed.
Next Obligation.
  intros d lba n bs ok d' i. unfold ram_write, ram_sector. destruct (ram_in d lba n) eqn:E; intros [= <- <-] Hi; [|done].
  apply andb_true_iff in E as [E1 E2]. zbool. cbn. do 2 f_equal. unfold arr_get. destruct (Z.leb_spec 0 i); [|done]. apply ram_store_other. lia.
Qed.
Next Obligation.
  intros d lba n bs d' k. unfold ram_write, ram_sector. destruct (ram_in d lba n) eqn:E; [|done]. intros [= <-] Hl Hk.
  apply andb_true_iff in E as [E1 E2]. zbool. unfold ram_capacity in E2. cbn. unfold arr_get. rewrite (proj2 (Z.leb_le 0 _)) by lia.
  rewrite Z2Nat.inj_add, Nat2Z.id, ram_store_same by lia. cbn. unfold pad512. apply resize_all_alt. symmetry. by apply (chunk_length n).
Qed.
#[export] Instance ram_reliable : ReliableDevice ram_disk.
Proof.
  split; intros d lba n; [|intros bs]; intros H0 H1; cbn in *; unfold ram_read, ram_write, ram_in;
    rewrite (proj2 (Z.leb_le 0 lba)), (proj2 (Z.leb_le _ _) H1) by done; [eauto|done].
Qed.
