(* ===== verification/Fat1x.v ===== *)
(** The FAT12 file system of [src/fs/FAT/FAT1x.c] on a block device.

    [fat1x] is what an operation on the active volume sees: the device's contents, the volume
    (boot sector, geometry and the cached table), the shared sector buffer, and the outcomes of
    the coming calls of [KernelMemoryAlloc] ([allocs]; an empty list means success).  An
    operation is a state transformer that returns [None] when the C code faults: an access
    outside the cached table or outside a caller's buffer, a division by zero, a NULL buffer;
    or when a loop over a cyclic cluster chain never ends.

    A C string is the list of its bytes without the terminator; a directory entry is its 32
    bytes.  What a block holds after [KernelFree] is the parameter [freed]: [Fat12FindEntry]
    reads a freed cluster buffer.  Console messages are left out, except for the listings,
    which are returned. *)
From Stdlib Require Import ZArith Lia.
From stdpp Require Import base tactics list numbers option.
From S2P Require Import Prelude BlockDev.

(** ** Bytes *)
Definition put16 (v : Z) : bytes := [u8 v; u8 (Z.shiftr v 8)].
Definition put32 (v : Z) : bytes := put16 v ++ put16 (Z.shiftr v 16).

(** ** Data *)
Record Fat1xBootSector := mk_boot {
  jump0 : Z;
  oem_name : bytes;
  bytes_per_sector : Z;
  sectors_per_cluster : Z;
  reserved_sectors : Z;
  fat_count : Z;
  root_entries : Z;
  total_sectors_16 : Z;
  media_type : Z;
  sectors_per_fat : Z;
  sectors_per_track : Z;
  heads : Z;
  hidden_sectors : Z;
  total_sectors_32 : Z
}.
(** The packed structure laid over the first bytes of a sector. *)
Definition boot_of (l : bytes) : Fat1xBootSector :=
  mk_boot (byte_at 0 l) (take 8 (drop 3 l)) (get16 11 l) (byte_at 13 l) (get16 14 l) (byte_at 16 l) (get16 17 l)
    (get16 19 l) (byte_at 21 l) (get16 22 l) (get16 24 l) (get16 26 l) (get32 28 l) (get32 32 l).

(** The fields of a directory entry. *)
Definition e_first (e : bytes) : Z := byte_at 0 e.
Definition e_name (e : bytes) : bytes := take 11 e.
Definition e_attr (e : bytes) : Z := byte_at 11 e.
Definition e_cluster_low (e : bytes) : Z := get16 26 e.
Definition e_file_size (e : bytes) : Z := get32 28 e.
Definition entry_at (i : nat) (buf : bytes) : bytes := take 32 (drop (32 * i) buf).
Definition FAT12_ATTR_VOLUME_ID : Z := 0x08.
Definition FAT12_ATTR_DIRECTORY : Z := 0x10.
Definition FAT12_ATTR_ARCHIVE : Z := 0x20.
Definition FAT12_CLUSTER_FREE : Z := 0.
Definition FAT12_CLUSTER_EOF : Z := 0xFF8.
Definition has_attr (a : Z) (e : bytes) : bool := negb (Z.land (e_attr e) a =? 0).

Record Fat1xVolume := mk_volume {
  device_id : nat;
  boot : Fat1xBootSector;
  fat_table : option bytes;
  fat_sector : Z;
  root_sector : Z;
  data_sector : Z
}.
Definition set_fat_table t v := mk_volume (device_id v) (boot v) t (fat_sector v) (root_sector v) (data_sector v).

Record fat1x (D : Type) := mk_fat {
  device : D;
  volume : Fat1xVolume;
  sector_buffer : option bytes;
  allocs : list bool
}.
#[global] Arguments mk_fat {D}.
#[global] Arguments device {D}.
#[global] Arguments volume {D}.
#[global] Arguments sector_buffer {D}.
#[global] Arguments allocs {D}.

Notation M D := (STM (fat1x D)).

(** ** File names *)
Definition is_lower (c : Z) : bool := (97 <=? c) && (c <=? 122).
Definition upcase (c : Z) : Z := if is_lower c then c - 32 else c.
Fixpoint convert_loop (cs : bytes) (fat_name : bytes) (name_pos ext_pos : nat) (in_ext : bool) : bytes :=
  match cs with
  | [] => fat_name
  | c :: cs' =>
      if c =? 46 then convert_loop cs' fat_name name_pos 0 true
      else if negb in_ext && (name_pos <? 8)%nat then convert_loop cs' (<[name_pos := upcase c]> fat_name) (S name_pos) ext_pos in_ext
      else if in_ext && (ext_pos <? 3)%nat then convert_loop cs' (<[(8 + ext_pos)%nat := upcase c]> fat_name) name_pos (S ext_pos) in_ext
      else convert_loop cs' fat_name name_pos ext_pos in_ext
  end.
Definition Fat12ConvertFilename (filename : bytes) : bytes := convert_loop (take 64 filename) (replicate 11 32) 0 0 false.

(** ** The table: 12-bit entries, two to three bytes *)
Definition fat_offset (cluster : Z) : nat := Z.to_nat (cluster + cluster / 2).
Definition fat_word (t : bytes) (cluster : Z) : option Z :=
  lo ← t !! fat_offset cluster; hi ← t !! S (fat_offset cluster); Some (Z.lor lo (Z.shiftl hi 8)).
Definition fat_get (t : bytes) (cluster : Z) : option Z :=
  if FAT12_CLUSTER_EOF <=? cluster then Some FAT12_CLUSTER_EOF else
  w ← fat_word t cluster;
  Some (if Z.odd cluster then Z.land (Z.shiftr w 4) 0xFFF else Z.land w 0xFFF).
Definition fat_set (t : bytes) (cluster value : Z) : option bytes :=
  w ← fat_word t cluster;
  let w' := if Z.odd cluster then Z.lor (Z.land w 0x000F) (Z.shiftl (Z.land value 0xFFF) 4)
            else Z.lor (Z.land w 0xF000) (Z.land value 0xFFF) in
  Some (splice (fat_offset cluster) (put16 w') t).

Section operations.
Context {D : Type} `{!BlockDevice D}.
Implicit Types (s : fat1x D).

(** ** Memory and the device *)
Definition KernelMemoryAlloc : M D bool := fun s =>
  Some (default true (head (allocs s)), mk_fat (device s) (volume s) (sector_buffer s) (tail (allocs s))).
(** [BlockDeviceRead(volume.device->id, lba, 1, sector_buffer) == 0]; a failed read leaves the
    buffer's contents open, and no caller looks at them. *)
Definition ReadSectorBuffer (lba : Z) : M D bool := fun s =>
  match sector_buffer s with
  | None => None
  | Some _ =>
      match BlockDeviceRead (device s) lba 1 with
      | Some bs => Some (true, mk_fat (device s) (volume s) (Some bs) (allocs s))
      | None => Some (false, s)
      end
  end.
Definition ReadBlocks (lba : Z) (n : nat) : M D (option bytes) := asks (fun s => BlockDeviceRead (device s) lba n).
Definition WriteBlocks (lba : Z) (n : nat) (bs : bytes) : M D bool := fun s =>
  let '(ok, d) := BlockDeviceWrite (device s) lba n bs in Some (ok, mk_fat d (volume s) (sector_buffer s) (allocs s)).
Definition get_sector_buffer : M D bytes := fun s => b ← sector_buffer s; Some (b, s).
Definition set_sector_buffer (bs : bytes) : M D unit := fun s => Some (tt, mk_fat (device s) (volume s) (Some bs) (allocs s)).
Definition get_boot : M D Fat1xBootSector := asks (fun s => boot (volume s)).
Definition get_fat : M D bytes := fun s => t ← fat_table (volume s); Some (t, s).
Definition put_fat (t : bytes) : M D unit := fun s =>
  Some (tt, mk_fat (device s) (set_fat_table (Some t) (volume s)) (sector_buffer s) (allocs s)).

Definition Fat12GetNextCluster (cluster : Z) : M D Z :=
  if FAT12_CLUSTER_EOF <=? cluster then mret FAT12_CLUSTER_EOF else t ← get_fat; lift (fat_get t cluster).
Definition Fat12SetFatEntry (cluster value : Z) : M D unit :=
  t ← get_fat; t' ← lift (fat_set t cluster value); put_fat t'.

(** [for (j = 0; j < sectors_per_fat; j++)], then [for (i = 0; i < fat_count; i++)]. *)
Fixpoint write_fat_copy (n j : nat) (fat_start : Z) : M D bool :=
  match n with
  | O => mret true
  | S n' => t ← get_fat; ok ← WriteBlocks (u32 (fat_start + Z.of_nat j)) 1 (chunk j t);
            if ok : bool then write_fat_copy n' (S j) fat_start else mret false
  end.
Fixpoint write_fat_copies (n : nat) (i : Z) : M D bool :=
  match n with
  | O => mret true
  | S n' => b ← get_boot;
            ok ← write_fat_copy (Z.to_nat (sectors_per_fat b)) 0 (u32 (reserved_sectors b + i * sectors_per_fat b));
            if ok : bool then write_fat_copies n' (i + 1) else mret false
  end.
Definition Fat12WriteFat : M D Z :=
  b ← get_boot; ok ← write_fat_copies (Z.to_nat (fat_count b)) 0; mret (if ok : bool then 0 else -1).

Fixpoint find_free_loop (n : nat) (i : Z) : M D Z :=
  match n with
  | O => mret 0
  | S n' => v ← Fat12GetNextCluster i; if v =? FAT12_CLUSTER_FREE then mret i else find_free_loop n' (i + 1)
  end.
Definition Fat12FindFreeCluster : M D Z :=
  b ← get_boot; ds ← asks (fun s => data_sector (volume s));
  let total_data_sectors := if total_sectors_16 b =? 0 then u32 (total_sectors_32 b - ds) else u32 (total_sectors_16 b - ds) in
  if sectors_per_cluster b =? 0 then fault else
  let total_clusters := total_data_sectors / sectors_per_cluster b in
  find_free_loop (Z.to_nat (u16 (2 + total_clusters) - 2)) 2.

Definition cluster_lba (cluster : Z) (s : fat1x D) : Z :=
  u32 (data_sector (volume s) + (cluster - 2) * sectors_per_cluster (boot (volume s))).
Definition Fat1xGetCluster (cluster : Z) : M D (option bytes) :=
  b ← get_boot;
  if (sectors_per_cluster b =? 0) || (8 <? sectors_per_cluster b) then mret None else
  sector ← asks (cluster_lba cluster);
  ReadBlocks sector (Z.to_nat (sectors_per_cluster b)).
Definition cluster_bytes (b : Fat1xBootSector) : Z := sectors_per_cluster b * 512.
Definition root_sectors (b : Fat1xBootSector) : Z := (root_entries b * 32 + 511) / 512.
(** A chain without a cycle has fewer than 4096 clusters. *)
Definition chain_fuel : nat := Z.to_nat 4096.

(** ** Directories *)
Definition skipped (e : bytes) : bool := (e_first e =? 0xE5) || has_attr FAT12_ATTR_VOLUME_ID e.
(** The loop over the entries of a sector or a cluster. *)
Fixpoint scan_entries (n i : nat) (buf fat_name : bytes) : option nat :=
  match n with
  | O => None
  | S n' =>
      let e := entry_at i buf in
      if e_first e =? 0 then None
      else if skipped e then scan_entries n' (S i) buf fat_name
      else if bool_decide (e_name e = fat_name) then Some i
      else scan_entries n' (S i) buf fat_name
  end.
(** What a search yields: the sector and the slot of the entry, and the bytes that [found->]
    reads after the search. *)
Definition found : Type := Z * Z * bytes.
Fixpoint search_root_loop (n : nat) (sector : Z) (fat_name : bytes) : M D (option found) :=
  match n with
  | O => mret None
  | S n' =>
      rs ← asks (fun s => root_sector (volume s));
      ok ← ReadSectorBuffer (u32 (rs + sector));
      if ok : bool then
        buf ← get_sector_buffer;
        match scan_entries 16 0 buf fat_name with
        | Some i => mret (Some (u32 (rs + sector), Z.of_nat i, entry_at i buf))
        | None => search_root_loop n' (sector + 1) fat_name
        end
      else mret None
  end.
Definition search_root (fat_name : bytes) : M D (option found) :=
  b ← get_boot; search_root_loop (Z.to_nat (root_sectors b)) 0 fat_name.
Variable freed : bytes -> bytes.
Fixpoint search_cluster_loop (fuel : nat) (cluster : Z) (fat_name : bytes) : M D (option found) :=
  if cluster <? FAT12_CLUSTER_EOF then
    match fuel with
    | O => fault
    | S fuel' =>
        c ← Fat1xGetCluster cluster;
        match c with
        | None => mret None
        | Some buf =>
            b ← get_boot;
            match scan_entries (Z.to_nat (cluster_bytes b / 32)) 0 buf fat_name with
            | Some i =>
                lba ← asks (cluster_lba cluster);
                mret (Some (u32 (lba + Z.of_nat i * 32 / 512), Z.of_nat i * 32 mod 512 / 32, entry_at i (freed buf)))
            | None => next ← Fat12GetNextCluster cluster; search_cluster_loop fuel' next fat_name
            end
        end
    end
  else mret None.
Definition search_cluster (cluster : Z) (fat_name : bytes) : M D (option found) :=
  ok ← KernelMemoryAlloc; if ok : bool then search_cluster_loop chain_fuel cluster fat_name else mret None.

(** [component]: at most 11 bytes up to a slash; the rest without that slash. *)
Fixpoint next_component (room : nat) (p : bytes) : bytes * bytes :=
  match p with
  | [] => ([], [])
  | c :: p' =>
      if c =? 47 then ([], p')
      else match room with
           | O => ([], p)
           | S room' => let '(comp, rest) := next_component room' p' in (c :: comp, rest)
           end
  end.
(** The parent's first cluster, and the sector and the slot of the entry; the entry itself is
    in the sector buffer. *)
Definition location : Type := Z * Z * Z.
Fixpoint find_components (fuel : nat) (p : bytes) (current_cluster : Z) : M D (option location) :=
  match fuel, p with
  | O, _ | _, [] => mret None
  | S fuel', _ =>
      let '(component, rest) := next_component 11 p in
      let fat_name := Fat12ConvertFilename component in
      r ← (if current_cluster =? 0 then search_root fat_name else search_cluster current_cluster fat_name);
      match r with
      | None => mret None
      | Some (found_sector, found_offset, e) =>
          match rest with
          | [] => ok ← ReadSectorBuffer found_sector;
                  mret (if ok : bool then Some (current_cluster, found_sector, found_offset) else None)
          | _ => if has_attr FAT12_ATTR_DIRECTORY e then find_components fuel' rest (e_cluster_low e) else mret None
          end
      end
  end.
Definition Fat12FindEntry (path : bytes) : M D (option location) :=
  match path with
  | [] => mret None
  | c :: p => if c =? 47 then if bool_decide (p = []) then mret None else find_components (length p) p 0 else mret None
  end.
(** The entry a location points to. *)
Definition found_entry (l : location) : M D bytes :=
  buf ← get_sector_buffer; mret (entry_at (Z.to_nat (l.2)) buf).

(** The search for a slot: a name collision, the end of the directory (with the slot to use),
    or the next sector with the slot kept so far. *)
Inductive slot_scan := Collision | EndOfDir (slot : Z * Z) | Continue (slot : option (Z * Z)).
Fixpoint scan_slots (n i : nat) (at_ : nat -> Z * Z) (buf fat_name : bytes) (slot : option (Z * Z)) : slot_scan :=
  match n with
  | O => Continue slot
  | S n' =>
      let e := entry_at i buf in
      let slot' := match slot with None => Some (at_ i) | Some _ => slot end in
      if e_first e =? 0 then EndOfDir (default (at_ i) slot)
      else if e_first e =? 0xE5 then scan_slots n' (S i) at_ buf fat_name slot'
      else if has_attr FAT12_ATTR_VOLUME_ID e then scan_slots n' (S i) at_ buf fat_name slot
      else if bool_decide (e_name e = fat_name) then Collision
      else scan_slots n' (S i) at_ buf fat_name slot
  end.
Fixpoint slot_root_loop (n : nat) (sector : Z) (fat_name : bytes) (slot : option (Z * Z)) : M D (Z * (Z * Z)) :=
  match n with
  | O => mret (match slot with Some l => (0, l) | None => (-1, (0, -1)) end)
  | S n' =>
      rs ← asks (fun s => root_sector (volume s));
      let lba := u32 (rs + sector) in
      ok ← ReadSectorBuffer lba;
      if ok : bool then
        buf ← get_sector_buffer;
        match scan_slots 16 0 (fun i => (lba, Z.of_nat i)) buf fat_name slot with
        | Collision => mret (-2, default (0, -1) slot)
        | EndOfDir l => mret (0, l)
        | Continue slot' => slot_root_loop n' (sector + 1) fat_name slot'
        end
      else mret (-1, default (0, -1) slot)
  end.
Definition extend_directory (last_cluster : Z) : M D (Z * (Z * Z)) :=
  new_cluster ← Fat12FindFreeCluster;
  if new_cluster =? 0 then mret (-1, (0, -1)) else
  Fat12SetFatEntry last_cluster new_cluster;;
  Fat12SetFatEntry new_cluster FAT12_CLUSTER_EOF;;
  b ← get_boot;
  lba ← asks (cluster_lba new_cluster);
  ok ← WriteBlocks lba (Z.to_nat (sectors_per_cluster b)) (replicate (Z.to_nat (cluster_bytes b)) 0);
  mret (if ok : bool then (0, (lba, 0)) else (-1, (0, -1))).
Fixpoint slot_cluster_loop (fuel : nat) (current_cluster last_cluster : Z) (fat_name : bytes) (slot : option (Z * Z)) : M D (Z * (Z * Z)) :=
  if current_cluster <? FAT12_CLUSTER_EOF then
    match fuel with
    | O => fault
    | S fuel' =>
        c ← Fat1xGetCluster current_cluster;
        match c with
        | None => mret (-1, default (0, -1) slot)
        | Some buf =>
            b ← get_boot;
            lba ← asks (cluster_lba current_cluster);
            match scan_slots (Z.to_nat (cluster_bytes b / 32)) 0
                    (fun i => (u32 (lba + Z.of_nat i * 32 / 512), Z.of_nat i * 32 mod 512 / 32)) buf fat_name slot with
            | Collision => mret (-2, default (0, -1) slot)
            | EndOfDir l => mret (0, l)
            | Continue slot' =>
                next ← Fat12GetNextCluster current_cluster;
                slot_cluster_loop fuel' next current_cluster fat_name slot'
            end
        end
    end
  else match slot with
       | Some l => mret (0, l)
       | None => extend_directory last_cluster
       end.
(** The status (0, -1 or -2) and the slot. *)
Definition Fat12FindDirectoryEntry (parent_cluster : Z) (fat_name : bytes) : M D (Z * (Z * Z)) :=
  if parent_cluster =? 0 then b ← get_boot; slot_root_loop (Z.to_nat (root_sectors b)) 0 fat_name None
  else ok ← KernelMemoryAlloc;
       if ok : bool then slot_cluster_loop chain_fuel parent_cluster 0 fat_name None else mret (-1, (0, -1)).

Definition Fat1xIsDirectory (path : option bytes) : M D Z :=
  match path with
  | None => mret 0
  | Some path =>
      if bool_decide (path = [47]) then mret 1 else
      r ← Fat12FindEntry path;
      match r with
      | None => mret 0
      | Some l => e ← found_entry l; mret (if has_attr FAT12_ATTR_DIRECTORY e then 1 else 0)
      end
  end.
Definition Fat1xGetFileSize (path : option bytes) : M D Z :=
  match path with
  | None => mret 0
  | Some path =>
      r ← Fat12FindEntry path;
      match r with
      | None => mret 0
      | Some l => e ← found_entry l; mret (if has_attr FAT12_ATTR_DIRECTORY e then 0 else e_file_size e)
      end
  end.

(** *** Listings: the printed name, and the size of a file ([None] for a directory) *)
Definition line : Type := bytes * option Z.
Fixpoint until_space (l : bytes) : bytes :=
  match l with
  | [] => []
  | c :: l' => if c =? 32 then [] else c :: until_space l'
  end.
Definition full_name (e : bytes) : bytes :=
  until_space (take 8 e) ++ (if byte_at 8 e =? 32 then [] else 46 :: until_space (take 3 (drop 8 e))).
(** Printing a NUL prints nothing. *)
Definition display_name (e : bytes) : bytes := filter (fun c => c <> 0) (full_name e).
Fixpoint list_entries (n i : nat) (buf : bytes) : list line :=
  match n with
  | O => []
  | S n' =>
      let e := entry_at i buf in
      if e_first e =? 0 then []
      else if skipped e then list_entries n' (S i) buf
      else (display_name e, if has_attr FAT12_ATTR_DIRECTORY e then None else Some (e_file_size e)) :: list_entries n' (S i) buf
  end.
Fixpoint list_root_loop (n : nat) (sector : Z) (acc : list line) : M D (Z * list line) :=
  match n with
  | O => mret (0, acc)
  | S n' =>
      rs ← asks (fun s => root_sector (volume s));
      ok ← ReadSectorBuffer (u32 (rs + sector));
      if ok : bool then buf ← get_sector_buffer; list_root_loop n' (sector + 1) (acc ++ list_entries 16 0 buf)
      else mret (-1, acc)
  end.
Definition Fat1xListRoot : M D (Z * list line) := b ← get_boot; list_root_loop (Z.to_nat (root_sectors b)) 0 [].
Fixpoint list_cluster_loop (fuel : nat) (cluster : Z) (acc : list line) : M D (Z * list line) :=
  if cluster <? FAT12_CLUSTER_EOF then
    match fuel with
    | O => fault
    | S fuel' =>
        c ← Fat1xGetCluster cluster;
        match c with
        | None => mret (-1, acc)
        | Some buf =>
            b ← get_boot; next ← Fat12GetNextCluster cluster;
            list_cluster_loop fuel' next (acc ++ list_entries (Z.to_nat (cluster_bytes b / 32)) 0 buf)
        end
    end
  else mret (0, acc).
Definition Fat1xListDirectory (path : option bytes) : M D (Z * list line) :=
  match path with
  | None => mret (-1, [])
  | Some path =>
      if bool_decide (path = [47]) then Fat1xListRoot else
      r ← Fat12FindEntry path;
      match r with
      | None => mret (-1, [])
      | Some l =>
          e ← found_entry l;
          if has_attr FAT12_ATTR_DIRECTORY e then
            ok ← KernelMemoryAlloc;
            if ok : bool then list_cluster_loop chain_fuel (e_cluster_low e) [] else mret (-1, [])
          else mret (-1, [])
      end
  end.
End operations.
