(* ===== verification/FatFile.v ===== *)
(** Files of the FAT12 file system ([src/fs/FAT/FAT1x.c]): creating directories, reading, writing
    and deleting, and the mounting of volumes. *)
From Stdlib Require Import ZArith Lia.
From stdpp Require Import base tactics list numbers option.
From S2P Require Import Prelude BlockDev Fat1x.

(** ** Paths *)
Fixpoint last_slash_from (n : nat) (path : bytes) : option nat :=
  match n with
  | O => None
  | S n' => if byte_at n' path =? 47 then Some n' else last_slash_from n' path
  end.
(** The parent path and the name after the last slash of the first 256 bytes. *)
Definition split_path (path : bytes) : option (bytes * bytes) :=
  k ← last_slash_from (Nat.min (length path) 256) path;
  Some (if (k =? 0)%nat then [47] else take k path, take 255 (drop (S k) path)).

(** ** Directory entries *)
Definition write_entry (i : nat) (f : bytes -> bytes) (buf : bytes) : bytes := splice (32 * i) (f (entry_at i buf)) buf.
Definition dot_name : bytes := 46 :: replicate 10 32.
Definition dotdot_name : bytes := 46 :: 46 :: replicate 9 32.
Definition set_name (n e : bytes) : bytes := splice 0 n e.
Definition set_attr (a : Z) (e : bytes) : bytes := splice 11 [a] e.
Definition set_cluster_high (c : Z) (e : bytes) : bytes := splice 20 (put16 c) e.
Definition set_cluster_low (c : Z) (e : bytes) : bytes := splice 26 (put16 c) e.
Definition set_file_size (n : Z) (e : bytes) : bytes := splice 28 (put32 n) e.
Definition dir_entry (n : bytes) (cluster : Z) (e : bytes) : bytes :=
  set_file_size 0 (set_cluster_low cluster (set_attr FAT12_ATTR_DIRECTORY (set_name n e))).
Definition file_entry (n : bytes) (cluster size : Z) (e : bytes) : bytes :=
  set_cluster_high 0 (set_cluster_low cluster (set_file_size size (set_attr FAT12_ATTR_ARCHIVE (set_name n e)))).
Definition deleted_entry (e : bytes) : bytes := splice 0 [0xE5] e.

Section operations.
Context {D : Type} `{!BlockDevice D} (freed : bytes -> bytes).
Implicit Types (s : fat1x D).

(** Read the sector, change one entry in the sector buffer, write it back, then the table:
    the end of [Fat1xCreateDir], [Fat1xWriteFile] and [Fat1xDeleteFile]. *)
Definition commit_entry (sector offset : Z) (f : bytes -> bytes) (result : Z) : M D Z :=
  ok ← ReadSectorBuffer sector;
  if ok : bool then
    buf ← get_sector_buffer;
    let buf' := write_entry (Z.to_nat offset) f buf in
    set_sector_buffer buf';;
    ok ← WriteBlocks sector 1 buf';
    if ok : bool then r ← Fat12WriteFat; mret (if r =? 0 then result else -1) else mret (-1)
  else mret (-1).

(** The first cluster of the directory [parent_path]; [None] when it is not a directory. *)
Definition find_parent (parent_path : bytes) : M D (option Z) :=
  if bool_decide (parent_path = [47]) then mret (Some 0) else
  r ← Fat12FindEntry freed parent_path;
  match r with
  | None => mret None
  | Some l => e ← found_entry l; mret (if has_attr FAT12_ATTR_DIRECTORY e then Some (e_cluster_low e) else None)
  end.

Definition Fat1xCreateDir (path : option bytes) : M D Z :=
  match path with
  | None => mret (-1)
  | Some path =>
      if negb (byte_at 0 path =? 47) then mret (-1) else
      match split_path path with
      | None => mret (-1)
      | Some (parent_path, dir_name) =>
          let fat_name := Fat12ConvertFilename dir_name in
          parent ← find_parent parent_path;
          match parent with
          | None => mret (-1)
          | Some parent_cluster =>
              d ← Fat12FindDirectoryEntry parent_cluster fat_name;
              let '(status, (entry_sector, entry_offset)) := d in
              if negb (status =? 0) then mret (-1) else
              new_cluster ← Fat12FindFreeCluster;
              if new_cluster =? 0 then mret (-1) else
              Fat12SetFatEntry new_cluster FAT12_CLUSTER_EOF;;
              b ← get_boot;
              ok ← KernelMemoryAlloc;
              if negb ok then mret (-1) else
              let zeros := replicate (Z.to_nat (cluster_bytes b)) 0 in
              let cluster_buffer := write_entry 1 (dir_entry dotdot_name parent_cluster) (write_entry 0 (dir_entry dot_name new_cluster) zeros) in
              data_lba ← asks (cluster_lba new_cluster);
              ok ← WriteBlocks data_lba (Z.to_nat (sectors_per_cluster b)) cluster_buffer;
              if negb ok then mret (-1) else
              commit_entry entry_sector entry_offset (dir_entry fat_name new_cluster) 0
          end
      end
  end.

(** ** Reading *)
Fixpoint read_loop (fuel : nat) (cluster bytes_read file_size max_size : Z) (out : bytes) : M D (Z * bytes) :=
  if (cluster <? FAT12_CLUSTER_EOF) && (bytes_read <? max_size) then
    match fuel with
    | O => fault
    | S fuel' =>
        ok ← KernelMemoryAlloc;
        if negb ok then mret (-1, out) else
        c ← Fat1xGetCluster cluster;
        match c with
        | None => mret (-1, out)
        | Some cluster_buffer =>
            b ← get_boot;
            let remaining_in_file := u32 (file_size - bytes_read) in
            let copy_size := if cluster_bytes b <? remaining_in_file then cluster_bytes b else remaining_in_file in
            let copy_size := if max_size <? u32 (bytes_read + copy_size) then u32 (max_size - bytes_read) else copy_size in
            next ← Fat12GetNextCluster cluster;
            read_loop fuel' next (u32 (bytes_read + copy_size)) file_size max_size (out ++ take (Z.to_nat copy_size) cluster_buffer)
        end
    end
  else mret (i32 bytes_read, out).
(** Every round but the last [chain_fuel] copies a whole cluster. *)
Definition read_fuel (max_size cluster_bytes : Z) : nat := Z.to_nat (max_size / cluster_bytes) + chain_fuel.
(** The result and the bytes stored at the start of the caller's buffer. *)
Definition Fat1xReadFile (path : option bytes) (max_size : Z) : M D (Z * bytes) :=
  match path with
  | None => mret (-1, [])
  | Some path =>
      r ← Fat12FindEntry freed path;
      match r with
      | None => mret (-1, [])
      | Some l =>
          e ← found_entry l;
          if has_attr FAT12_ATTR_DIRECTORY e then mret (-1, []) else
          if e_file_size e =? 0 then mret (0, []) else
          b ← get_boot;
          if cluster_bytes b =? 0 then mret (-1, []) else
          read_loop (read_fuel max_size (cluster_bytes b)) (e_cluster_low e) 0 (e_file_size e) max_size []
      end
  end.

(** ** Writing *)
Fixpoint free_chain (fuel : nat) (cluster : Z) : M D unit :=
  if (2 <=? cluster) && (cluster <? FAT12_CLUSTER_EOF) then
    match fuel with
    | O => fault
    | S fuel' =>
        next_cluster ← Fat12GetNextCluster cluster;
        Fat12SetFatEntry cluster FAT12_CLUSTER_FREE;;
        free_chain fuel' next_cluster
    end
  else mret tt.
(** [cluster_buf]: a zeroed cluster with [to_write] bytes of the caller's buffer, which may be NULL. *)
Definition cluster_data (buffer : option bytes) (bytes_written to_write cb : Z) : option bytes :=
  match buffer with
  | Some buf =>
      if 0 <? to_write then
        if bytes_written + to_write <=? Z.of_nat (length buf)
        then Some (splice 0 (take (Z.to_nat to_write) (drop (Z.to_nat bytes_written) buf)) (replicate (Z.to_nat cb) 0))
        else None
      else Some (replicate (Z.to_nat cb) 0)
  | None => Some (replicate (Z.to_nat cb) 0)
  end.
(** [n] clusters are left; false: the function returns -1. *)
Fixpoint write_loop (n : nat) (current_cluster bytes_written : Z) (buffer : option bytes) (size : Z) : M D bool :=
  match n with
  | O => mret true
  | S n' =>
      ok ← KernelMemoryAlloc;
      if negb ok then mret false else
      b ← get_boot;
      let rest := u32 (size - bytes_written) in
      let to_write := if cluster_bytes b <? rest then cluster_bytes b else rest in
      cluster_buf ← lift (cluster_data buffer bytes_written to_write (cluster_bytes b));
      lba ← asks (cluster_lba current_cluster);
      ok ← WriteBlocks lba (Z.to_nat (sectors_per_cluster b)) cluster_buf;
      if negb ok then mret false else
      match n' with
      | O => Fat12SetFatEntry current_cluster FAT12_CLUSTER_EOF;; mret true
      | S _ =>
          next_cluster ← Fat12FindFreeCluster;
          if next_cluster =? 0 then mret false else
          Fat12SetFatEntry current_cluster next_cluster;;
          write_loop n' next_cluster (u32 (bytes_written + to_write)) buffer size
      end
  end.
(** The first cluster of the new contents; [None]: the function returns -1. *)
Definition write_data (buffer : option bytes) (size : Z) : M D (option Z) :=
  if 0 <? size then
    b ← get_boot;
    if cluster_bytes b =? 0 then fault else
    let clusters_needed := u32 (size + cluster_bytes b - 1) / cluster_bytes b in
    start_cluster ← Fat12FindFreeCluster;
    if start_cluster =? 0 then mret None else
    ok ← write_loop (Z.to_nat clusters_needed) start_cluster 0 buffer size;
    mret (if ok : bool then Some start_cluster else None)
  else mret (Some 0).
(** Where the entry goes and the first cluster of the old contents (0 for a new file). *)
Definition target_entry (path fat_name : bytes) (parent_cluster : Z) : M D (option (Z * Z * Z)) :=
  r ← Fat12FindEntry freed path;
  match r with
  | Some l =>
      e ← found_entry l;
      mret (if has_attr FAT12_ATTR_DIRECTORY e then None else Some (l.1.2, l.2, e_cluster_low e))
  | None =>
      d ← Fat12FindDirectoryEntry parent_cluster fat_name;
      mret (if d.1 =? 0 then Some (d.2.1, d.2.2, 0) else None)
  end.
Definition Fat1xWriteFile (path : option bytes) (buffer : option bytes) (size : Z) : M D Z :=
  match path with
  | None => mret (-1)
  | Some path =>
      match split_path path with
      | None => mret (-1)
      | Some (parent_path, filename) =>
          let fat_name := Fat12ConvertFilename filename in
          parent ← find_parent parent_path;
          match parent with
          | None => mret (-1)
          | Some parent_cluster =>
              t ← target_entry path fat_name parent_cluster;
              match t with
              | None => mret (-1)
              | Some (entry_sector, entry_offset, old_cluster) =>
                  free_chain chain_fuel old_cluster;;
                  w ← write_data buffer size;
                  match w with
                  | None => mret (-1)
                  | Some start_cluster => commit_entry entry_sector entry_offset (file_entry fat_name start_cluster size) (i32 size)
                  end
              end
          end
      end
  end.
Definition Fat1xCreateFile (filename : option bytes) : M D Z :=
  match filename with None => mret (-1) | Some _ => Fat1xWriteFile filename (Some []) 0 end.

(** ** Deleting *)
Definition is_dot (e : bytes) : bool := bool_decide (e_name e = dot_name) || bool_decide (e_name e = dotdot_name).
(** [valid_entries > 0] *)
Fixpoint has_valid_entries (n i : nat) (buf : bytes) : bool :=
  match n with
  | O => false
  | S n' =>
      let e := entry_at i buf in
      if e_first e =? 0 then false
      else if skipped e then has_valid_entries n' (S i) buf
      else negb (is_dot e) || has_valid_entries n' (S i) buf
  end.
(** May the entry be deleted: a file, or a directory whose first cluster holds no entry. *)
Definition may_delete (e : bytes) : M D bool :=
  if has_attr FAT12_ATTR_DIRECTORY e && (2 <=? e_cluster_low e) then
    ok ← KernelMemoryAlloc;
    if negb ok then mret false else
    c ← Fat1xGetCluster (e_cluster_low e);
    match c with
    | None => mret false
    | Some buf => b ← get_boot; mret (negb (has_valid_entries (Z.to_nat (cluster_bytes b / 32)) 0 buf))
    end
  else mret true.
Definition Fat1xDeleteFile (path : option bytes) : M D Z :=
  match path with
  | None => mret (-1)
  | Some path =>
      r ← Fat12FindEntry freed path;
      match r with
      | None => mret (-1)
      | Some l =>
          e ← found_entry l;
          ok ← may_delete e;
          if negb ok then mret (-1) else
          free_chain chain_fuel (e_cluster_low e);;
          commit_entry l.1.2 l.2 deleted_entry 0
      end
  end.

(** *** Recursive deletion *)
Fixpoint until_nul (l : bytes) : bytes :=
  match l with
  | [] => []
  | c :: l' => if c =? 0 then [] else c :: until_nul l'
  end.
(** [child_path]: a buffer of 256 bytes that must keep its terminator. *)
Definition child_path (path e : bytes) : option bytes :=
  let p := take 255 path in
  let p := if (1 <? length p)%nat && negb (byte_at (length p - 1) p =? 47) then p ++ [47] else p in
  let c := p ++ full_name e in
  if (256 <? length c)%nat || (length (until_nul c) =? 256)%nat then None else Some (until_nul c).
Fixpoint delete_entries (delete : bytes -> M D Z) (n i : nat) (buf path : bytes) : M D bool :=
  match n with
  | O => mret true
  | S n' =>
      let e := entry_at i buf in
      if e_first e =? 0 then mret true
      else if skipped e || is_dot e then delete_entries delete n' (S i) buf path
      else child ← lift (child_path path e);
           r ← delete child;
           if r =? 0 then delete_entries delete n' (S i) buf path else mret false
  end.
Fixpoint delete_clusters (fuel : nat) (delete : bytes -> M D Z) (current_cluster : Z) (visited : list Z) (path : bytes) : M D bool :=
  if (2 <=? current_cluster) && (current_cluster <? FAT12_CLUSTER_EOF) then
    match fuel with
    | O => fault
    | S fuel' =>
        if bool_decide (current_cluster ∈ visited) then mret false else
        let visited' := if (length visited <? 256)%nat then visited ++ [current_cluster] else visited in
        c ← Fat1xGetCluster current_cluster;
        match c with
        | None => mret false
        | Some buf =>
            b ← get_boot;
            ok ← delete_entries delete (Z.to_nat (cluster_bytes b / 32)) 0 buf path;
            if negb ok then mret false else
            next ← Fat12GetNextCluster current_cluster;
            delete_clusters fuel' delete next visited' path
        end
    end
  else mret true.
(** [fuel] bounds the depth of the directories below [path]. *)
Fixpoint delete_recursive (fuel : nat) (path : bytes) : M D Z :=
  match fuel with
  | O => fault
  | S fuel' =>
      r ← Fat12FindEntry freed path;
      match r with
      | None => mret (-1)
      | Some l =>
          e ← found_entry l;
          if negb (has_attr FAT12_ATTR_DIRECTORY e) then Fat1xDeleteFile (Some path) else
          if (e_cluster_low e =? 0) || bool_decide (path = [47]) then mret (-1) else
          ok ← KernelMemoryAlloc;
          if negb ok then mret (-1) else
          ok ← delete_clusters chain_fuel (delete_recursive fuel') (e_cluster_low e) [] path;
          if negb ok then mret (-1) else Fat1xDeleteFile (Some path)
      end
  end.
Definition Fat1xDeleteRecursive (fuel : nat) (path : option bytes) : M D Z :=
  match path with None => mret (-1) | Some path => delete_recursive fuel path end.
End operations.

(** ** Volumes *)
(** The registry of mounted volumes.  A volume is an object of [heap_volumes] ([None] once it is
    freed); the registry and the active context point to it by index.  [V] is the state of the
    layer above, which [VfsMount] changes. *)
Definition MAX_BLOCK_DEVICES : nat := 16.
Record fat_registry (D V : Type) := mk_registry {
  devices : list D;
  heap_volumes : list (option Fat1xVolume);
  g_fat1x_by_dev : list (option nat);
  g_fat1x_active : option nat;
  shared_buffer : option bytes;
  reg_allocs : list bool;
  vfs_state : V
}.
#[global] Arguments mk_registry {D V}.
#[global] Arguments devices {D V}.
#[global] Arguments heap_volumes {D V}.
#[global] Arguments g_fat1x_by_dev {D V}.
#[global] Arguments g_fat1x_active {D V}.
#[global] Arguments shared_buffer {D V}.
#[global] Arguments reg_allocs {D V}.
#[global] Arguments vfs_state {D V}.

Section registry.
Context {D V : Type} `{!BlockDevice D} (VfsMount : bytes -> nat -> V -> V).
Implicit Types (g : fat_registry D V).
Definition set_heap_volumes v g := mk_registry (devices g) v (g_fat1x_by_dev g) (g_fat1x_active g) (shared_buffer g) (reg_allocs g) (vfs_state g).
Definition set_by_dev v g := mk_registry (devices g) (heap_volumes g) v (g_fat1x_active g) (shared_buffer g) (reg_allocs g) (vfs_state g).
Definition set_active v g := mk_registry (devices g) (heap_volumes g) (g_fat1x_by_dev g) v (shared_buffer g) (reg_allocs g) (vfs_state g).
Definition set_shared_buffer v g := mk_registry (devices g) (heap_volumes g) (g_fat1x_by_dev g) (g_fat1x_active g) v (reg_allocs g) (vfs_state g).
Definition set_vfs (v : V) g : fat_registry D V := mk_registry (devices g) (heap_volumes g) (g_fat1x_by_dev g) (g_fat1x_active g) (shared_buffer g) (reg_allocs g) v.
Definition set_volume (p : nat) (v : option Fat1xVolume) g := set_heap_volumes (<[p := v]> (heap_volumes g)) g.
Definition alloc g : bool * fat_registry D V :=
  (default true (head (reg_allocs g)),
   mk_registry (devices g) (heap_volumes g) (g_fat1x_by_dev g) (g_fat1x_active g) (shared_buffer g) (tail (reg_allocs g)) (vfs_state g)).

(** [device] is NULL or a registered device with its id. *)
Definition Fat1xSetActive (device : option nat) g : fat_registry D V :=
  match device with
  | None => set_active None g
  | Some id => if (id <? MAX_BLOCK_DEVICES)%nat then set_active (default None (g_fat1x_by_dev g !! id)) g else set_active None g
  end.
Definition Fat1xDetect (d : D) : Z :=
  match BlockDeviceRead d 0 1 with
  | None => 0
  | Some bs => if negb (byte_at 0 bs =? 0xEB) && negb (byte_at 0 bs =? 0xE9) then 0 else 1
  end.

Definition zero_volume (id : nat) : Fat1xVolume := mk_volume id (boot_of []) None 0 0 0.
(** The geometry: [fat_sector], [root_sector] and [data_sector] of the volume's boot sector. *)
Definition geometry (id : nat) (b : Fat1xBootSector) (t : option bytes) : Fat1xVolume :=
  let fs := reserved_sectors b in
  let rs := u32 (fs + fat_count b * sectors_per_fat b) in
  let n := (root_entries b * 32 + bytes_per_sector b - 1) / bytes_per_sector b in
  mk_volume id b t fs rs (u32 (rs + n)).
Fixpoint read_fat (n : nat) (lba : Z) (d : D) : option bytes :=
  match n with
  | O => Some []
  | S n' => bs ← BlockDeviceRead d (u32 lba) 1; rest ← read_fat n' (lba + 1) d; Some (bs ++ rest)
  end.
(** The volume goes back to the heap; the active context keeps pointing to it. *)
Definition drop_volume (id p : nat) g := set_volume p None (set_by_dev (<[id := None]> (g_fat1x_by_dev g)) g).
Definition mount_volume (id p : nat) (mount_point : bytes) g : option (Z * fat_registry D V) :=
  let g := set_active (Some p) g in
  d ← devices g !! id;
  old ← mjoin (heap_volumes g !! p);
  let g := set_volume p (Some (mk_volume id (boot old) (fat_table old) (fat_sector old) (root_sector old) (data_sector old))) g in
  match BlockDeviceRead d 0 1 with
  | None => Some (-1, drop_volume id p g)
  | Some bs =>
      let b := boot_of bs in
      if negb (bytes_per_sector b =? 512) then Some (-1, drop_volume id p g) else
      let (ok, g) := alloc g in
      if negb ok then Some (-1, drop_volume id p (set_shared_buffer None g)) else
      let g := set_shared_buffer (Some (replicate 512 0)) g in
      let (ok, g) := alloc g in
      if negb ok then Some (-1, set_shared_buffer None (set_volume p (Some (geometry id b None)) g)) else
      match read_fat (Z.to_nat (sectors_per_fat b)) (reserved_sectors b) d with
      | None => Some (-1, set_shared_buffer None (set_volume p (Some (geometry id b None)) g))
      | Some t => let g := set_volume p (Some (geometry id b (Some t))) g in Some (0, set_vfs (VfsMount mount_point id (vfs_state g)) g)
      end
  end.
Definition Fat1xMount (device : option nat) (mount_point : bytes) g : option (Z * fat_registry D V) :=
  match device with
  | None => Some (-1, g)
  | Some id =>
      if negb (id <? MAX_BLOCK_DEVICES)%nat then Some (-1, g) else
      match default None (g_fat1x_by_dev g !! id) with
      | Some p => mount_volume id p mount_point g
      | None =>
          let (ok, g) := alloc g in
          if negb ok then Some (-1, g) else
          let p := length (heap_volumes g) in
          mount_volume id p mount_point (set_by_dev (<[id := Some p]> (g_fat1x_by_dev g)) (set_heap_volumes (heap_volumes g ++ [Some (zero_volume id)]) g))
      end
  end.
Definition Fat1xUnmount (device : option nat) g : Z * fat_registry D V :=
  match device with
  | None => (-1, g)
  | Some id =>
      if negb (id <? MAX_BLOCK_DEVICES)%nat then (-1, g) else
      match default None (g_fat1x_by_dev g !! id) with
      | None => (-1, g)
      | Some p =>
          let g := if bool_decide (g_fat1x_active g = Some p) then set_active None g else g in
          let g := drop_volume id p g in
          let any_active := existsb (fun v => bool_decide (is_Some v)) (take MAX_BLOCK_DEVICES (g_fat1x_by_dev g)) in
          (0, if any_active then g else set_shared_buffer None g)
      end
  end.
(** An operation on the active volume; without one, or with a freed one, it faults. *)
Definition on_active {A} (op : M D A) g : option (A * fat_registry D V) :=
  p ← g_fat1x_active g;
  v ← mjoin (heap_volumes g !! p);
  d ← devices g !! device_id v;
  r ← op (mk_fat d v (shared_buffer g) (reg_allocs g));
  let '(a, s) := r in
  Some (a, mk_registry (<[device_id v := device s]> (devices g)) (<[p := Some (volume s)]> (heap_volumes g)) (g_fat1x_by_dev g)
             (g_fat1x_active g) (sector_buffer s) (allocs s) (vfs_state g)).
End registry.
