(* ===== verification/FatTable.v ===== *)
(** The packed table of the FAT12 file system: it refines an array of 12-bit entries, and
    freeing a cluster chain ends on every table and clears exactly the chain. *)
From Stdlib Require Import ZArith Lia.
From stdpp Require Import base tactics list numbers option sets.
From S2P Require Import Prelude BlockDev Fat1x FatFile.

(** ** Bytes *)
Definition bytes_ok (l : bytes) : Prop := Forall (fun b => 0 <= b < 2 ^ 8) l.
Lemma bytes_ok_put16 v : bytes_ok (put16 v).
Proof. repeat constructor; apply u8_range. Qed.
Lemma bytes_ok_splice i bs l : bytes_ok bs -> bytes_ok l -> bytes_ok (splice i bs l).
Proof. intros Hb Hl. unfold bytes_ok, splice. rewrite !Forall_app. split_and!; [by apply Forall_take|done|by apply Forall_drop]. Qed.

(** ** The table as a string of bits: entry [c] is the bits from [12 * c] on *)
Definition tbit (t : bytes) (k : Z) : bool := Z.testbit (default 0 (t !! Z.to_nat (k / 8))) (k mod 8).
Definition accessible (t : bytes) (c : Z) : Prop := 0 <= c /\ (S (fat_offset c) < length t)%nat.
Definition low12 (w : Z) : Z := w mod 2 ^ 12.

Lemma byte_bit t k j : 0 <= j < 8 -> Z.testbit (default 0 (t !! k)) j = tbit t (8 * Z.of_nat k + j).
Proof.
  intros Hj. unfold tbit. replace ((8 * Z.of_nat k + j) / 8) with (Z.of_nat k) by dlia. replace ((8 * Z.of_nat k + j) mod 8) with j by dlia.
  by rewrite Nat2Z.id.
Qed.
Lemma byte_range t k : bytes_ok t -> 0 <= default 0 (t !! k) < 2 ^ 8.
Proof. intros Ht. destruct (t !! k) eqn:E; [exact (Forall_lookup_1 _ _ _ _ Ht E)|]. cbn [default]. simpl. lia. Qed.
Lemma lor_bytes_bit t o i : bytes_ok t -> 0 <= i < 16 ->
  Z.testbit (Z.lor (default 0 (t !! o)) (Z.shiftl (default 0 (t !! S o)) 8)) i = tbit t (8 * Z.of_nat o + i).
Proof.
  intros Ht Hi. rewrite Z.lor_spec, Z.shiftl_spec by lia. destruct (decide (i < 8)).
  - rewrite (Z.testbit_neg_r _ (i - 8)), orb_false_r by lia. apply byte_bit. lia.
  - rewrite (testbit_ge _ i 8 (byte_range t o Ht)), orb_false_l by lia.
    rewrite byte_bit by lia. f_equal. lia.
Qed.
Lemma fat_word_bits t c : bytes_ok t -> accessible t c ->
  exists w, fat_word t c = Some w /\ forall i, 0 <= i < 16 -> Z.testbit w i = tbit t (8 * Z.of_nat (fat_offset c) + i).
Proof.
  intros Ht [_ Hc]. unfold fat_word. destruct (lookup_lt_is_Some_2 t (fat_offset c)) as [lo Hlo]; [lia|].
  destruct (lookup_lt_is_Some_2 t (S (fat_offset c))) as [hi Hhi]; [lia|]. rewrite Hlo, Hhi. eexists; split; [done|]. intros i Hi.
  rewrite <- lor_bytes_bit by done. by rewrite Hlo, Hhi.
Qed.
Lemma fat_offset_even c : 0 <= c -> Z.odd c = false -> 8 * Z.of_nat (fat_offset c) = 12 * c.
Proof. intros Hc Ho. unfold fat_offset. rewrite Zodd_mod in Ho. zbool. pose proof (Z.mod_pos_bound c 2). dlia. Qed.
Lemma fat_offset_odd c : 0 <= c -> Z.odd c = true -> 8 * Z.of_nat (fat_offset c) = 12 * c - 4.
Proof. intros Hc Ho. unfold fat_offset. rewrite Zodd_mod in Ho. zbool. dlia. Qed.

Lemma land_fff w : Z.land w 0xFFF = low12 w.
Proof. change 0xFFF with (Z.ones 12). by apply Z.land_ones. Qed.
Lemma low12_bit w i : 0 <= i -> Z.testbit (low12 w) i = (i <? 12) && Z.testbit w i.
Proof.
  intros Hi. unfold low12. destruct (Z.ltb_spec i 12); [apply Z.mod_pow2_bits_low; lia|]. apply Z.mod_pow2_bits_high. lia.
Qed.
Lemma low12_range w : 0 <= low12 w < 2 ^ 12.
Proof. apply Z.mod_pos_bound. lia. Qed.

(** The entry of a cluster is read from its twelve bits. *)
Lemma fat_get_bits t c : bytes_ok t -> accessible t c -> c < FAT12_CLUSTER_EOF ->
  exists v, fat_get t c = Some v /\ 0 <= v < 2 ^ 12 /\ forall i, 0 <= i < 12 -> Z.testbit v i = tbit t (12 * c + i).
Proof.
  intros Ht Hc Hlt. unfold fat_get. rewrite (proj2 (Z.leb_gt _ _)) by done. destruct (fat_word_bits t c) as (w & -> & Hw); [done..|].
  rewrite option_bind_Some. eexists; split; [done|]. rewrite !land_fff. split; [destruct (Z.odd c); apply low12_range|].
  intros i Hi. destruct Hc as [Hc _]. destruct (Z.odd c) eqn:Eo; rewrite low12_bit, (proj2 (Z.ltb_lt i 12)), andb_true_l by lia.
  - rewrite Z.shiftr_spec, Hw by lia. f_equal. rewrite fat_offset_odd by done. lia.
  - rewrite Hw by lia. f_equal. rewrite fat_offset_even by done. lia.
Qed.
Lemma fat_get_ext t t' c : bytes_ok t -> bytes_ok t' -> length t' = length t -> 0 <= c ->
  (c < FAT12_CLUSTER_EOF -> forall i, 0 <= i < 12 -> tbit t' (12 * c + i) = tbit t (12 * c + i)) -> fat_get t' c = fat_get t c.
Proof.
  intros Ht Ht' HL Hc Hb. destruct (decide (c < FAT12_CLUSTER_EOF)) as [Hlt|Hge].
  2:{ unfold fat_get. by rewrite (proj2 (Z.leb_le _ _)) by lia. }
  destruct (decide (S (fat_offset c) < length t)%nat) as [Ha|Hn].
  - destruct (fat_get_bits t c) as (v & -> & Hv & Hvb); [done|by split|done|].
    destruct (fat_get_bits t' c) as (v' & -> & Hv' & Hvb'); [done|by split; [|rewrite HL]|done|].
    f_equal. apply bits_ext. intros i Hi. destruct (decide (i < 12)).
    + rewrite Hvb, Hvb' by lia. by apply Hb.
    + by rewrite !(testbit_ge _ i 12) by lia.
  - unfold fat_get, fat_word. rewrite !(proj2 (Z.leb_gt _ _)) by done.
    rewrite (lookup_ge_None_2 t (S (fat_offset c))), (lookup_ge_None_2 t' (S (fat_offset c))) by lia.
    by destruct (t !! fat_offset c), (t' !! fat_offset c).
Qed.

Lemma u8_bit w j : 0 <= j < 8 -> Z.testbit (u8 w) j = Z.testbit w j.
Proof. intros Hj. apply Z.mod_pow2_bits_low. lia. Qed.
Lemma tbit_put16 o w t k : (S o < length t)%nat -> 0 <= k ->
  tbit (splice o (put16 w) t) k = if (8 * Z.of_nat o <=? k) && (k <? 8 * Z.of_nat o + 16) then Z.testbit w (k - 8 * Z.of_nat o) else tbit t k.
Proof.
  intros Hl Hk. assert (Hm : 0 <= k mod 8 < 8) by (apply Z.mod_pos_bound; lia).
  assert (HL : (o + length (put16 w) <= length t)%nat) by (cbn; lia). unfold tbit.
  destruct ((8 * Z.of_nat o <=? k) && (k <? 8 * Z.of_nat o + 16)) eqn:E; zbool.
  - destruct (decide (k / 8 = Z.of_nat o)) as [Ho|Ho].
    + replace (Z.to_nat (k / 8)) with (o + 0)%nat by lia. rewrite splice_in by (cbn in *; lia). cbn [put16 lookup list_lookup default from_option id].
      rewrite u8_bit by done. f_equal. dlia.
    + replace (Z.to_nat (k / 8)) with (o + 1)%nat by dlia. rewrite splice_in by (cbn in *; lia). cbn [put16 lookup list_lookup default from_option id].
      rewrite u8_bit, Z.shiftr_spec by lia. f_equal. dlia.
  - rewrite splice_out; [done|done|]. cbn. destruct E; zbool; dlia.
Qed.
Lemma testbit_mask_f w i : 0 <= i -> Z.testbit (Z.land w 0x000F) i = (i <? 4) && Z.testbit w i.
Proof.
  intros Hi. change 0x000F with (Z.ones 4). rewrite Z.land_spec. destruct (Z.ltb_spec i 4).
  - rewrite Z.ones_spec_low by lia. apply andb_true_r.
  - rewrite Z.ones_spec_high by lia. apply andb_false_r.
Qed.
Lemma testbit_mask_f000 w i : 0 <= i < 16 -> Z.testbit (Z.land w 0xF000) i = (12 <=? i) && Z.testbit w i.
Proof.
  intros Hi. change 0xF000 with (Z.shiftl (Z.ones 4) 12). rewrite Z.land_spec, Z.shiftl_spec by lia. destruct (Z.leb_spec 12 i).
  - rewrite Z.ones_spec_low by lia. apply andb_true_r.
  - rewrite (Z.testbit_neg_r (Z.ones 4)) by lia. apply andb_false_r.
Qed.
(** Writing an entry changes its twelve bits and no other. *)
Lemma fat_set_bits t c v : bytes_ok t -> accessible t c ->
  exists t', fat_set t c v = Some t' /\ length t' = length t /\ bytes_ok t' /\
    forall k, 0 <= k -> tbit t' k = if (12 * c <=? k) && (k <? 12 * c + 12) then Z.testbit v (k - 12 * c) else tbit t k.
Proof.
  intros Ht Hc. unfold fat_set. destruct (fat_word_bits t c Ht Hc) as (w & -> & Hw). destruct Hc as [Hc Hl]. rewrite option_bind_Some.
  eexists. split; [done|]. split; [apply splice_length; cbn; lia|]. split; [apply bytes_ok_splice; [apply bytes_ok_put16|done]|].
  intros k Hk. rewrite tbit_put16, !land_fff by done.
  destruct ((8 * Z.of_nat (fat_offset c) <=? k) && (k <? 8 * Z.of_nat (fat_offset c) + 16)) eqn:E; zbool.
  - specialize (Hw (k - 8 * Z.of_nat (fat_offset c)) ltac:(lia)). rewrite Zplus_minus in Hw. destruct (Z.odd c) eqn:Eo.
    + rewrite fat_offset_odd in * by done. rewrite Z.lor_spec, testbit_mask_f, Z.shiftl_spec, Hw by lia. destruct (Z.ltb_spec (k - (12 * c - 4)) 4).
      * rewrite Z.testbit_neg_r, orb_false_r by lia. by rewrite (proj2 (Z.leb_gt (12 * c) k)) by lia.
      * rewrite low12_bit, (proj2 (Z.leb_le (12 * c) k)), (proj2 (Z.ltb_lt k (12 * c + 12))), (proj2 (Z.ltb_lt _ 12)) by lia.
        cbn. f_equal. lia.
    + rewrite fat_offset_even in * by done. rewrite Z.lor_spec, testbit_mask_f000, low12_bit, Hw by lia. rewrite (proj2 (Z.leb_le (12 * c) k)) by lia.
      destruct (Z.leb_spec 12 (k - 12 * c)).
      * rewrite (proj2 (Z.ltb_ge _ 12)), (proj2 (Z.ltb_ge k _)), orb_false_r by lia. done.
      * rewrite (proj2 (Z.ltb_lt _ 12)), (proj2 (Z.ltb_lt k _)) by lia. done.
  - rewrite (proj2 (andb_false_iff (12 * c <=? k) _)); [done|].
    destruct (Z.odd c) eqn:Eo; [rewrite fat_offset_odd in E by done|rewrite fat_offset_even in E by done]; rewrite Z.leb_gt, Z.ltb_ge; destruct E; zbool; lia.
Qed.

(** ** The table refines an array of 12-bit entries *)
Lemma fat_set_spec t c v : bytes_ok t -> accessible t c ->
  exists t', fat_set t c v = Some t' /\ length t' = length t /\ bytes_ok t' /\
    (c < FAT12_CLUSTER_EOF -> fat_get t' c = Some (low12 v)) /\ forall c', 0 <= c' -> c' <> c -> fat_get t' c' = fat_get t c'.
Proof.
  intros Ht Hc. destruct (fat_set_bits t c v Ht Hc) as (t' & Hs & HL & Ht' & Hb). exists t'. split_and!; [done|done|done| |].
  - intros Hlt. assert (Hc' : accessible t' c) by (destruct Hc; split; [done|by rewrite HL]).
    destruct (fat_get_bits t' c Ht' Hc' Hlt) as (x & -> & Hx & Hxb). f_equal. apply bits_ext. intros i Hi. rewrite low12_bit by done.
    destruct (Z.ltb_spec i 12); [|rewrite (testbit_ge _ i 12); done]. destruct Hc. rewrite Hxb, Hb by lia.
    rewrite (proj2 (Z.leb_le (12 * c) _)), (proj2 (Z.ltb_lt _ (12 * c + 12))) by lia. cbn. f_equal. lia.
  - intros c' H0 Hne. apply fat_get_ext; [done..|]. intros _ i Hi. destruct Hc. rewrite Hb by lia. rewrite (proj2 (andb_false_iff _ _)); [done|].
    rewrite Z.leb_gt, Z.ltb_ge. lia.
Qed.
Lemma fat_get_some t c : bytes_ok t -> accessible t c -> exists v, fat_get t c = Some v /\ 0 <= v < 2 ^ 12.
Proof.
  intros Ht Hc. destruct (decide (c < FAT12_CLUSTER_EOF)) as [Hlt|Hge].
  - destruct (fat_get_bits t c Ht Hc Hlt) as (v & -> & Hv & _). by exists v.
  - exists FAT12_CLUSTER_EOF. unfold fat_get. rewrite (proj2 (Z.leb_le _ _)) by lia. done.
Qed.

(** ** Chains *)
Inductive on_chain (t : bytes) : Z -> Z -> Prop :=
| on_here c : 2 <= c < FAT12_CLUSTER_EOF -> on_chain t c c
| on_next c v c' : 2 <= c < FAT12_CLUSTER_EOF -> fat_get t c = Some v -> on_chain t v c' -> on_chain t c c'.
(** Every link leads to an entry of the table, to the end mark or to a reserved value. *)
Definition closed (t : bytes) : Prop :=
  forall c v, accessible t c -> fat_get t c = Some v -> 2 <= v < FAT12_CLUSTER_EOF -> accessible t v.
Definition live (t : bytes) : list Z := filter (fun c => fat_get t c <> Some 0) (seqZ 2 (FAT12_CLUSTER_EOF - 2)).

Lemma live_bound t : (length (live t) < chain_fuel)%nat.
Proof. unfold live. pose proof (length_filter (fun c => fat_get t c <> Some 0) (seqZ 2 (FAT12_CLUSTER_EOF - 2))) as H. rewrite length_seqZ in H. unfold chain_fuel, FAT12_CLUSTER_EOF in *. lia. Qed.
Lemma on_chain_start t c c' : on_chain t c c' -> 2 <= c < FAT12_CLUSTER_EOF.
Proof. by destruct 1. Qed.

Lemma filter_length_mono {A} (P Q : A -> Prop) `{!forall x, Decision (P x), !forall x, Decision (Q x)} (l : list A) :
  (forall y, y ∈ l -> Q y -> P y) -> (length (filter Q l) <= length (filter P l))%nat.
Proof.
  induction l as [|y l IH]; intros HQP; [done|]. rewrite !filter_cons. specialize (IH ltac:(set_solver)).
  destruct (decide (Q y)); [rewrite decide_True by (apply HQP; set_solver); cbn; lia|]. destruct (decide (P y)); cbn; lia.
Qed.
Lemma filter_drop_one {A} (P Q : A -> Prop) `{!forall x, Decision (P x), !forall x, Decision (Q x)} (l : list A) x :
  (forall y, y ∈ l -> Q y -> P y) -> x ∈ l -> P x -> ~ Q x -> (length (filter Q l) < length (filter P l))%nat.
Proof.
  intros HQP Hx HP HQ. induction l as [|y l IH]; [set_solver|]. pose proof (filter_length_mono P Q l ltac:(set_solver)) as Hle.
  rewrite !filter_cons. apply list.elem_of_cons in Hx as [<- | Hx].
  - rewrite decide_False, decide_True by done. cbn. lia.
  - specialize (IH ltac:(set_solver) Hx). destruct (decide (Q y)); [rewrite decide_True by (apply HQP; set_solver); cbn; lia|].
    destruct (decide (P y)); cbn; lia.
Qed.

(** What clearing the entry of [c] does to the chains. *)
Section clear.
Context (t t1 : bytes) (c v : Z).
Hypothesis (Hc : 2 <= c < FAT12_CLUSTER_EOF) (Hv : fat_get t c = Some v) (H1 : fat_get t1 c = Some 0).
Hypothesis (Hother : forall c', 0 <= c' -> c' <> c -> fat_get t1 c' = fat_get t c').
Lemma on_chain_clear_back a c' : on_chain t1 a c' -> on_chain t a c'.
Proof.
  induction 1 as [a Ha|a w c' Ha Hw Hch IH]; [by constructor|]. destruct (decide (a = c)) as [->|Hne].
  - rewrite H1 in Hw. injection Hw as <-. apply on_chain_start in Hch. lia.
  - rewrite Hother in Hw by lia. by eapply on_next.
Qed.
Lemma on_chain_clear_to a c' : on_chain t a c' -> on_chain t1 a c' \/ on_chain t1 v c'.
Proof.
  induction 1 as [a Ha|a w c' Ha Hw Hch IH]; [left; by constructor|]. destruct IH as [IH|IH]; [|by right]. destruct (decide (a = c)) as [->|Hne].
  - right. congruence.
  - left. eapply on_next; [done| |done]. by rewrite Hother by lia.
Qed.
Lemma on_chain_clear c' : on_chain t c c' <-> c' = c \/ on_chain t1 v c'.
Proof.
  split.
  - intros Hch. destruct (on_chain_clear_to c c' Hch) as [H|]; [|by right]. left. inversion H as [|? w ? ? Hw Hch' E]; [done|].
    rewrite H1 in Hw. injection Hw as <-. apply on_chain_start in Hch'. lia.
  - intros [-> | H]; [by constructor|]. eapply on_next; [done..|]. by apply on_chain_clear_back.
Qed.
Lemma live_clear : v <> 0 -> (length (live t1) < length (live t))%nat.
Proof.
  intros Hne. apply (filter_drop_one _ _ _ c).
  - intros y Hin Hy E. apply Hy. destruct (decide (y = c)) as [->|Hyc]; [done|]. apply elem_of_seqZ in Hin. by rewrite Hother by lia.
  - apply elem_of_seqZ. lia.
  - rewrite Hv. congruence.
  - rewrite H1. intros Hn. by apply Hn.
Qed.
End clear.

(** ** The operations on the cached table *)
Section operations.
Context {D : Type} `{!BlockDevice D}.
Implicit Types (s : fat1x D).
Definition with_table (t : bytes) s : fat1x D := mk_fat (device s) (set_fat_table (Some t) (volume s)) (sector_buffer s) (allocs s).
Lemma with_table_table t s : fat_table (volume (with_table t s)) = Some t.
Proof. done. Qed.
Lemma with_table_twice t t' s : with_table t (with_table t' s) = with_table t s.
Proof. done. Qed.
Lemma with_table_same t s : fat_table (volume s) = Some t -> with_table t s = s.
Proof. destruct s as [d [] b a]; cbn. intros [= ->]. done. Qed.

Lemma next_run c s t v : fat_table (volume s) = Some t -> fat_get t c = Some v -> Fat12GetNextCluster c s = Some (v, s).
Proof.
  intros Ht Hv. unfold Fat12GetNextCluster. destruct (FAT12_CLUSTER_EOF <=? c) eqn:E.
  - unfold fat_get in Hv. rewrite E in Hv. by injection Hv as <-.
  - unfold mbind, STM_bind, get_fat. rewrite Ht. cbn. unfold lift. by rewrite Hv.
Qed.
Lemma set_run c v s t t' : fat_table (volume s) = Some t -> fat_set t c v = Some t' -> Fat12SetFatEntry c v s = Some (tt, with_table t' s).
Proof. intros Ht Hv. unfold Fat12SetFatEntry, mbind, STM_bind, get_fat, lift. rewrite Ht. cbn. by rewrite Hv. Qed.

Lemma closed_update t t1 c : closed t -> accessible t c -> length t1 = length t -> (fat_get t1 c = Some 0) ->
  (forall c', 0 <= c' -> c' <> c -> fat_get t1 c' = fat_get t c') -> closed t1.
Proof.
  intros Hcl Hc HL H1 Ho a w Ha Hw Hr. unfold accessible in *. rewrite HL in *. destruct (decide (a = c)) as [->|Hne].
  - rewrite H1 in Hw. injection Hw as <-. lia.
  - rewrite Ho in Hw by (try tauto; apply Ha). by eapply Hcl.
Qed.
Lemma free_chain_stop fuel c s : ~ 2 <= c < FAT12_CLUSTER_EOF -> free_chain fuel c s = Some (tt, s).
Proof.
  intros H. assert (E : (2 <=? c) && (c <? FAT12_CLUSTER_EOF) = false).
  { apply andb_false_iff. rewrite Z.leb_gt, Z.ltb_ge. lia. }
  destruct fuel; cbn [free_chain]; by rewrite E.
Qed.
(** Freeing a chain ends and clears exactly the chain. *)
Record freed_chain (t t' : bytes) (c : Z) : Prop := {
  fc_length : length t' = length t;
  fc_bytes : bytes_ok t';
  fc_closed : closed t';
  fc_on : forall c', on_chain t c c' -> fat_get t' c' = Some 0;
  fc_off : forall c', 0 <= c' -> ~ on_chain t c c' -> fat_get t' c' = fat_get t c';
  fc_or : forall c', 0 <= c' -> fat_get t' c' = Some 0 \/ fat_get t' c' = fat_get t c'
}.
Lemma free_chain_run fuel c s t : fat_table (volume s) = Some t -> bytes_ok t -> closed t -> (2 <= c < FAT12_CLUSTER_EOF -> accessible t c) ->
  (length (live t) < fuel)%nat -> exists t', free_chain fuel c s = Some (tt, with_table t' s) /\ freed_chain t t' c.
Proof.
  revert c s t. induction fuel as [|fuel IH]; intros c s t Hs Ht Hcl Hc Hf; [lia|].
  destruct (decide (2 <= c < FAT12_CLUSTER_EOF)) as [Hin|Hout].
  2:{ exists t. rewrite free_chain_stop, with_table_same by done. split; [done|]. split; auto.
      intros c' Hch. by apply on_chain_start in Hch. }
  specialize (Hc Hin). destruct (fat_get_some t c Ht Hc) as (v & Hv & Hvr).
  destruct (fat_set_spec t c FAT12_CLUSTER_FREE Ht Hc) as (t1 & Hset & HL1 & Ht1 & Hget1 & Hoth1). specialize (Hget1 (proj2 Hin)).
  change (low12 FAT12_CLUSTER_FREE) with 0 in Hget1. pose proof (closed_update t t1 c Hcl Hc HL1 Hget1 Hoth1) as Hcl1.
  assert (Hrun : free_chain (S fuel) c s = free_chain fuel v (with_table t1 s)).
  { cbn [free_chain]. rewrite (proj2 (Z.leb_le 2 c)), (proj2 (Z.ltb_lt c _)) by lia. cbn [andb].
    rewrite (run_bind _ _ _ _ _ (next_run c s t v Hs Hv)). by rewrite (run_bind _ _ _ _ _ (set_run c _ s t t1 Hs Hset)). }
  rewrite Hrun. assert (Hrec : exists t', free_chain fuel v (with_table t1 s) = Some (tt, with_table t' s) /\ freed_chain t1 t' v).
  { destruct (decide (v = 0)) as [->|Hv0].
    - exists t1. rewrite free_chain_stop by lia. split; [done|]. split; auto. intros c' Hch. apply on_chain_start in Hch. lia.
    - apply (IH v (with_table t1 s) t1); [done|done|done| |].
      + intros Hvin. specialize (Hcl c v Hc Hv Hvin). unfold accessible in *. by rewrite HL1.
      + pose proof (live_clear t t1 c v Hin Hv Hget1 Hoth1 Hv0). lia. }
  destruct Hrec as (t' & -> & [HL' Ht' Hcl' Hon Hoff Hor]). exists t'. split; [done|]. pose proof (on_chain_clear t t1 c v Hin Hv Hget1 Hoth1) as Hiff.
  split; [congruence|done|done| | |].
  - intros c' Hch. apply Hiff in Hch as [-> | Hch]; [|by apply Hon]. destruct (Hor c); [lia|done|congruence].
  - intros c' H0 Hn. rewrite Hoff; [|done|by intros Hch; apply Hn, Hiff; right]. apply Hoth1; [done|]. intros ->. apply Hn, Hiff. by left.
  - intros c' H0. destruct (Hor c' H0) as [|E]; [by left|]. destruct (decide (c' = c)) as [->|Hne]; [left; congruence|]. right. by rewrite E, Hoth1.
Qed.
End operations.
