(* ===== verification/FatDir.v ===== *)
(** The root directory of the FAT12 file system: on a reliable device the searches compute pure
    functions of the directory's sectors, and a slot that the search for a free entry returns is
    one where the search by name will find a new entry. *)
From Stdlib Require Import ZArith Lia.
From stdpp Require Import base tactics list numbers option sets.
From S2P Require Import Prelude BlockDev Fat1x FatFile FatTable.

(** ** Scanning entries *)
Definition passed (name e : bytes) : Prop := e_first e <> 0 /\ (skipped e = true \/ e_name e <> name).
Definition matching (name e : bytes) : Prop := e_first e <> 0 /\ skipped e = false /\ e_name e = name.
Definition free_entry (e : bytes) : Prop := e_first e = 0 \/ e_first e = 0xE5.

Lemma scan_entries_some n i buf name j : scan_entries n i buf name = Some j ->
  (i <= j < i + n)%nat /\ matching name (entry_at j buf) /\ forall i', (i <= i' < j)%nat -> passed name (entry_at i' buf).
Proof.
  revert i. induction n as [|n IH]; intros i; cbn [scan_entries]; [done|].
  destruct (e_first (entry_at i buf) =? 0) eqn:E0; [done|]. zbool. destruct (skipped (entry_at i buf)) eqn:Es; [|case_bool_decide as Hn].
  2:{ intros [= <-]. split_and!; [lia|lia|by split|]. intros i' Hi'. lia. }
  all: intros H; apply IH in H as (Hj & Hm & Hp); split_and!; [lia|lia|done|]; intros i' Hi';
    (destruct (decide (i' = i)) as [->|]; [split; auto|apply Hp; lia]).
Qed.
Lemma scan_entries_hit n i buf name j : (i <= j < i + n)%nat -> matching name (entry_at j buf) ->
  (forall i', (i <= i' < j)%nat -> passed name (entry_at i' buf)) -> scan_entries n i buf name = Some j.
Proof.
  revert i. induction n as [|n IH]; intros i Hj Hm Hp; [lia|]. cbn [scan_entries]. destruct (decide (i = j)) as [->|Hne].
  - destruct Hm as (H0 & Hs & Hn). rewrite (proj2 (Z.eqb_neq _ _)), Hs by done. by rewrite bool_decide_eq_true_2.
  - destruct (Hp i ltac:(lia)) as [H0 Hs]. rewrite (proj2 (Z.eqb_neq _ _)) by done.
    rewrite (IH (S i)) by (try lia; try done; intros; apply Hp; lia). destruct (skipped _) eqn:Es; [done|].
    destruct Hs as [|Hs]; [done|]. by rewrite bool_decide_eq_false_2.
Qed.
Lemma scan_entries_passed n i buf name : (forall i', (i <= i' < i + n)%nat -> passed name (entry_at i' buf)) -> scan_entries n i buf name = None.
Proof.
  intros Hp. destruct (scan_entries n i buf name) as [j|] eqn:E; [|done]. apply scan_entries_some in E as (Hj & Hm & _).
  destruct (Hp j Hj) as [_ [Hs|Hs]]; destruct Hm as (_ & Hs' & Hn); congruence.
Qed.
(** The slot search: a collision is a match after passed entries; otherwise every entry up to
    the end was passed, and the slot is the first free one. *)
Definition slot_after (at_ : nat -> Z * Z) (buf name : bytes) (i j : nat) (slot : option (Z * Z)) (l : Z * Z) : Prop :=
  slot = Some l \/ slot = None /\ exists k, (i <= k <= j)%nat /\ l = at_ k /\ free_entry (entry_at k buf).
Definition slot_result (at_ : nat -> Z * Z) (buf name : bytes) (n i : nat) (slot : option (Z * Z)) (r : slot_scan) : Prop :=
  match r with
  | Collision => exists j, (i <= j < i + n)%nat /\ matching name (entry_at j buf) /\ forall i', (i <= i' < j)%nat -> passed name (entry_at i' buf)
  | EndOfDir l => exists j, (i <= j < i + n)%nat /\ e_first (entry_at j buf) = 0 /\ slot_after at_ buf name i j slot l /\
      forall i', (i <= i' < j)%nat -> passed name (entry_at i' buf)
  | Continue slot' => (forall i', (i <= i' < i + n)%nat -> passed name (entry_at i' buf)) /\
      match slot' with
      | Some l => slot_after at_ buf name i (i + n - 1) slot l
      | None => slot = None /\ forall i', (i <= i' < i + n)%nat -> ~ free_entry (entry_at i' buf)
      end
  end.
(** One passed entry more in front. *)
Lemma slot_result_step at_ buf name n i slot slot1 r :
  passed name (entry_at i buf) -> (slot1 = None -> slot = None /\ ~ free_entry (entry_at i buf)) ->
  (forall l j, (i <= j)%nat -> slot_after at_ buf name (S i) j slot1 l -> slot_after at_ buf name i j slot l) ->
  slot_result at_ buf name n (S i) slot1 r -> slot_result at_ buf name (S n) i slot r.
Proof.
  intros Hp Hnone Hlj IH.
  assert (Hall : forall j, (forall i', (S i <= i' < j)%nat -> passed name (entry_at i' buf)) -> forall i', (i <= i' < j)%nat -> passed name (entry_at i' buf)).
  { intros j H i' Hi'. destruct (decide (i' = i)) as [->|]; [done|]. apply H. lia. }
  destruct r as [|l|[l|]]; cbn [slot_result] in *.
  - destruct IH as (j & Hj & Hm & Hpj). exists j. split_and!; [lia|lia|done|]. by apply Hall.
  - destruct IH as (j & Hj & Hz & Hs & Hpj). exists j. split_and!; [lia|lia|done|apply Hlj; [lia|done]|]. by apply Hall.
  - destruct IH as [Hp' Hs]. split; [apply Hall; intros; apply Hp'; lia|]. replace (i + S n - 1)%nat with (S i + n - 1)%nat by lia. apply Hlj; [lia|done].
  - destruct IH as [Hp' [Hs Hf]]. split; [apply Hall; intros; apply Hp'; lia|]. destruct (Hnone Hs) as [-> Hnf]. split; [done|].
    intros i' Hi'. destruct (decide (i' = i)) as [->|]; [done|]. apply Hf. lia.
Qed.
Lemma scan_slots_spec n i at_ buf name slot : slot_result at_ buf name n i slot (scan_slots n i at_ buf name slot).
Proof.
  revert i slot. induction n as [|n IH]; intros i slot; cbn [scan_slots].
  { split; [intros; lia|]. destruct slot as [l|]; [by left|]. split; [done|]. intros; lia. }
  assert (Hkeep : forall l j, (i <= j)%nat -> slot_after at_ buf name (S i) j slot l -> slot_after at_ buf name i j slot l).
  { intros l j _ [H|(H & k & Hk & H')]; [by left|]. right. split; [done|]. exists k. split; [lia|done]. }
  destruct (e_first (entry_at i buf) =? 0) eqn:E0; zbool;
    [|destruct (e_first (entry_at i buf) =? 0xE5) eqn:E5; zbool; [|destruct (has_attr FAT12_ATTR_VOLUME_ID (entry_at i buf)) eqn:Ev; [|case_bool_decide as Hn]]].
  - exists i. split_and!; [lia|lia|done| |intros; lia]. destruct slot as [l|]; [by left|]. right. split; [done|]. exists i. split_and!; [lia|lia|done|by left].
  - eapply slot_result_step; [| | |apply IH].
    + split; [done|]. left. unfold skipped. by rewrite E5.
    + by destruct slot.
    + intros l j Hj H. destruct slot as [l0|]; [by apply Hkeep|]. right. split; [done|]. destruct H as [[= <-]|[H _]]; [|done].
      exists i. split_and!; [lia|lia|done|by right].
  - eapply slot_result_step; [| |exact Hkeep|apply IH].
    + split; [done|]. left. unfold skipped. rewrite Ev. apply orb_true_r.
    + intros ->. split; [done|]. by intros [|].
  - exists i. split_and!; [lia|lia| |intros; lia]. split_and!; [done| |done]. unfold skipped. rewrite Ev, (proj2 (Z.eqb_neq _ _)) by done. done.
  - eapply slot_result_step; [| |exact Hkeep|apply IH].
    + split; [done|]. by right.
    + intros ->. split; [done|]. by intros [|].
Qed.

(** ** The directory as a sequence of sectors *)
Fixpoint find_from (sec : nat -> bytes) (n k : nat) (name : bytes) : option (nat * nat) :=
  match n with
  | O => None
  | S n' => match scan_entries 16 0 (sec k) name with Some i => Some (k, i) | None => find_from sec n' (S k) name end
  end.
Definition clear_before (sec : nat -> bytes) (name : bytes) (k i : nat) : Prop :=
  (forall j, (j < k)%nat -> scan_entries 16 0 (sec j) name = None) /\ forall i', (i' < i)%nat -> passed name (entry_at i' (sec k)).
Lemma find_from_some sec n k name j i : find_from sec n k name = Some (j, i) ->
  (k <= j < k + n)%nat /\ (i < 16)%nat /\ matching name (entry_at i (sec j)) /\ (forall j', (k <= j' < j)%nat -> scan_entries 16 0 (sec j') name = None) /\
  forall i', (i' < i)%nat -> passed name (entry_at i' (sec j)).
Proof.
  revert k. induction n as [|n IH]; intros k; cbn [find_from]; [done|]. destruct (scan_entries 16 0 (sec k) name) as [i0|] eqn:E.
  - intros [= <- <-]. apply scan_entries_some in E as (Hi & Hm & Hp). split_and!; [lia|lia|lia|done|intros; lia|]. intros i' Hi'. apply Hp. lia.
  - intros H. apply IH in H as (Hj & Hi & Hm & Hb & Hp). split_and!; [lia|lia|lia|done| |done]. intros j' Hj'.
    destruct (decide (j' = k)) as [->|]; [done|]. apply Hb. lia.
Qed.
Lemma find_from_hit sec n k name j i : (k <= j < k + n)%nat -> (i < 16)%nat -> matching name (entry_at i (sec j)) ->
  (forall j', (k <= j' < j)%nat -> scan_entries 16 0 (sec j') name = None) -> (forall i', (i' < i)%nat -> passed name (entry_at i' (sec j))) ->
  find_from sec n k name = Some (j, i).
Proof.
  revert k. induction n as [|n IH]; intros k Hj Hi Hm Hb Hp; [lia|]. cbn [find_from]. destruct (decide (k = j)) as [->|Hne].
  - rewrite (scan_entries_hit 16 0 (sec j) name i); [done|lia|done|]. intros i' Hi'. apply Hp. lia.
  - rewrite Hb by lia. apply IH; [lia|done|done| |done]. intros j' Hj'. apply Hb. lia.
Qed.

(** ** Healthy volumes *)
Definition total_sectors (b : Fat1xBootSector) : Z := if total_sectors_16 b =? 0 then total_sectors_32 b else total_sectors_16 b.
Section volumes.
Context {D : Type} `{!BlockDevice D, !ReliableDevice D}.
Implicit Types (s : fat1x D).
Definition clusters s : Z := (total_sectors (boot (volume s)) - data_sector (volume s)) / sectors_per_cluster (boot (volume s)).
Definition root_count s : nat := Z.to_nat (root_sectors (boot (volume s))).
Definition root_sec s (k : nat) : bytes := sector (device s) (root_sector (volume s) + Z.of_nat k).
Definition root_entry s (k i : nat) : bytes := entry_at i (root_sec s k).
(** The layout of a FAT12 volume on its device: the reserved sectors, the copies of the table,
    the root directory, the clusters. *)
Record layout (v : Fat1xVolume) (cap : Z) : Prop := {
  l_spc : 1 <= sectors_per_cluster (boot v) <= 8;
  l_reserved : 0 <= reserved_sectors (boot v);
  l_fats : 1 <= fat_count (boot v);
  l_spf : 1 <= sectors_per_fat (boot v);
  l_root_entries : 0 <= root_entries (boot v);
  l_root : root_sector v = reserved_sectors (boot v) + fat_count (boot v) * sectors_per_fat (boot v);
  l_data : data_sector v = root_sector v + root_sectors (boot v);
  l_total : data_sector v <= total_sectors (boot v) <= cap;
  l_cap : cap < 2 ^ 32
}.
(** A volume in use: the layout, a table that covers its clusters, directory entries and links
    that stay inside it, a sector buffer, and enough memory. *)
Record healthy s (t : bytes) : Prop := {
  h_layout : layout (volume s) (capacity (device s));
  h_table : fat_table (volume s) = Some t;
  h_length : length t = (SECTOR * Z.to_nat (sectors_per_fat (boot (volume s))))%nat;
  h_bytes : bytes_ok t;
  h_closed : closed t;
  h_clusters : 2 + clusters s <= FAT12_CLUSTER_EOF;
  h_covers : forall c, 2 <= c < 2 + clusters s -> accessible t c;
  h_entries : forall k i, (k < root_count s)%nat -> (i < 16)%nat ->
    2 <= e_cluster_low (root_entry s k i) < FAT12_CLUSTER_EOF -> accessible t (e_cluster_low (root_entry s k i));
  h_buffer : is_Some (sector_buffer s);
  h_memory : allocs s = []
}.
Definition with_buf (b : bytes) s : fat1x D := mk_fat (device s) (volume s) (Some b) (allocs s).

Lemma read_one d lba : 0 <= lba < capacity d -> BlockDeviceRead d lba 1 = Some (sector d lba).
Proof.
  intros H. destruct (read_ok d lba 1) as [bs E]; [lia|lia|]. rewrite E. apply read_spec in E. cbn in E. by rewrite app_nil_r in E; subst.
Qed.
Lemma read_sector_run lba s : is_Some (sector_buffer s) -> 0 <= lba < capacity (device s) ->
  ReadSectorBuffer lba s = Some (true, with_buf (sector (device s) lba) s).
Proof. intros [b Hb] H. unfold ReadSectorBuffer. rewrite Hb, read_one by done. done. Qed.
Lemma root_bound s k : layout (volume s) (capacity (device s)) -> (k < root_count s)%nat ->
  0 <= root_sector (volume s) + Z.of_nat k < data_sector (volume s) /\ data_sector (volume s) <= capacity (device s) < 2 ^ 32.
Proof.
  intros [] Hk. unfold root_count in Hk. rewrite l_data0. assert (0 <= fat_count (boot (volume s)) * sectors_per_fat (boot (volume s))) by nia. lia.
Qed.
Lemma root_read s k : layout (volume s) (capacity (device s)) -> is_Some (sector_buffer s) -> (k < root_count s)%nat ->
  ReadSectorBuffer (u32 (root_sector (volume s) + Z.of_nat k)) s = Some (true, with_buf (root_sec s k) s).
Proof. intros Hl Hb Hk. pose proof (root_bound s k Hl Hk) as [H1 H2]. rewrite u32_small by lia. apply read_sector_run; [done|lia]. Qed.
Lemma root_lba s k : layout (volume s) (capacity (device s)) -> (k < root_count s)%nat ->
  u32 (root_sector (volume s) + Z.of_nat k) = root_sector (volume s) + Z.of_nat k.
Proof. intros Hl Hk. pose proof (root_bound s k Hl Hk). apply u32_small. lia. Qed.
Lemma with_buf_twice b b' s : with_buf b (with_buf b' s) = with_buf b s.
Proof. done. Qed.

Definition found_at s (r : option (nat * nat)) : option found :=
  match r with Some (k, i) => Some (root_sector (volume s) + Z.of_nat k, Z.of_nat i, root_entry s k i) | None => None end.
Lemma get_buf_run b s : get_sector_buffer (with_buf b s) = Some (b, with_buf b s).
Proof. done. Qed.
Lemma boot_run s : get_boot s = Some (boot (volume s), s).
Proof. done. Qed.
Lemma same_buf b s : sector_buffer s = Some b -> with_buf b s = s.
Proof. destruct s; cbn. by intros ->. Qed.
Lemma search_root_run n k name s : layout (volume s) (capacity (device s)) -> is_Some (sector_buffer s) -> (k + n = root_count s)%nat ->
  exists b, search_root_loop n (Z.of_nat k) name s = Some (found_at s (find_from (root_sec s) n k name), with_buf b s).
Proof.
  revert k s. induction n as [|n IH]; intros k s Hl Hb Hk.
  { destruct Hb as [b Hb]. exists b. by rewrite same_buf. }
  cbn [search_root_loop find_from]. rewrite (run_bind _ _ _ _ _ (asks_run _ s)), (run_bind _ _ _ _ _ (root_read s k Hl Hb ltac:(lia))).
  rewrite (run_bind _ _ _ _ _ (get_buf_run _ s)). destruct (scan_entries 16 0 (root_sec s k) name) as [i|] eqn:E.
  - eexists. rewrite root_lba by (done || lia). done.
  - replace (Z.of_nat k + 1) with (Z.of_nat (S k)) by lia.
    destruct (IH (S k) (with_buf (root_sec s k) s)) as [b Hb']; [done|by eexists|change (root_count (with_buf (root_sec s k) s)) with (root_count s); lia|].
    exists b. rewrite Hb'. done.
Qed.
(** A slot where a new entry will be found. *)
Definition good_slot s (name : bytes) (k i : nat) : Prop :=
  (k < root_count s)%nat /\ (i < 16)%nat /\ free_entry (root_entry s k i) /\ clear_before (root_sec s) name k i.
Definition root_full s : Prop := forall k i, (k < root_count s)%nat -> (i < 16)%nat -> ~ free_entry (root_entry s k i).
Definition slot_at s (k i : nat) : Z * Z := (root_sector (volume s) + Z.of_nat k, Z.of_nat i).
(** The outcome of the slot search in the root directory. *)
Inductive slot_outcome s (name : bytes) : Z * (Z * Z) -> Prop :=
| slot_found k i : good_slot s name k i -> slot_outcome s name (0, slot_at s k i)
| slot_full l : root_full s -> slot_outcome s name (-1, l)
| slot_collision l k i : find_from (root_sec s) (root_count s) 0 name = Some (k, i) -> slot_outcome s name (-2, l).
Lemma slot_outcome_buf b s name r : slot_outcome (with_buf b s) name r -> slot_outcome s name r.
Proof. destruct 1 as [k i H|l H|l k i H]; [exact (slot_found s name k i H)|exact (slot_full s name l H)|exact (slot_collision s name l k i H)]. Qed.
Definition slot_so_far s (name : bytes) (k : nat) (slot : option (Z * Z)) : Prop :=
  match slot with
  | Some l => exists k0 i0, l = slot_at s k0 i0 /\ good_slot s name k0 i0
  | None => forall k0 i0, (k0 < k)%nat -> (i0 < 16)%nat -> ~ free_entry (root_entry s k0 i0)
  end.
Lemma slot_root_run n k name slot s : layout (volume s) (capacity (device s)) -> is_Some (sector_buffer s) -> (k + n = root_count s)%nat ->
  (forall j, (j < k)%nat -> scan_entries 16 0 (root_sec s j) name = None) -> slot_so_far s name k slot ->
  exists r b, slot_root_loop n (Z.of_nat k) name slot s = Some (r, with_buf b s) /\ slot_outcome s name r.
Proof.
  revert k slot s. induction n as [|n IH]; intros k slot s Hl Hb Hk Hclear Hslot.
  { destruct Hb as [b Hb]. cbn [slot_root_loop]. eexists _, b. rewrite same_buf by done. split; [done|]. destruct slot as [l|].
    - destruct Hslot as (k0 & i0 & -> & Hg). by constructor.
    - constructor. intros k0 i0 Hk0 Hi0. apply Hslot; [lia|done]. }
  cbn [slot_root_loop]. rewrite (run_bind _ _ _ _ _ (asks_run _ s)), (run_bind _ _ _ _ _ (root_read s k Hl Hb ltac:(lia))).
  rewrite (run_bind _ _ _ _ _ (get_buf_run _ s)), root_lba by (done || lia).
  change (fun i : nat => (root_sector (volume s) + Z.of_nat k, Z.of_nat i)) with (slot_at s k).
  pose proof (scan_slots_spec 16 0 (slot_at s k) (root_sec s k) name slot) as Hsc.
  destruct (scan_slots 16 0 (slot_at s k) (root_sec s k) name slot) as [|l|slot'].
  - eexists _, _. split; [done|]. destruct Hsc as (j & Hj & Hm & Hp). apply slot_collision with k j. apply find_from_hit; [lia|lia|done|intros; apply Hclear; lia|].
    intros i' Hi'. apply Hp. lia.
  - eexists _, _. split; [done|]. destruct Hsc as (j & Hj & Hz & [-> | (-> & i0 & Hi0 & -> & Hf)] & Hp).
    + destruct Hslot as (k0 & i0 & -> & Hg). by constructor.
    + constructor. split_and!; [lia|lia|done|]. split; [done|]. intros i' Hi'. apply Hp. lia.
  - destruct Hsc as [Hp Hs]. replace (Z.of_nat k + 1) with (Z.of_nat (S k)) by lia.
    destruct (IH (S k) slot' (with_buf (root_sec s k) s)) as (r & b & Hr & Ho);
      [done|by eexists|change (root_count (with_buf (root_sec s k) s)) with (root_count s); lia| | |exists r, b; split; [exact Hr|by eapply slot_outcome_buf]].
    + intros j Hj. destruct (decide (j = k)) as [->|]; [|apply Hclear; lia]. apply scan_entries_passed. intros; apply Hp; lia.
    + change (slot_so_far s name (S k) slot'). destruct slot' as [l|].
      * destruct Hs as [-> | (-> & i0 & Hi0 & -> & Hf)]; [exact Hslot|]. exists k, i0. split; [done|]. split_and!; [lia|lia|done|]. split; [done|].
        intros i' Hi'. apply Hp. lia.
      * destruct Hs as [-> Hf]. intros k0 i0 Hk0 Hi0. destruct (decide (k0 = k)) as [->|]; [apply Hf; lia|]. apply Hslot; [lia|done].
Qed.
Lemma slot_root_spec name s : layout (volume s) (capacity (device s)) -> is_Some (sector_buffer s) ->
  exists r b, Fat12FindDirectoryEntry 0 name s = Some (r, with_buf b s) /\ slot_outcome s name r.
Proof.
  intros Hl Hb. unfold Fat12FindDirectoryEntry. cbn [Z.eqb]. rewrite (run_bind _ _ _ _ _ (boot_run s)).
  apply (slot_root_run (root_count s) 0 name None s); [done|done|lia|intros; lia|]. intros k0 i0 H. lia.
Qed.

(** ** Paths to entries of the root directory *)
Definition root_find s (name : bytes) : option (nat * nat) := find_from (root_sec s) (root_count s) 0 name.
Definition is_dir (e : bytes) : bool := has_attr FAT12_ATTR_DIRECTORY e.
(** A name without slashes, of any length, and one that [Fat12FindEntry] takes whole. *)
Definition plain_name (comp : bytes) : Prop := comp <> [] /\ Forall (fun c => c <> 47) comp.
Definition path_component (comp : bytes) : Prop := comp <> [] /\ (length comp <= 11)%nat /\ Forall (fun c => c <> 47) comp.
(** What the path of a name leads to: a longer name is cut after eleven bytes, and what is cut off
    is looked for in a directory of the shorter name; when there is none, nothing is found. *)
Definition root_lookup s (comp : bytes) : option (nat * nat) :=
  if decide (length comp <= 11)%nat then root_find s (Fat12ConvertFilename comp) else None.
(** No entry of the root directory with the first eleven bytes of a longer name is a directory. *)
Definition cut_ok s (comp : bytes) : Prop := (length comp <= 11)%nat \/
  forall k i, (k < root_count s)%nat -> (i < 16)%nat -> e_name (root_entry s k i) = Fat12ConvertFilename (take 11 comp) -> is_dir (root_entry s k i) = false.
Lemma component_plain comp : path_component comp -> plain_name comp.
Proof. intros (H1 & _ & H2). done. Qed.
Lemma component_cut comp s : path_component comp -> cut_ok s comp.
Proof. intros (_ & H & _). by left. Qed.
Lemma component_lookup comp s : path_component comp -> root_lookup s comp = root_find s (Fat12ConvertFilename comp).
Proof. intros (_ & H & _). unfold root_lookup. by rewrite decide_True. Qed.
Lemma root_lookup_some s comp k i : root_lookup s comp = Some (k, i) -> (length comp <= 11)%nat /\ root_find s (Fat12ConvertFilename comp) = Some (k, i).
Proof. unfold root_lookup. by destruct (decide _). Qed.
Lemma next_component_cut room comp : Forall (fun c => c <> 47) comp -> next_component room comp = (take room comp, drop room comp).
Proof.
  revert room. induction comp as [|c comp IH]; intros room Hs; [by destruct room|]. apply Forall_cons_iff in Hs as [Hc Hs].
  destruct room as [|room]; cbn [next_component]; rewrite (proj2 (Z.eqb_neq c 47)) by done; [done|]. by rewrite IH.
Qed.
Context (freed : bytes -> bytes).
Lemma search_root_found name s : layout (volume s) (capacity (device s)) -> is_Some (sector_buffer s) ->
  exists b, search_root name s = Some (found_at s (root_find s name), with_buf b s).
Proof.
  intros Hl Hb. destruct (search_root_run (root_count s) 0 name s) as [b Hs]; [done|done|lia|]. change (Z.of_nat 0) with 0 in Hs.
  exists b. unfold search_root. by rewrite (run_bind _ _ _ _ _ (boot_run s)).
Qed.
(** A name that is cut is not found. *)
Lemma find_entry_cut comp s : layout (volume s) (capacity (device s)) -> is_Some (sector_buffer s) -> plain_name comp -> (11 < length comp)%nat -> cut_ok s comp ->
  exists b, Fat12FindEntry freed (47 :: comp) s = Some (None, with_buf b s).
Proof.
  intros Hl Hb (Hne & Hsl) Hlen [?|Hcut]; [lia|]. unfold Fat12FindEntry. cbn [Z.eqb Pos.eqb]. rewrite bool_decide_eq_false_2 by done.
  assert (E : exists n, length comp = S n) by (exists (length comp - 1)%nat; lia). destruct E as [n E]. rewrite E.
  destruct comp as [|c comp']; [done|]. cbn [find_components]. rewrite next_component_cut by done. set (comp := c :: comp') in *.
  destruct (search_root_found (Fat12ConvertFilename (take 11 comp)) s Hl Hb) as [b Hs]. exists b. cbn [Z.eqb].
  rewrite (run_bind _ _ _ _ _ Hs). destruct (root_find s _) as [[k i]|] eqn:Ef; cbn [found_at]; [|done].
  apply find_from_some in Ef as (Hk & Hi & (_ & _ & Hn) & _). pose proof (Hcut k i ltac:(lia) Hi Hn) as Hd.
  destruct (drop 11 comp) eqn:Ed; [apply (f_equal length) in Ed; rewrite length_drop in Ed; cbn [length] in Ed; lia|].
  fold (root_entry s k i). unfold is_dir in Hd. by rewrite Hd.
Qed.
Lemma find_entry_root comp s : layout (volume s) (capacity (device s)) -> is_Some (sector_buffer s) -> plain_name comp -> cut_ok s comp ->
  exists b, Fat12FindEntry freed (47 :: comp) s =
    Some (match root_lookup s comp with
          | Some (k, i) => Some (0, root_sector (volume s) + Z.of_nat k, Z.of_nat i)
          | None => None
          end, with_buf b s) /\
    forall k i, root_lookup s comp = Some (k, i) -> b = root_sec s k.
Proof.
  intros Hl Hb Hc Hcut. unfold root_lookup. destruct (decide (length comp <= 11)%nat) as [Hlen|Hlen].
  2:{ destruct (find_entry_cut comp s Hl Hb Hc ltac:(lia) Hcut) as [b E]. by exists b. }
  destruct Hc as (Hne & Hsl). unfold Fat12FindEntry. cbn [Z.eqb Pos.eqb]. rewrite bool_decide_eq_false_2 by done.
  destruct comp as [|c comp']; [done|]. cbn [length find_components]. rewrite next_component_cut, take_ge, drop_ge by done. set (comp := c :: comp') in *.
  destruct (search_root_found (Fat12ConvertFilename comp) s Hl Hb) as [b Hsr].
  cbn [Z.eqb]. rewrite (run_bind _ _ _ _ _ Hsr). destruct (root_find s (Fat12ConvertFilename comp)) as [[k i]|] eqn:E; cbn [found_at].
  - apply find_from_some in E as (Hk & _). pose proof (root_bound s k Hl ltac:(lia)) as [H1 H2]. exists (root_sec s k). split; [|intros k' i' [= <- <-]; done].
    rewrite (run_bind _ _ _ _ _ (read_sector_run (root_sector (volume s) + Z.of_nat k) (with_buf b s) ltac:(by eexists) ltac:(cbn; lia))). done.
  - exists b. split; done.
Qed.
Lemma found_entry_run l b s : found_entry l (with_buf b s) = Some (entry_at (Z.to_nat l.2) b, with_buf b s).
Proof. done. Qed.
End volumes.
