(* ===== verification/FatWrite.v ===== *)
(** What the writing operations of the FAT12 file system do to a healthy volume: the search for
    a free cluster, the write-back of the table, the update of a directory entry. *)
From Stdlib Require Import ZArith Lia.
From stdpp Require Import base tactics list numbers option sets.
From S2P Require Import Prelude BlockDev Fat1x FatFile FatTable FatDir.

(** ** Directory entries *)
Lemma entry_length i buf : (32 * i + 32 <= length buf)%nat -> length (entry_at i buf) = 32%nat.
Proof. intros H. unfold entry_at. rewrite length_take, length_drop. lia. Qed.
Lemma entry_at_write i j f buf : (forall e, length e = 32%nat -> length (f e) = 32%nat) ->
  (32 * i + 32 <= length buf)%nat -> (32 * j + 32 <= length buf)%nat ->
  entry_at j (write_entry i f buf) = if decide (j = i) then f (entry_at i buf) else entry_at j buf.
Proof.
  intros Hf Hi Hj. pose proof (Hf _ (entry_length i buf Hi)) as Hl. assert (HL : length (write_entry i f buf) = length buf) by (apply splice_length; lia).
  apply list_eq_same_length with 32%nat; [destruct (decide (j = i)); [done|by apply entry_length]|apply entry_length; lia|].
  intros k x y Hk Hx Hy. unfold entry_at in Hx. rewrite lookup_take_lt, lookup_drop in Hx by done. unfold write_entry in Hx. destruct (decide (j = i)) as [->|Hne].
  - rewrite splice_in in Hx by lia. congruence.
  - rewrite splice_out in Hx by lia. unfold entry_at in Hy. rewrite lookup_take_lt, lookup_drop in Hy by done. congruence.
Qed.
Lemma write_entry_length i f buf : (forall e, length e = 32%nat -> length (f e) = 32%nat) -> (32 * i + 32 <= length buf)%nat ->
  length (write_entry i f buf) = length buf.
Proof. intros Hf Hi. apply splice_length. rewrite Hf by (by apply entry_length). lia. Qed.

Lemma get16_put16 v : 0 <= v < 2 ^ 16 -> Z.lor (u8 v) (Z.shiftl (u8 (Z.shiftr v 8)) 8) = v.
Proof.
  intros Hv. rewrite Z.lor_comm, lor_shl_add by (try apply u8_range; lia). unfold u8. rewrite Z.shiftr_div_pow2 by lia.
  rewrite (Z.mod_small (v / 2 ^ 8)) by dlia. dlia.
Qed.
Lemma get32_put32 v : 0 <= v < 2 ^ 32 ->
  Z.lor (Z.lor (u8 v) (Z.shiftl (u8 (Z.shiftr v 8)) 8))
        (Z.shiftl (Z.lor (u8 (Z.shiftr v 16)) (Z.shiftl (u8 (Z.shiftr (Z.shiftr v 16) 8)) 8)) 16) = v.
Proof.
  intros Hv. rewrite (get16_put16 (Z.shiftr v 16)) by (rewrite Z.shiftr_div_pow2 by lia; dlia).
  rewrite (Z.lor_comm (u8 v)), lor_shl_add by (try apply u8_range; lia). rewrite Z.lor_comm.
  assert (E : u8 (Z.shiftr v 8) * 2 ^ 8 + u8 v = v mod 2 ^ 16).
  { unfold u8. rewrite Z.shiftr_div_pow2 by lia. dlia. }
  rewrite E, lor_shl_add by (try apply Z.mod_pos_bound; lia). rewrite Z.shiftr_div_pow2 by lia. dlia.
Qed.
(** The fields of a new file entry, whatever the slot held. *)
Lemma file_entry_fields name c n e : length name = 11%nat -> length e = 32%nat -> 0 <= c < 2 ^ 16 -> 0 <= n < 2 ^ 32 ->
  let f := file_entry name c n e in
  length f = 32%nat /\ e_first f = byte_at 0 name /\ e_name f = name /\ e_attr f = FAT12_ATTR_ARCHIVE /\ e_cluster_low f = c /\ e_file_size f = n.
Proof.
  intros Hn He Hc Hs. do 32 (destruct e as [|? e]; [done|]). destruct e; [|done]. do 11 (destruct name as [|? name]; [done|]). destruct name; [|done].
  cbv zeta. split_and!; [done|done|done|done| |].
  - exact (get16_put16 c Hc).
  - exact (get32_put32 n Hs).
Qed.
Lemma deleted_entry_length e : length e = 32%nat -> length (deleted_entry e) = 32%nat /\ e_first (deleted_entry e) = 0xE5.
Proof. intros He. destruct e; [done|]. done. Qed.

(** ** Names *)
Lemma convert_loop_length cs name np ep x : length name = 11%nat -> length (convert_loop cs name np ep x) = 11%nat.
Proof.
  revert name np ep x. induction cs as [|c cs IH]; intros name np ep x Hn; cbn [convert_loop]; [done|].
  repeat case_match; apply IH; by rewrite ?length_insert.
Qed.
Lemma convert_length f : length (Fat12ConvertFilename f) = 11%nat.
Proof. by apply convert_loop_length. Qed.
Lemma convert_loop_first cs name np ep x : (x = true \/ 0 < np)%nat -> byte_at 0 (convert_loop cs name np ep x) = byte_at 0 name.
Proof.
  assert (Hins : forall k v (l : bytes), byte_at 0 (<[S k := v]> l) = byte_at 0 l) by (intros k v [|y l]; done).
  revert name np ep x. induction cs as [|c cs IH]; intros name np ep x Hx; cbn [convert_loop]; [done|].
  destruct (c =? 46); [by apply IH; left|]. destruct (negb x && (np <? 8)%nat) eqn:E1.
  { destruct x; [done|]. destruct Hx as [|Hx]; [done|]. destruct np; [lia|]. rewrite IH, Hins by (right; lia). done. }
  destruct (x && (ep <? 3)%nat) eqn:E2; [|by apply IH]. apply andb_true_iff in E2 as [-> _]. rewrite IH by (by left). apply (Hins (7 + ep)%nat).
Qed.
(** The names that can be stored: no slash, no NUL, not starting with the deletion mark, of any
    length (the stored name is cut to eight and three bytes); and those that can also be found
    again, because they have at most eleven bytes.  A full name of eight and three bytes has twelve
    with its dot, and is not one of them. *)
Definition file_name (comp : bytes) : Prop := plain_name comp /\ Forall (fun c => c <> 0) comp /\ byte_at 0 comp <> 0xE5.
Definition valid_name (comp : bytes) : Prop := path_component comp /\ Forall (fun c => c <> 0) comp /\ byte_at 0 comp <> 0xE5.
Lemma valid_file_name comp : valid_name comp -> file_name comp.
Proof. intros (H & H1 & H2). split; [by apply component_plain|done]. Qed.
Lemma valid_name_first comp : file_name comp -> byte_at 0 (Fat12ConvertFilename comp) <> 0 /\ byte_at 0 (Fat12ConvertFilename comp) <> 0xE5.
Proof.
  intros ((Hne & _) & Hz & H5). destruct comp as [|c comp]; [done|]. apply Forall_cons_iff in Hz as [Hz _]. cbn in H5.
  unfold Fat12ConvertFilename. change (take 64 (c :: comp)) with (c :: take 63 comp). cbn [convert_loop]. destruct (c =? 46).
  - by rewrite convert_loop_first by (by left).
  - cbn [negb andb]. change ((0 <? 8)%nat) with true. cbn iota. rewrite convert_loop_first by (right; lia). cbn. unfold upcase, is_lower.
    destruct ((97 <=? c) && (c <=? 122)) eqn:E; zbool; lia.
Qed.

(** ** Paths *)
Lemma last_slash_root n comp : Forall (fun c => c <> 47) comp -> (n <= length comp)%nat -> last_slash_from (S n) (47 :: comp) = Some 0%nat.
Proof.
  intros Hc. induction n as [|n IH]; intros Hn; [done|]. cbn [last_slash_from]. assert (Hb : byte_at (S n) (47 :: comp) <> 47).
  { unfold byte_at. cbn [nth]. destruct (lookup_lt_is_Some_2 comp n) as [x Hx]; [lia|]. rewrite (nth_lookup_Some _ _ _ _ Hx). by apply (Forall_lookup_1 _ _ _ _ Hc Hx). }
  rewrite (proj2 (Z.eqb_neq _ _)) by done. apply IH. lia.
Qed.
Lemma split_path_root comp : plain_name comp -> split_path (47 :: comp) = Some ([47], take 255 comp).
Proof.
  intros (_ & Hs). unfold split_path. cbn [length]. replace (Nat.min (S (length comp)) 256) with (S (Nat.min (length comp) 255)) by lia.
  rewrite last_slash_root by (done || lia). done.
Qed.
Lemma convert_cut comp : Fat12ConvertFilename (take 255 comp) = Fat12ConvertFilename comp.
Proof. unfold Fat12ConvertFilename. by rewrite take_take. Qed.

(** ** Free clusters *)
Fixpoint free_from (t : bytes) (n : nat) (i : Z) : Z :=
  match n with
  | O => 0
  | S n' => if bool_decide (fat_get t i = Some 0) then i else free_from t n' (i + 1)
  end.
Lemma free_from_spec t n i : 0 < i ->
  free_from t n i = 0 /\ (forall c, i <= c < i + Z.of_nat n -> fat_get t c <> Some 0) \/
  i <= free_from t n i < i + Z.of_nat n /\ fat_get t (free_from t n i) = Some 0.
Proof.
  revert i. induction n as [|n IH]; intros i Hi; cbn [free_from]; [left; split; [done|intros; lia]|].
  case_bool_decide as H; [right; split; [lia|done]|]. destruct (IH (i + 1) ltac:(lia)) as [[H0 Hc]|[H1 H2]]; [left|right; split; [lia|done]].
  split; [done|]. intros c Hc'. destruct (decide (c = i)) as [->|]; [done|]. apply Hc. lia.
Qed.

Section writes.
Context {D : Type} `{!BlockDevice D, !ReliableDevice D}.
Implicit Types (s : fat1x D).
Definition with_dev (d : D) s : fat1x D := mk_fat d (volume s) (sector_buffer s) (allocs s).
Definition free_cluster s (t : bytes) : Z := free_from t (Z.to_nat (clusters s)) 2.

Lemma find_free_loop_run n i s t : fat_table (volume s) = Some t -> bytes_ok t -> (forall c, i <= c < i + Z.of_nat n -> accessible t c) ->
  find_free_loop n i s = Some (free_from t n i, s).
Proof.
  intros Ht Hb. revert i. induction n as [|n IH]; intros i Ha; cbn [find_free_loop free_from]; [done|].
  destruct (fat_get_some t i Hb (Ha i ltac:(lia))) as (v & Hv & _). rewrite (run_bind _ _ _ _ _ (next_run i s t v Ht Hv)). rewrite Hv.
  destruct (Z.eqb_spec v FAT12_CLUSTER_FREE) as [->|Hne].
  - by rewrite bool_decide_eq_true_2.
  - rewrite bool_decide_eq_false_2 by (intros [= ->]; done). apply IH. intros c Hc. apply Ha. lia.
Qed.
Lemma clusters_nonneg s : layout (volume s) (capacity (device s)) -> 0 <= clusters s.
Proof. intros []. unfold clusters. apply Z.div_pos; lia. Qed.
Lemma find_free_run s t : layout (volume s) (capacity (device s)) -> fat_table (volume s) = Some t -> bytes_ok t -> 2 + clusters s <= FAT12_CLUSTER_EOF ->
  (forall c, 2 <= c < 2 + clusters s -> accessible t c) -> Fat12FindFreeCluster s = Some (free_cluster s t, s).
Proof.
  intros Hl Ht Hb Hn Ha. pose proof (clusters_nonneg s Hl) as H0. pose proof Hl as [Lspc Lres Lfats Lspf Lrent Lroot Ldata Ltotal Lcap]. unfold Fat12FindFreeCluster.
  rewrite (run_bind _ _ _ _ _ (boot_run s)), (run_bind _ _ _ _ _ (asks_run _ s)). rewrite (proj2 (Z.eqb_neq _ 0)) by lia.
  assert (E : (if total_sectors_16 (boot (volume s)) =? 0 then u32 (total_sectors_32 (boot (volume s)) - data_sector (volume s))
               else u32 (total_sectors_16 (boot (volume s)) - data_sector (volume s))) = total_sectors (boot (volume s)) - data_sector (volume s)).
  { unfold total_sectors in *. assert (0 <= data_sector (volume s)).
    { rewrite Ldata, Lroot. assert (0 <= root_sectors (boot (volume s))) by (apply Z.div_pos; lia).
      assert (0 <= fat_count (boot (volume s)) * sectors_per_fat (boot (volume s))) by nia. lia. }
    destruct (total_sectors_16 (boot (volume s)) =? 0); apply u32_small; lia. }
  rewrite E. fold (clusters s). unfold u16, FAT12_CLUSTER_EOF in *. rewrite Z.mod_small by lia. replace (2 + clusters s - 2) with (clusters s) by lia.
  apply find_free_loop_run; [done|done|]. intros c Hc. apply Ha. lia.
Qed.
Lemma free_cluster_spec s t : layout (volume s) (capacity (device s)) ->
  free_cluster s t = 0 /\ (forall c, 2 <= c < 2 + clusters s -> fat_get t c <> Some 0) \/
  2 <= free_cluster s t < 2 + clusters s /\ fat_get t (free_cluster s t) = Some 0.
Proof.
  intros Hl. pose proof (clusters_nonneg s Hl). destruct (free_from_spec t (Z.to_nat (clusters s)) 2) as [[H1 H2]|H1]; [lia|left|right]; rewrite Z2Nat.id in * by lia; done.
Qed.

(** ** Writing sectors *)
Record written (d d' : D) (lba : Z) (n : nat) (bs : bytes) : Prop := {
  w_capacity : capacity d' = capacity d;
  w_other : forall i, i < lba \/ lba + Z.of_nat n <= i -> sector d' i = sector d i;
  w_same : forall k, (k < n)%nat -> sector d' (lba + Z.of_nat k) = chunk k bs
}.
Lemma write_run lba n bs s : 0 <= lba -> lba + Z.of_nat n <= capacity (device s) -> length bs = (SECTOR * n)%nat ->
  exists d', WriteBlocks lba n bs s = Some (true, with_dev d' s) /\ written (device s) d' lba n bs.
Proof.
  intros H0 H1 Hl. pose proof (write_ok (device s) lba n bs H0 H1) as Hok. unfold WriteBlocks.
  destruct (BlockDeviceWrite (device s) lba n bs) as [ok d'] eqn:E. cbn in Hok. subst ok. exists d'. split; [done|]. split.
  - by eapply write_capacity.
  - intros i Hi. by eapply write_other.
  - intros k Hk. by eapply write_same.
Qed.
Lemma get_fat_run s t : fat_table (volume s) = Some t -> get_fat s = Some (t, s).
Proof. intros H. unfold get_fat. by rewrite H. Qed.
Lemma with_dev_table d s : fat_table (volume (with_dev d s)) = fat_table (volume s).
Proof. done. Qed.
(** One copy of the table: [n] sectors from the [j]-th on. *)
Lemma write_fat_copy_run n j start s t : fat_table (volume s) = Some t -> (SECTOR * (j + n) = length t)%nat -> 0 <= start ->
  start + Z.of_nat (j + n) <= capacity (device s) -> capacity (device s) < 2 ^ 32 ->
  exists d', write_fat_copy n j start s = Some (true, with_dev d' s) /\ capacity d' = capacity (device s) /\
    (forall i, i < start + Z.of_nat j \/ start + Z.of_nat (j + n) <= i -> sector d' i = sector (device s) i) /\
    forall k, (j <= k < j + n)%nat -> sector d' (start + Z.of_nat k) = chunk k t.
Proof.
  revert j s. induction n as [|n IH]; intros j s Ht HL H0 H1 Hc; cbn [write_fat_copy].
  { exists (device s). split; [by destruct s|]. split_and!; [done|done|intros; lia]. }
  rewrite (run_bind _ _ _ _ _ (get_fat_run s t Ht)), u32_small by lia.
  assert (Hck : length (chunk j t) = (SECTOR * 1)%nat) by (rewrite Nat.mul_1_r; apply (chunk_length (j + S n)); lia).
  destruct (write_run (start + Z.of_nat j) 1 (chunk j t) s) as (d1 & Hw & [Wc Wo Ws]); [lia|lia|done|].
  rewrite (run_bind _ _ _ _ _ Hw). destruct (IH (S j) (with_dev d1 s)) as (d' & Hr & Hcap & Hout & Hin); [done|lia|done|cbn; lia|cbn; lia|].
  exists d'. split; [exact Hr|]. cbn [device with_dev] in *. split_and!; [lia| |].
  - intros i Hi. rewrite Hout, Wo by lia. done.
  - intros k Hk. destruct (decide (k = j)) as [->|]; [|apply Hin; lia]. rewrite Hout by lia. specialize (Ws 0%nat ltac:(lia)). rewrite Z.add_0_r in Ws.
    rewrite Ws. unfold chunk. rewrite Nat.mul_0_r, drop_0. apply take_ge. rewrite length_take. lia.
Qed.
Lemma write_fat_copies_run n a s t :
  let b := boot (volume s) in let spf := sectors_per_fat b in
  fat_table (volume s) = Some t -> length t = (SECTOR * Z.to_nat spf)%nat -> 0 <= reserved_sectors b -> 1 <= spf -> 0 <= a ->
  reserved_sectors b + (a + Z.of_nat n) * spf <= capacity (device s) -> capacity (device s) < 2 ^ 32 ->
  exists d', write_fat_copies n a s = Some (true, with_dev d' s) /\ capacity d' = capacity (device s) /\
    (forall i, i < reserved_sectors b + a * spf \/ reserved_sectors b + (a + Z.of_nat n) * spf <= i -> sector d' i = sector (device s) i) /\
    forall a' k, a <= a' < a + Z.of_nat n -> (k < Z.to_nat spf)%nat -> sector d' (reserved_sectors b + a' * spf + Z.of_nat k) = chunk k t.
Proof.
  intros b spf. revert a s b spf. induction n as [|n IH]; intros a s b spf Ht HL Hr Hs Ha Hc Hcap; cbn [write_fat_copies].
  { exists (device s). split; [by destruct s|]. split_and!; [done|done|intros; lia]. }
  rewrite (run_bind _ _ _ _ _ (boot_run s)). fold b spf. assert (0 <= a * spf) by nia. assert (0 <= Z.of_nat n * spf) by nia. rewrite u32_small by nia.
  destruct (write_fat_copy_run (Z.to_nat spf) 0 (reserved_sectors b + a * spf) s t) as (d1 & Hw & Hc1 & Ho1 & Hi1); [done|lia|lia|nia|done|].
  rewrite (run_bind _ _ _ _ _ Hw). destruct (IH (a + 1) (with_dev d1 s)) as (d' & Hrun & Hc2 & Ho2 & Hi2); [done|done|done|done|lia|cbn; fold b spf; nia|cbn; lia|].
  exists d'. split; [exact Hrun|]. cbn [device volume with_dev] in *. fold b in Ho2, Hi2. fold spf in Ho2, Hi2. split_and!; [lia| |].
  - intros i Hi. rewrite Ho2, Ho1 by nia. done.
  - intros a' k Ha' Hk. destruct (decide (a' = a)) as [->|]; [|apply Hi2; [lia|done]]. rewrite Ho2 by nia. apply Hi1. lia.
Qed.
(** Every copy of the table on the device is the cached one. *)
Definition synced s (t : bytes) : Prop := forall a k, 0 <= a < fat_count (boot (volume s)) -> (k < Z.to_nat (sectors_per_fat (boot (volume s))))%nat ->
  sector (device s) (reserved_sectors (boot (volume s)) + a * sectors_per_fat (boot (volume s)) + Z.of_nat k) = chunk k t.
Lemma write_fat_run s t : layout (volume s) (capacity (device s)) -> fat_table (volume s) = Some t ->
  length t = (SECTOR * Z.to_nat (sectors_per_fat (boot (volume s))))%nat ->
  exists d', Fat12WriteFat s = Some (0, with_dev d' s) /\ capacity d' = capacity (device s) /\
    (forall i, root_sector (volume s) <= i -> sector d' i = sector (device s) i) /\ synced (with_dev d' s) t.
Proof.
  intros Hl Ht HL. pose proof Hl as [Lspc Lres Lfats Lspf Lrent Lroot Ldata Ltotal Lcap]. assert (0 <= root_sectors (boot (volume s))) by (apply Z.div_pos; lia).
  destruct (write_fat_copies_run (Z.to_nat (fat_count (boot (volume s)))) 0 s t) as (d' & Hw & Hc & Ho & Hi); [done|done|done|lia|done|nia|lia|].
  exists d'. split_and!.
  - unfold Fat12WriteFat. rewrite (run_bind _ _ _ _ _ (boot_run s)), (run_bind _ _ _ _ _ Hw). done.
  - done.
  - intros i Hr. apply Ho. right. nia.
  - intros a k Ha Hk. cbn [volume with_dev] in Ha, Hk |- *. apply Hi; [lia|done].
Qed.

(** ** Committing a directory entry *)
Record committed s s' (t : bytes) (k i : nat) (f : bytes -> bytes) : Prop := {
  c_volume : volume s' = volume s;
  c_allocs : allocs s' = allocs s;
  c_buffer : is_Some (sector_buffer s');
  c_capacity : capacity (device s') = capacity (device s);
  c_here : root_sec s' k = write_entry i f (root_sec s k);
  c_other : forall j, (j < root_count s)%nat -> j <> k -> root_sec s' j = root_sec s j;
  c_data : forall lba, data_sector (volume s) <= lba -> sector (device s') lba = sector (device s) lba;
  c_synced : synced s' t
}.
Lemma root_sec_length s k : length (root_sec s k) = SECTOR.
Proof. apply sector_length. Qed.
Lemma commit_run s t k i f result : layout (volume s) (capacity (device s)) -> fat_table (volume s) = Some t ->
  length t = (SECTOR * Z.to_nat (sectors_per_fat (boot (volume s))))%nat -> is_Some (sector_buffer s) -> (k < root_count s)%nat -> (i < 16)%nat ->
  (forall e, length e = 32%nat -> length (f e) = 32%nat) ->
  exists s', commit_entry (root_sector (volume s) + Z.of_nat k) (Z.of_nat i) f result s = Some (result, s') /\ committed s s' t k i f.
Proof.
  intros Hl Ht HL Hb Hk Hi Hf. pose proof (root_bound s k Hl Hk) as [Hr1 Hr2]. set (lba := root_sector (volume s) + Z.of_nat k) in *.
  set (buf' := write_entry i f (root_sec s k)).
  assert (Hlen : length buf' = (SECTOR * 1)%nat).
  { unfold buf'. rewrite write_entry_length, root_sec_length by (try done; rewrite root_sec_length; unfold SECTOR; lia). lia. }
  assert (Hin : 0 <= lba < capacity (device s)) by lia.
  unfold commit_entry. rewrite (run_bind _ _ _ _ _ (read_sector_run lba s Hb Hin)). change (sector (device s) lba) with (root_sec s k).
  rewrite (run_bind _ _ _ _ _ (get_buf_run _ s)). cbv zeta. rewrite Nat2Z.id. fold buf'.
  rewrite (run_bind _ _ _ _ _ (eq_refl : set_sector_buffer buf' (with_buf (root_sec s k) s) = Some (tt, with_buf buf' s))).
  destruct (write_run lba 1 buf' (with_buf buf' s)) as (d1 & Hw & [Wc Wo Ws]); [lia|cbn; lia|done|]. rewrite (run_bind _ _ _ _ _ Hw).
  cbn [device volume with_buf] in *.
  destruct (write_fat_run (with_dev d1 (with_buf buf' s)) t) as (d2 & Hwf & Hc2 & Ho2 & Hsy); [cbn; by rewrite Wc|done|done|].
  rewrite (run_bind _ _ _ _ _ Hwf). eexists. split; [done|]. cbn [device volume with_dev with_buf] in *.
  assert (Hroot : root_sector (volume s) <= lba) by (unfold lba; lia).
  split; cbn [device volume with_dev with_buf sector_buffer allocs]; [done|done|by eexists|lia| | | |exact Hsy].
  - unfold root_sec at 1. cbn [device volume with_dev with_buf]. rewrite Ho2 by lia. specialize (Ws 0%nat ltac:(lia)). rewrite Z.add_0_r in Ws. fold lba. rewrite Ws.
    unfold chunk. rewrite Nat.mul_0_r, drop_0, take_ge by lia. done.
  - intros j Hj Hne. unfold root_sec. cbn [device volume with_dev with_buf]. pose proof (root_bound s j Hl Hj). rewrite Ho2, Wo by lia. done.
  - intros x Hx. rewrite Ho2, Wo by lia. done.
Qed.
Lemma committed_entry s s' t k i f k' i' : committed s s' t k i f -> (forall e, length e = 32%nat -> length (f e) = 32%nat) ->
  (k' < root_count s)%nat -> (i < 16)%nat -> (i' < 16)%nat ->
  root_entry s' k' i' = if decide (k' = k /\ i' = i) then f (root_entry s k i) else root_entry s k' i'.
Proof.
  intros [_ _ _ _ Hh Ho _ _] Hf Hk Hi Hi'. unfold root_entry. assert (HS : SECTOR = 512%nat) by done. destruct (decide (k' = k)) as [->|Hne].
  - rewrite Hh, entry_at_write by (try done; rewrite root_sec_length, HS; lia). destruct (decide (i' = i)) as [->|].
    + by rewrite decide_True.
    + rewrite decide_False by naive_solver. done.
  - rewrite Ho, decide_False by naive_solver. done.
Qed.
(** After the commit, the new entry is the one found by its name, and the others keep their places. *)
Lemma committed_find s s' t k i f name : committed s s' t k i f -> (forall e, length e = 32%nat -> length (f e) = 32%nat) ->
  (k < root_count s)%nat -> (i < 16)%nat -> clear_before (root_sec s) name k i -> matching name (f (root_entry s k i)) ->
  find_from (root_sec s') (root_count s') 0 name = Some (k, i).
Proof.
  intros Hc Hf Hk Hi [Hcl1 Hcl2] Hm. assert (Hrc : root_count s' = root_count s) by (unfold root_count; by rewrite (c_volume _ _ _ _ _ _ Hc)).
  apply find_from_hit; [lia|done| | |].
  - fold (root_entry s' k i). rewrite (committed_entry s s' t k i f k i Hc Hf Hk Hi Hi). by rewrite decide_True.
  - intros j Hj. rewrite (c_other _ _ _ _ _ _ Hc) by lia. apply Hcl1. lia.
  - intros i' Hi'. fold (root_entry s' k i'). rewrite (committed_entry s s' t k i f k i' Hc Hf Hk Hi ltac:(lia)).
    rewrite decide_False by lia. by apply Hcl2.
Qed.
End writes.
