(* ===== verification/FatRound.v ===== *)
(** Writing a file of at most one cluster into the root directory of a healthy volume, and
    reading files back. *)
From Stdlib Require Import ZArith Lia.
From stdpp Require Import base tactics list numbers option sets.
From S2P Require Import Prelude BlockDev Fat1x FatFile FatTable FatDir FatWrite.

Section round.
Context {D : Type} `{!BlockDevice D, !ReliableDevice D} (freed : bytes -> bytes).
Implicit Types (s : fat1x D).
Definition spc s : Z := sectors_per_cluster (boot (volume s)).
Definition cluster_at s (c : Z) : Z := data_sector (volume s) + (c - 2) * spc s.
Definition cluster_of s (c : Z) : bytes := run_of (sector (device s)) (cluster_at s c) (Z.to_nat (spc s)).
Definition cb s : Z := cluster_bytes (boot (volume s)).

Lemma cluster_range s c : layout (volume s) (capacity (device s)) -> 2 <= c < 2 + clusters s ->
  0 <= data_sector (volume s) <= cluster_at s c /\ cluster_at s c + spc s <= capacity (device s) < 2 ^ 32.
Proof.
  intros Hl Hc. pose proof Hl as [Lspc Lres Lfats Lspf Lrent Lroot Ldata Ltotal Lcap]. unfold cluster_at, spc. unfold clusters in Hc.
  set (p := sectors_per_cluster (boot (volume s))) in *. set (n := total_sectors (boot (volume s)) - data_sector (volume s)) in *.
  assert (0 <= root_sectors (boot (volume s))) by (apply Z.div_pos; lia). assert (p * (n / p) <= n) by (apply Z.mul_div_le; lia). split; [nia|]. subst n. nia.
Qed.
Lemma cluster_lba_run s c : layout (volume s) (capacity (device s)) -> 2 <= c < 2 + clusters s -> cluster_lba c s = cluster_at s c.
Proof.
  intros Hl Hc. pose proof (cluster_range s c Hl Hc). pose proof (l_spc _ _ Hl). unfold cluster_lba. apply u32_small. unfold cluster_at, spc in *. lia.
Qed.
Lemma get_cluster_run s c : layout (volume s) (capacity (device s)) -> 2 <= c < 2 + clusters s -> Fat1xGetCluster c s = Some (Some (cluster_of s c), s).
Proof.
  intros Hl Hc. pose proof (cluster_range s c Hl Hc) as [H1 H2]. pose proof (l_spc _ _ Hl) as Hp. unfold Fat1xGetCluster.
  rewrite (run_bind _ _ _ _ _ (boot_run s)), (proj2 (Z.eqb_neq _ 0)), (proj2 (Z.ltb_ge 8 _)) by lia. cbn [orb].
  rewrite (run_bind _ _ _ _ _ (asks_run _ s)), cluster_lba_run by done. unfold ReadBlocks, asks. fold (spc s).
  destruct (read_ok (device s) (cluster_at s c) (Z.to_nat (spc s))) as [bs E]; [lia|unfold spc in *; lia|]. rewrite E. apply read_spec in E. by subst.
Qed.
Lemma cluster_apart s c x : layout (volume s) (capacity (device s)) -> c <> x -> cluster_at s c + spc s <= cluster_at s x \/ cluster_at s x + spc s <= cluster_at s c.
Proof. intros Hl Hne. pose proof (l_spc _ _ Hl). unfold cluster_at, spc. nia. Qed.
Lemma alloc_run s : allocs s = [] -> KernelMemoryAlloc s = Some (true, s).
Proof. destruct s; cbn. by intros ->. Qed.

(** ** Storing the contents *)
Definition padded s (data : bytes) : bytes := data ++ replicate (Z.to_nat (cb s) - length data) 0.
Lemma cluster_data_part s data (bw n : Z) : 0 <= bw -> 0 < n <= cb s -> bw + n <= Z.of_nat (length data) ->
  cluster_data (Some data) bw n (cb s) = Some (padded s (take (Z.to_nat n) (drop (Z.to_nat bw) data))).
Proof.
  intros Hb Hn Hd. unfold cluster_data. rewrite (proj2 (Z.ltb_lt 0 _)), (proj2 (Z.leb_le _ _)) by lia. f_equal.
  unfold splice, padded. rewrite Nat.add_0_l, drop_replicate. done.
Qed.
Lemma padded_length s data : 1 <= spc s -> Z.of_nat (length data) <= cb s -> length (padded s data) = (SECTOR * Z.to_nat (spc s))%nat.
Proof. intros Hp H. unfold padded, cb, cluster_bytes, spc, SECTOR in *. rewrite length_app, length_replicate. lia. Qed.

(** The effect of storing contents in the cluster [c]; no contents need no cluster. *)
Record stored s s' (t t' : bytes) (data : bytes) (c : Z) : Prop := {
  st_volume : volume s' = set_fat_table (Some t') (volume s);
  st_buffer : sector_buffer s' = sector_buffer s;
  st_allocs : allocs s' = allocs s;
  st_capacity : capacity (device s') = capacity (device s);
  st_length : length t' = length t;
  st_bytes : bytes_ok t';
  st_cluster : data = [] /\ c = 0 \/
    0 < Z.of_nat (length data) /\ 2 <= c < 2 + clusters s /\ fat_get t c = Some 0 /\ fat_get t' c = Some FAT12_CLUSTER_EOF /\ cluster_of s' c = padded s data;
  st_links : forall x, 0 <= x -> x <> c \/ c = 0 -> fat_get t' x = fat_get t x;
  st_sectors : forall i, i < cluster_at s c \/ cluster_at s c + spc s <= i \/ c = 0 -> sector (device s') i = sector (device s) i
}.
Record ready s (t : bytes) : Prop := {
  r_layout : layout (volume s) (capacity (device s));
  r_table : fat_table (volume s) = Some t;
  r_bytes : bytes_ok t;
  r_clusters : 2 + clusters s <= FAT12_CLUSTER_EOF;
  r_covers : forall c, 2 <= c < 2 + clusters s -> accessible t c;
  r_memory : allocs s = []
}.
(** Writing the last cluster: the rest of the contents from [bw] on. *)
Lemma write_last_core c (bw n : Z) data s t : ready s t -> 0 <= bw -> 0 < n - bw <= cb s -> n = Z.of_nat (length data) -> n < 2 ^ 32 -> 2 <= c < 2 + clusters s ->
  exists d' t', write_loop 1 c bw (Some data) n s = Some (true, with_table t' (with_dev d' s)) /\
    written (device s) d' (cluster_at s c) (Z.to_nat (spc s)) (padded s (drop (Z.to_nat bw) data)) /\ fat_set t c FAT12_CLUSTER_EOF = Some t'.
Proof.
  intros [Hl Ht Hb Hn Ha Hm] Hbw Hd Hsz H32 Hc. pose proof (l_spc _ _ Hl) as Hp. fold (spc s) in Hp. pose proof (cluster_range s c Hl Hc) as [Hr1 Hr2].
  cbn [write_loop]. rewrite (run_bind _ _ _ _ _ (alloc_run s Hm)). cbn [negb]. rewrite (run_bind _ _ _ _ _ (boot_run s)). fold (cb s).
  rewrite u32_small, (proj2 (Z.ltb_ge (cb s) _)), cluster_data_part by lia. rewrite (take_ge (drop (Z.to_nat bw) data)) by (rewrite length_drop; lia).
  rewrite (run_bind _ _ _ _ _ (eq_refl : lift (Some (padded s (drop (Z.to_nat bw) data))) s = Some (_, s))).
  rewrite (run_bind _ _ _ _ _ (asks_run _ s)), cluster_lba_run by done.
  destruct (write_run (cluster_at s c) (Z.to_nat (spc s)) (padded s (drop (Z.to_nat bw) data)) s) as (d' & Hw & Hwr);
    [lia|lia|apply padded_length; [lia|rewrite length_drop; lia]|].
  fold (spc s). rewrite (run_bind _ _ _ _ _ Hw). cbn [negb].
  destruct (fat_set_spec t c FAT12_CLUSTER_EOF Hb (Ha c Hc)) as (t' & Hset & _).
  rewrite (run_bind _ _ _ _ _ (set_run c _ (with_dev d' s) t t' Ht Hset)). by exists d', t'.
Qed.
(** Contents in the cluster [c] and its entry marked as the end make up [stored]. *)
Lemma stored_intro s t t' d' data c : ready s t -> 2 <= c < 2 + clusters s -> 0 < Z.of_nat (length data) <= cb s -> fat_get t c = Some 0 ->
  length t' = length t -> bytes_ok t' -> fat_get t' c = Some FAT12_CLUSTER_EOF -> (forall x, 0 <= x -> x <> c -> fat_get t' x = fat_get t x) ->
  written (device s) d' (cluster_at s c) (Z.to_nat (spc s)) (padded s data) -> stored s (with_table t' (with_dev d' s)) t t' data c.
Proof.
  intros [Hl Ht Hb Hn Ha Hm] Hc Hd H0 HL Hb' Hg Ho [Wc Wo Ws]. pose proof (l_spc _ _ Hl) as Hp. fold (spc s) in Hp.
  split; cbn [device volume with_dev with_table sector_buffer allocs]; [done|done|done|lia|done|done| | |].
  - right. refine (conj _ (conj Hc (conj H0 (conj Hg _)))); [lia|]. unfold cluster_of, cluster_at, spc.
    cbn [device volume with_dev with_table boot data_sector set_fat_table]. apply run_of_chunks; [apply padded_length; lia|]. intros k Hk. apply Ws. done.
  - intros x Hx [Hne | ->]; [by apply Ho|lia].
  - intros i Hi. apply Wo. lia.
Qed.
Lemma write_last_run c data s t : ready s t -> 0 < Z.of_nat (length data) <= cb s -> 2 <= c < 2 + clusters s -> fat_get t c = Some 0 ->
  exists s' t', write_loop 1 c 0 (Some data) (Z.of_nat (length data)) s = Some (true, s') /\ stored s s' t t' data c.
Proof.
  intros Hrd Hd Hc H0. pose proof Hrd as [Hl Ht Hb Hn Ha Hm]. pose proof (l_spc _ _ Hl) as Hp. assert (cb s <= 4096) by (unfold cb, cluster_bytes; lia).
  destruct (write_last_core c 0 (Z.of_nat (length data)) data s t Hrd) as (d' & t' & Hw & Hwr & Hset); [lia|lia|done|lia|done|].
  destruct (fat_set_spec t c FAT12_CLUSTER_EOF Hb (Ha c Hc)) as (t'' & Hset' & HL & Hb' & Hg & Ho). rewrite Hset in Hset'. injection Hset' as <-.
  eexists _, t'. split; [exact Hw|]. apply stored_intro; [done|done|done|done|done|done| |done|exact Hwr]. by rewrite Hg by lia.
Qed.
(** What writing the contents comes to: no free cluster, or [data] in one cluster. *)
Definition data_outcome (buffer data : bytes) (size : Z) s (t : bytes) : Prop :=
  exists r s', write_data (Some buffer) size s = Some (r, s') /\
    match r with
    | None => 0 < size /\ forall c, 2 <= c < 2 + clusters s -> fat_get t c <> Some 0
    | Some c => exists t', stored s s' t t' data c
    end.
Lemma write_data_run data s t : ready s t -> Z.of_nat (length data) <= cb s ->
  data_outcome data data (Z.of_nat (length data)) s t.
Proof.
  intros Hrd Hd. pose proof Hrd as [Hl Ht Hb Hn Ha Hm]. pose proof (l_spc _ _ Hl) as Hp. fold (spc s) in Hp.
  assert (Hcb : 512 <= cb s <= 4096) by (unfold cb, cluster_bytes, spc in *; lia).
  unfold data_outcome, write_data. destruct (Z.ltb_spec 0 (Z.of_nat (length data))) as [Hpos|Hz].
  2:{ assert (data = []) as -> by (destruct data; [done|cbn in Hz; lia]). eexists _, s. split; [done|]. exists t.
      split; try done; [by destruct (volume s) as [? ? ft]; cbn in *; subst|by left]. }
  rewrite (run_bind _ _ _ _ _ (boot_run s)). fold (cb s). rewrite (proj2 (Z.eqb_neq (cb s) 0)) by lia.
  rewrite (run_bind _ _ _ _ _ (find_free_run s t Hl Ht Hb Hn Ha)). rewrite u32_small by lia.
  replace ((Z.of_nat (length data) + cb s - 1) / cb s) with 1 by (apply (Z.div_unique _ _ 1 (Z.of_nat (length data) - 1)); lia).
  destruct (free_cluster_spec s t Hl) as [[Hf0 Hnone]|[Hf1 Hf2]].
  - rewrite Hf0. eexists _, s. split; [done|]. split; [done|exact Hnone].
  - rewrite (proj2 (Z.eqb_neq _ 0)) by lia. change (Z.to_nat 1) with 1%nat.
    destruct (write_last_run (free_cluster s t) data s t Hrd ltac:(lia) Hf1 Hf2) as (s' & t' & Hw & Hst). rewrite (run_bind _ _ _ _ _ Hw).
    eexists _, s'. split; [done|]. by exists t'.
Qed.

(** ** Finding the entry to write *)
(** The slot that gets the entry of the name [comp]: the entry that its path leads to, or a free
    slot; [old] is the first cluster of the old contents. *)
Record target s (comp : bytes) (k i : nat) (old : Z) : Prop := {
  tg_range : (k < root_count s)%nat /\ (i < 16)%nat;
  tg_clear : clear_before (root_sec s) (Fat12ConvertFilename comp) k i;
  tg_old : root_lookup s comp = Some (k, i) /\ is_dir (root_entry s k i) = false /\ old = e_cluster_low (root_entry s k i) \/
           root_lookup s comp = None /\ free_entry (root_entry s k i) /\ old = 0
}.
(** Why no slot is found: the path is a directory's, or it leads to nothing and the directory is
    full or has an entry of that name (which only a name of more than eleven bytes can have). *)
Definition no_target s (comp : bytes) : Prop :=
  (exists k i, root_lookup s comp = Some (k, i) /\ is_dir (root_entry s k i) = true) \/
  root_lookup s comp = None /\ (root_full s \/ exists k i, root_find s (Fat12ConvertFilename comp) = Some (k, i)).
Lemma target_run comp s t : healthy s t -> plain_name comp -> cut_ok s comp ->
  let name := Fat12ConvertFilename comp in
  exists r b, target_entry freed (47 :: comp) name 0 s = Some (r, with_buf b s) /\
    match r with
    | None => no_target s comp
    | Some (sec, off, old) => exists k i, (sec, off) = slot_at s k i /\ target s comp k i old
    end.
Proof.
  intros Hh Hc Hcut name. pose proof (h_layout _ _ Hh) as Hl. pose proof (h_buffer _ _ Hh) as Hb.
  destruct (find_entry_root freed comp s Hl Hb Hc Hcut) as (b & Hf & Hbuf).
  unfold target_entry. rewrite (run_bind _ _ _ _ _ Hf). destruct (root_lookup s comp) as [[k i]|] eqn:E.
  - specialize (Hbuf k i eq_refl). subst b. rewrite (run_bind _ _ _ _ _ (found_entry_run _ _ s)). cbn [fst snd]. rewrite Nat2Z.id. fold (root_entry s k i).
    fold (is_dir (root_entry s k i)). destruct (root_lookup_some _ _ _ _ E) as [_ Ef]. pose proof (find_from_some _ _ _ _ _ _ Ef) as (Hk & Hi & Hm & Hb1 & Hb2).
    eexists _, _. split; [done|]. destruct (is_dir (root_entry s k i)) eqn:Ed; [left; by exists k, i|]. exists k, i. split; [done|].
    split; [lia| |by left]. split; [intros j Hj; apply Hb1; lia|done].
  - destruct (slot_root_spec name (with_buf b s)) as (r & b' & Hs & Ho); [done|by eexists|]. rewrite (run_bind _ _ _ _ _ Hs). apply slot_outcome_buf in Ho.
    exists (if r.1 =? 0 then Some (r.2.1, r.2.2, 0) else None), b'. split; [done|]. destruct Ho as [k i (Hk & Hi & Hfe & Hcl)|l Hfull|l k i Hcol].
    + cbn. exists k, i. split; [done|]. split; [done|done|by right].
    + cbn. right. split; [done|by left].
    + cbn. right. split; [done|right]. by exists k, i.
Qed.

(** ** Writing a file *)
(** Why a write is refused. *)
Definition refused s (t : bytes) (comp : bytes) (size : Z) : Prop :=
  no_target s comp \/
  (0 < size /\ exists k i old, target s comp k i old /\ forall c, 2 <= c < 2 + clusters s -> fat_get t c <> Some 0 /\ ~ on_chain t old c).
(** What a write of [size] bytes does that leaves [data] in the file's cluster. *)
Record wrote s s' (t t1 t' comp data : bytes) (size : Z) (k i : nat) (old c : Z) : Prop := {
  wr_target : target s comp k i old;
  wr_freed : freed_chain t t1 old;
  wr_stored : data = [] /\ c = 0 \/
    0 < Z.of_nat (length data) /\ 2 <= c < 2 + clusters s /\ fat_get t1 c = Some 0 /\ fat_get t' c = Some FAT12_CLUSTER_EOF /\ cluster_of s' c = padded s data;
  wr_links : forall x, 0 <= x -> x <> c \/ c = 0 -> fat_get t' x = fat_get t1 x;
  wr_length : length t' = length t;
  wr_bytes : bytes_ok t';
  wr_volume : volume s' = set_fat_table (Some t') (volume s);
  wr_buffer : is_Some (sector_buffer s');
  wr_allocs : allocs s' = [];
  wr_capacity : capacity (device s') = capacity (device s);
  wr_sectors : forall x, data_sector (volume s) <= x -> x < cluster_at s c \/ cluster_at s c + spc s <= x \/ c = 0 -> sector (device s') x = sector (device s) x;
  wr_entries : forall k' i', (k' < root_count s)%nat -> (i' < 16)%nat -> root_entry s' k' i' =
    if decide (k' = k /\ i' = i) then file_entry (Fat12ConvertFilename comp) c size (root_entry s k i) else root_entry s k' i';
  wr_roots : forall j, (j < root_count s)%nat -> j <> k -> root_sec s' j = root_sec s j;
  wr_find : root_find s' (Fat12ConvertFilename comp) = Some (k, i);
  wr_synced : synced s' t'
}.
Lemma root_entry_length s k i : (i < 16)%nat -> length (root_entry s k i) = 32%nat.
Proof. intros Hi. apply entry_length. rewrite root_sec_length. unfold SECTOR. lia. Qed.
Lemma file_entry_matching name c n e : byte_at 0 name <> 0 -> byte_at 0 name <> 0xE5 -> length name = 11%nat -> length e = 32%nat -> 0 <= c < 2 ^ 16 -> 0 <= n < 2 ^ 32 ->
  matching name (file_entry name c n e).
Proof.
  intros H0 H5 Hn He Hc Hs. destruct (file_entry_fields name c n e Hn He Hc Hs) as (_ & Hf & Hnm & Ha & _ & _). split_and!; [by rewrite Hf| |done].
  unfold skipped, has_attr. rewrite Hf, Ha, (proj2 (Z.eqb_neq _ 0xE5)) by done. done.
Qed.
Lemma healthy_ready s t t1 b old : healthy s t -> freed_chain t t1 old -> ready (with_table t1 (with_buf b s)) t1.
Proof.
  intros [Hlay Htab Hlen Hby Hclo Hclu Hcov Hent Hbuf Hmem] [HL Hb Hcl _ _ _]. split; cbn [device volume with_table with_buf set_fat_table boot allocs]; try done.
  - by destruct Hlay.
  - intros c Hc. specialize (Hcov c Hc). unfold accessible in *. by rewrite HL.
Qed.
(** Storing contents leaves the root directory alone. *)
Lemma stored_root s s' t t' data c j : layout (volume s) (capacity (device s)) -> stored s s' t t' data c -> (j < root_count s)%nat -> root_sec s' j = root_sec s j.
Proof.
  intros Hl Hst Hj. pose proof (root_bound s j Hl Hj) as [H1 H2]. unfold root_sec. rewrite (st_volume _ _ _ _ _ _ Hst). cbn [root_sector set_fat_table].
  apply (st_sectors _ _ _ _ _ _ Hst). destruct (st_cluster _ _ _ _ _ _ Hst) as [[_ ->]|(_ & Hc & _)]; [by right; right|].
  pose proof (cluster_range s c Hl Hc). lia.
Qed.
Lemma find_from_ext sec sec' n k name : (forall j, (k <= j < k + n)%nat -> sec' j = sec j) -> find_from sec' n k name = find_from sec n k name.
Proof.
  revert k. induction n as [|n IH]; intros k H; cbn [find_from]; [done|]. rewrite H, IH by (try lia; intros; apply H; lia). done.
Qed.
Lemma stored_layout s s' t t' data c : layout (volume s) (capacity (device s)) -> stored s s' t t' data c -> layout (volume s') (capacity (device s')).
Proof. intros Hl Hst. rewrite (st_volume _ _ _ _ _ _ Hst), (st_capacity _ _ _ _ _ _ Hst). by destruct Hl. Qed.
Lemma stored_range s s' t t' data c : stored s s' t t' data c -> 2 + clusters s <= FAT12_CLUSTER_EOF -> 0 <= c < 2 ^ 16.
Proof. intros Hst Hn. unfold FAT12_CLUSTER_EOF in *. destruct (st_cluster _ _ _ _ _ _ Hst) as [[_ ->]|(_ & Hc & _)]; lia. Qed.
(** Freeing the old contents, storing the new ones and committing the entry make up a write. *)
Lemma wrote_intro s t b t1 s2 t' s' comp data size k i old c : healthy s t -> file_name comp -> 0 <= size < 2 ^ 32 ->
  let name := Fat12ConvertFilename comp in let f := file_entry name c size in
  target s comp k i old -> freed_chain t t1 old -> stored (with_table t1 (with_buf b s)) s2 t1 t' data c -> committed s2 s' t' k i f ->
  wrote s s' t t1 t' comp data size k i old c.
Proof.
  intros Hh Hv Hn name f Htg Hfr Hst Hco. set (s1 := with_table t1 (with_buf b s)) in *.
  assert (Hl1 : layout (volume s1) (capacity (device s1))) by (destruct (h_layout _ _ Hh); by split).
  assert (Hl2 : layout (volume s2) (capacity (device s2))) by (by eapply stored_layout).
  assert (HV : volume s2 = set_fat_table (Some t') (volume s)) by exact (st_volume _ _ _ _ _ _ Hst).
  assert (Hrc : root_count s2 = root_count s) by (unfold root_count; by rewrite HV).
  assert (Hr : forall j, (j < root_count s)%nat -> root_sec s2 j = root_sec s j) by (intros j Hj; exact (stored_root s1 s2 t1 t' data c j Hl1 Hst Hj)).
  assert (Hc16 : 0 <= c < 2 ^ 16) by exact (stored_range _ _ _ _ _ _ Hst (h_clusters _ _ Hh)).
  assert (Hf : forall e, length e = 32%nat -> length (f e) = 32%nat) by (intros e He; exact (proj1 (file_entry_fields name c _ e (convert_length comp) He Hc16 Hn))).
  pose proof (tg_range _ _ _ _ _ Htg) as [Hk Hi]. pose proof (valid_name_first comp Hv) as [Hv0 Hv5].
  assert (Hre : root_entry s2 k i = root_entry s k i) by (unfold root_entry; by rewrite Hr).
  assert (Hcd : forall x, data_sector (volume s) <= x -> sector (device s') x = sector (device s2) x).
  { intros x Hx. apply (c_data _ _ _ _ _ _ Hco). by rewrite HV. }
  split; [done|done| |exact (st_links _ _ _ _ _ _ Hst)|rewrite (st_length _ _ _ _ _ _ Hst); apply (fc_length _ _ _ Hfr)|apply (st_bytes _ _ _ _ _ _ Hst)|
    by rewrite (c_volume _ _ _ _ _ _ Hco)|apply (c_buffer _ _ _ _ _ _ Hco)| | | | | | |apply (c_synced _ _ _ _ _ _ Hco)].
  - destruct (st_cluster _ _ _ _ _ _ Hst) as [Hz|(H1 & H2 & H3 & H4 & H5)]; [by left|right]. refine (conj H1 (conj H2 (conj H3 (conj H4 _)))). change (padded s data) with (padded s1 data). rewrite <- H5.
    unfold cluster_of, cluster_at, spc. rewrite (c_volume _ _ _ _ _ _ Hco). apply run_of_ext. intros x Hx. apply Hcd.
    rewrite HV in Hx. pose proof (cluster_range s1 c Hl1 H2) as [[_ Hge] _]. unfold cluster_at, spc in Hge. cbn in Hge, Hx. lia.
  - rewrite (c_allocs _ _ _ _ _ _ Hco), (st_allocs _ _ _ _ _ _ Hst). apply (h_memory _ _ Hh).
  - rewrite (c_capacity _ _ _ _ _ _ Hco). exact (st_capacity _ _ _ _ _ _ Hst).
  - intros x Hx Hout. rewrite Hcd by done. exact (st_sectors _ _ _ _ _ _ Hst x Hout).
  - intros k' i' Hk' Hi'. rewrite (committed_entry s2 s' t' k i f k' i' Hco Hf ltac:(lia) Hi Hi'), Hre. unfold root_entry at 2. by rewrite Hr.
  - intros j Hj Hne. rewrite (c_other _ _ _ _ _ _ Hco) by lia. by apply Hr.
  - unfold root_find. apply (committed_find s2 s' t' k i f name Hco Hf ltac:(lia) Hi).
    + destruct (tg_clear _ _ _ _ _ Htg) as [Hcl1 Hcl2]. split; [intros j Hj|intros i' Hi']; rewrite Hr by lia; auto.
    + rewrite Hre. apply file_entry_matching; [done|done|apply convert_length|by apply root_entry_length|done|done].
Qed.
Lemma freed_none t t1 old s : freed_chain t t1 old -> (forall c, 2 <= c < 2 + clusters s -> fat_get t1 c <> Some 0) ->
  forall c, 2 <= c < 2 + clusters s -> fat_get t c <> Some 0 /\ ~ on_chain t old c.
Proof.
  intros Hfr Hn c Hc. split; intros H; apply (Hn c Hc).
  - destruct (fc_or _ _ _ Hfr c) as [|E]; [lia|done|congruence].
  - by apply (fc_on _ _ _ Hfr).
Qed.
(** The write either is refused and returns -1, or does its work and returns the size. *)
Lemma write_file_run comp buffer data size s t : healthy s t -> file_name comp -> cut_ok s comp -> 0 <= size < 2 ^ 31 ->
  (forall s1 t1, ready s1 t1 -> cb s1 = cb s -> data_outcome buffer data size s1 t1) ->
  let name := Fat12ConvertFilename comp in
  exists r s', Fat1xWriteFile freed (Some (47 :: comp)) (Some buffer) size s = Some (r, s') /\
    (r = -1 /\ refused s t comp size \/ r = size /\ exists t1 t' k i old c, wrote s s' t t1 t' comp data size k i old c).
Proof.
  intros Hh Hv Hcut Hsz Hout name. pose proof Hv as [Hcomp _]. pose proof (h_layout _ _ Hh) as Hl. unfold Fat1xWriteFile. rewrite split_path_root by done. cbv beta iota zeta. rewrite convert_cut. fold name.
  rewrite (run_bind _ _ _ _ _ (eq_refl : find_parent freed [47] s = Some (Some 0, s))).
  destruct (target_run comp s t Hh Hcomp Hcut) as (r & b & Hrun & Hr). fold name in Hrun, Hr. rewrite (run_bind _ _ _ _ _ Hrun).
  destruct r as [[[sec off] old]|]; [|exists (-1), (with_buf b s); split; [done|]; left; split; [done|by left]].
  destruct Hr as (k & i & Hslot & Htg). injection Hslot as -> ->.
  assert (Hacc : 2 <= old < FAT12_CLUSTER_EOF -> accessible t old).
  { intros Ho. destruct (tg_range _ _ _ _ _ Htg). destruct (tg_old _ _ _ _ _ Htg) as [(_ & _ & ->)|(_ & _ & ->)]; [by apply (h_entries _ _ Hh)|lia]. }
  destruct (free_chain_run chain_fuel old (with_buf b s) t) as (t1 & Hfree & Hfr); [apply Hh|apply Hh|apply Hh|done|apply live_bound|].
  rewrite (run_bind _ _ _ _ _ Hfree). pose proof (healthy_ready s t t1 b old Hh Hfr) as Hrd.
  destruct (Hout _ t1 Hrd eq_refl) as (r & s2 & Hwd & Hres). rewrite (run_bind _ _ _ _ _ Hwd). destruct r as [c|].
  - destruct Hres as [t' Hst]. pose proof (tg_range _ _ _ _ _ Htg) as [Hk Hi].
    assert (Hc16 : 0 <= c < 2 ^ 16) by exact (stored_range _ _ _ _ _ _ Hst (h_clusters _ _ Hh)).
    destruct (commit_run s2 t' k i (file_entry name c size) (i32 size)) as (s' & Hcr & Hco).
    + eapply stored_layout; [|done]. destruct Hl; by split.
    + by rewrite (st_volume _ _ _ _ _ _ Hst).
    + rewrite (st_volume _ _ _ _ _ _ Hst), (st_length _ _ _ _ _ _ Hst), (fc_length _ _ _ Hfr). apply (h_length _ _ Hh).
    + rewrite (st_buffer _ _ _ _ _ _ Hst). by eexists.
    + unfold root_count. rewrite (st_volume _ _ _ _ _ _ Hst). exact Hk.
    + done.
    + intros e He. apply (file_entry_fields name c _ e (convert_length comp) He Hc16). lia.
    + assert (HV : root_sector (volume s2) = root_sector (volume s)) by (by rewrite (st_volume _ _ _ _ _ _ Hst)). rewrite HV in Hcr.
      exists (i32 size), s'. split; [exact Hcr|]. right. split.
      * unfold i32. rewrite u32_small, (proj2 (Z.ltb_lt _ _)) by lia. done.
      * exists t1, t', k, i, old, c. eapply wrote_intro; [done|done|lia|done..].
  - destruct Hres as [Hpos Hnone]. exists (-1), s2. split; [done|]. left. split; [done|]. right. split; [done|]. exists k, i, old. split; [done|].
    exact (freed_none t t1 old s Hfr Hnone).
Qed.

(** ** Reading *)
Lemma read_fuel_SS max n : exists f, read_fuel max n = S (S f).
Proof. unfold read_fuel, chain_fuel. exists (Z.to_nat (max / n) + Z.to_nat 4094)%nat. lia. Qed.
Lemma read_loop_stop fuel c br fs max out s : FAT12_CLUSTER_EOF <= c \/ max <= br -> read_loop fuel c br fs max out s = Some ((i32 br, out), s).
Proof.
  intros H. assert (E : (c <? FAT12_CLUSTER_EOF) && (br <? max) = false) by (apply andb_false_iff; rewrite !Z.ltb_ge; lia).
  destruct fuel; cbn [read_loop]; by rewrite E.
Qed.
(** What [Fat1xReadFile] does with an entry of the root directory. *)
Lemma read_file_enter comp max s k i : layout (volume s) (capacity (device s)) -> is_Some (sector_buffer s) -> path_component comp ->
  root_find s (Fat12ConvertFilename comp) = Some (k, i) ->
  Fat1xReadFile freed (Some (47 :: comp)) max s =
    let e := root_entry s k i in let s1 := with_buf (root_sec s k) s in
    if is_dir e then Some ((-1, []), s1) else if e_file_size e =? 0 then Some ((0, []), s1)
    else read_loop (read_fuel max (cb s)) (e_cluster_low e) 0 (e_file_size e) max [] s1.
Proof.
  intros Hl Hb Hc E. destruct (find_entry_root freed comp s Hl Hb (component_plain _ Hc) (component_cut _ s Hc)) as (b & Hf & Hbuf). rewrite component_lookup in Hf, Hbuf by done.
  rewrite E in Hf. rewrite (Hbuf k i E) in Hf. unfold Fat1xReadFile. rewrite (run_bind _ _ _ _ _ Hf), (run_bind _ _ _ _ _ (found_entry_run _ _ s)).
  cbn [fst snd]. rewrite Nat2Z.id. fold (root_entry s k i). fold (is_dir (root_entry s k i)). cbv zeta.
  destruct (is_dir (root_entry s k i)); [done|]. destruct (e_file_size (root_entry s k i) =? 0); [done|].
  rewrite (run_bind _ _ _ _ _ (boot_run (with_buf (root_sec s k) s))). cbn [volume with_buf]. fold (cb s). pose proof (l_spc _ _ Hl) as Hp.
  rewrite (proj2 (Z.eqb_neq (cb s) 0)) by (unfold cb, cluster_bytes; lia). done.
Qed.
(** One round of the reading loop. *)
Definition copy_size s (br fs max : Z) : Z := Z.min (Z.min (cb s) (fs - br)) (max - br).
Lemma read_loop_step fuel c br fs max out s t v : ready s t -> 2 <= c < 2 + clusters s -> fat_get t c = Some v ->
  0 <= br < max -> br <= fs < 2 ^ 32 -> max < 2 ^ 32 ->
  read_loop (S fuel) c br fs max out s =
  read_loop fuel v (br + copy_size s br fs max) fs max (out ++ take (Z.to_nat (copy_size s br fs max)) (cluster_of s c)) s.
Proof.
  intros [Hl Ht Hb Hn Ha Hm] Hc Hv Hbr Hfs Hmax. pose proof (l_spc _ _ Hl) as Hp. assert (Hcb : 512 <= cb s <= 4096) by (unfold cb, cluster_bytes; lia).
  cbn [read_loop]. rewrite (proj2 (Z.ltb_lt c _)), (proj2 (Z.ltb_lt br _)) by lia. cbn [andb].
  rewrite (run_bind _ _ _ _ _ (alloc_run s Hm)). cbn [negb]. rewrite (run_bind _ _ _ _ _ (get_cluster_run s c Hl Hc)), (run_bind _ _ _ _ _ (boot_run s)).
  fold (cb s). rewrite (run_bind _ _ _ _ _ (next_run c s t v Ht Hv)). rewrite (u32_small (fs - br)) by lia.
  assert (E1 : (if cb s <? fs - br then cb s else fs - br) = Z.min (cb s) (fs - br)) by (destruct (Z.ltb_spec (cb s) (fs - br)); lia). rewrite E1.
  rewrite (u32_small (br + Z.min (cb s) (fs - br))), (u32_small (max - br)) by lia.
  assert (E2 : (if max <? br + Z.min (cb s) (fs - br) then max - br else Z.min (cb s) (fs - br)) = copy_size s br fs max).
  { unfold copy_size. destruct (Z.ltb_spec max (br + Z.min (cb s) (fs - br))); lia. }
  rewrite E2, u32_small by (unfold copy_size; lia). done.
Qed.
Section written_file.
Context (s s' : fat1x D) (t t1 t' comp data : bytes) (size : Z) (k i : nat) (old c : Z).
Hypothesis (Hh : healthy s t) (Hv : file_name comp) (Hsize : 0 <= size < 2 ^ 31).
Hypothesis (Hw : wrote s s' t t1 t' comp data size k i old c).
Lemma wrote_layout : layout (volume s') (capacity (device s')).
Proof. rewrite (wr_volume _ _ _ _ _ _ _ _ _ _ _ _ Hw), (wr_capacity _ _ _ _ _ _ _ _ _ _ _ _ Hw). by destruct (h_layout _ _ Hh). Qed.
Lemma wrote_accessible x : accessible t x -> accessible t' x.
Proof. unfold accessible. by rewrite (wr_length _ _ _ _ _ _ _ _ _ _ _ _ Hw). Qed.
Lemma wrote_clusters : clusters s' = clusters s /\ root_count s' = root_count s /\ cb s' = cb s.
Proof. unfold clusters, root_count, cb. by rewrite (wr_volume _ _ _ _ _ _ _ _ _ _ _ _ Hw). Qed.
Lemma wrote_ready : ready s' t'.
Proof.
  destruct wrote_clusters as (Hcl & _ & _). split; [exact wrote_layout|by rewrite (wr_volume _ _ _ _ _ _ _ _ _ _ _ _ Hw)|apply (wr_bytes _ _ _ _ _ _ _ _ _ _ _ _ Hw)| | |].
  - rewrite Hcl. apply (h_clusters _ _ Hh).
  - rewrite Hcl. intros x Hx. apply wrote_accessible. by apply (h_covers _ _ Hh).
  - apply (wr_allocs _ _ _ _ _ _ _ _ _ _ _ _ Hw).
Qed.
Lemma wrote_fields : let e := root_entry s' k i in
  is_dir e = false /\ e_cluster_low e = c /\ e_file_size e = size.
Proof.
  destruct (tg_range _ _ _ _ _ (wr_target _ _ _ _ _ _ _ _ _ _ _ _ Hw)) as [Hk Hi]. cbv zeta. rewrite (wr_entries _ _ _ _ _ _ _ _ _ _ _ _ Hw k i Hk Hi), decide_True by done.
  assert (Hc16 : 0 <= c < 2 ^ 16).
  { pose proof (h_clusters _ _ Hh). unfold FAT12_CLUSTER_EOF in *. destruct (wr_stored _ _ _ _ _ _ _ _ _ _ _ _ Hw) as [[_ ->]|(_ & Hc & _)]; lia. }
  destruct (file_entry_fields (Fat12ConvertFilename comp) c size (root_entry s k i)) as (_ & _ & _ & Ha & Hcl & Hsz); [apply convert_length|by apply root_entry_length|done|lia|].
  split_and!; [|done|done]. unfold is_dir, has_attr. by rewrite Ha.
Qed.
(** The volume stays healthy. *)
Lemma wrote_healthy : healthy s' t'.
Proof.
  destruct wrote_clusters as (Hcl & Hrc & _). pose proof (wr_freed _ _ _ _ _ _ _ _ _ _ _ _ Hw) as Hfr.
  assert (Hacc1 : forall x, accessible t1 x <-> accessible t x) by (intros x; unfold accessible; by rewrite (fc_length _ _ _ Hfr)).
  split; [exact wrote_layout|apply wrote_ready| |apply wrote_ready| |apply wrote_ready|apply wrote_ready| |apply (wr_buffer _ _ _ _ _ _ _ _ _ _ _ _ Hw)|apply wrote_ready].
  - rewrite (wr_volume _ _ _ _ _ _ _ _ _ _ _ _ Hw), (wr_length _ _ _ _ _ _ _ _ _ _ _ _ Hw). apply (h_length _ _ Hh).
  - intros x v Hx Hg Hr. apply wrote_accessible. destruct (decide (x <> c \/ c = 0)) as [Hne|He].
    + rewrite (wr_links _ _ _ _ _ _ _ _ _ _ _ _ Hw) in Hg by (try done; apply Hx). apply Hacc1. apply (fc_closed _ _ _ Hfr x v); [|done|done].
      destruct Hx as [Hx0 Hx1]. split; [done|]. rewrite (fc_length _ _ _ Hfr), <- (wr_length _ _ _ _ _ _ _ _ _ _ _ _ Hw). done.
    + assert (x = c /\ c <> 0) as [-> Hc0] by (destruct (decide (x = c)); destruct (decide (c = 0)); tauto).
      destruct (wr_stored _ _ _ _ _ _ _ _ _ _ _ _ Hw) as [[_ ?]|(_ & _ & _ & Hge & _)]; [done|]. rewrite Hge in Hg. injection Hg as <-. lia.
  - intros k' i' Hk' Hi'. rewrite Hrc in Hk'. destruct (decide (k' = k /\ i' = i)) as [[-> ->]|Hne].
    + destruct wrote_fields as (_ & -> & _). intros Hr. apply wrote_accessible. apply (h_covers _ _ Hh).
      destruct (wr_stored _ _ _ _ _ _ _ _ _ _ _ _ Hw) as [[_ ->]|(_ & Hc & _)]; lia.
    + rewrite (wr_entries _ _ _ _ _ _ _ _ _ _ _ _ Hw k' i' Hk' Hi'), decide_False by done. intros Hr. apply wrote_accessible. by apply (h_entries _ _ Hh).
Qed.
(** A name of more than eleven bytes is still not found. *)
Lemma wrote_cut : cut_ok s comp -> cut_ok s' comp.
Proof.
  destruct wrote_clusters as (_ & Hrc & _). destruct wrote_fields as (Hdir & _). intros [H|H]; [by left|right]. rewrite Hrc. intros k' i' Hk' Hi'.
  destruct (decide (k' = k /\ i' = i)) as [[-> ->]|Hne]; [done|].
  rewrite (wr_entries _ _ _ _ _ _ _ _ _ _ _ _ Hw k' i' Hk' Hi'), decide_False by done. by apply H.
Qed.
Lemma wrote_unreadable max : cut_ok s comp -> (11 < length comp)%nat -> exists s'', Fat1xReadFile freed (Some (47 :: comp)) max s' = Some ((-1, []), s'').
Proof.
  intros Hcut Hlen. destruct (find_entry_cut freed comp s' wrote_layout (wr_buffer _ _ _ _ _ _ _ _ _ _ _ _ Hw) (proj1 Hv) Hlen (wrote_cut Hcut)) as [b E].
  eexists. unfold Fat1xReadFile. by rewrite (run_bind _ _ _ _ _ E).
Qed.
(** Reading the file back gives what was written. *)
Lemma wrote_read max : (length comp <= 11)%nat -> size = Z.of_nat (length data) -> size <= cb s -> 0 <= max < 2 ^ 32 -> let n := Z.min (Z.of_nat (length data)) max in
  exists s'', Fat1xReadFile freed (Some (47 :: comp)) max s' = Some ((n, take (Z.to_nat n) data), s'').
Proof.
  intros Hlen Hsd Hd Hmax n. destruct wrote_fields as (Hdir & Hcl & Hsz). rewrite Hsd in Hsz, Hd. destruct wrote_clusters as (Hncl & _ & Hcb).
  rewrite (read_file_enter comp max s' k i wrote_layout (wr_buffer _ _ _ _ _ _ _ _ _ _ _ _ Hw) (conj (proj1 (proj1 Hv)) (conj Hlen (proj2 (proj1 Hv)))) (wr_find _ _ _ _ _ _ _ _ _ _ _ _ Hw)).
  cbv zeta. rewrite Hdir, Hsz, Hcl. destruct (wr_stored _ _ _ _ _ _ _ _ _ _ _ _ Hw) as [[Hz _]|(Hpos & Hc & _ & Hge & Hdata)].
  { subst n. rewrite Hz. cbn. rewrite Z.min_l by lia. by eexists. }
  assert (cb s <= 4096) by (pose proof (l_spc _ _ (h_layout _ _ Hh)); unfold cb, cluster_bytes; lia).
  rewrite (proj2 (Z.eqb_neq _ 0)) by lia. set (s1 := with_buf (root_sec s' k) s'). destruct (read_fuel_SS max (cb s')) as [f ->].
  destruct (decide (max = 0)) as [->|Hm0].
  { rewrite read_loop_stop by lia. subst n. rewrite Z.min_r by lia. by eexists. }
  assert (Hr1 : ready s1 t') by (destruct wrote_ready; by split).
  assert (Hcs : copy_size s1 0 (Z.of_nat (length data)) max = n) by (unfold copy_size, n; change (cb s1) with (cb s'); lia).
  rewrite (read_loop_step (S f) c 0 (Z.of_nat (length data)) max [] s1 t' FAT12_CLUSTER_EOF Hr1) by (try done; try lia; change (clusters s1) with (clusters s'); lia).
  rewrite Hcs, read_loop_stop by (by left). eexists. change (cluster_of s1 c) with (cluster_of s' c). rewrite Hdata. unfold padded.
  rewrite app_nil_l, Z.add_0_l, take_app_le by (subst n; lia). unfold i32. rewrite u32_small, (proj2 (Z.ltb_lt _ _)) by (subst n; lia). done.
Qed.
End written_file.
End round.
