(* ===== verification/FatIso.v ===== *)
(** Two consequences of the analysis of a write: files in other entries keep their contents,
    and a write of two clusters overwrites its own first cluster. *)
From Stdlib Require Import ZArith Lia.
From stdpp Require Import base tactics list numbers option sets.
From S2P Require Import Prelude BlockDev Fat1x FatFile FatTable FatDir FatWrite FatRound.

(** Every cluster of a chain satisfies [P], and the chain ends with an end mark. *)
Inductive chain_all (t : bytes) (P : Z -> Prop) : Z -> Prop :=
| ca_end c : FAT12_CLUSTER_EOF <= c -> chain_all t P c
| ca_link c v : P c -> fat_get t c = Some v -> chain_all t P v -> chain_all t P c.

Section iso.
Context {D : Type} `{!BlockDevice D, !ReliableDevice D} (freed : bytes -> bytes).
Implicit Types (s : fat1x D).
(** Nothing follows the end mark of the root directory. *)
Definition terminated s : Prop := forall k i k' i', (k' < root_count s)%nat -> (i < 16)%nat -> (i' < 16)%nat ->
  (k < k' \/ k = k' /\ i < i')%nat -> e_first (root_entry s k i) = 0 -> e_first (root_entry s k' i') = 0.
(** The first cluster of the contents that a write to [name] replaces. *)
Definition old_cluster s (name : bytes) : Z := match root_find s name with Some (k, i) => e_cluster_low (root_entry s k i) | None => 0 end.
(** A file whose clusters are in use and not part of the chain from [old]. *)
Definition apart s (t : bytes) (old : Z) (e : bytes) : Prop :=
  is_dir e = false -> e_file_size e <> 0 -> chain_all t (fun x => 2 <= x < 2 + clusters s /\ fat_get t x <> Some 0 /\ ~ on_chain t old x) (e_cluster_low e).

Lemma scan_none_passed n i buf name : scan_entries n i buf name = None -> (forall i', (i <= i' < i + n)%nat -> e_first (entry_at i' buf) <> 0) ->
  forall i', (i <= i' < i + n)%nat -> passed name (entry_at i' buf).
Proof.
  revert i. induction n as [|n IH]; intros i Hs Hz i' Hi'; [lia|]. cbn [scan_entries] in Hs. pose proof (Hz i ltac:(lia)) as Hzi.
  rewrite (proj2 (Z.eqb_neq _ 0)) in Hs by done. destruct (skipped (entry_at i buf)) eqn:Es; [|case_bool_decide as Hn; [done|]].
  all: destruct (decide (i' = i)) as [->|]; [split; auto|apply (IH (S i)); [done|intros; apply Hz; lia|lia]].
Qed.
Lemma read_loop_agree s s' t t' fuel c br fs max out : ready s t -> ready s' t' -> clusters s' = clusters s -> cb s' = cb s ->
  chain_all t (fun x => 2 <= x < 2 + clusters s /\ fat_get t' x = fat_get t x /\ cluster_of s' x = cluster_of s x) c ->
  0 <= br <= fs -> fs < 2 ^ 32 -> max < 2 ^ 32 ->
  fst <$> read_loop fuel c br fs max out s' = fst <$> read_loop fuel c br fs max out s.
Proof.
  intros Hr Hr' Hcl Hcb. revert c br out. induction fuel as [|fuel IH]; intros c br out Hch Hbr Hfs Hmax.
  { cbn [read_loop]. by destruct ((c <? FAT12_CLUSTER_EOF) && (br <? max)). }
  destruct (decide (FAT12_CLUSTER_EOF <= c \/ max <= br)) as [Hstop|Hgo]; [by rewrite !read_loop_stop|].
  destruct Hch as [c Hc|c v (Hc & Hl & Hd) Hv Hch]; [lia|].
  rewrite (read_loop_step fuel c br fs max out s t v Hr) by (try done; lia).
  rewrite (read_loop_step fuel c br fs max out s' t' v Hr') by (try done; try lia; congruence).
  assert (Hcs : copy_size s' br fs max = copy_size s br fs max) by (unfold copy_size; by rewrite Hcb). rewrite Hcs, Hd.
  assert (512 <= cb s) by (pose proof (l_spc _ _ (r_layout _ _ Hr)); unfold cb, cluster_bytes; lia).
  apply IH; [done| |done|done]. unfold copy_size. lia.
Qed.
Lemma chain_all_impl t P Q c : (forall x, P x -> Q x) -> chain_all t P c -> chain_all t Q c.
Proof. intros H. induction 1 as [c Hc|c v Hc Hv _ IH]; [by apply ca_end|]. eapply ca_link; eauto. Qed.

Section written_file.
Context (s s' : fat1x D) (t t1 t' comp data : bytes) (size : Z) (k i : nat) (old c : Z).
Let name := Fat12ConvertFilename comp.
Hypothesis (Hh : healthy s t) (Hv : valid_name comp) (Hsize : 0 <= size < 2 ^ 31).
Hypothesis (Hw : wrote s s' t t1 t' comp data size k i old c).
Lemma wrote_old : old = old_cluster s name.
Proof.
  unfold old_cluster, name. rewrite <- (component_lookup comp s) by apply Hv. destruct (tg_old _ _ _ _ _ (wr_target _ _ _ _ _ _ _ _ _ _ _ _ Hw)) as [(-> & _ & ->)|(-> & _ & ->)]; done.
Qed.
(** Another name keeps its entry. *)
Lemma wrote_find_other name' k' i' : terminated s -> name' <> name -> root_find s name' = Some (k', i') ->
  root_find s' name' = Some (k', i') /\ root_entry s' k' i' = root_entry s k' i'.
Proof.
  intros Hterm Hne Hf. pose proof (find_from_some _ _ _ _ _ _ Hf) as (Hk' & Hi' & Hm & Hb1 & Hb2). destruct Hm as (Hm0 & Hms & Hmn).
  destruct (tg_range _ _ _ _ _ (wr_target _ _ _ _ _ _ _ _ _ _ _ _ Hw)) as [Hk Hi]. pose proof (wr_entries _ _ _ _ _ _ _ _ _ _ _ _ Hw) as Hent.
  assert (Hc16 : 0 <= c < 2 ^ 16).
  { pose proof (h_clusters _ _ Hh). unfold FAT12_CLUSTER_EOF in *. destruct (wr_stored _ _ _ _ _ _ _ _ _ _ _ _ Hw) as [[_ ->]|(_ & Hc & _)]; lia. }
  destruct (file_entry_matching name c size (root_entry s k i)) as (Hf0 & Hfs & Hfn);
    [apply (valid_name_first comp (valid_file_name _ Hv))..|apply convert_length|by apply root_entry_length|done|lia|].
  assert (Hnz : forall k2 i2, (i2 < 16)%nat -> (k2 < k' \/ k2 = k' /\ i2 < i')%nat -> e_first (root_entry s k2 i2) <> 0).
  { intros k2 i2 Hi2 Hlt E. apply Hm0. exact (Hterm k2 i2 k' i' ltac:(lia) Hi2 Hi' Hlt E). }
  assert (Hpass : forall k2 i2, (i2 < 16)%nat -> (k2 < k' \/ k2 = k' /\ i2 < i')%nat -> passed name' (root_entry s' k2 i2)).
  { intros k2 i2 Hi2 Hlt. rewrite Hent by lia. destruct (decide (k2 = k /\ i2 = i)) as [_|_].
    - split; [done|]. right. fold name. by rewrite Hfn.
    - destruct Hlt as [Hlt|[-> Hlt]]; [|by apply Hb2]. apply (scan_none_passed 16 0 (root_sec s k2) name'); [apply Hb1; lia|intros; apply Hnz; lia|lia]. }
  assert (Hsame : root_entry s' k' i' = root_entry s k' i').
  { rewrite Hent by lia. destruct (decide (k' = k /\ i' = i)) as [[-> ->]|_]; [|done]. exfalso.
    destruct (tg_old _ _ _ _ _ (wr_target _ _ _ _ _ _ _ _ _ _ _ _ Hw)) as [(Hold & _ & _)|(_ & [Hfree|Hfree] & _)].
    - apply root_lookup_some in Hold as [_ Hold]. apply find_from_some in Hold as (_ & _ & (_ & _ & Hnm) & _). unfold name in Hne. congruence.
    - by apply Hm0.
    - unfold skipped in Hms. unfold root_entry in Hfree. rewrite Hfree in Hms. done. }
  split; [|done]. apply find_from_hit.
  - destruct (wrote_clusters s s' t t1 t' comp data size k i old c Hw) as (_ & -> & _). lia.
  - done.
  - fold (root_entry s' k' i'). rewrite Hsame. by split.
  - intros j Hj. apply scan_entries_passed. intros i2 Hi2. apply Hpass; lia.
  - intros i2 Hi2. apply Hpass; lia.
Qed.
Lemma wrote_chain_kept x : 2 <= x < 2 + clusters s -> fat_get t x <> Some 0 -> ~ on_chain t old x ->
  fat_get t' x = fat_get t x /\ cluster_of s' x = cluster_of s x.
Proof.
  intros Hx Hnz Hoff. pose proof (fc_off _ _ _ (wr_freed _ _ _ _ _ _ _ _ _ _ _ _ Hw) x ltac:(lia) Hoff) as H1.
  assert (Hne : x <> c \/ c = 0).
  { destruct (wr_stored _ _ _ _ _ _ _ _ _ _ _ _ Hw) as [[_ ->]|(_ & _ & Hc0 & _)]; [by right|left]. intros ->. congruence. }
  split; [rewrite (wr_links _ _ _ _ _ _ _ _ _ _ _ _ Hw) by (done || lia); done|].
  unfold cluster_of, cluster_at, spc. rewrite (wr_volume _ _ _ _ _ _ _ _ _ _ _ _ Hw). cbn [boot data_sector set_fat_table]. fold (spc s) (cluster_at s x).
  pose proof (cluster_range s x (h_layout _ _ Hh) Hx) as [Hr1 Hr2]. pose proof (l_spc _ _ (h_layout _ _ Hh)) as Hp. fold (spc s) in Hp.
  apply run_of_ext. intros y Hy. apply (wr_sectors _ _ _ _ _ _ _ _ _ _ _ _ Hw); [lia|]. destruct Hne as [Hne|]; [|by right; right].
  pose proof (cluster_apart s c x (h_layout _ _ Hh) (not_eq_sym Hne)). lia.
Qed.
Lemma wrote_read_other comp' max k' i' : terminated s -> path_component comp' -> Fat12ConvertFilename comp' <> name ->
  root_find s (Fat12ConvertFilename comp') = Some (k', i') -> apart s t old (root_entry s k' i') -> max < 2 ^ 32 ->
  0 <= e_file_size (root_entry s k' i') < 2 ^ 32 ->
  fst <$> Fat1xReadFile freed (Some (47 :: comp')) max s' = fst <$> Fat1xReadFile freed (Some (47 :: comp')) max s.
Proof.
  intros Hterm Hc Hne Hf Hap Hmax Hsz. destruct (wrote_find_other _ k' i' Hterm Hne Hf) as [Hf' He].
  pose proof (wrote_layout s s' t t1 t' comp data size k i old c Hh Hw) as Hl'.
  destruct (wrote_clusters s s' t t1 t' comp data size k i old c Hw) as (Hcl & _ & Hcb).
  rewrite (read_file_enter freed comp' max s' k' i' Hl' (wr_buffer _ _ _ _ _ _ _ _ _ _ _ _ Hw) Hc Hf').
  rewrite (read_file_enter freed comp' max s k' i' (h_layout _ _ Hh) (h_buffer _ _ Hh) Hc Hf). cbv zeta. rewrite He, Hcb.
  destruct (is_dir (root_entry s k' i')) eqn:Ed; [done|]. destruct (Z.eqb_spec (e_file_size (root_entry s k' i')) 0) as [Hz|Hz]; [done|].
  specialize (Hap Ed Hz). apply (read_loop_agree (with_buf (root_sec s k') s) (with_buf (root_sec s' k') s') t t'); [| |done|done| |lia|lia|done].
  - destruct Hh; by split.
  - destruct (wrote_ready s s' t t1 t' comp data size k i old c Hh Hw); by split.
  - eapply chain_all_impl; [|exact Hap]. intros x (H1 & H2 & H3). split; [exact H1|]. exact (wrote_chain_kept x H1 H2 H3).
Qed.
End written_file.

(** ** Two clusters *)
Lemma with_dev_clusters d s : capacity d = capacity (device s) -> forall t, ready s t -> ready (with_dev d s) t.
Proof. intros Hc t [Hl Ht Hb Hn Ha Hm]. split; try done. cbn [volume device with_dev]. by rewrite Hc. Qed.
(** The cluster that is being written is still free when the next one is looked for, so the
    second half of the contents goes to the same cluster. *)
Lemma write_two_run data s t : ready s t -> cb s < Z.of_nat (length data) <= 2 * cb s -> let c := free_cluster s t in 2 <= c < 2 + clusters s -> fat_get t c = Some 0 ->
  exists s' t', write_loop 2 c 0 (Some data) (Z.of_nat (length data)) s = Some (true, s') /\ stored s s' t t' (drop (Z.to_nat (cb s)) data) c.
Proof.
  intros Hrd Hd c Hc H0. pose proof Hrd as [Hl Ht Hb Hn Ha Hm]. pose proof (l_spc _ _ Hl) as Hp. fold (spc s) in Hp.
  pose proof (cluster_range s c Hl Hc) as [Hr1 Hr2]. assert (Hcb : 512 <= cb s <= 4096) by (unfold cb, cluster_bytes, spc in *; lia).
  set (n := Z.of_nat (length data)) in *. set (part1 := take (Z.to_nat (cb s)) data).
  destruct (write_run (cluster_at s c) (Z.to_nat (spc s)) (padded s part1) s) as (d1 & Hw1 & [Wc1 Wo1 _]);
    [lia|lia|apply padded_length; [lia|unfold part1; rewrite length_take; lia]|].
  destruct (fat_set_spec t c c Hb (Ha c Hc)) as (tA & HsetA & HLA & HbA & HgA & HoA).
  assert (HrA : ready (with_table tA (with_dev d1 s)) tA).
  { destruct (with_dev_clusters d1 s Wc1 t Hrd) as [Hl1 _ _ Hn1 Ha1 Hm1]. split; try done; [by destruct Hl1|]. intros x Hx. specialize (Ha1 x Hx). unfold accessible in *. by rewrite HLA. }
  destruct (write_last_core c (cb s) n data (with_table tA (with_dev d1 s)) tA HrA) as (d2 & t' & Hw2 & [Wc2 Wo2 Ws2] & Hset2);
    [lia|change (cb (with_table tA (with_dev d1 s))) with (cb s); lia|done|lia|exact Hc|].
  assert (HaA : accessible tA c) by (destruct (Ha c Hc); split; [done|by rewrite HLA]).
  destruct (fat_set_spec tA c FAT12_CLUSTER_EOF HbA HaA) as (t'' & Hset' & HL & Hb' & Hg & Ho). rewrite Hset2 in Hset'. injection Hset' as <-.
  exists (with_table t' (with_dev d2 s)), t'. split.
  - change (write_loop 2 c 0 (Some data) n s) with ((ok ← KernelMemoryAlloc;
      if negb ok then mret false else
      b ← get_boot;
      let rest := u32 (n - 0) in
      let to_write := if cluster_bytes b <? rest then cluster_bytes b else rest in
      cluster_buf ← lift (cluster_data (Some data) 0 to_write (cluster_bytes b));
      lba ← asks (cluster_lba c);
      ok ← WriteBlocks lba (Z.to_nat (sectors_per_cluster b)) cluster_buf;
      if negb ok then mret false else
      next_cluster ← Fat12FindFreeCluster;
      if next_cluster =? 0 then mret false else
      Fat12SetFatEntry c next_cluster;;
      write_loop 1 next_cluster (u32 (0 + to_write)) (Some data) n) s).
    rewrite (run_bind _ _ _ _ _ (alloc_run s Hm)). cbn [negb]. rewrite (run_bind _ _ _ _ _ (boot_run s)). fold (cb s). cbv zeta.
    rewrite Z.sub_0_r, (u32_small n), (proj2 (Z.ltb_lt (cb s) _)), cluster_data_part by lia. change (Z.to_nat 0) with 0%nat. rewrite drop_0. fold part1.
    rewrite (run_bind _ _ _ _ _ (eq_refl : lift (Some (padded s part1)) s = Some (_, s))).
    rewrite (run_bind _ _ _ _ _ (asks_run _ s)), cluster_lba_run by done. fold (spc s). rewrite (run_bind _ _ _ _ _ Hw1). cbn [negb].
    destruct (with_dev_clusters d1 s Wc1 t Hrd) as [Hl1 Ht1 Hb1 Hn1 Ha1 Hm1].
    rewrite (run_bind _ _ _ _ _ (find_free_run (with_dev d1 s) t Hl1 Ht1 Hb1 Hn1 Ha1)). change (free_cluster (with_dev d1 s) t) with c.
    rewrite (proj2 (Z.eqb_neq c 0)) by lia. rewrite (run_bind _ _ _ _ _ (set_run c c (with_dev d1 s) t tA Ht1 HsetA)), Z.add_0_l, u32_small by lia. exact Hw2.
  - apply stored_intro; [done|done|rewrite length_drop; lia|done|congruence|done|by rewrite Hg by lia| |].
    + intros x Hx Hne. rewrite Ho, HoA by done. done.
    + split; [cbn in Wc2; congruence| |exact Ws2]. intros j Hj. rewrite (Wo2 j Hj). exact (Wo1 j Hj).
Qed.
Lemma write_data_two data s t : ready s t -> cb s < Z.of_nat (length data) <= 2 * cb s ->
  data_outcome data (drop (Z.to_nat (cb s)) data) (Z.of_nat (length data)) s t.
Proof.
  intros Hrd Hd. pose proof Hrd as [Hl Ht Hb Hn Ha Hm]. pose proof (l_spc _ _ Hl) as Hp. assert (Hcb : 512 <= cb s <= 4096) by (unfold cb, cluster_bytes; lia).
  unfold data_outcome, write_data. rewrite (proj2 (Z.ltb_lt 0 _)) by lia. rewrite (run_bind _ _ _ _ _ (boot_run s)). fold (cb s).
  rewrite (proj2 (Z.eqb_neq (cb s) 0)) by lia. rewrite (run_bind _ _ _ _ _ (find_free_run s t Hl Ht Hb Hn Ha)). rewrite u32_small by lia.
  replace ((Z.of_nat (length data) + cb s - 1) / cb s) with 2 by (apply (Z.div_unique _ _ 2 (Z.of_nat (length data) - 1 - cb s)); lia).
  destruct (free_cluster_spec s t Hl) as [[Hf0 Hnone]|[Hf1 Hf2]].
  - rewrite Hf0. eexists _, s. split; [done|]. split; [lia|exact Hnone].
  - rewrite (proj2 (Z.eqb_neq _ 0)) by lia. change (Z.to_nat 2) with 2%nat.
    destruct (write_two_run data s t Hrd Hd Hf1 Hf2) as (s' & t' & Hw & Hst). rewrite (run_bind _ _ _ _ _ Hw). eexists _, s'. split; [done|]. by exists t'.
Qed.
(** Reading back a file whose size exceeds its one cluster. *)
Lemma wrote_read_short s s' t t1 t' comp data size k i old c max : healthy s t -> valid_name comp -> cb s < size < 2 ^ 31 ->
  wrote s s' t t1 t' comp data size k i old c -> data <> [] -> Z.of_nat (length data) <= cb s -> size <= max < 2 ^ 32 ->
  exists s'', Fat1xReadFile freed (Some (47 :: comp)) max s' = Some ((cb s, padded s data), s'').
Proof.
  intros Hh Hv Hsz Hw Hne Hlen Hmax. destruct (wrote_fields s s' t t1 t' comp data size k i old c Hh ltac:(lia) Hw) as (Hdir & Hcl & Hfs).
  destruct (wrote_clusters s s' t t1 t' comp data size k i old c Hw) as (Hncl & _ & Hcb). pose proof (wrote_layout s s' t t1 t' comp data size k i old c Hh Hw) as Hl'.
  pose proof (l_spc _ _ (h_layout _ _ Hh)) as Hp. assert (512 <= cb s <= 4096) by (unfold cb, cluster_bytes; lia).
  rewrite (read_file_enter freed comp max s' k i Hl' (wr_buffer _ _ _ _ _ _ _ _ _ _ _ _ Hw) (proj1 Hv) (wr_find _ _ _ _ _ _ _ _ _ _ _ _ Hw)).
  cbv zeta. rewrite Hdir, Hfs, Hcl, (proj2 (Z.eqb_neq size 0)) by lia. destruct (wr_stored _ _ _ _ _ _ _ _ _ _ _ _ Hw) as [[Hz _]|(Hpos & Hc & _ & Hge & Hdata)]; [done|].
  set (s1 := with_buf (root_sec s' k) s'). destruct (read_fuel_SS max (cb s')) as [f ->].
  assert (Hr1 : ready s1 t') by (destruct (wrote_ready s s' t t1 t' comp data size k i old c Hh Hw); by split).
  assert (Hcs : copy_size s1 0 size max = cb s) by (unfold copy_size; change (cb s1) with (cb s'); lia).
  rewrite (read_loop_step (S f) c 0 size max [] s1 t' FAT12_CLUSTER_EOF Hr1) by (try done; try lia; change (clusters s1) with (clusters s'); lia).
  rewrite Hcs, read_loop_stop by (by left). eexists. change (cluster_of s1 c) with (cluster_of s' c). rewrite Hdata, app_nil_l, Z.add_0_l, take_ge.
  - unfold i32. rewrite u32_small, (proj2 (Z.ltb_lt _ _)) by lia. done.
  - rewrite padded_length by (try lia; unfold spc; lia). unfold spc, cb, cluster_bytes, SECTOR. lia.
Qed.

(** ** Deleting a file *)
Lemma delete_file_run comp s t k i : healthy s t -> path_component comp -> root_find s (Fat12ConvertFilename comp) = Some (k, i) -> is_dir (root_entry s k i) = false ->
  exists s1 t1 s', Fat1xDeleteFile freed (Some (47 :: comp)) s = Some (0, s') /\ freed_chain t t1 (e_cluster_low (root_entry s k i)) /\
    s1 = with_table t1 (with_buf (root_sec s k) s) /\ committed s1 s' t1 k i deleted_entry.
Proof.
  intros Hh Hc Hf Hd. pose proof (h_layout _ _ Hh) as Hl. pose proof (find_from_some _ _ _ _ _ _ Hf) as (Hk & Hi & _).
  destruct (find_entry_root freed comp s Hl (h_buffer _ _ Hh) (component_plain _ Hc) (component_cut _ s Hc)) as (b & Hrun & Hbuf). rewrite component_lookup in Hrun, Hbuf by done.
  rewrite Hf in Hrun. rewrite (Hbuf k i Hf) in Hrun. unfold Fat1xDeleteFile. rewrite (run_bind _ _ _ _ _ Hrun), (run_bind _ _ _ _ _ (found_entry_run _ _ s)).
  cbn [fst snd]. rewrite Nat2Z.id. fold (root_entry s k i). set (e := root_entry s k i) in *.
  assert (Hm : may_delete e (with_buf (root_sec s k) s) = Some (true, with_buf (root_sec s k) s)) by (unfold may_delete; fold (is_dir e); by rewrite Hd).
  rewrite (run_bind _ _ _ _ _ Hm). cbn [negb].
  destruct (free_chain_run chain_fuel (e_cluster_low e) (with_buf (root_sec s k) s) t) as (t1 & Hfree & Hfr);
    [apply Hh|apply Hh|apply Hh|apply (h_entries _ _ Hh); [lia|done]|apply live_bound|].
  rewrite (run_bind _ _ _ _ _ Hfree). set (s1 := with_table t1 (with_buf (root_sec s k) s)).
  destruct (commit_run s1 t1 k i deleted_entry 0) as (s' & Hcr & Hco).
  - destruct Hl; by split.
  - done.
  - rewrite (fc_length _ _ _ Hfr). apply (h_length _ _ Hh).
  - by eexists.
  - exact (proj2 Hk).
  - done.
  - intros e' He'. by apply deleted_entry_length.
  - exists s1, t1, s'. done.
Qed.
End iso.
