(* ===== verification/FatProps.v ===== *)
(** The properties of the FAT12 file system: the packed table, chains, and files of the root
    directory on a reliable block device. *)
From Stdlib Require Import ZArith Lia.
From stdpp Require Import base tactics list numbers option sets.
From S2P Require Import Prelude BlockDev Fat1x FatFile FatTable FatDir FatWrite FatRound FatIso.

(** ** A small volume on a RAM disk: one reserved sector, two copies of a table of one sector, a
    root directory of one sector, twenty clusters of one sector *)
Definition demo_boot : Fat1xBootSector := mk_boot 0xEB [] 512 1 1 2 16 24 0xF8 1 0 0 0 0.
Definition demo_table : bytes := splice 0 [0xF8; 0xFF; 0xFF] (replicate 512 0).
Definition demo : fat1x ram_disk :=
  mk_fat (mk_ram (replicate 24 [])) (geometry 0 demo_boot (Some demo_table)) (Some (replicate 512 0)) [].
(** A table whose clusters 2 and 3 link to each other. *)
Definition cyclic_table : bytes := splice 3 [0x03; 0x20; 0x00] demo_table.

(** [closed] and [bytes_ok] can be computed. *)
Definition closed_test (t : bytes) : bool :=
  forallb (fun c => match fat_get t c with
                    | Some v => (v <? 2) || (FAT12_CLUSTER_EOF <=? v) || (S (fat_offset v) <? length t)%nat
                    | None => true
                    end) (seqZ 0 (Z.of_nat (length t))).
Lemma closed_test_ok t : closed_test t = true -> closed t.
Proof.
  unfold closed_test. rewrite forallb_forall. intros H c v [Hc Ho] Hv Hr. specialize (H c). rewrite Hv in H.
  assert (Hin : In c (seqZ 0 (Z.of_nat (length t)))).
  { apply list_elem_of_In, elem_of_seqZ. assert (c <= Z.of_nat (fat_offset c)); [|lia]. unfold fat_offset. assert (0 <= c / 2) by (apply Z.div_pos; lia). lia. }
  specialize (H Hin). zbool. destruct H as [H|H]; [|split; [lia|by apply Nat.ltb_lt in H]]. zbool. destruct H as [H|H]; zbool; lia.
Qed.
Lemma bytes_ok_test t : forallb (fun b => (0 <=? b) && (b <? 2 ^ 8)) t = true -> bytes_ok t.
Proof. rewrite forallb_forall. intros H. apply list.Forall_forall. intros b Hb. apply list_elem_of_In, H in Hb. zbool. done. Qed.
(** A volume with the layout of [demo] is healthy when its table and directory pass the tests. *)
Definition healthy_test (s : fat1x ram_disk) (t : bytes) : bool :=
  (length t =? 512)%nat && forallb (fun b => (0 <=? b) && (b <? 2 ^ 8)) t && closed_test t &&
  forallb (fun i => let c := e_cluster_low (root_entry s 0 i) in (c <? 2) || (S (fat_offset c) <? 512)%nat) (seq 0 16).
Lemma demo_layout_healthy (s : fat1x ram_disk) (t : bytes) : volume s = geometry 0 demo_boot (Some t) -> length (ram_sectors (device s)) = 24%nat ->
  is_Some (sector_buffer s) -> allocs s = [] -> healthy_test s t = true -> healthy s t.
Proof.
  intros HV HL Hb Hm Ht. unfold healthy_test in Ht. rewrite !andb_true_iff in Ht. destruct Ht as [[[H1 H2] H3] H4]. apply Nat.eqb_eq in H1.
  assert (Hcl : clusters s = 20) by (unfold clusters; by rewrite HV). assert (Hrc : root_count s = 1%nat) by (unfold root_count; by rewrite HV).
  split; [|by rewrite HV|by rewrite HV|by apply bytes_ok_test|by apply closed_test_ok|by rewrite Hcl| | |done|done].
  - change (capacity (device s)) with (Z.of_nat (length (ram_sectors (device s)))). rewrite HV, HL. split; vm_compute; split_and?; congruence.
  - rewrite Hcl. intros c Hc. split; [lia|]. rewrite H1. unfold fat_offset. assert (c / 2 <= 11) by (apply Z.div_le_upper_bound; lia). lia.
  - rewrite Hrc. intros k i Hk Hi Hr. assert (k = 0%nat) as -> by lia. rewrite forallb_forall in H4. specialize (H4 i ltac:(apply in_seq; lia)).
    cbv zeta in H4. zbool. destruct H4 as [H4|H4]; [zbool; lia|]. apply Nat.ltb_lt in H4. split; [lia|by rewrite H1].
Qed.
Lemma demo_healthy : healthy demo demo_table.
Proof. apply demo_layout_healthy; [done|done|by eexists|done|]. vm_compute. reflexivity. Qed.
(** [demo] with a file B of one byte. *)
Definition demo_b : fat1x ram_disk :=
  match Fat1xWriteFile id (Some [47; 66]) (Some [9]) 1 demo with Some (_, s) => s | None => demo end.
Definition demo_b_table : bytes := default [] (fat_table (volume demo_b)).
Lemma demo_b_healthy : healthy demo_b demo_b_table.
Proof. apply demo_layout_healthy; [vm_compute; reflexivity|vm_compute; reflexivity| |vm_compute; reflexivity|vm_compute; reflexivity].
  assert (H : bool_decide (is_Some (sector_buffer demo_b)) = true) by (vm_compute; reflexivity). by apply bool_decide_eq_true in H.
Qed.
Lemma demo_b_terminated : terminated demo_b.
Proof.
  assert (H : forallb (fun i => forallb (fun i' => negb (i <? i')%nat || negb (e_first (root_entry demo_b 0 i) =? 0) || (e_first (root_entry demo_b 0 i') =? 0))
    (seq 0 16)) (seq 0 16) = true) by (vm_compute; reflexivity).
  assert (Hrc : root_count demo_b = 1%nat) by (vm_compute; reflexivity). intros k i k' i' Hk' Hi Hi' Hlt Hz. rewrite Hrc in Hk'.
  assert (k' = 0%nat) as -> by lia. assert (k = 0%nat) as -> by lia. rewrite forallb_forall in H. specialize (H i ltac:(apply in_seq; lia)).
  rewrite forallb_forall in H. specialize (H i' ltac:(apply in_seq; lia)). rewrite Hz in H. destruct (Nat.ltb_spec i i'); [|lia]. cbn in H. by apply Z.eqb_eq in H.
Qed.
Lemma short_name c : c <> 47 -> c <> 0 -> c <> 0xE5 -> valid_name [c].
Proof. intros H1 H2 H3. split; [split; [done|split; [cbn; lia|by constructor]]|split; [by constructor|exact H3]]. Qed.

Section props.
Context {D : Type} `{!BlockDevice D, !ReliableDevice D} (freed : bytes -> bytes).
Implicit Types (s : fat1x D).

(** C6. On a healthy volume, as long as the kernel heap refuses no block, writing a file of at
    most one cluster into the root directory never faults, whatever its name (no slash, no NUL, not
    starting with the deletion mark).  It returns -1 only for one of these reasons: the name is a
    directory's, there is no slot, there is no free cluster, or the name has more than eleven
    bytes and the entry is already there.  Otherwise it returns the size, the volume stays healthy,
    and every copy of the table on the device is the cached one.  Reading the file back, with any
    limit, gives the bytes written if the name has at most eleven bytes.  If it is longer,
    such as a full name of eight and three bytes, reading returns -1: the file that was just stored is
    not found.  (For such a name, no directory must have its first eleven bytes for a name.) *)
Theorem write_then_read s (t comp data : bytes) (H : healthy s t) (Hv : file_name comp) (Hcut : cut_ok s comp) (Hn : Z.of_nat (length data) <= cb s) :
  let path := Some (47 :: comp) in let size := Z.of_nat (length data) in
  exists r s', Fat1xWriteFile freed path (Some data) size s = Some (r, s') /\
    (r = -1 /\ refused s t comp size \/
     r = size /\ (exists t', healthy s' t' /\ synced s' t') /\
     forall max, 0 <= max < 2 ^ 32 -> let n := Z.min size max in
       exists s'', Fat1xReadFile freed path max s' = Some (if decide (length comp <= 11)%nat then (n, take (Z.to_nat n) data) else (-1, []), s'')).
Proof.
  intros path size. assert (cb s <= 4096) by (pose proof (l_spc _ _ (h_layout _ _ H)); unfold cb, cluster_bytes; lia).
  assert (Hsz : 0 <= size < 2 ^ 31) by lia.
  destruct (write_file_run freed comp data data size s t H Hv Hcut Hsz) as (r & s' & Hrun & Hr).
  { intros s1 t1 Hrd Hcb. apply write_data_run; [done|lia]. }
  exists r, s'. split; [exact Hrun|]. destruct Hr as [Hr|(-> & t1 & t' & k & i & old & c & Hw)]; [by left|right]. split; [done|]. split.
  - exists t'. split; [by eapply wrote_healthy|]. apply (wr_synced _ _ _ _ _ _ _ _ _ _ _ _ Hw).
  - intros max Hmax n. destruct (decide (length comp <= 11)%nat); [by eapply wrote_read|eapply wrote_unreadable; [done..|lia]].
Qed.

(** C18. Writing a file of at most one cluster into the root directory (under a name of at most
    eleven bytes, the kernel heap refusing no block) leaves the other files
    alone: whatever reading another name gave before (its clusters being in use and not shared
    with the file that is replaced) it gives afterwards. *)
Theorem write_keeps_other_files s s' (t comp data comp' : bytes) (k i : nat) (max : Z)
  (H : healthy s t) (Ht : terminated s) (Hv : valid_name comp) (Hn : Z.of_nat (length data) <= cb s)
  (Hrun : Fat1xWriteFile freed (Some (47 :: comp)) (Some data) (Z.of_nat (length data)) s = Some (Z.of_nat (length data), s'))
  (Hc : path_component comp') (Hne : Fat12ConvertFilename comp' <> Fat12ConvertFilename comp)
  (Hf : root_find s (Fat12ConvertFilename comp') = Some (k, i))
  (Hap : apart s t (old_cluster s (Fat12ConvertFilename comp)) (root_entry s k i))
  (Hsz : 0 <= e_file_size (root_entry s k i) < 2 ^ 32) (Hmax : max < 2 ^ 32) :
  fst <$> Fat1xReadFile freed (Some (47 :: comp')) max s' = fst <$> Fat1xReadFile freed (Some (47 :: comp')) max s.
Proof.
  assert (cb s <= 4096) by (pose proof (l_spc _ _ (h_layout _ _ H)); unfold cb, cluster_bytes; lia).
  assert (Hsize : 0 <= Z.of_nat (length data) < 2 ^ 31) by lia.
  destruct (write_file_run freed comp data data _ s t H (valid_file_name _ Hv) (component_cut _ s (proj1 Hv)) Hsize) as (r & s1 & Hrun' & Hr).
  { intros s1 t1 Hrd Hcb. apply write_data_run; [done|lia]. }
  rewrite Hrun in Hrun'. injection Hrun' as <- <-. destruct Hr as [[Hr _]|(_ & t1 & t' & k0 & i0 & old & c & Hw)]; [lia|].
  rewrite <- (wrote_old s s' t t1 t' comp data _ k0 i0 old c Hv Hw) in Hap. by eapply wrote_read_other.
Qed.

(** C23. The packed table refines an array of 12-bit entries: setting the entry of a cluster
    makes the next lookup return the value's low twelve bits, leaves the lookup of every other
    cluster as it was (the neighbour that shares a byte included) and nothing on the device. *)
Theorem fat_table_array s (t : bytes) (c v : Z) (Ht : fat_table (volume s) = Some t) (Hb : bytes_ok t) (Ha : accessible t c) (Hc : c < FAT12_CLUSTER_EOF) :
  exists s', Fat12SetFatEntry c v s = Some (tt, s') /\ device s' = device s /\
    Fat12GetNextCluster c s' = Some (v mod 2 ^ 12, s') /\
    forall c', 0 <= c' -> c' <> c -> fst <$> Fat12GetNextCluster c' s' = fst <$> Fat12GetNextCluster c' s.
Proof.
  destruct (fat_set_spec t c v Hb Ha) as (t' & Hset & _ & _ & Hg & Ho). exists (with_table t' s). split; [by eapply set_run|]. split; [done|].
  split; [apply (next_run c _ t'); [done|by apply Hg]|]. intros c' H0 Hne. specialize (Ho c' H0 Hne). destruct (fat_get t c') as [w|] eqn:E.
  - by rewrite (next_run c' s t w Ht E), (next_run c' (with_table t' s) t' w eq_refl Ho).
  - unfold Fat12GetNextCluster. destruct (FAT12_CLUSTER_EOF <=? c'); [done|]. rewrite (run_bind _ _ _ _ _ (get_fat_run _ t' (with_table_table t' s))), (run_bind _ _ _ _ _ (get_fat_run s t Ht)).
    unfold lift. by rewrite E, Ho.
Qed.

(** C7. The loop that frees a cluster chain, shared by [Fat1xWriteFile] and [Fat1xDeleteFile],
    ends on every table whose links stay inside it, cyclic ones included: it marks exactly the
    clusters of the chain free and changes no other entry and nothing else. *)
Theorem free_chain_correct s (t : bytes) (c : Z) (Ht : fat_table (volume s) = Some t) (Hb : bytes_ok t) (Hcl : closed t)
  (Hc : 2 <= c < FAT12_CLUSTER_EOF -> accessible t c) :
  exists t', free_chain chain_fuel c s = Some (tt, with_table t' s) /\
    (forall c', on_chain t c c' -> fat_get t' c' = Some 0) /\ (forall c', 0 <= c' -> ~ on_chain t c c' -> fat_get t' c' = fat_get t c') /\ closed t'.
Proof.
  destruct (free_chain_run chain_fuel c s t Ht Hb Hcl Hc (live_bound t)) as (t' & Hrun & [_ _ Hcl' Hon Hoff _]). by exists t'.
Qed.

(** Writing more than one and at most two clusters into the root directory reports success
    but keeps only the second half: the file's chain is a single cluster that holds the bytes
    after the first cluster's worth, and reading the file back gives those. *)
Theorem two_clusters_lost s s' (t comp data : bytes) (max : Z) (H : healthy s t) (Hv : valid_name comp)
  (Hn : cb s < Z.of_nat (length data) <= 2 * cb s) (Hmax : Z.of_nat (length data) <= max < 2 ^ 32)
  (Hrun : Fat1xWriteFile freed (Some (47 :: comp)) (Some data) (Z.of_nat (length data)) s = Some (Z.of_nat (length data), s')) :
  exists s'', Fat1xReadFile freed (Some (47 :: comp)) max s' = Some ((cb s, padded s (drop (Z.to_nat (cb s)) data)), s'').
Proof.
  assert (cb s <= 4096) by (pose proof (l_spc _ _ (h_layout _ _ H)); unfold cb, cluster_bytes; lia).
  assert (0 < cb s) by (pose proof (l_spc _ _ (h_layout _ _ H)); unfold cb, cluster_bytes; lia).
  assert (Hsize : 0 <= Z.of_nat (length data) < 2 ^ 31) by lia.
  destruct (write_file_run freed comp data (drop (Z.to_nat (cb s)) data) _ s t H (valid_file_name _ Hv) (component_cut _ s (proj1 Hv)) Hsize) as (r & s1 & Hrun' & Hr).
  { intros s1 t1 Hrd Hcb. rewrite <- Hcb. apply write_data_two; [done|lia]. }
  rewrite Hrun in Hrun'. injection Hrun' as <- <-. destruct Hr as [[Hr _]|(_ & t1 & t' & k & i & old & c & Hw)]; [lia|].
  assert (HL : length (drop (Z.to_nat (cb s)) data) = (length data - Z.to_nat (cb s))%nat) by apply length_drop.
  eapply wrote_read_short; [done|done| |exact Hw| | |done]; [lia| |lia]. intros E. rewrite E in HL. cbn in HL. lia.
Qed.

(** C33. Deleting by the path of a name in the root directory of a healthy volume.  A file that
    the path leads to (its name has at most eleven bytes, and it is not a directory) is deleted:
    the operation returns 0, frees exactly the file's chain, marks the file's slot deleted so that
    no lookup returns it, changes no other slot, and brings the device's tables up to date.  When
    the path leads to nothing, which is the case for every name of more than eleven bytes, also
    when the file was stored under that name, it returns -1 and changes nothing but the sector
    buffer.  (For such a name, no directory must have its first eleven bytes for a name.) *)
Theorem delete_file_correct s (t comp : bytes) (H : healthy s t) (Hc : plain_name comp) (Hcut : cut_ok s comp) :
  match root_lookup s comp with
  | Some (k, i) =>
      is_dir (root_entry s k i) = false ->
      exists s' t', Fat1xDeleteFile freed (Some (47 :: comp)) s = Some (0, s') /\ fat_table (volume s') = Some t' /\ synced s' t' /\
        freed_chain t t' (e_cluster_low (root_entry s k i)) /\
        (forall name, root_find s' name <> Some (k, i)) /\
        forall k' i', (k' < root_count s)%nat -> (i' < 16)%nat -> (k', i') <> (k, i) -> root_entry s' k' i' = root_entry s k' i'
  | None => exists b, Fat1xDeleteFile freed (Some (47 :: comp)) s = Some (-1, with_buf b s)
  end.
Proof.
  destruct (root_lookup s comp) as [[k i]|] eqn:E.
  2:{ destruct (find_entry_root freed comp s (h_layout _ _ H) (h_buffer _ _ H) Hc Hcut) as (b & Hrun & _). rewrite E in Hrun.
      exists b. unfold Fat1xDeleteFile. by rewrite (run_bind _ _ _ _ _ Hrun). }
  intros Hd. apply root_lookup_some in E as [Hlen Hf].
  destruct (delete_file_run freed comp s t k i H (conj (proj1 Hc) (conj Hlen (proj2 Hc))) Hf Hd) as (s1 & t1 & s' & Hrun & Hfr & -> & Hco).
  pose proof (find_from_some _ _ _ _ _ _ Hf) as (Hk & Hi & _). set (s1 := with_table t1 (with_buf (root_sec s k) s)) in *.
  assert (Hent : forall k' i', (k' < root_count s)%nat -> (i' < 16)%nat -> root_entry s' k' i' = if decide (k' = k /\ i' = i) then deleted_entry (root_entry s k i) else root_entry s k' i').
  { intros k' i' Hk' Hi'. exact (committed_entry s1 s' t1 k i deleted_entry k' i' Hco (fun e He => proj1 (deleted_entry_length e He)) Hk' Hi Hi'). }
  exists s', t1. split_and!; [exact Hrun|by rewrite (c_volume _ _ _ _ _ _ Hco)|apply (c_synced _ _ _ _ _ _ Hco)|done| |].
  - intros name Hn. apply find_from_some in Hn as (_ & _ & (_ & Hs & _) & _). fold (root_entry s' k i) in Hs. rewrite Hent, decide_True in Hs by (done || lia).
    destruct (deleted_entry_length (root_entry s k i)) as [_ He5]; [by apply root_entry_length|]. unfold skipped in Hs. by rewrite He5 in Hs.
  - intros k' i' Hk' Hi' Hne. rewrite (Hent k' i' Hk' Hi'), decide_False; [done|]. intros [-> ->]. by apply Hne.
Qed.
End props.

(** ** Witnesses *)
Definition long_name : bytes := [70; 73; 76; 69; 78; 65; 77; 69; 46; 84; 88; 84].
Lemma long_name_ok : file_name long_name.
Proof. split; [split; [done|]|split; [|done]]; repeat constructor; discriminate. Qed.
(** The demonstration volumes have no directories. *)
Definition no_dirs (s : fat1x ram_disk) : bool := forallb (fun i => negb (is_dir (root_entry s 0 i))) (seq 0 16).
Lemma no_dirs_cut s comp : root_count s = 1%nat -> no_dirs s = true -> cut_ok s comp.
Proof.
  intros Hrc Hd. right. rewrite Hrc. intros k i Hk Hi _. assert (k = 0%nat) as -> by lia. unfold no_dirs in Hd. rewrite forallb_forall in Hd.
  specialize (Hd i ltac:(apply in_seq; lia)). by destruct (is_dir _).
Qed.
(** A file under a short name, and one under FILENAME.TXT. *)
Definition written_back (comp data : bytes) (r : Z) (s' : fat1x ram_disk) : Prop :=
  r = -1 /\ refused demo demo_table comp (Z.of_nat (length data)) \/
  r = Z.of_nat (length data) /\ (exists t', healthy s' t' /\ synced s' t') /\
  forall max, 0 <= max < 2 ^ 32 -> let n := Z.min (Z.of_nat (length data)) max in
    exists s'', Fat1xReadFile id (Some (47 :: comp)) max s' = Some (if decide (length comp <= 11)%nat then (n, take (Z.to_nat n) data) else (-1, []), s'').
Lemma write_then_read_witness :
  (exists r s', Fat1xWriteFile id (Some [47; 65]) (Some [1; 2; 3]) 3 demo = Some (r, s') /\ written_back [65] [1; 2; 3] r s') /\
  (exists r s', Fat1xWriteFile id (Some (47 :: long_name)) (Some [1; 2; 3]) 3 demo = Some (r, s') /\ written_back long_name [1; 2; 3] r s').
Proof.
  split; apply (write_then_read id demo demo_table).
  - exact demo_healthy.
  - apply valid_file_name, short_name; vm_compute; congruence.
  - apply no_dirs_cut; vm_compute; reflexivity.
  - vm_compute; congruence.
  - exact demo_healthy.
  - exact long_name_ok.
  - apply no_dirs_cut; vm_compute; reflexivity.
  - vm_compute; congruence.
Defined.
(** FILENAME.TXT is stored, and its entry is in the root directory; but it cannot be read, written
    again or deleted. *)
Definition demo_full : fat1x ram_disk :=
  match Fat1xWriteFile id (Some (47 :: long_name)) (Some [1; 2; 3]) 3 demo with Some (_, s) => s | None => demo end.
Theorem full_name_lost :
  fst <$> Fat1xWriteFile id (Some (47 :: long_name)) (Some [1; 2; 3]) 3 demo = Some 3 /\
  root_find demo_full (Fat12ConvertFilename long_name) = Some (0%nat, 0%nat) /\
  fst <$> Fat1xReadFile id (Some (47 :: long_name)) 3 demo_full = Some (-1, []) /\
  fst <$> Fat1xWriteFile id (Some (47 :: long_name)) (Some [4]) 1 demo_full = Some (-1) /\
  fst <$> Fat1xDeleteFile id (Some (47 :: long_name)) demo_full = Some (-1).
Proof. vm_compute. done. Qed.
Definition demo_ab : fat1x ram_disk :=
  match Fat1xWriteFile id (Some [47; 65]) (Some [1; 2; 3]) 3 demo_b with Some (_, s) => s | None => demo end.
Lemma write_keeps_other_files_witness : fst <$> Fat1xReadFile id (Some [47; 66]) 10 demo_ab = fst <$> Fat1xReadFile id (Some [47; 66]) 10 demo_b.
Proof.
  apply (write_keeps_other_files id demo_b demo_ab demo_b_table [65] [1; 2; 3] [66] 0 0 10); [exact demo_b_healthy|exact demo_b_terminated|apply short_name; vm_compute; congruence| | | | | | | |].
  - vm_compute. congruence.
  - vm_compute. reflexivity.
  - apply (short_name 66); vm_compute; congruence.
  - vm_compute. congruence.
  - vm_compute. reflexivity.
  - intros _ _. assert (E : e_cluster_low (root_entry demo_b 0 0) = 2) by (vm_compute; reflexivity). rewrite E.
    assert (E0 : old_cluster demo_b (Fat12ConvertFilename [65]) = 0) by (vm_compute; reflexivity). rewrite E0.
    assert (E2 : fat_get demo_b_table 2 = Some 0xFF8) by (vm_compute; reflexivity). assert (Ec : clusters demo_b = 20) by (vm_compute; reflexivity). rewrite Ec.
    eapply ca_link; [|exact E2|by apply ca_end]. split_and!; [lia|lia|by rewrite E2|]. intros Hch. apply on_chain_start in Hch. lia.
  - vm_compute. split; congruence.
  - lia.
Defined.
Lemma fat_table_array_witness : exists s', Fat12SetFatEntry 3 0x1ABC demo = Some (tt, s') /\ device s' = device demo /\
  Fat12GetNextCluster 3 s' = Some (0x1ABC mod 2 ^ 12, s') /\ forall c', 0 <= c' -> c' <> 3 -> fst <$> Fat12GetNextCluster c' s' = fst <$> Fat12GetNextCluster c' demo.
Proof.
  apply (fat_table_array demo demo_table 3 0x1ABC); [done|apply (h_bytes _ _ demo_healthy)| |reflexivity]. split; [lia|]. vm_compute. lia.
Defined.
Lemma free_chain_correct_witness : exists t', free_chain chain_fuel 2 (with_table cyclic_table demo) = Some (tt, with_table t' (with_table cyclic_table demo)) /\
  (forall c', on_chain cyclic_table 2 c' -> fat_get t' c' = Some 0) /\ (forall c', 0 <= c' -> ~ on_chain cyclic_table 2 c' -> fat_get t' c' = fat_get cyclic_table c') /\ closed t'.
Proof.
  apply free_chain_correct; [done|apply bytes_ok_test; vm_compute; reflexivity|apply closed_test_ok; vm_compute; reflexivity|].
  intros _. split; [lia|]. vm_compute. lia.
Defined.
Definition demo_data : bytes := replicate 512 1 ++ replicate 88 2.
Definition demo_long : fat1x ram_disk :=
  match Fat1xWriteFile id (Some [47; 65]) (Some demo_data) 600 demo with Some (_, s) => s | None => demo end.
Lemma two_clusters_lost_witness : exists s'', Fat1xReadFile id (Some [47; 65]) 1000 demo_long = Some ((512, padded demo (drop 512 demo_data)), s'').
Proof.
  apply (two_clusters_lost id demo demo_long demo_table [65] demo_data 1000); [exact demo_healthy|apply short_name; vm_compute; congruence|vm_compute; split; congruence|vm_compute; split; congruence|].
  vm_compute. reflexivity.
Defined.
Definition demo_full_table : bytes := default [] (fat_table (volume demo_full)).
Lemma demo_full_healthy : healthy demo_full demo_full_table.
Proof. apply demo_layout_healthy; [vm_compute; reflexivity|vm_compute; reflexivity| |vm_compute; reflexivity|vm_compute; reflexivity].
  assert (H : bool_decide (is_Some (sector_buffer demo_full)) = true) by (vm_compute; reflexivity). by apply bool_decide_eq_true in H.
Qed.
Lemma delete_file_correct_witness :
  (exists s' t', Fat1xDeleteFile id (Some [47; 66]) demo_b = Some (0, s') /\ fat_table (volume s') = Some t' /\ synced s' t' /\
     freed_chain demo_b_table t' (e_cluster_low (root_entry demo_b 0 0)) /\ (forall name, root_find s' name <> Some (0%nat, 0%nat)) /\
     forall k' i', (k' < root_count demo_b)%nat -> (i' < 16)%nat -> (k', i') <> (0%nat, 0%nat) -> root_entry s' k' i' = root_entry demo_b k' i') /\
  exists b, Fat1xDeleteFile id (Some (47 :: long_name)) demo_full = Some (-1, with_buf b demo_full).
Proof.
  assert (Hs : plain_name [66]) by (split; [done|by constructor]).
  assert (C1 : cut_ok demo_b [66]) by (apply no_dirs_cut; vm_compute; reflexivity).
  assert (C2 : cut_ok demo_full long_name) by (apply no_dirs_cut; vm_compute; reflexivity). split.
  - pose proof (delete_file_correct id demo_b demo_b_table [66] demo_b_healthy Hs C1) as H.
    assert (E : root_lookup demo_b [66] = Some (0%nat, 0%nat)) by (vm_compute; reflexivity). rewrite E in H. apply H. vm_compute. reflexivity.
  - exact (delete_file_correct id demo_full demo_full_table long_name demo_full_healthy (proj1 long_name_ok) C2).
Defined.
