(* ===== verification/Format.v ===== *)
(** Formatted output ([src/kernel/etc/Format.c]) and the character classes of
    [src/include/ctype.c].

    The buffer is the memory object [buf], [pos] the next byte to write; a write outside the
    object is a fault ([None]).  A format is the list of its bytes; the cursor stands on the rest
    of it, and moving it beyond the terminating NUL is a fault.  The variable arguments are a list
    of values; taking one of another type than was passed is a fault. *)
From Stdlib Require Import ZArith Lia.
From stdpp Require Import base tactics list numbers option.
From S2P Require Import Prelude.

(** ** Character classes *)
Definition _U : Z := 1.
Definition _L : Z := 2.
Definition _D : Z := 4.
Definition _C : Z := 8.
Definition _P : Z := 16.
Definition _S : Z := 32.
Definition _X : Z := 64.
Definition _SP : Z := 128.
(** The table, without its entry for EOF. *)
Definition _ctype : list Z :=
  replicate 9 _C ++ replicate 5 (Z.lor _C _S) ++ replicate 18 _C ++ [Z.lor _S _SP] ++ replicate 15 _P ++ replicate 10 _D ++ replicate 7 _P ++
  replicate 6 (Z.lor _U _X) ++ replicate 20 _U ++ replicate 6 _P ++ replicate 6 (Z.lor _L _X) ++ replicate 20 _L ++ replicate 4 _P ++ [_C] ++ replicate 128 0.
Definition in_class (mask c : Z) : bool := negb (Z.land (nth (Z.to_nat (u8 c)) _ctype 0) mask =? 0).
Definition isdigit : Z -> bool := in_class _D.
Definition islower : Z -> bool := in_class _L.
Definition isupper : Z -> bool := in_class _U.
Definition isxdigit : Z -> bool := in_class (Z.lor _D _X).
Definition toupper (c : Z) : Z := let ch := u8 c in if islower ch then ch - 32 else ch.
Definition tolower (c : Z) : Z := let ch := u8 c in if isupper ch then ch + 32 else ch.

(** ** Reading a number *)
Definition digit_value (c : Z) : Z := if isdigit c then c - 48 else (if islower c then toupper c else c) - 65 + 10.
Fixpoint strtoul_loop (cp : bytes) (base result : Z) : Z * bytes :=
  match cp with
  | [] => (result, [])
  | c :: cp' =>
      if isxdigit c && (digit_value c <? base) then strtoul_loop cp' base (u64 (result * base + digit_value c)) else (result, cp)
  end.
(** The value and what [endp] points to. *)
Definition simple_strtoul (cp : bytes) (base : Z) : Z * bytes :=
  if negb (base =? 0) then strtoul_loop cp base 0 else
  match cp with
  | c :: cp1 =>
      if c =? 48 then
        match cp1 with
        | x :: cp2 => if (x =? 120) && isxdigit (byte_at 0 cp2) then strtoul_loop cp2 16 0 else strtoul_loop cp1 8 0
        | [] => strtoul_loop cp1 8 0
        end
      else strtoul_loop cp 10 0
  | [] => strtoul_loop cp 10 0
  end.

(** ** Writing *)
Definition SMALL : Z := 64.
Definition out : Type := bytes * Z.
Definition put (c : Z) (o : out) : option out :=
  if (0 <=? o.2) && (o.2 <? Z.of_nat (length o.1)) then Some (<[Z.to_nat o.2 := u8 c]> o.1, o.2 + 1) else None.
(** One byte, if there is room before [lim]. *)
Definition put_room (lim c : Z) (o : out) : option out := if o.2 <? lim then put c o else Some o.
Fixpoint put_string (lim : Z) (s : bytes) (o : out) : option out :=
  match s with
  | [] => Some o
  | c :: s' => if o.2 <? lim then o' ← put c o; put_string lim s' o' else Some o
  end.
(** "0123456789abc..." and "0123456789ABC..." *)
Definition digits_small : bytes := [48;49;50;51;52;53;54;55;56;57;97;98;99;100;101;102;103;104;105;106;107;108;109;110;111;112;113;114;115;116;117;118;119;120;121;122].
Definition digits_large : bytes := [48;49;50;51;52;53;54;55;56;57;65;66;67;68;69;70;71;72;73;74;75;76;77;78;79;80;81;82;83;84;85;86;87;88;89;90].
Fixpoint digits_loop (n : nat) (digits : bytes) (num base : Z) : bytes :=
  match n with
  | O => []
  | S n' => if num =? 0 then [] else byte_at (Z.to_nat (num mod base)) digits :: digits_loop n' digits (num / base) base
  end.
(** [tmp], from its first byte, the last digit. *)
Definition number_digits (num base flags : Z) : bytes :=
  let digits := if Z.land flags SMALL =? 0 then digits_large else digits_small in
  if num =? 0 then [48] else digits_loop 23 digits num base.
Definition number_to_str (lim num base flags : Z) (o : out) : option out := put_string lim (reverse (number_digits num base flags)) o.

(** ** Arguments *)
Inductive va := VInt (z : Z) | VStr (s : option bytes).
Definition va_list : Type := list va.
Definition va_int (args : va_list) : option (Z * va_list) := match args with VInt z :: rest => Some (z, rest) | _ => None end.
Definition va_str (args : va_list) : option (option bytes * va_list) := match args with VStr s :: rest => Some (s, rest) | _ => None end.
(** [int], [long] or [long long]; [unsigned int], [unsigned long] or [unsigned long long]. *)
Definition va_signed (is_long is_longlong : bool) (args : va_list) : option (Z * va_list) :=
  a ← va_int args; Some (if is_longlong || is_long then i64 a.1 else i32 a.1, a.2).
Definition va_unsigned (is_long is_longlong : bool) (args : va_list) : option (Z * va_list) :=
  a ← va_int args; Some (if is_longlong || is_long then u64 a.1 else u32 a.1, a.2).
(** "(null)" *)
Definition null_text : bytes := [40; 110; 117; 108; 108; 41].

(** ** Directives *)
Definition is_digit (c : Z) : bool := (48 <=? c) && (c <=? 57).
Definition is_flag (c : Z) : bool := (c =? 45) || (c =? 43) || (c =? 32) || (c =? 35) || (c =? 48).
Fixpoint skip_while (f : Z -> bool) (fmt : bytes) : bytes :=
  match fmt with
  | [] => []
  | c :: fmt' => if f c then skip_while f fmt' else fmt
  end.
Definition skip_precision (fmt : bytes) : bytes :=
  match fmt with
  | c :: fmt' => if c =? 46 then skip_while is_digit fmt' else fmt
  | [] => []
  end.
(** The length modifier: [is_long], [is_longlong], and the rest. *)
Definition length_modifier (fmt : bytes) : bool * bool * bytes :=
  match fmt with
  | c :: fmt' =>
      if c =? 108 then
        match fmt' with
        | c' :: fmt'' => if c' =? 108 then (false, true, fmt'') else (true, false, fmt')
        | [] => (true, false, [])
        end
      else if (c =? 104) || (c =? 76) then (false, false, fmt') else (false, false, fmt)
  | [] => (false, false, [])
  end.
Definition conversion (lim c : Z) (is_long is_longlong : bool) (args : va_list) (o : out) : option (va_list * out) :=
  if c =? 99 then (* c *)
    if o.2 <? lim then a ← va_int args; o' ← put a.1 o; Some (a.2, o') else Some (args, o)
  else if c =? 115 then (* s *)
    a ← va_str args; o' ← put_string lim (default null_text a.1) o; Some (a.2, o')
  else if (c =? 100) || (c =? 105) then (* d, i *)
    a ← va_signed is_long is_longlong args;
    if (a.1 <? 0) && (o.2 <? lim) then
      o1 ← put 45 o; o2 ← number_to_str lim (u64 (- a.1)) 10 0 o1; Some (a.2, o2)
    else o2 ← number_to_str lim (u64 a.1) 10 0 o; Some (a.2, o2)
  else if c =? 117 then (* u *)
    a ← va_unsigned is_long is_longlong args; o' ← number_to_str lim a.1 10 0 o; Some (a.2, o')
  else if (c =? 120) || (c =? 88) then (* x, X *)
    a ← va_unsigned is_long is_longlong args; o' ← number_to_str lim a.1 16 (if c =? 120 then SMALL else 0) o; Some (a.2, o')
  else if c =? 111 then (* o *)
    a ← va_unsigned is_long is_longlong args; o' ← number_to_str lim a.1 8 0 o; Some (a.2, o')
  else if c =? 112 then (* p *)
    o1 ← put_room lim 48 o; o2 ← put_room lim 120 o1; a ← va_int args; o3 ← number_to_str lim (u64 a.1) 16 SMALL o2; Some (a.2, o3)
  else if c =? 37 then (* % *)
    o' ← put_room lim 37 o; Some (args, o')
  else
    o1 ← put_room lim 37 o; o2 ← (if c =? 0 then Some o1 else put_room lim c o1); Some (args, o2).
Fixpoint format_loop (fuel : nat) (lim : Z) (fmt : bytes) (args : va_list) (o : out) : option out :=
  match fuel with
  | O => None
  | S fuel' =>
      match fmt with
      | [] => Some o
      | c :: fmt1 =>
          if negb (o.2 <? lim) then Some o else
          if negb (c =? 37) then o' ← put c o; format_loop fuel' lim fmt1 args o' else
          let '(is_long, is_longlong, fmt2) := length_modifier (skip_precision (skip_while is_digit (skip_while is_flag fmt1))) in
          r ← conversion lim (byte_at 0 fmt2) is_long is_longlong args o;
          match fmt2 with
          | [] => None
          | _ :: fmt3 => format_loop fuel' lim fmt3 r.1 r.2
          end
      end
  end.
(** The result and the buffer; a NULL buffer is [None]. *)
Definition vsnprintf (buf : option bytes) (size : Z) (fmt : bytes) (args : va_list) : option (Z * option bytes) :=
  match buf with
  | None => Some (0, None)
  | Some b =>
      if size =? 0 then Some (0, Some b) else
      o ← format_loop (S (length fmt)) (i32 size - 1) fmt args (b, 0);
      o' ← put 0 o;
      Some (o.2, Some o'.1)
  end.
Definition vsprintf (buf : option bytes) (fmt : bytes) (args : va_list) : option (Z * option bytes) := vsnprintf buf (2 ^ 31 - 1) fmt args.
Definition snprintf (buf : option bytes) (size : Z) (fmt : bytes) (args : va_list) : option (Z * option bytes) := vsnprintf buf size fmt args.
(** The static buffer before the call, and after. *)
Definition FormatS (stack_buffer : bytes) (fmt : bytes) (args : va_list) : option (option bytes) :=
  r ← vsnprintf (Some stack_buffer) 1024 fmt args; Some r.2.
(** The C string at the start of a buffer. *)
Fixpoint c_string (b : bytes) : bytes :=
  match b with
  | [] => []
  | c :: b' => if c =? 0 then [] else c :: c_string b'
  end.
