(* ===== verification/FormatProps.v ===== *)
(** The properties of formatted output: what is written is the expansion of the format cut to the
    buffer; numbers read back as they were printed; a directive that is cut short is not safe. *)
From Stdlib Require Import ZArith Lia.
From stdpp Require Import base tactics list numbers option.
From S2P Require Import Prelude Format.

(** ** The expansion of a format, without a buffer *)
Definition numeral (num base flags : Z) : bytes := reverse (number_digits num base flags).
Definition directive_text (c : Z) (is_long is_longlong : bool) (args : va_list) : option (bytes * va_list) :=
  if c =? 99 then a ← va_int args; Some ([a.1], a.2)
  else if c =? 115 then a ← va_str args; Some (default null_text a.1, a.2)
  else if (c =? 100) || (c =? 105) then
    a ← va_signed is_long is_longlong args; Some (if a.1 <? 0 then 45 :: numeral (u64 (- a.1)) 10 0 else numeral (u64 a.1) 10 0, a.2)
  else if c =? 117 then a ← va_unsigned is_long is_longlong args; Some (numeral a.1 10 0, a.2)
  else if (c =? 120) || (c =? 88) then a ← va_unsigned is_long is_longlong args; Some (numeral a.1 16 (if c =? 120 then SMALL else 0), a.2)
  else if c =? 111 then a ← va_unsigned is_long is_longlong args; Some (numeral a.1 8 0, a.2)
  else if c =? 112 then a ← va_int args; Some (48 :: 120 :: numeral (u64 a.1) 16 SMALL, a.2)
  else if c =? 37 then Some ([37], args)
  else Some (if c =? 0 then [37] else [37; c], args).
Fixpoint expand (fuel : nat) (fmt : bytes) (args : va_list) : option bytes :=
  match fuel with
  | O => None
  | S fuel' =>
      match fmt with
      | [] => Some []
      | c :: fmt1 =>
          if negb (c =? 37) then t ← expand fuel' fmt1 args; Some (c :: t) else
          let '(is_long, is_longlong, fmt2) := length_modifier (skip_precision (skip_while is_digit (skip_while is_flag fmt1))) in
          match fmt2 with
          | [] => None
          | c2 :: fmt3 =>
              d ← directive_text c2 is_long is_longlong args;
              t ← expand fuel' fmt3 d.2; Some (d.1 ++ t)
          end
      end
  end.

(** ** The buffer *)
Section buffer.
Context (buf : bytes) (lim : nat) (Hlim : (lim < length buf)%nat).
(** The buffer after writing [t] at its start. *)
Definition st (t : bytes) : out := (t ++ drop (length t) buf, Z.of_nat (length t)).
Definition cut (t : bytes) : bytes := take lim t.
Lemma cut_length t : (length (cut t) <= lim)%nat.
Proof using Hlim. unfold cut. rewrite length_take. lia. Qed.
Lemma cut_cut_app t u : cut (cut t ++ u) = cut (t ++ u).
Proof.
  unfold cut. destruct (decide (length t <= lim)%nat); [by rewrite (take_ge t) by lia|]. rewrite (take_app_le t) by lia.
  by rewrite take_app_le, take_take, Nat.min_id by (rewrite length_take; lia).
Qed.
Lemma cut_full t u : (length t = lim)%nat -> cut (t ++ u) = t.
Proof. intros H. unfold cut. by apply take_app_length'. Qed.
Lemma put_st c t : (length t < length buf)%nat -> put c (st t) = Some (st (t ++ [u8 c])).
Proof.
  intros Hl. unfold put, st. cbn [fst snd]. rewrite length_app, length_drop, (proj2 (Z.leb_le 0 _)), (proj2 (Z.ltb_lt _ _)) by lia. cbn [andb].
  rewrite Nat2Z.id, insert_app_r_alt, Nat.sub_diag, length_app by lia. f_equal. f_equal; [|cbn; lia].
  rewrite <- app_assoc. f_equal. destruct (drop (length t) buf) as [|x r] eqn:E; [apply (f_equal length) in E; rewrite length_drop in E; cbn in E; lia|].
  cbn [app length insert list_insert]. f_equal. by rewrite <- drop_drop, E.
Qed.
Lemma lim_test t : ((st t).2 <? Z.of_nat lim) = bool_decide (length t < lim)%nat.
Proof. cbn [st snd]. destruct (decide (length t < lim)%nat) as [H|H]; [rewrite bool_decide_true, (proj2 (Z.ltb_lt _ _)) by lia|rewrite bool_decide_false, (proj2 (Z.ltb_ge _ _)) by lia]; done. Qed.
Lemma put_string_st s t : (length t <= lim)%nat -> put_string (Z.of_nat lim) s (st t) = Some (st (cut (t ++ (u8 <$> s)))).
Proof.
  revert t. induction s as [|c s IH]; intros t Ht; cbn [put_string fmap list_fmap].
  { rewrite app_nil_r. unfold cut. by rewrite take_ge. }
  rewrite lim_test. destruct (decide (length t < lim)%nat) as [H|H]; [rewrite bool_decide_true|rewrite bool_decide_false]; try done.
  - rewrite put_st, option_bind_Some, IH by (rewrite ?length_app; cbn; lia). by rewrite <- app_assoc.
  - by rewrite cut_full by lia.
Qed.
Lemma put_room_st c t : (length t <= lim)%nat -> put_room (Z.of_nat lim) c (st t) = Some (st (cut (t ++ [u8 c]))).
Proof.
  intros Ht. pose proof (put_string_st [c] t Ht) as E. cbn [put_string] in E. unfold put_room. destruct (_ <? _); [|done].
  cbn [fmap list_fmap] in E. rewrite <- E. by destruct (put c (st t)).
Qed.
Lemma number_st num base flags t : (length t <= lim)%nat ->
  number_to_str (Z.of_nat lim) num base flags (st t) = Some (st (cut (t ++ (u8 <$> numeral num base flags)))).
Proof. apply put_string_st. Qed.
Ltac step := rewrite ?option_bind_Some; cbn [fst snd].
Lemma conversion_st c l ll args t text args' : (length t < lim)%nat -> directive_text c l ll args = Some (text, args') ->
  conversion (Z.of_nat lim) c l ll args (st t) = Some (args', st (cut (t ++ (u8 <$> text)))).
Proof.
  intros Ht. unfold conversion, directive_text. rewrite lim_test, (bool_decide_true _ Ht).
  destruct (c =? 99).
  { destruct (va_int args) as [[a r]|]; [|done]. step. intros [= <- <-]. rewrite put_st by lia. step. unfold cut. rewrite take_ge by (rewrite length_app; cbn; lia). done. }
  destruct (c =? 115).
  { destruct (va_str args) as [[a r]|]; [|done]. step. intros [= <- <-]. rewrite put_string_st by lia. done. }
  destruct ((c =? 100) || (c =? 105)).
  { destruct (va_signed l ll args) as [[a r]|]; [|done]. step. intros [= <- <-]. rewrite andb_true_r. destruct (a <? 0); [|rewrite number_st by lia; done].
    rewrite put_st by lia. step. rewrite number_st by (rewrite length_app; cbn; lia). step. by rewrite <- app_assoc. }
  destruct (c =? 117).
  { destruct (va_unsigned l ll args) as [[a r]|]; [|done]. step. intros [= <- <-]. by rewrite number_st by lia. }
  destruct ((c =? 120) || (c =? 88)).
  { destruct (va_unsigned l ll args) as [[a r]|]; [|done]. step. intros [= <- <-]. by rewrite number_st by lia. }
  destruct (c =? 111).
  { destruct (va_unsigned l ll args) as [[a r]|]; [|done]. step. intros [= <- <-]. by rewrite number_st by lia. }
  destruct (c =? 112).
  { destruct (va_int args) as [[a r]|]; [|done]. step. intros [= <- <-]. rewrite put_room_st by lia. step. rewrite put_room_st by apply cut_length. step.
    rewrite number_st by apply cut_length. step. rewrite cut_cut_app, <- app_assoc, cut_cut_app, <- app_assoc. done. }
  destruct (c =? 37).
  { intros [= <- <-]. by rewrite put_room_st by lia. }
  intros [= <- <-]. rewrite put_room_st by lia. step. destruct (c =? 0); [done|]. rewrite put_room_st by apply cut_length. step. by rewrite cut_cut_app, <- app_assoc.
Qed.
Lemma format_loop_st fuel fmt args text t : expand fuel fmt args = Some text -> (length t <= lim)%nat ->
  format_loop fuel (Z.of_nat lim) fmt args (st t) = Some (st (cut (t ++ (u8 <$> text)))).
Proof.
  revert fmt args text t. induction fuel as [|fuel IH]; intros fmt args text t E Ht; [done|]. cbn [expand format_loop] in *. destruct fmt as [|c fmt].
  { injection E as <-. cbn. rewrite app_nil_r. unfold cut. by rewrite take_ge. }
  rewrite lim_test. destruct (decide (length t < lim)%nat) as [H|H]; [rewrite bool_decide_true by done|rewrite bool_decide_false by done; cbn [negb]; by rewrite cut_full by lia]. cbn [negb].
  destruct (negb (c =? 37)).
  { destruct (expand fuel fmt args) as [t1|] eqn:E1; [|done]. injection E as <-. rewrite put_st by lia. step. rewrite (IH _ _ _ _ E1) by (rewrite length_app; cbn; lia). by rewrite <- app_assoc. }
  destruct (length_modifier _) as [[l ll] fmt2]. destruct fmt2 as [|c2 fmt3]; [done|]. destruct (directive_text c2 l ll args) as [[d args']|] eqn:Ed; [|done]. rewrite option_bind_Some in E.
  cbn [fst snd] in E. destruct (expand fuel fmt3 args') as [t1|] eqn:E1; [|done]. injection E as <-. cbn [byte_at nth]. unfold byte_at. cbn [nth].
  rewrite (conversion_st _ _ _ _ _ _ _ H Ed). step. rewrite (IH _ _ _ _ E1) by apply cut_length. by rewrite cut_cut_app, fmap_app, <- app_assoc.
Qed.
End buffer.

(** ** Numbers *)
Definition digit_reads (digits : bytes) (v : Z) : bool :=
  let c := byte_at (Z.to_nat v) digits in isxdigit c && (digit_value c =? v).
Lemma digits_read digits v : digits = digits_small \/ digits = digits_large -> 0 <= v < 16 ->
  isxdigit (byte_at (Z.to_nat v) digits) = true /\ digit_value (byte_at (Z.to_nat v) digits) = v.
Proof.
  intros Hd Hv. assert (H : forallb (digit_reads digits) (seqZ 0 16) = true) by (destruct Hd as [->| ->]; vm_compute; reflexivity).
  rewrite forallb_forall in H. specialize (H v). rewrite <- list_elem_of_In, elem_of_seqZ in H. specialize (H ltac:(lia)). unfold digit_reads in H.
  apply andb_true_iff in H as [H1 H2]. split; [done|]. by apply Z.eqb_eq.
Qed.
Lemma strtoul_digits n digits num base tl : digits = digits_small \/ digits = digits_large -> 8 <= base <= 16 -> 0 <= num < 2 ^ 64 -> num < base ^ Z.of_nat n ->
  strtoul_loop (reverse (digits_loop n digits num base) ++ tl) base 0 = strtoul_loop tl base num.
Proof.
  intros Hd Hb. revert num tl. induction n as [|n IH]; intros num tl Hn Hlt; cbn [digits_loop].
  { replace num with 0 by (cbn in Hlt; lia). done. }
  destruct (Z.eqb_spec num 0) as [->|Hnz]; [done|]. rewrite reverse_cons, <- app_assoc. pose proof (Z.mod_pos_bound num base ltac:(lia)) as Hm.
  pose proof (Z.div_mod num base ltac:(lia)) as Hdm. rewrite IH.
  - destruct (digits_read digits (num mod base) Hd ltac:(lia)) as [Hx Hv]. cbn [app strtoul_loop]. rewrite Hx, Hv, (proj2 (Z.ltb_lt _ base)) by lia. cbn [andb].
    rewrite u64_small by lia. f_equal. lia.
  - split; [apply Z.div_pos; lia|]. apply Z.le_lt_trans with num; [|lia]. apply Z.div_le_upper_bound; nia.
  - apply Z.div_lt_upper_bound; [lia|]. rewrite <- Z.pow_succ_r by lia. by replace (Z.succ (Z.of_nat n)) with (Z.of_nat (S n)) by lia.
Qed.
Lemma strtoul_numeral num base flags : 8 <= base <= 16 -> 0 <= num < 2 ^ 64 -> simple_strtoul (numeral num base flags) base = (num, []).
Proof.
  intros Hb Hn. unfold simple_strtoul. rewrite (proj2 (Z.eqb_neq base 0)) by lia. cbn [negb]. unfold numeral, number_digits.
  set (digits := if Z.land flags SMALL =? 0 then _ else _). assert (Hd : digits = digits_small \/ digits = digits_large) by (unfold digits; destruct (_ =? _); auto).
  destruct (Z.eqb_spec num 0) as [->|Hnz].
  { destruct (digits_read digits_small 0 ltac:(by left) ltac:(lia)) as [Hx Hv]. change (byte_at (Z.to_nat 0) digits_small) with 48 in Hx, Hv.
    change (reverse [48]) with [48]. cbn [strtoul_loop]. rewrite Hx, Hv, (proj2 (Z.ltb_lt 0 base)) by lia. done. }
  rewrite <- (app_nil_r (reverse _)), (strtoul_digits 23 digits num base [] Hd Hb Hn); [done|].
  apply Z.lt_le_trans with (8 ^ Z.of_nat 23); [lia|]. apply Z.pow_le_mono_l. lia.
Qed.

Lemma digit_table_byte i digits : digits = digits_small \/ digits = digits_large -> 0 <= byte_at i digits < 256.
Proof.
  intros Hd. destruct (decide (i < 36)%nat) as [Hi|Hi].
  - assert (H : forallb (fun i => (0 <=? byte_at i digits) && (byte_at i digits <? 256)) (seq 0 36) = true) by (destruct Hd as [->| ->]; vm_compute; reflexivity).
    rewrite forallb_forall in H. specialize (H i ltac:(apply in_seq; lia)). zbool. lia.
  - unfold byte_at. rewrite nth_overflow by (destruct Hd as [->| ->]; cbn; lia). lia.
Qed.
Lemma numeral_bytes num base flags : u8 <$> numeral num base flags = numeral num base flags.
Proof.
  unfold numeral. rewrite fmap_reverse. f_equal. unfold number_digits. set (digits := if Z.land flags SMALL =? 0 then _ else _).
  assert (Hd : digits = digits_small \/ digits = digits_large) by (unfold digits; destruct (_ =? _); auto). destruct (num =? 0); [done|]. generalize 23%nat as n. intros n. revert num.
  induction n as [|n IH]; intros num; cbn [digits_loop]; [done|]. destruct (num =? 0); [done|]. cbn [fmap list_fmap]. rewrite IH. f_equal. apply u8_small, digit_table_byte, Hd.
Qed.

(** ** The whole call *)
Lemma vsnprintf_run buf size fmt args text : 0 < size < 2 ^ 31 -> size <= Z.of_nat (length buf) -> expand (S (length fmt)) fmt args = Some text ->
  let t := take (Z.to_nat (size - 1)) (u8 <$> text) in
  vsnprintf (Some buf) size fmt args = Some (Z.of_nat (length t), Some (t ++ 0 :: drop (S (length t)) buf)).
Proof.
  intros Hs Hl E t. unfold vsnprintf. rewrite (proj2 (Z.eqb_neq size 0)) by lia. unfold i32. rewrite u32_small, (proj2 (Z.ltb_lt size (2 ^ 31))) by lia.
  assert (Hlim : (Z.to_nat (size - 1) < length buf)%nat) by lia. change (buf, 0) with (st buf []). replace (size - 1) with (Z.of_nat (Z.to_nat (size - 1))) by lia.
  rewrite (format_loop_st buf _ Hlim _ _ _ _ _ E) by (cbn; lia). rewrite option_bind_Some. cbn [app]. fold (cut (Z.to_nat (size - 1)) (u8 <$> text)).
  pose proof (cut_length buf _ Hlim (u8 <$> text)) as Hc. replace (Z.to_nat (Z.of_nat (Z.to_nat (size - 1)))) with (Z.to_nat (size - 1)) in * by lia.
  change (cut (Z.to_nat (size - 1)) (u8 <$> text)) with t in *. rewrite (put_st buf _ Hlim) by lia. rewrite option_bind_Some. unfold st. cbn [fst snd].
  rewrite length_app. cbn [length]. rewrite Nat.add_1_r, <- app_assoc. done.
Qed.
Lemma c_string_cut t r : Forall (fun c => c <> 0) t -> c_string (t ++ 0 :: r) = t.
Proof. induction 1 as [|c t Hc _ IH]; cbn [c_string app]; [done|]. by rewrite (proj2 (Z.eqb_neq c 0) Hc), IH. Qed.
Lemma u8_bytes (l : bytes) : Forall (fun c => 0 < c < 256) l -> u8 <$> l = l.
Proof. induction 1 as [|c l Hc _ IH]; [done|]. cbn. rewrite IH, u8_small by lia. done. Qed.
Lemma skip_fmt (f : Z -> bool) c fmt : f c = false -> skip_while f (c :: fmt) = c :: fmt.
Proof. intros H. cbn. by rewrite H. Qed.
(** A format that ends in a percent sign: the cursor passes the terminating NUL. *)
Lemma lone_percent_fault buf size pre args : Forall (fun c => c <> 37) pre -> 0 < size < 2 ^ 31 -> size <= Z.of_nat (length buf) ->
  Z.of_nat (length pre) < size - 1 -> vsnprintf (Some buf) size (pre ++ [37]) args = None.
Proof.
  intros Hp Hs Hl Hlen. unfold vsnprintf. rewrite (proj2 (Z.eqb_neq size 0)) by lia. unfold i32. rewrite u32_small, (proj2 (Z.ltb_lt size (2 ^ 31))) by lia.
  assert (Hlim : (Z.to_nat (size - 1) < length buf)%nat) by lia. change (buf, 0) with (st buf []). replace (size - 1) with (Z.of_nat (Z.to_nat (size - 1))) by lia.
  set (lim := Z.to_nat (size - 1)) in *. assert (Hloop : forall t fuel, (length t + length pre < lim)%nat -> format_loop fuel (Z.of_nat lim) (pre ++ [37]) args (st buf t) = None); [|by rewrite Hloop by (cbn; lia)].
  clear Hlen. intros t fuel. revert t fuel. induction Hp as [|c pre Hc _ IH]; intros t [|fuel] Ht; [done| |done|]; cbn [app format_loop]; rewrite lim_test, bool_decide_true by (cbn in Ht; lia); cbn [negb].
  - change (37 =? 37) with true. cbn [negb skip_while skip_precision length_modifier]. destruct (conversion _ _ _ _ _ _); [|done]. done.
  - rewrite (proj2 (Z.eqb_neq c 37) Hc). cbn [negb]. rewrite (put_st buf lim Hlim), option_bind_Some by (cbn in Ht; lia). apply IH. rewrite length_app. cbn in Ht |- *. lia.
Qed.

(** C21. [vsnprintf] writes the expansion of its format, cut to the buffer.  Let the buffer have at
    least [size] bytes, [size] be between 1 and 2^31 - 1, and the format with its arguments expand
    to [text]: ordinary bytes as they are, each directive as its argument says (strings, NULL as
    "(null)", characters, signed and unsigned decimal, hexadecimal in both cases, octal, pointers,
    the percent sign, unknown directives as they stand; flags, width and precision are skipped).
    Then the call never writes outside the first [size] bytes: it stores the first [size - 1] bytes
    of the text or all of it, then a NUL, leaves the rest of the buffer alone, and returns the
    number of bytes before the NUL. *)
Theorem vsnprintf_expands buf size fmt args text : 0 < size < 2 ^ 31 -> size <= Z.of_nat (length buf) ->
  expand (S (length fmt)) fmt args = Some text ->
  let n := Nat.min (Z.to_nat (size - 1)) (length text) in
  exists buf', vsnprintf (Some buf) size fmt args = Some (Z.of_nat n, Some buf') /\
    take n buf' = u8 <$> take n text /\ buf' !! n = Some 0 /\ drop (S n) buf' = drop (S n) buf /\ length buf' = length buf.
Proof.
  intros Hs Hl E n. pose proof (vsnprintf_run buf size fmt args text Hs Hl E) as HR. set (t := take (Z.to_nat (size - 1)) (u8 <$> text)) in HR.
  assert (Ht : length t = n) by (unfold t, n; rewrite length_take, length_fmap; done). cbv zeta in HR. rewrite Ht in HR. exists (t ++ 0 :: drop (S n) buf).
  assert (Hn : (n < length buf)%nat) by (unfold n; lia). clearbody n. split; [exact HR|]. split_and!.
  - rewrite take_app_length' by done. rewrite <- Ht, fmap_take. unfold t at 2. rewrite length_take, <- take_take, firstn_all. done.
  - rewrite lookup_app_r by (rewrite Ht; done). by rewrite Ht, Nat.sub_diag.
  - rewrite drop_app_ge by (rewrite Ht; apply Nat.le_succ_diag_r). rewrite Ht. replace (S n - n)%nat with 1%nat by lia. done.
  - rewrite length_app, Ht. cbn [length]. rewrite length_drop. lia.
Qed.
(** ["%s=%d|%02x"] with "ab", -5 and 255 in 8 bytes: "ab=-5|f". *)
Definition demo_fmt : bytes := [37; 115; 61; 37; 100; 124; 37; 48; 50; 120].
Definition demo_args : va_list := [VStr (Some [97; 98]); VInt (-5); VInt 255].
Lemma vsnprintf_expands_witness : exists buf', vsnprintf (Some (replicate 10 204)) 8 demo_fmt demo_args = Some (7, Some buf') /\
  take 7 buf' = [97; 98; 61; 45; 53; 124; 102] /\ buf' !! 7%nat = Some 0 /\ drop 8 buf' = [204; 204].
Proof.
  destruct (vsnprintf_expands (replicate 10 204) 8 demo_fmt demo_args [97; 98; 61; 45; 53; 124; 102; 102]) as (buf' & E & H1 & H2 & H3 & _); [lia|vm_compute; discriminate|vm_compute; reflexivity|].
  exists buf'. split; [exact E|]. split; [etransitivity; [exact H1|vm_compute; reflexivity]|]. split; [exact H2|etransitivity; [exact H3|vm_compute; reflexivity]].
Defined.

(** Numbers read back as they were printed.  For bases from 8 to 16 and every 64-bit number,
    [vsnprintf]'s digit conversion writes, into any buffer with room for it, a numeral that
    [simple_strtoul] reads completely and to the same number, in upper and in lower case. *)
Theorem number_roundtrip buf lim num base flags : 8 <= base <= 16 -> 0 <= num < 2 ^ 64 ->
  (length (numeral num base flags) <= lim)%nat -> (lim < length buf)%nat ->
  exists buf', number_to_str (Z.of_nat lim) num base flags (buf, 0) = Some (buf', Z.of_nat (length (numeral num base flags))) /\
    simple_strtoul (take (length (numeral num base flags)) buf') base = (num, []).
Proof.
  intros Hb Hn Hl Hlim. change (buf, 0) with (st buf []). rewrite (number_st buf lim Hlim) by (cbn; lia). cbn [app].
  assert (HB : u8 <$> numeral num base flags = numeral num base flags) by apply numeral_bytes.
  rewrite HB. unfold cut. rewrite take_ge by done. eexists. split; [reflexivity|]. rewrite take_app_length. by apply strtoul_numeral.
Qed.
Lemma number_roundtrip_witness : exists buf', number_to_str 20 48879 16 SMALL (replicate 24 0, 0) = Some (buf', 4) /\ simple_strtoul (take 4 buf') 16 = (48879, []).
Proof.
  destruct (number_roundtrip (replicate 24 0) 20 48879 16 SMALL) as (buf' & E & H); [lia|lia|apply Nat.leb_le; vm_compute; reflexivity|apply Nat.ltb_lt; vm_compute; reflexivity|].
  exists buf'. split; [exact E|exact H].
Defined.
