(* ===== verification/BlockTable.v ===== *)
(** The table of block devices ([src/fs/BlockDevice.c]) and the partitions of a master boot
    record ([src/fs/MBR.c]).

    A device pointer is an index into [g_block_devices].  The function pointers of a device are
    those of a disk driver, which is reached through the class [RawDisk], or those of a partition,
    or NULL.  [None] is a fault: an access outside an object, or a call through NULL. *)
From Stdlib Require Import ZArith Lia.
From stdpp Require Import base tactics list numbers option.
From S2P Require Import Prelude Format.

Definition MAX_BLOCK_DEVICES : nat := 16.
Inductive BlockDeviceType :=
  DEVICE_TYPE_UNKNOWN | DEVICE_TYPE_IDE | DEVICE_TYPE_AHCI | DEVICE_TYPE_NVME | DEVICE_TYPE_USB | DEVICE_TYPE_VIRTIO | DEVICE_TYPE_PARTITION.
#[export] Instance BlockDeviceType_eq_dec : EqDecision BlockDeviceType.
Proof. solve_decision. Defined.
Inductive blocks_func := DriverBlocks | PartitionBlocks.
Record BlockDevice := mk_dev {
  id : Z;
  active : bool;
  type : BlockDeviceType;
  block_size : Z;
  total_blocks : Z;
  name : bytes;
  parent : option nat;
  lba_offset : Z;
  read_blocks : option blocks_func;
  write_blocks : option blocks_func
}.
Definition set_active v d := mk_dev (id d) v (type d) (block_size d) (total_blocks d) (name d) (parent d) (lba_offset d) (read_blocks d) (write_blocks d).
Definition set_parent p off d := mk_dev (id d) (active d) (type d) (block_size d) (total_blocks d) (name d) p off (read_blocks d) (write_blocks d).

(** What a disk driver does: the status and the bytes read, or the status of a write. *)
Class RawDisk (H : Type) := {
  raw_read : nat -> Z -> Z -> STM H (Z * bytes);
  raw_write : nat -> Z -> Z -> bytes -> STM H Z
}.
Record disks (H : Type) := mk_disks { g_block_devices : list BlockDevice; g_next_device_id : Z; hardware : H; dheap : list (option bytes) }.
#[global] Arguments mk_disks {H}.
#[global] Arguments g_block_devices {H}.
#[global] Arguments g_next_device_id {H}.
#[global] Arguments hardware {H}.
#[global] Arguments dheap {H}.
Definition set_devices {H} v n (s : disks H) : disks H := mk_disks v n (hardware s) (dheap s).
Definition set_hardware {H} v (s : disks H) : disks H := mk_disks (g_block_devices s) (g_next_device_id s) v (dheap s).
Definition set_dheap {H} v (s : disks H) : disks H := mk_disks (g_block_devices s) (g_next_device_id s) (hardware s) v.

Section disks.
Context {H : Type} `{!RawDisk H}.
Notation B A := (STM (disks H) A).
Definition device (i : nat) : B BlockDevice := fun s => d ← g_block_devices s !! i; Some (d, s).
Definition on_hardware {A} (op : STM H A) : B A := fun s => r ← op (hardware s); Some (r.1, set_hardware r.2 s).
Definition BlockDeviceInit : B unit := fun s => Some (tt, set_devices (set_active false <$> g_block_devices s) 0 s).
(** The new device, or NULL. *)
Definition BlockDeviceRegister (ty : BlockDeviceType) (bsize blocks : Z) (nm : bytes) (rd wr : option blocks_func) : B (option nat) := fun s =>
  let i := g_next_device_id s in
  if Z.of_nat MAX_BLOCK_DEVICES <=? i then Some (None, s) else
  devs ← arr_set (g_block_devices s) i (mk_dev i true ty bsize blocks (str_copy nm (32 - 1)) None 0 rd wr);
  Some (Some (Z.to_nat i), set_devices devs (i + 1) s).
Definition BlockDeviceGet (i : Z) : B (option nat) := fun s =>
  if (i <? 0) || (g_next_device_id s <=? i) then Some (None, s) else
  d ← g_block_devices s !! Z.to_nat i;
  Some (if active d then Some (Z.to_nat i) else None, s).
(** A call of a device's [read_blocks]; a partition passes it on to its parent. *)
Fixpoint call_read (fuel : nat) (i : nat) (start_lba count : Z) : B (Z * bytes) :=
  match fuel with
  | O => fault
  | S fuel' =>
      d ← device i;
      match read_blocks d with
      | None => fault
      | Some DriverBlocks => on_hardware (raw_read i start_lba count)
      | Some PartitionBlocks => (* PartitionReadBlocks *)
          match parent d with
          | None => mret (-1, [])
          | Some p => call_read fuel' p (u64 (lba_offset d + start_lba)) count
          end
      end
  end.
Fixpoint call_write (fuel : nat) (i : nat) (start_lba count : Z) (buffer : bytes) : B Z :=
  match fuel with
  | O => fault
  | S fuel' =>
      d ← device i;
      match write_blocks d with
      | None => fault
      | Some DriverBlocks => on_hardware (raw_write i start_lba count buffer)
      | Some PartitionBlocks => (* PartitionWriteBlocks *)
          match parent d with
          | None => mret (-1)
          | Some p => call_write fuel' p (u64 (lba_offset d + start_lba)) count buffer
          end
      end
  end.
Definition BlockDeviceRead (device_id start_lba count : Z) : B (Z * bytes) :=
  g ← BlockDeviceGet device_id;
  match g with
  | None => mret (-1, [])
  | Some i =>
      d ← device i;
      match read_blocks d with
      | None => mret (-1, [])
      | Some _ => call_read MAX_BLOCK_DEVICES i start_lba count
      end
  end.
Definition BlockDeviceWrite (device_id start_lba count : Z) (buffer : bytes) : B Z :=
  g ← BlockDeviceGet device_id;
  match g with
  | None => mret (-1)
  | Some i =>
      d ← device i;
      match write_blocks d with
      | None => mret (-1)
      | Some _ => call_write MAX_BLOCK_DEVICES i start_lba count buffer
      end
  end.
Fixpoint search_device_loop (n : nat) (i : nat) (nm : bytes) : B (option nat) :=
  match n with
  | O => mret None
  | S n' => d ← device i; if bool_decide (name d = nm) then mret (Some i) else search_device_loop n' (S i) nm
  end.
Definition SearchBlockDevice (nm : bytes) : B (option nat) := n ← asks (fun s => Z.to_nat (g_next_device_id s)); search_device_loop n 0 nm.

(** ** Master boot record *)
Record MBRPartitionEntry := mk_entry { p_status : Z; p_type : Z; lba_start : Z; num_sectors : Z }.
Definition read_entry (e : bytes) : MBRPartitionEntry := mk_entry (byte_at 0 e) (byte_at 4 e) (get32 8 e) (get32 12 e).
Definition partition_entry (mbr : bytes) (i : nat) : MBRPartitionEntry := read_entry (take 16 (drop (446 + 16 * i) mbr)).
Definition boot_signature (mbr : bytes) : Z := get16 510 mbr.
(** ["%s-p%d"]; the buffer starts with old stack contents. *)
Definition part_fmt : bytes := [37; 115; 45; 112; 37; 100].
Definition part_name (nm : bytes) (i : nat) : option bytes :=
  r ← snprintf (Some (replicate 32 0)) 32 part_fmt [VStr (Some nm); VInt (Z.of_nat i + 1)];
  Some (c_string (default [] r.2)).
Definition attach (k : nat) (dev : nat) (off : Z) : B unit := fun s =>
  pd ← g_block_devices s !! k;
  Some (tt, set_devices (<[k := set_parent (Some dev) off pd]> (g_block_devices s)) (g_next_device_id s) s).
Definition parse_entry (i : nat) (dev : nat) (mbr : bytes) : B unit :=
  let p := partition_entry mbr i in
  if negb (p_type p =? 0) && (0 <? num_sectors p) then
    d ← device dev;
    nm ← lift (part_name (name d) i);
    part_dev ← BlockDeviceRegister DEVICE_TYPE_PARTITION (block_size d) (num_sectors p) nm (Some PartitionBlocks) (Some PartitionBlocks);
    match part_dev with
    | None => mret tt
    | Some k => attach k dev (lba_start p)
    end
  else mret tt.
Fixpoint parse_entries (n : nat) (i : nat) (dev : nat) (mbr : bytes) : B unit :=
  match n with
  | O => mret tt
  | S n' => parse_entry i dev mbr;; parse_entries n' (S i) dev mbr
  end.
Definition alloc_block (n : Z) : B (option bytes) := fun s => let r := heap_alloc n (dheap s) in Some (r.1, set_dheap r.2 s).
Definition ParseMBR (dev : nat) : B unit :=
  d ← device dev;
  m ← alloc_block (block_size d);
  match m with
  | None => mret tt
  | Some buf =>
      r ← BlockDeviceRead (id d) 0 1;
      if negb (r.1 =? 0) then mret tt else
      mbr ← lift (mem_write buf 0 r.2);
      _ ← lift (mem_read mbr 0 512);
      if negb (boot_signature mbr =? 43605) then mret tt else parse_entries 4 0 dev mbr
  end.
Definition BlockDeviceDetectAndRegisterPartitions (drive : option nat) : B unit :=
  match drive with
  | None => mret tt
  | Some i => d ← device i; if bool_decide (type d = DEVICE_TYPE_PARTITION) then mret tt else ParseMBR i
  end.
End disks.

(** ** Names of drives ([src/fs/DriveNaming.c]) *)
Record drive_counts := mk_counts { ide_count : Z; ahci_count : Z; nvme_count : Z; virtio_count : Z }.
Definition no_drives : drive_counts := mk_counts 0 0 0 0.
(** ["hd%c"], ["sd%c"], ["nvme%d"], ["vd%c"], ["unk%d"] *)
Definition hd_fmt : bytes := [104; 100; 37; 99].
Definition sd_fmt : bytes := [115; 100; 37; 99].
Definition nvme_fmt : bytes := [110; 118; 109; 101; 37; 100].
Definition vd_fmt : bytes := [118; 100; 37; 99].
Definition unk_fmt : bytes := [117; 110; 107; 37; 100].
(** The buffer after the call, and the counters. *)
Definition GenerateDriveNameInto (ty : BlockDeviceType) (out_name : bytes) (c : drive_counts) : option (bytes * drive_counts) :=
  let print fmt z c' := r ← snprintf (Some out_name) 16 fmt [VInt z]; Some (default [] r.2, c') in
  match ty with
  | DEVICE_TYPE_IDE => print hd_fmt (97 + ide_count c) (mk_counts (i32 (ide_count c + 1)) (ahci_count c) (nvme_count c) (virtio_count c))
  | DEVICE_TYPE_AHCI => print sd_fmt (97 + ahci_count c) (mk_counts (ide_count c) (i32 (ahci_count c + 1)) (nvme_count c) (virtio_count c))
  | DEVICE_TYPE_NVME => print nvme_fmt (nvme_count c) (mk_counts (ide_count c) (ahci_count c) (i32 (nvme_count c + 1)) (virtio_count c))
  | DEVICE_TYPE_VIRTIO => print vd_fmt (97 + virtio_count c) (mk_counts (ide_count c) (ahci_count c) (nvme_count c) (i32 (virtio_count c + 1)))
  | _ => print unk_fmt 0 c
  end.
