(* ===== verification/BlockProps.v ===== *)
(** The table of block devices stays well formed, and a master boot record registers its
    partitions. *)
From Stdlib Require Import ZArith Lia.
From stdpp Require Import base tactics list numbers option.
From S2P Require Import Prelude Format FormatProps BlockTable.

(** ** The table *)
Record device_ok (i : nat) (d : BlockDevice) : Prop := {
  dk_id : id d = Z.of_nat i;
  dk_active : active d = true;
  dk_name : (length (name d) <= 30)%nat /\ Forall (fun c => 0 < c < 256) (name d);
  dk_parent : forall p, parent d = Some p -> (p < i)%nat
}.
Record table_ok {H} (s : disks H) : Prop := {
  tb_len : length (g_block_devices s) = MAX_BLOCK_DEVICES;
  tb_next : 0 <= g_next_device_id s <= Z.of_nat MAX_BLOCK_DEVICES;
  tb_dev : forall i d, Z.of_nat i < g_next_device_id s -> g_block_devices s !! i = Some d -> device_ok i d
}.
(** The name of a partition: the disk's, [-p] and its number. *)
Definition partition_name (nm : bytes) (i : nat) : bytes := take 31 (nm ++ [45; 112; 49 + Z.of_nat i]).
Lemma part_name_ok nm i : Forall (fun c => 0 < c < 256) nm -> (i < 4)%nat -> part_name nm i = Some (partition_name nm i).
Proof.
  intros Hn Hi. assert (E : expand 7 part_fmt [VStr (Some nm); VInt (Z.of_nat i + 1)] = Some (nm ++ [45; 112; 49 + Z.of_nat i])).
  { destruct i as [|[|[|[|]]]]; try lia; cbn; done. }
  unfold part_name, snprintf. rewrite (vsnprintf_run (replicate 32 0) 32 part_fmt _ _ ltac:(lia) ltac:(done) E). rewrite option_bind_Some. cbn [snd default].
  change (Z.to_nat (32 - 1)) with 31%nat. assert (HB : Forall (fun c => 0 < c < 256) (nm ++ [45; 112; 49 + Z.of_nat i])).
  { apply Forall_app. split; [done|]. repeat constructor; lia. }
  rewrite (u8_bytes _ HB). fold (partition_name nm i). f_equal. apply c_string_cut. apply Forall_take. eapply List.Forall_impl; [|exact HB]. cbn. lia.
Qed.

Section mbr.
Context {H : Type} `{!RawDisk H}.
Implicit Types (s : disks H).
(** The partition that entry [e] describes, as device [k]. *)
Definition partition_of (dev : nat) (d : BlockDevice) (mbr : bytes) (k : Z) (e : nat) : BlockDevice :=
  let p := partition_entry mbr e in
  mk_dev k true DEVICE_TYPE_PARTITION (block_size d) (num_sectors p) (take 30 (partition_name (name d) e)) (Some dev) (lba_start p)
    (Some PartitionBlocks) (Some PartitionBlocks).
Definition used_entry (mbr : bytes) (e : nat) : Prop := p_type (partition_entry mbr e) <> 0 /\ 0 < num_sectors (partition_entry mbr e).
#[export] Instance used_entry_dec mbr e : Decision (used_entry mbr e).
Proof. apply and_dec; apply _. Defined.
(** The devices that the entries from [i] on become, from device number [k] on. *)
Fixpoint partitions (dev : nat) (d : BlockDevice) (mbr : bytes) (k : Z) (es : list nat) : list BlockDevice :=
  match es with
  | [] => []
  | e :: es' => partition_of dev d mbr k e :: partitions dev d mbr (k + 1) es'
  end.
(** The table with new devices from the next number on, as many as fit. *)
Definition added s (new : list BlockDevice) : disks H :=
  let n := Z.to_nat (g_next_device_id s) in let fit := take (MAX_BLOCK_DEVICES - n) new in
  set_devices (take n (g_block_devices s) ++ fit ++ drop (n + length fit) (g_block_devices s)) (g_next_device_id s + Z.of_nat (length fit)) s.
Lemma added_nil s : added s [] = s.
Proof. unfold added. rewrite take_nil. cbn [app length]. rewrite Nat.add_0_r, take_drop, Z.add_0_r. by destruct s. Qed.
Lemma insert_as_splice (l : list BlockDevice) n d : (n < length l)%nat -> <[n := d]> l = take n l ++ d :: drop (S n) l.
Proof. intros Hn. apply insert_take_drop. done. Qed.
Lemma added_step s d new : length (g_block_devices s) = MAX_BLOCK_DEVICES -> 0 <= g_next_device_id s < Z.of_nat MAX_BLOCK_DEVICES ->
  let s1 := set_devices (<[Z.to_nat (g_next_device_id s) := d]> (g_block_devices s)) (g_next_device_id s + 1) s in added s1 new = added s (d :: new).
Proof.
  intros HL Hn s1. unfold added, s1. cbn [g_block_devices g_next_device_id set_devices]. set (n := Z.to_nat (g_next_device_id s)).
  replace (Z.to_nat (g_next_device_id s + 1)) with (S n) by lia. destruct (MAX_BLOCK_DEVICES - n)%nat as [|m] eqn:Em; [lia|].
  replace (MAX_BLOCK_DEVICES - S n)%nat with m by lia. cbn [take]. set (fit := take m new). rewrite insert_as_splice by lia.
  assert (Hln : length (take n (g_block_devices s)) = n) by (rewrite length_take; lia). unfold set_devices. cbn [hardware dheap]. f_equal.
  - rewrite (take_app_ge (take n _)), (drop_app_ge (take n _)) by (rewrite Hln; lia). rewrite Hln. replace (S n - n)%nat with 1%nat by lia. replace (S n + length fit - n)%nat with (S (length fit)) by lia.
    cbn [take drop]. rewrite take_0, <- app_assoc. cbn [app]. do 3 f_equal. rewrite drop_drop. f_equal. cbn [length]. lia.
  - cbn [length]. lia.
Qed.
Lemma added_full s new : Z.of_nat MAX_BLOCK_DEVICES <= g_next_device_id s -> added s new = s.
Proof.
  intros Hn. unfold added. replace (MAX_BLOCK_DEVICES - Z.to_nat (g_next_device_id s))%nat with 0%nat by lia. rewrite take_0. cbn [app length].
  rewrite Nat.add_0_r, take_drop, Z.add_0_r. by destruct s.
Qed.
(** One entry. *)
Lemma parse_entry_ok s i dev d mbr : length (g_block_devices s) = MAX_BLOCK_DEVICES -> 0 <= g_next_device_id s -> g_block_devices s !! dev = Some d ->
  Z.of_nat dev < g_next_device_id s -> Forall (fun c => 0 < c < 256) (name d) -> (i < 4)%nat ->
  parse_entry i dev mbr s = Some (tt, if decide (used_entry mbr i) then added s [partition_of dev d mbr (g_next_device_id s) i] else s).
Proof.
  intros HL Hn Hd Hdev Hnm Hi. unfold parse_entry. assert (EU : negb (p_type (partition_entry mbr i) =? 0) && (0 <? num_sectors (partition_entry mbr i)) = bool_decide (used_entry mbr i)).
  { unfold used_entry. destruct (decide (used_entry mbr i)) as [U|U]; [rewrite bool_decide_true by done|rewrite bool_decide_false by done]; unfold used_entry in U.
    - rewrite (proj2 (Z.eqb_neq _ 0)), (proj2 (Z.ltb_lt 0 _)) by lia. done.
    - destruct (Z.eqb_spec (p_type (partition_entry mbr i)) 0); [done|]. rewrite (proj2 (Z.ltb_ge 0 _)) by lia. done. }
  rewrite EU. destruct (decide (used_entry mbr i)) as [U|U]; [rewrite bool_decide_true by done|by rewrite bool_decide_false by done].
  assert (E1 : device dev s = Some (d, s)) by (unfold device; by rewrite Hd). rewrite (run_bind _ _ _ _ _ E1), part_name_ok by done.
  rewrite (run_bind _ _ _ _ _ (eq_refl : lift (Some _) s = Some (_, s))). set (nm := partition_name (name d) i).
  destruct (decide (g_next_device_id s < Z.of_nat MAX_BLOCK_DEVICES)) as [Hlt|Hge].
  2:{ rewrite added_full by lia. assert (E2 : BlockDeviceRegister DEVICE_TYPE_PARTITION (block_size d) (num_sectors (partition_entry mbr i)) nm (Some PartitionBlocks) (Some PartitionBlocks) s = Some (None, s))
        by (unfold BlockDeviceRegister; by rewrite (proj2 (Z.leb_le _ (g_next_device_id s))) by lia). by rewrite (run_bind _ _ _ _ _ E2). }
  set (k := Z.to_nat (g_next_device_id s)). set (nd := mk_dev (g_next_device_id s) true DEVICE_TYPE_PARTITION (block_size d) (num_sectors (partition_entry mbr i)) (str_copy nm (32 - 1)) None 0 (Some PartitionBlocks) (Some PartitionBlocks)).
  set (s1 := set_devices (<[k := nd]> (g_block_devices s)) (g_next_device_id s + 1) s).
  assert (E2 : BlockDeviceRegister DEVICE_TYPE_PARTITION (block_size d) (num_sectors (partition_entry mbr i)) nm (Some PartitionBlocks) (Some PartitionBlocks) s = Some (Some k, s1)).
  { unfold BlockDeviceRegister. rewrite (proj2 (Z.leb_gt _ (g_next_device_id s))) by lia. unfold arr_set. rewrite (proj2 (Z.leb_le 0 _)), (proj2 (Z.ltb_lt _ (Z.of_nat (length _)))) by lia. done. }
  rewrite (run_bind _ _ _ _ _ E2). unfold attach, s1. cbn [g_block_devices g_next_device_id set_devices]. rewrite list_lookup_insert_eq by lia. rewrite option_bind_Some, list_insert_insert_eq.
  rewrite <- added_step, added_nil by lia. done.
Qed.
Lemma parse_entries_ok n i s dev d mbr : length (g_block_devices s) = MAX_BLOCK_DEVICES -> 0 <= g_next_device_id s <= Z.of_nat MAX_BLOCK_DEVICES -> g_block_devices s !! dev = Some d ->
  Z.of_nat dev < g_next_device_id s -> Forall (fun c => 0 < c < 256) (name d) -> (i + n = 4)%nat ->
  parse_entries n i dev mbr s = Some (tt, added s (partitions dev d mbr (g_next_device_id s) (filter (used_entry mbr) (seq i n)))).
Proof.
  revert i s. induction n as [|n IH]; intros i s HL Hn Hd Hdev Hnm Hi; cbn [parse_entries seq]; [cbn; by rewrite added_nil|].
  rewrite (run_bind _ _ _ _ _ (parse_entry_ok s i dev d mbr HL ltac:(lia) Hd Hdev Hnm ltac:(lia))).
  destruct (decide (used_entry mbr i)) as [U|U]; [rewrite filter_cons_True by done|rewrite filter_cons_False by done; apply IH; try done; lia].
  destruct (decide (g_next_device_id s < Z.of_nat MAX_BLOCK_DEVICES)) as [Hlt|Hge].
  - assert (E : added s [partition_of dev d mbr (g_next_device_id s) i] = set_devices (<[Z.to_nat (g_next_device_id s) := partition_of dev d mbr (g_next_device_id s) i]> (g_block_devices s)) (g_next_device_id s + 1) s)
      by (by rewrite <- added_step, added_nil by lia).
    rewrite E. cbn [partitions]. rewrite <- added_step by lia. apply IH; cbn [g_block_devices g_next_device_id set_devices]; try done; [by rewrite length_insert|lia| |lia|lia].
    rewrite list_lookup_insert_ne by lia. done.
  - rewrite added_full by lia. rewrite IH, !added_full by (done || lia). done.
Qed.
Lemma partitions_lookup dev d mbr k es j x : partitions dev d mbr k es !! j = Some x -> exists e, es !! j = Some e /\ x = partition_of dev d mbr (k + Z.of_nat j) e.
Proof.
  revert k j. induction es as [|e es IH]; intros k j; [done|]. cbn [partitions]. destruct j as [|j].
  - intros [= <-]. exists e. split; [done|]. f_equal. lia.
  - intros Hj. destruct (IH (k + 1) j Hj) as (e' & He & ->). exists e'. split; [done|]. f_equal. lia.
Qed.
Lemma added_lookup s new i : length (g_block_devices s) = MAX_BLOCK_DEVICES -> 0 <= g_next_device_id s <= Z.of_nat MAX_BLOCK_DEVICES ->
  let n := Z.to_nat (g_next_device_id s) in
  g_block_devices (added s new) !! i = if decide (n <= i < n + length (take (MAX_BLOCK_DEVICES - n) new))%nat then new !! (i - n)%nat else g_block_devices s !! i.
Proof.
  intros HL Hn n. unfold added. cbn [g_block_devices set_devices]. fold n. set (fit := take (MAX_BLOCK_DEVICES - n) new).
  assert (Hln : length (take n (g_block_devices s)) = n) by (rewrite length_take; lia). destruct (decide _) as [Hi|Hi].
  - rewrite lookup_app_r, Hln, lookup_app_l by (rewrite ?Hln; lia). apply lookup_take_lt. unfold fit in Hi. rewrite length_take in Hi. lia.
  - destruct (decide (i < n)%nat); [rewrite lookup_app_l by lia; by apply lookup_take_lt|]. rewrite lookup_app_r, Hln, lookup_app_r by (rewrite ?Hln; lia). rewrite lookup_drop. f_equal. lia.
Qed.
Lemma added_ok s new : table_ok s -> (forall j d, new !! j = Some d -> device_ok (Z.to_nat (g_next_device_id s) + j) d) -> table_ok (added s new).
Proof.
  intros HT Hnew. pose proof (tb_len _ HT) as HL. pose proof (tb_next _ HT) as Hn. set (n := Z.to_nat (g_next_device_id s)) in *.
  set (fit := take (MAX_BLOCK_DEVICES - n) new). assert (Hf : (length fit <= MAX_BLOCK_DEVICES - n)%nat) by (unfold fit; rewrite length_take; lia). split.
  - unfold added. cbn [g_block_devices set_devices]. fold n fit. rewrite !length_app, length_take, length_drop. lia.
  - unfold added. cbn [g_next_device_id set_devices]. fold n fit. lia.
  - intros i d Hi. assert (Hi' : Z.of_nat i < g_next_device_id s + Z.of_nat (length fit)) by exact Hi. rewrite (added_lookup s new i HL Hn). fold n fit. destruct (decide _) as [Hin|Hout].
    + intros Hd. replace i with (n + (i - n))%nat by lia. by apply Hnew.
    + apply (tb_dev _ HT). lia.
Qed.
Lemma partition_ok s dev d mbr es j x : table_ok s -> g_block_devices s !! dev = Some d -> Z.of_nat dev < g_next_device_id s -> Forall (fun e => e < 4)%nat es ->
  partitions dev d mbr (g_next_device_id s) es !! j = Some x -> device_ok (Z.to_nat (g_next_device_id s) + j) x.
Proof.
  intros HT Hd Hdev Hes Hj. destruct (partitions_lookup _ _ _ _ _ _ _ Hj) as (e & He & ->). pose proof (tb_next _ HT). destruct (dk_name _ _ (tb_dev _ HT _ _ Hdev Hd)) as [_ Hnm].
  apply (Forall_lookup_1 _ _ _ _ Hes) in He. split; cbn.
  - lia.
  - done.
  - split; [rewrite length_take; lia|]. apply Forall_take. unfold partition_name. apply Forall_take, Forall_app. split; [done|]. repeat constructor; lia.
  - intros p [= <-]. lia.
Qed.
(** A read of a partition is a read of its disk, at the partition's offset. *)
Lemma partition_read s k d p dp lba n : table_ok s -> g_block_devices s !! k = Some d -> Z.of_nat k < g_next_device_id s -> read_blocks d = Some PartitionBlocks -> parent d = Some p ->
  g_block_devices s !! p = Some dp -> read_blocks dp = Some DriverBlocks ->
  BlockDeviceRead (Z.of_nat k) lba n s = BlockDeviceRead (Z.of_nat p) (u64 (lba_offset d + lba)) n s.
Proof.
  intros HT Hd Hk Hr Hp Hdp Hrp. pose proof (dk_parent _ _ (tb_dev _ HT _ _ Hk Hd) _ Hp) as Hlt.
  assert (G : forall j x, g_block_devices s !! j = Some x -> Z.of_nat j < g_next_device_id s -> BlockDeviceGet (Z.of_nat j) s = Some (Some j, s) /\ device j s = Some (x, s)).
  { intros j x Hx Hj. unfold BlockDeviceGet, device. rewrite (proj2 (Z.ltb_ge _ 0)), (proj2 (Z.leb_gt _ (Z.of_nat j))), Nat2Z.id, Hx by lia. cbn [orb]. rewrite !option_bind_Some.
    by rewrite (dk_active _ _ (tb_dev _ HT _ _ Hj Hx)). }
  destruct (G k d Hd Hk) as [G1 G2]. destruct (G p dp Hdp ltac:(lia)) as [G3 G4]. unfold BlockDeviceRead.
  rewrite (run_bind _ _ _ _ _ G1), (run_bind _ _ _ _ _ G2), Hr, (run_bind _ _ _ _ _ G3), (run_bind _ _ _ _ _ G4), Hrp.
  change MAX_BLOCK_DEVICES with (S (S 14)). cbn [call_read]. rewrite (run_bind _ _ _ _ _ G2), Hr, Hp, !(run_bind _ _ _ _ _ G4), Hrp. done.
Qed.
Lemma heap_block n h : 0 < n -> ~ None ∈ h -> exists b h', heap_alloc n h = (Some b, h') /\ Z.of_nat (length b) = n.
Proof.
  intros Hn Hh. unfold heap_alloc. rewrite (proj2 (Z.eqb_neq n 0)) by lia. destruct h as [|[g|] h']; [| |exfalso; apply Hh; by constructor].
  - exists (replicate (Z.to_nat n) 0), []. split; [done|]. rewrite length_replicate. lia.
  - exists (resize (Z.to_nat n) 0 g), h'. split; [done|]. rewrite length_resize. lia.
Qed.
Lemma ParseMBR_run s dev d mbr hw : table_ok s -> g_block_devices s !! dev = Some d -> Z.of_nat dev < g_next_device_id s -> read_blocks d = Some DriverBlocks -> block_size d = 512 ->
  ~ None ∈ dheap s -> raw_read dev 0 1 (hardware s) = Some ((0, mbr), hw) -> length mbr = 512%nat ->
  exists h, ParseMBR dev s = Some (tt, let s0 := set_hardware hw (set_dheap h s) in
    if boot_signature mbr =? 43605 then added s0 (partitions dev d mbr (g_next_device_id s) (filter (used_entry mbr) (seq 0 4))) else s0).
Proof.
  intros HT Hd Hdev Hr Hbs Hh Hraw Hl. pose proof (tb_dev _ HT _ _ Hdev Hd) as HD. destruct (heap_block 512 (dheap s) ltac:(lia) Hh) as (b & h & EA & Hb). exists h.
  unfold ParseMBR. assert (E1 : device dev s = Some (d, s)) by (unfold device; by rewrite Hd). rewrite (run_bind _ _ _ _ _ E1), Hbs.
  assert (E2 : alloc_block 512 s = Some (Some b, set_dheap h s)) by (unfold alloc_block; by rewrite EA). rewrite (run_bind _ _ _ _ _ E2).
  assert (E3 : BlockDeviceRead (id d) 0 1 (set_dheap h s) = Some ((0, mbr), set_hardware hw (set_dheap h s))).
  { rewrite (dk_id _ _ HD). unfold BlockDeviceRead. assert (G : BlockDeviceGet (Z.of_nat dev) (set_dheap h s) = Some (Some dev, set_dheap h s)).
    { unfold BlockDeviceGet. cbn [g_next_device_id g_block_devices set_dheap]. rewrite (proj2 (Z.ltb_ge _ 0)), (proj2 (Z.leb_gt _ (Z.of_nat dev))), Nat2Z.id, Hd by lia. cbn [orb]. rewrite option_bind_Some. by rewrite (dk_active _ _ HD). }
    assert (E1' : device dev (set_dheap h s) = Some (d, set_dheap h s)) by (unfold device; cbn; by rewrite Hd).
    rewrite (run_bind _ _ _ _ _ G), (run_bind _ _ _ _ _ E1'), Hr. change MAX_BLOCK_DEVICES with (S 15). cbn [call_read]. rewrite (run_bind _ _ _ _ _ E1'), Hr. unfold on_hardware. cbn [hardware set_dheap]. by rewrite Hraw. }
  rewrite (run_bind _ _ _ _ _ E3). cbn [fst snd]. change (negb (0 =? 0)) with false. cbv iota. set (s0 := set_hardware hw (set_dheap h s)).
  assert (EM : mem_write b 0 mbr = Some mbr).
  { unfold mem_write. rewrite (proj2 (Z.leb_le 0 0)), (proj2 (Z.leb_le _ _)) by lia. cbn [andb Z.to_nat take app]. rewrite drop_ge, app_nil_r by lia. done. }
  rewrite EM, (run_bind _ _ _ _ _ (eq_refl : lift (Some mbr) s0 = Some (_, s0))).
  assert (EM2 : exists x, mem_read mbr 0 512 = Some x) by (unfold mem_read; rewrite (proj2 (Z.leb_le 0 0)), (proj2 (Z.leb_le _ _)) by lia; by eexists). destruct EM2 as [x EM2].
  rewrite EM2, (run_bind _ _ _ _ _ (eq_refl : lift (Some x) s0 = Some (_, s0))). destruct (boot_signature mbr =? 43605); [|done]. cbn [negb].
  rewrite (parse_entries_ok 4 0 s0 dev d mbr (tb_len _ HT) (tb_next _ HT) Hd Hdev (proj2 (dk_name _ _ HD)) eq_refl). done.
Qed.
End mbr.

(** ** A disk with one master boot record, for the witness *)
Definition entry_bytes (ty : Z) (start count : bytes) : bytes := [0; 0; 0; 0; ty; 0; 0; 0] ++ start ++ count.
Definition demo_mbr : bytes :=
  replicate 446 0 ++ entry_bytes 131 [0; 8; 0; 0] [0; 16; 0; 0] ++ entry_bytes 0 [0; 0; 0; 0] [0; 0; 0; 0] ++
  entry_bytes 12 [0; 24; 0; 0] [0; 32; 0; 0] ++ entry_bytes 7 [0; 0; 0; 0] [0; 0; 0; 0] ++ [85; 170].
#[export] Instance demo_disk : RawDisk unit := {
  raw_read _ lba count := fun s => Some ((0, if lba =? 0 then demo_mbr else replicate 512 (u8 lba)), s);
  raw_write _ _ _ _ := fun s => Some (0, s)
}.
Definition hd0 : BlockDevice := mk_dev 0 true DEVICE_TYPE_IDE 512 100000 [104; 100; 48] None 0 (Some DriverBlocks) (Some DriverBlocks).
Definition no_device : BlockDevice := mk_dev 0 false DEVICE_TYPE_UNKNOWN 0 0 [] None 0 None None.
Definition demo_table : disks unit := mk_disks (hd0 :: replicate 15 no_device) 1 tt [].
Lemma demo_table_ok : table_ok demo_table.
Proof.
  split; [done|split; vm_compute; discriminate|]. intros i d Hi. cbn in Hi. destruct i as [|i]; [|lia]. intros [= <-]. split; [done|done| |done]. split; [cbn; lia|]. repeat constructor; lia.
Qed.

(** C36. A master boot record registers its partitions.  For a disk of 512-byte blocks in a
    well-formed table (device numbers are their places, parents come first, names fit), whose
    first sector the driver reads as [mbr], [ParseMBR] runs to its end and keeps the table well
    formed.  With the signature 0xAA55 the entries of a type and size other than 0 become, in
    their order and as long as the table has room, partitions of the disk with the entry's start
    and size, named after it; without the signature none does; every other entry of the table is
    as it was.  Reading a partition is reading the disk at the partition's start plus the block
    number, whatever the block number: the size of the partition is not looked at. *)
Theorem ParseMBR_registers {H} `{!RawDisk H} (s : disks H) dev d mbr hw : table_ok s -> g_block_devices s !! dev = Some d -> Z.of_nat dev < g_next_device_id s ->
  read_blocks d = Some DriverBlocks -> block_size d = 512 -> ~ None ∈ dheap s -> raw_read dev 0 1 (hardware s) = Some ((0, mbr), hw) -> length mbr = 512%nat ->
  let n := Z.to_nat (g_next_device_id s) in
  let parts := if boot_signature mbr =? 43605 then partitions dev d mbr (g_next_device_id s) (filter (used_entry mbr) (seq 0 4)) else [] in
  let fit := take (MAX_BLOCK_DEVICES - n) parts in
  exists s', ParseMBR dev s = Some (tt, s') /\ table_ok s' /\ g_next_device_id s' = g_next_device_id s + Z.of_nat (length fit) /\
    (forall i, g_block_devices s' !! i = if decide (n <= i < n + length fit)%nat then parts !! (i - n)%nat else g_block_devices s !! i) /\
    forall j x lba count, fit !! j = Some x ->
      BlockDeviceRead (Z.of_nat (n + j)) lba count s' = BlockDeviceRead (Z.of_nat dev) (u64 (lba_offset x + lba)) count s'.
Proof.
  intros HT Hd Hdev Hr Hbs Hh Hraw Hl n parts fit. destruct (ParseMBR_run s dev d mbr hw HT Hd Hdev Hr Hbs Hh Hraw Hl) as (h & E). set (s0 := set_hardware hw (set_dheap h s)) in E. cbv zeta in E.
  assert (HT0 : table_ok s0) by (destruct HT; by split). exists (added s0 parts). split; [rewrite E; unfold parts; by destruct (_ =? _); rewrite ?added_nil|].
  assert (Hparts : forall j x, parts !! j = Some x -> device_ok (n + j) x /\ parent x = Some dev /\ read_blocks x = Some PartitionBlocks).
  { intros j x Hx. unfold parts in Hx. destruct (_ =? _); [|done]. split.
    - refine (partition_ok s dev d mbr _ j x HT Hd Hdev _ Hx). apply list.Forall_forall. intros e He. apply list_elem_of_filter in He as [_ He]. apply elem_of_seq in He. lia.
    - destruct (partitions_lookup _ _ _ _ _ _ _ Hx) as (e & _ & ->). done. }
  assert (HT' : table_ok (added s0 parts)) by (apply added_ok; [done|]; intros j x Hx; by apply Hparts). split; [done|]. split; [done|].
  pose proof (added_lookup s0 parts) as HL. cbv zeta in HL. assert (HL' : forall i, g_block_devices (added s0 parts) !! i = if decide (n <= i < n + length fit)%nat then parts !! (i - n)%nat else g_block_devices s !! i)
    by (intros i; apply (HL i (tb_len _ HT) (tb_next _ HT))). split; [exact HL'|].
  intros j x lba count Hx. assert (Hj : (j < length fit)%nat) by (by eapply lookup_lt_Some). pose proof (tb_next _ HT) as Hn.
  assert (Hpx : parts !! j = Some x) by (unfold fit in Hx, Hj; rewrite length_take in Hj; by rewrite lookup_take_lt in Hx by lia). destruct (Hparts j x Hpx) as (_ & Hp & Hrx).
  eapply partition_read; [done| | |exact Hrx|exact Hp| |exact Hr].
  - clear -Hj HL' Hpx. clearbody n. rewrite HL', decide_True by lia. by replace (n + j - n)%nat with j by lia.
  - change (g_next_device_id (added s0 parts)) with (g_next_device_id s + Z.of_nat (length fit)). unfold n. lia.
  - assert (Hdn : (dev < n)%nat) by lia. rewrite HL', decide_False by lia. exact Hd.
Qed.
(** Entries 1 and 3 of the record above become devices 1 and 2. *)
Lemma ParseMBR_registers_witness : exists s', ParseMBR 0 demo_table = Some (tt, s') /\ table_ok s' /\ g_next_device_id s' = 3 /\
  (exists x, g_block_devices s' !! 2%nat = Some x /\ lba_offset x = 6144 /\ total_blocks x = 8192 /\ name x = [104; 100; 48; 45; 112; 51]) /\
  BlockDeviceRead 2 1 1 s' = BlockDeviceRead 0 6145 1 s'.
Proof.
  destruct (ParseMBR_registers demo_table 0 hd0 demo_mbr tt demo_table_ok eq_refl) as (s' & E & HT & Hn & HL & HR); [cbn; lia|reflexivity|reflexivity|apply not_elem_of_nil|vm_compute; reflexivity|vm_compute; reflexivity|].
  exists s'. split; [exact E|]. split; [exact HT|]. split; [exact Hn|]. split.
  - exists (partition_of 0 hd0 demo_mbr 2 2). split; [|split; [vm_compute; reflexivity|split; vm_compute; reflexivity]]. etransitivity; [exact (HL 2%nat)|]. vm_compute. reflexivity.
  - etransitivity; [exact (HR 1%nat (partition_of 0 hd0 demo_mbr 2 2) 1 1 ltac:(vm_compute; reflexivity))|]. apply (f_equal (fun z => BlockDeviceRead 0 z 1 s')). vm_compute. reflexivity.
Defined.

(** ** Names of drives *)
(** The name that the next drive of a type gets. *)
Definition drive_name (ty : BlockDeviceType) (c : drive_counts) : bytes :=
  match ty with
  | DEVICE_TYPE_IDE => [104; 100; 97 + ide_count c]
  | DEVICE_TYPE_AHCI => [115; 100; 97 + ahci_count c]
  | DEVICE_TYPE_NVME => [110; 118; 109; 101; 48 + nvme_count c]
  | DEVICE_TYPE_VIRTIO => [118; 100; 97 + virtio_count c]
  | _ => [117; 110; 107; 48]
  end.
Definition few_drives (c : drive_counts) : Prop := 0 <= ide_count c < 26 /\ 0 <= ahci_count c < 26 /\ 0 <= nvme_count c < 10 /\ 0 <= virtio_count c < 26.
Lemma print_name out fmt z text : (16 <= length out)%nat -> expand (S (length fmt)) fmt [VInt z] = Some text -> (length text <= 15)%nat -> Forall (fun c => 0 < c < 256) text ->
  exists b, snprintf (Some out) 16 fmt [VInt z] = Some (Z.of_nat (length text), Some b) /\ c_string b = text.
Proof.
  intros Ho E Hl Ht. unfold snprintf. rewrite (vsnprintf_run out 16 fmt _ _ ltac:(lia) ltac:(lia) E), (u8_bytes _ Ht), take_ge by (cbn; lia). eexists. split; [done|].
  apply c_string_cut. eapply List.Forall_impl; [|exact Ht]. cbn. lia.
Qed.
(** While there are few drives the name is the type's letters and the drive's own letter or digit,
    so drives of a type get different names, and only their counter moves. *)
Lemma GenerateDriveNameInto_ok ty out c : (16 <= length out)%nat -> few_drives c ->
  exists b c', GenerateDriveNameInto ty out c = Some (b, c') /\ c_string b = drive_name ty c /\
    (ty ∈ [DEVICE_TYPE_IDE; DEVICE_TYPE_AHCI; DEVICE_TYPE_NVME; DEVICE_TYPE_VIRTIO] -> drive_name ty c' <> drive_name ty c) /\
    (forall ty', ty' <> ty -> drive_name ty' c' = drive_name ty' c).
Proof.
  intros Ho (H1 & H2 & H3 & H4). assert (I : forall z, 0 <= z < 26 -> i32 (z + 1) = z + 1) by (intros z Hz; unfold i32; rewrite u32_small by lia; by rewrite (proj2 (Z.ltb_lt _ _)) by lia).
  assert (ND : nvme_count c = 0 \/ nvme_count c = 1 \/ nvme_count c = 2 \/ nvme_count c = 3 \/ nvme_count c = 4 \/ nvme_count c = 5 \/ nvme_count c = 6 \/
    nvme_count c = 7 \/ nvme_count c = 8 \/ nvme_count c = 9) by lia.
  assert (HN : expand (S (length nvme_fmt)) nvme_fmt [VInt (nvme_count c)] = Some (drive_name DEVICE_TYPE_NVME c)).
  { unfold drive_name. by destruct ND as [->|[->|[->|[->|[->|[->|[->|[->|[->| ->]]]]]]]]]. }
  assert (G : forall fmt z (c' : drive_counts), expand (S (length fmt)) fmt [VInt z] = Some (drive_name ty c) -> (length (drive_name ty c) <= 15)%nat -> Forall (fun c => 0 < c < 256) (drive_name ty c) ->
    exists b, (r ← snprintf (Some out) 16 fmt [VInt z]; Some (default [] r.2, c')) = Some (b, c') /\ c_string b = drive_name ty c).
  { intros fmt z c' E Hl Hf. destruct (print_name out fmt z _ Ho E Hl Hf) as (b & -> & Hb). by exists b. }
  assert (HF : Forall (fun c => 0 < c < 256) (drive_name ty c)) by (destruct ty; repeat constructor; lia).
  assert (HL : (length (drive_name ty c) <= 15)%nat) by (destruct ty; cbn; lia).
  assert (HE : exists fmt z c', GenerateDriveNameInto ty out c = (r ← snprintf (Some out) 16 fmt [VInt z]; Some (default [] r.2, c')) /\
    expand (S (length fmt)) fmt [VInt z] = Some (drive_name ty c) /\
    (ty ∈ [DEVICE_TYPE_IDE; DEVICE_TYPE_AHCI; DEVICE_TYPE_NVME; DEVICE_TYPE_VIRTIO] -> drive_name ty c' <> drive_name ty c) /\
    (forall ty', ty' <> ty -> drive_name ty' c' = drive_name ty' c)).
  { destruct ty; (eexists _, _, _; split; [reflexivity|]; split; [first [exact HN|done]|]; split; [|by intros []]); try (intros Hty; by rewrite !elem_of_cons in Hty; destruct Hty as [|[|[|[|[]%elem_of_nil]]]]).
    all: intros _; cbn; rewrite I by lia; intros [=]; lia. }
  destruct HE as (fmt & z & c' & -> & E & Hd). destruct (G fmt z c' E HL HF) as (b & Eb & Hb). exists b, c'. done.
Qed.
