(* ===== verification/Vfs.v ===== *)
(** The virtual file system layer ([src/fs/VFS.c], with [src/fs/FileSystem.c]): the mount table
    and the dispatch of file operations to the file system that owns a path.

    A mount without a driver is the in-memory file system, whose model is used as it is.  The
    other file systems are reached through the class [Drivers]: for each driver the operations
    that the layer calls, on a state [X] that the layer does not look into.  Pointers into the
    mount table are indices.  [heap] gives the outcomes of the coming calls of
    [KernelMemoryAlloc]: NULL, or a block with its old contents. *)
From Stdlib Require Import ZArith Lia.
From stdpp Require Import base tactics list numbers option.
From S2P Require Import Prelude Vfrfs.

(** ** Mounts and drivers *)
Definition VFS_MAX_MOUNTS : nat := 8.
Inductive fs_driver := FAT1x | EXT2 | NTFS | DevFS | ProcFS.
#[export] Instance fs_driver_eq_dec : EqDecision fs_driver.
Proof. solve_decision. Defined.
Record VfsMountStruct := mk_mount { mount_point : bytes; m_device : option nat; m_driver : option fs_driver; m_active : bool }.
Definition no_mount : VfsMountStruct := mk_mount [] None None false.

(** What the layer calls of a driver; a driver without [unmount] has a NULL there. *)
Record driver_ops (X : Type) := mk_driver {
  set_active_device : option nat -> X -> X;
  drv_read : bytes -> Z -> STM X (Z * bytes);
  drv_write : bytes -> bytes -> Z -> STM X Z;
  drv_list : bytes -> STM X Z;
  drv_create_file : bytes -> STM X Z;
  drv_create_dir : bytes -> STM X Z;
  drv_delete : bytes -> STM X Z;
  drv_delete_recursive : bytes -> STM X Z;
  drv_is_dir : bytes -> STM X Z;
  drv_is_file : bytes -> STM X Z;
  drv_size : bytes -> STM X Z;
  drv_unmount : option (option nat -> STM X Z)
}.
#[global] Arguments set_active_device {X}.
#[global] Arguments drv_read {X}.
#[global] Arguments drv_write {X}.
#[global] Arguments drv_list {X}.
#[global] Arguments drv_create_file {X}.
#[global] Arguments drv_create_dir {X}.
#[global] Arguments drv_delete {X}.
#[global] Arguments drv_delete_recursive {X}.
#[global] Arguments drv_is_dir {X}.
#[global] Arguments drv_is_file {X}.
#[global] Arguments drv_size {X}.
#[global] Arguments drv_unmount {X}.
Class Drivers (X : Type) := driver : fs_driver -> driver_ops X.

Record vfs (X : Type) := mk_vfs {
  mounts : list VfsMountStruct;
  ramfs : fs;
  drivers : X;
  heap : list (option bytes)
}.
#[global] Arguments mk_vfs {X}.
#[global] Arguments mounts {X}.
#[global] Arguments ramfs {X}.
#[global] Arguments drivers {X}.
#[global] Arguments heap {X}.
Definition set_mounts {X} (v : list VfsMountStruct) (w : vfs X) : vfs X := mk_vfs v (ramfs w) (drivers w) (heap w).
Definition set_ramfs {X} (v : fs) (w : vfs X) : vfs X := mk_vfs (mounts w) v (drivers w) (heap w).
Definition set_drivers {X} (v : X) (w : vfs X) : vfs X := mk_vfs (mounts w) (ramfs w) v (heap w).
Definition set_heap {X} (v : list (option bytes)) (w : vfs X) : vfs X := mk_vfs (mounts w) (ramfs w) (drivers w) v.

(** ** Finding the mount of a path *)
Definition fast_strlen (s : bytes) (max : nat) : nat := Nat.min (length s) max.
(** [path] starts with the mount point and ends there, or a slash follows. *)
Definition mount_matches (path mp : bytes) : bool :=
  let mount_len := fast_strlen mp 64 in
  (mount_len <=? fast_strlen path 256)%nat && bool_decide (take mount_len path = take mount_len mp) &&
  ((mount_len =? 1)%nat || (byte_at mount_len path =? slash) || (byte_at mount_len path =? 0)).
Fixpoint find_mount_loop (ms : list VfsMountStruct) (i : nat) (path : bytes) (best_match : option nat) (best_len : nat) : option nat :=
  match ms with
  | [] => best_match
  | m :: ms' =>
      if negb (m_active m) then find_mount_loop ms' (S i) path best_match best_len else
      let mount_len := fast_strlen (mount_point m) 64 in
      if mount_matches path (mount_point m) && (best_len <? mount_len)%nat
      then find_mount_loop ms' (S i) path (Some i) mount_len
      else find_mount_loop ms' (S i) path best_match best_len
  end.
Definition find_mount (ms : list VfsMountStruct) (path : bytes) : option nat := find_mount_loop ms 0 path None 0.
Definition VfsStripMount (path : bytes) (m : VfsMountStruct) : bytes :=
  let mount_len := fast_strlen (mount_point m) 64 in
  if (mount_len =? 1)%nat && (byte_at 0 (mount_point m) =? slash) then path else
  match drop mount_len path with
  | [] => [slash]
  | c :: p => if c =? slash then c :: p else path
  end.

Section vfs.
Context {X : Type} `{!Drivers X} (realloc : bytes -> Z -> option (option bytes)) (pid : Z).
Definition on_ram {A} (op : STM fs A) : STM (vfs X) A := fun w => r ← op (ramfs w); Some (r.1, set_ramfs r.2 w).
Definition on_driver {A} (op : STM X A) : STM (vfs X) A := fun w => r ← op (drivers w); Some (r.1, set_drivers r.2 w).
Definition set_active (d : fs_driver) (dev : option nat) : STM (vfs X) unit :=
  fun w => Some (tt, set_drivers (set_active_device (driver d) dev (drivers w)) w).
Definition VfsFindMount (path : bytes) : STM (vfs X) (option VfsMountStruct) :=
  asks (fun w => i ← find_mount (mounts w) path; mounts w !! i).
(** The mount of a path and the path inside it. *)
Definition locate (path : bytes) : STM (vfs X) (option (VfsMountStruct * bytes)) :=
  m ← VfsFindMount path; mret (m ← m; Some (m, VfsStripMount path m)).

(** The size and the contents of a file node. *)
Definition ram_file (path : bytes) : STM (vfs X) (option FsNode) :=
  on_ram (fun s => r ← FsFind path s;
    match r with
    | None => Some (None, s)
    | Some i => n ← get_node i s; Some (Some n, s)
    end).
Definition is_type (t : FsNodeType) (n : option FsNode) : bool := match n with Some n => bool_decide (ntype n = t) | None => false end.

Definition VfsReadFile (path : bytes) (max_size : Z) : STM (vfs X) (Z * bytes) :=
  l ← locate path;
  match l with
  | None => mret (-1, [])
  | Some (m, local_path) =>
      match m_driver m with
      | Some d =>
          match d with
          | FAT1x | EXT2 | NTFS => set_active d (m_device m);; on_driver (drv_read (driver d) local_path max_size)
          | DevFS | ProcFS => on_driver (drv_read (driver d) local_path max_size)
          end
      | None =>
          n ← ram_file local_path;
          match n with
          | Some n =>
              if negb (bool_decide (ntype n = FS_FILE)) then mret (-1, []) else
              if size n =? 0 then mret (0, []) else
              match data n with
              | None => mret (0, [])
              | Some d =>
                  let copy_size := if size n <? max_size then size n else max_size in
                  b ← lift (mem_read d 0 copy_size); mret (i32 copy_size, b)
              end
          | None => mret (-1, [])
          end
      end
  end.
Definition VfsWriteFile (path buffer : bytes) (size : Z) : STM (vfs X) Z :=
  l ← locate path;
  match l with
  | None => mret (-1)
  | Some (m, local_path) =>
      match m_driver m with
      | Some d =>
          match d with
          | FAT1x | EXT2 | NTFS => set_active d (m_device m);; on_driver (drv_write (driver d) local_path buffer size)
          | DevFS | ProcFS => on_driver (drv_write (driver d) local_path buffer size)
          end
      | None =>
          fd ← on_ram (FsOpen local_path FS_WRITE pid);
          if fd <? 0 then mret (-1) else
          b ← lift (mem_read buffer 0 size);
          result ← on_ram (FsWrite realloc fd b);
          _ ← on_ram (FsClose fd);
          mret result
      end
  end.
Definition VfsListDir (path : bytes) : STM (vfs X) Z :=
  l ← locate path;
  match l with
  | None => mret (-1)
  | Some (m, local_path) =>
      match m_driver m with
      | Some d =>
          match d with
          | FAT1x | EXT2 | NTFS => set_active d (m_device m);; on_driver (drv_list (driver d) local_path)
          | DevFS | ProcFS => on_driver (drv_list (driver d) local_path)
          end
      | None => on_ram (fun s => r ← FsListDir local_path s; Some (r.1, s))
      end
  end.
Definition VfsCreateFile (path : bytes) : STM (vfs X) Z :=
  l ← locate path;
  match l with
  | None => mret (-1)
  | Some (m, local_path) =>
      match m_driver m with
      | Some d =>
          match d with
          | FAT1x | EXT2 | NTFS => set_active d (m_device m);; on_driver (drv_create_file (driver d) local_path)
          | DevFS | ProcFS => mret (-1)
          end
      | None =>
          fd ← on_ram (FsOpen local_path FS_WRITE pid);
          if fd <? 0 then mret (-1) else _ ← on_ram (FsClose fd); mret 0
      end
  end.
Definition VfsCreateDir (path : bytes) : STM (vfs X) Z :=
  l ← locate path;
  match l with
  | None => mret (-1)
  | Some (m, local_path) =>
      match m_driver m with
      | Some d =>
          match d with
          | FAT1x | EXT2 | NTFS => set_active d (m_device m);; on_driver (drv_create_dir (driver d) local_path)
          | DevFS | ProcFS => mret (-1)
          end
      | None => on_ram (FsMkdir local_path)
      end
  end.
Definition VfsDelete (path : bytes) (Recursive : bool) : STM (vfs X) Z :=
  l ← locate path;
  match l with
  | None => mret (-1)
  | Some (m, local_path) =>
      match m_driver m with
      | Some d =>
          match d with
          | FAT1x => set_active d (m_device m);;
                     on_driver (if Recursive then drv_delete_recursive (driver d) local_path else drv_delete (driver d) local_path)
          | EXT2 | NTFS => set_active d (m_device m);; on_driver (drv_delete (driver d) local_path)
          | DevFS | ProcFS => mret (-1)
          end
      | None => on_ram (if Recursive then FsDeleteRecursive local_path else FsDelete local_path)
      end
  end.
Definition is_mount_point (path : bytes) (w : vfs X) : bool := existsb (fun m => m_active m && bool_decide (mount_point m = path)) (mounts w).
Definition VfsIsDir (path : bytes) : STM (vfs X) Z :=
  mp ← asks (is_mount_point path);
  if mp : bool then mret 1 else
  l ← locate path;
  match l with
  | None => mret 0
  | Some (m, local_path) =>
      match m_driver m with
      | Some d =>
          match d with
          | FAT1x | EXT2 | NTFS => set_active d (m_device m);; on_driver (drv_is_dir (driver d) local_path)
          | DevFS | ProcFS => on_driver (drv_is_dir (driver d) local_path)
          end
      | None => n ← ram_file local_path; mret (if is_type FS_DIRECTORY n then 1 else 0)
      end
  end.
(** For FAT1x the active device is left as it is. *)
Definition VfsIsFile (path : bytes) : STM (vfs X) Z :=
  mp ← asks (is_mount_point path);
  if mp : bool then mret 0 else
  l ← locate path;
  match l with
  | None => mret 0
  | Some (m, local_path) =>
      match m_driver m with
      | Some d =>
          match d with
          | FAT1x => n ← on_driver (drv_size (driver d) local_path); mret (if 0 <? n then 1 else 0)
          | EXT2 | NTFS => set_active d (m_device m);; on_driver (drv_is_file (driver d) local_path)
          | DevFS | ProcFS => mret 0
          end
      | None => n ← ram_file local_path; mret (if is_type FS_FILE n then 1 else 0)
      end
  end.
Definition VfsGetFileSize (path : bytes) : STM (vfs X) Z :=
  l ← locate path;
  match l with
  | None => mret 0
  | Some (m, local_path) =>
      match m_driver m with
      | Some d =>
          match d with
          | FAT1x | EXT2 | NTFS => set_active d (m_device m);; on_driver (drv_size (driver d) local_path)
          | DevFS | ProcFS => mret 0
          end
      | None =>
          n ← ram_file local_path;
          mret (match n with Some n => if bool_decide (ntype n = FS_FILE) then size n else 0 | None => 0 end)
      end
  end.

(** ** Mounting *)
Fixpoint free_mount (ms : list VfsMountStruct) (i : nat) : option nat :=
  match ms with
  | [] => None
  | m :: ms' => if m_active m then free_mount ms' (S i) else Some i
  end.
Definition VfsMount (path : bytes) (dev : option nat) (drv : option fs_driver) : STM (vfs X) Z :=
  i ← asks (fun w => free_mount (mounts w) 0);
  match i with
  | None => mret (-1)
  | Some i =>
      (fun w => Some (tt, set_mounts (<[i := mk_mount (take 63 path) dev drv true]> (mounts w)) w));;
      if bool_decide (path = [slash]) then mret 0 else _ ← on_ram (FsMkdir path); mret 0
  end.
Definition deactivate (i : nat) : STM (vfs X) unit :=
  fun w => m ← mounts w !! i; Some (tt, set_mounts (<[i := mk_mount (mount_point m) (m_device m) (m_driver m) false]> (mounts w)) w).
Definition umount_at (i : nat) : STM (vfs X) Z :=
  m ← (fun w => m ← mounts w !! i; Some (m, w));
  match m_driver m ≫= (fun d => drv_unmount (driver d)) with
  | Some unmount =>
      result ← on_driver (unmount (m_device m));
      if negb (result =? 0) then mret result else
      _ ← on_ram (FsDelete (mount_point m)); deactivate i;; mret 0
  | None => deactivate i;; mret 0
  end.
Definition VfsUmount (path : bytes) : STM (vfs X) Z :=
  i ← asks (fun w => find_mount (mounts w) path);
  match i with None => mret (-1) | Some i => umount_at i end.
Fixpoint umount_all_loop (n : nat) : STM (vfs X) unit :=
  match n with
  | O => mret tt
  | S i =>
      m ← (fun w => m ← mounts w !! i; Some (m, w));
      if m_active m then _ ← VfsUmount (mount_point m); umount_all_loop i else umount_all_loop i
  end.
Definition VfsUnmountAll : STM (vfs X) Z := umount_all_loop VFS_MAX_MOUNTS;; mret 0.
(** "/Devices" and "/Runtime/Processes" *)
Definition DevicesDir : bytes := [47; 68; 101; 118; 105; 99; 101; 115].
Definition RuntimeProcesses : bytes := [47; 82; 117; 110; 116; 105; 109; 101; 47; 80; 114; 111; 99; 101; 115; 115; 101; 115].
(** The mounts of [VfsInit]; its registrations are [register_drivers] in [FsRegistry]. *)
Definition VfsInit : STM (vfs X) Z :=
  (fun w => Some (tt, set_mounts ((fun m => mk_mount (mount_point m) (m_device m) (m_driver m) false) <$> mounts w) w));;
  _ ← VfsMount [slash] None None;
  _ ← VfsMount DevicesDir None (Some DevFS);
  _ ← VfsMount RuntimeProcesses None (Some ProcFS);
  mret 0.
End vfs.
