(* ===== verification/VfsRange.v ===== *)
(** The operations of [src/fs/VFS.c] on whole files and byte ranges: each reads a file into a
    block of the heap, changes the block and writes the file back. *)
From Stdlib Require Import ZArith Lia.
From stdpp Require Import base tactics list numbers option.
From S2P Require Import Prelude Vfrfs Vfs.

Section range.
Context {X : Type} `{!Drivers X} (realloc : bytes -> Z -> option (option bytes)) (pid : Z).
Notation V A := (STM (vfs X) A).
Notation VfsReadFile := (VfsReadFile (X := X)).
Notation VfsWriteFile := (VfsWriteFile (X := X) realloc pid).
Notation VfsCreateFile := (VfsCreateFile (X := X) pid).

Definition KernelMemoryAlloc (n : Z) : V (option bytes) := fun w => let r := heap_alloc n (heap w) in Some (r.1, set_heap r.2 w).
(** [VfsReadFile] into a block. *)
Definition read_into (path buf : bytes) (max_size : Z) : V (Z * bytes) :=
  r ← VfsReadFile path max_size; buf' ← lift (mem_write buf 0 r.2); mret (r.1, buf').
(** [FastMemcpy(buf + off, src, n)] *)
Definition copy_in (buf : bytes) (off : Z) (src : bytes) (n : Z) : V bytes :=
  b ← lift (mem_read src 0 n); lift (mem_write buf off b).

Definition VfsAppendFile (path buffer : bytes) (size : Z) : V Z :=
  current_size ← VfsGetFileSize path;
  c ← KernelMemoryAlloc current_size;
  match c with
  | None => mret (-1)
  | Some current_content =>
      r ← read_into path current_content (u32 current_size);
      if r.1 <? 0 then mret (-1) else
      n ← KernelMemoryAlloc (u64 (current_size + size));
      match n with
      | None => mret (-1)
      | Some new_content =>
          b ← copy_in new_content 0 r.2 current_size;
          b ← copy_in b current_size buffer size;
          VfsWriteFile path b (u32 (current_size + size))
      end
  end.
Definition VfsCopyFile (src_path dest_path : bytes) : V Z :=
  f ← VfsIsFile src_path;
  if f =? 0 then mret (-1) else
  file_size ← VfsGetFileSize src_path;
  if file_size =? 0 then VfsCreateFile dest_path else
  c ← VfsCreateFile dest_path;
  if negb (c =? 0) then mret (-1) else
  b ← KernelMemoryAlloc file_size;
  match b with
  | None => mret (-1)
  | Some buffer =>
      r ← read_into src_path buffer (u32 file_size);
      if r.1 <=? 0 then mret (-1) else
      bytes_written ← VfsWriteFile dest_path r.2 (u32 r.1);
      mret (if bytes_written <=? 0 then -1 else 0)
  end.
Definition VfsMoveFile (src_path dest_path : bytes) : V Z :=
  c ← VfsCopyFile src_path dest_path;
  if c =? 0 then
    d ← VfsDelete src_path false;
    if d =? 0 then mret 0 else _ ← VfsDelete dest_path false; mret (-1)
  else mret (-1).

(** ** Byte ranges *)
(** The result and the bytes stored in the caller's buffer. *)
Definition VfsReadAt (path : bytes) (offset count : Z) : V (Z * bytes) :=
  file_size ← VfsGetFileSize path;
  if file_size <=? offset then mret (0, []) else
  let to_read := if file_size <? u32 (offset + count) then u32 (file_size - offset) else count in
  b ← KernelMemoryAlloc file_size;
  match b with
  | None => mret (-1, [])
  | Some temp =>
      r ← read_into path temp (u32 file_size);
      let bytes_read := r.1 in
      if (0 <? bytes_read) && (offset <? bytes_read) then
        let copy_size := if bytes_read <? u32 (offset + to_read) then u32 (bytes_read - offset) else to_read in
        d ← lift (mem_read r.2 offset copy_size); mret (i32 copy_size, d)
      else mret (if bytes_read <? 0 then -1 else 0, [])
  end.
Definition VfsWriteAt (path buffer : bytes) (offset count : Z) : V Z :=
  file_size ← VfsGetFileSize path;
  let new_size := if file_size <? u32 (offset + count) then u32 (offset + count) else u32 file_size in
  b ← KernelMemoryAlloc new_size;
  match b with
  | None => mret (-1)
  | Some temp =>
      r ← (if 0 <? file_size then read_into path temp (u32 file_size) else mret (0, temp));
      if r.1 <? 0 then mret (-1) else
      t ← copy_in r.2 offset buffer count;
      result ← VfsWriteFile path t new_size;
      mret (if 0 <=? result then i32 count else -1)
  end.
Definition VfsInsertAt (path buffer : bytes) (offset count : Z) : V Z :=
  file_size ← VfsGetFileSize path;
  let new_size := u32 (file_size + count) in
  b ← KernelMemoryAlloc new_size;
  match b with
  | None => mret (-1)
  | Some temp =>
      t ← (if 0 <? file_size then
             o ← KernelMemoryAlloc file_size;
             match o with
             | None => mret None
             | Some old =>
                 r ← read_into path old (if 2 ^ 32 - 1 <? file_size then 2 ^ 32 - 1 else u32 file_size);
                 let rd := r.1 in
                 if rd <? 0 then mret None else
                 let offset := if u32 rd <? offset then u32 rd else offset in
                 t ← copy_in temp 0 r.2 offset;
                 t ← copy_in t offset buffer count;
                 tail ← lift (mem_read r.2 offset (u32 (u32 rd - offset)));
                 t ← lift (mem_write t (offset + count) tail);
                 mret (Some t)
             end
           else t ← copy_in temp 0 buffer count; mret (Some t));
      match t with
      | None => mret (-1)
      | Some t =>
          result ← VfsWriteFile path t new_size;
          mret (if 0 <=? result then i32 count else -1)
      end
  end.
Definition VfsDeleteAt (path : bytes) (offset count : Z) : V Z :=
  file_size ← VfsGetFileSize path;
  if file_size <=? offset then mret 0 else
  let actual_count := if file_size <? u32 (offset + count) then u32 (file_size - offset) else count in
  let new_size := u32 (file_size - actual_count) in
  if new_size =? 0 then _ ← VfsWriteFile path [] 0; mret (i32 actual_count) else
  o ← KernelMemoryAlloc file_size;
  n ← KernelMemoryAlloc new_size;
  match o, n with
  | Some old, Some new =>
      r ← read_into path old (u32 file_size);
      t ← copy_in new 0 r.2 offset;
      tail ← lift (mem_read r.2 (offset + actual_count) (u64 (file_size - offset - actual_count)));
      t ← lift (mem_write t offset tail);
      result ← VfsWriteFile path t new_size;
      mret (if 0 <=? result then i32 actual_count else -1)
  | _, _ => mret (-1)
  end.
(** Copying between overlapping regions is not defined. *)
Definition apart_regions (o1 o2 n : Z) : bool := (n =? 0) || (o1 + n <=? o2) || (o2 + n <=? o1).
Definition VfsSwapRegions (path : bytes) (offset1 offset2 count : Z) : V Z :=
  file_size ← VfsGetFileSize path;
  if (file_size <? u32 (offset1 + count)) || (file_size <? u32 (offset2 + count)) then mret (-1) else
  b ← KernelMemoryAlloc file_size;
  t ← KernelMemoryAlloc count;
  match b, t with
  | Some buffer, Some temp =>
      r ← read_into path buffer (u32 file_size);
      if negb (apart_regions offset1 offset2 count) then fault else
      r1 ← lift (mem_read r.2 offset1 count);
      temp ← lift (mem_write temp 0 r1);
      r2 ← lift (mem_read r.2 offset2 count);
      b ← lift (mem_write r.2 offset1 r2);
      b ← copy_in b offset2 temp count;
      result ← VfsWriteFile path b (u32 file_size);
      mret (if 0 <=? result then 0 else -1)
  | _, _ => mret (-1)
  end.
Definition VfsFillRegion (path : bytes) (offset count pattern : Z) : V Z :=
  file_size ← VfsGetFileSize path;
  let new_size := if file_size <? u32 (offset + count) then u32 (offset + count) else u32 file_size in
  b ← KernelMemoryAlloc new_size;
  match b with
  | None => mret (-1)
  | Some _ =>
      let zeros := replicate (Z.to_nat new_size) 0 in
      r ← (if 0 <? file_size then read_into path zeros (if new_size <? file_size then new_size else u32 file_size) else mret (0, zeros));
      t ← lift (mem_write r.2 offset (replicate (Z.to_nat count) pattern));
      result ← VfsWriteFile path t new_size;
      mret (if 0 <=? result then i32 count else -1)
  end.
Fixpoint search_loop (fuel : nat) (i last : Z) (buffer pattern : bytes) (pattern_size : Z) : option Z :=
  match fuel with
  | O => None
  | S fuel' =>
      if i <=? last then
        b ← mem_read buffer i pattern_size;
        p ← mem_read pattern 0 pattern_size;
        if bool_decide (b = p) then Some (i32 i)
        else search_loop fuel' (u32 (i + 1)) last buffer pattern pattern_size
      else Some (-1)
  end.
Definition VfsSearchBytes (path pattern : bytes) (pattern_size start_offset : Z) : V Z :=
  file_size ← VfsGetFileSize path;
  if (file_size <=? start_offset) || (pattern_size =? 0) then mret (-1) else
  b ← KernelMemoryAlloc file_size;
  match b with
  | None => mret (-1)
  | Some buffer =>
      r ← read_into path buffer (u32 file_size);
      lift (search_loop (S (Z.to_nat file_size)) start_offset (u64 (file_size - pattern_size)) r.2 pattern pattern_size)
  end.
(** [data[i]] and [data[count - 1 - i]] change places, for [n] values of [i]. *)
Fixpoint reverse_loop (n i : nat) (count : nat) (data : bytes) : option bytes :=
  match n with
  | O => Some data
  | S n' => a ← data !! i; b ← data !! (count - 1 - i)%nat;
            reverse_loop n' (S i) count (<[(count - 1 - i)%nat := a]> (<[i := b]> data))
  end.
Definition VfsReverse (path : bytes) (offset count : Z) : V Z :=
  file_size ← VfsGetFileSize path;
  if file_size <? u32 (offset + count) then mret (-1) else
  b ← KernelMemoryAlloc file_size;
  match b with
  | None => mret (-1)
  | Some buffer =>
      r ← read_into path buffer (u32 file_size);
      d ← lift (reverse_loop (Z.to_nat (count / 2)) 0 (Z.to_nat count) (drop (Z.to_nat offset) r.2));
      result ← VfsWriteFile path (take (Z.to_nat offset) r.2 ++ d) (u32 file_size);
      mret (if 0 <=? result then 0 else -1)
  end.
Fixpoint checksum_loop (data : bytes) (checksum : Z) : Z :=
  match data with
  | [] => checksum
  | b :: data' => checksum_loop data' (u32 (checksum + b))
  end.
Definition VfsChecksum (path : bytes) (offset count : Z) : V Z :=
  file_size ← VfsGetFileSize path;
  if file_size <=? offset then mret 0 else
  let actual_count := if file_size <? u32 (offset + count) then u32 (file_size - offset) else count in
  b ← KernelMemoryAlloc file_size;
  match b with
  | None => mret (-1)
  | Some buffer =>
      r ← read_into path buffer (u32 file_size);
      d ← lift (mem_read r.2 offset actual_count);
      mret (i32 (checksum_loop d 0))
  end.
Definition VfsTruncate (path : bytes) (new_size : Z) : V Z :=
  file_size ← VfsGetFileSize path;
  if file_size <=? new_size then mret 0 else
  if new_size =? 0 then VfsWriteFile path [] 0 else
  b ← KernelMemoryAlloc new_size;
  match b with
  | None => mret (-1)
  | Some buffer =>
      r ← read_into path buffer new_size;
      VfsWriteFile path r.2 new_size
  end.
End range.
