(* ===== verification/VfsStore.v ===== *)
(** What the byte-range operations do, proved against the interface of a file store: a path holds
    contents, reads give them, and a write stores its bytes when there is room for them. *)
From Stdlib Require Import ZArith Lia.
From stdpp Require Import base tactics list numbers option sets.
From S2P Require Import Prelude Vfrfs VfrfsOps Vfs VfsRange.

(** A store either replaces the contents or overwrites the start of the old ones. *)
Definition overwrite (replaces : bool) (b c : bytes) : bytes := if replaces then b else b ++ drop (length b) c.
Class FileStore (X : Type) `{!Drivers X} (realloc : bytes -> Z -> option (option bytes)) (pid : Z) := {
  holds : vfs X -> bytes -> bytes -> Prop;
  room : vfs X -> bytes -> nat -> Prop;
  replaces : bool;
  limit : Z;
  limit_int : limit < 2 ^ 31;
  holds_limit : forall w p c, holds w p c -> Z.of_nat (length c) <= limit;
  holds_heap : forall h w p c, holds w p c -> holds (set_heap h w) p c /\ forall n, room (set_heap h w) p n <-> room w p n;
  size_law : forall w p c, holds w p c -> exists w', VfsGetFileSize p w = Some (Z.of_nat (length c), w') /\
    holds w' p c /\ heap w' = heap w /\ forall n, room w' p n <-> room w p n;
  read_law : forall w p c max, holds w p c -> 0 <= max < 2 ^ 32 -> let n := Z.min (Z.of_nat (length c)) max in
    exists w', VfsReadFile p max w = Some ((n, take (Z.to_nat n) c), w') /\ holds w' p c /\ heap w' = heap w /\ forall n, room w' p n <-> room w p n;
  write_law : forall w p c b, holds w p c -> Z.of_nat (length b) <= limit ->
    exists r w', VfsWriteFile realloc pid p b (Z.of_nat (length b)) w = Some (r, w') /\
      (r = Z.of_nat (length b) /\ holds w' p (overwrite replaces b c) \/ r < 0 /\ ~ room w p (length b))
}.

(** ** Blocks *)
Lemma mem_read_out d off n : Z.of_nat (length d) < off + n -> mem_read d off n = None.
Proof. intros H. unfold mem_read. by rewrite (proj2 (Z.leb_gt (off + n) _)), andb_false_r by lia. Qed.
Lemma mem_write_in d off b : 0 <= off -> off + Z.of_nat (length b) <= Z.of_nat (length d) ->
  mem_write d off b = Some (splice (Z.to_nat off) b d).
Proof. intros H1 H2. unfold mem_write. by rewrite (proj2 (Z.leb_le 0 off)), (proj2 (Z.leb_le _ _) H2). Qed.
Lemma splice_zero b d : splice 0 b d = b ++ drop (length b) d.
Proof. done. Qed.
Lemma i32_small z : 0 <= z < 2 ^ 31 -> i32 z = z.
Proof. intros H. unfold i32. rewrite u32_small, (proj2 (Z.ltb_lt _ _)) by lia. done. Qed.

Section store.
Context {X : Type} `{!Drivers X} (realloc : bytes -> Z -> option (option bytes)) (pid : Z) `{!FileStore X realloc pid}.
Implicit Types (w : vfs X) (p c : bytes).
Definition block w (n : Z) : bytes := match heap w with Some g :: _ => resize (Z.to_nat n) 0 g | _ => replicate (Z.to_nat n) 0 end.
Lemma block_length w n : 0 <= n -> Z.of_nat (length (block w n)) = n.
Proof. intros H. unfold block. destruct (heap w) as [|[g|] ?]; rewrite ?length_resize, ?length_replicate; lia. Qed.
Lemma block_heap w w' n : heap w' = heap w -> block w' n = block w n.
Proof. unfold block. by intros ->. Qed.
Lemma kalloc w n : 0 < n -> exists h, (None ∈ h -> None ∈ heap w) /\
  ((KernelMemoryAlloc n w = Some (None, set_heap h w) /\ None ∈ heap w) \/ KernelMemoryAlloc n w = Some (Some (block w n), set_heap h w)).
Proof.
  intros Hn. unfold KernelMemoryAlloc, heap_alloc, block. rewrite (proj2 (Z.eqb_neq n 0)) by lia.
  destruct (heap w) as [|[g|] h] eqn:E; [exists []|exists h|exists h]; (split; [set_solver|]); [by right|by right|left; set_solver].
Qed.
(** [w] is [w0] up to the heap: the same contents, and whatever can fail can fail in [w0]. *)
Record near w0 w p c : Prop := mk_near {
  near_holds : holds w p c;
  near_heap : None ∈ heap w -> None ∈ heap w0;
  near_room : forall n, room w p n <-> room w0 p n
}.
Lemma near_refl w p c : holds w p c -> near w w p c.
Proof. by constructor. Qed.
Lemma near_same w0 w w' p c : near w0 w p c -> holds w' p c -> heap w' = heap w -> (forall n, room w' p n <-> room w p n) -> near w0 w' p c.
Proof. intros [H1 H2 H3] Hh He Hr. constructor; [done|by rewrite He|]. intros n. by rewrite Hr. Qed.
Lemma near_set_heap w0 w p c h : near w0 w p c -> (None ∈ h -> None ∈ heap w) -> near w0 (set_heap h w) p c.
Proof. intros [H1 H2 H3] Hs. destruct (holds_heap h w p c H1) as [Hh Hr]. constructor; [done|by auto|]. intros n. by rewrite Hr. Qed.
(** Reading a file into a block. *)
Lemma read_into_run w0 w p c buf max : near w0 w p c -> Z.of_nat (length c) <= max < 2 ^ 32 -> (length c <= length buf)%nat ->
  exists w', read_into p buf max w = Some ((Z.of_nat (length c), c ++ drop (length c) buf), w') /\ near w0 w' p c.
Proof.
  intros Hn Hm Hb. destruct (read_law w p c max (near_holds _ _ _ _ Hn) ltac:(lia)) as (w' & Hr & Hh' & He & Hro).
  cbv zeta in Hr. rewrite Z.min_l, Nat2Z.id, firstn_all in Hr by lia. exists w'. split; [|by eapply near_same].
  unfold read_into. rewrite (run_bind _ _ _ _ _ Hr). cbn [fst snd]. rewrite mem_write_in by lia. done.
Qed.
Lemma copy_in_run w buf off src n : 0 <= off -> 0 <= n <= Z.of_nat (length src) -> off + n <= Z.of_nat (length buf) ->
  copy_in buf off src n w = Some (splice (Z.to_nat off) (take (Z.to_nat n) src) buf, w).
Proof.
  intros H1 H2 H3. unfold copy_in. rewrite mem_read_ok, drop_0 by lia. rewrite (run_bind _ _ _ _ _ (eq_refl : lift (Some _) w = Some (_, w))).
  rewrite mem_write_in by (rewrite ?length_take; lia). done.
Qed.
Lemma copy_in_whole w buf off src : 0 <= off -> off + Z.of_nat (length src) <= Z.of_nat (length buf) ->
  copy_in buf off src (Z.of_nat (length src)) w = Some (splice (Z.to_nat off) src buf, w).
Proof. intros H1 H2. rewrite copy_in_run by lia. by rewrite Nat2Z.id, firstn_all. Qed.
(** An operation that ends by writing a block of [n] bytes: the path holds the result, or it fails
    because the heap refused a block, and the path still holds [c], or because there was no room. *)
Definition edits w0 (n : nat) w p c (op : STM (vfs X) Z) (z : Z) (c' : bytes) : Prop :=
  exists r w', op w = Some (r, w') /\ (r = z /\ holds w' p c' \/ r < 0 /\ (None ∈ heap w0 /\ holds w' p c \/ ~ room w0 p n)).
Lemma edits_fail w0 n w p c z c' : near w0 w p c -> None ∈ heap w0 -> edits w0 n w p c (mret (-1)) z c'.
Proof. intros Hn H. exists (-1), w. split; [done|right]. split; [lia|left]. split; [done|by apply (near_holds _ _ _ _ Hn)]. Qed.
Lemma edits_refused w0 n w p c op z c' : near w0 w p c -> None ∈ heap w0 -> op w = Some (-1, w) -> edits w0 n w p c op z c'.
Proof. intros Hn H E. destruct (edits_fail w0 n w p c z c' Hn H) as (r & w' & [= <- <-] & Hc). by exists (-1), w. Qed.
Lemma edits_run {A} w0 n w w1 p c (m : STM (vfs X) A) (f : A -> STM (vfs X) Z) a z c' :
  m w = Some (a, w1) -> edits w0 n w1 p c (f a) z c' -> edits w0 n w p c (m ≫= f) z c'.
Proof. intros E (r & w' & H1 & H2). exists r, w'. by rewrite (run_bind _ _ _ _ _ E). Qed.
Lemma write_near w0 w p c t : near w0 w p c -> Z.of_nat (length t) <= limit ->
  exists r w', VfsWriteFile realloc pid p t (Z.of_nat (length t)) w = Some (r, w') /\
    (r = Z.of_nat (length t) /\ holds w' p (overwrite replaces t c) \/ r < 0 /\ ~ room w0 p (length t)).
Proof. intros [H1 H2 H3] Hl. setoid_rewrite <- H3. by apply write_law. Qed.
Lemma edits_write w0 n w p c t m z c' : near w0 w p c -> n = length t -> m = Z.of_nat n -> m <= limit -> c' = overwrite replaces t c ->
  edits w0 n w p c (result ← VfsWriteFile realloc pid p t m; mret (if 0 <=? result then z else -1)) z c'.
Proof.
  intros Hh -> -> Hl ->. destruct (write_near w0 w p c t Hh Hl) as (r & w' & Hr & Hc). exists (if 0 <=? r then z else -1), w'.
  rewrite (run_bind _ _ _ _ _ Hr). split; [done|]. destruct Hc as [[-> Hc]|[Hneg Hc]].
  - left. rewrite (proj2 (Z.leb_le 0 _)) by lia. done.
  - right. rewrite (proj2 (Z.leb_gt 0 r)) by done. split; [lia|by right].
Qed.
Lemma overwrite_long t c : (length c <= length t)%nat -> overwrite replaces t c = t.
Proof. intros H. unfold overwrite. destruct replaces; [done|]. rewrite drop_ge by lia. apply app_nil_r. Qed.
(** The common start: the size, then a block. *)
Lemma size_near w0 w p c : near w0 w p c -> exists w1, VfsGetFileSize p w = Some (Z.of_nat (length c), w1) /\ near w0 w1 p c /\ heap w1 = heap w.
Proof. intros Hn. destruct (size_law w p c (near_holds _ _ _ _ Hn)) as (w1 & Hr & Hh1 & He & Hro). exists w1. split; [done|]. split; [by eapply near_same|done]. Qed.
Lemma edits_sized n w p c (f : Z -> STM (vfs X) Z) z c' : holds w p c ->
  (forall w1, near w w1 p c -> heap w1 = heap w -> edits w n w1 p c (f (Z.of_nat (length c))) z c') -> edits w n w p c (n ← VfsGetFileSize p; f n) z c'.
Proof. intros Hh H. destruct (size_near w w p c (near_refl _ _ _ Hh)) as (w1 & Hr & Hn & He). eapply edits_run; [exact Hr|]. by apply H. Qed.
Lemma edits_block w0 k w p c n (f : option bytes -> STM (vfs X) Z) z c' : near w0 w p c -> 0 < n ->
  (forall w1, f None w1 = Some (-1, w1)) -> (forall w1, near w0 w1 p c -> edits w0 k w1 p c (f (Some (block w n))) z c') ->
  edits w0 k w p c (b ← KernelMemoryAlloc n; f b) z c'.
Proof.
  intros Hh Hn Hf H. destruct (kalloc w n Hn) as (h & Hs & [[E Hno]|E]); (eapply edits_run; [exact E|]).
  - eapply edits_refused; [by apply near_set_heap|by apply (near_heap _ _ _ _ Hh)|apply Hf].
  - apply H. by apply near_set_heap.
Qed.

Lemma edits_block2 w0 k w p c n1 n2 (f : option bytes -> option bytes -> STM (vfs X) Z) z c' : near w0 w p c -> 0 < n1 -> 0 < n2 ->
  (forall b w1, f None b w1 = Some (-1, w1)) -> (forall b w1, f (Some b) None w1 = Some (-1, w1)) ->
  (forall w1 b1 b2, near w0 w1 p c -> Z.of_nat (length b1) = n1 -> Z.of_nat (length b2) = n2 -> edits w0 k w1 p c (f (Some b1) (Some b2)) z c') ->
  edits w0 k w p c (b1 ← KernelMemoryAlloc n1; b2 ← KernelMemoryAlloc n2; f b1 b2) z c'.
Proof.
  intros Hh H1 H2 Hf1 Hf2 H.
  assert (Hout : forall w1 b1, near w0 w1 p c -> (b1 = None -> None ∈ heap w0) -> (forall b, b1 = Some b -> Z.of_nat (length b) = n1) ->
    edits w0 k w1 p c (b2 ← KernelMemoryAlloc n2; f b1 b2) z c').
  { intros w1 b1 Hn Hno Hb. destruct (kalloc w1 n2 H2) as (h & Hs & [[E Hn2]|E]); (eapply edits_run; [exact E|]).
    - eapply edits_refused; [by apply near_set_heap|by apply (near_heap _ _ _ _ Hn)|destruct b1; [apply Hf2|apply Hf1]].
    - destruct b1 as [b1|]; [apply H; [by apply near_set_heap|by apply Hb|apply block_length; lia]|].
      eapply edits_refused; [by apply near_set_heap|by apply Hno|apply Hf1]. }
  destruct (kalloc w n1 H1) as (h & Hs & [[E Hno]|E]); (eapply edits_run; [exact E|]); (apply Hout; [by apply near_set_heap|..]).
  - intros _. by apply (near_heap _ _ _ _ Hh).
  - done.
  - done.
  - intros b [= <-]. apply block_length. lia.
Qed.

(** ** Writing into a file *)
(** The contents after writing [b] at [off]; bytes between the old end and [off] are what the
    heap block held. *)
Definition written_at (c b blk : bytes) (off : nat) : bytes := splice off b (c ++ drop (length c) blk).
Lemma VfsWriteAt_ok w p c b off : let n := Z.of_nat (length b) in let m := Z.max (Z.of_nat (length c)) (off + n) in
  holds w p c -> 0 <= off -> off + n <= limit -> 0 < m ->
  edits w (Z.to_nat m) w p c (VfsWriteAt realloc pid p b off n) n (written_at c b (block w m) (Z.to_nat off)).
Proof.
  intros n m Hh Ho Hl Hpos. change m with (Z.max (Z.of_nat (length c)) (off + n)) in *. clear m. pose proof limit_int as HL. pose proof (holds_limit w p c Hh) as Hc. unfold VfsWriteAt. apply (edits_sized _ w p c); [done|]. intros w1 Hh1 Hw1.
  rewrite (u32_small (off + n)), (u32_small (Z.of_nat (length c))) by lia.
  assert (E : (if Z.of_nat (length c) <? off + n then off + n else Z.of_nat (length c)) = Z.max (Z.of_nat (length c)) (off + n)) by (destruct (Z.ltb_spec (Z.of_nat (length c)) (off + n)); lia).
  rewrite E. clear E. set (m := Z.max (Z.of_nat (length c)) (off + n)) in *. apply (edits_block w _ w1 p c); [done|lia|done|]. intros w2 Hh2. rewrite (block_heap w w1) by done.
  assert (Hm : Z.of_nat (length (block w m)) = m) by (apply block_length; lia).
  assert (Hread : exists w3, (if 0 <? Z.of_nat (length c) then read_into p (block w m) (Z.of_nat (length c)) else mret (0, block w m)) w2 =
     Some ((Z.of_nat (length c), c ++ drop (length c) (block w m)), w3) /\ near w w3 p c).
  { destruct (Z.ltb_spec 0 (Z.of_nat (length c))) as [Hp|Hz].
    - destruct (read_into_run w w2 p c (block w m) (Z.of_nat (length c))) as (w3 & H1 & H2); [done|lia|lia|]. by exists w3.
    - exists w2. destruct c; [done|cbn in Hz; lia]. }
  destruct Hread as (w3 & Hr & Hh3). eapply edits_run; [exact Hr|]. cbn [fst snd]. rewrite (proj2 (Z.ltb_ge _ 0)) by lia.
  set (base := c ++ drop (length c) (block w m)). assert (Hb : Z.of_nat (length base) = m) by (unfold base; rewrite length_app, length_drop; lia).
  eapply edits_run; [apply copy_in_whole; lia|]. fold n. assert (Ht : length (splice (Z.to_nat off) b base) = length base) by (apply splice_length; lia).
  rewrite i32_small by lia. eapply edits_write; [exact Hh3|lia|lia|lia|]. rewrite overwrite_long by lia. done.
Qed.

Lemma splice_app a b r : splice (length a) b (a ++ r) = a ++ b ++ drop (length b) r.
Proof. unfold splice. rewrite take_app_length, <- drop_drop, drop_app_length. done. Qed.
Lemma splice_fill3 a b d r : length r = (length a + length b + length d)%nat ->
  splice (length a + length b) d (splice (length a) b (splice 0 a r)) = a ++ b ++ d.
Proof.
  intros H. rewrite splice_zero, splice_app, app_assoc, <- length_app, splice_app, <- app_assoc. do 2 f_equal. rewrite (drop_ge (drop _ _)); [apply app_nil_r|].
  rewrite !length_drop. lia.
Qed.
Lemma splice_fill2 a d r : length r = (length a + length d)%nat -> splice (length a) d (splice 0 a r) = a ++ d.
Proof. intros H. rewrite splice_zero, splice_app. f_equal. rewrite drop_ge; [apply app_nil_r|]. rewrite length_drop. lia. Qed.
Definition inserted_at (c b : bytes) (off : nat) : bytes := take off c ++ b ++ drop off c.
(** Filling the new block: the start of the old contents, the new bytes, the rest. *)
Lemma insert_fill w temp c b off : (off <= length c)%nat -> length temp = (length c + length b)%nat -> Z.of_nat (length c) < 2 ^ 32 ->
  (t ← copy_in temp 0 c (Z.of_nat off);
   t ← copy_in t (Z.of_nat off) b (Z.of_nat (length b));
   tail ← lift (mem_read c (Z.of_nat off) (u32 (Z.of_nat (length c) - Z.of_nat off)));
   t ← lift (mem_write t (Z.of_nat off + Z.of_nat (length b)) tail);
   mret (Some t)) w = Some (Some (inserted_at c b off), w).
Proof.
  intros Ho Ht Hc. assert (Hla : length (take off c) = off) by (rewrite length_take; lia).
  rewrite (run_bind _ _ _ _ _ (copy_in_run w temp 0 c (Z.of_nat off) ltac:(lia) ltac:(lia) ltac:(lia))). rewrite Nat2Z.id. change (Z.to_nat 0) with 0%nat.
  set (t1 := splice 0 (take off c) temp). assert (L1 : length t1 = length temp) by (apply splice_length; lia).
  rewrite (run_bind _ _ _ _ _ (copy_in_whole w t1 (Z.of_nat off) b ltac:(lia) ltac:(lia))). rewrite Nat2Z.id.
  set (t2 := splice off b t1). assert (L2 : length t2 = length t1) by (apply splice_length; lia).
  rewrite u32_small, mem_read_ok, Nat2Z.id, (take_ge (drop off c)) by (rewrite ?length_drop; lia).
  rewrite (run_bind _ _ _ _ _ (eq_refl : lift (Some (drop off c)) w = Some (_, w))).
  rewrite mem_write_in by (rewrite ?length_drop; lia). rewrite (run_bind _ _ _ _ _ (eq_refl : lift (Some _) w = Some (_, w))).
  unfold mret, STM_ret, inserted_at. do 3 f_equal. replace (Z.to_nat (Z.of_nat off + Z.of_nat (length b))) with (off + length b)%nat by lia.
  pose proof (splice_fill3 (take off c) b (drop off c) temp) as H. rewrite Hla, length_drop in H. apply H. lia.
Qed.
Lemma inserted_at_clamp c b off : inserted_at c b (Nat.min off (length c)) = inserted_at c b off.
Proof.
  unfold inserted_at. destruct (decide (off <= length c)%nat); [by rewrite Nat.min_l by lia|]. rewrite Nat.min_r by lia. by rewrite !take_ge, !drop_ge by lia.
Qed.
Lemma VfsInsertAt_ok w p c b off : holds w p c -> 0 <= off -> (0 < length c + length b)%nat -> Z.of_nat (length c + length b) <= limit ->
  edits w (length c + length b) w p c (VfsInsertAt realloc pid p b off (Z.of_nat (length b))) (Z.of_nat (length b)) (inserted_at c b (Z.to_nat off)).
Proof.
  intros Hh Ho Hpos Hl. pose proof limit_int as HL. unfold VfsInsertAt. apply (edits_sized _ w p c); [done|]. intros w1 Hh1 _. rewrite u32_small by lia.
  set (m := Z.of_nat (length c) + Z.of_nat (length b)). apply (edits_block w _ w1 p c); [done|lia|done|]. intros w2 Hh2.
  assert (Hm : Z.of_nat (length (block w1 m)) = m) by (apply block_length; lia). set (temp := block w1 m) in *.
  set (inner := if 0 <? Z.of_nat (length c) then _ else _).
  assert (Hin : exists w3, near w w3 p c /\ (inner w2 = Some (None, w3) /\ None ∈ heap w \/ inner w2 = Some (Some (inserted_at c b (Z.to_nat off)), w3))).
  { unfold inner. destruct (Z.ltb_spec 0 (Z.of_nat (length c))) as [Hp|Hz].
    2:{ destruct c; [|cbn in Hz; lia]. exists w2. split; [done|right]. rewrite (run_bind _ _ _ _ _ (copy_in_whole w2 temp 0 b ltac:(lia) ltac:(unfold m in Hm; cbn in Hm; lia))).
        unfold inserted_at. rewrite take_nil, drop_nil, app_nil_r. change (Z.to_nat 0) with 0%nat. rewrite splice_zero, drop_ge, app_nil_r by (unfold m in Hm; cbn in Hm; lia). done. }
    destruct (kalloc w2 (Z.of_nat (length c)) Hp) as (h & Hs & [[E Hno]|E]); rewrite (run_bind _ _ _ _ _ E).
    { exists (set_heap h w2). split; [by apply near_set_heap|left]. split; [done|by apply (near_heap _ _ _ _ Hh2)]. }
    assert (Hlo : Z.of_nat (length (block w2 (Z.of_nat (length c)))) = Z.of_nat (length c)) by (apply block_length; lia). set (old := block w2 (Z.of_nat (length c))) in *.
    rewrite (proj2 (Z.ltb_ge _ (Z.of_nat (length c)))), (u32_small (Z.of_nat (length c))) by lia.
    destruct (read_into_run w (set_heap h w2) p c old (Z.of_nat (length c))) as (w3 & Hr & Hh3); [by apply near_set_heap|lia|lia|].
    rewrite (run_bind _ _ _ _ _ Hr). cbn [fst snd]. rewrite (drop_ge old), app_nil_r by lia. rewrite (proj2 (Z.ltb_ge _ 0)) by lia. rewrite (u32_small (Z.of_nat (length c))) by lia.
    assert (Hoff : (if Z.of_nat (length c) <? off then Z.of_nat (length c) else off) = Z.of_nat (Nat.min (Z.to_nat off) (length c))) by (destruct (Z.ltb_spec (Z.of_nat (length c)) off); lia).
    rewrite Hoff. exists w3. split; [done|right]. rewrite <- inserted_at_clamp. apply insert_fill; lia. }
  destruct Hin as (w3 & Hh3 & [[E Hno]|E]); (eapply edits_run; [exact E|]); [by apply edits_fail|].
  assert (Hi : length (inserted_at c b (Z.to_nat off)) = (length c + length b)%nat) by (unfold inserted_at; rewrite !length_app, length_take, length_drop; lia).
  rewrite i32_small by lia. eapply edits_write; [exact Hh3|lia|lia|lia|]. rewrite overwrite_long by lia. done.
Qed.
Lemma VfsFillRegion_ok w p c off n pat : let m := Z.max (Z.of_nat (length c)) (off + n) in
  holds w p c -> 0 <= off -> 0 <= n -> off + n <= limit -> 0 < m ->
  edits w (Z.to_nat m) w p c (VfsFillRegion realloc pid p off n pat) n
    (written_at c (replicate (Z.to_nat n) pat) (replicate (Z.to_nat m) 0) (Z.to_nat off)).
Proof.
  intros m Hh Ho H0 Hl Hpos. change m with (Z.max (Z.of_nat (length c)) (off + n)) in *. clear m. pose proof limit_int as HL. pose proof (holds_limit w p c Hh) as Hc. unfold VfsFillRegion. apply (edits_sized _ w p c); [done|]. intros w1 Hh1 _.
  rewrite (u32_small (off + n)), (u32_small (Z.of_nat (length c))) by lia.
  assert (E : (if Z.of_nat (length c) <? off + n then off + n else Z.of_nat (length c)) = Z.max (Z.of_nat (length c)) (off + n)) by (destruct (Z.ltb_spec (Z.of_nat (length c)) (off + n)); lia).
  rewrite E. clear E. set (m := Z.max (Z.of_nat (length c)) (off + n)) in *. apply (edits_block w _ w1 p c); [done|lia|done|]. intros w2 Hh2.
  set (zeros := replicate (Z.to_nat m) 0). assert (Hz : Z.of_nat (length zeros) = m) by (unfold zeros; rewrite length_replicate; lia).
  rewrite (proj2 (Z.ltb_ge m _)) by lia.
  assert (Hread : exists w3, (if 0 <? Z.of_nat (length c) then read_into p zeros (Z.of_nat (length c)) else mret (0, zeros)) w2 =
     Some ((Z.of_nat (length c), c ++ drop (length c) zeros), w3) /\ near w w3 p c).
  { destruct (Z.ltb_spec 0 (Z.of_nat (length c))) as [Hp|Hz'].
    - destruct (read_into_run w w2 p c zeros (Z.of_nat (length c))) as (w3 & H1 & H2); [done|lia|lia|]. by exists w3.
    - exists w2. destruct c; [done|cbn in Hz'; lia]. }
  destruct Hread as (w3 & Hr & Hh3). eapply edits_run; [exact Hr|]. cbn [fst snd]. unfold written_at. set (base := c ++ drop (length c) zeros).
  assert (Hb : Z.of_nat (length base) = m) by (unfold base; rewrite length_app, length_drop; lia).
  rewrite mem_write_in by (rewrite ?length_replicate; lia). eapply edits_run; [done|].
  assert (Ht : length (splice (Z.to_nat off) (replicate (Z.to_nat n) pat) base) = length base) by (apply splice_length; rewrite length_replicate; lia).
  rewrite i32_small by lia. eapply edits_write; [exact Hh3|lia|lia|lia|]. rewrite overwrite_long by lia. done.
Qed.

Lemma VfsAppendFile_ok w p c b : holds w p c -> c <> [] -> Z.of_nat (length c + length b) <= limit ->
  edits w (length c + length b) w p c (VfsAppendFile realloc pid p b (Z.of_nat (length b))) (Z.of_nat (length c + length b)) (c ++ b).
Proof.
  intros Hh Hne Hl. assert (Hpos : 0 < Z.of_nat (length c)) by (destruct c; [done|cbn; lia]). pose proof limit_int as HL. unfold VfsAppendFile. apply (edits_sized _ w p c); [done|]. intros w1 Hh1 _.
  apply (edits_block w _ w1 p c); [done|lia|done|]. intros w2 Hh2. set (old := block w1 (Z.of_nat (length c))).
  assert (Ho : Z.of_nat (length old) = Z.of_nat (length c)) by (apply block_length; lia). rewrite (u32_small (Z.of_nat (length c))) by lia.
  destruct (read_into_run w w2 p c old (Z.of_nat (length c))) as (w3 & Hr & Hh3); [done|lia|lia|]. eapply edits_run; [exact Hr|]. cbn [fst snd].
  rewrite (drop_ge old), app_nil_r by lia. rewrite (proj2 (Z.ltb_ge _ 0)), u64_small, u32_small by lia.
  apply (edits_block w _ w3 p c); [done|lia|done|]. intros w4 Hh4. set (m := Z.of_nat (length c) + Z.of_nat (length b)) in *. set (new := block w3 m).
  assert (Hn : Z.of_nat (length new) = m) by (apply block_length; lia).
  eapply edits_run; [apply copy_in_run; lia|]. rewrite Nat2Z.id, firstn_all. change (Z.to_nat 0) with 0%nat.
  assert (L1 : length (splice 0 c new) = length new) by (apply splice_length; lia).
  eapply edits_run; [apply copy_in_whole; lia|]. rewrite Nat2Z.id, splice_fill2 by lia.
  destruct (write_near w w4 p c (c ++ b) Hh4) as (r & w5 & Hw & Hc); [rewrite length_app; lia|]. rewrite overwrite_long in Hc by (rewrite length_app; lia).
  rewrite length_app in Hw, Hc. exists r, w5. replace m with (Z.of_nat (length c + length b)) by lia. split; [exact Hw|]. destruct Hc as [Hc|[Hr' Hc]]; [by left|right]. auto.
Qed.
(** [overwrite] of a shorter result: a store that does not replace keeps the old tail. *)
Definition deleted_at (c : bytes) (off n : nat) : bytes := take off c ++ drop (off + n) c.
Lemma VfsDeleteAt_ok w p c off n : holds w p c -> 0 <= off < Z.of_nat (length c) -> 0 <= n -> off + n < 2 ^ 32 ->
  let a := Z.min n (Z.of_nat (length c) - off) in let c' := deleted_at c (Z.to_nat off) (Z.to_nat a) in
  c' <> [] -> edits w (length c') w p c (VfsDeleteAt realloc pid p off n) a (overwrite replaces c' c).
Proof.
  intros Hh Ho Hn Hlt a c' Hne. pose proof limit_int as HL. pose proof (holds_limit w p c Hh) as Hc.
  assert (Hc' : Z.of_nat (length c') = Z.of_nat (length c) - a) by (unfold c', deleted_at; rewrite length_app, length_take, length_drop; lia).
  assert (Hpos : 0 < Z.of_nat (length c')) by (destruct c'; [done|cbn; lia]).
  unfold VfsDeleteAt. apply (edits_sized _ w p c); [done|]. intros w1 Hh1 _. rewrite (proj2 (Z.leb_gt _ off)), (u32_small (off + n)), (u32_small (Z.of_nat (length c) - off)) by lia.
  assert (E : (if Z.of_nat (length c) <? off + n then Z.of_nat (length c) - off else n) = a) by (unfold a; destruct (Z.ltb_spec (Z.of_nat (length c)) (off + n)); lia).
  rewrite E, u32_small, (proj2 (Z.eqb_neq _ 0)) by lia. clear E.
  apply (edits_block2 w _ w1 p c); [done|lia|lia|done|done|]. intros w3 old new Hh3 Hold Hnew.
  destruct (read_into_run w w3 p c old (Z.of_nat (length c))) as (w4 & Hr & Hh4); [done|lia|lia|]. rewrite u32_small by lia.
  eapply edits_run; [exact Hr|]. cbn [fst snd]. rewrite (drop_ge old), app_nil_r by lia.
  eapply edits_run; [apply copy_in_run; lia|]. change (Z.to_nat 0) with 0%nat.
  assert (Hla : length (take (Z.to_nat off) c) = Z.to_nat off) by (rewrite length_take; lia).
  rewrite u64_small, mem_read_ok, (take_ge (drop (Z.to_nat (off + a)) c)) by (rewrite ?length_drop; lia). eapply edits_run; [done|].
  assert (L1 : length (splice 0 (take (Z.to_nat off) c) new) = length new) by (apply splice_length; lia).
  rewrite mem_write_in by (rewrite ?length_drop; lia). eapply edits_run; [done|].
  rewrite i32_small by lia. eapply edits_write; [exact Hh4| |lia|lia|].
  - rewrite splice_length by (rewrite L1, length_drop; lia). lia.
  - f_equal. unfold c', deleted_at. replace (Z.to_nat (off + a)) with (Z.to_nat off + Z.to_nat a)%nat by lia.
    pose proof (splice_fill2 (take (Z.to_nat off) c) (drop (Z.to_nat off + Z.to_nat a) c) new) as H. rewrite Hla, length_drop in H. symmetry. apply H. lia.
Qed.
Lemma VfsTruncate_ok w p c n : holds w p c -> 0 <= n < Z.of_nat (length c) ->
  edits w (Z.to_nat n) w p c (VfsTruncate realloc pid p n) n (overwrite replaces (take (Z.to_nat n) c) c).
Proof.
  intros Hh Hn. pose proof limit_int as HL. pose proof (holds_limit w p c Hh) as Hc. unfold VfsTruncate. apply (edits_sized _ w p c); [done|]. intros w1 Hh1 _.
  rewrite (proj2 (Z.leb_gt _ n)) by lia.
  assert (Hfinal : forall w2 t, near w w2 p c -> t = take (Z.to_nat n) c -> edits w (Z.to_nat n) w2 p c (VfsWriteFile realloc pid p t n) n (overwrite replaces (take (Z.to_nat n) c) c)).
  { intros w2 t Hh2 ->. assert (Hl : Z.of_nat (length (take (Z.to_nat n) c)) = n) by (rewrite length_take; lia).
    destruct (write_near w w2 p c (take (Z.to_nat n) c) Hh2) as (r & w3 & Hw & Hr); [lia|]. rewrite Hl in Hw, Hr. exists r, w3. split; [done|].
    destruct Hr as [Hr|[Hr Hno]]; [by left|right]. split; [done|right]. by replace (Z.to_nat n) with (length (take (Z.to_nat n) c)) by lia. }
  destruct (Z.eqb_spec n 0) as [->|Hn0]; [by apply Hfinal|]. apply (edits_block w _ w1 p c); [done|lia|done|]. intros w2 Hh2.
  set (buf := block w1 n). assert (Hb : Z.of_nat (length buf) = n) by (apply block_length; lia).
  destruct (read_law w2 p c n (near_holds _ _ _ _ Hh2) ltac:(lia)) as (w3 & Hr & Hh3 & He & Hro). rewrite Z.min_r in Hr by lia.
  assert (Hri : read_into p buf n w2 = Some ((n, take (Z.to_nat n) c), w3)).
  { unfold read_into. rewrite (run_bind _ _ _ _ _ Hr). cbn [fst snd]. rewrite mem_write_in by (rewrite ?length_take; lia). rewrite splice_zero, drop_ge, app_nil_r by (rewrite length_take; lia). done. }
  eapply edits_run; [exact Hri|]. apply Hfinal; [by eapply near_same|done].
Qed.

(** ** Permuting bytes *)
Lemma reverse_loop_spec n i (d : bytes) count : (2 * (i + n) <= count)%nat -> (count <= length d)%nat ->
  exists d', reverse_loop n i count d = Some d' /\ length d' = length d /\
    forall j, d' !! j = if decide ((i <= j < i + n)%nat \/ (j < count /\ i <= count - 1 - j < i + n)%nat) then d !! (count - 1 - j)%nat else d !! j.
Proof.
  revert i d. induction n as [|n IH]; intros i d Hn Hc; cbn [reverse_loop].
  { exists d. split; [done|]. split; [done|]. intros j. rewrite decide_False by lia. done. }
  destruct (lookup_lt_is_Some_2 d i) as [a Ha]; [lia|]. destruct (lookup_lt_is_Some_2 d (count - 1 - i)) as [b Hb]; [lia|].
  rewrite Ha, Hb, !option_bind_Some. destruct (IH (S i) (<[(count - 1 - i)%nat := a]> (<[i := b]> d))) as (d' & Hr & HL & Hl); [lia|by rewrite !length_insert|].
  exists d'. split; [exact Hr|]. split; [by rewrite HL, !length_insert|]. intros j. rewrite Hl.
  destruct (decide (j = i)) as [->|Hji].
  { rewrite decide_False, decide_True by lia. rewrite list_lookup_insert_ne, list_lookup_insert_eq by lia. by rewrite Hb. }
  destruct (decide (j = count - 1 - i)%nat) as [->|Hjc].
  { rewrite decide_False, decide_True by lia. rewrite list_lookup_insert_eq by (rewrite length_insert; lia). replace (count - 1 - (count - 1 - i))%nat with i by lia. done. }
  destruct (decide ((S i <= j < S i + n)%nat \/ (j < count /\ S i <= count - 1 - j < S i + n)%nat)).
  - rewrite decide_True by lia. rewrite !list_lookup_insert_ne by lia. done.
  - rewrite decide_False by lia. rewrite !list_lookup_insert_ne by lia. done.
Qed.
Lemma reverse_loop_ok n (d : bytes) : (n <= length d)%nat -> reverse_loop (n / 2) 0 n d = Some (reverse (take n d) ++ drop n d).
Proof.
  intros Hn. assert (H2 : (2 * (n / 2) <= n)%nat) by (apply Nat.mul_div_le; lia).
  destruct (reverse_loop_spec (n / 2) 0 d n ltac:(lia) Hn) as (d' & -> & HL & Hl). f_equal. apply list_eq. intros j. rewrite Hl.
  assert (Hlt : length (take n d) = n) by (rewrite length_take; lia). destruct (decide (j < n)%nat) as [Hj|Hj].
  - rewrite lookup_app_l by (rewrite length_reverse; lia). rewrite reverse_lookup by lia. rewrite lookup_take_lt, Hlt by lia.
    replace (n - S j)%nat with (n - 1 - j)%nat by lia. destruct (decide _) as [_|Hno]; [done|]. f_equal.
    assert (n < 2 * (n / 2) + 2)%nat by (pose proof (Nat.mul_succ_div_gt n 2); lia). lia.
  - rewrite decide_False by lia. rewrite lookup_app_r, length_reverse, Hlt, lookup_drop by (rewrite length_reverse; lia). f_equal. lia.
Qed.
Definition reversed_at (c : bytes) (off n : nat) : bytes := take off c ++ reverse (take n (drop off c)) ++ drop (off + n) c.
Lemma edits_read w0 k w p c buf (f : Z * bytes -> STM (vfs X) Z) z c' : near w0 w p c -> Z.of_nat (length c) < 2 ^ 32 -> length buf = length c ->
  (forall w1, near w0 w1 p c -> edits w0 k w1 p c (f (Z.of_nat (length c), c)) z c') -> edits w0 k w p c (r ← read_into p buf (u32 (Z.of_nat (length c))); f r) z c'.
Proof.
  intros Hh Hc Hl H. rewrite u32_small by lia. destruct (read_into_run w0 w p c buf (Z.of_nat (length c))) as (w1 & Hr & Hh1); [done|lia|lia|].
  eapply edits_run; [exact Hr|]. rewrite drop_ge, app_nil_r by lia. by apply H.
Qed.
Lemma VfsReverse_ok w p c off n : holds w p c -> 0 < Z.of_nat (length c) -> 0 <= off -> 0 <= n -> off + n <= Z.of_nat (length c) ->
  edits w (length c) w p c (VfsReverse realloc pid p off n) 0 (reversed_at c (Z.to_nat off) (Z.to_nat n)).
Proof.
  intros Hh Hpos Ho Hn Hlt. pose proof limit_int as HL. pose proof (holds_limit w p c Hh) as Hc. unfold VfsReverse. apply (edits_sized _ w p c); [done|]. intros w1 Hh1 _.
  rewrite (u32_small (off + n)), (proj2 (Z.ltb_ge _ (off + n))) by lia. apply (edits_block w _ w1 p c); [done|lia|done|]. intros w2 Hh2.
  apply (edits_read w _ w2 p c); [done|lia|pose proof (block_length w1 (Z.of_nat (length c))); lia|]. intros w3 Hh3. cbn [snd].
  replace (Z.to_nat (n / 2)) with (Z.to_nat n / 2)%nat by (rewrite Z2Nat.inj_div by lia; done).
  rewrite reverse_loop_ok by (rewrite length_drop; lia). eapply edits_run; [done|]. rewrite drop_drop. fold (reversed_at c (Z.to_nat off) (Z.to_nat n)).
  assert (Hl : length (reversed_at c (Z.to_nat off) (Z.to_nat n)) = length c) by (unfold reversed_at; rewrite !length_app, length_reverse, !length_take, !length_drop; lia).
  rewrite u32_small by lia. eapply edits_write; [exact Hh3|lia|lia|lia|]. rewrite overwrite_long by lia. done.
Qed.
Definition slice (c : bytes) (off n : Z) : bytes := take (Z.to_nat n) (drop (Z.to_nat off) c).
Definition swapped (c : bytes) (o1 o2 n : Z) : bytes := splice (Z.to_nat o2) (slice c o1 n) (splice (Z.to_nat o1) (slice c o2 n) c).
Lemma VfsSwapRegions_ok w p c o1 o2 n : holds w p c -> 0 <= o1 -> 0 <= o2 -> 0 < n -> o1 + n <= Z.of_nat (length c) -> o2 + n <= Z.of_nat (length c) ->
  apart_regions o1 o2 n = true -> edits w (length c) w p c (VfsSwapRegions realloc pid p o1 o2 n) 0 (swapped c o1 o2 n).
Proof.
  intros Hh H1 H2 Hn Hl1 Hl2 Hap. pose proof limit_int as HL. pose proof (holds_limit w p c Hh) as Hc. unfold VfsSwapRegions. apply (edits_sized _ w p c); [done|]. intros w1 Hh1 _.
  rewrite (u32_small (o1 + n)), (u32_small (o2 + n)), !(proj2 (Z.ltb_ge _ _)) by lia. cbn [orb].
  apply (edits_block2 w _ w1 p c); [done|lia|lia|done|done|]. intros w3 buf temp Hh3 Hb Ht. apply (edits_read w _ w3 p c); [done|lia|lia|]. intros w4 Hh4. cbn [snd].
  rewrite Hap. cbn [negb]. assert (Hs : forall o, 0 <= o -> o + n <= Z.of_nat (length c) -> Z.of_nat (length (slice c o n)) = n) by (intros o Ho1 Ho2; unfold slice; rewrite length_take, length_drop; lia).
  rewrite (mem_read_ok c o1), (mem_read_ok c o2) by lia. fold (slice c o1 n) (slice c o2 n). eapply edits_run; [done|].
  rewrite mem_write_in by (rewrite ?Hs; lia). eapply edits_run; [done|]. change (Z.to_nat 0) with 0%nat. rewrite splice_zero, drop_ge, app_nil_r by (specialize (Hs o1); lia).
  eapply edits_run; [done|]. rewrite mem_write_in by (rewrite ?Hs; lia). eapply edits_run; [done|].
  assert (L1 : length (splice (Z.to_nat o1) (slice c o2 n) c) = length c) by (apply splice_length; specialize (Hs o2); lia).
  eapply edits_run; [apply copy_in_run; rewrite ?Hs, ?L1; lia|]. rewrite take_ge by (specialize (Hs o1); lia). fold (swapped c o1 o2 n).
  assert (L2 : length (swapped c o1 o2 n) = length c) by (unfold swapped; rewrite splice_length by (rewrite L1; specialize (Hs o1); lia); exact L1).
  rewrite u32_small by lia. eapply edits_write; [exact Hh4|lia|lia|lia|]. rewrite overwrite_long by lia. done.
Qed.

(** ** The edits and what they stand for *)
Inductive edit :=
| EWriteAt (off : Z) (b : bytes)
| EInsertAt (off : Z) (b : bytes)
| EFill (off n pat : Z)
| EAppend (b : bytes)
| EDeleteAt (off n : Z)
| ETruncate (n : Z)
| EReverse (off n : Z)
| ESwap (o1 o2 n : Z).
Definition run_edit (e : edit) p : STM (vfs X) Z :=
  match e with
  | EWriteAt off b => VfsWriteAt realloc pid p b off (Z.of_nat (length b))
  | EInsertAt off b => VfsInsertAt realloc pid p b off (Z.of_nat (length b))
  | EFill off n pat => VfsFillRegion realloc pid p off n pat
  | EAppend b => VfsAppendFile realloc pid p b (Z.of_nat (length b))
  | EDeleteAt off n => VfsDeleteAt realloc pid p off n
  | ETruncate n => VfsTruncate realloc pid p n
  | EReverse off n => VfsReverse realloc pid p off n
  | ESwap o1 o2 n => VfsSwapRegions realloc pid p o1 o2 n
  end.
(** The contents that an edit stands for and the number it returns; [None] when it refuses: the
    result of a write, insertion or filling is empty, the file to append to or to reverse in is
    empty, a range to reverse or swap is not inside the file, or a range to swap is empty.  Between
    the old end and the offset of a write lies what the heap's block held. *)
Definition edit_result w c (e : edit) : option (Z * bytes) :=
  let L := Z.of_nat (length c) in
  match e with
  | EWriteAt off b =>
      let n := Z.of_nat (length b) in let m := Z.max L (off + n) in
      if m =? 0 then None else Some (n, written_at c b (block w m) (Z.to_nat off))
  | EInsertAt off b => if L + Z.of_nat (length b) =? 0 then None else Some (Z.of_nat (length b), inserted_at c b (Z.to_nat off))
  | EFill off n pat =>
      let m := Z.max L (off + n) in
      if m =? 0 then None else Some (n, written_at c (replicate (Z.to_nat n) pat) (replicate (Z.to_nat m) 0) (Z.to_nat off))
  | EAppend b => if L =? 0 then None else Some (L + Z.of_nat (length b), c ++ b)
  | EDeleteAt off n => if L <=? off then Some (0, c) else let a := Z.min n (L - off) in Some (a, deleted_at c (Z.to_nat off) (Z.to_nat a))
  | ETruncate n => if L <=? n then Some (0, c) else Some (n, take (Z.to_nat n) c)
  | EReverse off n => if (L =? 0) || (L <? off + n) then None else Some (0, reversed_at c (Z.to_nat off) (Z.to_nat n))
  | ESwap o1 o2 n => if (L <? o1 + n) || (L <? o2 + n) || (n =? 0) then None else Some (0, swapped c o1 o2 n)
  end.
(** The arguments: unsigned, the end of a range in 32 bits, the result within the store's limit,
    and two ranges of the file to swap apart (copying between overlapping ones is not defined). *)
Definition edit_args c (e : edit) : Prop :=
  let L := Z.of_nat (length c) in
  match e with
  | EWriteAt off b => 0 <= off /\ off + Z.of_nat (length b) <= limit
  | EInsertAt off b => 0 <= off /\ L + Z.of_nat (length b) <= limit
  | EFill off n _ => 0 <= off /\ 0 <= n /\ off + n <= limit
  | EAppend b => L + Z.of_nat (length b) <= limit
  | EDeleteAt off n => 0 <= off /\ 0 <= n /\ off + n < 2 ^ 32
  | ETruncate n => 0 <= n
  | EReverse off n => 0 <= off /\ 0 <= n /\ off + n < 2 ^ 32
  | ESwap o1 o2 n => 0 <= o1 /\ 0 <= o2 /\ 0 <= n /\ o1 + n < 2 ^ 32 /\ o2 + n < 2 ^ 32 /\
      (o1 + n <= L -> o2 + n <= L -> apart_regions o1 o2 n = true)
  end.
(** Deleting everything does not look whether its write succeeds. *)
Definition unreported (e : edit) (c' : bytes) : bool := match e with EDeleteAt _ _ => bool_decide (c' = []) | _ => false end.
Definition edit_outcome w p c (e : edit) : Prop :=
  exists r w', run_edit e p w = Some (r, w') /\
    match edit_result w c e with
    | None => r = -1 /\ holds w' p c
    | Some (z, c') =>
        r = z /\ holds w' p (overwrite replaces c' c) \/
        r < 0 /\ None ∈ heap w /\ holds w' p c \/
        (if unreported e c' then r = z else r < 0) /\ ~ room w p (length c')
    end.
Lemma edits_outcome w p c e n z c' : edit_result w c e = Some (z, c') -> n = length c' -> unreported e c' = false ->
  edits w n w p c (run_edit e p) z (overwrite replaces c' c) -> edit_outcome w p c e.
Proof.
  intros E -> Hu (r & w' & ER & H). exists r, w'. split; [exact ER|]. rewrite E, Hu.
  destruct H as [H|[H [H'|H']]]; [by left|right; left; tauto|by right; right].
Qed.
Lemma outcome_refused w p c e w' : edit_result w c e = None -> run_edit e p w = Some (-1, w') -> holds w' p c -> edit_outcome w p c e.
Proof. intros E ER H. exists (-1), w'. by rewrite E. Qed.
Lemma overwrite_same c : overwrite replaces c c = c.
Proof. by apply overwrite_long. Qed.
Lemma outcome_same w p c e w' : edit_result w c e = Some (0, c) -> run_edit e p w = Some (0, w') -> holds w' p c -> edit_outcome w p c e.
Proof. intros E ER H. exists 0, w'. rewrite E, overwrite_same. split; [done|by left]. Qed.

Lemma written_at_length c b blk off m : m = Z.max (Z.of_nat (length c)) (Z.of_nat off + Z.of_nat (length b)) -> Z.of_nat (length blk) = m ->
  length (written_at c b blk off) = Z.to_nat m.
Proof. intros -> Hb. unfold written_at. rewrite splice_length; rewrite length_app, length_drop; lia. Qed.
Lemma size_zero w p c : holds w p c -> exists w1, VfsGetFileSize p w = Some (Z.of_nat (length c), w1) /\ holds w1 p c /\ heap w1 = heap w.
Proof. intros H. destruct (size_near w w p c (near_refl _ _ _ H)) as (w1 & E & Hn & He). exists w1. split; [done|]. split; [apply Hn|done]. Qed.
(** The heap has no block of no bytes. *)
Lemma kalloc_zero w : KernelMemoryAlloc 0 w = Some (None, w).
Proof. by destruct w. Qed.
Lemma ltb_max (a b : Z) : (if a <? b then b else a) = Z.max a b.
Proof. destruct (Z.ltb_spec a b); lia. Qed.
Lemma WriteAt_outcome w p c off b : holds w p c -> edit_args c (EWriteAt off b) -> edit_outcome w p c (EWriteAt off b).
Proof.
  intros Hh [Ho Hl]. pose proof limit_int as HL. pose proof (holds_limit w p c Hh) as Hc.
  set (m := Z.max (Z.of_nat (length c)) (off + Z.of_nat (length b))). destruct (Z.eqb_spec m 0) as [Hm|Hm].
  - destruct (size_zero w p c Hh) as (w1 & E & H1 & _). apply (outcome_refused _ _ _ _ w1); [cbn; fold m; by rewrite (proj2 (Z.eqb_eq m 0))| |done].
    cbn [run_edit]. unfold VfsWriteAt. rewrite (run_bind _ _ _ _ _ E), (u32_small (off + _)), (u32_small (Z.of_nat (length c))), ltb_max by lia. fold m. by rewrite Hm, (run_bind _ _ _ _ _ (kalloc_zero w1)).
  - eapply edits_outcome; [cbn; fold m; by rewrite (proj2 (Z.eqb_neq m 0))|symmetry; apply written_at_length; [|apply block_length]; lia|done|].
    rewrite overwrite_long by (rewrite (written_at_length _ _ _ _ m) by (rewrite ?block_length; lia); lia). apply VfsWriteAt_ok; [done|lia..].
Qed.
Lemma Fill_outcome w p c off n pat : holds w p c -> edit_args c (EFill off n pat) -> edit_outcome w p c (EFill off n pat).
Proof.
  intros Hh (Ho & Hn & Hl). pose proof limit_int as HL. pose proof (holds_limit w p c Hh) as Hc.
  set (m := Z.max (Z.of_nat (length c)) (off + n)). destruct (Z.eqb_spec m 0) as [Hm|Hm].
  - destruct (size_zero w p c Hh) as (w1 & E & H1 & _). apply (outcome_refused _ _ _ _ w1); [cbn; fold m; by rewrite (proj2 (Z.eqb_eq m 0))| |done].
    cbn [run_edit]. unfold VfsFillRegion. rewrite (run_bind _ _ _ _ _ E), (u32_small (off + _)), (u32_small (Z.of_nat (length c))), ltb_max by lia. fold m. by rewrite Hm, (run_bind _ _ _ _ _ (kalloc_zero w1)).
  - assert (HW : length (written_at c (replicate (Z.to_nat n) pat) (replicate (Z.to_nat m) 0) (Z.to_nat off)) = Z.to_nat m)
      by (apply written_at_length; rewrite length_replicate; lia).
    eapply edits_outcome; [cbn; fold m; by rewrite (proj2 (Z.eqb_neq m 0))|by symmetry|done|].
    rewrite overwrite_long by (rewrite HW; lia). apply VfsFillRegion_ok; [done|lia..].
Qed.
Lemma InsertAt_outcome w p c off b : holds w p c -> edit_args c (EInsertAt off b) -> edit_outcome w p c (EInsertAt off b).
Proof.
  intros Hh [Ho Hl]. pose proof limit_int as HL. destruct (Z.eqb_spec (Z.of_nat (length c) + Z.of_nat (length b)) 0) as [Hm|Hm].
  - destruct (size_zero w p c Hh) as (w1 & E & H1 & _). apply (outcome_refused _ _ _ _ w1); [cbn; by rewrite (proj2 (Z.eqb_eq _ 0))| |done].
    cbn [run_edit]. unfold VfsInsertAt. rewrite (run_bind _ _ _ _ _ E), u32_small by lia. by rewrite Hm, (run_bind _ _ _ _ _ (kalloc_zero w1)).
  - assert (HW : length (inserted_at c b (Z.to_nat off)) = (length c + length b)%nat) by (unfold inserted_at; rewrite !length_app, length_take, length_drop; lia).
    eapply edits_outcome; [cbn; by rewrite (proj2 (Z.eqb_neq _ 0))|by symmetry|done|].
    rewrite overwrite_long by (rewrite HW; lia). apply VfsInsertAt_ok; [done|lia..].
Qed.
Lemma Append_outcome w p c b : holds w p c -> edit_args c (EAppend b) -> edit_outcome w p c (EAppend b).
Proof.
  intros Hh Hl. cbn in Hl. destruct (Z.eqb_spec (Z.of_nat (length c)) 0) as [Hm|Hm].
  - destruct (size_zero w p c Hh) as (w1 & E & H1 & _). apply (outcome_refused _ _ _ _ w1); [cbn; by rewrite (proj2 (Z.eqb_eq _ 0))| |done].
    cbn [run_edit]. unfold VfsAppendFile. by rewrite (run_bind _ _ _ _ _ E), Hm, (run_bind _ _ _ _ _ (kalloc_zero w1)).
  - eapply edits_outcome; [cbn; by rewrite (proj2 (Z.eqb_neq _ 0))|by rewrite length_app|done|].
    rewrite overwrite_long, <- Nat2Z.inj_add by (rewrite length_app; lia). apply VfsAppendFile_ok; [done|by intros ->|lia].
Qed.
Lemma DeleteAt_outcome w p c off n : holds w p c -> edit_args c (EDeleteAt off n) -> edit_outcome w p c (EDeleteAt off n).
Proof.
  intros Hh (Ho & Hn & Hlt). pose proof limit_int as HL. pose proof (holds_limit w p c Hh) as Hc. destruct (Z.leb_spec (Z.of_nat (length c)) off) as [Hp|Hp].
  { destruct (size_zero w p c Hh) as (w1 & E & H1 & _). apply (outcome_same _ _ _ _ w1); [cbn; by rewrite (proj2 (Z.leb_le _ _))| |done].
    cbn [run_edit]. unfold VfsDeleteAt. by rewrite (run_bind _ _ _ _ _ E), (proj2 (Z.leb_le _ _)) by done. }
  set (a := Z.min n (Z.of_nat (length c) - off)). set (c' := deleted_at c (Z.to_nat off) (Z.to_nat a)).
  assert (ER : edit_result w c (EDeleteAt off n) = Some (a, c')) by (cbn; by rewrite (proj2 (Z.leb_gt _ _))).
  destruct (decide (c' = [])) as [Hc'|Hc']; [|eapply edits_outcome; [exact ER|done|by apply bool_decide_eq_false|by apply VfsDeleteAt_ok]].
  assert (Ha : Z.of_nat (length c') = Z.of_nat (length c) - a) by (unfold c', deleted_at; rewrite length_app, length_take, length_drop; lia).
  rewrite Hc' in Ha. cbn [length] in Ha. destruct (size_near w w p c (near_refl _ _ _ Hh)) as (w1 & E & H1 & _).
  destruct (write_near w w1 p c [] H1) as (r & w2 & EW & HW); [cbn; lia|]. exists a, w2. rewrite ER. split.
  - cbn [run_edit]. unfold VfsDeleteAt. rewrite (run_bind _ _ _ _ _ E), (proj2 (Z.leb_gt _ _)), (u32_small (off + n)), (u32_small (Z.of_nat (length c) - off)) by lia.
    assert (Ea : (if Z.of_nat (length c) <? off + n then Z.of_nat (length c) - off else n) = a) by (unfold a; destruct (Z.ltb_spec (Z.of_nat (length c)) (off + n)); lia).
    rewrite Ea, u32_small, (proj2 (Z.eqb_eq _ 0)) by lia. rewrite (run_bind _ _ _ _ _ EW), i32_small by lia. done.
  - rewrite Hc'. destruct HW as [[_ HW]|[_ HW]]; [by left|right; right; split; [|done]]. cbn [unreported]. by rewrite bool_decide_true.
Qed.
Lemma Truncate_outcome w p c n : holds w p c -> edit_args c (ETruncate n) -> edit_outcome w p c (ETruncate n).
Proof.
  intros Hh Hn. cbn in Hn. destruct (Z.leb_spec (Z.of_nat (length c)) n) as [Hp|Hp].
  - destruct (size_zero w p c Hh) as (w1 & E & H1 & _). apply (outcome_same _ _ _ _ w1); [cbn; by rewrite (proj2 (Z.leb_le _ _))| |done].
    cbn [run_edit]. unfold VfsTruncate. by rewrite (run_bind _ _ _ _ _ E), (proj2 (Z.leb_le _ _)) by done.
  - eapply edits_outcome; [cbn; by rewrite (proj2 (Z.leb_gt _ _))| |done|by apply VfsTruncate_ok]. rewrite length_take. lia.
Qed.
Lemma Reverse_outcome w p c off n : holds w p c -> edit_args c (EReverse off n) -> edit_outcome w p c (EReverse off n).
Proof.
  intros Hh (Ho & Hn & Hlt). destruct (Z.ltb_spec (Z.of_nat (length c)) (off + n)) as [Hp|Hp]; [|destruct (Z.eqb_spec (Z.of_nat (length c)) 0) as [Hz|Hz]].
  - destruct (size_zero w p c Hh) as (w1 & E & H1 & _). apply (outcome_refused _ _ _ _ w1); [cbn; by rewrite (proj2 (Z.ltb_lt _ (off + n))), orb_true_r| |done].
    cbn [run_edit]. unfold VfsReverse. by rewrite (run_bind _ _ _ _ _ E), u32_small, (proj2 (Z.ltb_lt _ (off + n))) by lia.
  - destruct (size_zero w p c Hh) as (w1 & E & H1 & _). apply (outcome_refused _ _ _ _ w1); [cbn; by rewrite (proj2 (Z.eqb_eq _ 0))| |done].
    cbn [run_edit]. unfold VfsReverse. rewrite (run_bind _ _ _ _ _ E), u32_small, (proj2 (Z.ltb_ge _ (off + n))) by lia. by rewrite Hz, (run_bind _ _ _ _ _ (kalloc_zero w1)).
  - assert (HW : length (reversed_at c (Z.to_nat off) (Z.to_nat n)) = length c) by (unfold reversed_at; rewrite !length_app, length_reverse, !length_take, !length_drop; lia).
    eapply edits_outcome; [cbn; by rewrite (proj2 (Z.ltb_ge _ (off + n))), (proj2 (Z.eqb_neq _ 0))|by symmetry|done|].
    rewrite overwrite_long by (rewrite HW; lia). apply VfsReverse_ok; [done|lia..].
Qed.
Lemma Swap_outcome w p c o1 o2 n : holds w p c -> edit_args c (ESwap o1 o2 n) -> edit_outcome w p c (ESwap o1 o2 n).
Proof.
  intros Hh (H1 & H2 & Hn & Hl1 & Hl2 & Hap). pose proof limit_int as HL. pose proof (holds_limit w p c Hh) as Hc.
  destruct (size_zero w p c Hh) as (w1 & E & Hh1 & _). destruct ((Z.of_nat (length c) <? o1 + n) || (Z.of_nat (length c) <? o2 + n)) eqn:Ho.
  { apply (outcome_refused _ _ _ _ w1); [cbn; by rewrite Ho| |done].
    cbn [run_edit]. unfold VfsSwapRegions. by rewrite (run_bind _ _ _ _ _ E), (u32_small (o1 + n)), (u32_small (o2 + n)), Ho by lia. }
  destruct (Z.eqb_spec n 0) as [->|Hz].
  { destruct (KernelMemoryAlloc (Z.of_nat (length c)) w1) as [[b w2]|] eqn:Eb; [|done].
    assert (H3 : w2 = set_heap (heap w2) w1) by (unfold KernelMemoryAlloc in Eb; injection Eb as <- <-; done).
    apply (outcome_refused _ _ _ _ w2); [cbn; by rewrite Ho, orb_true_r| |rewrite H3; by apply holds_heap].
    cbn [run_edit]. unfold VfsSwapRegions. rewrite (run_bind _ _ _ _ _ E), (u32_small (o1 + 0)), (u32_small (o2 + 0)), Ho by lia.
    rewrite (run_bind _ _ _ _ _ Eb), (run_bind _ _ _ _ _ (kalloc_zero w2)). by destruct b. }
  apply orb_false_iff in Ho as [Ho1 Ho2]. pose proof (proj1 (Z.ltb_ge _ _) Ho1) as Hr1. pose proof (proj1 (Z.ltb_ge _ _) Ho2) as Hr2.
  assert (HW : length (swapped c o1 o2 n) = length c).
  { assert (Hs : forall o, 0 <= o -> o + n <= Z.of_nat (length c) -> length (slice c o n) = Z.to_nat n) by (intros o ? ?; unfold slice; rewrite length_take, length_drop; lia).
    unfold swapped. rewrite !splice_length; rewrite ?splice_length; rewrite ?Hs; lia. }
  eapply edits_outcome; [cbn; by rewrite Ho1, Ho2, (proj2 (Z.eqb_neq n 0))|by symmetry|done|].
  rewrite overwrite_long by (rewrite HW; lia). apply VfsSwapRegions_ok; [done|lia..|by apply Hap].
Qed.
Lemma edit_ok w p c e : holds w p c -> edit_args c e -> edit_outcome w p c e.
Proof.
  destruct e; [apply WriteAt_outcome|apply InsertAt_outcome|apply Fill_outcome|apply Append_outcome
    |apply DeleteAt_outcome|apply Truncate_outcome|apply Reverse_outcome|apply Swap_outcome].
Qed.

(** ** Queries *)
(** An operation that leaves the file as it is: it has the answer [good], or the heap refused a
    block and it has the answer [fail]. *)
Definition answers {A} w0 w p c (op : STM (vfs X) A) (good : A -> Prop) (fail : A) : Prop :=
  exists a w', op w = Some (a, w') /\ near w0 w' p c /\ (good a \/ a = fail /\ None ∈ heap w0).
Lemma answers_run {A B} w0 w w1 p c (m : STM (vfs X) A) (f : A -> STM (vfs X) B) a good fail :
  m w = Some (a, w1) -> answers w0 w1 p c (f a) good fail -> answers w0 w p c (m ≫= f) good fail.
Proof. intros E (r & w' & H1 & H2). exists r, w'. by rewrite (run_bind _ _ _ _ _ E). Qed.
Lemma answers_ret {A} w0 w p c (good : A -> Prop) a fail : near w0 w p c -> good a -> answers w0 w p c (mret a) good fail.
Proof. intros Hn Hg. exists a, w. split; [done|]. split; [done|by left]. Qed.
Lemma answers_sized {A} w p c (f : Z -> STM (vfs X) A) good fail : holds w p c ->
  (forall w1, near w w1 p c -> answers w w1 p c (f (Z.of_nat (length c))) good fail) -> answers w w p c (n ← VfsGetFileSize p; f n) good fail.
Proof. intros Hh H. destruct (size_near w w p c (near_refl _ _ _ Hh)) as (w1 & Hr & Hn & _). eapply answers_run; [exact Hr|]. by apply H. Qed.
(** The whole file read into a block of its size. *)
Lemma answers_whole {A} w0 w p c (f : Z * bytes -> STM (vfs X) A) good fail : near w0 w p c -> c <> [] ->
  (forall w1, near w0 w1 p c -> answers w0 w1 p c (f (Z.of_nat (length c), c)) good fail) ->
  answers w0 w p c (b ← KernelMemoryAlloc (Z.of_nat (length c));
    match b with None => mret fail | Some b => r ← read_into p b (u32 (Z.of_nat (length c))); f r end) good fail.
Proof.
  intros Hh Hne H. pose proof (holds_limit w p c (near_holds _ _ _ _ Hh)) as Hc. pose proof limit_int as HL.
  assert (Hpos : 0 < Z.of_nat (length c)) by (destruct c; [done|cbn; lia]). rewrite u32_small by lia.
  destruct (kalloc w _ Hpos) as (h & Hs & [[E Hno]|E]); (eapply answers_run; [exact E|]); assert (Hh1 : near w0 (set_heap h w) p c) by (by apply near_set_heap).
  { exists fail, (set_heap h w). split; [done|]. split; [done|right]. split; [done|]. by apply (near_heap _ _ _ _ Hh). }
  set (blk := block w (Z.of_nat (length c))). assert (Hb : Z.of_nat (length blk) = Z.of_nat (length c)) by (apply block_length; lia).
  destruct (read_into_run w0 (set_heap h w) p c blk (Z.of_nat (length c)) Hh1) as (w2 & Hr & Hh2); [lia|lia|].
  eapply answers_run; [exact Hr|]. rewrite drop_ge, app_nil_r by lia. by apply H.
Qed.
Lemma slice_past c off n : Z.of_nat (length c) <= off -> slice c off n = [].
Proof. intros H. unfold slice. rewrite drop_ge by lia. apply take_nil. Qed.
Lemma slice_clip c off n : 0 <= off <= Z.of_nat (length c) -> slice c off (Z.min n (Z.of_nat (length c) - off)) = slice c off n.
Proof.
  intros H. unfold slice. destruct (Z.min_spec n (Z.of_nat (length c) - off)) as [[_ ->]|[Hge ->]]; [done|].
  rewrite !take_ge by (rewrite length_drop; lia). done.
Qed.
Lemma clip c off n : 0 <= off < Z.of_nat (length c) -> 0 <= n -> off + n < 2 ^ 32 -> Z.of_nat (length c) < 2 ^ 32 ->
  (if Z.of_nat (length c) <? u32 (off + n) then u32 (Z.of_nat (length c) - off) else n) = Z.min n (Z.of_nat (length c) - off).
Proof. intros H1 H2 H3 H4. rewrite !u32_small by lia. destruct (Z.ltb_spec (Z.of_nat (length c)) (off + n)); lia. Qed.
Lemma VfsReadAt_ok w p c off n : holds w p c -> 0 <= off -> 0 <= n -> off + n < 2 ^ 32 ->
  answers w w p c (VfsReadAt p off n) (fun a => a = (Z.of_nat (length (slice c off n)), slice c off n)) (-1, []).
Proof.
  intros Hh Ho Hn Hlt. pose proof limit_int as HL. pose proof (holds_limit w p c Hh) as Hc. unfold VfsReadAt. apply answers_sized; [done|]. intros w1 Hh1.
  destruct (Z.leb_spec (Z.of_nat (length c)) off) as [Hp|Hp]; [apply answers_ret; [done|]; by rewrite slice_past|].
  rewrite clip by lia. rewrite <- slice_clip by lia. set (t := Z.min n (Z.of_nat (length c) - off)).
  apply answers_whole; [done|by intros ->; cbn in Hp; lia|]. intros w2 Hh2. cbn [fst snd].
  rewrite (proj2 (Z.ltb_lt 0 _)), (proj2 (Z.ltb_lt off _)), (u32_small (off + t)), (proj2 (Z.ltb_ge _ (off + t))) by lia. cbn [andb].
  rewrite mem_read_ok by lia. eapply answers_run; [done|]. apply answers_ret; [done|]. rewrite i32_small by lia. unfold slice. f_equal. rewrite length_take, length_drop. lia.
Qed.
Lemma checksum_loop_sum d s : 0 <= s < 2 ^ 32 -> checksum_loop d s = u32 (s + foldr Z.add 0 d).
Proof.
  revert s. induction d as [|b d IH]; intros s Hs; cbn [checksum_loop foldr]; [by rewrite Z.add_0_r, u32_small|].
  rewrite IH by apply u32_range. unfold u32. rewrite Zplus_mod_idemp_l. f_equal. lia.
Qed.
Lemma VfsChecksum_ok w p c off n : holds w p c -> 0 <= off -> 0 <= n -> off + n < 2 ^ 32 ->
  answers w w p c (VfsChecksum p off n) (fun a => a = i32 (foldr Z.add 0 (slice c off n))) (-1).
Proof.
  intros Hh Ho Hn Hlt. pose proof limit_int as HL. pose proof (holds_limit w p c Hh) as Hc. unfold VfsChecksum. apply answers_sized; [done|]. intros w1 Hh1.
  destruct (Z.leb_spec (Z.of_nat (length c)) off) as [Hp|Hp]; [apply answers_ret; [done|]; by rewrite slice_past|].
  rewrite clip by lia. rewrite <- slice_clip by lia. set (t := Z.min n (Z.of_nat (length c) - off)).
  apply answers_whole; [done|by intros ->; cbn in Hp; lia|]. intros w2 Hh2. cbn [fst snd]. rewrite mem_read_ok by lia. eapply answers_run; [done|].
  apply answers_ret; [done|]. rewrite checksum_loop_sum by lia. unfold i32. by rewrite (u32_small (u32 _)) by apply u32_range.
Qed.
(** The first place at or after [start] where the pattern is. *)
Definition match_at (c pat : bytes) (i : Z) : Prop := i + Z.of_nat (length pat) <= Z.of_nat (length c) /\ slice c i (Z.of_nat (length pat)) = pat.
Definition first_match (c pat : bytes) (start r : Z) : Prop :=
  (start <= r /\ match_at c pat r /\ forall j, start <= j < r -> ~ match_at c pat j) \/ (r = -1 /\ forall j, start <= j -> ~ match_at c pat j).
Lemma search_loop_ok fuel i c pat : 0 <= i <= Z.of_nat (length c) -> Z.of_nat (length c) < 2 ^ 31 -> (length pat <= length c)%nat ->
  Z.of_nat (length c) - i < Z.of_nat fuel ->
  exists r, search_loop fuel i (Z.of_nat (length c) - Z.of_nat (length pat)) c pat (Z.of_nat (length pat)) = Some r /\ first_match c pat i r.
Proof.
  revert i. induction fuel as [|fuel IH]; intros i Hi Hc Hp Hf; [lia|]. cbn [search_loop].
  destruct (Z.leb_spec i (Z.of_nat (length c) - Z.of_nat (length pat))) as [Hle|Hgt].
  2:{ exists (-1). split; [done|right]. split; [done|]. intros j Hj [H1 _]. lia. }
  rewrite !mem_read_ok, !option_bind_Some by lia. fold (slice c i (Z.of_nat (length pat))).
  rewrite drop_0, (take_ge pat) by lia. destruct (bool_decide (slice c i (Z.of_nat (length pat)) = pat)) eqn:E.
  { apply bool_decide_eq_true in E. exists i. rewrite i32_small by lia. split; [done|left]. split; [lia|]. split; [split; [lia|done]|]. lia. }
  apply bool_decide_eq_false in E. rewrite u32_small by lia. assert (Hno : ~ match_at c pat i) by (intros [_ H]; done).
  destruct (decide (i = Z.of_nat (length c))) as [Hend|Hne].
  { destruct pat as [|x pat]; [|cbn [length] in *; lia]. exfalso. by apply E. }
  destruct (IH (i + 1) ltac:(lia) Hc Hp ltac:(lia)) as (r & -> & Hr). exists r. split; [done|].
  assert (Hout : forall j, i <= j -> (i + 1 <= j -> ~ match_at c pat j) -> ~ match_at c pat j) by (intros j Hj H; destruct (decide (j = i)) as [->|]; [done|apply H; lia]).
  destruct Hr as [(H1 & H2 & H3)|[-> H3]]; [left|right; split; [done|]; intros j Hj; apply Hout; auto]. split; [lia|]. split; [done|]. intros j Hj. apply Hout; [lia|]. intros. apply H3. lia.
Qed.
Lemma VfsSearchBytes_ok w p c pat start : holds w p c -> 0 <= start -> pat <> [] -> (length pat <= length c)%nat ->
  answers w w p c (VfsSearchBytes p pat (Z.of_nat (length pat)) start) (first_match c pat start) (-1).
Proof.
  intros Hh Ho Hne Hl. pose proof limit_int as HL. pose proof (holds_limit w p c Hh) as Hc. assert (Hpos : 0 < Z.of_nat (length pat)) by (destruct pat; [done|cbn; lia]).
  unfold VfsSearchBytes. apply answers_sized; [done|]. intros w1 Hh1. rewrite (proj2 (Z.eqb_neq _ 0)), orb_false_r by lia.
  destruct (Z.leb_spec (Z.of_nat (length c)) start) as [Hp|Hp].
  { apply answers_ret; [done|]. right. split; [done|]. intros j Hj [H _]. lia. }
  rewrite u64_small by lia. apply answers_whole; [done|by intros ->; cbn in Hp; lia|]. intros w2 Hh2. cbn [fst snd].
  destruct (search_loop_ok (S (Z.to_nat (Z.of_nat (length c)))) start c pat) as (r & -> & Hr); [lia|lia|lia|lia|]. exists r, w2. split; [done|]. split; [done|by left].
Qed.
(** A pattern longer than the file is compared with bytes past the block. *)
Lemma VfsSearchBytes_past w p c pat start : holds w p c -> 0 <= start < Z.of_nat (length c) -> (length c < length pat)%nat -> Z.of_nat (length pat) < 2 ^ 32 ->
  ~ None ∈ heap w -> VfsSearchBytes p pat (Z.of_nat (length pat)) start w = None.
Proof.
  intros Hh Ho Hl Hp Hno. pose proof limit_int as HL. pose proof (holds_limit w p c Hh) as Hc.
  destruct (size_near w w p c (near_refl _ _ _ Hh)) as (w1 & Hr & Hn & He). unfold VfsSearchBytes. rewrite (run_bind _ _ _ _ _ Hr).
  rewrite (proj2 (Z.leb_gt _ start)), (proj2 (Z.eqb_neq _ 0)) by lia. cbn [orb].
  destruct (kalloc w1 (Z.of_nat (length c)) ltac:(lia)) as (h & Hs & [[_ Hbad]|E]); [by rewrite He in Hbad|]. rewrite (run_bind _ _ _ _ _ E).
  set (blk := block w1 (Z.of_nat (length c))). assert (Hb : Z.of_nat (length blk) = Z.of_nat (length c)) by (apply block_length; lia).
  destruct (read_into_run w (set_heap h w1) p c blk (Z.of_nat (length c))) as (w2 & Hri & _); [by apply near_set_heap|lia|lia|].
  rewrite u32_small by lia. rewrite (run_bind _ _ _ _ _ Hri). rewrite drop_ge, app_nil_r by lia. cbn [snd search_loop].
  assert (Hw : u64 (Z.of_nat (length c) - Z.of_nat (length pat)) = 2 ^ 64 + (Z.of_nat (length c) - Z.of_nat (length pat))).
  { unfold u64. rewrite <- (Z.mod_add _ 1) by lia. rewrite Z.mod_small; lia. }
  rewrite Hw, (proj2 (Z.leb_le start _)) by lia. by rewrite (mem_read_out c start) by lia.
Qed.
(** Appending to an empty file fails: the heap gives no block of no bytes. *)
Lemma VfsAppendFile_empty w p b n : holds w p [] -> exists w', VfsAppendFile realloc pid p b n w = Some (-1, w') /\ holds w' p [].
Proof.
  intros Hh. destruct (size_near w w p [] (near_refl _ _ _ Hh)) as (w1 & Hr & Hn & _). exists w1. split; [|apply Hn].
  unfold VfsAppendFile. rewrite (run_bind _ _ _ _ _ Hr). by destruct w1.
Qed.
End store.
