(* ===== verification/VfsRam.v ===== *)
(** The in-memory file system as a file store of the virtual file system layer. *)
From Stdlib Require Import ZArith Lia.
From stdpp Require Import base tactics sets list numbers option.
From S2P Require Import Prelude Vfrfs VfrfsInv VfrfsCreate VfrfsFind VfrfsOps VfrfsPath Vfs VfsRange VfsStore.

(** ** Path lookup depends on the links only *)
Definition links (n : FsNode) := (name n, parent n, children n, next_sibling n).
Definition same_view (s s' : fs) : Prop := root_node s' = root_node s /\ forall k, links <$> get_node k s' = links <$> get_node k s.
Lemma same_view_refl s : same_view s s.
Proof. done. Qed.
Lemma same_view_trans s1 s2 s3 : same_view s1 s2 -> same_view s2 s3 -> same_view s1 s3.
Proof. intros [H1 H2] [H3 H4]. split; [congruence|]. intros k. by rewrite H4. Qed.
Lemma same_view_nodes s s' : root_node s' = root_node s -> fs_nodes s' = fs_nodes s -> same_view s s'.
Proof. intros H1 H2. split; [done|]. intros k. unfold get_node. by rewrite H2. Qed.
Lemma view_node s s' k n : same_view s s' -> get_node k s = Some n -> exists n', get_node k s' = Some n' /\ links n' = links n.
Proof. intros [_ H] E. specialize (H k). rewrite E in H. destruct (get_node k s') as [n'|]; [|done]. exists n'. split; [done|]. by apply (inj Some) in H. Qed.
Lemma view_none s s' k : same_view s s' -> get_node k s = None -> get_node k s' = None.
Proof. intros [_ H] E. specialize (H k). rewrite E in H. by destruct (get_node k s'). Qed.
Lemma find_child_view s s' nm fuel c : same_view s s' -> find_child fuel c nm s' = find_child fuel c nm s.
Proof.
  intros H. revert c. induction fuel as [|fuel IH]; intros c; [done|]. destruct c as [i|]; [|done]. cbn [find_child].
  destruct (get_node i s) as [n|] eqn:E; [|by rewrite (view_none _ _ _ H E)]. destruct (view_node _ _ _ _ H E) as (n' & -> & L).
  unfold links in L. injection L as L1 L2 L3 L4. rewrite !option_bind_Some, L1, L4. by destruct (bool_decide _).
Qed.
Lemma walk_view s s' fuel cur p : same_view s s' -> walk_loop fuel cur p s' = walk_loop fuel cur p s.
Proof.
  intros H. revert cur p. induction fuel as [|fuel IH]; intros cur p; [done|]. cbn [walk_loop]. destruct p; [done|]. destruct (skip_slashes _) as [|x q]; [done|].
  destruct (component 0 _) as [nm rest]. destruct (bool_decide (nm = dot)); [apply IH|].
  destruct (get_node cur s) as [n|] eqn:E; [|by rewrite (view_none _ _ _ H E)]. destruct (view_node _ _ _ _ H E) as (n' & -> & L).
  unfold links in L. injection L as L1 L2 L3 L4. rewrite !option_bind_Some, L2, L3. destruct (bool_decide (nm = dotdot)); [apply IH|].
  rewrite (find_child_view s s') by done. destruct (find_child _ _ _ _) as [[i|]|]; [|done|done]. rewrite !option_bind_Some. apply IH.
Qed.
Lemma FsFind_view s s' path : same_view s s' -> FsFind path s' = FsFind path s.
Proof. intros H. unfold FsFind. rewrite (proj1 H). destruct (root_node s); [|done]. destruct (bool_decide _); [done|]. by apply walk_view. Qed.

(** ** Opening, writing and closing *)
(** A handle is free, and descriptors are given out in increasing order. *)
Record ready (s : fs) : Prop := {
  rd_free : exists h x, file_handles s !! h = Some x /\ fd x = 0;
  rd_next : 0 < next_fd s <= 2 ^ 31;
  rd_below : forall h x, file_handles s !! h = Some x -> 0 <= fd x < next_fd s
}.
Definition grab (h : nat) (x : FileHandle) (s : fs) : fs :=
  mk_fs (root_node s) (<[h := mk_handle (hnode x) (position x) (hflags x) (next_fd s) (owner_pid x)]> (file_handles s)) (fs_nodes s)
    (next_node_idx_hint s) (Z.of_nat h + 1) (next_node_id s) (next_fd s + 1).
Definition handle_slot (s : fs) (j : Z) : nat := Z.to_nat ((next_handle_idx_hint s + j) mod Z.of_nat MAX_OPEN_FILES).
Lemma alloc_handle_cases s n i : aux_ok s -> 0 < next_fd s <= 2 ^ 31 -> 0 <= i -> i + Z.of_nat n = Z.of_nat MAX_OPEN_FILES ->
  (exists h x, file_handles s !! h = Some x /\ fd x = 0 /\ alloc_handle_loop n i s = Some (Some h, grab h x s)) \/
  forall j, i <= j < Z.of_nat MAX_OPEN_FILES -> forall x, file_handles s !! handle_slot s j = Some x -> fd x <> 0.
Proof.
  intros HA Hf. revert i. induction n as [|n IH]; intros i Hi E; [right; lia|]. pose proof (ak_hhint _ HA) as Hh. pose proof (ak_hlen _ HA) as HL.
  cbn [alloc_handle_loop]. rewrite (u32_small (next_handle_idx_hint s + i)) by (unfold MAX_OPEN_FILES in *; lia). fold (handle_slot s i).
  assert (Hlt : (handle_slot s i < 32)%nat) by (pose proof (Z.mod_pos_bound (next_handle_idx_hint s + i) 32); unfold handle_slot, MAX_OPEN_FILES; lia).
  destruct (lookup_lt_is_Some_2 (file_handles s) (handle_slot s i)) as (x & Hx); [unfold MAX_OPEN_FILES in *; lia|]. rewrite Hx, option_bind_Some. cbv beta.
  destruct (Z.eqb_spec (fd x) 0) as [Hz|Hnz].
  - left. exists (handle_slot s i), x. split; [done|]. split; [done|]. rewrite u32_small, (proj2 (Z.eqb_neq _ 0)) by lia. done.
  - destruct (IH (i + 1) ltac:(lia) ltac:(lia)) as [H|H]; [by left|right]. intros j Hj y Hy. destruct (decide (j = i)) as [->|]; [congruence|apply (H j); [lia|done]].
Qed.
Lemma AllocHandle_ready s : aux_ok s -> ready s -> exists h x, file_handles s !! h = Some x /\ fd x = 0 /\ AllocHandle s = Some (Some h, grab h x s).
Proof.
  intros HA [(h & x & Hx & Hz) Hn _]. destruct (alloc_handle_cases s MAX_OPEN_FILES 0 HA Hn) as [H|H]; [lia|lia|done|]. exfalso.
  pose proof (lookup_lt_Some _ _ _ Hx) as Hl. rewrite (ak_hlen _ HA) in Hl. unfold MAX_OPEN_FILES in *.
  apply (H ((Z.of_nat h - next_handle_idx_hint s) mod 32)) with x; [apply Z.mod_pos_bound; lia| |done]. rewrite <- Hx. f_equal.
  unfold handle_slot, MAX_OPEN_FILES. rewrite Zplus_mod_idemp_r. replace (next_handle_idx_hint s + (Z.of_nat h - next_handle_idx_hint s)) with (Z.of_nat h) by lia.
  rewrite Z.mod_small by lia. lia.
Qed.
Lemma get_handle_first f s h x n i : length (file_handles s) = MAX_OPEN_FILES -> file_handles s !! h = Some x -> fd x = u32 f ->
  (forall k y, file_handles s !! k = Some y -> fd y = u32 f -> k = h) -> (i <= h)%nat -> (i + n = MAX_OPEN_FILES)%nat ->
  get_handle_loop n i f s = Some (Some h).
Proof.
  intros HL Hx Hf Huniq. revert i. induction n as [|n IH]; intros i Hi E; [pose proof (lookup_lt_Some _ _ _ Hx); lia|]. cbn [get_handle_loop].
  destruct (lookup_lt_is_Some_2 (file_handles s) i) as (y & Hy); [lia|]. rewrite Hy, option_bind_Some. destruct (Z.eqb_spec (fd y) (u32 f)) as [Ey|Ey]; [by rewrite (Huniq _ _ Hy Ey)|].
  apply IH; [|lia]. destruct (decide (i = h)) as [->|]; [congruence|lia].
Qed.
(** A file opened: its handle is new, the nodes are as they were. *)
Definition opened (s : fs) (h i : nat) (flags pos pid : Z) : fs :=
  mk_fs (root_node s) (<[h := mk_handle (Some i) pos flags (next_fd s) pid]> (file_handles s)) (fs_nodes s)
    (next_node_idx_hint s) (Z.of_nat h + 1) (next_node_id s) (next_fd s + 1).
Lemma FsOpen_ready s K dep r path flags pid i n : fs_inv s K dep r -> ready s -> FsFind path s = Some (Some i) -> get_node i s = Some n -> ntype n = FS_FILE ->
  has flags FS_APPEND = false -> exists h x, file_handles s !! h = Some x /\ fd x = 0 /\
    FsOpen path flags pid s = Some (i32 (next_fd s), opened s h i flags 0 pid).
Proof.
  intros HI HR HF Hn Ht Hap. destruct (AllocHandle_ready s (fi_aux _ _ _ _ HI) HR) as (h & x & Hx & Hz & EA). exists h, x. split; [done|]. split; [done|].
  unfold FsOpen. rewrite HF, !option_bind_Some, Hn, option_bind_Some, Ht, (bool_decide_true (FS_FILE = FS_FILE)), EA, option_bind_Some by done. cbn [negb].
  unfold grab. cbn [file_handles set_file_handles root_node fs_nodes next_node_idx_hint next_handle_idx_hint next_node_id next_fd]. rewrite list_lookup_insert_eq by (by eapply lookup_lt_Some). rewrite option_bind_Some, Hap. cbn [fd].
  unfold opened, set_file_handles. cbn. by rewrite list_insert_insert_eq.
Qed.
Lemma opened_inv s K dep r h i flags pid : fs_inv s K dep r -> (h < MAX_OPEN_FILES)%nat -> (i < MAX_FS_NODES)%nat -> fs_inv (opened s h i flags 0 pid) K dep r.
Proof.
  intros HI Hh Hi. assert (HX : handle_ok (mk_handle (Some i) 0 flags (next_fd s) pid)) by (split; cbn; [by intros ? [= <-]|lia]).
  destruct (inv_handles s h _ K dep r HI HX) as [HT HA]. split.
  - eapply same_tree_ok; [|exact HT]. by apply same_tree_nodes.
  - destruct HA. split; cbn in *; try done. unfold MAX_OPEN_FILES in *. lia.
Qed.
Lemma opened_handle s h i flags pid : aux_ok s -> ready s -> next_fd s < 2 ^ 31 -> (h < MAX_OPEN_FILES)%nat ->
  GetHandle (next_fd s) (opened s h i flags 0 pid) = Some (Some h).
Proof.
  intros HA HR Hlt Hh. pose proof (rd_next _ HR) as Hn. pose proof (ak_hlen _ HA) as HL. unfold GetHandle. rewrite (proj2 (Z.leb_gt (next_fd s) 0)) by lia.
  apply get_handle_first with (mk_handle (Some i) 0 flags (next_fd s) pid); cbn [opened file_handles]; [by rewrite length_insert|by apply list_lookup_insert_eq; lia|by cbn; rewrite u32_small by lia| |lia|done].
  intros k y Hk Ey. rewrite u32_small in Ey by lia. destruct (decide (k = h)) as [|Hne]; [done|]. rewrite list_lookup_insert_ne in Hk by done. apply (rd_below _ HR) in Hk. lia.
Qed.
Lemma upd_node_keeps i f s s' : upd_node i f s = Some s' -> root_node s' = root_node s /\ next_fd s' = next_fd s /\ file_handles s' = file_handles s.
Proof. unfold upd_node. destruct (get_node i s); [|done]. by intros [= <-]. Qed.
Lemma FsWrite_keeps realloc f buf s z s' : FsWrite realloc f buf s = Some (z, s') ->
  root_node s' = root_node s /\ next_fd s' = next_fd s /\
  (file_handles s' = file_handles s \/ exists h x p, file_handles s !! h = Some x /\ GetHandle f s = Some (Some h) /\
     file_handles s' = <[h := mk_handle (hnode x) p (hflags x) (fd x) (owner_pid x)]> (file_handles s)).
Proof.
  unfold FsWrite, set_position. intros E. destruct (GetHandle f s) as [[h|]|]; [| |done]; [|injection E as <- <-; auto]. rewrite option_bind_Some in E.
  destruct (file_handles s !! h) as [x|] eqn:Hx; [|done]. rewrite option_bind_Some in E. destruct (has (hflags x) FS_WRITE); [|injection E as <- <-; auto]. cbn [negb] in E.
  destruct (Z.of_nat (length buf) =? 0); [injection E as <- <-; auto|]. destruct (hnode x) as [i|] eqn:Ei; [|injection E as <- <-; auto].
  destruct (get_node i s) as [n|]; [|done]. rewrite option_bind_Some in E. destruct (if size n <? _ then _ else _) as [[[d ns]|]|]; [| |done]; [|injection E as <- <-; auto].
  rewrite option_bind_Some in E. destruct (mem_write _ _ _) as [d'|]; [|done]. rewrite option_bind_Some in E. destruct (upd_node _ _ _) as [s1|] eqn:EU; [|done].
  rewrite option_bind_Some in E. destruct (upd_node_keeps _ _ _ _ EU) as (H1 & H2 & H3). rewrite H3, Hx, !option_bind_Some in E. injection E as <- <-. cbn. rewrite H1, H2.
  split; [done|]. split; [done|right]. exists h, x, (u64 (position x + Z.of_nat (length buf))). by rewrite Ei.
Qed.

(** A write through a fresh handle: the contents change, and nothing else does. *)
Record stored (s s' : fs) (i : nat) (n : FsNode) (c : bytes) : Prop := {
  sd_ok : fs_ok s';
  sd_ready : ready s';
  sd_view : same_view s s';
  sd_node : exists n', get_node i s' = Some n' /\ ntype n' = ntype n /\ default [] (data n') = c;
  sd_other : forall k, k <> i -> get_node k s' = get_node k s;
  sd_fd : next_fd s' = next_fd s + 1;
  sd_id : next_node_id s' = next_node_id s
}.
Section write.
Context (realloc : bytes -> Z -> option (option bytes)) (HR : realloc_ok realloc) (HS : realloc_steady realloc).
Lemma closed_again s s2 h i pid s1 : fs_inv s2 s1.1.1 s1.1.2 s1.2 -> aux_ok s -> ready s -> next_fd s < 2 ^ 31 -> (h < MAX_OPEN_FILES)%nat ->
  (file_handles s2 = file_handles (opened s h i FS_WRITE 0 pid) \/ exists x p, file_handles (opened s h i FS_WRITE 0 pid) !! h = Some x /\
     file_handles s2 = <[h := mk_handle (hnode x) p (hflags x) (fd x) (owner_pid x)]> (file_handles (opened s h i FS_WRITE 0 pid))) ->
  next_fd s2 = next_fd s + 1 ->
  exists s3, FsClose (next_fd s) s2 = Some (0, s3) /\ fs_inv s3 s1.1.1 s1.1.2 s1.2 /\ ready s3 /\ fs_nodes s3 = fs_nodes s2 /\ root_node s3 = root_node s2 /\
    next_fd s3 = next_fd s + 1 /\ next_node_id s3 = next_node_id s2.
Proof.
  intros HI HA HRd Hlt Hh Hfs Hfd. pose proof (ak_hlen _ HA) as HL. pose proof (rd_next _ HRd) as Hn.
  assert (Hof : forall k, k <> h -> file_handles s2 !! k = file_handles s !! k).
  { intros k Hk. destruct Hfs as [->|(x & p & _ & ->)]; cbn; by rewrite ?list_lookup_insert_ne by done. }
  assert (HG : GetHandle (next_fd s) s2 = Some (Some h)).
  { rewrite <- (opened_handle s h i FS_WRITE pid HA HRd Hlt Hh). apply GetHandle_ext. intros k. destruct Hfs as [->|(x & p & Hx & ->)]; [done|].
    destruct (decide (k = h)) as [->|]; [|by rewrite list_lookup_insert_ne]. rewrite list_lookup_insert_eq by (by eapply lookup_lt_Some). by rewrite Hx. }
  unfold FsClose. rewrite HG, option_bind_Some. eexists. split; [done|]. split; [apply inv_handles; [done|apply zero_handle_ok]|].
  assert (Hl2 : length (file_handles s2) = MAX_OPEN_FILES) by apply (fi_aux _ _ _ _ HI).
  split; [|done]. split; cbn.
  - exists h, zero_handle. split; [apply list_lookup_insert_eq; lia|done].
  - lia.
  - intros k x. destruct (decide (k = h)) as [->|Hk]; [rewrite list_lookup_insert_eq by lia; intros [= <-]; cbn; lia|].
    rewrite list_lookup_insert_ne, Hof by done. intros Hx. apply (rd_below _ HRd) in Hx. lia.
Qed.
Lemma ram_write_ok s path buf pid i n : fs_ok s -> ready s -> next_fd s < 2 ^ 31 -> FsFind path s = Some (Some i) -> get_node i s = Some n -> ntype n = FS_FILE ->
  Z.of_nat (length buf) <= realloc_max -> let old := default [] (data n) in
  exists s1 z s2 s3, FsOpen path FS_WRITE pid s = Some (next_fd s, s1) /\ FsWrite realloc (next_fd s) buf s1 = Some (z, s2) /\ FsClose (next_fd s) s2 = Some (0, s3) /\
    (z = Z.of_nat (length buf) /\ stored s s3 i n (overwrite false buf old) \/
     z = -1 /\ (length old < length buf)%nat /\ realloc old (Z.of_nat (length buf)) = Some None).
Proof.
  intros (K & dep & r & HI) HRd Hlt HF Hn Ht Hl old. unfold realloc_max in Hl. pose proof HI as [HT HA].
  destruct (FsOpen_ready s K dep r path FS_WRITE pid i n HI HRd HF Hn Ht eq_refl) as (h & x0 & Hx0 & Hz0 & EO). pose proof (rd_next _ HRd) as Hnx.
  assert (Hh : (h < MAX_OPEN_FILES)%nat) by (rewrite <- (ak_hlen _ HA); by eapply lookup_lt_Some).
  rewrite i32_small in EO by lia. set (s1 := opened s h i FS_WRITE 0 pid) in *.
  assert (HI1 : fs_inv s1 K dep r) by (apply opened_inv; [done|done|by eapply get_lt_inv]).
  assert (HG : GetHandle (next_fd s) s1 = Some (Some h)) by (by apply opened_handle).
  set (x := mk_handle (Some i) 0 FS_WRITE (next_fd s) pid). assert (Hx : file_handles s1 !! h = Some x) by (apply list_lookup_insert_eq; rewrite (ak_hlen _ HA); lia).
  assert (Hsz : size n = Z.of_nat (length old)) by (destruct (ak_content _ HA _ _ Hn) as [-> _]; unfold old; by destruct (data n)).
  destruct (decide (buf = [])) as [->|Hb].
  { assert (EW : FsWrite realloc (next_fd s) [] s1 = Some (0, s1)) by (unfold FsWrite; by rewrite HG, option_bind_Some, Hx, option_bind_Some).
    destruct (closed_again s s1 h i pid (K, dep, r) HI1 HA HRd Hlt Hh ltac:(by left) eq_refl) as (s3 & EC & HI3 & HR3 & Hn3 & Hr3 & Hf3 & Hi3).
    exists s1, 0, s1, s3. split; [done|]. split; [done|]. split; [done|left]. split; [done|]. split; try done.
    - by exists K, dep, r.
    - apply same_view_nodes; [by rewrite Hr3|by rewrite Hn3].
    - exists n. unfold get_node. rewrite Hn3. done.
    - intros k _. unfold get_node. by rewrite Hn3. }
  destruct (write_cases realloc HR s1 K dep r _ h x i n buf HI1 HG Hx eq_refl eq_refl Hn Hb ltac:(lia)) as [(EW & Hlen & ER)|[(_ & _ & _ & ER)|(d & t1 & s2 & EW & Hd & _ & Hi1 & Ho1 & Hf1 & Hid1 & EP & HI2 & Hid2)]].
  { destruct (closed_again s s1 h i pid (K, dep, r) HI1 HA HRd Hlt Hh ltac:(by left) eq_refl) as (s3 & EC & _).
    exists s1, (-1), s1, s3. split; [done|]. split; [done|]. split; [done|right]. split; [done|]. cbn [x position] in Hlen, ER. rewrite Z.add_0_l in ER. fold old in ER. split; [lia|done]. }
  { exfalso. revert ER. apply HS. cbn [x position]. unfold realloc_max. lia. }
  destruct (FsWrite_keeps _ _ _ _ _ _ EW) as (Hr2 & Hf2 & Hfs2).
  destruct (closed_again s s2 h i pid (K, dep, r) HI2 HA HRd Hlt Hh) as (s3 & EC & HI3 & HR3 & Hn3 & Hr3 & Hf3 & Hi3).
  { destruct Hfs2 as [?|(h' & x' & p & Hx' & HG' & ?)]; [by left|right]. rewrite HG in HG'. injection HG' as <-. by exists x', p. }
  { done. }
  rewrite i32_small in EW by lia. exists s1, (Z.of_nat (length buf)), s2, s3. split; [done|]. split; [done|]. split; [done|left]. split; [done|].
  rewrite <- Hf1 in Hx. destruct (set_position_keeps _ _ _ _ _ Hx EP) as (_ & Hns & _).
  assert (G : forall k, get_node k s3 = if decide (k = i) then Some (set_content (Some d) (Z.of_nat (length d)) n) else get_node k s).
  { intros k. unfold get_node. rewrite Hn3, Hns. destruct (decide (k = i)) as [->|Hk]; [exact Hi1|exact (Ho1 k Hk)]. }
  split; try done.
  - by exists K, dep, r.
  - split; [by rewrite Hr3, Hr2|]. intros k. rewrite G. destruct (decide (k = i)) as [->|]; [by rewrite Hn|done].
  - eexists. split; [by rewrite G, decide_True|]. split; [done|]. cbn [data set_content default]. destruct Hd as (Hd1 & _ & Hd3 & Hd4). cbn [x position] in Hd1, Hd3, Hd4.
    change (Z.to_nat 0 + length buf)%nat with (length buf) in Hd1, Hd3. fold old in Hd3, Hd4. rewrite Hd1. unfold overwrite. change (buf ++ drop (length buf) d = buf ++ drop (length buf) old). f_equal.
    destruct (decide (length buf <= length old)%nat); [rewrite <- Hd3, take_ge by lia; done|]. rewrite !drop_ge by lia. done.
  - intros k Hk. by rewrite G, decide_False.
  - by rewrite Hi3, Hid2.
Qed.
End write.

(** ** The store *)
Section ram.
Context {X : Type} `{!Drivers X} (realloc : bytes -> Z -> option (option bytes)) (HR : realloc_ok realloc) (HS : realloc_steady realloc) (pid : Z).
Implicit Types (w : vfs X) (p c : bytes) (i : nat) (n : FsNode).
(** The path belongs to a mount of the in-memory file system and names a file there. *)
Record ram_at w p m i n : Prop := {
  ra_mount : (k ← find_mount (mounts w) p; mounts w !! k) = Some m;
  ra_driver : m_driver m = None;
  ra_ok : fs_ok (ramfs w);
  ra_ready : ready (ramfs w);
  ra_find : FsFind (VfsStripMount p m) (ramfs w) = Some (Some i);
  ra_node : get_node i (ramfs w) = Some n;
  ra_type : ntype n = FS_FILE;
  ra_small : Z.of_nat (length (default [] (data n))) <= realloc_max
}.
Definition ram_holds w p c : Prop := exists m i n, ram_at w p m i n /\ default [] (data n) = c.
(** A descriptor is left, and the heap grows blocks to [k] bytes. *)
Definition ram_room w p (k : nat) : Prop := next_fd (ramfs w) < 2 ^ 31 /\ forall d : bytes, (length d < k)%nat -> exists d', realloc d (Z.of_nat k) = Some (Some d').
Lemma locate_mount w p m : (k ← find_mount (mounts w) p; mounts w !! k) = Some m -> locate p w = Some (Some (m, VfsStripMount p m), w).
Proof. intros E. unfold locate, VfsFindMount. by rewrite (run_bind _ _ _ _ _ (eq_refl : asks _ w = Some (_, w))), E. Qed.
Lemma set_ramfs_same w : set_ramfs (ramfs w) w = w.
Proof. by destruct w. Qed.
Lemma ram_file_run w p m i n : ram_at w p m i n -> ram_file (VfsStripMount p m) w = Some (Some n, w).
Proof. intros H. unfold ram_file, on_ram. rewrite (ra_find _ _ _ _ _ H), option_bind_Some, (ra_node _ _ _ _ _ H), !option_bind_Some. cbn. by rewrite set_ramfs_same. Qed.
Lemma ram_size w p m i n : ram_at w p m i n -> size n = Z.of_nat (length (default [] (data n))).
Proof.
  intros H. destruct (ra_ok _ _ _ _ _ H) as (K & dep & r & HI). destruct (ak_content _ (fi_aux _ _ _ _ HI) _ _ (ra_node _ _ _ _ _ H)) as [-> _].
  by destruct (data n).
Qed.
Lemma ram_GetFileSize w p m i n : ram_at w p m i n -> VfsGetFileSize p w = Some (Z.of_nat (length (default [] (data n))), w).
Proof.
  intros H. unfold VfsGetFileSize. rewrite (run_bind _ _ _ _ _ (locate_mount w p m (ra_mount _ _ _ _ _ H))), (ra_driver _ _ _ _ _ H).
  rewrite (run_bind _ _ _ _ _ (ram_file_run w p m i n H)), (bool_decide_true (ntype n = FS_FILE)) by apply H. by rewrite (ram_size w p m i n).
Qed.
Lemma ram_ReadFile w p m i n max : ram_at w p m i n -> 0 <= max < 2 ^ 32 -> let d := default [] (data n) in let k := Z.min (Z.of_nat (length d)) max in
  VfsReadFile p max w = Some ((k, take (Z.to_nat k) d), w).
Proof.
  intros H Hm d k. pose proof (ra_small _ _ _ _ _ H) as Hs. unfold realloc_max in Hs. unfold VfsReadFile. rewrite (run_bind _ _ _ _ _ (locate_mount w p m (ra_mount _ _ _ _ _ H))), (ra_driver _ _ _ _ _ H).
  rewrite (run_bind _ _ _ _ _ (ram_file_run w p m i n H)), (bool_decide_true (ntype n = FS_FILE)) by apply H. cbn [negb]. rewrite (ram_size w p m i n H). fold d. fold d in Hs.
  destruct (Z.eqb_spec (Z.of_nat (length d)) 0) as [Hz|Hz]; [unfold k; rewrite Z.min_l, Hz by lia; done|].
  destruct (data n) as [d'|] eqn:Ed; [|exfalso; by apply Hz]. change d' with d.
  assert (Ek : (if Z.of_nat (length d) <? max then Z.of_nat (length d) else max) = k) by (unfold k; destruct (Z.ltb_spec (Z.of_nat (length d)) max); lia).
  rewrite Ek, mem_read_ok, drop_0 by lia. rewrite i32_small by lia. done.
Qed.
Lemma ram_near w w' p m i n : ram_at w p m i n -> mounts w' = mounts w -> ramfs w' = ramfs w -> ram_at w' p m i n.
Proof. intros [] E1 E2. by split; rewrite ?E1, ?E2. Qed.
(** A file that a write does not concern is where it was. *)
Lemma ram_other w p m i n s' j nj c : ram_at w p m i n -> stored (ramfs w) s' j nj c -> i <> j -> ram_at (set_ramfs s' w) p m i n.
Proof. intros [] [Hok Hrd Hv _ Ho _] Hij. split; cbn; try done; [by rewrite (FsFind_view _ _ _ Hv)|by rewrite Ho]. Qed.
Lemma ram_WriteFile w p m i n b : ram_at w p m i n -> Z.of_nat (length b) <= realloc_max -> let old := default [] (data n) in
  exists r s', VfsWriteFile realloc pid p b (Z.of_nat (length b)) w = Some (r, set_ramfs s' w) /\
    (r = Z.of_nat (length b) /\ stored (ramfs w) s' i n (overwrite false b old) \/ r < 0 /\ ~ ram_room w p (length b)).
Proof.
  intros H Hl old. unfold realloc_max in Hl. unfold VfsWriteFile. rewrite (run_bind _ _ _ _ _ (locate_mount w p m (ra_mount _ _ _ _ _ H))), (ra_driver _ _ _ _ _ H).
  pose proof (rd_next _ (ra_ready _ _ _ _ _ H)) as Hnx. destruct (decide (next_fd (ramfs w) < 2 ^ 31)) as [Hfd|Hfd].
  2:{ destruct (ra_ok _ _ _ _ _ H) as (K & dep & r & HI).
      destruct (FsOpen_ready _ K dep r _ FS_WRITE pid i n HI (ra_ready _ _ _ _ _ H) (ra_find _ _ _ _ _ H) (ra_node _ _ _ _ _ H) (ra_type _ _ _ _ _ H) eq_refl) as (h & x & _ & _ & EO).
      assert (E31 : next_fd (ramfs w) = 2 ^ 31) by lia. rewrite E31 in EO.
      assert (EO' : on_ram (FsOpen (VfsStripMount p m) FS_WRITE pid) w = Some (i32 (2 ^ 31), set_ramfs (opened (ramfs w) h i FS_WRITE 0 pid) w)) by (unfold on_ram; by rewrite EO).
      eexists (-1), _. rewrite (run_bind _ _ _ _ _ EO'). split; [reflexivity|right]. split; [lia|]. by intros [? _]. }
  destruct (ram_write_ok realloc HR HS (ramfs w) (VfsStripMount p m) b pid i n) as (s1 & z & s2 & s3 & EO & EW & EC & Hc); [apply H|apply H|done|apply H|apply H|apply H|done|].
  assert (EO' : on_ram (FsOpen (VfsStripMount p m) FS_WRITE pid) w = Some (next_fd (ramfs w), set_ramfs s1 w)) by (unfold on_ram; by rewrite EO).
  assert (EW' : on_ram (FsWrite realloc (next_fd (ramfs w)) b) (set_ramfs s1 w) = Some (z, set_ramfs s2 w)) by (unfold on_ram; cbn; by rewrite EW).
  assert (EC' : on_ram (FsClose (next_fd (ramfs w))) (set_ramfs s2 w) = Some (0, set_ramfs s3 w)) by (unfold on_ram; cbn; by rewrite EC).
  exists z, s3. rewrite (run_bind _ _ _ _ _ EO'), (proj2 (Z.ltb_ge _ 0)) by lia. rewrite mem_read_ok, drop_0, Nat2Z.id, firstn_all by lia.
  rewrite (run_bind _ _ _ _ _ (eq_refl : lift (Some b) (set_ramfs s1 w) = Some (_, _))), (run_bind _ _ _ _ _ EW'), (run_bind _ _ _ _ _ EC'). split; [done|].
  destruct Hc as [[-> Hc]|(-> & Hlen & Hno)]; [by left|right]. split; [lia|]. intros [_ Hroom]. destruct (Hroom _ Hlen) as [d Hd]. fold old in Hno. unfold old in Hno. congruence.
Qed.
Lemma ram_written w p m i n c s' : ram_at w p m i n -> stored (ramfs w) s' i n c -> Z.of_nat (length c) <= realloc_max -> ram_holds (set_ramfs s' w) p c.
Proof.
  intros H [Hok Hrd Hv (n' & Hn' & Ht & Hc) Ho _] Hl. exists m, i, n'. split; [|done]. destruct H. split; cbn; try done.
  - by rewrite (FsFind_view _ _ _ Hv).
  - congruence.
  - by rewrite Hc.
Qed.
#[export] Instance ram_file_store : FileStore X realloc pid.
Proof using HR HS.
  refine {| holds := ram_holds; room := ram_room; replaces := false; limit := realloc_max |}.
  - unfold realloc_max. lia.
  - intros w p c (m & i & n & H & <-). pose proof (ra_small _ _ _ _ _ H). lia.
  - intros h w p c (m & i & n & H & <-). split; [|done]. exists m, i, n. split; [by eapply ram_near|done].
  - intros w p c (m & i & n & H & <-). exists w. split; [by eapply ram_GetFileSize|]. split; [by exists m, i, n|done].
  - intros w p c max (m & i & n & H & <-) Hm. exists w. split; [by eapply ram_ReadFile|]. split; [by exists m, i, n|done].
  - intros w p c b (m & i & n & H & <-) Hl. destruct (ram_WriteFile w p m i n b H) as (r & s' & E & Hc); [lia|]. exists r, (set_ramfs s' w). split; [done|].
    destruct Hc as [[-> Hc]|Hc]; [left; split; [done|]|by right]. eapply ram_written; [done|done|]. unfold overwrite.
    pose proof (ra_small _ _ _ _ _ H). rewrite length_app, length_drop. lia.
Defined.
End ram.
