(* ===== verification/VfsCopy.v ===== *)
(** Creating and copying files of the in-memory file system through the virtual file system layer, and the
    mount table: which mount owns a path, mounting and unmounting. *)
From Stdlib Require Import ZArith Lia.
From stdpp Require Import base tactics sets list numbers option.
From S2P Require Import Prelude Vfrfs VfrfsInv VfrfsCreate VfrfsFind VfrfsOps VfrfsPath Vfs VfsRange VfsStore VfsRam.

Lemma alloc_node_keeps n i s o s' : alloc_node_loop n i s = Some (o, s') -> file_handles s' = file_handles s /\ next_fd s' = next_fd s.
Proof.
  revert i. induction n as [|n IH]; intros i; cbn [alloc_node_loop]; [by intros [= <- <-]|]. destruct (get_node _ s) as [nd|]; [|done].
  rewrite option_bind_Some. cbv beta. destruct (node_id nd =? 0); [by intros [= <- <-]|apply IH].
Qed.
Lemma FsCreateNode_keeps nm ty p s o s' : FsCreateNode nm ty p s = Some (o, s') -> file_handles s' = file_handles s /\ next_fd s' = next_fd s.
Proof.
  unfold FsCreateNode. intros E. destruct (get_node p s) as [pn|]; [|done]. rewrite option_bind_Some in E. destruct (_ || _); [by injection E as <- <-|].
  destruct (find_child _ _ _ _) as [[c|]|]; [by injection E as <- <-| |done]. rewrite option_bind_Some in E. unfold AllocNode in E.
  destruct (alloc_node_loop _ _ _) as [[[i|] s1]|] eqn:EA; [| |done]; apply alloc_node_keeps in EA as [A1 A2]; [|injection E as <- <-; done].
  rewrite option_bind_Some in E. destruct (upd_node i _ s1) as [s2|] eqn:E2; [|done]. rewrite option_bind_Some in E. apply upd_node_keeps in E2 as (_ & B1 & B2).
  destruct (get_node p s2) as [p2|]; [|done]. rewrite option_bind_Some in E. destruct (last_child p2) as [l|].
  - destruct (upd_node i _ s2) as [s3|] eqn:E3; [|done]. rewrite option_bind_Some in E. apply upd_node_keeps in E3 as (_ & C1 & C2).
    destruct (upd_node l _ s3) as [s4|] eqn:E4; [|done]. rewrite option_bind_Some in E. apply upd_node_keeps in E4 as (_ & D1 & D2).
    destruct (upd_node p _ s4) as [s5|] eqn:E5; [|done]. apply upd_node_keeps in E5 as (_ & F1 & F2). injection E as <- <-. split; congruence.
  - destruct (upd_node p _ s2) as [s3|] eqn:E3; [|done]. apply upd_node_keeps in E3 as (_ & C1 & C2). injection E as <- <-. split; congruence.
Qed.
Lemma ready_ext s s' : file_handles s' = file_handles s -> next_fd s' = next_fd s -> ready s -> ready s'.
Proof. intros E1 E2 []. by split; rewrite ?E1, ?E2. Qed.
(** Opening a file that is not there is making it and opening it. *)
Lemma FsOpen_new path flags pid s p nm i s1 : has flags FS_WRITE = true -> FsFind path s = Some None -> FsFindParent path s = Some (Some (p, nm)) ->
  FsCreateNode nm FS_FILE p s = Some (Some i, s1) -> FsFind path s1 = Some (Some i) -> FsOpen path flags pid s = FsOpen path flags pid s1.
Proof. intros HW E1 E2 E3 E4. unfold FsOpen. by rewrite E1, E4, !option_bind_Some, HW, E2, option_bind_Some, E3. Qed.
Lemma open_close s path pid i n : fs_ok s -> ready s -> next_fd s < 2 ^ 31 -> FsFind path s = Some (Some i) -> get_node i s = Some n -> ntype n = FS_FILE ->
  exists s1 s2, FsOpen path FS_WRITE pid s = Some (next_fd s, s1) /\ FsClose (next_fd s) s1 = Some (0, s2) /\ stored s s2 i n (default [] (data n)).
Proof.
  intros (K & dep & r & HI) HRd Hlt HF Hn Ht. pose proof HI as [HT HA]. pose proof (rd_next _ HRd) as Hnx.
  destruct (FsOpen_ready s K dep r path FS_WRITE pid i n HI HRd HF Hn Ht eq_refl) as (h & x0 & Hx0 & _ & EO). rewrite i32_small in EO by lia.
  assert (Hh : (h < MAX_OPEN_FILES)%nat) by (rewrite <- (ak_hlen _ HA); by eapply lookup_lt_Some).
  assert (HI1 : fs_inv (opened s h i FS_WRITE 0 pid) K dep r) by (apply opened_inv; [done|done|by eapply get_lt_inv]).
  destruct (closed_again s _ h i pid (K, dep, r) HI1 HA HRd Hlt Hh ltac:(by left) eq_refl) as (s3 & EC & HI3 & HR3 & Hn3 & Hr3 & Hf3 & Hi3).
  exists (opened s h i FS_WRITE 0 pid), s3. split; [done|]. split; [done|]. split; try done.
  - by exists K, dep, r.
  - by apply same_view_nodes.
  - exists n. unfold get_node. by rewrite Hn3.
  - intros k _. unfold get_node. by rewrite Hn3.
Qed.

Section copy.
Context {X : Type} `{!Drivers X} (realloc : bytes -> Z -> option (option bytes)) (HR : realloc_ok realloc) (HSt : realloc_steady realloc) (pid : Z).
Implicit Types (w : vfs X) (p src dst c : bytes).
Lemma create_open w p m s1 s2 f : (k ← find_mount (mounts w) p; mounts w !! k) = Some m -> m_driver m = None -> 0 <= f ->
  FsOpen (VfsStripMount p m) FS_WRITE pid (ramfs w) = Some (f, s1) -> FsClose f s1 = Some (0, s2) ->
  VfsCreateFile pid p w = Some (0, set_ramfs s2 w).
Proof.
  intros Hm Hd Hf EO EC. unfold VfsCreateFile. rewrite (run_bind _ _ _ _ _ (locate_mount w p m Hm)), Hd.
  assert (EO' : on_ram (FsOpen (VfsStripMount p m) FS_WRITE pid) w = Some (f, set_ramfs s1 w)) by (unfold on_ram; by rewrite EO).
  assert (EC' : on_ram (FsClose f) (set_ramfs s1 w) = Some (0, set_ramfs s2 w)) by (unfold on_ram; cbn; by rewrite EC).
  rewrite (run_bind _ _ _ _ _ EO'), (proj2 (Z.ltb_ge f 0)), (run_bind _ _ _ _ _ EC') by lia. done.
Qed.
(** Making a file that is there changes nothing. *)
Lemma create_existing w p m i n : ram_at w p m i n -> next_fd (ramfs w) < 2 ^ 31 ->
  exists s', VfsCreateFile pid p w = Some (0, set_ramfs s' w) /\ stored (ramfs w) s' i n (default [] (data n)).
Proof.
  intros H Hlt. destruct (open_close (ramfs w) (VfsStripMount p m) pid i n) as (s1 & s2 & EO & EC & HS); [apply H|apply H|done|apply H|apply H|apply H|].
  exists s2. split; [|done]. pose proof (rd_next _ (ra_ready _ _ _ _ _ H)). eapply create_open; [apply H|apply H| |exact EO|exact EC]. lia.
Qed.
(** Copying, once the destination is there. *)
Lemma copy_to w s1 src dst ms i n n1 md j nj : ram_at w src ms i n -> is_mount_point src w = false ->
  VfsCreateFile pid dst w = Some (0, set_ramfs s1 w) -> let w1 := set_ramfs s1 w in let c := default [] (data n) in
  ram_at w1 src ms i n1 -> data n1 = data n -> ram_at w1 dst md j nj -> i <> j -> c <> [] -> ~ None ∈ heap w -> ram_room realloc w1 dst (length c) ->
  exists w', VfsCopyFile realloc pid src dst w = Some (0, w') /\ ram_holds w' src c /\ ram_holds w' dst (overwrite false c (default [] (data nj))) /\ mounts w' = mounts w.
Proof.
  intros H Hmp EC w1 c H1 Hd Hdst Hij Hne Hheap Hroom. assert (Hpos : 0 < Z.of_nat (length c)) by (destruct c; [done|cbn; lia]). pose proof (ra_small _ _ _ _ _ H) as Hsm. fold c in Hsm. assert (Hsm' := Hsm). unfold realloc_max in Hsm'.
  assert (EI : VfsIsFile src w = Some (1, w)).
  { unfold VfsIsFile. rewrite (run_bind _ _ _ _ _ (eq_refl : asks _ w = Some (_, w))), Hmp, (run_bind _ _ _ _ _ (locate_mount w src ms (ra_mount _ _ _ _ _ H))), (ra_driver _ _ _ _ _ H).
    rewrite (run_bind _ _ _ _ _ (ram_file_run w src ms i n H)). cbn [is_type]. by rewrite (bool_decide_true (ntype n = FS_FILE)) by apply H. }
  unfold VfsCopyFile. rewrite (run_bind _ _ _ _ _ EI). cbn [Z.eqb]. rewrite (run_bind _ _ _ _ _ (ram_GetFileSize w src ms i n H)). fold c.
  rewrite (proj2 (Z.eqb_neq _ 0)), (run_bind _ _ _ _ _ EC) by lia. cbn [Z.eqb negb]. fold w1.
  destruct (kalloc w1 (Z.of_nat (length c)) Hpos) as (h & Hs & [[_ Hbad]|EA]); [done|]. rewrite (run_bind _ _ _ _ _ EA). set (blk := block w1 _). set (w2 := set_heap h w1).
  assert (H2 : ram_at w2 src ms i n1) by (by eapply ram_near). assert (Hdst2 : ram_at w2 dst md j nj) by (by eapply ram_near).
  assert (Hb : Z.of_nat (length blk) = Z.of_nat (length c)) by (apply block_length; lia).
  assert (ER : read_into src blk (u32 (Z.of_nat (length c))) w2 = Some ((Z.of_nat (length c), c), w2)).
  { pose proof (ram_ReadFile w2 src ms i n1 (Z.of_nat (length c)) H2 ltac:(lia)) as E. cbv zeta in E. rewrite Hd in E. fold c in E.
    rewrite Z.min_id, Nat2Z.id, firstn_all in E. rewrite u32_small by lia. unfold read_into. rewrite (run_bind _ _ _ _ _ E). cbn [fst snd].
    rewrite mem_write_in, splice_zero, drop_ge, app_nil_r by lia. done. }
  rewrite (run_bind _ _ _ _ _ ER). cbn [fst snd]. rewrite (proj2 (Z.leb_gt _ 0)), u32_small by lia.
  destruct (ram_WriteFile realloc HR HSt pid w2 dst md j nj c Hdst2 Hsm) as (r & s3 & EW & [[-> HS]|[_ Hno]]).
  2:{ exfalso. apply Hno. exact Hroom. }
  rewrite (run_bind _ _ _ _ _ EW), (proj2 (Z.leb_gt _ 0)) by lia. exists (set_ramfs s3 w2). split; [done|]. split; [|split; [|done]].
  - exists ms, i, n1. split; [by eapply ram_other|]. by rewrite Hd.
  - eapply ram_written; [done|done|]. unfold overwrite. rewrite length_app, length_drop. pose proof (ra_small _ _ _ _ _ Hdst). lia.
Qed.
(** Copying onto a file that is there. *)
Lemma copy_existing w src dst ms i n md j nj : ram_at w src ms i n -> ram_at w dst md j nj -> i <> j -> is_mount_point src w = false ->
  let c := default [] (data n) in c <> [] -> ~ None ∈ heap w -> next_fd (ramfs w) + 1 < 2 ^ 31 ->
  (forall d : bytes, (length d < length c)%nat -> exists d', realloc d (Z.of_nat (length c)) = Some (Some d')) ->
  exists w', VfsCopyFile realloc pid src dst w = Some (0, w') /\ ram_holds w' src c /\ ram_holds w' dst (overwrite false c (default [] (data nj))).
Proof.
  intros H Hdst Hij Hmp c Hne Hheap Hfd Hroom. destruct (create_existing w dst md j nj Hdst ltac:(lia)) as (s1 & EC & HS).
  destruct (ram_written w dst md j nj _ s1 Hdst HS (ra_small _ _ _ _ _ Hdst)) as (md' & j' & nj' & Hd' & Ed).
  assert (Hj : j' = j).
  { pose proof (ra_mount _ _ _ _ _ Hd') as E1. change (mounts (set_ramfs s1 w)) with (mounts w) in E1. rewrite (ra_mount _ _ _ _ _ Hdst) in E1. injection E1 as <-.
    pose proof (ra_find _ _ _ _ _ Hd') as E2. change (ramfs (set_ramfs s1 w)) with s1 in E2. rewrite (FsFind_view _ _ _ (sd_view _ _ _ _ _ HS)), (ra_find _ _ _ _ _ Hdst) in E2. by injection E2. }
  destruct (copy_to w s1 src dst ms i n n md' j' nj') as (w' & E & Hs & Hd & _); try done.
  - by eapply ram_other.
  - by rewrite Hj.
  - split; [|done]. cbn. rewrite (sd_fd _ _ _ _ _ HS). lia.
  - exists w'. rewrite Ed in Hd. done.
Qed.
(** Copying to a new file: the parent directory is there, and so is a free, cleared node. *)
Lemma copy_new w src ms i n dst md d nm (par : nat) pn k : ram_at w src ms i n -> is_mount_point src w = false ->
  let s := ramfs w in let c := default [] (data n) in c <> [] -> ~ None ∈ heap w -> next_fd s + 1 < 2 ^ 31 -> next_node_id s + 1 < 2 ^ 32 ->
  (forall d : bytes, (length d < length c)%nat -> exists d', realloc d (Z.of_nat (length c)) = Some (Some d')) ->
  (k ← find_mount (mounts w) dst; mounts w !! k) = Some md -> m_driver md = None -> VfsStripMount dst md = d ++ slash :: nm ->
  no_slash nm -> valid_name nm -> nm <> dot -> nm <> dotdot -> (length d < 256)%nat -> hd_error (d ++ [slash]) = Some slash ->
  FsFind (dir_part d) s = Some (Some par) -> get_node par s = Some pn -> ntype pn = FS_DIRECTORY -> FsFind (d ++ slash :: nm) s = Some None ->
  get_node k s = Some zero_fsnode -> (forall j nj, get_node j s = Some nj -> node_id nj = 0 -> nj = zero_fsnode) ->
  exists w', VfsCopyFile realloc pid src dst w = Some (0, w') /\ ram_holds w' src c /\ ram_holds w' dst c.
Proof.
  intros H Hmp s c Hne Hheap Hfd Hid Hroom Hm Hdr Hst Hns Hv Hn1 Hn2 Hl Hhd Hp Hpn Hty Hnone Hk Hclr.
  destruct (FsCreateNode_new s d nm FS_FILE par pn k zero_fsnode) as (EP & j & s0 & ECN & HN); [apply H|done..|].
  destruct (FsCreateNode_keeps _ _ _ _ _ _ ECN) as [Hfh Hnf]. destruct (ne_node _ _ _ _ _ _ _ HN) as (nd & l & Hnd & Hz & Hj). apply (Hclr j nd Hnd) in Hz as ->.
  assert (Hij : i <> j).
  { intros <-. destruct (ra_ok _ _ _ _ _ H) as (K & dep & r & HI). destruct (FsFind_live _ _ _ _ _ _ (fi_tree _ _ _ _ HI) (ra_find _ _ _ _ _ H)) as (n' & Hn' & Hid').
    fold s in Hn'. rewrite Hnd in Hn'. by injection Hn' as <-. }
  set (nj := new_node nm FS_FILE par l (next_node_id s) zero_fsnode) in *. assert (Hrd : ready s0) by (eapply ready_ext; [exact Hfh|exact Hnf|apply H]).
  destruct (open_close s0 (d ++ slash :: nm) pid j nj) as (s1 & s2 & EO & EC & HS); [apply HN|done|rewrite Hnf; lia|apply HN|exact Hj|done|].
  pose proof (rd_next _ (ra_ready _ _ _ _ _ H)) as Hnx. fold s in Hnx.
  assert (ECF : VfsCreateFile pid dst w = Some (0, set_ramfs s2 w)).
  { eapply create_open; [exact Hm|exact Hdr| | |exact EC]; [lia|]. rewrite Hst. fold s. rewrite (FsOpen_new _ FS_WRITE pid s par nm j s0); try done. apply HN. }
  destruct (sd_node _ _ _ _ _ HS) as (nj2 & Hj2 & Htj & Hdj). change (default [] (data nj2) = []) in Hdj.
  destruct (ne_kept _ _ _ _ _ _ _ HN i n (ra_node _ _ _ _ _ H) Hij) as (n0 & Hn0 & [_ Ht0 _ Hd0 _ _]).
  assert (Hsrc : ram_at (set_ramfs s2 w) src ms i n0).
  { destruct H as [A1 A2 A3 A4 A5 A6 A7 A8]. destruct HS as [B1 B2 B3 _ B5 _ _]. split; cbn; try done.
    - rewrite (FsFind_view _ _ _ B3). apply HN. exact A5.
    - by rewrite B5.
    - congruence.
    - by rewrite Hd0. }
  assert (Hdst : ram_at (set_ramfs s2 w) dst md j nj2).
  { destruct HS as [B1 B2 B3 _ B5 _ _]. split; cbn; try done.
    - rewrite (FsFind_view _ _ _ B3), Hst. apply HN.
    - by rewrite Hdj. }
  destruct (copy_to w s2 src dst ms i n n0 md j nj2) as (w' & E & Hs & Hd & _); try done.
  - split; [|done]. cbn. rewrite (sd_fd _ _ _ _ _ HS), Hnf. lia.
  - exists w'. split; [done|]. split; [done|]. rewrite Hdj in Hd. unfold overwrite in Hd. by rewrite drop_nil, app_nil_r in Hd.
Qed.
End copy.

(** * The mount table: which mount owns a path, mounting and unmounting. *)
(** ** The owner of a path *)
Definition mount_length (m : VfsMountStruct) : nat := fast_strlen (mount_point m) 64.
Definition owns (path : bytes) (m : VfsMountStruct) : Prop :=
  m_active m = true /\ mount_matches path (mount_point m) = true /\ (0 < mount_length m)%nat.
(** The owner with the longest mount point, the first of these. *)
Definition best_mount (ms : list VfsMountStruct) (path : bytes) (i : nat) : Prop :=
  exists m, ms !! i = Some m /\ owns path m /\
    forall j mj, ms !! j = Some mj -> owns path mj -> (mount_length mj < mount_length m)%nat \/ (mount_length mj = mount_length m /\ (i <= j)%nat).
Lemma find_mount_loop_ok path done ms best blen :
  (match best with
   | None => blen = 0%nat /\ forall j mj, done !! j = Some mj -> ~ owns path mj
   | Some b => best_mount done path b /\ exists m, done !! b = Some m /\ mount_length m = blen
   end) ->
  match find_mount_loop ms (length done) path best blen with
  | None => forall j mj, (done ++ ms) !! j = Some mj -> ~ owns path mj
  | Some i => best_mount (done ++ ms) path i
  end.
Proof.
  revert done best blen. induction ms as [|m ms IH]; intros done best blen Hb; cbn [find_mount_loop].
  { rewrite app_nil_r. destruct best; apply Hb. }
  assert (Hlast : (done ++ [m]) !! length done = Some m) by (by rewrite lookup_app_r, Nat.sub_diag by done).
  assert (Hold : forall j mj, (done ++ [m]) !! j = Some mj -> done !! j = Some mj \/ (j = length done /\ mj = m)).
  { intros j mj Hj. apply lookup_app_Some in Hj as [?|[Hge Hj]]; [by left|right]. apply list_lookup_singleton_Some in Hj as [? <-]. split; [lia|done]. }
  replace (S (length done)) with (length (done ++ [m])) by (rewrite length_app; cbn; lia). replace (done ++ m :: ms) with ((done ++ [m]) ++ ms) by (by rewrite <- app_assoc).
  (* the new mount is not better *)
  assert (Hskip : (owns path m -> (0 < blen)%nat /\ (mount_length m <= blen)%nat) ->
    match best with
    | None => blen = 0%nat /\ forall j mj, (done ++ [m]) !! j = Some mj -> ~ owns path mj
    | Some b => best_mount (done ++ [m]) path b /\ exists mb, (done ++ [m]) !! b = Some mb /\ mount_length mb = blen
    end).
  { intros Hm. destruct best as [b|].
    - destruct Hb as [(mb & Hmb & Ho & Hall) (mb' & Hmb' & Hl)]. rewrite Hmb in Hmb'. injection Hmb' as <-.
      assert (Hmb2 : (done ++ [m]) !! b = Some mb) by (by apply lookup_app_l_Some). split; [|by exists mb]. exists mb. split; [done|]. split; [done|].
      intros j mj Hj Hoj. apply Hold in Hj as [Hj|[-> ->]]; [by eapply Hall|]. destruct (Hm Hoj). pose proof (lookup_lt_Some _ _ _ Hmb). lia.
    - destruct Hb as [-> Hall]. split; [done|]. intros j mj Hj. apply Hold in Hj as [Hj|[-> ->]]; [by eapply Hall|]. intros Ho. destruct (Hm Ho). lia. }
  destruct (m_active m) eqn:Ea; cbn [negb]; [|apply IH, Hskip; intros (H & _); congruence]. fold (mount_length m).
  destruct (mount_matches path (mount_point m)) eqn:Em; cbn [andb].
  2:{ apply IH, Hskip. intros (_ & H & _). congruence. }
  destruct (Nat.ltb_spec blen (mount_length m)) as [Hlt|Hge].
  - apply IH. split; [|by exists m]. exists m. split; [done|]. split; [split; [done|split; [done|lia]]|]. intros j mj Hj Hoj. apply Hold in Hj as [Hj|[-> ->]]; [|lia]. left.
    destruct best as [b|]; [|by destruct Hb as [_ Hb]; exfalso; eapply Hb].
    destruct Hb as [(mb & Hmb & _ & Hall) (mb' & Hmb' & Hl)]. rewrite Hmb in Hmb'. injection Hmb' as <-. destruct (Hall j mj Hj Hoj); lia.
  - apply IH, Hskip. intros (_ & _ & H). lia.
Qed.
Lemma find_mount_best ms path :
  match find_mount ms path with
  | Some i => best_mount ms path i
  | None => forall j mj, ms !! j = Some mj -> ~ owns path mj
  end.
Proof. apply (find_mount_loop_ok path [] ms None 0). split; [done|]. by intros j mj Hj. Qed.
(** What it is to match: the mount point is a prefix that ends where a component ends. *)
Lemma mount_matches_iff path mp : Forall (fun c => c <> 0) path -> (length mp < 64)%nat ->
  mount_matches path mp = true <-> exists rest, path = mp ++ rest /\ (length mp = 1%nat \/ rest = [] \/ hd_error rest = Some slash).
Proof.
  intros Hz Hl. unfold mount_matches, fast_strlen. rewrite (Nat.min_l (length mp)) by lia.
  assert (Hb : forall rest, path = mp ++ rest -> byte_at (length mp) path = match rest with [] => 0 | c :: _ => c end).
  { intros rest ->. unfold byte_at. rewrite app_nth2, Nat.sub_diag by lia. by destruct rest. }
  split.
  - intros H. apply andb_true_iff in H as [H H0]. apply andb_true_iff in H as [_ H1]. rewrite !orb_true_iff in H0. apply bool_decide_eq_true in H1. rewrite (firstn_all mp) in H1. exists (drop (length mp) path).
    assert (E : path = mp ++ drop (length mp) path) by (rewrite <- H1 at 1; by rewrite take_drop). split; [done|]. rewrite (Hb _ E) in H0.
    destruct H0 as [[H0|H0]|H0]; [left; by apply Nat.eqb_eq|right|right].
    + apply Z.eqb_eq in H0. destruct (drop (length mp) path) as [|c rest]; [by left|right]. by rewrite H0.
    + apply Z.eqb_eq in H0. left. destruct (drop (length mp) path) as [|c rest] eqn:Ed; [done|]. exfalso. apply (Forall_drop _ (length mp)) in Hz. rewrite Ed in Hz. by apply Forall_cons_iff in Hz as [? _].
  - intros (rest & E & Hr). rewrite (Hb _ E). subst path. rewrite take_app_length, (firstn_all mp). rewrite (bool_decide_true (mp = mp)), andb_true_r by done.
    apply andb_true_iff. split; [apply Nat.leb_le; rewrite length_app; lia|]. destruct Hr as [->|[->|Hr]]; [done|by rewrite !orb_true_r|].
    destruct rest as [|c rest]; [done|]. injection Hr as ->. by rewrite !orb_true_r.
Qed.
Lemma VfsStripMount_ok m rest : Forall (fun c => c <> 0) (mount_point m ++ rest) -> (length (mount_point m) < 64)%nat -> mount_point m <> [slash] ->
  rest = [] \/ hd_error rest = Some slash -> VfsStripMount (mount_point m ++ rest) m = match rest with [] => [slash] | _ => rest end.
Proof.
  intros Hz Hl Hne Hr. unfold VfsStripMount, fast_strlen. rewrite Nat.min_l, drop_app_length by lia.
  destruct (Nat.eqb_spec (length (mount_point m)) 1) as [H1|H1]; cbn [andb].
  - destruct (mount_point m) as [|c [|]] eqn:Em; try done. unfold byte_at. cbn [nth]. destruct (Z.eqb_spec c slash) as [->|]; [done|].
    destruct Hr as [->|Hr]; [done|]. destruct rest as [|x rest]; [done|]. by injection Hr as ->.
  - destruct Hr as [->|Hr]; [done|]. destruct rest as [|x rest]; [done|]. by injection Hr as ->.
Qed.

(** ** Mounting *)
Section mount.
Context {X : Type} `{!Drivers X}.
Implicit Types (w : vfs X) (path : bytes).
Lemma free_mount_ok ms i : match free_mount ms i with
  | None => forall j mj, ms !! j = Some mj -> m_active mj = true
  | Some k => exists j m, k = (i + j)%nat /\ ms !! j = Some m /\ m_active m = false /\ forall j' mj, (j' < j)%nat -> ms !! j' = Some mj -> m_active mj = true
  end.
Proof.
  revert i. induction ms as [|m ms IH]; intros i; cbn [free_mount]; [by intros j mj Hj|]. destruct (m_active m) eqn:E.
  - specialize (IH (S i)). destruct (free_mount ms (S i)) as [k|].
    + destruct IH as (j & mj & -> & Hj & Ha & Hlt). exists (S j), mj. split; [lia|]. split; [done|]. split; [done|]. intros [|j'] mj' Hj' Hl; [cbn in Hl; by injection Hl as <-|].
      apply (Hlt j'); [lia|done].
    + intros [|j] mj Hj; [cbn in Hj; by injection Hj as <-|]. by apply (IH j).
  - exists 0%nat, m. split; [lia|]. split; [done|]. split; [done|]. lia.
Qed.
Definition mounted w (k : nat) path dev drv : vfs X := set_mounts (<[k := mk_mount (take 63 path) dev drv true]> (mounts w)) w.
Lemma VfsMount_ok w path dev drv k : free_mount (mounts w) 0 = Some k -> fs_ok (ramfs w) -> next_node_id (ramfs w) + 1 < 2 ^ 32 -> path_fits path = true ->
  exists s', VfsMount path dev drv w = Some (0, set_ramfs s' (mounted w k path dev drv)) /\ fs_ok s' /\ next_node_id s' <= next_node_id (ramfs w) + 1.
Proof.
  intros Hk HOK Hid HF. unfold VfsMount. rewrite (run_bind _ _ _ _ _ (eq_refl : asks _ w = Some (_, w))), Hk.
  rewrite (run_bind _ _ _ _ _ (eq_refl : (fun w => Some (tt, set_mounts (<[k := mk_mount (take 63 path) dev drv true]> (mounts w)) w)) w = Some (tt, mounted w k path dev drv))).
  destruct (bool_decide (path = [slash])); [exists (ramfs w); split; [by destruct w|]; split; [done|lia]|].
  destruct (FsMkdir_runs (ramfs w) path HOK Hid HF) as (z & s' & E & HOK' & Hid'). exists s'. split; [|done].
  assert (E' : on_ram (FsMkdir path) (mounted w k path dev drv) = Some (z, set_ramfs s' (mounted w k path dev drv))) by (unfold on_ram; cbn; by rewrite E).
  by rewrite (run_bind _ _ _ _ _ E').
Qed.
Lemma VfsMount_full w path dev drv : free_mount (mounts w) 0 = None -> VfsMount path dev drv w = Some (-1, w).
Proof. intros Hk. unfold VfsMount. by rewrite (run_bind _ _ _ _ _ (eq_refl : asks _ w = Some (_, w))), Hk. Qed.
(** The three mounts of start-up. *)
Definition root_mount : VfsMountStruct := mk_mount [slash] None None true.
Definition boot_mounts : list VfsMountStruct := [root_mount; mk_mount DevicesDir None (Some DevFS) true; mk_mount RuntimeProcesses None (Some ProcFS) true].
Lemma VfsInit_ok w : length (mounts w) = VFS_MAX_MOUNTS -> fs_ok (ramfs w) -> next_node_id (ramfs w) + 3 < 2 ^ 32 ->
  exists w', VfsInit w = Some (0, w') /\ take 3 (mounts w') = boot_mounts /\ length (mounts w') = VFS_MAX_MOUNTS /\
    (forall j mj, (3 <= j)%nat -> mounts w' !! j = Some mj -> m_active mj = false) /\ fs_ok (ramfs w') /\ drivers w' = drivers w.
Proof.
  intros HL HOK Hid. set (off := fun m => mk_mount (mount_point m) (m_device m) (m_driver m) false).
  destruct (mounts w) as [|m0 [|m1 [|m2 rest]]] eqn:Em; try (cbn in HL; unfold VFS_MAX_MOUNTS in HL; lia).
  set (w0 := set_mounts (off <$> mounts w) w). unfold VfsInit.
  rewrite (run_bind _ _ _ _ _ (eq_refl : (fun w => Some (tt, set_mounts (off <$> mounts w) w)) w = Some (tt, w0))).
  assert (H0 : mounts w0 = off m0 :: off m1 :: off m2 :: (off <$> rest)) by (unfold w0; cbn; by rewrite Em).
  destruct (VfsMount_ok w0 [slash] None None 0) as (s1 & E1 & HOK1 & Hid1); [by rewrite H0|done|cbn; lia|done|]. rewrite (run_bind _ _ _ _ _ E1).
  set (w1 := set_ramfs s1 (mounted w0 0 [slash] None None)) in *. assert (H1 : mounts w1 = root_mount :: off m1 :: off m2 :: (off <$> rest)) by (unfold w1, mounted; cbn; by rewrite Em).
  destruct (VfsMount_ok w1 DevicesDir None (Some DevFS) 1) as (s2 & E2 & HOK2 & Hid2); [by rewrite H1|done|cbn in *; lia|done|]. rewrite (run_bind _ _ _ _ _ E2).
  set (w2 := set_ramfs s2 (mounted w1 1 DevicesDir None (Some DevFS))) in *.
  assert (H2 : mounts w2 = root_mount :: mk_mount DevicesDir None (Some DevFS) true :: off m2 :: (off <$> rest)) by (unfold w2, mounted; cbn [mounts set_ramfs set_mounts]; by rewrite H1).
  destruct (VfsMount_ok w2 RuntimeProcesses None (Some ProcFS) 2) as (s3 & E3 & HOK3 & Hid3); [by rewrite H2|done|cbn in *; lia|done|]. rewrite (run_bind _ _ _ _ _ E3).
  eexists. split; [done|]. unfold mounted. cbn [mounts set_ramfs set_mounts ramfs drivers]. rewrite H2. split; [done|]. split.
  - cbn in HL |- *. by rewrite length_fmap.
  - split; [|done]. intros j mj Hj Hl. destruct j as [|[|[|j]]]; try lia. cbn in Hl. apply list_lookup_fmap_Some in Hl as (m & -> & _). done.
Qed.
(** Unmounting: without a driver the mount that owns the path is given up, whatever the path. *)
Lemma VfsUmount_plain w path i m : find_mount (mounts w) path = Some i -> mounts w !! i = Some m -> m_driver m = None ->
  VfsUmount path w = Some (0, set_mounts (<[i := mk_mount (mount_point m) (m_device m) None false]> (mounts w)) w).
Proof.
  intros Hf Hm Hd. unfold VfsUmount. rewrite (run_bind _ _ _ _ _ (eq_refl : asks _ w = Some (_, w))), Hf. unfold umount_at.
  assert (E : (fun w => m ← mounts w !! i; Some (m, w)) w = Some (m, w)) by (by rewrite Hm). rewrite (run_bind _ _ _ _ _ E), Hd. cbn [mbind option_bind].
  assert (E2 : deactivate i w = Some (tt, set_mounts (<[i := mk_mount (mount_point m) (m_device m) None false]> (mounts w)) w)) by (unfold deactivate; by rewrite Hm, option_bind_Some, Hd).
  by rewrite (run_bind _ _ _ _ _ E2).
Qed.
End mount.
