(* ===== verification/VfsProps.v ===== *)
(** The properties of the virtual file system layer. *)
From Stdlib Require Import ZArith Lia.
From stdpp Require Import base tactics sets list numbers option.
From S2P Require Import Prelude Vfrfs VfrfsInv VfrfsCreate VfrfsFind VfrfsOps VfrfsRun VfrfsPath VfrfsProps Vfs VfsRange VfsStore VfsRam VfsCopy.

(** ** A system for the witnesses: the mounts of start-up, no drivers, the files of [demo_fs] *)
#[export] Instance no_drivers : Drivers unit := fun _ =>
  mk_driver _ (fun _ s => s) (fun _ _ => mret (-1, [])) (fun _ _ _ => mret (-1)) (fun _ => mret (-1)) (fun _ => mret (-1)) (fun _ => mret (-1))
    (fun _ => mret (-1)) (fun _ => mret (-1)) (fun _ => mret 0) (fun _ => mret 0) (fun _ => mret 0) None.
Definition demo_vfs : vfs unit := mk_vfs (boot_mounts ++ replicate 5 no_mount) demo_fs tt [].
Lemma demo_vfs_ready : ready demo_fs.
Proof.
  split.
  - exists 5%nat, zero_handle. split; vm_compute; reflexivity.
  - split; vm_compute; [reflexivity|discriminate].
  - assert (H : Forall (fun x => 0 <= fd x < next_fd demo_fs) (file_handles demo_fs)) by (vm_compute; repeat constructor; discriminate).
    intros h x Hx. by apply (Forall_lookup_1 _ _ _ _ H Hx).
Qed.
Lemma demo_file : exists n, ram_at demo_vfs path_b root_mount 2 n /\ default [] (data n) = [10; 20; 30].
Proof.
  assert (G : exists n, get_node 2 demo_fs = Some n /\ ntype n = FS_FILE /\ default [] (data n) = [10; 20; 30]) by (vm_compute; eexists; split_and!; reflexivity).
  destruct G as (n & G1 & G2 & G3). exists n. split; [|done]. split; [vm_compute; reflexivity|done|apply demo_ok|apply demo_vfs_ready|vm_compute; reflexivity|done|done|]. rewrite G3. by vm_compute.
Qed.
Lemma demo_holds : ram_holds demo_vfs path_b [10; 20; 30].
Proof. destruct demo_file as (n & H & E). by exists root_mount, 2%nat, n. Qed.
Lemma demo_cleared j nj : get_node j demo_fs = Some nj -> node_id nj = 0 -> nj = zero_fsnode.
Proof.
  assert (H1 : drop 4 (fs_nodes demo_fs) = replicate 124 zero_fsnode) by (vm_compute; reflexivity).
  assert (H2 : forallb (fun n => negb (node_id n =? 0)) (take 4 (fs_nodes demo_fs)) = true) by (vm_compute; reflexivity). unfold get_node. intros Hj Hz.
  destruct (decide (j < 4)%nat) as [Hlt|Hge].
  - rewrite forallb_forall in H2. specialize (H2 nj). rewrite Hz in H2. cbn [negb Z.eqb] in H2. exfalso. refine (_ (H2 _)); [discriminate|]. apply list_elem_of_In, (list_elem_of_lookup_2 _ j). by rewrite lookup_take_lt.
  - replace j with (4 + (j - 4))%nat in Hj by lia. rewrite <- lookup_drop, H1 in Hj. by apply lookup_replicate in Hj as [-> _].
Qed.
Lemma demo_realloc_room (d : bytes) k : (Z.of_nat k <= realloc_max) -> exists d', demo_realloc d (Z.of_nat k) = Some (Some d').
Proof. intros H. unfold demo_realloc. rewrite (proj2 (Z.leb_le _ realloc_max) H). by eexists. Qed.
Lemma demo_steady : realloc_steady demo_realloc.
Proof. intros d n Hn. unfold demo_realloc. by rewrite (proj2 (Z.leb_le _ realloc_max)) by lia. Qed.
Lemma demo_room k : Z.of_nat k <= realloc_max -> ram_room demo_realloc demo_vfs path_b k.
Proof. intros Hk. split; [by vm_compute|]. intros d _. by apply demo_realloc_room. Qed.
#[local] Existing Instance ram_file_store.

(** C11. The edits of the layer, for every file store: a path holds contents [c], reading
    gives them, and a write stores its bytes when there is room.  Writing at an offset, inserting,
    filling, appending, deleting a range, truncating, reversing a range and swapping two ranges run
    to their end without leaving a block, and one of four things holds.

    The edit refuses with -1 and the path still holds [c]: the result of a write, insertion or
    filling would be empty, the file to append to or to reverse in is empty (appending to an empty
    file always fails), a range to reverse or swap ends behind the file, or the ranges to swap are
    empty.

    It succeeds, and the path holds the intended contents [c']: [edit_result], in which the bytes
    between the old end and the offset of a write are whatever the heap's block held (a filling has
    zeros there).  But a store that does not replace the contents of a file on writing (the
    in-memory file system is one) only overwrites their start: when [c'] is shorter than [c], as it
    is after deleting a range or truncating, the operation reports success there and the old tail
    [drop (length c') c] is still behind [c'].

    It fails with a negative number because the heap refused a block, and the path still holds [c].

    The store had no room for the write, and the edit fails (what the path holds then is left
    open); but deleting everything does not look at that and reports success.

    The arguments are unsigned, the end of a range fits 32 bits and the result the store's
    limit; ranges to swap that lie in the file must not overlap (the copy between them is not
    defined then).  The in-memory file system implements the interface for files of up to 1024
    bytes: beyond that its reallocation stops the kernel. *)
Theorem range_edits {X} `{!Drivers X} realloc pid `{!FileStore X realloc pid} (w : vfs X) p c e : holds w p c -> edit_args realloc pid c e ->
  exists r w', run_edit realloc pid e p w = Some (r, w') /\
    match edit_result w c e with
    | None => r = -1 /\ holds w' p c
    | Some (z, c') =>
        r = z /\ holds w' p (if replaces then c' else c' ++ drop (length c') c) \/
        r < 0 /\ None ∈ heap w /\ holds w' p c \/
        (if unreported e c' then r = z else r < 0) /\ ~ room w p (length c')
    end.
Proof. apply edit_ok. Qed.
(** Two bytes inserted into [/a/b]; the file cut to one byte, which the in-memory file system
    leaves as long as it was; and a range to reverse that is not in the file. *)
Lemma range_edits_witness :
  (exists w', run_edit demo_realloc 7 (EInsertAt 1 [1; 2]) path_b demo_vfs = Some (2, w') /\ ram_holds w' path_b [10; 1; 2; 20; 30]) /\
  (exists w', run_edit demo_realloc 7 (ETruncate 1) path_b demo_vfs = Some (1, w') /\ ram_holds w' path_b [10; 20; 30]) /\
  (exists w', run_edit demo_realloc 7 (EReverse 1 3) path_b demo_vfs = Some (-1, w') /\ ram_holds w' path_b [10; 20; 30]).
Proof.
  set (store := ram_file_store (X := unit) demo_realloc demo_realloc_ok demo_steady 7).
  pose proof (fun e => range_edits demo_realloc 7 (FileStore0 := store) demo_vfs path_b [10; 20; 30] e demo_holds) as HE.
  assert (good : forall e z c', edit_args (FileStore0 := store) demo_realloc 7 [10; 20; 30] e -> edit_result demo_vfs [10; 20; 30] e = Some (z, c') ->
    unreported e c' = false -> Z.of_nat (length c') <= realloc_max ->
    exists w', run_edit demo_realloc 7 e path_b demo_vfs = Some (z, w') /\ ram_holds w' path_b (c' ++ drop (length c') [10; 20; 30])).
  { intros e z c' Ha ER Hu Hn. destruct (HE e Ha) as (r & w' & E & H). rewrite ER, Hu in H. destruct H as [[-> Hh]|[(_ & Hno & _)|[_ Hno]]].
    - exists w'. split; [exact E|exact Hh].
    - exfalso. exact (not_elem_of_nil None Hno).
    - exfalso. exact (Hno (demo_room _ Hn)). }
  split; [|split].
  - destruct (good (EInsertAt 1 [1; 2]) 2 [10; 1; 2; 20; 30]) as (w' & E & H); [split; [lia|by vm_compute]|reflexivity|reflexivity|unfold realloc_max; cbn; lia|].
    exists w'. split; [exact E|exact H].
  - destruct (good (ETruncate 1) 1 [10]) as (w' & E & H); [cbn; lia|reflexivity|reflexivity|unfold realloc_max; cbn; lia|].
    exists w'. split; [exact E|exact H].
  - destruct (HE (EReverse 1 3)) as (r & w' & E & H); [cbn; lia|]. destruct H as [-> H]. exists w'. split; [exact E|exact H].
Defined.

(** The queries of the layer, for every file store.  Reading at an offset gives the bytes of
    the contents from there on, as many as asked for and as there are; the checksum of a range is
    the sum of its bytes modulo 2^32; the search for a pattern that is no longer than the file
    returns the first place at or after the start where the pattern is, or -1 when there is none.
    They leave the file as it is, and answer -1 otherwise only when the heap refuses a block.  A
    pattern longer than the file is compared with memory past the block. *)
Theorem range_queries {X} `{!Drivers X} realloc pid `{!FileStore X realloc pid} (w : vfs X) p c : holds w p c ->
  (forall off n, 0 <= off -> 0 <= n -> off + n < 2 ^ 32 ->
     answers realloc pid w w p c (VfsReadAt p off n) (fun a => a = (Z.of_nat (length (slice c off n)), slice c off n)) (-1, [])) /\
  (forall off n, 0 <= off -> 0 <= n -> off + n < 2 ^ 32 ->
     answers realloc pid w w p c (VfsChecksum p off n) (fun a => a = i32 (foldr Z.add 0 (slice c off n))) (-1)) /\
  (forall pat start, 0 <= start -> pat <> [] -> (length pat <= length c)%nat ->
     answers realloc pid w w p c (VfsSearchBytes p pat (Z.of_nat (length pat)) start) (first_match c pat start) (-1)) /\
  (forall pat start, 0 <= start < Z.of_nat (length c) -> (length c < length pat)%nat -> Z.of_nat (length pat) < 2 ^ 32 -> ~ None ∈ heap w ->
     VfsSearchBytes p pat (Z.of_nat (length pat)) start w = None).
Proof.
  intros H. repeat match goal with |- _ /\ _ => split end; intros.
  - by apply VfsReadAt_ok.
  - by apply VfsChecksum_ok.
  - by apply VfsSearchBytes_ok.
  - by eapply VfsSearchBytes_past.
Qed.
Lemma range_queries_witness :
  (exists w', VfsReadAt path_b 1 9 demo_vfs = Some ((2, [20; 30]), w')) /\ (exists r w', VfsSearchBytes path_b [30] 1 0 demo_vfs = Some (r, w') /\ first_match [10; 20; 30] [30] 0 r) /\
  VfsSearchBytes path_b [1; 2; 3; 4] 4 0 demo_vfs = None.
Proof.
  set (store := ram_file_store (X := unit) demo_realloc demo_realloc_ok demo_steady 7).
  destruct (range_queries demo_realloc 7 (FileStore0 := store) demo_vfs path_b [10; 20; 30] demo_holds) as (HR & _ & HS & HP).
  split; [|split].
  - destruct (HR 1 9) as (a & w' & E & _ & [->|[_ Hno]]); [lia|lia|lia| |exfalso; exact (not_elem_of_nil None Hno)]. exists w'. exact E.
  - destruct (HS [30] 0) as (r & w' & E & _ & [Hr|[_ Hno]]); [lia|done|cbn; lia| |exfalso; exact (not_elem_of_nil None Hno)]. exists r, w'. split; [exact E|exact Hr].
  - apply (HP [1; 2; 3; 4] 0); [split; [lia|vm_compute; reflexivity]|cbn; lia|vm_compute; reflexivity|apply not_elem_of_nil].
Defined.

(** Copying a file inside the in-memory file system.  A file that is not empty is copied
    (of at most 1024 bytes, as is every file there) whenever the heap and the descriptors last: the source keeps its contents; a destination that
    was not there (its directory is, and a free and cleared node) then holds exactly the same
    contents; a destination that was there, a different file, then starts with them, and what
    followed in a longer destination is still behind them. *)
Theorem VfsCopyFile_correct {X} `{!Drivers X} realloc pid (w : vfs X) src ms i n : realloc_ok realloc -> realloc_steady realloc -> ram_at w src ms i n -> is_mount_point src w = false ->
  let s := ramfs w in let c := default [] (data n) in c <> [] -> ~ None ∈ heap w -> next_fd s + 1 < 2 ^ 31 ->
  (forall d : bytes, (length d < length c)%nat -> exists d', realloc d (Z.of_nat (length c)) = Some (Some d')) ->
  (forall dst md d nm par pn k, (j ← find_mount (mounts w) dst; mounts w !! j) = Some md -> m_driver md = None -> VfsStripMount dst md = d ++ slash :: nm ->
     no_slash nm -> valid_name nm -> nm <> dot -> nm <> dotdot -> (length d < 256)%nat -> hd_error (d ++ [slash]) = Some slash ->
     FsFind (dir_part d) s = Some (Some par) -> get_node par s = Some pn -> ntype pn = FS_DIRECTORY -> FsFind (d ++ slash :: nm) s = Some None ->
     next_node_id s + 1 < 2 ^ 32 -> get_node k s = Some zero_fsnode -> (forall j nj, get_node j s = Some nj -> node_id nj = 0 -> nj = zero_fsnode) ->
     exists w', VfsCopyFile realloc pid src dst w = Some (0, w') /\ ram_holds w' src c /\ ram_holds w' dst c) /\
  (forall dst md j nj, ram_at w dst md j nj -> i <> j -> let old := default [] (data nj) in
     exists w', VfsCopyFile realloc pid src dst w = Some (0, w') /\ ram_holds w' src c /\ ram_holds w' dst (c ++ drop (length c) old)).
Proof.
  intros HR HS H Hmp s c Hne Hheap Hfd Hroom. split.
  - intros dst md d nm par pn k Hm Hd Hst Hns Hv Hn1 Hn2 Hl Hhd Hp Hpn Hty Hnone Hid Hk Hclr. by eapply (copy_new realloc HR HS pid w src ms i n dst md d nm par pn k).
  - intros dst md j nj Hdst Hij old. by apply (copy_existing realloc HR HS pid w src dst ms i n md j nj).
Qed.
(** [/a/b] copied to the new file [/a/d]. *)
Lemma VfsCopyFile_correct_witness : exists w', VfsCopyFile demo_realloc 7 path_b [47; 97; 47; 100] demo_vfs = Some (0, w') /\ ram_holds w' [47; 97; 47; 100] [10; 20; 30].
Proof.
  destruct demo_file as (n & Hn & En).
  destruct (VfsCopyFile_correct demo_realloc 7 demo_vfs path_b root_mount 2 n demo_realloc_ok demo_steady Hn) as [HC _]; [vm_compute; reflexivity|rewrite En; discriminate|apply not_elem_of_nil|vm_compute; reflexivity| |].
  { intros d _. apply demo_realloc_room. rewrite En. vm_compute. discriminate. }
  assert (G : exists pn, get_node 1 demo_fs = Some pn /\ ntype pn = FS_DIRECTORY) by (vm_compute; eexists; split; reflexivity). destruct G as (pn & G1 & G2).
  destruct (HC [47; 97; 47; 100] root_mount path_a [100] 1%nat pn 100%nat) as (w' & E & _ & Hd); [vm_compute; reflexivity|reflexivity|vm_compute; reflexivity|repeat constructor; discriminate|split; [discriminate|cbn; lia]|
    discriminate|discriminate|cbn; lia|reflexivity|vm_compute; reflexivity|exact G1|exact G2|vm_compute; reflexivity|vm_compute; reflexivity|vm_compute; reflexivity| |].
  - apply demo_cleared.
  - exists w'. split; [exact E|]. rewrite En in Hd. exact Hd.
Defined.

(** A path lies under a mount point: it starts with it, and there a component ends. *)
Definition under (path mp : bytes) : Prop := exists rest, path = mp ++ rest /\ (length mp = 1%nat \/ rest = [] \/ hd_error rest = Some slash).
Definition candidate (path : bytes) (m : VfsMountStruct) : Prop := m_active m = true /\ mount_point m <> [] /\ under path (mount_point m).
(** C31. The mount of a path is the deepest one above it.  For a path without NUL bytes and mount
    points shorter than 64 bytes, [VfsFindMount] returns the first active mount whose mount point
    is the longest among those that the path lies under (it starts with the mount point, and there
    a component ends), and none exactly when there is no such mount.  [VfsStripMount] then gives
    what follows the mount point, or the root, or under the root mount the path itself.  A mount
    point of one byte counts as a prefix of every path that starts with it. *)
Theorem find_mount_longest ms path : Forall (fun c => c <> 0) path -> (forall j mj, ms !! j = Some mj -> (length (mount_point mj) < 64)%nat) ->
  match find_mount ms path with
  | None => forall j mj, ms !! j = Some mj -> ~ candidate path mj
  | Some i => exists m, ms !! i = Some m /\ candidate path m /\
      (forall j mj, ms !! j = Some mj -> candidate path mj ->
         (length (mount_point mj) < length (mount_point m))%nat \/ (length (mount_point mj) = length (mount_point m) /\ (i <= j)%nat)) /\
      (forall rest, path = mount_point m ++ rest -> (1 < length (mount_point m))%nat -> VfsStripMount path m = match rest with [] => [slash] | _ => rest end) /\
      (mount_point m = [slash] -> VfsStripMount path m = path)
  end.
Proof.
  intros Hz Hl. assert (HO : forall j mj, ms !! j = Some mj -> owns path mj <-> candidate path mj).
  { intros j mj Hj. specialize (Hl j mj Hj). unfold owns, candidate, under. rewrite (mount_matches_iff path (mount_point mj) Hz Hl). unfold mount_length, fast_strlen. rewrite Nat.min_l by lia.
    destruct (mount_point mj); cbn [length]; [split; [lia|by intros (_ & ? & _)]|]. split; [intros (? & ? & _)|intros (? & _ & ?)]; (split; [done|split; [done|lia] || split; done]). }
  assert (HLn : forall j mj, ms !! j = Some mj -> mount_length mj = length (mount_point mj)) by (intros j mj Hj; specialize (Hl j mj Hj); unfold mount_length, fast_strlen; lia).
  pose proof (find_mount_best ms path) as HB. destruct (find_mount ms path) as [i|].
  - destruct HB as (m & Hm & Hown & Hall). exists m. pose proof (Hl i m Hm) as Hlm. split; [done|]. split; [by apply (HO i)|]. split; [|split].
    + intros j mj Hj Hc. rewrite <- (HLn j mj Hj), <- (HLn i m Hm). apply (Hall j mj Hj). by apply (HO j).
    + intros rest Hp H1. destruct (proj1 (HO i m Hm) Hown) as (_ & _ & rest' & Hp' & Hr). rewrite Hp in Hp'. apply app_inv_head in Hp' as <-. rewrite Hp. apply VfsStripMount_ok; [by rewrite <- Hp|done| |].
      * intros E. rewrite E in H1. cbn in H1. lia.
      * destruct Hr as [Hr|Hr]; [lia|done].
    + intros E. unfold VfsStripMount, fast_strlen. by rewrite E.
  - intros j mj Hj Hc. apply (HB j mj Hj). by apply (HO j).
Qed.
Lemma find_mount_longest_witness : find_mount (mounts demo_vfs) (DevicesDir ++ [47; 97]) = Some 1%nat /\
  exists m, mounts demo_vfs !! 1%nat = Some m /\ candidate (DevicesDir ++ [47; 97]) m /\ VfsStripMount (DevicesDir ++ [47; 97]) m = [47; 97].
Proof.
  assert (E : find_mount (mounts demo_vfs) (DevicesDir ++ [47; 97]) = Some 1%nat) by (vm_compute; reflexivity). split; [exact E|].
  assert (HL : Forall (fun m => length (mount_point m) < 64)%nat (mounts demo_vfs)) by (repeat constructor; apply Nat.ltb_lt; vm_compute; reflexivity).
  pose proof (find_mount_longest (mounts demo_vfs) (DevicesDir ++ [47; 97])) as H. rewrite E in H.
  destruct H as (m & H1 & H2 & _ & H3 & _); [repeat constructor; discriminate|intros j mj Hj; exact (Forall_lookup_1 _ _ _ _ HL Hj)|].
  exists m. split; [exact H1|]. split; [exact H2|]. injection H1 as <-. apply (H3 [47; 97]); [reflexivity|cbn; lia].
Defined.

(** ** Flaws *)
(** [VfsUmount] takes the path of any file for its mount: after start-up, unmounting a path that
    no driver owns takes the root away, and no file of the in-memory file system is found. *)
Theorem umount_takes_root {X} `{!Drivers X} (w : vfs X) path : take 3 (mounts w) = boot_mounts -> find_mount (mounts w) path = Some 0%nat ->
  exists w', VfsUmount path w = Some (0, w') /\ mounts w' !! 0%nat = Some (mk_mount [slash] None None false).
Proof.
  intros Hb Hf. assert (Hm : mounts w !! 0%nat = Some root_mount) by (rewrite <- (take_drop 3 (mounts w)), Hb; done).
  eexists. split; [by apply (VfsUmount_plain w path 0 root_mount Hf Hm eq_refl)|]. cbn. apply list_lookup_insert_eq. by eapply lookup_lt_Some.
Qed.
(** Appending to an empty file of any store fails. *)
Theorem append_to_empty_fails {X} `{!Drivers X} realloc pid `{!FileStore X realloc pid} (w : vfs X) p b n : holds w p [] ->
  exists w', VfsAppendFile realloc pid p b n w = Some (-1, w') /\ holds w' p [].
Proof. apply VfsAppendFile_empty. Qed.
