(* ===== verification/ExecLoad.v ===== *)
(** The executable loaders ([src/kernel/execf]): detection of the format, and for ELF, PE, a.out and
    Mach-O files the checks, the layout of the segments in a block of memory, and the entry point.

    Files come from the virtual file system layer.  Blocks come from [VMemAllocWithGuards]: whole
    zeroed pages between two pages that are not mapped; None stands for an access outside them,
    whatever it does.  [served] has the outcomes of the coming calls of the page allocator, and what
    becomes of freed blocks is not modelled.  The scheduler is the class [Processes]. *)
From Stdlib Require Import ZArith Lia.
From stdpp Require Import base tactics list numbers option.
From S2P Require Import Prelude Vfrfs StringOps Vfs.

Definition PROC_PRIV_SYSTEM : Z := 0.
Definition PROC_PRIV_NORM : Z := 1.
(** The privilege level of the running process by either scheduler; [CreateProcess name image entry]
    is told where in the image execution starts, and gives a pid or 0. *)
Class Processes (P : Type) := {
  GetCurrentProcess : P -> option Z;
  MLFQGetCurrentProcess : P -> option Z;
  CreateProcess : bytes -> bytes -> Z -> STM P Z
}.
(** The options of all loaders; what only describes the process is left out. *)
Record ExecLoadOptions := mk_options { privilege_level : Z; max_memory : Z }.

(** ** Memory *)
Definition pages (n : Z) : Z := u64 (n + 4095) / 4096 * 4096.
(** The little-endian field of [n] bytes at offset [off] of a block. *)
Definition field (n : nat) (off : Z) (b : bytes) : option Z := d ← mem_read b off (Z.of_nat n); load_le n 0 d.
(** [FastMemset(b + off, 0, n)] *)
Definition mem_zero (b : bytes) (off n : Z) : option bytes :=
  if (0 <=? off) && (0 <=? n) && (off + n <=? Z.of_nat (length b)) then mem_write b off (replicate (Z.to_nat n) 0) else None.
(** [FastMemcpy(mem + dst, data + src, n)] *)
Definition mem_copy (mem : bytes) (dst : Z) (data : bytes) (src n : Z) : option bytes := d ← mem_read data src n; mem_write mem dst d.
(** A segment of [memsz] bytes at [dst] of which [filesz] are in the file at [src]. *)
Definition fill_segment (mem : bytes) (dst : Z) (data : bytes) (src filesz memsz : Z) : option bytes :=
  mem1 ← (if 0 <? filesz then mem_copy mem dst data src filesz else Some mem);
  if filesz <? memsz then mem_zero mem1 (u64 (dst + filesz)) (memsz - filesz) else Some mem1.
(** [i] from 0 while below [n]; the body may stop the loop with a result. *)
Fixpoint for_range {S} (n : nat) (i : Z) (f : Z -> S -> option (option S)) (s : S) : option (option S) :=
  match n with
  | O => Some (Some s)
  | Datatypes.S n' => r ← f i s; match r with None => Some None | Some s' => for_range n' (i + 1) f s' end
  end.

(** ** Formats *)
Inductive ExecFormat := EXEC_FORMAT_UNKNOWN | EXEC_FORMAT_ELF64 | EXEC_FORMAT_PE32PLUS | EXEC_FORMAT_MACHO64 | EXEC_FORMAT_AOUT.
Definition ELF_magic : bytes := [127; 69; 76; 70].
Definition MH_MAGIC_64 : Z := 0xfeedfacf.
Definition DetectExecutableFormat (data : bytes) (size : Z) : option ExecFormat :=
  if size <? 4 then Some EXEC_FORMAT_UNKNOWN else
  m ← mem_read data 0 4;
  magic ← load_le 4 0 m;
  Some (if bool_decide (m = ELF_magic) then EXEC_FORMAT_ELF64 else
        if (byte_at 0 m =? 77) && (byte_at 1 m =? 90) then EXEC_FORMAT_PE32PLUS else
        if magic =? MH_MAGIC_64 then EXEC_FORMAT_MACHO64 else
        if (magic =? 0x107) || (magic =? 0x108) || (magic =? 0x10B) || (magic =? 0xCC) then EXEC_FORMAT_AOUT else EXEC_FORMAT_UNKNOWN).

(** ** ELF *)
Definition MAX_ELF_FILE_SIZE : Z := 4 * 1024 * 1024.
Definition sizeof_ElfHeader : Z := 64.
Definition sizeof_ProgramHeader : Z := 56.
Definition PT_LOAD : Z := 1.
Definition ValidateElfHeader (h : bytes) (file_size : Z) : option bool :=
  id ← mem_read h 0 16;
  e_type ← field 2 16 h; e_machine ← field 2 18 h; e_entry ← field 8 24 h; e_phoff ← field 8 32 h;
  e_phentsize ← field 2 54 h; e_phnum ← field 2 56 h;
  Some (bool_decide (take 4 id = ELF_magic) && (byte_at 4 id =? 2) && (byte_at 5 id =? 1) &&
    ((e_type =? 2) || (e_type =? 3)) && (e_machine =? 62) &&
    negb (file_size <? u64 (e_phoff + i32 (e_phnum * e_phentsize))) && negb (64 <? e_phnum) && negb (e_entry =? 0)).
Definition ValidateElfFile (elf_data : bytes) (size : Z) : option bool :=
  if size <? sizeof_ElfHeader then Some false else ValidateElfHeader elf_data size.
(** A field of program header [i]; offsets from the start of the file wrap like pointers. *)
Definition ph_field (n : nat) (off : Z) (i e_phoff : Z) (d : bytes) : option Z := field n (u64 (e_phoff + sizeof_ProgramHeader * i + off)) d.
Definition p_type : Z -> Z -> bytes -> option Z := ph_field 4 0.
Definition p_offset : Z -> Z -> bytes -> option Z := ph_field 8 8.
Definition p_vaddr : Z -> Z -> bytes -> option Z := ph_field 8 16.
Definition p_filesz : Z -> Z -> bytes -> option Z := ph_field 8 32.
Definition p_memsz : Z -> Z -> bytes -> option Z := ph_field 8 40.
Definition memory_bounds (e_phoff : Z) (d : bytes) (i : Z) (lh : Z * Z) : option (option (Z * Z)) :=
  t ← p_type i e_phoff d;
  if negb (t =? PT_LOAD) then Some (Some lh) else
  v ← p_vaddr i e_phoff d; m ← p_memsz i e_phoff d;
  let lowest := if v <? lh.1 then v else lh.1 in
  let segment_end := u64 (v + m) in
  Some (Some (lowest, if lh.2 <? segment_end then segment_end else lh.2)).
Definition UINT64_MAX : Z := 2 ^ 64 - 1.
Definition CalculateProcessMemorySize (e_phoff e_phnum : Z) (d : bytes) : option Z :=
  r ← for_range (Z.to_nat e_phnum) 0 (memory_bounds e_phoff d) (UINT64_MAX, 0);
  let '(lowest, highest) := default (UINT64_MAX, 0) r in
  Some (if lowest =? UINT64_MAX then 0 else u64 (highest - lowest)).
(** The loop for the base address. *)
Definition lower_base (e_phoff : Z) (d : bytes) (i base : Z) : option (option Z) :=
  t ← p_type i e_phoff d;
  if negb (t =? PT_LOAD) then Some (Some base) else
  v ← p_vaddr i e_phoff d;
  Some (Some (if v <? base then v else base)).
Definition find_base (e_phoff e_phnum : Z) (d : bytes) : option Z :=
  r ← for_range (Z.to_nat e_phnum) 0 (lower_base e_phoff d) UINT64_MAX;
  Some (default UINT64_MAX r).
(** One round of the loop that loads segments; the inner None refuses the file. *)
Definition load_segment (e_phoff : Z) (d : bytes) (file_size base_vaddr process_memory_size i : Z) (mem : bytes) : option (option bytes) :=
  t ← p_type i e_phoff d;
  if negb (t =? PT_LOAD) then Some (Some mem) else
  offset ← p_offset i e_phoff d; filesz ← p_filesz i e_phoff d; vaddr ← p_vaddr i e_phoff d; memsz ← p_memsz i e_phoff d;
  if file_size <? u64 (offset + filesz) then Some None else
  let mem_offset := u64 (vaddr - base_vaddr) in
  if process_memory_size <? u64 (mem_offset + memsz) then Some None else
  mem' ← fill_segment mem mem_offset d offset filesz memsz;
  Some (Some mem').

(** ** PE *)
Definition MAX_PE_FILE_SIZE : Z := 4 * 1024 * 1024.
Definition sizeof_DOSHeader : Z := 64.
Definition sizeof_PEHeader : Z := 24.
Definition sizeof_OptionalHeader : Z := 112.
Definition sizeof_SectionHeader : Z := 40.
Definition ValidatePEHeader (d : bytes) (file_size : Z) : option bool :=
  e_magic ← field 2 0 d; pe ← field 4 60 d;
  if negb (e_magic =? 0x5A4D) then Some false else
  if (file_size <? pe) || (file_size <? pe + (sizeof_PEHeader + sizeof_OptionalHeader)) then Some false else
  signature ← field 4 pe d; machine ← field 2 (pe + 4) d; sections ← field 2 (pe + 6) d;
  opt_hdr_size ← field 2 (pe + 20) d; characteristics ← field 2 (pe + 22) d; magic ← field 2 (pe + sizeof_PEHeader) d;
  Some ((signature =? 0x4550) && (machine =? 0x8664) && negb (Z.land characteristics 2 =? 0) && negb (opt_hdr_size <? sizeof_OptionalHeader) &&
    (magic =? 0x20b) && negb (file_size <? pe + sizeof_PEHeader + opt_hdr_size + sections * sizeof_SectionHeader)).
Definition ValidatePEFile (d : bytes) (size : Z) : option bool := if size <? sizeof_DOSHeader then Some false else ValidatePEHeader d size.
Definition load_section (table : Z) (d : bytes) (file_size image_size i : Z) (mem : bytes) : option (option bytes) :=
  let sect := table + sizeof_SectionHeader * i in
  virtual_size ← field 4 (sect + 8) d; virtual_addr ← field 4 (sect + 12) d; raw_data_size ← field 4 (sect + 16) d; raw_data_ptr ← field 4 (sect + 20) d;
  if raw_data_size =? 0 then Some (Some mem) else
  if (file_size <? u32 (raw_data_ptr + raw_data_size)) || (image_size <? u32 (virtual_addr + virtual_size)) then Some None else
  mem' ← mem_copy mem virtual_addr d raw_data_ptr raw_data_size;
  Some (Some mem').

(** ** a.out *)
Definition MAX_AOUT_FILE_SIZE : Z := 2 * 1024 * 1024.
Definition sizeof_AoutHeader : Z := 32.
Definition ValidateAoutFile (d : bytes) (size : Z) : option bool :=
  if size <? sizeof_AoutHeader then Some false else
  a_magic ← field 4 0 d; a_text ← field 4 4 d; a_data ← field 4 8 d; a_bss ← field 4 12 d; a_syms ← field 4 16 d;
  Some (((a_magic =? 0x107) || (a_magic =? 0x108) || (a_magic =? 0x10B) || (a_magic =? 0xCC)) &&
    negb (size <? sizeof_AoutHeader + a_text + a_data + a_syms) &&
    negb ((4 * 1024 * 1024 <? a_text) || (4 * 1024 * 1024 <? a_data) || (8 * 1024 * 1024 <? a_bss))).

(** ** Mach-O *)
Definition MAX_MACHO_FILE_SIZE : Z := 16 * 1024 * 1024.
Definition sizeof_mach_header_64 : Z := 32.
Definition LC_SEGMENT_64 : Z := 0x19.
Definition LC_MAIN : Z := 0x80000028.
Definition ValidateMachoHeader (d : bytes) (file_size : Z) : option bool :=
  magic ← field 4 0 d; ncmds ← field 4 16 d; sizeofcmds ← field 4 20 d;
  Some ((magic =? MH_MAGIC_64) && negb ((sizeofcmds =? 0) || (ncmds =? 0)) && negb (file_size <? sizeofcmds)).
(** The loops over load commands: [f off cmd s] treats the command at [off]; [current_offset] moves by
    its [cmdsize]. *)
Definition next_command {S} (d : bytes) (f : Z -> Z -> S -> option (option S)) (_ : Z) (os : Z * S) : option (option (Z * S)) :=
  cmd ← field 4 os.1 d;
  r ← f os.1 cmd os.2;
  match r with
  | None => Some None
  | Some s => cmdsize ← field 4 (u64 (os.1 + 4)) d; Some (Some (u64 (os.1 + cmdsize), s))
  end.
Definition commands {S} (d : bytes) (ncmds : Z) (f : Z -> Z -> S -> option (option S)) (s : S) : option (option S) :=
  r ← for_range (Z.to_nat ncmds) 0 (next_command d f) (sizeof_mach_header_64, s);
  Some match r with None => None | Some os => Some os.2 end.
Definition seg_field (n : nat) (off at_ : Z) (d : bytes) : option Z := field n (u64 (at_ + off)) d.
Definition macho_size (d : bytes) (ncmds : Z) : option Z :=
  r ← commands d ncmds (fun off cmd total => if cmd =? LC_SEGMENT_64 then v ← seg_field 8 32 off d; Some (Some (u64 (total + v))) else Some (Some total)) 0;
  Some (default 0 r).
Definition macho_segment (d : bytes) (file_size process_memory_size off cmd : Z) (mem : bytes) : option (option bytes) :=
  if negb (cmd =? LC_SEGMENT_64) then Some (Some mem) else
  vmaddr ← seg_field 8 24 off d; vmsize ← seg_field 8 32 off d; fileoff ← seg_field 8 40 off d; filesize ← seg_field 8 48 off d;
  if file_size <? u64 (fileoff + filesize) then Some None else
  if process_memory_size <? u64 (vmaddr + vmsize) then Some None else
  mem' ← fill_segment mem vmaddr d fileoff filesize vmsize;
  Some (Some mem').
(** The loops that stop at a hit: [inl] is still searching, [inr] has found. *)
Definition find_main (d : bytes) (_ : Z) (os : Z + Z) : option (option (Z + Z)) :=
  match os with
  | inr e => Some (Some (inr e))
  | inl off =>
      cmd ← field 4 off d;
      if cmd =? LC_MAIN then e ← seg_field 8 8 off d; _ ← seg_field 8 16 off d; Some (Some (inr e))
      else cmdsize ← field 4 (u64 (off + 4)) d; Some (Some (inl (u64 (off + cmdsize))))
  end.
Definition macho_entry_offset (d : bytes) (ncmds : Z) : option Z :=
  r ← for_range (Z.to_nat ncmds) 0 (find_main d) (inl sizeof_mach_header_64);
  Some (match r with Some (inr e) => e | _ => 0 end).
Definition find_address (d : bytes) (entry : Z) (_ : Z) (os : Z + Z) : option (option (Z + Z)) :=
  match os with
  | inr e => Some (Some (inr e))
  | inl off =>
      cmd ← field 4 off d;
      hit ← (if cmd =? LC_SEGMENT_64 then
               fileoff ← seg_field 8 40 off d;
               if negb (fileoff <=? entry) then Some None else
               filesize ← seg_field 8 48 off d;
               if negb (entry <? u64 (fileoff + filesize)) then Some None else
               vmaddr ← seg_field 8 24 off d;
               Some (Some (u64 (vmaddr + u64 (entry - fileoff))))
             else Some None);
      match hit with
      | Some e => Some (Some (inr e))
      | None => cmdsize ← field 4 (u64 (off + 4)) d; Some (Some (inl (u64 (off + cmdsize))))
      end
  end.
Definition macho_entry_va (d : bytes) (ncmds entry : Z) : option Z :=
  r ← for_range (Z.to_nat ncmds) 0 (find_address d entry) (inl sizeof_mach_header_64);
  Some (match r with Some (inr e) => e | _ => 0 end).

(** ** The loaders *)
Record exec (X P : Type) := mk_exec { files : vfs X; procs : P; served : list bool }.
#[global] Arguments mk_exec {X P}.
#[global] Arguments files {X P}.
#[global] Arguments procs {X P}.
#[global] Arguments served {X P}.
Section exec.
Context {X P : Type} `{!Drivers X} `{!Processes P}.
Notation E := (STM (exec X P)).
Definition on_files {A} (op : STM (vfs X) A) : E A := fun s => r ← op (files s); Some (r.1, mk_exec r.2 (procs s) (served s)).
Definition on_procs {A} (op : STM P A) : E A := fun s => r ← op (procs s); Some (r.1, mk_exec (files s) r.2 (served s)).
(** The two guard pages are part of what is allocated; if the sum wraps, nothing lies between them. *)
Definition VMemAllocWithGuards (n : Z) : E (option bytes) :=
  let total_size := u64 (pages n + 2 * 4096) in
  if (n =? 0) || (total_size =? 0) then mret None else fun s =>
  let block := Some (replicate (Z.to_nat (total_size - 2 * 4096)) 0) in
  match served s with
  | [] => Some (block, s)
  | b :: l => Some (if b : bool then block else None, mk_exec (files s) (procs s) l)
  end.
(** The file in a block; None: it is empty, too large, or not read as a whole. *)
Definition read_file (filename : bytes) (limit : Z) : E (option (bytes * Z)) :=
  file_size ← on_files (VfsGetFileSize filename);
  if (file_size =? 0) || (limit <? file_size) then mret None else
  b ← VMemAllocWithGuards file_size;
  match b with
  | None => mret None
  | Some data =>
      r ← on_files (VfsReadFile filename (u32 file_size));
      data ← lift (mem_write data 0 r.2);
      mret (if r.1 =? file_size then Some (data, file_size) else None)
  end.
(** A process of the size with an image laid out by [load]. *)
Definition with_memory (size : Z) (load : bytes -> option (option bytes)) (run : bytes -> E Z) : E Z :=
  m ← VMemAllocWithGuards size;
  match m with
  | None => mret 0
  | Some mem =>
      mem ← lift (mem_zero mem 0 size);
      r ← lift (load mem);
      match r with None => mret 0 | Some image => run image end
  end.
(** The options given, or the defaults; the check that only a system process makes another. *)
Definition default_options (o : option ExecLoadOptions) (limit : Z) : ExecLoadOptions := default (mk_options PROC_PRIV_NORM limit) o.
Definition may_create (creator : option Z) (o : ExecLoadOptions) : bool :=
  match creator with
  | None => false
  | Some c => negb ((privilege_level o =? PROC_PRIV_SYSTEM) && negb (c =? PROC_PRIV_SYSTEM))
  end.

(** The base address is computed here before the block is allocated: the loop only reads the file. *)
Definition CreateProcessFromElf (filename : bytes) (options : option ExecLoadOptions) : E Z :=
  let opts := default_options options (16 * 1024 * 1024) in
  creator ← asks (fun s => GetCurrentProcess (procs s));
  if negb (may_create creator opts) then mret 0 else
  f ← read_file filename MAX_ELF_FILE_SIZE;
  match f with
  | None => mret 0
  | Some (d, file_size) =>
      ok ← lift (ValidateElfFile d file_size);
      if negb ok then mret 0 else
      e_phoff ← lift (field 8 32 d); e_phnum ← lift (field 2 56 d); e_entry ← lift (field 8 24 d);
      process_memory_size ← lift (CalculateProcessMemorySize e_phoff e_phnum d);
      if process_memory_size =? 0 then mret 0 else
      if max_memory opts <? process_memory_size then mret 0 else
      base_vaddr ← lift (find_base e_phoff e_phnum d);
      with_memory process_memory_size
        (fun mem => for_range (Z.to_nat e_phnum) 0 (load_segment e_phoff d file_size base_vaddr process_memory_size) mem)
        (fun image =>
           if (e_entry <? base_vaddr) || (u64 (base_vaddr + process_memory_size) <=? e_entry) then mret 0 else
           on_procs (CreateProcess filename image (u64 (e_entry - base_vaddr))))
  end.
Definition LoadElfExecutable (filename : bytes) : E Z := CreateProcessFromElf filename None.
Definition LoadElfFromFile (filename : bytes) : E Z := pid ← LoadElfExecutable filename; mret (if pid =? 0 then -1 else 0).

Definition CreateProcessFromPE (filename : bytes) (options : option ExecLoadOptions) : E Z :=
  let opts := default_options options (16 * 1024 * 1024) in
  creator ← asks (fun s => GetCurrentProcess (procs s));
  if negb (may_create creator opts) then mret 0 else
  f ← read_file filename MAX_PE_FILE_SIZE;
  match f with
  | None => mret 0
  | Some (d, file_size) =>
      ok ← lift (ValidatePEFile d file_size);
      if negb ok then mret 0 else
      pe ← lift (field 4 60 d);
      let opt := pe + sizeof_PEHeader in
      image_size ← lift (field 4 (opt + 56) d); opt_hdr_size ← lift (field 2 (pe + 20) d);
      sections ← lift (field 2 (pe + 6) d); entry_point ← lift (field 4 (opt + 16) d);
      if max_memory opts <? image_size then mret 0 else
      with_memory image_size
        (fun mem => for_range (Z.to_nat sections) 0 (load_section (opt + opt_hdr_size) d file_size image_size) mem)
        (fun image => if image_size <=? entry_point then mret 0 else on_procs (CreateProcess filename image entry_point))
  end.

Definition CreateProcessFromAout (filename : bytes) (options : option ExecLoadOptions) : E Z :=
  let opts := default_options options (8 * 1024 * 1024) in
  f ← read_file filename MAX_AOUT_FILE_SIZE;
  match f with
  | None => mret 0
  | Some (d, file_size) =>
      ok ← lift (ValidateAoutFile d file_size);
      if negb ok then mret 0 else
      a_text ← lift (field 4 4 d); a_data ← lift (field 4 8 d); a_bss ← lift (field 4 12 d); a_entry ← lift (field 4 20 d);
      let total_memory := u32 (a_text + a_data + a_bss) in
      if max_memory opts <? total_memory then mret 0 else
      with_memory total_memory
        (fun mem =>
           m1 ← (if 0 <? a_text then mem_copy mem 0 d sizeof_AoutHeader a_text else Some mem);
           m2 ← (if 0 <? a_data then mem_copy m1 a_text d (sizeof_AoutHeader + a_text) a_data else Some m1);
           Some (Some m2))
        (fun image => on_procs (CreateProcess filename image a_entry))
  end.

(** The options are not used. *)
Definition CreateProcessFromMacho (filename : bytes) (_ : option ExecLoadOptions) : E Z :=
  f ← read_file filename MAX_MACHO_FILE_SIZE;
  match f with
  | None => mret 0
  | Some (d, file_size) =>
      ok ← lift (ValidateMachoHeader d file_size);
      if negb ok then mret 0 else
      ncmds ← lift (field 4 16 d);
      process_memory_size ← lift (macho_size d ncmds);
      if process_memory_size =? 0 then mret 0 else
      with_memory process_memory_size
        (fun mem => commands d ncmds (macho_segment d file_size process_memory_size) mem)
        (fun image =>
           entry_point_offset ← lift (macho_entry_offset d ncmds);
           if entry_point_offset =? 0 then mret 0 else
           entry_point_va ← lift (macho_entry_va d ncmds entry_point_offset);
           if entry_point_va =? 0 then mret 0 else
           on_procs (CreateProcess filename image entry_point_va))
  end.

Definition LoadExecutable (filename : bytes) (options : option ExecLoadOptions) : E Z :=
  creator ← asks (fun s => MLFQGetCurrentProcess (procs s));
  if match options with Some o => (privilege_level o =? PROC_PRIV_SYSTEM) && negb (match creator with Some c => c =? PROC_PRIV_SYSTEM | None => false end) | None => false end
  then mret 0 else
  r ← on_files (VfsReadFile filename 64);
  header ← lift (mem_write (replicate 64 0) 0 r.2);
  if r.1 <? 4 then mret 0 else
  format ← lift (DetectExecutableFormat header r.1);
  let limit := match format with EXEC_FORMAT_AOUT => 8 * 1024 * 1024 | _ => 16 * 1024 * 1024 end in
  let opts := Some (default_options options limit) in
  match format with
  | EXEC_FORMAT_ELF64 => CreateProcessFromElf filename opts
  | EXEC_FORMAT_PE32PLUS => CreateProcessFromPE filename opts
  | EXEC_FORMAT_AOUT => CreateProcessFromAout filename opts
  | EXEC_FORMAT_MACHO64 => CreateProcessFromMacho filename opts
  | EXEC_FORMAT_UNKNOWN => mret 0
  end.
End exec.
