(* ===== verification/ExecImage.v ===== *)
(** The executable loaders, parts that do not depend on the format: fields and loops, images made of
    pieces of a file, blocks, and the common course of a loader over a file store. *)
From Stdlib Require Import ZArith Lia.
From stdpp Require Import base tactics sets list numbers option.
From S2P Require Import Prelude StringOps StringProps Vfrfs VfrfsOps Vfs VfsStore ExecLoad.

(** ** Reading fields *)
(** The little-endian number of [n] bytes at offset [off] of the file [c]. *)
Definition le (c : bytes) (off : Z) (n : nat) : Z := le_val (take n (drop (Z.to_nat off) c)).
Lemma le_range c off n : Forall byte_ok c -> 0 <= le c off n < 2 ^ (8 * Z.of_nat n).
Proof.
  intros HB. unfold le. pose proof (le_val_range (take n (drop (Z.to_nat off) c))) as H.
  assert (HF : Forall byte_ok (take n (drop (Z.to_nat off) c))) by (by apply Forall_take, Forall_drop). specialize (H HF).
  assert (2 ^ (8 * Z.of_nat (length (take n (drop (Z.to_nat off) c)))) <= 2 ^ (8 * Z.of_nat n)) by (apply Z.pow_le_mono_r; [lia|]; rewrite length_take; lia). lia.
Qed.
Lemma mem_read_app c z off n : 0 <= off -> 0 <= n -> off + n <= Z.of_nat (length c) -> mem_read (c ++ z) off n = Some (take (Z.to_nat n) (drop (Z.to_nat off) c)).
Proof.
  intros H1 H2 H3. rewrite mem_read_ok by (rewrite ?length_app; lia). f_equal. rewrite drop_app_le by lia. apply take_app_le. rewrite length_drop. lia.
Qed.
Lemma field_ok n off c z : 0 <= off -> off + Z.of_nat n <= Z.of_nat (length c) -> field n off (c ++ z) = Some (le c off n).
Proof.
  intros H1 H2. unfold field. rewrite mem_read_app, Nat2Z.id by lia. rewrite option_bind_Some.
  rewrite load_le_ok by (rewrite length_take, length_drop; lia). by rewrite drop_0, take_take, Nat.min_id.
Qed.

(** ** Loops *)
Fixpoint run_list {A S} (g : A -> S -> option (option S)) (l : list A) (s : S) : option (option S) :=
  match l with
  | [] => Some (Some s)
  | x :: l' => r ← g x s; match r with None => Some None | Some s' => run_list g l' s' end
  end.
Lemma run_list_step {A S} (g : A -> S -> option (option S)) x l s r : g x s = Some r ->
  run_list g (x :: l) s = match r with None => Some None | Some s' => run_list g l s' end.
Proof. intros E. cbn [run_list]. by rewrite E. Qed.
Lemma for_range_list {A S} (f : Z -> S -> option (option S)) (g : A -> S -> option (option S)) l : forall i s,
  (forall k x s, l !! k = Some x -> f (i + Z.of_nat k) s = g x s) -> for_range (length l) i f s = run_list g l s.
Proof.
  induction l as [|x l IH]; intros i s H; cbn [length for_range run_list]; [done|].
  rewrite <- (H O x s eq_refl), Z.add_0_r. destruct (f i s) as [[s'|]|]; rewrite ?option_bind_Some; [|done|done].
  apply IH. intros k y t Hk. rewrite <- (H (Datatypes.S k) y t Hk). f_equal. lia.
Qed.

(** ** Images *)
(** A piece of [msz] bytes at [at_] of the image: [fsz] bytes of the file from [from], then zeros. *)
Record piece := mk_piece { at_ : Z; from : Z; fsz : Z; msz : Z }.
Definition piece_byte (c : bytes) (p : piece) (k : Z) : option Z :=
  if (at_ p <=? k) && (k <? at_ p + fsz p) then Some (byte_at (Z.to_nat (from p + (k - at_ p))) c) else
  if (at_ p + fsz p <=? k) && (k <? at_ p + msz p) then Some 0 else None.
(** The last piece that covers a byte gives it; the others are zero. *)
Definition image_byte (c : bytes) (ps : list piece) (k : Z) : Z := foldl (fun b p => default b (piece_byte c p k)) 0 ps.
(** The image of a process, as a function of the offset, and where in it execution starts. *)
Record launch := mk_launch { l_size : Z; l_byte : Z -> Z; l_entry : Z }.
Definition shows (mem : bytes) (F : Z -> Z) : Prop := forall k, 0 <= k < Z.of_nat (length mem) -> byte_at (Z.to_nat k) mem = F k.
Lemma byte_at_lookup k (l : bytes) : byte_at k l = default 0 (l !! k).
Proof. apply nth_lookup. Qed.
Lemma byte_at_splice i bs l k : (i + length bs <= length l)%nat ->
  byte_at k (splice i bs l) = if (i <=? k)%nat && (k <? i + length bs)%nat then byte_at (k - i) bs else byte_at k l.
Proof.
  intros H. rewrite !byte_at_lookup. destruct (Nat.leb_spec i k), (Nat.ltb_spec k (i + length bs)); cbn [andb].
  - rewrite <- (splice_in i bs l) by lia. do 2 f_equal. lia.
  - by rewrite splice_out by lia.
  - by rewrite splice_out by lia.
  - by rewrite splice_out by lia.
Qed.
Lemma mem_copy_ok mem dst c z src n F : shows mem F -> 0 <= dst -> 0 <= src -> 0 <= n -> dst + n <= Z.of_nat (length mem) -> src + n <= Z.of_nat (length c) ->
  exists mem', mem_copy mem dst (c ++ z) src n = Some mem' /\ length mem' = length mem /\
    shows mem' (fun k => if (dst <=? k) && (k <? dst + n) then byte_at (Z.to_nat (src + (k - dst))) c else F k).
Proof.
  intros HF H1 H2 H3 H4 H5. unfold mem_copy. rewrite mem_read_app, option_bind_Some by lia. set (b := take _ _).
  assert (Hb : length b = Z.to_nat n) by (unfold b; rewrite length_take, length_drop; lia).
  rewrite mem_write_in by lia. eexists. split; [done|]. split; [apply splice_length; lia|]. intros k Hk. rewrite splice_length in Hk by lia.
  rewrite byte_at_splice by lia. rewrite Hb. destruct (Z.leb_spec dst k), (Z.ltb_spec k (dst + n)); cbn [andb].
  - rewrite (proj2 (Nat.leb_le _ _)), (proj2 (Nat.ltb_lt _ _)) by lia. cbn [andb]. rewrite !byte_at_lookup. unfold b.
    rewrite lookup_take_lt, lookup_drop by lia. do 2 f_equal. lia.
  - rewrite (proj2 (Nat.ltb_ge _ _)), andb_false_r by lia. by apply HF.
  - rewrite (proj2 (Nat.leb_gt _ _)) by lia. by apply HF.
  - rewrite (proj2 (Nat.leb_gt _ _)) by lia. by apply HF.
Qed.
Lemma mem_zero_ok mem dst n F : shows mem F -> 0 <= dst -> 0 <= n -> dst + n <= Z.of_nat (length mem) ->
  exists mem', mem_zero mem dst n = Some mem' /\ length mem' = length mem /\ shows mem' (fun k => if (dst <=? k) && (k <? dst + n) then 0 else F k).
Proof.
  intros HF H1 H2 H3. unfold mem_zero. rewrite (proj2 (Z.leb_le _ _) H1), (proj2 (Z.leb_le _ _) H2), (proj2 (Z.leb_le _ _) H3). cbn [andb].
  assert (Hl : length (replicate (Z.to_nat n) 0) = Z.to_nat n) by apply length_replicate.
  rewrite mem_write_in by lia. eexists. split; [done|]. split; [apply splice_length; lia|]. intros k Hk. rewrite splice_length in Hk by lia.
  rewrite byte_at_splice by lia. rewrite Hl. destruct (Z.leb_spec dst k), (Z.ltb_spec k (dst + n)); cbn [andb].
  - rewrite (proj2 (Nat.leb_le _ _)), (proj2 (Nat.ltb_lt _ _)) by lia. cbn [andb]. rewrite byte_at_lookup, lookup_replicate_2 by lia. done.
  - rewrite (proj2 (Nat.ltb_ge _ _)), andb_false_r by lia. by apply HF.
  - rewrite (proj2 (Nat.leb_gt _ _)) by lia. by apply HF.
  - rewrite (proj2 (Nat.leb_gt _ _)) by lia. by apply HF.
Qed.
Lemma shows_ext mem F G : shows mem F -> (forall k, 0 <= k -> F k = G k) -> shows mem G.
Proof. intros H E k Hk. rewrite <- E by lia. by apply H. Qed.
(** A piece that lies in the file and in the block. *)
Definition piece_fits (c mem : bytes) (p : piece) : Prop :=
  0 <= at_ p /\ 0 <= from p /\ 0 <= fsz p <= msz p /\ from p + fsz p <= Z.of_nat (length c) /\ at_ p + msz p <= Z.of_nat (length mem).
Lemma fill_segment_ok mem c z p F : shows mem F -> piece_fits c mem p -> at_ p + msz p < 2 ^ 64 ->
  exists mem', fill_segment mem (at_ p) (c ++ z) (from p) (fsz p) (msz p) = Some mem' /\ length mem' = length mem /\
    shows mem' (fun k => default (F k) (piece_byte c p k)).
Proof.
  intros HF (H1 & H2 & H3 & H4 & H5) H6. unfold fill_segment.
  destruct (mem_copy_ok mem (at_ p) c z (from p) (fsz p) F HF) as (m1 & E1 & L1 & S1); [lia..|].
  assert (HE : exists m, (if 0 <? fsz p then mem_copy mem (at_ p) (c ++ z) (from p) (fsz p) else Some mem) = Some m /\ length m = length mem /\
    shows m (fun k => if (at_ p <=? k) && (k <? at_ p + fsz p) then byte_at (Z.to_nat (from p + (k - at_ p))) c else F k)).
  { destruct (Z.ltb_spec 0 (fsz p)); [by exists m1|]. exists mem. split_and!; [done..|]. eapply shows_ext; [exact HF|]. intros k Hk. cbv beta.
    destruct (Z.leb_spec (at_ p) k), (Z.ltb_spec k (at_ p + fsz p)); cbn [andb]; try done. lia. }
  destruct HE as (m & -> & Lm & Sm). rewrite option_bind_Some. unfold piece_byte.
  destruct (Z.ltb_spec (fsz p) (msz p)).
  - rewrite u64_small by lia. destruct (mem_zero_ok m (at_ p + fsz p) (msz p - fsz p) _ Sm) as (m2 & E2 & L2 & S2); [lia..|].
    exists m2. split_and!; [done|congruence|]. eapply shows_ext; [exact S2|]. intros k Hk. cbv beta.
    replace (at_ p + fsz p + (msz p - fsz p)) with (at_ p + msz p) by lia.
    destruct (Z.leb_spec (at_ p) k), (Z.ltb_spec k (at_ p + fsz p)), (Z.leb_spec (at_ p + fsz p) k), (Z.ltb_spec k (at_ p + msz p)); cbn [andb default]; try done; lia.
  - exists m. split_and!; [done|done|]. eapply shows_ext; [exact Sm|]. intros k Hk. cbv beta.
    destruct (Z.leb_spec (at_ p) k), (Z.ltb_spec k (at_ p + fsz p)), (Z.leb_spec (at_ p + fsz p) k), (Z.ltb_spec k (at_ p + msz p)); cbn [andb default]; try done; lia.
Qed.
Lemma image_byte_snoc c ps p k : image_byte c (ps ++ [p]) k = default (image_byte c ps k) (piece_byte c p k).
Proof. unfold image_byte. by rewrite foldl_app. Qed.
Lemma shows_zero n : shows (replicate n 0) (fun _ => 0).
Proof. intros k Hk. rewrite length_replicate in Hk. rewrite byte_at_lookup, lookup_replicate_2 by lia. done. Qed.

(** ** Blocks and files *)
Lemma pages_ok n : 0 < n -> n <= 2 ^ 63 -> n <= pages n < n + 4096 /\ u64 (pages n + 2 * 4096) = pages n + 2 * 4096 /\ u64 (pages n + 2 * 4096) <> 0.
Proof.
  intros H1 H2. unfold pages. rewrite (u64_small (n + 4095)) by lia. pose proof (Z.div_mod (n + 4095) 4096). pose proof (Z.mod_pos_bound (n + 4095) 4096).
  assert (n <= (n + 4095) / 4096 * 4096 < n + 4096) by lia. rewrite u64_small by lia. lia.
Qed.
Section files.
Context {X P : Type} `{!Drivers X} `{!Processes P} (realloc : bytes -> Z -> option (option bytes)) (pid : Z) `{!FileStore X realloc pid}.
Implicit Types (s : exec X P) (c filename : bytes).
Lemma alloc_ok n s : 0 < n -> n <= 2 ^ 63 ->
  exists b l, VMemAllocWithGuards n s = Some (b, mk_exec (files s) (procs s) l) /\ (forall x, x ∈ l -> x ∈ served s) /\
    (b = Some (replicate (Z.to_nat (pages n)) 0) \/ b = None /\ false ∈ served s).
Proof.
  intros H1 H2. destruct (pages_ok n H1 H2) as (H3 & H4 & H5). unfold VMemAllocWithGuards.
  rewrite (proj2 (Z.eqb_neq n 0)), (proj2 (Z.eqb_neq _ 0) H5), H4 by lia. cbn [orb]. replace (pages n + 2 * 4096 - 2 * 4096) with (pages n) by lia.
  destruct s as [w p [|b l]]; cbn [served files procs].
  - do 2 eexists. split; [done|]. split; [done|]. by left.
  - do 2 eexists. split; [done|]. split; [set_solver|]. destruct b; [by left|right]. split; [done|set_solver].
Qed.
(** What happens to a file [c]: refused; or not loaded as the page allocator had no pages; or
    [CreateProcess] gets the image that [plan] describes, with zeros to the end of its last page. *)
Definition launches s filename c (run : STM (exec X P) Z) (plan : option launch) : Prop :=
  exists w' l, holds w' filename c /\ heap w' = heap (files s) /\
    ((plan = None \/ false ∈ served s) /\ run s = Some (0, mk_exec w' (procs s) l) \/
     exists p image, plan = Some p /\ Z.of_nat (length image) = pages (l_size p) /\ shows image (l_byte p) /\
       run s = on_procs (CreateProcess filename image (l_entry p)) (mk_exec w' (procs s) l)).
Lemma on_files_run {A} (op : STM (vfs X) A) s a w' : op (files s) = Some (a, w') -> on_files op s = Some (a, mk_exec w' (procs s) (served s)).
Proof. intros E. unfold on_files. by rewrite E. Qed.
Definition block_of c : bytes := c ++ replicate (Z.to_nat (pages (Z.of_nat (length c)) - Z.of_nat (length c))) 0.
Lemma field_block n off c : 0 <= off -> off + Z.of_nat n <= Z.of_nat (length c) -> field n off (block_of c) = Some (le c off n).
Proof. apply field_ok. Qed.
Lemma lift_run {A B S} (a : A) (k : A -> STM S B) (s : S) : (lift (Some a) ≫= k) s = k a s.
Proof. done. Qed.
Lemma read_file_ok filename c lim s : holds (files s) filename c ->
  exists w' l r, read_file filename lim s = Some (r, mk_exec w' (procs s) l) /\ holds w' filename c /\ heap w' = heap (files s) /\ (forall x, x ∈ l -> x ∈ served s) /\
    (if (0 <? Z.of_nat (length c)) && (Z.of_nat (length c) <=? lim) then r = Some (block_of c, Z.of_nat (length c)) \/ r = None /\ false ∈ served s else r = None).
Proof.
  intros HF. pose proof (holds_limit _ _ _ HF) as HL. pose proof limit_int as HI. destruct (size_law _ _ _ HF) as (w1 & E1 & H1 & Hh1 & _).
  unfold read_file. rewrite (run_bind _ _ _ _ _ (on_files_run _ _ _ _ E1)). set (n := Z.of_nat (length c)) in *.
  destruct (Z.eqb_spec n 0) as [Hn|Hn]; cbn [orb].
  { rewrite (proj2 (Z.ltb_ge 0 n)) by lia. cbn [andb]. by exists w1, (served s), None. }
  rewrite (proj2 (Z.ltb_lt 0 n)) by lia. cbn [andb]. rewrite Z.ltb_antisym. destruct (Z.leb_spec n lim) as [Hm|Hm]; cbn [negb]; [|by exists w1, (served s), None].
  destruct (alloc_ok n (mk_exec w1 (procs s) (served s))) as (b & l & E2 & Hl & Hb); [lia..|]. cbn [files procs served] in *.
  rewrite (run_bind _ _ _ _ _ E2). destruct Hb as [->|[-> Hs]]; [|exists w1, l, None; split_and!; [done..|by right]].
  destruct (pages_ok n) as (HP & _); [lia..|].
  destruct (read_law _ _ _ n H1) as (w2 & E3 & H3 & Hh3 & _); [lia|]. rewrite Z.min_l, Nat2Z.id, take_ge in E3 by lia. fold n in E3.
  rewrite u32_small by lia. rewrite (run_bind _ _ _ _ _ (on_files_run _ (mk_exec w1 (procs s) l) _ _ E3)). cbn [fst snd procs served].
  rewrite (run_bind _ _ (mk_exec w2 (procs s) l) (block_of c) (mk_exec w2 (procs s) l)).
  - rewrite Z.eqb_refl. exists w2, l, (Some (block_of c, n)). split_and!; [done|done|congruence|done|by left].
  - unfold lift. rewrite mem_write_in by (rewrite ?length_replicate; lia). rewrite splice_zero, drop_replicate. unfold block_of. fold n.
    replace (Z.to_nat (pages n) - length c)%nat with (Z.to_nat (pages n - n)) by lia. done.
Qed.
Lemma with_memory_ok size load run s : 0 < size -> size <= 2 ^ 63 ->
  exists l, (false ∈ served s /\ with_memory size load run s = Some (0, mk_exec (files s) (procs s) l)) \/
    with_memory size load run s = (r ← lift (load (replicate (Z.to_nat (pages size)) 0)); match r with None => mret 0 | Some image => run image end) (mk_exec (files s) (procs s) l).
Proof.
  intros H1 H2. destruct (alloc_ok size s H1 H2) as (b & l & E & _ & Hb). destruct (pages_ok size H1 H2) as (HP & _). exists l.
  unfold with_memory. rewrite (run_bind _ _ _ _ _ E). destruct Hb as [->|[-> Hs]]; [right|by left].
  unfold mem_zero. rewrite length_replicate, (proj2 (Z.leb_le 0 size)), (proj2 (Z.leb_le (0 + size) _)) by lia. cbn [Z.leb Z.compare andb].
  rewrite mem_write_in by (rewrite ?length_replicate; lia). rewrite splice_zero, drop_replicate. rewrite length_replicate, <- replicate_add.
  replace (Z.to_nat size + (Z.to_nat (pages size) - Z.to_nat size))%nat with (Z.to_nat (pages size)) by lia. done.
Qed.
End files.

(** ** The common course of the loaders *)
Section course.
Context {X P : Type} `{!Drivers X} `{!Processes P} (realloc : bytes -> Z -> option (option bytes)) (pid : Z) `{!FileStore X realloc pid}.
Implicit Types (s : exec X P) (c filename : bytes).
Notation launches := (launches realloc pid).
Lemma launches_eq s filename c run run' plan : run s = run' s -> launches s filename c run' plan -> launches s filename c run plan.
Proof. intros E (w' & l & H1 & H2 & H3). exists w', l. by rewrite E. Qed.
Lemma launches_none s filename c run : holds (files s) filename c -> run s = Some (0, s) -> launches s filename c run None.
Proof. intros H E. exists (files s), (served s). split_and!; [done..|]. left. split; [by left|]. by destruct s. Qed.
Lemma launches_read s filename c lim body plan : holds (files s) filename c ->
  ((if (0 <? Z.of_nat (length c)) && (Z.of_nat (length c) <=? lim)
   then forall s1, holds (files s1) filename c -> procs s1 = procs s -> launches s1 filename c (body (block_of c) (Z.of_nat (length c))) plan else plan = None)) ->
  launches s filename c (f ← read_file filename lim; match f with None => mret 0 | Some (d, n) => body d n end) plan.
Proof.
  intros HF HP. destruct (read_file_ok realloc pid filename c lim s HF) as (w' & l & r & E & H1 & H2 & H3 & H4).
  destruct ((0 <? Z.of_nat (length c)) && (Z.of_nat (length c) <=? lim)).
  - destruct H4 as [->|[-> Hs]].
    + destruct (HP (mk_exec w' (procs s) l) H1 eq_refl) as (w2 & l2 & G1 & G2 & G3). cbn [files procs served] in *. exists w2, l2. split; [done|]. split; [congruence|].
      rewrite (run_bind _ _ _ _ _ E). destruct G3 as [[Hp Hr]|Hr]; [left|by right]. split; [|done]. destruct Hp as [Hp|Hp]; [by left|right; by apply H3].
    + exists w', l. split_and!; [done..|]. left. rewrite (run_bind _ _ _ _ _ E). by split; [right|].
  - subst. exists w', l. split_and!; [done..|]. left. rewrite (run_bind _ _ _ _ _ E). by split; [left|].
Qed.
Lemma launches_memory s filename c size load run plan : holds (files s) filename c -> 0 < size -> size <= 2 ^ 63 ->
  (let r := load (replicate (Z.to_nat (pages size)) 0) in
   plan = None /\ (r = Some None \/ exists image, r = Some (Some image) /\ forall s', run image s' = Some (0, s')) \/
   exists p image, plan = Some p /\ l_size p = size /\ r = Some (Some image) /\ length image = Z.to_nat (pages size) /\ shows image (l_byte p) /\
     forall s', run image s' = on_procs (CreateProcess filename image (l_entry p)) s') ->
  launches s filename c (with_memory size load run) plan.
Proof.
  intros HF H1 H2 HR. destruct (with_memory_ok size load run s H1 H2) as (l & [[Hs E]|E]); exists (files s), l; (split; [done|]; split; [done|]); [left; split; [by right|done]|].
  rewrite E. clear E. destruct (pages_ok size H1 H2) as (HP & _). destruct HR as [(-> & Hr)|(p & image & -> & <- & Hr & Hl & Hsh & Hrun)].
  - left. split; [by left|]. destruct Hr as [Hr|(image & Hr & Hrun)]; unfold lift, mbind at 1, STM_bind; rewrite Hr; [done|]. apply Hrun.
  - right. exists p, image. split; [done|]. split; [rewrite Hl; lia|]. split; [done|]. unfold lift, mbind at 1, STM_bind. rewrite Hr. apply Hrun.
Qed.
Lemma memory_length size : 0 < size -> size <= 2 ^ 63 -> size <= Z.of_nat (length (replicate (Z.to_nat (pages size)) 0)).
Proof. intros H1 H2. destruct (pages_ok size H1 H2) as (HP & _). rewrite length_replicate. lia. Qed.
End course.
Lemma fill_copy mem dst d src n : fill_segment mem dst d src n n = if 0 <? n then mem_copy mem dst d src n else Some mem.
Proof. unfold fill_segment. rewrite Z.ltb_irrefl. by destruct (if 0 <? n then _ else _). Qed.
Lemma fill_block mem c p ps : shows mem (image_byte c ps) -> piece_fits c mem p -> at_ p + msz p < 2 ^ 64 ->
  exists mem', fill_segment mem (at_ p) (block_of c) (from p) (fsz p) (msz p) = Some mem' /\ length mem' = length mem /\ shows mem' (image_byte c (ps ++ [p])).
Proof.
  intros HS HF H64. destruct (fill_segment_ok mem c (replicate (Z.to_nat (pages (Z.of_nat (length c)) - Z.of_nat (length c))) 0) p _ HS HF H64) as (m & E & L & S).
  exists m. split_and!; [done|done|]. eapply shows_ext; [exact S|]. intros k _. cbv beta. by rewrite image_byte_snoc.
Qed.
