(* ===== verification/ExecProps.v ===== *)
(** The properties of the executable loaders: what those of ELF, PE, a.out and Mach-O files make of a
    file, proved against the interface of a file store. *)
From Stdlib Require Import ZArith Lia.
From stdpp Require Import base tactics sets list numbers option.
From S2P Require Import Prelude StringOps StringProps Vfrfs VfrfsOps Vfs VfsStore VfsRam VfsProps VfrfsProps ExecLoad ExecImage.

(** ** ELF files, as the format has them *)
Definition e_entry (c : bytes) : Z := le c 24 8.
Definition e_phoff (c : bytes) : Z := le c 32 8.
Definition e_phentsize (c : bytes) : Z := le c 54 2.
Definition e_phnum (c : bytes) : Z := le c 56 2.
Record segment := mk_segment { s_type : Z; s_offset : Z; s_vaddr : Z; s_filesz : Z; s_memsz : Z }.
Definition segment_at (c : bytes) (off : Z) : segment := mk_segment (le c off 4) (le c (off + 8) 8) (le c (off + 16) 8) (le c (off + 32) 8) (le c (off + 40) 8).
Definition program_headers (c : bytes) : list segment :=
  map (fun i => segment_at c (e_phoff c + e_phentsize c * Z.of_nat i)) (seq 0 (Z.to_nat (e_phnum c))).
Definition is_load (x : segment) : Prop := s_type x = PT_LOAD.
#[export] Instance is_load_dec x : Decision (is_load x) := decide (s_type x = PT_LOAD).
Definition loadable (c : bytes) : list segment := filter is_load (program_headers c).
Definition lowest (l : list segment) : Z := foldr (fun x => Z.min (s_vaddr x)) UINT64_MAX l.
Definition highest (l : list segment) : Z := foldr (fun x => Z.max (s_vaddr x + s_memsz x)) 0 l.
Definition elf_header_ok (c : bytes) : bool :=
  bool_decide (take 4 c = ELF_magic) && (byte_at 4 c =? 2) && (byte_at 5 c =? 1) && ((le c 16 2 =? 2) || (le c 16 2 =? 3)) && (le c 18 2 =? 62) &&
  (e_phoff c + e_phentsize c * e_phnum c <=? Z.of_nat (length c)) && (e_phnum c <=? 64) && negb (e_entry c =? 0).
Definition in_file (c : bytes) (x : segment) : bool := s_offset x + s_filesz x <=? Z.of_nat (length c).
Definition segment_piece (base : Z) (x : segment) : piece := mk_piece (s_vaddr x - base) (s_offset x) (s_filesz x) (s_memsz x).
Definition elf_launch (limit : Z) (c : bytes) : option launch :=
  let n := Z.of_nat (length c) in
  let base := lowest (loadable c) in
  let size := highest (loadable c) - base in
  if (sizeof_ElfHeader <=? n) && (n <=? MAX_ELF_FILE_SIZE) && elf_header_ok c && (0 <? size) && (size <=? limit) &&
     forallb (in_file c) (loadable c) && (base <=? e_entry c) && (e_entry c <? base + size)
  then Some (mk_launch size (image_byte c (map (segment_piece base) (loadable c))) (e_entry c - base)) else None.
(** What the loader does not check: the size of an entry of the program header table, that a segment
    is not longer in the file than in memory, and that no sum wraps. *)
Record elf_sane (c : bytes) : Prop := {
  es_bytes : Forall byte_ok c;
  es_entsize : e_phentsize c = sizeof_ProgramHeader;
  es_table : e_phoff c + sizeof_ProgramHeader * e_phnum c < 2 ^ 64;
  es_segments : Forall (fun x => s_filesz x <= s_memsz x /\ s_vaddr x + s_memsz x < 2 ^ 64 /\ s_offset x + s_filesz x < 2 ^ 64) (loadable c)
}.
Lemma ValidateElfFile_ok c : elf_sane c -> sizeof_ElfHeader <= Z.of_nat (length c) -> ValidateElfFile (block_of c) (Z.of_nat (length c)) = Some (elf_header_ok c).
Proof.
  intros [HB HE HT _] Hn. unfold ValidateElfFile. rewrite (proj2 (Z.ltb_ge _ _) Hn). unfold sizeof_ElfHeader, sizeof_ProgramHeader in *.
  unfold ValidateElfHeader, block_of. rewrite mem_read_app, option_bind_Some by lia. rewrite !field_ok by lia. rewrite !option_bind_Some.
  fold (e_entry c) (e_phoff c) (e_phentsize c) (e_phnum c). rewrite drop_0, take_take.
  pose proof (le_range c 56 2 HB) as H1. pose proof (le_range c 32 8 HB) as H2. fold (e_phnum c) in H1. fold (e_phoff c) in H2. change (2 ^ (8 * Z.of_nat 2)) with 65536 in H1.
  unfold elf_header_ok. rewrite HE in *. rewrite i32_small, u64_small by lia.
  assert (HK : forall k, (k < 16)%nat -> byte_at k (take (Z.to_nat 16) c) = byte_at k c) by (intros k Hk; rewrite !byte_at_lookup, lookup_take_lt by (cbn; lia); done).
  rewrite !HK by lia. rewrite <- !Z.leb_antisym. f_equal. rewrite (Z.mul_comm (e_phnum c)). done.
Qed.
Lemma header_table c : elf_header_ok c = true -> e_phoff c + e_phentsize c * e_phnum c <= Z.of_nat (length c).
Proof. intros H. unfold elf_header_ok in H. rewrite !andb_true_iff in H. destruct H as (((_ & H) & _) & _). by apply Z.leb_le. Qed.
Lemma ph_ok c k x : elf_sane c -> elf_header_ok c = true -> program_headers c !! k = Some x ->
  let i := Z.of_nat k in let d := block_of c in
  p_type i (e_phoff c) d = Some (s_type x) /\ p_offset i (e_phoff c) d = Some (s_offset x) /\ p_vaddr i (e_phoff c) d = Some (s_vaddr x) /\
  p_filesz i (e_phoff c) d = Some (s_filesz x) /\ p_memsz i (e_phoff c) d = Some (s_memsz x).
Proof.
  intros [HB HE HT _] HH Hx i d. apply header_table in HH. unfold program_headers in Hx. rewrite list_lookup_fmap in Hx. apply fmap_Some in Hx as (j & Hj & ->).
  apply lookup_seq in Hj as [-> Hj]. cbn [Nat.add] in *. rewrite HE in *. pose proof (le_range c 32 8 HB) as H2. fold (e_phoff c) in H2. unfold sizeof_ProgramHeader in *.
  assert (Hk : 0 <= i /\ i + 1 <= e_phnum c) by lia.
  assert (HF : forall n off, 0 <= off -> off + Z.of_nat n <= 56 -> ph_field n off i (e_phoff c) d = Some (le c (e_phoff c + 56 * i + off) n)).
  { intros n off H3 H4. unfold ph_field, d, block_of, sizeof_ProgramHeader. rewrite u64_small by lia. apply field_ok; lia. }
  unfold p_type, p_offset, p_vaddr, p_filesz, p_memsz, segment_at. cbn [s_type s_offset s_vaddr s_filesz s_memsz]. rewrite !HF by lia. rewrite Z.add_0_r. done.
Qed.
Definition bounds_step (x : segment) (lh : Z * Z) : option (option (Z * Z)) :=
  if negb (s_type x =? PT_LOAD) then Some (Some lh) else
  Some (Some (if s_vaddr x <? lh.1 then s_vaddr x else lh.1, if lh.2 <? u64 (s_vaddr x + s_memsz x) then u64 (s_vaddr x + s_memsz x) else lh.2)).
Lemma is_load_test x : (s_type x =? PT_LOAD) = bool_decide (is_load x).
Proof. unfold is_load. case_bool_decide; [by apply Z.eqb_eq|by apply Z.eqb_neq]. Qed.
Lemma filter_load x l : filter is_load (x :: l) = if s_type x =? PT_LOAD then x :: filter is_load l else filter is_load l.
Proof. rewrite is_load_test. case_bool_decide; [by rewrite filter_cons_True|by rewrite filter_cons_False]. Qed.
Definition segment_range (x : segment) : Prop := 0 <= s_offset x /\ 0 <= s_vaddr x /\ 0 <= s_filesz x <= s_memsz x /\ s_vaddr x + s_memsz x < 2 ^ 64 /\ s_offset x + s_filesz x < 2 ^ 64.
Lemma loadable_range c : elf_sane c -> Forall segment_range (loadable c).
Proof.
  intros [HB _ _ HS]. rewrite Forall_forall in HS |- *. intros x Hx. specialize (HS x Hx) as (H1 & H2 & H3). apply list_elem_of_In, list_elem_of_filter in Hx as [_ Hx].
  unfold program_headers in Hx. apply list_elem_of_fmap in Hx as (i & -> & _). unfold segment_range, segment_at in *. cbn [s_type s_offset s_vaddr s_filesz s_memsz] in *.
  pose proof (le_range c (e_phoff c + e_phentsize c * Z.of_nat i + 8) 8 HB). pose proof (le_range c (e_phoff c + e_phentsize c * Z.of_nat i + 16) 8 HB).
  pose proof (le_range c (e_phoff c + e_phentsize c * Z.of_nat i + 32) 8 HB). lia.
Qed.
Lemma bounds_run l : forall lo hi, lo <= UINT64_MAX -> 0 <= hi -> Forall segment_range (filter is_load l) ->
  run_list bounds_step l (lo, hi) = Some (Some (Z.min lo (lowest (filter is_load l)), Z.max hi (highest (filter is_load l)))).
Proof.
  induction l as [|x l IH]; intros lo hi H1 H2 HR.
  - cbn. by rewrite Z.min_l, Z.max_l by lia.
  - rewrite filter_load in HR |- *. destruct (s_type x =? PT_LOAD) eqn:Ex; (erewrite run_list_step; [|unfold bounds_step; rewrite Ex; reflexivity]).
    + apply Forall_cons_iff in HR as [(Hx1 & Hx2 & Hx3 & Hx4 & Hx5) HR]. cbn [fst snd]. rewrite u64_small by lia. unfold lowest, highest. cbn [foldr].
      fold (lowest (filter is_load l)) (highest (filter is_load l)). rewrite IH; [|destruct (Z.ltb_spec (s_vaddr x) lo); lia|destruct (Z.ltb_spec hi (s_vaddr x + s_memsz x)); lia|done].
      do 3 f_equal; [destruct (Z.ltb_spec (s_vaddr x) lo)|destruct (Z.ltb_spec hi (s_vaddr x + s_memsz x))]; lia.
    + by apply IH.
Qed.
Lemma program_headers_length c : length (program_headers c) = Z.to_nat (e_phnum c).
Proof. unfold program_headers. by rewrite length_map, length_seq. Qed.
Lemma lowest_max l : lowest l <= UINT64_MAX.
Proof. induction l as [|x l IH]; unfold lowest; cbn [foldr]; [done|]. fold (lowest l). lia. Qed.
Lemma highest_nonneg l : 0 <= highest l.
Proof. induction l as [|x l IH]; unfold highest; cbn [foldr]; [done|]. fold (highest l). lia. Qed.
Lemma bounds_in l x : x ∈ l -> lowest l <= s_vaddr x /\ s_vaddr x + s_memsz x <= highest l.
Proof. induction 1 as [x l|x y l _ IH]; unfold lowest, highest; cbn [foldr]; fold (lowest l) (highest l); lia. Qed.
Lemma highest_small l : Forall segment_range l -> highest l < 2 ^ 64.
Proof. induction 1 as [|x l Hx _ IH]; unfold highest; cbn [foldr]; [lia|]. unfold segment_range in Hx. fold (highest l). lia. Qed.
Lemma lowest_nonneg l : Forall segment_range l -> 0 <= lowest l.
Proof. induction 1 as [|x l Hx _ IH]; unfold lowest; cbn [foldr]; [by vm_compute|]. unfold segment_range in Hx. fold (lowest l). lia. Qed.
Lemma size_cases l : Forall segment_range l -> (if lowest l =? UINT64_MAX then 0 else u64 (highest l - lowest l)) = Z.max 0 (highest l - lowest l).
Proof.
  intros HR. pose proof (highest_small _ HR). pose proof (lowest_nonneg _ HR). pose proof (lowest_max l). destruct (Z.eqb_spec (lowest l) UINT64_MAX) as [E|E].
  - unfold UINT64_MAX in *. lia.
  - destruct l as [|x l]; [done|]. destruct (bounds_in (x :: l) x) as [H3 H4]; [by apply list_elem_of_here|].
    apply Forall_cons_iff in HR as [(_ & _ & Hx & _) _]. rewrite u64_small; lia.
Qed.
Lemma CalculateProcessMemorySize_ok c : elf_sane c -> elf_header_ok c = true ->
  CalculateProcessMemorySize (e_phoff c) (e_phnum c) (block_of c) =
    Some (Z.max 0 (highest (loadable c) - lowest (loadable c))).
Proof.
  intros HS HH. rewrite <- size_cases by (by apply loadable_range). unfold CalculateProcessMemorySize. rewrite <- program_headers_length, (for_range_list _ bounds_step).
  - rewrite bounds_run; [|done|done|by apply loadable_range]. rewrite option_bind_Some. cbn [default]. fold (loadable c).
    pose proof (lowest_max (loadable c)). pose proof (highest_nonneg (loadable c)). by rewrite Z.min_r, Z.max_r by lia.
  - intros k x lh Hx. destruct (ph_ok c k x HS HH Hx) as (E1 & _ & E3 & _ & E5). rewrite Z.add_0_l. unfold memory_bounds, bounds_step. rewrite E1, option_bind_Some.
    destruct (negb _); [done|]. rewrite E3, E5, !option_bind_Some. done.
Qed.
Lemma find_base_ok c : elf_sane c -> elf_header_ok c = true -> find_base (e_phoff c) (e_phnum c) (block_of c) = Some (lowest (loadable c)).
Proof.
  intros HS HH. unfold find_base. set (g := fun x base => if negb (s_type x =? PT_LOAD) then Some (Some base) else Some (Some (if s_vaddr x <? base then s_vaddr x else base))).
  assert (HR : forall l b, b <= UINT64_MAX -> run_list g l b = Some (Some (Z.min b (lowest (filter is_load l))))).
  { induction l as [|x l IH]; intros b Hb; [cbn; by rewrite Z.min_l by lia|]. rewrite filter_load. destruct (s_type x =? PT_LOAD) eqn:Ex; (erewrite run_list_step; [|unfold g; rewrite Ex; reflexivity]); [|by apply IH].
    unfold lowest. cbn [foldr]. fold (lowest (filter is_load l)). rewrite IH by (destruct (Z.ltb_spec (s_vaddr x) b); lia). do 2 f_equal. destruct (Z.ltb_spec (s_vaddr x) b); lia. }
  rewrite <- program_headers_length, (for_range_list _ g).
  - rewrite HR by lia. rewrite option_bind_Some. cbn [default]. fold (loadable c). pose proof (lowest_max (loadable c)). by rewrite Z.min_r by lia.
  - intros k x b Hx. destruct (ph_ok c k x HS HH Hx) as (E1 & _ & E3 & _). rewrite Z.add_0_l. unfold lower_base, g. rewrite E1, option_bind_Some. destruct (negb _); [done|]. by rewrite E3, option_bind_Some.
Qed.
Definition load_step (d : bytes) (n base size : Z) (x : segment) (mem : bytes) : option (option bytes) :=
  if negb (s_type x =? PT_LOAD) then Some (Some mem) else
  if n <? u64 (s_offset x + s_filesz x) then Some None else
  if size <? u64 (u64 (s_vaddr x - base) + s_memsz x) then Some None else
  mem' ← fill_segment mem (u64 (s_vaddr x - base)) d (s_offset x) (s_filesz x) (s_memsz x);
  Some (Some mem').
Lemma load_run c base size l : forall mem ps, 0 <= base -> size <= Z.of_nat (length mem) -> shows mem (image_byte c ps) ->
  Forall (fun x => segment_range x /\ base <= s_vaddr x /\ s_vaddr x + s_memsz x - base <= size) (filter is_load l) ->
  let r := run_list (load_step (block_of c) (Z.of_nat (length c)) base size) l mem in
  if forallb (in_file c) (filter is_load l)
  then exists mem', r = Some (Some mem') /\ length mem' = length mem /\ shows mem' (image_byte c (ps ++ map (segment_piece base) (filter is_load l)))
  else r = Some None.
Proof.
  induction l as [|x l IH]; intros mem ps Hb Hm HF HR r; subst r.
  - cbn. exists mem. by rewrite app_nil_r.
  - rewrite filter_load in HR |- *. destruct (s_type x =? PT_LOAD) eqn:Ex; [|erewrite run_list_step; [|unfold load_step; rewrite Ex; reflexivity]; by apply IH].
    apply Forall_cons_iff in HR as [((Hx1 & Hx2 & Hx3 & Hx4 & Hx5) & Hx6 & Hx7) HR].
    set (g := load_step _ _ _ _) in *. assert (HG : g x mem = if negb (in_file c x) then Some None else (m ← fill_segment mem (s_vaddr x - base) (block_of c) (s_offset x) (s_filesz x) (s_memsz x); Some (Some m))).
    { unfold g, load_step, in_file. rewrite Ex, (u64_small (_ + s_filesz x)), (u64_small (_ - base)), (u64_small (_ + s_memsz x)) by lia. cbn [negb].
      rewrite Z.ltb_antisym, (proj2 (Z.ltb_ge size _)) by lia. done. }
    cbn [forallb]. destruct (in_file c x) eqn:Hf; cbn [negb andb] in HG |- *; [|by rewrite (run_list_step _ _ _ _ _ HG)]. apply Z.leb_le in Hf.
    destruct (fill_segment_ok mem c (replicate (Z.to_nat (pages (Z.of_nat (length c)) - Z.of_nat (length c))) 0) (segment_piece base x) _ HF) as (m1 & E1 & L1 & S1);
      [unfold piece_fits, segment_piece; cbn [at_ from fsz msz]; lia|unfold segment_piece; cbn [at_ msz]; lia|].
    fold (block_of c) in E1. unfold segment_piece in E1. cbn [at_ from fsz msz] in E1. rewrite E1, option_bind_Some in HG.
    rewrite (run_list_step _ _ _ _ _ HG).
    specialize (IH m1 (ps ++ [segment_piece base x]) Hb). rewrite L1 in IH. specialize (IH Hm). cbv zeta in IH. cbn [map].
    replace (ps ++ segment_piece base x :: map (segment_piece base) (filter is_load l)) with ((ps ++ [segment_piece base x]) ++ map (segment_piece base) (filter is_load l)) by (by rewrite <- app_assoc).
    apply IH; [|done]. eapply shows_ext; [exact S1|]. intros k _. cbv beta. by rewrite image_byte_snoc.
Qed.

(** The loop over the program headers on the zeroed block of the process. *)
Lemma load_segments c (size := highest (loadable c) - lowest (loadable c)) : elf_sane c -> elf_header_ok c = true -> 0 < size -> size <= 2 ^ 63 ->
  let r := for_range (Z.to_nat (e_phnum c)) 0 (load_segment (e_phoff c) (block_of c) (Z.of_nat (length c)) (lowest (loadable c)) size) (replicate (Z.to_nat (pages size)) 0) in
  if forallb (in_file c) (loadable c)
  then exists image, r = Some (Some image) /\ length image = Z.to_nat (pages size) /\ shows image (image_byte c (map (segment_piece (lowest (loadable c))) (loadable c)))
  else r = Some None.
Proof.
  intros HS HH H1 H2 r. unfold r. rewrite <- program_headers_length, (for_range_list _ (load_step (block_of c) (Z.of_nat (length c)) (lowest (loadable c)) size)).
  - pose proof (loadable_range c HS) as HR. pose proof (load_run c (lowest (loadable c)) size (program_headers c) (replicate (Z.to_nat (pages size)) 0) []) as HL. cbv zeta in HL.
    rewrite length_replicate in HL. apply HL; [by apply lowest_nonneg|pose proof (memory_length size H1 H2) as HM; by rewrite length_replicate in HM|apply shows_zero|].
    apply Forall_forall. intros x Hx. split; [by apply (proj1 (Forall_forall _ _) HR)|]. apply list_elem_of_In, bounds_in in Hx. unfold size, loadable in *. lia.
  - intros k x mem Hx. destruct (ph_ok c k x HS HH Hx) as (E1 & E2 & E3 & E4 & E5). rewrite Z.add_0_l. unfold load_segment, load_step. rewrite E1, option_bind_Some.
    destruct (negb _); [done|]. by rewrite E2, E3, E4, E5, !option_bind_Some.
Qed.
Section elf.
Context {X P : Type} `{!Drivers X} `{!Processes P} (realloc : bytes -> Z -> option (option bytes)) (pid : Z) `{!FileStore X realloc pid}.
Implicit Types (s : exec X P) (c filename : bytes).

(** C26. For a file of the file store whose program headers are sane, [CreateProcessFromElf] does what
    the format says, with no access outside its blocks: a file with a bad header, a segment that is
    not in the file, no memory to load, more memory than allowed or an entry point outside the image
    is refused, and no process is made; otherwise the process gets an image in which every byte
    comes from the last segment that covers its address, from the file in the first part and zero
    behind it, and which starts at the entry point, relative to the lowest address. *)
Theorem CreateProcessFromElf_correct s filename c o : let opts := default_options o (16 * 1024 * 1024) in
  holds (files s) filename c -> elf_sane c -> max_memory opts <= 2 ^ 63 ->
  launches realloc pid s filename c (CreateProcessFromElf filename o)
    (if may_create (GetCurrentProcess (procs s)) opts then elf_launch (max_memory opts) c else None).
Proof.
  intros opts HF HS HM. unfold CreateProcessFromElf. fold opts. set (cr := may_create _ _). eapply launches_eq; [by rewrite (run_bind _ _ _ _ _ (asks_run _ _))|]. fold cr.
  destruct cr; cbn [negb]; [|by apply launches_none]. apply launches_read; [done|]. unfold elf_launch. set (n := Z.of_nat (length c)).
  destruct (Z.ltb_spec 0 n) as [Hn0|Hn0]; cbn [andb]; [|by rewrite (proj2 (Z.leb_gt sizeof_ElfHeader n)) by (unfold sizeof_ElfHeader; lia)].
  destruct (Z.leb_spec n MAX_ELF_FILE_SIZE) as [Hn|Hn]; [|by rewrite andb_false_r]. intros s1 H1 _.
  destruct (Z.leb_spec sizeof_ElfHeader n) as [Hm|Hm]; cbn [andb].
  2:{ apply launches_none; [done|]. unfold ValidateElfFile. by rewrite (proj2 (Z.ltb_lt n _) Hm). }
  eapply launches_eq; [unfold n; rewrite ValidateElfFile_ok, lift_run by done; reflexivity|].
  destruct (elf_header_ok c) eqn:HH; cbn [negb andb]; [|by apply launches_none].
  unfold sizeof_ElfHeader in Hm. eapply launches_eq.
  { rewrite !field_block by lia. do 3 (rewrite lift_run; cbv beta). fold (e_phoff c) (e_phnum c) (e_entry c). rewrite CalculateProcessMemorySize_ok, lift_run by done. reflexivity. }
  pose proof (loadable_range c HS) as HR. pose proof (lowest_nonneg _ HR) as Hlo. pose proof (highest_small _ HR) as Hhi. pose proof (highest_nonneg (loadable c)) as Hhi0. pose proof (lowest_max (loadable c)) as Hlm.
  set (base := lowest (loadable c)) in *. set (size := highest (loadable c) - base).
  destruct (Z.ltb_spec 0 size) as [Hs|Hs]; [rewrite (Z.max_r 0 size) by lia|rewrite (Z.max_l 0 size) by lia; by apply launches_none].
  rewrite (proj2 (Z.eqb_neq size 0)), Z.ltb_antisym by lia. destruct (Z.leb_spec size (max_memory opts)) as [Hl|Hl]; cbn [negb andb]; [|by apply launches_none].
  eapply launches_eq; [rewrite find_base_ok, lift_run by done; reflexivity|]. fold base. apply launches_memory; [done|lia|lia|]. cbv zeta. pose proof (load_segments c HS HH Hs) as HL. fold base size in HL. specialize (HL ltac:(lia)).
  destruct (forallb _ _); cbn [andb]; [|left; split; [done|by left]]. destruct HL as (image & E & Hi & Hb). rewrite E.
  rewrite (u64_small (base + size)), (Z.ltb_antisym base), (Z.leb_antisym _ (base + size)) by lia.
  destruct (Z.leb_spec base (e_entry c)), (Z.ltb_spec (e_entry c) (base + size)); cbn [negb orb andb];
    [|left; split; [done|right]; by exists image..].
  right. exists (mk_launch size (image_byte c (map (segment_piece base) (loadable c))) (e_entry c - base)), image. split_and!; try done. cbn [l_entry]. by rewrite u64_small by lia.
Qed.
End elf.

(** ** a.out files *)
Definition a_text (c : bytes) : Z := le c 4 4.
Definition a_data (c : bytes) : Z := le c 8 4.
Definition a_bss (c : bytes) : Z := le c 12 4.
Definition a_magics : list Z := [0x107; 0x108; 0x10B; 0xCC].
Definition aout_header_ok (c : bytes) : bool :=
  existsb (Z.eqb (le c 0 4)) a_magics && (sizeof_AoutHeader + a_text c + a_data c + le c 16 4 <=? Z.of_nat (length c)) &&
  (a_text c <=? 4 * 1024 * 1024) && (a_data c <=? 4 * 1024 * 1024) && (a_bss c <=? 8 * 1024 * 1024).
(** The text behind the header, then the data, then zeros; the entry point is the one of the header. *)
Definition aout_launch (limit : Z) (c : bytes) : option launch :=
  let n := Z.of_nat (length c) in
  let size := a_text c + a_data c + a_bss c in
  if (sizeof_AoutHeader <=? n) && (n <=? MAX_AOUT_FILE_SIZE) && aout_header_ok c && (0 <? size) && (size <=? limit)
  then Some (mk_launch size (image_byte c [mk_piece 0 sizeof_AoutHeader (a_text c) (a_text c); mk_piece (a_text c) (sizeof_AoutHeader + a_text c) (a_data c) (a_data c)]) (le c 20 4))
  else None.
Lemma ValidateAoutFile_ok c : sizeof_AoutHeader <= Z.of_nat (length c) -> ValidateAoutFile (block_of c) (Z.of_nat (length c)) = Some (aout_header_ok c).
Proof.
  intros Hn. unfold ValidateAoutFile. rewrite (proj2 (Z.ltb_ge _ _) Hn). unfold sizeof_AoutHeader in Hn. rewrite !field_block by lia. rewrite !option_bind_Some.
  fold (a_text c) (a_data c) (a_bss c). unfold aout_header_ok, a_magics. cbn [existsb]. rewrite !Z.ltb_antisym, !negb_involutive, !negb_orb, !negb_involutive, orb_false_r. f_equal.
  by rewrite !andb_assoc, <- !orb_assoc.
Qed.
Section aout.
Context {X P : Type} `{!Drivers X} `{!Processes P} (realloc : bytes -> Z -> option (option bytes)) (pid : Z) `{!FileStore X realloc pid}.
Implicit Types (s : exec X P) (c filename : bytes).

(** C32. Whatever file of bytes the store holds, [CreateProcessFromAout] leaves none of its blocks: it
    refuses a file without a known magic number, one that is too large, too short for its segments or
    with no memory to load, and otherwise makes a process of text, data and zeros, whose entry point
    is the number in the header. *)
Theorem CreateProcessFromAout_correct s filename c o : holds (files s) filename c -> Forall byte_ok c ->
  launches realloc pid s filename c (CreateProcessFromAout filename o) (aout_launch (max_memory (default_options o (8 * 1024 * 1024))) c).
Proof.
  intros HF HB. unfold CreateProcessFromAout. set (opts := default_options _ _). apply launches_read; [done|]. unfold aout_launch. set (n := Z.of_nat (length c)).
  destruct (Z.ltb_spec 0 n) as [Hn0|Hn0]; cbn [andb]; [|by rewrite (proj2 (Z.leb_gt sizeof_AoutHeader n)) by (unfold sizeof_AoutHeader; lia)].
  destruct (Z.leb_spec n MAX_AOUT_FILE_SIZE) as [Hn|Hn]; [|by rewrite andb_false_r]. intros s1 H1 _.
  destruct (Z.leb_spec sizeof_AoutHeader n) as [Hm|Hm]; cbn [andb].
  2:{ apply launches_none; [done|]. unfold ValidateAoutFile. by rewrite (proj2 (Z.ltb_lt n _) Hm). }
  eapply launches_eq; [unfold n; rewrite ValidateAoutFile_ok, lift_run by done; reflexivity|].
  destruct (aout_header_ok c) eqn:HH; cbn [negb andb]; [|by apply launches_none].
  unfold aout_header_ok in HH. rewrite !andb_true_iff, !Z.leb_le in HH. destruct HH as ((((_ & HN) & HT) & HD) & HBs).
  pose proof (le_range c 4 4 HB) as R1. pose proof (le_range c 8 4 HB) as R2. pose proof (le_range c 12 4 HB) as R3. pose proof (le_range c 16 4 HB) as R4.
  fold (a_text c) in R1. fold (a_data c) in R2. fold (a_bss c) in R3. unfold sizeof_AoutHeader in *.
  eapply launches_eq. { rewrite !field_block by lia. do 4 (rewrite lift_run; cbv beta). fold (a_text c) (a_data c) (a_bss c). rewrite u32_small by lia. reflexivity. }
  set (size := a_text c + a_data c + a_bss c). rewrite Z.ltb_antisym. destruct (Z.leb_spec size (max_memory opts)) as [Hl|Hl]; cbn [negb]; [|rewrite andb_false_r; by apply launches_none].
  destruct (Z.ltb_spec 0 size) as [Hs|Hs]; cbn [andb]; [|replace size with 0 by lia; by apply launches_none].
  apply launches_memory; [done|lia|lia|]. right. pose proof (memory_length size Hs ltac:(lia)) as HM. rewrite <- !fill_copy.
  destruct (fill_block (replicate (Z.to_nat (pages size)) 0) c (mk_piece 0 32 (a_text c) (a_text c)) []) as (m1 & E1 & L1 & S1);
    [apply shows_zero|unfold piece_fits; cbn [at_ from fsz msz]; lia|cbn [at_ msz]; lia|].
  destruct (fill_block m1 c (mk_piece (a_text c) (32 + a_text c) (a_data c) (a_data c)) _ S1) as (m2 & E2 & L2 & S2);
    [unfold piece_fits; cbn [at_ from fsz msz]; rewrite L1; lia|cbn [at_ msz]; lia|].
  cbn [at_ from fsz msz] in E1, E2. do 2 eexists. split; [done|]. split; [done|]. rewrite E1, option_bind_Some. rewrite <- fill_copy, E2, option_bind_Some.
  split_and!; [done|by rewrite L2, L1, length_replicate|exact S2|done].
Qed.
End aout.

(** ** PE files *)
Definition e_lfanew (c : bytes) : Z := le c 60 4.
Definition pe_sections (c : bytes) : Z := le c (e_lfanew c + 6) 2.
Definition pe_opt_hdr_size (c : bytes) : Z := le c (e_lfanew c + 20) 2.
Definition pe_entry_point (c : bytes) : Z := le c (e_lfanew c + 40) 4.
Definition pe_image_size (c : bytes) : Z := le c (e_lfanew c + 80) 4.
Definition section_table (c : bytes) : Z := e_lfanew c + sizeof_PEHeader + pe_opt_hdr_size c.
Record section := mk_section { virtual_size : Z; virtual_addr : Z; raw_data_size : Z; raw_data_ptr : Z }.
Definition section_at (c : bytes) (off : Z) : section := mk_section (le c (off + 8) 4) (le c (off + 12) 4) (le c (off + 16) 4) (le c (off + 20) 4).
Definition section_headers (c : bytes) : list section :=
  map (fun i => section_at c (section_table c + sizeof_SectionHeader * Z.of_nat i)) (seq 0 (Z.to_nat (pe_sections c))).
Definition has_data (x : section) : Prop := raw_data_size x <> 0.
#[export] Instance has_data_dec x : Decision (has_data x) := decide (raw_data_size x <> 0).
Definition filled (c : bytes) : list section := filter has_data (section_headers c).
Definition pe_header_ok (c : bytes) : bool :=
  let n := Z.of_nat (length c) in
  (le c 0 2 =? 0x5A4D) && (e_lfanew c + (sizeof_PEHeader + sizeof_OptionalHeader) <=? n) && (le c (e_lfanew c) 4 =? 0x4550) && (le c (e_lfanew c + 4) 2 =? 0x8664) &&
  Z.testbit (le c (e_lfanew c + 22) 2) 1 && (sizeof_OptionalHeader <=? pe_opt_hdr_size c) && (le c (e_lfanew c + 24) 2 =? 0x20b) &&
  (section_table c + pe_sections c * sizeof_SectionHeader <=? n).
Definition section_in (c : bytes) (x : section) : bool :=
  (raw_data_ptr x + raw_data_size x <=? Z.of_nat (length c)) && (virtual_addr x + virtual_size x <=? pe_image_size c).
Definition section_piece (x : section) : piece := mk_piece (virtual_addr x) (raw_data_ptr x) (raw_data_size x) (raw_data_size x).
Definition pe_launch (limit : Z) (c : bytes) : option launch :=
  let n := Z.of_nat (length c) in
  let size := pe_image_size c in
  if (sizeof_DOSHeader <=? n) && (n <=? MAX_PE_FILE_SIZE) && pe_header_ok c && (0 <? size) && (size <=? limit) &&
     forallb (section_in c) (filled c) && (pe_entry_point c <? size)
  then Some (mk_launch size (image_byte c (map section_piece (filled c))) (pe_entry_point c)) else None.
(** What the loader does not check: that a section is not longer in the file than in memory, and that
    the sums of 32-bit numbers do not wrap. *)
Record pe_sane (c : bytes) : Prop := {
  ps_bytes : Forall byte_ok c;
  ps_sections : Forall (fun x => raw_data_size x <= virtual_size x /\ virtual_addr x + virtual_size x < 2 ^ 32 /\ raw_data_ptr x + raw_data_size x < 2 ^ 32) (filled c)
}.
Lemma testbit_1 z : negb (Z.land z 2 =? 0) = Z.testbit z 1.
Proof.
  destruct (Z.testbit z 1) eqn:E; destruct (Z.eqb_spec (Z.land z 2) 0) as [H|H]; cbn; try done.
  - pose proof (Z.land_spec z 2 1) as G. rewrite H, E, Z.bits_0 in G. done.
  - exfalso. apply H. apply Z.bits_inj'. intros k Hk. rewrite Z.land_spec, Z.bits_0. change 2 with (2 ^ 1). rewrite Z.pow2_bits_eqb by lia.
    destruct (Z.eqb_spec 1 k) as [<-|]; [by rewrite E|by rewrite andb_false_r].
Qed.
Lemma ValidatePEFile_ok c : Forall byte_ok c -> sizeof_DOSHeader <= Z.of_nat (length c) -> ValidatePEFile (block_of c) (Z.of_nat (length c)) = Some (pe_header_ok c).
Proof.
  intros HB Hn. unfold ValidatePEFile. rewrite (proj2 (Z.ltb_ge _ _) Hn). unfold sizeof_DOSHeader, ValidatePEHeader, pe_header_ok in *. rewrite !(field_block _ 0), !(field_block _ 60) by lia.
  rewrite !option_bind_Some. fold (e_lfanew c). pose proof (le_range c 60 4 HB) as H1. fold (e_lfanew c) in H1.
  destruct (le c 0 2 =? 0x5A4D); cbn [negb andb]; [|done]. unfold sizeof_PEHeader, sizeof_OptionalHeader in *.
  destruct (Z.leb_spec (e_lfanew c + (24 + 112)) (Z.of_nat (length c))) as [HE|HE]; cbn [andb].
  - rewrite (proj2 (Z.ltb_ge _ (e_lfanew c))), (proj2 (Z.ltb_ge _ (e_lfanew c + _))) by lia. cbn [orb]. rewrite !field_block by lia. rewrite !option_bind_Some.
    rewrite testbit_1, <- !Z.leb_antisym. done.
  - rewrite (proj2 (Z.ltb_lt _ (e_lfanew c + _))), orb_true_r by lia. done.
Qed.
Lemma section_bounds c : pe_header_ok c = true -> e_lfanew c + 136 <= Z.of_nat (length c) /\ section_table c + pe_sections c * sizeof_SectionHeader <= Z.of_nat (length c).
Proof.
  intros H. unfold pe_header_ok in H. rewrite !andb_true_iff, !Z.leb_le in H. unfold sizeof_PEHeader, sizeof_OptionalHeader in H. lia.
Qed.
Lemma section_ok c k x : Forall byte_ok c -> pe_header_ok c = true -> section_headers c !! k = Some x -> let sect := section_table c + sizeof_SectionHeader * Z.of_nat k in
  field 4 (sect + 8) (block_of c) = Some (virtual_size x) /\ field 4 (sect + 12) (block_of c) = Some (virtual_addr x) /\
  field 4 (sect + 16) (block_of c) = Some (raw_data_size x) /\ field 4 (sect + 20) (block_of c) = Some (raw_data_ptr x).
Proof.
  intros HB HH Hx sect. apply section_bounds in HH as [_ HH]. unfold section_headers in Hx. rewrite list_lookup_fmap in Hx. apply fmap_Some in Hx as (j & Hj & ->).
  apply lookup_seq in Hj as [-> Hj]. cbn [Nat.add] in *. pose proof (le_range c 60 4 HB) as H1. fold (e_lfanew c) in H1. pose proof (le_range c (e_lfanew c + 20) 2 HB) as H2. fold (pe_opt_hdr_size c) in H2.
  unfold sizeof_SectionHeader, section_table, sizeof_PEHeader in *. rewrite !field_block by lia. done.
Qed.
Definition section_step (c : bytes) (x : section) (mem : bytes) : option (option bytes) :=
  if raw_data_size x =? 0 then Some (Some mem) else
  if (Z.of_nat (length c) <? u32 (raw_data_ptr x + raw_data_size x)) || (pe_image_size c <? u32 (virtual_addr x + virtual_size x)) then Some None else
  mem' ← mem_copy mem (virtual_addr x) (block_of c) (raw_data_ptr x) (raw_data_size x);
  Some (Some mem').
Definition section_range (x : section) : Prop :=
  0 <= virtual_addr x /\ 0 <= raw_data_ptr x /\ 0 < raw_data_size x <= virtual_size x /\ virtual_addr x + virtual_size x < 2 ^ 32 /\ raw_data_ptr x + raw_data_size x < 2 ^ 32.
Lemma filled_range c : pe_sane c -> Forall section_range (filled c).
Proof.
  intros [HB HS]. rewrite Forall_forall in HS |- *. intros x Hx. specialize (HS x Hx) as (H1 & H2 & H3). apply list_elem_of_In, list_elem_of_filter in Hx as [Hd Hx].
  unfold section_headers in Hx. apply list_elem_of_fmap in Hx as (i & -> & _). set (off := section_table c + _) in *. unfold section_range, section_at, has_data in *. cbn [virtual_size virtual_addr raw_data_size raw_data_ptr] in *.
  pose proof (le_range c (off + 12) 4 HB). pose proof (le_range c (off + 16) 4 HB). pose proof (le_range c (off + 20) 4 HB). lia.
Qed.
Lemma section_run c l : forall mem ps, pe_image_size c <= Z.of_nat (length mem) -> shows mem (image_byte c ps) -> Forall section_range (filter has_data l) ->
  let r := run_list (section_step c) l mem in
  if forallb (section_in c) (filter has_data l)
  then exists mem', r = Some (Some mem') /\ length mem' = length mem /\ shows mem' (image_byte c (ps ++ map section_piece (filter has_data l)))
  else r = Some None.
Proof.
  induction l as [|x l IH]; intros mem ps Hm HF HR r; subst r.
  - cbn. exists mem. by rewrite app_nil_r.
  - destruct (decide (has_data x)) as [Hd|Hd].
    2:{ rewrite filter_cons_False in HR |- * by done. assert (Hz : raw_data_size x = 0) by (unfold has_data in Hd; lia).
        erewrite run_list_step; [|unfold section_step; rewrite Hz; reflexivity]. by apply IH. }
    rewrite filter_cons_True in HR |- * by done. apply Forall_cons_iff in HR as [(Hx1 & Hx2 & Hx3 & Hx4 & Hx5) HR].
    assert (HG : section_step c x mem = if negb (section_in c x) then Some None else (m ← fill_segment mem (virtual_addr x) (block_of c) (raw_data_ptr x) (raw_data_size x) (raw_data_size x); Some (Some m))).
    { unfold section_step, section_in. rewrite (proj2 (Z.eqb_neq _ _) Hd), !u32_small by lia. rewrite fill_copy, (proj2 (Z.ltb_lt 0 _)) by lia.
      by rewrite negb_andb, <- !Z.ltb_antisym. }
    cbn [forallb]. destruct (section_in c x) eqn:Hi; cbn [negb andb] in HG |- *; [|by rewrite (run_list_step _ _ _ _ _ HG)].
    unfold section_in in Hi. rewrite andb_true_iff, !Z.leb_le in Hi.
    destruct (fill_block mem c (section_piece x) ps HF) as (m1 & E1 & L1 & S1); [unfold piece_fits, section_piece; cbn [at_ from fsz msz]; lia|unfold section_piece; cbn [at_ msz]; lia|].
    unfold section_piece in E1. cbn [at_ from fsz msz] in E1. rewrite E1, option_bind_Some in HG. rewrite (run_list_step _ _ _ _ _ HG). cbn [map].
    replace (ps ++ section_piece x :: map section_piece (filter has_data l)) with ((ps ++ [section_piece x]) ++ map section_piece (filter has_data l)) by (by rewrite <- app_assoc).
    rewrite <- L1. apply IH; [lia|done|done].
Qed.
Lemma load_sections c (size := pe_image_size c) : pe_sane c -> pe_header_ok c = true -> 0 < size -> size <= 2 ^ 63 ->
  let r := for_range (Z.to_nat (pe_sections c)) 0 (load_section (section_table c) (block_of c) (Z.of_nat (length c)) size) (replicate (Z.to_nat (pages size)) 0) in
  if forallb (section_in c) (filled c)
  then exists image, r = Some (Some image) /\ length image = Z.to_nat (pages size) /\ shows image (image_byte c (map section_piece (filled c)))
  else r = Some None.
Proof.
  intros HS HH H1 H2 r. unfold r. replace (Z.to_nat (pe_sections c)) with (length (section_headers c)) by (unfold section_headers; by rewrite length_map, length_seq).
  rewrite (for_range_list _ (section_step c)).
  - pose proof (section_run c (section_headers c) (replicate (Z.to_nat (pages size)) 0) []) as HL. cbv zeta in HL. rewrite length_replicate in HL.
    pose proof (memory_length size H1 H2) as HM. rewrite length_replicate in HM. apply HL; [done|apply shows_zero|by apply filled_range].
  - intros k x mem Hx. destruct (section_ok c k x (ps_bytes _ HS) HH Hx) as (E1 & E2 & E3 & E4). rewrite Z.add_0_l. unfold load_section, section_step. by rewrite E1, E2, E3, E4, !option_bind_Some.
Qed.
Section pe.
Context {X P : Type} `{!Drivers X} `{!Processes P} (realloc : bytes -> Z -> option (option bytes)) (pid : Z) `{!FileStore X realloc pid}.
Implicit Types (s : exec X P) (c filename : bytes).

(** C40. For a file of the file store whose sections are sane, [CreateProcessFromPE] leaves none of its
    blocks: a file with a bad header, a section with data that is not in the file or not in the
    image, an image of no bytes or more than allowed or an entry point outside it is refused, and
    otherwise the process gets the sections at their addresses, zeros elsewhere, and starts at the
    entry point of the header. *)
Theorem CreateProcessFromPE_correct s filename c o : let opts := default_options o (16 * 1024 * 1024) in
  holds (files s) filename c -> pe_sane c ->
  launches realloc pid s filename c (CreateProcessFromPE filename o)
    (if may_create (GetCurrentProcess (procs s)) opts then pe_launch (max_memory opts) c else None).
Proof.
  intros opts HF HS. unfold CreateProcessFromPE. fold opts. set (cr := may_create _ _). eapply launches_eq; [by rewrite (run_bind _ _ _ _ _ (asks_run _ _))|]. fold cr.
  destruct cr; cbn [negb]; [|by apply launches_none]. apply launches_read; [done|]. unfold pe_launch. set (n := Z.of_nat (length c)).
  destruct (Z.ltb_spec 0 n) as [Hn0|Hn0]; cbn [andb]; [|by rewrite (proj2 (Z.leb_gt sizeof_DOSHeader n)) by (unfold sizeof_DOSHeader; lia)].
  destruct (Z.leb_spec n MAX_PE_FILE_SIZE) as [Hn|Hn]; [|by rewrite andb_false_r]. intros s1 H1 _.
  destruct (Z.leb_spec sizeof_DOSHeader n) as [Hm|Hm]; cbn [andb].
  2:{ apply launches_none; [done|]. unfold ValidatePEFile. by rewrite (proj2 (Z.ltb_lt n _) Hm). }
  pose proof (ps_bytes _ HS) as HB. eapply launches_eq; [unfold n; rewrite ValidatePEFile_ok, lift_run by done; reflexivity|].
  destruct (pe_header_ok c) eqn:HH; cbn [negb andb]; [|by apply launches_none]. destruct (section_bounds c HH) as [HE _]. unfold sizeof_DOSHeader in Hm.
  pose proof (le_range c 60 4 HB) as R1. fold (e_lfanew c) in R1. pose proof (le_range c (e_lfanew c + 80) 4 HB) as R2. fold (pe_image_size c) in R2.
  eapply launches_eq.
  { rewrite field_block by lia. rewrite lift_run; cbv beta zeta. fold (e_lfanew c).
    replace (e_lfanew c + sizeof_PEHeader + 56) with (e_lfanew c + 80) by (unfold sizeof_PEHeader; lia). replace (e_lfanew c + sizeof_PEHeader + 16) with (e_lfanew c + 40) by (unfold sizeof_PEHeader; lia).
    rewrite !field_block by lia. do 4 (rewrite lift_run; cbv beta). fold (pe_image_size c) (pe_opt_hdr_size c) (pe_sections c) (pe_entry_point c). fold (section_table c). reflexivity. }
  rewrite Z.ltb_antisym. destruct (Z.leb_spec (pe_image_size c) (max_memory opts)) as [Hl|Hl]; cbn [negb]; [|rewrite andb_false_r; cbn [andb]; by apply launches_none].
  destruct (Z.ltb_spec 0 (pe_image_size c)) as [Hs|Hs]; cbn [andb]; [|replace (pe_image_size c) with 0 by lia; by apply launches_none].
  apply launches_memory; [done|lia|lia|]. cbv zeta. pose proof (load_sections c HS HH Hs ltac:(lia)) as HL.
  destruct (forallb _ _); cbn [andb]; [|left; split; [done|by left]]. destruct HL as (image & E & Hi & Hb). rewrite E, Z.leb_antisym.
  destruct (Z.ltb_spec (pe_entry_point c) (pe_image_size c)); cbn [negb]; [|left; split; [done|right]; by exists image].
  right. by exists (mk_launch (pe_image_size c) (image_byte c (map section_piece (filled c))) (pe_entry_point c)), image.
Qed.
End pe.

(** ** Mach-O files *)
(** The offsets of [k] load commands, the first at [off]; each says how long it is. *)
Fixpoint load_commands (c : bytes) (k : nat) (off : Z) : list Z :=
  match k with O => [] | S k' => off :: load_commands c k' (off + le c (off + 4) 4) end.
Definition macho_commands (c : bytes) : list Z := load_commands c (Z.to_nat (le c 16 4)) sizeof_mach_header_64.
Definition is_segment (c : bytes) (off : Z) : Prop := le c off 4 = LC_SEGMENT_64.
#[export] Instance is_segment_dec c off : Decision (is_segment c off) := decide (le c off 4 = LC_SEGMENT_64).
Definition segment_piece_at (c : bytes) (off : Z) : piece := mk_piece (le c (off + 24) 8) (le c (off + 40) 8) (le c (off + 48) 8) (le c (off + 32) 8).
Definition macho_segments (c : bytes) : list piece := map (segment_piece_at c) (filter (is_segment c) (macho_commands c)).
Definition total_vmsize (l : list piece) : Z := foldr (fun p => Z.add (msz p)) 0 l.
Definition macho_header_ok (c : bytes) : bool :=
  (le c 0 4 =? MH_MAGIC_64) && negb (le c 20 4 =? 0) && negb (le c 16 4 =? 0) && (le c 20 4 <=? Z.of_nat (length c)).
Definition piece_in (c : bytes) (size : Z) (p : piece) : bool := (from p + fsz p <=? Z.of_nat (length c)) && (at_ p + msz p <=? size).
(** The offset in the file of the first LC_MAIN, and the address of the first segment that has it; 0
    stands for none. *)
Definition macho_main (c : bytes) : Z := match List.find (fun off => le c off 4 =? LC_MAIN) (macho_commands c) with Some off => le c (off + 8) 8 | None => 0 end.
Definition macho_address (c : bytes) : Z :=
  let e := macho_main c in
  match List.find (fun p => (from p <=? e) && (e <? from p + fsz p)) (macho_segments c) with Some p => at_ p + (e - from p) | None => 0 end.
Definition macho_launch (c : bytes) : option launch :=
  let n := Z.of_nat (length c) in
  let size := total_vmsize (macho_segments c) in
  if (n <=? MAX_MACHO_FILE_SIZE) && macho_header_ok c && (0 <? size) && forallb (piece_in c size) (macho_segments c) && negb (macho_main c =? 0) && negb (macho_address c =? 0)
  then Some (mk_launch size (image_byte c (macho_segments c)) (macho_address c)) else None.
(** What the loader does not check: that the header and the commands are in the file, that a segment is not
    longer in the file than in memory, and that no sum wraps. *)
Record macho_sane (c : bytes) : Prop := {
  ms_bytes : Forall byte_ok c;
  ms_header : sizeof_mach_header_64 <= Z.of_nat (length c);
  ms_commands : Forall (fun off => off + 8 <= Z.of_nat (length c) /\
    (le c off 4 = LC_SEGMENT_64 -> off + 72 <= Z.of_nat (length c)) /\ (le c off 4 = LC_MAIN -> off + 24 <= Z.of_nat (length c))) (macho_commands c);
  ms_segments : Forall (fun p => fsz p <= msz p /\ at_ p + msz p < 2 ^ 64 /\ from p + fsz p < 2 ^ 64) (macho_segments c);
  ms_total : total_vmsize (macho_segments c) <= 2 ^ 63
}.
Lemma ValidateMachoHeader_ok c : sizeof_mach_header_64 <= Z.of_nat (length c) -> ValidateMachoHeader (block_of c) (Z.of_nat (length c)) = Some (macho_header_ok c).
Proof.
  intros Hn. unfold sizeof_mach_header_64, ValidateMachoHeader, macho_header_ok in *. rewrite !field_block by lia. rewrite !option_bind_Some, negb_orb, <- Z.leb_antisym.
  by rewrite !andb_assoc.
Qed.
Lemma next_command_ok {S} c (f : Z -> Z -> S -> option (option S)) i off s : Forall byte_ok c -> 0 <= off -> off + 8 <= Z.of_nat (length c) -> Z.of_nat (length c) < 2 ^ 62 ->
  next_command (block_of c) f i (off, s) =
    (r ← f off (le c off 4) s; Some match r with None => None | Some s' => Some (off + le c (off + 4) 4, s') end).
Proof.
  intros HB H1 H2 H3. pose proof (le_range c (off + 4) 4 HB). unfold next_command. cbn [fst snd]. rewrite (field_block 4 off), option_bind_Some by lia.
  destruct (f off (le c off 4) s) as [[s'|]|]; [|done|done]. rewrite !option_bind_Some, (u64_small (off + 4)), field_block, option_bind_Some by lia. by rewrite u64_small by lia.
Qed.
(** A loop over the commands is the loop over the list of their offsets. *)
Lemma commands_list {S} c (f : Z -> Z -> S -> option (option S)) k : Forall byte_ok c -> forall i off s, 0 <= off ->
  Forall (fun o => o + 8 <= Z.of_nat (length c)) (load_commands c k off) -> Z.of_nat (length c) < 2 ^ 62 ->
  (r ← for_range k i (next_command (block_of c) f) (off, s); Some match r with None => None | Some os => Some os.2 end) =
  run_list (fun o => f o (le c o 4)) (load_commands c k off) s.
Proof.
  intros HB. induction k as [|k IH]; intros i off s Ho HF HL; cbn [for_range load_commands run_list]; [done|].
  cbn [load_commands] in HF. apply Forall_cons_iff in HF as [H1 HF]. pose proof (le_range c (off + 4) 4 HB) as HR.
  rewrite next_command_ok by done. destruct (f off (le c off 4) s) as [[s'|]|]; [|done|done]. rewrite !option_bind_Some. apply IH; [lia|done|done].
Qed.
Lemma commands_ok {S} c (f : Z -> Z -> S -> option (option S)) s : macho_sane c -> Z.of_nat (length c) < 2 ^ 62 ->
  commands (block_of c) (le c 16 4) f s = run_list (fun o => f o (le c o 4)) (macho_commands c) s.
Proof.
  intros HS HL. apply commands_list; [apply HS|done| |done]. eapply Forall_impl; [|apply (ms_commands _ HS)]. intros o Ho. apply Ho.
Qed.
Lemma command_at c off : macho_sane c -> off ∈ macho_commands c ->
  off + 8 <= Z.of_nat (length c) /\ (le c off 4 = LC_SEGMENT_64 -> off + 72 <= Z.of_nat (length c)) /\ (le c off 4 = LC_MAIN -> off + 24 <= Z.of_nat (length c)).
Proof. intros HS Ho. apply (proj1 (Forall_forall _ _) (ms_commands _ HS)). by apply list_elem_of_In. Qed.
Lemma commands_nonneg c k : Forall byte_ok c -> forall off o, 0 <= off -> o ∈ load_commands c k off -> 0 <= o.
Proof.
  intros HB. induction k as [|k IH]; intros off o Hoff Ho; cbn [load_commands] in Ho; [by apply elem_of_nil in Ho|].
  apply elem_of_cons in Ho as [->|Ho]; [done|]. eapply IH; [|exact Ho]. pose proof (le_range c (off + 4) 4 HB). lia.
Qed.
Lemma seg_field_ok n off o c : 0 <= o -> 0 <= off -> off + o + Z.of_nat n <= Z.of_nat (length c) -> Z.of_nat (length c) < 2 ^ 62 -> seg_field n o off (block_of c) = Some (le c (off + o) n).
Proof. intros H1 H2 H3 H4. unfold seg_field. rewrite u64_small by lia. apply field_block; lia. Qed.
Lemma run_list_ext {A S} (g h : A -> S -> option (option S)) l : (forall x s, x ∈ l -> g x s = h x s) -> forall s, run_list g l s = run_list h l s.
Proof.
  induction l as [|x l IH]; intros H s; cbn [run_list]; [done|]. rewrite H by apply list_elem_of_here. destruct (h x s) as [[s'|]|]; [|done|done].
  rewrite !option_bind_Some. apply IH. intros y t Hy. apply H. by apply list_elem_of_further.
Qed.
(** Loops that treat the segments only. *)
Lemma run_list_filter {A B S} (P : A -> Prop) `{!forall x, Decision (P x)} (h : A -> B) (g : B -> S -> option (option S)) l : forall s,
  run_list (fun x s => if bool_decide (P x) then g (h x) s else Some (Some s)) l s = run_list g (map h (filter P l)) s.
Proof.
  induction l as [|x l IH]; intros s; cbn [run_list]; [done|]. case_bool_decide.
  - rewrite filter_cons_True by done. cbn [map run_list]. destruct (g (h x) s) as [[s'|]|]; [|done|done]. by rewrite !option_bind_Some.
  - by rewrite filter_cons_False, option_bind_Some.
Qed.
Definition piece_range (p : piece) : Prop := 0 <= at_ p /\ 0 <= from p /\ 0 <= fsz p <= msz p /\ at_ p + msz p < 2 ^ 64 /\ from p + fsz p < 2 ^ 64.
Lemma macho_range c : macho_sane c -> Forall piece_range (macho_segments c).
Proof.
  intros HS. pose proof (ms_segments _ HS) as H. pose proof (ms_bytes _ HS) as HB. rewrite Forall_forall in H |- *. intros p Hp. specialize (H p Hp) as (H1 & H2 & H3).
  apply list_elem_of_In, list_elem_of_fmap in Hp as (off & -> & _). unfold piece_range, segment_piece_at in *. cbn [at_ from fsz msz] in *.
  pose proof (le_range c (off + 24) 8 HB). pose proof (le_range c (off + 40) 8 HB). pose proof (le_range c (off + 48) 8 HB). lia.
Qed.
Lemma total_nonneg l : Forall piece_range l -> 0 <= total_vmsize l.
Proof. induction 1 as [|p l Hp _ IH]; unfold total_vmsize; cbn [foldr]; [done|]. fold (total_vmsize l). unfold piece_range in Hp. lia. Qed.
Lemma total_run l : forall t, 0 <= t -> Forall piece_range l -> t + total_vmsize l <= 2 ^ 63 ->
  run_list (fun p t => Some (Some (u64 (t + msz p)))) l t = Some (Some (t + total_vmsize l)).
Proof.
  induction l as [|p l IH]; intros t Ht HR Hs; cbn [run_list]; [cbn; do 2 f_equal; lia|]. apply Forall_cons_iff in HR as [Hp HR]. pose proof (total_nonneg l HR).
  unfold total_vmsize in *. cbn [foldr] in *. fold (total_vmsize l) in *. unfold piece_range in Hp. rewrite option_bind_Some, u64_small by lia. rewrite IH by (done || lia). do 2 f_equal. lia.
Qed.
Definition piece_step (c : bytes) (size : Z) (p : piece) (mem : bytes) : option (option bytes) :=
  if negb (piece_in c size p) then Some None else
  mem' ← fill_segment mem (at_ p) (block_of c) (from p) (fsz p) (msz p);
  Some (Some mem').
Lemma piece_run c size l : forall mem ps, size <= Z.of_nat (length mem) -> shows mem (image_byte c ps) -> Forall piece_range l ->
  let r := run_list (piece_step c size) l mem in
  if forallb (piece_in c size) l
  then exists mem', r = Some (Some mem') /\ length mem' = length mem /\ shows mem' (image_byte c (ps ++ l))
  else r = Some None.
Proof.
  induction l as [|p l IH]; intros mem ps Hm HF HR r; subst r.
  - cbn. exists mem. by rewrite app_nil_r.
  - apply Forall_cons_iff in HR as [(H1 & H2 & H3 & H4 & H5) HR]. cbn [forallb].
    destruct (piece_in c size p) eqn:Hi; cbn [andb]; [|erewrite run_list_step by (unfold piece_step; rewrite Hi; reflexivity); done].
    assert (Hj := Hi). unfold piece_in in Hj. rewrite andb_true_iff, !Z.leb_le in Hj.
    destruct (fill_block mem c p ps HF) as (m1 & E1 & L1 & S1); [unfold piece_fits; lia|lia|].
    rewrite (run_list_step _ _ _ _ (Some m1)) by (unfold piece_step; by rewrite Hi, E1). rewrite cons_middle, app_assoc. rewrite <- L1. apply IH; [lia|done|done].
Qed.
(** The searches over the load commands. *)
Lemma for_range_inr k (F : Z -> Z + Z -> option (option (Z + Z))) : (forall i e, F i (inr e) = Some (Some (inr e))) -> forall i e, for_range k i F (inr e) = Some (Some (inr e)).
Proof. intros H. induction k as [|k IH]; intros i e; cbn [for_range]; [done|]. by rewrite H, option_bind_Some. Qed.
Lemma search_ok c (F : Z -> Z + Z -> option (option (Z + Z))) (t : Z -> option Z) k : Forall byte_ok c -> (forall i e, F i (inr e) = Some (Some (inr e))) ->
  forall i off, 0 <= off -> (forall j o, o ∈ load_commands c k off -> F j (inl o) = Some (Some match t o with Some e => inr e | None => inl (o + le c (o + 4) 4) end)) ->
  (r ← for_range k i F (inl off); Some (match r with Some (inr e) => e | _ => 0 end)) =
  Some (default 0 (o ← List.find (fun o => bool_decide (is_Some (t o))) (load_commands c k off); t o)).
Proof.
  intros HB HI. induction k as [|k IH]; intros i off Ho HF; cbn [for_range load_commands]; [done|]. rewrite (HF i off) by apply list_elem_of_here. rewrite option_bind_Some.
  cbn [List.find]. destruct (t off) as [e|] eqn:Et; [rewrite bool_decide_eq_true_2 by done|rewrite bool_decide_eq_false_2 by (by intros [? ?])].
  - rewrite for_range_inr by done. rewrite !option_bind_Some. by rewrite Et.
  - pose proof (le_range c (off + 4) 4 HB). apply IH; [lia|]. intros j o Hin. apply HF. by apply list_elem_of_further.
Qed.
Lemma find_main_ok c : macho_sane c -> Z.of_nat (length c) < 2 ^ 62 -> macho_entry_offset (block_of c) (le c 16 4) = Some (macho_main c).
Proof.
  intros HS HL. pose proof (ms_bytes _ HS) as HB. unfold macho_entry_offset.
  rewrite (search_ok c _ (fun o => if le c o 4 =? LC_MAIN then Some (le c (o + 8) 8) else None)); [|done|done|done|].
  - unfold macho_main. fold (macho_commands c). f_equal. rewrite (find_ext _ (fun off => le c off 4 =? LC_MAIN)); [|intros o _; destruct (le c o 4 =? LC_MAIN); [by apply bool_decide_eq_true_2|by apply bool_decide_eq_false_2; intros [? ?]]].
    destruct (List.find _ _) as [o|] eqn:E; [|done]. apply List.find_some in E as [_ E]. rewrite option_bind_Some. by rewrite E.
  - intros j o Ho. destruct (command_at c o HS Ho) as (H1 & _ & H3). pose proof (commands_nonneg c _ HB sizeof_mach_header_64 o ltac:(done) Ho) as H0. pose proof (le_range c (o + 4) 4 HB).
    unfold find_main. rewrite (field_block 4 o), option_bind_Some by lia. destruct (Z.eqb_spec (le c o 4) LC_MAIN) as [E|E].
    + specialize (H3 E). rewrite !seg_field_ok by lia. by rewrite !option_bind_Some.
    + rewrite (u64_small (o + 4)), field_block, option_bind_Some by lia. by rewrite u64_small by lia.
Qed.
Lemma find_address_ok c : macho_sane c -> Z.of_nat (length c) < 2 ^ 62 -> macho_entry_va (block_of c) (le c 16 4) (macho_main c) = Some (macho_address c).
Proof.
  intros HS HL. pose proof (ms_bytes _ HS) as HB. unfold macho_entry_va. set (e := macho_main c).
  set (hit := fun p => (from p <=? e) && (e <? from p + fsz p)).
  set (t := fun o => if bool_decide (is_segment c o) && hit (segment_piece_at c o) then Some (at_ (segment_piece_at c o) + (e - from (segment_piece_at c o))) else None).
  rewrite (search_ok c _ t); [|done|done|done|].
  - unfold macho_address, macho_segments. fold (macho_commands c) e hit. f_equal. generalize (macho_commands c). intros l. induction l as [|o l IH]; [done|].
    cbn [List.find]. destruct (decide (is_segment c o)) as [Hs|Hs].
    + rewrite filter_cons_True by done. cbn [map List.find]. destruct (hit (segment_piece_at c o)) eqn:Eh.
      * assert (Et : t o = Some (at_ (segment_piece_at c o) + (e - from (segment_piece_at c o)))) by (unfold t; by rewrite bool_decide_eq_true_2, Eh by done).
        rewrite bool_decide_eq_true_2 by (by rewrite Et). by rewrite option_bind_Some, Et.
      * assert (Et : t o = None) by (unfold t; by rewrite Eh, andb_false_r). rewrite bool_decide_eq_false_2 by (rewrite Et; by intros [? ?]). exact IH.
    + assert (Et : t o = None) by (unfold t; by rewrite bool_decide_eq_false_2 by done). rewrite filter_cons_False by done.
      rewrite bool_decide_eq_false_2 by (rewrite Et; by intros [? ?]). exact IH.
  - intros j o Ho. destruct (command_at c o HS Ho) as (H1 & H2 & _). pose proof (commands_nonneg c _ HB sizeof_mach_header_64 o ltac:(done) Ho) as H0. pose proof (le_range c (o + 4) 4 HB) as R1.
    unfold find_address, t, is_segment. rewrite (field_block 4 o), option_bind_Some by lia. destruct (Z.eqb_spec (le c o 4) LC_SEGMENT_64) as [E|E].
    + rewrite (bool_decide_eq_true_2 (le c o 4 = LC_SEGMENT_64)) by done. specialize (H2 E). rewrite !seg_field_ok by lia. rewrite option_bind_Some. cbn [andb].
      assert (HP : piece_range (segment_piece_at c o)).
      { apply (proj1 (Forall_forall _ _) (macho_range c HS)), list_elem_of_In, list_elem_of_fmap. exists o. split; [done|]. by apply list_elem_of_filter. }
      unfold piece_range, hit, segment_piece_at in *. cbn [at_ from fsz msz] in *. destruct HP as (P1 & P2 & P3 & P4 & P5).
      destruct (Z.leb_spec (le c (o + 40) 8) e); cbn [negb andb].
      * rewrite option_bind_Some, (u64_small (le c (o + 40) 8 + le c (o + 48) 8)) by lia. destruct (Z.ltb_spec e (le c (o + 40) 8 + le c (o + 48) 8)); cbn [negb].
        -- rewrite option_bind_Some, (u64_small (e - _)), option_bind_Some by lia. by rewrite u64_small by lia.
        -- rewrite option_bind_Some, (u64_small (o + 4)), field_block, option_bind_Some by lia. by rewrite u64_small by lia.
      * rewrite option_bind_Some, (u64_small (o + 4)), field_block, option_bind_Some by lia. by rewrite u64_small by lia.
    + rewrite (bool_decide_eq_false_2 (le c o 4 = LC_SEGMENT_64)) by done. cbn [andb]. rewrite option_bind_Some, (u64_small (o + 4)), field_block, option_bind_Some by lia. by rewrite u64_small by lia.
Qed.
Lemma macho_size_ok c : macho_sane c -> Z.of_nat (length c) < 2 ^ 62 -> macho_size (block_of c) (le c 16 4) = Some (total_vmsize (macho_segments c)).
Proof.
  intros HS HL. unfold macho_size. rewrite commands_ok by done.
  rewrite (run_list_ext _ (fun o t => if bool_decide (is_segment c o) then Some (Some (u64 (t + msz (segment_piece_at c o)))) else Some (Some t))).
  - rewrite (run_list_filter (is_segment c) (segment_piece_at c) (fun p t => Some (Some (u64 (t + msz p))))). fold (macho_segments c).
    rewrite total_run, option_bind_Some; [done|lia|by apply macho_range|]. by apply ms_total.
  - intros o t Ho. destruct (command_at c o HS Ho) as (H1 & H2 & _). pose proof (commands_nonneg c _ (ms_bytes _ HS) sizeof_mach_header_64 o ltac:(done) Ho) as H0.
    unfold is_segment. destruct (Z.eqb_spec (le c o 4) LC_SEGMENT_64) as [E|E]; [|by rewrite bool_decide_eq_false_2]. specialize (H2 E).
    rewrite bool_decide_eq_true_2, seg_field_ok by (done || lia). done.
Qed.
Lemma load_macho c (size := total_vmsize (macho_segments c)) : macho_sane c -> Z.of_nat (length c) < 2 ^ 62 -> 0 < size ->
  let r := commands (block_of c) (le c 16 4) (macho_segment (block_of c) (Z.of_nat (length c)) size) (replicate (Z.to_nat (pages size)) 0) in
  if forallb (piece_in c size) (macho_segments c)
  then exists image, r = Some (Some image) /\ length image = Z.to_nat (pages size) /\ shows image (image_byte c (macho_segments c))
  else r = Some None.
Proof.
  intros HS HL H1 r. unfold r. rewrite commands_ok by done.
  rewrite (run_list_ext _ (fun o mem => if bool_decide (is_segment c o) then piece_step c size (segment_piece_at c o) mem else Some (Some mem))).
  - rewrite run_list_filter. fold (macho_segments c). pose proof (piece_run c size (macho_segments c) (replicate (Z.to_nat (pages size)) 0) []) as G. cbv zeta in G.
    pose proof (memory_length size H1 (ms_total _ HS)) as HM. rewrite length_replicate in G, HM. apply G; [done|apply shows_zero|by apply macho_range].
  - intros o mem Ho. destruct (command_at c o HS Ho) as (G1 & G2 & _). pose proof (commands_nonneg c _ (ms_bytes _ HS) sizeof_mach_header_64 o ltac:(done) Ho) as H0.
    unfold macho_segment, is_segment. destruct (Z.eqb_spec (le c o 4) LC_SEGMENT_64) as [E|E]; cbn [negb]; [|by rewrite bool_decide_eq_false_2]. specialize (G2 E).
    rewrite bool_decide_eq_true_2, !seg_field_ok by (done || lia). rewrite !option_bind_Some. unfold piece_step, piece_in, segment_piece_at. cbn [at_ from fsz msz].
    assert (HP : piece_range (segment_piece_at c o)).
    { apply (proj1 (Forall_forall _ _) (macho_range c HS)), list_elem_of_In, list_elem_of_fmap. exists o. split; [done|]. by apply list_elem_of_filter. }
    unfold piece_range, segment_piece_at in HP. cbn [at_ from fsz msz] in HP. rewrite !u64_small by lia. rewrite negb_andb, <- !Z.ltb_antisym. by do 2 destruct (_ <? _).
Qed.
Section macho.
Context {X P : Type} `{!Drivers X} `{!Processes P} (realloc : bytes -> Z -> option (option bytes)) (pid : Z) `{!FileStore X realloc pid}.
Implicit Types (s : exec X P) (c filename : bytes).

(** For a file of the file store whose load commands are sane, [CreateProcessFromMacho] leaves none
    of its blocks: a file with a bad header, nothing to load, a segment that is not in the file or ends
    behind the sum of all sizes is refused, as is one whose first LC_MAIN is missing, at offset 0 or at
    address 0; otherwise the process gets the segments at their addresses and starts where the
    segment that has the offset puts it.  The memory limit of the caller plays no part. *)
Theorem CreateProcessFromMacho_correct s filename c o : holds (files s) filename c -> macho_sane c ->
  launches realloc pid s filename c (CreateProcessFromMacho filename o) (macho_launch c).
Proof.
  intros HF HS. pose proof (holds_limit _ _ _ HF) as HL1. pose proof limit_int as HL2. assert (HL : Z.of_nat (length c) < 2 ^ 62) by lia.
  pose proof (ms_header _ HS) as HM. unfold CreateProcessFromMacho. apply launches_read; [done|]. unfold macho_launch, sizeof_mach_header_64 in *.
  set (n := Z.of_nat (length c)) in *. rewrite (proj2 (Z.ltb_lt 0 n)) by lia. cbn [andb]. destruct (Z.leb_spec n MAX_MACHO_FILE_SIZE) as [Hn|Hn]; cbn [andb]; [|done]. intros s1 H1 _.
  eapply launches_eq; [unfold n; rewrite ValidateMachoHeader_ok, lift_run by done; reflexivity|].
  destruct (macho_header_ok c); cbn [negb andb]; [|by apply launches_none].
  eapply launches_eq; [rewrite field_block, lift_run by lia; cbv beta; rewrite macho_size_ok, lift_run by done; reflexivity|].
  set (size := total_vmsize (macho_segments c)). destruct (Z.ltb_spec 0 size) as [Hs|Hs]; cbn [andb].
  2:{ pose proof (total_nonneg _ (macho_range c HS)). replace size with 0 by lia. by apply launches_none. }
  rewrite (proj2 (Z.eqb_neq size 0)) by lia. apply launches_memory; [done|done|apply HS|]. cbv zeta. pose proof (load_macho c HS HL Hs) as G. cbv zeta in G. fold size in G. unfold n in G.
  destruct (forallb _ _); cbn [andb]; [|left; split; [done|by left]]. destruct G as (image & E & Hi & Hb). rewrite E, find_main_ok by done.
  destruct (Z.eqb_spec (macho_main c) 0) as [Em|Em]; cbn [negb andb].
  { left. split; [done|right]. exists image. split; [done|]. intros s'. rewrite lift_run, Em. done. }
  destruct (Z.eqb_spec (macho_address c) 0) as [Ea|Ea]; cbn [negb andb].
  { left. split; [done|right]. exists image. split; [done|]. intros s'. rewrite lift_run, (proj2 (Z.eqb_neq _ _) Em), find_address_ok, lift_run, Ea by done. done. }
  right. exists (mk_launch size (image_byte c (macho_segments c)) (macho_address c)), image. split_and!; try done.
  intros s'. rewrite lift_run, (proj2 (Z.eqb_neq _ _) Em), find_address_ok, lift_run, (proj2 (Z.eqb_neq _ _) Ea) by done. done.
Qed.
End macho.

(** ** The choice of the loader *)
Section choice.
Context {X P : Type} `{!Drivers X} `{!Processes P} (realloc : bytes -> Z -> option (option bytes)) (pid : Z) `{!FileStore X realloc pid}.
Implicit Types (s : exec X P) (c filename : bytes).
Definition format_of c : ExecFormat := default EXEC_FORMAT_UNKNOWN (DetectExecutableFormat c (Z.of_nat (length c))).
Definition load_as (f : ExecFormat) filename (o : option ExecLoadOptions) : STM (exec X P) Z :=
  let small := Some (default_options o (8 * 1024 * 1024)) in
  let large := Some (default_options o (16 * 1024 * 1024)) in
  match f with
  | EXEC_FORMAT_UNKNOWN => mret 0
  | EXEC_FORMAT_ELF64 => CreateProcessFromElf filename large
  | EXEC_FORMAT_PE32PLUS => CreateProcessFromPE filename large
  | EXEC_FORMAT_MACHO64 => CreateProcessFromMacho filename large
  | EXEC_FORMAT_AOUT => CreateProcessFromAout filename small
  end.
Lemma Detect_prefix c z k : (4 <= k)%nat -> (4 <= length c)%nat -> Z.of_nat k < 2 ^ 62 -> (k <= length c)%nat ->
  DetectExecutableFormat (take k c ++ z) (Z.of_nat k) = DetectExecutableFormat c (Z.of_nat (length c)).
Proof.
  intros H1 H2 _ H3. unfold DetectExecutableFormat. rewrite (proj2 (Z.ltb_ge (Z.of_nat k) 4)), (proj2 (Z.ltb_ge (Z.of_nat (length c)) 4)) by lia.
  rewrite mem_read_app by (rewrite ?length_take; lia). rewrite mem_read_ok by lia. rewrite !option_bind_Some. change (Z.to_nat 0) with 0%nat. change (Z.to_nat 4) with 4%nat. rewrite !drop_0, take_take, Nat.min_l by lia. done.
Qed.
(** [LoadExecutable] refuses to make a system process unless [MLFQGetCurrentProcess] gives one; then the
    first bytes choose the loader, which gets the options given or the format's defaults. *)
Theorem LoadExecutable_dispatch s filename c o : holds (files s) filename c -> (4 <= length c)%nat ->
  (match o with Some o => privilege_level o <> PROC_PRIV_SYSTEM | None => True end \/ MLFQGetCurrentProcess (procs s) = Some PROC_PRIV_SYSTEM) ->
  exists w', holds w' filename c /\ heap w' = heap (files s) /\ LoadExecutable filename o s = load_as (format_of c) filename o (mk_exec w' (procs s) (served s)).
Proof.
  intros HF H4 HP. pose proof (holds_limit _ _ _ HF) as HL. pose proof limit_int as HI. unfold LoadExecutable. rewrite (run_bind _ _ _ _ _ (asks_run _ _)).
  match goal with |- context [if ?b then mret 0 else _] => assert (Hb : b = false) end.
  { destruct o as [o|]; [|done]. destruct HP as [HP|HP]; [by rewrite (proj2 (Z.eqb_neq _ _) HP)|]. rewrite HP. apply andb_false_r. }
  rewrite Hb. clear Hb. destruct (read_law _ _ _ 64 HF) as (w' & E & H1 & H2 & _); [lia|]. exists w'. split_and!; [done|done|].
  rewrite (run_bind _ _ _ _ _ (on_files_run _ _ _ _ E)). cbn [fst snd]. set (k := Z.to_nat (Z.min (Z.of_nat (length c)) 64)).
  rewrite mem_write_in by (rewrite ?length_replicate, ?length_take; lia). rewrite lift_run, splice_zero. rewrite (proj2 (Z.ltb_ge _ 4)) by lia.
  replace (Z.min (Z.of_nat (length c)) 64) with (Z.of_nat k) by lia. rewrite Detect_prefix by lia. unfold format_of.
  destruct (DetectExecutableFormat c (Z.of_nat (length c))) as [f|] eqn:Ef; [rewrite lift_run; by destruct f|]. exfalso.
  unfold DetectExecutableFormat in Ef. rewrite (proj2 (Z.ltb_ge _ 4)), mem_read_ok, option_bind_Some in Ef by lia. rewrite load_le_ok in Ef by (rewrite length_take, length_drop; lia). done.
Qed.
End choice.

(** ** Files for the witnesses *)
(** A system process runs; creation gives pid 5 and records the image and the entry point. *)
#[export] Instance demo_processes : Processes (list (bytes * Z)) :=
  {| GetCurrentProcess _ := Some PROC_PRIV_SYSTEM; MLFQGetCurrentProcess _ := Some PROC_PRIV_SYSTEM; CreateProcess _ image entry := fun l => Some (5, l ++ [(image, entry)]) |}.
Fixpoint num_le (n : nat) (v : Z) : bytes := match n with O => [] | S n' => v mod 256 :: num_le n' (v / 256) end.
Definition elf_header (entry : Z) : bytes :=
  ELF_magic ++ [2; 1] ++ replicate 10 0 ++ num_le 2 2 ++ num_le 2 62 ++ num_le 4 1 ++ num_le 8 entry ++ num_le 8 64 ++ num_le 8 0 ++ num_le 4 0 ++ num_le 2 64 ++ num_le 2 56 ++ num_le 2 2 ++ replicate 6 0.
Definition program_header (offset vaddr filesz memsz : Z) : bytes := num_le 4 PT_LOAD ++ num_le 4 5 ++ num_le 8 offset ++ num_le 8 vaddr ++ num_le 8 0 ++ num_le 8 filesz ++ num_le 8 memsz ++ num_le 8 0x1000.
(** Four bytes of code at 0x400000, zeros behind them, and a segment of zeros at 0x400010. *)
Definition demo_elf : bytes := elf_header 0x400001 ++ program_header 176 0x400000 4 8 ++ program_header 180 0x400010 0 16 ++ [1; 2; 3; 4].
(** The second segment says that it has 500 bytes in the file and 10 in memory. *)
Definition overlong_elf : bytes := elf_header 0x400001 ++ program_header 176 0x400000 4 8 ++ program_header 176 (0x400000 + 4000) 500 10 ++ replicate 500 9.
Definition demo_aout : bytes := num_le 4 0x107 ++ num_le 4 3 ++ num_le 4 2 ++ num_le 4 4 ++ num_le 4 0 ++ num_le 4 1 ++ num_le 4 0 ++ num_le 4 0 ++ [1; 2; 3; 7; 8].
(** One section with three bytes at 0x10 of an image of 0x20. *)
Definition demo_pe : bytes :=
  num_le 2 0x5A4D ++ replicate 58 0 ++ num_le 4 64 ++
  num_le 4 0x4550 ++ num_le 2 0x8664 ++ num_le 2 1 ++ replicate 12 0 ++ num_le 2 112 ++ num_le 2 2 ++
  num_le 2 0x20b ++ replicate 14 0 ++ num_le 4 0x11 ++ replicate 36 0 ++ num_le 4 0x20 ++ replicate 52 0 ++
  replicate 8 65 ++ num_le 4 8 ++ num_le 4 0x10 ++ num_le 4 3 ++ num_le 4 240 ++ replicate 16 0 ++ [1; 2; 3].
(** A segment of the whole file at 0, and LC_MAIN at the last three bytes. *)
Definition demo_macho : bytes :=
  num_le 4 MH_MAGIC_64 ++ replicate 12 0 ++ num_le 4 2 ++ num_le 4 96 ++ replicate 8 0 ++
  num_le 4 LC_SEGMENT_64 ++ num_le 4 72 ++ replicate 16 65 ++ num_le 8 0 ++ num_le 8 200 ++ num_le 8 0 ++ num_le 8 131 ++ replicate 16 0 ++
  num_le 4 LC_MAIN ++ num_le 4 24 ++ num_le 8 128 ++ num_le 8 0 ++ [1; 2; 3].
(** The checks let it through, and the copy leaves the block. *)
Example overlong_leaves_block : let write := VfsWriteFile demo_realloc 7 path_b overlong_elf 676 demo_vfs in
  fst <$> write = Some 676 /\ (r ← write; CreateProcessFromElf path_b None (mk_exec r.2 [] [])) = None.
Proof. split; vm_compute; reflexivity. Qed.
Lemma demo_written c : (3 <= length c)%nat -> Z.of_nat (length c) <= realloc_max -> exists w : vfs unit, ram_holds w path_b c.
Proof.
  intros H1 H2. set (store := ram_file_store (X := unit) demo_realloc demo_realloc_ok demo_steady 7).
  destruct (write_law (FileStore := store) demo_vfs path_b [10; 20; 30] c demo_holds H2) as (r & w & _ & [[_ Hw]|[_ Hn]]).
  - exists w. cbn in Hw. unfold overwrite in Hw. cbn in Hw. by rewrite drop_ge, app_nil_r in Hw.
  - destruct Hn. by apply demo_room.
Qed.
Lemma demo_launch c run p : (exists w : vfs unit, ram_holds w path_b c) ->
  (forall w, ram_holds w path_b c -> launches (FileStore0 := ram_file_store (X := unit) demo_realloc demo_realloc_ok demo_steady 7) demo_realloc 7 (mk_exec w [] []) path_b c run (Some p)) ->
  exists s s' image, ram_holds (files s) path_b c /\ run s = Some (5, s') /\ procs s' = [(image, l_entry p)] /\ shows image (l_byte p) /\ Z.of_nat (length image) = pages (l_size p).
Proof.
  intros (w & Hw) H. destruct (H w Hw) as (w' & l & _ & _ & [[[Hp|Hs] _]|(q & image & Hq & Hi & Hb & Hr)]); [done|by apply elem_of_nil in Hs|].
  injection Hq as <-. eexists (mk_exec w [] []), _, image. split; [done|]. split; [exact Hr|]. done.
Qed.
Lemma elf_sane_demo : elf_sane demo_elf.
Proof. split; [refine (bool_decide_unpack (Forall (fun z => 0 <= z < 256) _) _); vm_compute; exact I|vm_compute; reflexivity..|]. refine (bool_decide_unpack _ _). vm_compute. exact I. Qed.
Lemma pe_sane_demo : pe_sane demo_pe.
Proof. split; [refine (bool_decide_unpack (Forall (fun z => 0 <= z < 256) _) _); vm_compute; exact I|]. refine (bool_decide_unpack _ _). vm_compute. exact I. Qed.
(** The process starts at the second byte of the segment [1; 2; 3; 4]. *)
Lemma CreateProcessFromElf_correct_witness : exists s s' image, ram_holds (files s) path_b demo_elf /\ CreateProcessFromElf path_b None s = Some (5, s') /\
  procs s' = [(image, 1)] /\ byte_at 1 image = 2 /\ byte_at 4 image = 0 /\ length image = 4096%nat.
Proof.
  assert (Hp : exists p, elf_launch (16 * 1024 * 1024) demo_elf = Some p /\ l_entry p = 1 /\ l_byte p 1 = 2 /\ l_byte p 4 = 0 /\ l_size p = 32) by (vm_compute; eexists; split_and!; reflexivity).
  destruct Hp as (p & Ep & He & H1 & H4 & H5).
  destruct (demo_launch demo_elf (CreateProcessFromElf path_b None) p) as (s & s' & image & G1 & G2 & G3 & G4 & G5).
  - apply demo_written; vm_compute; [lia|discriminate].
  - intros w Hw. pose proof (CreateProcessFromElf_correct (P := list (bytes * Z)) demo_realloc 7 (FileStore0 := ram_file_store (X := unit) demo_realloc demo_realloc_ok demo_steady 7)
      (mk_exec w [] []) path_b demo_elf None Hw elf_sane_demo) as H. rewrite <- Ep. apply H. vm_compute. discriminate.
  - rewrite H5 in G5. rewrite He in G3. exists s, s', image. split; [exact G1|]. split; [exact G2|]. split; [exact G3|]. assert (Hl : length image = 4096%nat) by (apply Nat2Z.inj; exact G5).
    split; [rewrite <- H1; apply (G4 1); rewrite Hl; lia|]. split; [rewrite <- H4; apply (G4 4); rewrite Hl; lia|exact Hl].
Defined.
(** Text and data are three and two bytes. *)
Lemma CreateProcessFromAout_correct_witness : exists s s' image, ram_holds (files s) path_b demo_aout /\ CreateProcessFromAout path_b None s = Some (5, s') /\
  procs s' = [(image, 1)] /\ byte_at 0 image = 1 /\ byte_at 3 image = 7 /\ byte_at 5 image = 0.
Proof.
  assert (Hp : exists p, aout_launch (8 * 1024 * 1024) demo_aout = Some p /\ l_entry p = 1 /\ l_byte p 0 = 1 /\ l_byte p 3 = 7 /\ l_byte p 5 = 0 /\ l_size p = 9) by (vm_compute; eexists; split_and!; reflexivity).
  destruct Hp as (p & Ep & He & H0 & H3 & H5 & Hs).
  destruct (demo_launch demo_aout (CreateProcessFromAout path_b None) p) as (s & s' & image & G1 & G2 & G3 & G4 & G5).
  - apply demo_written; vm_compute; [lia|discriminate].
  - intros w Hw. rewrite <- Ep. apply (CreateProcessFromAout_correct (P := list (bytes * Z)) demo_realloc 7 (FileStore0 := ram_file_store (X := unit) demo_realloc demo_realloc_ok demo_steady 7)
      (mk_exec w [] []) path_b demo_aout None Hw). refine (bool_decide_unpack (Forall (fun z => 0 <= z < 256) _) _). vm_compute. exact I.
  - rewrite Hs in G5. rewrite He in G3. assert (Hl : length image = 4096%nat) by (apply Nat2Z.inj; exact G5). exists s, s', image. split; [exact G1|]. split; [exact G2|]. split; [exact G3|].
    split; [rewrite <- H0; apply (G4 0); rewrite Hl; lia|]. split; [rewrite <- H3; apply (G4 3); rewrite Hl; lia|rewrite <- H5; apply (G4 5); rewrite Hl; lia].
Defined.
(** The section's bytes are at 0x10. *)
Lemma CreateProcessFromPE_correct_witness : exists s s' image, ram_holds (files s) path_b demo_pe /\ CreateProcessFromPE path_b None s = Some (5, s') /\
  procs s' = [(image, 17)] /\ byte_at 15 image = 0 /\ byte_at 16 image = 1 /\ byte_at 18 image = 3.
Proof.
  assert (Hp : exists p, pe_launch (16 * 1024 * 1024) demo_pe = Some p /\ l_entry p = 17 /\ l_byte p 15 = 0 /\ l_byte p 16 = 1 /\ l_byte p 18 = 3 /\ l_size p = 32) by (vm_compute; eexists; split_and!; reflexivity).
  destruct Hp as (p & Ep & He & H0 & H3 & H5 & Hs).
  destruct (demo_launch demo_pe (CreateProcessFromPE path_b None) p) as (s & s' & image & G1 & G2 & G3 & G4 & G5).
  - apply demo_written; vm_compute; [lia|discriminate].
  - intros w Hw. rewrite <- Ep. exact (CreateProcessFromPE_correct (P := list (bytes * Z)) demo_realloc 7 (FileStore0 := ram_file_store (X := unit) demo_realloc demo_realloc_ok demo_steady 7)
      (mk_exec w [] []) path_b demo_pe None Hw pe_sane_demo).
  - rewrite Hs in G5. rewrite He in G3. assert (Hl : length image = 4096%nat) by (apply Nat2Z.inj; exact G5). exists s, s', image. split; [exact G1|]. split; [exact G2|]. split; [exact G3|].
    split; [rewrite <- H0; apply (G4 15); rewrite Hl; lia|]. split; [rewrite <- H3; apply (G4 16); rewrite Hl; lia|rewrite <- H5; apply (G4 18); rewrite Hl; lia].
Defined.
