(* ===== verification/FsRegistry.v ===== *)
(** The registry of file-system drivers and the mounting of devices at start-up
    ([src/fs/FileSystem.c], with the registrations of [VfsInit]).

    [detect] and [mount] of the three disk file systems are reached through the class
    [Detectors]; the pseudo file systems have no [detect], and a call of it is a fault. *)
From Stdlib Require Import ZArith Lia.
From stdpp Require Import base tactics list numbers option.
From S2P Require Import Prelude Format FormatProps BlockTable BlockProps Vfrfs Vfs.

Definition MAX_FILESYSTEM_DRIVERS : nat := 8.
Record registry := mk_registry { g_fs_drivers : list (option fs_driver); g_num_fs_drivers : Z }.
Definition FileSystemInit (r : registry) : registry := mk_registry (g_fs_drivers r) 0.
Definition FileSystemRegister (d : fs_driver) (r : registry) : option (Z * registry) :=
  if Z.of_nat MAX_FILESYSTEM_DRIVERS <=? g_num_fs_drivers r then Some (-1, r) else
  ds ← arr_set (g_fs_drivers r) (g_num_fs_drivers r) (Some d);
  Some (0, mk_registry ds (g_num_fs_drivers r + 1)).
(** The registrations of [VfsInit]. *)
Definition register_drivers (r : registry) : option registry :=
  a ← FileSystemRegister NTFS r; b ← FileSystemRegister FAT1x a.2; c ← FileSystemRegister EXT2 b.2;
  d ← FileSystemRegister DevFS c.2; e ← FileSystemRegister ProcFS d.2; Some e.2.

(** Whether a disk holds a file system is decided by the disk: the answer changes nothing. *)
Class Detectors (X : Type) := {
  detect : fs_driver -> nat -> STM (vfs X) Z;
  mount : fs_driver -> nat -> bytes -> STM (vfs X) Z;
  found_on : fs_driver -> nat -> Z;
  detect_law : forall d i w, detect d i w = Some (found_on d i, w)
}.
Section automount.
Context {X : Type} `{!Detectors X} {H : Type}.
(** The [detect] and [mount] fields of the drivers that [VfsInit] registers. *)
Definition driver_detect (d : fs_driver) : option (nat -> STM (vfs X) Z) :=
  match d with NTFS | FAT1x | EXT2 => Some (detect d) | DevFS | ProcFS => None end.
Definition driver_mount (d : fs_driver) (i : nat) (mp : bytes) : STM (vfs X) Z :=
  match d with NTFS | FAT1x | EXT2 => mount d i mp | DevFS | ProcFS => mret 0 end.
(** "/Runtime/Mounts" and ["%s/%s"] *)
Definition RuntimeMounts : bytes := [47; 82; 117; 110; 116; 105; 109; 101; 47; 77; 111; 117; 110; 116; 115].
Definition mount_fmt : bytes := [37; 115; 47; 37; 115].
Definition mount_name (nm : bytes) : option bytes :=
  r ← snprintf (Some (replicate 64 0)) 64 mount_fmt [VStr (Some RuntimeMounts); VStr (Some nm)]; Some (c_string (default [] r.2)).
(** The drivers in turn, until one finds its file system; whether it was mounted. *)
Fixpoint try_drivers (n : nat) (j : nat) (r : registry) (i : nat) (nm : bytes) : STM (vfs X) bool :=
  match n with
  | O => mret false
  | S n' =>
      d ← lift (o ← g_fs_drivers r !! j; o);
      match driver_detect d with
      | None => fault
      | Some detect =>
          f ← detect i;
          if negb (f =? 0) then
            mp ← lift (mount_name nm);
            mount_result ← driver_mount d i mp;
            mret (mount_result =? 0)
          else try_drivers n' (S j) r i nm
      end
  end.
(** A device pointer with its entry; the table is only read. *)
Definition get_device (t : disks H) (i : nat) : option BlockDevice :=
  match BlockDeviceGet (Z.of_nat i) t with Some (Some k, _) => g_block_devices t !! k | _ => None end.
Fixpoint automount_loop (n : nat) (i : nat) (t : disks H) (r : registry) (mounted : Z) : STM (vfs X) Z :=
  match n with
  | O => mret mounted
  | S n' =>
      match get_device t i with
      | Some dev =>
          if active dev then
            m ← try_drivers (Z.to_nat (g_num_fs_drivers r)) 0 r i (BlockTable.name dev);
            automount_loop n' (S i) t r (if m : bool then u8 (mounted + 1) else mounted)
          else automount_loop n' (S i) t r mounted
      | None => automount_loop n' (S i) t r mounted
      end
  end.
Definition total_devices (t : disks H) : nat :=
  length (List.filter (fun i => match get_device t i with Some dev => active dev | None => false end) (seq 0 MAX_BLOCK_DEVICES)).
(** The number of file systems mounted. *)
Definition FileSystemAutoMount (t : disks H) (r : registry) : STM (vfs X) Z :=
  if (total_devices t =? 0)%nat then mret 0 else automount_loop MAX_BLOCK_DEVICES 0 t r 0.

(** ** What it does *)
Definition boot_drivers : list fs_driver := [NTFS; FAT1x; EXT2; DevFS; ProcFS].
Lemma register_drivers_ok r : length (g_fs_drivers r) = MAX_FILESYSTEM_DRIVERS ->
  exists r', register_drivers (FileSystemInit r) = Some r' /\ g_num_fs_drivers r' = 5 /\ forall j d, boot_drivers !! j = Some d -> g_fs_drivers r' !! j = Some (Some d).
Proof.
  intros HL. destruct r as [ds n]. cbn in HL. do 8 (destruct ds as [|? ds]; [done|]). destruct ds; [|done]. eexists. split; [reflexivity|]. split; [done|].
  intros [|[|[|[|[|j]]]]] d Hd; cbn in Hd; try done; by injection Hd as <-.
Qed.
Lemma mount_name_ok nm : Forall (fun c => 0 < c < 256) nm -> (length nm <= 30)%nat -> mount_name nm = Some (RuntimeMounts ++ slash :: nm).
Proof.
  intros Hn Hl. assert (E : expand 6 mount_fmt [VStr (Some RuntimeMounts); VStr (Some nm)] = Some (RuntimeMounts ++ slash :: nm)) by (cbn; by rewrite app_nil_r).
  unfold mount_name, snprintf. rewrite (vsnprintf_run (replicate 64 0) 64 mount_fmt _ _ ltac:(lia) ltac:(done) E). rewrite option_bind_Some. cbn [snd default].
  assert (HB : Forall (fun c => 0 < c < 256) (RuntimeMounts ++ slash :: nm)) by (apply Forall_app; split; [repeat constructor; lia|constructor; [unfold slash; lia|done]]).
  rewrite (u8_bytes _ HB), take_ge by (rewrite length_app; cbn; lia). f_equal. apply c_string_cut. eapply List.Forall_impl; [|exact HB]. cbn. lia.
Qed.
(** The first of the disk file systems that is found on a device. *)
Definition found (i : nat) : option fs_driver := List.find (fun d => negb (found_on d i =? 0)) [NTFS; FAT1x; EXT2].
Section boot.
Context (r : registry) (Hnum : g_num_fs_drivers r = 5) (Hds : forall j d, boot_drivers !! j = Some d -> g_fs_drivers r !! j = Some (Some d)).
Lemma try_drivers_run i nm w : Forall (fun c => 0 < c < 256) nm -> (length nm <= 30)%nat ->
  try_drivers 5 0 r i nm w = match found i with
    | None => None
    | Some d => (m ← mount d i (RuntimeMounts ++ slash :: nm); mret (m =? 0)) w
    end.
Proof.
  intros Hn Hl. pose proof (mount_name_ok nm Hn Hl) as HM. unfold found.
  assert (Hd : forall j d, boot_drivers !! j = Some d -> (lift (o ← g_fs_drivers r !! j; o) : STM (vfs X) fs_driver) w = Some (d, w)) by (intros j d E; unfold lift; by rewrite (Hds j d E)).
  assert (go : forall n j d, boot_drivers !! j = Some d -> driver_detect d = Some (detect d) -> driver_mount d = mount d ->
    try_drivers (S n) j r i nm w = if negb (found_on d i =? 0) then (m ← mount d i (RuntimeMounts ++ slash :: nm); mret (m =? 0)) w else try_drivers n (S j) r i nm w).
  { intros n j d Hj Hdt Hmt. cbn [try_drivers]. rewrite (run_bind _ _ _ _ _ (Hd j d Hj)), Hdt, (run_bind _ _ _ _ _ (detect_law d i w)). destruct (negb _); [|done].
    rewrite HM, (run_bind _ _ _ _ _ (eq_refl : lift (Some _) w = Some (_, w))), Hmt. done. }
  cbn [List.find]. rewrite (go 4%nat 0%nat NTFS) by done. destruct (negb (found_on NTFS i =? 0)); [done|].
  rewrite (go 3%nat 1%nat FAT1x) by done. destruct (negb (found_on FAT1x i =? 0)); [done|].
  rewrite (go 2%nat 2%nat EXT2) by done. destruct (negb (found_on EXT2 i =? 0)); [done|].
  cbn [try_drivers]. by rewrite (run_bind _ _ _ _ _ (Hd 3%nat DevFS eq_refl)).
Qed.
Lemma get_device_ok t i dev : table_ok t -> get_device t i = Some dev <-> Z.of_nat i < g_next_device_id t /\ g_block_devices t !! i = Some dev.
Proof.
  intros HT. unfold get_device, BlockDeviceGet. rewrite (proj2 (Z.ltb_ge _ 0)) by lia. cbn [orb]. destruct (Z.leb_spec (g_next_device_id t) (Z.of_nat i)) as [Hle|Hlt].
  { split; [done|lia]. }
  rewrite Nat2Z.id. destruct (g_block_devices t !! i) as [d|] eqn:E; [|split; [done|by intros [_ ?]]]. rewrite option_bind_Some, (dk_active _ _ (tb_dev _ HT _ _ Hlt E)), E. split; [done|by intros [_ ?]].
Qed.
Lemma automount_fault n i t k w mounted : table_ok t -> (i <= k < i + n)%nat -> Z.of_nat k < g_next_device_id t -> found k = None -> automount_loop n i t r mounted w = None.
Proof.
  intros HT. revert i w mounted. induction n as [|n IH]; intros i w mounted Hk Hlt Hf; [lia|]. cbn [automount_loop].
  destruct (lookup_lt_is_Some_2 (g_block_devices t) k) as [dk Hdk]; [rewrite (tb_len _ HT); pose proof (tb_next _ HT); lia|].
  destruct (decide (k = i)) as [->|Hne].
  - rewrite (proj2 (get_device_ok t i dk HT) (conj Hlt Hdk)). pose proof (tb_dev _ HT _ _ Hlt Hdk) as HD. rewrite (dk_active _ _ HD), Hnum. change (Z.to_nat 5) with 5%nat.
    unfold mbind, STM_bind. rewrite try_drivers_run by apply HD. by rewrite Hf.
  - destruct (get_device t i) as [dev|]; [|apply IH; [lia|done|done]]. destruct (active dev); [|apply IH; [lia|done|done]].
    unfold mbind, STM_bind. destruct (try_drivers _ _ _ _ _ w) as [[m w1]|]; [|done]. apply IH; [lia|done|done].
Qed.
Lemma automount_runs n i t w mounted : table_ok t -> (forall d k mp w, exists z w', mount d k mp w = Some (z, w')) ->
  (forall k, Z.of_nat k < g_next_device_id t -> found k <> None) -> exists z w', automount_loop n i t r mounted w = Some (z, w').
Proof.
  intros HT Hm Hf. revert i w mounted. induction n as [|n IH]; intros i w mounted; cbn [automount_loop]; [by exists mounted, w|].
  destruct (get_device t i) as [dev|] eqn:E; [|apply IH]. destruct (active dev); [|apply IH]. apply (get_device_ok t i dev HT) in E as [Hlt E]. pose proof (tb_dev _ HT _ _ Hlt E) as HD.
  rewrite Hnum. change (Z.to_nat 5) with 5%nat. specialize (Hf i Hlt). destruct (found i) as [d|] eqn:Ef; [|done].
  destruct (Hm d i (RuntimeMounts ++ slash :: BlockTable.name dev) w) as (z & w' & Ez).
  assert (ET : try_drivers 5 0 r i (BlockTable.name dev) w = Some (z =? 0, w')) by (rewrite try_drivers_run, Ef by apply HD; by rewrite (run_bind _ _ _ _ _ Ez)).
  rewrite (run_bind _ _ _ _ _ ET). apply IH.
Qed.
End boot.
End automount.

Lemma total_devices_pos {H} (t : disks H) k : table_ok t -> Z.of_nat k < g_next_device_id t -> total_devices t <> 0%nat.
Proof.
  intros HT Hk. pose proof (tb_next _ HT) as Hn. destruct (lookup_lt_is_Some_2 (g_block_devices t) k) as [dk Hdk]; [rewrite (tb_len _ HT); lia|]. unfold total_devices. intros E.
  assert (Hin : In k (List.filter (fun i => match get_device t i with Some dev => active dev | None => false end) (seq 0 MAX_BLOCK_DEVICES))).
  { apply filter_In. split; [apply in_seq; lia|]. rewrite (proj2 (get_device_ok t k dk HT) (conj Hk Hdk)). apply (dk_active _ _ (tb_dev _ HT _ _ Hk Hdk)). }
  apply length_zero_iff_nil in E. rewrite E in Hin. destruct Hin.
Qed.
(** Two disks: FAT on the first, nothing known on the second. *)
#[export] Instance demo_detectors : Detectors unit := {
  detect d i := fun w => Some (match d with FAT1x => if (i =? 0)%nat then 1 else 0 | _ => 0 end, w);
  mount d i mp := fun w => Some (0, w);
  found_on d i := match d with FAT1x => if (i =? 0)%nat then 1 else 0 | _ => 0 end;
  detect_law d i w := eq_refl
}.
Definition demo_disks : disks unit := mk_disks (hd0 :: mk_dev 1 true DEVICE_TYPE_IDE 512 100000 [104; 100; 49] None 0 (Some DriverBlocks) (Some DriverBlocks) :: replicate 14 no_device) 2 tt [].
Lemma demo_disks_ok : table_ok demo_disks.
Proof.
  split; [done|split; vm_compute; discriminate|]. intros i d Hi. cbn in Hi. destruct i as [|[|i]]; [| |lia]; intros [= <-]; (split; [done|done| |done]; split; [cbn; lia|]; repeat constructor; lia).
Qed.

(** Auto-mounting works only when every disk is known.  After start-up has registered its
    five drivers, [FileSystemAutoMount] calls through NULL (it faults) whenever some registered
    device holds none of NTFS, FAT and Ext2: the search then reaches the pseudo file systems,
    which have no [detect].  When every device holds one of the three and the drivers' [mount]
    functions return, it returns. *)
Theorem FileSystemAutoMount_faults {X} `{!Detectors X} {H} (t : disks H) reg : table_ok t -> length (g_fs_drivers reg) = MAX_FILESYSTEM_DRIVERS ->
  exists r, register_drivers (FileSystemInit reg) = Some r /\
    (forall k w, Z.of_nat k < g_next_device_id t -> found k = None -> FileSystemAutoMount t r w = None) /\
    ((forall d k mp w, exists z w', mount d k mp w = Some (z, w')) -> (forall k, Z.of_nat k < g_next_device_id t -> found k <> None) ->
     forall w, exists z w', FileSystemAutoMount t r w = Some (z, w')).
Proof.
  intros HT HL. destruct (register_drivers_ok reg HL) as (r & Er & Hn & Hd). exists r. split; [done|]. unfold FileSystemAutoMount. split.
  - intros k w Hk Hf. rewrite (proj2 (Nat.eqb_neq _ 0) (total_devices_pos t k HT Hk)). pose proof (tb_next _ HT). eapply automount_fault; [done|done|done| |done|done]. lia.
  - intros Hm Hf w. destruct (total_devices t =? 0)%nat; [by exists 0, w|]. by apply automount_runs.
Qed.
Lemma FileSystemAutoMount_faults_witness : exists r, register_drivers (FileSystemInit (mk_registry (replicate 8 None) 3)) = Some r /\
  FileSystemAutoMount demo_disks r (mk_vfs [] (mk_fs None [] [] 0 0 0 0) tt []) = None.
Proof.
  destruct (FileSystemAutoMount_faults demo_disks (mk_registry (replicate 8 None) 3) demo_disks_ok eq_refl) as (r & E & H1 & _). exists r. split; [exact E|].
  apply (H1 1%nat); [vm_compute; reflexivity|vm_compute; reflexivity].
Defined.
