(* ===== verification/PseudoFs.v ===== *)
(** The pseudo file systems: character devices and DevFS ([src/fs/CharDevice.c],
    [src/fs/devfs/DevFS.c]), processes and ProcFS ([src/fs/procfs/ProcFS.c], with [atoi] of
    [src/include/stdlib.h]).

    A [CharDevice_t] pointer is an index into [chars]; its functions are called through the class
    [CharIo], on a state [C].  The list of registered processes is the list of its pids from the
    head on.  What [ProcfsReadFile] reads of a process control block is the record [pcb_view], and
    the scheduler's [GetCurrentProcessByPID] is a parameter. *)
From Stdlib Require Import ZArith Lia.
From stdpp Require Import base tactics list numbers option.
From S2P Require Import Prelude Format FormatProps.

(** ** Character devices *)
Definition MAX_CHAR_DEVICES : nat := 32.
Record CharDevice_t := mk_char { ch_name : bytes; ch_Read : bool; ch_Write : bool }.
Class CharIo (C : Type) := {
  dev_read : nat -> Z -> STM C (Z * bytes);
  dev_write : nat -> bytes -> Z -> STM C Z
}.
Record chars (C : Type) := mk_chars { char_devs : list CharDevice_t; g_char_devices : list (option nat); g_num_char_devices : Z; char_state : C }.
#[global] Arguments mk_chars {C}.
#[global] Arguments char_devs {C}.
#[global] Arguments g_char_devices {C}.
#[global] Arguments g_num_char_devices {C}.
#[global] Arguments char_state {C}.
Section devfs.
Context {C : Type} `{!CharIo C}.
Notation V A := (STM (chars C) A).
Definition on_chars {A} (op : STM C A) : V A := fun s => r ← op (char_state s); Some (r.1, mk_chars (char_devs s) (g_char_devices s) (g_num_char_devices s) r.2).
Definition CharDeviceInit : V unit := fun s => Some (tt, mk_chars (char_devs s) (replicate MAX_CHAR_DEVICES None) 0 (char_state s)).
Definition CharDeviceRegister (device : nat) : V Z := fun s =>
  if Z.of_nat MAX_CHAR_DEVICES <=? g_num_char_devices s then Some (-1, s) else
  ds ← arr_set (g_char_devices s) (g_num_char_devices s) (Some device);
  Some (0, mk_chars (char_devs s) ds (g_num_char_devices s + 1) (char_state s)).
(** A device pointer, and what it points to. *)
Definition char_dev (o : option nat) : V CharDevice_t := fun s => k ← o; d ← char_devs s !! k; Some (d, s).
Fixpoint char_find_loop (n : nat) (i : nat) (nm : bytes) : V (option nat) :=
  match n with
  | O => mret None
  | S n' =>
      p ← (fun s => p ← g_char_devices s !! i; Some (p, s));
      d ← char_dev p;
      if bool_decide (ch_name d = nm) then mret p else char_find_loop n' (S i) nm
  end.
Definition CharDeviceFind (nm : bytes) : V (option nat) := n ← asks (fun s => Z.to_nat (g_num_char_devices s)); char_find_loop n 0 nm.
Definition CharDeviceGet (index : Z) : V (option nat) := fun s =>
  if (index <? 0) || (g_num_char_devices s <=? index) then Some (None, s) else p ← arr_get (g_char_devices s) index; Some (p, s).
Definition CharDeviceGetCount : V Z := asks g_num_char_devices.

(** ** DevFS *)
Definition slash_char : Z := 47.
Definition DevfsMount : Z := 0.
(** [path + 1] *)
Definition device_name (path : bytes) : option bytes := match path with [] => None | _ :: p => Some p end.
Definition DevfsReadFile (path : bytes) (max_size : Z) : V (Z * bytes) :=
  nm ← lift (device_name path);
  p ← CharDeviceFind nm;
  match p with
  | None => mret (-1, [])
  | Some k => d ← char_dev (Some k); if ch_Read d then on_chars (dev_read k max_size) else mret (-1, [])
  end.
Definition DevfsWriteFile (path buffer : bytes) (size : Z) : V Z :=
  nm ← lift (device_name path);
  p ← CharDeviceFind nm;
  match p with
  | None => mret (-1)
  | Some k => d ← char_dev (Some k); if ch_Write d then on_chars (dev_write k buffer size) else mret (-1)
  end.
(** The names listed, and the result. *)
Fixpoint devfs_list_loop (n : nat) (i : Z) : V (list bytes) :=
  match n with
  | O => mret []
  | S n' =>
      p ← CharDeviceGet i;
      match p with
      | Some k => d ← char_dev (Some k); l ← devfs_list_loop n' (i + 1); mret (ch_name d :: l)
      | None => devfs_list_loop n' (i + 1)
      end
  end.
Definition DevfsListDir (path : bytes) : V (list bytes * Z) :=
  if negb (bool_decide (path = [slash_char])) then mret ([], -1) else
  count ← CharDeviceGetCount;
  l ← devfs_list_loop (Z.to_nat count) 0;
  mret (l, 0).
Definition DevfsIsDir (path : bytes) : Z := if bool_decide (path = [slash_char]) then 1 else 0.
End devfs.

(** ** ProcFS *)
Fixpoint atoi_digits (str : bytes) (result : Z) : Z :=
  match str with
  | [] => result
  | c :: str' => if (48 <=? c) && (c <=? 57) then atoi_digits str' (i32 (result * 10 + (c - 48))) else result
  end.
Definition is_space (c : Z) : bool := (c =? 32) || (c =? 9) || (c =? 10) || (c =? 13) || (c =? 12) || (c =? 11).
Definition atoi (str : bytes) : Z :=
  match skip_while is_space str with
  | [] => 0
  | c :: s => if c =? 45 then i32 (atoi_digits s 0 * -1) else if c =? 43 then atoi_digits s 0 else atoi_digits (c :: s) 0
  end.
Record procfs := mk_procfs { proc_list : list Z; pheap : list bool }.
Definition ProcFSInit (s : procfs) : procfs := mk_procfs [] (pheap s).
(** [pheap] says which of the coming allocations succeed. *)
Definition ProcFSRegisterProcess (pid : Z) (s : procfs) : procfs :=
  match pheap s with
  | false :: h => mk_procfs (proc_list s) h
  | true :: h => mk_procfs (pid :: proc_list s) h
  | [] => mk_procfs (pid :: proc_list s) []
  end.
Fixpoint remove_first (pid : Z) (l : list Z) : list Z :=
  match l with
  | [] => []
  | p :: l' => if p =? pid then l' else p :: remove_first pid l'
  end.
Definition ProcFSUnregisterProcess (pid : Z) (s : procfs) : procfs := mk_procfs (remove_first pid (proc_list s)) (pheap s).
Definition ProcfsMount : Z := 0.
(** [pid_str]: at most 15 bytes up to a slash, and the rest of the path. *)
Fixpoint pid_string (j : nat) (path : bytes) : bytes * bytes :=
  match path with
  | [] => ([], [])
  | c :: path' => if (c =? slash_char) || (15 <=? j)%nat then ([], path) else let r := pid_string (S j) path' in (c :: r.1, r.2)
  end.
Record pcb_view := mk_pcb {
  v_name : bytes; v_pid : Z; v_state : Z; v_parent_pid : Z; v_nice : Z; v_privilege_level : Z; v_cpu_time_accumulated : Z; v_creation_time : Z
}.
(** "Name: %s\nPID: %u\nState: %d\nPPID: %u\nPriority: %d\nPrivilege: %d\nCPU Time: %llu ticks\nCreation Time: %llu\n" *)
Definition info_fmt : bytes :=
  [78;97;109;101;58;32;37;115;10] ++ [80;73;68;58;32;37;117;10] ++ [83;116;97;116;101;58;32;37;100;10] ++ [80;80;73;68;58;32;37;117;10] ++
  [80;114;105;111;114;105;116;121;58;32;37;100;10] ++ [80;114;105;118;105;108;101;103;101;58;32;37;100;10] ++
  [67;80;85;32;84;105;109;101;58;32;37;108;108;117;32;116;105;99;107;115;10] ++ [67;114;101;97;116;105;111;110;32;84;105;109;101;58;32;37;108;108;117;10].
Definition info_args (p : pcb_view) : va_list :=
  [VStr (Some (v_name p)); VInt (v_pid p); VInt (v_state p); VInt (v_parent_pid p); VInt (v_nice p); VInt (v_privilege_level p);
   VInt (v_cpu_time_accumulated p); VInt (v_creation_time p)].
(** "info" *)
Definition info_name : bytes := [105; 110; 102; 111].
Section procfs.
Context (GetCurrentProcessByPID : Z -> option pcb_view).
Definition ProcfsReadFile (path : bytes) (max_size : Z) : option (Z * bytes) :=
  match path with
  | [] => Some (-1, [])
  | c :: path1 =>
      if negb (c =? slash_char) then Some (-1, []) else
      let '(pid_str, rest) := pid_string 0 path1 in
      match rest with
      | [] => Some (-1, [])
      | _ :: filename =>
          match GetCurrentProcessByPID (u32 (atoi pid_str)) with
          | None => Some (-1, [])
          | Some pcb =>
              if bool_decide (filename = info_name) then
                r ← snprintf (Some (replicate 1024 0)) 1024 info_fmt (info_args pcb);
                let len := if max_size <? u32 r.1 then i32 max_size else r.1 in
                b ← mem_read (default [] r.2) 0 (u64 len);
                Some (len, b)
              else Some (-1, [])
          end
      end
  end.
End procfs.
Definition ProcfsWriteFile (path buffer : bytes) (size : Z) : Z := -1.
(** The path names the directory of a registered process. *)
Definition proc_dir (path : bytes) (s : procfs) : bool :=
  match path with
  | c :: ((_ :: _) as path1) =>
      (c =? slash_char) &&
      let '(pid_str, rest) := pid_string 0 path1 in
      existsb (fun p => (p =? u32 (atoi pid_str)) && (bool_decide (rest = []) || bool_decide (rest = [slash_char]))) (proc_list s)
  | _ => false
  end.
(** What is listed ("info" for a process), and the result. *)
Definition ProcfsListDir (path : bytes) (s : procfs) : (list Z + unit) * Z :=
  if bool_decide (path = [slash_char]) then (inl (proc_list s), 0)
  else if proc_dir path s then (inr tt, 0) else (inl [], -1).
Definition ProcfsIsDir (path : bytes) (s : procfs) : Z := if bool_decide (path = [slash_char]) then 1 else if proc_dir path s then 1 else 0.

(** ** Reading a process *)
Lemma dec_digit v : 0 <= v < 10 -> let c := byte_at (Z.to_nat v) digits_large in c = 48 + v.
Proof.
  intros Hv. assert (H : forallb (fun v => byte_at (Z.to_nat v) digits_large =? 48 + v) (seqZ 0 10) = true) by (vm_compute; reflexivity).
  rewrite forallb_forall in H. apply Z.eqb_eq, H. apply list_elem_of_In, elem_of_seqZ. lia.
Qed.
Lemma dec_digits n num : 0 <= num -> Forall (fun c => 48 <= c <= 57) (digits_loop n digits_large num 10).
Proof.
  revert num. induction n as [|n IH]; intros num Hn; cbn [digits_loop]; [done|]. destruct (num =? 0); [done|]. pose proof (Z.mod_pos_bound num 10 ltac:(lia)). constructor.
  - rewrite dec_digit by lia. lia.
  - apply IH. apply Z.div_pos; lia.
Qed.
Lemma digits_loop_length n k digits num base : 1 < base -> 0 <= num < base ^ Z.of_nat k -> (length (digits_loop n digits num base) <= k)%nat.
Proof.
  intros Hb. revert k num. induction n as [|n IH]; intros k num Hn; cbn [digits_loop]; [cbn; lia|]. destruct (Z.eqb_spec num 0); [cbn; lia|]. destruct k as [|k]; [cbn in Hn; lia|].
  cbn [length]. apply le_n_S, IH. split; [apply Z.div_pos; lia|]. apply Z.div_lt_upper_bound; [lia|]. rewrite <- Z.pow_succ_r by lia. replace (Z.succ (Z.of_nat k)) with (Z.of_nat (S k)) by lia. apply Hn.
Qed.
Lemma atoi_digits_run n num tl : 0 <= num < 2 ^ 31 -> num < 10 ^ Z.of_nat n -> atoi_digits (reverse (digits_loop n digits_large num 10) ++ tl) 0 = atoi_digits tl num.
Proof.
  revert num tl. induction n as [|n IH]; intros num tl Hn Hlt; cbn [digits_loop]; [replace num with 0 by (cbn in Hlt; lia); done|].
  destruct (Z.eqb_spec num 0) as [->|Hnz]; [done|]. rewrite reverse_cons, <- app_assoc. pose proof (Z.mod_pos_bound num 10 ltac:(lia)) as Hm. pose proof (Z.div_mod num 10 ltac:(lia)) as Hdm. rewrite IH.
  - cbn [app atoi_digits]. rewrite dec_digit by lia. rewrite (proj2 (Z.leb_le 48 _)), (proj2 (Z.leb_le _ 57)) by lia. cbn [andb]. f_equal.
    unfold i32. rewrite u32_small, (proj2 (Z.ltb_lt _ (2 ^ 31))) by lia. lia.
  - split; [apply Z.div_pos; lia|]. apply Z.le_lt_trans with num; [|lia]. apply Z.div_le_upper_bound; lia.
  - apply Z.div_lt_upper_bound; [lia|]. rewrite <- Z.pow_succ_r by lia. by replace (Z.succ (Z.of_nat n)) with (Z.of_nat (S n)) by lia.
Qed.
Lemma numeral_dec num : 0 <= num < 2 ^ 31 -> Forall (fun c => 48 <= c <= 57) (numeral num 10 0) /\ (length (numeral num 10 0) <= 10)%nat /\ numeral num 10 0 <> [].
Proof.
  intros Hn. unfold numeral, number_digits. change (Z.land 0 SMALL =? 0) with true. cbv iota. destruct (Z.eqb_spec num 0) as [->|Hnz].
  { split; [repeat constructor; lia|]. split; [cbn; lia|done]. }
  split; [apply Forall_reverse, dec_digits; lia|]. rewrite length_reverse. split; [apply digits_loop_length; lia|].
  intros E%(f_equal length). rewrite length_reverse in E. cbn [digits_loop] in E. by rewrite (proj2 (Z.eqb_neq num 0) Hnz) in E.
Qed.
Lemma atoi_numeral num : 0 <= num < 2 ^ 31 -> atoi (numeral num 10 0) = num.
Proof.
  intros Hn. destruct (numeral_dec num Hn) as (Hd & _ & Hne). unfold atoi. destruct (numeral num 10 0) as [|c l] eqn:E; [done|]. apply Forall_cons_iff in Hd as [Hc Hl].
  rewrite skip_fmt by (unfold is_space; rewrite !(proj2 (Z.eqb_neq c _)) by lia; done). rewrite !(proj2 (Z.eqb_neq c _)) by lia. rewrite <- E. unfold numeral, number_digits.
  change (Z.land 0 SMALL =? 0) with true. cbv iota. destruct (Z.eqb_spec num 0) as [->|Hnz]; [done|].
  rewrite <- (app_nil_r (reverse _)), atoi_digits_run by lia. done.
Qed.
Lemma pid_string_run ds tl j : Forall (fun c => 48 <= c <= 57) ds -> (j + length ds <= 15)%nat -> pid_string j (ds ++ slash_char :: tl) = (ds, slash_char :: tl).
Proof.
  intros Hd. revert j. induction Hd as [|c ds Hc _ IH]; intros j Hj; cbn [app pid_string]; [done|]. cbn [length] in Hj.
  rewrite (proj2 (Z.eqb_neq c slash_char)) by (unfold slash_char; lia). rewrite (proj2 (Nat.leb_gt 15 j)) by lia. cbn [orb]. by rewrite IH by lia.
Qed.
Lemma info_expands pcb : exists text, expand (S (length info_fmt)) info_fmt (info_args pcb) = Some text.
Proof. eexists. cbv -[numeral u32 u64 i32 i64 app Z.ltb Z.opp]. reflexivity. Qed.
(** Reading "/<pid>/info" of a process gives the start of its description. *)
Lemma ProcfsReadFile_info get pid pcb max text : 0 <= pid < 2 ^ 31 -> get pid = Some pcb -> 0 <= max < 2 ^ 31 ->
  expand (S (length info_fmt)) info_fmt (info_args pcb) = Some text ->
  let t := take (Z.to_nat max) (take 1023 (u8 <$> text)) in
  ProcfsReadFile get ([slash_char] ++ numeral pid 10 0 ++ slash_char :: info_name) max = Some (Z.of_nat (length t), t).
Proof.
  intros Hp Hg Hm E t. destruct (numeral_dec pid Hp) as (Hd & Hl & _). unfold ProcfsReadFile. cbn [app]. change (negb (slash_char =? slash_char)) with false. cbv iota.
  rewrite (pid_string_run _ _ 0 Hd) by lia. rewrite (atoi_numeral pid Hp), u32_small, Hg, bool_decide_true by (done || lia). unfold snprintf.
  rewrite (vsnprintf_run (replicate 1024 0) 1024 info_fmt _ _ ltac:(lia) ltac:(rewrite length_replicate; lia) E), option_bind_Some. cbn [fst snd default].
  change (Z.to_nat (1024 - 1)) with 1023%nat. set (u := take 1023 (u8 <$> text)) in *. assert (Hu : (length u <= 1023)%nat) by (unfold u; rewrite length_take; lia).
  rewrite (u32_small (Z.of_nat (length u))) by lia.
  assert (El : (if max <? Z.of_nat (length u) then i32 max else Z.of_nat (length u)) = Z.of_nat (length t)).
  { unfold t. rewrite length_take. unfold i32. rewrite u32_small, (proj2 (Z.ltb_lt max (2 ^ 31))) by lia. destruct (Z.ltb_spec max (Z.of_nat (length u))); lia. }
  rewrite El. assert (Ht : (length t <= length u)%nat) by (unfold t; rewrite length_take; lia). rewrite u64_small by lia. unfold mem_read. cbn [id]. rewrite length_app.
  rewrite (proj2 (Z.leb_le 0 0)), (proj2 (Z.leb_le _ _)) by lia. cbn [andb]. rewrite option_bind_Some. change (Z.to_nat 0) with 0%nat. rewrite drop_0, Nat2Z.id. do 2 f_equal.
  rewrite take_app_le by lia. unfold t. rewrite length_take. destruct (decide (Z.to_nat max <= length u)%nat); [by rewrite Nat.min_l by lia|]. by rewrite Nat.min_r, !take_ge by lia.
Qed.
