(* ===== verification/Iso9660.v ===== *)
(** ISO 9660 compact discs ([src/fs/Iso9660.c]): finding the drive, looking names up in directory
    records, reading a file, listing a directory, and copying files and trees into the virtual
    file system.  The drive is the class [CdRom]; the heap and the file systems are those of the
    layer ([vfs]).  A block is the list of its bytes and an access past its end is a fault. *)
From Stdlib Require Import ZArith Lia.
From stdpp Require Import base tactics list numbers option.
From S2P Require Import Prelude Vfrfs StringOps Format Vfs VfsRange.

Definition ISO9660_SECTOR_SIZE : Z := 2048.
(** [IdeReadLBA2048 drive lba buffer]: the result (0 is success) and the buffer's new contents. *)
Class CdRom (D : Type) := IdeReadLBA2048 : Z -> Z -> STM D (Z * bytes).

(** ** Data on the disc *)
Definition CD001 : bytes := [67; 68; 48; 48; 49].
Definition is_pvd (b : bytes) : bool := (byte_at 0 b =? 1) && bool_decide (take 5 (drop 1 b) = CD001).
(** [Iso9660Pvd.root_directory_record] and what follows it in the block. *)
Definition root_directory_record (pvd : bytes) : bytes := drop 156 pvd.
(** The fields of an [Iso9660DirEntry] at offset [off] of a block. *)
Definition length_at (off : nat) (b : bytes) : option Z := load_le 1 off b.
Definition extent_loc_le (e : bytes) : option Z := load_le 4 2 e.
Definition data_length_le (e : bytes) : option Z := load_le 4 10 e.
Definition file_flags (e : bytes) : option Z := load_le 1 25 e.
Definition file_id_length (off : nat) (b : bytes) : option Z := load_le 1 (off + 32) b.
Definition file_id (off : nat) (n : Z) (b : bytes) : option bytes := mem_read b (Z.of_nat off + 33) n.

(** ** Names *)
Definition toupper_iso (c : Z) : Z := if (97 <=? c) && (c <=? 122) then c - 32 else c.
Fixpoint skip_spaces (s : bytes) : bytes := match s with c :: s' => if c =? 32 then skip_spaces s' else s | [] => [] end.
Definition iso_char (s : bytes) : Z := match s with [] => 0 | c :: _ => toupper_iso (if c =? 59 then 0 else c) end.
Fixpoint names_loop (a b : bytes) : bool :=
  let ca := iso_char a in
  let cb := iso_char b in
  if negb (ca =? cb) then false else
  if ca =? 0 then true else
  match a, b with _ :: a', _ :: b' => names_loop a' b' | _, _ => false end.
Definition IsoNameEquals (a b : bytes) : bool := names_loop (skip_spaces a) (skip_spaces b).
(** The name in a record: the identifier's bytes, terminated, without the version. *)
Definition entry_name (id : bytes) : bytes := before 59 (c_string id).

Record iso (D X : Type) := mk_iso { cdrom_drive : Z; cdrom : D; system : vfs X }.
#[global] Arguments mk_iso {D X}.
#[global] Arguments cdrom_drive {D X}.
#[global] Arguments cdrom {D X}.
#[global] Arguments system {D X}.
Section iso.
Context {D X : Type} `{!CdRom D} `{!Drivers X} (realloc : bytes -> Z -> option (option bytes)) (pid : Z).
Notation M := (STM (iso D X)).
Definition on_cd {A} (op : STM D A) : M A := fun s => r ← op (cdrom s); Some (r.1, mk_iso (cdrom_drive s) r.2 (system s)).
Definition on_vfs {A} (op : STM (vfs X) A) : M A := fun s => r ← op (system s); Some (r.1, mk_iso (cdrom_drive s) (cdrom s) r.2).
Definition set_drive (d : Z) : M unit := fun s => Some (tt, mk_iso d (cdrom s) (system s)).
Definition iso_alloc (n : Z) : M (option bytes) := on_vfs (KernelMemoryAlloc n).

(** ** Sectors *)
Fixpoint detect_loop (n : nat) (i : Z) : M unit :=
  match n with
  | O => mret tt
  | S n' =>
      r ← on_cd (IdeReadLBA2048 i 16);
      if (r.1 =? 0) && is_pvd r.2 then set_drive i else detect_loop n' (i + 1)
  end.
(** None is -1. *)
Definition ReadSector (lba : Z) : M (option bytes) :=
  d ← asks cdrom_drive;
  (if d =? 0xFF then detect_loop 4 0 else mret tt);;
  d ← asks cdrom_drive;
  if d =? 0xFF then mret None else
  r ← on_cd (IdeReadLBA2048 d lba);
  mret (if r.1 =? 0 then Some r.2 else None).

(** ** Looking a name up *)
(** The records of one sector: None goes on with the next sector, [Some r] returns [r]. *)
Fixpoint scan_sector (fuel : nat) (sec : bytes) (off : nat) (filename : bytes) : M (option (option bytes)) :=
  match fuel with
  | O => fault
  | S fuel' =>
      if ISO9660_SECTOR_SIZE <=? Z.of_nat off then mret None else
      len ← lift (length_at off sec);
      if len =? 0 then mret None else
      n ← lift (file_id_length off sec);
      id ← lift (file_id off (if 256 <=? n then 255 else n) sec);
      if IsoNameEquals (entry_name id) filename then
        b ← iso_alloc len;
        match b with
        | None => mret (Some None)
        | Some _ => e ← lift (mem_read sec (Z.of_nat off) len); mret (Some (Some e))
        end
      else scan_sector fuel' sec (off + Z.to_nat len) filename
  end.
Definition sector_fuel : nat := 2049.
Fixpoint find_in_dir (fuel : nat) (dir_lba dir_size bytes_read : Z) (filename : bytes) : M (option bytes) :=
  match fuel with
  | O => fault
  | S fuel' =>
      if negb (bytes_read <? dir_size) then mret None else
      r ← ReadSector (u32 (dir_lba + bytes_read / ISO9660_SECTOR_SIZE));
      match r with
      | None => mret None
      | Some sec =>
          e ← scan_sector sector_fuel sec 0 filename;
          match e with
          | Some e => mret e
          | None => find_in_dir fuel' dir_lba dir_size (u32 (bytes_read + ISO9660_SECTOR_SIZE)) filename
          end
      end
  end.
Definition extent_fuel (size : Z) : nat := S (S (Z.to_nat (size / ISO9660_SECTOR_SIZE))).
Definition FindFileInDir (dir_lba dir_size : Z) (filename : bytes) : M (option bytes) :=
  b ← iso_alloc ISO9660_SECTOR_SIZE;
  match b with
  | None => mret None
  | Some _ => find_in_dir (extent_fuel dir_size) dir_lba dir_size 0 filename
  end.
(** The rest of a path from the record [entry]; None: a part is not found. *)
Fixpoint walk_path (fuel : nat) (part entry : bytes) : M (option bytes) :=
  match fuel with
  | O => fault
  | S fuel' =>
      match part with
      | [] => mret (Some entry)
      | c :: part' =>
          if c =? slash then walk_path fuel' part' entry else
          let name := before slash part in
          lba ← lift (extent_loc_le entry);
          size ← lift (data_length_le entry);
          found ← FindFileInDir lba size name;
          match found with
          | None => mret None
          | Some e =>
              match drop (length name) part with
              | [] => mret (Some e)
              | _ :: rest => walk_path fuel' rest e
              end
          end
      end
  end.

(** ** Reading a file *)
Fixpoint read_extent (fuel : nat) (file_lba to_read bytes_read : Z) (acc : bytes) : M (Z * bytes) :=
  match fuel with
  | O => fault
  | S fuel' =>
      if negb (bytes_read <? to_read) then mret (i32 bytes_read, acc) else
      r ← ReadSector (u32 (file_lba + bytes_read / ISO9660_SECTOR_SIZE));
      match r with
      | None => mret (-1, acc)
      | Some sec =>
          let offset := bytes_read mod ISO9660_SECTOR_SIZE in
          let remaining_in_sector := ISO9660_SECTOR_SIZE - offset in
          let remaining_to_read := u32 (to_read - bytes_read) in
          let chunk_size := if remaining_in_sector <? remaining_to_read then remaining_in_sector else remaining_to_read in
          d ← lift (mem_read sec offset chunk_size);
          read_extent fuel' file_lba to_read (u32 (bytes_read + chunk_size)) (acc ++ d)
      end
  end.
(** The primary volume descriptor of sector 16, in a block of its own. *)
Definition read_pvd : M (option bytes) :=
  b ← iso_alloc ISO9660_SECTOR_SIZE;
  match b with
  | None => mret None
  | Some _ =>
      r ← ReadSector 16;
      match r with
      | None => mret None
      | Some cand =>
          if negb (is_pvd cand) then mret None else
          p ← iso_alloc ISO9660_SECTOR_SIZE;
          match p with
          | None => mret None
          | Some _ => pvd ← lift (mem_read cand 0 ISO9660_SECTOR_SIZE); mret (Some pvd)
          end
      end
  end.
(** The result, and the bytes stored in the caller's buffer; [has_buffer]: it is not NULL. *)
Definition Iso9660Read (path : bytes) (has_buffer : bool) (max_size : Z) : M (Z * bytes) :=
  p ← read_pvd;
  match p with
  | None => mret (-1, [])
  | Some pvd =>
      c ← iso_alloc (Z.of_nat (Nat.min (length path) 256) + 1);
      match c with
      | None => mret (-1, [])
      | Some _ =>
          let root_entry := root_directory_record pvd in
          if bool_decide (path = [slash]) then mret (0, []) else
          r ← walk_path (S (length path)) (str_copy path 256) root_entry;
          match r with
          | None => mret (-1, [])
          | Some entry =>
              flags ← lift (file_flags entry);
              if negb (Z.land flags 2 =? 0) then mret (-1, []) else
              file_size ← lift (data_length_le entry);
              file_lba ← lift (extent_loc_le entry);
              if negb has_buffer || (max_size =? 0) then mret (i32 file_size, []) else
              let to_read := if file_size <? max_size then file_size else max_size in
              t ← iso_alloc ISO9660_SECTOR_SIZE;
              match t with
              | None => mret (-1, [])
              | Some _ => read_extent (extent_fuel to_read) file_lba to_read 0 []
              end
          end
      end
  end.

(** ** Listing a directory *)
(** The search for the descriptor in sectors 16 to 31. *)
Fixpoint pvd_loop (n : nat) (lba : Z) : M (option bytes) :=
  match n with
  | O => mret None
  | S n' =>
      r ← ReadSector lba;
      match r with
      | None => mret None
      | Some sec =>
          if is_pvd sec then
            p ← iso_alloc ISO9660_SECTOR_SIZE;
            match p with
            | None => mret None
            | Some _ => pvd ← lift (mem_read sec 0 ISO9660_SECTOR_SIZE); mret (Some pvd)
            end
          else pvd_loop n' (lba + 1)
      end
  end.
(** [.] and [..] *)
Definition is_dot_entry (off : nat) (sec : bytes) : M bool :=
  n ← lift (file_id_length off sec);
  if negb (n =? 1) then mret false else
  c ← lift (load_le 1 (off + 33) sec);
  mret ((c =? 0) || (c =? 1)).
(** The array [entries] has 65 places. *)
Definition push_entry (e : bytes) (entries : list bytes) : M (list bytes) :=
  if (65 <=? length entries)%nat then fault else mret (entries ++ [e]).
Fixpoint collect_sector (fuel : nat) (sec : bytes) (off : nat) (entries : list bytes) : M (list bytes) :=
  match fuel with
  | O => fault
  | S fuel' =>
      if ISO9660_SECTOR_SIZE <=? Z.of_nat off then mret entries else
      len ← lift (length_at off sec);
      if len =? 0 then mret entries else
      dot ← is_dot_entry off sec;
      if dot : bool then collect_sector fuel' sec (off + Z.to_nat len) entries else
      b ← iso_alloc len;
      entries ← (match b with
                 | None => mret entries
                 | Some _ => e ← lift (mem_read sec (Z.of_nat off) len); push_entry e entries
                 end);
      collect_sector fuel' sec (off + Z.to_nat len) entries
  end.
Fixpoint collect_dir (fuel : nat) (dir_lba dir_size bytes_read : Z) (entries : list bytes) : M (list bytes) :=
  match fuel with
  | O => fault
  | S fuel' =>
      if negb ((bytes_read <? dir_size) && (length entries <? 64)%nat) then mret entries else
      r ← ReadSector (u32 (dir_lba + bytes_read / ISO9660_SECTOR_SIZE));
      match r with
      | None => mret entries
      | Some sec =>
          entries ← collect_sector sector_fuel sec 0 entries;
          collect_dir fuel' dir_lba dir_size (u32 (bytes_read + ISO9660_SECTOR_SIZE)) entries
      end
  end.
Definition list_pvd : M (option bytes) :=
  b ← iso_alloc ISO9660_SECTOR_SIZE;
  match b with None => mret None | Some _ => pvd_loop 16 16 end.
Definition Iso9660ListDir (path : bytes) : M (option (list bytes)) :=
  p ← list_pvd;
  match p with
  | None => mret None
  | Some pvd =>
      c ← iso_alloc (Z.of_nat (Nat.min (length path) 256) + 1);
      match c with
      | None => mret None
      | Some _ =>
          let root_entry := root_directory_record pvd in
          r ← (if bool_decide (path = [slash]) then mret (Some root_entry)
               else walk_path (S (length path)) (str_copy path 256) root_entry);
          match r with
          | None => mret None
          | Some entry =>
              dir_lba ← lift (extent_loc_le entry);
              dir_size ← lift (data_length_le entry);
              a ← iso_alloc (8 * 65);
              match a with
              | None => mret None
              | Some _ =>
                  d ← iso_alloc ISO9660_SECTOR_SIZE;
                  match d with
                  | None => mret None
                  | Some _ => entries ← collect_dir (extent_fuel dir_size) dir_lba dir_size 0 []; mret (Some entries)
                  end
              end
          end
      end
  end.

(** ** Copying into the virtual file system *)
Definition Iso9660CopyFile (iso_path vfs_path : bytes) : M Z :=
  st ← Iso9660Read iso_path false 0;
  let file_size := st.1 in
  if file_size <? 0 then mret (-1) else
  if file_size =? 0 then on_vfs (VfsCreateFile pid vfs_path) else
  b ← iso_alloc file_size;
  match b with
  | None => mret (-1)
  | Some buffer =>
      r ← Iso9660Read iso_path true (u32 file_size);
      buffer ← lift (mem_write buffer 0 r.2);
      if r.1 <=? 0 then mret (-1) else
      bytes_written ← on_vfs (VfsWriteFile realloc pid vfs_path buffer (u32 r.1));
      mret (if bytes_written <=? 0 then -1 else 0)
  end.
(** ["%s/%s"] *)
Definition join_fmt : bytes := [37; 115; 47; 37; 115].
Definition join_path (dir name : bytes) : option bytes :=
  r ← snprintf (Some (replicate 256 0)) 256 join_fmt [VStr (Some dir); VStr (Some name)];
  Some (c_string (default [] r.2)).
(** The loop over the entries; the array ends in NULL when it holds fewer than 65. *)
Fixpoint copy_entries (copy : bytes -> bytes -> M Z) (entries : list bytes) (iso_path vfs_path : bytes) : M unit :=
  match entries with
  | [] => mret tt
  | e :: entries' =>
      n ← lift (file_id_length 0 e);
      id ← lift (file_id 0 n e);
      let filename := entry_name id in
      vfs_filepath ← lift (join_path vfs_path filename);
      iso_filepath ← lift (join_path iso_path filename);
      flags ← lift (file_flags e);
      _ ← (if negb (Z.land flags 2 =? 0) then copy iso_filepath vfs_filepath else Iso9660CopyFile iso_filepath vfs_filepath);
      copy_entries copy entries' iso_path vfs_path
  end.
(** [fuel] bounds the depth of the recursion. *)
Fixpoint Iso9660Copy (fuel : nat) (iso_path vfs_path : bytes) : M Z :=
  match fuel with
  | O => fault
  | S fuel' =>
      entries ← Iso9660ListDir iso_path;
      match entries with
      | None => Iso9660CopyFile iso_path vfs_path
      | Some entries =>
          _ ← on_vfs (VfsCreateDir vfs_path);
          copy_entries (Iso9660Copy fuel') entries iso_path vfs_path;;
          if (65 <=? length entries)%nat then fault else mret 0
      end
  end.
End iso.
