(* ===== verification/IsoTree.v ===== *)
(** ISO 9660 discs: a reference (a tree of files and directories, and what it means that a disc
    holds it), and the proof that reading, listing and copying a path agree with it. *)
From Stdlib Require Import ZArith Lia.
From stdpp Require Import base tactics list numbers option sets.
From S2P Require Import Prelude Vfrfs VfrfsOps StringOps Format Vfs VfsRange VfsStore Iso9660.

(** ** Names *)
(** What the comparison of names keeps of a name: capitals, up to the version or the end. *)
Definition name_key (s : bytes) : bytes := map toupper_iso (before 59 (c_string s)).
Definition canonical (s : bytes) : bytes := name_key (skip_spaces s).
Lemma name_key_step s : name_key s = if iso_char s =? 0 then [] else iso_char s :: name_key (tail s).
Proof.
  destruct s as [|c s]; [done|]. unfold name_key, iso_char. cbn [c_string tail]. destruct (Z.eqb_spec c 0) as [->|H0]; [done|].
  cbn [before]. destruct (Z.eqb_spec c 59) as [->|H1]; [done|]. cbn [map]. rewrite (proj2 (Z.eqb_neq (toupper_iso c) 0)); [done|].
  unfold toupper_iso. case_if E; lia.
Qed.
Lemma iso_char_nil s : iso_char s <> 0 -> exists c s', s = c :: s'.
Proof. destruct s; [done|eauto]. Qed.
Lemma names_loop_ok a b : names_loop a b = bool_decide (name_key a = name_key b).
Proof.
  revert b. induction a as [|x a IH]; intros b; rewrite (name_key_step b).
  - cbn [names_loop]. change (iso_char []) with 0. rewrite (Z.eqb_sym 0). by destruct (iso_char b =? 0).
  - rewrite (name_key_step (x :: a)). cbn [names_loop tail]. destruct (Z.eqb_spec (iso_char (x :: a)) (iso_char b)) as [E|E]; cbn [negb].
    + rewrite <- E. destruct (Z.eqb_spec (iso_char (x :: a)) 0) as [_|H0]; [done|]. rewrite E in H0.
      destruct (iso_char_nil b H0) as (y & b' & ->). rewrite IH. apply bool_decide_ext. rewrite E. split; [by intros ->|by intros [= ?]].
    + symmetry. apply bool_decide_eq_false. destruct (Z.eqb_spec (iso_char (x :: a)) 0), (Z.eqb_spec (iso_char b) 0); congruence.
Qed.
Lemma IsoNameEquals_ok a b : IsoNameEquals a b = bool_decide (canonical a = canonical b).
Proof. apply names_loop_ok. Qed.

(** ** Records of a directory *)
Definition rec_id (e : bytes) : bytes := take (Z.to_nat (byte_at 32 e)) (drop 33 e).
Definition rec_key (e : bytes) : bytes := canonical (entry_name (rec_id e)).
Definition rec_lba (e : bytes) : Z := default 0 (extent_loc_le e).
Definition rec_size (e : bytes) : Z := default 0 (data_length_le e).
Definition rec_dir (e : bytes) : bool := negb (Z.land (default 0 (file_flags e)) 2 =? 0).
(** The records of the directory itself and of its parent. *)
Definition dot_rec (e : bytes) : bool := (byte_at 32 e =? 1) && ((byte_at 33 e =? 0) || (byte_at 33 e =? 1)).
(** A record says its own length, and its identifier is inside it. *)
Definition wf_rec (e : bytes) : bool :=
  (byte_at 0 e =? Z.of_nat (length e)) && (34 <=? length e)%nat && (0 <=? byte_at 32 e) && (byte_at 32 e <=? 255) && (33 + byte_at 32 e <=? Z.of_nat (length e)).
Lemma wf_rec_spec e : wf_rec e = true -> byte_at 0 e = Z.of_nat (length e) /\ (34 <= length e)%nat /\ 0 <= byte_at 32 e <= 255 /\ 33 + byte_at 32 e <= Z.of_nat (length e).
Proof. unfold wf_rec. rewrite !andb_true_iff, Z.eqb_eq, Nat.leb_le, !Z.leb_le. tauto. Qed.

(** Fields of a record that lies in a sector behind [pre]. *)
Lemma load_byte off (b : bytes) : (off < length b)%nat -> load_le 1 off b = Some (byte_at off b).
Proof. intros H. cbn [load_le]. unfold byte_at. destruct (nth_lookup_or_length b off 0) as [E|?]; [|lia]. rewrite E, option_bind_Some. cbn. f_equal. lia. Qed.
Lemma byte_at_mid pre e post k : (k < length e)%nat -> byte_at (length pre + k) (pre ++ e ++ post) = byte_at k e.
Proof. intros H. unfold byte_at. rewrite app_nth2, app_nth1 by lia. f_equal. lia. Qed.
Lemma load_mid pre e post k : (k < length e)%nat -> load_le 1 (length pre + k) (pre ++ e ++ post) = Some (byte_at k e).
Proof. intros H. rewrite load_byte by (rewrite !length_app; lia). by rewrite byte_at_mid. Qed.
Lemma mem_read_mid pre (e post : bytes) k n : 0 <= k -> 0 <= n -> k + n <= Z.of_nat (length e) ->
  mem_read (pre ++ e ++ post) (Z.of_nat (length pre) + k) n = Some (take (Z.to_nat n) (drop (Z.to_nat k) e)).
Proof.
  intros Hk Hn H. rewrite mem_read_ok by (rewrite ?length_app; lia). f_equal.
  rewrite Z2Nat.inj_add, Nat2Z.id by lia. rewrite <- drop_drop, drop_app_length. rewrite drop_app_le, take_app_le by (rewrite ?length_drop; lia). done.
Qed.

(** ** A drive with a disc *)
Notation sector_size := 2048%nat.
(** One drive holds a disc of [disc_sectors] sectors of which the 17th is a volume descriptor;
    reads of it succeed, and no drive before it shows a descriptor. *)
Class Disc (D : Type) `{!CdRom D} := {
  disc_drive : Z;
  disc_sectors : Z;
  disc_image : Z -> bytes;
  disc_ok : D -> Prop;
  disc_drive_range : 0 <= disc_drive < 4;
  disc_sectors_range : 16 < disc_sectors <= 2 ^ 32;
  disc_pvd : is_pvd (disc_image 16) = true;
  disc_len lba : 0 <= lba < disc_sectors -> length (disc_image lba) = sector_size;
  disc_read x lba : disc_ok x -> 0 <= lba < disc_sectors -> exists x', IdeReadLBA2048 disc_drive lba x = Some ((0, disc_image lba), x') /\ disc_ok x';
  disc_others x i : disc_ok x -> 0 <= i < disc_drive -> exists r x', IdeReadLBA2048 i 16 x = Some (r, x') /\ disc_ok x' /\ (r.1 <> 0 \/ is_pvd r.2 = false)
}.

Section disc.
Context {D X : Type} `{!CdRom D} `{!Disc D} `{!Drivers X}.
Notation M := (STM (iso D X)).
(** ** Runs that may fail for want of memory only *)
Section runs.
Context (s0 : vfs X).
(** The heap can refuse a block. *)
Definition low_memory : Prop := None ∈ heap s0.
Definition good (s : iso D X) : Prop :=
  disc_ok (cdrom s) /\ (cdrom_drive s = 0xFF \/ cdrom_drive s = disc_drive) /\
  exists h, system s = set_heap h s0 /\ (None ∈ h -> low_memory).
Definition yields {A} (m : M A) (Q : A -> Prop) : Prop := forall s, good s -> exists a s', m s = Some (a, s') /\ good s' /\ Q a.
Lemma yields_ret {A} (a : A) (Q : A -> Prop) : Q a -> yields (mret a) Q.
Proof. intros H s Hs. by exists a, s. Qed.
Lemma yields_bind {A B} (m : M A) (f : A -> M B) Q R : yields m Q -> (forall a, Q a -> yields (f a) R) -> yields (m ≫= f) R.
Proof. intros Hm Hf s Hs. destruct (Hm s Hs) as (a & s' & E & Hs' & Ha). rewrite (run_bind _ _ _ _ _ E). by apply Hf. Qed.
Lemma yields_lift {A B} (o : option A) (a : A) (f : A -> M B) R : o = Some a -> yields (f a) R -> yields (lift o ≫= f) R.
Proof. intros -> H. apply (yields_bind _ _ (eq a)); [intros s Hs; by exists a, s|by intros ? <-]. Qed.
Lemma yields_impl {A} (m : M A) (Q R : A -> Prop) : yields m Q -> (forall a, Q a -> R a) -> yields m R.
Proof. intros Hm H s Hs. destruct (Hm s Hs) as (a & s' & E & Hs' & Ha). exists a, s'. auto. Qed.
Lemma yields_alloc n : 0 < n -> yields (iso_alloc n) (fun o => o = None /\ low_memory \/ exists b, o = Some b /\ Z.of_nat (length b) = n).
Proof.
  intros Hn s (Hd & Hdr & h & Hh & Hf). destruct (kalloc (X := X) (system s) n Hn) as (h' & Hh' & [[E HN]|E]); unfold iso_alloc, on_vfs; rewrite E, option_bind_Some; cbn.
  - eexists None, _. split; [done|]. rewrite Hh in HN, Hh'. split; [|left; auto]. split_and!; [done|done|]. exists h'. rewrite Hh. split; [done|auto].
  - eexists (Some _), _. split; [done|]. rewrite Hh in Hh'. split; [|right; eexists; split; [done|apply block_length; lia]]. split_and!; [done|done|]. exists h'. rewrite Hh. split; [done|auto].
Qed.
(** A block, or the whole operation gives up with [a]. *)
Lemma yields_block {A} n (f : option bytes -> M A) (R : A -> Prop) : 0 < n ->
  (low_memory -> yields (f None) R) -> (forall b, yields (f (Some b)) R) -> yields (iso_alloc n ≫= f) R.
Proof. intros Hn HN HS. apply (yields_bind _ _ _ _ (yields_alloc n Hn)). intros o [[-> Hl]|(b & -> & _)]; auto. Qed.

(** ** Sectors *)
Lemma detect_run n : forall i s, good s -> 0 <= i <= disc_drive -> disc_drive < i + Z.of_nat n ->
  exists s', detect_loop n i s = Some (tt, s') /\ good s' /\ cdrom_drive s' = disc_drive.
Proof.
  pose proof disc_sectors_range as HS. induction n as [|n IH]; intros i s (Hd & Hdr & Hh) Hi Hn; [lia|]. cbn [detect_loop].
  destruct (decide (i = disc_drive)) as [->|Hne].
  - destruct (disc_read (cdrom s) 16 Hd ltac:(lia)) as (x' & E & Hd'). unfold on_cd at 1. unfold mbind, STM_bind. rewrite E, option_bind_Some. cbn [fst snd].
    rewrite disc_pvd, Z.eqb_refl. eexists. split; [done|]. split; [|done]. split_and!; [done|by right|done].
  - destruct (disc_others (cdrom s) i Hd ltac:(lia)) as (r & x' & E & Hd' & Hr). unfold on_cd at 1. unfold mbind, STM_bind. rewrite E, option_bind_Some. cbn [fst snd].
    replace ((r.1 =? 0) && is_pvd r.2) with false by (destruct Hr as [Hr| ->]; [by rewrite (proj2 (Z.eqb_neq _ _) Hr)|by rewrite andb_false_r]).
    apply IH; [|lia|lia]. split_and!; done.
Qed.
Lemma ReadSector_ok lba : 0 <= lba < disc_sectors -> yields (ReadSector lba) (fun o => o = Some (disc_image lba)).
Proof.
  intros Hl s Hs. pose proof disc_drive_range as HD. unfold ReadSector. rewrite (run_bind _ _ _ _ _ (asks_run _ _)).
  assert (exists s', (if cdrom_drive s =? 0xFF then detect_loop 4 0 else mret tt) s = Some (tt, s') /\ good s' /\ cdrom_drive s' = disc_drive) as (s' & E & Hs' & Hd').
  { destruct (Z.eqb_spec (cdrom_drive s) 0xFF) as [E|E]; [apply detect_run; [done|lia|lia]|].
    exists s. split; [done|]. split; [done|]. destruct Hs as (_ & [?|?] & _); done. }
  rewrite (run_bind _ _ _ _ _ E), (run_bind _ _ _ _ _ (asks_run _ _)).
  rewrite Hd', (proj2 (Z.eqb_neq _ _)) by lia. destruct Hs' as (Hc & _ & Hh). destruct (disc_read _ _ Hc Hl) as (x' & E' & Hx).
  eexists _, _. unfold on_cd, mbind at 1, STM_bind. rewrite E', option_bind_Some. split; [done|]. split; [|done]. split_and!; [done|by right|done].
Qed.
Lemma yields_sector {A} lba (f : option bytes -> M A) R : 0 <= lba < disc_sectors -> yields (f (Some (disc_image lba))) R -> yields (ReadSector lba ≫= f) R.
Proof. intros Hl H. apply (yields_bind _ _ _ _ (ReadSector_ok lba Hl)). by intros ? ->. Qed.

(** ** Looking a name up in a directory *)
(** The records [es] fill the start of a sector, and then comes its end or a zero. *)
Definition sector_holds (sec : bytes) (es : list bytes) : Prop :=
  Forall (fun e => wf_rec e = true) es /\ exists pad, sec = concat es ++ pad /\ (pad = [] \/ hd_error pad = Some 0).
Definition dir_at (lba size : Z) (groups : list (list bytes)) : Prop :=
  size = 2048 * Z.of_nat (length groups) /\ size < 2 ^ 32 /\ 0 <= lba /\ lba + Z.of_nat (length groups) <= disc_sectors /\
  forall i es, groups !! i = Some es -> sector_holds (disc_image (lba + Z.of_nat i)) es.
(** The record that answers to a name. *)
Definition answers_to (filename : bytes) (e : bytes) : bool := bool_decide (rec_key e = canonical filename).
Definition finds (o : option bytes) (x : option (option bytes)) : Prop :=
  match o with Some e => x = Some (Some e) \/ x = Some None /\ low_memory | None => x = None end.
(** Facts about the record at an offset of a sector. *)
Lemma rec_fields pre e post : wf_rec e = true ->
  length_at (length pre) (pre ++ e ++ post) = Some (Z.of_nat (length e)) /\
  file_id_length (length pre) (pre ++ e ++ post) = Some (byte_at 32 e) /\
  file_id (length pre) (byte_at 32 e) (pre ++ e ++ post) = Some (rec_id e) /\
  mem_read (pre ++ e ++ post) (Z.of_nat (length pre)) (Z.of_nat (length e)) = Some e /\
  load_le 1 (length pre + 33) (pre ++ e ++ post) = Some (byte_at 33 e).
Proof.
  intros (H0 & Hl & Hn & Hi)%wf_rec_spec. unfold length_at, file_id_length, file_id. split_and!.
  - rewrite <- (Nat.add_0_r (length pre)), load_mid by lia. by rewrite H0.
  - by rewrite load_mid by lia.
  - rewrite mem_read_mid by lia. done.
  - rewrite <- (Z.add_0_r (Z.of_nat (length pre))), mem_read_mid, Nat2Z.id by lia. by rewrite drop_0, firstn_all.
  - by rewrite load_mid by lia.
Qed.
Lemma end_of_records pre (pad : bytes) (Q : bool -> Prop) : length (pre ++ pad) = sector_size -> pad = [] \/ hd_error pad = Some 0 ->
  (2048 <=? Z.of_nat (length pre)) = true \/ (2048 <=? Z.of_nat (length pre)) = false /\ length_at (length pre) (pre ++ pad) = Some 0.
Proof.
  intros Hl [->|Hp].
  - left. rewrite app_nil_r in Hl. rewrite Hl. done.
  - destruct pad as [|c pad]; [done|]. injection Hp as ->. right. rewrite length_app in Hl. cbn in Hl. split; [lia|].
    unfold length_at. rewrite <- (Nat.add_0_r (length pre)). apply (load_mid pre [0] pad 0). cbn. lia.
Qed.
Lemma scan_sector_ok filename es : forall fuel pre pad, Forall (fun e => wf_rec e = true) es -> length (pre ++ concat es ++ pad) = sector_size ->
  pad = [] \/ hd_error pad = Some 0 -> (length es < fuel)%nat ->
  yields (scan_sector fuel (pre ++ concat es ++ pad) (length pre) filename) (finds (List.find (answers_to filename) es)).
Proof.
  induction es as [|e es IH]; intros [|fuel] pre pad Hes Hlen Hpad Hf; cbn [length] in Hf; [lia..| |lia|]; cbn [scan_sector].
  - change (concat [] ++ pad) with pad in *. unfold ISO9660_SECTOR_SIZE.
    destruct (end_of_records pre pad (fun _ => True) Hlen Hpad) as [->|[-> E]]; [by apply yields_ret|]. apply (yields_lift _ _ _ _ E). by apply yields_ret.
  - apply Forall_cons_iff in Hes as [He Hes]. change (concat (e :: es)) with (e ++ concat es) in *. rewrite <- app_assoc in *.
    pose proof (wf_rec_spec _ He) as (_ & Hl & Hn & _). destruct (rec_fields pre e (concat es ++ pad) He) as (E1 & E2 & E3 & E4 & _).
    unfold ISO9660_SECTOR_SIZE. rewrite !length_app in Hlen. rewrite (proj2 (Z.leb_gt 2048 _)) by lia.
    apply (yields_lift _ _ _ _ E1). rewrite (proj2 (Z.eqb_neq _ 0)) by lia. apply (yields_lift _ _ _ _ E2).
    rewrite (proj2 (Z.leb_gt 256 _)) by lia. apply (yields_lift _ _ _ _ E3). rewrite IsoNameEquals_ok. cbn [List.find]. fold (rec_key e). fold (answers_to filename e).
    destruct (answers_to filename e).
    + apply yields_block; [lia| |]; [intros Hlow; apply yields_ret; by right|]. intros b. apply (yields_lift _ _ _ _ E4). apply yields_ret. by left.
    + rewrite Nat2Z.id. replace (length pre + length e)%nat with (length (pre ++ e)) by apply length_app. rewrite app_assoc.
      apply IH; [done|rewrite !length_app; lia|done|lia].
Qed.
Lemma records_fit es : Forall (fun e => wf_rec e = true) es -> (length es <= length (concat es))%nat.
Proof. induction 1 as [|e es He _ IH]; [done|]. cbn. rewrite length_app. apply wf_rec_spec in He. lia. Qed.
Lemma sector_find filename lba es : 0 <= lba < disc_sectors -> sector_holds (disc_image lba) es ->
  yields (scan_sector sector_fuel (disc_image lba) 0 filename) (finds (List.find (answers_to filename) es)).
Proof.
  intros Hl (Hes & pad & E & Hpad). pose proof (disc_len lba Hl) as Hlen. rewrite E in *. apply (scan_sector_ok filename es sector_fuel [] pad); try done.
  rewrite length_app in Hlen. pose proof (records_fit es Hes). unfold sector_fuel. lia.
Qed.
Lemma sector_index k : 2048 * k / ISO9660_SECTOR_SIZE = k.
Proof. unfold ISO9660_SECTOR_SIZE. rewrite Z.mul_comm. by apply Z.div_mul. Qed.
Lemma find_in_dir_ok filename lba size g1 g2 fuel : dir_at lba size (g1 ++ g2) -> (length g2 < fuel)%nat ->
  yields (find_in_dir fuel lba size (2048 * Z.of_nat (length g1)) filename)
    (fun o => match List.find (answers_to filename) (concat g2) with Some e => o = Some e \/ o = None /\ low_memory | None => o = None end).
Proof.
  revert g1 fuel. induction g2 as [|es g2 IH]; intros g1 [|fuel] HD Hf; cbn [length] in Hf; [lia..| |lia|]; cbn [find_in_dir];
    pose proof HD as (-> & H32 & H0 & Hlb & Hg); pose proof disc_sectors_range as HS; rewrite length_app in *; cbn [length] in *.
  - rewrite (proj2 (Z.ltb_ge _ _)) by lia. by apply yields_ret.
  - rewrite (proj2 (Z.ltb_lt _ _)) by lia. cbn [negb]. rewrite sector_index, (u32_small (lba + _)) by lia.
    apply yields_sector; [lia|]. specialize (Hg (length g1) es ltac:(by rewrite list_lookup_middle)).
    eapply yields_bind; [apply (sector_find filename); [lia|exact Hg]|]. intros x Hx. cbn [concat]. rewrite find_app. destruct (List.find (answers_to filename) es) as [e|].
    + destruct Hx as [->|[-> Hlow]]; apply yields_ret; [by left|by right].
    + cbn in Hx. subst x. unfold ISO9660_SECTOR_SIZE. rewrite u32_small by lia.
      replace (2048 * Z.of_nat (length g1) + 2048) with (2048 * Z.of_nat (length (g1 ++ [es]))) by (rewrite length_app; cbn; lia).
      apply IH; [by rewrite <- app_assoc|lia].
Qed.
Lemma FindFileInDir_ok lba size groups filename : dir_at lba size groups ->
  yields (FindFileInDir lba size filename)
    (fun o => match List.find (answers_to filename) (concat groups) with Some e => o = Some e \/ o = None /\ low_memory | None => o = None end).
Proof.
  intros HD. unfold FindFileInDir. apply yields_block; [done| |].
  - intros Hl. apply yields_ret. destruct (List.find _ _); [by right|done].
  - intros _. apply (find_in_dir_ok filename lba size [] groups); [done|]. destruct HD as (-> & _). unfold extent_fuel.
    rewrite sector_index. lia.
Qed.

(** ** The tree on a disc *)
Definition content_at (lba : Z) (c : bytes) : Prop :=
  0 <= lba /\ Z.of_nat (length c) < 2 ^ 31 /\ forall k, 2048 * k < Z.of_nat (length c) -> 0 <= k ->
    lba + k < disc_sectors /\ take (length (drop (Z.to_nat (2048 * k)) c)) (disc_image (lba + k)) = take sector_size (drop (Z.to_nat (2048 * k)) c).
Inductive iso_tree := IsoFile (c : bytes) | IsoDir (l : list (bytes * iso_tree)).
(** The record [e] describes the tree.  The names of a directory are those of its records, without
    the two for itself and its parent. *)
Inductive disc_holds : iso_tree -> bytes -> Prop :=
| stored_file c e : (34 <= length e)%nat -> rec_dir e = false -> rec_size e = Z.of_nat (length c) -> content_at (rec_lba e) c -> disc_holds (IsoFile c) e
| stored_dir l e groups : (34 <= length e)%nat -> rec_dir e = true -> dir_at (rec_lba e) (rec_size e) groups ->
    Forall2 (fun nt e' => nt.1 = rec_key e' /\ disc_holds nt.2 e') l (filter (fun e' => dot_rec e' = false) (concat groups)) -> disc_holds (IsoDir l) e.
(** The parts of a path, and what it leads to. *)
Fixpoint path_parts (acc p : bytes) : list bytes :=
  let emit := match acc with [] => [] | _ => [acc] end in
  match p with
  | [] => emit
  | c :: p' => if c =? slash then emit ++ path_parts [] p' else path_parts (acc ++ [c]) p'
  end.
Inductive path_outcome := Found (t : iso_tree) | Missing | InFile.
Fixpoint find_path (t : iso_tree) (parts : list bytes) : path_outcome :=
  match parts with
  | [] => Found t
  | p :: ps =>
      match t with
      | IsoFile _ => InFile
      | IsoDir l => match List.find (fun nt => bool_decide (nt.1 = canonical p)) l with Some nt => find_path nt.2 ps | None => Missing end
      end
  end.
(** A name that can stand in a directory. *)
Definition ordinary (p : bytes) : bool := bool_decide (canonical p <> []) && bool_decide (canonical p <> [1]).

Lemma before_split s acc : path_parts acc s = match acc ++ before slash s with [] => [] | n => [n] end ++
  match drop (length (before slash s)) s with [] => [] | _ :: r => path_parts [] r end.
Proof.
  revert acc. induction s as [|x s IH]; intros acc; cbn [path_parts before].
  - destruct acc; cbn; by rewrite ?app_nil_r.
  - case_if E; [destruct acc; cbn; by rewrite ?app_nil_r|]. rewrite IH. cbn [length drop]. by rewrite <- app_assoc.
Qed.
Lemma before_nil c s : c <> slash -> before slash (c :: s) = c :: before slash s.
Proof. intros H. cbn. by rewrite (proj2 (Z.eqb_neq _ _) H). Qed.
Lemma parts_cons c s : c <> slash -> path_parts [] (c :: s) =
  before slash (c :: s) :: match drop (length (before slash (c :: s))) (c :: s) with [] => [] | _ :: r => path_parts [] r end.
Proof. intros H. rewrite before_split. by rewrite before_nil. Qed.
Lemma stored_fields t e : disc_holds t e -> extent_loc_le e = Some (rec_lba e) /\ data_length_le e = Some (rec_size e) /\ exists f, file_flags e = Some f /\ rec_dir e = negb (Z.land f 2 =? 0).
Proof.
  intros H. assert (Hl : (34 <= length e)%nat) by (by destruct H). unfold rec_lba, rec_size, rec_dir, extent_loc_le, data_length_le, file_flags.
  assert (Hb : forall n k, (n + k <= 34)%nat -> exists z, load_le n k e = Some z).
  { induction n as [|n IH]; intros k Hk; [by eexists|]. cbn [load_le]. destruct (lookup_lt_is_Some_2 e k ltac:(lia)) as [b ->].
    destruct (IH (S k) ltac:(lia)) as [z Hz]. rewrite option_bind_Some, Hz. by eexists. }
  destruct (Hb 4%nat 2%nat ltac:(lia)) as [? ->], (Hb 4%nat 10%nat ltac:(lia)) as [? ->], (Hb 1%nat 25%nat ltac:(lia)) as [? ->]. eauto.
Qed.
(** The records for the directory and its parent answer to no ordinary name. *)
Lemma dot_not_named p e : ordinary p = true -> dot_rec e = true -> answers_to p e = false.
Proof.
  unfold ordinary, dot_rec, answers_to. rewrite !andb_true_iff, orb_true_iff, !bool_decide_eq_true, !Z.eqb_eq. intros [H1 H2] [Hn Hc].
  apply bool_decide_eq_false. unfold rec_key, rec_id. rewrite Hn. destruct (drop 33 e) as [|c r] eqn:Ed; [intros Hk; apply H1; by rewrite <- Hk|].
  assert (byte_at 33 e = c) as Hb. { unfold byte_at. rewrite <- (take_drop 33 e), Ed, app_nth2 by (rewrite length_take; lia).
    assert (length (drop 33 e) = S (length r)) as Hlen by (by rewrite Ed). rewrite length_drop in Hlen. rewrite length_take, Nat.min_l by lia. done. }
  rewrite Hb in Hc. destruct Hc as [-> | ->]; intros Hk; [apply H1|apply H2]; by rewrite <- Hk.
Qed.
Lemma find_filter {A} (f : A -> bool) (P : A -> Prop) `{!forall x, Decision (P x)} l : (forall x, ~ P x -> f x = false) -> List.find f (filter P l) = List.find f l.
Proof.
  intros Hn. induction l as [|x l IH]; [done|]. destruct (decide (P x)) as [Hx|Hx].
  - rewrite filter_cons_True by done. cbn. by rewrite IH.
  - rewrite filter_cons_False by done. cbn. by rewrite Hn.
Qed.
Lemma find_stored p l es : Forall2 (fun nt e' => nt.1 = rec_key e' /\ disc_holds nt.2 e') l es ->
  match List.find (fun nt => bool_decide (nt.1 = canonical p)) l with
  | Some nt => exists e, List.find (answers_to p) es = Some e /\ disc_holds nt.2 e
  | None => List.find (answers_to p) es = None
  end.
Proof.
  induction 1 as [|nt e l es [Hk Ht] _ IH]; [done|]. cbn [List.find]. unfold answers_to at 1 3. rewrite Hk.
  destruct (bool_decide (rec_key e = canonical p)); [eauto|done].
Qed.

(** ** Walking a path *)
Definition reaches (o : path_outcome) (x : option bytes) : Prop :=
  match o with
  | Found t => (exists e, x = Some e /\ disc_holds t e) \/ x = None /\ low_memory
  | Missing => x = None
  | InFile => True
  end.
Lemma walk_path_ok fuel : forall part e t, (length part < fuel)%nat -> disc_holds t e -> Forall (fun p => ordinary p = true) (path_parts [] part) ->
  find_path t (path_parts [] part) <> InFile -> yields (walk_path fuel part e) (reaches (find_path t (path_parts [] part))).
Proof.
  induction fuel as [|fuel IH]; intros part e t Hf Ht Ho HI; [lia|]. destruct part as [|c part]; cbn [walk_path].
  { apply yields_ret. left. eauto. }
  cbn [length] in Hf. destruct (Z.eqb_spec c slash) as [->|Hc].
  { change (path_parts [] (slash :: part)) with (path_parts [] part) in *. apply IH; [lia|done..]. }
  rewrite parts_cons in Ho, HI |- * by done. set (nm := before slash (c :: part)) in *.
  assert (Hn : nm = c :: before slash part) by (by apply before_nil). apply Forall_cons_iff in Ho as [Ho1 Ho].
  destruct (stored_fields t e Ht) as (E1 & E2 & _). apply (yields_lift _ _ _ _ E1). apply (yields_lift _ _ _ _ E2).
  cbn [find_path] in *. destruct t as [c'|l]; [done|]. inversion Ht as [|l' e' groups Hl Hd Hg HF]; subst l' e'.
  pose proof (find_stored nm l _ HF) as Hfs. rewrite (find_filter (answers_to nm)) in Hfs by (intros x Hx; apply dot_not_named; [done|by destruct (dot_rec x)]).
  eapply yields_bind; [apply (FindFileInDir_ok _ _ groups nm Hg)|]. intros o Hres.
  destruct (List.find (fun nt => bool_decide (nt.1 = canonical nm)) l) as [[k t']|].
  - destruct Hfs as (e' & Hfe & Ht'). rewrite Hfe in Hres. cbn [snd] in *. destruct Hres as [->|[-> Hlow]].
    + destruct (drop (length nm) (c :: part)) as [|x r] eqn:Ed; [apply yields_ret; left; eauto|].
      apply IH; [|done|done|done]. assert (Hlen : length (drop (length nm) (c :: part)) = S (length r)) by (by rewrite Ed).
      rewrite length_drop, Hn in Hlen. cbn [length] in Hlen. lia.
    + apply yields_ret. destruct (find_path t' _); [by right|done|done].
  - rewrite Hfs in Hres. subst o. by apply yields_ret.
Qed.

(** ** Reading *)
Lemma content_chunk lba c k n : content_at lba c -> 0 <= k -> 0 <= n <= 2048 -> 2048 * k + n <= Z.of_nat (length c) -> 2048 * k < Z.of_nat (length c) ->
  mem_read (disc_image (lba + k)) 0 n = Some (take (Z.to_nat n) (drop (Z.to_nat (2048 * k)) c)).
Proof.
  intros (H0 & _ & Hk) Hk0 Hn Hlen Hlt. destruct (Hk k Hlt Hk0) as [Hl He]. rewrite mem_read_ok by (rewrite ?disc_len by lia; lia).
  f_equal. rewrite drop_0. set (rem := drop (Z.to_nat (2048 * k)) c) in *. assert (Hr : (Z.to_nat n <= length rem)%nat) by (unfold rem; rewrite length_drop; lia).
  replace (take (Z.to_nat n) (disc_image (lba + k))) with (take (Z.to_nat n) (take (length rem) (disc_image (lba + k)))) by (rewrite take_take; f_equal; lia).
  rewrite He, take_take. f_equal. lia.
Qed.
Lemma read_extent_ok lba c to_read fuel : forall k, content_at lba c -> 0 <= to_read <= Z.of_nat (length c) -> 0 <= k -> 2048 * (k - 1) <= to_read < 2048 * (k + Z.of_nat fuel - 1) ->
  let b := Z.min (2048 * k) to_read in yields (read_extent fuel lba to_read b (take (Z.to_nat b) c)) (eq (to_read, take (Z.to_nat to_read) c)).
Proof.
  induction fuel as [|fuel IH]; intros k Hc Ht Hk Hf; cbv zeta; [lia|]; cbn [read_extent]. pose proof Hc as (H0 & H31 & Hin). pose proof disc_sectors_range as HS.
  destruct (Z.ltb_spec (Z.min (2048 * k) to_read) to_read) as [Hlt|Hge]; cbn [negb].
  - rewrite Z.min_l, sector_index by lia. assert (H2k : 2048 * k < Z.of_nat (length c)) by lia. destruct (Hin k H2k Hk) as [Hl _]. rewrite (u32_small (lba + k)) by lia.
    apply yields_sector; [lia|]. unfold ISO9660_SECTOR_SIZE. replace (2048 * k mod 2048) with 0 by (rewrite Z.mul_comm, Z.mod_mul; lia).
    rewrite (u32_small (to_read - _)), Z.sub_0_r by lia.
    replace (if 2048 <? to_read - 2048 * k then 2048 else to_read - 2048 * k) with (Z.min 2048 (to_read - 2048 * k)) by (case_if E; lia).
    eapply yields_lift; [apply (content_chunk lba c k); [done|lia..]|]. rewrite u32_small by lia.
    replace (2048 * k + Z.min 2048 (to_read - 2048 * k)) with (Z.min (2048 * (k + 1)) to_read) by lia.
    replace (take (Z.to_nat (2048 * k)) c ++ _) with (take (Z.to_nat (Z.min (2048 * (k + 1)) to_read)) c); [apply IH; [done|lia..]|].
    replace (Z.to_nat (Z.min (2048 * (k + 1)) to_read)) with (Z.to_nat (2048 * k) + Z.to_nat (Z.min 2048 (to_read - 2048 * k)))%nat by lia. by rewrite take_take_drop.
  - replace (Z.min (2048 * k) to_read) with to_read by lia. apply yields_ret. by rewrite i32_small by lia.
Qed.
Lemma read_pvd_ok : yields read_pvd (fun o => o = Some (disc_image 16) \/ o = None /\ low_memory).
Proof.
  pose proof disc_sectors_range as HS. unfold read_pvd. apply yields_block; [done|intros Hl; apply yields_ret; by right|]. intros _.
  apply yields_sector; [lia|]. rewrite disc_pvd. cbn [negb]. apply yields_block; [done|intros Hl; apply yields_ret; by right|]. intros _.
  eapply yields_lift; [apply mem_read_ok; rewrite ?disc_len by lia; unfold ISO9660_SECTOR_SIZE; lia|]. apply yields_ret. left.
  f_equal. rewrite drop_0. apply take_ge. rewrite disc_len by lia. done.
Qed.
(** What reading a path gives. *)
Definition read_result (path : bytes) (o : path_outcome) (has_buffer : bool) (max : Z) : Z * bytes :=
  if bool_decide (path = [slash]) then (0, []) else
  match o with
  | Found (IsoFile c) =>
      let n := Z.of_nat (length c) in
      if negb has_buffer || (max =? 0) then (n, []) else (Z.min n max, take (Z.to_nat (Z.min n max)) c)
  | _ => (-1, [])
  end.
Definition volume_root : bytes := root_directory_record (disc_image 16).
(** The path fits the copy that is cut, its parts are names, and no part is looked up in a file. *)
Definition proper_path (t : iso_tree) (path : bytes) : Prop :=
  (length path <= 255)%nat /\ Forall (fun p => ordinary p = true) (path_parts [] path) /\ find_path t (path_parts [] path) <> InFile.
Lemma str_copy_path path : (length path <= 255)%nat -> str_copy path 256 = path.
Proof. intros H. unfold str_copy. apply take_ge. lia. Qed.
Lemma Iso9660Read_ok t path has_buffer max : disc_holds t volume_root -> proper_path t path -> 0 <= max ->
  yields (Iso9660Read path has_buffer max) (fun r => r = read_result path (find_path t (path_parts [] path)) has_buffer max \/ r = (-1, []) /\ low_memory).
Proof.
  intros Ht (Hl & Ho & HI) Hmax. unfold Iso9660Read. eapply yields_bind; [apply read_pvd_ok|]. intros p [->|[-> Hlow]]; [|apply yields_ret; by right].
  apply yields_block; [lia|intros Hlow; apply yields_ret; by right|]. intros _. unfold read_result. case_bool_decide as Hp; [apply yields_ret; by left|].
  rewrite str_copy_path by done. fold volume_root. eapply yields_bind; [apply (walk_path_ok _ path volume_root t); [lia|done..]|].
  intros o Hr. destruct (find_path t (path_parts [] path)) as [t'| |]; [|cbn in Hr; subst o; apply yields_ret; by left|done].
  destruct Hr as [(e & -> & He)|[-> Hlow]]; [|apply yields_ret; by right].
  destruct (stored_fields t' e He) as (E1 & E2 & f & E3 & Hf). apply (yields_lift _ _ _ _ E3).
  inversion He as [c e' _ Hd Hs Hc|l e' groups _ Hd]; subst; rewrite <- Hf, Hd; [|apply yields_ret; by left].
  apply (yields_lift _ _ _ _ E2), (yields_lift _ _ _ _ E1). rewrite Hs. pose proof Hc as (_ & H31 & _).
  destruct (negb has_buffer || (max =? 0)) eqn:Eb; [apply yields_ret; left; by rewrite i32_small by lia|].
  apply yields_block; [done|intros Hlow; apply yields_ret; by right|]. intros _.
  replace (if Z.of_nat (length c) <? max then Z.of_nat (length c) else max) with (Z.min (Z.of_nat (length c)) max) by (case_if E; lia).
  set (n := Z.min _ _). pose proof (read_extent_ok (rec_lba e) c n (extent_fuel n) 0 Hc) as HR. cbv zeta in HR.
  replace (Z.min (2048 * 0) n) with 0 in HR by (unfold n; lia). cbn [Z.to_nat take] in HR.
  eapply yields_impl; [apply HR; [unfold n; lia|lia|unfold extent_fuel, ISO9660_SECTOR_SIZE; dlia]|]. intros r <-. by left.
Qed.

(** ** Listing *)
Definition faults {A} (m : M A) : Prop := forall s, good s -> m s = None.
(** A value or a fault. *)
Definition ends {A} (o : option A) (m : M A) : Prop := match o with Some a => yields m (eq a) | None => faults m end.
Lemma ends_bind {A B} (m : M A) (f : A -> M B) Q o : yields m Q -> (forall a, Q a -> ends o (f a)) -> ends o (m ≫= f).
Proof.
  intros Hm Hf. destruct o as [b|]; [by eapply yields_bind|]. intros s Hs. destruct (Hm s Hs) as (a & s' & E & Hs' & Ha).
  rewrite (run_bind _ _ _ _ _ E). by apply (Hf a Ha).
Qed.
Lemma ends_seq {A B} (m : M A) (f : A -> M B) o o' : ends o m -> (forall a, o = Some a -> ends o' (f a)) -> (o = None -> o' = None) -> ends o' (m ≫= f).
Proof.
  intros Hm Hf Hn. destruct o as [a|]; [apply (ends_bind _ _ (eq a)); [done|]; intros ? <-; by apply Hf|].
  rewrite Hn by done. intros s Hs. unfold mbind, STM_bind. by rewrite (Hm s Hs).
Qed.
Lemma ends_lift {A B} (o : option A) (a : A) (f : A -> M B) r : o = Some a -> ends r (f a) -> ends r (lift o ≫= f).
Proof. intros -> H. apply (ends_bind _ _ (eq a)); [intros s Hs; by exists a, s|by intros ? <-]. Qed.
Lemma ends_sector {A} lba (f : option bytes -> M A) r : 0 <= lba < disc_sectors -> ends r (f (Some (disc_image lba))) -> ends r (ReadSector lba ≫= f).
Proof. intros Hl H. apply (ends_bind _ _ _ _ (ReadSector_ok lba Hl)). by intros ? ->. Qed.
Section listing.
Hypothesis Hmem : ~ low_memory.
Lemma ends_block {A} n (f : option bytes -> M A) r : 0 < n -> (forall b, Z.of_nat (length b) = n -> ends r (f (Some b))) -> ends r (iso_alloc n ≫= f).
Proof. intros Hn H. apply (ends_bind _ _ _ _ (yields_alloc n Hn)). intros o [[-> ?]|(b & -> & Hb)]; [done|by apply H]. Qed.

(** The entries of records, and what the array holds behind [acc] when they are pushed. *)
Definition listed_records (es : list bytes) : list bytes := filter (fun e => dot_rec e = false) es.
Definition listed (acc es : list bytes) : option (list bytes) :=
  if (length acc + length (listed_records es) <=? 65)%nat then Some (acc ++ listed_records es) else None.
Fixpoint list_groups (acc : list bytes) (groups : list (list bytes)) : option (list bytes) :=
  match groups with
  | [] => Some acc
  | es :: groups' => if (length acc <? 64)%nat then acc' ← listed acc es; list_groups acc' groups' else Some acc
  end.
Lemma is_dot_ok pre e post : wf_rec e = true -> is_dot_entry (D := D) (X := X) (length pre) (pre ++ e ++ post) = mret (dot_rec e).
Proof.
  intros He. destruct (rec_fields pre e post He) as (_ & E2 & _ & _ & E5). unfold is_dot_entry, dot_rec. rewrite E2, E5.
  unfold mbind, STM_bind, lift, mret, STM_ret. cbn. by destruct (byte_at 32 e =? 1).
Qed.
Lemma collect_sector_ok es : forall fuel pre pad acc, Forall (fun e => wf_rec e = true) es -> length (pre ++ concat es ++ pad) = sector_size ->
  pad = [] \/ hd_error pad = Some 0 -> (length es < fuel)%nat -> (length acc <= 65)%nat ->
  ends (listed acc es) (collect_sector fuel (pre ++ concat es ++ pad) (length pre) acc).
Proof.
  induction es as [|e es IH]; intros [|fuel] pre pad acc Hes Hlen Hpad Hf Ha; cbn [length] in Hf; [lia..| |lia|]; cbn [collect_sector].
  - change (concat [] ++ pad) with pad in *. unfold ISO9660_SECTOR_SIZE, listed. cbn [listed_records filter list_filter length]. rewrite Nat.add_0_r, (proj2 (Nat.leb_le _ _) Ha), app_nil_r.
    destruct (end_of_records pre pad (fun _ => True) Hlen Hpad) as [->|[-> E]]; [by apply yields_ret|]. apply (yields_lift _ _ _ _ E). by apply yields_ret.
  - apply Forall_cons_iff in Hes as [He Hes]. change (concat (e :: es)) with (e ++ concat es) in *. rewrite <- app_assoc in *.
    pose proof (wf_rec_spec _ He) as (_ & Hl & Hn & _). destruct (rec_fields pre e (concat es ++ pad) He) as (E1 & _ & _ & E4 & _).
    unfold ISO9660_SECTOR_SIZE. rewrite !length_app in Hlen. rewrite (proj2 (Z.leb_gt 2048 _)) by lia.
    apply (ends_lift _ _ _ _ E1). rewrite (proj2 (Z.eqb_neq _ 0)) by lia. rewrite is_dot_ok by done. apply (ends_bind _ _ (eq (dot_rec e))); [by apply yields_ret|].
    intros ? <-. assert (Hnext : forall acc', (length acc' <= 65)%nat -> ends (listed acc' es) (collect_sector fuel (pre ++ e ++ concat es ++ pad) (length pre + Z.to_nat (Z.of_nat (length e))) acc')).
    { intros acc' Ha'. rewrite Nat2Z.id. replace (length pre + length e)%nat with (length (pre ++ e)) by apply length_app. rewrite app_assoc.
      apply IH; [done|rewrite !length_app; lia|done|lia|done]. }
    unfold listed, listed_records. destruct (dot_rec e) eqn:Ed; [rewrite filter_cons_False by congruence; by apply Hnext|]. rewrite filter_cons_True by done. fold (listed_records es). cbn [length].
    apply ends_block; [lia|]. intros b _. apply (ends_seq _ _ (if (65 <=? length acc)%nat then None else Some (acc ++ [e]))).
    + apply (ends_lift _ _ _ _ E4). unfold push_entry. destruct (65 <=? length acc)%nat; [done|by apply yields_ret].
    + intros acc'. destruct (Nat.leb_spec 65 (length acc)) as [|Hlt]; [done|]. intros [= <-].
      assert (E : listed (acc ++ [e]) es = if (length acc + S (length (listed_records es)) <=? 65)%nat then Some (acc ++ e :: listed_records es) else None).
      { unfold listed. rewrite length_app. cbn [length]. replace (length acc + 1 + length (listed_records es))%nat with (length acc + S (length (listed_records es)))%nat by lia. by rewrite <- app_assoc. }
      rewrite <- E. apply Hnext. rewrite length_app. cbn. lia.
    + destruct (Nat.leb_spec 65 (length acc)); [|done]. intros _. by rewrite (proj2 (Nat.leb_gt _ _)) by lia.
Qed.
Lemma sector_entries lba es acc : 0 <= lba < disc_sectors -> sector_holds (disc_image lba) es -> (length acc <= 65)%nat ->
  ends (listed acc es) (collect_sector sector_fuel (disc_image lba) 0 acc).
Proof.
  intros Hl (Hes & pad & E & Hpad) Ha. pose proof (disc_len lba Hl) as Hlen. rewrite E in *. apply (collect_sector_ok es sector_fuel [] pad acc); try done.
  rewrite length_app in Hlen. pose proof (records_fit es Hes). unfold sector_fuel. lia.
Qed.
Lemma listed_length acc es acc' : listed acc es = Some acc' -> (length acc' <= 65)%nat.
Proof. unfold listed. destruct (Nat.leb_spec (length acc + length (listed_records es)) 65); [|done]. intros [= <-]. rewrite length_app. lia. Qed.
Lemma collect_dir_ok lba size g1 g2 fuel acc : dir_at lba size (g1 ++ g2) -> (length g2 < fuel)%nat -> (length acc <= 65)%nat ->
  ends (list_groups acc g2) (collect_dir fuel lba size (2048 * Z.of_nat (length g1)) acc).
Proof.
  revert g1 fuel acc. induction g2 as [|es g2 IH]; intros g1 [|fuel] acc HD Hf Ha; cbn [length] in Hf; [lia..| |lia|]; cbn [collect_dir list_groups];
    pose proof HD as (-> & H32 & H0 & Hlb & Hg); pose proof disc_sectors_range as HS; rewrite length_app in *; cbn [length] in *.
  - rewrite (proj2 (Z.ltb_ge _ _)) by lia. by apply yields_ret.
  - rewrite (proj2 (Z.ltb_lt _ _)) by lia. cbn [andb]. destruct (length acc <? 64)%nat eqn:E64; cbn [negb]; [|by apply yields_ret].
    rewrite sector_index, (u32_small (lba + _)) by lia.
    apply ends_sector; [lia|]. specialize (Hg (length g1) es ltac:(by rewrite list_lookup_middle)).
    apply (ends_seq _ _ (listed acc es)); [apply sector_entries; [lia|done|done]| |by intros ->].
    intros acc' El. rewrite El, option_bind_Some. unfold ISO9660_SECTOR_SIZE. rewrite u32_small by lia.
    replace (2048 * Z.of_nat (length g1) + 2048) with (2048 * Z.of_nat (length (g1 ++ [es]))) by (rewrite length_app; cbn; lia).
    apply IH; [by rewrite <- app_assoc|lia|by eapply listed_length].
Qed.
Lemma collect_dir_at lba size groups : dir_at lba size groups -> ends (list_groups [] groups) (collect_dir (extent_fuel size) lba size 0 []).
Proof.
  intros HD. apply (collect_dir_ok lba size [] groups); [done| |cbn; lia]. destruct HD as (-> & _). unfold extent_fuel. rewrite sector_index. lia.
Qed.
Lemma list_pvd_ok : yields list_pvd (eq (Some (disc_image 16))).
Proof.
  pose proof disc_sectors_range as HS. unfold list_pvd. apply (ends_block _ _ (Some _)); [done|]. intros _ _. cbn [pvd_loop].
  apply (ends_sector _ _ (Some _)); [lia|]. rewrite disc_pvd. apply (ends_block _ _ (Some _)); [done|]. intros _ _.
  eapply (ends_lift _ _ _ (Some _)); [apply mem_read_ok; rewrite ?disc_len by lia; unfold ISO9660_SECTOR_SIZE; lia|]. apply yields_ret.
  f_equal. rewrite drop_0. symmetry. apply take_ge. rewrite disc_len by lia. done.
Qed.
(** Blocks that the heap cannot refuse. *)
Lemma block_run n s : 0 < n -> good s -> exists b s', iso_alloc n s = Some (Some b, s') /\ good s'.
Proof. intros Hn Hs. destruct (yields_alloc n Hn s Hs) as (o & s' & E & Hs' & [[-> ?]|(b & -> & _)]); [done|eauto]. Qed.
(** The walk to the path, then [collect_dir] on the record reached. *)
Lemma list_dir_walk t path t' s : disc_holds t volume_root -> proper_path t path -> find_path t (path_parts [] path) = Found t' -> good s ->
  exists e s', disc_holds t' e /\ good s' /\ Iso9660ListDir path s = (es ← collect_dir (extent_fuel (rec_size e)) (rec_lba e) (rec_size e) 0 []; mret (Some es)) s'.
Proof.
  intros Ht (Hl & Ho & HI) Hfp Hs. unfold Iso9660ListDir. destruct (list_pvd_ok s Hs) as (? & s1 & E1 & Hs1 & <-). rewrite (run_bind _ _ _ _ _ E1).
  destruct (block_run (Z.of_nat (Nat.min (length path) 256) + 1) s1 ltac:(lia) Hs1) as (b2 & s2 & E2 & Hs2). rewrite (run_bind _ _ _ _ _ E2).
  rewrite str_copy_path by done. fold volume_root.
  assert (Hw : yields (if bool_decide (path = [slash]) then mret (Some volume_root) else walk_path (S (length path)) path volume_root)
    (reaches (find_path t (path_parts [] path)))).
  { case_bool_decide as Hp; [|apply walk_path_ok; [lia|done..]]. subst path. apply yields_ret. left. eauto. }
  destruct (Hw s2 Hs2) as (o & s3 & E3 & Hs3 & Hres). rewrite (run_bind _ _ _ _ _ E3). rewrite Hfp in Hres. destruct Hres as [(e & -> & He)|[-> ?]]; [|done].
  destruct (stored_fields t' e He) as (F1 & F2 & _). rewrite F1, F2. do 2 erewrite run_bind by reflexivity.
  destruct (block_run (8 * 65) s3 ltac:(lia) Hs3) as (b4 & s4 & E4 & Hs4). rewrite (run_bind _ _ _ _ _ E4).
  destruct (block_run ISO9660_SECTOR_SIZE s4 ltac:(done) Hs4) as (b5 & s5 & E5 & Hs5). rewrite (run_bind _ _ _ _ _ E5). eauto.
Qed.
(** At most 64 entries are all listed. *)
Lemma list_groups_all groups : forall acc, (length acc + length (listed_records (concat groups)) <= 64)%nat -> list_groups acc groups = Some (acc ++ listed_records (concat groups)).
Proof.
  induction groups as [|es groups IH]; intros acc H; cbn [list_groups concat] in *; [by rewrite app_nil_r|].
  unfold listed_records in *. rewrite list.filter_app in *. rewrite length_app in H. destruct (Nat.ltb_spec (length acc) 64) as [Hlt|Hge].
  - unfold listed. fold (listed_records es) in *. rewrite (proj2 (Nat.leb_le _ _)) by lia. rewrite option_bind_Some, IH by (rewrite length_app; lia). by rewrite <- app_assoc.
  - assert (Hn : length (filter (fun e => dot_rec e = false) es) = 0%nat /\ length (filter (fun e => dot_rec e = false) (concat groups)) = 0%nat) by lia.
    destruct Hn as [->%nil_length_inv ->%nil_length_inv]. by rewrite !app_nil_r.
Qed.
(** A sector that takes the count from below 64 above 65 overruns the array. *)
Lemma list_groups_overrun g1 es g2 acc : (length acc + length (listed_records (concat g1)) < 64)%nat -> (65 < length acc + length (listed_records (concat g1)) + length (listed_records es))%nat ->
  list_groups acc (g1 ++ es :: g2) = None.
Proof.
  revert acc. induction g1 as [|e g1 IH]; intros acc H1 H2; cbn [list_groups concat app] in *.
  - cbn in H1, H2. rewrite (proj2 (Nat.ltb_lt _ _)) by lia. unfold listed. by rewrite (proj2 (Nat.leb_gt _ _)) by lia.
  - unfold listed_records in H1, H2. rewrite list.filter_app, length_app in H1, H2. fold (listed_records e) (listed_records (concat g1)) (listed_records es) in H1, H2.
    rewrite (proj2 (Nat.ltb_lt _ _)) by lia. unfold listed. rewrite (proj2 (Nat.leb_le _ _)) by lia. rewrite option_bind_Some.
    apply IH; rewrite length_app; lia.
Qed.
(** ** Listing a file *)
(** Each sector of the contents starts with a zero. *)
Definition zero_starts (c : bytes) : Prop := forall k, 0 <= k -> 2048 * k < Z.of_nat (length c) -> byte_at (Z.to_nat (2048 * k)) c = 0.
Lemma content_first lba c k : content_at lba c -> 0 <= k -> 2048 * k < Z.of_nat (length c) -> byte_at 0 (disc_image (lba + k)) = byte_at (Z.to_nat (2048 * k)) c.
Proof.
  intros Hc Hk Hl. pose proof Hc as (H0 & _ & Hin). destruct (Hin k Hl Hk) as [Hlb _].
  pose proof (content_chunk lba c k 1 Hc Hk ltac:(lia) ltac:(lia) Hl) as E. rewrite mem_read_ok in E by (rewrite ?disc_len by lia; lia). injection E as E.
  change (Z.to_nat 0) with 0%nat in E. change (Pos.to_nat 1) with 1%nat in E. rewrite drop_0 in E. unfold byte_at.
  assert (HL : length (disc_image (lba + k)) = sector_size) by (apply disc_len; lia).
  destruct (disc_image (lba + k)) as [|x im]; [done|]. destruct (drop (Z.to_nat (2048 * k)) c) as [|y r] eqn:Ed; [done|]. injection E as ->.
  rewrite <- (take_drop (Z.to_nat (2048 * k)) c), Ed, app_nth2 by (rewrite length_take; lia). rewrite length_take, Nat.min_l, Nat.sub_diag by lia. done.
Qed.
Lemma collect_zero fuel sec : length_at 0 sec = Some 0 -> yields (collect_sector (S fuel) sec 0 []) (eq []).
Proof. intros E. cbn [collect_sector]. apply (yields_lift _ _ _ _ E). by apply yields_ret. Qed.
Lemma collect_file lba c fuel : forall k, content_at lba c -> zero_starts c -> 0 <= k -> 2048 * (k - 1) <= Z.of_nat (length c) < 2048 * (k + Z.of_nat fuel - 1) ->
  yields (collect_dir fuel lba (Z.of_nat (length c)) (2048 * k) []) (eq []).
Proof.
  induction fuel as [|fuel IH]; intros k Hc Hz Hk Hb; [lia|]; cbn [collect_dir]. pose proof Hc as (H0 & H31 & Hin). pose proof disc_sectors_range as HS.
  destruct (Z.ltb_spec (2048 * k) (Z.of_nat (length c))) as [Hlt|Hge]; cbn [andb negb length]; [|by apply yields_ret].
  rewrite sector_index. destruct (Hin k Hlt Hk) as [Hl _]. rewrite (u32_small (lba + k)) by lia. change (negb (0 <? 64)%nat) with false. cbv iota.
  apply yields_sector; [lia|]. assert (E : length_at 0 (disc_image (lba + k)) = Some 0).
  { unfold length_at. rewrite load_byte by (rewrite disc_len by lia; lia). by rewrite (content_first lba c k), Hz by done. }
  apply (yields_bind _ _ (eq [])); [by apply (collect_zero 2048)|].
  intros ? <-. unfold ISO9660_SECTOR_SIZE. rewrite u32_small by lia. replace (2048 * k + 2048) with (2048 * (k + 1)) by lia. apply IH; [done..|lia|lia].
Qed.
End listing.

(** ** Copying *)
Section copying.
Context (realloc : bytes -> Z -> option (option bytes)) (pid : Z).
(** [Iso9660Copy] of a file whose sectors start with zeros takes it for an empty directory. *)
Lemma copy_file_as_dir fuel t path p c s : ~ low_memory -> disc_holds t volume_root -> proper_path t path -> find_path t (path_parts [] path) = Found (IsoFile c) ->
  zero_starts c -> good s -> exists s1, good s1 /\ Iso9660Copy realloc pid (S fuel) path p s = (_ ← on_vfs (VfsCreateDir p); mret 0) s1.
Proof.
  intros Hm Ht Hp Hf Hz Hs. destruct (list_dir_walk Hm t path _ s Ht Hp Hf Hs) as (e & s1 & He & Hs1 & E). inversion He as [c' e' _ _ Hsz Hc|]; subst.
  rewrite Hsz in E. pose proof Hc as (_ & H31 & _).
  destruct (collect_file (rec_lba e) c (extent_fuel (Z.of_nat (length c))) 0 Hc Hz ltac:(lia)) with (s := s1) as (es & s2 & E2 & Hs2 & <-);
    [unfold extent_fuel, ISO9660_SECTOR_SIZE; dlia|done|].
  change (2048 * 0) with 0 in E2. rewrite (run_bind _ _ _ _ _ E2) in E. exists s2. split; [done|]. cbn [Iso9660Copy]. rewrite (run_bind _ _ _ _ _ E). unfold mbind, STM_bind.
  destruct (on_vfs (VfsCreateDir p) s2) as [[z s3]|]; done.
Qed.
Context `{!FileStore X realloc pid}.
Lemma CopyFile_ok t path p c c0 s : disc_holds t volume_root -> proper_path t path -> path <> [slash] -> find_path t (path_parts [] path) = Found (IsoFile c) ->
  0 < Z.of_nat (length c) <= limit -> holds s0 p c0 -> good s ->
  exists r s', Iso9660CopyFile realloc pid path p s = Some (r, s') /\
    (r = 0 /\ holds (system s') p (overwrite replaces c c0) \/ r = -1 /\ (low_memory \/ ~ room s0 p (length c))).
Proof.
  intros Ht Hp Hne Hf Hc H0 Hs. pose proof limit_int as HL.
  assert (HR : forall b max, 0 <= max -> yields (Iso9660Read path b max) (fun r => r = (if negb b || (max =? 0) then (Z.of_nat (length c), []) else
    (Z.min (Z.of_nat (length c)) max, take (Z.to_nat (Z.min (Z.of_nat (length c)) max)) c)) \/ r = (-1, []) /\ low_memory)).
  { intros b max Hmax. pose proof (Iso9660Read_ok t path b max Ht Hp Hmax) as H. unfold read_result in H. rewrite bool_decide_false, Hf in H by done. exact H. }
  unfold Iso9660CopyFile. destruct (HR false 0 ltac:(lia) s Hs) as (st & s1 & E1 & Hs1 & [->|[-> Hlow]]); rewrite (run_bind _ _ _ _ _ E1); cbn [fst negb orb].
  2:{ eexists _, _. split; [done|]. right. split; [done|by left]. }
  rewrite (proj2 (Z.ltb_ge _ _)), (proj2 (Z.eqb_neq _ _)) by lia.
  destruct (yields_alloc (Z.of_nat (length c)) ltac:(lia) s1 Hs1) as (o & s2 & E2 & Hs2 & [[-> Hlow]|(b & -> & Hb)]); rewrite (run_bind _ _ _ _ _ E2).
  { eexists _, _. split; [done|]. right. split; [done|by left]. }
  rewrite u32_small by lia. destruct (HR true (Z.of_nat (length c)) ltac:(lia) s2 Hs2) as (st & s3 & E3 & Hs3 & [->|[-> Hlow]]); rewrite (run_bind _ _ _ _ _ E3); cbn [fst snd].
  2:{ rewrite mem_write_in by (cbn; lia). eexists _, _. split; [done|]. right. split; [done|by left]. }
  cbn [negb orb]. rewrite (proj2 (Z.eqb_neq (Z.of_nat (length c)) 0)), Z.min_id, Nat2Z.id, firstn_all by lia. cbn [fst snd].
  rewrite mem_write_in by lia. erewrite run_bind by reflexivity. rewrite (proj2 (Z.leb_gt _ 0)) by lia. rewrite u32_small by lia.
  change (splice (Z.to_nat 0) c b) with (c ++ drop (length c) b). rewrite drop_ge, app_nil_r by lia.
  destruct Hs3 as (_ & _ & h & Hh & _). destruct (holds_heap h s0 p c0 H0) as [Hhold Hroom].
  destruct (write_law (system s3) p c0 c ltac:(by rewrite Hh) ltac:(lia)) as (z & w & E4 & HW).
  unfold on_vfs at 1. unfold mbind at 1, STM_bind. rewrite E4, option_bind_Some. cbn [fst snd]. eexists _, _. split; [done|]. cbn [system].
  destruct HW as [[-> HW]|[Hz HW]].
  - rewrite (proj2 (Z.leb_gt _ 0)) by lia. by left.
  - rewrite (proj2 (Z.leb_le z 0)) by lia. right. split; [done|]. right. rewrite <- Hroom, <- Hh. done.
Qed.
End copying.
End runs.
End disc.
