(* ===== verification/IsoProps.v ===== *)
(** The properties of ISO 9660 discs, with a concrete disc. *)
From Stdlib Require Import ZArith Lia.
From stdpp Require Import base tactics list numbers option sets.
From S2P Require Import Prelude Vfrfs VfrfsOps VfrfsProps StringOps Format Vfs VfsRange VfsStore VfsRam VfsProps Iso9660 IsoTree.

(** ** A disc for the witnesses: [/A.TXT] with three bytes and [/ZERO] with two zeros, in drive 2 *)
Definition le32 (z : Z) : bytes := [z mod 256; z / 256 mod 256; z / 65536 mod 256; z / 16777216].
Definition demo_record (lba size flags : Z) (id : bytes) : bytes :=
  [34 + Z.of_nat (length id); 0] ++ le32 lba ++ replicate 4 0 ++ le32 size ++ replicate 11 0 ++ [flags; 0; 0; 0; 0; 0; 0] ++ [Z.of_nat (length id)] ++ id ++ [0].
Definition demo_records : list bytes :=
  [demo_record 18 2048 2 [0]; demo_record 18 2048 2 [1]; demo_record 19 3 0 [65; 46; 84; 88; 84; 59; 49]; demo_record 20 2 0 [90; 69; 82; 79]].
Definition demo_image (lba : Z) : bytes := resize sector_size 0
  (if lba =? 16 then [1] ++ CD001 ++ replicate 150 0 ++ demo_record 18 2048 2 [0]
   else if lba =? 18 then concat demo_records else if lba =? 19 then [65; 66; 67] else []).
#[export] Instance demo_cd : CdRom unit := fun drive lba u => Some (if drive =? 2 then (0, demo_image lba) else (-1, []), u).
#[export] Program Instance demo_disc : Disc unit := {| disc_drive := 2; disc_sectors := 21; disc_image := demo_image; disc_ok := fun _ => True |}.
Next Obligation. lia. Qed.
Next Obligation. lia. Qed.
Next Obligation. vm_compute. reflexivity. Qed.
Next Obligation. intros. apply length_resize. Qed.
Next Obligation. intros x lba _ _. by exists x. Qed.
Next Obligation. intros x i _ Hi. eexists _, x. split; [done|]. split; [done|]. left. by rewrite (proj2 (Z.eqb_neq _ _)) by lia. Qed.
Definition demo_tree : iso_tree := IsoDir [([65; 46; 84; 88; 84], IsoFile [65; 66; 67]); ([90; 69; 82; 79], IsoFile [0; 0])].
Lemma demo_sector : sector_holds (demo_image 18) demo_records.
Proof. split; [repeat constructor|]. exists (drop (length (concat demo_records)) (demo_image 18)). split; [by vm_compute|right; by vm_compute]. Qed.
Lemma demo_dir : dir_at 18 2048 [demo_records].
Proof. split_and!; [done..|]. intros [|[]] es [= <-]. apply demo_sector. Qed.
Lemma demo_content lba c : 0 <= lba < 21 -> (length c <= 2048)%nat -> take (length c) (disc_image lba) = c -> content_at lba c.
Proof.
  intros Hl Hc Ht. split_and!; [lia|lia|]. intros k H1 H2. replace k with 0 by lia. split; [cbn; lia|]. rewrite Z.add_0_r. change (Z.to_nat (2048 * 0)) with 0%nat. rewrite drop_0, Ht. symmetry. by apply take_ge.
Qed.
Lemma demo_iso_file lba c e : (34 <=? length e)%nat = true -> rec_dir e = false -> rec_size e = Z.of_nat (length c) -> rec_lba e = lba ->
  0 <= lba < 21 -> (length c <= 2048)%nat -> take (length c) (disc_image lba) = c -> disc_holds (IsoFile c) e.
Proof. intros H1 H2 H3 H4 H5 H6 H7. apply stored_file; [by apply Nat.leb_le|done..|]. rewrite H4. by apply demo_content. Qed.
Lemma demo_stored : disc_holds demo_tree volume_root.
Proof.
  assert (E1 : rec_lba volume_root = 18) by (vm_compute; reflexivity). assert (E2 : rec_size volume_root = 2048) by (vm_compute; reflexivity).
  apply (stored_dir _ _ [demo_records]); [apply Nat.leb_le; vm_compute; reflexivity|vm_compute; reflexivity|rewrite E1, E2; apply demo_dir|].
  assert (E3 : filter (fun e => dot_rec e = false) (concat [demo_records]) = drop 2 demo_records) by (vm_compute; reflexivity). rewrite E3.
  repeat apply Forall2_cons; split; [split; [vm_compute; reflexivity|]|apply Forall2_cons; split; [split; [vm_compute; reflexivity|]|apply Forall2_nil; done]].
  - eapply (demo_iso_file 19); [vm_compute; reflexivity..|lia|cbn; lia|vm_compute; reflexivity].
  - eapply (demo_iso_file 20); [vm_compute; reflexivity..|lia|cbn; lia|vm_compute; reflexivity].
Qed.

Definition demo_iso : iso unit unit := mk_iso 0xFF tt demo_vfs.
Definition a_txt : bytes := [47; 97; 46; 116; 120; 116].
Lemma demo_proper path : (length path <=? 255)%nat && forallb ordinary (path_parts [] path) &&
  match find_path demo_tree (path_parts [] path) with InFile => false | _ => true end = true -> proper_path demo_tree path.
Proof.
  intros [[H1 H2]%andb_true_iff H3]%andb_true_iff. split_and!; [by apply Nat.leb_le|by apply list.Forall_forall; intros x Hx; rewrite forallb_forall in H2; apply H2, list_elem_of_In|].
  intros E. by rewrite E in H3.
Qed.
Section claims.
Context {D X : Type} `{!CdRom D} `{!Disc D} `{!Drivers X}.
Implicit Types (s : iso D X) (t : iso_tree).
(** A state before a call: the drive holds the disc, and it is detected or not yet. *)
Definition iso_ready s : Prop := disc_ok (cdrom s) /\ (cdrom_drive s = 0xFF \/ cdrom_drive s = disc_drive).
Lemma ready_good s : iso_ready s -> good (system s) s.
Proof. intros [H1 H2]. split_and!; [done|done|]. exists (heap (system s)). split; [by destruct (system s)|done]. Qed.
Lemma good_ready (s0 : vfs X) s : good s0 s -> iso_ready s.
Proof. by intros (H1 & H2 & _). Qed.

(** C8. Reading a path of a disc gives what the disc holds there.  When the disc holds a tree of
    files and directories (records packed in sectors, a file's bytes in consecutive sectors),
    [Iso9660Read] of a proper path never faults or loops, detects the drive when that is not done,
    and returns: the size of the file, when there is no buffer or a maximum of 0; otherwise the
    first bytes of the file, as many as fit; -1 for a directory or a path that is not there; 0 for
    the root.  Names are compared without their case and version.  Only a refusal of the heap can
    change this, to -1, and the file systems are not touched. *)
Theorem Iso9660Read_correct s t path has_buffer max : iso_ready s -> disc_holds t volume_root -> proper_path t path -> 0 <= max ->
  exists r s', Iso9660Read path has_buffer max s = Some (r, s') /\ iso_ready s' /\ (exists h, system s' = set_heap h (system s)) /\
    (r = read_result path (find_path t (path_parts [] path)) has_buffer max \/ r = (-1, []) /\ None ∈ heap (system s)).
Proof.
  intros Hs Ht Hp Hm. destruct (Iso9660Read_ok (system s) t path has_buffer max Ht Hp Hm s (ready_good s Hs)) as (r & s' & E & Hg & Hr).
  exists r, s'. split_and!; [done|by eapply good_ready| |done]. destruct Hg as (_ & _ & h & Hh & _). by exists h.
Qed.


End claims.
Lemma demo_iso_ready : iso_ready demo_iso.
Proof. split; [exact I|by left]. Qed.

(** Two bytes of [/a.txt]. *)
Lemma Iso9660Read_correct_witness : exists s', Iso9660Read a_txt true 2 demo_iso = Some ((2, [65; 66]), s').
Proof.
  assert (Hp : proper_path demo_tree a_txt) by (apply demo_proper; vm_compute; reflexivity).
  pose proof (Iso9660Read_correct demo_iso demo_tree a_txt true 2 demo_iso_ready demo_stored Hp ltac:(lia)) as H.
  assert (Hr : read_result a_txt (find_path demo_tree (path_parts [] a_txt)) true 2 = (2, [65; 66])) by (vm_compute; reflexivity). rewrite Hr in H.
  generalize dependent (Iso9660Read a_txt true 2 demo_iso). intros o H. destruct H as (r & s' & E & _ & _ & [Hr'|[_ Hn]]).
  - subst r. exists s'. exact E.
  - change (heap (system demo_iso)) with (@nil (option bytes)) in Hn. exact (False_ind _ (not_elem_of_nil _ Hn)).
Defined.
#[local] Existing Instance ram_file_store.
