(* ===== verification/ByteMem.v ===== *)
(** A byte memory with little-endian loads and stores, memory moves and fills, and the interface
    of the back ends the kernel heap draws its memory from: the virtual memory manager
    ([src/mm/VMem.cpp]) and the allocator in Rust ([src/mm/dynamic/rust]). *)
From Stdlib Require Import ZArith Lia.
From stdpp Require Import base tactics list gmap sets numbers option.
From S2P Require Import Prelude.

(** ** Memory *)
Notation mem := (gmap Z Z).
Definition peek (m : mem) (a : Z) : Z := default 0 (m !! a).
Fixpoint le_load (n : nat) (m : mem) (a : Z) : Z :=
  match n with O => 0 | S n' => peek m a + 256 * le_load n' m (a + 1) end.
Fixpoint le_store (n : nat) (v : Z) (a : Z) (m : mem) : mem :=
  match n with O => m | S n' => le_store n' (v / 256) (a + 1) (<[a := v mod 256]> m) end.
Fixpoint peeks (n : nat) (m : mem) (a : Z) : bytes :=
  match n with O => [] | S n' => peek m a :: peeks n' m (a + 1) end.
Fixpoint pokes (l : bytes) (a : Z) (m : mem) : mem :=
  match l with [] => m | x :: l' => pokes l' (a + 1) (<[a := x]> m) end.
(** Fresh pages read as zero. *)
Definition zeroed (a n : Z) (m : mem) : mem := filter (fun kv => kv.1 < a \/ a + n <= kv.1) m.

(** [m'] is [m] outside the [n] bytes at [a]. *)
Definition frame (a n : Z) (m m' : mem) : Prop := forall x, x < a \/ a + n <= x -> peek m' x = peek m x.
Lemma frame_refl a n m : frame a n m m.
Proof. by intros x _. Qed.
Lemma frame_trans a n m1 m2 m3 : frame a n m1 m2 -> frame a n m2 m3 -> frame a n m1 m3.
Proof. intros H1 H2 x Hx. rewrite (H2 x Hx). by apply H1. Qed.
Lemma frame_sub a n a' n' m m' : frame a n m m' -> a' <= a -> a + n <= a' + n' -> frame a' n' m m'.
Proof. intros H H1 H2 x Hx. apply H. lia. Qed.
Lemma peek_insert m a x b : peek (<[a := x]> m) b = if decide (b = a) then x else peek m b.
Proof. unfold peek. rewrite lookup_insert. repeat case_decide; congruence || done. Qed.
Lemma frame_insert a n m k v : a <= k < a + n -> frame a n m (<[k := v]> m).
Proof. intros Hk x Hx. rewrite peek_insert, decide_False by lia. done. Qed.
Lemma le_store_frame k v a m n : Z.of_nat k <= n -> frame a n m (le_store k v a m).
Proof.
  revert v a m n. induction k as [|k IH]; intros v a m n Hk; cbn; [apply frame_refl|].
  eapply frame_trans; [apply (frame_insert a n m a (v mod 256)); lia|]. eapply frame_sub; [apply (IH _ _ _ (n - 1)); lia|lia|lia].
Qed.
Lemma pokes_frame l a m n : Z.of_nat (length l) <= n -> frame a n m (pokes l a m).
Proof.
  revert a m n. induction l as [|x l IH]; intros a m n Hk; cbn in *; [apply frame_refl|].
  eapply frame_trans; [apply (frame_insert a n m a x); lia|]. eapply frame_sub; [apply (IH _ _ (n - 1)); lia|lia|lia].
Qed.
Lemma zeroed_frame a n m : frame a n m (zeroed a n m).
Proof.
  intros x Hx. unfold peek, zeroed. destruct (m !! x) as [v|] eqn:E.
  - by rewrite (map_lookup_filter_Some_2 _ _ _ _ E) by (cbn; lia).
  - by rewrite map_lookup_filter_None_2 by (by left).
Qed.
Lemma peek_zeroed a n m x : a <= x < a + n -> peek (zeroed a n m) x = 0.
Proof. intros Hx. unfold peek, zeroed. rewrite map_lookup_filter_None_2; [done|]. right. intros y _. cbn. lia. Qed.

Lemma le_load_frame k a n m m' b : frame a n m m' -> b + Z.of_nat k <= a \/ a + n <= b -> le_load k m' b = le_load k m b.
Proof.
  intros HF. revert b. induction k as [|k IH]; intros b Hb; cbn; [done|].
  rewrite (HF b) by lia. rewrite IH by lia. done.
Qed.
Lemma peeks_frame k a n m m' b : frame a n m m' -> b + Z.of_nat k <= a \/ a + n <= b -> peeks k m' b = peeks k m b.
Proof.
  intros HF. revert b. induction k as [|k IH]; intros b Hb; cbn; [done|].
  rewrite (HF b) by lia. rewrite IH by lia. done.
Qed.
Lemma le_load_store k v a m : le_load k (le_store k v a m) a = v mod 256 ^ Z.of_nat k.
Proof.
  revert v a m. induction k as [|k IH]; intros v a m; cbn [le_load le_store]; [by rewrite Z.mod_1_r|].
  rewrite IH, (le_store_frame k _ (a + 1) _ (Z.of_nat k) ltac:(lia) a) by lia. rewrite peek_insert, decide_True by done.
  replace (Z.of_nat (S k)) with (1 + Z.of_nat k) by lia. rewrite Z.pow_add_r by lia.
  change (256 ^ 1) with 256. rewrite Z.rem_mul_r by lia. done.
Qed.
Lemma length_peeks k m a : length (peeks k m a) = k.
Proof. revert a. induction k; intros a; cbn; [done|]. by rewrite IHk. Qed.
Lemma peeks_pokes l a m : peeks (length l) (pokes l a m) a = l.
Proof.
  revert a m. induction l as [|x l IH]; intros a m; cbn; [done|].
  rewrite IH, (pokes_frame l (a + 1) _ (Z.of_nat (length l)) ltac:(lia) a) by lia. by rewrite peek_insert, decide_True.
Qed.
Lemma lookup_peeks k m a i : (i < k)%nat -> peeks k m a !! i = Some (peek m (a + Z.of_nat i)).
Proof.
  revert a i. induction k as [|k IH]; intros a i Hi; [lia|]. destruct i as [|i]; cbn; [do 2 f_equal; lia|].
  rewrite IH by lia. do 2 f_equal. lia.
Qed.
Lemma take_peeks j k m a : (j <= k)%nat -> take j (peeks k m a) = peeks j m a.
Proof. revert j a. induction k as [|k IH]; intros [|j] a Hj; cbn; [done|lia|done|]. by rewrite IH by lia. Qed.
Lemma peeks_app j k m a : peeks (j + k) m a = peeks j m a ++ peeks k m (a + Z.of_nat j).
Proof.
  revert a. induction j as [|j IH]; intros a; cbn; [f_equal; lia|]. rewrite IH. do 3 f_equal. lia.
Qed.
Lemma peek_poke_in l a m i x : l !! i = Some x -> peek (pokes l a m) (a + Z.of_nat i) = x.
Proof.
  intros H. pose proof (lookup_lt_Some _ _ _ H) as Hl. pose proof (lookup_peeks (length l) (pokes l a m) a i Hl) as E.
  rewrite peeks_pokes, H in E. by injection E.
Qed.

(** ** The back ends *)
(** [VMemAlloc] and [VMemFree] hand out regions (address and size, rounded to pages; the new pages
    are zeroed) of the kernel's address space; [rust_kmalloc] and [rust_kfree] manage blocks of
    up to 64 KB.  The address 0 is NULL. *)
Class Backend (V : Type) := {
  vm_live : V -> list (Z * Z);
  VMemAlloc : Z -> V -> option (Z * V);
  VMemFree : Z -> Z -> V -> option V;
  rust_kmalloc : Z -> V -> option (Z * V);
  rust_kfree : Z -> V -> option V
}.
Definition PAGE_SIZE : Z := 4096.
Definition page_up (n : Z) : Z := (n + 4095) / 4096 * 4096.
Definition apart (r r' : Z * Z) : Prop := r.1 + r.2 <= r'.1 \/ r'.1 + r'.2 <= r.1.
(** What the heap relies on: a region handed out is page-aligned, in the lower half of the address
    space and apart from every live one. *)
Class BackendLaws (V : Type) `{!Backend V} := {
  vm_ok : V -> Prop;
  vm_apart v r r' : vm_ok v -> r ∈ vm_live v -> r' ∈ vm_live v -> r <> r' -> apart r r';
  vm_range v r : vm_ok v -> r ∈ vm_live v -> 0 < r.1 /\ 0 < r.2 /\ r.1 + r.2 <= 2 ^ 47 /\ r.1 mod 4096 = 0;
  vm_alloc_spec v n : vm_ok v -> 0 < n <= 2 ^ 30 -> exists a v', VMemAlloc n v = Some (a, v') /\ vm_ok v' /\
    (a = 0 /\ vm_live v' = vm_live v \/
     vm_live v' = (a, page_up n) :: vm_live v /\ forall r, r ∈ vm_live v -> apart (a, page_up n) r);
  vm_free_spec v a n r1 r2 : vm_ok v -> vm_live v = r1 ++ (a, page_up n) :: r2 -> 0 < n <= 2 ^ 30 ->
    exists v', VMemFree a n v = Some v' /\ vm_ok v' /\ vm_live v' = r1 ++ r2
}.
Lemma page_up_ge n : n <= page_up n < n + 4096.
Proof. unfold page_up. dlia. Qed.
