(* ===== verification/Magazine.v ===== *)
(** The kernel heap ([src/mm/dynamic/c/Magazine.c], [src/mm/KernelHeap.h]): per-CPU magazines of
    free blocks over a depot of magazines and slabs, and the dispatch by size to it, to the Rust
    allocator and to whole pages.  Magazines are pool indices, blocks and slabs are addresses. *)
From Stdlib Require Import ZArith Lia.
From stdpp Require Import base tactics list gmap sets numbers option.
From S2P Require Import Prelude ByteMem.

Definition MAX_CPU_CORES : nat := 64.
Definition MAGAZINE_CAPACITY : nat := 32.
Definition NUM_SIZE_CLASSES : nat := 8.
Definition size_classes : list Z := [16; 32; 64; 128; 256; 512; 768; 1024].
Definition SLAB_SIZE : Z := 4 * PAGE_SIZE.
Definition LARGE_BLOCK_MAGIC : Z := 0x4C42484D41474E31.
Definition MAGAZINE_BLOCK_MAGIC : Z := 0x4D42484D41474E31.
Definition MAGAZINE_POOL_SIZE : nat := (MAX_CPU_CORES * NUM_SIZE_CLASSES * 2)%nat.
Definition KHEAP_VALIDATION_NONE : Z := 0.
Definition KHEAP_VALIDATION_BASIC : Z := 1.
Definition KHEAP_VALIDATION_FULL : Z := 2.
(** [sizeof] of [MagazineBlockHeader] and [LargeBlockHeader], and of [Slab]. *)
Definition header_size : Z := 16.
Definition sizeof_Slab : Z := 72.

(** ** State *)
Record Magazine := mk_magazine { blocks : list Z; count : Z; mag_next : option nat }.
Record Slab := mk_slab {
  slab_next : Z; base_ptr : Z; alloc_base : Z; alloc_size : Z; block_size : Z;
  size_class_index : Z; total_blocks : Z; free_blocks : Z; free_list_head : Z; cookie : Z }.
Record SizeClassDepot := mk_depot {
  full_magazines : option nat; partial_magazines : option nat; empty_magazines : option nat; slabs : Z }.
Inductive counter := alloc_fast_hits | alloc_slow_refills | free_fast_hits | free_slow_paths | magazine_swaps | slabs_allocated.
Record heap {V : Type} := mk_heap {
  depot : list SizeClassDepot;
  per_cpu_caches : list (list (option nat));
  magazine_pool : list Magazine;
  magazine_pool_head : option nat;
  heap_stats_per_cpu : counter -> list (list Z);
  g_validation_level : Z;
  g_stats_enabled : bool;
  slab_at : gmap Z Slab;
  memory : mem;
  back : V }.
Arguments heap : clear implicits.

Definition counter_eqb (a b : counter) : bool :=
  match a, b with
  | alloc_fast_hits, alloc_fast_hits | alloc_slow_refills, alloc_slow_refills | free_fast_hits, free_fast_hits
  | free_slow_paths, free_slow_paths | magazine_swaps, magazine_swaps | slabs_allocated, slabs_allocated => true
  | _, _ => false
  end.

Section magazine.
Context {V : Type} `{!Backend V}.
Notation M := (STM (heap V)).
Implicit Types (s : heap V).

Definition set_depot d s := mk_heap V d (per_cpu_caches s) (magazine_pool s) (magazine_pool_head s) (heap_stats_per_cpu s) (g_validation_level s) (g_stats_enabled s) (slab_at s) (memory s) (back s).
Definition set_caches c s := mk_heap V (depot s) c (magazine_pool s) (magazine_pool_head s) (heap_stats_per_cpu s) (g_validation_level s) (g_stats_enabled s) (slab_at s) (memory s) (back s).
Definition set_pool p s := mk_heap V (depot s) (per_cpu_caches s) p (magazine_pool_head s) (heap_stats_per_cpu s) (g_validation_level s) (g_stats_enabled s) (slab_at s) (memory s) (back s).
Definition set_pool_head h s := mk_heap V (depot s) (per_cpu_caches s) (magazine_pool s) h (heap_stats_per_cpu s) (g_validation_level s) (g_stats_enabled s) (slab_at s) (memory s) (back s).
Definition set_stats t s := mk_heap V (depot s) (per_cpu_caches s) (magazine_pool s) (magazine_pool_head s) t (g_validation_level s) (g_stats_enabled s) (slab_at s) (memory s) (back s).
Definition set_level l s := mk_heap V (depot s) (per_cpu_caches s) (magazine_pool s) (magazine_pool_head s) (heap_stats_per_cpu s) l (g_stats_enabled s) (slab_at s) (memory s) (back s).
Definition set_enabled e s := mk_heap V (depot s) (per_cpu_caches s) (magazine_pool s) (magazine_pool_head s) (heap_stats_per_cpu s) (g_validation_level s) e (slab_at s) (memory s) (back s).
Definition set_slab_at t s := mk_heap V (depot s) (per_cpu_caches s) (magazine_pool s) (magazine_pool_head s) (heap_stats_per_cpu s) (g_validation_level s) (g_stats_enabled s) t (memory s) (back s).
Definition set_memory m s := mk_heap V (depot s) (per_cpu_caches s) (magazine_pool s) (magazine_pool_head s) (heap_stats_per_cpu s) (g_validation_level s) (g_stats_enabled s) (slab_at s) m (back s).
Definition set_back v s := mk_heap V (depot s) (per_cpu_caches s) (magazine_pool s) (magazine_pool_head s) (heap_stats_per_cpu s) (g_validation_level s) (g_stats_enabled s) (slab_at s) (memory s) v.
Definition upd (f : heap V -> heap V) : M unit := fun s => Some (tt, f s).

(** ** Objects and memory *)
(** An access of [n] bytes is inside a live region, or a fault. *)
Definition mapped (v : V) (a n : Z) : bool := existsb (fun r => (r.1 <=? a) && (a + n <=? r.1 + r.2)) (vm_live v).
Definition load (n : nat) (a : Z) : M Z := fun s =>
  if mapped (back s) a (Z.of_nat n) then Some (le_load n (memory s) a, s) else None.
Definition store (n : nat) (a v : Z) : M unit := fun s =>
  if mapped (back s) a (Z.of_nat n) then Some (tt, set_memory (le_store n v a (memory s)) s) else None.
Definition FastMemset (a c n : Z) : M unit := fun s =>
  if n <=? 0 then Some (tt, s) else
  if mapped (back s) a n then Some (tt, set_memory (pokes (replicate (Z.to_nat n) c) a (memory s)) s) else None.
Definition FastMemcpy (dst src n : Z) : M unit := fun s =>
  if n <=? 0 then Some (tt, s) else
  if mapped (back s) src n && mapped (back s) dst n
  then Some (tt, set_memory (pokes (peeks (Z.to_nat n) (memory s) src) dst (memory s)) s) else None.
Definition vm_alloc (n : Z) : M Z := fun s =>
  '(a, v) ← VMemAlloc n (back s);
  Some (a, set_back v (if a =? 0 then s else set_memory (zeroed a (page_up n) (memory s)) s)).
Definition vm_free (a n : Z) : M unit := fun s => v ← VMemFree a n (back s); Some (tt, set_back v s).

Definition get_mag (i : nat) : M Magazine := fun s => m ← magazine_pool s !! i; Some (m, s).
Definition upd_mag (i : nat) (f : Magazine -> Magazine) : M unit := fun s =>
  m ← magazine_pool s !! i; Some (tt, set_pool (<[i := f m]> (magazine_pool s)) s).
Definition get_depot (sc : Z) : M SizeClassDepot := fun s => d ← arr_get (depot s) sc; Some (d, s).
Definition upd_depot (sc : Z) (f : SizeClassDepot -> SizeClassDepot) : M unit := fun s =>
  d ← arr_get (depot s) sc; l ← arr_set (depot s) sc (f d); Some (tt, set_depot l s).
Definition get_slab (a : Z) : M Slab := fun s => b ← slab_at s !! a; Some (b, s).
Definition put_slab (a : Z) (b : Slab) : M unit := upd (fun s => set_slab_at (<[a := b]> (slab_at s)) s).
Definition get_active (cpu sc : Z) : M (option nat) := fun s =>
  c ← arr_get (per_cpu_caches s) cpu; o ← arr_get c sc; Some (o, s).
Definition set_active (cpu sc : Z) (o : option nat) : M unit := fun s =>
  c ← arr_get (per_cpu_caches s) cpu; c' ← arr_set c sc o; l ← arr_set (per_cpu_caches s) cpu c'; Some (tt, set_caches l s).

Definition set_count c (m : Magazine) := mk_magazine (blocks m) c (mag_next m).
Definition set_next o (m : Magazine) := mk_magazine (blocks m) (count m) o.
Definition set_blocks l (m : Magazine) := mk_magazine l (count m) (mag_next m).
Definition set_full o (d : SizeClassDepot) := mk_depot o (partial_magazines d) (empty_magazines d) (slabs d).
Definition set_partial o (d : SizeClassDepot) := mk_depot (full_magazines d) o (empty_magazines d) (slabs d).
Definition set_empty o (d : SizeClassDepot) := mk_depot (full_magazines d) (partial_magazines d) o (slabs d).
Definition set_slabs a (d : SizeClassDepot) := mk_depot (full_magazines d) (partial_magazines d) (empty_magazines d) a.
Definition set_free (h n : Z) (b : Slab) := mk_slab (slab_next b) (base_ptr b) (alloc_base b) (alloc_size b) (block_size b)
  (size_class_index b) (total_blocks b) n h (cookie b).
Definition set_slab_next a (b : Slab) := mk_slab a (base_ptr b) (alloc_base b) (alloc_size b) (block_size b)
  (size_class_index b) (total_blocks b) (free_blocks b) (free_list_head b) (cookie b).

(** ** Statistics *)
Definition bump (c : counter) (cpu sc : Z) : M unit := fun s =>
  row ← arr_get (heap_stats_per_cpu s c) cpu; x ← arr_get row sc;
  row' ← arr_set row sc (u64 (x + 1)); t ← arr_set (heap_stats_per_cpu s c) cpu row';
  Some (tt, set_stats (fun k => if counter_eqb k c then t else heap_stats_per_cpu s k) s).
Definition StatsAdd (cpu sc : Z) (c : counter) : M unit := e ← asks g_stats_enabled; if e : bool then bump c cpu sc else mret tt.
Definition StatsSlabAllocated (cpu sc : Z) : M unit := bump slabs_allocated cpu sc.

(** ** Helpers *)
Fixpoint class_from (size i : Z) (l : list Z) : Z :=
  match l with [] => -1 | c :: l' => if size <=? c then i else class_from size (i + 1) l' end.
Definition GetSizeClass (size : Z) : Z := class_from size 0 size_classes.
Definition class_size (sc : Z) : M Z := fun s => c ← arr_get size_classes sc; Some (c, s).

Definition AllocMagazine : M (option nat) :=
  h ← asks magazine_pool_head;
  match h with
  | None => mret None
  | Some i =>
      m ← get_mag i;
      upd (set_pool_head (mag_next m));;
      upd_mag i (set_count 0);;
      upd_mag i (set_next None);;
      mret (Some i)
  end.
Definition FreeMagazine (i : nat) : M unit :=
  h ← asks magazine_pool_head;
  upd_mag i (set_next h);;
  upd (set_pool_head (Some i)).

(** [lock_ok]: the spinlock of the depot could be made. *)
Definition link_pool (l : list Magazine) : list Magazine :=
  let n := length l in imap (fun i m => set_next (if (S i <? n)%nat then Some (S i) else None) m) l.
Definition MagazineInit (lock_ok : bool) : M unit :=
  if negb lock_ok then fault else
  upd (set_depot (replicate NUM_SIZE_CLASSES (mk_depot None None None 0)));;
  upd (set_caches (replicate MAX_CPU_CORES (replicate NUM_SIZE_CLASSES None)));;
  upd (set_pool_head (Some 0%nat));;
  upd (fun s => set_pool (link_pool (magazine_pool s)) s).

(** ** The depot *)
(** [mag->blocks[mag->count++] = block]. *)
Definition push_block (i : nat) (b : Z) : M unit :=
  m ← get_mag i;
  l ← lift (arr_set (blocks m) (count m) b);
  upd_mag i (fun m => set_count (u32 (count m + 1)) (set_blocks l m)).
Fixpoint fill_loop (n : nat) (a : Z) (i : nat) : M unit :=
  match n with
  | O => mret tt
  | S n' =>
      sl ← get_slab a;
      if negb (0 <? free_blocks sl) then mret tt else
      let block := free_list_head sl in
      (if block =? 0 then mret tt else
         nx ← load 8 block;
         push_block i block;;
         put_slab a (set_free nx (u32 (free_blocks sl - 1)) sl));;
      fill_loop n' a i
  end.
(** The first slab of the list with free blocks, or 0. *)
Fixpoint find_slab (n : nat) (a : Z) : M Z :=
  match n with
  | O => fault
  | S n' =>
      if a =? 0 then mret 0 else
      sl ← get_slab a;
      if 0 <? free_blocks sl then mret a else find_slab n' (slab_next sl)
  end.
Definition slab_fuel s : nat := S (size (slab_at s)).
(** The loop that threads the blocks [i], ..., [total - 1] of a new slab. *)
Fixpoint thread_loop (n : nat) (base chunk i head : Z) : M Z :=
  match n with
  | O => mret head
  | S n' =>
      let block := base + i * chunk in
      store 8 block head;;
      thread_loop n' base chunk (i + 1) block
  end.
Definition empty_magazine (sc : Z) : M (option nat) :=
  d ← get_depot sc;
  match empty_magazines d with
  | Some i =>
      m ← get_mag i;
      upd_depot sc (set_empty (mag_next m));;
      upd_mag i (set_next None);;
      upd_mag i (set_count 0);;
      mret (Some i)
  | None => AllocMagazine
  end.
Definition new_slab (cpu tsc sc : Z) : M Z :=
  a ← vm_alloc sizeof_Slab;
  if a =? 0 then mret 0 else
  base ← vm_alloc SLAB_SIZE;
  if base =? 0 then vm_free a sizeof_Slab;; mret 0 else
  c ← class_size sc;
  let chunk_size := header_size + c in
  let total := u32 (SLAB_SIZE / chunk_size) in
  let sl := mk_slab 0 base base SLAB_SIZE chunk_size sc total total 0 (Z.lxor tsc a) in
  head ← thread_loop (Z.to_nat total) base chunk_size 0 0;
  d ← get_depot sc;
  put_slab a (set_slab_next (slabs d) (set_free head total sl));;
  upd_depot sc (set_slabs a);;
  StatsSlabAllocated cpu sc;;
  mret a.
Definition DepotRefill (cpu tsc sc : Z) : M (option nat) :=
  d ← get_depot sc;
  match full_magazines d with
  | Some i =>
      m ← get_mag i;
      upd_depot sc (set_full (mag_next m));;
      upd_mag i (set_next None);;
      mret (Some i)
  | None =>
  match partial_magazines d with
  | Some i =>
      m ← get_mag i;
      upd_depot sc (set_partial (mag_next m));;
      upd_mag i (set_next None);;
      mret (Some i)
  | None =>
      o ← empty_magazine sc;
      match o with
      | None => mret None
      | Some i =>
          n ← asks slab_fuel;
          a ← find_slab n (slabs d);
          if negb (a =? 0) then fill_loop MAGAZINE_CAPACITY a i;; mret (Some i) else
          a' ← new_slab cpu tsc sc;
          if a' =? 0 then FreeMagazine i;; mret None else
          fill_loop MAGAZINE_CAPACITY a' i;;
          mret (Some i)
      end
  end end.
Definition DepotReturn (i : nat) (sc : Z) : M unit :=
  m ← get_mag i;
  d ← get_depot sc;
  if Z.of_nat MAGAZINE_CAPACITY <=? count m then
    upd_mag i (set_count (Z.of_nat MAGAZINE_CAPACITY));;
    upd_mag i (set_next (full_magazines d));;
    upd_depot sc (set_full (Some i))
  else if 0 <? count m then
    upd_mag i (set_next (partial_magazines d));;
    upd_depot sc (set_partial (Some i))
  else
    upd_mag i (set_next (empty_magazines d));;
    upd_depot sc (set_empty (Some i)).

(** ** Allocation *)
(** The block on top of a magazine, with its header written. *)
Definition take_block (i : nat) (sc : Z) : M Z :=
  upd_mag i (fun m => set_count (u32 (count m - 1)) m);;
  m ← get_mag i;
  raw_block ← lift (arr_get (blocks m) (count m));
  store 8 raw_block MAGAZINE_BLOCK_MAGIC;;
  store 1 (raw_block + 8) sc;;
  let user_ptr := raw_block + header_size in
  level ← asks g_validation_level;
  c ← class_size sc;
  (if level =? KHEAP_VALIDATION_FULL then FastMemset user_ptr 0xCD c else mret tt);;
  mret user_ptr.
Definition has_blocks (o : option nat) : M bool :=
  match o with
  | None => mret false
  | Some i => m ← get_mag i; mret (0 <? count m)
  end.
Definition MagazineAlloc (cpu tsc size : Z) : M Z :=
  if size =? 0 then mret 0 else
  let sc_idx := GetSizeClass size in
  if sc_idx <? 0 then fault else
  o ← get_active cpu sc_idx;
  b ← has_blocks o;
  match o, b with
  | Some i, true => StatsAdd cpu sc_idx alloc_fast_hits;; take_block i sc_idx
  | _, _ =>
      r ← DepotRefill cpu tsc sc_idx;
      match r with
      | None => mret 0
      | Some i =>
          StatsAdd cpu sc_idx alloc_slow_refills;;
          StatsAdd cpu sc_idx magazine_swaps;;
          set_active cpu sc_idx (Some i);;
          take_block i sc_idx
      end
  end.

(** ** Freeing *)
Definition PoisonOnFreeSmall (ptr size : Z) : M unit :=
  level ← asks g_validation_level;
  if level =? KHEAP_VALIDATION_NONE then mret tt else
  if level =? KHEAP_VALIDATION_BASIC then FastMemset ptr 0xDD (if size <? 32 then size else 32)
  else FastMemset ptr 0xDD size.
Definition has_room (o : option nat) : M bool :=
  match o with
  | None => mret false
  | Some i => m ← get_mag i; mret (count m <? Z.of_nat MAGAZINE_CAPACITY)
  end.
Definition MagazineFree (cpu ptr : Z) : M unit :=
  if ptr =? 0 then mret tt else
  let header := u64 (ptr - header_size) in
  magic ← load 8 header;
  if magic =? MAGAZINE_BLOCK_MAGIC then
    sc_idx ← load 1 (header + 8);
    o ← get_active cpu sc_idx;
    b ← has_room o;
    c ← class_size sc_idx;
    match o, b with
    | Some i, true =>
        PoisonOnFreeSmall ptr c;;
        push_block i header;;
        StatsAdd cpu sc_idx free_fast_hits
    | _, _ =>
        (match o with Some i => DepotReturn i sc_idx | None => mret tt end);;
        n ← AllocMagazine;
        match n with
        | None => fault
        | Some j =>
            PoisonOnFreeSmall ptr c;;
            upd_mag j (fun m => set_next None (set_count 1 (set_blocks (<[0%nat := header]> (blocks m)) m)));;
            set_active cpu sc_idx (Some j);;
            StatsAdd cpu sc_idx free_slow_paths;;
            StatsAdd cpu sc_idx magazine_swaps
        end
    end
  else if magic =? LARGE_BLOCK_MAGIC then
    n ← load 8 (header + 8);
    level ← asks g_validation_level;
    (if negb (level =? KHEAP_VALIDATION_NONE) then FastMemset ptr 0xDD n else mret tt);;
    vm_free header (u64 (n + header_size))
  else
    fun s => v ← rust_kfree ptr (back s); Some (tt, set_back v s).

(** ** The rest of the interface *)
Definition MagazineAllocate (cpu tsc num size : Z) : M Z :=
  if (0 <? num) && ((2 ^ 64 - 1) / num <? size) then mret 0 else
  let total_size := u64 (num * size) in
  ptr ← MagazineAlloc cpu tsc total_size;
  (if ptr =? 0 then mret tt else FastMemset ptr 0 total_size);;
  mret ptr.
Definition MagazineReallocate (cpu tsc ptr size : Z) : M Z :=
  if ptr =? 0 then MagazineAlloc cpu tsc size else
  if size =? 0 then MagazineFree cpu ptr;; mret 0 else
  let header := u64 (ptr - header_size) in
  magic ← load 8 header;
  old_size ← (if magic =? MAGAZINE_BLOCK_MAGIC then sc ← load 1 (header + 8); class_size sc
              else if magic =? LARGE_BLOCK_MAGIC then load 8 (header + 8) else fault);
  new_ptr ← MagazineAlloc cpu tsc size;
  if new_ptr =? 0 then mret 0 else
  FastMemcpy new_ptr ptr (if size <? old_size then size else old_size);;
  MagazineFree cpu ptr;;
  mret new_ptr.
Definition flush_one (cpu sc : Z) : M unit :=
  o ← get_active cpu sc;
  match o with
  | Some i => DepotReturn i sc;; set_active cpu sc None
  | None => mret tt
  end.
Fixpoint flush_classes (n : nat) (cpu sc : Z) : M unit :=
  match n with O => mret tt | S n' => flush_one cpu sc;; flush_classes n' cpu (sc + 1) end.
Fixpoint flush_cpus (n : nat) (cpu : Z) : M unit :=
  match n with O => mret tt | S n' => flush_classes NUM_SIZE_CLASSES cpu 0;; flush_cpus n' (cpu + 1) end.
Definition MagazineFlushCaches : M unit := flush_cpus MAX_CPU_CORES 0.
Definition MagazineSetValidationLevel (level : Z) : M unit :=
  let level := if level <? KHEAP_VALIDATION_NONE then KHEAP_VALIDATION_NONE else level in
  let level := if KHEAP_VALIDATION_FULL <? level then KHEAP_VALIDATION_FULL else level in
  upd (set_level level).
Definition MagazineSetPerfMode (mode : Z) : M unit := upd (set_enabled (negb (mode =? 0))).
(** The six numbers [MagazinePrintStats] shows for a size class, and their totals. *)
Definition class_stat s (c : counter) (sc : nat) : Z :=
  fold_left (fun x row => u64 (x + nth sc row 0)) (heap_stats_per_cpu s c) 0.
Definition MagazinePrintStats s : list (list Z) * list Z :=
  let cs := [alloc_fast_hits; alloc_slow_refills; free_fast_hits; free_slow_paths; magazine_swaps; slabs_allocated] in
  (map (fun sc => map (fun c => class_stat s c sc) cs) (seq 0 NUM_SIZE_CLASSES),
   map (fun c => fold_left (fun x sc => u64 (x + class_stat s c sc)) (seq 0 NUM_SIZE_CLASSES) 0) cs).

(** ** Dispatch by size ([KernelHeap.h]) *)
Definition MAGAZINE_MAX_SIZE : Z := 1024.
Definition RUST_MAX_SIZE : Z := 64 * 1024.
Definition LargeBlockAlloc (size : Z) : M Z :=
  raw_mem ← vm_alloc (u64 (header_size + size));
  if raw_mem =? 0 then mret 0 else
  store 8 raw_mem LARGE_BLOCK_MAGIC;;
  store 8 (raw_mem + 8) size;;
  mret (raw_mem + header_size).
Definition HybridFree (cpu ptr : Z) : M unit :=
  if ptr =? 0 then mret tt else
  let header := u64 (ptr - header_size) in
  magic ← load 8 header;
  if magic =? MAGAZINE_BLOCK_MAGIC then MagazineFree cpu ptr else
  if magic =? LARGE_BLOCK_MAGIC then
    n ← load 8 (header + 8);
    vm_free header (u64 (n + header_size))
  else fun s => v ← rust_kfree ptr (back s); Some (tt, set_back v s).
Definition KernelMemoryAlloc (cpu tsc size : Z) : M Z :=
  if size <=? MAGAZINE_MAX_SIZE then MagazineAlloc cpu tsc size else
  if size <=? RUST_MAX_SIZE then (fun s => '(a, v) ← rust_kmalloc size (back s); Some (a, set_back v s))
  else LargeBlockAlloc size.
Definition KernelAllocate (cpu tsc num size : Z) : M Z := KernelMemoryAlloc cpu tsc (u64 (num * size)).
Definition KernelReallocate (cpu tsc ptr size : Z) : M Z := MagazineReallocate cpu tsc ptr size.
Definition KernelFree (cpu ptr : Z) : M unit := HybridFree cpu ptr.
End magazine.
