(* ===== verification/MagInv.v ===== *)
(** The invariant of the kernel heap: who owns each magazine and each block, and how the lists of
    the depot, the slabs and the memory represent it.  The live blocks are a finite map from
    pointers to contents. *)
From Stdlib Require Import ZArith Lia.
From stdpp Require Import base tactics list gmap sets numbers option.
From S2P Require Import Prelude ByteMem Magazine.

(** ** Linked lists *)
Fixpoint linked {K} (nxt : K -> option (option K)) (h : option K) (l : list K) : Prop :=
  match l with
  | [] => h = None
  | k :: l' => h = Some k /\ exists o, nxt k = Some o /\ linked nxt o l'
  end.
Lemma linked_ext {K} (nxt nxt' : K -> option (option K)) h l :
  (forall k, k ∈ l -> nxt' k = nxt k) -> linked nxt h l -> linked nxt' h l.
Proof.
  revert h. induction l as [|k l IH]; intros h He; cbn; [done|]. intros (-> & o & Ho & Hl). split; [done|].
  exists o. split; [rewrite He; [done|set_solver]|]. apply IH; [|done]. intros k' Hk'. apply He. set_solver.
Qed.
Lemma linked_head {K} (nxt : K -> option (option K)) k l : linked nxt (Some k) l -> exists l' o, l = k :: l' /\ nxt k = Some o /\ linked nxt o l'.
Proof. destruct l as [|k' l']; cbn; [done|]. intros ([= ->] & o & ? & ?). by eexists _, _. Qed.
Lemma linked_nil {K} (nxt : K -> option (option K)) l : linked nxt None l -> l = [].
Proof. destruct l; cbn; [done|]. by intros [? _]. Qed.
Definition ptr (z : Z) : option Z := if z =? 0 then None else Some z.
Lemma ptr_some z : z <> 0 -> ptr z = Some z.
Proof. intros H. unfold ptr. by rewrite (proj2 (Z.eqb_neq z 0)). Qed.
Lemma ptr_inv z k : ptr z = Some k -> z = k /\ z <> 0.
Proof. unfold ptr. destruct (Z.eqb_spec z 0); [done|]. intros [= ->]. done. Qed.
Lemma ptr_none z : ptr z = None -> z = 0.
Proof. unfold ptr. by destruct (Z.eqb_spec z 0). Qed.
Definition fn_set {A B} `{!EqDecision A} (f : A -> B) (a : A) (b : B) : A -> B := fun x => if decide (x = a) then b else f x.
Lemma fn_set_eq {A B} `{!EqDecision A} (f : A -> B) a b : fn_set f a b a = b.
Proof. unfold fn_set. by rewrite decide_True. Qed.
Lemma fn_set_ne {A B} `{!EqDecision A} (f : A -> B) a b x : x <> a -> fn_set f a b x = f x.
Proof. intros H. unfold fn_set. by rewrite decide_False. Qed.

(** ** Size classes *)
Definition csize (sc : Z) : Z := default 0 (arr_get size_classes sc).
Definition chunk (sc : Z) : Z := header_size + csize sc.
Definition per_slab (sc : Z) : Z := SLAB_SIZE / chunk sc.
Lemma class_cases sc : 0 <= sc < 8 -> sc = 0 \/ sc = 1 \/ sc = 2 \/ sc = 3 \/ sc = 4 \/ sc = 5 \/ sc = 6 \/ sc = 7.
Proof. lia. Qed.
Lemma class_facts sc : 0 <= sc < 8 -> arr_get size_classes sc = Some (csize sc) /\ 16 <= csize sc <= 1024 /\ csize sc mod 16 = 0 /\
  chunk sc = 16 + csize sc /\ 0 < per_slab sc <= 512 /\ per_slab sc * chunk sc <= SLAB_SIZE.
Proof. intros H. destruct (class_cases sc H) as [-> | [-> | [-> | [-> | [-> | [-> | [-> | -> ]]]]]]]; by vm_compute. Qed.
Lemma class_from_spec n i l : class_from n i l = -1 \/
  exists k c, class_from n i l = i + Z.of_nat k /\ l !! k = Some c /\ n <= c /\ forall j c', (j < k)%nat -> l !! j = Some c' -> c' < n.
Proof.
  revert i. induction l as [|c l IH]; intros i; cbn; [by left|]. destruct (Z.leb_spec n c) as [Hc|Hc].
  - right. exists 0%nat, c. split_and!; [lia|done|done|intros; lia].
  - destruct (IH (i + 1)) as [->|(k & c' & -> & H1 & H2 & H3)]; [by left|]. right. exists (S k), c'. split_and!; [lia|done|done|].
    intros [|j] c'' Hj; cbn; [by intros [= <-]|]. apply H3. lia.
Qed.
(** The class of a size is the first one that holds it; there is one up to 1024 bytes. *)
Lemma class_ok n : 0 < n <= 1024 -> 0 <= GetSizeClass n < 8 /\ n <= csize (GetSizeClass n) /\
  forall sc, 0 <= sc < GetSizeClass n -> csize sc < n.
Proof.
  intros Hn. unfold GetSizeClass. destruct (class_from_spec n 0 size_classes) as [E|(k & c & E & H1 & H2 & H3)].
  - exfalso. revert E. unfold size_classes. cbn [class_from]. repeat match goal with |- context [n <=? ?c] => destruct (Z.leb_spec n c); [lia|] end. lia.
  - rewrite E, Z.add_0_l. pose proof (lookup_lt_Some _ _ _ H1) as Hk. change (length size_classes) with 8%nat in Hk.
    split; [lia|]. unfold csize, arr_get. split.
    + rewrite (proj2 (Z.leb_le _ _)) by lia. rewrite Nat2Z.id, H1. done.
    + intros sc Hsc. rewrite (proj2 (Z.leb_le _ _)) by lia. destruct (lookup_lt_is_Some_2 size_classes (Z.to_nat sc)) as [c' Hc']; [change (length size_classes) with 8%nat; lia|].
      rewrite Hc'. cbn. apply (H3 (Z.to_nat sc)); [lia|done].
Qed.
Lemma class_too_big n : 1024 < n -> GetSizeClass n = -1.
Proof. intros Hn. unfold GetSizeClass, size_classes. cbn [class_from]. by repeat match goal with |- context [n <=? ?c] => destruct (Z.leb_spec n c); [lia|] end. Qed.

(** ** Ownership *)
Inductive place := InPool | InFull (sc : Z) | InPart (sc : Z) | InEmpty (sc : Z) | InUse (cpu sc : Z) | Loose (sc : Z).
#[export] Instance place_eq_dec : EqDecision place.
Proof. solve_decision. Defined.
Inductive bplace := InSlab (a : Z) | InMag (i : nat) | Taken.
Record ghost := mk_ghost {
  own : nat -> place;
  bown : Z -> bplace;
  glist : place -> list nat;
  gslabs : Z -> list Z;
  gbase : Z -> Z;
  gflist : Z -> list Z }.
Definition mag_class (p : place) : option Z :=
  match p with InFull sc | InPart sc | InUse _ sc | Loose sc => Some sc | InPool | InEmpty _ => None end.
Definition is_block (g : ghost) (sc b : Z) : Prop :=
  exists a j, a ∈ gslabs g sc /\ 0 <= j < per_slab sc /\ b = gbase g a + j * chunk sc.

Section inv.
Context {V : Type} `{!Backend V} `{!BackendLaws V}.
Implicit Types (s : heap V) (g : ghost) (L : gmap Z bytes).

Definition mnext s (i : nat) : option (option nat) := mag_next <$> magazine_pool s !! i.
Definition snext s (a : Z) : option (option Z) := (fun b => ptr (slab_next b)) <$> slab_at s !! a.
Definition fnext (m : mem) (b : Z) : option (option Z) := Some (ptr (le_load 8 m b)).
Definition mlist g s (h : option nat) (l : list nat) (p : place) : Prop :=
  linked (mnext s) h l /\ NoDup l /\ forall i, i ∈ l -> own g i = p.
Record mag_ok (m : Magazine) : Prop := { mk_len : length (blocks m) = 32%nat; mk_count : 0 <= count m <= 32 }.
Definition held (m : Magazine) : list Z := take (Z.to_nat (count m)) (blocks m).
Definition contents_ok g (i : nat) (sc : Z) (m : Magazine) : Prop :=
  NoDup (held m) /\ forall b, b ∈ held m -> bown g b = InMag i /\ is_block g sc b.
(** The head of the list that a place stands for. *)
Definition head s (p : place) : option (option nat) :=
  match p with
  | InPool => Some (magazine_pool_head s)
  | InFull sc => full_magazines <$> arr_get (depot s) sc
  | InPart sc => partial_magazines <$> arr_get (depot s) sc
  | InEmpty sc => empty_magazines <$> arr_get (depot s) sc
  | InUse _ _ | Loose _ => None
  end.
Record slab_ok g (t : gmap Z Slab) (m : mem) (v : V) (sc a : Z) : Prop := mk_slab_ok {
  so_rec : exists sl, t !! a = Some sl /\ base_ptr sl = gbase g a /\ alloc_base sl = gbase g a /\ alloc_size sl = SLAB_SIZE /\
    block_size sl = chunk sc /\ size_class_index sl = sc /\ total_blocks sl = per_slab sc /\
    free_blocks sl = Z.of_nat (length (gflist g a)) /\ linked (fnext m) (ptr (free_list_head sl)) (gflist g a);
  so_live : (gbase g a, SLAB_SIZE) ∈ vm_live v /\ (a, PAGE_SIZE) ∈ vm_live v /\ (length (gflist g a) <= 512)%nat;
  so_nodup : NoDup (gflist g a);
  so_free : forall b, b ∈ gflist g a -> bown g b = InSlab a /\ is_block g sc b }.
Record live_ok g (m : mem) (p : Z) (bs : bytes) : Prop := mk_live_ok {
  lo_size : 0 < Z.of_nat (length bs) <= 1024;
  lo_own : bown g (p - 16) = Taken;
  lo_block : is_block g (GetSizeClass (Z.of_nat (length bs))) (p - 16);
  lo_magic : le_load 8 m (p - 16) = MAGAZINE_BLOCK_MAGIC;
  lo_class : le_load 1 m (p - 8) = GetSizeClass (Z.of_nat (length bs));
  lo_data : peeks (length bs) m p = bs }.
Definition rows_ok (t : list (list Z)) : Prop := length t = 64%nat /\ Forall (fun r => length r = 8%nat) t.
Record heap_inv g s L : Prop := mk_heap_inv {
  hi_back : vm_ok (back s);
  hi_dep : length (depot s) = 8%nat;
  hi_cache : length (per_cpu_caches s) = 64%nat /\ Forall (fun c => length c = 8%nat) (per_cpu_caches s);
  hi_stats : forall c, rows_ok (heap_stats_per_cpu s c);
  hi_mag : Forall mag_ok (magazine_pool s);
  hi_lists : forall p h, head s p = Some h -> mlist g s h (glist g p) p;
  hi_depot : forall sc d, arr_get (depot s) sc = Some d -> linked (snext s) (ptr (slabs d)) (gslabs g sc) /\ NoDup (gslabs g sc);
  hi_active : forall cpu sc c i, arr_get (per_cpu_caches s) cpu = Some c -> arr_get c sc = Some (Some i) ->
    own g i = InUse cpu sc /\ (i < length (magazine_pool s))%nat;
  hi_contents : forall i m sc, magazine_pool s !! i = Some m -> mag_class (own g i) = Some sc -> contents_ok g i sc m;
  hi_full : forall i m sc, magazine_pool s !! i = Some m -> own g i = InFull sc \/ own g i = InPart sc -> 0 < count m;
  hi_classes : forall sc a, a ∈ gslabs g sc -> 0 <= sc < 8;
  hi_slab : forall sc a, a ∈ gslabs g sc -> slab_ok g (slab_at s) (memory s) (back s) sc a;
  hi_base : forall sc sc' a a', a ∈ gslabs g sc -> a' ∈ gslabs g sc' -> a = a' \/ gbase g a = gbase g a' -> a = a' /\ sc = sc';
  hi_live : forall p bs, L !! p = Some bs -> live_ok g (memory s) p bs }.
Definition heap_ok s L : Prop := exists g, heap_inv g s L.

(** ** Blocks are apart *)
Lemma block_in g s L sc b : heap_inv g s L -> is_block g sc b ->
  0 <= sc < 8 /\ exists a, a ∈ gslabs g sc /\ (gbase g a, SLAB_SIZE) ∈ vm_live (back s) /\ gbase g a <= b /\ b + chunk sc <= gbase g a + SLAB_SIZE.
Proof.
  intros HI (a & j & Ha & Hj & ->). pose proof (hi_classes _ _ _ HI _ _ Ha) as Hsc. split; [done|]. exists a. split; [done|].
  split; [apply (hi_slab _ _ _ HI _ _ Ha)|]. destruct (class_facts sc Hsc) as (_ & ? & _ & ? & ? & ?). nia.
Qed.
Lemma block_range g s L sc b : heap_inv g s L -> is_block g sc b -> 4096 <= b /\ b + chunk sc <= 2 ^ 47 /\ 32 <= chunk sc <= 1040.
Proof.
  intros HI Hb. destruct (block_in _ _ _ _ _ HI Hb) as (Hsc & a & Ha & Hr & H1 & H2).
  destruct (vm_range _ _ (hi_back _ _ _ HI) Hr) as (R1 & _ & R2 & R3). cbn in *. destruct (class_facts sc Hsc) as (_ & ? & _ & ? & ? & ?).
  apply Z.mod_divide in R3 as [k Hk]; [|done]. lia.
Qed.
Lemma blocks_apart g s L sc sc' b b' : heap_inv g s L -> is_block g sc b -> is_block g sc' b' ->
  (b = b' /\ sc = sc') \/ apart (b, chunk sc) (b', chunk sc').
Proof.
  intros HI Hb Hb'. destruct (block_in _ _ _ _ _ HI Hb) as (Hsc & a & Ha & Hr & H1 & H2).
  destruct (block_in _ _ _ _ _ HI Hb') as (Hsc' & a' & Ha' & Hr' & H1' & H2').
  destruct (decide (gbase g a = gbase g a')) as [Eg|Ng].
  - destruct (hi_base _ _ _ HI _ _ _ _ Ha Ha' (or_intror Eg)) as [<- <-].
    destruct Hb as (a1 & j & Ha1 & Hj & ->), Hb' as (a2 & j' & Ha2 & Hj' & ->).
    destruct (class_facts sc Hsc) as (_ & ? & _ & ? & ? & ?). pose proof (hi_slab _ _ _ HI _ _ Ha) as Sa.
    assert (E1 : gbase g a1 = gbase g a /\ gbase g a2 = gbase g a).
    { split; [destruct (decide (gbase g a1 = gbase g a)) as [|N]|destruct (decide (gbase g a2 = gbase g a)) as [|N]]; try done; exfalso.
      - destruct (vm_apart _ _ _ (hi_back _ _ _ HI) (proj1 (so_live _ _ _ _ _ _ (hi_slab _ _ _ HI _ _ Ha1))) Hr) as [D|D]; [congruence|cbn in *; nia..].
      - destruct (vm_apart _ _ _ (hi_back _ _ _ HI) (proj1 (so_live _ _ _ _ _ _ (hi_slab _ _ _ HI _ _ Ha2))) Hr) as [D|D]; [congruence|cbn in *; nia..]. }
    destruct E1 as [-> ->]. destruct (decide (j = j')) as [->|Nj]; [by left|]. right. unfold apart. cbn. nia.
  - right. destruct (vm_apart _ _ _ (hi_back _ _ _ HI) Hr Hr') as [D|D]; [congruence|left|right]; cbn in *; lia.
Qed.
Lemma class_unique g s L sc sc' b : heap_inv g s L -> is_block g sc b -> is_block g sc' b -> sc = sc'.
Proof.
  intros HI H1 H2. destruct (blocks_apart _ _ _ _ _ _ _ HI H1 H2) as [[_ E]|[D|D]]; [done|cbn in D..].
  - destruct (block_range _ _ _ _ _ HI H1). lia.
  - destruct (block_range _ _ _ _ _ HI H2). lia.
Qed.
Lemma block_mapped g s L sc b x n : heap_inv g s L -> is_block g sc b -> b <= x -> x + n <= b + chunk sc -> mapped (back s) x n = true.
Proof.
  intros HI Hb H1 H2. destruct (block_in _ _ _ _ _ HI Hb) as (_ & a & _ & Hr & ? & ?).
  unfold mapped. apply existsb_exists. eexists. split; [by apply list_elem_of_In|]. cbn. by rewrite !(proj2 (Z.leb_le _ _)) by lia.
Qed.
End inv.
