(* ===== verification/MagOps.v ===== *)
(** The steps of the kernel heap keep its invariant: moving a magazine between lists, moving a
    block between owners, writing into a block nobody else uses, taking a block off a magazine and
    putting one back. *)
From Stdlib Require Import ZArith Lia.
From stdpp Require Import base tactics list gmap sets numbers option.
From S2P Require Import Prelude ByteMem Magazine MagInv.

Section ops.
Context {V : Type} `{!Backend V} `{!BackendLaws V}.
Implicit Types (s : heap V) (g : ghost) (L : gmap Z bytes).

(** ** Ghost updates *)
Definition set_own i p g := mk_ghost (fn_set (own g) i p) (bown g) (glist g) (gslabs g) (gbase g) (gflist g).
Definition set_bown b p g := mk_ghost (own g) (fn_set (bown g) b p) (glist g) (gslabs g) (gbase g) (gflist g).
Definition set_glist p l g := mk_ghost (own g) (bown g) (fn_set (glist g) p l) (gslabs g) (gbase g) (gflist g).
Definition set_gflist a l g := mk_ghost (own g) (bown g) (glist g) (gslabs g) (gbase g) (fn_set (gflist g) a l).
Definition set_head p h s : heap V :=
  match p with
  | InPool => set_pool_head h s
  | InFull sc => match arr_get (depot s) sc with Some d => set_depot (<[Z.to_nat sc := set_full h d]> (depot s)) s | None => s end
  | InPart sc => match arr_get (depot s) sc with Some d => set_depot (<[Z.to_nat sc := set_partial h d]> (depot s)) s | None => s end
  | InEmpty sc => match arr_get (depot s) sc with Some d => set_depot (<[Z.to_nat sc := set_empty h d]> (depot s)) s | None => s end
  | InUse _ _ | Loose _ => s
  end.

Lemma mlist_ext g g' s s' h l p : (forall i, i ∈ l -> mnext s' i = mnext s i /\ own g' i = own g i) -> mlist g s h l p -> mlist g' s' h l p.
Proof.
  intros HE (H1 & H2 & H3). split_and!; [|done|].
  - eapply linked_ext; [|done]. intros k Hk. by apply HE.
  - intros i Hi. destruct (HE i Hi) as [_ ->]. by apply H3.
Qed.
Lemma mag_at g s L i m : heap_inv g s L -> magazine_pool s !! i = Some m -> mag_ok m.
Proof. intros HI Hm. exact (proj1 (Forall_lookup _ _) (hi_mag _ _ _ HI) _ _ Hm). Qed.

Lemma slab_ok_ghost g g' t m v sc a : bown g' = bown g -> gslabs g' = gslabs g -> gbase g' = gbase g -> gflist g' = gflist g ->
  slab_ok g t m v sc a -> slab_ok g' t m v sc a.
Proof. intros E1 E2 E3 E4 [H1 H2 H3 H4]. constructor; unfold is_block; rewrite ?E1, ?E2, ?E3, ?E4; done. Qed.
Lemma live_ok_ghost g g' m p bs : bown g' = bown g -> gslabs g' = gslabs g -> gbase g' = gbase g -> live_ok g m p bs -> live_ok g' m p bs.
Proof. intros E1 E2 E3 [H1 H2 H3 H4 H5 H6]. constructor; unfold is_block; rewrite ?E1, ?E2, ?E3; done. Qed.

(** ** Statistics and knobs *)
Lemma inv_knobs g s s' L : heap_inv g s L -> depot s' = depot s -> per_cpu_caches s' = per_cpu_caches s -> magazine_pool s' = magazine_pool s ->
  magazine_pool_head s' = magazine_pool_head s -> slab_at s' = slab_at s -> memory s' = memory s -> back s' = back s ->
  (forall c, rows_ok (heap_stats_per_cpu s' c)) -> heap_inv g s' L.
Proof.
  intros HI E1 E2 E3 E4 E5 E6 E7 Hr. destruct s as [d c p h t l e sa m v], s' as [d' c' p' h' t' l' e' sa' m' v']. cbn in *. subst.
  destruct HI as [H1 H2 H3 H4 H5 H6 H7 H8 H9 H10 H11 H12 H13 H14]. by constructor.
Qed.
Lemma rows_set t cpu sc row row' x : rows_ok t -> arr_get t cpu = Some row -> arr_set row sc x = Some row' -> forall t', arr_set t cpu row' = Some t' -> rows_ok t'.
Proof.
  intros [H1 H2] Hr Hs t' Ht. apply arr_set_inv in Ht as [? ->], Hs as [? ->]. split; [by rewrite length_insert|].
  apply Forall_insert; [done|]. rewrite length_insert. unfold arr_get in Hr. case_if_in Hr E; [|done]. by eapply Forall_lookup in H2.
Qed.
Lemma rows_get {A} (t : list (list A)) cpu sc : length t = 64%nat -> Forall (fun r => length r = 8%nat) t -> 0 <= cpu < 64 -> 0 <= sc < 8 ->
  exists row x, arr_get t cpu = Some row /\ arr_get row sc = Some x /\ length row = 8%nat.
Proof.
  intros H1 H2 Hc Hs. destruct (arr_get_some t cpu) as [row Hr]; [lia|]. exists row.
  assert (HL : length row = 8%nat). { unfold arr_get in Hr. case_if_in Hr E; [|done]. by eapply Forall_lookup in H2. }
  destruct (arr_get_some row sc) as [x Hx]; [lia|]. by exists x.
Qed.
Lemma bump_stat_ok c cpu sc s : (forall c, rows_ok (heap_stats_per_cpu s c)) -> 0 <= cpu < 64 -> 0 <= sc < 8 ->
  exists t, bump c cpu sc s = Some (tt, set_stats t s) /\ forall k, rows_ok (t k).
Proof.
  intros HR Hc Hs. destruct (HR c) as [H1 H2]. destruct (rows_get _ cpu sc H1 H2 Hc Hs) as (row & x & Er & Ex & El). unfold bump.
  rewrite Er, option_bind_Some, Ex, option_bind_Some, (arr_set_some row) by lia. rewrite option_bind_Some, arr_set_some by lia. rewrite option_bind_Some.
  eexists. split; [reflexivity|]. intros k. cbn. destruct (counter_eqb k c); [|done].
  split; [by rewrite length_insert|]. apply Forall_insert; [done|]. by rewrite length_insert.
Qed.
Lemma StatsAdd_ok g s L c cpu sc : heap_inv g s L -> 0 <= cpu < 64 -> 0 <= sc < 8 ->
  exists t, StatsAdd cpu sc c s = Some (tt, set_stats t s) /\ heap_inv g (set_stats t s) L.
Proof.
  intros HI Hc Hs. unfold StatsAdd. rewrite (run_bind _ _ _ _ _ (asks_run _ s)). destruct (g_stats_enabled s).
  - destruct (bump_stat_ok c cpu sc s (hi_stats _ _ _ HI) Hc Hs) as (t & -> & Ht). exists t. split; [done|]. by eapply inv_knobs.
  - exists (heap_stats_per_cpu s). assert (E : set_stats (heap_stats_per_cpu s) s = s) by (by destruct s). rewrite E. by split.
Qed.

(** ** Magazines *)
Lemma lookup_upd {A} (l : list A) i x k y : l !! i = Some x -> <[i := y]> l !! k = if decide (k = i) then Some y else l !! k.
Proof.
  intros H. case_decide; [subst; apply list_lookup_insert_eq; by eapply lookup_lt_Some|by apply list_lookup_insert_ne].
Qed.
(** A magazine that is in no list, or keeps its link, may change its contents. *)
Lemma inv_mag g s L i m m' : heap_inv g s L -> magazine_pool s !! i = Some m -> mag_ok m' ->
  (forall sc, mag_class (own g i) = Some sc -> contents_ok g i sc m') ->
  mag_next m' = mag_next m \/ (exists sc, own g i = Loose sc) ->
  ((exists sc, own g i = InFull sc \/ own g i = InPart sc) -> 0 < count m') ->
  heap_inv g (set_pool (<[i := m']> (magazine_pool s)) s) L.
Proof.
  intros HI Hm Hok Hc Hn Hf. assert (G : forall k, (<[i := m']> (magazine_pool s)) !! k = if decide (k = i) then Some m' else magazine_pool s !! k) by (intros; by eapply lookup_upd).
  destruct HI as [H1 H2 H3 H4 H5 H6 H7 H8 H9 H10 H11 H12 H13 H14]. constructor; try done; cbn.
  - by apply Forall_insert.
  - intros p h Hh. specialize (H6 p h Hh). eapply mlist_ext; [|exact H6]. intros k Hk. split; [|done]. unfold mnext. cbn. rewrite G. case_decide; [subst k|done].
    rewrite Hm. cbn. destruct Hn as [->|[sc Hn]]; [done|]. destruct H6 as (_ & _ & H6). rewrite (H6 _ Hk) in Hn. destruct p; cbn in Hh; congruence.
  - intros cpu sc c k Ha Hb. rewrite length_insert. by apply (H8 cpu sc c).
  - intros k mk sc. rewrite G. case_decide; [subst; intros [= <-]; apply Hc|apply H9].
  - intros k mk sc. rewrite G. case_decide; [subst; intros [= <-] Ho; apply Hf; eauto|apply H10].
Qed.
Lemma own_not_listed g s L p h i : heap_inv g s L -> head s p = Some h -> own g i <> p -> i ∉ glist g p.
Proof. intros HI Hh Hn Hi. destruct (hi_lists _ _ _ HI p h Hh) as (_ & _ & H). by apply Hn, H. Qed.

Ltac head_case s sc Hp :=
  let d := fresh "d" in let E := fresh "E" in let Eq := fresh "Eq" in let sc' := fresh "sc" in
  destruct (arr_get (depot s) sc) as [d|] eqn:E; [|by destruct Hp]; pose proof (arr_get_range _ _ _ E); cbn; rewrite E; case_decide as Eq;
  [subst; cbn; by rewrite arr_get_insert_eq|];
  match goal with |- context [head _ ?q] => destruct q as [|sc'|sc'|sc'|c sc'|sc'] end; cbn; try done;
  destruct (decide (sc = sc')) as [<-|]; try congruence; rewrite ?arr_get_insert_eq, ?arr_get_insert_ne, ?E; done || lia.
Lemma head_set p h s q : is_Some (head s p) -> head (set_head p h s) q = if decide (q = p) then Some h else head s q.
Proof.
  intros Hp. destruct p as [|sc|sc|sc|c sc|sc]; cbn in Hp; try by destruct Hp.
  - case_decide; subst; [done|]. by destruct q.
  - head_case s sc Hp.
  - head_case s sc Hp.
  - head_case s sc Hp.
Qed.
(** [set_head] changes nothing but one head. *)
Lemma set_head_frame p h s : let s' := set_head p h s in
  length (depot s') = length (depot s) /\ per_cpu_caches s' = per_cpu_caches s /\ heap_stats_per_cpu s' = heap_stats_per_cpu s /\
  magazine_pool s' = magazine_pool s /\ slab_at s' = slab_at s /\ memory s' = memory s /\ back s' = back s /\
  forall sc d', arr_get (depot s') sc = Some d' -> exists d, arr_get (depot s) sc = Some d /\ slabs d' = slabs d.
Proof.
  destruct p as [|sc|sc|sc|c sc|sc]; cbn; try (by split_and!; eauto);
  (destruct (arr_get (depot s) sc) as [d|] eqn:E; [|by split_and!; eauto]; cbn; rewrite length_insert; split_and!; try done;
   intros sc' d'; pose proof (arr_get_range _ _ _ E); destruct (decide (sc = sc')) as [<-|];
   [rewrite arr_get_insert_eq by done; intros [= <-]; by exists d|rewrite arr_get_insert_ne by lia; by eauto]).
Qed.

(** A magazine leaves the head of a list, and joins one. *)
Lemma inv_detach g s L p i o sc m : heap_inv g s L -> head s p = Some (Some i) -> magazine_pool s !! i = Some m -> mag_next m = o ->
  (mag_class p = Some sc \/ count m = 0) ->
  exists l, heap_inv (set_own i (Loose sc) (set_glist p l g)) (set_head p o s) L /\ glist g p = i :: l.
Proof.
  intros HI Hh Hm Ho Hc. destruct (hi_lists _ _ _ HI p _ Hh) as (HL & HN & HO). apply linked_head in HL as (l & o' & El & En & HL).
  unfold mnext in En. rewrite Hm in En. injection En as <-. exists l. split; [|done]. rewrite El in HN, HO. apply list.NoDup_cons in HN as [Hi HN].
  destruct (set_head_frame p o s) as (F1 & F2 & F3 & F4 & F5 & F6 & F7 & F8).
  assert (FN : forall k, mnext (set_head p o s) k = mnext s k) by (intros; unfold mnext; by rewrite F4).
  assert (FS : forall k, snext (set_head p o s) k = snext s k) by (intros; unfold snext; by rewrite F5).
  assert (Hoi : own g i = p) by (apply HO; set_solver).
  constructor; rewrite ?F1, ?F2, ?F3, ?F4, ?F5, ?F6, ?F7; try apply HI.
  - intros q h. rewrite head_set by eauto. cbn. unfold fn_set at 1. case_decide as Eq.
    + intros [= <-]. subst q. subst o. split_and!; [eapply linked_ext; [intros; apply FN|done]|done|]. intros k Hk. cbn. rewrite fn_set_ne by set_solver. apply HO. set_solver.
    + intros Hq. eapply mlist_ext; [|by apply HI]. intros k Hk. split; [done|]. cbn. rewrite fn_set_ne; [done|]. intros ->.
      destruct (hi_lists _ _ _ HI q _ Hq) as (_ & _ & HO'). specialize (HO' _ Hk). congruence.
  - intros sc' d' Hd. destruct (F8 _ _ Hd) as (d & Hd' & ->). destruct (hi_depot _ _ _ HI _ _ Hd') as [? ?]. split; [eapply linked_ext; [intros; apply FS|done]|done].
  - intros cpu sc' c k H1 H2. cbn. destruct (hi_active _ _ _ HI _ _ _ _ H1 H2) as [Ho' ?]. split; [|done]. rewrite fn_set_ne; [done|]. intros ->.
    destruct p; cbn in Hh; congruence.
  - intros k mk sc' Hk. cbn. destruct (decide (k = i)) as [->|]; [|rewrite fn_set_ne by done; by apply HI]. rewrite fn_set_eq. cbn. intros [= <-].
    destruct Hc as [Hc|Hc]; [apply (hi_contents _ _ _ HI _ _ sc Hk); congruence|]. assert (mk = m) as -> by congruence.
    unfold contents_ok, held. rewrite Hc. cbn. split; [constructor|set_solver].
  - intros k mk sc' Hk. cbn. destruct (decide (k = i)) as [->|]; [|rewrite fn_set_ne by done; by apply HI]. rewrite fn_set_eq. by intros [?|?].
  - intros sc' a Ha. apply (slab_ok_ghost g); [done..|by apply HI].
  - intros p' bs Hp. apply (live_ok_ghost g); [done..|by apply HI].
Qed.
Lemma inv_attach g s L p i h sc m : heap_inv g s L -> own g i = Loose sc -> magazine_pool s !! i = Some m -> head s p = Some h -> mag_next m = h ->
  (mag_class p = Some sc \/ mag_class p = None) -> (p <> InPool -> mag_class p <> None -> 0 < count m) ->
  heap_inv (set_own i p (set_glist p (i :: glist g p) g)) (set_head p (Some i) s) L.
Proof.
  intros HI Ho Hm Hh Hn Hc Hp. destruct (hi_lists _ _ _ HI p _ Hh) as (HL & HN & HO).
  assert (Hni : forall q h, head s q = Some h -> i ∉ glist g q).
  { intros q h' Hq Hi. destruct (hi_lists _ _ _ HI q _ Hq) as (_ & _ & HO'). specialize (HO' _ Hi). rewrite Ho in HO'. by subst q. }
  destruct (set_head_frame p (Some i) s) as (F1 & F2 & F3 & F4 & F5 & F6 & F7 & F8).
  assert (FN : forall k, mnext (set_head p (Some i) s) k = mnext s k) by (intros; unfold mnext; by rewrite F4).
  assert (FS : forall k, snext (set_head p (Some i) s) k = snext s k) by (intros; unfold snext; by rewrite F5).
  constructor; rewrite ?F1, ?F2, ?F3, ?F4, ?F5, ?F6, ?F7; try apply HI.
  - intros q h'. rewrite head_set by eauto. cbn. unfold fn_set at 1. case_decide as Eq.
    + intros [= <-]. subst q. split_and!; [split; [done|]|apply list.NoDup_cons; by eauto|].
      * exists h. split; [rewrite FN; unfold mnext; rewrite Hm; cbn; by rewrite Hn|eapply linked_ext; [intros; apply FN|done]].
      * intros k Hk. cbn. unfold fn_set. case_decide; [done|]. apply HO. set_solver.
    + intros Hq. eapply mlist_ext; [|by apply HI]. intros k Hk. split; [done|]. cbn. rewrite fn_set_ne; [done|]. intros ->. by eapply Hni.
  - intros sc' d' Hd. destruct (F8 _ _ Hd) as (d & Hd' & ->). destruct (hi_depot _ _ _ HI _ _ Hd') as [? ?]. split; [eapply linked_ext; [intros; apply FS|done]|done].
  - intros cpu sc' c k H1 H2. cbn. destruct (hi_active _ _ _ HI _ _ _ _ H1 H2) as [Ho' ?]. split; [|done]. rewrite fn_set_ne; [done|]. intros ->. congruence.
  - intros k mk sc' Hk. cbn. destruct (decide (k = i)) as [->|]; [|rewrite fn_set_ne by done; by apply HI]. rewrite fn_set_eq. intros Hc'.
    destruct Hc as [Hc|Hc]; [|congruence]. apply (hi_contents _ _ _ HI _ _ sc' Hk). rewrite Ho. cbn. congruence.
  - intros k mk sc' Hk. cbn. destruct (decide (k = i)) as [->|]; [|rewrite fn_set_ne by done; by apply HI]. rewrite fn_set_eq.
    assert (mk = m) as -> by congruence. intros [->| ->]; by apply Hp.
  - intros sc' a Ha. apply (slab_ok_ghost g); [done..|by apply HI].
  - intros p' bs Hb. apply (live_ok_ghost g); [done..|by apply HI].
Qed.

(** ** Active magazines *)
Lemma own_change g s L i p : heap_inv g s L -> (forall q h, head s q = Some h -> i ∉ glist g q) ->
  ((exists sc, p = Loose sc) \/ exists cpu sc, p = InUse cpu sc) ->
  (forall cpu sc c, arr_get (per_cpu_caches s) cpu = Some c -> arr_get c sc = Some (Some i) -> p = InUse cpu sc) ->
  (forall sc m, mag_class p = Some sc -> magazine_pool s !! i = Some m -> contents_ok g i sc m) ->
  heap_inv (set_own i p g) s L.
Proof.
  intros HI Hn Hh Hu Hc. constructor; try apply HI.
  - intros q h Hq. eapply mlist_ext; [|by apply HI]. intros k Hk. split; [done|]. cbn. apply fn_set_ne. intros ->. by eapply Hn.
  - intros cpu sc c k H1 H2. cbn. destruct (hi_active _ _ _ HI _ _ _ _ H1 H2). split; [|done]. unfold fn_set. case_decide; [subst; by eapply Hu|done].
  - intros k m sc Hm. cbn. unfold fn_set. case_decide; [subst; intros; by apply Hc|by apply HI].
  - intros k m sc Hm. cbn. unfold fn_set. case_decide as Ek; [|by apply HI]. destruct Hh as [(? & ->)|(? & ? & ->)]; by intros [?|?].
  - intros sc a Ha. apply (slab_ok_ghost g); [done..|by apply HI].
  - intros p' bs Hb. apply (live_ok_ghost g); [done..|by apply HI].
Qed.
Definition cache_set (cpu sc : Z) (o : option nat) s : heap V :=
  set_caches (<[Z.to_nat cpu := <[Z.to_nat sc := o]> (default [] (per_cpu_caches s !! Z.to_nat cpu))]> (per_cpu_caches s)) s.
Lemma set_active_run g s L cpu sc o : heap_inv g s L -> 0 <= cpu < 64 -> 0 <= sc < 8 -> set_active cpu sc o s = Some (tt, cache_set cpu sc o s).
Proof.
  intros HI Hc Hs. destruct (hi_cache _ _ _ HI) as [H1 H2]. destruct (rows_get _ cpu sc H1 H2 Hc Hs) as (row & x & Er & Ex & El).
  unfold set_active. rewrite Er, option_bind_Some, arr_set_some by lia. rewrite option_bind_Some, arr_set_some by lia.
  rewrite option_bind_Some. unfold cache_set. unfold arr_get in Er. case_if_in Er E; [|done]. by rewrite Er.
Qed.
Lemma cache_set_get g s L cpu sc o cpu' sc' c x : heap_inv g s L -> 0 <= cpu < 64 -> 0 <= sc < 8 ->
  arr_get (per_cpu_caches (cache_set cpu sc o s)) cpu' = Some c -> arr_get c sc' = Some x ->
  (cpu' = cpu /\ sc' = sc /\ x = o) \/ ((cpu', sc') <> (cpu, sc) /\ exists c0, arr_get (per_cpu_caches s) cpu' = Some c0 /\ arr_get c0 sc' = Some x).
Proof.
  intros HI Hc Hs. destruct (hi_cache _ _ _ HI) as [H1 H2]. destruct (rows_get _ cpu sc H1 H2 Hc Hs) as (row & y & Er & Ex & El).
  assert (Er' := Er). unfold arr_get in Er'. case_if_in Er' E; [|done]. cbn. rewrite Er'. cbn. intros G1 G2.
  pose proof (arr_get_range _ _ _ G1). pose proof (arr_get_range _ _ _ G2). destruct (decide (cpu' = cpu)) as [->|].
  - rewrite arr_get_insert_eq in G1 by lia. injection G1 as <-. destruct (decide (sc' = sc)) as [->|].
    + rewrite arr_get_insert_eq in G2 by lia. left. by injection G2.
    + rewrite arr_get_insert_ne in G2 by lia. right. split; [congruence|]. by exists row.
  - rewrite arr_get_insert_ne in G1 by lia. right. split; [congruence|]. by exists c.
Qed.
Lemma inv_caches g s L cpu sc o : heap_inv g s L -> 0 <= cpu < 64 -> 0 <= sc < 8 ->
  (forall i, o = Some i -> own g i = InUse cpu sc /\ (i < length (magazine_pool s))%nat) -> heap_inv g (cache_set cpu sc o s) L.
Proof.
  intros HI Hc Hs Ho. destruct (hi_cache _ _ _ HI) as [H1 H2]. destruct (rows_get _ cpu sc H1 H2 Hc Hs) as (row & y & Er & Ex & El).
  assert (Er' := Er). unfold arr_get in Er'. case_if_in Er' E; [|done].
  constructor; try apply HI.
  - cbn. rewrite length_insert. split; [done|]. apply Forall_insert; [done|]. rewrite length_insert, Er'. done.
  - intros cpu' sc' c i G1 G2. destruct (cache_set_get _ _ _ _ _ _ _ _ _ _ HI Hc Hs G1 G2) as [(-> & -> & E')|(_ & c0 & G3 & G4)]; [by apply Ho|by apply (hi_active _ _ _ HI _ _ c0)].
Qed.
Definition owners (p : place) (o : option nat) g : ghost := match o with Some k => set_own k p g | None => g end.
Lemma inv_deactivate g s L cpu sc o : heap_inv g s L -> 0 <= cpu < 64 -> 0 <= sc < 8 -> get_active cpu sc s = Some (o, s) ->
  heap_inv (owners (Loose sc) o g) (cache_set cpu sc None s) L.
Proof.
  intros HI Hc Hs Hg. assert (HI' : heap_inv g (cache_set cpu sc None s) L) by (by apply inv_caches).
  destruct o as [i|]; [|done]. unfold get_active in Hg. destruct (arr_get (per_cpu_caches s) cpu) as [c|] eqn:Ec; [|done]. cbn in Hg.
  destruct (arr_get c sc) as [x|] eqn:Ex; [|done]. cbn in Hg. injection Hg as ->. destruct (hi_active _ _ _ HI _ _ _ _ Ec Ex) as [Ho Hl].
  cbn. apply own_change; [done|..].
  - intros q h Hq. eapply own_not_listed; [exact HI|exact Hq|]. rewrite Ho. intros <-. done.
  - eauto.
  - intros cpu' sc' c' G1 G2. destruct (cache_set_get _ _ _ _ _ _ _ _ _ _ HI Hc Hs G1 G2) as [(_ & _ & ?)|(Hne & c0 & G3 & G4)]; [done|].
    destruct (hi_active _ _ _ HI _ _ _ _ G3 G4) as [Ho' _]. congruence.
  - intros sc' m [= <-] Hm. apply (hi_contents _ _ _ HI); [done|by rewrite Ho].
Qed.
Lemma inv_activate g s L cpu sc o i : heap_inv g s L -> 0 <= cpu < 64 -> 0 <= sc < 8 -> get_active cpu sc s = Some (o, s) ->
  own g i = Loose sc -> (i < length (magazine_pool s))%nat ->
  heap_inv (set_own i (InUse cpu sc) (owners (Loose sc) o g)) (cache_set cpu sc (Some i) s) L.
Proof.
  intros HI Hc Hs Hg Ho Hl. pose proof (inv_deactivate _ _ _ _ _ _ HI Hc Hs Hg) as HI1. set (g1 := owners _ _ _) in *.
  assert (Ho1 : own g1 i = Loose sc) by (unfold g1; destruct o; cbn; [unfold fn_set; by case_decide|done]).
  assert (HI2 : heap_inv (set_own i (InUse cpu sc) g1) (cache_set cpu sc None s) L).
  { apply own_change; [done|..].
    - intros q h Hq. eapply own_not_listed; [exact HI1|exact Hq|]. rewrite Ho1. intros <-. done.
    - eauto.
    - intros cpu' sc' c' G1 G2. destruct (hi_active _ _ _ HI1 _ _ _ _ G1 G2) as [E _]. congruence.
    - intros sc' m [= <-] Hm. apply (hi_contents _ _ _ HI1); [done|by rewrite Ho1]. }
  assert (E : cache_set cpu sc (Some i) s = cache_set cpu sc (Some i) (cache_set cpu sc None s)).
  { unfold cache_set. cbn. destruct (hi_cache _ _ _ HI) as [H1 _]. rewrite list_lookup_insert_eq by lia. cbn. by rewrite !list_insert_insert_eq. }
  rewrite E. apply inv_caches; [done..|]. intros k [= <-]. cbn. by rewrite fn_set_eq.
Qed.
End ops.

(** * Blocks of the kernel heap: changing their owner, writing into them, taking one off a magazine and putting one back. *)
Section blocks.
Context {V : Type} `{!Backend V} `{!BackendLaws V}.
Implicit Types (s : heap V) (g : ghost) (L : gmap Z bytes).

Lemma inv_bown g s L b p : heap_inv g s L ->
  (forall k m sc, magazine_pool s !! k = Some m -> mag_class (own g k) = Some sc -> b ∉ held m) ->
  (forall sc a, a ∈ gslabs g sc -> b ∉ gflist g a) -> L !! (b + 16) = None -> heap_inv (set_bown b p g) s L.
Proof.
  intros HI Hm Hs Hl. constructor; try apply HI.
  - intros k m sc Hk Hc. destruct (hi_contents _ _ _ HI _ _ _ Hk Hc) as [H1 H2]. split; [done|]. intros b' Hb'. cbn.
    rewrite fn_set_ne; [by apply H2|]. intros ->. by eapply Hm.
  - intros sc a Ha. destruct (hi_slab _ _ _ HI _ _ Ha) as [H1 H2 H3 H4]. constructor; try done. intros b' Hb'. cbn.
    rewrite fn_set_ne; [by apply H4|]. intros ->. by eapply Hs.
  - intros q bs Hq. destruct (hi_live _ _ _ HI _ _ Hq) as [H1 H2 H3 H4 H5 H6]. constructor; try done. cbn. rewrite fn_set_ne; [done|].
    intros E. replace (b + 16) with q in Hl by lia. congruence.
Qed.
(** A block that nobody lists: taken, and not (or not yet) a client's. *)
Definition in_flight g L (sc b : Z) : Prop := is_block g sc b /\ bown g b = Taken /\ L !! (b + 16) = None.
Lemma live_block_fits g s L p bs : heap_inv g s L -> L !! p = Some bs -> let sc := GetSizeClass (Z.of_nat (length bs)) in
  0 <= sc < 8 /\ is_block g sc (p - 16) /\ 16 + Z.of_nat (length bs) <= chunk sc.
Proof.
  intros HI Hp sc. destruct (hi_live _ _ _ HI _ _ Hp) as [H1 H2 H3 _ _ _]. destruct (class_ok _ H1) as (Hsc & Hle & _).
  destruct (class_facts _ Hsc) as (_ & _ & _ & Hch & _ & _). fold sc in Hsc, Hle, Hch, H3. split_and!; [lia..|done|lia].
Qed.
Lemma live_frame g s L m' p bs x n : heap_inv g s L -> L !! p = Some bs -> frame x n (memory s) m' ->
  apart (x, n) (p - 16, chunk (GetSizeClass (Z.of_nat (length bs)))) -> live_ok g m' p bs.
Proof.
  intros HI Hp HF Ha. destruct (live_block_fits _ _ _ _ _ HI Hp) as (Hsc & _ & Hch). destruct (hi_live _ _ _ HI _ _ Hp) as [H1 H2 H3 H4 H5 H6].
  unfold apart in Ha. cbn [fst snd] in Ha. constructor; try done.
  - rewrite <- H4. eapply le_load_frame; [done|]. lia.
  - rewrite <- H5. eapply le_load_frame; [done|]. lia.
  - rewrite <- H6 at 2. eapply peeks_frame; [done|]. lia.
Qed.
Lemma free_frame g s L m' sc a x n : heap_inv g s L -> a ∈ gslabs g sc -> frame x n (memory s) m' ->
  (forall b, b ∈ gflist g a -> apart (x, n) (b, chunk sc)) -> slab_ok g (slab_at s) m' (back s) sc a.
Proof.
  intros HI Ha HF Hap. destruct (hi_slab _ _ _ HI _ _ Ha) as [(sl & E & E1 & E2 & E3 & E4 & E5 & E6 & E7 & E8) H2 H3 H4]. constructor; try done.
  exists sl. split_and!; try done. eapply linked_ext; [|exact E8]. intros b Hb. unfold fnext. do 2 f_equal. eapply le_load_frame; [exact HF|].
  destruct (H4 _ Hb) as [_ Hb']. destruct (block_range _ _ _ _ _ HI Hb') as (_ & _ & ?). destruct (Hap _ Hb) as [?|?]; cbn in *; lia.
Qed.
Lemma inv_write g s L sc b m' : heap_inv g s L -> in_flight g L sc b -> frame b (chunk sc) (memory s) m' -> heap_inv g (set_memory m' s) L.
Proof.
  intros HI (Hb & Ho & HL) HF. constructor; try apply HI; cbn.
  - intros sc' a Ha. eapply free_frame; [done..|]. intros b' Hb'. destruct (hi_slab _ _ _ HI _ _ Ha) as [_ _ _ H4]. destruct (H4 _ Hb') as [Ho' Hk'].
    destruct (blocks_apart _ _ _ _ _ _ _ HI Hb Hk') as [[-> _]|?]; [congruence|done].
  - intros p bs Hp. eapply live_frame; [done..|]. destruct (live_block_fits _ _ _ _ _ HI Hp) as (_ & Hk' & _).
    destruct (blocks_apart _ _ _ _ _ _ _ HI Hb Hk') as [[E _]|?]; [|done]. replace (b + 16) with p in HL by lia. congruence.
Qed.
Lemma inv_live_sub g s L L' : heap_inv g s L -> L' ⊆ L -> heap_inv g s L'.
Proof. intros HI HS. constructor; try apply HI. intros p bs Hp. apply HI. by eapply lookup_weaken. Qed.
Lemma inv_live_add g s L p bs : heap_inv g s L -> live_ok g (memory s) p bs -> heap_inv g s (<[p := bs]> L).
Proof. intros HI HS. constructor; try apply HI. intros q bs'. rewrite lookup_insert. case_decide; [intros [= <-]; by subst|apply HI]. Qed.
(** A client writes into its block. *)
Lemma inv_client g s L p bs bs' m' : heap_inv g s L -> L !! p = Some bs -> frame p (Z.of_nat (length bs)) (memory s) m' ->
  peeks (length bs) m' p = bs' -> heap_inv g (set_memory m' s) (<[p := bs']> L).
Proof.
  intros HI Hp HF HE. destruct (live_block_fits _ _ _ _ _ HI Hp) as (Hsc & Hb & Hch). destruct (hi_live _ _ _ HI _ _ Hp) as [H1 H2 H3 H4 H5 H6].
  assert (HF' : frame (p - 16) (chunk (GetSizeClass (Z.of_nat (length bs)))) (memory s) m') by (eapply frame_sub; [done|lia|lia]).
  assert (El : length bs' = length bs) by (by rewrite <- HE, length_peeks).
  constructor; try apply HI; cbn.
  - intros sc' a Ha. eapply free_frame; [done..|]. intros b' Hb'. destruct (hi_slab _ _ _ HI _ _ Ha) as [_ _ _ G4]. destruct (G4 _ Hb') as [Ho' Hk'].
    destruct (blocks_apart _ _ _ _ _ _ _ HI Hb Hk') as [[E _]|?]; [congruence|done].
  - intros q cs. rewrite lookup_insert. case_decide as Eq; [intros [= <-]; subst q|intros Hq].
    + constructor; rewrite ?El; try done.
      * rewrite <- H4. eapply le_load_frame; [exact HF|]. lia.
      * rewrite <- H5. eapply le_load_frame; [exact HF|]. lia.
    + eapply live_frame; [done..|]. destruct (live_block_fits _ _ _ _ _ HI Hq) as (_ & Hk' & _).
      destruct (blocks_apart _ _ _ _ _ _ _ HI Hb Hk') as [[E _]|?]; [|done]. exfalso. apply Eq. lia.
Qed.

(** ** Taking a block off a magazine *)
Lemma held_last m : mag_ok m -> 0 < count m -> exists b, arr_get (blocks m) (count m - 1) = Some b /\ held m = held (set_count (count m - 1) m) ++ [b].
Proof.
  intros [H1 H2] Hc. destruct (arr_get_some (blocks m) (count m - 1)) as [b Hb]; [lia|]. exists b. split; [done|]. unfold held. cbn.
  unfold arr_get in Hb. case_if_in Hb E; [|done]. replace (Z.to_nat (count m)) with (S (Z.to_nat (count m - 1))) by lia. by apply take_S_r.
Qed.
Definition settled (p : place) : Prop := (exists cpu sc, p = InUse cpu sc) \/ exists sc, p = Loose sc.
Lemma inv_pop g s L i m sc : heap_inv g s L -> magazine_pool s !! i = Some m -> mag_class (own g i) = Some sc -> settled (own g i) -> 0 < count m ->
  exists b, arr_get (blocks m) (count m - 1) = Some b /\
    heap_inv (set_bown b Taken g) (set_pool (<[i := set_count (count m - 1) m]> (magazine_pool s)) s) L /\ in_flight (set_bown b Taken g) L sc b.
Proof.
  intros HI Hm Hc Hset Hpos. pose proof (mag_at _ _ _ _ _ HI Hm) as Hok. destruct (held_last m Hok Hpos) as (b & Eb & Eh). exists b. split; [done|].
  destruct (hi_contents _ _ _ HI _ _ _ Hm Hc) as [HN HC]. rewrite Eh in HN, HC. apply list.NoDup_app in HN as (HN & Hd & _).
  destruct (HC b) as [Hob Hkb]; [set_solver|].
  assert (HL : L !! (b + 16) = None).
  { destruct (L !! (b + 16)) as [bs|] eqn:E; [|done]. destruct (hi_live _ _ _ HI _ _ E) as [_ H2 _ _ _ _]. replace (b + 16 - 16) with b in H2 by lia. congruence. }
  assert (HI1 : heap_inv g (set_pool (<[i := set_count (count m - 1) m]> (magazine_pool s)) s) L).
  { eapply inv_mag; [done..| | |by left|].
    - destruct Hok as [? ?]. constructor; cbn; [done|lia].
    - intros sc' Hc'. replace sc' with sc by congruence. split; [done|]. intros b' Hb'. apply HC. set_solver.
    - intros (sc' & Ho). destruct Hset as [(? & ? & E)|(? & E)]; destruct Ho; congruence. }
  split; [|split_and!; [done|cbn; by rewrite fn_set_eq|done]]. apply inv_bown; [done|..|done].
  - intros k mk sc' Hk Hck Hin. cbn in Hk. rewrite (lookup_upd _ _ _ _ _ Hm) in Hk. case_decide as Ek.
    + injection Hk as <-. apply (Hd b Hin). set_solver.
    + destruct (hi_contents _ _ _ HI _ _ _ Hk Hck) as [_ HC']. destruct (HC' _ Hin) as [Ho' _]. congruence.
  - intros sc' a Ha Hin. destruct (so_free _ _ _ _ _ _ (hi_slab _ _ _ HI _ _ Ha) _ Hin) as [Ho' _]. congruence.
Qed.
(** ** Putting a block onto a magazine *)
Lemma inv_push g s L i m sc b : heap_inv g s L -> magazine_pool s !! i = Some m -> mag_class (own g i) = Some sc -> settled (own g i) ->
  count m < 32 -> in_flight g L sc b ->
  heap_inv (set_bown b (InMag i) g) (set_pool (<[i := mk_magazine (<[Z.to_nat (count m) := b]> (blocks m)) (count m + 1) (mag_next m)]> (magazine_pool s)) s) L.
Proof.
  intros HI Hm Hc Hset Hlt (Hb & Ho & HL). pose proof (mag_at _ _ _ _ _ HI Hm) as [Hlen Hcnt].
  assert (Hno : forall k mk sc', magazine_pool s !! k = Some mk -> mag_class (own g k) = Some sc' -> b ∉ held mk).
  { intros k mk sc' Hk Hck Hin. destruct (hi_contents _ _ _ HI _ _ _ Hk Hck) as [_ HC]. destruct (HC _ Hin). congruence. }
  assert (HI1 : heap_inv (set_bown b (InMag i) g) s L).
  { apply inv_bown; [done..| |done]. intros sc' a Ha Hin. destruct (so_free _ _ _ _ _ _ (hi_slab _ _ _ HI _ _ Ha) _ Hin). congruence. }
  eapply inv_mag; [exact HI1|exact Hm| | |by left|].
  - constructor; cbn; [by rewrite length_insert|lia].
  - intros sc' Hc'. replace sc' with sc in * by (cbn in Hc'; congruence). destruct (hi_contents _ _ _ HI1 _ _ _ Hm Hc') as [HN HC].
    assert (Eh : held (mk_magazine (<[Z.to_nat (count m) := b]> (blocks m)) (count m + 1) (mag_next m)) = held m ++ [b]).
    { unfold held. cbn. replace (Z.to_nat (count m + 1)) with (S (Z.to_nat (count m))) by lia.
      rewrite (take_S_r _ _ b) by (apply list_lookup_insert_eq; lia). by rewrite take_insert_ge by lia. }
    unfold contents_ok. rewrite Eh. split.
    + apply list.NoDup_app. split_and!; [done| |apply list.NoDup_singleton]. intros x Hx ->%list_elem_of_singleton. by eapply Hno.
    + intros b' [Hb'| ->%list_elem_of_singleton]%elem_of_app; [by apply HC|]. split; [cbn; by rewrite fn_set_eq|done].
  - intros (sc' & Ho'). cbn in Ho'. destruct Hset as [(? & ? & E)|(? & E)]; destruct Ho'; congruence.
Qed.
End blocks.
