(* ===== verification/MagSteps.v ===== *)
(** The operations of the kernel heap on the invariant: taking and returning blocks, the depot's
    lists, slabs. *)
From Stdlib Require Import ZArith Lia.
From stdpp Require Import base tactics list gmap sets numbers option.
From S2P Require Import Prelude ByteMem Magazine MagInv MagOps.

Section steps.
Context {V : Type} `{!Backend V} `{!BackendLaws V}.
Implicit Types (s : heap V) (g : ghost) (L : gmap Z bytes).

Lemma upd_mag_run i f m s : magazine_pool s !! i = Some m -> upd_mag i f s = Some (tt, set_pool (<[i := f m]> (magazine_pool s)) s).
Proof. intros H. unfold upd_mag. by rewrite H. Qed.
Lemma get_mag_run i m s : magazine_pool s !! i = Some m -> get_mag i s = Some (m, s).
Proof. intros H. unfold get_mag. by rewrite H. Qed.
Lemma class_size_run sc s : 0 <= sc < 8 -> class_size (V := V) sc s = Some (csize sc, s).
Proof. intros H. unfold class_size. by rewrite (proj1 (class_facts sc H)). Qed.
Lemma pool_upd_same i m m' s : magazine_pool s !! i = Some m -> magazine_pool (set_pool (<[i := m']> (magazine_pool s)) s) !! i = Some m'.
Proof. intros H. cbn. rewrite (lookup_upd _ _ _ _ _ H). by rewrite decide_True. Qed.
Lemma set_pool_twice i m1 m2 s : set_pool (<[i := m2]> (magazine_pool (set_pool (<[i := m1]> (magazine_pool s)) s))) (set_pool (<[i := m1]> (magazine_pool s)) s)
  = set_pool (<[i := m2]> (magazine_pool s)) s.
Proof. unfold set_pool. cbn. by rewrite list_insert_insert_eq. Qed.
Lemma bind_run {A B} (m : STM (heap V) A) (f : A -> STM (heap V) B) s a s1 r : m s = Some (a, s1) -> f a s1 = r -> (m ≫= f) s = r.
Proof. intros H1 H2. by rewrite (run_bind _ _ _ _ _ H1). Qed.

(** ** Writing into a block in flight *)
Lemma store_run g s L sc b n a v : heap_inv g s L -> in_flight g L sc b -> b <= a -> a + Z.of_nat n <= b + chunk sc ->
  store n a v s = Some (tt, set_memory (le_store n v a (memory s)) s) /\ heap_inv g (set_memory (le_store n v a (memory s)) s) L.
Proof.
  intros HI HF H1 H2. unfold store. rewrite (block_mapped _ _ _ _ _ a (Z.of_nat n) HI (proj1 HF)) by lia. split; [done|].
  eapply inv_write; [done..|]. eapply frame_sub; [by apply (le_store_frame _ _ _ _ (Z.of_nat n))|lia|lia].
Qed.
Lemma memset_run g s L sc b a c n : heap_inv g s L -> in_flight g L sc b -> b + 16 <= a -> a + n <= b + chunk sc ->
  exists m', FastMemset a c n s = Some (tt, set_memory m' s) /\ heap_inv g (set_memory m' s) L /\ frame (b + 16) (csize sc) (memory s) m'.
Proof.
  intros HI HF H1 H2. unfold FastMemset. destruct (Z.leb_spec n 0) as [Hn|Hn].
  - exists (memory s). assert (E : set_memory (memory s) s = s) by (by destruct s). rewrite E. split_and!; [done..|apply frame_refl].
  - rewrite (block_mapped _ _ _ _ _ a n HI (proj1 HF)) by lia. eexists. split; [done|].
    assert (HFr : frame a n (memory s) (pokes (replicate (Z.to_nat n) c) a (memory s))) by (apply pokes_frame; rewrite length_replicate; lia).
    split; [eapply inv_write; [done..|]; eapply frame_sub; [done|lia|lia]|]. eapply frame_sub; [done|lia|unfold chunk, header_size in H2; lia].
Qed.

(** ** Taking a block *)
Definition header_ok (m : mem) (sc b : Z) : Prop := le_load 8 m b = MAGAZINE_BLOCK_MAGIC /\ le_load 1 m (b + 8) = sc.
Lemma take_block_ok g s L i m sc : heap_inv g s L -> magazine_pool s !! i = Some m -> mag_class (own g i) = Some sc -> settled (own g i) ->
  0 < count m -> 0 <= sc < 8 ->
  exists b m', let s' := set_memory m' (set_pool (<[i := set_count (count m - 1) m]> (magazine_pool s)) s) in
    take_block i sc s = Some (b + 16, s') /\ heap_inv (set_bown b Taken g) s' L /\ in_flight (set_bown b Taken g) L sc b /\ header_ok m' sc b /\
    frame b (chunk sc) (memory s) m' /\ arr_get (blocks m) (count m - 1) = Some b.
Proof.
  intros HI Hm Hc Hset Hpos Hsc. pose proof (mag_at _ _ _ _ _ HI Hm) as [Hlen Hcnt].
  destruct (inv_pop _ _ _ _ _ _ HI Hm Hc Hset Hpos) as (b & Eb & HI1 & HF). exists b.
  set (s1 := set_pool _ _) in HI1. set (g1 := set_bown b Taken g) in *.
  destruct (class_facts sc Hsc) as (_ & ? & _ & Hch & _ & _).
  destruct (store_run g1 s1 L sc b 8 b MAGAZINE_BLOCK_MAGIC HI1 HF) as [E2 HI2]; [lia..|]. set (s2 := set_memory _ s1) in *.
  destruct (store_run g1 s2 L sc b 1 (b + 8) sc HI2 HF) as [E3 HI3]; [lia..|]. set (s3 := set_memory _ s2) in *.
  assert (H3 : header_ok (memory s3) sc b).
  { split.
    - change (memory s3) with (le_store 1 sc (b + 8) (memory s2)). rewrite (le_load_frame 8 (b + 8) 1 (memory s2)) by (try apply le_store_frame; lia).
      change (memory s2) with (le_store 8 MAGAZINE_BLOCK_MAGIC b (memory s1)). by rewrite le_load_store.
    - change (memory s3) with (le_store 1 sc (b + 8) (memory s2)). rewrite le_load_store. apply Z.mod_small. cbn. lia. }
  assert (F3 : frame b (chunk sc) (memory s) (memory s3)).
  { apply frame_trans with (memory s2); (eapply frame_sub; [apply le_store_frame; reflexivity|lia|lia]). }
  assert (R : exists m', (if g_validation_level s3 =? KHEAP_VALIDATION_FULL then FastMemset (b + 16) 205 (csize sc) else mret tt) s3 = Some (tt, set_memory m' s3) /\
    heap_inv g1 (set_memory m' s3) L /\ frame (b + 16) (csize sc) (memory s3) m').
  { destruct (_ =? _); [apply (memset_run g1 s3 L sc b); [done..|lia|lia]|]. exists (memory s3).
    assert (E : set_memory (memory s3) s3 = s3) by done. rewrite E. split_and!; [done..|apply frame_refl]. }
  destruct R as (m' & E4 & HI4 & F4). exists m'. cbn zeta.
  assert (E : set_memory m' s3 = set_memory m' s1) by done. rewrite E in E4, HI4. split_and!; try done.
  - unfold take_block. eapply bind_run; [by apply upd_mag_run|]. cbv beta. rewrite u32_small by lia. fold s1.
    eapply bind_run; [apply get_mag_run; by eapply pool_upd_same|]. eapply bind_run; [unfold lift; cbn; rewrite Eb; reflexivity|].
    eapply bind_run; [exact E2|]. eapply bind_run; [exact E3|]. eapply bind_run; [apply asks_run|]. eapply bind_run; [by apply class_size_run|].
    eapply bind_run; [exact E4|]. done.
  - destruct H3 as [H31 H32]. split; [rewrite <- H31|rewrite <- H32]; (eapply le_load_frame; [exact F4|lia]).
  - eapply frame_trans; [exact F3|]. eapply frame_sub; [exact F4|lia|lia].
Qed.
(** ** Returning a block *)
Lemma push_block_run i m b s : mag_ok m -> magazine_pool s !! i = Some m -> count m < 32 ->
  push_block i b s = Some (tt, set_pool (<[i := mk_magazine (<[Z.to_nat (count m) := b]> (blocks m)) (count m + 1) (mag_next m)]> (magazine_pool s)) s).
Proof.
  intros [H1 H2] Hm Hc. unfold push_block. eapply bind_run; [by apply get_mag_run|].
  eapply bind_run; [unfold lift; rewrite arr_set_some by lia; reflexivity|]. rewrite (upd_mag_run _ _ _ _ Hm). do 4 f_equal. by rewrite u32_small by lia.
Qed.

(** ** Magazines from and to the pool *)
Lemma AllocMagazine_ok g s L sc : heap_inv g s L ->
  (magazine_pool_head s = None /\ AllocMagazine s = Some (None, s)) \/
  exists i m l, magazine_pool_head s = Some i /\ glist g InPool = i :: l /\ magazine_pool s !! i = Some m /\
    let s' := set_pool (<[i := mk_magazine (blocks m) 0 None]> (magazine_pool s)) (set_pool_head (mag_next m) s) in
    AllocMagazine s = Some (Some i, s') /\ heap_inv (set_own i (Loose sc) (set_glist InPool l g)) s' L.
Proof.
  intros HI. unfold AllocMagazine. rewrite (run_bind _ _ _ _ _ (asks_run _ s)). destruct (magazine_pool_head s) as [i|] eqn:Eh; [right|by left].
  assert (Hh : head s InPool = Some (Some i)) by (cbn; by rewrite Eh). destruct (hi_lists _ _ _ HI InPool _ Hh) as (HL & HN & HO).
  apply linked_head in HL as (l0 & o & El & En & HL). unfold mnext in En. destruct (magazine_pool s !! i) as [m|] eqn:Hm; [|done]. injection En as <-.
  pose proof (mag_at _ _ _ _ _ HI Hm) as [Hlen Hcnt]. assert (Hoi : own g i = InPool) by (apply HO; rewrite El; set_solver).
  set (s0 := set_pool (<[i := set_count 0 m]> (magazine_pool s)) s).
  assert (HI0 : heap_inv g s0 L).
  { eapply inv_mag; [done..| | |by left|]; [by constructor|by rewrite Hoi|]. rewrite Hoi. by intros (? & [?|?]). }
  destruct (inv_detach g s0 L InPool i (mag_next m) sc (set_count 0 m) HI0) as (l & HI1 & El'); [done|by eapply pool_upd_same|done|by right|].
  exists i, m, l. split_and!; try done.
  - eapply bind_run; [by apply get_mag_run|]. eapply bind_run; [reflexivity|]. eapply bind_run; [by apply upd_mag_run|].
    eapply bind_run; [eapply upd_mag_run; by eapply (pool_upd_same i m)|]. rewrite set_pool_twice. done.
  - set (s1 := set_head InPool (mag_next m) s0) in *. replace (set_pool _ _) with (set_pool (<[i := mk_magazine (blocks m) 0 None]> (magazine_pool s1)) s1)
      by (unfold s1, s0; cbn; unfold set_pool; cbn; by rewrite list_insert_insert_eq).
    eapply inv_mag; [exact HI1|by eapply (pool_upd_same i m)|by constructor| | |].
    + cbn. rewrite fn_set_eq. intros sc' [= <-]. split; [constructor|set_solver].
    + right. exists sc. cbn. by rewrite fn_set_eq.
    + cbn. rewrite fn_set_eq. by intros (? & [?|?]).
Qed.
Lemma FreeMagazine_ok g s L i m sc : heap_inv g s L -> own g i = Loose sc -> magazine_pool s !! i = Some m ->
  exists g' s', FreeMagazine i s = Some (tt, s') /\ heap_inv g' s' L.
Proof.
  intros HI Ho Hm. unfold FreeMagazine. rewrite (run_bind _ _ _ _ _ (asks_run _ s)). erewrite run_bind; [|by apply upd_mag_run].
  eexists _, _. split; [reflexivity|]. set (s1 := set_pool _ _).
  assert (HI1 : heap_inv g s1 L).
  { eapply inv_mag; [done..|apply (mag_at _ _ _ _ _ HI) in Hm as [? ?]; by constructor|intros sc' Hc; by apply (hi_contents _ _ _ HI _ _ _ Hm)|right; eauto|].
    rewrite Ho. by intros (? & [?|?]). }
  eapply (inv_attach g s1 L InPool i (magazine_pool_head s) sc); [done|done|by eapply pool_upd_same|done|done|by right|done].
Qed.

(** ** The depot's lists *)
Lemma upd_depot_run sc f d s : arr_get (depot s) sc = Some d -> upd_depot sc f s = Some (tt, set_depot (<[Z.to_nat sc := f d]> (depot s)) s).
Proof. intros H. unfold upd_depot. rewrite H, option_bind_Some, arr_set_some by (by eapply arr_get_range). done. Qed.
Lemma get_depot_run sc d s : arr_get (depot s) sc = Some d -> get_depot sc s = Some (d, s).
Proof. intros H. unfold get_depot. by rewrite H. Qed.
Lemma depot_at g s L sc : heap_inv g s L -> 0 <= sc < 8 -> exists d, arr_get (depot s) sc = Some d.
Proof. intros HI Hsc. apply arr_get_some. rewrite (hi_dep _ _ _ HI). lia. Qed.
Lemma list_mag g s L p i : heap_inv g s L -> head s p = Some (Some i) -> exists m, magazine_pool s !! i = Some m /\ own g i = p.
Proof.
  intros HI Hh. destruct (hi_lists _ _ _ HI p _ Hh) as (HL & HN & HO). apply linked_head in HL as (l & o & El & En & _).
  unfold mnext in En. destruct (magazine_pool s !! i) as [m|]; [|done]. exists m. split; [done|]. apply HO. rewrite El. set_solver.
Qed.
(** A magazine with blocks leaves the depot. *)
Lemma inv_unlist g s L p i sc m : heap_inv g s L -> p = InFull sc \/ p = InPart sc -> head s p = Some (Some i) -> magazine_pool s !! i = Some m ->
  exists l, heap_inv (set_own i (Loose sc) (set_glist p l g)) (set_pool (<[i := set_next None m]> (magazine_pool s)) (set_head p (mag_next m) s)) L /\
    glist g p = i :: l /\ 0 < count m.
Proof.
  intros HI Hp Hh Hm. destruct (list_mag _ _ _ _ _ HI Hh) as (m0 & Hm0 & Ho). assert (m0 = m) as -> by congruence.
  destruct (inv_detach g s L p i (mag_next m) sc m HI Hh Hm eq_refl) as (l & HI1 & El); [left; by destruct Hp as [->| ->]|]. exists l. split_and!; [|done|].
  - destruct (set_head_frame p (mag_next m) s) as (_ & _ & _ & F4 & _). rewrite <- F4 in Hm |- *.
    eapply inv_mag; [exact HI1|exact Hm| | | |].
    + apply (mag_at _ _ _ _ _ HI1) in Hm as [? ?]. by constructor.
    + intros sc' Hc. by apply (hi_contents _ _ _ HI1 _ _ _ Hm).
    + right. exists sc. cbn. by rewrite fn_set_eq.
    + cbn. rewrite fn_set_eq. by intros (? & [?|?]).
  - apply (hi_full _ _ _ HI _ _ sc Hm). rewrite Ho. by destruct Hp as [->| ->]; [left|right].
Qed.
(** What getting a magazine for a refill leaves alone. *)
Record kept g g' s s' : Prop := mk_kept {
  kp_bown : bown g' = bown g; kp_slabs : gslabs g' = gslabs g; kp_base : gbase g' = gbase g; kp_flist : gflist g' = gflist g;
  kp_cache : per_cpu_caches s' = per_cpu_caches s; kp_at : slab_at s' = slab_at s; kp_mem : memory s' = memory s; kp_back : back s' = back s;
  kp_use : forall i cpu sc, own g i = InUse cpu sc -> own g' i = InUse cpu sc;
  kp_dep : forall sc d', arr_get (depot s') sc = Some d' -> exists d, arr_get (depot s) sc = Some d /\ slabs d' = slabs d }.
Lemma empty_magazine_ok g s L sc : heap_inv g s L -> 0 <= sc < 8 ->
  (empty_magazine sc s = Some (None, s) /\ magazine_pool_head s = None) \/
  exists i g' s' m, empty_magazine sc s = Some (Some i, s') /\ heap_inv g' s' L /\ own g' i = Loose sc /\ magazine_pool s' !! i = Some m /\ count m = 0 /\ kept g g' s s'.
Proof.
  intros HI Hsc. destruct (depot_at _ _ _ _ HI Hsc) as (d & Hd). unfold empty_magazine. erewrite run_bind; [|by apply get_depot_run].
  destruct (empty_magazines d) as [i|] eqn:Ed.
  - right. assert (Hh : head s (InEmpty sc) = Some (Some i)) by (cbn; rewrite Hd; cbn; by rewrite Ed).
    destruct (list_mag _ _ _ _ _ HI Hh) as (m & Hm & Ho). pose proof (mag_at _ _ _ _ _ HI Hm) as [Hlen Hcnt].
    set (s0 := set_pool (<[i := set_count 0 m]> (magazine_pool s)) s).
    assert (HI0 : heap_inv g s0 L).
    { eapply inv_mag; [done..| | |by left|]; [by constructor|by rewrite Ho|]. rewrite Ho. by intros (? & [?|?]). }
    destruct (inv_detach g s0 L (InEmpty sc) i (mag_next m) sc (set_count 0 m) HI0) as (l & HI1 & El'); [done|by eapply pool_upd_same|done|by right|].
    set (s1 := set_head _ _ s0) in HI1. set (g1 := set_own _ _ _) in HI1.
    assert (E1 : s1 = set_depot (<[Z.to_nat sc := set_empty (mag_next m) d]> (depot s)) s0) by (unfold s1; cbn; by rewrite Hd).
    assert (Hm1 : magazine_pool s1 !! i = Some (set_count 0 m)) by (rewrite E1; by eapply (pool_upd_same i m)).
    exists i, g1, (set_pool (<[i := mk_magazine (blocks m) 0 None]> (magazine_pool s1)) s1), (mk_magazine (blocks m) 0 None). split_and!.
    + eapply bind_run; [by apply get_mag_run|]. eapply bind_run; [by apply upd_depot_run|]. eapply bind_run; [by apply upd_mag_run|].
      eapply bind_run; [eapply upd_mag_run; by eapply (pool_upd_same i m)|]. rewrite set_pool_twice. rewrite E1. unfold s0, set_pool. cbn.
      by rewrite list_insert_insert_eq.
    + eapply inv_mag; [exact HI1|exact Hm1|by constructor| | |].
      * unfold g1. cbn. rewrite fn_set_eq. intros sc' [= <-]. split; [constructor|set_solver].
      * right. exists sc. unfold g1. cbn. by rewrite fn_set_eq.
      * unfold g1. cbn. rewrite fn_set_eq. by intros (? & [?|?]).
    + unfold g1. cbn. by rewrite fn_set_eq.
    + by eapply pool_upd_same.
    + done.
    + rewrite E1. constructor; try done; cbn.
      * intros k cpu sc' Hk. rewrite fn_set_ne; [done|]. intros ->. congruence.
      * intros sc' d'. pose proof (arr_get_range _ _ _ Hd). destruct (decide (sc = sc')) as [<-|]; [|rewrite arr_get_insert_ne by lia; eauto].
        rewrite arr_get_insert_eq by done. intros [= <-]. by exists d.
  - destruct (AllocMagazine_ok g s L sc HI) as [[E ->]|(i & m & l & E & El & Hm & -> & HI1)]; [by left|right].
    eexists i, _, _, (mk_magazine (blocks m) 0 None). split_and!; [reflexivity|exact HI1|cbn; by rewrite fn_set_eq|cbn; rewrite (lookup_upd _ _ _ _ _ Hm); by rewrite decide_True|done|].
    constructor; try done; cbn; [|eauto]. intros k cpu sc' Hk. rewrite fn_set_ne; [done|]. intros ->.
    destruct (hi_lists _ _ _ HI InPool _ eq_refl) as (_ & _ & HO). rewrite HO in Hk; [done|]. rewrite El. set_solver.
Qed.
(** A magazine goes back to the depot. *)
Lemma DepotReturn_ok g s L i m sc : heap_inv g s L -> own g i = Loose sc -> magazine_pool s !! i = Some m -> 0 <= sc < 8 ->
  exists p g' s', DepotReturn i sc s = Some (tt, s') /\ heap_inv g' s' L /\ kept g g' s s' /\ magazine_pool_head s' = magazine_pool_head s /\
    own g' i = p /\ p <> InPool /\ (forall q, q <> p -> glist g' q = glist g q) /\
    (exists m', magazine_pool s' !! i = Some m' /\ count m' = count m) /\ (32 <= count m -> head s' (InFull sc) = Some (Some i)).
Proof.
  intros HI Ho Hm Hsc. destruct (depot_at _ _ _ _ HI Hsc) as (d & Hd). pose proof (mag_at _ _ _ _ _ HI Hm) as [Hlen Hcnt].
  unfold DepotReturn. erewrite run_bind; [|by apply get_mag_run]. erewrite run_bind; [|by apply get_depot_run].
  assert (go : forall p h, head s p = Some h -> (mag_class p = Some sc /\ 0 < count m \/ mag_class p = None) -> p <> InPool ->
    let s1 := set_pool (<[i := set_next h m]> (magazine_pool s)) s in let g' := set_own i p (set_glist p (i :: glist g p) g) in let s' := set_head p (Some i) s1 in
    heap_inv g' s' L /\ kept g g' s s' /\ own g' i = p /\ (forall q, q <> p -> glist g' q = glist g q) /\
      (exists m', magazine_pool s' !! i = Some m' /\ count m' = count m) /\ head s' p = Some (Some i)).
  { intros p h Hh Hc Hp s1 g' s'. assert (HI1 : heap_inv g s1 L).
    { eapply inv_mag; [done..|by constructor|intros sc' Hc'; by apply (hi_contents _ _ _ HI _ _ _ Hm)|right; eauto|]. rewrite Ho. by intros (? & [?|?]). }
    destruct (set_head_frame p (Some i) s1) as (F1 & F2 & F3 & F4 & F5 & F6 & F7 & F8). split_and!.
    - eapply inv_attach; [exact HI1|exact Ho|by eapply pool_upd_same|exact Hh|done|tauto|]. cbn. destruct Hc as [[_ ?]|Hc]; [done|congruence].
    - constructor; try done. intros k cpu sc' Hk. cbn. rewrite fn_set_ne; [done|]. intros ->. congruence.
    - cbn. by rewrite fn_set_eq.
    - intros q Hq. cbn. by rewrite fn_set_ne.
    - exists (set_next h m). split; [|done]. unfold s'. rewrite F4. by eapply pool_upd_same.
    - unfold s'. rewrite head_set by (by eexists). by rewrite decide_True. }
  assert (Es : forall o d', set_depot (<[Z.to_nat sc := d']> (depot s)) (set_pool o s) = set_pool o (set_depot (<[Z.to_nat sc := d']> (depot s)) s)) by done.
  change (Z.of_nat MAGAZINE_CAPACITY) with 32. destruct (Z.leb_spec 32 (count m)) as [H32|H32]; [|destruct (Z.ltb_spec 0 (count m)) as [H0|H0]].
  - destruct (go (InFull sc) (full_magazines d)) as (G1 & G2 & G3 & G4 & G5 & G6); [cbn; by rewrite Hd|left; split; [done|lia]|done|].
    eexists (InFull sc), _, _. split; [|split_and!; [exact G1|exact G2|cbn; by rewrite Hd|done|done|exact G4|exact G5|intros; done || lia]].
    eapply bind_run; [by apply upd_mag_run|]. assert (Em : set_count 32 m = m) by (assert (E32 : count m = 32) by lia; destruct m; cbn in E32 |- *; by rewrite E32). rewrite Em.
    rewrite list_insert_id by done. assert (Ep : set_pool (magazine_pool s) s = s) by (by destruct s). rewrite Ep.
    eapply bind_run; [by apply upd_mag_run|]. erewrite upd_depot_run by exact Hd. cbn. by rewrite Hd.
  - destruct (go (InPart sc) (partial_magazines d)) as (G1 & G2 & G3 & G4 & G5 & G6); [cbn; by rewrite Hd|by left|done|].
    eexists (InPart sc), _, _. split; [|split_and!; [exact G1|exact G2|cbn; by rewrite Hd|done|done|exact G4|exact G5|intros; done || lia]].
    eapply bind_run; [by apply upd_mag_run|]. erewrite upd_depot_run by exact Hd. cbn. by rewrite Hd.
  - destruct (go (InEmpty sc) (empty_magazines d)) as (G1 & G2 & G3 & G4 & G5 & G6); [cbn; by rewrite Hd|by right|done|].
    eexists (InEmpty sc), _, _. split; [|split_and!; [exact G1|exact G2|cbn; by rewrite Hd|done|done|exact G4|exact G5|intros; done || lia]].
    eapply bind_run; [by apply upd_mag_run|]. erewrite upd_depot_run by exact Hd. cbn. by rewrite Hd.
Qed.
End steps.
