(* ===== verification/MagRefill.v ===== *)
(** Slabs of the kernel heap (finding one with free blocks, filling a magazine from it, carving a
    new one out of fresh pages) and the refill of a magazine; allocation keeps the invariant. *)
From Stdlib Require Import ZArith Lia.
From stdpp Require Import base tactics list gmap sets numbers option fin_maps.
From S2P Require Import Prelude ByteMem Magazine MagInv MagOps MagSteps.

Section slab.
Context {V : Type} `{!Backend V} `{!BackendLaws V}.
Implicit Types (s : heap V) (g : ghost) (L : gmap Z bytes).

(** ** Finding a slab *)
Lemma slab_ne g s L sc a : heap_inv g s L -> a ∈ gslabs g sc -> 4096 <= a.
Proof.
  intros HI Ha. destruct (hi_slab _ _ _ HI _ _ Ha) as [_ (_ & Hr & _) _ _]. destruct (vm_range _ _ (hi_back _ _ _ HI) Hr) as (R1 & _ & _ & R3).
  apply Z.mod_divide in R3 as [k Hk]; [|done]. cbn in *. lia.
Qed.
Lemma find_slab_run g s L sc l a n : heap_inv g s L -> linked (snext s) (ptr a) l -> (forall x, x ∈ l -> x ∈ gslabs g sc) -> (length l < n)%nat ->
  exists a', find_slab n a s = Some (a', s) /\ (a' = 0 \/ a' ∈ l /\ gflist g a' <> []).
Proof.
  intros HI. revert a l. induction n as [|n IH]; intros a l Hl Hsub Hn; [lia|]. cbn [find_slab]. destruct l as [|x l].
  - cbn in Hl. apply ptr_none in Hl as ->. exists 0. split; [done|by left].
  - destruct Hl as (Ea & o & Eo & Hl). apply ptr_inv in Ea as [-> Hne]. rewrite (proj2 (Z.eqb_neq x 0) Hne). assert (Hx : x ∈ gslabs g sc) by (apply Hsub; set_solver).
    destruct (hi_slab _ _ _ HI _ _ Hx) as [(sl & E & _ & _ & _ & _ & _ & _ & Ef & _) _ _ _].
    erewrite run_bind; [|unfold get_slab; by rewrite E]. unfold snext in Eo. rewrite E in Eo. injection Eo as <-.
    destruct (Z.ltb_spec 0 (free_blocks sl)) as [Hf|Hf].
    + exists x. split; [done|]. right. split; [set_solver|]. intros E0. rewrite E0 in Ef. cbn in Ef. lia.
    + destruct (IH (slab_next sl) l Hl) as (a' & -> & Ha'); [set_solver|cbn in Hn; lia|]. exists a'. split; [done|]. set_solver.
Qed.
Lemma slabs_bound g s L sc : heap_inv g s L -> NoDup (gslabs g sc) -> (length (gslabs g sc) < slab_fuel s)%nat.
Proof.
  intros HI HN. unfold slab_fuel. assert (Hs : list_to_set (C := gset Z) (gslabs g sc) ⊆ dom (slab_at s)).
  { intros a Ha. apply elem_of_list_to_set in Ha. destruct (hi_slab _ _ _ HI _ _ Ha) as [(sl & E & _) _ _ _]. by eapply elem_of_dom_2. }
  apply subseteq_size in Hs. rewrite size_list_to_set in Hs by done. rewrite size_dom in Hs. lia.
Qed.
Lemma find_slab_ok g s L sc d : heap_inv g s L -> arr_get (depot s) sc = Some d ->
  exists a, find_slab (slab_fuel s) (slabs d) s = Some (a, s) /\ (a = 0 \/ a ∈ gslabs g sc /\ gflist g a <> []).
Proof.
  intros HI Hd. destruct (hi_depot _ _ _ HI _ _ Hd) as [HL HN]. eapply find_slab_run; [done|done|done|by eapply slabs_bound].
Qed.

(** ** Filling a magazine *)
Lemma inv_slab_pop g s L sc a b l sl : heap_inv g s L -> a ∈ gslabs g sc -> gflist g a = b :: l -> slab_at s !! a = Some sl ->
  let nx := le_load 8 (memory s) b in let g' := set_bown b Taken (set_gflist a l g) in
  free_list_head sl = b /\ b <> 0 /\ free_blocks sl = Z.of_nat (S (length l)) /\ (length l < 512)%nat /\ mapped (back s) b 8 = true /\
  heap_inv g' (set_slab_at (<[a := set_free nx (free_blocks sl - 1) sl]> (slab_at s)) s) L /\ in_flight g' L sc b.
Proof.
  intros HI Ha El Hsl nx g'. destruct (hi_slab _ _ _ HI _ _ Ha) as [(sl' & E & E1 & E2 & E3 & E4 & E5 & E6 & E7 & E8) H2 H3 H4].
  assert (sl' = sl) as -> by congruence. rewrite El in E7, E8, H3, H4. apply list.NoDup_cons in H3 as [Hb H3]. rewrite El in H2. cbn in H2.
  destruct E8 as (Eh & o & Eo & E8). apply ptr_inv in Eh as [Eh Hne]. injection Eo as <-. destruct (H4 b) as [Ho Hk]; [set_solver|].
  pose proof (block_range _ _ _ _ _ HI Hk) as Hr.
  assert (HL : L !! (b + 16) = None).
  { destruct (L !! (b + 16)) as [bs|] eqn:EL; [|done]. destruct (hi_live _ _ _ HI _ _ EL) as [_ G2 _ _ _ _]. replace (b + 16 - 16) with b in G2 by lia. congruence. }
  split_and!; [done|lia|by rewrite E7|lia|apply (block_mapped _ _ _ _ _ _ _ HI Hk); lia| |split_and!; [done|cbn; by rewrite fn_set_eq|done]].
  assert (HI1 : heap_inv (set_gflist a l g) (set_slab_at (<[a := set_free nx (free_blocks sl - 1) sl]> (slab_at s)) s) L).
  { assert (FS : forall k, snext (set_slab_at (<[a := set_free nx (free_blocks sl - 1) sl]> (slab_at s)) s) k = snext s k).
    { intros k. unfold snext. cbn. rewrite lookup_insert. case_decide; [subst; by rewrite Hsl|done]. }
    constructor; try apply HI.
    - intros sc' d Hd. destruct (hi_depot _ _ _ HI _ _ Hd) as [G1 G2]. split; [|done]. eapply linked_ext; [|exact G1]. intros; apply FS.
    - intros sc' a' Ha'. cbn. destruct (decide (a' = a)) as [->|Na].
      + destruct (hi_base _ _ _ HI _ _ _ _ Ha Ha' (or_introl eq_refl)) as [_ <-]. constructor; cbn; try done; rewrite ?fn_set_eq; try done.
        * exists (set_free nx (free_blocks sl - 1) sl). rewrite lookup_insert, decide_True by done. split_and!; try done; cbn. rewrite E7. cbn. lia.
        * split_and!; [apply H2..|lia].
        * intros b' Hb'. apply H4. set_solver.
      + destruct (hi_slab _ _ _ HI _ _ Ha') as [G1 G2 G3 G4]. constructor; cbn; rewrite ?fn_set_ne by done; try done.
        rewrite lookup_insert, decide_False by done. done.
    - intros p bs Hp. apply (live_ok_ghost g); [done..|by apply HI]. }
  apply inv_bown; [done|..|done].
  - intros k m sc' Hm Hc Hin. destruct (hi_contents _ _ _ HI _ _ _ Hm Hc) as [_ HC]. destruct (HC _ Hin). congruence.
  - intros sc' a' Ha'. cbn. unfold fn_set. case_decide as Ea; [done|]. intros Hin. destruct (so_free _ _ _ _ _ _ (hi_slab _ _ _ HI _ _ Ha') _ Hin). congruence.
Qed.
Lemma fill_loop_ok n g s L sc a i m : heap_inv g s L -> a ∈ gslabs g sc -> own g i = Loose sc -> magazine_pool s !! i = Some m ->
  count m + Z.of_nat n <= 32 ->
  exists g' t p m', let s' := set_slab_at t (set_pool p s) in
    fill_loop n a i s = Some (tt, s') /\ heap_inv g' s' L /\ own g' = own g /\ p !! i = Some m' /\
    count m' = count m + Z.min (Z.of_nat n) (Z.of_nat (length (gflist g a))).
Proof.
  revert g s m. induction n as [|n IH]; intros g s m HI Ha Ho Hm Hc; cbn [fill_loop].
  - exists g, (slab_at s), (magazine_pool s), m. cbn zeta. assert (E : set_slab_at (slab_at s) (set_pool (magazine_pool s) s) = s) by (by destruct s).
    rewrite E. split_and!; [done..|lia].
  - destruct (hi_slab _ _ _ HI _ _ Ha) as [(sl & E & _ & _ & _ & _ & _ & _ & Ef & _) _ _ _].
    erewrite run_bind; [|unfold get_slab; by rewrite E]. destruct (gflist g a) as [|b l] eqn:El.
    + rewrite Ef. cbn [length negb Z.of_nat]. exists g, (slab_at s), (magazine_pool s), m. cbn zeta.
      assert (Es : set_slab_at (slab_at s) (set_pool (magazine_pool s) s) = s) by (by destruct s). rewrite Es. split_and!; [done..|lia].
    + destruct (inv_slab_pop _ _ _ _ _ _ _ _ HI Ha El E) as (-> & Hb & Efb & Hlen5 & Hmap & HI1 & HF). rewrite Efb. rewrite (proj2 (Z.ltb_lt 0 _)) by lia.
      cbn [negb]. rewrite (proj2 (Z.eqb_neq b 0)) by done. pose proof (mag_at _ _ _ _ _ HI Hm) as Hok. pose proof Hok as [Hlen Hcnt].
      set (nx := le_load 8 (memory s) b) in *. set (g1 := set_bown b Taken (set_gflist a l g)) in *. set (s1 := set_slab_at _ s) in HI1.
      pose proof (inv_push g1 s1 L i m sc b HI1 Hm) as HI2. cbn in HI2. rewrite Ho in HI2. specialize (HI2 eq_refl ltac:(right; eauto) ltac:(lia) HF).
      set (m2 := mk_magazine _ _ _) in HI2. set (s2 := set_pool _ s1) in HI2.
      destruct (IH _ s2 m2 HI2) as (g' & t & p & m' & G1 & G2 & G3 & G4 & G5); [done|done|exact (pool_upd_same i m m2 s1 Hm)|cbn; lia|].
      cbn [gflist set_bown set_gflist g1] in G5. rewrite fn_set_eq in G5.
      exists g', t, p, m'. cbn zeta. split_and!; [|exact G2|exact G3|exact G4|cbn [length count m2] in G5 |- *; lia].
      eapply bind_run; [|exact G1]. eapply bind_run; [unfold load; change (Z.of_nat 8) with 8; rewrite Hmap; reflexivity|]. fold nx.
      assert (Hlt : count m < 32) by lia. eapply bind_run; [exact (push_block_run i m b s Hok Hm Hlt)|]. unfold s2, s1, m2. unfold put_slab, upd. cbn. rewrite u32_small by lia. by rewrite Efb.
Qed.

(** ** Threading the blocks of a new slab *)
Fixpoint blocks_from (n : nat) (base chunk i : Z) (l : list Z) : list Z :=
  match n with O => l | S n' => blocks_from n' base chunk (i + 1) (base + i * chunk :: l) end.
Lemma blocks_from_elem n base chunk i l b : b ∈ blocks_from n base chunk i l <-> b ∈ l \/ exists k, i <= k < i + Z.of_nat n /\ b = base + k * chunk.
Proof.
  revert i l. induction n as [|n IH]; intros i l; cbn [blocks_from].
  - split; [by left|]. intros [?|(k & ? & _)]; [done|lia].
  - rewrite IH, elem_of_cons. split.
    + intros [[->|?]|(k & ? & ->)]; [right; exists i; lia|by left|right; exists k; lia].
    + intros [?|(k & ? & ->)]; [by left; right|]. destruct (decide (k = i)) as [->|]; [by left; left|]. right. exists k. lia.
Qed.
Lemma blocks_from_length n base chunk i l : length (blocks_from n base chunk i l) = (n + length l)%nat.
Proof. revert i l. induction n as [|n IH]; intros i l; cbn [blocks_from]; [done|]. rewrite IH. cbn. lia. Qed.
Lemma blocks_from_nodup n base chunk i l : 0 < chunk -> NoDup l -> (forall b, b ∈ l -> b < base + i * chunk) -> NoDup (blocks_from n base chunk i l).
Proof.
  intros Hc. revert i l. induction n as [|n IH]; intros i l HN Hl; cbn [blocks_from]; [done|]. apply IH.
  - apply list.NoDup_cons. split; [|done]. intros Hb%Hl. lia.
  - intros b [->|Hb%Hl]%elem_of_cons; nia.
Qed.
Lemma thread_loop_run n base chunk i head s l : (forall k, i <= k < i + Z.of_nat n -> mapped (back s) (base + k * chunk) 8 = true) ->
  32 <= chunk -> 0 < base -> 0 <= i -> base + (i + Z.of_nat n) * chunk < 2 ^ 64 -> 0 <= head < 2 ^ 64 ->
  linked (fnext (memory s)) (ptr head) l -> (forall b, b ∈ l -> b + 8 <= base + i * chunk) ->
  exists head' m', thread_loop n base chunk i head s = Some (head', set_memory m' s) /\
    frame (base + i * chunk) (Z.of_nat n * chunk) (memory s) m' /\ linked (fnext m') (ptr head') (blocks_from n base chunk i l).
Proof.
  intros Hmap Hc Hb. revert i head s l Hmap. induction n as [|n IH]; intros i head s l Hmap Hi Hbound Hh Hl Hbl; cbn [thread_loop blocks_from].
  - exists head, (memory s). assert (E : set_memory (memory s) s = s) by (by destruct s). rewrite E. split_and!; [done|apply frame_refl|done].
  - set (m1 := le_store 8 head (base + i * chunk) (memory s)).
    assert (HF : frame (base + i * chunk) 8 (memory s) m1) by (apply le_store_frame; lia).
    destruct (IH (i + 1) (base + i * chunk) (set_memory m1 s) (base + i * chunk :: l)) as (head' & m' & E & F & Lk); [..|].
    + intros k Hk. apply Hmap. lia.
    + lia.
    + lia.
    + nia.
    + cbn [linked]. split; [apply ptr_some; nia|]. exists (ptr head). split.
      * unfold fnext. do 2 f_equal. change (memory (set_memory m1 s)) with (le_store 8 head (base + i * chunk) (memory s)). rewrite le_load_store. by apply Z.mod_small.
      * eapply linked_ext; [|exact Hl]. intros b Hk. unfold fnext. do 2 f_equal. eapply le_load_frame; [exact HF|]. specialize (Hbl _ Hk). lia.
    + intros b [->|Hk%Hbl]%elem_of_cons; nia.
    + exists head', m'. split_and!; [|eapply frame_trans; [eapply frame_sub; [exact HF|nia|nia]|eapply frame_sub; [exact F|nia|nia]]|exact Lk].
      eapply bind_run; [|exact E]. unfold store. change (Z.of_nat 8) with 8. rewrite Hmap by lia. done.
Qed.

(** ** New regions *)
Lemma block_apart_region g s L sc b x n : heap_inv g s L -> is_block g sc b -> (forall r, r ∈ vm_live (back s) -> apart (x, n) r) -> apart (x, n) (b, chunk sc).
Proof.
  intros HI Hb Hr. destruct (block_in _ _ _ _ _ HI Hb) as (_ & a & _ & Hlive & ? & ?). destruct (Hr _ Hlive); [left|right]; cbn in *; lia.
Qed.
Lemma inv_region g s L v' m' x n : heap_inv g s L -> vm_ok v' -> (forall r, r ∈ vm_live (back s) -> r ∈ vm_live v') ->
  frame x n (memory s) m' -> (forall r, r ∈ vm_live (back s) -> apart (x, n) r) -> heap_inv g (set_back v' (set_memory m' s)) L.
Proof.
  intros HI Hv Hsub HF Hap. constructor; try apply HI; cbn; [done|..].
  - intros sc a Ha. assert (Hs : slab_ok g (slab_at s) m' (back s) sc a).
    { eapply free_frame; [done..|]. intros b Hb. eapply block_apart_region; [done| |done]. by apply (hi_slab _ _ _ HI _ _ Ha). }
    destruct Hs as [H1 (H2 & H2' & H2'') H3 H4]. constructor; [done| |done|done]. split_and!; [by apply Hsub..|done].
  - intros p bs Hp. destruct (live_block_fits _ _ _ _ _ HI Hp) as (_ & Hk & _). eapply live_frame; [done..|]. by eapply block_apart_region.
Qed.
Lemma vm_alloc_run g s L n : heap_inv g s L -> 0 < n <= 2 ^ 30 ->
  (exists v', VMemAlloc n (back s) = Some (0, v') /\ vm_alloc n s = Some (0, set_back v' s) /\ heap_inv g (set_back v' s) L /\ vm_live v' = vm_live (back s)) \/
  exists a v', VMemAlloc n (back s) = Some (a, v') /\ a <> 0 /\ let s' := set_back v' (set_memory (zeroed a (page_up n) (memory s)) s) in
    vm_alloc n s = Some (a, s') /\ heap_inv g s' L /\ vm_live v' = (a, page_up n) :: vm_live (back s) /\ forall r, r ∈ vm_live (back s) -> apart (a, page_up n) r.
Proof.
  intros HI Hn. destruct (vm_alloc_spec _ n (hi_back _ _ _ HI) Hn) as (a & v' & E & Hok & [[-> Hl]|(Hl & Hap)]).
  - left. exists v'. unfold vm_alloc. rewrite E. cbn. split_and!; try done.
    assert (Es : set_back v' s = set_back v' (set_memory (memory s) s)) by (by destruct s). rewrite Es.
    eapply (inv_region g s L v' (memory s) 0 0); [done|done|by rewrite Hl|apply frame_refl|].
    intros r Hr. destruct (vm_range _ _ (hi_back _ _ _ HI) Hr). left. cbn. lia.
  - right. exists a, v'. assert (Hne : a <> 0).
    { destruct (vm_range v' (a, page_up n) Hok) as (? & _); [rewrite Hl; set_solver|cbn in *; lia]. }
    unfold vm_alloc. rewrite E. cbn. rewrite (proj2 (Z.eqb_neq a 0)) by done. split_and!; try done.
    eapply inv_region; [done|done|intros r Hr; rewrite Hl; set_solver|apply zeroed_frame|done].
Qed.

(** ** A new slab *)
Definition add_slab (sc a base : Z) (l : list Z) g : ghost :=
  mk_ghost (own g) (fun b => if decide (base <= b < base + SLAB_SIZE) then InSlab a else bown g b) (glist g)
    (fn_set (gslabs g) sc (a :: gslabs g sc)) (fn_set (gbase g) a base) (fn_set (gflist g) a l).
Record fresh_slab g s (a base : Z) : Prop := mk_fresh_slab {
  fs_meta : (a, PAGE_SIZE) ∈ vm_live (back s);
  fs_mem : (base, SLAB_SIZE) ∈ vm_live (back s);
  fs_apart : forall sc' a', a' ∈ gslabs g sc' -> apart (a, PAGE_SIZE) (a', PAGE_SIZE) /\ apart (base, SLAB_SIZE) (gbase g a', SLAB_SIZE) }.
Lemma fresh_new g s a base sc' a' : fresh_slab g s a base -> a' ∈ gslabs g sc' -> a' <> a /\ gbase g a' <> base.
Proof. intros HF Ha. destruct (fs_apart _ _ _ _ HF _ _ Ha) as [H1 H2]. unfold apart, SLAB_SIZE, PAGE_SIZE in *. cbn in *. lia. Qed.
Lemma add_slab_block g s a base l sc sc' b : fresh_slab g s a base -> is_block g sc' b -> is_block (add_slab sc a base l g) sc' b.
Proof.
  intros HF (a' & j & Ha & Hj & ->). exists a', j. destruct (fresh_new _ _ _ _ _ _ HF Ha) as [Hne _]. split_and!; [|lia..|].
  - cbn. unfold fn_set. case_decide; [subst; set_solver|done].
  - cbn. by rewrite fn_set_ne.
Qed.
Lemma add_slab_bown g s L a base l sc sc' b : heap_inv g s L -> fresh_slab g s a base -> is_block g sc' b -> bown (add_slab sc a base l g) b = bown g b.
Proof.
  intros HI HF Hb. destruct (block_in _ _ _ _ _ HI Hb) as (Hsc & a' & Ha' & _ & H1 & H2). destruct (class_facts _ Hsc) as (_ & ? & _ & ? & _).
  destruct (fs_apart _ _ _ _ HF _ _ Ha') as [_ Hap]. cbn. rewrite decide_False; [done|]. destruct Hap; cbn in *; lia.
Qed.
Lemma inv_add_slab g s L sc a base d sl : heap_inv g s L -> arr_get (depot s) sc = Some d -> fresh_slab g s a base ->
  let l := blocks_from (Z.to_nat (per_slab sc)) base (chunk sc) 0 [] in
  sl = mk_slab (slabs d) base base SLAB_SIZE (chunk sc) sc (per_slab sc) (per_slab sc) (free_list_head sl) (cookie sl) ->
  linked (fnext (memory s)) (ptr (free_list_head sl)) l ->
  heap_inv (add_slab sc a base l g) (set_depot (<[Z.to_nat sc := set_slabs a d]> (depot s)) (set_slab_at (<[a := sl]> (slab_at s)) s)) L.
Proof.
  intros HI Hd HF l Esl Hl. set (g' := add_slab sc a base l g). pose proof (arr_get_range _ _ _ Hd) as Hr. rewrite (hi_dep _ _ _ HI) in Hr.
  assert (Hsc : 0 <= sc < 8) by lia. destruct (class_facts sc Hsc) as (_ & Hcs & _ & Hch & Hps & Hfit).
  assert (HBi : forall sc' b, is_block g sc' b -> is_block g' sc' b) by (intros; by eapply add_slab_block).
  assert (HBo : forall sc' b, is_block g sc' b -> bown g' b = bown g b) by (intros; by eapply add_slab_bown).
  destruct (vm_range _ _ (hi_back _ _ _ HI) (fs_meta _ _ _ _ HF)) as (Ra & _). cbn in Ra.
  assert (HS : forall x sc', x ∈ gslabs g' sc' -> (x = a /\ sc' = sc) \/ (x ∈ gslabs g sc' /\ x <> a /\ gbase g' x = gbase g x /\ gbase g x <> base)).
  { intros x sc' Hx. assert (Hx' : (x = a /\ sc' = sc) \/ x ∈ gslabs g sc') by (cbn in Hx; unfold fn_set in Hx; case_decide; [subst; set_solver|by right]).
    destruct Hx' as [?|Hx']; [by left|right]. destruct (fresh_new _ _ _ _ _ _ HF Hx') as [? ?]. split_and!; try done. cbn. by rewrite fn_set_ne. }
  assert (Eb : gbase g' a = base) by (cbn; by rewrite fn_set_eq).
  constructor; try apply HI; cbn [depot slab_at memory back set_depot set_slab_at per_cpu_caches magazine_pool heap_stats_per_cpu].
  - rewrite length_insert. apply HI.
  - intros p h Hh. assert (Hh' : head s p = Some h).
    { destruct p as [|x|x|x|c x|x]; cbn in Hh |- *; try done; (destruct (decide (sc = x)) as [<-|]; [rewrite arr_get_insert_eq in Hh by (rewrite (hi_dep _ _ _ HI); lia); by rewrite Hd|by rewrite arr_get_insert_ne in Hh by lia]). }
    eapply mlist_ext; [|by apply (hi_lists _ _ _ HI)]. done.
  - intros sc' d' Hd'. destruct (decide (sc = sc')) as [<-|Ns].
    + rewrite arr_get_insert_eq in Hd' by (rewrite (hi_dep _ _ _ HI); lia). injection Hd' as <-. destruct (hi_depot _ _ _ HI _ _ Hd) as [G1 G2]. cbn. rewrite fn_set_eq. split.
      * split; [apply ptr_some; lia|]. exists (ptr (slabs d)). split; [unfold snext; cbn; rewrite lookup_insert, decide_True by done; cbn; by rewrite Esl|].
        eapply linked_ext; [|exact G1]. intros k Hk. unfold snext. cbn. rewrite lookup_insert_ne; [done|]. intros <-. by destruct (fresh_new _ _ _ _ _ _ HF Hk).
      * apply list.NoDup_cons. split; [|done]. intros Hk. by destruct (fresh_new _ _ _ _ _ _ HF Hk).
    + rewrite arr_get_insert_ne in Hd' by lia. destruct (hi_depot _ _ _ HI _ _ Hd') as [G1 G2]. cbn. rewrite fn_set_ne by done. split; [|done].
      eapply linked_ext; [|exact G1]. intros k Hk. unfold snext. cbn. rewrite lookup_insert_ne; [done|]. intros <-. by destruct (fresh_new _ _ _ _ _ _ HF Hk).
  - intros i m sc' Hm Hc. destruct (hi_contents _ _ _ HI _ _ _ Hm Hc) as [G1 G2]. split; [done|]. intros b Hb. destruct (G2 _ Hb) as [Ho Hk].
    split; [by rewrite (HBo _ _ Hk)|by apply HBi].
  - intros sc' x Hx. destruct (HS _ _ Hx) as [[-> ->]|(Hx' & _)]; [done|by apply (hi_classes _ _ _ HI _ _ Hx')].
  - intros sc' x Hx. destruct (HS _ _ Hx) as [[-> ->]|(Hx' & Hxa & Eg & _)].
    + constructor; rewrite ?Eb; cbn [gflist g' add_slab]; rewrite ?fn_set_eq.
      * exists sl. rewrite lookup_insert, decide_True by done. rewrite Esl. cbn. split_and!; try done. unfold l. rewrite blocks_from_length. cbn. lia.
      * split_and!; [apply HF|apply HF|]. unfold l. rewrite blocks_from_length. cbn. lia.
      * unfold l. apply blocks_from_nodup; [lia|constructor|set_solver].
      * intros b [Hb|(k & Hk & ->)]%blocks_from_elem; [set_solver|]. split; [|exists a, k; split_and!; [cbn; rewrite fn_set_eq; set_solver|lia..|by rewrite Eb]].
        cbn. rewrite decide_True; [done|]. nia.
    + destruct (hi_slab _ _ _ HI _ _ Hx') as [(sl' & E & G0) G2 G3 G4]. constructor; rewrite ?Eg; cbn [gflist g' add_slab]; rewrite ?fn_set_ne by done; [|done..|].
      * exists sl'. rewrite lookup_insert_ne by done. done.
      * intros b Hb. destruct (G4 _ Hb) as [Ho Hk]. split; [by rewrite (HBo _ _ Hk)|by apply HBi].
  - intros sc1 sc2 x y Hx Hy. destruct (HS _ _ Hx) as [[-> ->]|(Hx' & ? & E1 & ?)], (HS _ _ Hy) as [[-> ->]|(Hy' & ? & E2 & ?)]; rewrite ?Eb, ?E1, ?E2.
    + by intros _.
    + intros [?|?]; congruence.
    + intros [?|?]; congruence.
    + by apply (hi_base _ _ _ HI).
  - intros p bs Hp. destruct (hi_live _ _ _ HI _ _ Hp) as [G1 G2 G3 G4 G5 G6]. constructor; try done; [by rewrite (HBo _ _ G3)|by apply HBi].
Qed.
End slab.

(** * Refilling a magazine from the depot, and the two entry points of the kernel heap: every allocation and every free keeps the invariant. *)
Section refill.
Context {V : Type} `{!Backend V} `{!BackendLaws V}.
Implicit Types (s : heap V) (g : ghost) (L : gmap Z bytes).

(** The virtual memory manager has no room for a slab. *)
Definition refused (v : V) : Prop :=
  (exists v', VMemAlloc sizeof_Slab v = Some (0, v')) \/
  exists a v1 v2, a <> 0 /\ VMemAlloc sizeof_Slab v = Some (a, v1) /\ VMemAlloc SLAB_SIZE v1 = Some (0, v2).
Lemma mapped_in v r x n : r ∈ vm_live v -> r.1 <= x -> x + n <= r.1 + r.2 -> mapped v x n = true.
Proof.
  intros Hr H1 H2. unfold mapped. apply existsb_exists. exists r. split; [by apply list_elem_of_In|]. by rewrite !(proj2 (Z.leb_le _ _)) by lia.
Qed.
Lemma new_slab_ok g s L cpu tsc sc : heap_inv g s L -> 0 <= cpu < 64 -> 0 <= sc < 8 ->
  (exists s', new_slab cpu tsc sc s = Some (0, s') /\ heap_inv g s' L /\ refused (back s) /\ magazine_pool s' = magazine_pool s /\
     per_cpu_caches s' = per_cpu_caches s) \/
  exists a g' s', new_slab cpu tsc sc s = Some (a, s') /\ a <> 0 /\ heap_inv g' s' L /\ a ∈ gslabs g' sc /\ gflist g' a <> [] /\ own g' = own g /\
    magazine_pool s' = magazine_pool s /\ per_cpu_caches s' = per_cpu_caches s.
Proof.
  intros HI Hcpu Hsc. unfold new_slab. change (page_up sizeof_Slab) with PAGE_SIZE.
  destruct (vm_alloc_run g s L sizeof_Slab HI) as [(v1 & E1 & R1 & HI1 & _)|(a & v1 & E1 & Ha & R1 & HI1 & L1 & A1)]; [by vm_compute|..].
  { left. exists (set_back v1 s). split_and!; try done; [by rewrite (run_bind _ _ _ _ _ R1)|left; by eexists]. }
  erewrite run_bind by exact R1. rewrite (proj2 (Z.eqb_neq a 0)) by done. change (page_up sizeof_Slab) with PAGE_SIZE in *. set (s1 := set_back v1 _) in HI1 |- *.
  destruct (vm_alloc_run g s1 L SLAB_SIZE HI1) as [(v2 & E2 & R2 & HI2 & L2)|(base & v2 & E2 & Hb & R2 & HI2 & L2 & A2)]; [by vm_compute|..].
  { left. erewrite run_bind by exact R2. cbn [Z.eqb].
    destruct (vm_free_spec v2 a sizeof_Slab [] (vm_live (back s))) as (v3 & E3 & Hok3 & L3); [by apply (hi_back _ _ _ HI2)|by rewrite L2|by vm_compute|].
    eexists. split_and!; [erewrite run_bind; [|unfold vm_free; cbn; by rewrite E3]; reflexivity| |right; by exists a, v1, v2|done|done].
    change (set_back v3 (set_back v2 s1)) with (set_back v3 (set_memory (zeroed a PAGE_SIZE (memory s)) s)).
    eapply inv_region; [exact HI|done|by rewrite L3|apply zeroed_frame|exact A1]. }
  right. erewrite run_bind by exact R2. rewrite (proj2 (Z.eqb_neq base 0)) by done. erewrite run_bind by (by apply class_size_run).
  change (page_up SLAB_SIZE) with SLAB_SIZE in *. set (s2 := set_back v2 _) in HI2 |- *.
  destruct (class_facts sc Hsc) as (_ & Hcs & _ & Hch & Hps & Hfit). change (header_size + csize sc) with (chunk sc). change (SLAB_SIZE / chunk sc) with (per_slab sc).
  rewrite (u32_small (per_slab sc)) by lia.
  assert (HF2 : fresh_slab g s2 a base).
  { constructor; [cbn; rewrite L2; cbn; rewrite L1; set_solver|cbn; rewrite L2; set_solver|]. intros sc' a' Ha'.
    destruct (so_live _ _ _ _ _ _ (hi_slab _ _ _ HI _ _ Ha')) as (M1 & M2 & _). split; [by apply A1|]. apply A2. cbn. rewrite L1. set_solver. }
  destruct (vm_range _ _ (hi_back _ _ _ HI2) (fs_mem _ _ _ _ HF2)) as (B1 & _ & B2 & _). cbn in B1, B2.
  destruct (thread_loop_run (Z.to_nat (per_slab sc)) base (chunk sc) 0 0 s2 []) as (h & m3 & E3 & F3 & K3); [|lia..|done|set_solver|].
  { intros k Hk. apply (mapped_in _ (base, SLAB_SIZE)); [by apply HF2|cbn; nia|cbn; nia]. }
  erewrite run_bind by exact E3. set (s3 := set_memory m3 s2) in *.
  assert (HI3 : heap_inv g s3 L).
  { change s3 with (set_back v2 (set_memory m3 s1)). assert (HI2' := HI2).
    eapply (inv_region g s1 L v2 m3 base SLAB_SIZE); [exact HI1|by apply (hi_back _ _ _ HI2)|intros r Hr; rewrite L2; set_solver| |exact A2].
    eapply frame_trans; [apply zeroed_frame|]. eapply frame_sub; [exact F3|lia|lia]. }
  destruct (depot_at _ _ _ _ HI3 Hsc) as (d & Hd). erewrite run_bind by (by apply get_depot_run).
  set (sl := set_slab_next (slabs d) _). set (l := blocks_from (Z.to_nat (per_slab sc)) base (chunk sc) 0 []) in *.
  assert (HF3 : fresh_slab g s3 a base) by (destruct HF2; by constructor).
  pose proof (inv_add_slab g s3 L sc a base d sl HI3 Hd HF3 eq_refl K3) as HI4. set (g4 := add_slab _ _ _ _ _) in HI4. set (s4 := set_depot _ _) in HI4.
  destruct (bump_stat_ok slabs_allocated cpu sc s4 (hi_stats _ _ _ HI4) Hcpu Hsc) as (t & E5 & Ht).
  exists a, g4, (set_stats t s4). split_and!.
  - erewrite run_bind by reflexivity. erewrite run_bind by (by apply upd_depot_run). erewrite run_bind by exact E5. done.
  - done.
  - by eapply inv_knobs.
  - cbn. rewrite fn_set_eq. set_solver.
  - cbn. rewrite fn_set_eq. intros E. apply (f_equal length) in E. fold l in E. unfold l in E. rewrite blocks_from_length in E. cbn in E. lia.
  - done.
  - done.
  - done.
Qed.

Lemma get_active_run g s L cpu sc : heap_inv g s L -> 0 <= cpu < 64 -> 0 <= sc < 8 -> exists o, get_active cpu sc s = Some (o, s) /\
  forall i, o = Some i -> own g i = InUse cpu sc /\ exists m, magazine_pool s !! i = Some m /\ mag_ok m.
Proof.
  intros HI Hc Hs. destruct (hi_cache _ _ _ HI) as [H1 H2]. destruct (rows_get _ cpu sc H1 H2 Hc Hs) as (row & o & Er & Eo & _). exists o.
  unfold get_active. rewrite Er, option_bind_Some, Eo. split; [done|]. intros i ->. destruct (hi_active _ _ _ HI _ _ _ _ Er Eo) as [Ho Hl].
  split; [done|]. destruct (lookup_lt_is_Some_2 _ _ Hl) as [m Hm]. exists m. split; [done|]. by eapply mag_at.
Qed.
Lemma get_active_same cpu sc s s' o : per_cpu_caches s' = per_cpu_caches s -> get_active cpu sc s = Some (o, s) -> get_active cpu sc s' = Some (o, s').
Proof.
  intros E. unfold get_active. rewrite E. destruct (arr_get (per_cpu_caches s) cpu) as [c|]; [|done]. cbn. destruct (arr_get c sc); [|done]. cbn. by intros [= ->].
Qed.
Lemma get_active_set g s L cpu sc o : heap_inv g s L -> 0 <= cpu < 64 -> 0 <= sc < 8 -> get_active cpu sc (cache_set cpu sc o s) = Some (o, cache_set cpu sc o s).
Proof.
  intros HI Hcpu Hsc. destruct (hi_cache _ _ _ HI) as [H1 H2]. destruct (rows_get _ cpu sc H1 H2 Hcpu Hsc) as (row & x & Er & Ex & Elen).
  unfold get_active, cache_set. cbn [per_cpu_caches set_caches]. rewrite arr_get_insert_eq by lia. unfold arr_get in Er. case_if_in Er E; [|done]. rewrite Er. cbn [default].
  rewrite option_bind_Some. unfold id. by rewrite arr_get_insert_eq by lia.
Qed.
Lemma DepotRefill_ok g s L cpu tsc sc : heap_inv g s L -> 0 <= cpu < 64 -> 0 <= sc < 8 ->
  (exists g' s', DepotRefill cpu tsc sc s = Some (None, s') /\ heap_inv g' s' L /\ (magazine_pool_head s = None \/ refused (back s))) \/
  exists i g' s' m, DepotRefill cpu tsc sc s = Some (Some i, s') /\ heap_inv g' s' L /\ own g' i = Loose sc /\ magazine_pool s' !! i = Some m /\ 0 < count m /\
    per_cpu_caches s' = per_cpu_caches s.
Proof.
  intros HI Hcpu Hsc. destruct (depot_at _ _ _ _ HI Hsc) as (d & Hd). unfold DepotRefill. erewrite run_bind by (by apply get_depot_run).
  assert (listed : forall p i f, (p = InFull sc \/ p = InPart sc) -> head s p = Some (Some i) ->
    (forall o, upd_depot sc (f o) s = Some (tt, set_head p o s)) ->
    exists g' s' m, ((m0 ← get_mag i; upd_depot sc (f (mag_next m0));; upd_mag i (set_next None);; mret (Some i)) : STM (heap V) (option nat)) s = Some (Some i, s') /\ heap_inv g' s' L /\
      own g' i = Loose sc /\ magazine_pool s' !! i = Some m /\ 0 < count m /\ per_cpu_caches s' = per_cpu_caches s).
  { intros p i f Hp Hh Hf. destruct (list_mag _ _ _ _ _ HI Hh) as (m & Hm & _). destruct (inv_unlist _ _ _ _ _ _ _ HI Hp Hh Hm) as (l & HI1 & _ & Hpos).
    destruct (set_head_frame p (mag_next m) s) as (_ & F2 & _ & F4 & _). assert (Hm1 := Hm). rewrite <- F4 in Hm1.
    eexists _, _, (set_next None m). split_and!; [|exact HI1|cbn; by rewrite fn_set_eq| |done|done].
    - erewrite run_bind by (by apply get_mag_run). erewrite run_bind by (apply Hf). erewrite run_bind by (by apply upd_mag_run). by rewrite F4.
    - cbn. rewrite (lookup_upd _ _ _ _ _ Hm). by rewrite decide_True. }
  destruct (full_magazines d) as [i|] eqn:Ef.
  { right. exists i. apply (listed (InFull sc) i set_full); [by left|cbn; rewrite Hd; cbn; by rewrite Ef|]. intros o. rewrite (upd_depot_run _ _ _ _ Hd). cbn. by rewrite Hd. }
  destruct (partial_magazines d) as [i|] eqn:Ep.
  { right. exists i. apply (listed (InPart sc) i set_partial); [by right|cbn; rewrite Hd; cbn; by rewrite Ep|]. intros o. rewrite (upd_depot_run _ _ _ _ Hd). cbn. by rewrite Hd. }
  destruct (empty_magazine_ok g s L sc HI Hsc) as [[E1 Hnone]|(i & g1 & s1 & m & E1 & HI1 & Ho & Hm & Hc & K)].
  { left. exists g, s. split_and!; [by erewrite run_bind by exact E1|done|by left]. }
  erewrite run_bind by exact E1. cbv beta iota. erewrite run_bind by apply asks_run.
  destruct (depot_at _ _ _ _ HI1 Hsc) as (d1 & Hd1). destruct (kp_dep _ _ _ _ K _ _ Hd1) as (d0 & Hd0 & Es). assert (d0 = d) as -> by congruence. rewrite <- Es.
  destruct (find_slab_ok g1 s1 L sc d1 HI1 Hd1) as (a & E2 & Ha). erewrite run_bind by exact E2.
  assert (fill : forall g2 s2 a2, heap_inv g2 s2 L -> a2 ∈ gslabs g2 sc -> gflist g2 a2 <> [] -> own g2 = own g1 -> magazine_pool s2 = magazine_pool s1 ->
    per_cpu_caches s2 = per_cpu_caches s1 -> exists g' s' m', ((fill_loop MAGAZINE_CAPACITY a2 i;; mret (Some i)) : STM (heap V) (option nat)) s2 = Some (Some i, s') /\ heap_inv g' s' L /\
      own g' i = Loose sc /\ magazine_pool s' !! i = Some m' /\ 0 < count m' /\ per_cpu_caches s' = per_cpu_caches s).
  { intros g2 s2 a2 HI2 Ha2 Hne Eo Epool Ecache. destruct (fill_loop_ok MAGAZINE_CAPACITY g2 s2 L sc a2 i m HI2 Ha2) as (g3 & t & p & m' & E3 & HI3 & Ho3 & Hm3 & Hc3);
      [by rewrite Eo|by rewrite Epool|rewrite Hc; unfold MAGAZINE_CAPACITY; lia|].
    exists g3, (set_slab_at t (set_pool p s2)), m'. split_and!; [by erewrite run_bind by exact E3|done|by rewrite Ho3, Eo|done| |cbn; by rewrite Ecache, (kp_cache _ _ _ _ K)].
    rewrite Hc3, Hc. change (Z.of_nat MAGAZINE_CAPACITY) with 32. destruct (gflist g2 a2); [done|cbn [length]; lia]. }
  destruct (Z.eqb_spec a 0) as [->|Na]; cbn [negb].
  - destruct (new_slab_ok g1 s1 L cpu tsc sc HI1 Hcpu Hsc) as [(s2 & E3 & HI2 & Hr & Epool & _)|(a' & g2 & s2 & E3 & Ha' & HI2 & Hin & Hne & Eo & Epool & Ecache)].
    + left. erewrite run_bind by exact E3. cbn [Z.eqb]. rewrite <- Epool in Hm. destruct (FreeMagazine_ok g1 s2 L i m sc HI2 Ho Hm) as (g3 & s3 & E4 & HI3).
      exists g3, s3. split_and!; [by erewrite run_bind by exact E4|done|right; by rewrite <- (kp_back _ _ _ _ K)].
    + right. erewrite run_bind by exact E3. rewrite (proj2 (Z.eqb_neq a' 0)) by done. exists i. by apply (fill g2 s2 a').
  - right. destruct Ha as [?|[Hin Hne]]; [done|]. exists i. by apply (fill g1 s1 a).
Qed.

(** ** [MagazineAlloc] *)
Lemma take_live g s L i m sc n : heap_inv g s L -> magazine_pool s !! i = Some m -> mag_class (own g i) = Some sc -> settled (own g i) -> 0 < count m ->
  0 < n <= 1024 -> GetSizeClass n = sc ->
  exists p m', let s' := set_memory m' (set_pool (<[i := set_count (count m - 1) m]> (magazine_pool s)) s) in
    take_block i sc s = Some (p, s') /\ p <> 0 /\ L !! p = None /\ arr_get (blocks m) (count m - 1) = Some (p - 16) /\
    heap_inv (set_bown (p - 16) Taken g) s' (<[p := peeks (Z.to_nat n) (memory s') p]> L) /\
    forall q bs, L !! q = Some bs -> q + Z.of_nat (length bs) <= p \/ p + n <= q.
Proof.
  intros HI Hm Hc Hset Hpos Hn Esc. destruct (class_ok n Hn) as (Hsc & Hle & _). rewrite Esc in Hsc, Hle.
  destruct (take_block_ok _ _ _ _ _ _ HI Hm Hc Hset Hpos Hsc) as (b & m' & E & HI1 & (Hb & Ho & HL) & [Hh1 Hh2] & HF & Eb).
  pose proof (block_range _ _ _ _ _ HI1 Hb) as Hr. exists (b + 16), m'. cbn zeta. split; [exact E|]. replace (b + 16 - 16) with b by lia. split; [lia|]. split; [done|]. split; [done|]. split.
  - apply inv_live_add; [exact HI1|]. constructor; rewrite ?length_peeks, ?Z2Nat.id by lia; cbn [memory set_memory]; rewrite ?Esc; try done.
    + by replace (b + 16 - 16) with b by lia.
    + by replace (b + 16 - 16) with b by lia.
    + by replace (b + 16 - 16) with b by lia.
    + by replace (b + 16 - 8) with (b + 8) by lia.
  - intros q bs Hq. destruct (live_block_fits _ _ _ _ _ HI1 Hq) as (_ & Hk & Hfit). destruct (class_facts sc Hsc) as (_ & _ & _ & Hch & _).
    destruct (blocks_apart _ _ _ _ _ _ _ HI1 Hb Hk) as [[E' _]|[D|D]]; cbn in *; [|lia..].
    replace (b + 16) with q in HL by lia. congruence.
Qed.
Lemma MagazineAlloc_ok g s L cpu tsc n : heap_inv g s L -> 0 <= cpu < 64 -> 0 < n <= 1024 ->
  exists r s', MagazineAlloc cpu tsc n s = Some (r, s') /\
    ((r = 0 /\ heap_ok s' L /\ (magazine_pool_head s = None \/ refused (back s))) \/
     (r <> 0 /\ L !! r = None /\ heap_ok s' (<[r := peeks (Z.to_nat n) (memory s') r]> L) /\
      forall q bs, L !! q = Some bs -> q + Z.of_nat (length bs) <= r \/ r + n <= q)).
Proof.
  intros HI Hcpu Hn. destruct (class_ok n Hn) as (Hsc & Hle & _). unfold MagazineAlloc. rewrite (proj2 (Z.eqb_neq n 0)) by lia.
  set (sc := GetSizeClass n) in *. rewrite (proj2 (Z.ltb_ge sc 0)) by lia. destruct (get_active_run _ _ _ _ _ HI Hcpu Hsc) as (o & Eo & Ho). erewrite run_bind by exact Eo.
  assert (slow : exists r s', ((r ← DepotRefill cpu tsc sc; match r with None => mret 0 | Some i => StatsAdd cpu sc alloc_slow_refills;; StatsAdd cpu sc magazine_swaps;;
            set_active cpu sc (Some i);; take_block i sc end) : STM (heap V) Z) s = Some (r, s') /\
    ((r = 0 /\ heap_ok s' L /\ (magazine_pool_head s = None \/ refused (back s))) \/
     (r <> 0 /\ L !! r = None /\ heap_ok s' (<[r := peeks (Z.to_nat n) (memory s') r]> L) /\ forall q bs, L !! q = Some bs -> q + Z.of_nat (length bs) <= r \/ r + n <= q))).
  { destruct (DepotRefill_ok g s L cpu tsc sc HI Hcpu Hsc) as [(g1 & s1 & E1 & HI1 & Hw)|(i & g1 & s1 & m & E1 & HI1 & Hoi & Hm & Hpos & Hcache)].
    - exists 0, s1. split; [by erewrite run_bind by exact E1|]. left. split_and!; [done|by exists g1|done].
    - erewrite run_bind by exact E1. destruct (StatsAdd_ok g1 s1 L alloc_slow_refills cpu sc HI1 Hcpu Hsc) as (t2 & E2 & HI2). erewrite run_bind by exact E2.
      destruct (StatsAdd_ok g1 _ L magazine_swaps cpu sc HI2 Hcpu Hsc) as (t3 & E3 & HI3). erewrite run_bind by exact E3. set (s3 := set_stats t3 _) in *.
      assert (Ea : get_active cpu sc s3 = Some (o, s3)) by (eapply get_active_same; [|exact Eo]; done).
      erewrite run_bind by (by eapply set_active_run).
      pose proof (inv_activate _ _ _ _ _ _ i HI3 Hcpu Hsc Ea Hoi (lookup_lt_Some _ _ _ Hm)) as HI4.
      destruct (take_live _ _ _ i m sc n HI4 Hm) as (p & m' & Et & Hp & Hn' & _ & Hok & Hap); [cbn; by rewrite fn_set_eq|left; exists cpu, sc; cbn; by rewrite fn_set_eq|done..|].
      exists p. eexists. split; [exact Et|]. right. split_and!; [done..|by eexists|done]. }
  destruct o as [i|]; [|exact slow]. destruct (Ho i eq_refl) as (Hoi & m & Hm & Hok). cbn [has_blocks].
  erewrite run_bind by (erewrite run_bind by (by apply get_mag_run); reflexivity).
  destruct (Z.ltb_spec 0 (count m)) as [Hpos|]; [|exact slow].
  destruct (StatsAdd_ok g s L alloc_fast_hits cpu sc HI Hcpu Hsc) as (t & E1 & HI1). erewrite run_bind by exact E1.
  destruct (take_live _ _ _ i m sc n HI1 Hm) as (p & m' & Et & Hp & Hn' & _ & Hok' & Hap); [by rewrite Hoi|left; by exists cpu, sc|done..|].
  exists p. eexists. split; [exact Et|]. right. split_and!; [done..|by eexists|done].
Qed.
Lemma MagazineAlloc_zero cpu tsc s : MagazineAlloc cpu tsc 0 s = Some (0, s).
Proof. done. Qed.
Lemma MagazineAlloc_big cpu tsc n s : 1024 < n -> MagazineAlloc cpu tsc n s = None.
Proof. intros Hn. unfold MagazineAlloc. rewrite (proj2 (Z.eqb_neq n 0)) by lia. by rewrite class_too_big. Qed.
End refill.
