(* ===== verification/MagFree.v ===== *)
(** Freeing and reallocating on the kernel heap, flushing its caches, and its start-up. *)
From Stdlib Require Import ZArith Lia.
From stdpp Require Import base tactics list gmap sets numbers option.
From S2P Require Import Prelude ByteMem Magazine MagInv MagOps MagSteps MagRefill.

Section free.
Context {V : Type} `{!Backend V} `{!BackendLaws V}.
Implicit Types (s : heap V) (g : ghost) (L : gmap Z bytes).

(** ** Operations that do not look at the caches *)
Definition blind {A} (m : STM (heap V) A) : Prop := forall c s, m (set_caches c s) = (fun r => (r.1, set_caches c r.2)) <$> m s.
Lemma blind_bind {A B} (m : STM (heap V) A) (f : A -> STM (heap V) B) : blind m -> (forall a, blind (f a)) -> blind (m ≫= f).
Proof. intros Hm Hf c s. unfold mbind, STM_bind. rewrite Hm. destruct (m s) as [[a s1]|]; [|done]. cbn. apply Hf. Qed.
Lemma blind_ret {A} (a : A) : blind (mret a).
Proof. done. Qed.
Lemma blind_asks {A} (f : heap V -> A) : (forall c s, f (set_caches c s) = f s) -> blind (asks f).
Proof. intros H c s. unfold asks. by rewrite H. Qed.
Lemma blind_upd f : (forall c s, f (set_caches c s) = set_caches c (f s)) -> blind (upd f).
Proof. intros H c s. unfold upd. by rewrite H. Qed.
Lemma blind_upd_mag i f : blind (upd_mag i f).
Proof. intros c s. unfold upd_mag. cbn. by destruct (magazine_pool s !! i). Qed.
Lemma blind_get_mag i : blind (get_mag i).
Proof. intros c s. unfold get_mag. cbn. by destruct (magazine_pool s !! i). Qed.
Lemma blind_get_depot sc : blind (get_depot sc).
Proof. intros c s. unfold get_depot. cbn. by destruct (arr_get _ _). Qed.
Lemma blind_upd_depot sc f : blind (upd_depot sc f).
Proof. intros c s. unfold upd_depot. cbn. destruct (arr_get _ _); [|done]. cbn. by destruct (arr_set _ _ _). Qed.
Lemma blind_if {A} (b : bool) (m1 m2 : STM (heap V) A) : blind m1 -> blind m2 -> blind (if b then m1 else m2).
Proof. by destruct b. Qed.
Create HintDb blind.
#[local] Hint Resolve blind_bind blind_ret blind_upd_mag blind_get_mag blind_get_depot blind_upd_depot blind_if : blind.
Lemma DepotReturn_blind i sc : blind (DepotReturn i sc).
Proof. unfold DepotReturn. auto 12 with blind. Qed.
Lemma AllocMagazine_blind : blind AllocMagazine.
Proof.
  unfold AllocMagazine. apply blind_bind; [by apply blind_asks|]. intros [i|]; [|by auto with blind].
  apply blind_bind; [auto with blind|]. intros m. apply blind_bind; [by apply blind_upd|]. auto 8 with blind.
Qed.
Lemma FastMemset_blind a x n : blind (FastMemset a x n).
Proof. intros c s. unfold FastMemset. cbn. destruct (n <=? 0); [done|]. by destruct (mapped _ _ _). Qed.
Lemma Poison_blind p n : blind (PoisonOnFreeSmall p n).
Proof. unfold PoisonOnFreeSmall. apply blind_bind; [by apply blind_asks|]. intros l. pose proof FastMemset_blind. auto 8 with blind. Qed.

(** ** [MagazineFree] *)
Lemma Poison_ok g s L sc b : heap_inv g s L -> in_flight g L sc b -> 0 <= sc < 8 ->
  exists m', PoisonOnFreeSmall (b + 16) (csize sc) s = Some (tt, set_memory m' s) /\ heap_inv g (set_memory m' s) L.
Proof.
  intros HI HF Hsc. destruct (class_facts sc Hsc) as (_ & Hcs & _ & Hch & _). unfold PoisonOnFreeSmall. erewrite run_bind by apply asks_run.
  case_if E0; [exists (memory s); assert (E : set_memory (memory s) s = s) by (by destruct s); by rewrite E|].
  assert (go : forall n, n <= csize sc -> exists m', FastMemset (b + 16) 221 n s = Some (tt, set_memory m' s) /\ heap_inv g (set_memory m' s) L).
  { intros n Hn. destruct (memset_run g s L sc b (b + 16) 221 n HI HF) as (m' & E & HI' & _); [lia|lia|]. by exists m'. }
  case_if E1; [|by apply go]. apply go. case_if E2; zbool; lia.
Qed.
Lemma live_in_flight g s L p bs : heap_inv g s L -> L !! p = Some bs ->
  let sc := GetSizeClass (Z.of_nat (length bs)) in heap_inv g s (delete p L) /\ in_flight g (delete p L) sc (p - 16).
Proof.
  intros HI Hp sc. split; [eapply inv_live_sub; [done|apply delete_subseteq]|]. destruct (hi_live _ _ _ HI _ _ Hp) as [H1 H2 H3 _ _ _].
  split_and!; [done|done|]. replace (p - 16 + 16) with p by lia. by rewrite lookup_delete, decide_True.
Qed.
(** What [MagazineFree] and [MagazineReallocate] read in front of a live block. *)
Lemma live_header g s L p bs : heap_inv g s L -> L !! p = Some bs -> let sc := GetSizeClass (Z.of_nat (length bs)) in
  p <> 0 /\ u64 (p - header_size) = p - 16 /\ load 8 (p - 16) s = Some (MAGAZINE_BLOCK_MAGIC, s) /\ load 1 (p - 16 + 8) s = Some (sc, s) /\ 0 <= sc < 8.
Proof.
  intros HI Hp sc. destruct (live_block_fits _ _ _ _ _ HI Hp) as (Hsc & Hb & Hfit). destruct (hi_live _ _ _ HI _ _ Hp) as [H1 H2 H3 H4 H5 H6].
  pose proof (block_range _ _ _ _ _ HI Hb) as Hr. fold sc in Hb, Hfit, H5, Hr. unfold header_size. split_and!; [lia|apply u64_small; lia| | |apply Hsc..].
  - unfold load. change (Z.of_nat 8) with 8. rewrite (block_mapped _ _ _ _ _ (p - 16) 8 HI Hb) by lia. by rewrite H4.
  - unfold load. change (Z.of_nat 1) with 1. rewrite (block_mapped _ _ _ _ _ (p - 16 + 8) 1 HI Hb) by lia. replace (p - 16 + 8) with (p - 8) by lia. by rewrite H5.
Qed.
(** A magazine fresh from the pool takes its first block. *)
Lemma first_block b m : mag_ok m -> count m = 0 -> mag_next m = None ->
  set_next None (set_count 1 (set_blocks (<[0%nat := b]> (blocks m)) m)) = mk_magazine (<[Z.to_nat (count m) := b]> (blocks m)) (count m + 1) (mag_next m).
Proof. intros _ Hc Hn. unfold set_next, set_count, set_blocks. cbn. by rewrite Hc, Hn. Qed.
Definition slow_free (cpu p sc : Z) (o : option nat) : STM (heap V) unit :=
  (match o with Some i => DepotReturn i sc | None => mret tt end);;
  n ← AllocMagazine;
  match n with
  | None => fault
  | Some j =>
      PoisonOnFreeSmall p (csize sc);;
      upd_mag j (fun m => set_next None (set_count 1 (set_blocks (<[0%nat := p - 16]> (blocks m)) m)));;
      set_active cpu sc (Some j);;
      StatsAdd cpu sc free_slow_paths;;
      StatsAdd cpu sc magazine_swaps
  end.
(** The new active magazine [j] after the slow path of a free, with the old one in the depot. *)
Record renewed g g' s s' (sc : Z) (o : option nat) (j : nat) : Prop := mk_renewed {
  rn_mag : exists m, magazine_pool s' !! j = Some m /\ count m = 1;
  rn_pool : glist g InPool = j :: glist g' InPool;
  rn_full : forall i m, o = Some i -> magazine_pool s !! i = Some m -> 32 <= count m ->
    head s' (InFull sc) = Some (Some i) /\ exists m', magazine_pool s' !! i = Some m' /\ count m' = count m }.
Lemma slow_free_ok g s L cpu sc p o : heap_inv g s L -> 0 <= cpu < 64 -> 0 <= sc < 8 -> get_active cpu sc s = Some (o, s) ->
  in_flight g L sc (p - 16) ->
  (slow_free cpu p sc o s = None /\ magazine_pool_head s = None) \/
  exists g' s' j, slow_free cpu p sc o s = Some (tt, s') /\ heap_inv g' s' L /\ get_active cpu sc s' = Some (Some j, s') /\ renewed g g' s s' sc o j.
Proof.
  intros HI Hcpu Hsc Ho HF. unfold slow_free. set (s0 := cache_set cpu sc None s). set (c0 := per_cpu_caches s0).
  pose proof (inv_deactivate _ _ _ _ _ _ HI Hcpu Hsc Ho) as HI0. fold s0 in HI0. set (g0 := owners (Loose sc) o g) in HI0.
  assert (HF0 : in_flight g0 L sc (p - 16)) by (unfold g0; by destruct o).
  assert (R : exists g1 s1, (match o with Some i => DepotReturn i sc | None => mret tt end) s = Some (tt, set_caches (per_cpu_caches s) s1) /\
    heap_inv g1 s1 L /\ in_flight g1 L sc (p - 16) /\ magazine_pool_head s1 = magazine_pool_head s /\ per_cpu_caches s1 = c0 /\
    glist g1 InPool = glist g InPool /\ forall i m, o = Some i -> magazine_pool s !! i = Some m -> own g1 i <> InPool /\
      (32 <= count m -> head s1 (InFull sc) = Some (Some i)) /\ exists m', magazine_pool s1 !! i = Some m' /\ count m' = count m).
  { destruct o as [i|].
    - destruct (get_active_run _ _ _ _ _ HI Hcpu Hsc) as (o' & Eo' & Ho'). rewrite Ho in Eo'. injection Eo' as <-. destruct (Ho' i eq_refl) as (Hoi & m & Hm & _).
      destruct (DepotReturn_ok g0 s0 L i m sc HI0) as (pl & g1 & s1 & E1 & HI1 & K & Hh & Hpl & Hnp & Hgl & Hmag & Hfull); [cbn; by rewrite fn_set_eq|done|done|].
      exists g1, s1. split_and!; [|done| |done|by rewrite (kp_cache _ _ _ _ K)|by rewrite Hgl|].
      + replace s with (set_caches (per_cpu_caches s) s0) at 1 by (by destruct s). rewrite DepotReturn_blind, E1. done.
      + destruct HF0 as (F1 & F2 & F3). split_and!; [|by rewrite (kp_bown _ _ _ _ K)|done]. unfold is_block. by rewrite (kp_slabs _ _ _ _ K), (kp_base _ _ _ _ K).
      + intros i' m' [= <-] Hm'. assert (m' = m) as -> by congruence. split_and!; [congruence|done|done].
    - exists g0, s0. split_and!; [by destruct s|done..]. }
  destruct R as (g1 & s1 & E1 & HI1 & HF1 & Hh1 & Hc1 & Hgp & Hold). rewrite (run_bind _ _ _ _ _ E1). rewrite <- Hh1.
  destruct (AllocMagazine_ok g1 s1 L sc HI1) as [[Hnone E2]|(j & m & l & Hsome & El & Hm & E2 & HI2)].
  { left. split; [|done]. unfold mbind, STM_bind. by rewrite AllocMagazine_blind, E2. }
  right. erewrite run_bind by (rewrite AllocMagazine_blind, E2; reflexivity). cbv beta iota. set (s2 := set_pool _ _) in *. set (g2 := set_own _ _ _) in HI2. cbn [fst snd].
  assert (HF2 : in_flight g2 L sc (p - 16)) by exact HF1.
  destruct (Poison_ok g2 s2 L sc (p - 16) HI2 HF2 Hsc) as (m' & E3 & HI3). replace (p - 16 + 16) with p in E3 by lia.
  erewrite run_bind by (rewrite Poison_blind, E3; reflexivity). cbn [fst snd]. set (s3 := set_memory m' s2) in *.
  assert (Hm3 : magazine_pool s3 !! j = Some (mk_magazine (blocks m) 0 None)) by (cbn; rewrite (lookup_upd _ _ _ _ _ Hm); by rewrite decide_True).
  erewrite run_bind by (rewrite blind_upd_mag, (upd_mag_run _ _ _ _ Hm3); reflexivity). cbn [fst snd].
  assert (Hoj : own g2 j = Loose sc) by (cbn; by rewrite fn_set_eq).
  pose proof (inv_push g2 s3 L j _ sc (p - 16) HI3 Hm3) as HI4. rewrite Hoj in HI4. specialize (HI4 eq_refl ltac:(right; eauto) ltac:(cbn; lia) HF2).
  cbn [count blocks mag_next] in HI4. rewrite first_block; [|by apply (mag_at _ _ _ _ _ HI3 Hm3)|done|done]. cbn [count blocks mag_next].
  set (s4 := set_pool _ s3) in *. set (g4 := set_bown _ _ g2) in *.
  assert (Ec4 : per_cpu_caches s4 = c0) by exact Hc1.
  assert (Hact4 : get_active cpu sc s4 = Some (None, s4)) by (eapply get_active_same; [exact Hc1|by eapply (get_active_set g s L)]).
  pose proof (inv_activate g4 s4 L cpu sc None j HI4 Hcpu Hsc Hact4 Hoj) as HI5. specialize (HI5 ltac:(by apply lookup_lt_Some in Hm3; cbn in Hm3 |- *; rewrite length_insert)).
  set (s5 := cache_set cpu sc (Some j) s4) in HI5.
  assert (E5 : set_active cpu sc (Some j) (set_caches (per_cpu_caches s) s4) = Some (tt, s5)).
  { destruct (hi_cache _ _ _ HI) as [H1 H2]. destruct (rows_get _ cpu sc H1 H2 Hcpu Hsc) as (row & x & Er & Ex & Elen).
    unfold set_active. cbn [per_cpu_caches set_caches]. rewrite Er, option_bind_Some, arr_set_some by lia. rewrite option_bind_Some, arr_set_some by lia. rewrite option_bind_Some.
    unfold s5, cache_set. rewrite Ec4. unfold c0, s0, cache_set. cbn [per_cpu_caches set_caches]. rewrite list_lookup_insert_eq by lia. cbn [default].
    unfold arr_get in Er. case_if_in Er E; [|done]. rewrite Er. cbn. by rewrite !list_insert_insert_eq. }
  erewrite run_bind by exact E5. destruct (StatsAdd_ok _ s5 L free_slow_paths cpu sc HI5 Hcpu Hsc) as (t6 & E6 & HI6). erewrite run_bind by exact E6.
  destruct (StatsAdd_ok _ _ L magazine_swaps cpu sc HI6 Hcpu Hsc) as (t7 & E7 & HI7). set (s7 := set_stats t7 _) in *.
  eexists _, s7, j. split; [exact E7|]. split; [exact HI7|]. split; [eapply get_active_same; [|by eapply (get_active_set g4 s4 L)]; done|].
  assert (Hlk : forall k mk, k <> j -> magazine_pool s1 !! k = Some mk -> magazine_pool s7 !! k = Some mk).
  { intros k mk Hk Hmk. change (magazine_pool s7) with (magazine_pool s4). unfold s4. cbn. by rewrite !list_lookup_insert_ne by done. }
  constructor.
  - eexists. split; [change (magazine_pool s7) with (magazine_pool s4); unfold s4; cbn [magazine_pool set_pool]; rewrite (lookup_upd _ _ _ _ _ Hm3), decide_True by done; reflexivity|done].
  - rewrite <- Hgp, El. cbn. by rewrite fn_set_eq.
  - intros i mi -> Hmi H32. destruct (Hold i mi eq_refl Hmi) as (Hnp & Hf & mi' & Hmi' & Hci). split; [exact (Hf H32)|]. exists mi'. split; [|done].
    apply Hlk; [|done]. intros ->. apply Hnp. destruct (hi_lists _ _ _ HI1 InPool _ eq_refl) as (_ & _ & HO). apply HO. rewrite El. set_solver.
Qed.
(** A free puts the block on the active magazine, or takes the slow path when that is full. *)
Lemma free_cases g s L cpu p bs : heap_inv g s L -> L !! p = Some bs -> 0 <= cpu < 64 -> let sc := GetSizeClass (Z.of_nat (length bs)) in
  exists o, get_active cpu sc s = Some (o, s) /\ heap_inv g s (delete p L) /\ in_flight g (delete p L) sc (p - 16) /\ 0 <= sc < 8 /\
    ((MagazineFree cpu p s = slow_free cpu p sc o s /\ forall i m, o = Some i -> magazine_pool s !! i = Some m -> count m = 32) \/
     exists i m m' t, o = Some i /\ magazine_pool s !! i = Some m /\ count m < 32 /\
       let s' := set_stats t (set_pool (<[i := mk_magazine (<[Z.to_nat (count m) := p - 16]> (blocks m)) (count m + 1) (mag_next m)]> (magazine_pool s)) (set_memory m' s)) in
       MagazineFree cpu p s = Some (tt, s') /\ heap_inv (set_bown (p - 16) (InMag i) g) s' (delete p L)).
Proof.
  intros HI Hp Hcpu. destruct (live_header _ _ _ _ _ HI Hp) as (Hne & Eu & E8 & E1 & Hsc). destruct (live_in_flight _ _ _ _ _ HI Hp) as [HI1 HF].
  intros sc. fold sc in E1, Hsc, HF. destruct (get_active_run _ _ _ _ _ HI1 Hcpu Hsc) as (o & Eo & Ho). exists o. split_and!; [done..|lia|lia|].
  unfold MagazineFree. rewrite (proj2 (Z.eqb_neq p 0)) by done. rewrite Eu. erewrite run_bind by exact E8. rewrite Z.eqb_refl. erewrite run_bind by exact E1. erewrite run_bind by exact Eo.
  destruct o as [i|].
  - destruct (Ho i eq_refl) as (Hoi & m & Hm & Hok). cbn [has_room]. erewrite run_bind by (erewrite run_bind by (by apply get_mag_run); reflexivity).
    erewrite run_bind by (by apply class_size_run). change (Z.of_nat MAGAZINE_CAPACITY) with 32. destruct (Z.ltb_spec (count m) 32) as [Hlt|Hge].
    2: { left. split; [done|]. intros i' m' [= <-] Hm'. assert (m' = m) as -> by congruence. destruct Hok. lia. }
    right. destruct (Poison_ok g s (delete p L) sc (p - 16) HI1 HF Hsc) as (m' & E3 & HI3). replace (p - 16 + 16) with p in E3 by lia.
    pose proof (inv_push g (set_memory m' s) (delete p L) i m sc (p - 16) HI3 Hm) as HI4. rewrite Hoi in HI4. specialize (HI4 eq_refl ltac:(left; eauto) Hlt HF).
    destruct (StatsAdd_ok _ _ (delete p L) free_fast_hits cpu sc HI4 Hcpu Hsc) as (t & E5 & HI5). exists i, m, m', t. split_and!; [done..| |exact HI5].
    erewrite run_bind by exact E3. erewrite run_bind by exact (push_block_run i m (p - 16) (set_memory m' s) Hok Hm Hlt). exact E5.
  - left. split; [|done]. cbn [has_room]. erewrite run_bind by reflexivity. by erewrite run_bind by (by apply class_size_run).
Qed.
Lemma MagazineFree_ok g s L cpu p bs : heap_inv g s L -> L !! p = Some bs -> 0 <= cpu < 64 ->
  (MagazineFree cpu p s = None /\ magazine_pool_head s = None) \/ exists s', MagazineFree cpu p s = Some (tt, s') /\ heap_ok s' (delete p L).
Proof.
  intros HI Hp Hcpu. destruct (free_cases _ _ _ _ _ _ HI Hp Hcpu) as (o & Eo & HI1 & HF & Hsc & [[-> _]|(i & m & m' & t & _ & _ & _ & -> & HI2)]).
  - destruct (slow_free_ok _ _ _ _ _ _ _ HI1 Hcpu Hsc Eo HF) as [?|(g' & s' & j & E' & HI' & _)]; [by left|right]. exists s'. split; [done|by exists g'].
  - right. eexists. split; [done|]. by eexists.
Qed.

(** ** [MagazineReallocate] *)
Lemma mapped_live g s L p bs n : heap_inv g s L -> L !! p = Some bs -> n <= csize (GetSizeClass (Z.of_nat (length bs))) -> mapped (back s) p n = true.
Proof.
  intros HI Hp Hn. destruct (live_block_fits _ _ _ _ _ HI Hp) as (Hsc & Hb & Hfit). destruct (class_facts _ Hsc) as (_ & _ & _ & Hch & _).
  apply (block_mapped _ _ _ _ _ p n HI Hb); lia.
Qed.
Lemma pokes_prefix l a m n : (length l <= n)%nat -> exists r, peeks n (pokes l a m) a = l ++ r.
Proof. intros H. replace n with (length l + (n - length l))%nat by lia. rewrite peeks_app, peeks_pokes. by eexists. Qed.
(** The panic of a free or a reallocation: every magazine of the pool is in use. *)
Definition pool_exhausted s : Prop := magazine_pool_head s = None.
Lemma MagazineReallocate_ok g s L cpu tsc p bs n : heap_inv g s L -> L !! p = Some bs -> 0 <= cpu < 64 -> 0 < n <= 1024 ->
  (MagazineReallocate cpu tsc p n s = None /\ exists r s1, MagazineAlloc cpu tsc n s = Some (r, s1) /\ pool_exhausted s1) \/
  exists r s', MagazineReallocate cpu tsc p n s = Some (r, s') /\
    ((r = 0 /\ heap_ok s' L) \/
     exists bs', r <> 0 /\ L !! r = None /\ (forall q cs, L !! q = Some cs -> q + Z.of_nat (length cs) <= r \/ r + n <= q) /\
       Z.of_nat (length bs') = n /\ take (length bs) bs' = take (Z.to_nat n) bs /\ heap_ok s' (<[r := bs']> (delete p L))).
Proof.
  intros HI Hp Hcpu Hn. destruct (live_header _ _ _ _ _ HI Hp) as (Hne & Eu & E8 & E1 & Hsc). set (sc := GetSizeClass _) in *.
  unfold MagazineReallocate. rewrite (proj2 (Z.eqb_neq p 0)), (proj2 (Z.eqb_neq n 0)) by lia. rewrite Eu. erewrite run_bind by exact E8.
  rewrite Z.eqb_refl. erewrite run_bind by (erewrite run_bind by exact E1; by apply class_size_run).
  destruct (MagazineAlloc_ok g s L cpu tsc n HI Hcpu Hn) as (r & s1 & E2 & [(-> & Hok & _)|(Hr & HL & (g1 & HI1) & Hap)]).
  { right. exists 0, s1. split; [by erewrite run_bind by exact E2|by left]. }
  erewrite run_bind by exact E2. rewrite (proj2 (Z.eqb_neq r 0)) by done. set (bs0 := peeks (Z.to_nat n) (memory s1) r) in *.
  assert (Hp1 : <[r := bs0]> L !! p = Some bs) by (rewrite lookup_insert_ne by congruence; done).
  assert (Hr1 : <[r := bs0]> L !! r = Some bs0) by (by rewrite lookup_insert, decide_True).
  assert (El0 : Z.of_nat (length bs0) = n) by (unfold bs0; rewrite length_peeks; lia).
  destruct (class_ok n Hn) as (Hscn & Hnle & _). destruct (live_block_fits _ _ _ _ _ HI Hp) as (_ & _ & Hfit). fold sc in Hfit.
  destruct (class_facts sc Hsc) as (_ & Hcs & _ & Hch & _). set (k := if n <? csize sc then n else csize sc).
  assert (Hk : k = Z.min n (csize sc)) by (unfold k; case_if E0; zbool; lia). clearbody k.
  set (l := peeks (Z.to_nat k) (memory s1) p). set (m2 := pokes l r (memory s1)).
  assert (E3 : FastMemcpy r p k s1 = Some (tt, set_memory m2 s1)).
  { unfold FastMemcpy. rewrite (proj2 (Z.leb_gt k 0)) by lia. rewrite (mapped_live _ _ _ _ _ k HI1 Hp1) by (fold sc; lia).
    rewrite (mapped_live _ _ _ _ _ k HI1 Hr1) by (rewrite El0; lia). done. }
  erewrite run_bind by exact E3. assert (Ell : length l = Z.to_nat k) by apply length_peeks.
  set (bs' := peeks (length bs0) m2 r). assert (HF : frame r (Z.of_nat (length bs0)) (memory s1) m2) by (apply pokes_frame; lia).
  pose proof (inv_client g1 s1 _ r bs0 bs' m2 HI1 Hr1 HF eq_refl) as HI2. rewrite insert_insert, decide_True in HI2 by done.
  assert (Hp2 : <[r := bs']> L !! p = Some bs) by (rewrite lookup_insert_ne by congruence; done).
  assert (Hpre : take (length bs) bs' = take (Z.to_nat n) bs).
  { destruct (pokes_prefix l r (memory s1) (length bs0)) as (rest & Er); [lia|]. fold m2 in Er. unfold bs'. rewrite Er.
    assert (Ebs : bs = peeks (length bs) (memory s1) p) by (symmetry; apply (hi_live _ _ _ HI1 _ _ Hp1)).
    destruct (decide (length bs <= Z.to_nat k)%nat) as [Hle|Hgt].
    - rewrite take_app_le by lia. unfold l. rewrite take_peeks by lia. rewrite <- Ebs. rewrite take_ge by lia. done.
    - assert (Ekn : Z.to_nat k = length bs0) by lia. assert (Erest : rest = []).
      { apply (f_equal length) in Er. rewrite length_peeks, length_app in Er. apply nil_length_inv. lia. }
      rewrite Erest, app_nil_r, take_ge by lia. unfold l. rewrite Ebs, take_peeks by lia. f_equal. lia. }
  destruct (MagazineFree_ok g1 (set_memory m2 s1) _ cpu p bs HI2 Hp2 Hcpu) as [[E4 Hx]|(s3 & E4 & Hok)].
  - left. split; [unfold mbind, STM_bind; by rewrite E4|]. by exists r, s1.
  - right. exists r, s3. split; [by erewrite run_bind by exact E4|]. right. exists bs'. split_and!; [done..|unfold bs'; rewrite length_peeks; lia|done|].
    rewrite delete_insert_ne in Hok by congruence. done.
Qed.
Lemma MagazineReallocate_big cpu tsc p n s : 1024 < n -> MagazineReallocate cpu tsc p n s = None.
Proof.
  intros Hn. unfold MagazineReallocate. case_if E0; [by apply MagazineAlloc_big|]. rewrite (proj2 (Z.eqb_neq n 0)) by lia.
  unfold mbind, STM_bind. destruct (load 8 _ s) as [[magic s1]|]; [|done]. set (m := if magic =? _ then _ else _).
  destruct (m s1) as [[old s2]|]; [|done]. by rewrite MagazineAlloc_big.
Qed.

(** ** [MagazineFlushCaches] *)
Lemma flush_one_ok g s L cpu sc : heap_inv g s L -> 0 <= cpu < 64 -> 0 <= sc < 8 -> exists g' s', flush_one cpu sc s = Some (tt, s') /\ heap_inv g' s' L.
Proof.
  intros HI Hcpu Hsc. destruct (get_active_run _ _ _ _ _ HI Hcpu Hsc) as (o & Eo & Ho). unfold flush_one. erewrite run_bind by exact Eo.
  destruct o as [i|]; [|by exists g, s]. destruct (Ho i eq_refl) as (Hoi & m & Hm & _). pose proof (inv_deactivate _ _ _ _ _ _ HI Hcpu Hsc Eo) as HI0.
  set (s0 := cache_set cpu sc None s) in HI0. cbn [owners] in HI0.
  destruct (DepotReturn_ok _ s0 L i m sc HI0) as (pl & g1 & s1 & E1 & HI1 & K & _); [cbn; by rewrite fn_set_eq|done|done|].
  assert (E2 : DepotReturn i sc s = Some (tt, set_caches (per_cpu_caches s) s1)).
  { replace s with (set_caches (per_cpu_caches s) s0) at 1 by (by destruct s). by rewrite DepotReturn_blind, E1. }
  exists g1, s1. split; [|done]. erewrite run_bind by exact E2. destruct (hi_cache _ _ _ HI) as [H1 H2].
  destruct (rows_get _ cpu sc H1 H2 Hcpu Hsc) as (row & x & Er & Ex & Elen). unfold set_active. cbn [per_cpu_caches set_caches].
  rewrite Er, option_bind_Some, arr_set_some by lia. rewrite option_bind_Some, arr_set_some by lia. rewrite option_bind_Some. do 2 f_equal.
  assert (Ec : per_cpu_caches s1 = per_cpu_caches s0) by apply K. unfold s0, cache_set in Ec. cbn in Ec. unfold arr_get in Er. case_if_in Er E; [|done].
  rewrite Er in Ec. cbn in Ec. rewrite <- Ec. by destruct s1.
Qed.
Lemma flush_classes_ok n g s L cpu sc : heap_inv g s L -> 0 <= cpu < 64 -> 0 <= sc -> sc + Z.of_nat n <= 8 ->
  exists g' s', flush_classes n cpu sc s = Some (tt, s') /\ heap_inv g' s' L.
Proof.
  revert g s sc. induction n as [|n IH]; intros g s sc HI Hcpu H0 Hn; cbn [flush_classes]; [by exists g, s|].
  destruct (flush_one_ok g s L cpu sc HI Hcpu) as (g1 & s1 & E1 & HI1); [lia|]. erewrite run_bind by exact E1. apply (IH g1); [done|done|lia|lia].
Qed.
Lemma flush_cpus_ok n g s L cpu : heap_inv g s L -> 0 <= cpu -> cpu + Z.of_nat n <= 64 -> exists g' s', flush_cpus n cpu s = Some (tt, s') /\ heap_inv g' s' L.
Proof.
  revert g s cpu. induction n as [|n IH]; intros g s cpu HI H0 Hn; cbn [flush_cpus]; [by exists g, s|].
  destruct (flush_classes_ok NUM_SIZE_CLASSES g s L cpu 0 HI) as (g1 & s1 & E1 & HI1); [lia|lia|by vm_compute|]. erewrite run_bind by exact E1.
  apply (IH g1); [done|lia|lia].
Qed.
Lemma MagazineFlushCaches_ok s L : heap_ok s L -> exists s', MagazineFlushCaches s = Some (tt, s') /\ heap_ok s' L.
Proof.
  intros [g HI]. destruct (flush_cpus_ok MAX_CPU_CORES g s L 0 HI) as (g' & s' & E & HI'); [lia|by vm_compute|]. exists s'. split; [done|by exists g'].
Qed.

(** ** Start-up *)
Record boot_ok s : Prop := mk_boot_ok {
  bo_pool : length (magazine_pool s) = MAGAZINE_POOL_SIZE /\ Forall mag_ok (magazine_pool s);
  bo_stats : forall c, rows_ok (heap_stats_per_cpu s c);
  bo_back : vm_ok (back s) }.
Lemma link_pool_at l i : link_pool l !! i = (fun m => set_next (if (S i <? length l)%nat then Some (S i) else None) m) <$> l !! i.
Proof. unfold link_pool. by rewrite list_lookup_imap. Qed.
Lemma linked_seq nxt (n : nat) k : (forall i, (k <= i < k + n)%nat -> nxt i = Some (if (S i <? k + n)%nat then Some (S i) else None)) ->
  linked nxt (if decide (n = 0%nat) then None else Some k) (seq k n).
Proof.
  revert k. induction n as [|n IH]; intros k Hn; cbn [linked seq]; [done|]. rewrite decide_False by lia. split; [done|]. eexists. split; [apply Hn; lia|].
  specialize (IH (S k)). replace (S k + n)%nat with (k + S n)%nat in IH by lia. 
  destruct (decide (n = 0)%nat) as [->|Hnz].
  - rewrite (proj2 (Nat.ltb_ge _ _)) by lia. done.
  - rewrite (proj2 (Nat.ltb_lt _ _)) by lia. apply IH. intros i Hi. apply Hn. lia.
Qed.
Lemma MagazineInit_ok s : boot_ok s -> exists s', MagazineInit true s = Some (tt, s') /\ heap_ok s' ∅ /\ magazine_pool_head s' = Some 0%nat.
Proof.
  intros [[Hlen Hmag] Hst Hb]. eexists. split; [reflexivity|]. split; [|done].
  exists (mk_ghost (fun _ => InPool) (fun _ => Taken) (fun p => match p with InPool => seq 0 MAGAZINE_POOL_SIZE | _ => [] end) (fun _ => []) (fun _ => 0) (fun _ => [])).
  constructor; cbn [back depot per_cpu_caches magazine_pool heap_stats_per_cpu slab_at memory set_pool set_pool_head set_caches set_depot].
  - done.
  - done.
  - split; [done|]. by apply Forall_replicate.
  - done.
  - apply Forall_lookup. intros i m. rewrite link_pool_at. destruct (magazine_pool s !! i) as [m0|] eqn:E; [|done]. cbn. intros [= <-].
    destruct (proj1 (Forall_lookup _ _) Hmag _ _ E). by constructor.
  - intros p h Hh. assert (E : p = InPool \/ h = None).
    { destruct p as [|sc|sc|sc|c sc|sc]; unfold head in Hh; cbn [depot set_pool set_pool_head set_caches set_depot] in Hh; [by left|right..|done|done];
        (destruct (arr_get _ sc) as [d|] eqn:Ed; [|done]; unfold arr_get in Ed; case_if_in Ed E0; [|done]; apply lookup_replicate in Ed as [-> _]; by injection Hh). }
    destruct E as [->| ->]; [|destruct p; cbn in Hh; try done; (split_and!; [done|constructor|intros i Hi; by apply elem_of_nil in Hi])].
    injection Hh as <-. unfold mlist. split; [|split; [apply NoDup_ListNoDup, seq_NoDup|done]]. apply (linked_seq _ MAGAZINE_POOL_SIZE 0). intros i Hi. unfold mnext. cbn. rewrite link_pool_at, Hlen.
    destruct (lookup_lt_is_Some_2 (magazine_pool s) i) as [m Hm]; [lia|]. rewrite Hm. done.
  - intros sc d Hd. unfold arr_get in Hd. case_if_in Hd E0; [|done]. apply lookup_replicate in Hd as [-> _]. split; [done|constructor].
  - intros cpu sc c i H1 H2. unfold arr_get in H1, H2. case_if_in H1 E0; [|done]. case_if_in H2 E1; [|done]. apply lookup_replicate in H1 as [-> _].
    by apply lookup_replicate in H2 as [? _].
  - done.
  - intros i m sc _ [?|?]; done.
  - intros sc a Ha. by apply elem_of_nil in Ha.
  - intros sc a Ha. by apply elem_of_nil in Ha.
  - intros sc sc' a a' Ha. by apply elem_of_nil in Ha.
  - intros p bs Hp. by rewrite lookup_empty in Hp.
Qed.
End free.
