(* ===== verification/HeapRun.v ===== *)
(** The kernel heap against its specification: a finite map from pointers to contents.  A client
    allocates, frees, reallocates and writes inside its blocks on any CPU; every step does on the
    map what it should, or stops with the panic of an exhausted pool of magazines.  At the end a
    concrete back end. *)
From Stdlib Require Import ZArith Lia.
From stdpp Require Import base tactics list gmap sets numbers option relations.
From S2P Require Import Prelude ByteMem Magazine MagInv MagOps MagSteps MagRefill MagFree.

(** ** Calls of a client *)
Inductive heap_call :=
| HAlloc (cpu tsc n : Z)
| HFree (cpu p : Z)
| HRealloc (cpu tsc p n : Z)
| HStore (p : Z) (off : nat) (b : bytes)
| HFlush
| HLevel (level : Z)
| HPerf (mode : Z).
(** A client's call: small sizes, only blocks it holds, writes inside the size it asked for. *)
Definition legal (c : heap_call) (L : gmap Z bytes) : bool :=
  match c with
  | HAlloc cpu _ n => (0 <=? cpu) && (cpu <? 64) && (0 <=? n) && (n <=? 1024)
  | HFree cpu p => (0 <=? cpu) && (cpu <? 64) && bool_decide (is_Some (L !! p))
  | HRealloc cpu _ p n => (0 <=? cpu) && (cpu <? 64) && (0 <=? n) && (n <=? 1024) && bool_decide (is_Some (L !! p))
  | HStore p off b => match L !! p with Some bs => (off + length b <=? length bs)%nat | None => false end
  | HFlush | HLevel _ | HPerf _ => true
  end.
Definition fits_apart (r n : Z) (L : gmap Z bytes) : Prop := forall q bs, L !! q = Some bs -> q + Z.of_nat (length bs) <= r \/ r + n <= q.
(** The specification. *)
Inductive heap_spec : heap_call -> gmap Z bytes -> Z -> gmap Z bytes -> Prop :=
| sp_null cpu tsc n L : heap_spec (HAlloc cpu tsc n) L 0 L
| sp_alloc cpu tsc n L r bs : 0 < n -> r <> 0 -> L !! r = None -> fits_apart r n L -> Z.of_nat (length bs) = n ->
    heap_spec (HAlloc cpu tsc n) L r (<[r := bs]> L)
| sp_free cpu p L : heap_spec (HFree cpu p) L 0 (delete p L)
| sp_realloc_free cpu tsc p L : heap_spec (HRealloc cpu tsc p 0) L 0 (delete p L)
| sp_realloc_null cpu tsc p n L : n <> 0 -> heap_spec (HRealloc cpu tsc p n) L 0 L
| sp_realloc cpu tsc p n L old r bs : 0 < n -> L !! p = Some old -> r <> 0 -> L !! r = None -> fits_apart r n L -> Z.of_nat (length bs) = n ->
    take (length old) bs = take (Z.to_nat n) old -> heap_spec (HRealloc cpu tsc p n) L r (<[r := bs]> (delete p L))
| sp_store p off b old L : L !! p = Some old -> heap_spec (HStore p off b) L 0 (<[p := splice off b old]> L)
| sp_flush L : heap_spec HFlush L 0 L
| sp_level level L : heap_spec (HLevel level) L 0 L
| sp_perf mode L : heap_spec (HPerf mode) L 0 L.

Section run.
Context {V : Type} `{!Backend V} `{!BackendLaws V}.
Implicit Types (s : heap V) (g : ghost) (L : gmap Z bytes).
Notation world := (heap V * gmap Z bytes)%type.

Definition contents s (n p : Z) : bytes := peeks (Z.to_nat n) (memory s) p.
Definition heap_exec (c : heap_call) (w : world) : option (Z * world) :=
  let '(s, L) := w in
  match c with
  | HAlloc cpu tsc n => '(r, s') ← MagazineAlloc cpu tsc n s; Some (r, (s', if r =? 0 then L else <[r := contents s' n r]> L))
  | HFree cpu p => '(_, s') ← MagazineFree cpu p s; Some (0, (s', delete p L))
  | HRealloc cpu tsc p n =>
      '(r, s') ← MagazineReallocate cpu tsc p n s;
      Some (r, (s', if r =? 0 then (if n =? 0 then delete p L else L) else <[r := contents s' n r]> (delete p L)))
  | HStore p off b => bs ← L !! p; Some (0, (set_memory (pokes b (p + Z.of_nat off) (memory s)) s, <[p := splice off b bs]> L))
  | HFlush => '(_, s') ← MagazineFlushCaches s; Some (0, (s', L))
  | HLevel level => '(_, s') ← MagazineSetValidationLevel level s; Some (0, (s', L))
  | HPerf mode => '(_, s') ← MagazineSetPerfMode mode s; Some (0, (s', L))
  end.
(** The one way a legal call stops: a magazine is needed and the pool has none. *)
Definition exhausted (c : heap_call) s : Prop :=
  match c with
  | HFree _ _ => pool_exhausted s
  | HRealloc cpu tsc p n => if n =? 0 then pool_exhausted s else exists r s1, MagazineAlloc cpu tsc n s = Some (r, s1) /\ pool_exhausted s1
  | _ => False
  end.

Lemma heap_ok_contents s L p bs : heap_ok s L -> L !! p = Some bs -> contents s (Z.of_nat (length bs)) p = bs.
Proof. intros [g HI] Hp. unfold contents. rewrite Nat2Z.id. apply (hi_live _ _ _ HI _ _ Hp). Qed.
Lemma heap_ok_apart s L p q bs cs : heap_ok s L -> L !! p = Some bs -> L !! q = Some cs -> p <> q ->
  p + Z.of_nat (length bs) <= q \/ q + Z.of_nat (length cs) <= p.
Proof.
  intros [g HI] Hp Hq Hne. destruct (live_block_fits _ _ _ _ _ HI Hp) as (_ & Hb & Hf). destruct (live_block_fits _ _ _ _ _ HI Hq) as (_ & Hb' & Hf').
  destruct (blocks_apart _ _ _ _ _ _ _ HI Hb Hb') as [[E _]|[D|D]]; cbn in *; lia.
Qed.
Lemma heap_ok_fresh s L p bs n : heap_ok s (<[p := bs]> L) -> Z.of_nat (length bs) = n -> contents s n p = bs.
Proof. intros H <-. apply (heap_ok_contents _ _ _ _ H). by rewrite lookup_insert, decide_True. Qed.
Lemma peeks_splice off b m p n : (off + length b <= n)%nat -> peeks n (pokes b (p + Z.of_nat off) m) p = splice off b (peeks n m p).
Proof.
  intros H. unfold splice. replace n with (off + (length b + (n - off - length b)))%nat at 1 by lia. rewrite !peeks_app, peeks_pokes.
  rewrite take_peeks by lia. f_equal; [|f_equal].
  - eapply peeks_frame; [by apply (pokes_frame _ _ _ (Z.of_nat (length b)))|]. lia.
  - replace n with ((off + length b) + (n - off - length b))%nat at 2 by lia. rewrite peeks_app, drop_app_length' by (by rewrite length_peeks).
    replace (p + Z.of_nat (off + length b)) with (p + Z.of_nat off + Z.of_nat (length b)) by lia.
    eapply peeks_frame; [by apply (pokes_frame _ _ _ (Z.of_nat (length b)))|]. lia.
Qed.
Lemma heap_store_ok s L p off b bs : heap_ok s L -> L !! p = Some bs -> (off + length b <= length bs)%nat ->
  heap_ok (set_memory (pokes b (p + Z.of_nat off) (memory s)) s) (<[p := splice off b bs]> L).
Proof.
  intros [g HI] Hp Hl. exists g. eapply inv_client; [done..| |].
  - eapply frame_sub; [by apply (pokes_frame _ _ _ (Z.of_nat (length b)))|lia|lia].
  - rewrite peeks_splice by done. f_equal. apply (hi_live _ _ _ HI _ _ Hp).
Qed.
Lemma knobs_ok s s' L : heap_ok s L -> s' = set_level (g_validation_level s') s \/ s' = set_enabled (g_stats_enabled s') s -> heap_ok s' L.
Proof.
  intros [g HI] E. exists g. apply (inv_knobs g s s' L HI); destruct E as [->| ->]; try done; apply HI.
Qed.

(** Every legal call meets the specification, or finds the pool exhausted. *)
Lemma heap_step c s L : heap_ok s L -> legal c L = true ->
  (exists r s' L', heap_exec c (s, L) = Some (r, (s', L')) /\ heap_ok s' L' /\ heap_spec c L r L') \/ (heap_exec c (s, L) = None /\ exhausted c s).
Proof.
  intros Hok Hl. assert (Hok' := Hok). destruct Hok' as [g HI]. destruct c as [cpu tsc n|cpu p|cpu tsc p n|p off b| |level|mode]; cbn [legal heap_exec exhausted] in *.
  - left. zbool. destruct (decide (n = 0)) as [->|Hn0].
    { rewrite MagazineAlloc_zero. exists 0, s, L. split_and!; [done..|constructor]. }
    destruct (MagazineAlloc_ok g s L cpu tsc n HI) as (r & s' & E & [(-> & Hok1 & _)|(Hr & HL & Hok1 & Hap)]); [lia|lia|..]; rewrite E, option_bind_Some.
    + exists 0, s', L. split_and!; [done..|constructor].
    + rewrite (proj2 (Z.eqb_neq r 0)) by done. eexists r, s', _. split_and!; [done..|]. constructor; [lia|done..|]. unfold contents. rewrite length_peeks. lia.
  - apply andb_true_iff in Hl as [Hl [bs Hp]%bool_decide_eq_true]. zbool.
    destruct (MagazineFree_ok g s L cpu p bs HI Hp) as [[E Hx]|(s' & E & Hok1)]; [lia|right|left]; rewrite E; [done|].
    exists 0, s', (delete p L). split_and!; [done..|constructor].
  - apply andb_true_iff in Hl as [Hl [bs Hp]%bool_decide_eq_true]. zbool. destruct (Z.eqb_spec n 0) as [->|Hn0].
    + destruct (live_header _ _ _ _ _ HI Hp) as (Hp0 & _). unfold MagazineReallocate. rewrite (proj2 (Z.eqb_neq p 0)) by done. rewrite Z.eqb_refl.
      destruct (MagazineFree_ok g s L cpu p bs HI Hp) as [[E Hx]|(s' & E & Hok1)]; [lia|right|left].
      * by unfold mbind at 2, STM_bind; rewrite E.
      * rewrite (run_bind _ _ _ _ _ E). exists 0, s', (delete p L). split_and!; [done..|constructor].
    + destruct (MagazineReallocate_ok g s L cpu tsc p bs n HI Hp) as [[E Hx]|(r & s' & E & [[-> Hok1]|(bs' & Hr & HL & Hap & Hlen & Hpre & Hok1)])]; [lia|lia|right|left..]; rewrite E; [done|..]; rewrite option_bind_Some.
      * exists 0, s', L. split_and!; [done..|by constructor].
      * rewrite (proj2 (Z.eqb_neq r 0)) by done. rewrite (heap_ok_fresh _ _ _ _ n Hok1) by done. exists r, s', (<[r := bs']> (delete p L)).
        split_and!; [done..|]. econstructor; [lia|done..].
  - left. destruct (L !! p) as [bs|] eqn:Hp; [|done]. apply Nat.leb_le in Hl. rewrite option_bind_Some. eexists 0, _, _. split; [done|].
    split; [by apply heap_store_ok|by constructor].
  - left. destruct (MagazineFlushCaches_ok s L Hok) as (s' & -> & Hok1). exists 0, s', L. split_and!; [done..|constructor].
  - left. eexists 0, _, L. split_and!; [reflexivity| |constructor]. apply (knobs_ok s); [done|]. by left.
  - left. eexists 0, _, L. split_and!; [reflexivity| |constructor]. apply (knobs_ok s); [done|]. by right.
Qed.

(** ** Runs *)
Inductive heap_client_step : world -> world -> Prop :=
| client_call c s L r w : legal c L = true -> heap_exec c (s, L) = Some (r, w) -> heap_client_step (s, L) w.
Lemma heap_steps_ok w w' : rtc heap_client_step w w' -> heap_ok w.1 w.2 -> heap_ok w'.1 w'.2.
Proof.
  induction 1 as [w|w w1 w2 Hs _ IH]; [done|]. intros Hok. apply IH. destruct Hs as [c s L r w1 Hl E].
  destruct (heap_step c s L Hok Hl) as [(r' & s' & L' & E' & Hok' & _)|[E' _]]; [|congruence]. rewrite E' in E. by injection E as _ <-.
Qed.
End run.

(** * A back end for the kernel heap that hands out addresses in order, up to a limit: it meets the laws, so theorems about the heap over any back end can be run. *)
Record bump := mk_bump { bump_next : Z; bump_live : list (Z * Z); bump_limit : Z }.
Definition bump_alloc (n : Z) (v : bump) : option (Z * bump) :=
  let a := bump_next v in
  if a + page_up n <=? bump_limit v then Some (a, mk_bump (a + page_up n) ((a, page_up n) :: bump_live v) (bump_limit v)) else Some (0, v).
Definition bump_free (a n : Z) (v : bump) : option bump :=
  Some (mk_bump (bump_next v) (filter (fun r => r <> (a, page_up n)) (bump_live v)) (bump_limit v)).
#[export] Instance bump_backend : Backend bump := {|
  vm_live := bump_live;
  VMemAlloc := bump_alloc;
  VMemFree := bump_free;
  rust_kmalloc n v := Some (0, v);
  rust_kfree p v := Some v
|}.
Record bump_inv (v : bump) : Prop := mk_bump_inv {
  bi_next : 0 < bump_next v /\ bump_next v mod 4096 = 0 /\ bump_limit v <= 2 ^ 47;
  bi_nodup : NoDup (bump_live v);
  bi_range : forall r, r ∈ bump_live v -> 0 < r.1 /\ 0 < r.2 /\ r.1 + r.2 <= bump_next v /\ r.1 + r.2 <= 2 ^ 47 /\ r.1 mod 4096 = 0;
  bi_apart : forall r r', r ∈ bump_live v -> r' ∈ bump_live v -> r <> r' -> apart r r' }.
Lemma filter_keep {A} (P : A -> Prop) `{!forall x, Decision (P x)} (l : list A) : (forall x, x ∈ l -> P x) -> filter P l = l.
Proof.
  induction l as [|x l IH]; intros Hall; [done|]. rewrite filter_cons_True by (apply Hall; set_solver). rewrite IH; [done|]. intros y Hy. apply Hall. set_solver.
Qed.
#[local] Obligation Tactic := idtac.
#[export, program] Instance bump_laws : BackendLaws bump := {| vm_ok := bump_inv |}.
Next Obligation. intros v r r' HB. apply (bi_apart v HB). Qed.
Next Obligation. intros v r HB Hr. destruct (bi_range v HB r Hr) as (? & ? & _ & ? & ?). done. Qed.
Next Obligation.
  intros v n [(H1 & H2 & H3) H4 H5 H6] Hn. cbn. unfold bump_alloc. destruct (Z.leb_spec (bump_next v + page_up n) (bump_limit v)) as [Hl|_].
  2: { exists 0, v. split_and!; [done|by constructor|by left]. }
  pose proof (page_up_ge n) as Hp. assert (Hap : forall r, r ∈ bump_live v -> apart (bump_next v, page_up n) r).
  { intros r Hr. destruct (H5 r Hr) as (? & ? & ? & _). right. cbn. lia. }
  eexists _, _. split; [done|]. split; [|by right]. constructor; cbn.
  - split_and!; [lia| |done]. unfold page_up. dlia.
  - apply list.NoDup_cons. split; [|done]. intros Hr. destruct (H5 _ Hr) as (_ & ? & ? & _). cbn in *. lia.
  - intros r [->|Hr]%elem_of_cons; cbn; [split_and!; done || lia|]. destruct (H5 r Hr) as (? & ? & ? & ? & ?). split_and!; done || lia.
  - intros r r' [->|Hr]%elem_of_cons [->|Hr']%elem_of_cons Hne; [done|by apply Hap| |by apply H6].
    destruct (Hap r Hr) as [?|?]; [right|left]; cbn in *; lia.
Qed.
Next Obligation.
  intros v a n r1 r2 [H1 H4 H5 H6] El Hn. cbn in *. unfold bump_free. eexists. split; [done|]. rewrite El in *. apply list.NoDup_app in H4 as (N1 & Nd & N2).
  apply list.NoDup_cons in N2 as [Na N2].
  assert (E : filter (fun r => r <> (a, page_up n)) (r1 ++ (a, page_up n) :: r2) = r1 ++ r2).
  { rewrite list.filter_app, filter_cons_False by (intros H; by apply H). rewrite !filter_keep; [done|..]; intros r Hr ->; [done|]. apply (Nd _ Hr). set_solver. }
  rewrite E. split; [|done]. constructor; cbn; [done|..].
  - apply list.NoDup_app. split_and!; [done|set_solver|done].
  - intros r Hr. apply H5. set_solver.
  - intros r r' Hr Hr'. apply H6; set_solver.
Qed.

(** ** The heap at boot *)
Definition boot_bump (limit : Z) : bump := mk_bump 4096 [] limit.
Definition boot_heap (limit : Z) : heap bump :=
  mk_heap bump [] [] (replicate MAGAZINE_POOL_SIZE (mk_magazine (replicate 32 0) 0 None)) None
    (fun _ => replicate MAX_CPU_CORES (replicate NUM_SIZE_CLASSES 0)) 0 true ∅ ∅ (boot_bump limit).
Lemma boot_heap_ok limit : 0 <= limit <= 2 ^ 47 -> boot_ok (boot_heap limit).
Proof.
  intros Hl. constructor.
  - split; [cbn [magazine_pool boot_heap]; by rewrite length_replicate|]. apply Forall_replicate. by constructor.
  - intros c. split; [done|]. by apply Forall_replicate.
  - constructor; cbn; [split_and!; [lia|done|lia]|constructor|by intros r Hr%elem_of_nil|by intros r r' Hr%elem_of_nil].
Qed.
