(* ===== verification/HeapLeak.v ===== *)
(** The kernel heap loses magazines: a refill drops the empty magazine it replaces.  A client that
    never holds more than 33 blocks more than before uses up the pool of 1024 magazines, and the
    next free panics. *)
From Stdlib Require Import ZArith Lia.
From stdpp Require Import base tactics list gmap sets numbers option.
From S2P Require Import Prelude ByteMem Magazine MagInv MagOps MagSteps MagRefill MagFree HeapRun.

#[local] Arguments GetSizeClass : simpl never.
Section leak.
Context {V : Type} `{!Backend V} `{!BackendLaws V} (cpu tsc n : Z) (Hcpu : 0 <= cpu < 64) (Hn : 0 < n <= 1024).
Implicit Types (s : heap V) (g : ghost) (L : gmap Z bytes).
Notation sc := (GetSizeClass n).

(** ** The workload *)
Fixpoint alloc_many (k : nat) s : option (list Z * heap V) :=
  match k with
  | O => Some ([], s)
  | S k' => '(p, s1) ← MagazineAlloc cpu tsc n s; '(ps, s2) ← alloc_many k' s1; Some (p :: ps, s2)
  end.
Fixpoint free_many (ps : list Z) s : option (heap V) :=
  match ps with
  | [] => Some s
  | p :: ps' => '(_, s1) ← MagazineFree cpu p s; free_many ps' s1
  end.
(** 33 allocations, then the 33 frees. *)
Definition cycle s : option (heap V) := '(ps, s1) ← alloc_many 33 s; free_many ps s1.
Fixpoint cycles (k : nat) s : option (heap V) := match k with O => Some s | S k' => s1 ← cycle s; cycles k' s1 end.
Lemma alloc_many_add k1 k2 s ps1 s1 ps2 s2 : alloc_many k1 s = Some (ps1, s1) -> alloc_many k2 s1 = Some (ps2, s2) ->
  alloc_many (k1 + k2) s = Some (ps1 ++ ps2, s2).
Proof.
  revert s ps1. induction k1 as [|k1 IH]; intros s ps1; cbn [alloc_many Nat.add]; [by intros [= <- <-]|].
  destruct (MagazineAlloc cpu tsc n s) as [[p s']|]; [|done]. rewrite !option_bind_Some. destruct (alloc_many k1 s') as [[ps s'']|] eqn:E; [|done].
  rewrite option_bind_Some. intros [= <- <-] E2. by rewrite (IH _ _ E E2).
Qed.
Lemma free_many_app ps1 ps2 s : free_many (ps1 ++ ps2) s = (s1 ← free_many ps1 s; free_many ps2 s1).
Proof.
  revert s. induction ps1 as [|p ps1 IH]; intros s; cbn [free_many app]; [done|]. destruct (MagazineFree cpu p s) as [[u s1]|]; [|done].
  rewrite !option_bind_Some. apply IH.
Qed.

(** ** What the workload sees of a state: [a] blocks on the active magazine, [k] magazines in the
    pool and, when [full], a full magazine in the depot. *)
Record shape g s L (a : Z) (k : nat) (full : bool) : Prop := mk_shape {
  sh_inv : heap_inv g s L;
  sh_active : exists i m, get_active cpu sc s = Some (Some i, s) /\ magazine_pool s !! i = Some m /\ count m = a;
  sh_pool : length (glist g InPool) = k;
  sh_full : full = true -> exists j mj, head s (InFull sc) = Some (Some j) /\ magazine_pool s !! j = Some mj /\ count mj = 32 }.
Definition owned L (ps : list Z) : Prop := NoDup ps /\ forall p, p ∈ ps -> exists bs, L !! p = Some bs /\ Z.of_nat (length bs) = n.
Lemma owned_perm L ps qs : ps ≡ₚ qs -> owned L ps -> owned L qs.
Proof. intros E [H1 H2]. split; [by rewrite <- E|]. intros p Hp. apply H2. by rewrite E. Qed.
Lemma owned_add L ps r bs : owned L ps -> L !! r = None -> Z.of_nat (length bs) = n -> owned (<[r := bs]> L) (r :: ps).
Proof.
  intros [H1 H2] Hr Hb. split.
  - apply list.NoDup_cons. split; [|done]. intros Hin. destruct (H2 _ Hin) as (? & ? & _). congruence.
  - intros p [->|Hp]%elem_of_cons; [exists bs; by rewrite lookup_insert, decide_True|]. destruct (H2 _ Hp) as (cs & Hc & ?). exists cs.
    rewrite lookup_insert_ne by congruence. done.
Qed.
Lemma owned_del L p ps : owned L (p :: ps) -> owned (delete p L) ps.
Proof.
  intros [[Hp H1]%list.NoDup_cons H2]. split; [done|]. intros q Hq. destruct (H2 q) as (bs & Hb & ?); [set_solver|]. exists bs.
  rewrite lookup_delete_ne by set_solver. done.
Qed.
Lemma class_range : 0 <= sc < 8.
Proof. by apply class_ok. Qed.

(** ** One allocation *)
Lemma alloc_fast g s L a k f ps : shape g s L a k f -> 0 < a -> owned L ps ->
  exists p g' s' L', MagazineAlloc cpu tsc n s = Some (p, s') /\ shape g' s' L' (a - 1) k f /\ owned L' (p :: ps).
Proof.
  intros [HI (i & m & Ea & Hm & <-) Hk Hf] Hpos HO. pose proof class_range as Hsc.
  destruct (get_active_run _ _ _ _ _ HI Hcpu Hsc) as (o & Eo & Hown). rewrite Ea in Eo. injection Eo as <-. destruct (Hown i eq_refl) as (Hoi & _).
  destruct (StatsAdd_ok g s L alloc_fast_hits cpu sc HI Hcpu Hsc) as (t & E1 & HI1).
  destruct (take_live g (set_stats t s) L i m sc n HI1 Hm) as (p & m' & Et & Hp & Hn' & _ & HI2 & _); [by rewrite Hoi|left; eauto|done..|].
  eexists p, _, _, _. split; [|split; [constructor; [exact HI2|..]|]].
  - unfold MagazineAlloc. rewrite (proj2 (Z.eqb_neq n 0)), (proj2 (Z.ltb_ge sc 0)) by lia. erewrite run_bind by exact Ea. cbn [has_blocks].
    erewrite run_bind by (erewrite run_bind by (by apply get_mag_run); reflexivity). rewrite (proj2 (Z.ltb_lt 0 (count m)) Hpos).
    erewrite run_bind by exact E1. exact Et.
  - exists i, (set_count (count m - 1) m). split_and!; [eapply get_active_same; [|exact Ea]; done|by eapply pool_upd_same|done].
  - done.
  - intros Hf1. destruct (Hf Hf1) as (j & mj & Hh & Hmj & Hc). exists j, mj. split_and!; [done| |done]. cbn. rewrite list_lookup_insert_ne; [done|].
    intros <-. destruct (list_mag _ _ _ _ _ HI Hh) as (_ & _ & Ho). congruence.
  - apply owned_add; [done..|]. rewrite length_peeks. lia.
Qed.
(** An empty active magazine is dropped for the full one of the depot. *)
Lemma alloc_swap g s L k ps : shape g s L 0 k true -> owned L ps ->
  exists p g' s' L', MagazineAlloc cpu tsc n s = Some (p, s') /\ shape g' s' L' 31 k false /\ owned L' (p :: ps).
Proof.
  intros [HI (i & m & Ea & Hm & Hc) Hk Hf] HO. pose proof class_range as Hsc. destruct (Hf eq_refl) as (j & mj & Hh & Hmj & Hcj).
  destruct (inv_unlist _ _ _ _ _ sc _ HI (or_introl eq_refl) Hh Hmj) as (l & HI1 & El & _). set (s1 := set_pool _ _) in HI1. set (g1 := set_own _ _ _) in HI1.
  destruct (depot_at _ _ _ _ HI Hsc) as (d & Hd).
  assert (Ehead : set_head (InFull sc) (mag_next mj) s = set_depot (<[Z.to_nat sc := set_full (mag_next mj) d]> (depot s)) s) by (cbn; by rewrite Hd).
  assert (Efull : full_magazines d = Some j) by (cbn in Hh; rewrite Hd in Hh; by injection Hh).
  assert (E1 : DepotRefill cpu tsc sc s = Some (Some j, s1)).
  { unfold DepotRefill. erewrite run_bind by (by apply get_depot_run). rewrite Efull. erewrite run_bind by (by apply get_mag_run).
    erewrite run_bind by (by apply upd_depot_run). erewrite run_bind by (apply upd_mag_run; exact Hmj). unfold s1. by rewrite Ehead. }
  assert (Hoj : own g1 j = Loose sc) by (unfold g1; cbn; by rewrite fn_set_eq).
  assert (Ec1 : per_cpu_caches s1 = per_cpu_caches s) by (unfold s1; by rewrite Ehead).
  assert (Hmj1 : magazine_pool s1 !! j = Some (set_next None mj)) by (unfold s1; rewrite Ehead; cbn [magazine_pool set_pool]; rewrite (lookup_upd _ _ _ _ _ Hmj); by rewrite decide_True).
  destruct (StatsAdd_ok g1 s1 L alloc_slow_refills cpu sc HI1 Hcpu Hsc) as (t2 & E2 & HI2).
  destruct (StatsAdd_ok g1 _ L magazine_swaps cpu sc HI2 Hcpu Hsc) as (t3 & E3 & HI3). set (s3 := set_stats t3 _) in *.
  assert (Ea3 : get_active cpu sc s3 = Some (Some i, s3)) by (eapply get_active_same; [|exact Ea]; exact Ec1).
  pose proof (inv_activate _ _ _ _ _ _ j HI3 Hcpu Hsc Ea3 Hoj (lookup_lt_Some _ _ _ Hmj1)) as HI4.
  destruct (take_live _ _ _ j (set_next None mj) sc n HI4 Hmj1) as (p & m' & Et & Hp & Hn' & _ & HI5 & _);
    [cbn; by rewrite fn_set_eq|left; exists cpu, sc; cbn; by rewrite fn_set_eq|cbn; lia|done..|].
  eexists p, _, _, _. split; [|split; [constructor; [exact HI5|..]|]].
  - unfold MagazineAlloc. rewrite (proj2 (Z.eqb_neq n 0)), (proj2 (Z.ltb_ge sc 0)) by lia. erewrite run_bind by exact Ea. cbn [has_blocks].
    erewrite run_bind by (erewrite run_bind by (by apply get_mag_run); reflexivity). rewrite Hc. change (0 <? 0) with false. cbv iota.
    erewrite run_bind by exact E1. cbv beta iota. erewrite run_bind by exact E2. erewrite run_bind by exact E3. erewrite run_bind by (by eapply set_active_run). exact Et.
  - eexists j, _. split_and!; [eapply get_active_same; [|by eapply (get_active_set g1 s3 L)]; done|by eapply (pool_upd_same j (set_next None mj))|cbn; lia].
  - cbn. rewrite fn_set_ne by done. done.
  - done.
  - apply owned_add; [done..|]. rewrite length_peeks. lia.
Qed.
(** ** One free *)
Lemma free_fast g s L a k f p ps : shape g s L a k f -> a < 32 -> owned L (p :: ps) ->
  exists g' s' L', MagazineFree cpu p s = Some (tt, s') /\ shape g' s' L' (a + 1) k f /\ owned L' ps.
Proof.
  intros [HI (i & m & Ea & Hm & <-) Hk Hf] Hlt HO. destruct (proj2 HO p) as (bs & Hp & Hb); [set_solver|].
  destruct (free_cases _ _ _ _ _ _ HI Hp Hcpu) as (o & Eo & HI1 & HF & Hsc & [[_ E]|(i' & m0 & m' & t & -> & Hm0 & _ & E & HI2)]); rewrite Hb in *.
  { rewrite Ea in Eo. injection Eo as <-. specialize (E i m eq_refl Hm). lia. }
  rewrite Ea in Eo. injection Eo as <-. assert (m0 = m) as -> by congruence. eexists _, _, (delete p L). split; [exact E|]. split; [constructor; [exact HI2|..]|by apply owned_del].
  - eexists i, _. split_and!; [eapply get_active_same; [|exact Ea]; done|cbn [magazine_pool set_pool set_stats]; rewrite (lookup_upd _ _ _ _ _ Hm), decide_True by done; reflexivity|done].
  - done.
  - intros Hf1. destruct (Hf Hf1) as (j & mj & Hh & Hmj & Hc). exists j, mj. split_and!; [done| |done]. cbn. rewrite list_lookup_insert_ne; [done|]. intros <-.
    assert (mj = m) as -> by congruence. lia.
Qed.
Lemma free_slow g s L k f p ps : shape g s L 32 k f -> owned L (p :: ps) ->
  MagazineFree cpu p s = None \/
  exists g' s' L' k', k = S k' /\ MagazineFree cpu p s = Some (tt, s') /\ shape g' s' L' 1 k' true /\ owned L' ps.
Proof.
  intros [HI (i & m & Ea & Hm & Hc) Hk Hf] HO. destruct (proj2 HO p) as (bs & Hp & Hb); [set_solver|].
  destruct (free_cases _ _ _ _ _ _ HI Hp Hcpu) as (o & Eo & HI1 & HF & Hsc & [[-> _]|(i' & m0 & m' & t & -> & Hm0 & Hlt & E & HI2)]); rewrite Hb in *; rewrite Ea in Eo; injection Eo as <-.
  2: { assert (m0 = m) as -> by congruence. lia. }
  destruct (slow_free_ok _ _ _ _ _ _ _ HI1 Hcpu Hsc Ea HF) as [[? _]|(g' & s' & j & E' & HI' & Ha' & [(mj & Hmj & Hcj) Hpool Hfull])]; [by left|right].
  exists g', s', (delete p L), (length (glist g' InPool)). split_and!; [rewrite <- Hk, Hpool; done|done| |by apply owned_del]. constructor; [done|by exists j, mj|done|].
  intros _. destruct (Hfull i m eq_refl Hm) as (Hh & m' & Hm' & Hc'); [lia|]. exists i, m'. split_and!; [done..|lia].
Qed.
Lemma free_none g s L f p ps : shape g s L 32 0 f -> owned L (p :: ps) -> MagazineFree cpu p s = None.
Proof. intros Hs HO. destruct (free_slow _ _ _ _ _ _ _ Hs HO) as [?|(? & ? & ? & ? & ? & _)]; done. Qed.

(** ** A cycle takes one magazine from the pool for good *)
Lemma alloc_many_fast c g s L a k f ps : shape g s L a k f -> Z.of_nat c <= a -> owned L ps ->
  exists qs g' s' L', alloc_many c s = Some (qs, s') /\ length qs = c /\ shape g' s' L' (a - Z.of_nat c) k f /\ owned L' (qs ++ ps).
Proof.
  revert g s L a ps. induction c as [|c IH]; intros g s L a ps Hs Hc HO; cbn [alloc_many].
  - exists [], g, s, L. split_and!; [done..|by replace (a - Z.of_nat 0) with a by lia|done].
  - destruct (alloc_fast _ _ _ _ _ _ _ Hs ltac:(lia) HO) as (p & g1 & s1 & L1 & E1 & Hs1 & HO1). rewrite E1, option_bind_Some.
    destruct (IH _ _ _ _ _ Hs1 ltac:(lia) HO1) as (qs & g2 & s2 & L2 & E2 & Hl & Hs2 & HO2). rewrite E2, option_bind_Some.
    exists (p :: qs), g2, s2, L2. split_and!; [done|cbn; lia|by replace (a - Z.of_nat (S c)) with (a - 1 - Z.of_nat c) by lia|].
    eapply owned_perm; [|exact HO2]. cbn. by rewrite Permutation_middle.
Qed.
Lemma free_many_fast ps qs g s L a k f : shape g s L a k f -> a + Z.of_nat (length ps) <= 32 -> owned L (ps ++ qs) ->
  exists g' s' L', free_many ps s = Some s' /\ shape g' s' L' (a + Z.of_nat (length ps)) k f /\ owned L' qs.
Proof.
  revert g s L a. induction ps as [|p ps IH]; intros g s L a Hs Hc HO; cbn [free_many length app] in *.
  - exists g, s, L. split_and!; [done|by replace (a + Z.of_nat 0) with a by lia|done].
  - destruct (free_fast _ _ _ _ _ _ _ _ Hs ltac:(lia) HO) as (g1 & s1 & L1 & E1 & Hs1 & HO1). rewrite E1, option_bind_Some.
    destruct (IH _ _ _ _ Hs1 ltac:(lia) HO1) as (g2 & s2 & L2 & E2 & Hs2 & HO2). exists g2, s2, L2. split_and!; [done| |done].
    by replace (a + Z.of_nat (S (length ps))) with (a + 1 + Z.of_nat (length ps)) by lia.
Qed.
Lemma owned_nil L : owned L [].
Proof. split; [constructor|]. intros p Hp. by apply elem_of_nil in Hp. Qed.
Lemma cycle_shape g s L a k : shape g s L a k true -> 1 <= a <= 32 ->
  cycle s = None \/ exists g' s' L' k', k = S k' /\ cycle s = Some s' /\ shape g' s' L' a k' true.
Proof.
  intros Hs Ha. unfold cycle.
  destruct (alloc_many_fast (Z.to_nat a) _ _ _ _ _ _ [] Hs ltac:(lia) (owned_nil L)) as (q1 & g1 & s1 & L1 & E1 & Hl1 & Hs1 & HO1).
  replace (a - Z.of_nat (Z.to_nat a)) with 0 in Hs1 by lia.
  destruct (alloc_swap _ _ _ _ _ Hs1 HO1) as (p & g2 & s2 & L2 & E2 & Hs2 & HO2).
  destruct (alloc_many_fast (32 - Z.to_nat a) _ _ _ _ _ _ _ Hs2 ltac:(lia) HO2) as (q3 & g3 & s3 & L3 & E3 & Hl3 & Hs3 & HO3).
  replace (31 - Z.of_nat (32 - Z.to_nat a)) with (a - 1) in Hs3 by lia. rewrite app_nil_r in HO3.
  assert (E : alloc_many 33 s = Some (q1 ++ p :: q3, s3)).
  { replace 33%nat with (Z.to_nat a + S (32 - Z.to_nat a))%nat by lia. eapply alloc_many_add; [exact E1|]. cbn [alloc_many]. by rewrite E2, option_bind_Some, E3. }
  rewrite E, option_bind_Some. set (ps := q1 ++ p :: q3).
  assert (HO : owned L3 ps). { eapply owned_perm; [|exact HO3]. unfold ps. rewrite <- !Permutation_middle. f_equiv. by rewrite Permutation_app_comm. }
  assert (Hlen : length ps = 33%nat) by (unfold ps; rewrite length_app; cbn; lia).
  rewrite <- (take_drop (33 - Z.to_nat a) ps) in HO |- *. destruct (drop (33 - Z.to_nat a) ps) as [|x r] eqn:Er; [apply (f_equal length) in Er; rewrite length_drop in Er; cbn in Er; lia|].
  assert (Hlt : length (take (33 - Z.to_nat a) ps) = (33 - Z.to_nat a)%nat) by (rewrite length_take; lia).
  assert (Hlr : Z.of_nat (length r) = a - 1) by (apply (f_equal length) in Er; rewrite length_drop in Er; cbn in Er; lia).
  destruct (free_many_fast (take (33 - Z.to_nat a) ps) (x :: r) _ _ _ _ _ _ Hs3 ltac:(lia) HO) as (g4 & s4 & L4 & E4 & Hs4 & HO4).
  rewrite free_many_app, E4, option_bind_Some. replace (a - 1 + Z.of_nat (length (take (33 - Z.to_nat a) ps))) with 32 in Hs4 by lia. cbn [free_many].
  destruct (free_slow _ _ _ _ _ _ _ Hs4 HO4) as [->|(g5 & s5 & L5 & k' & -> & E5 & Hs5 & HO5)]; [by left|right]. rewrite E5, option_bind_Some.
  rewrite <- (app_nil_r r) in HO5. destruct (free_many_fast r [] _ _ _ _ _ _ Hs5 ltac:(lia) HO5) as (g6 & s6 & L6 & E6 & Hs6 & _).
  exists g6, s6, L6, k'. split_and!; [done|done|]. by replace (1 + Z.of_nat (length r)) with a in Hs6 by lia.
Qed.
Lemma cycles_end k g s L a : shape g s L a k true -> 1 <= a <= 32 -> cycles (S k) s = None.
Proof.
  revert g s L. induction k as [|k IH]; intros g s L Hs Ha; cbn [cycles]; destruct (cycle_shape _ _ _ _ _ Hs Ha) as [->|(g' & s' & L' & k' & Ek & E & Hs')]; try done.
  injection Ek as <-. rewrite E, option_bind_Some. by eapply IH.
Qed.
(** A cycle that ends leaves a well-formed heap. *)
Definition nonnull (ps : list Z) : list Z := filter (fun p => p <> 0) ps.
Lemma alloc_many_ok c s L qs ps s' : heap_ok s L -> owned L (nonnull qs) -> alloc_many c s = Some (ps, s') -> exists L', heap_ok s' L' /\ owned L' (nonnull (ps ++ qs)).
Proof using Hcpu Hn BackendLaws0.
  revert s L qs ps. induction c as [|c IH]; intros s L qs ps [g HI] HO; cbn [alloc_many]; [intros [= <- <-]; exists L; by split; [exists g|]|].
  destruct (MagazineAlloc_ok g s L cpu tsc n HI Hcpu Hn) as (r & s1 & E0 & Hc). rewrite E0, option_bind_Some. destruct (alloc_many c s1) as [[ps1 s2]|] eqn:E; [|done].
  rewrite option_bind_Some. intros [= <- <-].
  assert (H1 : exists L1, heap_ok s1 L1 /\ owned L1 (nonnull (r :: qs))).
  { destruct Hc as [(-> & H1 & _)|(Hnz & Hr & H1 & _)]; [exists L; split; [done|by unfold nonnull; rewrite filter_cons_False by (intros H; by apply H)]|].
    eexists. split; [exact H1|]. unfold nonnull. rewrite filter_cons_True by done. apply owned_add; [done..|]. rewrite length_peeks. lia. }
  destruct H1 as (L1 & H1 & HO1). destruct (IH _ _ _ _ H1 HO1 E) as (L2 & H2 & HO2). exists L2. split; [done|]. eapply owned_perm; [|exact HO2].
  unfold nonnull. by rewrite <- Permutation_middle.
Qed.
Lemma free_many_ok ps s L s' : heap_ok s L -> owned L (nonnull ps) -> free_many ps s = Some s' -> exists L', heap_ok s' L'.
Proof using Hcpu Hn BackendLaws0.
  revert s L. induction ps as [|p ps IH]; intros s L [g HI] HO; cbn [free_many]; [intros [= <-]; exists L; by exists g|].
  unfold nonnull in HO. destruct (decide (p = 0)) as [->|Hp].
  - rewrite filter_cons_False in HO by (intros H; by apply H). change (MagazineFree cpu 0 s) with (Some (tt, s)). rewrite option_bind_Some. apply (IH s L); [by exists g|done].
  - rewrite filter_cons_True in HO by done. destruct (proj2 HO p) as (bs & Hb & _); [set_solver|].
    destruct (MagazineFree_ok g s L cpu p bs HI Hb Hcpu) as [[-> _]|(s1 & -> & H1)]; [done|]. rewrite option_bind_Some. apply (IH s1 (delete p L)); [done|by apply owned_del].
Qed.
Lemma cycle_ok s L s' : heap_ok s L -> cycle s = Some s' -> exists L', heap_ok s' L'.
Proof using Hcpu Hn BackendLaws0.
  intros Hok. unfold cycle. destruct (alloc_many 33 s) as [[ps s1]|] eqn:E; [|done]. rewrite option_bind_Some. intros E2.
  destruct (alloc_many_ok 33 s L [] ps s1 Hok) as (L1 & H1 & HO1); [split; [constructor|intros p Hp; by apply elem_of_nil in Hp]|done|].
  rewrite app_nil_r in HO1. by eapply free_many_ok.
Qed.
Lemma pool_bound g s L : heap_inv g s L -> (length (glist g InPool) <= length (magazine_pool s))%nat.
Proof.
  intros HI. destruct (hi_lists _ _ _ HI InPool _ eq_refl) as (HL & HN & _).
  assert (Hin : forall l h, linked (mnext s) h l -> forall i, i ∈ l -> (i < length (magazine_pool s))%nat).
  { induction l as [|x l IHl]; intros h Hl i Hi; [by apply elem_of_nil in Hi|]. destruct Hl as (_ & o & Ho & Hl). apply elem_of_cons in Hi as [->|Hi]; [|by eapply IHl].
    unfold mnext in Ho. destruct (magazine_pool s !! x) eqn:E; [|done]. by eapply lookup_lt_Some. }
  rewrite <- (length_seq (length (magazine_pool s)) 0). apply submseteq_length, NoDup_submseteq; [done|]. intros i Hi. apply elem_of_seq. specialize (Hin _ _ HL i Hi). lia.
Qed.
End leak.
