(* ===== verification/HeapProps.v ===== *)
(** The properties of the kernel heap, and what they mean for the file system above it. *)
From Stdlib Require Import ZArith Lia.
From stdpp Require Import base tactics list gmap sets numbers option relations.
From S2P Require Import Prelude Vfrfs VfrfsInv VfrfsCreate VfrfsFind VfrfsRemove VfrfsOps VfrfsRun VfrfsPath VfrfsProps.
From S2P Require Import ByteMem Magazine MagInv MagOps MagSteps MagRefill MagFree HeapRun HeapLeak.

(** ** A running heap for the witnesses *)
Definition demo_boot : heap bump := boot_heap (2 ^ 30).
Definition demo_start : heap bump := default demo_boot (snd <$> MagazineInit true demo_boot).
Lemma demo_boot_ok : boot_ok demo_boot.
Proof. apply boot_heap_ok. lia. Qed.
Lemma demo_start_ok : heap_ok demo_start ∅.
Proof. destruct (MagazineInit_ok demo_boot demo_boot_ok) as (s & E & H & _). unfold demo_start. by rewrite E. Qed.

(** C4. The kernel heap refines a finite map from pointers to contents.  From the boot state
    [MagazineInit] succeeds, and in every state that clients can reach by legal calls on any CPU
    (allocating up to 1024 bytes, freeing and reallocating blocks they hold, writing inside them,
    flushing the caches, turning the knobs) every held block still has the bytes its client left in
    it, held blocks do not overlap, and every further legal call either does on the map exactly what
    the specification says (a new block is apart from all others; a reallocation keeps the common
    prefix; nothing else changes) or stops in the panic of an exhausted pool of magazines.  No call
    touches memory outside the regions of the virtual memory manager. *)
Theorem heap_refines {V} `{!Backend V} `{!BackendLaws V} (s : heap V) : boot_ok s ->
  exists s0, MagazineInit true s = Some (tt, s0) /\ forall s' L, rtc heap_client_step (s0, ∅) (s', L) ->
    (forall p bs, L !! p = Some bs -> contents s' (Z.of_nat (length bs)) p = bs) /\
    (forall p q bs cs, L !! p = Some bs -> L !! q = Some cs -> p <> q -> p + Z.of_nat (length bs) <= q \/ q + Z.of_nat (length cs) <= p) /\
    forall c, legal c L = true ->
      (exists r s2 L2, heap_exec c (s', L) = Some (r, (s2, L2)) /\ heap_spec c L r L2) \/ (heap_exec c (s', L) = None /\ exhausted c s').
Proof.
  intros HB. destruct (MagazineInit_ok s HB) as (s0 & E & H0 & _). exists s0. split; [done|]. intros s' L Hrun.
  pose proof (heap_steps_ok _ _ Hrun H0) as Hok. cbn in Hok. split_and!.
  - intros p bs. by apply heap_ok_contents.
  - intros p q bs cs. by eapply heap_ok_apart.
  - intros c Hl. destruct (heap_step c s' L Hok Hl) as [(r & s2 & L2 & H1 & _ & H2)|?]; [left; by exists r, s2, L2|by right].
Qed.
(** The first allocation after boot. *)
Lemma heap_refines_witness : exists r s2 L2, heap_exec (HAlloc 0 0 1024) (demo_start, ∅) = Some (r, (s2, L2)) /\ heap_spec (HAlloc 0 0 1024) ∅ r L2.
Proof.
  destruct (heap_refines demo_boot demo_boot_ok) as (s0 & E & H). assert (E0 : s0 = demo_start) by (unfold demo_start; by rewrite E). subst s0.
  destruct (H _ _ (rtc_refl _ _)) as (_ & _ & Hc). destruct (Hc (HAlloc 0 0 1024) eq_refl) as [?|[_ []]]; done.
Defined.

(** ** The pool of magazines *)
(** One cycle of the workload with blocks of 1024 bytes leaves a full magazine in the depot. *)
Definition demo_cycled : heap bump := default demo_start (cycle 0 0 1024 demo_start).
Lemma demo_cycled_ok : exists L, heap_ok demo_cycled L.
Proof.
  unfold demo_cycled. destruct (cycle 0 0 1024 demo_start) as [s|] eqn:E; [|exists ∅; apply demo_start_ok].
  apply (cycle_ok 0 0 1024 ltac:(lia) ltac:(lia) _ _ _ demo_start_ok E).
Qed.
(** C19. The heap loses magazines until it stops the kernel.  A refill replaces the empty active
    magazine and drops it: it is in no list any more.  So a client on one CPU that keeps allocating
    33 blocks and freeing them again, started when the depot holds a full magazine of the class and
    the active one is not empty, ends in a panic after at most 1024 cycles, with never more than 33
    of its blocks in use and whatever memory is left. *)
Theorem heap_pool_runs_out {V} `{!Backend V} `{!BackendLaws V} cpu tsc n (s : heap V) L i m j mj :
  0 <= cpu < 64 -> 0 < n <= 1024 -> heap_ok s L -> get_active cpu (GetSizeClass n) s = Some (Some i, s) ->
  magazine_pool s !! i = Some m -> 1 <= count m -> head s (InFull (GetSizeClass n)) = Some (Some j) -> magazine_pool s !! j = Some mj -> count mj = 32 ->
  exists k, (k <= length (magazine_pool s))%nat /\ cycles cpu tsc n (S k) s = None.
Proof.
  intros Hcpu Hn [g HI] Ha Hm Hc Hh Hj Hcj. exists (length (glist g InPool)). split; [by eapply pool_bound|].
  pose proof (mk_count _ (mag_at _ _ _ _ _ HI Hm)). eapply (cycles_end cpu tsc n Hcpu Hn _ g s L (count m)); [|lia].
  constructor; [done|by exists i, m|done|]. intros _. by exists j, mj.
Qed.
(** The hypotheses as a test, and the state after a first cycle on CPU 0 from boot. *)
Definition leaky {V} `{!Backend V} (cpu sc : Z) (s : heap V) : bool :=
  match get_active cpu sc s, head s (InFull sc) with
  | Some (Some i, _), Some (Some j) =>
      match magazine_pool s !! i, magazine_pool s !! j with
      | Some m, Some mj => (1 <=? count m) && (count mj =? 32) && (length (magazine_pool s) =? 1024)%nat
      | _, _ => false
      end
  | _, _ => false
  end.
Definition plenty {V} `{!Backend V} (cpu sc : Z) (s : heap V) : bool :=
  match get_active cpu sc s with
  | Some (Some i, _) => match magazine_pool s !! i with Some m => 2 <=? count m | None => false end
  | _ => false
  end.
Lemma leaky_ok {V} `{!Backend V} cpu sc (s : heap V) : leaky cpu sc s = true -> exists i m j mj, get_active cpu sc s = Some (Some i, s) /\
  magazine_pool s !! i = Some m /\ 1 <= count m /\ head s (InFull sc) = Some (Some j) /\ magazine_pool s !! j = Some mj /\ count mj = 32 /\
  length (magazine_pool s) = 1024%nat.
Proof.
  unfold leaky, get_active. destruct (arr_get (per_cpu_caches s) cpu) as [c|]; [|done]. cbn. destruct (arr_get c sc) as [[i|]|]; [|done..]. cbn.
  destruct (full_magazines <$> arr_get (depot s) sc) as [[j|]|]; [|done..]. destruct (magazine_pool s !! i) as [m|] eqn:Em; [|done].
  destruct (magazine_pool s !! j) as [mj|] eqn:Ej; [|done]. intros [[G1 G2]%andb_true_iff G3]%andb_true_iff. apply Z.leb_le in G1. apply Z.eqb_eq in G2. apply Nat.eqb_eq in G3.
  by exists i, m, j, mj.
Qed.
Lemma plenty_ok {V} `{!Backend V} cpu sc (s : heap V) : plenty cpu sc s = true -> exists i m, get_active cpu sc s = Some (Some i, s) /\
  magazine_pool s !! i = Some m /\ 2 <= count m.
Proof.
  unfold plenty, get_active. destruct (arr_get (per_cpu_caches s) cpu) as [c|]; [|done]. cbn. destruct (arr_get c sc) as [[i|]|]; [|done..]. cbn.
  destruct (magazine_pool s !! i) as [m|] eqn:Em; [|done]. intros G%Z.leb_le. by exists i, m.
Qed.
Lemma heap_pool_runs_out_witness : exists k, (k <= 1024)%nat /\ cycles 0 0 1024 (S k) demo_cycled = None.
Proof.
  destruct demo_cycled_ok as (L & Hok). assert (G : leaky 0 7 demo_cycled = true) by (vm_compute; reflexivity).
  apply leaky_ok in G as (i & m & j & mj & Ea & Em & G1 & Eh & Ej & G2 & G3).
  destruct (heap_pool_runs_out 0 0 1024 demo_cycled L i m j mj ltac:(lia) ltac:(lia) Hok Ea Em G1 Eh Ej G2) as (k & Hk & E).
  exists k. rewrite G3 in Hk. split; [exact Hk|exact E].
Defined.

(** ** Preemption *)
Section preempt.
Context {V : Type} `{!Backend V} `{!BackendLaws V}.
(** [take_block] is two steps: the count goes down, then the block is read and its header written. *)
Definition take_dec (i : nat) : STM (heap V) unit := upd_mag i (fun m => set_count (u32 (count m - 1)) m).
Definition take_rest (i : nat) (sc : Z) : STM (heap V) Z :=
  m ← get_mag i;
  raw_block ← lift (arr_get (blocks m) (count m));
  store 8 raw_block MAGAZINE_BLOCK_MAGIC;;
  store 1 (raw_block + 8) sc;;
  let user_ptr := raw_block + header_size in
  level ← asks g_validation_level;
  c ← class_size sc;
  (if level =? KHEAP_VALIDATION_FULL then FastMemset user_ptr 0xCD c else mret tt);;
  mret user_ptr.
Lemma take_block_split i sc : take_block (V := V) i sc = (take_dec i;; take_rest i sc).
Proof. reflexivity. Qed.
Lemma take_rest_runs g (s : heap V) L i m p bs : heap_inv g s L -> L !! p = Some bs -> magazine_pool s !! i = Some m ->
  arr_get (blocks m) (count m) = Some (p - 16) -> exists s', take_rest i (GetSizeClass (Z.of_nat (length bs))) s = Some (p, s').
Proof.
  intros HI Hp Hm Hb. destruct (live_block_fits _ _ _ _ _ HI Hp) as (Hsc & Hk & _). set (sc := GetSizeClass _) in *.
  destruct (class_facts sc Hsc) as (_ & Hcs & _ & Hch & _). pose proof (fun x k => block_mapped _ _ _ _ _ x k HI Hk) as HM.
  unfold take_rest. erewrite run_bind by (by apply get_mag_run). erewrite run_bind by (unfold lift; rewrite Hb; reflexivity).
  erewrite run_bind by (unfold store; change (Z.of_nat 8) with 8; rewrite HM by lia; reflexivity).
  erewrite run_bind by (unfold store; cbn [back set_memory]; change (Z.of_nat 1) with 1; rewrite HM by lia; reflexivity).
  erewrite run_bind by apply asks_run. erewrite run_bind by (by apply class_size_run). replace (p - 16 + header_size) with p by (unfold header_size; lia).
  case_if E.
  - unfold FastMemset. rewrite (proj2 (Z.leb_gt (csize sc) 0)) by lia. erewrite run_bind by (cbn [back set_memory]; rewrite HM by lia; reflexivity). by eexists.
  - erewrite run_bind by reflexivity. by eexists.
Qed.
End preempt.
(** An allocation is not safe against preemption.  The fast path of [MagazineAlloc] lowers the
    magazine's count and then reads the block at the new count, with interrupts on.  When another
    thread of the same CPU allocates a block of the class between these two steps, both
    allocations succeed and return the same pointer.  (The free path turns interrupts off.) *)
Theorem preempted_allocation {V} `{!Backend V} `{!BackendLaws V} cpu tsc n (s : heap V) L i m :
  0 <= cpu < 64 -> 0 < n <= 1024 -> heap_ok s L -> get_active cpu (GetSizeClass n) s = Some (Some i, s) -> magazine_pool s !! i = Some m -> 2 <= count m ->
  exists p s0 s1 s2, take_dec i s = Some (tt, s0) /\ MagazineAlloc cpu tsc n s0 = Some (p, s1) /\ take_rest i (GetSizeClass n) s1 = Some (p, s2) /\ p <> 0.
Proof.
  intros Hcpu Hn [g HI] Ea Hm Hc. destruct (class_ok n Hn) as (Hsc & _). set (sc := GetSizeClass n) in *. pose proof (mag_at _ _ _ _ _ HI Hm) as Hok. pose proof Hok as [Hlen Hcnt].
  destruct (get_active_run _ _ _ _ _ HI Hcpu Hsc) as (o & Eo & Hown). rewrite Ea in Eo. injection Eo as <-. destruct (Hown i eq_refl) as (Hoi & _).
  set (m0 := set_count (count m - 1) m). set (s0 := set_pool (<[i := m0]> (magazine_pool s)) s).
  assert (HI0 : heap_inv g s0 L).
  { eapply inv_mag; [exact HI|exact Hm|by constructor; [|cbn; lia]| |by left|rewrite Hoi; by intros (? & [?|?])]. intros sc' Hc'.
    destruct (hi_contents _ _ _ HI _ _ _ Hm Hc') as [HN HC]. destruct (held_last m Hok ltac:(lia)) as (b & _ & Eh). fold m0 in Eh. rewrite Eh in HN, HC.
    apply list.NoDup_app in HN as (HN & _). split; [done|]. intros b' Hb'. apply HC. set_solver. }
  assert (Ea0 : get_active cpu sc s0 = Some (Some i, s0)) by (eapply get_active_same; [|exact Ea]; done).
  assert (Hm0 : magazine_pool s0 !! i = Some m0) by (by eapply pool_upd_same).
  destruct (StatsAdd_ok g s0 L alloc_fast_hits cpu sc HI0 Hcpu Hsc) as (t & E1 & HI1).
  destruct (take_live g (set_stats t s0) L i m0 sc n HI1 Hm0) as (p & m' & Et & Hp & _ & Hb & HI2 & _); [by rewrite Hoi|left; eauto|cbn; lia|done..|].
  set (s1 := set_memory m' _) in *. set (bs := peeks _ _ _) in HI2.
  assert (El : Z.of_nat (length bs) = n) by (unfold bs; rewrite length_peeks; lia).
  destruct (take_rest_runs _ s1 _ i (set_count (count m0 - 1) m0) p bs HI2) as (s2 & E2); [by rewrite lookup_insert, decide_True|by eapply (pool_upd_same i m0)|exact Hb|].
  rewrite El in E2. exists p, s0, s1, s2. split_and!; [|clear E2|exact E2|done].
  - unfold take_dec. rewrite (upd_mag_run _ _ _ _ Hm). by rewrite u32_small by lia.
  - unfold MagazineAlloc. rewrite (proj2 (Z.eqb_neq n 0)) by lia. fold sc. rewrite (proj2 (Z.ltb_ge sc 0)) by lia. erewrite run_bind by exact Ea0. cbn [has_blocks].
    erewrite run_bind by (erewrite run_bind by (by apply get_mag_run); reflexivity). rewrite (proj2 (Z.ltb_lt 0 (count m0))) by (cbn; lia).
    erewrite run_bind by exact E1. exact Et.
Qed.
(** With the 13 blocks that a first cycle leaves. *)
Lemma preempted_allocation_witness : exists i p s0 s1 s2, take_dec i demo_cycled = Some (tt, s0) /\ MagazineAlloc 0 0 1024 s0 = Some (p, s1) /\ take_rest i (GetSizeClass 1024) s1 = Some (p, s2) /\ p <> 0.
Proof.
  destruct demo_cycled_ok as (L & Hok). assert (G : plenty 0 (GetSizeClass 1024) demo_cycled = true) by (vm_compute; reflexivity).
  apply plenty_ok in G as (i & m & Ea & Em & G). exists i. exact (preempted_allocation 0 0 1024 demo_cycled L i m ltac:(lia) ltac:(lia) Hok Ea Em G).
Defined.

(** ** The file system on this heap *)
(** [KernelReallocate] of the block [p] of a file's contents, as [FsWrite] calls it: a panic, NULL,
    or the new contents.  A file without contents passes NULL. *)
Definition kernel_realloc {V} `{!Backend V} (cpu tsc : Z) (s : heap V) (p : Z) (d : bytes) (n : Z) : option (option bytes) :=
  '(r, s') ← KernelReallocate cpu tsc p n s; Some (if r =? 0 then None else Some (contents s' n r)).
Lemma kernel_realloc_big {V} `{!Backend V} cpu tsc (s : heap V) p d n : 1024 < n -> kernel_realloc cpu tsc s p d n = None.
Proof. intros Hn. unfold kernel_realloc, KernelReallocate. by rewrite MagazineReallocate_big. Qed.

(** C16. The kernel heap keeps the contract that the in-memory file system relies on
    ([realloc_meets], the hypothesis [realloc_ok] of C34 and C37): on a well-formed heap, when
    [KernelReallocate] of a held block with contents [d], or of NULL, to [n] bytes returns, then [n]
    is at most 1024, and a result that is not NULL has [n] bytes and starts with [d]. *)
Theorem reallocation_contract {V} `{!Backend V} `{!BackendLaws V} cpu tsc (s : heap V) L p d n r :
  heap_ok s L -> 0 <= cpu < 64 -> 0 <= n -> p = 0 /\ d = [] \/ L !! p = Some d -> kernel_realloc cpu tsc s p d n = Some r -> realloc_meets d n r.
Proof.
  intros [g HI] Hcpu H0 Hp E. destruct (decide (1024 < n)) as [Hbig|Hsm]; [by rewrite kernel_realloc_big in E|]. split; [unfold realloc_max; lia|]. intros d' ->.
  unfold kernel_realloc, KernelReallocate in E. destruct Hp as [[-> ->]|Hp].
  - change (MagazineReallocate cpu tsc 0 n s) with (MagazineAlloc cpu tsc n s) in E. destruct (MagazineAlloc cpu tsc n s) as [[r s']|]; [|done]. cbn in E.
    case_if_in E E0; [done|]. injection E as <-. unfold contents. rewrite length_peeks. split; [lia|done].
  - destruct (live_header _ _ _ _ _ HI Hp) as (Hp0 & _). destruct (decide (n = 0)) as [->|Hn0].
    { unfold MagazineReallocate in E. rewrite (proj2 (Z.eqb_neq p 0)), Z.eqb_refl in E by done. unfold mbind at 2, STM_bind in E. destruct (MagazineFree cpu p s) as [[u s']|]; done. }
    destruct (MagazineReallocate_ok g s L cpu tsc p d n HI Hp Hcpu) as [[E' _]|(r & s' & E' & [[-> _]|(bs' & Hr & HL & _ & Hlen & Hpre & Hok)])]; [lia|by rewrite E' in E..|].
    rewrite E' in E. cbn in E. rewrite (proj2 (Z.eqb_neq r 0)) in E by done. injection E as <-. rewrite (heap_ok_fresh _ _ _ _ n Hok Hlen).
    split; [done|]. intros Hd. rewrite Hpre. apply take_ge. lia.
Qed.
(** The heap at boot serves a file's first three bytes. *)
Lemma reallocation_contract_witness : exists r, kernel_realloc 0 0 demo_start 0 [] 3 = Some (Some r) /\ realloc_meets [] 3 (Some r).
Proof.
  assert (G : match kernel_realloc 0 0 demo_start 0 [] 3 with Some (Some r) => true | _ => false end = true) by (vm_compute; reflexivity).
  destruct (kernel_realloc 0 0 demo_start 0 [] 3) as [[r|]|] eqn:E; [|discriminate G..]. exists r. split; [reflexivity|].
  exact (reallocation_contract 0 0 demo_start ∅ 0 [] 3 (Some r) demo_start_ok ltac:(lia) ltac:(lia) (or_introl (conj eq_refl eq_refl)) E).
Defined.

(** A write that grows a file of the in-memory file system beyond 1024 bytes stops the kernel.
    Whatever the state of the heap, [FsWrite] through a handle open for writing, of a buffer that
    is not empty, to an end beyond the file's size and beyond 1024 bytes, panics: [KernelReallocate]
    is [MagazineReallocate], which panics on every size above the largest class. *)
Theorem large_write_panics {V} `{!Backend V} cpu tsc (h : heap V) p s f k x i n buf : fs_ok s ->
  GetHandle f s = Some (Some k) -> file_handles s !! k = Some x -> has (hflags x) FS_WRITE = true -> hnode x = Some i -> get_node i s = Some n ->
  buf <> [] -> Z.of_nat (length buf) < 2 ^ 63 -> size n < position x + Z.of_nat (length buf) -> 1024 < position x + Z.of_nat (length buf) ->
  FsWrite (kernel_realloc cpu tsc h p) f buf s = None.
Proof.
  intros (K & dep & r & HI) HG Hx HW Hi Hn Hb Hl Hg Hbig. pose proof (hk_pos _ (ak_handle _ (fi_aux _ _ _ _ HI) _ _ Hx)) as Hpos.
  unfold FsWrite. rewrite HG, option_bind_Some, Hx, option_bind_Some, HW. cbn [negb]. assert (Hlb : length buf <> 0%nat) by (by destruct buf).
  rewrite (proj2 (Z.eqb_neq (Z.of_nat (length buf)) 0)) by lia. rewrite Hi, Hn, option_bind_Some. cbv zeta. rewrite u64_small by lia.
  rewrite (proj2 (Z.ltb_lt _ _) Hg). by rewrite kernel_realloc_big.
Qed.
(** 1022 bytes written at offset 3 of [/a/b]. *)
Lemma large_write_panics_witness : FsWrite (kernel_realloc 0 0 demo_start 0) 1 (replicate 1022 7) demo_fs = None.
Proof.
  assert (G : exists x n, file_handles demo_fs !! 0%nat = Some x /\ has (hflags x) FS_WRITE = true /\ hnode x = Some 2%nat /\ position x = 3 /\
      get_node 2 demo_fs = Some n /\ size n = 3) by (vm_compute; do 2 eexists; split_and!; reflexivity).
  destruct G as (x & n & G1 & G2 & G3 & G4 & G5 & G6).
  apply (large_write_panics 0 0 demo_start 0 demo_fs 1 0%nat x 2%nat n); [exact demo_ok|vm_compute; reflexivity|exact G1|exact G2|exact G3|exact G5|discriminate|
    rewrite length_replicate; lia|rewrite G4, G6, length_replicate; lia|rewrite G4, length_replicate; lia].
Defined.
